(* ===== verification/_CoqProject ===== *)
-Q . S2P
Prelude.v
Common.v
Params.v
Uint256.v
Rlp.v
Crypto.v
VmMemory.v
VmAnalysis.v
Blake2b.v
VmState.v
VmContracts.v
VmTable.v
VmGas.v
VmInstr.v
VmInterp.v
VmSpec.v
VmMemFacts.v
VmTableOk.v
VmInv.v
VmGasSafe.v
VmContractsSafe.v
VmCallSafe.v
VmExecSafe.v
VmExecMem.v
VmExecCalls.v
VmStepSafe.v
VmSafety.v
VmFuel.v
VmTheorems.v
VmSemantics.v
VmRules.v
StateTransition.v
StateDB.v
StateDBView.v
StateDBRefine.v
StateDBTheorems.v
RlpStream.v
RlpSpec.v
RlpDecode.v
RlpTheorems.v
RlpRaw.v
Trie.v
TrieEnc.v
TrieSpec.v
TrieRefine.v
TrieUpdate.v
TrieMap.v
TrieHash.v
TrieDisk.v
TrieCommit.v
TrieProof.v
TrieExample.v
StackTrie.v
StackTrieOk.v
StackTrieTheorems.v
StackTrieExample.v
Bitutil.v
Types.v
Transaction.v
Receipt.v
Bloom.v
LogFilter.v
Block.v
BlockExample.v
EthashSizes.v
EthashAlgo.v
EthashCache.v
Engine.v
Ethash.v
EthashUncles.v
EthashHeaders.v
EthashExample.v
Clique.v
CliqueVotes.v
CliqueApply.v
CliqueEngine.v
CliqueVerify.v
CliqueSeal.v
CliqueExample.v
Processor.v
