(* ===== verification/Prelude.v ===== *)
(** * A verification library for the execution and consensus core of go-ethereum

    The program is an Ethereum client.  Its execution core takes a message and a
    state and computes the next state: [core/state_transition.go] buys gas and
    charges fees around a call of the EVM ([core/vm]), which runs bytecode against
    the account database ([core/state]); accounts and storage live in Merkle
    Patricia tries ([trie]), whose nodes are encoded with RLP ([rlp]).  Messages are
    made from signed transactions, and come in blocks with receipts and blooms
    ([core/types]), whose roots are hashes of tries; a log index and a log filter
    ([core/bloombits], [eth/filters]) answer queries from the blooms.  Whether a
    header is accepted is decided by one of two engines: proof of work
    ([consensus/ethash]) or signatures by voted signers ([consensus/clique]).  The
    library models these packages as executable definitions and proves them correct.

    ** Conventions

    Integers of a width are [Z] with the wrap-around written out ([u64], [u8], the
    class [Uint256] for the words of the EVM); [*big.Int] is [Z], a pointer that may
    be nil an [option].  Bytes are [Z] below 256 ([is_byte]), slices lists, Go maps
    [gmap].  A panic is the outcome [Panic], an error a value of a sum; code that
    changes an object threads a state through the monad [M] ([Ok], [Panic],
    [NoFuel]).  Loops and recursions that are not structural have fuel; the
    theorems show that the fuel the definitions supply is enough, so that [NoFuel]
    does not occur.  Sizes of data are bounded by [data_max] (2^62): a Go slice
    cannot be longer, and sums of a few lengths then do not overflow.

    Code that is not in the repository is a class: [Uint256] with [Uint256Laws]
    (github.com/holiman/uint256), [Keccak] (golang.org/x/crypto), [CryptoPrims] with
    [CryptoLaws] (curves and hash functions of the precompiled contracts),
    [StateStore] (the database under [core/state]), [Secp256k1] (keys and signatures),
    [Keccak512], [SimpleLRU] with [SimpleLRULaws] (the caches of hashicorp/golang-lru),
    [MapSet] with its laws (deckarep/golang-set).  Interfaces of the repository are
    classes too: [StateDBSpec], [Hasher], [Backend], [ChainReader] with
    [ChainReaderLaws].  Each has an executable instance, at which the theorems are
    applied to concrete inputs.

    ** Files and what they model

    - Prelude: this header, notations, outcomes and the state monad with its
      weakest preconditions [wp], lemmas on lists, bytes and integers.
    - Common, Params, Crypto, Uint256: [common], [params] (fork rules, compatibility
      of chain configurations, gas prices), [crypto/crypto.go], 256-bit words.
    - VmMemory, VmAnalysis, VmState, VmContracts, Blake2b, VmTable, VmGas, VmInstr,
      VmInterp: [core/vm] in the order of its layers (stack and memory, jump
      destination analysis, the mutable fields of an EVM and a contract, precompiled
      contracts with the BLAKE2b compression function, jump tables, gas functions,
      instructions and calls, interpreter loop).  An [operation] of a jump table
      names its functions by constructors; tables share operations through a heap,
      as they share pointers in Go.
    - VmSpec: the class [StateDBSpec], what the EVM may assume of the account
      database: an abstract account state with nested snapshots.
    - VmMemFacts, VmTableOk, VmInv, VmGasSafe, VmContractsSafe, VmCallSafe,
      VmExecSafe, VmExecMem, VmExecCalls, VmStepSafe, VmSafety, VmFuel: the
      invariant of the interpreter, layer by layer.
    - VmTheorems, VmSemantics, VmRules: the theorems about the EVM.
    - StateTransition: [core/state_transition.go], [core/gaspool.go] and their
      theorems.
    - StateDB (definitions), StateDBView, StateDBRefine, StateDBTheorems:
      [core/state] with its journal and the root of the state, and the proof that it
      is a [StateDBSpec], so that the theorems about the EVM hold for it.
    - Rlp (encoder, raw splitting), RlpStream (stream decoder), RlpSpec, RlpDecode,
      RlpTheorems, RlpRaw: [rlp] against the encoding of the Yellow Paper.
    - Trie (definitions), TrieEnc, TrieSpec, TrieRefine, TrieUpdate, TrieMap,
      TrieHash, TrieDisk, TrieCommit, TrieProof, TrieExample: [trie].  A node of the
      trie stands for a tree ([Rep]), directly where it is loaded and through the
      database where it is a hash; a tree stands for a finite map ([content]).
    - StackTrie, StackTrieOk, StackTrieTheorems, StackTrieExample:
      [trie/stacktrie.go], the trie that is built from sorted keys and keeps the
      right edge only, and [core/types/derive_sha.go].
    - Bitutil: [common/bitutil], operations by words and the compression of vectors.
    - Types, Transaction, Receipt, Bloom, Block, BlockExample: [core/types] and
      [core/block_validator.go] (headers and their hashes, transactions and signers,
      receipts, blooms, blocks and their checks).
    - LogFilter: the log index of [eth/bloombits.go] and [core/bloombits], and the
      filter of [eth/filters/filter.go].
    - EthashSizes, EthashAlgo, EthashCache: [consensus/ethash/algorithm.go] and the
      caches of [ethash.go].  Engine: the chain reader, [consensus/misc] and the
      difficulty.  Ethash, EthashUncles, EthashHeaders, EthashExample: the checks of
      headers, uncles and batches, rewards, and mining.  A batch is a transition
      system of workers and a collector ([vstep]).
    - Clique (snapshots and votes), CliqueVotes (the abstract vote [gov_vote] and one
      header), CliqueApply (runs of headers), CliqueEngine (the engine), CliqueVerify
      (the search for a snapshot), CliqueSeal (signatures and headers),
      CliqueExample: [consensus/clique].
    - Processor: [core/state_processor.go], [core/evm.go] and the DAO fork, which
      join the parts: the transactions of a block are applied with the message, the
      EVM and the state above, and an engine ends the block.

    ** What the theorems show

    - Blocks as a whole: processing a block gives a receipt for each transaction, gas
      that adds up within the limit and no more ether than the engine pays, or the
      error of the first transaction that is refused ([Process_correct]); the engines
      pay what [ethash_pays] and [clique_pays] say; the hashes the BLOCKHASH
      instruction reads are those of ancestors ([GetHashFn_ok]).
    - Messages: when a message is refused, what it costs, what a failed one leaves
      behind, and that no ether is made ([TransitionDb_correct], [no_ether_created]).
    - The EVM: it ends and does not panic on any code ([run_terminates]); calls and
      creations are atomic, static calls change nothing; arithmetic, storage, memory
      and jumps are those of the Yellow Paper; the gas rules of EIP-150 and EIP-2200;
      jump tables of all forks are well formed; precompiled contracts are safe.
    - The account database: it refines the abstract account state for any sequence
      of calls with nested snapshots ([statedb_refines], [snapshot_revert],
      [Finalise_correct]); the trie whose root is computed has the accounts
      ([IntermediateRoot_correct]).
    - RLP: the encoder computes the encoding of the Yellow Paper; decoding inverts
      it, accepts canonical encodings only, and ends on any input.
    - The trie: gets, updates and deletes refine a finite map whatever is loaded;
      the root hash depends on the content only, and determines it unless hashes
      collide; a committed trie opens again with its content; proofs of single keys
      are sound and complete; the append-only trie has the same root hash.
    - Blocks: what is signed is recovered, receipts are decoded from their encodings,
      blooms contain their logs, a block made by [NewBlock] passes the checks and its
      hash commits to its body.  A filter returns exactly the logs that match, from
      the index as well as without it, and the index serves what it has stored.
    - Ethash: a header is accepted exactly when it follows the rules, with the
      difficulty of its fork; uncles and rewards; a batch ends under every schedule
      with the results in order; what the miner finds in the dataset is valid for the
      check in the cache ([VerifyHeader_correct], [mine_verifies]).
    - Clique: snapshots stay well formed and follow an abstract vote, signers wait for
      each other, the snapshot that is found is a replay whatever the caches hold, and
      accepted headers follow the rules ([apply_correct], [verifyHeader_sound]).
      [seal_and_replay] compares the two places where a signer is checked.

    Where a theorem needs hashes not to collide it says so for the finitely many
    values that occur, since a hash of 256 bits cannot be injective on all byte
    strings.  The one exception is [KeccakInjective], an idealisation used for the
    cache of jump destination analyses, which is keyed by the hash of the code.

    ** Bounds and fuel

    - A run of the EVM has more fuel than gas: every round of the loop costs gas and
      every frame is paid for; gas is below [gas_max], as that of a block is.
    - An operation on a trie has one round per nibble of the key and one more per
      node it loads ([op_fuel]); a proof one round per nibble.  Keys and values of a
      trie are below [size_max] (2^40 bytes).
    - A decoder has more fuel than its input has bytes.
    - The loops of [emit] and of the search for a prime size have as many rounds as
      there are numbers in their range; the search for a snapshot has one round per
      block down to the genesis block ([snapshot_fuel]).
    - A message has one round more of fuel than gas; the search for the hash of an
      ancestor one round per block.
    - Numbers of blocks are below [maxEpoch] epochs for ethash, and below 2^59 for
      clique, so that the sums the code forms do not overflow.

    ** Not modelled, and why

    - Tracing, logging and metrics; the ewasm interpreter (not in the repository).
    - [Commit] and [Copy] of [core/state], the snapshot tree, and the caches of
      [core/state/database.go].
    - The reference counts, flush list and disk writes of [trie/database.go], the
      entry of the zero hash that roots them and the cache of clean nodes;
      iterators, range proofs, the trie with hashed keys, and state sync.
    - RLP for types with methods of their own other than receipts and logs, the
      reflection on struct tags and its cache, [EncodeToReader] and the list iterator.
    - Of [core/types] the JSON forms, the storage forms of older versions, the caches
      of hashes and senders, and the heap that orders transactions by price.
    - Of the engines the memory-mapped files, the remote sealer, the hash rate and the
      delay before a sealed block is sent; the JSON form of stored snapshots (a map
      from hashes to snapshots stands for it).  The cache of signers is modelled and
      shown to be transparent ([ecrecover_ok]), so that the engine is stated without
      it.
    - The channels between the parts of the log matcher: what each stage computes for
      a section is modelled, not the order in which sections are fetched.
    - Everything around this core: import of blocks, transaction pool, databases,
      networking, accounts, RPC and command line programs.  They are driven by
      goroutines, timers, files and sockets, or are tables and generated code. *)

From Stdlib Require Import ZArith Lia.
From stdpp Require Export base gmap list.
From stdpp Require Import strings.

Open Scope Z_scope.

(** ** Go machine integers

    A [uint64] is a [Z] in [0, 2^64); arithmetic that can leave the range is
    followed by [u64]. *)

Declare Scope go_scope.
Delimit Scope go_scope with go.

Definition two64 : Z := 18446744073709551616.
Definition two256 : Z := 2 ^ 256.
Definition two160 : Z := 2 ^ 160.
Definition two63 : Z := 9223372036854775808.
Definition two32 : Z := 4294967296.

Definition MaxUint64 : Z := two64 - 1.

Definition u64 (x : Z) : Z := x mod two64.
Definition u32 (x : Z) : Z := x mod two32.
Definition u8 (x : Z) : Z := x mod 256.

(** Conversion [int64(x)] of a [uint64]: two's complement. *)
Definition i64 (x : Z) : Z := let y := x mod two64 in if y <? two63 then y else y - two64.

Notation "x +u y" := (u64 (x + y)) (at level 50, left associativity) : go_scope.
Notation "x -u y" := (u64 (x - y)) (at level 50, left associativity) : go_scope.
Notation "x *u y" := (u64 (x * y)) (at level 40, left associativity) : go_scope.

Definition is_u64 (x : Z) : Prop := 0 <= x < two64.

Lemma u64_range x : is_u64 (u64 x).
Proof. unfold u64, is_u64, two64. apply Z.mod_pos_bound. lia. Qed.

Lemma u64_small x : is_u64 x -> u64 x = x.
Proof. unfold u64, is_u64, two64. apply Z.mod_small. Qed.

Lemma u64_idem x : u64 (u64 x) = u64 x.
Proof. apply u64_small, u64_range. Qed.

Lemma u64_wrap_high x : two64 <= x < 2 * two64 -> u64 x = x - two64.
Proof.
  unfold u64, two64. intros H. symmetry. apply Z.mod_unique with (q := 1); lia.
Qed.

Lemma u64_wrap_low x : - two64 <= x < 0 -> u64 x = x + two64.
Proof.
  unfold u64, two64. intros H. symmetry. apply Z.mod_unique with (q := -1); lia.
Qed.

Lemma i64_small x : 0 <= x < two63 -> i64 x = x.
Proof.
  unfold i64, two64, two63. intros H. rewrite Z.mod_small by lia.
  destruct (Z.ltb_spec x 9223372036854775808); lia.
Qed.

(** [Z] as the key of stdpp maps; [bytes] are lists of octets. *)
Abbreviation bytes := (list Z) (only parsing).

Definition is_byte (b : Z) : Prop := 0 <= b < 256.

(** Byte strings that occur at run time: octets, and far fewer than an [int]
    can count. *)
Definition data_max : Z := 4611686018427387904.   (* 2^62 *)

(** ** Outcomes of a Go computation

    A Go function either returns, or panics.  [NoFuel] is the model's own
    outcome: the fuel of an unbounded loop ran out.  The theorems about code
    that runs a loop show which fuel is enough for [NoFuel] not to occur. *)

Inductive panic : Type :=
| PanicIndex          (* index or slice bounds out of range *)
| PanicMemory         (* "invalid memory: store empty" *)
| PanicRefund         (* "Refund counter below zero" *)
| PanicRevision       (* "revision id cannot be reverted" *)
| PanicNil            (* nil pointer dereference *)
| PanicTypeAssert     (* failed type assertion *)
| PanicGasPool        (* "gas pool pushed above uint64" *)
| PanicOther.

Inductive outcome (A : Type) : Type :=
| Ok (a : A)
| Panic (p : panic)
| NoFuel.

Arguments Ok {A} a.
Arguments Panic {A} p.
Arguments NoFuel {A}.

Definition obind {A B} (o : outcome A) (f : A -> outcome B) : outcome B :=
  match o with
  | Ok a => f a
  | Panic p => Panic p
  | NoFuel => NoFuel
  end.

Definition of_option {A} (p : panic) (o : option A) : outcome A :=
  match o with
  | Some a => Ok a
  | None => Panic p
  end.

(** The state monad over outcomes used for code that mutates a shared state. *)

Definition M (S A : Type) : Type := S -> outcome (A * S).

Definition ret {S A} (a : A) : M S A := fun s => Ok (a, s).
Definition bind {S A B} (m : M S A) (f : A -> M S B) : M S B :=
  fun s => match m s with
           | Ok (a, s') => f a s'
           | Panic p => Panic p
           | NoFuel => NoFuel
           end.
Definition get {S} : M S S := fun s => Ok (s, s).
Definition gets {S A} (f : S -> A) : M S A := fun s => Ok (f s, s).
Definition put {S} (s : S) : M S unit := fun _ => Ok (tt, s).
Definition modify {S} (f : S -> S) : M S unit := fun s => Ok (tt, f s).
Definition raise {S A} (p : panic) : M S A := fun _ => Panic p.
Definition lift_opt {S A} (p : panic) (o : option A) : M S A :=
  match o with Some a => ret a | None => raise p end.
Definition lift_out {S A} (o : outcome A) : M S A :=
  fun s => match o with Ok a => Ok (a, s) | Panic p => Panic p | NoFuel => NoFuel end.

(** The same for outcomes alone. *)
Notation "x <- m ;; k" := (obind m (fun x => k))
  (at level 20, m at level 99, k at level 200, only parsing) : go_scope.

Notation "x <~ m ;; k" := (bind m (fun x => k))
  (at level 20, m at level 99, k at level 200, only parsing) : go_scope.
Notation "' pat <~ m ;; k" := (bind m (fun x => match x with pat => k end))
  (at level 20, pat pattern, m at level 99, k at level 200, only parsing) : go_scope.
Notation "m ;;; k" := (bind m (fun _ => k))
  (at level 100, k at level 200, right associativity, only parsing) : go_scope.

(** ** Weakest preconditions

    [wp m s Q]: run from [s], [m] returns and its result satisfies [Q].  One
    panic is let through, that of the refund counter ([PanicRefund]): it depends
    on the history of a whole transaction, and the code that can raise it is
    reasoned about modulo that panic. *)

Definition okp {A} (o : outcome A) (Q : A -> Prop) : Prop :=
  match o with
  | Ok a => Q a
  | Panic PanicRefund => True
  | _ => False
  end.

Definition wp {S A} (m : M S A) (s : S) (Q : A -> S -> Prop) : Prop :=
  okp (m s) (fun r => Q (fst r) (snd r)).

Section wp_rules.
Context {S : Type}.
Implicit Types (s : S).

Lemma okp_mono {A} (o : outcome A) (Q Q' : A -> Prop) :
  okp o Q -> (forall a, Q a -> Q' a) -> okp o Q'.
Proof. destruct o as [a|[]|]; cbn; auto. Qed.

Lemma wp_ret {A} (a : A) s (Q : A -> S -> Prop) : Q a s -> wp (ret a) s Q.
Proof. auto. Qed.

Lemma wp_bind {A B} (m : M S A) (f : A -> M S B) s Q :
  wp m s (fun a s' => wp (f a) s' Q) -> wp (bind m f) s Q.
Proof.
  unfold wp, bind. destruct (m s) as [[a s']|[]|]; cbn; auto.
Qed.

Lemma wp_mono {A} (m : M S A) s (Q Q' : A -> S -> Prop) :
  wp m s Q -> (forall a s', Q a s' -> Q' a s') -> wp m s Q'.
Proof. unfold wp. intros H HQ. eapply okp_mono; [exact H|]. intros [a s']; cbn; auto. Qed.

Lemma wp_conj {A} (m : M S A) s (Q Q' : A -> S -> Prop) :
  wp m s Q -> wp m s Q' -> wp m s (fun a s' => Q a s' /\ Q' a s').
Proof. unfold wp. destruct (m s) as [[a s']|[]|]; cbn; auto. Qed.

Lemma wp_gets {A} (f : S -> A) s (Q : A -> S -> Prop) : Q (f s) s -> wp (gets f) s Q.
Proof. auto. Qed.
Lemma wp_get s (Q : S -> S -> Prop) : Q s s -> wp get s Q.
Proof. auto. Qed.
Lemma wp_put s s' (Q : unit -> S -> Prop) : Q tt s' -> wp (put s') s Q.
Proof. auto. Qed.
Lemma wp_modify f s (Q : unit -> S -> Prop) : Q tt (f s) -> wp (modify f) s Q.
Proof. auto. Qed.
Lemma wp_lift_opt {A} p (o : option A) a s (Q : A -> S -> Prop) :
  o = Some a -> Q a s -> wp (lift_opt p o) s Q.
Proof. intros ->. auto. Qed.

Lemma wp_elim {A} (m : M S A) s (Q : A -> S -> Prop) a s' :
  wp m s Q -> m s = Ok (a, s') -> Q a s'.
Proof. unfold wp. intros H E. rewrite E in H. exact H. Qed.
End wp_rules.

(** ** Byte strings indexed by [Z] *)

Definition zlen {A} (l : list A) : Z := Z.of_nat (length l).

Definition zget {A} (l : list A) (i : Z) : option A :=
  if (0 <=? i) then l !! Z.to_nat i else None.

(** [l[i] = x], out of range panics. *)
Definition zput {A} (l : list A) (i : Z) (x : A) : option (list A) :=
  if (0 <=? i) && (i <? zlen l) then Some (<[Z.to_nat i := x]> l) else None.

(** [l[a:b]].  Slicing past the length is out of range here, also where Go
    would still find spare capacity behind the slice. *)
Definition zslice {A} (l : list A) (a b : Z) : option (list A) :=
  if (0 <=? a) && (a <=? b) && (b <=? zlen l)
  then Some (take (Z.to_nat (b - a)) (drop (Z.to_nat a) l)) else None.

(** [copy(dst, src)]: the first [min(len dst, len src)] elements. *)
Definition gocopy {A} (dst src : list A) : list A :=
  take (length dst) src ++ drop (length src) dst.

Definition zeros (n : Z) : bytes := replicate (Z.to_nat n) 0.

Lemma foldr_and_Forall {A} (P : A -> Prop) l : foldr and True (map P l) <-> Forall P l.
Proof.
  induction l as [|x l IH]; cbn; [split; [intros _; apply Forall_nil_2|done]|]. by rewrite Forall_cons, IH.
Qed.

Definition data_ok (l : bytes) : Prop := Forall is_byte l /\ zlen l <= data_max.

Section zlist.
Context {A : Type}.
Implicit Types (l : list A).

Lemma zlen_nonneg l : 0 <= zlen l.
Proof. unfold zlen. lia. Qed.

Lemma zlen_nil : zlen (@nil A) = 0.
Proof. reflexivity. Qed.

Lemma zlen_cons x l : zlen (x :: l) = 1 + zlen l.
Proof. unfold zlen. cbn [length]. lia. Qed.

Lemma zlen_app l1 l2 : zlen (l1 ++ l2) = zlen l1 + zlen l2.
Proof. unfold zlen. rewrite length_app. lia. Qed.

Lemma zlen_zero l : zlen l = 0 -> l = [].
Proof. unfold zlen. destruct l; cbn; [done|lia]. Qed.

Lemma zget_Some l i : 0 <= i < zlen l -> exists x, zget l i = Some x.
Proof.
  unfold zget, zlen. intros H. destruct (Z.leb_spec 0 i); [|lia].
  destruct (l !! Z.to_nat i) eqn:E; [eauto|]. apply lookup_ge_None in E. lia.
Qed.

Lemma zget_None l i : zget l i = None <-> ~ (0 <= i < zlen l).
Proof.
  unfold zget, zlen. destruct (Z.leb_spec 0 i).
  - rewrite lookup_ge_None. lia.
  - split; [lia|done].
Qed.

Lemma zget_lt l i x : zget l i = Some x -> 0 <= i < zlen l.
Proof.
  unfold zget, zlen. destruct (Z.leb_spec 0 i); [|done].
  intros E. apply lookup_lt_Some in E. lia.
Qed.

Lemma zput_Some l i x : 0 <= i < zlen l -> zput l i x = Some (<[Z.to_nat i := x]> l).
Proof.
  unfold zput. intros H. destruct (Z.leb_spec 0 i), (Z.ltb_spec i (zlen l)); cbn; done || lia.
Qed.

Lemma zput_length l i x l' : zput l i x = Some l' -> zlen l' = zlen l.
Proof.
  unfold zput. case_match; [|done]. intros [= <-]. unfold zlen. by rewrite length_insert.
Qed.

Lemma zslice_Some l a b :
  0 <= a -> a <= b -> b <= zlen l ->
  zslice l a b = Some (take (Z.to_nat (b - a)) (drop (Z.to_nat a) l)).
Proof.
  unfold zslice. intros.
  destruct (Z.leb_spec 0 a), (Z.leb_spec a b), (Z.leb_spec b (zlen l)); cbn; done || lia.
Qed.

Lemma zslice_inv l a b l' :
  zslice l a b = Some l' ->
  0 <= a /\ a <= b /\ b <= zlen l /\ l' = take (Z.to_nat (b - a)) (drop (Z.to_nat a) l).
Proof.
  unfold zslice.
  destruct (Z.leb_spec 0 a), (Z.leb_spec a b), (Z.leb_spec b (zlen l)); cbn; try done.
  intros [= <-]. auto.
Qed.

Lemma zslice_length l a b l' : zslice l a b = Some l' -> zlen l' = b - a.
Proof.
  intros (Ha & Hb & Hl & ->)%zslice_inv. unfold zlen in *.
  rewrite length_take, length_drop. lia.
Qed.

Lemma zslice_full l : zslice l 0 (zlen l) = Some l.
Proof.
  rewrite zslice_Some by (try apply zlen_nonneg; lia).
  rewrite drop_0, take_ge; [done|]. unfold zlen. lia.
Qed.

Lemma gocopy_length (dst src : list A) : length (gocopy dst src) = length dst.
Proof. unfold gocopy. rewrite length_app, length_take, length_drop. lia. Qed.
End zlist.

Lemma zlen_zeros n : 0 <= n -> zlen (zeros n) = n.
Proof. unfold zlen, zeros. rewrite length_replicate. lia. Qed.

(** ** Big-endian byte strings *)

Fixpoint be_val_acc (acc : Z) (l : bytes) : Z :=
  match l with
  | [] => acc
  | b :: l => be_val_acc (acc * 256 + b) l
  end.

(** [new(big.Int).SetBytes(l)]. *)
Definition be_val (l : bytes) : Z := be_val_acc 0 l.

(** The [n] low-order bytes of [z], most significant first. *)
Fixpoint be_bytes (n : nat) (z : Z) : bytes :=
  match n with
  | O => []
  | S n => be_bytes n (z / 256) ++ [z mod 256]
  end.

Lemma be_val_acc_app acc l1 l2 : be_val_acc acc (l1 ++ l2) = be_val_acc (be_val_acc acc l1) l2.
Proof. revert acc. induction l1 as [|b l1 IH]; intros acc; cbn; auto. Qed.

Lemma be_val_app_one l b : be_val (l ++ [b]) = be_val l * 256 + b.
Proof. unfold be_val. by rewrite be_val_acc_app. Qed.

Lemma be_val_acc_shift acc l : be_val_acc acc l = acc * 256 ^ zlen l + be_val l.
Proof.
  unfold be_val. revert acc. induction l as [|b l IH]; intros acc; cbn [be_val_acc].
  - rewrite zlen_nil. lia.
  - rewrite IH, (IH (0 * 256 + b)), zlen_cons.
    rewrite Z.pow_add_r by (try apply zlen_nonneg; lia). lia.
Qed.

Lemma be_val_app l1 l2 : be_val (l1 ++ l2) = be_val l1 * 256 ^ zlen l2 + be_val l2.
Proof. unfold be_val at 1. rewrite be_val_acc_app, be_val_acc_shift. done. Qed.

Lemma be_val_cons b l : be_val (b :: l) = b * 256 ^ zlen l + be_val l.
Proof.
  unfold be_val at 1. cbn [be_val_acc]. rewrite be_val_acc_shift. lia.
Qed.

Lemma be_bytes_length n z : length (be_bytes n z) = n.
Proof.
  revert z. induction n as [|n IH]; intros z; cbn; [done|].
  rewrite length_app, IH. cbn. lia.
Qed.

Lemma be_bytes_is_byte n z : Forall is_byte (be_bytes n z).
Proof.
  revert z. induction n as [|n IH]; intros z; cbn; [constructor|].
  apply Forall_app. split; [auto|]. constructor; [|constructor].
  apply Z.mod_pos_bound. lia.
Qed.

Lemma be_val_be_bytes n z : be_val (be_bytes n z) = z mod 256 ^ Z.of_nat n.
Proof.
  revert z. induction n as [|n IH]; intros z.
  - cbn. by rewrite Z.mod_1_r.
  - cbn [be_bytes]. rewrite be_val_app_one, IH.
    rewrite Nat2Z.inj_succ, Z.pow_succ_r by lia.
    rewrite Z.rem_mul_r by (try apply Z.pow_nonzero; lia). lia.
Qed.

Lemma be_val_bound l : Forall is_byte l -> 0 <= be_val l < 256 ^ zlen l.
Proof.
  induction 1 as [|b l Hb Hl IH].
  - change (0 <= 0 < 1). lia.
  - rewrite be_val_cons, zlen_cons.
    rewrite Z.pow_add_r by (try apply zlen_nonneg; lia).
    unfold is_byte in Hb. change (256 ^ 1) with 256.
    set (P := 256 ^ zlen l) in *. nia.
Qed.

Lemma be_bytes_be_val l : Forall is_byte l -> be_bytes (length l) (be_val l) = l.
Proof.
  induction l as [|b l IH] using rev_ind; intros Hl; [done|].
  apply Forall_app in Hl as [Hl Hb]. apply Forall_cons in Hb as [Hb _].
  unfold is_byte in Hb.
  rewrite length_app, Nat.add_comm. cbn [length Nat.add be_bytes].
  rewrite be_val_app_one.
  replace ((be_val l * 256 + b) / 256) with (be_val l)
    by (rewrite Z.div_add_l, Z.div_small by lia; lia).
  replace ((be_val l * 256 + b) mod 256) with b
    by (rewrite Z.add_comm, Z.mod_add, Z.mod_small by lia; lia).
  by rewrite IH.
Qed.

(** ** Automation *)

Create HintDb go discriminated.
#[export] Hint Resolve u64_range zlen_nonneg : go.
Create Rewrite HintDb zlen.
#[export] Hint Rewrite @zlen_nil @zlen_cons @zlen_app : zlen.

(** Turn the boolean tests of the code into propositions. *)
Ltac go_bool :=
  repeat match goal with
  | H : _ && _ = true |- _ => apply andb_true_iff in H; destruct H
  | H : _ || _ = false |- _ => apply orb_false_iff in H; destruct H
  | H : negb _ = true |- _ => apply negb_true_iff in H
  | H : negb _ = false |- _ => apply negb_false_iff in H
  | H : (_ =? _) = true |- _ => apply Z.eqb_eq in H
  | H : (_ =? _) = false |- _ => apply Z.eqb_neq in H
  | H : (_ <? _) = true |- _ => apply Z.ltb_lt in H
  | H : (_ <? _) = false |- _ => apply Z.ltb_ge in H
  | H : (_ <=? _) = true |- _ => apply Z.leb_le in H
  | H : (_ <=? _) = false |- _ => apply Z.leb_gt in H
  end.

(** Arithmetic on machine integers after unfolding their bounds. *)
Ltac u64_lia := unfold is_u64, MaxUint64, two64, two63, two32 in *; lia.

(** Split the first conditional or match of the goal. *)
Ltac go_case :=
  match goal with
  | |- context [if ?b then _ else _] => destruct b eqn:?
  | |- context [match ?x with _ => _ end] => destruct x eqn:?
  end.
