(* ===== verification/Common.v ===== *)
(** * Shared helpers of package [common]

    Checked integer arithmetic ([common/math/integer.go]), byte-slice helpers
    ([common/bytes.go]) and the fixed-size arrays [Hash] and [Address]
    ([common/types.go]).  A fixed-size byte array is represented by the number
    it denotes in big-endian order: [Hash] in [0, 2^256), [Address] in
    [0, 2^160); [Hash_Bytes] and [Address_Bytes] give the array back. *)

From Stdlib Require Import ZArith Lia.
From S2P Require Import Prelude.

(** ** common/math/integer.go *)

(** [bits.Sub64(x, y, 0)], [bits.Add64(x, y, 0)], [bits.Mul64(x, y)] return the
    result modulo 2^64 and the borrow, carry or high word. *)
Definition SafeSub (x y : Z) : Z * bool :=
  let diff := u64 (x - y) in
  let borrowOut := if x <? y then 1 else 0 in
  (diff, negb (borrowOut =? 0)).

Definition SafeAdd (x y : Z) : Z * bool :=
  let sum := u64 (x + y) in
  let carryOut := (x + y) / two64 in
  (sum, negb (carryOut =? 0)).

Definition SafeMul (x y : Z) : Z * bool :=
  let hi := (x * y) / two64 in
  let lo := u64 (x * y) in
  (lo, negb (hi =? 0)).

(** [BigMax], [BigMin] of common/math/big.go. *)
Definition BigMax (x y : Z) : Z := if x <? y then y else x.
Definition BigMin (x y : Z) : Z := if y <? x then y else x.

(** ** common/bytes.go *)

(** [RightPadBytes] and [LeftPadBytes] return the slice itself when it is long
    enough; [l] is an [int] and may be negative. *)
Definition RightPadBytes (slice : bytes) (l : Z) : bytes :=
  if l <=? zlen slice then slice
  else gocopy (zeros l) slice.

Definition LeftPadBytes (slice : bytes) (l : Z) : bytes :=
  if l <=? zlen slice then slice
  else zeros (l - zlen slice) ++ gocopy (zeros (zlen slice)) slice.

Fixpoint TrimLeftZeroes (s : bytes) : bytes :=
  match s with
  | [] => []
  | b :: s' => if b =? 0 then TrimLeftZeroes s' else s
  end.

Definition TrimRightZeroes (s : bytes) : bytes := reverse (TrimLeftZeroes (reverse s)).

(** [CopyBytes]: a fresh slice with the same contents. *)
Definition CopyBytes (b : bytes) : bytes := gocopy (zeros (zlen b)) b.

(** ** common/types.go *)

Definition HashLength : Z := 32.
Definition AddressLength : Z := 20.

Definition Hash : Type := Z.
Definition Address : Type := Z.

(** [SetBytes] keeps the last bytes of a long slice and pads a short one with
    zeroes on the left. *)
Definition crop_left (n : Z) (b : bytes) : bytes :=
  if n <? zlen b then drop (Z.to_nat (zlen b - n)) b else b.

Definition BytesToHash (b : bytes) : Hash := be_val (crop_left HashLength b).
Definition BytesToAddress (b : bytes) : Address := be_val (crop_left AddressLength b).
Definition Hash_Bytes (h : Hash) : bytes := be_bytes 32 h.
Definition Address_Bytes (a : Address) : bytes := be_bytes 20 a.

Definition is_hash (h : Hash) : Prop := 0 <= h < two256.
Definition is_address (a : Address) : Prop := 0 <= a < two160.

(** ** Properties *)

Lemma SafeAdd_small x y :
  is_u64 x -> is_u64 y -> x + y < two64 -> SafeAdd x y = (x + y, false).
Proof.
  unfold is_u64, SafeAdd. intros Hx Hy H. rewrite u64_small by u64_lia.
  rewrite Z.div_small by u64_lia. done.
Qed.

Lemma SafeAdd_overflow x y :
  is_u64 x -> is_u64 y -> snd (SafeAdd x y) = false <-> x + y < two64.
Proof.
  unfold is_u64, SafeAdd. intros Hx Hy. cbn. rewrite negb_false_iff, Z.eqb_eq.
  rewrite Z.div_small_iff by u64_lia. u64_lia.
Qed.

Lemma SafeAdd_no_overflow x y s :
  is_u64 x -> is_u64 y -> SafeAdd x y = (s, false) -> s = x + y /\ x + y < two64.
Proof.
  intros Hx Hy E. assert (x + y < two64) as H
    by (apply SafeAdd_overflow; [done..|by rewrite E]).
  rewrite SafeAdd_small in E by done. simplify_eq. done.
Qed.

Lemma SafeMul_no_overflow x y s :
  is_u64 x -> is_u64 y -> SafeMul x y = (s, false) -> s = x * y /\ x * y < two64.
Proof.
  unfold is_u64, SafeMul. intros Hx Hy [= <- E].
  rewrite negb_false_iff, Z.eqb_eq, Z.div_small_iff in E by u64_lia.
  rewrite u64_small by (unfold is_u64; u64_lia). u64_lia.
Qed.

Lemma SafeMul_small x y :
  is_u64 x -> is_u64 y -> x * y < two64 -> SafeMul x y = (x * y, false).
Proof.
  unfold is_u64, SafeMul. intros Hx Hy H.
  rewrite u64_small by (unfold is_u64; nia). rewrite Z.div_small by nia. done.
Qed.

Lemma SafeAdd_range x y : is_u64 (fst (SafeAdd x y)).
Proof. apply u64_range. Qed.
Lemma SafeMul_range x y : is_u64 (fst (SafeMul x y)).
Proof. apply u64_range. Qed.
Lemma SafeSub_range x y : is_u64 (fst (SafeSub x y)).
Proof. apply u64_range. Qed.

#[export] Hint Resolve SafeAdd_range SafeMul_range SafeSub_range : go.

Lemma RightPadBytes_length slice l :
  zlen (RightPadBytes slice l) = Z.max l (zlen slice).
Proof.
  unfold RightPadBytes. destruct (Z.leb_spec l (zlen slice)); [lia|].
  unfold zlen in *. rewrite gocopy_length. unfold zeros. rewrite length_replicate. lia.
Qed.

Lemma RightPadBytes_app slice l :
  zlen slice <= l -> RightPadBytes slice l = slice ++ zeros (l - zlen slice).
Proof.
  unfold RightPadBytes, gocopy, zeros, zlen. intros H.
  destruct (Z.leb_spec l (Z.of_nat (length slice))).
  - replace (l - Z.of_nat (length slice)) with 0 by lia. by rewrite app_nil_r.
  - rewrite length_replicate, take_ge by lia. f_equal.
    rewrite drop_replicate. f_equal. lia.
Qed.

Lemma gocopy_all {A} (dst src : list A) : length dst = length src -> gocopy dst src = src.
Proof.
  intros H. unfold gocopy. rewrite take_ge, drop_ge by lia. apply app_nil_r.
Qed.

Lemma CopyBytes_id b : CopyBytes b = b.
Proof. unfold CopyBytes. apply gocopy_all. unfold zeros, zlen. rewrite length_replicate. lia. Qed.

Lemma LeftPadBytes_app slice l :
  zlen slice <= l -> LeftPadBytes slice l = zeros (l - zlen slice) ++ slice.
Proof.
  unfold LeftPadBytes. intros H. destruct (Z.leb_spec l (zlen slice)).
  - replace (l - zlen slice) with 0 by lia. done.
  - f_equal. rewrite gocopy_all; [done|]. unfold zeros, zlen. rewrite length_replicate. lia.
Qed.

Lemma TrimLeftZeroes_be_val s : be_val (TrimLeftZeroes s) = be_val s.
Proof.
  induction s as [|b s IH]; cbn [TrimLeftZeroes]; [done|].
  destruct (Z.eqb_spec b 0) as [->|Hb]; [|done]. rewrite IH, be_val_cons. lia.
Qed.

Lemma BytesToHash_Hash_Bytes h : is_hash h -> BytesToHash (Hash_Bytes h) = h.
Proof.
  unfold BytesToHash, crop_left, Hash_Bytes, HashLength, is_hash, two256, zlen. intros H.
  rewrite be_bytes_length. change (32 <? Z.of_nat 32) with false. cbv iota.
  rewrite be_val_be_bytes, Z.mod_small; [done|].
  change (256 ^ Z.of_nat 32) with (2 ^ 256). done.
Qed.

Lemma BytesToAddress_Address_Bytes a : is_address a -> BytesToAddress (Address_Bytes a) = a.
Proof.
  unfold BytesToAddress, crop_left, Address_Bytes, AddressLength, is_address, two160, zlen.
  intros H. rewrite be_bytes_length. change (20 <? Z.of_nat 20) with false. cbv iota.
  rewrite be_val_be_bytes, Z.mod_small; [done|].
  change (256 ^ Z.of_nat 20) with (2 ^ 160). done.
Qed.

Lemma Hash_Bytes_inj h1 h2 : is_hash h1 -> is_hash h2 -> Hash_Bytes h1 = Hash_Bytes h2 -> h1 = h2.
Proof. intros H1 H2 E. rewrite <- (BytesToHash_Hash_Bytes h1 H1), <- (BytesToHash_Hash_Bytes h2 H2). by rewrite E. Qed.

Lemma Address_Bytes_inj a1 a2 : is_address a1 -> is_address a2 -> Address_Bytes a1 = Address_Bytes a2 -> a1 = a2.
Proof. intros H1 H2 E. rewrite <- (BytesToAddress_Address_Bytes a1 H1), <- (BytesToAddress_Address_Bytes a2 H2). by rewrite E. Qed.
