(* ===== verification/Params.v ===== *)
(** * Package [params]: protocol constants and the fork schedule

    The constants of [params/protocol_params.go] the EVM uses, with the names of
    the source, and [params/config.go]: the chain configuration, the fork predicates, the
    fork-order check and the compatibility check against a stored
    configuration.  A [*big.Int] that may be nil is an [option Z]. *)

From Stdlib Require Import ZArith Lia.
From stdpp Require Import strings.
From S2P Require Import Prelude Common.

(** ** params/protocol_params.go *)

Abbreviation CallValueTransferGas := 9000%Z (only parsing).
Abbreviation CallNewAccountGas := 25000%Z (only parsing).
Abbreviation TxGas := 21000%Z (only parsing).
Abbreviation TxGasContractCreation := 53000%Z (only parsing).
Abbreviation TxDataZeroGas := 4%Z (only parsing).
Abbreviation QuadCoeffDiv := 512%Z (only parsing).
Abbreviation LogDataGas := 8%Z (only parsing).
Abbreviation CallStipend := 2300%Z (only parsing).
Abbreviation Sha3Gas := 30%Z (only parsing).
Abbreviation Sha3WordGas := 6%Z (only parsing).
Abbreviation SstoreSetGas := 20000%Z (only parsing).
Abbreviation SstoreResetGas := 5000%Z (only parsing).
Abbreviation SstoreClearGas := 5000%Z (only parsing).
Abbreviation SstoreRefundGas := 15000%Z (only parsing).
Abbreviation NetSstoreNoopGas := 200%Z (only parsing).
Abbreviation NetSstoreInitGas := 20000%Z (only parsing).
Abbreviation NetSstoreCleanGas := 5000%Z (only parsing).
Abbreviation NetSstoreDirtyGas := 200%Z (only parsing).
Abbreviation NetSstoreClearRefund := 15000%Z (only parsing).
Abbreviation NetSstoreResetRefund := 4800%Z (only parsing).
Abbreviation NetSstoreResetClearRefund := 19800%Z (only parsing).
Abbreviation SstoreSentryGasEIP2200 := 2300%Z (only parsing).
Abbreviation SstoreSetGasEIP2200 := 20000%Z (only parsing).
Abbreviation SstoreResetGasEIP2200 := 5000%Z (only parsing).
Abbreviation SstoreClearsScheduleRefundEIP2200 := 15000%Z (only parsing).
Abbreviation JumpdestGas := 1%Z (only parsing).
Abbreviation CreateDataGas := 200%Z (only parsing).
Definition CallCreateDepth : Z := 1024.
Abbreviation ExpGas := 10%Z (only parsing).
Abbreviation LogGas := 375%Z (only parsing).
Abbreviation CopyGas := 3%Z (only parsing).
Definition StackLimit : Z := 1024.
Abbreviation LogTopicGas := 375%Z (only parsing).
Abbreviation CreateGas := 32000%Z (only parsing).
Abbreviation Create2Gas := 32000%Z (only parsing).
Abbreviation SelfdestructRefundGas := 24000%Z (only parsing).
Abbreviation MemoryGas := 3%Z (only parsing).
Abbreviation TxDataNonZeroGasFrontier := 68%Z (only parsing).
Abbreviation TxDataNonZeroGasEIP2028 := 16%Z (only parsing).
Abbreviation CallGasFrontier := 40%Z (only parsing).
Abbreviation CallGasEIP150 := 700%Z (only parsing).
Abbreviation BalanceGasFrontier := 20%Z (only parsing).
Abbreviation BalanceGasEIP150 := 400%Z (only parsing).
Abbreviation BalanceGasEIP1884 := 700%Z (only parsing).
Abbreviation ExtcodeSizeGasFrontier := 20%Z (only parsing).
Abbreviation ExtcodeSizeGasEIP150 := 700%Z (only parsing).
Abbreviation SloadGasFrontier := 50%Z (only parsing).
Abbreviation SloadGasEIP150 := 200%Z (only parsing).
Abbreviation SloadGasEIP1884 := 800%Z (only parsing).
Abbreviation SloadGasEIP2200 := 800%Z (only parsing).
Abbreviation ExtcodeHashGasConstantinople := 400%Z (only parsing).
Abbreviation ExtcodeHashGasEIP1884 := 700%Z (only parsing).
Abbreviation SelfdestructGasEIP150 := 5000%Z (only parsing).
Abbreviation ExpByteFrontier := 10%Z (only parsing).
Abbreviation ExpByteEIP158 := 50%Z (only parsing).
Abbreviation ExtcodeCopyBaseFrontier := 20%Z (only parsing).
Abbreviation ExtcodeCopyBaseEIP150 := 700%Z (only parsing).
Abbreviation CreateBySelfdestructGas := 25000%Z (only parsing).
Definition MaxCodeSize : Z := 24576.
Abbreviation EcrecoverGas := 3000%Z (only parsing).
Abbreviation Sha256BaseGas := 60%Z (only parsing).
Abbreviation Sha256PerWordGas := 12%Z (only parsing).
Abbreviation Ripemd160BaseGas := 600%Z (only parsing).
Abbreviation Ripemd160PerWordGas := 120%Z (only parsing).
Abbreviation IdentityBaseGas := 15%Z (only parsing).
Abbreviation IdentityPerWordGas := 3%Z (only parsing).
Abbreviation ModExpQuadCoeffDiv := 20%Z (only parsing).
Abbreviation Bn256AddGasByzantium := 500%Z (only parsing).
Abbreviation Bn256AddGasIstanbul := 150%Z (only parsing).
Abbreviation Bn256ScalarMulGasByzantium := 40000%Z (only parsing).
Abbreviation Bn256ScalarMulGasIstanbul := 6000%Z (only parsing).
Abbreviation Bn256PairingBaseGasByzantium := 100000%Z (only parsing).
Abbreviation Bn256PairingBaseGasIstanbul := 45000%Z (only parsing).
Abbreviation Bn256PairingPerPointGasByzantium := 80000%Z (only parsing).
Abbreviation Bn256PairingPerPointGasIstanbul := 34000%Z (only parsing).
Abbreviation Bls12381G1AddGas := 600%Z (only parsing).
Abbreviation Bls12381G1MulGas := 12000%Z (only parsing).
Abbreviation Bls12381G2AddGas := 4500%Z (only parsing).
Abbreviation Bls12381G2MulGas := 55000%Z (only parsing).
Abbreviation Bls12381PairingBaseGas := 115000%Z (only parsing).
Abbreviation Bls12381PairingPerPairGas := 23000%Z (only parsing).
Abbreviation Bls12381MapG1Gas := 5500%Z (only parsing).
Abbreviation Bls12381MapG2Gas := 110000%Z (only parsing).

Definition Bls12381MultiExpDiscountTable : list Z :=
  [1200; 888; 764; 641; 594; 547; 500; 453; 438; 423; 408; 394; 379; 364; 349; 334; 330;
   326; 322; 318; 314; 310; 306; 302; 298; 294; 289; 285; 281; 277; 273; 269; 268; 266;
   265; 263; 262; 260; 259; 257; 256; 254; 253; 251; 250; 248; 247; 245; 244; 242; 241;
   239; 238; 236; 235; 233; 232; 231; 229; 228; 226; 225; 223; 222; 221; 220; 219; 219;
   218; 217; 216; 216; 215; 214; 213; 213; 212; 211; 211; 210; 209; 208; 208; 207; 206;
   205; 205; 204; 203; 202; 202; 201; 200; 199; 199; 198; 197; 196; 196; 195; 194; 193;
   193; 192; 191; 191; 190; 189; 188; 188; 187; 186; 185; 185; 184; 183; 182; 182; 181;
   180; 179; 179; 178; 177; 176; 176; 175; 174].

(** ** params/config.go *)

Record CliqueConfig := { Period : Z; Epoch : Z }.

Record ChainConfig := {
  ChainID : option Z;
  HomesteadBlock : option Z;
  DAOForkBlock : option Z;
  DAOForkSupport : bool;
  EIP150Block : option Z;
  EIP150Hash : Hash;
  EIP155Block : option Z;
  EIP158Block : option Z;
  ByzantiumBlock : option Z;
  ConstantinopleBlock : option Z;
  PetersburgBlock : option Z;
  IstanbulBlock : option Z;
  MuirGlacierBlock : option Z;
  YoloV1Block : option Z;
  EWASMBlock : option Z;
  Ethash : bool;                 (* *EthashConfig, an empty struct: nil or not *)
  Clique : option CliqueConfig;
}.

Definition isForked (s head : option Z) : bool :=
  match s, head with
  | Some s, Some head => s <=? head
  | _, _ => false
  end.

Definition configNumEqual (x y : option Z) : bool :=
  match x, y with
  | None, None => true
  | None, Some _ => false
  | Some _, None => false
  | Some x, Some y => x =? y
  end.

Definition isForkIncompatible (s1 s2 head : option Z) : bool :=
  (isForked s1 head || isForked s2 head) && negb (configNumEqual s1 s2).

Section predicates.
Context (c : ChainConfig) (num : option Z).
Definition IsHomestead : bool := isForked (HomesteadBlock c) num.
Definition IsDAOFork : bool := isForked (DAOForkBlock c) num.
Definition IsEIP150 : bool := isForked (EIP150Block c) num.
Definition IsEIP155 : bool := isForked (EIP155Block c) num.
Definition IsEIP158 : bool := isForked (EIP158Block c) num.
Definition IsByzantium : bool := isForked (ByzantiumBlock c) num.
Definition IsConstantinople : bool := isForked (ConstantinopleBlock c) num.
Definition IsMuirGlacier : bool := isForked (MuirGlacierBlock c) num.
Definition IsPetersburg : bool :=
  isForked (PetersburgBlock c) num
  || (match PetersburgBlock c with None => true | Some _ => false end)
     && isForked (ConstantinopleBlock c) num.
Definition IsIstanbul : bool := isForked (IstanbulBlock c) num.
Definition IsYoloV1 : bool := isForked (YoloV1Block c) num.
Definition IsEWASM : bool := isForked (EWASMBlock c) num.
End predicates.

(** [Rules]: the predicates evaluated at one block number. *)
Record RulesT := {
  rChainID : Z;
  rIsHomestead : bool; rIsEIP150 : bool; rIsEIP155 : bool; rIsEIP158 : bool;
  rIsByzantium : bool; rIsConstantinople : bool; rIsPetersburg : bool; rIsIstanbul : bool;
  rIsYoloV1 : bool;
}.

Definition Rules (c : ChainConfig) (num : option Z) : RulesT := {|
  rChainID := default 0 (ChainID c);
  rIsHomestead := IsHomestead c num;
  rIsEIP150 := IsEIP150 c num;
  rIsEIP155 := IsEIP155 c num;
  rIsEIP158 := IsEIP158 c num;
  rIsByzantium := IsByzantium c num;
  rIsConstantinople := IsConstantinople c num;
  rIsPetersburg := IsPetersburg c num;
  rIsIstanbul := IsIstanbul c num;
  rIsYoloV1 := IsYoloV1 c num;
|}.

(** *** Fork order *)

Record fork := Fork { fname : string; block : option Z; optional : bool }.

Definition forks (c : ChainConfig) : list fork := [
  Fork "homesteadBlock" (HomesteadBlock c) false;
  Fork "daoForkBlock" (DAOForkBlock c) true;
  Fork "eip150Block" (EIP150Block c) false;
  Fork "eip155Block" (EIP155Block c) false;
  Fork "eip158Block" (EIP158Block c) false;
  Fork "byzantiumBlock" (ByzantiumBlock c) false;
  Fork "constantinopleBlock" (ConstantinopleBlock c) false;
  Fork "petersburgBlock" (PetersburgBlock c) false;
  Fork "istanbulBlock" (IstanbulBlock c) false;
  Fork "muirGlacierBlock" (MuirGlacierBlock c) true;
  Fork "yoloV1Block" (YoloV1Block c) false ].

Inductive fork_order_error :=
| ForkNotEnabled (last cur : string) (at_ : Z)
| ForkOutOfOrder (last : string) (last_at : Z) (cur : string) (at_ : Z).

(** The loop body: [None] where the source returns an error. *)
Definition check_fork (lastFork cur : fork) : option fork_order_error :=
  if (fname lastFork =? "")%string then None
  else match block lastFork, block cur with
       | None, Some b => Some (ForkNotEnabled (fname lastFork) (fname cur) b)
       | Some a, Some b => if b <? a then Some (ForkOutOfOrder (fname lastFork) a (fname cur) b) else None
       | _, None => None
       end.

Fixpoint check_forks (lastFork : fork) (l : list fork) : option fork_order_error :=
  match l with
  | [] => None
  | cur :: l =>
      match check_fork lastFork cur with
      | Some e => Some e
      | None =>
          check_forks (if negb (optional cur) || (match block cur with Some _ => true | None => false end)
                       then cur else lastFork) l
      end
  end.

Definition CheckConfigForkOrder (c : ChainConfig) : option fork_order_error :=
  check_forks (Fork "" None false) (forks c).

(** *** Compatibility with a stored configuration *)

Record ConfigCompatError := {
  What : string;
  StoredConfig : option Z;
  NewConfig : option Z;
  RewindTo : Z;
}.

Definition newCompatError (what : string) (storedblock newblock : option Z) : ConfigCompatError :=
  let rew :=
    match storedblock, newblock with
    | None, _ => newblock
    | Some _, None => storedblock
    | Some s, Some n => if s <? n then storedblock else newblock
    end in
  {| What := what; StoredConfig := storedblock; NewConfig := newblock;
     RewindTo := match rew with
                 | Some r => if 0 <? r then u64 (u64 r - 1) else 0
                 | None => 0
                 end |}.

Definition checkCompatible (c newcfg : ChainConfig) (head : Z) : option ConfigCompatError :=
  let incompat s1 s2 := isForkIncompatible s1 s2 (Some head) in
  if incompat (HomesteadBlock c) (HomesteadBlock newcfg) then
    Some (newCompatError "Homestead fork block" (HomesteadBlock c) (HomesteadBlock newcfg))
  else if incompat (DAOForkBlock c) (DAOForkBlock newcfg) then
    Some (newCompatError "DAO fork block" (DAOForkBlock c) (DAOForkBlock newcfg))
  else if IsDAOFork c (Some head) && negb (eqb (DAOForkSupport c) (DAOForkSupport newcfg)) then
    Some (newCompatError "DAO fork support flag" (DAOForkBlock c) (DAOForkBlock newcfg))
  else if incompat (EIP150Block c) (EIP150Block newcfg) then
    Some (newCompatError "EIP150 fork block" (EIP150Block c) (EIP150Block newcfg))
  else if incompat (EIP155Block c) (EIP155Block newcfg) then
    Some (newCompatError "EIP155 fork block" (EIP155Block c) (EIP155Block newcfg))
  else if incompat (EIP158Block c) (EIP158Block newcfg) then
    Some (newCompatError "EIP158 fork block" (EIP158Block c) (EIP158Block newcfg))
  else if IsEIP158 c (Some head) && negb (configNumEqual (ChainID c) (ChainID newcfg)) then
    Some (newCompatError "EIP158 chain ID" (EIP158Block c) (EIP158Block newcfg))
  else if incompat (ByzantiumBlock c) (ByzantiumBlock newcfg) then
    Some (newCompatError "Byzantium fork block" (ByzantiumBlock c) (ByzantiumBlock newcfg))
  else if incompat (ConstantinopleBlock c) (ConstantinopleBlock newcfg) then
    Some (newCompatError "Constantinople fork block" (ConstantinopleBlock c) (ConstantinopleBlock newcfg))
  else if incompat (PetersburgBlock c) (PetersburgBlock newcfg)
          && incompat (ConstantinopleBlock c) (PetersburgBlock newcfg) then
    Some (newCompatError "Petersburg fork block" (PetersburgBlock c) (PetersburgBlock newcfg))
  else if incompat (IstanbulBlock c) (IstanbulBlock newcfg) then
    Some (newCompatError "Istanbul fork block" (IstanbulBlock c) (IstanbulBlock newcfg))
  else if incompat (MuirGlacierBlock c) (MuirGlacierBlock newcfg) then
    Some (newCompatError "Muir Glacier fork block" (MuirGlacierBlock c) (MuirGlacierBlock newcfg))
  else if incompat (YoloV1Block c) (YoloV1Block newcfg) then
    Some (newCompatError "YOLOv1 fork block" (YoloV1Block c) (YoloV1Block newcfg))
  else if incompat (EWASMBlock c) (EWASMBlock newcfg) then
    Some (newCompatError "ewasm fork block" (EWASMBlock c) (EWASMBlock newcfg))
  else None.

(** The loop of [CheckCompatible]; the state is [bhead] and [lasterr].  [None]
    in the outer option: the fuel ran out. *)
Fixpoint compat_loop (fuel : nat) (c newcfg : ChainConfig) (bhead : Z)
    (lasterr : option ConfigCompatError) : option (option ConfigCompatError) :=
  match fuel with
  | O => None
  | S fuel =>
      match checkCompatible c newcfg bhead with
      | None => Some lasterr
      | Some err =>
          if match lasterr with Some l => RewindTo err =? RewindTo l | None => false end
          then Some lasterr
          else compat_loop fuel c newcfg (RewindTo err) (Some err)
      end
  end.

Definition CheckCompatible (fuel : nat) (c newcfg : ChainConfig) (height : Z) :
    option (option ConfigCompatError) :=
  compat_loop fuel c newcfg (u64 height) None.

(** ** The fork schedule *)

(** What the loop of [CheckConfigForkOrder] establishes about the fork it
    compares against: every later fork that is scheduled comes after it. *)
Lemma check_forks_last l lastFork g b :
  fname lastFork <> ""%string -> Forall (fun f => fname f <> ""%string) l ->
  check_forks lastFork l = None -> g ∈ l -> block g = Some b ->
  exists a, block lastFork = Some a /\ a <= b.
Proof.
  revert lastFork. induction l as [|cur l IH]; intros lastFork Hn Hl H Hg Hb.
  { by apply not_elem_of_nil in Hg. }
  apply Forall_cons in Hl as [Hcur Hl]. cbn [check_forks] in H.
  destruct (check_fork lastFork cur) eqn:Hc; [done|].
  assert (forall b', block cur = Some b' -> exists a, block lastFork = Some a /\ a <= b') as Hstep.
  { unfold check_fork in Hc. rewrite (proj2 (String.eqb_neq _ _) Hn) in Hc.
    intros b' Eb'. rewrite Eb' in Hc. destruct (block lastFork) as [a|]; [|done].
    destruct (Z.ltb_spec b' a); [done|]. exists a. split; [done|lia]. }
  apply elem_of_cons in Hg as [->|Hg]; [by apply Hstep|].
  destruct (negb (optional cur) || _) in H.
  - destruct (IH cur Hcur Hl H Hg Hb) as (a' & Ea' & Hle).
    destruct (Hstep a' Ea') as (a & Ea & Hle'). exists a. split; [done|lia].
  - by apply (IH lastFork).
Qed.

(** Lifted to the block predicates: a mandatory fork is active whenever a fork
    that follows it in the list is. *)
Lemma check_forks_mandatory pre f post lastFork g num :
  Forall (fun f => fname f <> ""%string) (pre ++ f :: post) ->
  check_forks lastFork (pre ++ f :: post) = None -> optional f = false -> g ∈ post ->
  isForked (block g) num = true -> isForked (block f) num = true.
Proof.
  revert lastFork. induction pre as [|p pre IH]; intros lastFork Hl H Hopt Hg Hfork.
  - cbn [app check_forks] in H. destruct (check_fork lastFork f); [done|].
    rewrite Hopt in H. cbn [negb orb] in H.
    cbn [app] in Hl. apply Forall_cons in Hl as [Hf Hl].
    unfold isForked in *. destruct (block g) as [b|] eqn:Eb; [|done].
    destruct (check_forks_last post f g b Hf Hl H Hg Eb) as (a & -> & Hle).
    destruct num; [|done]. go_bool. apply Z.leb_le. lia.
  - cbn [app check_forks] in H. destruct (check_fork lastFork p); [done|].
    apply Forall_cons in Hl as [_ Hl]. by eapply IH.
Qed.

(** A chain configuration that passes [CheckConfigForkOrder] has its forks
    nested: at every block number an active fork implies that each mandatory
    fork before it is active too (with [IsPetersburg]'s fallback to the
    Constantinople block included), so that the rules of a block are those of
    a prefix of the fork list. *)
Theorem fork_order_rules (c : ChainConfig) (num : option Z) :
  CheckConfigForkOrder c = None ->
  (IsYoloV1 c num = true -> IsIstanbul c num = true) /\
  (IsIstanbul c num = true -> IsPetersburg c num = true) /\
  (IsPetersburg c num = true -> IsConstantinople c num = true) /\
  (IsConstantinople c num = true -> IsByzantium c num = true) /\
  (IsByzantium c num = true -> IsEIP158 c num = true) /\
  (IsEIP158 c num = true -> IsEIP155 c num = true) /\
  (IsEIP155 c num = true -> IsEIP150 c num = true) /\
  (IsEIP150 c num = true -> IsHomestead c num = true).
Proof.
  intros Hok. unfold CheckConfigForkOrder in Hok.
  assert (forall pre f post g, forks c = pre ++ f :: post -> optional f = false -> g ∈ post ->
    isForked (block g) num = true -> isForked (block f) num = true) as Hall.
  { intros pre f post g E Hopt Hg Hf.
    eapply (check_forks_mandatory pre f post); try done; rewrite <- E; [|exact Hok].
    unfold forks. repeat constructor; done. }
  unfold forks in Hall.
  repeat split.
  - apply (Hall (take 8 (forks c)) _ _ (Fork "yoloV1Block" (YoloV1Block c) false) eq_refl eq_refl).
    set_solver.
  - intros H. unfold IsPetersburg. apply orb_true_iff. left. revert H.
    apply (Hall (take 7 (forks c)) _ _ (Fork "istanbulBlock" (IstanbulBlock c) false) eq_refl eq_refl).
    set_solver.
  - unfold IsPetersburg. intros [H|[_ H]%andb_true_iff]%orb_true_iff; [|done]. revert H.
    apply (Hall (take 6 (forks c)) _ _ (Fork "petersburgBlock" (PetersburgBlock c) false) eq_refl eq_refl).
    set_solver.
  - apply (Hall (take 5 (forks c)) _ _ (Fork "constantinopleBlock" (ConstantinopleBlock c) false) eq_refl eq_refl).
    set_solver.
  - apply (Hall (take 4 (forks c)) _ _ (Fork "byzantiumBlock" (ByzantiumBlock c) false) eq_refl eq_refl).
    set_solver.
  - apply (Hall (take 3 (forks c)) _ _ (Fork "eip158Block" (EIP158Block c) false) eq_refl eq_refl).
    set_solver.
  - apply (Hall (take 2 (forks c)) _ _ (Fork "eip155Block" (EIP155Block c) false) eq_refl eq_refl).
    set_solver.
  - apply (Hall [] _ _ (Fork "eip150Block" (EIP150Block c) false) eq_refl eq_refl).
    set_solver.
Qed.

Lemma fork_order_rules_witness :
  let c := {| ChainID := Some 1; HomesteadBlock := Some 1150000; DAOForkBlock := Some 1920000;
     DAOForkSupport := true; EIP150Block := Some 2463000; EIP150Hash := 0;
     EIP155Block := Some 2675000; EIP158Block := Some 2675000; ByzantiumBlock := Some 4370000;
     ConstantinopleBlock := Some 7280000; PetersburgBlock := Some 7280000;
     IstanbulBlock := Some 9069000; MuirGlacierBlock := Some 9200000; YoloV1Block := None;
     EWASMBlock := None; Ethash := true; Clique := None |} in
  CheckConfigForkOrder c = None /\
  (IsByzantium c (Some 5000000) = true -> IsEIP158 c (Some 5000000) = true).
Proof.
  split; [reflexivity|]. apply (fork_order_rules _ (Some 5000000)). reflexivity.
Defined.

(** ** Compatibility of configurations *)

Lemma newCompatError_rewind what s n head :
  is_u64 head -> isForked s (Some head) || isForked n (Some head) = true ->
  0 <= RewindTo (newCompatError what s n) <= Z.max 0 (head - 1).
Proof.
  unfold newCompatError, isForked. cbn [RewindTo]. intros Hh H.
  assert (forall r, 0 < r <= head -> u64 (u64 r - 1) = r - 1) as Hr.
  { intros r Hr. rewrite (u64_small r), u64_small by u64_lia. done. }
  destruct s as [s|], n as [n|]; cbn in H; try done; rewrite ?orb_false_r in H;
    repeat match goal with
    | H : _ || _ = true |- _ => apply orb_true_iff in H; destruct H
    | |- context [if ?b then _ else _] => destruct b eqn:?
    end; go_bool; rewrite ?Hr by lia; lia.
Qed.

(** Every error of [checkCompatible] rewinds below the head it was found at. *)
Lemma checkCompatible_rewind c newcfg head e :
  is_u64 head -> checkCompatible c newcfg head = Some e ->
  0 <= RewindTo e <= Z.max 0 (head - 1).
Proof.
  unfold checkCompatible, isForkIncompatible, IsDAOFork, IsEIP158. intros Hh H.
  repeat match goal with
  | H : (if ?b then _ else _) = _ |- _ => destruct b eqn:?
  end; simplify_eq; go_bool; apply newCompatError_rewind; try done;
  by apply orb_true_iff; left.
Qed.

Lemma compat_loop_total fuel c newcfg bhead lasterr :
  is_u64 bhead ->
  match lasterr with Some l => RewindTo l = bhead | None => True end ->
  (Z.to_nat bhead + match lasterr with Some _ => 1 | None => 2 end <= fuel)%nat ->
  exists r, compat_loop fuel c newcfg bhead lasterr = Some r /\
    match r with
    | None => lasterr = None /\ checkCompatible c newcfg bhead = None
    | Some e => 0 <= RewindTo e <= bhead /\
                (checkCompatible c newcfg (RewindTo e) = None \/ RewindTo e = 0)
    end.
Proof.
  revert bhead lasterr. induction fuel as [|fuel IH]; intros bhead lasterr Hb Hl Hf.
  { destruct lasterr; cbn in Hf; lia. }
  unfold is_u64 in *. cbn [compat_loop]. destruct (checkCompatible c newcfg bhead) as [err|] eqn:E.
  - pose proof (checkCompatible_rewind _ _ _ _ Hb E) as Hr.
    destruct lasterr as [l|].
    + destruct (Z.eqb_spec (RewindTo err) (RewindTo l)).
      * exists (Some l). split; [done|]. split; [lia|]. right. lia.
      * destruct (IH (RewindTo err) (Some err)) as (r & -> & Hres); try done.
        { lia. } { cbn in *. lia. }
        exists r. split; [done|]. destruct r as [e|]; [|naive_solver].
        destruct Hres. split; [lia|done].
    + destruct (IH (RewindTo err) (Some err)) as (r & -> & Hres); try done.
      { lia. } { cbn in *. lia. }
      exists r. split; [done|]. destruct r as [e|]; [|naive_solver].
      destruct Hres. unfold is_u64 in *. split; [lia|done].
  - exists lasterr. split; [done|]. destruct lasterr as [l|]; [|done].
    subst bhead. unfold is_u64 in *. split; [lia|by left].
Qed.

(** [CheckCompatible] terminates: with fuel for [height + 2] rounds its loop
    ends.  It reports nothing exactly when the two configurations agree up to
    [height]; otherwise it reports an error whose rewind target is at most
    [height] and at which the configurations are compatible, unless it is the
    genesis block. *)
Theorem CheckCompatible_correct (c newcfg : ChainConfig) (height : Z) (fuel : nat) :
  is_u64 height -> (Z.to_nat height + 2 <= fuel)%nat ->
  exists r, CheckCompatible fuel c newcfg height = Some r /\
    match r with
    | None => checkCompatible c newcfg height = None
    | Some e => 0 <= RewindTo e <= height /\
                (checkCompatible c newcfg (RewindTo e) = None \/ RewindTo e = 0)
    end.
Proof.
  intros Hh Hf. unfold CheckCompatible. rewrite u64_small by done.
  destruct (compat_loop_total fuel c newcfg height None) as (r & -> & Hr); try done.
  exists r. split; [done|]. destruct r; naive_solver.
Qed.

Lemma CheckCompatible_correct_witness :
  let c b := {| ChainID := Some 1; HomesteadBlock := Some 0; DAOForkBlock := None;
     DAOForkSupport := false; EIP150Block := Some b; EIP150Hash := 0;
     EIP155Block := Some 20; EIP158Block := Some 20; ByzantiumBlock := None;
     ConstantinopleBlock := None; PetersburgBlock := None;
     IstanbulBlock := None; MuirGlacierBlock := None; YoloV1Block := None;
     EWASMBlock := None; Ethash := true; Clique := None |} in
  CheckCompatible 27 (c 10) (c 15) 25
    = Some (Some {| What := "EIP150 fork block"; StoredConfig := Some 10; NewConfig := Some 15;
                    RewindTo := 9 |}) /\
  exists r, CheckCompatible 27 (c 10) (c 15) 25 = Some r.
Proof.
  split; [reflexivity|].
  destruct (CheckCompatible_correct
    {| ChainID := Some 1; HomesteadBlock := Some 0; DAOForkBlock := None;
     DAOForkSupport := false; EIP150Block := Some 10; EIP150Hash := 0;
     EIP155Block := Some 20; EIP158Block := Some 20; ByzantiumBlock := None;
     ConstantinopleBlock := None; PetersburgBlock := None;
     IstanbulBlock := None; MuirGlacierBlock := None; YoloV1Block := None;
     EWASMBlock := None; Ethash := true; Clique := None |}
    {| ChainID := Some 1; HomesteadBlock := Some 0; DAOForkBlock := None;
     DAOForkSupport := false; EIP150Block := Some 15; EIP150Hash := 0;
     EIP155Block := Some 20; EIP158Block := Some 20; ByzantiumBlock := None;
     ConstantinopleBlock := None; PetersburgBlock := None;
     IstanbulBlock := None; MuirGlacierBlock := None; YoloV1Block := None;
     EWASMBlock := None; Ethash := true; Clique := None |} 25 27) as (r & Hr & _).
  - unfold is_u64, two64. lia.
  - cbn. lia.
  - exists r. exact Hr.
Defined.
