(* ===== verification/Uint256.v ===== *)
(** * The 256-bit integers of the EVM

    The EVM stack holds [uint256.Int] values of the package
    github.com/holiman/uint256, which is not part of the repository.  The class
    [Uint256] lists the functions of that package the EVM calls, on an abstract
    carrier; [Uint256Laws] states their documented behaviour through the number
    [ToBig x] a word denotes.  The interpreter is defined over any [Uint256] and
    its theorems assume the laws.  [Uint256_ref] is an executable instance: the
    laws are satisfiable, and concrete runs evaluate. *)

From Stdlib Require Import ZArith Lia.
From S2P Require Import Prelude Common.

Class Uint256 := {
  u256 : Type;
  U_ToBig : u256 -> Z;
  (* constructors: Clear, SetOne, SetAllOne, SetUint64, SetBytes, SetFromBig/FromBig *)
  U_Clear : u256;
  U_SetOne : u256;
  U_SetAllOne : u256;
  U_SetUint64 : Z -> u256;
  U_SetBytes : bytes -> u256;
  U_FromBig : Z -> u256;
  (* arithmetic *)
  U_Add : u256 -> u256 -> u256;
  U_Sub : u256 -> u256 -> u256;
  U_Mul : u256 -> u256 -> u256;
  U_Div : u256 -> u256 -> u256;
  U_SDiv : u256 -> u256 -> u256;
  U_Mod : u256 -> u256 -> u256;
  U_SMod : u256 -> u256 -> u256;
  U_Exp : u256 -> u256 -> u256;
  U_AddMod : u256 -> u256 -> u256 -> u256;
  U_MulMod : u256 -> u256 -> u256 -> u256;
  U_ExtendSign : u256 -> u256 -> u256;
  (* bits *)
  U_Not : u256 -> u256;
  U_And : u256 -> u256 -> u256;
  U_Or : u256 -> u256 -> u256;
  U_Xor : u256 -> u256 -> u256;
  U_Byte : u256 -> u256 -> u256;     (* val.Byte(&th) *)
  U_Lsh : u256 -> Z -> u256;
  U_Rsh : u256 -> Z -> u256;
  U_SRsh : u256 -> Z -> u256;
  U_BitLen : u256 -> Z;
  (* comparisons *)
  U_Lt : u256 -> u256 -> bool;
  U_Gt : u256 -> u256 -> bool;
  U_Slt : u256 -> u256 -> bool;
  U_Sgt : u256 -> u256 -> bool;
  U_Eq : u256 -> u256 -> bool;
  U_IsZero : u256 -> bool;
  U_Sign : u256 -> Z;
  U_LtUint64 : u256 -> Z -> bool;
  U_GtUint64 : u256 -> Z -> bool;
  (* conversions *)
  U_IsUint64 : u256 -> bool;
  U_Uint64 : u256 -> Z;
  U_Uint64WithOverflow : u256 -> Z * bool;
  U_Bytes20 : u256 -> Address;
  U_Bytes32 : u256 -> Hash;
  U_WriteToSlice : u256 -> bytes -> bytes;
}.

(** Two's complement reading of a word. *)
Definition s256 (x : Z) : Z := if x <? 2 ^ 255 then x else x - two256.

Definition w256 (x : Z) : Z := x mod two256.

(** EVM SIGNEXTEND: the sign bit of byte [b] (counted from the low end) fills
    the higher bytes. *)
Definition extend_sign (x b : Z) : Z :=
  if b <? 31 then
    let bits := 8 * (b + 1) in
    let low := x mod 2 ^ bits in
    if low <? 2 ^ (bits - 1) then low else w256 (low - 2 ^ bits)
  else x.

Class Uint256Laws (U : Uint256) : Prop := {
  U_range : forall x, 0 <= U_ToBig x < two256;
  U_Clear_val : U_ToBig U_Clear = 0;
  U_SetOne_val : U_ToBig U_SetOne = 1;
  U_SetAllOne_val : U_ToBig U_SetAllOne = two256 - 1;
  U_SetUint64_val : forall n, is_u64 n -> U_ToBig (U_SetUint64 n) = n;
  U_SetBytes_val : forall l, Forall is_byte l -> U_ToBig (U_SetBytes l) = w256 (be_val l);
  U_FromBig_val : forall n, U_ToBig (U_FromBig n) = w256 n;
  U_Add_val : forall x y, U_ToBig (U_Add x y) = w256 (U_ToBig x + U_ToBig y);
  U_Sub_val : forall x y, U_ToBig (U_Sub x y) = w256 (U_ToBig x - U_ToBig y);
  U_Mul_val : forall x y, U_ToBig (U_Mul x y) = w256 (U_ToBig x * U_ToBig y);
  U_Div_val : forall x y, U_ToBig (U_Div x y) =
    if U_ToBig y =? 0 then 0 else U_ToBig x / U_ToBig y;
  U_SDiv_val : forall x y, U_ToBig (U_SDiv x y) =
    if U_ToBig y =? 0 then 0 else w256 (Z.quot (s256 (U_ToBig x)) (s256 (U_ToBig y)));
  U_Mod_val : forall x y, U_ToBig (U_Mod x y) =
    if U_ToBig y =? 0 then 0 else U_ToBig x mod U_ToBig y;
  U_SMod_val : forall x y, U_ToBig (U_SMod x y) =
    if U_ToBig y =? 0 then 0 else w256 (Z.rem (s256 (U_ToBig x)) (s256 (U_ToBig y)));
  U_Exp_val : forall x y, U_ToBig (U_Exp x y) = w256 (U_ToBig x ^ U_ToBig y);
  U_AddMod_val : forall x y m, U_ToBig m <> 0 ->
    U_ToBig (U_AddMod x y m) = (U_ToBig x + U_ToBig y) mod U_ToBig m;
  U_MulMod_val : forall x y m, U_ToBig (U_MulMod x y m) =
    if U_ToBig m =? 0 then 0 else (U_ToBig x * U_ToBig y) mod U_ToBig m;
  U_ExtendSign_val : forall x b, U_ToBig (U_ExtendSign x b) = extend_sign (U_ToBig x) (U_ToBig b);
  U_Not_val : forall x, U_ToBig (U_Not x) = two256 - 1 - U_ToBig x;
  U_And_val : forall x y, U_ToBig (U_And x y) = Z.land (U_ToBig x) (U_ToBig y);
  U_Or_val : forall x y, U_ToBig (U_Or x y) = Z.lor (U_ToBig x) (U_ToBig y);
  U_Xor_val : forall x y, U_ToBig (U_Xor x y) = Z.lxor (U_ToBig x) (U_ToBig y);
  U_Byte_val : forall x n, U_ToBig (U_Byte x n) =
    if U_ToBig n <? 32 then (U_ToBig x / 256 ^ (31 - U_ToBig n)) mod 256 else 0;
  U_Lsh_val : forall x n, 0 <= n -> U_ToBig (U_Lsh x n) = w256 (U_ToBig x * 2 ^ n);
  U_Rsh_val : forall x n, 0 <= n -> U_ToBig (U_Rsh x n) = U_ToBig x / 2 ^ n;
  U_SRsh_val : forall x n, 0 <= n -> U_ToBig (U_SRsh x n) = w256 (s256 (U_ToBig x) / 2 ^ n);
  U_BitLen_val : forall x, U_BitLen x = if U_ToBig x =? 0 then 0 else Z.log2 (U_ToBig x) + 1;
  U_Lt_val : forall x y, U_Lt x y = (U_ToBig x <? U_ToBig y);
  U_Gt_val : forall x y, U_Gt x y = (U_ToBig y <? U_ToBig x);
  U_Slt_val : forall x y, U_Slt x y = (s256 (U_ToBig x) <? s256 (U_ToBig y));
  U_Sgt_val : forall x y, U_Sgt x y = (s256 (U_ToBig y) <? s256 (U_ToBig x));
  U_Eq_val : forall x y, U_Eq x y = (U_ToBig x =? U_ToBig y);
  U_IsZero_val : forall x, U_IsZero x = (U_ToBig x =? 0);
  U_Sign_val : forall x, U_Sign x = Z.sgn (s256 (U_ToBig x));
  U_LtUint64_val : forall x n, is_u64 n -> U_LtUint64 x n = (U_ToBig x <? n);
  U_GtUint64_val : forall x n, is_u64 n -> U_GtUint64 x n = (n <? U_ToBig x);
  U_IsUint64_val : forall x, U_IsUint64 x = (U_ToBig x <? two64);
  U_Uint64_val : forall x, U_Uint64 x = u64 (U_ToBig x);
  U_Uint64WithOverflow_val : forall x,
    U_Uint64WithOverflow x = (u64 (U_ToBig x), negb (U_ToBig x <? two64));
  U_Bytes20_val : forall x, U_Bytes20 x = U_ToBig x mod two160;
  U_Bytes32_val : forall x, U_Bytes32 x = U_ToBig x;
  U_WriteToSlice_val : forall x dest, 32 <= zlen dest ->
    U_WriteToSlice x dest = be_bytes 32 (U_ToBig x) ++ drop 32 dest;
}.

(** ** An executable instance

    Words are integers read modulo 2^256. *)

#[export] Instance Uint256_ref : Uint256 := {|
  u256 := Z;
  U_ToBig := w256;
  U_Clear := 0;
  U_SetOne := 1;
  U_SetAllOne := two256 - 1;
  U_SetUint64 n := n;
  U_SetBytes := be_val;
  U_FromBig n := n;
  U_Add x y := w256 (x + y);
  U_Sub x y := w256 (x - y);
  U_Mul x y := w256 (x * y);
  U_Div x y := if w256 y =? 0 then 0 else w256 x / w256 y;
  U_SDiv x y := if w256 y =? 0 then 0 else w256 (Z.quot (s256 (w256 x)) (s256 (w256 y)));
  U_Mod x y := if w256 y =? 0 then 0 else w256 x mod w256 y;
  U_SMod x y := if w256 y =? 0 then 0 else w256 (Z.rem (s256 (w256 x)) (s256 (w256 y)));
  U_Exp x y := w256 (w256 x ^ w256 y);
  U_AddMod x y m := (w256 x + w256 y) mod w256 m;
  U_MulMod x y m := if w256 m =? 0 then 0 else (w256 x * w256 y) mod w256 m;
  U_ExtendSign x b := extend_sign (w256 x) (w256 b);
  U_Not x := two256 - 1 - w256 x;
  U_And x y := Z.land (w256 x) (w256 y);
  U_Or x y := Z.lor (w256 x) (w256 y);
  U_Xor x y := Z.lxor (w256 x) (w256 y);
  U_Byte x n := if w256 n <? 32 then (w256 x / 256 ^ (31 - w256 n)) mod 256 else 0;
  U_Lsh x n := w256 (w256 x * 2 ^ n);
  U_Rsh x n := w256 x / 2 ^ n;
  U_SRsh x n := w256 (s256 (w256 x) / 2 ^ n);
  U_BitLen x := if w256 x =? 0 then 0 else Z.log2 (w256 x) + 1;
  U_Lt x y := w256 x <? w256 y;
  U_Gt x y := w256 y <? w256 x;
  U_Slt x y := s256 (w256 x) <? s256 (w256 y);
  U_Sgt x y := s256 (w256 y) <? s256 (w256 x);
  U_Eq x y := w256 x =? w256 y;
  U_IsZero x := w256 x =? 0;
  U_Sign x := Z.sgn (s256 (w256 x));
  U_LtUint64 x n := w256 x <? n;
  U_GtUint64 x n := n <? w256 x;
  U_IsUint64 x := w256 x <? two64;
  U_Uint64 x := u64 (w256 x);
  U_Uint64WithOverflow x := (u64 (w256 x), negb (w256 x <? two64));
  U_Bytes20 x := w256 x mod two160;
  U_Bytes32 x := w256 x;
  U_WriteToSlice x dest := be_bytes 32 (w256 x) ++ drop 32 dest;
|}.

Lemma w256_range x : 0 <= w256 x < two256.
Proof. apply Z.mod_pos_bound. done. Qed.

Lemma w256_small x : 0 <= x < two256 -> w256 x = x.
Proof. apply Z.mod_small. Qed.

Lemma w256_idem x : w256 (w256 x) = w256 x.
Proof. apply w256_small, w256_range. Qed.

Lemma w256_add x y : w256 (w256 x + w256 y) = w256 (x + y).
Proof. unfold w256. symmetry. apply Z.add_mod. done. Qed.

Lemma w256_sub x y : w256 (w256 x - w256 y) = w256 (x - y).
Proof. unfold w256. symmetry. apply Zminus_mod. Qed.

Lemma w256_mul x y : w256 (w256 x * w256 y) = w256 (x * y).
Proof. unfold w256. symmetry. apply Z.mul_mod. done. Qed.

Lemma bitop_range (f : Z -> Z -> Z) (g : bool -> bool -> bool) x y :
  g false false = false ->
  (forall a b n, Z.testbit (f a b) n = g (Z.testbit a n) (Z.testbit b n)) ->
  (forall a b, 0 <= a -> 0 <= b -> 0 <= f a b) ->
  0 <= x < two256 -> 0 <= y < two256 -> 0 <= f x y < two256.
Proof.
  intros Hg Hbit Hpos Hx Hy. assert (0 <= f x y) as H0 by (apply Hpos; lia). split; [done|].
  unfold two256 in *. destruct (Z.eq_dec (f x y) 0) as [E|Hne]; [rewrite E; lia|].
  apply Z.log2_lt_pow2; [lia|]. destruct (Z.lt_ge_cases (Z.log2 (f x y)) 256) as [|Hge]; [done|].
  exfalso. pose proof (Z.bit_log2 (f x y) ltac:(lia)) as Hb. rewrite Hbit in Hb.
  rewrite !Z.bits_above_log2 in Hb; try lia.
  - by rewrite Hg in Hb.
  - destruct (Z.eq_dec y 0) as [->|]; [cbn; lia|].
    pose proof (proj1 (Z.log2_lt_pow2 y 256 ltac:(lia)) ltac:(lia)). lia.
  - destruct (Z.eq_dec x 0) as [->|]; [cbn; lia|].
    pose proof (proj1 (Z.log2_lt_pow2 x 256 ltac:(lia)) ltac:(lia)). lia.
Qed.

Lemma extend_sign_range x b : 0 <= x < two256 -> 0 <= b -> 0 <= extend_sign x b < two256.
Proof.
  intros Hx Hb. unfold extend_sign. destruct (Z.ltb_spec b 31); [|done].
  pose proof (Z.mod_pos_bound x (2 ^ (8 * (b + 1))) ltac:(apply Z.pow_pos_nonneg; lia)).
  assert (2 ^ (8 * (b + 1)) <= two256) by (unfold two256; apply Z.pow_le_mono_r; lia).
  case_match; [lia|apply w256_range].
Qed.

#[export] Instance Uint256_ref_laws : Uint256Laws Uint256_ref.
Proof.
  split; intros; cbn;
    rewrite ?w256_idem, ?w256_add, ?w256_sub, ?w256_mul; try done; try apply w256_range;
    try (apply w256_small).
  - unfold is_u64, two64, two256 in *. lia.
  - pose proof (w256_range x). case_match; go_bool; [lia|].
    pose proof (w256_range y). split; [apply Z.div_pos; lia|].
    apply Z.le_lt_trans with (w256 x); [|lia]. apply Z.div_le_upper_bound; nia.
  - case_match; [done|apply w256_range].
  - pose proof (w256_range y). case_match; go_bool; [lia|].
    pose proof (Z.mod_pos_bound (w256 x) (w256 y) ltac:(lia)). lia.
  - case_match; [done|apply w256_range].
  - pose proof (w256_range m). cbn in H.
    pose proof (Z.mod_pos_bound (w256 x + w256 y) (w256 m) ltac:(lia)). lia.
  - pose proof (w256_range m). case_match; go_bool; [lia|].
    pose proof (Z.mod_pos_bound (w256 x * w256 y) (w256 m) ltac:(lia)). lia.
  - apply extend_sign_range; apply w256_range.
  - pose proof (w256_range x). lia.
  - apply (bitop_range Z.land andb); try done; try apply w256_range.
    + apply Z.land_spec. + intros a b Ha Hb. apply Z.land_nonneg. by left.
  - apply (bitop_range Z.lor orb); try done; try apply w256_range.
    + apply Z.lor_spec. + intros a b Ha Hb. by apply Z.lor_nonneg.
  - apply (bitop_range Z.lxor xorb); try done; try apply w256_range.
    + apply Z.lxor_spec. + intros a b Ha Hb. apply Z.lxor_nonneg. lia.
  - case_match; [|by unfold two256].
    pose proof (Z.mod_pos_bound (w256 x / 256 ^ (31 - w256 n)) 256 ltac:(lia)). unfold two256. lia.
  - pose proof (w256_range x). split; [apply Z.div_pos; [lia|apply Z.pow_pos_nonneg; lia]|].
    apply Z.le_lt_trans with (w256 x); [|lia].
    apply Z.div_le_upper_bound; [apply Z.pow_pos_nonneg; lia|].
    pose proof (Z.pow_pos_nonneg 2 n ltac:(lia) ltac:(lia)). nia.
Qed.

(** ** Consequences used by the interpreter *)

Section facts.
Context {U : Uint256} {UL : Uint256Laws U}.

Lemma U_Uint64_range x : is_u64 (U_Uint64 x).
Proof. rewrite U_Uint64_val. apply u64_range. Qed.

Lemma U_IsUint64_true x : U_IsUint64 x = true -> U_Uint64 x = U_ToBig x /\ is_u64 (U_ToBig x).
Proof.
  rewrite U_IsUint64_val, U_Uint64_val, Z.ltb_lt. intros H. pose proof (U_range x).
  split; [apply u64_small|]; unfold is_u64; lia.
Qed.

Lemma U_Uint64WithOverflow_fst x : fst (U_Uint64WithOverflow x) = U_Uint64 x.
Proof. by rewrite U_Uint64WithOverflow_val, U_Uint64_val. Qed.

Lemma U_Uint64WithOverflow_false x n :
  U_Uint64WithOverflow x = (n, false) -> n = U_ToBig x /\ is_u64 n /\ U_Uint64 x = n.
Proof.
  rewrite U_Uint64WithOverflow_val, U_Uint64_val. intros [= <- H].
  go_bool. pose proof (U_range x).
  rewrite u64_small by (unfold is_u64; lia). unfold is_u64. auto with lia.
Qed.

Lemma U_IsZero_true x : U_IsZero x = true <-> U_ToBig x = 0.
Proof. rewrite U_IsZero_val. apply Z.eqb_eq. Qed.

(** [Sign] is zero only for the zero word. *)
Lemma U_Sign_zero x : U_Sign x = 0 <-> U_ToBig x = 0.
Proof.
  rewrite U_Sign_val, Z.sgn_null_iff. unfold s256. pose proof (U_range x).
  destruct (Z.ltb_spec (U_ToBig x) (2 ^ 255)); unfold two256 in *; lia.
Qed.
End facts.

#[export] Hint Resolve U_Uint64_range : go.
