(* ===== verification/Rlp.v ===== *)
(** * Recursive length prefix encoding

    [rlp/encode.go] (the encoder buffer with its deferred list headers) and
    [rlp/raw.go] (splitting encoded values).  Values are the shapes the writers
    of [encode.go] handle: byte strings, unsigned integers, booleans, big
    integers, raw values, lists. *)

From Stdlib Require Import ZArith Lia.
From S2P Require Import Prelude Common.

(** ** Integers and headers *)

(** [putint(b, i)] writes [i] big-endian without leading zeroes into [b] and
    returns the number of bytes; here the bytes written. *)
Definition putint (i : Z) : bytes :=
  let b k := u8 (Z.shiftr i k) in
  if i <? Z.shiftl 1 8 then [b 0]
  else if i <? Z.shiftl 1 16 then [b 8; b 0]
  else if i <? Z.shiftl 1 24 then [b 16; b 8; b 0]
  else if i <? Z.shiftl 1 32 then [b 24; b 16; b 8; b 0]
  else if i <? Z.shiftl 1 40 then [b 32; b 24; b 16; b 8; b 0]
  else if i <? Z.shiftl 1 48 then [b 40; b 32; b 24; b 16; b 8; b 0]
  else if i <? Z.shiftl 1 56 then [b 48; b 40; b 32; b 24; b 16; b 8; b 0]
  else [b 56; b 48; b 40; b 32; b 24; b 16; b 8; b 0].

(** [intsize]: the loop shifts until zero; a [uint64] takes at most 8 rounds. *)
Fixpoint intsize_loop (n : nat) (size i : Z) : Z :=
  match n with
  | O => size
  | S n =>
      let i := Z.shiftr i 8 in
      if i =? 0 then size else intsize_loop n (size + 1) i
  end.
Definition intsize (i : Z) : Z := intsize_loop 8 1 i.

Definition headsize (size : Z) : Z :=
  if size <? 56 then 1 else 1 + intsize size.

(** [puthead(buf, smalltag, largetag, size)]: the bytes written to [buf]. *)
Definition puthead (smalltag largetag size : Z) : bytes :=
  if size <? 56 then [u8 (smalltag + u8 size)]
  else
    let p := putint size in
    u8 (largetag + u8 (zlen p)) :: p.

Definition ListSize (contentSize : Z) : Z := u64 (headsize contentSize + contentSize).

(** ** The encoder buffer *)

Record listhead := Listhead { offset : Z; hsize : Z }.

Definition listhead_encode (head : listhead) : bytes := puthead 192 247 (u64 (hsize head)).

(** [lheads] holds the list heads in order; the list is stored in the order of
    the source. *)
Record encbuf := Encbuf { str : bytes; lheads : list listhead; lhsize : Z }.

Definition reset : encbuf := Encbuf [] [] 0.

Definition wstr (w : encbuf) (b : bytes) : encbuf := Encbuf (str w ++ b) (lheads w) (lhsize w).

Definition esize (w : encbuf) : Z := zlen (str w) + lhsize w.

Definition encodeStringHeader (w : encbuf) (size : Z) : encbuf :=
  if size <? 56 then wstr w [u8 (128 + u8 size)]
  else
    let p := putint (u64 size) in
    wstr w (u8 (183 + u8 (zlen p)) :: p).

Definition encodeString (w : encbuf) (b : bytes) : encbuf :=
  match b with
  | [x] => if x <=? 127 then wstr w [x] else wstr (encodeStringHeader w 1) b
  | _ => wstr (encodeStringHeader w (zlen b)) b
  end.

Definition encodeUint (w : encbuf) (i : Z) : encbuf :=
  if i =? 0 then wstr w [128]
  else if i <? 128 then wstr w [u8 i]
  else
    let p := putint i in
    wstr w (u8 (128 + u8 (zlen p)) :: p).

Definition list_ (w : encbuf) : Z * encbuf :=
  let w' := Encbuf (str w) (lheads w ++ [Listhead (zlen (str w)) (lhsize w)]) (lhsize w) in
  (zlen (lheads w') - 1, w').

(** [listEnd] fixes the size of the head at [index]. *)
Definition listEnd (w : encbuf) (index : Z) : option encbuf :=
  match zget (lheads w) index with
  | None => None
  | Some lh =>
      let size := esize w - offset lh - hsize lh in
      match zput (lheads w) index (Listhead (offset lh) size) with
      | None => None
      | Some lheads =>
          Some (Encbuf (str w) lheads
                  (if size <? 56 then lhsize w + 1 else lhsize w + (1 + intsize (u64 size))))
      end
  end.

(** [copy(out[pos:], src)]. *)
Definition copy_at (out : bytes) (pos : Z) (src : bytes) : option bytes :=
  match zslice out pos (zlen out) with
  | Some dst => Some (take (Z.to_nat pos) out ++ gocopy dst src)
  | None => None
  end.

(** The loop of [toBytes] over the heads; the state is [out], [strpos], [pos]. *)
Fixpoint toBytes_loop (w : encbuf) (heads : list listhead) (out : bytes) (strpos pos : Z) : option bytes :=
  match heads with
  | [] =>
      match zslice (str w) strpos (zlen (str w)) with
      | Some rest => copy_at out pos rest
      | None => None
      end
  | head :: heads =>
      match zslice (str w) strpos (offset head) with
      | None => None
      | Some piece =>
          let n := Z.min (zlen out - pos) (zlen piece) in
          match copy_at out pos piece with
          | None => None
          | Some out =>
              let enc := listhead_encode head in
              if zlen out <? pos + n + zlen enc then None
              else match copy_at out (pos + n) enc with
                   | None => None
                   | Some out => toBytes_loop w heads out (strpos + n) (pos + n + zlen enc)
                   end
          end
      end
  end.

Definition toBytes (w : encbuf) : option bytes :=
  toBytes_loop w (lheads w) (zeros (esize w)) 0 0.

(** [toWriter]: the pieces it writes to [out], in order; [out] is an
    [io.Writer] that accepts every write in full. *)
Fixpoint toWriter_loop (w : encbuf) (heads : list listhead) (strpos : Z) : option (list bytes) :=
  match heads with
  | [] =>
      if strpos <? zlen (str w) then
        match zslice (str w) strpos (zlen (str w)) with
        | Some rest => Some [rest]
        | None => None
        end
      else Some []
  | head :: heads =>
      let enc := listhead_encode head in
      if 0 <? offset head - strpos then
        match zslice (str w) strpos (offset head) with
        | None => None
        | Some piece =>
            match toWriter_loop w heads (strpos + zlen piece) with
            | Some ps => Some (piece :: enc :: ps)
            | None => None
            end
        end
      else
        match toWriter_loop w heads strpos with
        | Some ps => Some (enc :: ps)
        | None => None
        end
  end.

Definition toWriter (w : encbuf) : option (list bytes) := toWriter_loop w (lheads w) 0.

(** ** Values and their writers

    A value of the Go program is given with the shape that selects its writer.
    A pointer that is not nil is its pointee, and a struct is the list of its
    encoded fields with the elements of a tail field at its end. *)

Inductive Kind := KByte | KString | KList.

Inductive rval :=
| VBytes (b : bytes)          (* []byte and string *)
| VByteArray (b : bytes)      (* [n]byte *)
| VUint (i : Z)               (* uint8 .. uint64 *)
| VBool (b : bool)
| VBigInt (i : Z)             (* non-nil *big.Int, big.Int *)
| VRaw (b : bytes)            (* RawValue *)
| VNil                        (* nil interface *)
| VNilPtr (nilKind : Kind)    (* nil pointer whose type or tag gives the kind *)
| VList (l : list rval).      (* slices, arrays, structs *)

Definition writeBool (w : encbuf) (b : bool) : encbuf :=
  if b then wstr w [1] else wstr w [128].

(** [makeByteArrayWriter]: lengths 0 and 1 have writers of their own. *)
Definition writeByteArray (w : encbuf) (b : bytes) : encbuf :=
  match b with
  | [] => wstr w [128]
  | [x] => if x <=? 127 then wstr w [x] else wstr w [129; x]
  | _ => wstr (encodeStringHeader w (zlen b)) b
  end.

(** [writeBigInt]; [None] is the error for a negative number.  The bytes above
    64 bits are written from the words of the number, least significant last. *)
Definition writeBigInt (w : encbuf) (i : Z) : option encbuf :=
  if i <? 0 then None
  else
    let bitlen := if i =? 0 then 0 else Z.log2 i + 1 in
    if bitlen <=? 64 then Some (encodeUint w i)
    else
      let length := Z.shiftr (Z.land (bitlen + 7) (-8)) 3 in
      Some (wstr (encodeStringHeader w length) (be_bytes (Z.to_nat length) i)).

(** The writer of a value.  For a list: [list], the elements in order,
    [listEnd]. *)
Fixpoint write (v : rval) (w : encbuf) {struct v} : option encbuf :=
  match v with
  | VBytes b => Some (encodeString w b)
  | VByteArray b => Some (writeByteArray w b)
  | VUint i => Some (encodeUint w i)
  | VBool b => Some (writeBool w b)
  | VBigInt i => writeBigInt w i
  | VRaw b => Some (wstr w b)
  | VNil => Some (wstr w [192])
  | VNilPtr KString => Some (wstr w [128])
  | VNilPtr _ => let '(index, w) := list_ w in listEnd w index
  | VList l =>
      let '(index, w) := list_ w in
      match (fix elems (l : list rval) (w : encbuf) {struct l} : option encbuf :=
               match l with
               | [] => Some w
               | v :: l => match write v w with Some w => elems l w | None => None end
               end) l w with
      | Some w => listEnd w index
      | None => None
      end
  end.

Definition EncodeToBytes (v : rval) : option bytes :=
  match write v reset with
  | Some w => toBytes w
  | None => None
  end.

(** [Encode(w, v)]: what is written to [w], which is not itself an encoder
    buffer. *)
Definition Encode (v : rval) : option bytes :=
  match write v reset with
  | Some w => match toWriter w with Some ps => Some (concat ps) | None => None end
  | None => None
  end.

(** ** rlp/raw.go *)

(** The errors of [decode.go] and [raw.go].  A [decodeError] is its message; the
    type and the context it carries are only printed. *)
Inductive decode_msg :=
| MsgCanonInt | MsgCanonSize | MsgExpectedList | MsgExpectedString | MsgTooLong
| MsgTooManyElements | MsgTooShort | MsgTooFewListElements | MsgTooFewElements
| MsgWrongEmpty (got want : Kind).

Inductive rlp_error :=
| ErrUnexpectedEOF | ErrEOF | EOL | ErrExpectedString | ErrExpectedList | ErrCanonInt
| ErrCanonSize | ErrElemTooLarge | ErrValueTooLarge | ErrMoreThanOneValue | ErrUintOverflow
| ErrNotInList | ErrNotAtEOL | ErrInvalidBool (num : Z) | DecodeError (msg : decode_msg).

Definition rres (A : Type) : Type := A + rlp_error.

(** [readSize(b, slen)]: [slen] is between 1 and 8; the shifted bytes are
    combined with or. *)
Definition readSize (b : bytes) (slen : Z) : rres Z :=
  if zlen b <? slen then inr ErrUnexpectedEOF
  else
    let s := fold_left (fun acc x => Z.lor (Z.shiftl acc 8) x) (take (Z.to_nat slen) b) 0 in
    match b with
    | b0 :: _ => if (s <? 56) || (b0 =? 0) then inr ErrCanonSize else inl s
    | [] => inr ErrCanonSize
    end.

Definition readKind (buf : bytes) : rres (Kind * Z * Z) :=
  match buf with
  | [] => inr ErrUnexpectedEOF
  | b :: tl =>
      let r : rres (Kind * Z * Z) :=
        if b <? 128 then inl (KByte, 0, 1)
        else if b <? 184 then
          let contentsize := b - 128 in
          if (contentsize =? 1) && (match tl with x :: _ => x <? 128 | [] => false end)
          then inr ErrCanonSize
          else inl (KString, 1, contentsize)
        else if b <? 192 then
          match readSize tl (b - 183) with
          | inl cs => inl (KString, b - 183 + 1, cs)
          | inr e => inr e
          end
        else if b <? 248 then inl (KList, 1, b - 192)
        else
          match readSize tl (b - 247) with
          | inl cs => inl (KList, b - 247 + 1, cs)
          | inr e => inr e
          end in
      match r with
      | inr e => inr e
      | inl (k, tagsize, contentsize) =>
          if u64 (zlen buf - tagsize) <? contentsize then inr ErrValueTooLarge
          else inl (k, tagsize, contentsize)
      end
  end.

(** [Split]: kind, content and rest; the slice expressions are in range after
    [readKind] ([None] would be a panic). *)
Definition Split (b : bytes) : option (rres (Kind * bytes * bytes)) :=
  match readKind b with
  | inr e => Some (inr e)
  | inl (k, ts, cs) =>
      match zslice b ts (u64 (ts + cs)), zslice b (u64 (ts + cs)) (zlen b) with
      | Some content, Some rest => Some (inl (k, content, rest))
      | _, _ => None
      end
  end.

Definition SplitString (b : bytes) : option (rres (bytes * bytes)) :=
  match Split b with
  | None => None
  | Some (inr e) => Some (inr e)
  | Some (inl (KList, _, _)) => Some (inr ErrExpectedString)
  | Some (inl (_, content, rest)) => Some (inl (content, rest))
  end.

Definition SplitList (b : bytes) : option (rres (bytes * bytes)) :=
  match Split b with
  | None => None
  | Some (inr e) => Some (inr e)
  | Some (inl (KList, content, rest)) => Some (inl (content, rest))
  | Some (inl (_, _, _)) => Some (inr ErrExpectedList)
  end.

Definition SplitUint64 (b : bytes) : option (rres (Z * bytes)) :=
  match SplitString b with
  | None => None
  | Some (inr e) => Some (inr e)
  | Some (inl (content, rest)) =>
      match content with
      | [] => Some (inl (0, rest))
      | [x] => if x =? 0 then Some (inr ErrCanonInt) else Some (inl (x, rest))
      | _ =>
          if 8 <? zlen content then Some (inr ErrUintOverflow)
          else match readSize content (u8 (zlen content)) with
               | inl x => Some (inl (x, rest))
               | inr _ => Some (inr ErrCanonInt)
               end
      end
  end.

(** [CountValues]: every round consumes at least one byte. *)
Fixpoint CountValues_loop (n : nat) (i : Z) (b : bytes) : option (rres Z) :=
  match n with
  | O => None
  | S n =>
      match b with
      | [] => Some (inl i)
      | _ =>
          match readKind b with
          | inr e => Some (inr e)
          | inl (_, tagsize, size) =>
              match zslice b (u64 (tagsize + size)) (zlen b) with
              | Some b => CountValues_loop n (i + 1) b
              | None => None
              end
          end
      end
  end.

Definition CountValues (b : bytes) : option (rres Z) := CountValues_loop (S (length b)) 0 b.
