(* ===== verification/Crypto.v ===== *)
(** * Hashes and contract addresses

    [crypto/crypto.go].  Keccak-256 comes from golang.org/x/crypto, outside the
    repository: it is the class [Keccak].  [KeccakInjective] is its collision
    resistance, idealised: different inputs have different digests.  Signature recovery and the curve libraries behind the precompiled
    contracts are the class [CryptoPrims]. *)

From Stdlib Require Import ZArith Lia.
From stdpp Require Import countable.
From S2P Require Import Prelude Common Rlp.

Class Keccak := {
  (* Keccak256Hash of the concatenated arguments *)
  Keccak256Hash : bytes -> Hash;
}.

Class KeccakInjective (K : Keccak) : Prop :=
  Keccak256Hash_inj : forall b b', Keccak256Hash b = Keccak256Hash b' -> b = b'.

(** [Keccak256]: the same digest as a byte slice. *)
Definition Keccak256 `{Keccak} (data : bytes) : bytes := be_bytes 32 (Keccak256Hash data).

(** [data, _ := rlp.EncodeToBytes([]interface{}{b, nonce})]; the error is
    dropped and the data then nil. *)
Definition CreateAddress `{Keccak} (b : Address) (nonce : Z) : Address :=
  let data := default [] (EncodeToBytes (VList [VBytes (Address_Bytes b); VUint nonce])) in
  BytesToAddress (drop 12 (Keccak256 data)).

Definition CreateAddress2 `{Keccak} (b : Address) (salt : Hash) (inithash : bytes) : Address :=
  BytesToAddress (drop 12 (Keccak256 ([255] ++ Address_Bytes b ++ Hash_Bytes salt ++ inithash))).

Definition emptyCodeHash `{Keccak} : Hash := Keccak256Hash [].

(** [ValidateSignatureValues(v, r, s, homestead)]. *)
Definition secp256k1N : Z :=
  115792089237316195423570985008687907852837564279074904382605163141518161494337.
Definition secp256k1halfN : Z := secp256k1N / 2.

Definition ValidateSignatureValues (v r s : Z) (homestead : bool) : bool :=
  if (r <? 1) || (s <? 1) then false
  else if homestead && (secp256k1halfN <? s) then false
  else (r <? secp256k1N) && (s <? secp256k1N) && ((v =? 0) || (v =? 1)).

(** ** Libraries behind the precompiled contracts

    Points of the curves stay encoded; an operation on encoded points returns
    [None] where the library's decoder rejects its argument. *)
Class CryptoPrims := {
  Ecrecover : bytes -> bytes -> option bytes;     (* hash, signature -> 65-byte public key *)
  sha256_Sum256 : bytes -> bytes;
  ripemd160_Sum : bytes -> bytes;
  bn256_G1 : Type;
  bn256_G2 : Type;
  bn256_G1_Unmarshal : bytes -> option bn256_G1;
  bn256_G2_Unmarshal : bytes -> option bn256_G2;
  bn256_G1_Marshal : bn256_G1 -> bytes;
  bn256_G1_Add : bn256_G1 -> bn256_G1 -> bn256_G1;
  bn256_G1_ScalarMult : bn256_G1 -> Z -> bn256_G1;
  bn256_PairingCheck : list bn256_G1 -> list bn256_G2 -> bool;
  bls_G1 : Type;
  bls_G2 : Type;
  bls_G1_DecodePoint : bytes -> option bls_G1;
  bls_G2_DecodePoint : bytes -> option bls_G2;
  bls_G1_EncodePoint : bls_G1 -> bytes;
  bls_G2_EncodePoint : bls_G2 -> bytes;
  bls_G1_Add : bls_G1 -> bls_G1 -> bls_G1;
  bls_G2_Add : bls_G2 -> bls_G2 -> bls_G2;
  bls_G1_MulScalar : bls_G1 -> Z -> bls_G1;
  bls_G2_MulScalar : bls_G2 -> Z -> bls_G2;
  bls_G1_MultiExp : list bls_G1 -> list Z -> bls_G1;
  bls_G2_MultiExp : list bls_G2 -> list Z -> bls_G2;
  bls_G1_InCorrectSubgroup : bls_G1 -> bool;
  bls_G2_InCorrectSubgroup : bls_G2 -> bool;
  bls_G1_MapToCurve : bytes -> option bls_G1;
  bls_G2_MapToCurve : bytes -> option bls_G2;
  bls_pairing_Check : list (bls_G1 * bls_G2) -> bool;
}.

(** The documented sizes of the results, which are bytes. *)
Definition bytes_n (n : Z) (b : bytes) : Prop := Forall is_byte b /\ zlen b = n.

Class CryptoLaws (C : CryptoPrims) : Prop := {
  Ecrecover_len : forall h s pk, Ecrecover h s = Some pk -> bytes_n 65 pk;
  sha256_len : forall b, bytes_n 32 (sha256_Sum256 b);
  ripemd160_len : forall b, bytes_n 20 (ripemd160_Sum b);
  bn256_Marshal_len : forall p, bytes_n 64 (bn256_G1_Marshal p);
  bls_G1_Encode_len : forall p, bytes_n 128 (bls_G1_EncodePoint p);
  bls_G2_Encode_len : forall p, bytes_n 256 (bls_G2_EncodePoint p);
}.

(** ** Executable stand-ins

    Instances for concrete runs: an injective encoding for Keccak-256, curve
    libraries that reject every point. *)
#[export] Instance Keccak_ref : Keccak := {| Keccak256Hash b := Zpos (encode b) |}.

#[export] Instance KeccakInjective_ref : KeccakInjective Keccak_ref.
Proof. intros b b' [= E]. by apply (inj encode) in E. Qed.

Definition digest (b : bytes) : Z :=
  fold_left (fun acc x => (acc * 1000003 + x + 1) mod two256) b 1.

Definition prims_ref (recover : bytes -> bytes -> option bytes) : CryptoPrims := {|
  Ecrecover := recover;
  sha256_Sum256 b := be_bytes 32 (digest b);
  ripemd160_Sum b := be_bytes 20 (digest b);
  bn256_G1 := unit;
  bn256_G2 := unit;
  bn256_G1_Unmarshal _ := None;
  bn256_G2_Unmarshal _ := None;
  bn256_G1_Marshal _ := zeros 64;
  bn256_G1_Add _ _ := tt;
  bn256_G1_ScalarMult _ _ := tt;
  bn256_PairingCheck _ _ := true;
  bls_G1 := unit;
  bls_G2 := unit;
  bls_G1_DecodePoint _ := None;
  bls_G2_DecodePoint _ := None;
  bls_G1_EncodePoint _ := zeros 128;
  bls_G2_EncodePoint _ := zeros 256;
  bls_G1_Add _ _ := tt;
  bls_G2_Add _ _ := tt;
  bls_G1_MulScalar _ _ := tt;
  bls_G2_MulScalar _ _ := tt;
  bls_G1_MultiExp _ _ := tt;
  bls_G2_MultiExp _ _ := tt;
  bls_G1_InCorrectSubgroup _ := true;
  bls_G2_InCorrectSubgroup _ := true;
  bls_G1_MapToCurve _ := None;
  bls_G2_MapToCurve _ := None;
  bls_pairing_Check _ := true;
|}.

#[export] Instance CryptoPrims_ref : CryptoPrims := prims_ref (fun _ _ => None).

Lemma zlen_be_bytes n z : zlen (be_bytes n z) = Z.of_nat n.
Proof. unfold zlen. by rewrite be_bytes_length. Qed.

#[export] Instance CryptoLaws_ref : CryptoLaws CryptoPrims_ref.
Proof.
  assert (forall n, Forall is_byte (zeros n)) as Hz.
  { intros n. apply Forall_replicate. split; lia. }
  split; intros; try discriminate;
    (split; [apply Hz || apply be_bytes_is_byte|reflexivity || apply zlen_be_bytes]).
Qed.

Lemma Keccak256_len `{Keccak} b : zlen (Keccak256 b) = 32.
Proof. apply zlen_be_bytes. Qed.
