(* ===== verification/VmMemory.v ===== *)
(** * Stack, memory and size arithmetic of the EVM

    [core/vm/stack.go], [memory.go], [common.go], [stack_table.go], [gas.go] and
    [memory_table.go].  The operand stack is the list of its elements with the
    top first: [st.data[len-1-i]] of the source is element [i] of the list.  An
    index or slice out of range is a panic in Go and [None] or [Panic] here. *)

From Stdlib Require Import ZArith Lia.
From S2P Require Import Prelude Common Params Uint256.

(** ** core/vm/stack.go *)

Section stack.
Context {A : Type}.
Definition Stack : Type := list A.

Definition push (st : Stack) (d : A) : Stack := d :: st.
Definition pop (st : Stack) : option (A * Stack) :=
  match st with
  | [] => None
  | x :: st => Some (x, st)
  end.
Definition len (st : Stack) : Z := zlen st.
(** [Back(n)]: the [n]th element from the top. *)
Definition Back (st : Stack) (n : Z) : option A := zget st n.
Definition peek (st : Stack) : option A := Back st 0.
(** [data[len-n]] and [data[len-1]] change places. *)
Definition swap (st : Stack) (n : Z) : option Stack :=
  match zget st (n - 1), zget st 0 with
  | Some y, Some x => Some (<[Z.to_nat 0 := y]> (<[Z.to_nat (n - 1) := x]> st))
  | _, _ => None
  end.
Definition dup (st : Stack) (n : Z) : option Stack :=
  match zget st (n - 1) with
  | Some x => Some (push st x)
  | None => None
  end.
(** [*st.peek() = x]: write through the pointer to the top element. *)
Definition set_top (st : Stack) (x : A) : Stack :=
  match st with
  | [] => []
  | _ :: st => x :: st
  end.
End stack.
Arguments Stack A : clear implicits.

(** ** core/vm/stack_table.go *)

Definition maxStack (pop push : Z) : Z := StackLimit + pop - push.
Definition minStack (pops push : Z) : Z := pops.
Definition minSwapStack (n : Z) : Z := minStack n n.
Definition maxSwapStack (n : Z) : Z := maxStack n n.
Definition minDupStack (n : Z) : Z := minStack n (n + 1).
Definition maxDupStack (n : Z) : Z := maxStack n (n + 1).

(** ** core/vm/memory.go *)

Record Memory := MkMemory { store : bytes; lastGasCost : Z }.

Definition NewMemory : Memory := MkMemory [] 0.

Definition Memory_Len (m : Memory) : Z := zlen (store m).

Definition with_store (m : Memory) (s : bytes) : Memory := MkMemory s (lastGasCost m).

(** [copy(s[a:b], value)]. *)
Definition copy_range (s : bytes) (a b : Z) (value : bytes) : option bytes :=
  match zslice s a b with
  | Some sub => Some (take (Z.to_nat a) s ++ gocopy sub value ++ drop (Z.to_nat b) s)
  | None => None
  end.

Definition Memory_Set (m : Memory) (offset size : Z) (value : bytes) : outcome Memory :=
  if 0 <? size then
    if zlen (store m) <? u64 (offset + size) then Panic PanicMemory
    else match copy_range (store m) offset (u64 (offset + size)) value with
         | Some s => Ok (with_store m s)
         | None => Panic PanicIndex
         end
  else Ok m.

Definition Set32 {U : Uint256} (m : Memory) (offset : Z) (val : u256) : outcome Memory :=
  if zlen (store m) <? u64 (offset + 32) then Panic PanicMemory
  else match copy_range (store m) offset (u64 (offset + 32)) (zeros 32) with
       | Some s =>
           match zslice s offset (zlen s) with
           | Some dest => Ok (with_store m (take (Z.to_nat offset) s ++ U_WriteToSlice val dest))
           | None => Panic PanicIndex
           end
       | None => Panic PanicIndex
       end.

Definition Resize (m : Memory) (size : Z) : Memory :=
  if Memory_Len m <? size
  then with_store m (store m ++ zeros (size - Memory_Len m))
  else m.

(** A byte slice handed around inside one call frame: either bytes of its own,
    or a window of the frame's memory, whose contents follow later writes. *)
Inductive slice :=
| Own (b : bytes)
| MemSlice (off size : Z).

Definition deref (m : Memory) (s : slice) : bytes :=
  match s with
  | Own b => b
  | MemSlice off size => take (Z.to_nat size) (drop (Z.to_nat off) (store m))
  end.

(** [GetPtr] returns a window of the memory, [GetCopy] fresh bytes. *)
Definition GetPtr (m : Memory) (offset size : Z) : outcome slice :=
  if size =? 0 then Ok (Own [])
  else if offset <? zlen (store m) then
    match zslice (store m) offset (offset + size) with
    | Some _ => Ok (MemSlice offset size)
    | None => Panic PanicIndex
    end
  else Ok (Own []).

Definition GetCopy (m : Memory) (offset size : Z) : outcome bytes :=
  if size =? 0 then Ok []
  else if offset <? zlen (store m) then
    match zslice (store m) offset (offset + size) with
    | Some b => Ok (gocopy (zeros size) b)
    | None => Panic PanicIndex
    end
  else Ok [].

(** ** core/vm/common.go *)

Definition calcMemSize64WithUint {U : Uint256} (off : u256) (length64 : Z) : Z * bool :=
  if length64 =? 0 then (0, false)
  else
    let '(offset64, overflow) := U_Uint64WithOverflow off in
    if (overflow : bool) then (0, true)
    else let val := u64 (offset64 + length64) in (val, val <? offset64).

Definition calcMemSize64 {U : Uint256} (off l : u256) : Z * bool :=
  if negb (U_IsUint64 l) then (0, true)
  else calcMemSize64WithUint off (U_Uint64 l).

(** [getData]: [size] bytes from [start], zero-padded on the right. *)
Definition getData (data : bytes) (start size : Z) : outcome bytes :=
  let length := u64 (zlen data) in
  let start := if length <? start then length else start in
  let end_ := u64 (start + size) in
  let end_ := if length <? end_ then length else end_ in
  match zslice data start end_ with
  | Some b => Ok (RightPadBytes b (i64 size))
  | None => Panic PanicIndex
  end.

Definition toWordSize (size : Z) : Z :=
  if MaxUint64 - 31 <? size then MaxUint64 / 32 + 1
  else u64 (size + 31) / 32.

Definition allZero (b : bytes) : bool := forallb (fun x => x =? 0) b.

(** ** core/vm/gas.go *)

Definition GasQuickStep : Z := 2.
Definition GasFastestStep : Z := 3.
Definition GasFastStep : Z := 5.
Definition GasMidStep : Z := 8.
Definition GasSlowStep : Z := 10.
Definition GasExtStep : Z := 20.

(** [callGas]: [None] is [ErrGasUintOverflow]. *)
Definition callGas {U : Uint256} (isEip150 : bool) (availableGas base : Z) (callCost : u256) : option Z :=
  let full :=
    if negb (U_IsUint64 callCost) then None else Some (U_Uint64 callCost) in
  if isEip150 then
    let availableGas := u64 (availableGas - base) in
    let gas := u64 (availableGas - availableGas / 64) in
    if negb (U_IsUint64 callCost) || (gas <? U_Uint64 callCost) then Some gas
    else full
  else full.

(** ** core/vm/memory_table.go

    The functions read the operands with [Back], which panics on a short
    stack. *)

Section memory_table.
Context {U : Uint256}.
Definition memorySizeFunc : Type := Stack u256 -> option (Z * bool).

Definition mem2 (i j : Z) : memorySizeFunc := fun stack =>
  match Back stack i, Back stack j with
  | Some off, Some l => Some (calcMemSize64 off l)
  | _, _ => None
  end.
Definition mem1 (i l : Z) : memorySizeFunc := fun stack =>
  match Back stack i with
  | Some off => Some (calcMemSize64WithUint off l)
  | None => None
  end.

Definition memorySha3 : memorySizeFunc := mem2 0 1.
Definition memoryCallDataCopy : memorySizeFunc := mem2 0 2.
Definition memoryReturnDataCopy : memorySizeFunc := mem2 0 2.
Definition memoryCodeCopy : memorySizeFunc := mem2 0 2.
Definition memoryExtCodeCopy : memorySizeFunc := mem2 1 3.
Definition memoryMLoad : memorySizeFunc := mem1 0 32.
Definition memoryMStore8 : memorySizeFunc := mem1 0 1.
Definition memoryMStore : memorySizeFunc := mem1 0 32.
Definition memoryCreate : memorySizeFunc := mem2 1 2.
Definition memoryCreate2 : memorySizeFunc := mem2 1 2.
Definition memoryReturn : memorySizeFunc := mem2 0 1.
Definition memoryRevert : memorySizeFunc := mem2 0 1.
Definition memoryLog : memorySizeFunc := mem2 0 1.

(** The larger of the input and the output window of a call. *)
Definition mem_max (f g : memorySizeFunc) : memorySizeFunc := fun stack =>
  match f stack with
  | None => None
  | Some (_, true) => Some (0, true)
  | Some (x, false) =>
      match g stack with
      | None => None
      | Some (_, true) => Some (0, true)
      | Some (y, false) => if y <? x then Some (x, false) else Some (y, false)
      end
  end.

Definition memoryCall : memorySizeFunc := mem_max (mem2 5 6) (mem2 3 4).
Definition memoryDelegateCall : memorySizeFunc := mem_max (mem2 4 5) (mem2 2 3).
Definition memoryStaticCall : memorySizeFunc := mem_max (mem2 4 5) (mem2 2 3).
End memory_table.
