(* ===== verification/VmAnalysis.v ===== *)
(** * Jump destination analysis

    [core/vm/analysis.go]: the bit vector that marks the immediate data of PUSH
    instructions.  Bit [pos] of the vector is bit [7 - pos mod 8] of its byte
    [pos / 8]. *)

From Stdlib Require Import ZArith Lia.
From S2P Require Import Prelude Common Params.

Definition bitvec : Type := bytes.

Definition PUSH1_code : Z := 96.     (* 0x60 *)
Definition PUSH32_code : Z := 127.   (* 0x7f *)

(** [bits[i] |= m] on a byte. *)
Definition or_at (bits : bitvec) (i m : Z) : option bitvec :=
  match zget bits i with
  | Some b => zput bits i (Z.lor b m)
  | None => None
  end.

Definition set (bits : bitvec) (pos : Z) : option bitvec :=
  or_at bits (pos / 8) (Z.shiftr 128 (pos mod 8)).

Definition set8 (bits : bitvec) (pos : Z) : option bitvec :=
  match or_at bits (pos / 8) (Z.shiftr 255 (pos mod 8)) with
  | Some bits => or_at bits (pos / 8 + 1) (255 - Z.shiftr 255 (pos mod 8))
  | None => None
  end.

Definition codeSegment (bits : bitvec) (pos : Z) : option bool :=
  match zget bits (pos / 8) with
  | Some b => Some (Z.land b (Z.shiftr 128 (pos mod 8)) =? 0)
  | None => None
  end.

(** The two inner loops of [codeBitmap].  [numbits] is at most 32: [n] bounds
    the number of iterations. *)
Fixpoint mark8 (n : nat) (bits : bitvec) (pc numbits : Z) : option (bitvec * Z * Z) :=
  match n with
  | O => Some (bits, pc, numbits)
  | S n =>
      if 8 <=? numbits then
        match set8 bits pc with
        | Some bits => mark8 n bits (pc + 8) (numbits - 8)
        | None => None
        end
      else Some (bits, pc, numbits)
  end.

Fixpoint mark1 (n : nat) (bits : bitvec) (pc numbits : Z) : option (bitvec * Z) :=
  match n with
  | O => Some (bits, pc)
  | S n =>
      if 0 <? numbits then
        match set bits pc with
        | Some bits => mark1 n bits (pc + 1) (numbits - 1)
        | None => None
        end
      else Some (bits, pc)
  end.

Definition mark (bits : bitvec) (pc numbits : Z) : option (bitvec * Z) :=
  match mark8 5 bits pc numbits with
  | Some (bits, pc, numbits) => mark1 8 bits pc numbits
  | None => None
  end.

(** The main loop; every round advances [pc], so [length code] rounds do. *)
Fixpoint bitmap_loop (n : nat) (code : bytes) (bits : bitvec) (pc : Z) : option bitvec :=
  match n with
  | O => Some bits
  | S n =>
      if pc <? zlen code then
        match zget code pc with
        | None => None
        | Some op =>
            if (PUSH1_code <=? op) && (op <=? PUSH32_code) then
              match mark bits (pc + 1) (op - PUSH1_code + 1) with
              | Some (bits, pc) => bitmap_loop n code bits pc
              | None => None
              end
            else bitmap_loop n code bits (pc + 1)
        end
      else Some bits
  end.

Definition codeBitmap (code : bytes) : option bitvec :=
  bitmap_loop (S (length code)) code (zeros (zlen code / 8 + 1 + 4)) 0.

(** ** Reference: instruction boundaries *)

Definition imm_len (op : Z) : Z :=
  if (PUSH1_code <=? op) && (op <=? PUSH32_code) then op - PUSH1_code + 1 else 0.

(** [instr_start code pc]: disassembling [code] from 0, an instruction (or the
    end of the code) is reached at [pc]. *)
Inductive instr_start (code : bytes) : Z -> Prop :=
| instr_start_0 : instr_start code 0
| instr_start_next pc op :
    instr_start code pc -> zget code pc = Some op ->
    instr_start code (pc + 1 + imm_len op).

(** ** Bits of the vector *)

Definition tb (bits : bitvec) (i : Z) : bool :=
  match zget bits (i / 8) with
  | Some b => Z.testbit b (7 - i mod 8)
  | None => false
  end.

Lemma zget_insert {A} (l : list A) i j (x : A) :
  0 <= i < zlen l -> 0 <= j ->
  zget (<[Z.to_nat i := x]> l) j = if j =? i then Some x else zget l j.
Proof.
  intros Hi Hj. unfold zget. destruct (Z.leb_spec 0 j); [|lia].
  destruct (Z.eqb_spec j i) as [->|Hne].
  - apply list_lookup_insert_eq. unfold zlen in Hi. lia.
  - apply list_lookup_insert_ne. lia.
Qed.

Lemma or_at_tb bits i m :
  0 <= i < zlen bits ->
  exists bits', or_at bits i m = Some bits' /\ zlen bits' = zlen bits /\
    forall p, 0 <= p -> tb bits' p = tb bits p || ((p / 8 =? i) && Z.testbit m (7 - p mod 8)).
Proof.
  intros Hi. unfold or_at. destruct (zget_Some bits i Hi) as [b Hb]. rewrite Hb.
  rewrite zput_Some by done. eexists. split; [done|]. split.
  { unfold zlen. by rewrite length_insert. }
  intros p Hp. unfold tb. rewrite zget_insert by (try apply Z.div_pos; lia).
  destruct (Z.eqb_spec (p / 8) i) as [->|]; cbn [andb]; [|by rewrite orb_false_r].
  rewrite Hb. apply Z.lor_spec.
Qed.

(** Case analysis on a bit offset. *)
Ltac octet k :=
  let H := fresh in
  assert (k = 0 \/ k = 1 \/ k = 2 \/ k = 3 \/ k = 4 \/ k = 5 \/ k = 6 \/ k = 7) as H by lia;
  destruct H as [->|[->|[->|[->|[->|[->|[->| ->]]]]]]].

Lemma set_mask_bit a b :
  0 <= a < 8 -> 0 <= b < 8 -> Z.testbit (Z.shiftr 128 a) (7 - b) = (b =? a).
Proof. intros Ha Hb. octet a; octet b; reflexivity. Qed.

Lemma set8_mask_bit_lo a b :
  0 <= a < 8 -> 0 <= b < 8 -> Z.testbit (Z.shiftr 255 a) (7 - b) = (a <=? b).
Proof. intros Ha Hb. octet a; octet b; reflexivity. Qed.

Lemma set8_mask_bit_hi a b :
  0 <= a < 8 -> 0 <= b < 8 -> Z.testbit (255 - Z.shiftr 255 a) (7 - b) = (b <? a).
Proof. intros Ha Hb. octet a; octet b; reflexivity. Qed.

Lemma set_tb bits pos :
  0 <= pos -> pos / 8 < zlen bits ->
  exists bits', set bits pos = Some bits' /\ zlen bits' = zlen bits /\
    forall p, 0 <= p -> tb bits' p = tb bits p || (p =? pos).
Proof.
  intros H0 H. unfold set.
  destruct (or_at_tb bits (pos / 8) (Z.shiftr 128 (pos mod 8))) as (b & -> & Hl & Hb).
  { pose proof (Z.div_pos pos 8 ltac:(lia)). lia. }
  exists b. split; [done|]. split; [done|]. intros p Hp. rewrite Hb by done. f_equal.
  rewrite set_mask_bit by (apply Z.mod_pos_bound; lia).
  pose proof (Z.div_mod p 8 ltac:(lia)). pose proof (Z.div_mod pos 8 ltac:(lia)).
  destruct (Z.eqb_spec (p / 8) (pos / 8)), (Z.eqb_spec (p mod 8) (pos mod 8)),
    (Z.eqb_spec p pos); cbn; try done; subst; try lia.
Qed.

Lemma set8_tb bits pos :
  0 <= pos -> pos / 8 + 1 < zlen bits ->
  exists bits', set8 bits pos = Some bits' /\ zlen bits' = zlen bits /\
    forall p, 0 <= p -> tb bits' p = tb bits p || ((pos <=? p) && (p <? pos + 8)).
Proof.
  intros H0 H. unfold set8. pose proof (Z.div_pos pos 8 ltac:(lia)).
  destruct (or_at_tb bits (pos / 8) (Z.shiftr 255 (pos mod 8))) as (b & -> & Hl & Hb); [lia|].
  destruct (or_at_tb b (pos / 8 + 1) (255 - Z.shiftr 255 (pos mod 8))) as (b' & -> & Hl' & Hb'); [lia|].
  exists b'. split; [done|]. split; [lia|]. intros p Hp. rewrite Hb', Hb by done.
  rewrite <- orb_assoc. f_equal.
  rewrite set8_mask_bit_lo, set8_mask_bit_hi by (apply Z.mod_pos_bound; lia).
  pose proof (Z.div_mod p 8 ltac:(lia)). pose proof (Z.div_mod pos 8 ltac:(lia)).
  pose proof (Z.mod_pos_bound p 8 ltac:(lia)). pose proof (Z.mod_pos_bound pos 8 ltac:(lia)).
  destruct (Z.eqb_spec (p / 8) (pos / 8)), (Z.eqb_spec (p / 8) (pos / 8 + 1)),
    (Z.leb_spec (pos mod 8) (p mod 8)), (Z.ltb_spec (p mod 8) (pos mod 8)),
    (Z.leb_spec pos p), (Z.ltb_spec p (pos + 8)); cbn; done || lia.
Qed.

Lemma codeSegment_tb bits pos :
  0 <= pos -> pos / 8 < zlen bits -> codeSegment bits pos = Some (negb (tb bits pos)).
Proof.
  intros H0 H. unfold codeSegment, tb.
  destruct (zget_Some bits (pos / 8)) as [b ->]; [pose proof (Z.div_pos pos 8 ltac:(lia)); lia|].
  f_equal. pose proof (Z.mod_pos_bound pos 8 ltac:(lia)) as Hk.
  replace (Z.shiftr 128 (pos mod 8)) with (2 ^ (7 - pos mod 8)).
  2:{ set (k := pos mod 8) in *. clearbody k. octet k; reflexivity. }
  rewrite Z.land_comm. set (k := 7 - pos mod 8). assert (0 <= k) by lia.
  destruct (Z.testbit b k) eqn:E; cbn; [apply Z.eqb_neq|apply Z.eqb_eq].
  - intros Hz. apply (f_equal (fun z => Z.testbit z k)) in Hz.
    rewrite Z.land_spec, Z.pow2_bits_true, E, Z.bits_0 in Hz by done. done.
  - apply Z.bits_inj'. intros n Hn. rewrite Z.land_spec, Z.bits_0.
    destruct (Z.eq_dec n k) as [->|]; [by rewrite E, andb_false_r|].
    by rewrite Z.pow2_bits_false.
Qed.

(** ** The loops *)

(** A vector that extends [bits] by the range [a, b). *)
Definition marked (bits bits' : bitvec) (a b : Z) : Prop :=
  zlen bits' = zlen bits /\
  forall p, 0 <= p -> tb bits' p = tb bits p || ((a <=? p) && (p <? b)).

Lemma marked_trans bits1 bits2 bits3 a b c :
  a <= b -> b <= c -> marked bits1 bits2 a b -> marked bits2 bits3 b c -> marked bits1 bits3 a c.
Proof.
  intros Hab Hbc [Hl1 H1] [Hl2 H2]. split; [lia|]. intros p Hp. rewrite H2, H1 by done.
  rewrite <- orb_assoc. f_equal.
  destruct (Z.leb_spec a p), (Z.ltb_spec p b), (Z.leb_spec b p), (Z.ltb_spec p c);
    cbn; done || lia.
Qed.

Lemma mark1_marked n bits pc numbits :
  0 <= pc -> 0 <= numbits -> (Z.to_nat numbits <= n)%nat -> (pc + numbits) / 8 < zlen bits ->
  exists bits', mark1 n bits pc numbits = Some (bits', pc + numbits) /\
    marked bits bits' pc (pc + numbits).
Proof.
  revert bits pc numbits. induction n as [|n IH]; intros bits pc numbits Hpc Hn Hf Hb; cbn [mark1].
  - assert (numbits = 0) as -> by lia. rewrite Z.add_0_r. exists bits. split; [done|].
    split; [done|]. intros p _. destruct (Z.leb_spec pc p), (Z.ltb_spec p pc); cbn;
      rewrite ?orb_false_r; done || lia.
  - destruct (Z.ltb_spec 0 numbits).
    + destruct (set_tb bits pc) as (b1 & -> & Hl & Htb); [lia| |].
      { apply Z.le_lt_trans with ((pc + numbits) / 8); [apply Z.div_le_mono; lia|done]. }
      destruct (IH b1 (pc + 1) (numbits - 1)) as (b2 & -> & Hm); [lia..| |].
      { rewrite Hl. by replace (pc + 1 + (numbits - 1)) with (pc + numbits) by lia. }
      replace (pc + 1 + (numbits - 1)) with (pc + numbits) in * by lia.
      exists b2. split; [done|]. apply (marked_trans bits b1 b2 pc (pc + 1)); [lia..| |done].
      split; [done|]. intros p Hp. rewrite Htb by done. f_equal.
      destruct (Z.eqb_spec p pc), (Z.leb_spec pc p), (Z.ltb_spec p (pc + 1)); cbn; done || lia.
    + assert (numbits = 0) as -> by lia. rewrite Z.add_0_r. exists bits. split; [done|].
      split; [done|]. intros p _. destruct (Z.leb_spec pc p), (Z.ltb_spec p pc); cbn;
        rewrite ?orb_false_r; done || lia.
Qed.

Lemma mark8_marked n bits pc numbits :
  0 <= pc -> 0 <= numbits -> numbits < 8 * Z.of_nat n -> (pc + numbits) / 8 < zlen bits ->
  exists bits' pc' k, mark8 n bits pc numbits = Some (bits', pc', k) /\
    pc' + k = pc + numbits /\ pc <= pc' /\ 0 <= k < 8 /\ marked bits bits' pc pc'.
Proof.
  revert bits pc numbits. induction n as [|n IH]; intros bits pc numbits Hpc Hn Hf Hb; cbn [mark8].
  { lia. }
  destruct (Z.leb_spec 8 numbits).
  - destruct (set8_tb bits pc) as (b1 & -> & Hl & Htb); [lia| |].
    { rewrite <- (Z.div_add pc 1 8) by lia.
      apply Z.le_lt_trans with ((pc + numbits) / 8); [apply Z.div_le_mono; lia|done]. }
    destruct (IH b1 (pc + 8) (numbits - 8)) as (b2 & pc' & k & -> & Heq & Hle & Hk & Hm); [lia..| |].
    { rewrite Hl. by replace (pc + 8 + (numbits - 8)) with (pc + numbits) by lia. }
    exists b2, pc', k. split; [done|]. split; [lia|]. split; [lia|]. split; [lia|].
    apply (marked_trans bits b1 b2 pc (pc + 8)); [lia..| |done]. by split.
  - exists bits, pc, numbits. split; [done|]. split; [lia|]. split; [lia|]. split; [lia|].
    split; [done|]. intros p _. destruct (Z.leb_spec pc p), (Z.ltb_spec p pc); cbn;
      rewrite ?orb_false_r; done || lia.
Qed.

Lemma mark_marked bits pc numbits :
  0 <= pc -> 0 <= numbits <= 32 -> (pc + numbits) / 8 < zlen bits ->
  exists bits', mark bits pc numbits = Some (bits', pc + numbits) /\
    marked bits bits' pc (pc + numbits).
Proof.
  intros Hpc Hn Hb. unfold mark.
  destruct (mark8_marked 5 bits pc numbits) as (b1 & pc' & k & -> & Heq & Hle & Hk & Hm); [lia..|done|].
  destruct (mark1_marked 8 b1 pc' k) as (b2 & -> & Hm2); [lia..| |].
  { destruct Hm as [-> _]. by rewrite Heq. }
  rewrite Heq in *. exists b2. split; [done|].
  by apply (marked_trans bits b1 b2 pc pc'); [lia..| |].
Qed.

Lemma imm_len_range op : 0 <= imm_len op <= 32.
Proof. unfold imm_len, PUSH1_code, PUSH32_code. case_match; go_bool; lia. Qed.

Lemma instr_start_nonneg code pc : instr_start code pc -> 0 <= pc.
Proof. induction 1 as [|pc op H IH]; [lia|]. pose proof (imm_len_range op). lia. Qed.

(** Instructions do not overlap. *)
Lemma instr_start_disjoint code p q op :
  instr_start code p -> zget code p = Some op -> instr_start code q -> p < q ->
  p + 1 + imm_len op <= q.
Proof.
  remember (Z.to_nat (p + q)) as n eqn:En. revert p q op En.
  induction n as [n IH] using lt_wf_ind. intros p q op -> Hp Hop Hq Hlt.
  pose proof (instr_start_nonneg _ _ Hp). inversion Hq as [|q0 op0 Hq0 Hop0]; subst; [lia|].
  pose proof (instr_start_nonneg _ _ Hq0). pose proof (imm_len_range op0).
  destruct (Z.lt_trichotomy p q0) as [Hc|[->|Hc]].
  - assert (p + 1 + imm_len op <= q0); [|lia]. eapply (IH (Z.to_nat (p + q0))); eauto. lia.
  - rewrite Hop in Hop0. simplify_eq. lia.
  - assert (q0 + 1 + imm_len op0 <= p); [|lia]. eapply (IH (Z.to_nat (q0 + p))); eauto. lia.
Qed.

Definition analysed (code : bytes) (bits : bitvec) (upto : Z) : Prop :=
  zlen bits = zlen code / 8 + 5 /\
  (forall p, 0 <= p < upto -> tb bits p = false <-> instr_start code p) /\
  (forall p, upto <= p -> tb bits p = false).

Lemma bitmap_loop_analysed n code bits pc :
  zlen code - pc < Z.of_nat n -> instr_start code pc -> analysed code bits pc ->
  exists bits' pc', bitmap_loop n code bits pc = Some bits' /\ zlen code <= pc' /\
    analysed code bits' pc'.
Proof.
  revert bits pc. induction n as [|n IH]; intros bits pc Hn Hs Ha; cbn [bitmap_loop].
  { exists bits, pc. split; [done|]. split; [lia|done]. }
  destruct (Z.ltb_spec pc (zlen code)) as [Hlt|Hge].
  2:{ exists bits, pc. auto. }
  pose proof (instr_start_nonneg _ _ Hs) as Hpc. destruct Ha as (Hl & Hb & Hz).
  destruct (zget_Some code pc) as [op Hop]; [lia|]. rewrite Hop.
  pose proof (instr_start_next code pc op Hs Hop) as Hnext. pose proof (imm_len_range op) as Hi.
  assert (exists b', (if (PUSH1_code <=? op) && (op <=? PUSH32_code)
      then mark bits (pc + 1) (op - PUSH1_code + 1) = Some (b', pc + 1 + imm_len op)
      else b' = bits) /\ marked bits b' (pc + 1) (pc + 1 + imm_len op)) as (b' & Hm & Hmk).
  { unfold imm_len in *. destruct (_ && _) eqn:Epush.
    - destruct (mark_marked bits (pc + 1) (op - PUSH1_code + 1)) as (b' & Hm & Hmk); [lia..| |].
      { rewrite Hl. apply Z.le_lt_trans with ((zlen code + 4 * 8) / 8);
          [apply Z.div_le_mono; lia|rewrite Z.div_add by lia; lia]. }
      exists b'. auto.
    - exists bits. split; [done|]. split; [done|]. intros p _. rewrite Z.add_0_r.
      destruct (Z.leb_spec (pc + 1) p), (Z.ltb_spec p (pc + 1)); cbn; rewrite ?orb_false_r; done || lia. }
  assert (analysed code b' (pc + 1 + imm_len op)) as Ha'.
  { destruct Hmk as [Hl' Hmk]. split; [lia|]. split.
    - intros p Hp. rewrite Hmk by lia. destruct (Z.lt_ge_cases p pc) as [Hppc|Hppc].
      + rewrite (proj2 (Z.leb_gt (pc + 1) p)), orb_false_r by lia. apply Hb. lia.
      + rewrite Hz by lia. cbn [orb]. destruct (Z.eq_dec p pc) as [->|Hne].
        * rewrite (proj2 (Z.leb_gt (pc + 1) pc)) by lia. cbn. done.
        * rewrite (proj2 (Z.leb_le (pc + 1) p)), (proj2 (Z.ltb_lt p _)) by lia. cbn.
          split; [done|]. intros Hsp. pose proof (instr_start_disjoint code pc p op Hs Hop Hsp). lia.
    - intros p Hp. rewrite Hmk by lia. rewrite Hz by lia. cbn [orb].
      rewrite (proj2 (Z.ltb_ge p _)) by lia. apply andb_false_r. }
  destruct (IH b' (pc + 1 + imm_len op)) as (bits' & pc' & Hloop & Hres); [lia|done|done|].
  exists bits', pc'. split; [|done]. unfold imm_len in *. destruct (_ && _).
  - by rewrite Hm.
  - subst b'. by rewrite Z.add_0_r in Hloop.
Qed.

Lemma codeBitmap_analysed code :
  exists bits pc, codeBitmap code = Some bits /\ zlen code <= pc /\ analysed code bits pc.
Proof.
  unfold codeBitmap. pose proof (zlen_nonneg code).
  apply bitmap_loop_analysed.
  - unfold zlen. lia.
  - constructor.
  - split; [|split].
    + rewrite zlen_zeros; [lia|]. pose proof (Z.div_pos (zlen code) 8 ltac:(lia) ltac:(lia)). lia.
    + lia.
    + intros p _. unfold tb. case_match eqn:E; [|done].
      unfold zget, zeros in E. case_match; [|done].
      apply lookup_replicate in E as [-> _]. apply Z.bits_0.
Qed.

Lemma codeBitmap_segment code bits pos :
  codeBitmap code = Some bits -> 0 <= pos < zlen code ->
  exists b, codeSegment bits pos = Some b /\ (b = true <-> instr_start code pos).
Proof.
  destruct (codeBitmap_analysed code) as (bits' & pc & -> & Hpc & Hl & Hb & _).
  intros [= ->] Hpos. exists (negb (tb bits pos)). split.
  - apply codeSegment_tb; [lia|]. rewrite Hl.
    pose proof (Z.div_le_mono pos (zlen code) 8 ltac:(lia) ltac:(lia)). lia.
  - rewrite negb_true_iff. apply Hb. lia.
Qed.

(** The bit vector that [codeBitmap] computes with its byte-wise marking
    agrees with disassembling the code from its start: [codeBitmap] never
    indexes out of bounds (the marking of up to 32 bytes past the end stays
    inside the five spare bytes), and [codeSegment] at a position of the code
    is true exactly when an instruction starts there. *)
Theorem codeBitmap_correct (code : bytes) :
  exists bits, codeBitmap code = Some bits /\
    forall pos, 0 <= pos < zlen code ->
      exists b, codeSegment bits pos = Some b /\ (b = true <-> instr_start code pos).
Proof.
  destruct (codeBitmap_analysed code) as (bits & pc & E & _).
  exists bits. split; [done|]. intros pos. by apply codeBitmap_segment.
Qed.
