(* ===== verification/Blake2b.v ===== *)
(** * The BLAKE2b compression function

    [crypto/blake2b/blake2b_generic.go], as run by the precompiled contract of
    EIP-152, and its equivalence with the compression function F of RFC 7693.
    The sixteen local variables [v0 .. v15] are a list; the unrolled statements of
    one round are kept as the list they are in the source. *)

From Stdlib Require Import ZArith Lia.
From S2P Require Import Prelude.

Definition iv : list Z :=
  [0x6a09e667f3bcc908; 0xbb67ae8584caa73b; 0x3c6ef372fe94f82b; 0xa54ff53a5f1d36f1;
   0x510e527fade682d1; 0x9b05688c2b3e6c1f; 0x1f83d9abfb41bd6b; 0x5be0cd19137e2179].

Definition precomputed : list (list nat) := [
  [0; 2; 4; 6; 1; 3; 5; 7; 8; 10; 12; 14; 9; 11; 13; 15];
  [14; 4; 9; 13; 10; 8; 15; 6; 1; 0; 11; 5; 12; 2; 7; 3];
  [11; 12; 5; 15; 8; 0; 2; 13; 10; 3; 7; 9; 14; 6; 1; 4];
  [7; 3; 13; 11; 9; 1; 12; 14; 2; 5; 4; 15; 6; 10; 0; 8];
  [9; 5; 2; 10; 0; 7; 4; 15; 14; 11; 6; 3; 1; 12; 8; 13];
  [2; 6; 0; 8; 12; 10; 11; 3; 4; 7; 15; 1; 13; 5; 14; 9];
  [12; 1; 14; 4; 5; 15; 13; 10; 0; 6; 9; 8; 7; 3; 2; 11];
  [13; 7; 12; 3; 11; 14; 1; 9; 5; 15; 8; 2; 0; 4; 6; 10];
  [6; 14; 11; 0; 15; 9; 3; 8; 12; 13; 1; 10; 2; 7; 4; 5];
  [10; 8; 7; 1; 2; 4; 6; 5; 15; 9; 3; 13; 11; 14; 12; 0]]%nat.

(** [bits.RotateLeft64(x, -k)]. *)
Definition rotr (x k : Z) : Z := Z.lor (Z.shiftr x k) (u64 (Z.shiftl x (64 - k))).

(** [binary.LittleEndian.Uint64(b)] and [PutUint64]. *)
Definition le64 (b : bytes) : Z := be_val (rev b).
Definition put64 (x : Z) : bytes := rev (be_bytes 8 x).

(** The forms of statement in the body of a round. *)
Inductive stmt :=
| AddM (i k : nat)      (* vi += m[s[k]] *)
| Add (i j : nat)       (* vi += vj *)
| Xor (i j : nat)       (* vi ^= vj *)
| Rot (i : nat) (k : Z).  (* vi = bits.RotateLeft64(vi, -k) *)

Definition ix (l : list Z) (i : nat) : Z := nth i l 0.

Definition exec1 (msg : nat -> Z) (v : list Z) (s : stmt) : list Z :=
  match s with
  | AddM i k => <[i := u64 (ix v i + msg k)]> v
  | Add i j => <[i := u64 (ix v i + ix v j)]> v
  | Xor i j => <[i := Z.lxor (ix v i) (ix v j)]> v
  | Rot i k => <[i := rotr (ix v i) k]> v
  end.

Definition exec (msg : nat -> Z) (p : list stmt) (v : list Z) : list Z := fold_left (exec1 msg) p v.

(** The statements of a round, first the columns, then the diagonals. *)
Definition round_columns : list stmt := [
  AddM 0 0; Add 0 4; Xor 12 0; Rot 12 32; Add 8 12; Xor 4 8; Rot 4 24;
  AddM 1 1; Add 1 5; Xor 13 1; Rot 13 32; Add 9 13; Xor 5 9; Rot 5 24;
  AddM 2 2; Add 2 6; Xor 14 2; Rot 14 32; Add 10 14; Xor 6 10; Rot 6 24;
  AddM 3 3; Add 3 7; Xor 15 3; Rot 15 32; Add 11 15; Xor 7 11; Rot 7 24;
  AddM 0 4; Add 0 4; Xor 12 0; Rot 12 16; Add 8 12; Xor 4 8; Rot 4 63;
  AddM 1 5; Add 1 5; Xor 13 1; Rot 13 16; Add 9 13; Xor 5 9; Rot 5 63;
  AddM 2 6; Add 2 6; Xor 14 2; Rot 14 16; Add 10 14; Xor 6 10; Rot 6 63;
  AddM 3 7; Add 3 7; Xor 15 3; Rot 15 16; Add 11 15; Xor 7 11; Rot 7 63].

Definition round_diagonals : list stmt := [
  AddM 0 8; Add 0 5; Xor 15 0; Rot 15 32; Add 10 15; Xor 5 10; Rot 5 24;
  AddM 1 9; Add 1 6; Xor 12 1; Rot 12 32; Add 11 12; Xor 6 11; Rot 6 24;
  AddM 2 10; Add 2 7; Xor 13 2; Rot 13 32; Add 8 13; Xor 7 8; Rot 7 24;
  AddM 3 11; Add 3 4; Xor 14 3; Rot 14 32; Add 9 14; Xor 4 9; Rot 4 24;
  AddM 0 12; Add 0 5; Xor 15 0; Rot 15 16; Add 10 15; Xor 5 10; Rot 5 63;
  AddM 1 13; Add 1 6; Xor 12 1; Rot 12 16; Add 11 12; Xor 6 11; Rot 6 63;
  AddM 2 14; Add 2 7; Xor 13 2; Rot 13 16; Add 8 13; Xor 7 8; Rot 7 63;
  AddM 3 15; Add 3 4; Xor 14 3; Rot 14 16; Add 9 14; Xor 4 9; Rot 4 63].

Definition round_body (m : list Z) (i : Z) (v : list Z) : list Z :=
  let s := nth (Z.to_nat (i mod 10)) precomputed [] in
  let msg k := ix m (nth k s 0%nat) in
  exec msg round_diagonals (exec msg round_columns v).

(** [for i := 0; i < n; i++ { v = body(i, v) }]: [n] rounds from [i]. *)
Fixpoint for_loop {A} (body : Z -> A -> A) (n : nat) (i : Z) (v : A) : A :=
  match n with
  | O => v
  | S n => for_loop body n (i + 1) (body i v)
  end.

Definition fGeneric (h m : list Z) (c0 c1 flag rounds : Z) : list Z :=
  let v := take 8 h ++ [ix iv 0; ix iv 1; ix iv 2; ix iv 3;
                        Z.lxor (ix iv 4) c0; Z.lxor (ix iv 5) c1; Z.lxor (ix iv 6) flag; ix iv 7] in
  let v := for_loop (round_body m) (Z.to_nat rounds) 0 v in
  [Z.lxor (ix h 0) (Z.lxor (ix v 0) (ix v 8));
   Z.lxor (ix h 1) (Z.lxor (ix v 1) (ix v 9));
   Z.lxor (ix h 2) (Z.lxor (ix v 2) (ix v 10));
   Z.lxor (ix h 3) (Z.lxor (ix v 3) (ix v 11));
   Z.lxor (ix h 4) (Z.lxor (ix v 4) (ix v 12));
   Z.lxor (ix h 5) (Z.lxor (ix v 5) (ix v 13));
   Z.lxor (ix h 6) (Z.lxor (ix v 6) (ix v 14));
   Z.lxor (ix h 7) (Z.lxor (ix v 7) (ix v 15))].

Definition F (h m c : list Z) (final : bool) (rounds : Z) : list Z :=
  let flag := if final then MaxUint64 else 0 in
  fGeneric h m (ix c 0) (ix c 1) flag rounds.

(** ** RFC 7693 *)

Module RFC7693.
(** The mixing function G of section 3.1, on the work vector. *)
Definition G (v : list Z) (a b c d : nat) (x y : Z) : list Z :=
  let v := <[a := u64 (ix v a + ix v b + x)]> v in
  let v := <[d := rotr (Z.lxor (ix v d) (ix v a)) 32]> v in
  let v := <[c := u64 (ix v c + ix v d)]> v in
  let v := <[b := rotr (Z.lxor (ix v b) (ix v c)) 24]> v in
  let v := <[a := u64 (ix v a + ix v b + y)]> v in
  let v := <[d := rotr (Z.lxor (ix v d) (ix v a)) 16]> v in
  let v := <[c := u64 (ix v c + ix v d)]> v in
  <[b := rotr (Z.lxor (ix v b) (ix v c)) 63]> v.

(** The message schedule of section 2.7. *)
Definition SIGMA : list (list nat) := [
  [0; 1; 2; 3; 4; 5; 6; 7; 8; 9; 10; 11; 12; 13; 14; 15];
  [14; 10; 4; 8; 9; 15; 13; 6; 1; 12; 0; 2; 11; 7; 5; 3];
  [11; 8; 12; 0; 5; 2; 15; 13; 10; 14; 3; 6; 7; 1; 9; 4];
  [7; 9; 3; 1; 13; 12; 11; 14; 2; 6; 5; 10; 4; 0; 15; 8];
  [9; 0; 5; 7; 2; 4; 10; 15; 14; 1; 11; 12; 6; 8; 3; 13];
  [2; 12; 6; 10; 0; 11; 8; 3; 4; 13; 7; 5; 15; 14; 1; 9];
  [12; 5; 1; 15; 14; 13; 4; 10; 0; 7; 6; 3; 9; 2; 8; 11];
  [13; 11; 7; 14; 12; 1; 3; 9; 5; 0; 15; 4; 8; 6; 2; 10];
  [6; 15; 14; 9; 11; 3; 0; 8; 12; 2; 13; 7; 1; 4; 10; 5];
  [10; 2; 8; 4; 7; 6; 1; 5; 15; 11; 9; 14; 3; 12; 13; 0]]%nat.

Definition round (m : list Z) (i : Z) (v : list Z) : list Z :=
  let s := nth (Z.to_nat (i mod 10)) SIGMA [] in
  let mm j := ix m (nth j s 0%nat) in
  let v := G v 0 4 8 12 (mm 0%nat) (mm 1%nat) in
  let v := G v 1 5 9 13 (mm 2%nat) (mm 3%nat) in
  let v := G v 2 6 10 14 (mm 4%nat) (mm 5%nat) in
  let v := G v 3 7 11 15 (mm 6%nat) (mm 7%nat) in
  let v := G v 0 5 10 15 (mm 8%nat) (mm 9%nat) in
  let v := G v 1 6 11 12 (mm 10%nat) (mm 11%nat) in
  let v := G v 2 7 8 13 (mm 12%nat) (mm 13%nat) in
  G v 3 4 9 14 (mm 14%nat) (mm 15%nat).

(** F of section 3.2, with the number of rounds as a parameter (EIP-152). *)
Definition F (h m : list Z) (t0 t1 : Z) (f : bool) (r : Z) : list Z :=
  let v := h ++ iv in
  let v := <[12%nat := Z.lxor (ix v 12) t0]> v in
  let v := <[13%nat := Z.lxor (ix v 13) t1]> v in
  let v := if f then <[14%nat := Z.lxor (ix v 14) MaxUint64]> v else v in
  let v := for_loop (round m) (Z.to_nat r) 0 v in
  map (fun i => Z.lxor (Z.lxor (ix h i) (ix v i)) (ix v (i + 8))) (seq 0 8).
End RFC7693.

(** ** Equivalence *)

Lemma u64_add3 a b x : u64 (u64 (a + x) + b) = u64 (a + b + x).
Proof. unfold u64. rewrite Z.add_mod_idemp_l by done. f_equal. lia. Qed.

(** A vector of sixteen words, by its entries. *)
Lemma vec16 (v : list Z) : length v = 16%nat ->
  v = [ix v 0; ix v 1; ix v 2; ix v 3; ix v 4; ix v 5; ix v 6; ix v 7;
       ix v 8; ix v 9; ix v 10; ix v 11; ix v 12; ix v 13; ix v 14; ix v 15].
Proof. do 17 (destruct v as [|? v]; [try discriminate|]); [reflexivity|discriminate]. Qed.

Lemma G_length v a b c d x y : length (RFC7693.G v a b c d x y) = length v.
Proof. unfold RFC7693.G. by rewrite !length_insert. Qed.

Ltac run16 :=
  match goal with
  | H : length ?v = 16%nat |- _ =>
      rewrite (vec16 v H); generalize (ix v 0), (ix v 1), (ix v 2), (ix v 3), (ix v 4), (ix v 5),
        (ix v 6), (ix v 7), (ix v 8), (ix v 9), (ix v 10), (ix v 11), (ix v 12), (ix v 13),
        (ix v 14), (ix v 15); clear v H; intros
  end;
  cbv [exec fold_left round_columns round_diagonals exec1 RFC7693.G ix nth insert list_insert alter];
  rewrite !u64_add3; reflexivity.

Lemma columns_G (msg : nat -> Z) v : length v = 16%nat ->
  exec msg round_columns v =
  RFC7693.G (RFC7693.G (RFC7693.G (RFC7693.G v 0 4 8 12 (msg 0%nat) (msg 4%nat))
    1 5 9 13 (msg 1%nat) (msg 5%nat)) 2 6 10 14 (msg 2%nat) (msg 6%nat)) 3 7 11 15 (msg 3%nat) (msg 7%nat).
Proof. intros H. run16. Qed.

Lemma diagonals_G (msg : nat -> Z) v : length v = 16%nat ->
  exec msg round_diagonals v =
  RFC7693.G (RFC7693.G (RFC7693.G (RFC7693.G v 0 5 10 15 (msg 8%nat) (msg 12%nat))
    1 6 11 12 (msg 9%nat) (msg 13%nat)) 2 7 8 13 (msg 10%nat) (msg 14%nat)) 3 4 9 14 (msg 11%nat) (msg 15%nat).
Proof. intros H. run16. Qed.

(** [precomputed] is the schedule with the words of a layer reordered. *)
Definition reorder (s : list nat) : list nat :=
  let n k := nth k s 0%nat in
  [n 0; n 2; n 4; n 6; n 1; n 3; n 5; n 7; n 8; n 10; n 12; n 14; n 9; n 11; n 13; n 15]%nat.

Lemma precomputed_reorder : precomputed = map reorder RFC7693.SIGMA.
Proof. reflexivity. Qed.

Lemma precomputed_row i :
  nth (Z.to_nat (i mod 10)) precomputed [] =
  reorder (nth (Z.to_nat (i mod 10)) RFC7693.SIGMA []).
Proof.
  rewrite precomputed_reorder.
  assert (Z.to_nat (i mod 10) < 10)%nat as H.
  { pose proof (Z.mod_pos_bound i 10 ltac:(lia)). lia. }
  rewrite nth_indep with (d' := reorder []) by (cbn; lia). apply map_nth.
Qed.

#[local] Opaque RFC7693.G.

Lemma round_rfc m i v : length v = 16%nat ->
  round_body m i v = RFC7693.round m i v.
Proof.
  intros Hv. unfold round_body. rewrite precomputed_row. unfold RFC7693.round.
  generalize (nth (Z.to_nat (i mod 10)) RFC7693.SIGMA []) as s. intros s.
  rewrite columns_G by exact Hv. rewrite diagonals_G by (rewrite !G_length; exact Hv).
  reflexivity.
Qed.

Lemma round_length m i v : length (RFC7693.round m i v) = length v.
Proof. unfold RFC7693.round. by rewrite !G_length. Qed.

Lemma for_loop_ext {A} (P : A -> Prop) (f g : Z -> A -> A) :
  (forall i v, P v -> f i v = g i v) -> (forall i v, P v -> P (g i v)) ->
  forall n i v, P v -> for_loop f n i v = for_loop g n i v.
Proof.
  intros Hfg Hg. induction n as [|n IH]; intros i v Hv; cbn [for_loop]; [done|].
  rewrite Hfg by done. auto.
Qed.

(** C40: the unrolled compression function, with its reordered message schedule
    and its interleaved mixing steps, computes the function F of RFC 7693 with the
    given number of rounds, for every state of eight words. *)
Theorem F_rfc7693 (h m : list Z) (c0 c1 : Z) (final : bool) (rounds : Z) :
  length h = 8%nat ->
  F h m [c0; c1] final rounds = RFC7693.F h m c0 c1 final rounds.
Proof.
  intros Hh. unfold F, fGeneric, RFC7693.F. cbn [ix nth].
  rewrite (for_loop_ext (fun v => length v = 16%nat) (round_body m) (RFC7693.round m));
    [|intros; by apply round_rfc|intros; by rewrite round_length
     |rewrite length_app, length_take, Hh; reflexivity].
  do 9 (destruct h as [|? h]; [try discriminate|]); [|discriminate].
  destruct final; cbn [take app seq map Nat.add ix nth insert list_insert alter iv];
    rewrite ?Z.lxor_0_r, <- !Z.lxor_assoc; reflexivity.
Qed.

(** The inputs of test vector 5 of EIP-152. *)
Definition abc_h : list Z :=
  [0x6a09e667f2bdc948; 0xbb67ae8584caa73b; 0x3c6ef372fe94f82b; 0xa54ff53a5f1d36f1;
   0x510e527fade682d1; 0x9b05688c2b3e6c1f; 0x1f83d9abfb41bd6b; 0x5be0cd19137e2179].
Definition abc_m : list Z := 0x636261 :: replicate 15 0.

Lemma F_rfc7693_witness :
  F abc_h abc_m [3; 0] true 12 = RFC7693.F abc_h abc_m 3 0 true 12 /\
  hd 0 (F abc_h abc_m [3; 0] true 12) = 0x0d4d1c983fa580ba.
Proof. split; [apply (F_rfc7693 abc_h abc_m 3 0 true 12); reflexivity|vm_compute; reflexivity]. Defined.
