(* ===== verification/VmState.v ===== *)
(** * The state of the EVM

    Errors ([core/vm/errors.go]), the [StateDB] interface the EVM is written
    against ([core/vm/interface.go]), contracts ([core/vm/contract.go]), the block
    context and the mutable fields of [EVM] and [EVMInterpreter]
    ([core/vm/evm.go], [core/vm/interpreter.go]). *)

From Stdlib Require Import ZArith Lia.
From S2P Require Import Prelude Common Params Uint256 Crypto VmMemory VmAnalysis.

(** ** core/vm/errors.go *)

Inductive error :=
| ErrInvalidSubroutineEntry
| ErrOutOfGas
| ErrCodeStoreOutOfGas
| ErrDepth
| ErrInsufficientBalance
| ErrContractAddressCollision
| ErrExecutionReverted
| ErrMaxCodeSizeExceeded
| ErrInvalidJump
| ErrWriteProtection
| ErrReturnDataOutOfBounds
| ErrGasUintOverflow
| ErrInvalidRetsub
| ErrReturnStackExceeded
| ErrStackUnderflow (stackLen required : Z)
| ErrStackOverflow (stackLen limit : Z)
| ErrInvalidOpCode (opcode : Z)
| ErrReentrancySentry                (* "not enough gas for reentrancy sentry" *)
| ErrNoInterpreter                   (* "no compatible interpreter" *)
| ErrPrecompile (what : nat).        (* the errors of the precompiled contracts *)

#[export] Instance error_eq_dec : EqDecision error.
Proof. solve_decision. Defined.

Definition err_is (e : option error) (e' : error) : bool := bool_decide (e = Some e').

(** ** core/vm/interface.go

    The methods of the [StateDB] interface the EVM calls.  Reading may load
    accounts into a cache, so that readers return the database too.
    [SubRefund] and [RevertToSnapshot] can panic. *)

Record Log := MkLog {
  log_Address : Address;
  log_Topics : list Hash;
  log_Data : bytes;
  log_BlockNumber : Z;
}.

Class StateDB := {
  DB : Type;
  CreateAccount : Address -> DB -> DB;
  SubBalance : Address -> Z -> DB -> DB;
  AddBalance : Address -> Z -> DB -> DB;
  GetBalance : Address -> DB -> Z * DB;
  GetNonce : Address -> DB -> Z * DB;
  SetNonce : Address -> Z -> DB -> DB;
  GetCodeHash : Address -> DB -> Hash * DB;
  GetCode : Address -> DB -> bytes * DB;
  SetCode : Address -> bytes -> DB -> DB;
  GetCodeSize : Address -> DB -> Z * DB;
  AddRefund : Z -> DB -> DB;
  SubRefund : Z -> DB -> outcome DB;
  GetRefund : DB -> Z;
  GetCommittedState : Address -> Hash -> DB -> Hash * DB;
  GetState : Address -> Hash -> DB -> Hash * DB;
  SetState : Address -> Hash -> Hash -> DB -> DB;
  Suicide : Address -> DB -> bool * DB;
  HasSuicided : Address -> DB -> bool * DB;
  Exist : Address -> DB -> bool * DB;
  Empty : Address -> DB -> bool * DB;
  RevertToSnapshot : Z -> DB -> outcome DB;
  Snapshot : DB -> Z * DB;
  AddLog : Log -> DB -> DB;
  AddPreimage : Hash -> bytes -> DB -> DB;
}.

(** ** core/vm/evm.go: the context and the configuration of an [EVM] *)

Record Context {S : StateDB} := MkContext {
  CanTransfer : Address -> Z -> DB -> bool * DB;
  Transfer : Address -> Address -> Z -> DB -> DB;
  GetHash : Z -> Hash;
  Origin : Address;
  GasPrice : Z;
  Coinbase : Address;
  GasLimit : Z;
  BlockNumber : Z;
  Time : Z;
  Difficulty : Z;
}.

(** ** core/vm/contract.go

    The caller of a contract is used through its address, and, when it is itself
    a contract, through its caller's address and value ([AsDelegate]). *)

Inductive ContractRef :=
| AccountRef (a : Address)
| CallerContract (self CallerAddress : Address) (value : Z).

Definition ref_Address (r : ContractRef) : Address :=
  match r with
  | AccountRef a => a
  | CallerContract self _ _ => self
  end.

Record Contract := MkContract {
  CallerAddress : Address;
  caller : ContractRef;
  self : Address;
  analysis : option bitvec;
  Code : bytes;
  CodeHash : Hash;
  CodeAddr : option Address;
  Input : bytes;
  Gas : Z;
  value : Z;
}.

Definition with_Gas (c : Contract) (g : Z) : Contract :=
  MkContract (CallerAddress c) (caller c) (self c) (analysis c) (Code c) (CodeHash c)
    (CodeAddr c) (Input c) g (value c).
Definition with_Input (c : Contract) (i : bytes) : Contract :=
  MkContract (CallerAddress c) (caller c) (self c) (analysis c) (Code c) (CodeHash c)
    (CodeAddr c) i (Gas c) (value c).
Definition with_analysis (c : Contract) (a : bitvec) : Contract :=
  MkContract (CallerAddress c) (caller c) (self c) (Some a) (Code c) (CodeHash c)
    (CodeAddr c) (Input c) (Gas c) (value c).

(** The contract seen as the caller of another one. *)
Definition as_caller (c : Contract) : ContractRef :=
  CallerContract (self c) (CallerAddress c) (value c).

Definition GetByte (c : Contract) (n : Z) : Z :=
  if n <? u64 (zlen (Code c)) then default 0 (zget (Code c) n) else 0.
Definition GetOp (c : Contract) (n : Z) : Z := GetByte c n.
Definition Caller (c : Contract) : Address := CallerAddress c.
Definition Contract_Address (c : Contract) : Address := self c.
Definition Value (c : Contract) : Z := value c.

Definition UseGas (c : Contract) (gas : Z) : bool * Contract :=
  if Gas c <? gas then (false, c) else (true, with_Gas c (u64 (Gas c - gas))).

Definition SetCallCode (c : Contract) (addr : option Address) (hash : Hash) (code : bytes) : Contract :=
  MkContract (CallerAddress c) (caller c) (self c) (analysis c) code hash
    addr (Input c) (Gas c) (value c).

(** [codeAndHash]: the hash is computed on demand; zero means not yet. *)
Record codeAndHash := MkCodeAndHash { cah_code : bytes; cah_hash : Hash }.

Definition codeAndHash_Hash `{Keccak} (c : codeAndHash) : Hash * codeAndHash :=
  let c := if cah_hash c =? 0 then MkCodeAndHash (cah_code c) (Keccak256Hash (cah_code c)) else c in
  (cah_hash c, c).

Definition SetCodeOptionalHash (c : Contract) (addr : option Address) (cah : codeAndHash) : Contract :=
  SetCallCode c addr (cah_hash cah) (cah_code cah).

(** [AsDelegate]: the type assertion on the caller panics for a plain account. *)
Definition AsDelegate (c : Contract) : option Contract :=
  match caller c with
  | AccountRef _ => None
  | CallerContract _ pc pv =>
      Some (MkContract pc (caller c) (self c) (analysis c) (Code c) (CodeHash c)
              (CodeAddr c) (Input c) (Gas c) pv)
  end.

(** ** The mutable state of an [EVM] and of its interpreter

    [jumpdests] is the map shared by a contract and the contracts it calls.
    [abortReads] lists what the successive atomic reads of [evm.abort] return;
    past its end the flag is not set. *)

Record EVM {S : StateDB} := MkEVM {
  statedb : DB;
  depth : Z;
  callGasTemp : Z;
  abortReads : list bool;
  readOnly : bool;
  returnData : bytes;
  jumpdests : gmap Z bitvec;
}.

Section evm_fields.
Context {S : StateDB}.

Definition with_db (e : EVM) d := MkEVM S d (depth e) (callGasTemp e) (abortReads e) (readOnly e) (returnData e) (jumpdests e).
Definition with_depth (e : EVM) d := MkEVM S (statedb e) d (callGasTemp e) (abortReads e) (readOnly e) (returnData e) (jumpdests e).
Definition with_callGasTemp (e : EVM) g := MkEVM S (statedb e) (depth e) g (abortReads e) (readOnly e) (returnData e) (jumpdests e).
Definition with_abortReads (e : EVM) l := MkEVM S (statedb e) (depth e) (callGasTemp e) l (readOnly e) (returnData e) (jumpdests e).
Definition with_readOnly (e : EVM) b := MkEVM S (statedb e) (depth e) (callGasTemp e) (abortReads e) b (returnData e) (jumpdests e).
Definition with_returnData (e : EVM) r := MkEVM S (statedb e) (depth e) (callGasTemp e) (abortReads e) (readOnly e) r (jumpdests e).
Definition with_jumpdests (e : EVM) j := MkEVM S (statedb e) (depth e) (callGasTemp e) (abortReads e) (readOnly e) (returnData e) j.

(** [NewContract(caller, object, value, gas)]: the jump destination map is the
    caller's when the caller is a contract, else a new one. *)
Definition NewContract (caller : ContractRef) (object : Address) (value : Z) (gas : Z) : M EVM Contract :=
  fun e =>
    Ok (MkContract (ref_Address caller) caller object None [] 0 None [] gas value,
        match caller with
        | CallerContract _ _ _ => e
        | AccountRef _ => with_jumpdests e ∅
        end).

(** [isCode]: the analysis of the contract, of the map, or a new one. *)
Definition isCode (c : Contract) (j : gmap Z bitvec) (udest : Z) : option (bool * Contract * gmap Z bitvec) :=
  match analysis c with
  | Some a => b ← codeSegment a udest; Some (b, c, j)
  | None =>
      if negb (CodeHash c =? 0) then
        match j !! CodeHash c with
        | Some a => b ← codeSegment a udest; Some (b, with_analysis c a, j)
        | None =>
            a ← codeBitmap (Code c);
            b ← codeSegment a udest;
            Some (b, with_analysis c a, <[CodeHash c := a]> j)
        end
      else
        a ← codeBitmap (Code c);
        b ← codeSegment a udest;
        Some (b, with_analysis c a, j)
  end.

Definition validJumpdest {U : Uint256} (c : Contract) (j : gmap Z bitvec) (dest : u256)
  : option (bool * Contract * gmap Z bitvec) :=
  let '(udest, overflow) := U_Uint64WithOverflow dest in
  if (overflow : bool) || (u64 (zlen (Code c)) <=? udest) then Some (false, c, j)
  else
    x ← zget (Code c) udest;
    if negb (x =? 91) then Some (false, c, j)
    else isCode c j udest.

Definition validJumpSubdest (c : Contract) (j : gmap Z bitvec) (udest : Z)
  : option (bool * Contract * gmap Z bitvec) :=
  if (i64 udest <? 0) || (u64 (zlen (Code c)) <=? udest) then Some (false, c, j)
  else
    x ← zget (Code c) udest;
    if negb (x =? 92) then Some (false, c, j)
    else isCode c j udest.
End evm_fields.

(** ** A call frame: [callCtx], the program counter, and the machine *)

Record frame {U : Uint256} := MkFrame {
  pc : Z;
  stack : Stack u256;
  memory : Memory;
  rstack : list Z;              (* ReturnStack, top first *)
  contract : Contract;
}.

Record mstate {U : Uint256} {S : StateDB} := MkMstate { fr : frame; evm : EVM }.

Section frame_ops.
Context {U : Uint256} {S : StateDB}.

Definition fr_pc (f : frame) x := MkFrame U x (stack f) (memory f) (rstack f) (contract f).
Definition fr_stack (f : frame) x := MkFrame U (pc f) x (memory f) (rstack f) (contract f).
Definition fr_memory (f : frame) x := MkFrame U (pc f) (stack f) x (rstack f) (contract f).
Definition fr_rstack (f : frame) x := MkFrame U (pc f) (stack f) (memory f) x (contract f).
Definition fr_contract (f : frame) x := MkFrame U (pc f) (stack f) (memory f) (rstack f) x.

Definition getf {A} (f : frame -> A) : M mstate A := gets (fun s => f (fr s)).
Definition gete {A} (f : EVM -> A) : M mstate A := gets (fun s => f (evm s)).
Definition modf (g : frame -> frame) : M mstate unit :=
  modify (fun s => MkMstate U S (g (fr s)) (evm s)).
Definition mode (g : EVM -> EVM) : M mstate unit :=
  modify (fun s => MkMstate U S (fr s) (g (evm s))).
Definition set_pc x := modf (fun f => fr_pc f x).
Definition set_stack x := modf (fun f => fr_stack f x).
Definition set_memory x := modf (fun f => fr_memory f x).
Definition set_rstack x := modf (fun f => fr_rstack f x).
Definition set_contract x := modf (fun f => fr_contract f x).

(** Running code of the [EVM] from within a frame. *)
Definition on_evm {A} (m : M EVM A) : M mstate A :=
  fun s => match m (evm s) with
           | Ok (a, e) => Ok (a, MkMstate U S (fr s) e)
           | Panic p => Panic p
           | NoFuel => NoFuel
           end.

(** Calls of the state database. *)
Definition db_do (f : DB -> DB) : M EVM unit := modify (fun e => with_db e (f (statedb e))).
Definition db_get {A} (f : DB -> A * DB) : M EVM A :=
  fun e => let '(a, d) := f (statedb e) in Ok (a, with_db e d).
Definition db_try (f : DB -> outcome DB) : M EVM unit :=
  fun e => match f (statedb e) with
           | Ok d => Ok (tt, with_db e d)
           | Panic p => Panic p
           | NoFuel => NoFuel
           end.
End frame_ops.
