(* ===== verification/VmContracts.v ===== *)
(** * Precompiled contracts

    [core/vm/contracts.go]: the tables of precompiled contracts, their gas and
    their bodies.  Curve arithmetic and hash functions are the parameters of
    [Crypto.CryptoPrims]; BLAKE2b is modelled in Blake2b.  The result of a
    precompiled contract is a fresh slice or the very slice it was given. *)

From Stdlib Require Import ZArith Zpow_facts Lia.
From S2P Require Import Prelude Common Params Uint256 Crypto Blake2b VmMemory VmState.

Open Scope go_scope.

Inductive PrecompiledContract :=
| P_ecrecover | P_sha256hash | P_ripemd160hash | P_dataCopy | P_bigModExp
| P_bn256AddByzantium | P_bn256ScalarMulByzantium | P_bn256PairingByzantium
| P_bn256AddIstanbul | P_bn256ScalarMulIstanbul | P_bn256PairingIstanbul
| P_blake2F
| P_bls12381G1Add | P_bls12381G1Mul | P_bls12381G1MultiExp
| P_bls12381G2Add | P_bls12381G2Mul | P_bls12381G2MultiExp
| P_bls12381Pairing | P_bls12381MapG1 | P_bls12381MapG2.

(** ** The tables by fork; the key is the address [BytesToAddress([]byte{n})]. *)

Definition PrecompiledContractsHomestead (addr : Address) : option PrecompiledContract :=
  if addr =? BytesToAddress [1] then Some P_ecrecover
  else if addr =? BytesToAddress [2] then Some P_sha256hash
  else if addr =? BytesToAddress [3] then Some P_ripemd160hash
  else if addr =? BytesToAddress [4] then Some P_dataCopy
  else None.

Definition PrecompiledContractsByzantium (addr : Address) : option PrecompiledContract :=
  if addr =? BytesToAddress [1] then Some P_ecrecover
  else if addr =? BytesToAddress [2] then Some P_sha256hash
  else if addr =? BytesToAddress [3] then Some P_ripemd160hash
  else if addr =? BytesToAddress [4] then Some P_dataCopy
  else if addr =? BytesToAddress [5] then Some P_bigModExp
  else if addr =? BytesToAddress [6] then Some P_bn256AddByzantium
  else if addr =? BytesToAddress [7] then Some P_bn256ScalarMulByzantium
  else if addr =? BytesToAddress [8] then Some P_bn256PairingByzantium
  else None.

Definition PrecompiledContractsIstanbul (addr : Address) : option PrecompiledContract :=
  if addr =? BytesToAddress [1] then Some P_ecrecover
  else if addr =? BytesToAddress [2] then Some P_sha256hash
  else if addr =? BytesToAddress [3] then Some P_ripemd160hash
  else if addr =? BytesToAddress [4] then Some P_dataCopy
  else if addr =? BytesToAddress [5] then Some P_bigModExp
  else if addr =? BytesToAddress [6] then Some P_bn256AddIstanbul
  else if addr =? BytesToAddress [7] then Some P_bn256ScalarMulIstanbul
  else if addr =? BytesToAddress [8] then Some P_bn256PairingIstanbul
  else if addr =? BytesToAddress [9] then Some P_blake2F
  else None.

Definition PrecompiledContractsYoloV1 (addr : Address) : option PrecompiledContract :=
  if addr =? BytesToAddress [10] then Some P_bls12381G1Add
  else if addr =? BytesToAddress [11] then Some P_bls12381G1Mul
  else if addr =? BytesToAddress [12] then Some P_bls12381G1MultiExp
  else if addr =? BytesToAddress [13] then Some P_bls12381G2Add
  else if addr =? BytesToAddress [14] then Some P_bls12381G2Mul
  else if addr =? BytesToAddress [15] then Some P_bls12381G2MultiExp
  else if addr =? BytesToAddress [16] then Some P_bls12381Pairing
  else if addr =? BytesToAddress [17] then Some P_bls12381MapG1
  else if addr =? BytesToAddress [18] then Some P_bls12381MapG2
  else PrecompiledContractsIstanbul addr.

(** [EVM.precompile] of evm.go. *)
Definition precompile (r : RulesT) (addr : Address) : option PrecompiledContract :=
  if rIsYoloV1 r then PrecompiledContractsYoloV1 addr
  else if rIsIstanbul r then PrecompiledContractsIstanbul addr
  else if rIsByzantium r then PrecompiledContractsByzantium addr
  else PrecompiledContractsHomestead addr.

(** ** Gas *)

(** [uint64(len(input)+31)/32*perWord + base]. *)
Definition word_gas (perWord base : Z) (input : bytes) : Z :=
  u64 (u64 (u64 (zlen input + 31) / 32 * perWord) + base).

Definition sha256hash_RequiredGas := word_gas Sha256PerWordGas Sha256BaseGas.
Definition ripemd160hash_RequiredGas := word_gas Ripemd160PerWordGas Ripemd160BaseGas.
Definition dataCopy_RequiredGas := word_gas IdentityPerWordGas IdentityBaseGas.

Definition BitLen (z : Z) : Z := if z =? 0 then 0 else Z.log2 (Z.abs z) + 1.

(** The input after the three lengths. *)
Definition after96 (input : bytes) : bytes :=
  if 96 <? zlen input then drop 96 input else [].

Definition bigModExp_RequiredGas (input : bytes) : outcome Z :=
  b <- getData input 0 32 ;;
  e <- getData input 32 32 ;;
  m <- getData input 64 32 ;;
  let baseLen := be_val b in
  let expLen := be_val e in
  let modLen := be_val m in
  let input := after96 input in
  expHead <- (if zlen input <=? baseLen then Ok 0
              else if 32 <? expLen then
                h <- getData input (u64 baseLen) 32 ;; Ok (be_val h)
              else
                h <- getData input (u64 baseLen) (u64 expLen) ;; Ok (be_val h)) ;;
  let bitlen := BitLen expHead in
  let msb := if 0 <? bitlen then bitlen - 1 else 0 in
  let adjExpLen := if 32 <? expLen then 8 * (expLen - 32) else 0 in
  let adjExpLen := adjExpLen + msb in
  let gas := BigMax modLen baseLen in
  let gas :=
    if gas <=? 64 then gas * gas
    else if gas <=? 1024 then gas * gas / 4 + (96 * gas - 3072)
    else gas * gas / 16 + (480 * gas - 199680) in
  let gas := gas * BigMax adjExpLen 1 in
  let gas := gas / ModExpQuadCoeffDiv in
  if 64 <? BitLen gas then Ok MaxUint64 else Ok (u64 gas).

Definition bn256PairingIstanbul_RequiredGas (input : bytes) : Z :=
  u64 (Bn256PairingBaseGasIstanbul + u64 (zlen input / 192 * Bn256PairingPerPointGasIstanbul)).
Definition bn256PairingByzantium_RequiredGas (input : bytes) : Z :=
  u64 (Bn256PairingBaseGasByzantium + u64 (zlen input / 192 * Bn256PairingPerPointGasByzantium)).

Definition blake2FInputLength : Z := 213.

Definition blake2F_RequiredGas (input : bytes) : Z :=
  if negb (zlen input =? blake2FInputLength) then 0 else be_val (take 4 input).

(** [multi-exponentiation]: the discount table is indexed by the number of
    pairs, its last entry holds from there on. *)
Definition multiexp_gas (pair mulGas : Z) (input : bytes) : outcome Z :=
  let k := zlen input / pair in
  if k =? 0 then Ok 0
  else
    let dLen := zlen Bls12381MultiExpDiscountTable in
    discount <- of_option PanicIndex
      (if k <? dLen then zget Bls12381MultiExpDiscountTable (k - 1)
       else zget Bls12381MultiExpDiscountTable (dLen - 1)) ;;
    Ok (u64 (u64 (u64 k * mulGas) * discount) / 1000).

Definition bls12381G1MultiExp_RequiredGas := multiexp_gas 160 Bls12381G1MulGas.
Definition bls12381G2MultiExp_RequiredGas := multiexp_gas 288 Bls12381G2MulGas.

Definition bls12381Pairing_RequiredGas (input : bytes) : Z :=
  u64 (Bls12381PairingBaseGas + u64 (zlen input / 384 * Bls12381PairingPerPairGas)).

Definition RequiredGas (p : PrecompiledContract) (input : bytes) : outcome Z :=
  match p with
  | P_ecrecover => Ok EcrecoverGas
  | P_sha256hash => Ok (sha256hash_RequiredGas input)
  | P_ripemd160hash => Ok (ripemd160hash_RequiredGas input)
  | P_dataCopy => Ok (dataCopy_RequiredGas input)
  | P_bigModExp => bigModExp_RequiredGas input
  | P_bn256AddByzantium => Ok Bn256AddGasByzantium
  | P_bn256ScalarMulByzantium => Ok Bn256ScalarMulGasByzantium
  | P_bn256PairingByzantium => Ok (bn256PairingByzantium_RequiredGas input)
  | P_bn256AddIstanbul => Ok Bn256AddGasIstanbul
  | P_bn256ScalarMulIstanbul => Ok Bn256ScalarMulGasIstanbul
  | P_bn256PairingIstanbul => Ok (bn256PairingIstanbul_RequiredGas input)
  | P_blake2F => Ok (blake2F_RequiredGas input)
  | P_bls12381G1Add => Ok Bls12381G1AddGas
  | P_bls12381G1Mul => Ok Bls12381G1MulGas
  | P_bls12381G1MultiExp => bls12381G1MultiExp_RequiredGas input
  | P_bls12381G2Add => Ok Bls12381G2AddGas
  | P_bls12381G2Mul => Ok Bls12381G2MulGas
  | P_bls12381G2MultiExp => bls12381G2MultiExp_RequiredGas input
  | P_bls12381Pairing => Ok (bls12381Pairing_RequiredGas input)
  | P_bls12381MapG1 => Ok Bls12381MapG1Gas
  | P_bls12381MapG2 => Ok Bls12381MapG2Gas
  end.

(** ** Bodies *)

(** The slice returned: fresh bytes, or the input slice itself. *)
Inductive retdata := RetOwn (b : bytes) | RetInput.

Definition ret_bytes (input : bytes) (r : retdata) : bytes :=
  match r with RetOwn b => b | RetInput => input end.

(** Result of [Run(input) ([]byte, error)]. *)
Definition pres : Type := retdata * option error.
Definition pok (b : bytes) : outcome pres := Ok (RetOwn b, None).
Definition perr (n : nat) : outcome pres := Ok (RetOwn [], Some (ErrPrecompile n)).

Definition sl (b : bytes) (i j : Z) : outcome bytes := of_option PanicIndex (zslice b i j).
Definition at_ (b : bytes) (i : Z) : outcome Z := of_option PanicIndex (zget b i).

Section bodies.
Context {K : Keccak} {C : CryptoPrims}.

Definition ecrecover_Run (input : bytes) : outcome pres :=
  let input := RightPadBytes input 128 in
  rb <- sl input 64 96 ;;
  sb <- sl input 96 128 ;;
  v <- at_ input 63 ;;
  let r := be_val rb in
  let s := be_val sb in
  let v := u8 (v - 27) in
  z <- sl input 32 63 ;;
  if negb (allZero z) || negb (ValidateSignatureValues v r s false) then pok []
  else
    rs <- sl input 64 128 ;;
    sig <- of_option PanicIndex (zput (gocopy (zeros 65) rs) 64 v) ;;
    hash <- sl input 0 32 ;;
    match Ecrecover hash sig with
    | None => pok []
    | Some pubKey =>
        pk <- sl pubKey 1 (zlen pubKey) ;;
        h <- sl (Keccak256 pk) 12 32 ;;
        pok (LeftPadBytes h 32)
    end.

Definition sha256hash_Run (input : bytes) : outcome pres := pok (sha256_Sum256 input).

Definition ripemd160hash_Run (input : bytes) : outcome pres :=
  pok (LeftPadBytes (ripemd160_Sum input) 32).

Definition dataCopy_Run (input : bytes) : outcome pres := Ok (RetInput, None).

(** [base.Exp(base, exp, mod)] for a positive modulus. *)
Definition bigExp (base exp mod_ : Z) : Z := Zpow_mod base exp mod_.

(** [x.Bytes()]: big-endian without leading zeroes. *)
Definition big_Bytes (x : Z) : bytes := be_bytes (Z.to_nat ((BitLen x + 7) / 8)) x.

Definition bigModExp_Run (input : bytes) : outcome pres :=
  b <- getData input 0 32 ;;
  e <- getData input 32 32 ;;
  m <- getData input 64 32 ;;
  let baseLen := u64 (be_val b) in
  let expLen := u64 (be_val e) in
  let modLen := u64 (be_val m) in
  let input := after96 input in
  if (baseLen =? 0) && (modLen =? 0) then pok []
  else
    b <- getData input 0 baseLen ;;
    e <- getData input baseLen expLen ;;
    m <- getData input (u64 (baseLen + expLen)) modLen ;;
    let base := be_val b in
    let exp := be_val e in
    let mod_ := be_val m in
    if BitLen mod_ =? 0 then pok (LeftPadBytes [] (i64 modLen))
    else pok (LeftPadBytes (big_Bytes (bigExp base exp mod_)) (i64 modLen)).

(** The errors of the curve libraries are one error each here. *)
Definition newCurvePoint (blob : bytes) : option bn256_G1 := bn256_G1_Unmarshal blob.
Definition newTwistPoint (blob : bytes) : option bn256_G2 := bn256_G2_Unmarshal blob.

Definition runBn256Add (input : bytes) : outcome pres :=
  xb <- getData input 0 64 ;;
  match newCurvePoint xb with
  | None => perr 0
  | Some x =>
      yb <- getData input 64 64 ;;
      match newCurvePoint yb with
      | None => perr 0
      | Some y => pok (bn256_G1_Marshal (bn256_G1_Add x y))
      end
  end.

Definition runBn256ScalarMul (input : bytes) : outcome pres :=
  pb <- getData input 0 64 ;;
  match newCurvePoint pb with
  | None => perr 0
  | Some p =>
      kb <- getData input 64 32 ;;
      pok (bn256_G1_Marshal (bn256_G1_ScalarMult p (be_val kb)))
  end.

Definition true32Byte : bytes := zeros 31 ++ [1].
Definition false32Byte : bytes := zeros 32.

(** The loop [for i := 0; i < len(input); i += 192]; [n] bounds its rounds. *)
Fixpoint pairing_points (n : nat) (i : Z) (input : bytes) (cs : list bn256_G1) (ts : list bn256_G2)
  : outcome (option (list bn256_G1 * list bn256_G2)) :=
  match n with
  | O => Ok (Some (cs, ts))
  | S n =>
      if i <? zlen input then
        cb <- sl input i (i + 64) ;;
        match newCurvePoint cb with
        | None => Ok None
        | Some c =>
            tb <- sl input (i + 64) (i + 192) ;;
            match newTwistPoint tb with
            | None => Ok None
            | Some t => pairing_points n (i + 192) input (cs ++ [c]) (ts ++ [t])
            end
        end
      else Ok (Some (cs, ts))
  end.

Definition runBn256Pairing (input : bytes) : outcome pres :=
  if 0 <? zlen input mod 192 then perr 1
  else
    r <- pairing_points (length input) 0 input [] [] ;;
    match r with
    | None => perr 0
    | Some (cs, ts) =>
        if bn256_PairingCheck cs ts then pok true32Byte else pok false32Byte
    end.

(** [binary.LittleEndian.Uint64(input[offset : offset+8])] for [n] words. *)
Fixpoint words_at (n : nat) (offset : Z) (input : bytes) : outcome (list Z) :=
  match n with
  | O => Ok []
  | S n =>
      b <- sl input offset (offset + 8) ;;
      tl <- words_at n (offset + 8) input ;;
      Ok (le64 b :: tl)
  end.

Definition blake2F_Run (input : bytes) : outcome pres :=
  if negb (zlen input =? blake2FInputLength) then perr 2
  else
    f <- at_ input 212 ;;
    if negb (f =? 0) && negb (f =? 1) then perr 3
    else
      rb <- sl input 0 4 ;;
      let rounds := be_val rb in
      let final := f =? 1 in
      h <- words_at 8 4 input ;;
      m <- words_at 16 68 input ;;
      t <- words_at 2 196 input ;;
      pok (concat (map put64 (F h m t final rounds))).

Definition errLength : outcome pres := perr 4.

Definition bls12381G1Add_Run (input : bytes) : outcome pres :=
  if negb (zlen input =? 256) then errLength
  else
    a <- sl input 0 128 ;;
    match bls_G1_DecodePoint a with
    | None => perr 5
    | Some p0 =>
        b <- sl input 128 256 ;;
        match bls_G1_DecodePoint b with
        | None => perr 5
        | Some p1 => pok (bls_G1_EncodePoint (bls_G1_Add p0 p1))
        end
    end.

Definition bls12381G1Mul_Run (input : bytes) : outcome pres :=
  if negb (zlen input =? 160) then errLength
  else
    a <- sl input 0 128 ;;
    match bls_G1_DecodePoint a with
    | None => perr 5
    | Some p0 =>
        e <- sl input 128 160 ;;
        pok (bls_G1_EncodePoint (bls_G1_MulScalar p0 (be_val e)))
    end.

Definition bls12381G2Add_Run (input : bytes) : outcome pres :=
  if negb (zlen input =? 512) then errLength
  else
    a <- sl input 0 256 ;;
    match bls_G2_DecodePoint a with
    | None => perr 5
    | Some p0 =>
        b <- sl input 256 512 ;;
        match bls_G2_DecodePoint b with
        | None => perr 5
        | Some p1 => pok (bls_G2_EncodePoint (bls_G2_Add p0 p1))
        end
    end.

Definition bls12381G2Mul_Run (input : bytes) : outcome pres :=
  if negb (zlen input =? 288) then errLength
  else
    a <- sl input 0 256 ;;
    match bls_G2_DecodePoint a with
    | None => perr 5
    | Some p0 =>
        e <- sl input 256 288 ;;
        pok (bls_G2_EncodePoint (bls_G2_MulScalar p0 (be_val e)))
    end.

(** The loop of the multi-exponentiations: [n] pairs from [off], a point of
    [psize] bytes and a scalar of 32. *)
Fixpoint multiexp_pairs {P} (decode : bytes -> option P) (psize : Z) (n : nat) (off : Z) (input : bytes)
  : outcome (option (list P * list Z)) :=
  match n with
  | O => Ok (Some ([], []))
  | S n =>
      pb <- sl input off (off + psize) ;;
      match decode pb with
      | None => Ok None
      | Some p =>
          e <- sl input (off + psize) (off + psize + 32) ;;
          tl <- multiexp_pairs decode psize n (off + psize + 32) input ;;
          Ok (match tl with
              | None => None
              | Some (ps, es) => Some (p :: ps, be_val e :: es)
              end)
      end
  end.

Definition bls12381G1MultiExp_Run (input : bytes) : outcome pres :=
  let k := zlen input / 160 in
  if (zlen input =? 0) || negb (zlen input mod 160 =? 0) then errLength
  else
    r <- multiexp_pairs bls_G1_DecodePoint 128 (Z.to_nat k) 0 input ;;
    match r with
    | None => perr 5
    | Some (points, scalars) => pok (bls_G1_EncodePoint (bls_G1_MultiExp points scalars))
    end.

Definition bls12381G2MultiExp_Run (input : bytes) : outcome pres :=
  let k := zlen input / 288 in
  if (zlen input =? 0) || negb (zlen input mod 288 =? 0) then errLength
  else
    r <- multiexp_pairs bls_G2_DecodePoint 256 (Z.to_nat k) 0 input ;;
    match r with
    | None => perr 5
    | Some (points, scalars) => pok (bls_G2_EncodePoint (bls_G2_MultiExp points scalars))
    end.

Fixpoint bls_pairs (n : nat) (off : Z) (input : bytes) (acc : list (bls_G1 * bls_G2))
  : outcome (list (bls_G1 * bls_G2) + nat) :=
  match n with
  | O => Ok (inl acc)
  | S n =>
      a <- sl input off (off + 128) ;;
      match bls_G1_DecodePoint a with
      | None => Ok (inr 5%nat)
      | Some p1 =>
          b <- sl input (off + 128) (off + 384) ;;
          match bls_G2_DecodePoint b with
          | None => Ok (inr 5%nat)
          | Some p2 =>
              if negb (bls_G1_InCorrectSubgroup p1) then Ok (inr 6%nat)
              else if negb (bls_G2_InCorrectSubgroup p2) then Ok (inr 7%nat)
              else bls_pairs n (off + 384) input (acc ++ [(p1, p2)])
          end
      end
  end.

Definition bls12381Pairing_Run (input : bytes) : outcome pres :=
  let k := zlen input / 384 in
  if (zlen input =? 0) || negb (zlen input mod 384 =? 0) then errLength
  else
    r <- bls_pairs (Z.to_nat k) 0 input [] ;;
    match r with
    | inr e => perr e
    | inl ps => if bls_pairing_Check ps then pok true32Byte else pok false32Byte
    end.

(** [decodeBLS12381FieldElement]: [inr] is the error. *)
Definition decodeBLS12381FieldElement (inp : bytes) : outcome (bytes + nat) :=
  if negb (zlen inp =? 64) then Ok (inr 8%nat)
  else
    top <- sl inp 0 16 ;;
    if negb (allZero top) then Ok (inr 9%nat)
    else
      low <- sl inp 16 64 ;;
      Ok (inl (gocopy (zeros 48) low)).

Definition bls12381MapG1_Run (input : bytes) : outcome pres :=
  if negb (zlen input =? 64) then errLength
  else
    fe <- decodeBLS12381FieldElement input ;;
    match fe with
    | inr e => perr e
    | inl fe =>
        match bls_G1_MapToCurve fe with
        | None => perr 10
        | Some r => pok (bls_G1_EncodePoint r)
        end
    end.

Definition bls12381MapG2_Run (input : bytes) : outcome pres :=
  if negb (zlen input =? 128) then errLength
  else
    i0 <- sl input 0 64 ;;
    c0 <- decodeBLS12381FieldElement i0 ;;
    match c0 with
    | inr e => perr e
    | inl c0 =>
        i1 <- sl input 64 128 ;;
        c1 <- decodeBLS12381FieldElement i1 ;;
        match c1 with
        | inr e => perr e
        | inl c1 =>
            (* copy(fe[48:], c0); copy(fe[:48], c1) *)
            let fe := gocopy (zeros 48) c1 ++ gocopy (zeros 48) c0 in
            match bls_G2_MapToCurve fe with
            | None => perr 10
            | Some r => pok (bls_G2_EncodePoint r)
            end
        end
    end.

Definition Precompile_Run (p : PrecompiledContract) (input : bytes) : outcome pres :=
  match p with
  | P_ecrecover => ecrecover_Run input
  | P_sha256hash => sha256hash_Run input
  | P_ripemd160hash => ripemd160hash_Run input
  | P_dataCopy => dataCopy_Run input
  | P_bigModExp => bigModExp_Run input
  | P_bn256AddByzantium | P_bn256AddIstanbul => runBn256Add input
  | P_bn256ScalarMulByzantium | P_bn256ScalarMulIstanbul => runBn256ScalarMul input
  | P_bn256PairingByzantium | P_bn256PairingIstanbul => runBn256Pairing input
  | P_blake2F => blake2F_Run input
  | P_bls12381G1Add => bls12381G1Add_Run input
  | P_bls12381G1Mul => bls12381G1Mul_Run input
  | P_bls12381G1MultiExp => bls12381G1MultiExp_Run input
  | P_bls12381G2Add => bls12381G2Add_Run input
  | P_bls12381G2Mul => bls12381G2Mul_Run input
  | P_bls12381G2MultiExp => bls12381G2MultiExp_Run input
  | P_bls12381Pairing => bls12381Pairing_Run input
  | P_bls12381MapG1 => bls12381MapG1_Run input
  | P_bls12381MapG2 => bls12381MapG2_Run input
  end.

(** [RunPrecompiledContract]: the result slice, the gas left and the error. *)
Definition RunPrecompiledContract (p : PrecompiledContract) (input : bytes) (suppliedGas : Z)
  : outcome (retdata * Z * option error) :=
  gasCost <- RequiredGas p input ;;
  if suppliedGas <? gasCost then Ok (RetOwn [], 0, Some ErrOutOfGas)
  else
    let suppliedGas := u64 (suppliedGas - gasCost) in
    r <- Precompile_Run p input ;;
    Ok (fst r, suppliedGas, snd r).
End bodies.
