(* ===== verification/VmTable.v ===== *)
(** * Opcodes and jump tables of the EVM

    [core/vm/opcodes.go], [core/vm/jump_table.go] and [core/vm/eips.go].  The
    function pointers of an [operation] are named by constructors, interpreted in
    VmGas and VmInterp, so that a table is plain data.  A [JumpTable] is an array
    of pointers: the operations live in a heap, and a copy of a table shares
    them. *)

From Stdlib Require Import ZArith Lia.
From S2P Require Import Prelude Common Params Uint256 VmMemory.

(** ** core/vm/opcodes.go *)

Module Op.
Definition STOP : Z := 0.
Definition ADD : Z := 1.
Definition MUL : Z := 2.
Definition SUB : Z := 3.
Definition DIV : Z := 4.
Definition SDIV : Z := 5.
Definition MOD : Z := 6.
Definition SMOD : Z := 7.
Definition ADDMOD : Z := 8.
Definition MULMOD : Z := 9.
Definition EXP : Z := 10.
Definition SIGNEXTEND : Z := 11.
Definition LT : Z := 16.
Definition GT : Z := 17.
Definition SLT : Z := 18.
Definition SGT : Z := 19.
Definition EQ : Z := 20.
Definition ISZERO : Z := 21.
Definition AND : Z := 22.
Definition OR : Z := 23.
Definition XOR : Z := 24.
Definition NOT : Z := 25.
Definition BYTE : Z := 26.
Definition SHL : Z := 27.
Definition SHR : Z := 28.
Definition SAR : Z := 29.
Definition SHA3 : Z := 32.
Definition ADDRESS : Z := 48.
Definition BALANCE : Z := 49.
Definition ORIGIN : Z := 50.
Definition CALLER : Z := 51.
Definition CALLVALUE : Z := 52.
Definition CALLDATALOAD : Z := 53.
Definition CALLDATASIZE : Z := 54.
Definition CALLDATACOPY : Z := 55.
Definition CODESIZE : Z := 56.
Definition CODECOPY : Z := 57.
Definition GASPRICE : Z := 58.
Definition EXTCODESIZE : Z := 59.
Definition EXTCODECOPY : Z := 60.
Definition RETURNDATASIZE : Z := 61.
Definition RETURNDATACOPY : Z := 62.
Definition EXTCODEHASH : Z := 63.
Definition BLOCKHASH : Z := 64.
Definition COINBASE : Z := 65.
Definition TIMESTAMP : Z := 66.
Definition NUMBER : Z := 67.
Definition DIFFICULTY : Z := 68.
Definition GASLIMIT : Z := 69.
Definition CHAINID : Z := 70.
Definition SELFBALANCE : Z := 71.
Definition POP : Z := 80.
Definition MLOAD : Z := 81.
Definition MSTORE : Z := 82.
Definition MSTORE8 : Z := 83.
Definition SLOAD : Z := 84.
Definition SSTORE : Z := 85.
Definition JUMP : Z := 86.
Definition JUMPI : Z := 87.
Definition PC : Z := 88.
Definition MSIZE : Z := 89.
Definition GAS : Z := 90.
Definition JUMPDEST : Z := 91.
Definition BEGINSUB : Z := 92.
Definition RETURNSUB : Z := 93.
Definition JUMPSUB : Z := 94.
Definition PUSH1 : Z := 96.
Definition PUSH2 : Z := 97.
Definition PUSH3 : Z := 98.
Definition PUSH4 : Z := 99.
Definition PUSH5 : Z := 100.
Definition PUSH6 : Z := 101.
Definition PUSH7 : Z := 102.
Definition PUSH8 : Z := 103.
Definition PUSH9 : Z := 104.
Definition PUSH10 : Z := 105.
Definition PUSH11 : Z := 106.
Definition PUSH12 : Z := 107.
Definition PUSH13 : Z := 108.
Definition PUSH14 : Z := 109.
Definition PUSH15 : Z := 110.
Definition PUSH16 : Z := 111.
Definition PUSH17 : Z := 112.
Definition PUSH18 : Z := 113.
Definition PUSH19 : Z := 114.
Definition PUSH20 : Z := 115.
Definition PUSH21 : Z := 116.
Definition PUSH22 : Z := 117.
Definition PUSH23 : Z := 118.
Definition PUSH24 : Z := 119.
Definition PUSH25 : Z := 120.
Definition PUSH26 : Z := 121.
Definition PUSH27 : Z := 122.
Definition PUSH28 : Z := 123.
Definition PUSH29 : Z := 124.
Definition PUSH30 : Z := 125.
Definition PUSH31 : Z := 126.
Definition PUSH32 : Z := 127.
Definition DUP1 : Z := 128.
Definition DUP2 : Z := 129.
Definition DUP3 : Z := 130.
Definition DUP4 : Z := 131.
Definition DUP5 : Z := 132.
Definition DUP6 : Z := 133.
Definition DUP7 : Z := 134.
Definition DUP8 : Z := 135.
Definition DUP9 : Z := 136.
Definition DUP10 : Z := 137.
Definition DUP11 : Z := 138.
Definition DUP12 : Z := 139.
Definition DUP13 : Z := 140.
Definition DUP14 : Z := 141.
Definition DUP15 : Z := 142.
Definition DUP16 : Z := 143.
Definition SWAP1 : Z := 144.
Definition SWAP2 : Z := 145.
Definition SWAP3 : Z := 146.
Definition SWAP4 : Z := 147.
Definition SWAP5 : Z := 148.
Definition SWAP6 : Z := 149.
Definition SWAP7 : Z := 150.
Definition SWAP8 : Z := 151.
Definition SWAP9 : Z := 152.
Definition SWAP10 : Z := 153.
Definition SWAP11 : Z := 154.
Definition SWAP12 : Z := 155.
Definition SWAP13 : Z := 156.
Definition SWAP14 : Z := 157.
Definition SWAP15 : Z := 158.
Definition SWAP16 : Z := 159.
Definition LOG0 : Z := 160.
Definition LOG1 : Z := 161.
Definition LOG2 : Z := 162.
Definition LOG3 : Z := 163.
Definition LOG4 : Z := 164.
Definition PUSH : Z := 176.
Definition DUP : Z := 177.
Definition SWAP : Z := 178.
Definition CREATE : Z := 240.
Definition CALL : Z := 241.
Definition CALLCODE : Z := 242.
Definition RETURN : Z := 243.
Definition DELEGATECALL : Z := 244.
Definition CREATE2 : Z := 245.
Definition STATICCALL : Z := 250.
Definition REVERT : Z := 253.
Definition SELFDESTRUCT : Z := 255.
End Op.

Definition IsPush (op : Z) : bool := (Op.PUSH1 <=? op) && (op <=? Op.PUSH32).
Definition IsStaticJump (op : Z) : bool := op =? Op.JUMP.

(** ** The functions an operation points to *)

Inductive execFn :=
| X_opStop | X_opAdd | X_opMul | X_opSub | X_opDiv | X_opSdiv
| X_opMod | X_opSmod | X_opAddmod | X_opMulmod | X_opExp | X_opSignExtend
| X_opLt | X_opGt | X_opSlt | X_opSgt | X_opEq | X_opIszero
| X_opAnd | X_opXor | X_opOr | X_opNot | X_opByte | X_opSha3
| X_opAddress | X_opBalance | X_opOrigin | X_opCaller | X_opCallValue | X_opCallDataLoad
| X_opCallDataSize | X_opCallDataCopy | X_opCodeSize | X_opCodeCopy | X_opGasprice | X_opExtCodeSize
| X_opExtCodeCopy | X_opBlockhash | X_opCoinbase | X_opTimestamp | X_opNumber | X_opDifficulty
| X_opGasLimit | X_opPop | X_opMload | X_opMstore | X_opMstore8 | X_opSload
| X_opSstore | X_opJump | X_opJumpi | X_opPc | X_opMsize | X_opGas
| X_opJumpdest | X_opPush1 | X_opCreate | X_opCall | X_opCallCode | X_opReturn
| X_opSuicide | X_opSHL | X_opSHR | X_opSAR | X_opExtCodeHash | X_opCreate2
| X_opStaticCall | X_opReturnDataSize | X_opReturnDataCopy | X_opRevert | X_opDelegateCall | X_opSelfBalance
| X_opChainID | X_opBeginSub | X_opJumpSub | X_opReturnSub
| X_makeLog (size : Z) | X_makePush (size pushByteSize : Z) | X_makeDup (size : Z) | X_makeSwap (size : Z).

Inductive gasFn :=
| G_gasSStore | G_gasSStoreEIP2200 | G_gasSha3 | G_gasCallDataCopy | G_gasCodeCopy | G_gasExtCodeCopy
| G_gasReturnDataCopy | G_gasReturn | G_gasRevert | G_gasMLoad | G_gasMStore8 | G_gasMStore
| G_gasCreate | G_gasCreate2 | G_gasExpFrontier | G_gasExpEIP158 | G_gasCall | G_gasCallCode
| G_gasDelegateCall | G_gasStaticCall | G_gasSelfdestruct
| G_makeGasLog (n : Z).

Inductive memFn :=
| S_memorySha3 | S_memoryCallDataCopy | S_memoryReturnDataCopy | S_memoryCodeCopy | S_memoryExtCodeCopy | S_memoryMLoad
| S_memoryMStore8 | S_memoryMStore | S_memoryCreate | S_memoryCreate2 | S_memoryCall | S_memoryDelegateCall
| S_memoryStaticCall | S_memoryReturn | S_memoryRevert | S_memoryLog.

#[export] Instance execFn_eq_dec : EqDecision execFn.
Proof. solve_decision. Defined.
#[export] Instance gasFn_eq_dec : EqDecision gasFn.
Proof. solve_decision. Defined.
#[export] Instance memFn_eq_dec : EqDecision memFn.
Proof. solve_decision. Defined.

Record operation := MkOperation {
  execute : execFn;
  constantGas : Z;
  dynamicGas : option gasFn;
  op_minStack : Z;
  op_maxStack : Z;
  memorySize : option memFn;
  halts : bool;
  jumps : bool;
  writes : bool;
  reverts : bool;
  returns : bool;
}.

#[export] Instance operation_eq_dec : EqDecision operation.
Proof. solve_decision. Defined.

(** A composite literal: the flags that are not named are false. *)
Inductive flag := Halts | Jumps | Writes | Reverts | Returns.
#[export] Instance flag_eq_dec : EqDecision flag.
Proof. solve_decision. Defined.

Definition mkOp (e : execFn) (cg : Z) (dg : option gasFn) (mn mx : Z) (ms : option memFn)
    (fl : list flag) : operation :=
  let has f := bool_decide (f ∈ fl) in
  MkOperation e cg dg mn mx ms (has Halts) (has Jumps) (has Writes) (has Reverts) (has Returns).

(** ** The frontier instruction set, as listed in the source *)

Definition frontier_1 : list (Z * operation) := [
  (Op.STOP, mkOp X_opStop 0 None (minStack 0 0) (maxStack 0 0) None [Halts]);
  (Op.ADD, mkOp X_opAdd GasFastestStep None (minStack 2 1) (maxStack 2 1) None []);
  (Op.MUL, mkOp X_opMul GasFastStep None (minStack 2 1) (maxStack 2 1) None []);
  (Op.SUB, mkOp X_opSub GasFastestStep None (minStack 2 1) (maxStack 2 1) None []);
  (Op.DIV, mkOp X_opDiv GasFastStep None (minStack 2 1) (maxStack 2 1) None []);
  (Op.SDIV, mkOp X_opSdiv GasFastStep None (minStack 2 1) (maxStack 2 1) None []);
  (Op.MOD, mkOp X_opMod GasFastStep None (minStack 2 1) (maxStack 2 1) None []);
  (Op.SMOD, mkOp X_opSmod GasFastStep None (minStack 2 1) (maxStack 2 1) None []);
  (Op.ADDMOD, mkOp X_opAddmod GasMidStep None (minStack 3 1) (maxStack 3 1) None []);
  (Op.MULMOD, mkOp X_opMulmod GasMidStep None (minStack 3 1) (maxStack 3 1) None []);
  (Op.EXP, mkOp X_opExp 0 (Some G_gasExpFrontier) (minStack 2 1) (maxStack 2 1) None []);
  (Op.SIGNEXTEND, mkOp X_opSignExtend GasFastStep None (minStack 2 1) (maxStack 2 1) None []);
  (Op.LT, mkOp X_opLt GasFastestStep None (minStack 2 1) (maxStack 2 1) None []);
  (Op.GT, mkOp X_opGt GasFastestStep None (minStack 2 1) (maxStack 2 1) None []);
  (Op.SLT, mkOp X_opSlt GasFastestStep None (minStack 2 1) (maxStack 2 1) None []);
  (Op.SGT, mkOp X_opSgt GasFastestStep None (minStack 2 1) (maxStack 2 1) None []);
  (Op.EQ, mkOp X_opEq GasFastestStep None (minStack 2 1) (maxStack 2 1) None []);
  (Op.ISZERO, mkOp X_opIszero GasFastestStep None (minStack 1 1) (maxStack 1 1) None []);
  (Op.AND, mkOp X_opAnd GasFastestStep None (minStack 2 1) (maxStack 2 1) None []);
  (Op.XOR, mkOp X_opXor GasFastestStep None (minStack 2 1) (maxStack 2 1) None []);
  (Op.OR, mkOp X_opOr GasFastestStep None (minStack 2 1) (maxStack 2 1) None []);
  (Op.NOT, mkOp X_opNot GasFastestStep None (minStack 1 1) (maxStack 1 1) None []);
  (Op.BYTE, mkOp X_opByte GasFastestStep None (minStack 2 1) (maxStack 2 1) None [])].

Definition frontier_2 : list (Z * operation) := [
  (Op.SHA3, mkOp X_opSha3 Sha3Gas (Some G_gasSha3) (minStack 2 1) (maxStack 2 1) (Some S_memorySha3) []);
  (Op.ADDRESS, mkOp X_opAddress GasQuickStep None (minStack 0 1) (maxStack 0 1) None []);
  (Op.BALANCE, mkOp X_opBalance BalanceGasFrontier None (minStack 1 1) (maxStack 1 1) None []);
  (Op.ORIGIN, mkOp X_opOrigin GasQuickStep None (minStack 0 1) (maxStack 0 1) None []);
  (Op.CALLER, mkOp X_opCaller GasQuickStep None (minStack 0 1) (maxStack 0 1) None []);
  (Op.CALLVALUE, mkOp X_opCallValue GasQuickStep None (minStack 0 1) (maxStack 0 1) None []);
  (Op.CALLDATALOAD, mkOp X_opCallDataLoad GasFastestStep None (minStack 1 1) (maxStack 1 1) None []);
  (Op.CALLDATASIZE, mkOp X_opCallDataSize GasQuickStep None (minStack 0 1) (maxStack 0 1) None []);
  (Op.CALLDATACOPY, mkOp X_opCallDataCopy GasFastestStep (Some G_gasCallDataCopy) (minStack 3 0) (maxStack 3 0) (Some S_memoryCallDataCopy) []);
  (Op.CODESIZE, mkOp X_opCodeSize GasQuickStep None (minStack 0 1) (maxStack 0 1) None []);
  (Op.CODECOPY, mkOp X_opCodeCopy GasFastestStep (Some G_gasCodeCopy) (minStack 3 0) (maxStack 3 0) (Some S_memoryCodeCopy) []);
  (Op.GASPRICE, mkOp X_opGasprice GasQuickStep None (minStack 0 1) (maxStack 0 1) None []);
  (Op.EXTCODESIZE, mkOp X_opExtCodeSize ExtcodeSizeGasFrontier None (minStack 1 1) (maxStack 1 1) None []);
  (Op.EXTCODECOPY, mkOp X_opExtCodeCopy ExtcodeCopyBaseFrontier (Some G_gasExtCodeCopy) (minStack 4 0) (maxStack 4 0) (Some S_memoryExtCodeCopy) []);
  (Op.BLOCKHASH, mkOp X_opBlockhash GasExtStep None (minStack 1 1) (maxStack 1 1) None []);
  (Op.COINBASE, mkOp X_opCoinbase GasQuickStep None (minStack 0 1) (maxStack 0 1) None []);
  (Op.TIMESTAMP, mkOp X_opTimestamp GasQuickStep None (minStack 0 1) (maxStack 0 1) None []);
  (Op.NUMBER, mkOp X_opNumber GasQuickStep None (minStack 0 1) (maxStack 0 1) None []);
  (Op.DIFFICULTY, mkOp X_opDifficulty GasQuickStep None (minStack 0 1) (maxStack 0 1) None []);
  (Op.GASLIMIT, mkOp X_opGasLimit GasQuickStep None (minStack 0 1) (maxStack 0 1) None []);
  (Op.POP, mkOp X_opPop GasQuickStep None (minStack 1 0) (maxStack 1 0) None []);
  (Op.MLOAD, mkOp X_opMload GasFastestStep (Some G_gasMLoad) (minStack 1 1) (maxStack 1 1) (Some S_memoryMLoad) [])].

Definition frontier_3 : list (Z * operation) := [
  (Op.MSTORE, mkOp X_opMstore GasFastestStep (Some G_gasMStore) (minStack 2 0) (maxStack 2 0) (Some S_memoryMStore) []);
  (Op.MSTORE8, mkOp X_opMstore8 GasFastestStep (Some G_gasMStore8) (minStack 2 0) (maxStack 2 0) (Some S_memoryMStore8) []);
  (Op.SLOAD, mkOp X_opSload SloadGasFrontier None (minStack 1 1) (maxStack 1 1) None []);
  (Op.SSTORE, mkOp X_opSstore 0 (Some G_gasSStore) (minStack 2 0) (maxStack 2 0) None [Writes]);
  (Op.JUMP, mkOp X_opJump GasMidStep None (minStack 1 0) (maxStack 1 0) None [Jumps]);
  (Op.JUMPI, mkOp X_opJumpi GasSlowStep None (minStack 2 0) (maxStack 2 0) None [Jumps]);
  (Op.PC, mkOp X_opPc GasQuickStep None (minStack 0 1) (maxStack 0 1) None []);
  (Op.MSIZE, mkOp X_opMsize GasQuickStep None (minStack 0 1) (maxStack 0 1) None []);
  (Op.GAS, mkOp X_opGas GasQuickStep None (minStack 0 1) (maxStack 0 1) None []);
  (Op.JUMPDEST, mkOp X_opJumpdest JumpdestGas None (minStack 0 0) (maxStack 0 0) None []);
  (Op.PUSH1, mkOp X_opPush1 GasFastestStep None (minStack 0 1) (maxStack 0 1) None []);
  (Op.PUSH2, mkOp (X_makePush 2 2) GasFastestStep None (minStack 0 1) (maxStack 0 1) None []);
  (Op.PUSH3, mkOp (X_makePush 3 3) GasFastestStep None (minStack 0 1) (maxStack 0 1) None []);
  (Op.PUSH4, mkOp (X_makePush 4 4) GasFastestStep None (minStack 0 1) (maxStack 0 1) None []);
  (Op.PUSH5, mkOp (X_makePush 5 5) GasFastestStep None (minStack 0 1) (maxStack 0 1) None []);
  (Op.PUSH6, mkOp (X_makePush 6 6) GasFastestStep None (minStack 0 1) (maxStack 0 1) None []);
  (Op.PUSH7, mkOp (X_makePush 7 7) GasFastestStep None (minStack 0 1) (maxStack 0 1) None []);
  (Op.PUSH8, mkOp (X_makePush 8 8) GasFastestStep None (minStack 0 1) (maxStack 0 1) None []);
  (Op.PUSH9, mkOp (X_makePush 9 9) GasFastestStep None (minStack 0 1) (maxStack 0 1) None []);
  (Op.PUSH10, mkOp (X_makePush 10 10) GasFastestStep None (minStack 0 1) (maxStack 0 1) None []);
  (Op.PUSH11, mkOp (X_makePush 11 11) GasFastestStep None (minStack 0 1) (maxStack 0 1) None []);
  (Op.PUSH12, mkOp (X_makePush 12 12) GasFastestStep None (minStack 0 1) (maxStack 0 1) None []);
  (Op.PUSH13, mkOp (X_makePush 13 13) GasFastestStep None (minStack 0 1) (maxStack 0 1) None [])].

Definition frontier_4 : list (Z * operation) := [
  (Op.PUSH14, mkOp (X_makePush 14 14) GasFastestStep None (minStack 0 1) (maxStack 0 1) None []);
  (Op.PUSH15, mkOp (X_makePush 15 15) GasFastestStep None (minStack 0 1) (maxStack 0 1) None []);
  (Op.PUSH16, mkOp (X_makePush 16 16) GasFastestStep None (minStack 0 1) (maxStack 0 1) None []);
  (Op.PUSH17, mkOp (X_makePush 17 17) GasFastestStep None (minStack 0 1) (maxStack 0 1) None []);
  (Op.PUSH18, mkOp (X_makePush 18 18) GasFastestStep None (minStack 0 1) (maxStack 0 1) None []);
  (Op.PUSH19, mkOp (X_makePush 19 19) GasFastestStep None (minStack 0 1) (maxStack 0 1) None []);
  (Op.PUSH20, mkOp (X_makePush 20 20) GasFastestStep None (minStack 0 1) (maxStack 0 1) None []);
  (Op.PUSH21, mkOp (X_makePush 21 21) GasFastestStep None (minStack 0 1) (maxStack 0 1) None []);
  (Op.PUSH22, mkOp (X_makePush 22 22) GasFastestStep None (minStack 0 1) (maxStack 0 1) None []);
  (Op.PUSH23, mkOp (X_makePush 23 23) GasFastestStep None (minStack 0 1) (maxStack 0 1) None []);
  (Op.PUSH24, mkOp (X_makePush 24 24) GasFastestStep None (minStack 0 1) (maxStack 0 1) None []);
  (Op.PUSH25, mkOp (X_makePush 25 25) GasFastestStep None (minStack 0 1) (maxStack 0 1) None []);
  (Op.PUSH26, mkOp (X_makePush 26 26) GasFastestStep None (minStack 0 1) (maxStack 0 1) None []);
  (Op.PUSH27, mkOp (X_makePush 27 27) GasFastestStep None (minStack 0 1) (maxStack 0 1) None []);
  (Op.PUSH28, mkOp (X_makePush 28 28) GasFastestStep None (minStack 0 1) (maxStack 0 1) None []);
  (Op.PUSH29, mkOp (X_makePush 29 29) GasFastestStep None (minStack 0 1) (maxStack 0 1) None []);
  (Op.PUSH30, mkOp (X_makePush 30 30) GasFastestStep None (minStack 0 1) (maxStack 0 1) None []);
  (Op.PUSH31, mkOp (X_makePush 31 31) GasFastestStep None (minStack 0 1) (maxStack 0 1) None []);
  (Op.PUSH32, mkOp (X_makePush 32 32) GasFastestStep None (minStack 0 1) (maxStack 0 1) None []);
  (Op.DUP1, mkOp (X_makeDup 1) GasFastestStep None (minDupStack 1) (maxDupStack 1) None []);
  (Op.DUP2, mkOp (X_makeDup 2) GasFastestStep None (minDupStack 2) (maxDupStack 2) None []);
  (Op.DUP3, mkOp (X_makeDup 3) GasFastestStep None (minDupStack 3) (maxDupStack 3) None []);
  (Op.DUP4, mkOp (X_makeDup 4) GasFastestStep None (minDupStack 4) (maxDupStack 4) None []);
  (Op.DUP5, mkOp (X_makeDup 5) GasFastestStep None (minDupStack 5) (maxDupStack 5) None [])].

Definition frontier_5 : list (Z * operation) := [
  (Op.DUP6, mkOp (X_makeDup 6) GasFastestStep None (minDupStack 6) (maxDupStack 6) None []);
  (Op.DUP7, mkOp (X_makeDup 7) GasFastestStep None (minDupStack 7) (maxDupStack 7) None []);
  (Op.DUP8, mkOp (X_makeDup 8) GasFastestStep None (minDupStack 8) (maxDupStack 8) None []);
  (Op.DUP9, mkOp (X_makeDup 9) GasFastestStep None (minDupStack 9) (maxDupStack 9) None []);
  (Op.DUP10, mkOp (X_makeDup 10) GasFastestStep None (minDupStack 10) (maxDupStack 10) None []);
  (Op.DUP11, mkOp (X_makeDup 11) GasFastestStep None (minDupStack 11) (maxDupStack 11) None []);
  (Op.DUP12, mkOp (X_makeDup 12) GasFastestStep None (minDupStack 12) (maxDupStack 12) None []);
  (Op.DUP13, mkOp (X_makeDup 13) GasFastestStep None (minDupStack 13) (maxDupStack 13) None []);
  (Op.DUP14, mkOp (X_makeDup 14) GasFastestStep None (minDupStack 14) (maxDupStack 14) None []);
  (Op.DUP15, mkOp (X_makeDup 15) GasFastestStep None (minDupStack 15) (maxDupStack 15) None []);
  (Op.DUP16, mkOp (X_makeDup 16) GasFastestStep None (minDupStack 16) (maxDupStack 16) None []);
  (Op.SWAP1, mkOp (X_makeSwap 1) GasFastestStep None (minSwapStack 2) (maxSwapStack 2) None []);
  (Op.SWAP2, mkOp (X_makeSwap 2) GasFastestStep None (minSwapStack 3) (maxSwapStack 3) None []);
  (Op.SWAP3, mkOp (X_makeSwap 3) GasFastestStep None (minSwapStack 4) (maxSwapStack 4) None []);
  (Op.SWAP4, mkOp (X_makeSwap 4) GasFastestStep None (minSwapStack 5) (maxSwapStack 5) None []);
  (Op.SWAP5, mkOp (X_makeSwap 5) GasFastestStep None (minSwapStack 6) (maxSwapStack 6) None []);
  (Op.SWAP6, mkOp (X_makeSwap 6) GasFastestStep None (minSwapStack 7) (maxSwapStack 7) None []);
  (Op.SWAP7, mkOp (X_makeSwap 7) GasFastestStep None (minSwapStack 8) (maxSwapStack 8) None []);
  (Op.SWAP8, mkOp (X_makeSwap 8) GasFastestStep None (minSwapStack 9) (maxSwapStack 9) None []);
  (Op.SWAP9, mkOp (X_makeSwap 9) GasFastestStep None (minSwapStack 10) (maxSwapStack 10) None []);
  (Op.SWAP10, mkOp (X_makeSwap 10) GasFastestStep None (minSwapStack 11) (maxSwapStack 11) None []);
  (Op.SWAP11, mkOp (X_makeSwap 11) GasFastestStep None (minSwapStack 12) (maxSwapStack 12) None []);
  (Op.SWAP12, mkOp (X_makeSwap 12) GasFastestStep None (minSwapStack 13) (maxSwapStack 13) None []);
  (Op.SWAP13, mkOp (X_makeSwap 13) GasFastestStep None (minSwapStack 14) (maxSwapStack 14) None [])].

Definition frontier_6 : list (Z * operation) := [
  (Op.SWAP14, mkOp (X_makeSwap 14) GasFastestStep None (minSwapStack 15) (maxSwapStack 15) None []);
  (Op.SWAP15, mkOp (X_makeSwap 15) GasFastestStep None (minSwapStack 16) (maxSwapStack 16) None []);
  (Op.SWAP16, mkOp (X_makeSwap 16) GasFastestStep None (minSwapStack 17) (maxSwapStack 17) None []);
  (Op.LOG0, mkOp (X_makeLog 0) 0 (Some (G_makeGasLog 0)) (minStack 2 0) (maxStack 2 0) (Some S_memoryLog) [Writes]);
  (Op.LOG1, mkOp (X_makeLog 1) 0 (Some (G_makeGasLog 1)) (minStack 3 0) (maxStack 3 0) (Some S_memoryLog) [Writes]);
  (Op.LOG2, mkOp (X_makeLog 2) 0 (Some (G_makeGasLog 2)) (minStack 4 0) (maxStack 4 0) (Some S_memoryLog) [Writes]);
  (Op.LOG3, mkOp (X_makeLog 3) 0 (Some (G_makeGasLog 3)) (minStack 5 0) (maxStack 5 0) (Some S_memoryLog) [Writes]);
  (Op.LOG4, mkOp (X_makeLog 4) 0 (Some (G_makeGasLog 4)) (minStack 6 0) (maxStack 6 0) (Some S_memoryLog) [Writes]);
  (Op.CREATE, mkOp X_opCreate CreateGas (Some G_gasCreate) (minStack 3 1) (maxStack 3 1) (Some S_memoryCreate) [Writes; Returns]);
  (Op.CALL, mkOp X_opCall CallGasFrontier (Some G_gasCall) (minStack 7 1) (maxStack 7 1) (Some S_memoryCall) [Returns]);
  (Op.CALLCODE, mkOp X_opCallCode CallGasFrontier (Some G_gasCallCode) (minStack 7 1) (maxStack 7 1) (Some S_memoryCall) [Returns]);
  (Op.RETURN, mkOp X_opReturn 0 (Some G_gasReturn) (minStack 2 0) (maxStack 2 0) (Some S_memoryReturn) [Halts]);
  (Op.SELFDESTRUCT, mkOp X_opSuicide 0 (Some G_gasSelfdestruct) (minStack 1 0) (maxStack 1 0) None [Halts; Writes])].

Definition frontier_entries : list (Z * operation) :=
  frontier_1 ++ frontier_2 ++ frontier_3 ++ frontier_4 ++ frontier_5 ++ frontier_6.

(** ** Tables of pointers

    The heap maps locations to operations; [next] is the first unused location.
    A table maps opcodes to locations; an absent opcode is a nil pointer. *)

Record heap := MkHeap { cells : gmap Z operation; next : Z }.
Abbreviation JumpTable := (gmap Z Z).

Definition alloc (o : operation) : M heap Z :=
  fun h => Ok (next h, MkHeap (<[next h := o]> (cells h)) (next h + 1)).

Open Scope go_scope.

(** [jt[op] = &operation{...}]. *)
Definition set_op (jt : JumpTable) (op : Z) (o : operation) : M heap JumpTable :=
  p <~ alloc o ;; ret (<[op := p]> jt).

(** [jt[op].field = v]: a write through the pointer, nil panics. *)
Definition update_op (jt : JumpTable) (op : Z) (f : operation -> operation) : M heap unit :=
  p <~ lift_opt PanicNil (jt !! op) ;;
  h <~ get ;;
  o <~ lift_opt PanicNil (cells h !! p) ;;
  put (MkHeap (<[p := f o]> (cells h)) (next h)).

Definition set_constantGas (g : Z) (o : operation) : operation :=
  MkOperation (execute o) g (dynamicGas o) (op_minStack o) (op_maxStack o) (memorySize o)
    (halts o) (jumps o) (writes o) (reverts o) (returns o).
Definition set_dynamicGas (g : gasFn) (o : operation) : operation :=
  MkOperation (execute o) (constantGas o) (Some g) (op_minStack o) (op_maxStack o) (memorySize o)
    (halts o) (jumps o) (writes o) (reverts o) (returns o).

(** ** core/vm/eips.go *)

Definition enable1884 (jt : JumpTable) : M heap JumpTable :=
  update_op jt Op.SLOAD (set_constantGas SloadGasEIP1884) ;;;
  update_op jt Op.BALANCE (set_constantGas BalanceGasEIP1884) ;;;
  update_op jt Op.EXTCODEHASH (set_constantGas ExtcodeHashGasEIP1884) ;;;
  set_op jt Op.SELFBALANCE (mkOp X_opSelfBalance GasFastStep None (minStack 0 1) (maxStack 0 1) None []).

Definition enable1344 (jt : JumpTable) : M heap JumpTable :=
  set_op jt Op.CHAINID (mkOp X_opChainID GasQuickStep None (minStack 0 1) (maxStack 0 1) None []).

Definition enable2200 (jt : JumpTable) : M heap JumpTable :=
  update_op jt Op.SLOAD (set_constantGas SloadGasEIP2200) ;;;
  update_op jt Op.SSTORE (set_dynamicGas G_gasSStoreEIP2200) ;;;
  ret jt.

Definition enable2315 (jt : JumpTable) : M heap JumpTable :=
  jt <~ set_op jt Op.BEGINSUB (mkOp X_opBeginSub GasQuickStep None (minStack 0 0) (maxStack 0 0) None []) ;;
  jt <~ set_op jt Op.JUMPSUB (mkOp X_opJumpSub GasSlowStep None (minStack 1 0) (maxStack 1 0) None [Jumps]) ;;
  set_op jt Op.RETURNSUB (mkOp X_opReturnSub GasFastStep None (minStack 0 0) (maxStack 0 0) None [Jumps]).

Definition activators (eipNum : Z) : option (JumpTable -> M heap JumpTable) :=
  if eipNum =? 2200 then Some enable2200
  else if eipNum =? 1884 then Some enable1884
  else if eipNum =? 1344 then Some enable1344
  else if eipNum =? 2315 then Some enable2315
  else None.

Definition ValidEip (eipNum : Z) : bool :=
  match activators eipNum with Some _ => true | None => false end.

(** [EnableEIP]: [None] is the error of an undefined EIP. *)
Definition EnableEIP (eipNum : Z) (jt : JumpTable) : M heap (option JumpTable) :=
  match activators eipNum with
  | None => ret None
  | Some enablerFn => jt <~ enablerFn jt ;; ret (Some jt)
  end.

(** ** core/vm/jump_table.go: the instruction sets *)

Fixpoint set_ops (jt : JumpTable) (l : list (Z * operation)) : M heap JumpTable :=
  match l with
  | [] => ret jt
  | (op, o) :: l => jt <~ set_op jt op o ;; set_ops jt l
  end.

Definition newFrontierInstructionSet : M heap JumpTable := set_ops ∅ frontier_entries.

Definition newHomesteadInstructionSet : M heap JumpTable :=
  instructionSet <~ newFrontierInstructionSet ;;
  set_op instructionSet Op.DELEGATECALL
    (mkOp X_opDelegateCall CallGasFrontier (Some G_gasDelegateCall) (minStack 6 1) (maxStack 6 1)
       (Some S_memoryDelegateCall) [Returns]).

Definition newTangerineWhistleInstructionSet : M heap JumpTable :=
  instructionSet <~ newHomesteadInstructionSet ;;
  update_op instructionSet Op.BALANCE (set_constantGas BalanceGasEIP150) ;;;
  update_op instructionSet Op.EXTCODESIZE (set_constantGas ExtcodeSizeGasEIP150) ;;;
  update_op instructionSet Op.SLOAD (set_constantGas SloadGasEIP150) ;;;
  update_op instructionSet Op.EXTCODECOPY (set_constantGas ExtcodeCopyBaseEIP150) ;;;
  update_op instructionSet Op.CALL (set_constantGas CallGasEIP150) ;;;
  update_op instructionSet Op.CALLCODE (set_constantGas CallGasEIP150) ;;;
  update_op instructionSet Op.DELEGATECALL (set_constantGas CallGasEIP150) ;;;
  ret instructionSet.

Definition newSpuriousDragonInstructionSet : M heap JumpTable :=
  instructionSet <~ newTangerineWhistleInstructionSet ;;
  update_op instructionSet Op.EXP (set_dynamicGas G_gasExpEIP158) ;;;
  ret instructionSet.

Definition newByzantiumInstructionSet : M heap JumpTable :=
  instructionSet <~ newSpuriousDragonInstructionSet ;;
  instructionSet <~ set_op instructionSet Op.STATICCALL
    (mkOp X_opStaticCall CallGasEIP150 (Some G_gasStaticCall) (minStack 6 1) (maxStack 6 1)
       (Some S_memoryStaticCall) [Returns]) ;;
  instructionSet <~ set_op instructionSet Op.RETURNDATASIZE
    (mkOp X_opReturnDataSize GasQuickStep None (minStack 0 1) (maxStack 0 1) None []) ;;
  instructionSet <~ set_op instructionSet Op.RETURNDATACOPY
    (mkOp X_opReturnDataCopy GasFastestStep (Some G_gasReturnDataCopy) (minStack 3 0) (maxStack 3 0)
       (Some S_memoryReturnDataCopy) []) ;;
  set_op instructionSet Op.REVERT
    (mkOp X_opRevert 0 (Some G_gasRevert) (minStack 2 0) (maxStack 2 0)
       (Some S_memoryRevert) [Reverts; Returns]).

Definition newConstantinopleInstructionSet : M heap JumpTable :=
  instructionSet <~ newByzantiumInstructionSet ;;
  instructionSet <~ set_op instructionSet Op.SHL
    (mkOp X_opSHL GasFastestStep None (minStack 2 1) (maxStack 2 1) None []) ;;
  instructionSet <~ set_op instructionSet Op.SHR
    (mkOp X_opSHR GasFastestStep None (minStack 2 1) (maxStack 2 1) None []) ;;
  instructionSet <~ set_op instructionSet Op.SAR
    (mkOp X_opSAR GasFastestStep None (minStack 2 1) (maxStack 2 1) None []) ;;
  instructionSet <~ set_op instructionSet Op.EXTCODEHASH
    (mkOp X_opExtCodeHash ExtcodeHashGasConstantinople None (minStack 1 1) (maxStack 1 1) None []) ;;
  set_op instructionSet Op.CREATE2
    (mkOp X_opCreate2 Create2Gas (Some G_gasCreate2) (minStack 4 1) (maxStack 4 1)
       (Some S_memoryCreate2) [Writes; Returns]).

Definition newIstanbulInstructionSet : M heap JumpTable :=
  instructionSet <~ newConstantinopleInstructionSet ;;
  instructionSet <~ enable1344 instructionSet ;;
  instructionSet <~ enable1884 instructionSet ;;
  enable2200 instructionSet.

Definition newYoloV1InstructionSet : M heap JumpTable :=
  instructionSet <~ newIstanbulInstructionSet ;;
  enable2315 instructionSet.

(** The package-level variables. *)
Record instructionSets := MkSets {
  frontierInstructionSet : JumpTable;
  homesteadInstructionSet : JumpTable;
  tangerineWhistleInstructionSet : JumpTable;
  spuriousDragonInstructionSet : JumpTable;
  byzantiumInstructionSet : JumpTable;
  constantinopleInstructionSet : JumpTable;
  istanbulInstructionSet : JumpTable;
  yoloV1InstructionSet : JumpTable;
}.

Definition init_sets : M heap instructionSets :=
  f <~ newFrontierInstructionSet ;;
  h <~ newHomesteadInstructionSet ;;
  t <~ newTangerineWhistleInstructionSet ;;
  s <~ newSpuriousDragonInstructionSet ;;
  b <~ newByzantiumInstructionSet ;;
  c <~ newConstantinopleInstructionSet ;;
  i <~ newIstanbulInstructionSet ;;
  y <~ newYoloV1InstructionSet ;;
  ret (MkSets f h t s b c i y).

(** ** core/vm/interpreter.go: [NewEVMInterpreter]

    The choice of the table.  The case of the source on the chain rules. *)
Definition select_set (r : RulesT) (g : instructionSets) : JumpTable :=
  if rIsYoloV1 r then yoloV1InstructionSet g
  else if rIsIstanbul r then istanbulInstructionSet g
  else if rIsConstantinople r then constantinopleInstructionSet g
  else if rIsByzantium r then byzantiumInstructionSet g
  else if rIsEIP158 r then spuriousDragonInstructionSet g
  else if rIsEIP150 r then tangerineWhistleInstructionSet g
  else if rIsHomestead r then homesteadInstructionSet g
  else frontierInstructionSet g.

(** The loop over [cfg.ExtraEips].  The range expression is evaluated once, but
    the array behind the slice is the one [append] shifts: [arr] is that array,
    [n] the current length of [cfg.ExtraEips], [i] the index, [k] the remaining
    iterations. *)
Fixpoint extra_eips (k : nat) (i : Z) (arr : list Z) (n : Z) (jt : JumpTable)
  : M heap (list Z * Z * JumpTable) :=
  match k with
  | O => ret (arr, n, jt)
  | S k =>
      eip <~ lift_opt PanicIndex (zget arr i) ;;
      r <~ EnableEIP eip jt ;;
      match r with
      | Some jt => extra_eips k (i + 1) arr n jt
      | None =>
          tl <~ lift_opt PanicIndex (zslice arr (i + 1) n) ;;
          extra_eips k (i + 1)
            (take (Z.to_nat i) arr ++ tl ++ drop (Z.to_nat (n - 1)) arr) (n - 1) jt
      end
  end.

(** [NewEVMInterpreter(evm, cfg)] for a configuration without a jump table of
    its own: the table and [cfg.ExtraEips] of the interpreter. *)
Definition NewEVMInterpreter (g : instructionSets) (r : RulesT) (ExtraEips : list Z)
  : M heap (JumpTable * list Z) :=
  ' (arr, n, jt) <~ extra_eips (length ExtraEips) 0 ExtraEips (zlen ExtraEips) (select_set r g) ;;
  ret (jt, take (Z.to_nat n) arr).

(** The operations a table denotes. *)
Definition table (h : heap) (jt : JumpTable) (op : Z) : option operation :=
  p ← jt !! op; cells h !! p.

Definition heap0 : heap := MkHeap ∅ 0.
