(* ===== verification/VmGas.v ===== *)
(** * Dynamic gas

    [core/vm/gas_table.go].  A gas function reads the stack and the state, may
    record the memory fee, the call gas and refunds, and returns the dynamic cost
    or an error. *)

From Stdlib Require Import ZArith Lia.
From S2P Require Import Prelude Common Params Uint256 Crypto VmMemory VmAnalysis VmState VmTable.

Open Scope go_scope.

(** ** The fixed part of an [EVM]: context, chain rules, configuration, table *)

Record Env {S : StateDB} := MkEnv {
  ctx : @Context S;
  chainID : Z;                            (* chainConfig.ChainID *)
  chainRules : RulesT;
  NoRecursion : bool;
  EnablePreimageRecording : bool;
  jumpTable : Z -> option operation;
}.

(** ** Results with an error: [return v, nil] and [return 0, err] *)

Definition res (A : Type) : Type := A + error.

Definition ebind {T A B} (m : M T (res A)) (k : A -> M T (res B)) : M T (res B) :=
  r <~ m ;; match r with inl a => k a | inr e => ret (inr e) end.

Notation "x <! m ;; k" := (ebind m (fun x => k))
  (at level 20, m at level 99, k at level 200, only parsing) : go_scope.

(** A checked operation; overflow is [ErrGasUintOverflow]. *)
Definition safe (p : Z * bool) : res Z :=
  if snd p then inr ErrGasUintOverflow else inl (fst p).

(** ** memoryGasCost *)

Definition memory_fee (words : Z) : Z :=
  u64 (u64 (words * MemoryGas) + u64 (words * words) / QuadCoeffDiv).

Definition memoryGasCost (mem : Memory) (newMemSize : Z) : res Z * Memory :=
  if newMemSize =? 0 then (inl 0, mem)
  else if 137438953440 <? newMemSize then (inr ErrGasUintOverflow, mem)   (* 0x1FFFFFFFE0 *)
  else
    let newMemSizeWords := toWordSize newMemSize in
    let newMemSize := u64 (newMemSizeWords * 32) in
    if Memory_Len mem <? newMemSize then
      let newTotalFee := memory_fee newMemSizeWords in
      let fee := u64 (newTotalFee - lastGasCost mem) in
      (inl fee, MkMemory (store mem) newTotalFee)
    else (inl 0, mem).

Section gas_table.
Context {U : Uint256} {S : StateDB} (env : Env).
Local Abbreviation rules := (chainRules env).

Definition gasFunc : Type := Z -> M mstate (res Z).

Definition Back_ (n : Z) : M mstate u256 :=
  st <~ getf stack ;; lift_opt PanicIndex (Back st n).

(** [memoryGasCost(mem, memorySize)] on the memory of the frame. *)
Definition mem_gas (memorySize : Z) : M mstate (res Z) :=
  mem <~ getf memory ;;
  let '(r, mem) := memoryGasCost mem memorySize in
  set_memory mem ;;;
  ret r.

Definition overflow_or (p : Z * bool) : M mstate (res Z) := ret (safe p).

Definition memoryCopierGas (stackpos : Z) : gasFunc := fun memorySize =>
  gas <! mem_gas memorySize ;;
  x <~ Back_ stackpos ;;
  words <! overflow_or (U_Uint64WithOverflow x) ;;
  words <! overflow_or (SafeMul (toWordSize words) CopyGas) ;;
  overflow_or (SafeAdd gas words).

Definition gasCallDataCopy : gasFunc := memoryCopierGas 2.
Definition gasCodeCopy : gasFunc := memoryCopierGas 2.
Definition gasExtCodeCopy : gasFunc := memoryCopierGas 3.
Definition gasReturnDataCopy : gasFunc := memoryCopierGas 2.

Definition self_addr : M mstate Address := getf (fun f => Contract_Address (contract f)).
Definition addRefund (g : Z) : M mstate unit := on_evm (db_do (AddRefund g)).
Definition subRefund (g : Z) : M mstate unit := on_evm (db_try (SubRefund g)).

(** The bookkeeping of refunds shared by the two net metering rules: a dirty
    slot ([original <> current]). *)
Definition dirty_refunds (original current value clearRefund resetClear reset : Z) : M mstate unit :=
  (if negb (original =? 0) then
     if current =? 0 then subRefund clearRefund
     else if value =? 0 then addRefund clearRefund
     else ret tt
   else ret tt) ;;;
  (if original =? value then
     if original =? 0 then addRefund resetClear else addRefund reset
   else ret tt).

Definition gasSStore : gasFunc := fun memorySize =>
  y <~ Back_ 1 ;;
  x <~ Back_ 0 ;;
  a <~ self_addr ;;
  current <~ on_evm (db_get (GetState a (U_Bytes32 x))) ;;
  if rIsPetersburg rules || negb (rIsConstantinople rules) then
    if (current =? 0) && negb (U_Sign y =? 0) then ret (inl SstoreSetGas)
    else if negb (current =? 0) && (U_Sign y =? 0) then
      addRefund SstoreRefundGas ;;;
      ret (inl SstoreClearGas)
    else ret (inl SstoreResetGas)
  else
    let value := U_Bytes32 y in
    if current =? value then ret (inl NetSstoreNoopGas)
    else
      original <~ on_evm (db_get (GetCommittedState a (U_Bytes32 x))) ;;
      if original =? current then
        if original =? 0 then ret (inl NetSstoreInitGas)
        else
          (if value =? 0 then addRefund NetSstoreClearRefund else ret tt) ;;;
          ret (inl NetSstoreCleanGas)
      else
        dirty_refunds original current value NetSstoreClearRefund
          NetSstoreResetClearRefund NetSstoreResetRefund ;;;
        ret (inl NetSstoreDirtyGas).

Definition gasSStoreEIP2200 : gasFunc := fun memorySize =>
  gas <~ getf (fun f => Gas (contract f)) ;;
  if gas <=? SstoreSentryGasEIP2200 then ret (inr ErrReentrancySentry)
  else
    y <~ Back_ 1 ;;
    x <~ Back_ 0 ;;
    a <~ self_addr ;;
    current <~ on_evm (db_get (GetState a (U_Bytes32 x))) ;;
    let value := U_Bytes32 y in
    if current =? value then ret (inl SloadGasEIP2200)
    else
      original <~ on_evm (db_get (GetCommittedState a (U_Bytes32 x))) ;;
      if original =? current then
        if original =? 0 then ret (inl SstoreSetGasEIP2200)
        else
          (if value =? 0 then addRefund SstoreClearsScheduleRefundEIP2200 else ret tt) ;;;
          ret (inl SstoreResetGasEIP2200)
      else
        dirty_refunds original current value SstoreClearsScheduleRefundEIP2200
          (SstoreSetGasEIP2200 - SloadGasEIP2200) (SstoreResetGasEIP2200 - SloadGasEIP2200) ;;;
        ret (inl SloadGasEIP2200).

Definition makeGasLog (n : Z) : gasFunc := fun memorySize =>
  x <~ Back_ 1 ;;
  requestedSize <! overflow_or (U_Uint64WithOverflow x) ;;
  gas <! mem_gas memorySize ;;
  gas <! overflow_or (SafeAdd gas LogGas) ;;
  gas <! overflow_or (SafeAdd gas (u64 (n * LogTopicGas))) ;;
  memorySizeGas <! overflow_or (SafeMul requestedSize LogDataGas) ;;
  overflow_or (SafeAdd gas memorySizeGas).

(** The body shared by [gasSha3] and [gasCreate2]. *)
Definition hash_gas (stackpos : Z) : gasFunc := fun memorySize =>
  gas <! mem_gas memorySize ;;
  x <~ Back_ stackpos ;;
  wordGas <! overflow_or (U_Uint64WithOverflow x) ;;
  wordGas <! overflow_or (SafeMul (toWordSize wordGas) Sha3WordGas) ;;
  overflow_or (SafeAdd gas wordGas).

Definition gasSha3 : gasFunc := hash_gas 1.
Definition gasCreate2 : gasFunc := hash_gas 2.

Definition pureMemoryGascost : gasFunc := mem_gas.

Definition exp_gas (byteGas : Z) : gasFunc := fun memorySize =>
  x <~ Back_ 1 ;;
  let expByteLen := u64 ((U_BitLen x + 7) / 8) in
  overflow_or (SafeAdd (u64 (expByteLen * byteGas)) ExpGas).
Definition gasExpFrontier : gasFunc := exp_gas ExpByteFrontier.
Definition gasExpEIP158 : gasFunc := exp_gas ExpByteEIP158.

(** The common end of the four call gas functions: the gas handed to the
    callee is recorded in [evm.callGasTemp] and added to the cost.  Where
    [callGas] fails the assignment has stored zero. *)
Definition call_gas_tail (gas : Z) : M mstate (res Z) :=
  x <~ Back_ 0 ;;
  avail <~ getf (fun f => Gas (contract f)) ;;
  match callGas (rIsEIP150 rules) avail gas x with
  | None => mode (fun e => with_callGasTemp e 0) ;;; ret (inr ErrGasUintOverflow)
  | Some t =>
      mode (fun e => with_callGasTemp e t) ;;;
      overflow_or (SafeAdd gas t)
  end.

Definition gasCall : gasFunc := fun memorySize =>
  v <~ Back_ 2 ;;
  let transfersValue := negb (U_IsZero v) in
  a <~ Back_ 1 ;;
  let address := U_Bytes20 a in
  gas <~ (if rIsEIP158 rules then
            if (transfersValue : bool) then
              e <~ on_evm (db_get (Empty address)) ;;
              ret (if (e : bool) then CallNewAccountGas else 0)
            else ret 0
          else
            e <~ on_evm (db_get (Exist address)) ;;
            ret (if (e : bool) then 0 else CallNewAccountGas)) ;;
  let gas := if transfersValue then u64 (gas + CallValueTransferGas) else gas in
  memoryGas <! mem_gas memorySize ;;
  gas <! overflow_or (SafeAdd gas memoryGas) ;;
  call_gas_tail gas.

Definition gasCallCode : gasFunc := fun memorySize =>
  memoryGas <! mem_gas memorySize ;;
  v <~ Back_ 2 ;;
  let gas := if negb (U_Sign v =? 0) then CallValueTransferGas else 0 in
  gas <! overflow_or (SafeAdd gas memoryGas) ;;
  call_gas_tail gas.

Definition gasDelegateCall : gasFunc := fun memorySize =>
  gas <! mem_gas memorySize ;;
  call_gas_tail gas.

Definition gasStaticCall : gasFunc := fun memorySize =>
  gas <! mem_gas memorySize ;;
  call_gas_tail gas.

Definition gasSelfdestruct : gasFunc := fun memorySize =>
  self <~ self_addr ;;
  gas <~ (if rIsEIP150 rules then
            b <~ Back_ 0 ;;
            let address := U_Bytes20 b in
            if rIsEIP158 rules then
              e <~ on_evm (db_get (Empty address)) ;;
              if (e : bool) then
                bal <~ on_evm (db_get (GetBalance self)) ;;
                ret (if negb (Z.sgn bal =? 0) then SelfdestructGasEIP150 + CreateBySelfdestructGas
                     else SelfdestructGasEIP150)
              else ret SelfdestructGasEIP150
            else
              e <~ on_evm (db_get (Exist address)) ;;
              ret (if (e : bool) then SelfdestructGasEIP150
                   else SelfdestructGasEIP150 + CreateBySelfdestructGas)
          else ret 0) ;;
  h <~ on_evm (db_get (HasSuicided self)) ;;
  (if (h : bool) then ret tt else addRefund SelfdestructRefundGas) ;;;
  ret (inl gas).

(** The function a table entry names. *)
Definition gas_of (g : gasFn) : gasFunc :=
  match g with
  | G_gasSStore => gasSStore
  | G_gasSStoreEIP2200 => gasSStoreEIP2200
  | G_gasSha3 => gasSha3
  | G_gasCallDataCopy => gasCallDataCopy
  | G_gasCodeCopy => gasCodeCopy
  | G_gasExtCodeCopy => gasExtCodeCopy
  | G_gasReturnDataCopy => gasReturnDataCopy
  | G_gasReturn | G_gasRevert | G_gasMLoad | G_gasMStore8 | G_gasMStore | G_gasCreate =>
      pureMemoryGascost
  | G_gasCreate2 => gasCreate2
  | G_gasExpFrontier => gasExpFrontier
  | G_gasExpEIP158 => gasExpEIP158
  | G_gasCall => gasCall
  | G_gasCallCode => gasCallCode
  | G_gasDelegateCall => gasDelegateCall
  | G_gasStaticCall => gasStaticCall
  | G_gasSelfdestruct => gasSelfdestruct
  | G_makeGasLog n => makeGasLog n
  end.

Definition mem_of (m : memFn) : memorySizeFunc :=
  match m with
  | S_memorySha3 => memorySha3
  | S_memoryCallDataCopy => memoryCallDataCopy
  | S_memoryReturnDataCopy => memoryReturnDataCopy
  | S_memoryCodeCopy => memoryCodeCopy
  | S_memoryExtCodeCopy => memoryExtCodeCopy
  | S_memoryMLoad => memoryMLoad
  | S_memoryMStore8 => memoryMStore8
  | S_memoryMStore => memoryMStore
  | S_memoryCreate => memoryCreate
  | S_memoryCreate2 => memoryCreate2
  | S_memoryCall => memoryCall
  | S_memoryDelegateCall => memoryDelegateCall
  | S_memoryStaticCall => memoryStaticCall
  | S_memoryReturn => memoryReturn
  | S_memoryRevert => memoryRevert
  | S_memoryLog => memoryLog
  end.
End gas_table.
