(* ===== verification/VmInstr.v ===== *)
(** * Instructions and calls

    [core/vm/instructions.go], the two instructions of [core/vm/eips.go], and the
    calls of [core/vm/evm.go].  Calls run code through the parameter [run]: the
    interpreter of VmInterp closes the recursion. *)

From Stdlib Require Import ZArith Lia.
From S2P Require Import Prelude Common Params Uint256 Crypto VmMemory VmAnalysis VmState VmContracts VmTable VmGas.

Open Scope go_scope.

Section instructions.
Context {U : Uint256} {S : StateDB} {K : Keccak} {C : CryptoPrims} (env : Env).
Local Abbreviation rules := (chainRules env).

(** [run(evm, contract, input, readOnly)]: the output, the error, and the
    contract object as the run left it. *)
Variable run : Contract -> bytes -> bool -> M EVM (bytes * option error * Contract).

(** ** core/vm/evm.go *)

Definition call_res : Type := retdata * Z * option error.

(** The end of the four calls: on an error the state is reverted, and the gas
    consumed unless the callee reverted by itself. *)
Definition call_finish (snapshot : Z) (r : call_res) : M EVM call_res :=
  let '(rt, gas, err) := r in
  match err with
  | None => ret (rt, gas, None)
  | Some e =>
      db_try (RevertToSnapshot snapshot) ;;;
      ret (rt, if bool_decide (e = ErrExecutionReverted) then gas else 0, Some e)
  end.

(** [ret, err = run(evm, contract, input, readOnly); gas = contract.Gas]. *)
Definition run_contract (c : Contract) (input : bytes) (ro : bool) : M EVM call_res :=
  ' (rt, err, c) <~ run c input ro ;;
  ret (RetOwn rt, Gas c, err).

Definition Call (caller : ContractRef) (addr : Address) (input : bytes) (gas value : Z) : M EVM call_res :=
  d <~ gets depth ;;
  if NoRecursion env && (0 <? d) then ret (RetOwn [], gas, None)
  else if CallCreateDepth <? d then ret (RetOwn [], gas, Some ErrDepth)
  else
    can <~ (if negb (Z.sgn value =? 0)
            then db_get (CanTransfer (ctx env) (ref_Address caller) value)
            else ret true) ;;
    if negb can then ret (RetOwn [], gas, Some ErrInsufficientBalance)
    else
      snapshot <~ db_get Snapshot ;;
      let p := precompile rules addr in
      exist <~ db_get (Exist addr) ;;
      if negb exist && bool_decide (p = None) && rIsEIP158 rules && (Z.sgn value =? 0)
      then ret (RetOwn [], gas, None)
      else
        (if negb exist then db_do (CreateAccount addr) else ret tt) ;;;
        db_do (Transfer (ctx env) (ref_Address caller) addr value) ;;;
        r <~ (match p with
              | Some p => lift_out (RunPrecompiledContract p input gas)
              | None =>
                  code <~ db_get (GetCode addr) ;;
                  if zlen code =? 0 then ret (RetOwn [], gas, None)
                  else
                    contract <~ NewContract caller addr value gas ;;
                    hash <~ db_get (GetCodeHash addr) ;;
                    run_contract (SetCallCode contract (Some addr) hash code) input false
              end) ;;
        call_finish snapshot r.

Definition CallCode (caller : ContractRef) (addr : Address) (input : bytes) (gas value : Z) : M EVM call_res :=
  d <~ gets depth ;;
  if NoRecursion env && (0 <? d) then ret (RetOwn [], gas, None)
  else if CallCreateDepth <? d then ret (RetOwn [], gas, Some ErrDepth)
  else
    can <~ db_get (CanTransfer (ctx env) (ref_Address caller) value) ;;
    if negb can then ret (RetOwn [], gas, Some ErrInsufficientBalance)
    else
      snapshot <~ db_get Snapshot ;;
      r <~ (match precompile rules addr with
            | Some p => lift_out (RunPrecompiledContract p input gas)
            | None =>
                contract <~ NewContract caller (ref_Address caller) value gas ;;
                hash <~ db_get (GetCodeHash addr) ;;
                code <~ db_get (GetCode addr) ;;
                run_contract (SetCallCode contract (Some addr) hash code) input false
            end) ;;
      call_finish snapshot r.

(** [NewContract(caller, ..., nil, gas).AsDelegate()]: the nil value is
    replaced by the caller's. *)
Definition DelegateCall (caller : ContractRef) (addr : Address) (input : bytes) (gas : Z) : M EVM call_res :=
  d <~ gets depth ;;
  if NoRecursion env && (0 <? d) then ret (RetOwn [], gas, None)
  else if CallCreateDepth <? d then ret (RetOwn [], gas, Some ErrDepth)
  else
    snapshot <~ db_get Snapshot ;;
    r <~ (match precompile rules addr with
          | Some p => lift_out (RunPrecompiledContract p input gas)
          | None =>
              contract <~ NewContract caller (ref_Address caller) 0 gas ;;
              contract <~ lift_opt PanicTypeAssert (AsDelegate contract) ;;
              hash <~ db_get (GetCodeHash addr) ;;
              code <~ db_get (GetCode addr) ;;
              run_contract (SetCallCode contract (Some addr) hash code) input false
          end) ;;
    call_finish snapshot r.

Definition StaticCall (caller : ContractRef) (addr : Address) (input : bytes) (gas : Z) : M EVM call_res :=
  d <~ gets depth ;;
  if NoRecursion env && (0 <? d) then ret (RetOwn [], gas, None)
  else if CallCreateDepth <? d then ret (RetOwn [], gas, Some ErrDepth)
  else
    snapshot <~ db_get Snapshot ;;
    db_do (AddBalance addr 0) ;;;
    r <~ (match precompile rules addr with
          | Some p => lift_out (RunPrecompiledContract p input gas)
          | None =>
              contract <~ NewContract caller addr 0 gas ;;
              hash <~ db_get (GetCodeHash addr) ;;
              code <~ db_get (GetCode addr) ;;
              run_contract (SetCallCode contract (Some addr) hash code) input true
          end) ;;
    call_finish snapshot r.

(** Result of a creation: output, address, gas left, error. *)
Definition create_res : Type := bytes * Address * Z * option error.

(** What [create] does once the init code has run. *)
Definition create_finish (snapshot : Z) (address : Address) (rt : bytes) (err : option error) (c : Contract)
  : M EVM create_res :=
  let maxCodeSizeExceeded := rIsEIP158 rules && (MaxCodeSize <? zlen rt) in
  ' (err, c) <~ (if bool_decide (err = None) && negb maxCodeSizeExceeded then
                   let createDataGas := u64 (zlen rt * CreateDataGas) in
                   let '(ok, c) := UseGas c createDataGas in
                   if (ok : bool) then db_do (SetCode address rt) ;;; ret (None, c)
                   else ret (Some ErrCodeStoreOutOfGas, c)
                 else ret (err, c)) ;;
  c <~ (if maxCodeSizeExceeded
           || (bool_decide (err <> None) && (rIsHomestead rules || negb (err_is err ErrCodeStoreOutOfGas))) then
          db_try (RevertToSnapshot snapshot) ;;;
          ret (if negb (err_is err ErrExecutionReverted) then snd (UseGas c (Gas c)) else c)
        else ret c) ;;
  let err := if maxCodeSizeExceeded && bool_decide (err = None) then Some ErrMaxCodeSizeExceeded else err in
  ret (rt, address, Gas c, err).

Definition create (caller : ContractRef) (cah : codeAndHash) (gas value : Z) (address : Address)
  : M EVM create_res :=
  d <~ gets depth ;;
  if CallCreateDepth <? d then ret ([], 0, gas, Some ErrDepth)
  else
    can <~ db_get (CanTransfer (ctx env) (ref_Address caller) value) ;;
    if negb can then ret ([], 0, gas, Some ErrInsufficientBalance)
    else
      nonce <~ db_get (GetNonce (ref_Address caller)) ;;
      db_do (SetNonce (ref_Address caller) (u64 (nonce + 1))) ;;;
      contractHash <~ db_get (GetCodeHash address) ;;
      n <~ db_get (GetNonce address) ;;
      if negb (n =? 0) || (negb (contractHash =? 0) && negb (contractHash =? emptyCodeHash))
      then ret ([], 0, 0, Some ErrContractAddressCollision)
      else
        snapshot <~ db_get Snapshot ;;
        db_do (CreateAccount address) ;;;
        (if rIsEIP158 rules then db_do (SetNonce address 1) else ret tt) ;;;
        db_do (Transfer (ctx env) (ref_Address caller) address value) ;;;
        contract <~ NewContract caller address value gas ;;
        let contract := SetCodeOptionalHash contract (Some address) cah in
        if NoRecursion env && (0 <? d) then ret ([], address, gas, None)
        else
          ' (rt, err, c) <~ run contract [] false ;;
          create_finish snapshot address rt err c.

Definition Create (caller : ContractRef) (code : bytes) (gas value : Z) : M EVM create_res :=
  nonce <~ db_get (GetNonce (ref_Address caller)) ;;
  create caller (MkCodeAndHash code 0) gas value (CreateAddress (ref_Address caller) nonce).

Definition Create2 (caller : ContractRef) (code : bytes) (gas endowment : Z) (salt : u256) : M EVM create_res :=
  let '(hash, cah) := codeAndHash_Hash (MkCodeAndHash code 0) in
  create caller cah gas endowment
    (CreateAddress2 (ref_Address caller) (U_Bytes32 salt) (Hash_Bytes hash)).

(** ** core/vm/instructions.go *)

Definition instr : Type := M mstate (slice * option error).
Definition done_ : instr := ret (Own [], None).
Definition fail_ (e : error) : instr := ret (Own [], Some e).

Definition pop_ : M mstate u256 :=
  st <~ getf stack ;;
  ' (x, st) <~ lift_opt PanicIndex (pop st) ;;
  set_stack st ;;;
  ret x.
Definition peek_ : M mstate u256 :=
  st <~ getf stack ;; lift_opt PanicIndex (peek st).
Definition push_ (x : u256) : M mstate unit := modf (fun f => fr_stack f (push (stack f) x)).
Definition set_top_ (x : u256) : M mstate unit := modf (fun f => fr_stack f (set_top (stack f) x)).

(** [x, y := pop(), peek(); y.f(&x, y)] and its variants. *)
Definition binop (f : u256 -> u256 -> u256) : instr :=
  x <~ pop_ ;; y <~ peek_ ;; set_top_ (f x y) ;;; done_.
Definition cmpop (f : u256 -> u256 -> bool) : instr :=
  x <~ pop_ ;; y <~ peek_ ;; set_top_ (if f x y then U_SetOne else U_Clear) ;;; done_.
Definition pushop (m : M mstate u256) : instr := x <~ m ;; push_ x ;;; done_.
Definition fof {A} (f : frame -> A) : M mstate A := getf f.

Definition opAdd : instr := binop U_Add.
Definition opSub : instr := binop U_Sub.
Definition opMul : instr := binop U_Mul.
Definition opDiv : instr := binop U_Div.
Definition opSdiv : instr := binop U_SDiv.
Definition opMod : instr := binop U_Mod.
Definition opSmod : instr := binop U_SMod.
Definition opExp : instr := binop U_Exp.
Definition opSignExtend : instr := binop (fun back num => U_ExtendSign num back).
Definition opNot : instr := x <~ peek_ ;; set_top_ (U_Not x) ;;; done_.
Definition opLt : instr := cmpop U_Lt.
Definition opGt : instr := cmpop U_Gt.
Definition opSlt : instr := cmpop U_Slt.
Definition opSgt : instr := cmpop U_Sgt.
Definition opEq : instr := cmpop U_Eq.
Definition opIszero : instr :=
  x <~ peek_ ;; set_top_ (if U_IsZero x then U_SetOne else U_Clear) ;;; done_.
Definition opAnd : instr := binop U_And.
Definition opOr : instr := binop U_Or.
Definition opXor : instr := binop U_Xor.
Definition opByte : instr := binop (fun th val => U_Byte val th).

Definition opAddmod : instr :=
  x <~ pop_ ;; y <~ pop_ ;; z <~ peek_ ;;
  set_top_ (if U_IsZero z then U_Clear else U_AddMod x y z) ;;; done_.
Definition opMulmod : instr :=
  x <~ pop_ ;; y <~ pop_ ;; z <~ peek_ ;; set_top_ (U_MulMod x y z) ;;; done_.

Definition opSHL : instr :=
  shift <~ pop_ ;; value <~ peek_ ;;
  set_top_ (if U_LtUint64 shift 256 then U_Lsh value (U_Uint64 shift) else U_Clear) ;;; done_.
Definition opSHR : instr :=
  shift <~ pop_ ;; value <~ peek_ ;;
  set_top_ (if U_LtUint64 shift 256 then U_Rsh value (U_Uint64 shift) else U_Clear) ;;; done_.
Definition opSAR : instr :=
  shift <~ pop_ ;; value <~ peek_ ;;
  set_top_ (if U_GtUint64 shift 256 then
              if 0 <=? U_Sign value then U_Clear else U_SetAllOne
            else U_SRsh value (U_Uint64 shift)) ;;; done_.

Definition getPtr (offset size : u256) : M mstate slice :=
  m <~ getf memory ;; lift_out (GetPtr m (i64 (U_Uint64 offset)) (i64 (U_Uint64 size))).
Definition getCopy (offset size : u256) : M mstate bytes :=
  m <~ getf memory ;; lift_out (GetCopy m (i64 (U_Uint64 offset)) (i64 (U_Uint64 size))).
(** The bytes a slice of this frame holds now. *)
Definition bytes_of (s : slice) : M mstate bytes := m <~ getf memory ;; ret (deref m s).
Definition memSet (offset size : Z) (v : bytes) : M mstate unit :=
  m <~ getf memory ;; m <~ lift_out (Memory_Set m offset size v) ;; set_memory m.

Definition opSha3 : instr :=
  offset <~ pop_ ;; size <~ peek_ ;;
  data <~ getPtr offset size ;;
  data <~ bytes_of data ;;
  let hash := Keccak256Hash data in
  (if EnablePreimageRecording env then on_evm (db_do (AddPreimage hash data)) else ret tt) ;;;
  set_top_ (U_SetBytes (Hash_Bytes hash)) ;;; done_.

Definition opAddress : instr :=
  pushop (fof (fun f => U_SetBytes (Address_Bytes (Contract_Address (contract f))))).
Definition opBalance : instr :=
  slot <~ peek_ ;;
  b <~ on_evm (db_get (GetBalance (U_Bytes20 slot))) ;;
  set_top_ (U_FromBig b) ;;; done_.
Definition opOrigin : instr := pushop (ret (U_SetBytes (Address_Bytes (Origin (ctx env))))).
Definition opCaller : instr :=
  pushop (fof (fun f => U_SetBytes (Address_Bytes (Caller (contract f))))).
Definition opCallValue : instr := pushop (fof (fun f => U_FromBig (value (contract f)))).

Definition opCallDataLoad : instr :=
  x <~ peek_ ;;
  let '(offset, overflow) := U_Uint64WithOverflow x in
  if (overflow : bool) then set_top_ U_Clear ;;; done_
  else
    input <~ fof (fun f => Input (contract f)) ;;
    data <~ lift_out (getData input offset 32) ;;
    set_top_ (U_SetBytes data) ;;; done_.
Definition opCallDataSize : instr :=
  pushop (fof (fun f => U_SetUint64 (u64 (zlen (Input (contract f)))))).

(** [off, overflow := x.Uint64WithOverflow(); if overflow { off = max }]. *)
Definition sat64 (x : u256) : Z :=
  let '(off, overflow) := U_Uint64WithOverflow x in
  if (overflow : bool) then MaxUint64 else off.

Definition opCallDataCopy : instr :=
  memOffset <~ pop_ ;; dataOffset <~ pop_ ;; length <~ pop_ ;;
  input <~ fof (fun f => Input (contract f)) ;;
  data <~ lift_out (getData input (sat64 dataOffset) (U_Uint64 length)) ;;
  memSet (U_Uint64 memOffset) (U_Uint64 length) data ;;; done_.

Definition opReturnDataSize : instr :=
  pushop (gete (fun e => U_SetUint64 (u64 (zlen (returnData e))))).

Definition opReturnDataCopy : instr :=
  memOffset <~ pop_ ;; dataOffset <~ pop_ ;; length <~ pop_ ;;
  let '(offset64, overflow) := U_Uint64WithOverflow dataOffset in
  if (overflow : bool) then fail_ ErrReturnDataOutOfBounds
  else
    let end_ := U_Add dataOffset length in
    let '(end64, overflow) := U_Uint64WithOverflow end_ in
    rd <~ gete returnData ;;
    if (overflow : bool) || (u64 (zlen rd) <? end64) then fail_ ErrReturnDataOutOfBounds
    else
      data <~ lift_opt PanicIndex (zslice rd offset64 end64) ;;
      memSet (U_Uint64 memOffset) (U_Uint64 length) data ;;; done_.

Definition opExtCodeSize : instr :=
  slot <~ peek_ ;;
  n <~ on_evm (db_get (GetCodeSize (U_Bytes20 slot))) ;;
  set_top_ (U_SetUint64 (u64 n)) ;;; done_.
Definition opCodeSize : instr := pushop (fof (fun f => U_SetUint64 (u64 (zlen (Code (contract f)))))).

Definition opCodeCopy : instr :=
  memOffset <~ pop_ ;; codeOffset <~ pop_ ;; length <~ pop_ ;;
  code <~ fof (fun f => Code (contract f)) ;;
  codeCopy <~ lift_out (getData code (sat64 codeOffset) (U_Uint64 length)) ;;
  memSet (U_Uint64 memOffset) (U_Uint64 length) codeCopy ;;; done_.

Definition opExtCodeCopy : instr :=
  a <~ pop_ ;; memOffset <~ pop_ ;; codeOffset <~ pop_ ;; length <~ pop_ ;;
  code <~ on_evm (db_get (GetCode (U_Bytes20 a))) ;;
  codeCopy <~ lift_out (getData code (sat64 codeOffset) (U_Uint64 length)) ;;
  memSet (U_Uint64 memOffset) (U_Uint64 length) codeCopy ;;; done_.

Definition opExtCodeHash : instr :=
  slot <~ peek_ ;;
  let address := U_Bytes20 slot in
  e <~ on_evm (db_get (Empty address)) ;;
  if (e : bool) then set_top_ U_Clear ;;; done_
  else
    h <~ on_evm (db_get (GetCodeHash address)) ;;
    set_top_ (U_SetBytes (Hash_Bytes h)) ;;; done_.

Definition opGasprice : instr := pushop (ret (U_FromBig (GasPrice (ctx env)))).

Definition opBlockhash : instr :=
  num <~ peek_ ;;
  let '(num64, overflow) := U_Uint64WithOverflow num in
  if (overflow : bool) then set_top_ U_Clear ;;; done_
  else
    let upper := u64 (BlockNumber (ctx env)) in
    let lower := if upper <? 257 then 0 else upper - 256 in
    set_top_ (if (lower <=? num64) && (num64 <? upper)
              then U_SetBytes (Hash_Bytes (GetHash (ctx env) num64)) else U_Clear) ;;; done_.

Definition opCoinbase : instr := pushop (ret (U_SetBytes (Address_Bytes (Coinbase (ctx env))))).
Definition opTimestamp : instr := pushop (ret (U_FromBig (Time (ctx env)))).
Definition opNumber : instr := pushop (ret (U_FromBig (BlockNumber (ctx env)))).
Definition opDifficulty : instr := pushop (ret (U_FromBig (Difficulty (ctx env)))).
Definition opGasLimit : instr := pushop (ret (U_SetUint64 (GasLimit (ctx env)))).
Definition opPop : instr := _ <~ pop_ ;; done_.

Definition opMload : instr :=
  v <~ peek_ ;;
  m <~ getf memory ;;
  p <~ lift_out (GetPtr m (i64 (U_Uint64 v)) 32) ;;
  set_top_ (U_SetBytes (deref m p)) ;;; done_.
Definition opMstore : instr :=
  mStart <~ pop_ ;; val <~ pop_ ;;
  m <~ getf memory ;;
  m <~ lift_out (Set32 m (U_Uint64 mStart) val) ;;
  set_memory m ;;; done_.
Definition opMstore8 : instr :=
  off <~ pop_ ;; val <~ pop_ ;;
  m <~ getf memory ;;
  s <~ lift_opt PanicIndex (zput (store m) (U_Uint64 off) (u8 (U_Uint64 val))) ;;
  set_memory (with_store m s) ;;; done_.

Definition opSload : instr :=
  loc <~ peek_ ;;
  a <~ self_addr ;;
  val <~ on_evm (db_get (GetState a (U_Bytes32 loc))) ;;
  set_top_ (U_SetBytes (Hash_Bytes val)) ;;; done_.
Definition opSstore : instr :=
  loc <~ pop_ ;; val <~ pop_ ;;
  a <~ self_addr ;;
  on_evm (db_do (SetState a (U_Bytes32 loc) (U_Bytes32 val))) ;;; done_.

(** Running an analysis that may update the contract and the shared map. *)
Definition with_dests (f : Contract -> gmap Z bitvec -> option (bool * Contract * gmap Z bitvec)) : M mstate bool :=
  c <~ getf contract ;;
  j <~ gete jumpdests ;;
  ' (b, c, j) <~ lift_opt PanicIndex (f c j) ;;
  set_contract c ;;;
  mode (fun e => with_jumpdests e j) ;;;
  ret b.

Definition opJump : instr :=
  pos <~ pop_ ;;
  ok <~ with_dests (fun c j => validJumpdest c j pos) ;;
  if negb ok then fail_ ErrInvalidJump
  else set_pc (U_Uint64 pos) ;;; done_.
Definition opJumpi : instr :=
  pos <~ pop_ ;; cond <~ pop_ ;;
  if negb (U_IsZero cond) then
    ok <~ with_dests (fun c j => validJumpdest c j pos) ;;
    if negb ok then fail_ ErrInvalidJump
    else set_pc (U_Uint64 pos) ;;; done_
  else modf (fun f => fr_pc f (u64 (pc f + 1))) ;;; done_.
Definition opJumpdest : instr := done_.

Definition opBeginSub : instr := fail_ ErrInvalidSubroutineEntry.
Definition opJumpSub : instr :=
  rs <~ getf rstack ;;
  if 1023 <=? zlen rs then fail_ ErrReturnStackExceeded
  else
    pos <~ pop_ ;;
    if negb (U_IsUint64 pos) then fail_ ErrInvalidJump
    else
      let posU64 := U_Uint64 pos in
      ok <~ with_dests (fun c j => validJumpSubdest c j posU64) ;;
      if negb ok then fail_ ErrInvalidJump
      else
        p <~ getf pc ;;
        set_rstack (u32 p :: rs) ;;;
        set_pc (u64 (posU64 + 1)) ;;; done_.
Definition opReturnSub : instr :=
  rs <~ getf rstack ;;
  match rs with
  | [] => fail_ ErrInvalidRetsub
  | p :: rs => set_rstack rs ;;; set_pc (u64 (p + 1)) ;;; done_
  end.

Definition opPc : instr := pushop (fof (fun f => U_SetUint64 (pc f))).
Definition opMsize : instr := pushop (fof (fun f => U_SetUint64 (u64 (Memory_Len (memory f))))).
Definition opGas : instr := pushop (fof (fun f => U_SetUint64 (Gas (contract f)))).

Definition useGas (g : Z) : M mstate unit :=
  modf (fun f => fr_contract f (snd (UseGas (contract f) g))).
(** [contract.Gas += g]. *)
Definition addGas (g : Z) : M mstate unit :=
  modf (fun f => fr_contract f (with_Gas (contract f) (u64 (Gas (contract f) + g)))).
Definition bigVal (v : u256) : Z := if negb (U_IsZero v) then U_ToBig v else 0.

Definition opCreate : instr :=
  value <~ pop_ ;; offset <~ pop_ ;; size <~ pop_ ;;
  input <~ getCopy offset size ;;
  gas <~ fof (fun f => Gas (contract f)) ;;
  let gas := if rIsEIP150 rules then u64 (gas - gas / 64) else gas in
  useGas gas ;;;
  c <~ getf contract ;;
  ' (rt, addr, returnGas, suberr) <~ on_evm (Create (as_caller c) input gas (bigVal value)) ;;
  push_ (if rIsHomestead rules && err_is suberr ErrCodeStoreOutOfGas then U_Clear
         else if bool_decide (suberr <> None) && negb (err_is suberr ErrCodeStoreOutOfGas) then U_Clear
         else U_SetBytes (Address_Bytes addr)) ;;;
  addGas returnGas ;;;
  if err_is suberr ErrExecutionReverted then ret (Own rt, None) else done_.

Definition opCreate2 : instr :=
  endowment <~ pop_ ;; offset <~ pop_ ;; size <~ pop_ ;; salt <~ pop_ ;;
  input <~ getCopy offset size ;;
  gas <~ fof (fun f => Gas (contract f)) ;;
  let gas := u64 (gas - gas / 64) in
  useGas gas ;;;
  c <~ getf contract ;;
  ' (rt, addr, returnGas, suberr) <~ on_evm (Create2 (as_caller c) input gas (bigVal endowment) salt) ;;
  push_ (if bool_decide (suberr <> None) then U_Clear else U_SetBytes (Address_Bytes addr)) ;;;
  addGas returnGas ;;;
  if err_is suberr ErrExecutionReverted then ret (Own rt, None) else done_.

(** The end of the call instructions: the flag on the stack, the output copied
    to memory, the gas left given back.  [args] is the input window; an output
    that is the input slice reads through it. *)
Definition call_tail (args : slice) (retOffset retSize : u256) (r : call_res) : instr :=
  let '(rt, returnGas, err) := r in
  push_ (if bool_decide (err <> None) then U_Clear else U_SetOne) ;;;
  let out := match rt with RetOwn b => Own b | RetInput => args end in
  (if bool_decide (err = None) || err_is err ErrExecutionReverted then
     b <~ bytes_of out ;;
     memSet (U_Uint64 retOffset) (U_Uint64 retSize) b
   else ret tt) ;;;
  addGas returnGas ;;;
  ret (out, None).

Definition stipend (value : u256) (gas : Z) : Z :=
  if negb (U_IsZero value) then u64 (gas + CallStipend) else gas.

Definition opCall : instr :=
  _ <~ pop_ ;;
  gas <~ gete callGasTemp ;;
  addr <~ pop_ ;; value <~ pop_ ;; inOffset <~ pop_ ;; inSize <~ pop_ ;; retOffset <~ pop_ ;; retSize <~ pop_ ;;
  args <~ getPtr inOffset inSize ;;
  input <~ bytes_of args ;;
  c <~ getf contract ;;
  r <~ on_evm (Call (as_caller c) (U_Bytes20 addr) input (stipend value gas) (bigVal value)) ;;
  call_tail args retOffset retSize r.

Definition opCallCode : instr :=
  _ <~ pop_ ;;
  gas <~ gete callGasTemp ;;
  addr <~ pop_ ;; value <~ pop_ ;; inOffset <~ pop_ ;; inSize <~ pop_ ;; retOffset <~ pop_ ;; retSize <~ pop_ ;;
  args <~ getPtr inOffset inSize ;;
  input <~ bytes_of args ;;
  c <~ getf contract ;;
  r <~ on_evm (CallCode (as_caller c) (U_Bytes20 addr) input (stipend value gas) (bigVal value)) ;;
  call_tail args retOffset retSize r.

Definition opDelegateCall : instr :=
  _ <~ pop_ ;;
  gas <~ gete callGasTemp ;;
  addr <~ pop_ ;; inOffset <~ pop_ ;; inSize <~ pop_ ;; retOffset <~ pop_ ;; retSize <~ pop_ ;;
  args <~ getPtr inOffset inSize ;;
  input <~ bytes_of args ;;
  c <~ getf contract ;;
  r <~ on_evm (DelegateCall (as_caller c) (U_Bytes20 addr) input gas) ;;
  call_tail args retOffset retSize r.

Definition opStaticCall : instr :=
  _ <~ pop_ ;;
  gas <~ gete callGasTemp ;;
  addr <~ pop_ ;; inOffset <~ pop_ ;; inSize <~ pop_ ;; retOffset <~ pop_ ;; retSize <~ pop_ ;;
  args <~ getPtr inOffset inSize ;;
  input <~ bytes_of args ;;
  c <~ getf contract ;;
  r <~ on_evm (StaticCall (as_caller c) (U_Bytes20 addr) input gas) ;;
  call_tail args retOffset retSize r.

Definition opReturn : instr :=
  offset <~ pop_ ;; size <~ pop_ ;; p <~ getPtr offset size ;; ret (p, None).
Definition opRevert : instr :=
  offset <~ pop_ ;; size <~ pop_ ;; p <~ getPtr offset size ;; ret (p, None).
Definition opStop : instr := done_.

Definition opSuicide : instr :=
  beneficiary <~ pop_ ;;
  a <~ self_addr ;;
  balance <~ on_evm (db_get (GetBalance a)) ;;
  on_evm (db_do (AddBalance (U_Bytes20 beneficiary) balance)) ;;;
  _ <~ on_evm (db_get (Suicide a)) ;;
  done_.

Fixpoint pop_topics (n : nat) : M mstate (list Hash) :=
  match n with
  | O => ret []
  | Datatypes.S n => x <~ pop_ ;; l <~ pop_topics n ;; ret (U_Bytes32 x :: l)
  end.

Definition makeLog (size : Z) : instr :=
  mStart <~ pop_ ;; mSize <~ pop_ ;;
  topics <~ pop_topics (Z.to_nat size) ;;
  d <~ getCopy mStart mSize ;;
  a <~ self_addr ;;
  on_evm (db_do (AddLog (MkLog a topics d (u64 (BlockNumber (ctx env)))))) ;;; done_.

Definition opPush1 : instr :=
  modf (fun f => fr_pc f (u64 (pc f + 1))) ;;;
  p <~ getf pc ;;
  code <~ fof (fun f => Code (contract f)) ;;
  if p <? u64 (zlen code) then
    b <~ lift_opt PanicIndex (zget code p) ;;
    push_ (U_SetUint64 b) ;;; done_
  else push_ U_Clear ;;; done_.

Definition makePush (size pushByteSize : Z) : instr :=
  p <~ getf pc ;;
  code <~ fof (fun f => Code (contract f)) ;;
  let codeLen := zlen code in
  let startMin := if i64 (u64 (p + 1)) <? codeLen then i64 (u64 (p + 1)) else codeLen in
  let endMin := if startMin + pushByteSize <? codeLen then startMin + pushByteSize else codeLen in
  d <~ lift_opt PanicIndex (zslice code startMin endMin) ;;
  push_ (U_SetBytes (RightPadBytes d pushByteSize)) ;;;
  set_pc (u64 (p + size)) ;;; done_.

Definition makeDup (size : Z) : instr :=
  st <~ getf stack ;; st <~ lift_opt PanicIndex (dup st size) ;; set_stack st ;;; done_.
Definition makeSwap (size : Z) : instr :=
  let size := size + 1 in
  st <~ getf stack ;; st <~ lift_opt PanicIndex (swap st size) ;; set_stack st ;;; done_.

(** ** core/vm/eips.go *)

Definition opSelfBalance : instr :=
  a <~ self_addr ;;
  b <~ on_evm (db_get (GetBalance a)) ;;
  push_ (U_FromBig b) ;;; done_.
Definition opChainID : instr := pushop (ret (U_FromBig (chainID env))).
End instructions.
