(* ===== verification/VmInterp.v ===== *)
(** * The interpreter loop

    [core/vm/interpreter.go] and [run] of [core/vm/evm.go].  One round of the loop
    is [step]; [loop] repeats it.  The fuel of [loop] bounds the rounds of a frame
    and the depth of the frames it opens, one unit each: VmSafety shows that more
    fuel than gas is enough. *)

From Stdlib Require Import ZArith Lia.
From S2P Require Import Prelude Common Params Uint256 Crypto VmMemory VmAnalysis VmState VmContracts VmTable VmGas VmInstr.

Open Scope go_scope.

Section interpreter.
Context {U : Uint256} {S : StateDB} {K : Keccak} {C : CryptoPrims} (env : Env).
Local Abbreviation rules := (chainRules env).

(** The function a table entry names. *)
Definition exec_of (run : Contract -> bytes -> bool -> M EVM (bytes * option error * Contract))
    (x : execFn) : instr :=
  match x with
  | X_opStop => opStop
  | X_opAdd => opAdd
  | X_opMul => opMul
  | X_opSub => opSub
  | X_opDiv => opDiv
  | X_opSdiv => opSdiv
  | X_opMod => opMod
  | X_opSmod => opSmod
  | X_opAddmod => opAddmod
  | X_opMulmod => opMulmod
  | X_opExp => opExp
  | X_opSignExtend => opSignExtend
  | X_opLt => opLt
  | X_opGt => opGt
  | X_opSlt => opSlt
  | X_opSgt => opSgt
  | X_opEq => opEq
  | X_opIszero => opIszero
  | X_opAnd => opAnd
  | X_opXor => opXor
  | X_opOr => opOr
  | X_opNot => opNot
  | X_opByte => opByte
  | X_opSha3 => opSha3 env
  | X_opAddress => opAddress
  | X_opBalance => opBalance
  | X_opOrigin => opOrigin env
  | X_opCaller => opCaller
  | X_opCallValue => opCallValue
  | X_opCallDataLoad => opCallDataLoad
  | X_opCallDataSize => opCallDataSize
  | X_opCallDataCopy => opCallDataCopy
  | X_opCodeSize => opCodeSize
  | X_opCodeCopy => opCodeCopy
  | X_opGasprice => opGasprice env
  | X_opExtCodeSize => opExtCodeSize
  | X_opExtCodeCopy => opExtCodeCopy
  | X_opBlockhash => opBlockhash env
  | X_opCoinbase => opCoinbase env
  | X_opTimestamp => opTimestamp env
  | X_opNumber => opNumber env
  | X_opDifficulty => opDifficulty env
  | X_opGasLimit => opGasLimit env
  | X_opPop => opPop
  | X_opMload => opMload
  | X_opMstore => opMstore
  | X_opMstore8 => opMstore8
  | X_opSload => opSload
  | X_opSstore => opSstore
  | X_opJump => opJump
  | X_opJumpi => opJumpi
  | X_opPc => opPc
  | X_opMsize => opMsize
  | X_opGas => opGas
  | X_opJumpdest => opJumpdest
  | X_opPush1 => opPush1
  | X_opCreate => opCreate env run
  | X_opCall => opCall env run
  | X_opCallCode => opCallCode env run
  | X_opReturn => opReturn
  | X_opSuicide => opSuicide
  | X_opSHL => opSHL
  | X_opSHR => opSHR
  | X_opSAR => opSAR
  | X_opExtCodeHash => opExtCodeHash
  | X_opCreate2 => opCreate2 env run
  | X_opStaticCall => opStaticCall env run
  | X_opReturnDataSize => opReturnDataSize
  | X_opReturnDataCopy => opReturnDataCopy
  | X_opRevert => opRevert
  | X_opDelegateCall => opDelegateCall env run
  | X_opSelfBalance => opSelfBalance
  | X_opChainID => opChainID env
  | X_opBeginSub => opBeginSub
  | X_opJumpSub => opJumpSub
  | X_opReturnSub => opReturnSub
  | X_makeLog n => makeLog env n
  | X_makePush s p => makePush s p
  | X_makeDup n => makeDup n
  | X_makeSwap n => makeSwap n
  end.

Definition useGas_ (g : Z) : M mstate bool :=
  c <~ getf contract ;;
  let '(ok, c) := UseGas c g in
  set_contract c ;;;
  ret ok.

(** Whether a round goes on, or returns from [Run]. *)
Inductive outcome_step :=
| Continue
| Return_ (b : bytes) (err : option error).

Definition fail_step (e : error) : M mstate outcome_step := ret (Return_ [] (Some e)).

(** The memory the operation needs, rounded up to words. *)
Definition needed_memory (o : operation) : M mstate (res Z) :=
  match memorySize o with
  | None => ret (inl 0)
  | Some f =>
      st <~ getf stack ;;
      ' (memSize, overflow) <~ lift_opt PanicIndex (mem_of f st) ;;
      if (overflow : bool) then ret (inr ErrGasUintOverflow)
      else
        let '(sz, overflow) := SafeMul (toWordSize memSize) 32 in
        if (overflow : bool) then ret (inr ErrGasUintOverflow) else ret (inl sz)
  end.

(** The dynamic part of the gas; false stands for [ErrOutOfGas]. *)
Definition charge_dynamic (o : operation) (memorySize : Z) : M mstate bool :=
  match dynamicGas o with
  | None => ret true
  | Some g =>
      r <~ gas_of env g memorySize ;;
      match r with
      | inr _ => ret false
      | inl dynamicCost => useGas_ dynamicCost
      end
  end.

(** After [execute]: the return data, then the switch. *)
Definition after_execute (o : operation) (r : slice) (err : option error) : M mstate outcome_step :=
  m <~ getf memory ;;
  let b := deref m r in
  (if returns o then mode (fun e => with_returnData e (CopyBytes b)) else ret tt) ;;;
  match err with
  | Some e => fail_step e
  | None =>
      if reverts o then ret (Return_ b (Some ErrExecutionReverted))
      else if halts o then ret (Return_ b None)
      else
        (if negb (jumps o) then modf (fun f => fr_pc f (u64 (pc f + 1))) else ret tt) ;;;
        ret Continue
  end.

(** Write protection: in a read-only frame from Byzantium on. *)
Definition write_protected (op : Z) (o : operation) : M mstate bool :=
  ro <~ gete readOnly ;;
  if ro && rIsByzantium rules then
    if writes o then ret true
    else if op =? Op.CALL then
      v <~ Back_ 2 ;; ret (negb (U_Sign v =? 0))
    else ret false
  else ret false.

(** One round, from fetching the opcode on. *)
Definition step (run : Contract -> bytes -> bool -> M EVM (bytes * option error * Contract))
  : M mstate outcome_step :=
  c <~ getf contract ;;
  p <~ getf pc ;;
  let op := GetOp c p in
  match jumpTable env op with
  | None => fail_step (ErrInvalidOpCode op)
  | Some o =>
      sLen <~ getf (fun f => len (stack f)) ;;
      if sLen <? op_minStack o then fail_step (ErrStackUnderflow sLen (op_minStack o))
      else if op_maxStack o <? sLen then fail_step (ErrStackOverflow sLen (op_maxStack o))
      else
        wp <~ write_protected op o ;;
        if (wp : bool) then fail_step ErrWriteProtection
        else
          ok <~ useGas_ (constantGas o) ;;
          if negb ok then fail_step ErrOutOfGas
          else
            ms <~ needed_memory o ;;
            match ms with
            | inr e => fail_step e
            | inl memorySize =>
                ok <~ charge_dynamic o memorySize ;;
                if negb ok then fail_step ErrOutOfGas
                else
                  (if 0 <? memorySize
                   then modf (fun f => fr_memory f (Resize (memory f) memorySize))
                   else ret tt) ;;;
                  ' (r, err) <~ exec_of run (execute o) ;;
                  after_execute o r err
            end
  end.

(** [steps%1000 == 0 && atomic.LoadInt32(&in.evm.abort) != 0]. *)
Definition aborted (steps : Z) : M mstate bool :=
  if steps mod 1000 =? 0 then
    l <~ gete abortReads ;;
    match l with
    | [] => ret false
    | b :: l => mode (fun e => with_abortReads e l) ;;; ret b
    end
  else ret false.

(** [Run] around its loop [lp]: the depth, the read-only flag and the return
    data; the deferred functions restore the first two. *)
Definition Run_with (lp : Z -> M mstate (bytes * option error))
    (contract : Contract) (input : bytes) (ro : bool) : M EVM (bytes * option error * Contract) :=
  modify (fun e => with_depth e (depth e + 1)) ;;;
  ro0 <~ gets readOnly ;;
  let sets := ro && negb ro0 in
  (if sets then modify (fun e => with_readOnly e true) else ret tt) ;;;
  modify (fun e => with_returnData e []) ;;;
  r <~ (if zlen (Code contract) =? 0 then ret ([], None, contract)
        else fun e =>
          match lp 0 (MkMstate U S (MkFrame U 0 [] NewMemory [] (with_Input contract input)) e) with
          | Ok (b, err, s) => Ok (b, err, VmState.contract (fr s), evm s)
          | Panic p => Panic p
          | NoFuel => NoFuel
          end) ;;
  (if sets then modify (fun e => with_readOnly e false) else ret tt) ;;;
  modify (fun e => with_depth e (depth e - 1)) ;;;
  ret r.

(** The loop; [steps] is the counter of the source. *)
Fixpoint loop (fuel : nat) (steps : Z) : M mstate (bytes * option error) :=
  match fuel with
  | O => fun _ => NoFuel
  | Datatypes.S fuel =>
      let steps := steps + 1 in
      stop <~ aborted steps ;;
      if (stop : bool) then ret ([], None)
      else
        r <~ step (Run_with (loop fuel)) ;;
        match r with
        | Return_ b err => ret (b, err)
        | Continue => loop fuel steps
        end
  end.

(** [EVMInterpreter.Run]. *)
Definition Run (fuel : nat) : Contract -> bytes -> bool -> M EVM (bytes * option error * Contract) :=
  Run_with (loop fuel).

Definition CanRun (code : bytes) : bool := true.

(** [run] of evm.go: the first interpreter that can run the code; [NewEVM] sets
    up one. *)
Definition run (fuel : nat) (contract : Contract) (input : bytes) (ro : bool)
  : M EVM (bytes * option error * Contract) :=
  if CanRun (Code contract) then Run fuel contract input ro
  else ret ([], Some ErrNoInterpreter, contract).
End interpreter.
