(* ===== verification/VmSpec.v ===== *)
(** * What the EVM expects of its state database

    The abstract account state behind the [StateDB] interface: a [View] holds what
    the interface lets a client observe, each method has its effect on views, and
    [StateDBSpec] says that an implementation follows them and that reverting to a
    snapshot restores the view taken with it.  The interpreter is verified against
    this class; StateDB discharges it for [core/state].  [CanTransfer] and
    [Transfer] of [core/evm.go] are here because they are written against the
    same interface. *)

From Stdlib Require Import ZArith Lia Sorting.Sorted.
From S2P Require Import Prelude Common Params Uint256 Crypto VmMemory VmAnalysis VmState.

Open Scope go_scope.

(** ** Views *)

Record View := MkView {
  vExist : Address -> bool;
  vBalance : Address -> Z;
  vNonce : Address -> Z;
  vCode : Address -> bytes;
  vCodeHash : Address -> Hash;
  vState : Address -> Hash -> Hash;
  vCommitted : Address -> Hash -> Hash;
  vSuicided : Address -> bool;
  vRefund : Z;
  vLogs : list Log;
}.

Definition upd {A} (f : Z -> A) (a : Z) (x : A) : Z -> A := fun b => if b =? a then x else f b.

Lemma upd_eq {A} (f : Z -> A) a x : upd f a x a = x.
Proof. unfold upd. by rewrite Z.eqb_refl. Qed.

Lemma upd_ne {A} (f : Z -> A) a x b : b <> a -> upd f a x b = f b.
Proof. unfold upd. intros H. by apply Z.eqb_neq in H as ->. Qed.

(** Observational equality. *)
Record view_eq (v w : View) : Prop := MkViewEq {
  ve_Exist : forall a, vExist v a = vExist w a;
  ve_Balance : forall a, vBalance v a = vBalance w a;
  ve_Nonce : forall a, vNonce v a = vNonce w a;
  ve_Code : forall a, vCode v a = vCode w a;
  ve_CodeHash : forall a, vCodeHash v a = vCodeHash w a;
  ve_State : forall a k, vState v a k = vState w a k;
  ve_Committed : forall a k, vCommitted v a k = vCommitted w a k;
  ve_Suicided : forall a, vSuicided v a = vSuicided w a;
  ve_Refund : vRefund v = vRefund w;
  ve_Logs : vLogs v = vLogs w;
}.

#[export] Instance view_equiv : Equiv View := view_eq.

#[export] Instance view_eq_equivalence : Equivalence (≡@{View}).
Proof.
  split.
  - intros v. by split.
  - intros v w []. split; intros; symmetry; auto.
  - intros u v w [] []. split; intros; etransitivity; eauto.
Qed.

(** What a read-only call must leave alone: everything but the existence of
    empty accounts. *)
Record ro_eq (v w : View) : Prop := MkRoEq {
  ro_Balance : forall a, vBalance v a = vBalance w a;
  ro_Nonce : forall a, vNonce v a = vNonce w a;
  ro_Code : forall a, vCode v a = vCode w a;
  ro_State : forall a k, vState v a k = vState w a k;
  ro_Suicided : forall a, vSuicided v a = vSuicided w a;
  ro_Refund : vRefund v = vRefund w;
  ro_Logs : vLogs v = vLogs w;
}.

#[export] Instance ro_eq_equivalence : Equivalence ro_eq.
Proof.
  split.
  - intros v. by split.
  - intros v w []. split; intros; symmetry; auto.
  - intros u v w [] []. split; intros; etransitivity; eauto.
Qed.

Lemma view_eq_ro v w : v ≡ w -> ro_eq v w.
Proof. intros []. by split. Qed.

(** ** The effect of the methods on views *)

Section effects.
Context {K : Keccak}.

Definition vEmpty (v : View) (a : Address) : bool :=
  negb (vExist v a)
  || ((vNonce v a =? 0) && (vBalance v a =? 0) && (vCodeHash v a =? emptyCodeHash)).

(** A new account without balance, nonce, code and storage. *)
Definition s_fresh (a : Address) (balance : Z) (v : View) : View :=
  MkView (upd (vExist v) a true) (upd (vBalance v) a balance) (upd (vNonce v) a 0)
    (upd (vCode v) a []) (upd (vCodeHash v) a emptyCodeHash)
    (upd (vState v) a (fun _ => 0)) (upd (vCommitted v) a (fun _ => 0))
    (upd (vSuicided v) a false) (vRefund v) (vLogs v).

(** Writing methods create the account where it is missing. *)
Definition s_ensure (a : Address) (v : View) : View :=
  if vExist v a then v else s_fresh a 0 v.

(** [CreateAccount] keeps the balance of an account it replaces. *)
Definition s_CreateAccount (a : Address) (v : View) : View :=
  s_fresh a (if vExist v a then vBalance v a else 0) v.

Definition s_setBalance (a : Address) (x : Z) (v : View) : View :=
  MkView (vExist v) (upd (vBalance v) a x) (vNonce v) (vCode v) (vCodeHash v) (vState v)
    (vCommitted v) (vSuicided v) (vRefund v) (vLogs v).
Definition s_AddBalance (a : Address) (x : Z) (v : View) : View :=
  let v := s_ensure a v in s_setBalance a (vBalance v a + x) v.
Definition s_SubBalance (a : Address) (x : Z) (v : View) : View :=
  let v := s_ensure a v in s_setBalance a (vBalance v a - x) v.
Definition s_SetNonce (a : Address) (n : Z) (v : View) : View :=
  let v := s_ensure a v in
  MkView (vExist v) (vBalance v) (upd (vNonce v) a n) (vCode v) (vCodeHash v) (vState v)
    (vCommitted v) (vSuicided v) (vRefund v) (vLogs v).
Definition s_SetCode (a : Address) (c : bytes) (v : View) : View :=
  let v := s_ensure a v in
  MkView (vExist v) (vBalance v) (vNonce v) (upd (vCode v) a c)
    (upd (vCodeHash v) a (Keccak256Hash c)) (vState v)
    (vCommitted v) (vSuicided v) (vRefund v) (vLogs v).
Definition s_SetState (a : Address) (k x : Hash) (v : View) : View :=
  let v := s_ensure a v in
  MkView (vExist v) (vBalance v) (vNonce v) (vCode v) (vCodeHash v)
    (upd (vState v) a (upd (vState v a) k x))
    (vCommitted v) (vSuicided v) (vRefund v) (vLogs v).
Definition s_Suicide (a : Address) (v : View) : View :=
  if vExist v a then
    MkView (vExist v) (upd (vBalance v) a 0) (vNonce v) (vCode v) (vCodeHash v) (vState v)
      (vCommitted v) (upd (vSuicided v) a true) (vRefund v) (vLogs v)
  else v.
Definition s_setRefund (r : Z) (v : View) : View :=
  MkView (vExist v) (vBalance v) (vNonce v) (vCode v) (vCodeHash v) (vState v)
    (vCommitted v) (vSuicided v) r (vLogs v).
Definition s_AddRefund (g : Z) (v : View) : View := s_setRefund (u64 (vRefund v + g)) v.
Definition s_SubRefund (g : Z) (v : View) : View := s_setRefund (u64 (vRefund v - g)) v.
Definition s_AddLog (l : Log) (v : View) : View :=
  MkView (vExist v) (vBalance v) (vNonce v) (vCode v) (vCodeHash v) (vState v)
    (vCommitted v) (vSuicided v) (vRefund v) (vLogs v ++ [l]).

(** ** Well-formed views

    An absent account has nothing; a code hash is that of the code. *)
Record view_ok (v : View) : Prop := MkViewOk {
  vo_absent : forall a, vExist v a = false ->
    vBalance v a = 0 /\ vNonce v a = 0 /\ vCode v a = [] /\ vCodeHash v a = 0 /\
    (forall k, vState v a k = 0 /\ vCommitted v a k = 0) /\ vSuicided v a = false;
  vo_hash : forall a, vExist v a = true -> vCodeHash v a = Keccak256Hash (vCode v a);
  vo_code : forall a, data_ok (vCode v a);
  vo_refund : is_u64 (vRefund v);
}.
End effects.

(** ** The contract of an implementation *)

Definition snap_eq (p q : Z * View) : Prop := p.1 = q.1 /\ p.2 ≡ q.2.
Definition snaps_eq : list (Z * View) -> list (Z * View) -> Prop := Forall2 snap_eq.

#[export] Instance snap_eq_equivalence : Equivalence snap_eq.
Proof.
  split.
  - intros [i v]. by split.
  - intros p q [E Hv]. split; by symmetry.
  - intros p q r [E Hv] [E' Hw]. split; by etransitivity.
Qed.

#[export] Instance snaps_eq_equivalence : Equivalence snaps_eq.
Proof. unfold snaps_eq. apply _. Qed.

Class StateDBSpec (S : StateDB) (K : Keccak) := {
  db_ok : DB -> Prop;
  view : DB -> View;
  (* the live snapshots, oldest first *)
  snaps : DB -> list (Z * View);

  view_wf : forall d, db_ok d -> view_ok (view d);

  (* a method that changes the view by [f] *)
  effect (f : View -> View) (d d' : DB) : Prop :=
    db_ok d' /\ view d' ≡ f (view d) /\ snaps_eq (snaps d') (snaps d);

  CreateAccount_spec : forall a d, db_ok d -> effect (s_CreateAccount a) d (CreateAccount a d);
  SubBalance_spec : forall a x d, db_ok d -> effect (s_SubBalance a x) d (SubBalance a x d);
  AddBalance_spec : forall a x d, db_ok d -> effect (s_AddBalance a x) d (AddBalance a x d);
  SetNonce_spec : forall a n d, db_ok d -> effect (s_SetNonce a n) d (SetNonce a n d);
  SetCode_spec : forall a c d, db_ok d -> data_ok c ->
    effect (s_SetCode a c) d (SetCode a c d);
  SetState_spec : forall a k x d, db_ok d -> effect (s_SetState a k x) d (SetState a k x d);
  AddRefund_spec : forall g d, db_ok d -> effect (s_AddRefund g) d (AddRefund g d);
  AddLog_spec : forall l d, db_ok d -> effect (s_AddLog l) d (AddLog l d);
  AddPreimage_spec : forall h b d, db_ok d -> effect id d (AddPreimage h b d);
  Suicide_spec : forall a d, db_ok d ->
    fst (Suicide a d) = vExist (view d) a /\ effect (s_Suicide a) d (snd (Suicide a d));

  GetBalance_spec : forall a d, db_ok d ->
    fst (GetBalance a d) = vBalance (view d) a /\ effect id d (snd (GetBalance a d));
  GetNonce_spec : forall a d, db_ok d ->
    fst (GetNonce a d) = vNonce (view d) a /\ effect id d (snd (GetNonce a d));
  GetCodeHash_spec : forall a d, db_ok d ->
    fst (GetCodeHash a d) = vCodeHash (view d) a /\ effect id d (snd (GetCodeHash a d));
  GetCode_spec : forall a d, db_ok d ->
    fst (GetCode a d) = vCode (view d) a /\ effect id d (snd (GetCode a d));
  GetCodeSize_spec : forall a d, db_ok d ->
    fst (GetCodeSize a d) = zlen (vCode (view d) a) /\ effect id d (snd (GetCodeSize a d));
  GetState_spec : forall a k d, db_ok d ->
    fst (GetState a k d) = vState (view d) a k /\ effect id d (snd (GetState a k d));
  GetCommittedState_spec : forall a k d, db_ok d ->
    fst (GetCommittedState a k d) = vCommitted (view d) a k /\
    effect id d (snd (GetCommittedState a k d));
  HasSuicided_spec : forall a d, db_ok d ->
    fst (HasSuicided a d) = vSuicided (view d) a /\ effect id d (snd (HasSuicided a d));
  Exist_spec : forall a d, db_ok d ->
    fst (Exist a d) = vExist (view d) a /\ effect id d (snd (Exist a d));
  Empty_spec : forall a d, db_ok d ->
    fst (Empty a d) = vEmpty (view d) a /\ effect id d (snd (Empty a d));
  GetRefund_spec : forall d, db_ok d -> GetRefund d = vRefund (view d);

  SubRefund_spec : forall g d, db_ok d ->
    if vRefund (view d) <? g then SubRefund g d = Panic PanicRefund
    else exists d', SubRefund g d = Ok d' /\ effect (s_SubRefund g) d d';

  Snapshot_spec : forall d, db_ok d ->
    let '(id, d') := Snapshot d in
    db_ok d' /\ view d' ≡ view d /\ snaps_eq (snaps d') (snaps d ++ [(id, view d)]) /\
    Forall (fun p => fst p < id) (snaps d);
  Revert_spec : forall d l1 id v l2, db_ok d ->
    snaps_eq (snaps d) (l1 ++ (id, v) :: l2) ->
    exists d', RevertToSnapshot id d = Ok d' /\ db_ok d' /\ view d' ≡ v /\ snaps_eq (snaps d') l1;
}.

(** ** core/evm.go *)

Definition core_CanTransfer {S : StateDB} (addr : Address) (amount : Z) (d : DB) : bool * DB :=
  let '(b, d) := GetBalance addr d in (amount <=? b, d).

Definition core_Transfer {S : StateDB} (sender recipient : Address) (amount : Z) (d : DB) : DB :=
  AddBalance recipient amount (SubBalance sender amount d).

(** ** Preservation of well-formedness by the effects *)

Section effects_ok.
Context {K : Keccak}.

Lemma s_fresh_ok a x v : view_ok v -> view_ok (s_fresh a x v).
Proof.
  intros [H1 H2 H3 H4]. split; cbn; try done; unfold upd; intros b; destruct (b =? a); auto; try done.
Qed.

Lemma s_ensure_ok a v : view_ok v -> view_ok (s_ensure a v).
Proof. unfold s_ensure. destruct (vExist v a); [done|apply s_fresh_ok]. Qed.

Lemma s_ensure_exist a v : vExist (s_ensure a v) a = true.
Proof. unfold s_ensure. destruct (vExist v a) eqn:E; [done|]. apply upd_eq. Qed.

(** Changing an account that exists. *)
Ltac touch_ok a :=
  let H := fresh in
  intros H; destruct (s_ensure_ok a _ H) as [H1 H2 H3 H4];
  split; cbn; [| | |exact H4]; intros b;
  [ intros E; destruct (H1 b E) as (?&?&?&?&?&?); unfold upd;
    destruct (Z.eqb_spec b a); [subst b; by rewrite s_ensure_exist in E|auto 10]
  | unfold upd; try (destruct (b =? a)); auto
  | unfold upd; try (destruct (b =? a)); auto ].

Lemma s_AddBalance_ok a x v : view_ok v -> view_ok (s_AddBalance a x v).
Proof. touch_ok a. Qed.
Lemma s_SubBalance_ok a x v : view_ok v -> view_ok (s_SubBalance a x v).
Proof. touch_ok a. Qed.
Lemma s_SetNonce_ok a n v : view_ok v -> view_ok (s_SetNonce a n v).
Proof. touch_ok a. Qed.
Lemma s_SetState_ok a k x v : view_ok v -> view_ok (s_SetState a k x v).
Proof. touch_ok a. Qed.
Lemma s_SetCode_ok a c v : data_ok c -> view_ok v -> view_ok (s_SetCode a c v).
Proof. intros Hc. touch_ok a. Qed.

Lemma s_Suicide_ok a v : view_ok v -> view_ok (s_Suicide a v).
Proof.
  intros [H1 H2 H3 H4]. unfold s_Suicide. destruct (vExist v a) eqn:E; [|done].
  split; cbn; auto. intros b Eb. destruct (H1 b Eb) as (?&?&?&?&?&?). unfold upd.
  destruct (b =? a) eqn:Eba; [apply Z.eqb_eq in Eba; congruence|auto 10].
Qed.

Lemma s_CreateAccount_ok a v : view_ok v -> view_ok (s_CreateAccount a v).
Proof. apply s_fresh_ok. Qed.

(** ** The effects respect observational equality *)

#[export] Instance s_fresh_proper a x : Proper ((≡) ==> (≡)) (s_fresh a x).
Proof.
  intros v w []. split; cbn; unfold upd; intros; try (destruct (_ =? a)); auto.
Qed.

#[export] Instance s_ensure_proper a : Proper ((≡) ==> (≡)) (s_ensure a).
Proof.
  intros v w H. unfold s_ensure. rewrite (ve_Exist _ _ H). destruct (vExist w a); [done|]. by rewrite H.
Qed.

#[export] Instance s_SetNonce_proper a n : Proper ((≡) ==> (≡)) (s_SetNonce a n).
Proof.
  intros v w H. unfold s_SetNonce. destruct (s_ensure_proper a _ _ H).
  split; cbn; unfold upd; intros; try (destruct (_ =? a)); auto.
Qed.

#[export] Instance s_setBalance_proper a x : Proper ((≡) ==> (≡)) (s_setBalance a x).
Proof. intros v w []. split; cbn; unfold upd; intros; try (destruct (_ =? a)); auto. Qed.

#[export] Instance s_AddBalance_proper a x : Proper ((≡) ==> (≡)) (s_AddBalance a x).
Proof. intros v w H. unfold s_AddBalance. by rewrite (ve_Balance _ _ (s_ensure_proper a _ _ H)), H. Qed.

#[export] Instance s_SubBalance_proper a x : Proper ((≡) ==> (≡)) (s_SubBalance a x).
Proof. intros v w H. unfold s_SubBalance. by rewrite (ve_Balance _ _ (s_ensure_proper a _ _ H)), H. Qed.

#[export] Instance s_CreateAccount_proper a : Proper ((≡) ==> (≡)) (s_CreateAccount a).
Proof. intros v w H. unfold s_CreateAccount. by rewrite (ve_Exist _ _ H), (ve_Balance _ _ H), H. Qed.

#[export] Instance s_SetCode_proper a c : Proper ((≡) ==> (≡)) (s_SetCode a c).
Proof.
  intros v w H. unfold s_SetCode. destruct (s_ensure_proper a _ _ H).
  split; cbn; unfold upd; intros; try (destruct (_ =? a)); auto.
Qed.

#[export] Instance s_SetState_proper a k x : Proper ((≡) ==> (≡)) (s_SetState a k x).
Proof.
  intros v w H. unfold s_SetState. destruct (s_ensure_proper a _ _ H).
  split; cbn; auto. intros b j. unfold upd. destruct (b =? a); [|auto]. by destruct (j =? k).
Qed.

#[export] Instance s_Suicide_proper a : Proper ((≡) ==> (≡)) (s_Suicide a).
Proof.
  intros v w H. unfold s_Suicide. rewrite (ve_Exist _ _ H). destruct (vExist w a); [|done].
  destruct H. split; cbn; unfold upd; intros; try (destruct (_ =? a)); auto.
Qed.

#[export] Instance s_setRefund_proper r : Proper ((≡) ==> (≡)) (s_setRefund r).
Proof. intros v w []. by split. Qed.

#[export] Instance s_AddRefund_proper g : Proper ((≡) ==> (≡)) (s_AddRefund g).
Proof. intros v w H. unfold s_AddRefund. by rewrite (ve_Refund _ _ H), H. Qed.

#[export] Instance s_SubRefund_proper g : Proper ((≡) ==> (≡)) (s_SubRefund g).
Proof. intros v w H. unfold s_SubRefund. by rewrite (ve_Refund _ _ H), H. Qed.

#[export] Instance s_AddLog_proper l : Proper ((≡) ==> (≡)) (s_AddLog l).
Proof. intros v w H. split; cbn; try apply H. by rewrite (ve_Logs _ _ H). Qed.

(** ** What leaves the read-only view alone *)

Lemma s_ensure_ro a v : view_ok v -> ro_eq (s_ensure a v) v.
Proof.
  intros [H1 _ _ _]. unfold s_ensure. destruct (vExist v a) eqn:E; [done|].
  destruct (H1 a E) as (?&?&?&?&Hk&?).
  split; cbn; try done; intros b; unfold upd; destruct (Z.eqb_spec b a) as [->|]; auto.
  intros k. by destruct (Hk k).
Qed.

Lemma s_setBalance_same a v : ro_eq (s_setBalance a (vBalance v a) v) v.
Proof. split; cbn; try done. intros b. unfold upd. by destruct (Z.eqb_spec b a) as [->|]. Qed.

Lemma s_AddBalance_ro a v : view_ok v -> ro_eq (s_AddBalance a 0 v) v.
Proof.
  intros H. unfold s_AddBalance. rewrite Z.add_0_r.
  etransitivity; [apply s_setBalance_same|by apply s_ensure_ro].
Qed.

Lemma s_SubBalance_ro a v : view_ok v -> ro_eq (s_SubBalance a 0 v) v.
Proof.
  intros H. unfold s_SubBalance. rewrite Z.sub_0_r.
  etransitivity; [apply s_setBalance_same|by apply s_ensure_ro].
Qed.

Lemma s_CreateAccount_ro a v : view_ok v -> vExist v a = false -> ro_eq (s_CreateAccount a v) v.
Proof.
  intros H E. pose proof (s_ensure_ro a v H) as Hr. unfold s_ensure in Hr.
  unfold s_CreateAccount. by rewrite E in *.
Qed.
End effects_ok.

(** ** The ether of a view

    Balances are not negative, and those of finitely many accounts, which add up
    to [n], are all. *)

Definition sum_balance (v : View) (L : list Address) : Z := foldr (fun a n => vBalance v a + n) 0 L.

Definition ether (v : View) (n : Z) : Prop :=
  (forall a, 0 <= vBalance v a) /\
  exists L, NoDup L /\ (forall a, a ∉ L -> vBalance v a = 0) /\ n = sum_balance v L.

(** No ether comes into being on the way from [v] to [w]. *)
Definition no_mint (v w : View) : Prop := forall n, ether v n -> exists m, m <= n /\ ether w m.

Lemma no_mint_refl v : no_mint v v.
Proof. intros n H. by exists n. Qed.

Lemma no_mint_trans u v w : no_mint u v -> no_mint v w -> no_mint u w.
Proof. intros H1 H2 n (m & Hm & H)%H1. apply H2 in H as (k & Hk & H). exists k. split; [lia|done]. Qed.

Lemma sum_balance_ext v w L : (forall a, a ∈ L -> vBalance v a = vBalance w a) -> sum_balance v L = sum_balance w L.
Proof.
  induction L as [|a L IH]; intros H; cbn; [done|]. rewrite H by left. f_equal. apply IH. intros b Hb. apply H. by right.
Qed.

Lemma ether_same v w n : (forall a, vBalance w a = vBalance v a) -> ether v n -> ether w n.
Proof.
  intros H (Hn & L & HL & Ho & ->). split; [intros a; by rewrite H|].
  exists L. split; [done|]. split; [intros a Ha; rewrite H; by apply Ho|]. apply sum_balance_ext. intros a _. by rewrite H.
Qed.

Lemma no_mint_same v w : (forall a, vBalance w a = vBalance v a) -> no_mint v w.
Proof. intros H n Hn. exists n. split; [done|by eapply ether_same]. Qed.

Lemma sum_balance_set v a x L :
  NoDup L -> a ∈ L -> sum_balance (s_setBalance a x v) L = sum_balance v L - vBalance v a + x.
Proof.
  induction L as [|b L IH]; intros HL Ha; [by apply not_elem_of_nil in Ha|].
  apply NoDup_cons in HL as [Hb HL].
  assert (forall u, sum_balance u (b :: L) = vBalance u b + sum_balance u L) as E by done. rewrite !E. clear E.
  change (vBalance (s_setBalance a x v) b) with (upd (vBalance v) a x b). unfold upd. destruct (Z.eqb_spec b a) as [->|Hne].
  - rewrite (sum_balance_ext (s_setBalance a x v) v L); [lia|]. intros c Hc. cbn. rewrite upd_ne; [done|]. by intros ->.
  - apply elem_of_cons in Ha as [->|Ha]; [done|]. rewrite (IH HL Ha). lia.
Qed.

Lemma ether_set v a x n : 0 <= x -> ether v n -> ether (s_setBalance a x v) (n - vBalance v a + x).
Proof.
  intros Hx (Hn & L & HL & Ho & ->). split; [intros b; cbn; unfold upd; by destruct (b =? a)|].
  destruct (decide (a ∈ L)) as [Ha|Ha].
  - exists L. split; [done|]. split; [|by rewrite sum_balance_set].
    intros b Hb. cbn. rewrite upd_ne; [by apply Ho|]. by intros ->.
  - exists (a :: L). split; [by apply NoDup_cons|]. split.
    + intros b Hb. cbn. rewrite upd_ne; [apply Ho; intros Hb'; apply Hb; by right|]. intros ->. apply Hb. left.
    + rewrite sum_balance_set;
        [change (sum_balance v (a :: L)) with (vBalance v a + sum_balance v L); rewrite (Ho a Ha); lia|by apply NoDup_cons|left].
Qed.

Lemma no_mint_burn v a x : 0 <= x <= vBalance v a -> no_mint v (s_setBalance a x v).
Proof. intros Hx n H. eexists. split; [|apply ether_set; [lia|exact H]]. lia. Qed.

Section mint.
Context {K : Keccak}.

Lemma s_ensure_balance a v b : view_ok v -> vBalance (s_ensure a v) b = vBalance v b.
Proof. intros H. apply (ro_Balance _ _ (s_ensure_ro a v H)). Qed.

Lemma no_mint_ensure a v : view_ok v -> no_mint v (s_ensure a v).
Proof. intros H. apply no_mint_same. intros b. by apply s_ensure_balance. Qed.

Lemma ether_AddBalance a x v n : view_ok v -> 0 <= x -> ether v n -> ether (s_AddBalance a x v) (n + x).
Proof.
  intros H Hx Hn. pose proof (proj1 Hn a). unfold s_AddBalance. rewrite s_ensure_balance by done.
  apply (ether_same v (s_ensure a v)) in Hn; [|intros b; by apply s_ensure_balance].
  apply (ether_set _ a (vBalance v a + x)) in Hn; [|lia]. rewrite s_ensure_balance in Hn by done.
  by replace (n + x) with (n - vBalance v a + (vBalance v a + x)) by lia.
Qed.

Lemma ether_SubBalance a x v n : view_ok v -> x <= vBalance v a -> ether v n -> ether (s_SubBalance a x v) (n - x).
Proof.
  intros H Hx Hn. unfold s_SubBalance. rewrite s_ensure_balance by done.
  apply (ether_same v (s_ensure a v)) in Hn; [|intros b; by apply s_ensure_balance].
  apply (ether_set _ a (vBalance v a - x)) in Hn; [|lia]. rewrite s_ensure_balance in Hn by done.
  by replace (n - x) with (n - vBalance v a + (vBalance v a - x)) by lia.
Qed.

Lemma s_CreateAccount_balance a v b : view_ok v -> vBalance (s_CreateAccount a v) b = vBalance v b.
Proof.
  intros H. cbn. unfold upd. destruct (Z.eqb_spec b a) as [->|]; [|done].
  destruct (vExist v a) eqn:E; [done|]. symmetry. apply (vo_absent _ H a E).
Qed.

Lemma no_mint_CreateAccount a v : view_ok v -> no_mint v (s_CreateAccount a v).
Proof. intros H. apply no_mint_same. intros b. by apply s_CreateAccount_balance. Qed.

(** An amount that [CanTransfer] would let pass; nothing needs no check. *)
Definition affordable (x : Z) (v : View) (a : Address) : Prop := 0 <= x /\ (x <> 0 -> x <= vBalance v a).

Lemma no_mint_Transfer a b x v :
  view_ok v -> affordable x v a -> no_mint v (s_AddBalance b x (s_SubBalance a x v)).
Proof.
  intros H [Hx0 Hx] n Hn. pose proof (proj1 Hn a) as Hpos. assert (x <= vBalance v a) as Hxa by lia.
  exists (n - x + x). split; [lia|]. apply ether_AddBalance; [by apply s_SubBalance_ok|done|by apply ether_SubBalance].
Qed.

(** Giving all one has to [b] and destructing oneself. *)
Lemma no_mint_Suicide a b v :
  view_ok v -> no_mint v (s_Suicide a (s_AddBalance b (vBalance v a) v)).
Proof.
  intros H n Hn. pose proof (proj1 Hn a). pose proof (proj1 Hn b). set (x := vBalance v a). set (w := s_AddBalance b x v).
  assert (view_ok w) as Hw by by apply s_AddBalance_ok.
  assert (ether w (n + x)) as E1 by (apply ether_AddBalance; [done|unfold x; lia|done]).
  assert (x <= vBalance w a) as Hxa.
  { unfold w, s_AddBalance. cbn. unfold upd. rewrite !s_ensure_balance by done.
    destruct (Z.eqb_spec a b) as [->|]; unfold x; lia. }
  unfold s_Suicide. destruct (vExist w a) eqn:Ex.
  - exists (n + x - vBalance w a + 0). split; [lia|]. apply (ether_set w a 0) in E1; [|done].
    destruct E1 as [P1 (L & P2 & P3 & ->)]. split; [exact P1|]. by exists L.
  - exists (n + x). split; [|done]. rewrite (proj1 (vo_absent _ Hw a Ex)) in Hxa. unfold x in *. lia.
Qed.
End mint.

(** ** The abstract machine as an implementation

    Views with a stack of snapshots: the instance concrete runs use. *)

Record refdb := MkRefdb { r_view : View; r_snaps : list (Z * View); r_next : Z }.

Definition r_do (f : View -> View) (d : refdb) : refdb :=
  MkRefdb (f (r_view d)) (r_snaps d) (r_next d).

Fixpoint r_find (id : Z) (l : list (Z * View)) : option (View * list (Z * View)) :=
  match l with
  | [] => None
  | (i, v) :: l =>
      if i =? id then Some (v, [])
      else match r_find id l with
           | Some (w, pre) => Some (w, (i, v) :: pre)
           | None => None
           end
  end.

#[export] Instance StateDB_ref {K : Keccak} : StateDB := {|
  DB := refdb;
  CreateAccount a := r_do (s_CreateAccount a);
  SubBalance a x := r_do (s_SubBalance a x);
  AddBalance a x := r_do (s_AddBalance a x);
  GetBalance a d := (vBalance (r_view d) a, d);
  GetNonce a d := (vNonce (r_view d) a, d);
  SetNonce a n := r_do (s_SetNonce a n);
  GetCodeHash a d := (vCodeHash (r_view d) a, d);
  GetCode a d := (vCode (r_view d) a, d);
  SetCode a c := r_do (s_SetCode a c);
  GetCodeSize a d := (zlen (vCode (r_view d) a), d);
  AddRefund g := r_do (s_AddRefund g);
  SubRefund g d := if vRefund (r_view d) <? g then Panic PanicRefund else Ok (r_do (s_SubRefund g) d);
  GetRefund d := vRefund (r_view d);
  GetCommittedState a k d := (vCommitted (r_view d) a k, d);
  GetState a k d := (vState (r_view d) a k, d);
  SetState a k x := r_do (s_SetState a k x);
  Suicide a d := (vExist (r_view d) a, r_do (s_Suicide a) d);
  HasSuicided a d := (vSuicided (r_view d) a, d);
  Exist a d := (vExist (r_view d) a, d);
  Empty a d := (vEmpty (r_view d) a, d);
  RevertToSnapshot id d :=
    match r_find id (r_snaps d) with
    | Some (v, l) => Ok (MkRefdb v l (r_next d))
    | None => Panic PanicRevision
    end;
  Snapshot d := (r_next d, MkRefdb (r_view d) (r_snaps d ++ [(r_next d, r_view d)]) (r_next d + 1));
  AddLog l := r_do (s_AddLog l);
  AddPreimage _ _ d := d;
|}.

(** Identifiers ascend and are below [r_next]. *)
Record refdb_ok {K : Keccak} (d : refdb) : Prop := MkRefdbOk {
  rd_view : view_ok (r_view d);
  rd_sorted : StronglySorted (fun p q => p.1 < q.1) (r_snaps d);
  rd_snaps : Forall (fun p => p.1 < r_next d /\ view_ok p.2) (r_snaps d);
}.

Lemma r_find_split l1 id v l2 :
  Forall (fun p => p.1 <> id) l1 -> r_find id (l1 ++ (id, v) :: l2) = Some (v, l1).
Proof.
  induction 1 as [|[i w] l1 Hi Hl IH]; cbn.
  - by rewrite Z.eqb_refl.
  - cbn in Hi. destruct (Z.eqb_spec i id); [done|]. by rewrite IH.
Qed.

Lemma snaps_eq_split l l1 id v l2 :
  snaps_eq l (l1 ++ (id, v) :: l2) ->
  exists m1 w m2, l = m1 ++ (id, w) :: m2 /\ snaps_eq m1 l1 /\ w ≡ v.
Proof.
  intros (m1 & m & Hm1 & Hm & ->)%Forall2_app_inv_r.
  apply Forall2_cons_inv_r in Hm as ([i w] & m2 & [Hi Hw] & Hm2 & ->). cbn in *. subst i.
  by exists m1, w, m2.
Qed.

Lemma sorted_before {A} (l1 l2 : list (Z * A)) p :
  StronglySorted (fun p q => p.1 < q.1) (l1 ++ p :: l2) ->
  Forall (fun q => q.1 < p.1) l1 /\ StronglySorted (fun p q => p.1 < q.1) l1.
Proof.
  induction l1 as [|q l1 IH]; cbn; intros H; [by split; constructor|].
  apply StronglySorted_inv in H as [H1 H2]. apply Forall_app in H2 as [Hq H2].
  apply Forall_cons in H2 as [H2 _]. destruct (IH H1) as [Ha Hb]. split; constructor; auto.
Qed.

Lemma sorted_snoc {A} (l : list (Z * A)) i x :
  StronglySorted (fun p q => p.1 < q.1) l -> Forall (fun p => p.1 < i) l ->
  StronglySorted (fun p q => p.1 < q.1) (l ++ [(i, x)]).
Proof.
  induction 1 as [|p l Hl IH Hp]; cbn; intros Hi; [by repeat constructor|].
  apply Forall_cons in Hi as [Hpi Hi]. constructor; [by apply IH|].
  apply Forall_app. split; [done|]. by repeat constructor.
Qed.

#[export] Instance StateDBSpec_ref {K : Keccak} : StateDBSpec StateDB_ref K.
Proof.
  refine {| db_ok d := refdb_ok (d : refdb); view d := r_view (d : refdb); snaps d := r_snaps (d : refdb) |};
    [by intros d []|..].
  all: try (intros; destruct H as [Hv Hs Hn]).
  all: try (split; [reflexivity|]).
  all: try (by split; [by split|]).
  all: try (by split; [|split; reflexivity]; split; cbn; eauto using s_CreateAccount_ok,
    s_SubBalance_ok, s_AddBalance_ok, s_SetNonce_ok, s_SetCode_ok, s_SetState_ok, s_Suicide_ok).
  all: try (split; [|split; reflexivity]; split; cbn; [|done..]; by destruct Hv; split).
  - split; [|split; reflexivity]. split; cbn; [|done..]. destruct Hv; split; try done. apply u64_range.
  - done.
  - cbn. destruct (vRefund (r_view d) <? g); [done|]. eexists; split; [done|].
    split; [|split; reflexivity]. split; cbn; [|done..]. destruct Hv; split; try done. apply u64_range.
  - cbn. split; [|split; [reflexivity|split; [reflexivity|]]].
    + split; cbn; [done|by apply sorted_snoc; [|eapply Forall_impl; [exact Hn|by intros ? []]]|].
      apply Forall_app; split; [|apply Forall_singleton; cbn; split; [lia|done]].
      eapply Forall_impl; [exact Hn|]. intros p []. split; [lia|done].
    + eapply Forall_impl; [exact Hn|]. by intros ? [].
  - apply snaps_eq_split in H0 as (m1 & w & m2 & E & Hm1 & Hw). cbn in E.
    cbn. rewrite E in *. apply sorted_before in Hs as [Hb Hs]. apply Forall_app in Hn as [Hn1 Hn2].
    apply Forall_cons in Hn2 as [[_ Hw'] _].
    rewrite r_find_split by (eapply Forall_impl; [exact Hb|]; cbn; lia).
    eexists; split; [done|]. split; [by split|]. by split.
Defined.
