(* ===== verification/VmMemFacts.v ===== *)
(** * Facts about memory, memory size and memory gas

    Lemmas on VmMemory and VmGas: sizes do not wrap, windows that were paid for
    are inside the memory, the fee of an expansion is the difference of two total
    fees. *)

From Stdlib Require Import ZArith Lia.
From S2P Require Import Prelude Common Params Uint256 Crypto VmMemory VmAnalysis VmState VmTable VmGas.

(** ** Byte strings *)

Lemma data_ok_nil : data_ok [].
Proof. by split; [constructor|]. Qed.

Lemma Forall_zeros n : Forall is_byte (zeros n).
Proof. apply Forall_replicate. split; lia. Qed.

Lemma data_ok_slice b i j c : data_ok b -> zslice b i j = Some c -> data_ok c.
Proof.
  intros [Hb Hl] H. pose proof (zslice_length _ _ _ _ H).
  apply zslice_inv in H as (? & ? & ? & ->). split; [|lia].
  by apply Forall_take, Forall_drop.
Qed.

Lemma Forall_gocopy (P : Z -> Prop) d s : Forall P d -> Forall P s -> Forall P (gocopy d s).
Proof. intros. unfold gocopy. apply Forall_app. split; [by apply Forall_take|by apply Forall_drop]. Qed.

Lemma zlen_gocopy {A} (d s : list A) : zlen (gocopy d s) = zlen d.
Proof. unfold zlen. by rewrite gocopy_length. Qed.

Lemma zlen_take {A} (l : list A) n : 0 <= n <= zlen l -> zlen (take (Z.to_nat n) l) = n.
Proof. unfold zlen. rewrite length_take. lia. Qed.

Lemma zlen_drop {A} (l : list A) n : 0 <= n <= zlen l -> zlen (drop (Z.to_nat n) l) = zlen l - n.
Proof. unfold zlen. rewrite length_drop. lia. Qed.

(** ** Word sizes *)

Lemma toWordSize_small n : 0 <= n <= MaxUint64 - 31 -> toWordSize n = (n + 31) / 32.
Proof.
  unfold toWordSize. intros H. destruct (Z.ltb_spec (MaxUint64 - 31) n); [lia|].
  rewrite u64_small; [done|u64_lia].
Qed.

(** The rounded size of the interpreter: [SafeMul(toWordSize(memSize), 32)]. *)
Lemma round_words n sz :
  is_u64 n -> SafeMul (toWordSize n) 32 = (sz, false) ->
  sz = 32 * ((n + 31) / 32) /\ n <= sz /\ is_u64 sz.
Proof.
  intros Hn H. assert (n <= MaxUint64 - 31) as Hs.
  { destruct (Z.le_gt_cases n (MaxUint64 - 31)) as [|Hgt]; [done|]. exfalso.
    revert H. unfold toWordSize. destruct (Z.ltb_spec (MaxUint64 - 31) n); [|lia].
    vm_compute. discriminate. }
  rewrite toWordSize_small in H by u64_lia.
  pose proof (Z.div_mod (n + 31) 32 ltac:(lia)). pose proof (Z.mod_pos_bound (n + 31) 32 ltac:(lia)).
  rewrite SafeMul_small in H by u64_lia. injection H as <-. u64_lia.
Qed.

(** ** The memory of a frame *)

Definition max_words : Z := 4294967295.

(** Total fee of a memory of [w] words. *)
Definition total_fee (w : Z) : Z := 3 * w + w * w / 512.

Record mem_ok (m : Memory) (w : Z) : Prop := MkMemOk {
  mo_words : 0 <= w <= max_words;
  mo_len : Memory_Len m = 32 * w;
  mo_fee : lastGasCost m = total_fee w;
  mo_bytes : Forall is_byte (store m);
}.

Lemma total_fee_mono w w' : 0 <= w <= w' -> total_fee w <= total_fee w'.
Proof.
  intros H. unfold total_fee.
  pose proof (Z.div_le_mono (w * w) (w' * w') 512 ltac:(lia) ltac:(nia)). lia.
Qed.

Lemma total_fee_range w : 0 <= w <= max_words -> 0 <= total_fee w < 2 ^ 56.
Proof.
  intros H. unfold total_fee, max_words in *.
  pose proof (Z.div_pos (w * w) 512 ltac:(nia) ltac:(lia)).
  pose proof (Z.div_le_mono (w * w) (4294967295 * 4294967295) 512 ltac:(lia) ltac:(nia)).
  change (4294967295 * 4294967295 / 512) with 36028797002186752 in *.
  change (2 ^ 56) with 72057594037927936. lia.
Qed.

Lemma memory_fee_exact w : 0 <= w <= max_words -> memory_fee w = total_fee w.
Proof.
  intros H. pose proof (total_fee_range w H) as Hr. unfold total_fee, max_words in *.
  unfold memory_fee. change (2 ^ 56) with 72057594037927936 in Hr.
  pose proof (Z.div_pos (w * w) 512 ltac:(nia) ltac:(lia)).
  rewrite (u64_small (w * 3)), (u64_small (w * w)) by (unfold is_u64, two64; nia).
  rewrite u64_small by (unfold is_u64, two64; lia). lia.
Qed.

(** Memory between the charge and [Resize]: the fee of [sz] bytes is recorded. *)
Record mem_paid (m : Memory) (w sz : Z) : Prop := MkMemPaid {
  mp_words : 0 <= w <= max_words;
  mp_size : 0 <= sz <= 32 * max_words;
  mp_len : Memory_Len m = 32 * w;
  mp_fee : lastGasCost m = total_fee (Z.max w (sz / 32));
  mp_bytes : Forall is_byte (store m);
}.

Lemma memoryGasCost_spec m w n k :
  mem_ok m w -> n = 32 * k -> 0 <= k ->
  (32 * max_words < n /\ memoryGasCost m n = (inr ErrGasUintOverflow, m)) \/
  (n <= 32 * max_words /\ exists m',
     memoryGasCost m n = (inl (total_fee (Z.max w k) - total_fee w), m') /\
     store m' = store m /\ mem_paid m' w n).
Proof.
  intros [Hw Hl Hf Hb] -> Hk. pose proof Hw as Hw'. unfold max_words in Hw. unfold memoryGasCost.
  assert (32 * k / 32 = k) as E32 by (rewrite Z.mul_comm; by apply Z.div_mul).
  destruct (Z.eqb_spec (32 * k) 0) as [E|].
  { right. unfold max_words. split; [lia|]. exists m. replace k with 0 by lia. rewrite Z.max_l by lia.
    split; [do 2 f_equal; lia|]. split; [done|]. split; unfold max_words in *; try done; try lia.
    by rewrite Z.mul_0_r, Z.div_0_l, Z.max_l by lia. }
  destruct (Z.ltb_spec 137438953440 (32 * k)).
  { left. unfold max_words. split; [lia|done]. }
  right. unfold max_words. split; [lia|].
  rewrite toWordSize_small by u64_lia.
  replace ((32 * k + 31) / 32) with k
    by (apply (Z.div_unique _ _ _ 31); lia).
  rewrite u64_small by u64_lia. rewrite Hl, memory_fee_exact by (unfold max_words; lia).
  destruct (Z.ltb_spec (32 * w) (k * 32)).
  - rewrite Z.max_r by lia. exists (MkMemory (store m) (total_fee k)). split; [|split; [done|]].
    + rewrite Hf, u64_small; [done|]. pose proof (total_fee_mono w k ltac:(lia)).
      pose proof (total_fee_range w Hw'). pose proof (total_fee_range k ltac:(unfold max_words; lia)).
      unfold is_u64, two64. lia.
    + split; cbn; unfold max_words in *; try done; try lia. by rewrite E32, Z.max_r by lia.
  - rewrite Z.max_l by lia. exists m. rewrite Z.sub_diag. split; [done|]. split; [done|].
    split; unfold max_words in *; try done; try lia. by rewrite E32, Z.max_l by lia.
Qed.

Lemma Resize_paid m w k :
  mem_paid m w (32 * k) -> 0 <= k ->
  mem_ok (if 0 <? 32 * k then Resize m (32 * k) else m) (Z.max w k).
Proof.
  intros [Hw Hs Hl Hf Hb] Hk. unfold max_words in *.
  replace (32 * k / 32) with k in Hf by (symmetry; rewrite Z.mul_comm; by apply Z.div_mul).
  destruct (Z.ltb_spec 0 (32 * k)).
  - unfold Resize. rewrite Hl. destruct (Z.ltb_spec (32 * w) (32 * k)).
    + rewrite Z.max_r in * by lia. split; cbn; unfold max_words; try done; try lia.
      * unfold Memory_Len. cbn. rewrite zlen_app, zlen_zeros by lia. unfold Memory_Len in Hl. lia.
      * apply Forall_app. split; [done|apply Forall_zeros].
    + rewrite Z.max_l in * by lia. by split.
  - replace k with 0 in * by lia. rewrite Z.max_l in * by lia. by split.
Qed.

Lemma NewMemory_ok : mem_ok NewMemory 0.
Proof. by split; [unfold max_words; lia|..|constructor]. Qed.

Lemma mem_ok_words_eq m w w' : mem_ok m w -> mem_ok m w' -> w = w'.
Proof. intros [] []. lia. Qed.

(** ** Access to a covered window *)

(** [l] bytes from [o] are inside the memory, or none is asked for. *)
Definition covered (m : Memory) (o l : Z) : Prop := l = 0 \/ (0 <= o /\ 0 < l /\ o + l <= Memory_Len m).

Lemma mem_len_small m w : mem_ok m w -> 0 <= Memory_Len m <= 32 * max_words.
Proof. intros [H1 H2 _ _]. lia. Qed.

Section windows.
Context {U : Uint256} {UL : Uint256Laws U}.

Lemma covered_u64 m w (o l : u256) :
  mem_ok m w -> covered m (U_ToBig o) (U_ToBig l) ->
  U_Uint64 l = U_ToBig l /\ i64 (U_Uint64 l) = U_ToBig l /\ 0 <= U_ToBig l <= 32 * max_words /\
  (U_ToBig l <> 0 -> U_Uint64 o = U_ToBig o /\ i64 (U_Uint64 o) = U_ToBig o).
Proof.
  intros Hm%mem_len_small Hc. unfold max_words in *. pose proof (U_range o). pose proof (U_range l).
  rewrite !U_Uint64_val. destruct Hc as [E|(Ho & Hl & Hol)].
  - rewrite E. repeat split; try done; lia.
  - rewrite !u64_small, !i64_small by u64_lia. repeat split; lia.
Qed.

Lemma GetPtr_covered m w (o l : u256) :
  mem_ok m w -> covered m (U_ToBig o) (U_ToBig l) ->
  exists s, GetPtr m (i64 (U_Uint64 o)) (i64 (U_Uint64 l)) = Ok s /\
    (s = Own [] \/ (s = MemSlice (U_ToBig o) (U_ToBig l) /\ 0 <= U_ToBig o /\ U_ToBig o + U_ToBig l <= Memory_Len m)).
Proof.
  intros Hm Hc. destruct (covered_u64 _ _ _ _ Hm Hc) as (_ & -> & Hl & Ho). unfold GetPtr.
  destruct (Z.eqb_spec (U_ToBig l) 0); [by eauto|]. destruct (Ho n) as [_ ->].
  destruct Hc as [?|(? & ? & Hol)]; [done|]. unfold Memory_Len in Hol.
  destruct (Z.ltb_spec (U_ToBig o) (zlen (store m))); [|lia].
  rewrite zslice_Some by lia. eauto 10.
Qed.

Lemma GetCopy_covered m w (o l : u256) :
  mem_ok m w -> covered m (U_ToBig o) (U_ToBig l) ->
  exists b, GetCopy m (i64 (U_Uint64 o)) (i64 (U_Uint64 l)) = Ok b /\ data_ok b.
Proof.
  intros Hm Hc. destruct (covered_u64 _ _ _ _ Hm Hc) as (_ & -> & Hl & Ho). unfold GetCopy.
  destruct (Z.eqb_spec (U_ToBig l) 0); [by eauto using data_ok_nil|]. destruct (Ho n) as [_ ->].
  destruct Hc as [?|(? & ? & Hol)]; [done|]. unfold Memory_Len in Hol.
  destruct (Z.ltb_spec (U_ToBig o) (zlen (store m))); [|lia].
  rewrite zslice_Some by lia. eexists; split; [done|]. split.
  - apply Forall_gocopy; [apply Forall_zeros|]. apply Forall_take, Forall_drop, (mo_bytes _ _ Hm).
  - rewrite zlen_gocopy, zlen_zeros by lia. unfold max_words, data_max in *. lia.
Qed.
End windows.

Lemma deref_ok m w s :
  mem_ok m w -> (forall b, s = Own b -> data_ok b) -> data_ok (deref m s).
Proof.
  intros Hm Hs. destruct s as [b|o l]; [by apply Hs|]. cbn. split.
  - apply Forall_take, Forall_drop, (mo_bytes _ _ Hm).
  - pose proof (mem_len_small _ _ Hm) as Hl. unfold Memory_Len, zlen, max_words, data_max in *.
    rewrite length_take, length_drop. lia.
Qed.

Lemma copy_range_spec s a b v :
  0 <= a <= b -> b <= zlen s ->
  exists s', copy_range s a b v = Some s' /\ zlen s' = zlen s /\
    (Forall is_byte s -> Forall is_byte v -> Forall is_byte s').
Proof.
  intros Hab Hb. unfold copy_range. rewrite zslice_Some by lia. eexists; split; [done|]. split.
  - rewrite !zlen_app, zlen_gocopy, zlen_take, zlen_drop by lia.
    rewrite zlen_take; [lia|]. rewrite zlen_drop by lia. lia.
  - intros Hs Hv. apply Forall_app. split; [by apply Forall_take|]. apply Forall_app. split.
    + apply Forall_gocopy; [by apply Forall_take, Forall_drop|done].
    + by apply Forall_drop.
Qed.

Lemma mem_ok_store m w s :
  mem_ok m w -> zlen s = zlen (store m) -> Forall is_byte s -> mem_ok (with_store m s) w.
Proof. intros [H1 H2 H3 H4] Hl Hs. split; cbn; try done. unfold Memory_Len in *. cbn. lia. Qed.

Lemma Memory_Set_covered m w o l v :
  mem_ok m w -> is_u64 o -> (l = 0 \/ (0 < l /\ o + l <= Memory_Len m)) -> Forall is_byte v ->
  exists m', Memory_Set m o l v = Ok m' /\ mem_ok m' w.
Proof.
  intros Hm Ho Hc Hv. pose proof (mem_len_small _ _ Hm) as Hl. unfold max_words in Hl.
  unfold Memory_Set. destruct (Z.ltb_spec 0 l); [|by eauto].
  destruct Hc as [?|[_ Hol]]; [lia|]. unfold Memory_Len in *. unfold is_u64 in Ho.
  rewrite u64_small by u64_lia. destruct (Z.ltb_spec (zlen (store m)) (o + l)); [lia|].
  destruct (copy_range_spec (store m) o (o + l) v) as (s' & -> & Hl' & Hb); [lia..|].
  eexists; split; [done|]. apply mem_ok_store; auto. apply Hb; [apply Hm|done].
Qed.

(** The value a [uint256] is written as. *)
Lemma Set32_covered {U : Uint256} {UL : Uint256Laws U} m w o val :
  mem_ok m w -> 0 <= o -> o + 32 <= Memory_Len m ->
  exists m', Set32 m o val = Ok m' /\ mem_ok m' w /\
    store m' = take (Z.to_nat o) (store m) ++ be_bytes 32 (U_ToBig val) ++ drop (Z.to_nat (o + 32)) (store m).
Proof.
  intros Hm Ho Hol. pose proof (mem_len_small _ _ Hm) as Hl. unfold max_words in Hl.
  unfold Set32, Memory_Len in *. rewrite u64_small by u64_lia.
  destruct (Z.ltb_spec (zlen (store m)) (o + 32)); [lia|].
  unfold copy_range. rewrite zslice_Some by lia.
  set (mid := gocopy _ _). assert (zlen mid = 32) as Hmid.
  { unfold mid. rewrite zlen_gocopy. rewrite zlen_take; [lia|]. rewrite zlen_drop by lia. lia. }
  set (s := take _ _ ++ _). assert (zlen s = zlen (store m)) as Hs.
  { unfold s. rewrite !zlen_app, zlen_take, zlen_drop, Hmid by lia. lia. }
  rewrite zslice_Some by lia. eexists. split; [done|].
  assert (length (take (Z.to_nat o) (store m)) = Z.to_nat o) as Ht.
  { rewrite length_take. unfold zlen in *. lia. }
  assert (take (Z.to_nat o) s = take (Z.to_nat o) (store m)) as E1.
  { unfold s. rewrite <- Ht at 1. by rewrite take_app_length. }
  assert (take (Z.to_nat (zlen s - o)) (drop (Z.to_nat o) s) = mid ++ drop (Z.to_nat (o + 32)) (store m)) as E2.
  { rewrite take_ge by (rewrite length_drop; unfold zlen; lia).
    unfold s. rewrite <- Ht at 1. by rewrite drop_app_length. }
  rewrite E1, E2.
  rewrite U_WriteToSlice_val by (rewrite zlen_app, Hmid; pose proof (zlen_nonneg (drop (Z.to_nat (o + 32)) (store m))); lia).
  assert (drop 32 (mid ++ drop (Z.to_nat (o + 32)) (store m)) = drop (Z.to_nat (o + 32)) (store m)) as E3.
  { replace 32%nat with (length mid) by (unfold zlen in Hmid; lia). by rewrite drop_app_length. }
  rewrite E3. split; [|done]. apply mem_ok_store; [done| |].
  - rewrite !zlen_app, zlen_take, zlen_drop, zlen_be_bytes by lia. lia.
  - apply Forall_app. split; [apply Forall_take, Hm|].
    apply Forall_app. split; [apply be_bytes_is_byte|apply Forall_drop, Hm].
Qed.

Lemma getData_ok b start size :
  data_ok b -> is_u64 start -> 0 <= size <= data_max ->
  exists d, getData b start size = Ok d /\ data_ok d.
Proof.
  intros [Hb Hl] Hs Hz. unfold data_max in *. pose proof (zlen_nonneg b). unfold getData.
  rewrite (u64_small (zlen b)) by u64_lia.
  set (st := if zlen b <? start then zlen b else start).
  assert (0 <= st <= zlen b) as Hst.
  { unfold st, is_u64 in *. destruct (Z.ltb_spec (zlen b) start); lia. }
  rewrite u64_small by u64_lia.
  set (en := if zlen b <? st + size then zlen b else st + size).
  assert (st <= en <= zlen b) as Hen by (unfold en; destruct (Z.ltb_spec (zlen b) (st + size)); lia).
  rewrite zslice_Some by lia. rewrite i64_small by (unfold two63; lia).
  eexists; split; [done|]. unfold RightPadBytes.
  set (d := take _ _). assert (Forall is_byte d) by (by apply Forall_take, Forall_drop).
  assert (zlen d <= zlen b). { unfold d, zlen. rewrite length_take, length_drop. lia. }
  case_match; [split; [done|unfold data_max; lia]|].
  split; [apply Forall_gocopy; [apply Forall_zeros|done]|].
  rewrite zlen_gocopy, zlen_zeros by lia. unfold data_max. lia.
Qed.
