(* ===== verification/VmTableOk.v ===== *)
(** * Well-formed jump tables

    What the interpreter relies on in a table entry, as a decidable check
    [op_ok]: stack bounds that fit the instruction, the memory size function of
    the operands the instruction uses, gas that pays for that memory and for the
    round, write protection.  All instruction sets pass it, with any EIPs
    enabled on top. *)

From Stdlib Require Import ZArith Lia.
From S2P Require Import Prelude Common Params Uint256 VmMemory VmTable.

Open Scope go_scope.

(** ** Stack effect, memory and gas of the functions *)

Definition pops (x : execFn) : Z :=
  match x with
  | X_opAdd | X_opSub | X_opMul | X_opDiv | X_opSdiv | X_opMod | X_opSmod | X_opExp | X_opSignExtend
  | X_opLt | X_opGt | X_opSlt | X_opSgt | X_opEq | X_opAnd | X_opOr | X_opXor | X_opByte
  | X_opSHL | X_opSHR | X_opSAR | X_opSha3 | X_opMstore | X_opMstore8 | X_opSstore | X_opJumpi
  | X_opReturn | X_opRevert => 2
  | X_opAddmod | X_opMulmod | X_opCallDataCopy | X_opCodeCopy | X_opReturnDataCopy | X_opCreate => 3
  | X_opExtCodeCopy | X_opCreate2 => 4
  | X_opCall | X_opCallCode => 7
  | X_opDelegateCall | X_opStaticCall => 6
  | X_opNot | X_opIszero | X_opBalance | X_opCallDataLoad | X_opExtCodeSize | X_opExtCodeHash
  | X_opBlockhash | X_opPop | X_opMload | X_opSload | X_opJump | X_opJumpSub | X_opSuicide => 1
  | X_makeLog n => n + 2
  | X_makeDup n => n
  | X_makeSwap n => n + 1
  | X_opStop | X_opAddress | X_opOrigin | X_opCaller | X_opCallValue | X_opCallDataSize | X_opCodeSize
  | X_opGasprice | X_opReturnDataSize | X_opCoinbase | X_opTimestamp | X_opNumber | X_opDifficulty
  | X_opGasLimit | X_opPc | X_opMsize | X_opGas | X_opJumpdest | X_opBeginSub | X_opReturnSub
  | X_opPush1 | X_makePush _ _ | X_opSelfBalance | X_opChainID => 0
  end.

Definition pushes (x : execFn) : Z :=
  match x with
  | X_opStop | X_opCallDataCopy | X_opCodeCopy | X_opReturnDataCopy | X_opExtCodeCopy | X_opPop
  | X_opMstore | X_opMstore8 | X_opSstore | X_opJump | X_opJumpi | X_opJumpdest | X_opBeginSub
  | X_opJumpSub | X_opReturnSub | X_opReturn | X_opRevert | X_opSuicide | X_makeLog _ => 0
  | X_makeDup n => n + 1
  | X_makeSwap n => n + 1
  | _ => 1
  end.

(** The memory size function of the windows an instruction uses. *)
Definition mem_for (x : execFn) : option memFn :=
  match x with
  | X_opSha3 => Some S_memorySha3
  | X_opCallDataCopy => Some S_memoryCallDataCopy
  | X_opReturnDataCopy => Some S_memoryReturnDataCopy
  | X_opCodeCopy => Some S_memoryCodeCopy
  | X_opExtCodeCopy => Some S_memoryExtCodeCopy
  | X_opMload => Some S_memoryMLoad
  | X_opMstore => Some S_memoryMStore
  | X_opMstore8 => Some S_memoryMStore8
  | X_opCreate => Some S_memoryCreate
  | X_opCreate2 => Some S_memoryCreate2
  | X_opCall | X_opCallCode => Some S_memoryCall
  | X_opDelegateCall => Some S_memoryDelegateCall
  | X_opStaticCall => Some S_memoryStaticCall
  | X_opReturn => Some S_memoryReturn
  | X_opRevert => Some S_memoryRevert
  | X_makeLog _ => Some S_memoryLog
  | _ => None
  end.

(** Gas functions that charge for the memory. *)
Definition charges_mem (g : gasFn) : bool :=
  match g with
  | G_gasSStore | G_gasSStoreEIP2200 | G_gasExpFrontier | G_gasExpEIP158 | G_gasSelfdestruct => false
  | _ => true
  end.

(** Stack elements a gas function reads. *)
Definition gas_reads (g : gasFn) : Z :=
  match g with
  | G_gasSStore | G_gasSStoreEIP2200 | G_gasSha3 | G_gasExpFrontier | G_gasExpEIP158 | G_makeGasLog _ => 2
  | G_gasCallDataCopy | G_gasCodeCopy | G_gasReturnDataCopy | G_gasCreate2 | G_gasCall | G_gasCallCode => 3
  | G_gasExtCodeCopy => 4
  | G_gasDelegateCall | G_gasStaticCall | G_gasSelfdestruct => 1
  | _ => 0
  end.

(** A lower bound of the dynamic gas. *)
Definition gas_min (g : option gasFn) : Z :=
  match g with
  | Some G_gasSStore => 200
  | Some G_gasSStoreEIP2200 => 800
  | Some (G_gasExpFrontier | G_gasExpEIP158) => 10
  | Some (G_makeGasLog _) => 375
  | _ => 0
  end.

Definition is_call (x : execFn) : bool :=
  match x with X_opCall | X_opCallCode | X_opDelegateCall | X_opStaticCall => true | _ => false end.
Definition is_create (x : execFn) : bool :=
  match x with X_opCreate | X_opCreate2 => true | _ => false end.

Definition is_push (x : execFn) : bool := match x with X_makePush _ _ => true | _ => false end.

(** Instructions that change the state themselves. *)
Definition writes_state (x : execFn) : bool :=
  match x with
  | X_opSstore | X_opSuicide | X_opCreate | X_opCreate2 | X_makeLog _ => true
  | _ => false
  end.

(** The gas function a call needs: it records the callee's gas. *)
Definition call_gas_for (x : execFn) : option gasFn :=
  match x with
  | X_opCall => Some G_gasCall
  | X_opCallCode => Some G_gasCallCode
  | X_opDelegateCall => Some G_gasDelegateCall
  | X_opStaticCall => Some G_gasStaticCall
  | _ => None
  end.

Definition params_ok (x : execFn) : bool :=
  match x with
  | X_makeLog n => (0 <=? n) && (n <=? 4)
  | X_makePush s p => (0 <=? p) && (p <=? 32)
  | X_makeDup n | X_makeSwap n => 1 <=? n
  | _ => true
  end.

Definition gas_params_ok (g : option gasFn) : bool :=
  match g with
  | Some (G_makeGasLog n) => (0 <=? n) && (n <=? 4)
  | _ => true
  end.

(** Gas functions that change refunds are for writing instructions. *)
Definition gas_writes (g : option gasFn) : bool :=
  match g with
  | Some (G_gasSStore | G_gasSStoreEIP2200 | G_gasSelfdestruct) => true
  | _ => false
  end.

(** ** The check of an entry *)

Definition implb' (a b : bool) : bool := negb a || b.

Definition op_ok (op : Z) (o : operation) : bool :=
  let x := execute o in
  (pops x <=? op_minStack o)
  && (op_maxStack o <=? StackLimit + pops x - pushes x)
  && params_ok x && gas_params_ok (dynamicGas o)
  && bool_decide (memorySize o = mem_for x)
  && match memorySize o with
     | None => true
     | Some _ => match dynamicGas o with Some g => charges_mem g | None => false end
     end
  && match dynamicGas o with
     | None => true
     | Some g =>
         (gas_reads g <=? op_minStack o)
         && implb' (charges_mem g) (bool_decide (memorySize o <> None))
     end
  && (0 <=? constantGas o) && (constantGas o <=? 1000000)
  && (halts o || reverts o || (1 <=? constantGas o + gas_min (dynamicGas o)))
  && implb' (is_call x) (bool_decide (dynamicGas o = call_gas_for x) && (1 <=? constantGas o))
  && implb' (is_create x) (1 <=? constantGas o)
  && implb' (writes_state x || gas_writes (dynamicGas o)) (writes o)
  && implb' (bool_decide (x = X_opCall)) (op =? Op.CALL)
  && implb' (op =? Op.CALL) (3 <=? op_minStack o)
  && implb' (is_push x) (negb (op =? Op.STOP))
  && implb' (op =? Op.SSTORE) (bool_decide (x = X_opSstore) && writes o).

(** A table all of whose entries pass. *)
Definition jt_ok (jt : Z -> option operation) : Prop :=
  forall op o, jt op = Some o -> op_ok op o = true.

(** ** Tables in the heap *)

(** No pointer points past the allocated cells, and every entry passes. *)
Definition heap_wf (h : heap) : Prop := forall p o, cells h !! p = Some o -> p < next h.

Definition table_ok (h : heap) (jt : JumpTable) : Prop :=
  (forall op p, jt !! op = Some p -> p < next h) /\ jt_ok (table h jt).

Lemma table_Some h jt op o :
  table h jt op = Some o <-> exists p, jt !! op = Some p /\ cells h !! p = Some o.
Proof.
  unfold table. destruct (jt !! op) as [p|]; cbn; split; [eauto|by intros (? & [= ->] & ?)|done|by intros (? & ? & ?)].
Qed.

Lemma table_ok_alloc h jt o :
  table_ok h jt -> table_ok (MkHeap (<[next h := o]> (cells h)) (next h + 1)) jt.
Proof.
  intros [Hp Ht]. split; cbn.
  - intros op p E. specialize (Hp op p E). lia.
  - intros op o' (p & Ep & Eo)%table_Some. cbn in Eo. apply (Ht op). apply table_Some.
    exists p. split; [done|]. rewrite lookup_insert_ne in Eo; [done|]. specialize (Hp _ _ Ep). lia.
Qed.

Lemma heap_wf_alloc h o : heap_wf h -> heap_wf (MkHeap (<[next h := o]> (cells h)) (next h + 1)).
Proof.
  intros Hh p o'. cbn. destruct (decide (p = next h)) as [->|]; [lia|].
  rewrite lookup_insert_ne by done. intros E. specialize (Hh _ _ E). lia.
Qed.

(** The tables [ts] that share the heap, and the one being built. *)
Definition tables_ok (h : heap) (ts : list JumpTable) : Prop :=
  heap_wf h /\ Forall (table_ok h) ts.

(** [set_op] keeps the other tables; its result passes when the entry does. *)
Lemma set_op_ok h ts jt op o jt' h' :
  set_op jt op o h = Ok (jt', h') -> op_ok op o = true ->
  tables_ok h (jt :: ts) -> tables_ok h' (jt' :: ts).
Proof.
  intros [= <- <-] Ho [Hh [Hjt Hts]%Forall_cons]. split; [by apply heap_wf_alloc|].
  apply Forall_cons. split.
  - destruct (table_ok_alloc h jt o Hjt) as [Hp Ht]. split; cbn.
    + intros q p. destruct (decide (q = op)) as [->|]; [rewrite lookup_insert; case_decide; [intros [= <-]; lia|done]|].
      rewrite lookup_insert_ne by done. intros E. apply (proj1 Hjt) in E. lia.
    + intros q o' (p & Ep & Eo)%table_Some. destruct (decide (q = op)) as [->|].
      * rewrite lookup_insert in Ep. case_decide; [|done]. injection Ep as <-. cbn in Eo.
        rewrite lookup_insert in Eo. case_decide; [|done]. by injection Eo as <-.
      * rewrite lookup_insert_ne in Ep by done. apply (Ht q). apply table_Some. eauto.
  - eapply Forall_impl; [exact Hts|]. intros. by apply table_ok_alloc.
Qed.

(** A change of a cell that keeps passing entries passing keeps all tables. *)
Lemma update_op_ok h ts jt op f r h' :
  update_op jt op f h = Ok (r, h') ->
  (forall o, op_ok op o = true -> forall q, op_ok q o = true -> op_ok q (f o) = true) ->
  tables_ok h (jt :: ts) -> tables_ok h' (jt :: ts).
Proof.
  unfold update_op, bind, lift_opt, get, put, ret, raise. intros Hu Hf [Hh Hts].
  destruct (jt !! op) as [p|] eqn:Ep; [|done]. destruct (cells h !! p) as [o|] eqn:Eo; [|done].
  injection Hu as <- <-.
  assert (op_ok op o = true) as Hop.
  { apply Forall_cons in Hts as [[_ Ht] _]. apply (Ht op). apply table_Some. eauto. }
  split.
  - intros p' o'. cbn. destruct (decide (p' = p)) as [->|]; [intros _; eauto|].
    rewrite lookup_insert_ne by done. apply Hh.
  - eapply Forall_impl; [exact Hts|]. intros t [Htp Ht]. split; cbn; [done|].
    intros q o' (p' & Ep' & Eo')%table_Some. cbn in Eo'.
    destruct (decide (p' = p)) as [->|].
    + rewrite lookup_insert in Eo'. case_decide; [|done]. injection Eo' as <-. apply Hf; [done|].
      apply (Ht q). apply table_Some. eauto.
    + rewrite lookup_insert_ne in Eo' by done. apply (Ht q). apply table_Some. eauto.
Qed.

(** Entries stay well formed under the two kinds of update. *)
Lemma op_ok_constantGas g op o :
  (1 <=? g) && (g <=? 1000000) = true -> op_ok op o = true -> op_ok op (set_constantGas g o) = true.
Proof.
  intros Hg H. unfold op_ok in *. cbn.
  repeat match type of H with _ && _ = true => let H' := fresh in apply andb_true_iff in H as [H H'] end.
  apply andb_true_iff in Hg as [Hg1 Hg2].
  repeat (apply andb_true_iff; split); try done.
  - apply Z.leb_le in Hg1. apply Z.leb_le. lia.
  - apply Z.leb_le in Hg1. destruct (halts o), (reverts o); try done. cbn.
    apply Z.leb_le. assert (0 <= gas_min (dynamicGas o)) by (destruct (dynamicGas o) as [[]|]; cbn; lia). lia.
  - match goal with H : implb' (is_call _) _ = true |- _ => revert H end.
    unfold implb'. rewrite Hg1, andb_true_r. destruct (is_call (execute o)); [|done].
    by intros [? _]%andb_true_iff.
  - by destruct (is_create (execute o)).
Qed.

Lemma op_ok_2200 op o :
  op_ok Op.SSTORE o = true -> op_ok op o = true -> op_ok op (set_dynamicGas G_gasSStoreEIP2200 o) = true.
Proof.
  intros Hs H. assert (execute o = X_opSstore /\ writes o = true) as [E Ew].
  { unfold op_ok in Hs. apply andb_true_iff in Hs as [_ Hs]. cbn in Hs.
    apply andb_true_iff in Hs as [Hs Hw]. by apply bool_decide_eq_true in Hs. }
  unfold op_ok in *. cbn. rewrite E in *. cbn in *. rewrite Ew in *.
  repeat match type of H with _ && _ = true => let H' := fresh in apply andb_true_iff in H as [H H'] end.
  match goal with H : bool_decide (memorySize o = _) = true |- _ =>
    apply bool_decide_eq_true in H; rewrite H in *; cbn in * end.
  repeat (apply andb_true_iff; split); try done.
  destruct (halts o), (reverts o); try done. cbn. apply Z.leb_le.
  match goal with H : (0 <=? constantGas o) = true |- _ => apply Z.leb_le in H; lia end.
Qed.

(** Inverting a sequence of heap operations. *)
Lemma bind_Ok {S A B} (m : M S A) (f : A -> M S B) s r :
  bind m f s = Ok r -> exists a s', m s = Ok (a, s') /\ f a s' = Ok r.
Proof. unfold bind. destruct (m s) as [[a s']|p|]; [eauto|done|done]. Qed.

Ltac heap_steps :=
  repeat match goal with
  | H : bind _ _ _ = Ok _ |- _ =>
      apply bind_Ok in H as (? & ? & ? & H)
  | H : update_op _ _ _ _ = Ok _, T : tables_ok _ _ |- _ =>
      eapply update_op_ok in T; [|exact H|]; clear H;
      [|first [intros; by apply op_ok_constantGas | intros; by apply op_ok_2200]]
  | H : set_op _ _ _ _ = Ok _, T : tables_ok _ _ |- _ =>
      eapply set_op_ok in T; [|exact H|reflexivity]; clear H
  | H : ret _ _ = Ok _ |- _ => injection H as <- <-
  end.

Lemma activators_ok eip f h ts jt jt' h' :
  activators eip = Some f -> f jt h = Ok (jt', h') ->
  tables_ok h (jt :: ts) -> tables_ok h' (jt' :: ts).
Proof.
  unfold activators. intros Hf E T.
  repeat match goal with H : (if ?b then _ else _) = Some _ |- _ => destruct b end;
    [..|done]; injection Hf as <-;
    unfold enable2200, enable1884, enable1344, enable2315 in E; heap_steps; exact T.
Qed.

Lemma tables_ok_perm h ts ts' : tables_ok h ts -> ts' ⊆ ts -> tables_ok h ts'.
Proof.
  intros [Hh Hts] Hs. split; [done|]. rewrite Forall_forall in *. eauto.
Qed.

Lemma extra_eips_ok k : forall i arr n jt h ts arr' n' jt' h',
  extra_eips k i arr n jt h = Ok (arr', n', jt', h') ->
  tables_ok h (jt :: ts) -> tables_ok h' (jt' :: ts).
Proof.
  induction k as [|k IH]; intros i arr n jt h ts arr' n' jt' h' E T; cbn in E.
  - by injection E as _ _ <- <-.
  - apply bind_Ok in E as (eip & s1 & E1 & E).
    assert (s1 = h) as -> by (unfold lift_opt in E1; destruct (zget arr i); [by injection E1|done]).
    apply bind_Ok in E as (r & s2 & E2 & E). unfold EnableEIP in E2.
    destruct (activators eip) as [f|] eqn:Ea.
    + apply bind_Ok in E2 as (jt2 & s3 & E2 & E3). injection E3 as <- <-.
      eapply IH; [exact E|]. by eapply activators_ok.
    + injection E2 as <- <-. apply bind_Ok in E as (tl & s3 & E3 & E).
      assert (s3 = h) as ->. { unfold lift_opt in E3. destruct (zslice arr (i + 1) n); [by injection E3|done]. }
      by eapply IH.
Qed.

(** ** The instruction sets *)

Definition all_sets (g : instructionSets) : list JumpTable :=
  [frontierInstructionSet g; homesteadInstructionSet g; tangerineWhistleInstructionSet g;
   spuriousDragonInstructionSet g; byzantiumInstructionSet g; constantinopleInstructionSet g;
   istanbulInstructionSet g; yoloV1InstructionSet g].

(** The check of a table, as a computation over its entries. *)
Definition check_table (h : heap) (jt : JumpTable) : bool :=
  forallb (fun e => (snd e <? next h) &&
             match cells h !! snd e with Some o => op_ok (fst e) o | None => true end) (map_to_list jt).

Lemma check_table_ok h jt : check_table h jt = true -> table_ok h jt.
Proof.
  unfold check_table. rewrite forallb_forall. intros H. split.
  - intros op p E. apply elem_of_map_to_list, list_elem_of_In, H in E. cbn in E.
    apply andb_true_iff in E as [E _]. by apply Z.ltb_lt.
  - intros op o (p & Ep & Eo)%table_Some. apply elem_of_map_to_list, list_elem_of_In, H in Ep. cbn in Ep.
    apply andb_true_iff in Ep as [_ Ep]. by rewrite Eo in Ep.
Qed.

Definition check_heap (h : heap) : bool :=
  forallb (fun e => fst e <? next h) (map_to_list (cells h)).

Lemma check_heap_ok h : check_heap h = true -> heap_wf h.
Proof.
  unfold check_heap. rewrite forallb_forall. intros H p o E. apply elem_of_map_to_list, list_elem_of_In, H in E. by apply Z.ltb_lt.
Qed.

Definition check_sets (r : outcome (instructionSets * heap)) : bool :=
  match r with
  | Ok (g, h) => check_heap h && forallb (check_table h) (all_sets g)
  | _ => false
  end.

Lemma check_init : check_sets (init_sets heap0) = true.
Proof. vm_compute. reflexivity. Qed.

Lemma init_sets_ok g h : init_sets heap0 = Ok (g, h) -> tables_ok h (all_sets g).
Proof.
  intros E. pose proof check_init as H. rewrite E in H.
  apply andb_true_iff in H as [H1 H2]. split; [by apply check_heap_ok|].
  rewrite Forall_forall. intros jt Hjt. apply check_table_ok.
  rewrite forallb_forall in H2. by apply H2, list_elem_of_In.
Qed.

Lemma select_set_in r g : select_set r g ∈ all_sets g.
Proof. unfold select_set, all_sets. repeat case_match; set_solver. Qed.

(** The heaps a process can reach by creating interpreters. *)
Inductive reachable (g : instructionSets) : heap -> Prop :=
| reach_init h : init_sets heap0 = Ok (g, h) -> reachable g h
| reach_new h h' r eips res :
    reachable g h -> NewEVMInterpreter g r eips h = Ok (res, h') -> reachable g h'.

Lemma NewEVMInterpreter_ok g h r eips jt ex h' :
  tables_ok h (all_sets g) -> NewEVMInterpreter g r eips h = Ok ((jt, ex), h') ->
  tables_ok h' (jt :: all_sets g).
Proof.
  intros T E. apply bind_Ok in E as ([[arr n] jt'] & s & E & E').
  injection E' as <- _ <-. eapply extra_eips_ok; [exact E|].
  eapply tables_ok_perm with (ts := all_sets g); [exact T|].
  intros t [->|Ht]%elem_of_cons; [apply select_set_in|done].
Qed.

Lemma reachable_ok g h : reachable g h -> tables_ok h (all_sets g).
Proof.
  induction 1 as [h H|h h' r eips [jt ex] _ IH E]; [by apply init_sets_ok|].
  eapply tables_ok_perm; [by eapply NewEVMInterpreter_ok|]. intros t Ht. by apply elem_of_cons; right.
Qed.

(** Every jump table an interpreter is ever given is well formed, for every
    fork, any list of extra EIPs, and any interpreters created before in the same
    process (whose EIPs write through the shared pointers): each entry's stack
    bounds fit its instruction, its memory function covers the operands the
    instruction uses, its gas pays for the memory and at least one unit for a
    round that goes on, instructions that write state are write protected. *)
Theorem interpreter_table_ok g h r eips jt ex h' :
  reachable g h -> NewEVMInterpreter g r eips h = Ok ((jt, ex), h') ->
  jt_ok (table h' jt).
Proof.
  intros Hr E. apply reachable_ok in Hr.
  by destruct (NewEVMInterpreter_ok _ _ _ _ _ _ _ Hr E) as [_ [[_ ?] _]%Forall_cons].
Qed.

Lemma interpreter_table_ok_witness :
  exists g h jt ex h',
    reachable g h /\ NewEVMInterpreter g (Build_RulesT 1 true true true true true true false false false) [1344] h = Ok ((jt, ex), h') /\
    jt_ok (table h' jt).
Proof.
  destruct (init_sets heap0) as [[g h]|p|] eqn:E.
  - eexists g, h, _, _, _. split; [by apply reach_init|]. split; [reflexivity|].
    eapply (interpreter_table_ok g h _ [1344]); [by apply reach_init|reflexivity].
  - exfalso. pose proof check_init as H. rewrite E in H. discriminate H.
  - exfalso. pose proof check_init as H. rewrite E in H. discriminate H.
Defined.

(** Rules of a Constantinople block (not yet Istanbul), and of a Byzantium one. *)
Definition constantinopleRules : RulesT :=
  Build_RulesT 1 true true true true true true false false false.
Definition byzantiumRules : RulesT :=
  Build_RulesT 1 true true true true true false false false false.

(** Evaluating the creation of interpreters one after the other; the result is
    the constant gas of SLOAD in the table of the last one. *)
Fixpoint sload_gas (g : instructionSets) (l : list (RulesT * list Z)) (jt : JumpTable) : M heap (option Z) :=
  match l with
  | [] => h <~ get ;; ret (constantGas <$> table h jt Op.SLOAD)
  | (r, eips) :: l => ' (jt, _) <~ NewEVMInterpreter g r eips ;; sload_gas g l jt
  end.

Definition run_init {A} (k : instructionSets -> M heap A) : outcome A :=
  match init_sets heap0 with
  | Ok (g, h) => match k g h with Ok (a, _) => Ok a | Panic p => Panic p | NoFuel => NoFuel end
  | Panic p => Panic p
  | NoFuel => NoFuel
  end.

(** The extra EIPs of one interpreter change the tables of later ones: after an
    interpreter with EIP-1884 enabled, a Constantinople interpreter without extra
    EIPs charges 800 for SLOAD instead of 200, because [enable1884] writes through
    the pointers of the package-level instruction set. *)
Theorem extra_eip_leaks :
  run_init (fun g => sload_gas g [(constantinopleRules, [])] ∅) = Ok (Some 200) /\
  run_init (fun g => sload_gas g [(constantinopleRules, [1884]); (constantinopleRules, [])] ∅) = Ok (Some 800).
Proof. split; vm_compute; reflexivity. Qed.

(** Enabling EIP-1884 before Constantinople dereferences the nil entry of
    EXTCODEHASH. *)
Theorem eip1884_nil_pointer :
  run_init (fun g => NewEVMInterpreter g byzantiumRules [1884]) = Panic PanicNil.
Proof. vm_compute. reflexivity. Qed.

(** Which opcodes the table of one interpreter has, and its [ExtraEips]. *)
Definition has_ops (r : RulesT) (eips ops : list Z) : outcome (list bool * list Z) :=
  run_init (fun g =>
    ' (jt, ex) <~ NewEVMInterpreter g r eips ;;
    ret (map (fun op => bool_decide (jt !! op <> None)) ops, ex)).

(** An undefined EIP in the list makes the loop skip the one after it, here
    EIP-1344 (opcode CHAINID), although it stays listed; two undefined EIPs panic
    with a slice out of bounds. *)
Theorem undefined_eip_skips_next :
  has_ops constantinopleRules [1; 1344; 2315] [Op.CHAINID; Op.JUMPSUB] = Ok ([false; true], [1344; 2315]) /\
  has_ops constantinopleRules [1; 2] [] = Panic PanicIndex.
Proof. split; vm_compute; reflexivity. Qed.
