(* ===== verification/VmInv.v ===== *)
(** * Invariants of a running EVM

    The invariants of the machine state and the relation between the states
    before and after a piece of code that the safety proofs carry, with their
    proof rules. *)

From Stdlib Require Import ZArith Lia.
From S2P Require Import Prelude Common Params Uint256 Crypto VmMemory VmAnalysis VmState VmContracts VmTable VmGas VmInstr VmInterp VmSpec VmMemFacts VmTableOk.

Open Scope go_scope.

(** Gas amounts the theorems cover.  From about 2^62.7 on the modular
    exponentiation contract can panic (see [bigModExp_Run_panics]). *)
Definition gas_max : Z := 2305843009213693952.   (* 2^61 *)

Section invariants.
Context {U : Uint256} {UL : Uint256Laws U}.
Context {S : StateDB} {K : Keccak} {KI : KeccakInjective K} {SP : StateDBSpec S K}.
Context {C : CryptoPrims} {CL : CryptoLaws C} (env : Env).

(** The shared map holds analyses of the code with the given hash. *)
Definition cache_ok (j : gmap Z bitvec) : Prop :=
  forall h a, j !! h = Some a -> exists code, h = Keccak256Hash code /\ codeBitmap code = Some a.

Record contract_ok (c : Contract) : Prop := MkContractOk {
  co_code : data_ok (Code c);
  co_input : data_ok (Input c);
  co_gas : 0 <= Gas c < gas_max;
  co_analysis : forall a, analysis c = Some a -> codeBitmap (Code c) = Some a;
  co_hash : CodeHash c = 0 \/ CodeHash c = Keccak256Hash (Code c);
}.

Record evm_ok (e : EVM) : Prop := MkEvmOk {
  eo_db : db_ok (statedb e);
  eo_cache : cache_ok (jumpdests e);
  eo_rd : data_ok (returnData e);
  eo_depth : 0 <= depth e <= CallCreateDepth + 1;
}.

(** Write protection is in force. *)
Definition protected (e : EVM) : Prop := readOnly e = true /\ rIsByzantium (chainRules env) = true.

(** What code run from [e] may have changed when it is in [e']. *)
Record ext (e e' : EVM) : Prop := MkExt {
  x_depth : depth e' = depth e;
  x_readOnly : readOnly e' = readOnly e;
  x_snaps : exists l, snaps_eq (snaps (statedb e')) (snaps (statedb e) ++ l);
  x_view : protected e -> ro_eq (view (statedb e')) (view (statedb e));
  x_mint : no_mint (view (statedb e)) (view (statedb e'));
}.

Record frame_ok (f : frame) (w : Z) : Prop := MkFrameOk {
  fo_stack : zlen (stack f) <= StackLimit;
  fo_mem : mem_ok (memory f) w;
  fo_contract : contract_ok (contract f);
  fo_pc : 0 <= pc f;
  fo_rstack : zlen (rstack f) <= 1023;
}.

Definition good (e0 e : EVM) : Prop := evm_ok e /\ ext e0 e.

(** ** Composition *)

Lemma ext_refl e : ext e e.
Proof. split; try done; [|apply no_mint_refl]. exists []. by rewrite app_nil_r. Qed.

Lemma ext_trans e1 e2 e3 : ext e1 e2 -> ext e2 e3 -> ext e1 e3.
Proof.
  intros [D1 R1 [l1 S1] V1 M1] [D2 R2 [l2 S2] V2 M2]. split; try congruence; [| |by eapply no_mint_trans].
  - exists (l1 ++ l2). rewrite S2, app_assoc. by apply Forall2_app.
  - intros Hp. etransitivity; [apply V2|by apply V1]. unfold protected in *. by rewrite R1.
Qed.

Lemma good_refl e : evm_ok e -> good e e.
Proof. split; [done|apply ext_refl]. Qed.

Lemma good_trans e1 e2 e3 : good e1 e2 -> good e2 e3 -> good e1 e3.
Proof. intros [_ H1] [H2 H3]. split; [done|by eapply ext_trans]. Qed.

(** ** Methods of the state database *)

(** Readers. *)
Class Getter {A} (f : DB -> A * DB) : Prop :=
  getter_effect : forall d, db_ok d -> effect id d (snd (f d)).

#[global] Instance g_GetBalance a : Getter (GetBalance a).
Proof. intros d H. by destruct (GetBalance_spec a d H). Qed.
#[global] Instance g_GetNonce a : Getter (GetNonce a).
Proof. intros d H. by destruct (GetNonce_spec a d H). Qed.
#[global] Instance g_GetCodeHash a : Getter (GetCodeHash a).
Proof. intros d H. by destruct (GetCodeHash_spec a d H). Qed.
#[global] Instance g_GetCode a : Getter (GetCode a).
Proof. intros d H. by destruct (GetCode_spec a d H). Qed.
#[global] Instance g_GetCodeSize a : Getter (GetCodeSize a).
Proof. intros d H. by destruct (GetCodeSize_spec a d H). Qed.
#[global] Instance g_GetState a k : Getter (GetState a k).
Proof. intros d H. by destruct (GetState_spec a k d H). Qed.
#[global] Instance g_GetCommittedState a k : Getter (GetCommittedState a k).
Proof. intros d H. by destruct (GetCommittedState_spec a k d H). Qed.
#[global] Instance g_HasSuicided a : Getter (HasSuicided a).
Proof. intros d H. by destruct (HasSuicided_spec a d H). Qed.
#[global] Instance g_Exist a : Getter (Exist a).
Proof. intros d H. by destruct (Exist_spec a d H). Qed.
#[global] Instance g_Empty a : Getter (Empty a).
Proof. intros d H. by destruct (Empty_spec a d H). Qed.
#[global] Instance g_CanTransfer a x : Getter (core_CanTransfer a x).
Proof.
  intros d H. unfold core_CanTransfer. pose proof (g_GetBalance a d H) as E.
  by destruct (GetBalance a d).
Qed.

(** Methods that keep the read-only view, in states that satisfy [P]. *)
Definition quiet (f : DB -> DB) (d : DB) : Prop :=
  exists g, effect g d (f d) /\ ro_eq (g (view d)) (view d).

(** Methods with any effect on the view but more ether. *)
Class Writer (f : DB -> DB) : Prop :=
  writer_effect : forall d, db_ok d -> exists g, effect g d (f d) /\ no_mint (view d) (g (view d)).

#[global] Instance w_CreateAccount a : Writer (CreateAccount a).
Proof. intros d H. eexists. split; [by apply CreateAccount_spec|]. by apply no_mint_CreateAccount, view_wf. Qed.

Lemma no_mint_SetNonce a n v : view_ok v -> no_mint v (s_SetNonce a n v).
Proof. intros H. apply no_mint_same. intros b. by apply (s_ensure_balance a v b). Qed.
Lemma no_mint_SetCode a c v : view_ok v -> no_mint v (s_SetCode a c v).
Proof. intros H. apply no_mint_same. intros b. by apply (s_ensure_balance a v b). Qed.
Lemma no_mint_SetState a k x v : view_ok v -> no_mint v (s_SetState a k x v).
Proof. intros H. apply no_mint_same. intros b. by apply (s_ensure_balance a v b). Qed.

#[global] Instance w_SetNonce a n : Writer (SetNonce a n).
Proof. intros d H. eexists. split; [by apply SetNonce_spec|]. by apply no_mint_SetNonce, view_wf. Qed.
#[global] Instance w_SetState a k x : Writer (SetState a k x).
Proof. intros d H. eexists. split; [by apply SetState_spec|]. by apply no_mint_SetState, view_wf. Qed.
#[global] Instance w_AddRefund g : Writer (AddRefund g).
Proof. intros d H. eexists. split; [by apply AddRefund_spec|]. by apply no_mint_same. Qed.
#[global] Instance w_AddLog l : Writer (AddLog l).
Proof. intros d H. eexists. split; [by apply AddLog_spec|]. by apply no_mint_same. Qed.

Lemma effect_trans f g d1 d2 d3 :
  effect f d1 d2 -> effect g d2 d3 -> db_ok d3 /\ snaps_eq (snaps d3) (snaps d1).
Proof. intros (_ & _ & H1) (H2 & _ & H3). split; [done|]. by etransitivity. Qed.

Lemma effect_comp f g d1 d2 d3 :
  Proper ((≡) ==> (≡)) g -> effect f d1 d2 -> effect g d2 d3 -> effect (fun v => g (f v)) d1 d3.
Proof.
  intros Hg (_ & V1 & S1) (H2 & V2 & S2). split; [done|]. split; [by rewrite V2, V1|by etransitivity].
Qed.

Lemma Transfer_effect a b x d :
  db_ok d -> effect (fun v => s_AddBalance b x (s_SubBalance a x v)) d (core_Transfer a b x d).
Proof.
  intros H. eapply effect_comp; [apply _|by apply SubBalance_spec|]. apply AddBalance_spec.
  by apply SubBalance_spec.
Qed.

(** ** Steps on the database inside [good] *)

Lemma good_with_db e0 e g d' :
  good e0 e -> effect g (statedb e) d' ->
  (protected e0 -> ro_eq (g (view (statedb e))) (view (statedb e))) ->
  no_mint (view (statedb e)) (g (view (statedb e))) ->
  good e0 (with_db e d').
Proof.
  intros [[Hd Hc Hr Hp] Hx] (Hd' & Hv & Hs) Hro Hm. split; [by split|].
  eapply ext_trans; [exact Hx|]. split; cbn; try done;
    [| |eapply no_mint_trans; [exact Hm|]; apply no_mint_same; apply Hv].
  - exists []. by rewrite app_nil_r.
  - intros Hpr. etransitivity; [by apply view_eq_ro|]. apply Hro.
    destruct Hx as [_ Hro' _ _ _]. unfold protected in *. by rewrite <- Hro'.
Qed.

Lemma wp_getter {A} (f : DB -> A * DB) `{!Getter f} e0 e (Q : A -> EVM -> Prop) :
  good e0 e ->
  (forall d', good e0 (with_db e d') -> effect id (statedb e) d' ->
     Q (fst (f (statedb e))) (with_db e d')) ->
  wp (db_get f) e Q.
Proof.
  intros Hg HQ. pose proof (getter_effect (statedb e) (eo_db _ (proj1 Hg))) as He.
  unfold wp, db_get. destruct (f (statedb e)) as [a d'] eqn:E. cbn in *. apply HQ; [|done].
  eapply good_with_db; [done|exact He|done|apply no_mint_refl].
Qed.

Lemma wp_db_do (f : DB -> DB) e (Q : unit -> EVM -> Prop) : Q tt (with_db e (f (statedb e))) -> wp (db_do f) e Q.
Proof. done. Qed.

Lemma wp_writer (f : DB -> DB) `{!Writer f} e0 e (Q : unit -> EVM -> Prop) :
  good e0 e -> ~ protected e0 ->
  (forall d', good e0 (with_db e d') -> Q tt (with_db e d')) ->
  wp (db_do f) e Q.
Proof.
  intros Hg Hnp HQ. destruct (writer_effect (statedb e) (eo_db _ (proj1 Hg))) as [g [He Hm]].
  cbn. apply HQ. eapply good_with_db; [done|exact He|done|done].
Qed.

Lemma wp_quiet (f : DB -> DB) e0 e (Q : unit -> EVM -> Prop) :
  good e0 e -> quiet f (statedb e) ->
  (forall d', good e0 (with_db e d') -> ro_eq (view d') (view (statedb e)) -> Q tt (with_db e d')) ->
  wp (db_do f) e Q.
Proof.
  intros Hg (g & He & Hq) HQ. cbn. apply HQ; [|etransitivity; [apply view_eq_ro, He|done]]. eapply good_with_db; [done|exact He|done|].
  apply no_mint_same. intros a. apply (ro_Balance _ _ Hq).
Qed.

(** A method with a known effect. *)
Lemma wp_effect (f : DB -> DB) g e0 e (Q : unit -> EVM -> Prop) :
  good e0 e -> ~ protected e0 -> effect g (statedb e) (f (statedb e)) ->
  no_mint (view (statedb e)) (g (view (statedb e))) ->
  (forall d', good e0 (with_db e d') -> effect g (statedb e) d' -> Q tt (with_db e d')) ->
  wp (db_do f) e Q.
Proof.
  intros Hg Hnp He Hm HQ. cbn. apply HQ; [|done]. by eapply good_with_db.
Qed.

Lemma quiet_AddBalance0 a d : db_ok d -> quiet (AddBalance a 0) d.
Proof.
  intros H. eexists. split; [by apply AddBalance_spec|]. by apply s_AddBalance_ro, view_wf.
Qed.

Lemma quiet_CreateAccount a d : db_ok d -> vExist (view d) a = false -> quiet (CreateAccount a) d.
Proof.
  intros H E. eexists. split; [by apply CreateAccount_spec|].
  apply s_CreateAccount_ro; [by apply view_wf|done].
Qed.

Lemma quiet_Transfer0 a b d : db_ok d -> quiet (core_Transfer a b 0) d.
Proof.
  intros H. destruct (SubBalance_spec a 0 d H) as (H1 & V1 & S1).
  destruct (AddBalance_spec b 0 _ H1) as (H2 & V2 & S2).
  exists (fun _ => view (core_Transfer a b 0 d)). unfold core_Transfer. split.
  - split; [done|]. split; [done|]. by etransitivity.
  - etransitivity; [by apply view_eq_ro|]. etransitivity; [by apply s_AddBalance_ro, view_wf|].
    etransitivity; [by apply view_eq_ro|]. by apply s_SubBalance_ro, view_wf.
Qed.

Lemma quiet_AddPreimage h b d : db_ok d -> quiet (AddPreimage h b) d.
Proof. intros H. eexists. split; [by apply AddPreimage_spec|]. done. Qed.

(** Refunds; the panic of a negative counter is let through. *)
Lemma wp_subRefund g e0 e (Q : unit -> EVM -> Prop) :
  good e0 e -> ~ protected e0 ->
  (forall d', good e0 (with_db e d') -> Q tt (with_db e d')) ->
  wp (db_try (SubRefund g)) e Q.
Proof.
  intros Hg Hnp HQ. pose proof (SubRefund_spec g _ (eo_db _ (proj1 Hg))) as Hs.
  unfold wp, db_try. destruct (vRefund (view (statedb e)) <? g).
  - by rewrite Hs.
  - destruct Hs as (d' & -> & He). cbn. apply HQ. eapply good_with_db; [done|exact He|done|by apply no_mint_same].
Qed.

(** ** Fields of the interpreter *)

Lemma good_temp e0 e t : good e0 e -> good e0 (with_callGasTemp e t).
Proof. intros [[] []]. by split; split. Qed.

Lemma good_returnData e0 e b : good e0 e -> data_ok b -> good e0 (with_returnData e b).
Proof. intros [[] []] Hb. by split; split. Qed.

Lemma good_abort e0 e l : good e0 e -> good e0 (with_abortReads e l).
Proof. intros [[] []]. by split; split. Qed.

Lemma good_jumpdests e0 e j : good e0 e -> cache_ok j -> good e0 (with_jumpdests e j).
Proof. intros [[] []] Hj. by split; split. Qed.

Lemma cache_ok_empty : cache_ok ∅.
Proof. intros h a. by rewrite lookup_empty. Qed.

(** ** Rules for the frame *)

Lemma wp_on_evm {A} (m : M EVM A) s (Q : A -> mstate -> Prop) :
  wp m (evm s) (fun a e => Q a (MkMstate U S (fr s) e)) -> wp (on_evm m) s Q.
Proof. unfold wp, on_evm. by destruct (m (evm s)) as [[a e]|[]|]. Qed.

Lemma wp_ebind {T A B} (m : M T (res A)) (k : A -> M T (res B)) s Q :
  wp m s (fun r s' => match r with inl a => wp (k a) s' Q | inr e => Q (inr e) s' end) ->
  wp (ebind m k) s Q.
Proof.
  intros H. apply wp_bind. eapply wp_mono; [exact H|]. intros [a|e] s' HQ; [done|by apply wp_ret].
Qed.

End invariants.

#[export] Hint Resolve good_refl : go.
