(* ===== verification/VmGasSafe.v ===== *)
(** * The gas functions are safe

    Run on a stack that is long enough, a gas function of VmGas does not panic,
    changes nothing but the recorded memory fee, the call gas and refunds, and
    returns a cost that is a [uint64]: the memory is paid for, and a call costs at
    least the gas it hands to the callee. *)

From Stdlib Require Import ZArith Lia.
From S2P Require Import Prelude Common Params Uint256 Crypto VmMemory VmAnalysis VmState VmContracts VmTable VmGas VmInstr VmInterp VmSpec VmMemFacts VmTableOk VmInv.

Open Scope go_scope.

Section gas_safe.
Context {U : Uint256} {UL : Uint256Laws U}.
Context {S : StateDB} {K : Keccak} {SP : StateDBSpec S K} (env : Env).

(** The frame is the same up to the fee recorded in the memory. *)
Definition gas_same (s s' : mstate) : Prop :=
  fr s' = fr_memory (fr s) (memory (fr s')) /\
  store (memory (fr s')) = store (memory (fr s)) /\
  good env (evm s) (evm s').

Definition is_call_gas (g : gasFn) : bool :=
  match g with G_gasCall | G_gasCallCode | G_gasDelegateCall | G_gasStaticCall => true | _ => false end.

(** What a value transfer adds to the cost of a call. *)
Definition transfer_cost (g : gasFn) (s : mstate) : Z :=
  match g with
  | G_gasCall | G_gasCallCode =>
      match Back (stack (fr s)) 2 with
      | Some v => if U_ToBig v =? 0 then 0 else CallValueTransferGas
      | None => 0
      end
  | _ => 0
  end.

Definition gas_post (g : gasFn) (w k : Z) (s : mstate) (r : res Z) (s' : mstate) : Prop :=
  gas_same s s' /\
  match r with
  | inr _ => True
  | inl c =>
      is_u64 c /\ gas_min (Some g) <= c /\
      (if charges_mem g then mem_paid (memory (fr s')) w (32 * k)
       else memory (fr s') = memory (fr s)) /\
      (is_call_gas g = true ->
       0 <= callGasTemp (evm s') /\ callGasTemp (evm s') + transfer_cost g s <= c)
  end.

(** ** Rules *)

Lemma wp_Back n s (Q : u256 -> mstate -> Prop) :
  0 <= n < zlen (stack (fr s)) ->
  (forall x, Back (stack (fr s)) n = Some x -> Q x s) -> wp (Back_ n) s Q.
Proof.
  intros Hn HQ. destruct (zget_Some (stack (fr s)) n Hn) as [x Hx].
  unfold wp, Back_, getf, bind, gets, lift_opt, Back in *. rewrite Hx. cbn. by apply HQ.
Qed.

Lemma wp_overflow p s (Q : res Z -> mstate -> Prop) :
  (forall e, Q (inr e) s) -> (snd p = false -> Q (inl (fst p)) s) -> wp (overflow_or p) s Q.
Proof.
  intros He Ho. unfold overflow_or, safe. apply wp_ret. destruct (snd p); auto.
Qed.

Lemma wp_add x y s (Q : res Z -> mstate -> Prop) :
  is_u64 x -> is_u64 y -> (forall e, Q (inr e) s) -> (is_u64 (x + y) -> Q (inl (x + y)) s) ->
  wp (overflow_or (SafeAdd x y)) s Q.
Proof.
  intros Hx Hy He Ho. apply wp_overflow; [done|]. intros E.
  destruct (SafeAdd_no_overflow x y (fst (SafeAdd x y)) Hx Hy) as [-> ?].
  { by destruct (SafeAdd x y); cbn in *; subst. }
  apply Ho. unfold is_u64 in *. lia.
Qed.

Lemma wp_mul x y s (Q : res Z -> mstate -> Prop) :
  is_u64 x -> is_u64 y -> (forall e, Q (inr e) s) -> (is_u64 (x * y) -> Q (inl (x * y)) s) ->
  wp (overflow_or (SafeMul x y)) s Q.
Proof.
  intros Hx Hy He Ho. apply wp_overflow; [done|]. intros E.
  destruct (SafeMul_no_overflow x y (fst (SafeMul x y)) Hx Hy) as [-> ?].
  { by destruct (SafeMul x y); cbn in *; subst. }
  apply Ho. unfold is_u64 in *. nia.
Qed.

Lemma wp_uint64 (x : u256) s (Q : res Z -> mstate -> Prop) :
  (forall e, Q (inr e) s) -> (forall n, is_u64 n -> Q (inl n) s) ->
  wp (overflow_or (U_Uint64WithOverflow x)) s Q.
Proof.
  intros He Ho. apply wp_overflow; [done|]. intros _. apply Ho.
  rewrite U_Uint64WithOverflow_fst. apply U_Uint64_range.
Qed.

Lemma toWordSize_u64 n : is_u64 n -> is_u64 (toWordSize n) /\ toWordSize n <= 2 ^ 59.
Proof.
  intros Hn. change (2 ^ 59) with 576460752303423488. unfold toWordSize. case_match.
  - change (MaxUint64 / 32 + 1) with 576460752303423488. u64_lia.
  - pose proof (u64_range (n + 31)). unfold is_u64, two64 in *.
    pose proof (Z.div_pos (u64 (n + 31)) 32 ltac:(lia) ltac:(lia)).
    pose proof (Z.div_le_upper_bound (u64 (n + 31)) 32 576460752303423488 ltac:(lia) ltac:(lia)). lia.
Qed.

Lemma wp_mem_gas w k s (Q : res Z -> mstate -> Prop) :
  mem_ok (memory (fr s)) w -> 0 <= k -> evm_ok (evm s) ->
  (forall e, Q (inr e) s) ->
  (forall c s', 0 <= c < 2 ^ 56 -> gas_same s s' -> evm s' = evm s ->
     mem_paid (memory (fr s')) w (32 * k) -> Q (inl c) s') ->
  wp (mem_gas (32 * k)) s Q.
Proof.
  intros Hm Hk He Herr HQ. unfold wp, mem_gas, bind, getf, gets.
  destruct (memoryGasCost_spec _ w (32 * k) k Hm eq_refl Hk) as [[_ ->]|(Hn & m' & -> & Hs & Hp)].
  - cbn. destruct s as [f e]. cbn. by destruct f.
  - cbn. apply HQ; cbn; [| |done|done].
    + pose proof (total_fee_mono w (Z.max w k)). pose proof (total_fee_range w (mo_words _ _ Hm)).
      pose proof (total_fee_range (Z.max w k)). pose proof (mo_words _ _ Hm). lia.
    + split; [done|]. split; [done|]. by apply good_refl.
Qed.

Lemma gas_same_refl s : evm_ok (evm s) -> gas_same s s.
Proof. intros. split; [by destruct s as [[] ?]|]. split; [done|by apply good_refl]. Qed.

Lemma gas_same_trans s1 s2 s3 : gas_same s1 s2 -> gas_same s2 s3 -> gas_same s1 s3.
Proof.
  intros (F1 & M1 & E1) (F2 & M2 & E2). split; [|split].
  - rewrite F2, F1. cbn. by rewrite F2.
  - by rewrite M2.
  - by eapply good_trans.
Qed.

Lemma gas_same_stack s s' : gas_same s s' -> stack (fr s') = stack (fr s).
Proof. intros (-> & _). done. Qed.
Lemma gas_same_contract s s' : gas_same s s' -> contract (fr s') = contract (fr s).
Proof. intros (-> & _). done. Qed.
Lemma gas_same_evm_ok s s' : gas_same s s' -> evm_ok (evm s').
Proof. by intros (_ & _ & [? _]). Qed.

(** Database reads and writes of a gas function. *)
Lemma wp_gas_getter {A} (f : DB -> A * DB) `{!Getter f} s (Q : A -> mstate -> Prop) :
  evm_ok (evm s) ->
  (forall a s', gas_same s s' -> fr s' = fr s -> Q a s') ->
  wp (on_evm (db_get f)) s Q.
Proof.
  intros He HQ. apply wp_on_evm. eapply wp_getter; [apply _|by apply good_refl|].
  intros d' Hg _. apply HQ; [|done]. split; [by destruct s as [[] ?]|]. by split.
Qed.

Lemma wp_gas_writer (f : DB -> DB) `{!Writer f} s (Q : unit -> mstate -> Prop) :
  evm_ok (evm s) -> ~ protected env (evm s) ->
  (forall s', gas_same s s' -> fr s' = fr s -> Q tt s') ->
  wp (on_evm (db_do f)) s Q.
Proof.
  intros He Hp HQ. apply wp_on_evm. eapply wp_writer; [apply _|by apply good_refl|done|].
  intros d' Hg. apply HQ; [|done]. split; [by destruct s as [[] ?]|]. by split.
Qed.

Lemma wp_gas_subRefund g s (Q : unit -> mstate -> Prop) :
  evm_ok (evm s) -> ~ protected env (evm s) ->
  (forall s', gas_same s s' -> fr s' = fr s -> Q tt s') ->
  wp (subRefund g) s Q.
Proof.
  intros He Hp HQ. apply wp_on_evm. eapply wp_subRefund; [by apply good_refl|done|].
  intros d' Hg. apply HQ; [|done]. split; [by destruct s as [[] ?]|]. by split.
Qed.

(** ** The memory and word based functions *)

Definition enough (g : gasFn) (s : mstate) : Prop := gas_reads g <= zlen (stack (fr s)).

(** Closing a goal at a result. *)
Ltac gas_done :=
  split; [eassumption || (apply gas_same_refl; assumption)|];
  cbn; try exact I;
  repeat match goal with |- _ /\ _ => split end;
  try assumption; try done; try (unfold is_u64, two64 in *; lia).

Lemma word_gas_safe pos unit_ g w k s :
  mem_ok (memory (fr s)) w -> 0 <= k -> evm_ok (evm s) -> 0 <= pos < zlen (stack (fr s)) ->
  0 <= unit_ <= 16 -> charges_mem g = true -> is_call_gas g = false -> gas_min (Some g) = 0 ->
  wp (gas <! mem_gas (32 * k) ;;
      x <~ Back_ pos ;;
      words <! overflow_or (U_Uint64WithOverflow x) ;;
      words <! overflow_or (SafeMul (toWordSize words) unit_) ;;
      overflow_or (SafeAdd gas words)) s (gas_post g w k s).
Proof.
  intros Hm Hk He Hpos Hu Hc Hcall Hmin. unfold gas_post. rewrite Hc, Hcall, Hmin.
  apply wp_ebind, (wp_mem_gas w k); [done..|intros; by gas_done|].
  intros c s' Hcr Hs Ee Hp. apply wp_bind, wp_Back; [by rewrite (gas_same_stack _ _ Hs)|].
  intros x _. apply wp_ebind, wp_uint64; [intros; by gas_done|].
  intros n Hn. apply wp_ebind. destruct (toWordSize_u64 n Hn) as [Hw Hw'].
  apply wp_mul; [done|u64_lia|intros; by gas_done|]. intros Hmul.
  change (2 ^ 56) with 72057594037927936 in Hcr.
  apply wp_add; [u64_lia|done|intros; by gas_done|]. intros Hadd. gas_done.
Qed.

Lemma pure_gas_safe g w k s :
  mem_ok (memory (fr s)) w -> 0 <= k -> evm_ok (evm s) ->
  charges_mem g = true -> is_call_gas g = false -> gas_min (Some g) = 0 ->
  wp (pureMemoryGascost (32 * k)) s (gas_post g w k s).
Proof.
  intros Hm Hk He Hc Hcall Hmin. unfold gas_post. rewrite Hc, Hcall, Hmin.
  apply (wp_mem_gas w k); [done..|intros; by gas_done|].
  intros c s' Hcr Hs Ee Hp. change (2 ^ 56) with 72057594037927936 in Hcr. gas_done.
Qed.

Lemma log_gas_safe n w k s :
  mem_ok (memory (fr s)) w -> 0 <= k -> evm_ok (evm s) -> 2 <= zlen (stack (fr s)) -> 0 <= n <= 4 ->
  wp (makeGasLog n (32 * k)) s (gas_post (G_makeGasLog n) w k s).
Proof.
  intros Hm Hk He Hst Hn. unfold gas_post, makeGasLog. cbn [charges_mem is_call_gas gas_min].
  apply wp_bind, wp_Back; [lia|]. intros x _.
  apply wp_ebind, wp_uint64; [intros; by gas_done|]. intros rq Hrq.
  apply wp_ebind, (wp_mem_gas w k); [done..|intros; by gas_done|].
  intros c s' Hcr Hs Ee Hp. change (2 ^ 56) with 72057594037927936 in Hcr.
  rewrite (u64_small (n * 375)) by u64_lia.
  apply wp_ebind, wp_add; [u64_lia|u64_lia|intros; by gas_done|]. intros H1.
  apply wp_ebind, wp_add; [u64_lia|u64_lia|intros; by gas_done|]. intros H2.
  apply wp_ebind, wp_mul; [done|u64_lia|intros; by gas_done|]. intros H3.
  apply wp_add; [done|done|intros; by gas_done|]. intros H4. unfold is_u64 in *. gas_done.
Qed.

Lemma exp_gas_safe g byteGas w k s :
  evm_ok (evm s) -> 2 <= zlen (stack (fr s)) -> 0 <= byteGas <= 50 ->
  charges_mem g = false -> is_call_gas g = false -> gas_min (Some g) = 10 ->
  wp (exp_gas byteGas (32 * k)) s (gas_post g w k s).
Proof.
  intros He Hst Hb Hc Hcall Hmin. unfold gas_post, exp_gas. rewrite Hc, Hcall, Hmin.
  apply wp_bind, wp_Back; [lia|]. intros x _.
  assert (0 <= (U_BitLen x + 7) / 8 <= 32) as Hl.
  { rewrite U_BitLen_val. pose proof (U_range x) as Hx. destruct (Z.eqb_spec (U_ToBig x) 0); [change ((0 + 7) / 8) with 0; lia|].
    pose proof (Z.log2_nonneg (U_ToBig x)).
    assert (Z.log2 (U_ToBig x) < 256) by (apply Z.log2_lt_pow2; unfold two256 in Hx; lia).
    split; [apply Z.div_pos; lia|apply Z.lt_succ_r, Z.div_lt_upper_bound; lia]. }
  rewrite (u64_small ((U_BitLen x + 7) / 8)) by u64_lia.
  rewrite u64_small by (unfold is_u64, two64; nia).
  apply wp_add; [unfold is_u64, two64; nia|u64_lia|intros; by gas_done|].
  intros H. gas_done.
Qed.

(** ** Calls *)

Lemma callGas_range isEip150 avail base (x : u256) t :
  callGas isEip150 avail base x = Some t -> is_u64 t.
Proof.
  unfold callGas. intros H.
  repeat case_match; simplify_eq; auto using u64_range, U_Uint64_range.
Qed.

(** The end of a call gas function, from the base cost on. *)
Lemma call_tail_safe s gas (Q : res Z -> mstate -> Prop) :
  is_u64 gas -> evm_ok (evm s) -> 1 <= zlen (stack (fr s)) ->
  (forall e s', gas_same s s' -> Q (inr e) s') ->
  (forall s', gas_same s s' -> fr s' = fr s -> 0 <= callGasTemp (evm s') ->
     is_u64 (gas + callGasTemp (evm s')) -> Q (inl (gas + callGasTemp (evm s'))) s') ->
  wp (call_gas_tail env gas) s Q.
Proof.
  intros Hg He Hst Herr HQ. apply wp_bind, wp_Back; [lia|]. intros x _.
  apply wp_bind, wp_gets.
  assert (forall t, gas_same s (MkMstate U S (fr s) (with_callGasTemp (evm s) t))) as Hsame.
  { intros t. split; [by destruct s as [[] ?]|]. split; [done|]. by apply good_temp, good_refl. }
  destruct (callGas _ _ _ _) as [t|] eqn:E; apply wp_bind, wp_modify.
  - apply callGas_range in E. apply wp_add; [done..|by eauto|]. intros Hadd.
    apply (HQ (MkMstate U S (fr s) (with_callGasTemp (evm s) t))); [done..|by apply E|done].
  - apply wp_ret. by apply Herr.
Qed.

Lemma delegate_gas_safe g w k s :
  g = G_gasDelegateCall \/ g = G_gasStaticCall ->
  mem_ok (memory (fr s)) w -> 0 <= k -> evm_ok (evm s) -> 1 <= zlen (stack (fr s)) ->
  wp (gas_of env g (32 * k)) s (gas_post g w k s).
Proof.
  intros Hg Hm Hk He Hst. unfold gas_post.
  assert (charges_mem g = true /\ gas_min (Some g) = 0 /\ transfer_cost g s = 0) as (-> & -> & ->)
    by (by destruct Hg as [-> | ->]).
  destruct Hg as [-> | ->];
  (apply wp_ebind, (wp_mem_gas w k); [done..|intros; by gas_done|];
   intros c s' Hcr Hs Ee Hp; change (2 ^ 56) with 72057594037927936 in Hcr;
   apply call_tail_safe;
   [ u64_lia | by eapply gas_same_evm_ok | by rewrite (gas_same_stack _ _ Hs)
   | intros e s'' Hs'; split; [by eapply gas_same_trans|done]
   | intros s'' Hs' Ef Ht Hu; split; [by eapply gas_same_trans|]; rewrite Ef;
     split; [done|]; split; [lia|]; split; [done|]; intros _; lia ]).
Qed.

(** The base cost of a call with a value. *)
Lemma transfer_base_safe g w k s s1 base :
  (g = G_gasCall \/ g = G_gasCallCode) ->
  mem_ok (memory (fr s)) w -> 0 <= k -> 3 <= zlen (stack (fr s)) ->
  gas_same s s1 -> fr s1 = fr s -> 0 <= base < 2 ^ 56 -> transfer_cost g s <= base ->
  wp (memoryGas <! mem_gas (32 * k) ;;
      gas <! overflow_or (SafeAdd base memoryGas) ;;
      call_gas_tail env gas) s1 (gas_post g w k s).
Proof.
  intros Hg Hm Hk Hst Hs1 Ef1 Hb Ht. change (2 ^ 56) with 72057594037927936 in Hb. unfold gas_post.
  assert (charges_mem g = true /\ gas_min (Some g) = 0) as [-> ->] by (by destruct Hg as [-> | ->]).
  apply wp_ebind, (wp_mem_gas w k); [by rewrite Ef1|done|by eapply gas_same_evm_ok|intros; by gas_done|].
  intros c s' Hcr Hs Ee Hp. change (2 ^ 56) with 72057594037927936 in Hcr.
  pose proof (gas_same_trans _ _ _ Hs1 Hs) as Hss.
  apply wp_ebind, wp_add; [u64_lia|u64_lia|intros; by gas_done|]. intros Hadd.
  apply call_tail_safe; [done|by eapply gas_same_evm_ok|rewrite (gas_same_stack _ _ Hss); lia| |].
  - intros e s'' Hs'. split; [by eapply gas_same_trans|done].
  - intros s'' Hs' Ef Hnn Hu. split; [by eapply gas_same_trans|]. rewrite Ef.
    split; [done|]. split; [lia|]. split; [done|]. intros _. lia.
Qed.

Lemma call_gas_safe w k s :
  mem_ok (memory (fr s)) w -> 0 <= k -> evm_ok (evm s) -> 3 <= zlen (stack (fr s)) ->
  wp (gasCall env (32 * k)) s (gas_post G_gasCall w k s).
Proof.
  intros Hm Hk He Hst. apply wp_bind, wp_Back; [lia|]. intros v Hv.
  apply wp_bind, wp_Back; [lia|]. intros a _. apply wp_bind.
  set (tv := negb (U_IsZero v)).
  eapply (wp_mono _ _ (fun g s1 => gas_same s s1 /\ fr s1 = fr s /\ 0 <= g <= CallNewAccountGas)).
  - destruct (rIsEIP158 (chainRules env)).
    + destruct tv.
      * apply wp_bind. eapply wp_gas_getter; [apply _|done|]. intros e s1 Hs Ef. apply wp_ret.
        split; [done|]. split; [done|]. destruct e; lia.
      * apply wp_ret. split; [by apply gas_same_refl|]. split; [done|lia].
    + apply wp_bind. eapply wp_gas_getter; [apply _|done|]. intros e s1 Hs Ef. apply wp_ret.
      split; [done|]. split; [done|]. destruct e; lia.
  - intros g s1 (Hs & Ef & Hg).
    apply (transfer_base_safe G_gasCall w k s s1); try done; [by left| |].
    + unfold tv. change (2 ^ 56) with 72057594037927936.
      destruct (negb (U_IsZero v)); [rewrite u64_small by u64_lia|]; lia.
    + unfold transfer_cost. rewrite Hv. unfold tv. rewrite U_IsZero_val.
      destruct (U_ToBig v =? 0); cbn; [lia|]. rewrite u64_small by u64_lia. lia.
Qed.

Lemma callcode_gas_safe w k s :
  mem_ok (memory (fr s)) w -> 0 <= k -> evm_ok (evm s) -> 3 <= zlen (stack (fr s)) ->
  wp (gasCallCode env (32 * k)) s (gas_post G_gasCallCode w k s).
Proof.
  intros Hm Hk He Hst. unfold gas_post. cbn [charges_mem gas_min].
  apply wp_ebind, (wp_mem_gas w k); [done..|intros; by gas_done|].
  intros c s' Hcr Hs Ee Hp. change (2 ^ 56) with 72057594037927936 in Hcr.
  apply wp_bind, wp_Back; [rewrite (gas_same_stack _ _ Hs); lia|]. intros v Hv.
  rewrite (gas_same_stack _ _ Hs) in Hv.
  set (base := if negb (U_Sign v =? 0) then 9000 else 0). assert (0 <= base <= 9000) by (unfold base; case_match; lia).
  apply wp_ebind, wp_add; [u64_lia|u64_lia|intros; by gas_done|]. intros Hadd.
  apply call_tail_safe; [done|by eapply gas_same_evm_ok|rewrite (gas_same_stack _ _ Hs); lia| |].
  - intros e s'' Hs'. split; [by eapply gas_same_trans|done].
  - intros s'' Hs' Ef Hnn Hu. split; [by eapply gas_same_trans|]. rewrite Ef.
    split; [done|]. split; [lia|]. split; [done|]. intros _. split; [done|].
    assert (transfer_cost G_gasCallCode s <= base); [|lia]. unfold transfer_cost. rewrite Hv. unfold base.
    destruct (Z.eqb_spec (U_ToBig v) 0) as [E|E]; [case_match; lia|].
    destruct (Z.eqb_spec (U_Sign v) 0) as [E'|]; [by rewrite U_Sign_zero in E'|].
    cbn. lia.
Qed.

(** ** Storage and self destruction *)

(** A function that only touches the database: the frame stays as it is. *)
Definition db_only (s : mstate) (s' : mstate) : Prop := gas_same s s' /\ fr s' = fr s.

Lemma db_only_refl s : evm_ok (evm s) -> db_only s s.
Proof. intros. split; [by apply gas_same_refl|done]. Qed.

Lemma db_only_trans s1 s2 s3 : db_only s1 s2 -> db_only s2 s3 -> db_only s1 s3.
Proof. intros [H1 E1] [H2 E2]. split; [by eapply gas_same_trans|congruence]. Qed.

Lemma db_only_ok s s' : db_only s s' -> evm_ok (evm s').
Proof. intros [H _]. by eapply gas_same_evm_ok. Qed.

Lemma db_only_protected s s' : db_only s s' -> ~ protected env (evm s) -> ~ protected env (evm s').
Proof. intros [(_ & _ & [_ [_ E _ _]]) _]. unfold protected. by rewrite E. Qed.

Lemma wp_addRefund g s s0 (Q : unit -> mstate -> Prop) :
  db_only s0 s -> ~ protected env (evm s0) -> (forall s', db_only s0 s' -> Q tt s') ->
  wp (addRefund g) s Q.
Proof.
  intros H0 Hp HQ. eapply wp_gas_writer; [apply _|by eapply db_only_ok|by eapply db_only_protected|].
  intros s' Hs Ef. apply HQ. eapply db_only_trans; [done|by split].
Qed.

Lemma dirty_refunds_safe a b c x y z s s0 (Q : unit -> mstate -> Prop) :
  db_only s0 s -> ~ protected env (evm s0) -> (forall s', db_only s0 s' -> Q tt s') ->
  wp (dirty_refunds a b c x y z) s Q.
Proof.
  intros H0 Hp HQ. apply wp_bind.
  apply (wp_mono _ _ (fun _ s' => db_only s0 s')).
  - repeat case_match; try (by apply wp_ret); try (by eapply wp_addRefund).
    eapply wp_gas_subRefund; [by eapply db_only_ok|by eapply db_only_protected|].
    intros s' Hs Ef. eapply db_only_trans; [done|by split].
  - intros _ s' Hs'. repeat case_match; try (by apply wp_ret; auto); by eapply wp_addRefund.
Qed.

Lemma gas_post_db g w k s s' c :
  db_only s s' -> charges_mem g = false -> is_call_gas g = false ->
  gas_min (Some g) <= c < two64 -> 0 <= c -> gas_post g w k s (inl c) s'.
Proof.
  intros [Hs Ef] Hc Hg Hr H0. split; [done|]. rewrite Hc, Hg. split; [by split; lia|].
  split; [lia|]. split; [by rewrite Ef|done].
Qed.

Ltac db_done :=
  apply gas_post_db; [eassumption || (apply db_only_refl; assumption)|reflexivity|reflexivity|vm_compute; split; congruence|vm_compute; congruence].

(** One read of the storage. *)
Lemma wp_read {A} (f : DB -> A * DB) `{!Getter f} s s0 (Q : A -> mstate -> Prop) :
  db_only s0 s -> (forall a s', db_only s0 s' -> Q a s') -> wp (on_evm (db_get f)) s Q.
Proof.
  intros H0 HQ. eapply wp_gas_getter; [apply _|by eapply db_only_ok|].
  intros a s' Hs Ef. apply HQ. eapply db_only_trans; [done|by split].
Qed.

Lemma sstore_gas_safe w k s :
  evm_ok (evm s) -> 2 <= zlen (stack (fr s)) -> ~ protected env (evm s) ->
  wp (gasSStore env (32 * k)) s (gas_post G_gasSStore w k s).
Proof.
  intros He Hst Hp. apply wp_bind, wp_Back; [lia|]. intros y _. apply wp_bind, wp_Back; [lia|]. intros x _.
  apply wp_bind, wp_gets. apply wp_bind. eapply wp_read; [apply _|by apply db_only_refl|].
  intros cur s1 D1. case_match.
  - repeat case_match; try (apply wp_ret; db_done).
    apply wp_bind. eapply wp_addRefund; [done..|]. intros s2 D2. apply wp_ret. db_done.
  - cbv zeta. case_match; [apply wp_ret; db_done|]. apply wp_bind. eapply wp_read; [apply _|done|].
    intros orig s2 D2. case_match.
    + case_match; [apply wp_ret; db_done|]. apply wp_bind. case_match.
      * eapply wp_addRefund; [done..|]. intros s3 D3. apply wp_ret. db_done.
      * apply wp_ret, wp_ret. db_done.
    + apply wp_bind. eapply dirty_refunds_safe; [done..|]. intros s3 D3. apply wp_ret. db_done.
Qed.

Lemma sstore2200_gas_safe w k s :
  evm_ok (evm s) -> 2 <= zlen (stack (fr s)) -> ~ protected env (evm s) ->
  wp (gasSStoreEIP2200 (32 * k)) s (gas_post G_gasSStoreEIP2200 w k s).
Proof.
  intros He Hst Hp. apply wp_bind, wp_gets. case_match.
  { apply wp_ret. split; [by apply gas_same_refl|done]. }
  apply wp_bind, wp_Back; [lia|]. intros y _. apply wp_bind, wp_Back; [lia|]. intros x _.
  apply wp_bind, wp_gets. apply wp_bind. eapply wp_read; [apply _|by apply db_only_refl|].
  intros cur s1 D1. cbv zeta. case_match; [apply wp_ret; db_done|].
  apply wp_bind. eapply wp_read; [apply _|done|]. intros orig s2 D2. case_match.
  - case_match; [apply wp_ret; db_done|]. apply wp_bind. case_match.
    + eapply wp_addRefund; [done..|]. intros s3 D3. apply wp_ret. db_done.
    + apply wp_ret, wp_ret. db_done.
  - apply wp_bind. eapply dirty_refunds_safe; [done..|]. intros s3 D3. apply wp_ret. db_done.
Qed.

Lemma selfdestruct_gas_safe w k s :
  evm_ok (evm s) -> 1 <= zlen (stack (fr s)) -> ~ protected env (evm s) ->
  wp (gasSelfdestruct env (32 * k)) s (gas_post G_gasSelfdestruct w k s).
Proof.
  intros He Hst Hp. apply wp_bind, wp_gets. apply wp_bind.
  apply (wp_mono _ _ (fun g s' => db_only s s' /\ 0 <= g <= 30000)).
  -
    case_match; [|apply wp_ret; split; [by apply db_only_refl|lia]].
    apply wp_bind, wp_Back; [lia|]. intros b _. cbv zeta. case_match; apply wp_bind.
    + eapply wp_read; [apply _|by apply db_only_refl|]. intros e s1 D1.
      case_match; [|apply wp_ret; split; [done|lia]].
      apply wp_bind. eapply wp_read; [apply _|done|]. intros bal s2 D2.
      apply wp_ret. split; [done|]. case_match; lia.
    + eapply wp_read; [apply _|by apply db_only_refl|]. intros e s1 D1.
      apply wp_ret. split; [done|]. case_match; lia.
  - intros g s1 [D1 Hg]. apply wp_bind. eapply wp_read; [apply _|done|]. intros h s2 D2.
    apply wp_bind.
    apply (wp_mono _ _ (fun _ s' => db_only s s')).
    + case_match; [by apply wp_ret|by eapply wp_addRefund].
    + intros _ s3 D3. apply wp_ret. apply gas_post_db; [done..|cbn; unfold two64; lia|lia].
Qed.

(** ** All of them *)

Lemma gas_safe g w k s :
  frame_ok (fr s) w -> evm_ok (evm s) -> 0 <= k ->
  gas_reads g <= zlen (stack (fr s)) -> gas_params_ok (Some g) = true ->
  (gas_writes (Some g) = true -> ~ protected env (evm s)) ->
  wp (gas_of env g (32 * k)) s (gas_post g w k s).
Proof.
  intros [_ Hm _ _ _] He Hk Hr Hpar Hw.
  assert (0 <= CopyGas <= 16 /\ 0 <= Sha3WordGas <= 16) as [Hcopy Hsha] by (vm_compute; repeat split; congruence).
  destruct g; cbn in Hr; cbn [gas_of]; try (by apply pure_gas_safe).
  - apply sstore_gas_safe; auto.
  - apply sstore2200_gas_safe; auto.
  - by apply (word_gas_safe 1 Sha3WordGas); [..|lia| | | |].
  - by apply (word_gas_safe 2 CopyGas); [..|lia| | | |].
  - by apply (word_gas_safe 2 CopyGas); [..|lia| | | |].
  - by apply (word_gas_safe 3 CopyGas); [..|lia| | | |].
  - by apply (word_gas_safe 2 CopyGas); [..|lia| | | |].
  - by apply (word_gas_safe 2 Sha3WordGas); [..|lia| | | |].
  - apply exp_gas_safe; auto; lia.
  - apply exp_gas_safe; auto; lia.
  - by apply call_gas_safe.
  - by apply callcode_gas_safe.
  - apply (delegate_gas_safe G_gasDelegateCall); auto.
  - apply (delegate_gas_safe G_gasStaticCall); auto.
  - apply selfdestruct_gas_safe; auto.
  - apply andb_true_iff in Hpar as [H1%Z.leb_le H2%Z.leb_le]. by apply log_gas_safe.
Qed.
End gas_safe.
