(* ===== verification/VmContractsSafe.v ===== *)
(** * The precompiled contracts are safe

    With gas below [gas_max] no precompiled contract panics, its output is a
    proper byte string, and the gas left is at most the gas supplied.  The bound
    on the gas is needed: the gas of the modular exponentiation stays a [uint64]
    for exponent lengths that make its body slice out of range. *)

From Stdlib Require Import ZArith Zpow_facts Lia.
From S2P Require Import Prelude Common Params Uint256 Crypto Blake2b VmMemory VmAnalysis VmState VmContracts VmTable VmGas VmMemFacts.

Open Scope go_scope.

(** [getData] for sizes below 2^63. *)
Lemma getData_total b start size :
  data_ok b -> is_u64 start -> 0 <= size < two63 ->
  exists d, getData b start size = Ok d /\ Forall is_byte d /\ (zlen d = size \/ zlen d <= zlen b /\ size <= zlen d).
Proof.
  intros [Hb Hl] Hs Hz. unfold data_max in *. pose proof (zlen_nonneg b). unfold getData.
  rewrite (u64_small (zlen b)) by u64_lia.
  set (st := if zlen b <? start then zlen b else start).
  assert (0 <= st <= zlen b) as Hst.
  { unfold st, is_u64 in *. destruct (Z.ltb_spec (zlen b) start); lia. }
  rewrite u64_small by u64_lia.
  set (en := if zlen b <? st + size then zlen b else st + size).
  assert (st <= en <= zlen b) as Hen by (unfold en; destruct (Z.ltb_spec (zlen b) (st + size)); lia).
  rewrite zslice_Some by lia. rewrite i64_small by (unfold two63 in *; lia).
  eexists; split; [done|]. unfold RightPadBytes.
  set (d := take _ _). assert (Forall is_byte d) by (by apply Forall_take, Forall_drop).
  assert (zlen d <= zlen b). { unfold d, zlen. rewrite length_take, length_drop. lia. }
  destruct (Z.leb_spec size (zlen d)); [split; [done|]; right; lia|].
  split; [apply Forall_gocopy; [apply Forall_zeros|done]|]. left.
  rewrite zlen_gocopy, zlen_zeros by lia. done.
Qed.

Lemma getData_32 b i : data_ok b -> 0 <= i <= 64 ->
  exists d, getData b i 32 = Ok d /\ 0 <= be_val d.
Proof.
  intros Hb Hi. destruct (getData_total b i 32 Hb) as (d & -> & Hd & _); [u64_lia..|].
  eexists; split; [done|]. by apply be_val_bound.
Qed.

Lemma after96_ok b : data_ok b -> data_ok (after96 b).
Proof.
  intros [Hb Hl]. unfold after96. case_match; [|apply data_ok_nil]. split; [by apply Forall_drop|].
  unfold zlen in *. rewrite length_drop. lia.
Qed.

Lemma data_ok_small b n : Forall is_byte b -> zlen b <= n -> n <= data_max -> data_ok b.
Proof. intros. split; [done|lia]. Qed.

Lemma LeftPadBytes_ok b l : data_ok b -> l <= data_max -> data_ok (LeftPadBytes b l).
Proof.
  intros [Hb Hl] Hd. unfold LeftPadBytes. destruct (Z.leb_spec l (zlen b)); [done|].
  pose proof (zlen_nonneg b). split.
  - apply Forall_app. split; [apply Forall_zeros|]. apply Forall_gocopy; [apply Forall_zeros|done].
  - rewrite zlen_app, zlen_gocopy, !zlen_zeros by lia. lia.
Qed.

(** ** Modular exponentiation *)

(** The complexity function of the gas formula. *)
Definition mult_complexity (x : Z) : Z :=
  if x <=? 64 then x * x
  else if x <=? 1024 then x * x / 4 + (96 * x - 3072)
  else x * x / 16 + (480 * x - 199680).

Lemma mult_complexity_bound x : 0 < x ->
  1 <= mult_complexity x /\ (1024 < x -> x * x <= 16 * mult_complexity x).
Proof.
  intros Hx. unfold mult_complexity. destruct (Z.leb_spec x 64); [split; nia|].
  destruct (Z.leb_spec x 1024).
  - split; [|lia]. pose proof (Z.div_pos (x * x) 4 ltac:(nia) ltac:(lia)). lia.
  - pose proof (Z.div_mod (x * x) 16 ltac:(lia)). pose proof (Z.mod_pos_bound (x * x) 16 ltac:(lia)). nia.
Qed.

(** The lengths the gas admits. *)
Lemma modexp_gas_bounds baseLen modLen adj g :
  0 <= baseLen -> 0 <= modLen -> 0 < BigMax modLen baseLen ->
  mult_complexity (BigMax modLen baseLen) * BigMax adj 1 / 20 = g -> g < 2305843009213693952 ->
  baseLen < 2 ^ 36 /\ modLen < 2 ^ 36 /\ adj < 20 * 2305843009213693952.
Proof.
  intros Hb Hm Hpos Hg Hlt. change (2 ^ 36) with 68719476736.
  set (x := BigMax modLen baseLen) in *.
  assert (modLen <= x /\ baseLen <= x) as [Hmx Hbx] by (unfold x, BigMax; case_match; go_bool; lia).
  destruct (mult_complexity_bound x Hpos) as [H1 H2].
  set (m := mult_complexity x) in *.
  assert (1 <= BigMax adj 1 /\ adj <= BigMax adj 1) as [Ha1 Ha2] by (unfold BigMax; case_match; go_bool; lia).
  pose proof (Z.div_mod (m * BigMax adj 1) 20 ltac:(lia)) as Hd.
  pose proof (Z.mod_pos_bound (m * BigMax adj 1) 20 ltac:(lia)).
  rewrite Hg in Hd.
  assert (m * BigMax adj 1 < 20 * 2305843009213693952) by lia.
  assert (m < 20 * 2305843009213693952) by nia.
  assert (x < 68719476736).
  { destruct (Z.le_gt_cases x 1024); [lia|]. specialize (H2 ltac:(lia)). nia. }
  repeat split; nia.
Qed.

Lemma BitLen_le_64 z : 0 <= z -> BitLen z <= 64 -> z < two64.
Proof.
  intros Hz H. unfold BitLen in H. destruct (Z.eqb_spec z 0); [subst; done|].
  rewrite Z.abs_eq in H by done. apply Z.log2_lt_cancel. change (Z.log2 two64) with 64. lia.
Qed.

Lemma bigModExp_RequiredGas_safe input :
  data_ok input ->
  exists g, bigModExp_RequiredGas input = Ok g /\ 0 <= g /\
    (g < 2305843009213693952 -> exists b e m,
       getData input 0 32 = Ok b /\ getData input 32 32 = Ok e /\ getData input 64 32 = Ok m /\
       0 <= be_val b /\ 0 <= be_val e /\ 0 <= be_val m /\
       (0 < BigMax (be_val m) (be_val b) ->
        be_val b < 2 ^ 36 /\ be_val m < 2 ^ 36 /\ be_val e < two63)).
Proof.
  intros Hi. unfold bigModExp_RequiredGas.
  destruct (getData_32 input 0 Hi ltac:(lia)) as (b & Eb & Hb).
  destruct (getData_32 input 32 Hi ltac:(lia)) as (e & Ee & He).
  destruct (getData_32 input 64 Hi ltac:(lia)) as (m & Em & Hm).
  rewrite Eb, Ee, Em. cbn [obind]. pose proof (after96_ok _ Hi) as Ha.
  match goal with |- context [obind ?h _] => assert (exists eh, h = Ok eh /\ 0 <= eh) as (eh & Eh & Heh) end.
  { destruct (zlen (after96 input) <=? be_val b); [eauto with lia|].
    destruct (Z.ltb_spec 32 (be_val e)).
    - destruct (getData_total (after96 input) (u64 (be_val b)) 32 Ha) as (d & -> & Hd & _);
        [apply u64_range|unfold two63; lia|]. cbn. eexists; split; [done|]. by apply be_val_bound.
    - destruct (getData_total (after96 input) (u64 (be_val b)) (u64 (be_val e)) Ha) as (d & -> & Hd & _);
        [apply u64_range|rewrite u64_small by u64_lia; unfold two63; lia|].
      cbn. eexists; split; [done|]. by apply be_val_bound. }
  rewrite Eh. cbn [obind]. clear Eh.
  fold (mult_complexity (BigMax (be_val m) (be_val b))).
  set (msb := if 0 <? BitLen eh then _ else _). set (adj := (if 32 <? be_val e then _ else 0) + msb).
  set (x := BigMax (be_val m) (be_val b)).
  assert (0 <= x) as Hx by (unfold x, BigMax; case_match; lia).
  assert (0 <= mult_complexity x) as Hmc.
  { destruct (Z.eq_dec x 0) as [->|]; [done|]. pose proof (mult_complexity_bound x). lia. }
  assert (1 <= BigMax adj 1) as Ha1 by (unfold BigMax; case_match; go_bool; lia).
  set (g := mult_complexity x * BigMax adj 1 / 20).
  assert (0 <= g) as Hg by (apply Z.div_pos; nia).
  assert (be_val e <= 32 \/ 8 * (be_val e - 32) <= adj) as Hadj.
  { unfold adj, msb. destruct (Z.ltb_spec 32 (be_val e)); [|by left]. right.
    destruct (Z.ltb_spec 0 (BitLen eh)); lia. }
  destruct (Z.ltb_spec 64 (BitLen g)).
  - exists MaxUint64. split; [done|]. split; [done|]. intros Hlt. exfalso. unfold MaxUint64, two64 in Hlt. lia.
  - pose proof (BitLen_le_64 g Hg ltac:(lia)). exists g. rewrite u64_small by (split; [done|lia]).
    split; [done|]. split; [done|]. intros Hlt. exists b, e, m. do 6 (split; [done|]). intros Hpos.
    destruct (modexp_gas_bounds (be_val b) (be_val m) adj g) as (B1 & B2 & B3); try done.
    split; [done|]. split; [done|]. unfold two63. lia.
Qed.

Lemma bigExp_range b e m : 0 < m -> 0 <= bigExp b e m < m.
Proof.
  intros Hm. unfold bigExp. destruct e as [|p|p].
  - rewrite Zpow_mod_correct by lia. by apply Z.mod_pos_bound.
  - rewrite Zpow_mod_correct by lia. by apply Z.mod_pos_bound.
  - cbn. lia.
Qed.

Lemma big_Bytes_ok x n : 0 <= x < 256 ^ n -> 0 <= n <= data_max -> data_ok (big_Bytes x).
Proof.
  intros Hx Hn. split; [apply be_bytes_is_byte|]. unfold big_Bytes. rewrite zlen_be_bytes.
  unfold BitLen, data_max in *. destruct (Z.eqb_spec x 0); [change ((0 + 7) / 8) with 0; lia|]. rewrite Z.abs_eq by lia.
  assert (Z.log2 x < 8 * n).
  { apply Z.log2_lt_pow2; [lia|]. replace (2 ^ (8 * n)) with (256 ^ n); [lia|].
    change 256 with (2 ^ 8). rewrite <- Z.pow_mul_r by lia. done. }
  pose proof (Z.log2_nonneg x).
  pose proof (Z.div_pos (Z.log2 x + 1 + 7) 8 ltac:(lia) ltac:(lia)).
  pose proof (Z.div_lt_upper_bound (Z.log2 x + 1 + 7) 8 (n + 1) ltac:(lia) ltac:(lia)). lia.
Qed.

Lemma bigModExp_Run_safe input b e m :
  data_ok input ->
  getData input 0 32 = Ok b -> getData input 32 32 = Ok e -> getData input 64 32 = Ok m ->
  0 <= be_val b -> 0 <= be_val e -> 0 <= be_val m ->
  (0 < BigMax (be_val m) (be_val b) ->
   be_val b < 2 ^ 36 /\ be_val m < 2 ^ 36 /\ be_val e < two63) ->
  exists out, bigModExp_Run input = pok out /\ data_ok out.
Proof.
  intros Hi Eb Ee Em Hb He Hm Hbd. unfold bigModExp_Run. rewrite Eb, Ee, Em. cbn [obind].
  destruct (Z.le_gt_cases (BigMax (be_val m) (be_val b)) 0) as [H0|Hpos].
  { assert (be_val b = 0 /\ be_val m = 0) as [-> ->] by (unfold BigMax in H0; case_match; go_bool; lia).
    cbn. eauto using data_ok_nil. }
  destruct (Hbd Hpos) as (B1 & B2 & B3). change (2 ^ 36) with 68719476736 in *.
  rewrite !(u64_small (be_val _)) by u64_lia.
  destruct ((be_val b =? 0) && (be_val m =? 0)); [eauto using data_ok_nil|].
  pose proof (after96_ok _ Hi) as Ha.
  destruct (getData_total _ 0 (be_val b) Ha) as (d1 & -> & _); [u64_lia|unfold two63; lia|].
  destruct (getData_total _ (be_val b) (be_val e) Ha) as (d2 & -> & _); [u64_lia|unfold two63 in *; lia|].
  destruct (getData_total _ (u64 (be_val b + be_val e)) (be_val m) Ha) as (d3 & -> & F3 & L3);
    [apply u64_range|unfold two63; lia|].
  cbn [obind]. rewrite i64_small by (unfold two63; lia).
  destruct (Z.eqb_spec (BitLen (be_val d3)) 0).
  { eexists; split; [done|]. apply LeftPadBytes_ok; [apply data_ok_nil|unfold data_max; lia]. }
  eexists; split; [done|]. apply LeftPadBytes_ok; [|unfold data_max; lia].
  pose proof (be_val_bound d3 F3). apply (big_Bytes_ok _ (zlen d3)).
  - assert (0 < be_val d3) as Hd3.
    { destruct (Z.eq_dec (be_val d3) 0) as [E|]; [by rewrite E in *|lia]. }
    pose proof (bigExp_range (be_val d1) (be_val d2) (be_val d3) Hd3). lia.
  - pose proof (zlen_nonneg d3). destruct Ha. unfold data_max in *. lia.
Qed.

(** ** The other bodies *)

(** The body returns, with a proper byte string. *)
Definition body_ok (input : bytes) (o : outcome pres) : Prop :=
  exists rt err, o = Ok (rt, err) /\ data_ok (ret_bytes input rt).

Lemma body_pok input b : data_ok b -> body_ok input (pok b).
Proof. intros. by eexists _, _. Qed.

Lemma body_perr input n : body_ok input (perr n).
Proof. eexists _, _. split; [done|]. apply data_ok_nil. Qed.

Lemma data_ok_n n b : bytes_n n b -> n <= data_max -> data_ok b.
Proof. intros [H <-] ?. by split. Qed.

Lemma sl_ok b i j : Forall is_byte b -> 0 <= i <= j -> j <= zlen b ->
  exists d, sl b i j = Ok d /\ Forall is_byte d /\ zlen d = j - i.
Proof.
  intros Hb Hi Hj. unfold sl. rewrite zslice_Some by lia. eexists. split; [done|]. split.
  - by apply Forall_take, Forall_drop.
  - rewrite zlen_take; [done|]. rewrite zlen_drop by lia. lia.
Qed.

Lemma at_ok b i : 0 <= i < zlen b -> exists x, at_ b i = Ok x.
Proof. intros H. unfold at_. destruct (zget_Some b i H) as [x ->]. by exists x. Qed.

(** Taking the next slice of the input. *)
Ltac take_slice :=
  match goal with
  | |- context [obind (sl ?b ?i ?j) _] =>
      let d := fresh "d" in let E := fresh "E" in
      destruct (sl_ok b i j) as (d & E & ? & ?); [by auto|lia|lia|]; rewrite E; cbn [obind]; clear E
  end.

#[export] Instance PrecompiledContract_eq_dec : EqDecision PrecompiledContract.
Proof. solve_decision. Defined.

Section bodies_safe.
Context {K : Keccak} {C : CryptoPrims} {CL : CryptoLaws C}.

Lemma ecrecover_safe input : data_ok input -> body_ok input (ecrecover_Run input).
Proof.
  intros [Hb Hl]. unfold ecrecover_Run. set (inp := RightPadBytes input 128).
  assert (Forall is_byte inp /\ 128 <= zlen inp) as [Hp Hlen].
  { unfold inp, RightPadBytes. destruct (Z.leb_spec 128 (zlen input)); [done|].
    split; [apply Forall_gocopy; [apply Forall_zeros|done]|]. by rewrite zlen_gocopy, zlen_zeros. }
  do 2 take_slice. destruct (at_ok inp 63 ltac:(lia)) as [v ->]. cbn [obind]. take_slice.
  case_match; [apply body_pok, data_ok_nil|]. take_slice.
  rewrite zput_Some by (rewrite zlen_gocopy, zlen_zeros; lia). cbn [of_option obind]. take_slice.
  destruct (Ecrecover _ _) as [pk|] eqn:Epk; [|apply body_pok, data_ok_nil].
  destruct (Ecrecover_len _ _ _ Epk) as [Hpk Hpl]. take_slice.
  match goal with |- context [sl (Keccak256 ?x) 12 32] =>
    destruct (sl_ok (Keccak256 x) 12 32) as (h & -> & Hh & Hhl);
      [apply be_bytes_is_byte|lia|rewrite Keccak256_len; lia|] end.
  apply body_pok, LeftPadBytes_ok; [|unfold data_max; lia]. split; [done|unfold data_max; lia].
Qed.

Lemma bn_pairing_points_safe n : forall i input cs ts,
  Forall is_byte input -> 0 <= i -> i mod 192 = 0 -> zlen input mod 192 = 0 ->
  exists r, pairing_points n i input cs ts = Ok r.
Proof.
  induction n as [|n IH]; intros i input cs ts Hb Hi Hm Hl; cbn [pairing_points]; [by eauto|].
  destruct (Z.ltb_spec i (zlen input)); [|by eauto].
  assert (i + 192 <= zlen input).
  { pose proof (Z.div_mod i 192 ltac:(lia)). pose proof (Z.div_mod (zlen input) 192 ltac:(lia)). nia. }
  take_slice. destruct (newCurvePoint d); [|by eauto]. take_slice.
  destruct (newTwistPoint d0); [|by eauto]. apply IH; [done|lia| |done].
  rewrite Z.add_mod, Hm by lia. done.
Qed.

Lemma bn_pairing_safe input : data_ok input -> body_ok input (runBn256Pairing input).
Proof.
  intros [Hb Hl]. unfold runBn256Pairing. destruct (Z.ltb_spec 0 (zlen input mod 192)); [apply body_perr|].
  pose proof (Z.mod_pos_bound (zlen input) 192 ltac:(lia)).
  destruct (bn_pairing_points_safe (length input) 0 input [] []) as [r ->]; [done|lia|done|lia|].
  cbn [obind]. destruct r as [[cs ts]|]; [|apply body_perr]. case_match; apply body_pok.
  - split; [apply Forall_app; split; [apply Forall_zeros|by repeat constructor]|done].
  - split; [apply Forall_zeros|done].
Qed.

Lemma bn_add_safe input : data_ok input -> body_ok input (runBn256Add input).
Proof.
  intros Hi. unfold runBn256Add.
  destruct (getData_total input 0 64 Hi) as (d1 & -> & _); [u64_lia|unfold two63; lia|]. cbn [obind].
  case_match; [|apply body_perr].
  destruct (getData_total input 64 64 Hi) as (d2 & -> & _); [u64_lia|unfold two63; lia|]. cbn [obind].
  case_match; [|apply body_perr]. apply body_pok. eapply data_ok_n; [apply bn256_Marshal_len|unfold data_max; lia].
Qed.

Lemma bn_mul_safe input : data_ok input -> body_ok input (runBn256ScalarMul input).
Proof.
  intros Hi. unfold runBn256ScalarMul.
  destruct (getData_total input 0 64 Hi) as (d1 & -> & _); [u64_lia|unfold two63; lia|]. cbn [obind].
  case_match; [|apply body_perr].
  destruct (getData_total input 64 32 Hi) as (d2 & -> & _); [u64_lia|unfold two63; lia|]. cbn [obind].
  apply body_pok. eapply data_ok_n; [apply bn256_Marshal_len|unfold data_max; lia].
Qed.

Lemma words_at_safe n : forall off input,
  Forall is_byte input -> 0 <= off -> off + 8 * Z.of_nat n <= zlen input ->
  exists l, words_at n off input = Ok l.
Proof.
  induction n as [|n IH]; intros off input Hb Ho Hl; cbn [words_at]; [by eauto|].
  take_slice. destruct (IH (off + 8) input Hb) as [l ->]; [lia..|]. cbn. eauto.
Qed.

Lemma put64_bytes l : Forall is_byte (concat (map put64 l)) /\ zlen (concat (map put64 l)) = 8 * zlen l.
Proof.
  induction l as [|x l [IH1 IH2]]; cbn [map concat]; [by split|]. split.
  - apply Forall_app. split; [|done]. apply Forall_rev, be_bytes_is_byte.
  - rewrite zlen_app, zlen_cons, IH2. unfold put64, zlen. rewrite length_rev, be_bytes_length. lia.
Qed.

Lemma blake2F_safe input : data_ok input -> body_ok input (blake2F_Run input).
Proof.
  intros [Hb Hl]. unfold blake2F_Run, blake2FInputLength.
  destruct (Z.eqb_spec (zlen input) 213) as [E|]; [|apply body_perr]. cbn [negb].
  destruct (at_ok input 212 ltac:(lia)) as [f ->]. cbn [obind]. case_match; [apply body_perr|].
  take_slice. destruct (words_at_safe 8 4 input Hb) as [h ->]; [lia..|]. cbn [obind].
  destruct (words_at_safe 16 68 input Hb) as [m ->]; [lia..|]. cbn [obind].
  destruct (words_at_safe 2 196 input Hb) as [t ->]; [lia..|]. cbn [obind].
  apply body_pok. destruct (put64_bytes (F h m t (f =? 1) (be_val d))) as [P1 P2].
  split; [done|]. rewrite P2. unfold F, fGeneric. rewrite !zlen_cons, zlen_nil. unfold data_max. lia.
Qed.

Ltac bls_done :=
  apply body_pok; first [eapply data_ok_n; [apply bls_G1_Encode_len|unfold data_max; lia]
                        |eapply data_ok_n; [apply bls_G2_Encode_len|unfold data_max; lia]].

Lemma bls_point_ops_safe input : data_ok input ->
  body_ok input (bls12381G1Add_Run input) /\ body_ok input (bls12381G1Mul_Run input) /\
  body_ok input (bls12381G2Add_Run input) /\ body_ok input (bls12381G2Mul_Run input).
Proof.
  intros [Hb Hl].
  unfold bls12381G1Add_Run, bls12381G1Mul_Run, bls12381G2Add_Run, bls12381G2Mul_Run, errLength.
  split; [|split; [|split]];
    (match goal with |- context [zlen input =? ?n] =>
       destruct (Z.eqb_spec (zlen input) n); [|by apply body_perr] end;
     cbn [negb]; take_slice; case_match; [|by apply body_perr]; take_slice;
     try (case_match; [|by apply body_perr]); bls_done).
Qed.

Lemma multiexp_pairs_safe {P} (decode : bytes -> option P) psize n : forall off input,
  Forall is_byte input -> 0 <= psize -> 0 <= off -> off + (psize + 32) * Z.of_nat n <= zlen input ->
  exists r, multiexp_pairs decode psize n off input = Ok r.
Proof.
  induction n as [|n IH]; intros off input Hb Hp Ho Hl; cbn [multiexp_pairs]; [by eauto|].
  destruct (sl_ok input off (off + psize)) as (d & -> & _ & _); [done|lia|nia|]. cbn [obind].
  destruct (decode d); [|by eauto].
  destruct (sl_ok input (off + psize) (off + psize + 32)) as (d' & -> & _ & _); [done|lia|nia|]. cbn [obind].
  destruct (IH (off + psize + 32) input Hb Hp) as [r ->]; [lia|nia|]. cbn. eauto.
Qed.

Lemma bls_multiexp_safe input : data_ok input ->
  body_ok input (bls12381G1MultiExp_Run input) /\ body_ok input (bls12381G2MultiExp_Run input).
Proof.
  intros [Hb Hl]. unfold bls12381G1MultiExp_Run, bls12381G2MultiExp_Run, errLength. pose proof (zlen_nonneg input).
  split; (case_match; [by apply body_perr|]).
  - pose proof (Z.div_mod (zlen input) 160 ltac:(lia)). pose proof (Z.mod_pos_bound (zlen input) 160 ltac:(lia)).
    pose proof (Z.div_pos (zlen input) 160 ltac:(lia) ltac:(lia)).
    destruct (multiexp_pairs_safe bls_G1_DecodePoint 128 (Z.to_nat (zlen input / 160)) 0 input Hb) as [r ->]; [lia..|].
    cbn [obind]. destruct r as [[ps es]|]; [bls_done|apply body_perr].
  - pose proof (Z.div_mod (zlen input) 288 ltac:(lia)). pose proof (Z.mod_pos_bound (zlen input) 288 ltac:(lia)).
    pose proof (Z.div_pos (zlen input) 288 ltac:(lia) ltac:(lia)).
    destruct (multiexp_pairs_safe bls_G2_DecodePoint 256 (Z.to_nat (zlen input / 288)) 0 input Hb) as [r ->]; [lia..|].
    cbn [obind]. destruct r as [[ps es]|]; [bls_done|apply body_perr].
Qed.

Lemma bls_pairs_safe n : forall off input acc,
  Forall is_byte input -> 0 <= off -> off + 384 * Z.of_nat n <= zlen input ->
  exists r, bls_pairs n off input acc = Ok r.
Proof.
  induction n as [|n IH]; intros off input acc Hb Ho Hl; cbn [bls_pairs]; [by eauto|].
  take_slice. case_match; [|by eauto]. take_slice. case_match; [|by eauto]. do 2 (case_match; [by eauto|]).
  apply IH; [done|lia..].
Qed.

Lemma bls_pairing_safe input : data_ok input -> body_ok input (bls12381Pairing_Run input).
Proof.
  intros [Hb Hl]. unfold bls12381Pairing_Run, errLength. pose proof (zlen_nonneg input).
  case_match; [by apply body_perr|].
  pose proof (Z.div_mod (zlen input) 384 ltac:(lia)). pose proof (Z.mod_pos_bound (zlen input) 384 ltac:(lia)).
  pose proof (Z.div_pos (zlen input) 384 ltac:(lia) ltac:(lia)).
  destruct (bls_pairs_safe (Z.to_nat (zlen input / 384)) 0 input []) as [r ->]; [done|lia..|].
  cbn [obind]. destruct r; [|apply body_perr]. case_match; apply body_pok.
  - split; [apply Forall_app; split; [apply Forall_zeros|by repeat constructor]|done].
  - split; [apply Forall_zeros|done].
Qed.

Lemma decode_fe_safe inp : Forall is_byte inp -> exists r, decodeBLS12381FieldElement inp = Ok r.
Proof.
  intros Hb. unfold decodeBLS12381FieldElement. destruct (Z.eqb_spec (zlen inp) 64); [|by eauto].
  cbn [negb]. take_slice. case_match; [by eauto|]. take_slice. by eauto.
Qed.

Lemma bls_map_safe input : data_ok input ->
  body_ok input (bls12381MapG1_Run input) /\ body_ok input (bls12381MapG2_Run input).
Proof.
  intros [Hb Hl]. unfold bls12381MapG1_Run, bls12381MapG2_Run, errLength. split.
  - case_match; [by apply body_perr|]. destruct (decode_fe_safe input Hb) as [[fe|] ->]; [|apply body_perr].
    cbn [obind]. case_match; [bls_done|apply body_perr].
  - destruct (Z.eqb_spec (zlen input) 128); [|by apply body_perr]. cbn [negb]. take_slice.
    destruct (decode_fe_safe d) as [[c0|] ->]; [done| |apply body_perr]. cbn [obind]. take_slice.
    destruct (decode_fe_safe d0) as [[c1|] ->]; [done| |apply body_perr]. cbn [obind].
    case_match; [bls_done|apply body_perr].
Qed.

Lemma Precompile_Run_safe p input :
  data_ok input -> p <> P_bigModExp -> body_ok input (Precompile_Run p input).
Proof.
  intros Hi Hp. destruct (bls_point_ops_safe input Hi) as (B1 & B2 & B3 & B4).
  destruct (bls_multiexp_safe input Hi) as [B5 B6]. destruct (bls_map_safe input Hi) as [B7 B8].
  destruct p; cbn [Precompile_Run]; auto using ecrecover_safe, bn_add_safe, bn_mul_safe, bn_pairing_safe,
    blake2F_safe, bls_pairing_safe.
  - apply body_pok. eapply data_ok_n; [apply sha256_len|unfold data_max; lia].
  - apply body_pok, LeftPadBytes_ok; [|unfold data_max; lia].
    eapply data_ok_n; [apply ripemd160_len|unfold data_max; lia].
  - by exists RetInput, None.
  - done.
Qed.

Lemma multiexp_gas_safe pair mulGas input :
  0 < pair -> exists g, multiexp_gas pair mulGas input = Ok g /\ 0 <= g.
Proof.
  intros Hp. unfold multiexp_gas. pose proof (zlen_nonneg input).
  pose proof (Z.div_pos (zlen input) pair ltac:(lia) ltac:(lia)).
  destruct (Z.eqb_spec (zlen input / pair) 0); [eauto with lia|].
  set (dLen := zlen Bls12381MultiExpDiscountTable).
  assert (dLen = 128) as EL by reflexivity.
  match goal with |- context [of_option _ ?x] => assert (exists d, x = Some d) as [d ->] end.
  { destruct (Z.ltb_spec (zlen input / pair) dLen); apply zget_Some; fold dLen; lia. }
  cbn. eexists; split; [done|].
  pose proof (u64_range (u64 (u64 (zlen input / pair) * mulGas) * d)) as [? _].
  apply Z.div_pos; lia.
Qed.

Lemma RequiredGas_safe p input : data_ok input -> exists g, RequiredGas p input = Ok g /\ 0 <= g.
Proof.
  intros Hi. destruct p; cbn [RequiredGas];
    try match goal with
        | |- exists g, Ok ?x = Ok g /\ _ =>
            exists x; split; [reflexivity|]; first [exact (proj1 (u64_range _)) | by vm_compute | idtac]
        end.
  - destruct (bigModExp_RequiredGas_safe input Hi) as (g & -> & Hg & _). eauto.
  - unfold blake2F_RequiredGas. case_match; [lia|]. apply be_val_bound, Forall_take, Hi.
  - by apply multiexp_gas_safe.
  - by apply multiexp_gas_safe.
Qed.

Lemma RunPrecompiledContract_spec p input gas :
  data_ok input -> 0 <= gas < 2305843009213693952 ->
  exists rt left err, RunPrecompiledContract p input gas = Ok (rt, left, err) /\
    0 <= left <= gas /\ data_ok (ret_bytes input rt) /\
    exists cost, RequiredGas p input = Ok cost /\
      (gas < cost -> rt = RetOwn [] /\ left = 0 /\ err = Some ErrOutOfGas) /\
      (cost <= gas -> left = gas - cost).
Proof.
  intros Hi Hg. unfold RunPrecompiledContract.
  destruct (RequiredGas_safe p input Hi) as (cost & Ec & Hc). rewrite Ec. cbn [obind].
  destruct (Z.ltb_spec gas cost).
  { eexists _, _, _. split; [done|]. split; [lia|]. split; [apply data_ok_nil|]. exists cost. repeat split; lia. }
  assert (body_ok input (Precompile_Run p input)) as (rt & err & -> & Hd).
  { destruct (decide (p = P_bigModExp)) as [->|]; [|by apply Precompile_Run_safe].
    destruct (bigModExp_RequiredGas_safe input Hi) as (g & Eg & _ & Hb). cbn in Ec. rewrite Eg in Ec.
    injection Ec as ->. destruct (Hb ltac:(lia)) as (b & e & m & Eb & Ee & Em & ? & ? & ? & ?).
    destruct (bigModExp_Run_safe input b e m) as (out & E & Ho); try done. cbn. rewrite E. by apply body_pok. }
  cbn. rewrite u64_small by u64_lia. eexists _, _, _. split; [done|]. split; [lia|]. split; [done|].
  exists cost. repeat split; lia.
Qed.

(** Every precompiled contract, given a proper input and gas below 2^61,
    returns without a panic, with at most the supplied gas left and a proper
    output; when the supplied gas is below its price it fails with
    [ErrOutOfGas], keeps no gas, and its body does not run. *)
Theorem RunPrecompiledContract_safe p input gas :
  data_ok input -> 0 <= gas < 2305843009213693952 ->
  exists rt left err, RunPrecompiledContract p input gas = Ok (rt, left, err) /\
    0 <= left <= gas /\ data_ok (ret_bytes input rt) /\
    exists cost, RequiredGas p input = Ok cost /\
      (gas < cost -> rt = RetOwn [] /\ left = 0 /\ err = Some ErrOutOfGas) /\
      (cost <= gas -> left = gas - cost).
Proof. by apply RunPrecompiledContract_spec. Qed.
End bodies_safe.

Lemma RunPrecompiledContract_safe_witness :
  exists rt left err, RunPrecompiledContract P_sha256hash [1; 2; 3] 100 = Ok (rt, left, err) /\
    0 <= left <= 100 /\ data_ok (ret_bytes [1; 2; 3] rt) /\
    exists cost, RequiredGas P_sha256hash [1; 2; 3] = Ok cost /\
      (100 < cost -> rt = RetOwn [] /\ left = 0 /\ err = Some ErrOutOfGas) /\
      (cost <= 100 -> left = 100 - cost).
Proof.
  apply (RunPrecompiledContract_safe P_sha256hash [1; 2; 3] 100); [|lia].
  split; [repeat constructor; lia|vm_compute; congruence].
Defined.

(** An input of 97 bytes: base length 1, exponent length 2^64 - 1, modulus
    length 1. *)
Definition modexp_overflow_input : bytes :=
  be_bytes 32 1 ++ be_bytes 32 18446744073709551615 ++ be_bytes 32 1 ++ [3].

(** The body of the modular exponentiation panics although its price, about
    2^62.7, is a [uint64] that the caller can supply: [getData] computes the end
    of the exponent with a sum that wraps around. *)
Theorem bigModExp_Run_panics :
  bigModExp_RequiredGas modexp_overflow_input = Ok 7378697629483820633 /\
  RunPrecompiledContract P_bigModExp modexp_overflow_input 9223372036854775807 = Panic PanicIndex.
Proof. split; vm_compute; reflexivity. Qed.
