(* ===== verification/VmCallSafe.v ===== *)
(** * Calls and creations are safe

    The calls of [core/vm/evm.go] over an interpreter that keeps its promise
    [run_spec]: they do not panic, give back at most the gas they got, keep depth
    and read-only flag, and a failing call leaves the state as it was. *)

From Stdlib Require Import ZArith Lia.
From S2P Require Import Prelude Common Params Uint256 Crypto VmMemory VmAnalysis VmState VmContracts VmTable VmGas VmInstr VmInterp VmSpec VmMemFacts VmTableOk VmInv VmContractsSafe.

Open Scope go_scope.

Section calls_safe.
Context {U : Uint256} {UL : Uint256Laws U}.
Context {S : StateDB} {K : Keccak} {KI : KeccakInjective K} {SP : StateDBSpec S K}.
Context {C : CryptoPrims} {CL : CryptoLaws C} (env : Env).

(** The transfer functions of the context are those of [core/evm.go]. *)
Definition core_context : Prop :=
  CanTransfer (ctx env) = core_CanTransfer /\ Transfer (ctx env) = core_Transfer.

(** With write protection in the rules, the state a read-only call must keep is kept. *)
Definition unchanged (e e' : EVM) : Prop :=
  rIsByzantium (chainRules env) = true -> ro_eq (view (statedb e')) (view (statedb e)).

(** A run with the read-only flag [ro] leaves the read-only view alone. *)
Definition good_run (ro : bool) (e e' : EVM) : Prop := good env e e' /\ (ro = true -> unchanged e e').

(** What calls rely on: [run] for contracts with less than [G] gas. *)
Definition run_spec (G : Z) (run : Contract -> bytes -> bool -> M EVM (bytes * option error * Contract)) : Prop :=
  forall c input ro e,
    contract_ok c -> data_ok input -> Gas c < G -> evm_ok e -> depth e <= CallCreateDepth ->
    wp (run c input ro) e (fun r e' =>
      let '(rt, err, c') := r in
      good_run ro e e' /\ 0 <= Gas c' <= Gas c /\ data_ok rt).

(** A failing call keeps its gas only if it was refused or reverted by itself. *)
Definition burns (gas : Z) (err : option error) (gleft : Z) : Prop :=
  match err with
  | None | Some ErrExecutionReverted => True
  | Some ErrDepth | Some ErrInsufficientBalance => gleft = gas \/ gleft = 0
  | Some _ => gleft = 0
  end.

(** What a call promises. *)
Definition call_post (e : EVM) (input : bytes) (gas : Z) (r : call_res) (e' : EVM) : Prop :=
  let '(rt, gleft, err) := r in
  good env e e' /\ 0 <= gleft <= gas /\ data_ok (ret_bytes input rt) /\
  (err <> None -> view (statedb e') ≡ view (statedb e)) /\ burns gas err gleft.

(** ** Snapshots *)

(** [e1] is [e] with a snapshot [id] taken. *)
Definition snapped (e e1 : EVM) (id : Z) : Prop :=
  evm_ok e1 /\ depth e1 = depth e /\ readOnly e1 = readOnly e /\
  view (statedb e1) ≡ view (statedb e) /\
  snaps_eq (snaps (statedb e1)) (snaps (statedb e) ++ [(id, view (statedb e))]).

Lemma wp_snapshot e (Q : Z -> EVM -> Prop) :
  evm_ok e -> (forall id d', snapped e (with_db e d') id -> Q id (with_db e d')) ->
  wp (db_get Snapshot) e Q.
Proof.
  intros He HQ. pose proof (Snapshot_spec _ (eo_db _ He)) as Hs. unfold wp, db_get.
  destruct (Snapshot (statedb e)) as [id d']. destruct Hs as (Hd & Hv & Hs & _).
  cbn. apply HQ. split; [by destruct He|]. done.
Qed.

Lemma snapped_ext e e1 id : snapped e e1 id -> ext env e e1.
Proof.
  intros (_ & Hd & Hr & Hv & Hs). split; [done|done|by eexists| |apply no_mint_same, Hv]. intros _. by apply view_eq_ro.
Qed.

Lemma snapped_good e e1 e2 id : snapped e e1 id -> good env e1 e2 -> good env e e2.
Proof. intros H1 [H2 H3]. split; [done|]. eapply ext_trans; [by eapply snapped_ext|done]. Qed.

Lemma revert_safe e e1 e2 id (Q : unit -> EVM -> Prop) :
  snapped e e1 id -> good env e1 e2 ->
  (forall d', good env e (with_db e2 d') -> view d' ≡ view (statedb e) -> Q tt (with_db e2 d')) ->
  wp (db_try (RevertToSnapshot id)) e2 Q.
Proof.
  intros (He1 & Hd & Hr & Hv & Hs) [He2 [D2 R2 [l S2] V2 _]] HQ.
  destruct (Revert_spec (statedb e2) (snaps (statedb e)) id (view (statedb e)) l) as (d' & Er & Hd' & Hv' & Hs').
  { apply He2. }
  { rewrite S2. change ((id, view (statedb e)) :: l) with ([(id, view (statedb e))] ++ l).
    rewrite app_assoc. by apply Forall2_app. }
  unfold wp, db_try. rewrite Er. cbn. apply HQ; [|done]. destruct He2. split; [by split|].
  split; cbn; try congruence.
  - exists []. by rewrite app_nil_r.
  - intros _. by apply view_eq_ro.
  - apply no_mint_same, Hv'.
Qed.

Lemma call_finish_safe e e1 e2 id input gas rt gleft err :
  snapped e e1 id -> good env e1 e2 -> 0 <= gleft <= gas -> data_ok (ret_bytes input rt) ->
  wp (call_finish id (rt, gleft, err)) e2 (call_post e input gas).
Proof.
  intros Hs Hg Hl Hd. unfold call_finish. destruct err as [er|].
  - apply wp_bind. eapply revert_safe; [done..|]. intros d' Hg' Hv. apply wp_ret.
    split; [done|]. split; [case_bool_decide; lia|]. split; [done|]. split; [by intros _|].
    destruct er; cbn; auto.
  - apply wp_ret. split; [by eapply snapped_good|]. done.
Qed.

(** Results before anything happened. *)
Definition refusal (err : option error) : Prop :=
  err = None \/ err = Some ErrDepth \/ err = Some ErrInsufficientBalance.

Lemma call_refused_good e e' input gas err :
  good env e e' -> view (statedb e') ≡ view (statedb e) -> 0 <= gas -> refusal err ->
  call_post e input gas (RetOwn [], gas, err) e'.
Proof.
  intros Hgd Hv Hg Hr. split; [done|]. split; [lia|]. split; [apply data_ok_nil|]. split; [done|].
  destruct Hr as [->|[->| ->]]; cbn; auto.
Qed.

Lemma call_refused e input gas err :
  evm_ok e -> 0 <= gas -> refusal err -> call_post e input gas (RetOwn [], gas, err) e.
Proof. intros He Hg Hr. apply call_refused_good; [by apply good_refl|done..]. Qed.

(** ** Pieces of the calls *)

Lemma precompile_safe p input gas e (Q : call_res -> EVM -> Prop) :
  data_ok input -> 0 <= gas < gas_max ->
  (forall rt gleft err, 0 <= gleft <= gas -> data_ok (ret_bytes input rt) -> Q (rt, gleft, err) e) ->
  wp (lift_out (RunPrecompiledContract p input gas)) e Q.
Proof.
  intros Hi Hg HQ. destruct (RunPrecompiledContract_spec p input gas Hi Hg) as (rt & gleft & err & E & Hl & Hd & _).
  unfold wp, lift_out. rewrite E. by apply HQ.
Qed.

Lemma wp_NewContract caller object v gas e0 e (Q : Contract -> EVM -> Prop) :
  good env e0 e ->
  (forall j, good env e0 (with_jumpdests e j) ->
     Q (MkContract (ref_Address caller) caller object None [] 0 None [] gas v) (with_jumpdests e j)) ->
  wp (NewContract caller object v gas) e Q.
Proof.
  intros Hg HQ. unfold wp, NewContract. cbn. destruct caller.
  - apply HQ. apply good_jumpdests; [done|apply cache_ok_empty].
  - specialize (HQ (jumpdests e)). assert (with_jumpdests e (jumpdests e) = e) as E by (by destruct e).
    rewrite E in HQ. by apply HQ.
Qed.

(** The code hash read next to the code is its hash, or zero. *)
Lemma code_hash_ok d d' a :
  db_ok d -> db_ok d' -> view d' ≡ view d ->
  vCodeHash (view d') a = 0 \/ vCodeHash (view d') a = Keccak256Hash (vCode (view d) a).
Proof.
  intros H H' E. pose proof (view_wf d' H') as [Ha Hh _]. rewrite <- (ve_Code _ _ E).
  destruct (vExist (view d') a) eqn:Ex; [right; auto|left]. by destruct (Ha a Ex) as (_ & _ & _ & -> & _).
Qed.

Lemma fresh_contract_ok caller self_ callerAddr gas v addr hash code :
  0 <= gas < gas_max -> data_ok code -> (hash = 0 \/ hash = Keccak256Hash code) ->
  contract_ok (SetCallCode (MkContract callerAddr caller self_ None [] 0 None [] gas v) addr hash code).
Proof. intros. split; cbn; try done. Qed.

(** [ret, err = run(...)] of a call. *)
Lemma run_contract_safe G run c input ro e0 e (Q : call_res -> EVM -> Prop) :
  run_spec G run -> good env e0 e -> contract_ok c -> data_ok input -> Gas c < G -> depth e <= CallCreateDepth ->
  (forall rt gleft err e', good env e0 e' -> 0 <= gleft <= Gas c -> data_ok rt ->
     (ro = true -> unchanged e e') -> Q (RetOwn rt, gleft, err) e') ->
  wp (run_contract run c input ro) e Q.
Proof.
  intros Hrun [He Hx] Hc Hi HG Hd HQ. apply wp_bind.
  eapply wp_mono; [by apply Hrun|]. intros [[rt err] c'] e' ([[He' Hx'] Hro] & Hg & Hrt). apply wp_ret.
  apply HQ; [|done..]. split; [done|]. by eapply ext_trans.
Qed.

Lemma good_depth e0 e : good env e0 e -> depth e = depth e0.
Proof. by intros [_ []]. Qed.

Lemma protected_dec e : protected env e \/ ~ protected env e.
Proof. unfold protected. destruct (readOnly e), (rIsByzantium (chainRules env)); intuition congruence. Qed.

Lemma snapped_protected e e1 id : snapped e e1 id -> protected env e1 -> protected env e.
Proof. intros (_ & _ & Hr & _). unfold protected. by rewrite Hr. Qed.

(** The code of an account, with its hash, in the order of the calls other than
    [Call]. *)
Lemma load_code_safe G run contract0 addr caller self_ callerAddr gas v input ro e0 e (Q : call_res -> EVM -> Prop) :
  contract0 = MkContract callerAddr caller self_ None [] 0 None [] gas v ->
  run_spec G run -> good env e0 e -> data_ok input -> 0 <= gas < G -> gas < gas_max -> depth e <= CallCreateDepth ->
  (forall rt gleft err e', good env e0 e' -> 0 <= gleft <= gas -> data_ok rt ->
     (ro = true -> unchanged e e') -> Q (RetOwn rt, gleft, err) e') ->
  wp (hash <~ db_get (GetCodeHash addr) ;;
      code <~ db_get (GetCode addr) ;;
      run_contract run (SetCallCode contract0 (Some addr) hash code) input ro) e Q.
Proof.
  intros -> Hrun Hg Hi HG Hm Hd HQ. pose proof (eo_db _ (proj1 Hg)) as Hdb.
  apply wp_bind. eapply wp_getter; [apply _|done|]. intros d1 Hg1 (Hd1 & Hv1 & _).
  apply wp_bind. eapply wp_getter; [apply _|done|]. intros d2 Hg2 (_ & Hv2 & _).
  destruct (GetCodeHash_spec addr _ Hdb) as [-> _].
  destruct (GetCode_spec addr _ Hd1) as [E _]. cbn [statedb with_db] in *. rewrite E.
  eapply run_contract_safe; [done|done| |done|cbn; lia|done|].
  - apply fresh_contract_ok; [lia|apply view_wf; done|]. by apply (code_hash_ok d1).
  - intros rt gleft err e' Hg' Hl Hrt Hro. apply HQ; [done..|]. intros Ht Hb.
    etransitivity; [by apply Hro|]. apply view_eq_ro. cbn. by rewrite Hv2.
Qed.

(** ** The calls *)

Section with_run.
Context (G : Z) (run : Contract -> bytes -> bool -> M EVM (bytes * option error * Contract)).
Hypothesis Hctx : core_context.
Hypothesis Hrun : run_spec G run.

Lemma CallCode_safe caller addr input gas v e :
  evm_ok e -> data_ok input -> 0 <= gas < G -> gas < gas_max ->
  wp (CallCode env run caller addr input gas v) e (call_post e input gas).
Proof.
  intros He Hi HG Hm. unfold CallCode. apply wp_bind, wp_gets.
  case_match; [apply wp_ret, call_refused; [done|lia|unfold refusal; auto]|].
  destruct (Z.ltb_spec CallCreateDepth (depth e)); [apply wp_ret, call_refused; [done|lia|unfold refusal; auto]|].
  apply wp_bind. rewrite (proj1 Hctx). eapply wp_getter; [apply _|by apply good_refl|].
  intros d1 Hg1 (_ & Hv1 & _). case_match; [apply wp_ret, call_refused_good; [done|done|lia|unfold refusal; auto]|].
  apply wp_bind, wp_snapshot; [apply Hg1|]. intros id d2 Hs. set (e1 := with_db e d1) in *. set (e2 := with_db e1 d2) in *.
  assert (good env e2 e2) as Hg2 by (apply good_refl, Hs).
  apply (wp_mono _ _ (call_post e1 input gas)).
  - apply wp_bind. destruct (precompile (chainRules env) addr).
    + apply precompile_safe; [done|lia|]. intros. by eapply call_finish_safe.
    + apply wp_bind. eapply wp_NewContract; [exact Hg2|]. intros j Hgj.
      eapply load_code_safe; [done|done|exact Hgj|done|lia|done|done|].
      intros rt gleft err e' Hg' Hl Hrt _. by eapply call_finish_safe.
  - intros [[rt gleft] err] e' (Hg' & Hl & Hd & Hv & Hb). split; [by eapply good_trans|]. split; [done|]. split; [done|].
    split; [|done]. intros Herr. rewrite Hv by done. done.
Qed.

Lemma DelegateCall_safe caller addr input gas e :
  (exists s a x, caller = CallerContract s a x) ->
  evm_ok e -> data_ok input -> 0 <= gas < G -> gas < gas_max ->
  wp (DelegateCall env run caller addr input gas) e (call_post e input gas).
Proof.
  intros (cs & ca & cv & ->) He Hi HG Hm. unfold DelegateCall. apply wp_bind, wp_gets.
  case_match; [apply wp_ret, call_refused; [done|lia|unfold refusal; auto]|].
  destruct (Z.ltb_spec CallCreateDepth (depth e)); [apply wp_ret, call_refused; [done|lia|unfold refusal; auto]|].
  apply wp_bind, wp_snapshot; [done|]. intros id d2 Hs. set (e2 := with_db e d2) in *.
  assert (good env e2 e2) as Hg2 by (apply good_refl, Hs).
  apply wp_bind. destruct (precompile (chainRules env) addr).
  - apply precompile_safe; [done|lia|]. intros. by eapply call_finish_safe.
  - apply wp_bind. eapply wp_NewContract; [exact Hg2|]. intros j Hgj.
    apply wp_bind. eapply wp_lift_opt; [reflexivity|].
    eapply load_code_safe; [reflexivity|done|exact Hgj|done|cbn; lia|done|done|].
    intros rt gleft err e' Hg' Hl Hrt _. by eapply call_finish_safe.
Qed.

(** Without an error the state is that at the end of the callee; with one it is
    the state before the call. *)
Lemma call_finish_ro e e1 e2 id input gas rt gleft err :
  snapped e e1 id -> good env e1 e2 -> 0 <= gleft <= gas -> data_ok (ret_bytes input rt) -> unchanged e e2 ->
  wp (call_finish id (rt, gleft, err)) e2 (fun r e' => call_post e input gas r e' /\ unchanged e e').
Proof.
  intros Hs Hg Hl Hd Hu. apply wp_conj; [by eapply call_finish_safe|]. unfold call_finish.
  destruct err as [er|]; [|by apply wp_ret].
  apply wp_bind. eapply revert_safe; [done..|]. intros d' _ Hv. apply wp_ret. intros _. by apply view_eq_ro.
Qed.

Lemma StaticCall_readonly caller addr input gas e :
  evm_ok e -> data_ok input -> 0 <= gas < G -> gas < gas_max ->
  wp (StaticCall env run caller addr input gas) e (fun r e' => call_post e input gas r e' /\ unchanged e e').
Proof.
  intros He Hi HG Hm. unfold StaticCall. apply wp_bind, wp_gets.
  case_match; [apply wp_ret; split; [apply call_refused; [done|lia|unfold refusal; auto]|by intros _]|].
  destruct (Z.ltb_spec CallCreateDepth (depth e));
    [apply wp_ret; split; [apply call_refused; [done|lia|unfold refusal; auto]|by intros _]|].
  apply wp_bind, wp_snapshot; [done|]. intros id d2 Hs. set (e2 := with_db e d2) in *.
  assert (good env e2 e2) as Hg2 by (apply good_refl, Hs).
  assert (db_ok (statedb e2)) as Hdb by (apply Hg2).
  pose proof (AddBalance_spec addr 0 _ Hdb) as (Hd3 & Hv3 & Hs3).
  assert (good env e2 (with_db e2 (AddBalance addr 0 (statedb e2)))) as Hg3.
  { eapply good_with_db; [done|by apply AddBalance_spec| |].
    - intros _. by apply s_AddBalance_ro, view_wf.
    - apply no_mint_same, ro_Balance, s_AddBalance_ro, view_wf. done. }
  apply wp_bind, wp_modify. set (e3 := with_db e2 _) in *.
  assert (unchanged e e3) as Hu3.
  { intros _. cbn. etransitivity; [by apply view_eq_ro|]. etransitivity; [by apply s_AddBalance_ro, view_wf|].
    apply view_eq_ro, Hs. }
  apply wp_bind. destruct (precompile (chainRules env) addr).
  - apply precompile_safe; [done|lia|]. intros. by eapply call_finish_ro.
  - apply wp_bind. eapply wp_NewContract; [exact Hg3|]. intros j Hgj.
    eapply load_code_safe; [reflexivity|done|exact Hgj|done|lia|done|done|].
    intros rt gleft err e' Hg' Hl Hrt Hro. eapply call_finish_ro; [done..|].
    intros Hb. etransitivity; [by apply Hro|]. by apply Hu3.
Qed.

Lemma StaticCall_safe caller addr input gas e :
  evm_ok e -> data_ok input -> 0 <= gas < G -> gas < gas_max ->
  wp (StaticCall env run caller addr input gas) e (call_post e input gas).
Proof. intros. eapply wp_mono; [by apply StaticCall_readonly|]. by intros ? ? []. Qed.

(** A transfer; under write protection only of nothing. *)
Lemma transfer_safe a b v e0 e (Q : unit -> EVM -> Prop) :
  good env e0 e -> (protected env e0 -> v = 0) -> affordable v (view (statedb e)) a ->
  (forall d', good env e0 (with_db e d') -> Q tt (with_db e d')) ->
  wp (db_do (Transfer (ctx env) a b v)) e Q.
Proof.
  intros Hg Hv Ha HQ. rewrite (proj2 Hctx). destruct (protected_dec e0) as [Hp|Hp].
  - rewrite (Hv Hp). eapply wp_quiet; [exact Hg|apply quiet_Transfer0, Hg|]. intros d' Hg' _. by apply HQ.
  - eapply wp_effect; [exact Hg|done|apply Transfer_effect, Hg|apply no_mint_Transfer; [apply view_wf, Hg|done]|].
    intros d' Hg' _. by apply HQ.
Qed.

(** What the check of the balance says. *)
Lemma can_transfer a v d : db_ok d -> fst (core_CanTransfer a v d) = true -> v <= vBalance (view d) a.
Proof.
  intros H. unfold core_CanTransfer. destruct (GetBalance_spec a d H) as [E _].
  destruct (GetBalance a d) as [b d']. cbn in *. subst b. lia.
Qed.

(** Running the code of an account, in the order of [Call]. *)
Lemma call_code_safe caller addr input gas v e0 e (Q : call_res -> EVM -> Prop) :
  good env e0 e -> data_ok input -> 0 <= gas < G -> gas < gas_max -> depth e <= CallCreateDepth ->
  (forall rt gleft err e', good env e0 e' -> 0 <= gleft <= gas -> data_ok (ret_bytes input rt) -> Q (rt, gleft, err) e') ->
  wp (code <~ db_get (GetCode addr) ;;
      if zlen code =? 0 then ret (RetOwn [], gas, None)
      else
        contract <~ NewContract caller addr v gas ;;
        hash <~ db_get (GetCodeHash addr) ;;
        run_contract run (SetCallCode contract (Some addr) hash code) input false) e Q.
Proof.
  intros Hg Hi HG Hm Hd HQ. pose proof (eo_db _ (proj1 Hg)) as Hdb.
  apply wp_bind. eapply wp_getter; [apply _|exact Hg|]. intros d1 Hg1 (Hd1 & Hv1 & _).
  destruct (GetCode_spec addr _ Hdb) as [-> _].
  case_match; [apply wp_ret, HQ; [done|lia|apply data_ok_nil]|].
  apply wp_bind. eapply wp_NewContract; [exact Hg1|]. intros j Hgj.
  apply wp_bind. eapply wp_getter; [apply _|exact Hgj|]. intros d2 Hg2 _.
  destruct (GetCodeHash_spec addr d1 Hd1) as [E _]. cbn [statedb with_db with_jumpdests]. rewrite E.
  eapply run_contract_safe; [done|exact Hg2| |done|cbn; lia|done|].
  - apply fresh_contract_ok; [lia|by apply view_wf|]. by apply code_hash_ok.
  - intros rt gleft err e' Hg' Hl Hrt _. by apply HQ.
Qed.

Lemma Call_safe caller addr input gas v e :
  evm_ok e -> data_ok input -> 0 <= gas < G -> gas < gas_max -> 0 <= v -> (protected env e -> v = 0) ->
  wp (Call env run caller addr input gas v) e (call_post e input gas).
Proof.
  intros He Hi HG Hm Hv0 Hv. unfold Call. apply wp_bind, wp_gets.
  case_match; [apply wp_ret, call_refused; [done|lia|unfold refusal; auto]|].
  destruct (Z.ltb_spec CallCreateDepth (depth e)); [apply wp_ret, call_refused; [done|lia|unfold refusal; auto]|].
  apply wp_bind.
  apply (wp_mono _ _ (fun can e1 => good env e e1 /\ view (statedb e1) ≡ view (statedb e) /\
    (can = true -> affordable v (view (statedb e)) (ref_Address caller)))).
  { case_match eqn:Esg; [|apply wp_ret; split; [by apply good_refl|]; split; [done|]; intros _; split; [done|]].
    - rewrite (proj1 Hctx). eapply wp_getter; [apply _|by apply good_refl|]. intros d1 Hg1 (_ & Hv1 & _).
      split; [done|]. split; [done|]. intros Hc. split; [done|]. intros _. by apply can_transfer; [apply He|].
    - destruct v; done. }
  intros can e1 (Hg1 & Hv1 & Haff). case_match eqn:Ecan; [apply wp_ret, call_refused_good; [done|done|lia|unfold refusal; auto]|].
  apply wp_bind, wp_snapshot; [apply Hg1|]. intros id d2 Hs. set (e2 := with_db e1 d2) in *.
  assert (good env e2 e2) as Hg2 by (apply good_refl, Hs).
  assert (protected env e2 -> v = 0) as Hv2.
  { intros Hp. apply Hv. apply (snapped_protected _ _ _ Hs) in Hp. destruct Hg1 as [_ [_ Er _ _]].
    unfold protected in *. by rewrite <- Er. }
  apply (wp_mono _ _ (call_post e1 input gas)).
  2: { intros [[rt gleft] err] e' (Hg' & Hl & Hd & Hv' & Hb). split; [by eapply good_trans|]. split; [done|]. split; [done|].
       split; [|done]. intros Herr. by rewrite Hv' by done. }
  apply wp_bind. eapply wp_getter; [apply _|exact Hg2|]. intros d3 Hg3 (Hd3 & Hv3 & _).
  destruct (Exist_spec addr (statedb e2) (eo_db _ (proj1 Hg2))) as [Eex _].
  case_match eqn:Enone.
  { apply wp_ret. eapply (call_finish_safe _ _ _ _ input gas (RetOwn []) gas None);
      [exact Hs|exact Hg3|lia|apply data_ok_nil]. }
  apply wp_bind.
  apply (wp_mono _ _ (fun _ e4 => good env e2 e4 /\ ro_eq (view (statedb e4)) (view (statedb e2)))).
  { case_match; [|apply wp_ret; split; [done|by apply view_eq_ro]]. eapply wp_quiet; [exact Hg3| |].
    2: { intros d4 Hg4 Hv4. split; [done|]. etransitivity; [exact Hv4|]. by apply view_eq_ro. }
    apply quiet_CreateAccount; [done|]. etransitivity; [apply (ve_Exist _ _ Hv3)|]. etransitivity; [symmetry; exact Eex|]. by apply negb_true_iff. }
  intros _ e4 [Hg4 Hv4]. apply wp_bind. eapply transfer_safe; [exact Hg4|done| |].
  { apply negb_false_iff in Ecan. destruct (Haff Ecan) as [_ Hb]. split; [done|]. intros Hn. rewrite (ro_Balance _ _ Hv4).
    destruct Hs as (_ & _ & _ & Hv12 & _). rewrite (ve_Balance _ _ Hv12), (ve_Balance _ _ Hv1). by apply Hb. }
  intros d5 Hg5.
  apply wp_bind. assert (depth (with_db e4 d5) <= CallCreateDepth) as Hdep.
  { rewrite (good_depth _ _ Hg5). destruct Hs as (_ & -> & _). rewrite (good_depth _ _ Hg1). done. }
  destruct (precompile (chainRules env) addr).
  - apply precompile_safe; [done|lia|]. intros. by eapply call_finish_safe.
  - eapply call_code_safe; [exact Hg5|done..|].
    intros rt gleft err e' Hg' Hl Hrt. by eapply call_finish_safe.
Qed.

(** ** Creations *)

(** What a creation by [caller] at [address] promises: the code it returns is
    stored, within the size limit; when it fails, at most the nonce of the caller
    has changed. *)
Definition code_stored (address : Address) (r : create_res) (e' : EVM) : Prop :=
  let '(rt, a, _, err) := r in
  err = None -> NoRecursion env = false ->
  a = address /\ vCode (view (statedb e')) address = rt /\
  (rIsEIP158 (chainRules env) = true -> zlen rt <= MaxCodeSize).

Definition create_post (e : EVM) (caller address : Address) (gas : Z) (r : create_res) (e' : EVM) : Prop :=
  let '(rt, _, gleft, err) := r in
  good env e e' /\ 0 <= gleft <= gas /\ data_ok rt /\ code_stored address r e' /\
  (err <> None -> rIsHomestead (chainRules env) = true ->
   view (statedb e') ≡ view (statedb e) \/
   view (statedb e') ≡ s_SetNonce caller (u64 (vNonce (view (statedb e)) caller + 1)) (view (statedb e))).

Lemma UseGas_range c g : 0 <= Gas c < gas_max -> 0 <= g ->
  0 <= Gas (snd (UseGas c g)) <= Gas c.
Proof.
  intros Hc Hg. unfold UseGas. destruct (Z.ltb_spec (Gas c) g); cbn; [lia|].
  rewrite u64_small; [lia|]. unfold is_u64, two64, gas_max in *. lia.
Qed.

(** Storing the code, or not. *)
Lemma create_store_safe e1 e2 address rt err c gas :
  good env e1 e2 -> ~ protected env e1 -> data_ok rt -> 0 <= Gas c <= gas -> gas < gas_max ->
  let mx := rIsEIP158 (chainRules env) && (MaxCodeSize <? zlen rt) in
  wp (if bool_decide (err = None) && negb mx then
        let createDataGas := u64 (zlen rt * CreateDataGas) in
        let '(ok, c) := UseGas c createDataGas in
        if (ok : bool) then db_do (SetCode address rt) ;;; ret (None, c)
        else ret (Some ErrCodeStoreOutOfGas, c)
      else ret (err, c)) e2
    (fun r e3 => good env e1 e3 /\ 0 <= Gas (snd r) <= gas /\
       (fst r = None -> mx = false -> vCode (view (statedb e3)) address = rt)).
Proof.
  intros Hg Hnp Hrt Hc Hm mx. destruct (bool_decide (err = None) && negb mx) eqn:Eb.
  - pose proof (UseGas_range c (u64 (zlen rt * CreateDataGas)) ltac:(lia) ltac:(apply u64_range)) as Hu. cbv zeta.
    destruct (UseGas c (u64 (zlen rt * CreateDataGas))) as [ok c']. cbn in Hu.
    destruct ok; [|apply wp_ret; cbn; split; [done|]; split; [lia|done]].
    apply wp_bind. eapply (wp_effect env _ (s_SetCode address rt));
      [exact Hg|done|by apply SetCode_spec; [apply Hg|]|apply no_mint_SetCode, view_wf, Hg|].
    intros d' Hg' (_ & Hv & _). apply wp_ret. split; [done|]. split; [cbn; lia|]. intros _ _.
    etransitivity; [apply (ve_Code _ _ Hv)|]. cbn. by rewrite upd_eq.
  - apply wp_ret. split; [done|]. split; [cbn; lia|]. cbn. intros -> Hmx. by rewrite Hmx, bool_decide_true in Eb.
Qed.

Lemma create_finish_safe e e1 e2 id address rt err c gas :
  snapped e e1 id -> good env e1 e2 -> ~ protected env e -> data_ok rt -> 0 <= Gas c <= gas -> gas < gas_max ->
  wp (create_finish env id address rt err c) e2 (fun r e' =>
    let '(rt, _, gleft, err) := r in
    good env e e' /\ 0 <= gleft <= gas /\ data_ok rt /\ code_stored address r e' /\
    (err <> None -> rIsHomestead (chainRules env) = true -> view (statedb e') ≡ view (statedb e))).
Proof.
  intros Hs Hg Hnp Hrt Hc Hm. unfold create_finish.
  assert (~ protected env e1) as Hnp1 by (intros Hp; apply Hnp; by eapply snapped_protected).
  apply wp_bind. eapply wp_mono; [by eapply create_store_safe|].
  set (mx := rIsEIP158 (chainRules env) && (MaxCodeSize <? zlen rt)).
  intros [err' c'] e3 (Hg3 & Hc' & Hcode). cbn in Hc', Hcode. apply wp_bind.
  destruct (mx || bool_decide (err' <> None) && (rIsHomestead (chainRules env) || negb (err_is err' ErrCodeStoreOutOfGas))) eqn:Erev.
  - apply wp_bind. eapply revert_safe; [exact Hs|exact Hg3|]. intros d' Hg' Hv. apply wp_ret, wp_ret.
    split; [done|]. split; [|split; [done|split]].
    + pose proof (UseGas_range c' (Gas c') ltac:(lia) ltac:(lia)). case_match; lia.
    + intros Herr. exfalso. revert Herr Erev. destruct mx; cbn [orb andb]; [case_bool_decide; naive_solver|].
      by intros ->.
    + intros _ _. done.
  - apply orb_false_iff in Erev as [Emx Erev]. apply wp_ret, wp_ret. rewrite Emx in *. cbn [andb].
    split; [by eapply snapped_good|]. split; [done|]. split; [done|]. split.
    + intros Herr _. split; [done|]. split; [by apply Hcode|]. intros E158. unfold mx in Emx. rewrite E158 in Emx.
      cbn in Emx. by apply Z.ltb_ge.
    + intros Herr Hh. rewrite Hh in Erev. rewrite bool_decide_true in Erev by done. done.
Qed.

Lemma create_safe caller cah gas v address e :
  evm_ok e -> 0 <= gas < G -> gas < gas_max -> 0 <= v -> ~ protected env e -> data_ok (cah_code cah) ->
  (cah_hash cah = 0 \/ cah_hash cah = Keccak256Hash (cah_code cah)) ->
  wp (create env run caller cah gas v address) e (create_post e (ref_Address caller) address gas).
Proof.
  intros He HG Hm Hv0 Hnp Hcode Hhash. unfold create. apply wp_bind, wp_gets.
  set (cl := ref_Address caller). set (v1 := s_SetNonce cl (u64 (vNonce (view (statedb e)) cl + 1)) (view (statedb e))).
  assert (forall e' g er a, good env e e' -> view (statedb e') ≡ view (statedb e) \/ view (statedb e') ≡ v1 ->
    0 <= g <= gas -> create_post e cl address gas ([], a, g, Some er) e') as Hfail.
  { intros e' g er a Hg Hv Hr. split; [done|]. split; [lia|]. split; [apply data_ok_nil|]. by split. }
  destruct (Z.ltb_spec CallCreateDepth (depth e)); [apply wp_ret, Hfail; [by apply good_refl|by left|lia]|].
  apply wp_bind. rewrite (proj1 Hctx). eapply wp_getter; [apply _|by apply good_refl|]. intros d1 Hg1 (Hd1 & Hv1 & _).
  case_match eqn:Ecan; [apply wp_ret, Hfail; [done|by left|lia]|].
  apply negb_false_iff, can_transfer in Ecan; [|apply He].
  apply wp_bind. eapply wp_getter; [apply _|exact Hg1|]. intros d2 Hg2 (Hd2 & Hv2 & _).
  destruct (GetNonce_spec cl d1 Hd1) as [En _]. cbn [statedb with_db] in *. rewrite En, (ve_Nonce _ _ Hv1).
  apply wp_bind. eapply (wp_effect env _ (s_SetNonce cl _)); [exact Hg2|done|by apply SetNonce_spec|by apply no_mint_SetNonce, view_wf|].
  intros d3 Hg3 (Hd3 & Hv3 & _). cbn [statedb with_db id] in *.
  apply wp_bind. eapply wp_getter; [apply _|exact Hg3|]. intros d4 Hg4 (_ & Hv4 & _).
  apply wp_bind. eapply wp_getter; [apply _|exact Hg4|]. intros d5 Hg5 (_ & Hv5 & _). cbn [statedb with_db id] in *.
  assert (view d5 ≡ v1) as Hv15 by (unfold v1; by rewrite Hv5, Hv4, Hv3, Hv2, Hv1).
  case_match; [apply wp_ret, Hfail; [done|by right|lia]|].
  apply wp_bind, wp_snapshot; [apply Hg5|]. intros id d6 Hs.
  match type of Hs with snapped ?a ?b _ => set (e5 := a) in *; set (e6 := b) in * end.
  assert (~ protected env e5) as Hnp5.
  { intros [Hp ?]. apply Hnp. split; [|done]. destruct Hg5 as [_ [_ Er _ _]]. by rewrite <- Er. }
  assert (~ protected env e6) as Hnp6 by (intros Hp; apply Hnp5; by eapply snapped_protected).
  assert (good env e6 e6) as Hg6 by (apply good_refl, Hs).
  assert (affordable v (view (statedb e6)) cl) as Haff.
  { split; [done|]. intros _. destruct Hs as (_ & _ & _ & Hv56 & _). rewrite (ve_Balance _ _ Hv56), (ve_Balance _ _ Hv15).
    unfold v1, s_SetNonce. cbn. rewrite s_ensure_balance; [done|by apply view_wf, He]. }
  apply wp_bind. eapply (wp_effect env _ (s_CreateAccount address));
    [exact Hg6|done|apply CreateAccount_spec, Hg6|apply no_mint_CreateAccount, view_wf, Hg6|]. intros d7 Hg7 (Hd7 & Hv7 & _).
  apply wp_bind. apply (wp_mono _ _ (fun _ e8 => good env e6 e8 /\
    forall b, vBalance (view (statedb e8)) b = vBalance (view (statedb e6)) b)).
  { assert (forall b, vBalance (view d7) b = vBalance (view (statedb e6)) b) as H7.
    { intros b. rewrite (ve_Balance _ _ Hv7). apply s_CreateAccount_balance, view_wf, Hg6. }
    case_match; [|by apply wp_ret]. eapply (wp_effect env _ (s_SetNonce address 1));
      [exact Hg7|done|by apply SetNonce_spec|by apply no_mint_SetNonce, view_wf|]. intros d8 Hg8 (_ & Hv8 & _). split; [done|].
    intros b. rewrite <- H7. etransitivity; [apply (ve_Balance _ _ Hv8)|]. cbn. by apply s_ensure_balance, view_wf. }
  intros _ e8 [Hg8 Hb8]. apply wp_bind. eapply transfer_safe; [exact Hg8|done| |].
  { destruct Haff as [Ha1 Ha2]. split; [done|]. intros Hn. rewrite Hb8. by apply Ha2. }
  intros d9 Hg9.
  apply wp_bind. eapply wp_NewContract; [exact Hg9|]. intros j Hgj.
  case_match eqn:Enr.
  { apply wp_ret. split; [eapply good_trans; [exact Hg5|by eapply snapped_good]|].
    split; [lia|]. split; [apply data_ok_nil|]. split; [|done]. intros _ Hn. by rewrite Hn in Enr. }
  apply wp_bind. eapply wp_mono.
  - apply Hrun; [by apply fresh_contract_ok; [lia|..]|apply data_ok_nil|cbn; lia|apply Hgj|].
    pose proof (good_depth _ _ Hgj) as D1. pose proof (good_depth _ _ Hg5) as D2. destruct Hs as (_ & D3 & _).
    etransitivity; [apply Z.eq_le_incl, D1|]. etransitivity; [apply Z.eq_le_incl, D3|]. by rewrite D2.
  - intros [[rt err] c'] e' ([Hg' _] & Hc' & Hrt). cbn in Hc'.
    eapply wp_mono; [eapply create_finish_safe; [exact Hs|by eapply good_trans|done..|lia]|].
    intros [[[rt2 a] gleft] err2] e'' (Hg'' & Hl & Hd & Hst & Hf). split; [by eapply good_trans|].
    split; [done|]. split; [done|]. split; [done|]. intros Herr Hh. right. rewrite Hf by done. done.
Qed.

Lemma Create_safe caller code gas v e :
  evm_ok e -> 0 <= gas < G -> gas < gas_max -> 0 <= v -> ~ protected env e -> data_ok code ->
  wp (Create env run caller code gas v) e
    (create_post e (ref_Address caller)
       (CreateAddress (ref_Address caller) (vNonce (view (statedb e)) (ref_Address caller))) gas).
Proof.
  intros He HG Hm Hv0 Hnp Hcode. apply wp_bind. eapply wp_getter; [apply _|by apply good_refl|]. intros d1 Hg1 (_ & Hv1 & _).
  destruct (GetNonce_spec (ref_Address caller) _ (eo_db _ He)) as [-> _].
  eapply wp_mono; [apply create_safe; [apply Hg1|done|done|done| |done|by left]|].
  - intros [Hp ?]. apply Hnp. by split.
  - intros [[[rt a] gleft] err] e' (Hg' & Hl & Hd & Hst & Hf). split; [by eapply good_trans|].
    split; [done|]. split; [done|]. split; [done|]. intros Herr Hh. cbn [statedb with_db] in *.
    destruct (Hf Herr Hh) as [->| ->]; [by left|right]. by rewrite (ve_Nonce _ _ Hv1), Hv1.
Qed.

Lemma Create2_safe caller code gas v salt e :
  evm_ok e -> 0 <= gas < G -> gas < gas_max -> 0 <= v -> ~ protected env e -> data_ok code ->
  wp (Create2 env run caller code gas v salt) e
    (create_post e (ref_Address caller)
       (CreateAddress2 (ref_Address caller) (U_Bytes32 salt) (Hash_Bytes (Keccak256Hash code))) gas).
Proof. intros He HG Hm Hv0 Hnp Hcode. apply create_safe; try done. by right. Qed.
End with_run.
End calls_safe.
