(* ===== verification/VmExecSafe.v ===== *)
(** * The instructions are safe

    An instruction whose operands are on the stack and whose memory windows are
    paid for does not panic, has the stack effect of the table, keeps the
    invariants and spends no more than it was given. *)

From Stdlib Require Import ZArith Lia.
From S2P Require Import Prelude Common Params Uint256 Crypto VmMemory VmAnalysis VmState VmContracts VmTable VmGas VmInstr VmInterp VmSpec VmMemFacts VmTableOk VmInv VmGasSafe VmContractsSafe VmCallSafe.

Open Scope go_scope.

#[local] Arguments be_bytes : simpl never.

Section exec_rules.
Context {U : Uint256} {UL : Uint256Laws U}.
Context {S : StateDB} {K : Keccak} {KI : KeccakInjective K} {SP : StateDBSpec S K}.
Context {C : CryptoPrims} {CL : CryptoLaws C} (env : Env).

(** Gas a call instruction adds to what it took from the frame. *)
Definition callee_gas (x : execFn) (s : mstate) : Z :=
  match x with
  | X_opCall | X_opCallCode =>
      match Back (stack (fr s)) 2 with
      | Some v => stipend v (callGasTemp (evm s))
      | None => 0
      end
  | X_opDelegateCall | X_opStaticCall => callGasTemp (evm s)
  | _ => 0
  end.

Definition slice_ok (sl : slice) : Prop := forall b, sl = Own b -> data_ok b.

Record exec_pre (G : Z) (x : execFn) (w : Z) (s : mstate) : Prop := MkExecPre {
  ep_frame : frame_ok (fr s) w;
  ep_evm : evm_ok (evm s);
  ep_stack : pops x <= zlen (stack (fr s));
  ep_mem : forall f, mem_for x = Some f -> exists n,
    mem_of f (stack (fr s)) = Some (n, false) /\ n <= Memory_Len (memory (fr s));
  ep_params : params_ok x = true;
  ep_push : is_push x = true -> pc (fr s) < zlen (Code (contract (fr s)));
  ep_writes : writes_state x = true -> ~ protected env (evm s);
  ep_value : x = X_opCall -> protected env (evm s) ->
    forall v, Back (stack (fr s)) 2 = Some v -> U_ToBig v = 0;
  ep_callee : 0 <= callee_gas x s /\ (is_call x = true -> callee_gas x s < G);
  ep_create : is_create x = true -> Gas (contract (fr s)) < G;
  ep_total : Gas (contract (fr s)) + callee_gas x s < gas_max;
}.

Record exec_post (x : execFn) (w : Z) (s : mstate) (r : slice * option error) (s' : mstate) : Prop := MkExecPost {
  eq_evm : good env (evm s) (evm s');
  eq_mem : mem_ok (memory (fr s')) w;
  eq_contract : contract_ok (contract (fr s'));
  eq_gas : Gas (contract (fr s')) <= Gas (contract (fr s)) + callee_gas x s;
  eq_code : Code (contract (fr s')) = Code (contract (fr s));
  eq_pc : 0 <= pc (fr s');
  eq_rstack : zlen (rstack (fr s')) <= 1023;
  eq_ret : slice_ok r.1;
  eq_stack : r.2 = None -> zlen (stack (fr s')) = zlen (stack (fr s)) - pops x + pushes x;
}.

(** ** Rules for the frame *)

Lemma slice_ok_own b : data_ok b -> slice_ok (Own b).
Proof. by intros H ? [= <-]. Qed.
Lemma slice_ok_nil : slice_ok (Own []).
Proof. apply slice_ok_own, data_ok_nil. Qed.

Lemma wp_pop x st s (Q : u256 -> mstate -> Prop) :
  stack (fr s) = x :: st -> Q x (MkMstate U S (fr_stack (fr s) st) (evm s)) -> wp pop_ s Q.
Proof. intros E H. unfold wp, pop_, bind, getf, gets, lift_opt. by rewrite E. Qed.

Lemma wp_peek x st s (Q : u256 -> mstate -> Prop) :
  stack (fr s) = x :: st -> Q x s -> wp peek_ s Q.
Proof. intros E H. unfold wp, peek_, bind, getf, gets. by rewrite E. Qed.

Lemma wp_modf g s (Q : unit -> mstate -> Prop) :
  Q tt (MkMstate U S (g (fr s)) (evm s)) -> wp (modf g) s Q.
Proof. done. Qed.

Lemma wp_mode g s (Q : unit -> mstate -> Prop) :
  Q tt (MkMstate U S (fr s) (g (evm s))) -> wp (mode g) s Q.
Proof. done. Qed.

Lemma wp_lift_out {T A} (o : outcome A) a (s : T) (Q : A -> T -> Prop) :
  o = Ok a -> Q a s -> wp (lift_out o) s Q.
Proof. intros -> H. done. Qed.

(** ** Memory windows *)

Lemma calc_covered m o l n :
  calcMemSize64 o l = (n, false) -> n <= Memory_Len m -> covered m (U_ToBig o) (U_ToBig l).
Proof.
  unfold calcMemSize64, calcMemSize64WithUint, covered. rewrite U_IsUint64_val, U_Uint64_val, U_Uint64WithOverflow_val.
  pose proof (U_range o). pose proof (U_range l).
  destruct (Z.ltb_spec (U_ToBig l) two64); cbn; [|done]. rewrite u64_small by u64_lia.
  destruct (Z.eqb_spec (U_ToBig l) 0); [by left|].
  destruct (Z.ltb_spec (U_ToBig o) two64); cbn; [|done]. rewrite (u64_small (U_ToBig o)) by u64_lia.
  intros [= <- Hlt%Z.ltb_ge] Hn. right.
  destruct (Z.lt_ge_cases (U_ToBig o + U_ToBig l) two64) as [Hs|Hs].
  - rewrite u64_small in Hn by u64_lia. lia.
  - rewrite u64_wrap_high in Hlt by u64_lia. lia.
Qed.

Lemma calc1_covered m o l n :
  0 < l < two64 -> calcMemSize64WithUint o l = (n, false) -> n <= Memory_Len m ->
  U_Uint64 o = U_ToBig o /\ 0 <= U_ToBig o /\ U_ToBig o + l <= Memory_Len m.
Proof.
  unfold calcMemSize64WithUint. rewrite U_Uint64_val, U_Uint64WithOverflow_val. intros Hl.
  pose proof (U_range o). destruct (Z.eqb_spec l 0); [lia|].
  destruct (Z.ltb_spec (U_ToBig o) two64); cbn; [|done]. rewrite (u64_small (U_ToBig o)) by u64_lia.
  intros [= <- Hlt%Z.ltb_ge] Hn.
  destruct (Z.lt_ge_cases (U_ToBig o + l) two64) as [Hs|Hs].
  - rewrite u64_small in Hn by u64_lia. lia.
  - rewrite u64_wrap_high in Hlt by u64_lia. lia.
Qed.

Lemma mem_max_both f g (st : Stack u256) n :
  mem_max f g st = Some (n, false) ->
  exists a b, f st = Some (a, false) /\ g st = Some (b, false) /\ a <= n /\ b <= n.
Proof.
  unfold mem_max. destruct (f st) as [[a []]|]; [done| |done].
  destruct (g st) as [[b []]|]; [done| |done].
  destruct (Z.ltb_spec b a); intros [= <-]; eexists _, _; repeat split; lia.
Qed.

Lemma wp_getPtr o l w s (Q : slice -> mstate -> Prop) :
  mem_ok (memory (fr s)) w -> covered (memory (fr s)) (U_ToBig o) (U_ToBig l) ->
  (forall sl, slice_ok sl -> Q sl s) -> wp (getPtr o l) s Q.
Proof.
  intros Hm Hc HQ. apply wp_bind, wp_gets.
  destruct (GetPtr_covered _ _ _ _ Hm Hc) as (sl & E & Hsl). eapply wp_lift_out; [exact E|]. apply HQ.
  destruct Hsl as [->|[-> _]]; [apply slice_ok_nil|done].
Qed.

Lemma wp_getCopy o l w s (Q : bytes -> mstate -> Prop) :
  mem_ok (memory (fr s)) w -> covered (memory (fr s)) (U_ToBig o) (U_ToBig l) ->
  (forall b, data_ok b -> Q b s) -> wp (getCopy o l) s Q.
Proof.
  intros Hm Hc HQ. apply wp_bind, wp_gets.
  destruct (GetCopy_covered _ _ _ _ Hm Hc) as (b & E & Hb). eapply wp_lift_out; [exact E|]. by apply HQ.
Qed.

Lemma wp_bytes_of sl w s (Q : bytes -> mstate -> Prop) :
  mem_ok (memory (fr s)) w -> slice_ok sl ->
  (data_ok (deref (memory (fr s)) sl) -> Q (deref (memory (fr s)) sl) s) -> wp (bytes_of sl) s Q.
Proof. intros Hm Hs HQ. apply wp_bind, wp_gets, wp_ret, HQ. by eapply deref_ok. Qed.

Lemma wp_memSet o l v w s (Q : unit -> mstate -> Prop) :
  mem_ok (memory (fr s)) w -> covered (memory (fr s)) (U_ToBig o) (U_ToBig l) -> Forall is_byte v ->
  (forall m', mem_ok m' w -> Q tt (MkMstate U S (fr_memory (fr s) m') (evm s))) ->
  wp (memSet (U_Uint64 o) (U_Uint64 l) v) s Q.
Proof.
  intros Hm Hc Hv HQ. apply wp_bind, wp_gets.
  destruct (covered_u64 _ _ _ _ Hm Hc) as (El & _ & Hl & Ho).
  destruct (Memory_Set_covered _ w (U_Uint64 o) (U_Uint64 l) v Hm) as (m' & E & Hm').
  - rewrite U_Uint64_val. apply u64_range.
  - rewrite El. destruct Hc as [?|(? & ? & ?)]; [by left|right]. destruct (Ho ltac:(lia)) as [-> _]. lia.
  - done.
  - apply wp_bind. eapply wp_lift_out; [exact E|]. by apply HQ.
Qed.

(** ** Ways for an instruction to end *)

Lemma post_frame x w s p' st' rs' :
  frame_ok (fr s) w -> evm_ok (evm s) -> 0 <= callee_gas x s -> 0 <= p' -> zlen rs' <= 1023 ->
  zlen st' = zlen (stack (fr s)) - pops x + pushes x ->
  exec_post x w s (Own [], None)
    (MkMstate U S (MkFrame U p' st' (memory (fr s)) rs' (contract (fr s))) (evm s)).
Proof.
  intros [] He Hc Hp Hrs Hst. split; cbn; try done; [by apply good_refl|lia|apply slice_ok_nil].
Qed.

Lemma post_fail x w s f err :
  frame_ok (fr s) w -> evm_ok (evm s) -> 0 <= callee_gas x s ->
  memory f = memory (fr s) -> contract f = contract (fr s) -> 0 <= pc f -> zlen (rstack f) <= 1023 ->
  exec_post x w s (Own [], Some err) (MkMstate U S f (evm s)).
Proof.
  intros [] He Hc Em Ec Hp Hr. split; cbn; rewrite ?Em, ?Ec; try done;
    [by apply good_refl|lia|apply slice_ok_nil].
Qed.

(** Only the database and the stack change. *)
Lemma post_db x w s e' st' :
  frame_ok (fr s) w -> good env (evm s) e' -> 0 <= callee_gas x s ->
  zlen st' = zlen (stack (fr s)) - pops x + pushes x ->
  exec_post x w s (Own [], None) (MkMstate U S (fr_stack (fr s) st') e').
Proof. intros [] He Hc Hst. split; cbn; try done; [lia|apply slice_ok_nil]. Qed.

(** Only the memory and the stack change. *)
Lemma post_mem x w s m' st' e' :
  frame_ok (fr s) w -> good env (evm s) e' -> 0 <= callee_gas x s -> mem_ok m' w ->
  zlen st' = zlen (stack (fr s)) - pops x + pushes x ->
  exec_post x w s (Own [], None) (MkMstate U S (fr_memory (fr_stack (fr s) st') m') e').
Proof. intros [] He Hc Hm Hst. split; cbn; try done; [lia|apply slice_ok_nil]. Qed.

End exec_rules.

(** ** Automation *)

(** Take one operand off the head of the stack. *)
Ltac take_operand st H :=
  destruct st as [|? st]; [exfalso; rewrite ?zlen_cons, ?zlen_nil in H; lia|].

Ltac zlen_lia := cbn [pops pushes stack rstack fr fr_rstack fr_pc fr_stack fr_contract fr_memory set_top]; unfold push; rewrite ?zlen_cons; lia.

(** Run the parts of an instruction that touch the frame alone. *)
Ltac frame_step :=
  lazymatch goal with
  | |- wp (bind _ _) _ _ => apply wp_bind
  | |- wp pop_ _ _ => eapply wp_pop; [reflexivity|]
  | |- wp peek_ _ _ => eapply wp_peek; [reflexivity|]
  | |- wp (push_ _) _ _ => apply wp_modf
  | |- wp (set_top_ _) _ _ => apply wp_modf
  | |- wp (modf _) _ _ => apply wp_modf
  | |- wp (getf _) _ _ => apply wp_gets
  | |- wp (fof _) _ _ => apply wp_gets
  | |- wp (gete _) _ _ => apply wp_gets
  | |- wp (ret _) _ _ => apply wp_ret
  | |- wp done_ _ _ => apply wp_ret
  | |- wp (fail_ _) _ _ => apply wp_ret
  | |- wp (set_pc _) _ _ => apply wp_modf
  | |- wp (set_stack _) _ _ => apply wp_modf
  | |- wp (set_memory _) _ _ => apply wp_modf
  | |- wp (set_rstack _) _ _ => apply wp_modf
  end.
Ltac frame_steps :=
  repeat (frame_step; cbn [fr evm stack memory rstack contract pc fr_stack fr_memory fr_pc fr_rstack fr_contract]).

Section exec_safe.
Context {U : Uint256} {UL : Uint256Laws U}.
Context {S : StateDB} {K : Keccak} {KI : KeccakInjective K} {SP : StateDBSpec S K}.
Context {C : CryptoPrims} {CL : CryptoLaws C} (env : Env).

(** ** Instructions on the stack alone *)

Definition is_pure (x : execFn) : bool :=
  match x with
  | X_opStop | X_opAdd | X_opMul | X_opSub | X_opDiv | X_opSdiv | X_opMod | X_opSmod | X_opAddmod | X_opMulmod
  | X_opExp | X_opSignExtend | X_opLt | X_opGt | X_opSlt | X_opSgt | X_opEq | X_opIszero | X_opAnd | X_opXor
  | X_opOr | X_opNot | X_opByte | X_opAddress | X_opOrigin | X_opCaller | X_opCallValue | X_opCallDataSize
  | X_opCodeSize | X_opGasprice | X_opCoinbase | X_opTimestamp | X_opNumber | X_opDifficulty
  | X_opGasLimit | X_opPop | X_opPc | X_opMsize | X_opGas | X_opJumpdest | X_opSHL | X_opSHR | X_opSAR
  | X_opReturnDataSize | X_opChainID | X_opBeginSub => true
  | _ => false
  end.

Ltac pure_done :=
  cbv [exec_of opStop opAdd opMul opSub opDiv opSdiv opMod opSmod opAddmod opMulmod opExp opSignExtend opLt opGt
    opSlt opSgt opEq opIszero opAnd opXor opOr opNot opByte opAddress opOrigin opCaller opCallValue
    opCallDataSize opCodeSize opGasprice opCoinbase opTimestamp opNumber opDifficulty opGasLimit opPop opPc
    opMsize opGas opJumpdest opSHL opSHR opSAR opReturnDataSize opChainID opBeginSub binop cmpop pushop];
  frame_steps;
  first [ apply post_frame; try done; zlen_lia
        | apply post_fail; done ].

Lemma pure_safe G run x w s :
  is_pure x = true -> exec_pre env G x w s -> wp (exec_of env run x) s (exec_post env x w s).
Proof.
  destruct s as [[p st m rs c] e]. intros Hx [Hf He Hst _ _ _ _ _ [Hc _] _ _].
  pose proof (fo_pc _ _ Hf) as Hp. pose proof (fo_rstack _ _ Hf) as Hr. cbn in Hst, Hp, Hr.
  destruct x; try discriminate Hx; clear Hx; cbn in Hst.
  all: try (by pure_done).
  all: take_operand st Hst; try (by pure_done).
  all: take_operand st Hst; try (by pure_done).
  all: take_operand st Hst; by pure_done.
Qed.

(** ** Jump destinations *)

(** What looking up a destination leaves behind. *)
Definition dests_ok (c c' : Contract) (j' : gmap Z bitvec) : Prop :=
  contract_ok c' /\ cache_ok j' /\ Gas c' = Gas c /\ Code c' = Code c.

Lemma isCode_ok c j p :
  contract_ok c -> cache_ok j -> 0 <= p < zlen (Code c) ->
  exists b c' j', isCode c j p = Some (b, c', j') /\ dests_ok c c' j' /\ (b = true <-> instr_start (Code c) p).
Proof.
  intros Hc Hj Hp. destruct (codeBitmap_analysed (Code c)) as (a & _ & Ea & _).
  destruct (codeBitmap_segment _ _ _ Ea Hp) as (b & Eb & Hb).
  assert (dests_ok c (with_analysis c a) j) as Hw.
  { split; [|done]. destruct Hc. split; cbn; try done. by intros ? [= <-]. }
  unfold isCode. destruct (analysis c) as [a'|] eqn:E.
  { pose proof (co_analysis _ Hc _ E) as E'. assert (a' = a) as -> by congruence. rewrite Eb. by exists b, c, j. }
  destruct (Z.eqb_spec (CodeHash c) 0) as [|Hz]; cbn [negb].
  { rewrite Ea. cbn [mbind option_bind]. rewrite Eb. by exists b, (with_analysis c a), j. }
  assert (CodeHash c = Keccak256Hash (Code c)) as Eh by (by destruct (co_hash _ Hc)).
  destruct (j !! CodeHash c) as [a'|] eqn:Ej.
  - destruct (Hj _ _ Ej) as (code & Ec & E'). rewrite Eh in Ec. apply Keccak256Hash_inj in Ec as <-.
    assert (a' = a) as -> by congruence. rewrite Eb. by exists b, (with_analysis c a), j.
  - rewrite Ea. cbn [mbind option_bind]. rewrite Eb. exists b, (with_analysis c a), (<[CodeHash c:=a]> j).
    split; [done|]. split; [|done]. destruct Hw as (? & _ & ? & ?). split; [done|]. split; [|done].
    intros h a0. rewrite lookup_insert. case_decide; [|apply Hj]. intros [= <-]. exists (Code c). by subst.
Qed.

Lemma dests_ok_refl c j : contract_ok c -> cache_ok j -> dests_ok c c j.
Proof. done. Qed.

Lemma data_len c : contract_ok c -> u64 (zlen (Code c)) = zlen (Code c).
Proof.
  intros [[_ Hl] _ _ _ _]. apply u64_small. pose proof (zlen_nonneg (Code c)). unfold data_max in Hl. u64_lia.
Qed.

(** A valid destination is a [JUMPDEST] that is an instruction. *)
Lemma validJumpdest_ok c j dest :
  contract_ok c -> cache_ok j ->
  exists b c' j', validJumpdest c j dest = Some (b, c', j') /\ dests_ok c c' j' /\
    (b = true <-> zget (Code c) (U_ToBig dest) = Some 91 /\ instr_start (Code c) (U_ToBig dest)).
Proof.
  intros Hc Hj. unfold validJumpdest. rewrite U_Uint64WithOverflow_val, (data_len c Hc).
  pose proof (U_range dest). pose proof (co_code _ Hc) as [_ Hl]. unfold data_max in Hl.
  destruct (Z.ltb_spec (U_ToBig dest) two64); cbn.
  - rewrite u64_small by u64_lia. destruct (Z.leb_spec (zlen (Code c)) (U_ToBig dest)); cbn.
    + exists false, c, j. split; [done|]. split; [done|]. split; [done|].
      intros [E%zget_lt _]. lia.
    + destruct (zget_Some (Code c) (U_ToBig dest)) as [x Ex]; [lia|]. rewrite Ex. cbn.
      destruct (Z.eqb_spec x 91) as [->|]; cbn.
      * destruct (isCode_ok c j (U_ToBig dest)) as (b & c' & j' & E & Hd & Hb); [done|done|lia|].
        exists b, c', j'. split; [done|]. split; [done|]. rewrite Hb. split; [done|by intros [_ ?]].
      * exists false, c, j. split; [done|]. split; [done|]. split; [done|]. intros [[= ->] _]. done.
  - exists false, c, j. split; [done|]. split; [done|]. split; [done|]. intros [E%zget_lt _]. u64_lia.
Qed.

Lemma validJumpSubdest_ok c j p :
  contract_ok c -> cache_ok j -> is_u64 p ->
  exists b c' j', validJumpSubdest c j p = Some (b, c', j') /\ dests_ok c c' j' /\
    (b = true <-> zget (Code c) p = Some 92 /\ instr_start (Code c) p).
Proof.
  intros Hc Hj Hp. unfold validJumpSubdest. rewrite (data_len c Hc).
  pose proof (co_code _ Hc) as [_ Hl]. unfold data_max in Hl. unfold is_u64 in Hp.
  destruct (Z.ltb_spec (i64 p) 0) as [Hn|Hn]; cbn.
  { exists false, c, j. split; [done|]. split; [done|]. split; [done|]. intros [E%zget_lt _].
    rewrite i64_small in Hn; u64_lia. }
  destruct (Z.leb_spec (zlen (Code c)) p); cbn.
  { exists false, c, j. split; [done|]. split; [done|]. split; [done|]. intros [E%zget_lt _]. lia. }
  destruct (zget_Some (Code c) p) as [x Ex]; [lia|]. rewrite Ex. cbn.
  destruct (Z.eqb_spec x 92) as [->|]; cbn.
  - destruct (isCode_ok c j p) as (b & c' & j' & E & Hd & Hb); [done|done|lia|].
    exists b, c', j'. split; [done|]. split; [done|]. rewrite Hb. split; [done|by intros [_ ?]].
  - exists false, c, j. split; [done|]. split; [done|]. split; [done|]. intros [[= ->] _]. done.
Qed.

Lemma wp_with_dests f s b c' j' (Q : bool -> mstate -> Prop) :
  f (contract (fr s)) (jumpdests (evm s)) = Some (b, c', j') ->
  Q b (MkMstate U S (fr_contract (fr s) c') (with_jumpdests (evm s) j')) -> wp (with_dests f) s Q.
Proof. intros E HQ. unfold wp, with_dests, bind, getf, gete, gets. rewrite E. done. Qed.

(** Ends of the jump instructions. *)
Lemma post_jump x w s c' j' p' st' rs' (err : option error) :
  frame_ok (fr s) w -> evm_ok (evm s) -> 0 <= callee_gas x s -> dests_ok (contract (fr s)) c' j' ->
  0 <= p' -> zlen rs' <= 1023 ->
  (err = None -> zlen st' = zlen (stack (fr s)) - pops x + pushes x) ->
  exec_post env x w s (Own [], err)
    (MkMstate U S (MkFrame U p' st' (memory (fr s)) rs' c') (with_jumpdests (evm s) j')).
Proof.
  intros [] He Hc (Hd & Hj & Eg & Ec) Hp Hr Hst. split; cbn; try done.
  - apply good_jumpdests; [by apply good_refl|done].
  - lia.
  - apply slice_ok_nil.
Qed.

Lemma U64_nonneg x : 0 <= U_Uint64 x.
Proof. rewrite U_Uint64_val. apply u64_range. Qed.

Lemma jump_safe G w s : exec_pre env G X_opJump w s -> wp opJump s (exec_post env X_opJump w s).
Proof.
  destruct s as [[p st m rs c] e]. intros [Hf He Hst _ _ _ _ _ [Hc _] _ _]. pose proof Hf as [_ _ Hco Hp Hr].
  cbn in Hst, Hp, Hr. take_operand st Hst. unfold opJump. frame_steps.
  destruct (validJumpdest_ok c (jumpdests e) u Hco (eo_cache _ He)) as (b & c' & j' & E & Hd & _).
  eapply wp_with_dests; [exact E|]. cbn. destruct b; cbn; frame_steps.
  - apply post_jump; try done; [apply U64_nonneg|intros _; zlen_lia].
  - apply post_jump; done.
Qed.

Lemma jumpi_safe G w s : exec_pre env G X_opJumpi w s -> wp opJumpi s (exec_post env X_opJumpi w s).
Proof.
  destruct s as [[p st m rs c] e]. intros [Hf He Hst _ _ _ _ _ [Hc _] _ _]. pose proof Hf as [_ _ Hco Hp Hr].
  cbn in Hst, Hp, Hr. do 2 take_operand st Hst. unfold opJumpi. frame_steps. case_match; frame_steps.
  2: { apply post_frame; try done; [apply u64_range|zlen_lia]. }
  destruct (validJumpdest_ok c (jumpdests e) u Hco (eo_cache _ He)) as (b & c' & j' & E & Hd & _).
  eapply wp_with_dests; [exact E|]. cbn. destruct b; cbn; frame_steps.
  - apply post_jump; try done; [apply U64_nonneg|intros _; zlen_lia].
  - apply post_jump; done.
Qed.

Lemma jumpsub_safe G w s : exec_pre env G X_opJumpSub w s -> wp opJumpSub s (exec_post env X_opJumpSub w s).
Proof.
  destruct s as [[p st m rs c] e]. intros [Hf He Hst _ _ _ _ _ [Hc _] _ _]. pose proof Hf as [_ _ Hco Hp Hr].
  cbn in Hst, Hp, Hr. take_operand st Hst. unfold opJumpSub. frame_steps.
  destruct (Z.leb_spec 1023 (zlen rs)); frame_steps; [by apply post_fail|].
  case_match; frame_steps; [by apply post_fail|].
  destruct (validJumpSubdest_ok c (jumpdests e) (U_Uint64 u) Hco (eo_cache _ He)) as (b & c' & j' & E & Hd & _).
  { rewrite U_Uint64_val. apply u64_range. }
  cbv zeta. frame_steps. eapply wp_with_dests; [exact E|]. cbn. destruct b; cbn; frame_steps.
  - apply post_jump; try done; [apply u64_range|zlen_lia|intros _; zlen_lia].
  - apply post_jump; done.
Qed.

Lemma returnsub_safe G w s : exec_pre env G X_opReturnSub w s -> wp opReturnSub s (exec_post env X_opReturnSub w s).
Proof.
  destruct s as [[p st m rs c] e]. intros [Hf He Hst _ _ _ _ _ [Hc _] _ _]. pose proof Hf as [_ _ Hco Hp Hr].
  cbn in Hst, Hp, Hr. unfold opReturnSub. frame_steps. destruct rs as [|q rs]; frame_steps; [by apply post_fail|].
  rewrite zlen_cons in Hr. apply post_frame; try done; [apply u64_range|zlen_lia..].
Qed.
End exec_safe.
