(* ===== verification/VmExecMem.v ===== *)
(** * Instructions on code, memory and state

    The instructions that read the code or call data, use the memory, or call the
    state database are safe. *)

From Stdlib Require Import ZArith Lia.
From S2P Require Import Prelude Common Params Uint256 Crypto VmMemory VmAnalysis VmState VmContracts VmTable VmGas VmInstr VmInterp VmSpec VmMemFacts VmTableOk VmInv VmGasSafe VmContractsSafe VmCallSafe VmExecSafe.

Open Scope go_scope.

#[local] Arguments be_bytes : simpl never.

Section exec_mem.
Context {U : Uint256} {UL : Uint256Laws U}.
Context {S : StateDB} {K : Keccak} {KI : KeccakInjective K} {SP : StateDBSpec S K}.
Context {C : CryptoPrims} {CL : CryptoLaws C} (env : Env).

(** ** Code and call data *)

Lemma push1_safe G w s : exec_pre env G X_opPush1 w s -> wp opPush1 s (exec_post env X_opPush1 w s).
Proof.
  destruct s as [[p st m rs c] e]. intros [Hf He Hst _ _ _ _ _ [Hc _] _ _]. pose proof Hf as [_ _ Hco Hp Hr].
  cbn in Hst, Hp, Hr. unfold opPush1. frame_steps. cbn in Hco. rewrite (data_len c Hco).
  pose proof (u64_range (p + 1)) as Hu. unfold is_u64 in Hu.
  destruct (Z.ltb_spec (u64 (p + 1)) (zlen (Code c))); frame_steps.
  - destruct (zget_Some (Code c) (u64 (p + 1))) as [b Eb]; [lia|].
    eapply wp_lift_opt; [exact Eb|]. frame_steps. apply post_frame; try done; [apply u64_range|zlen_lia].
  - apply post_frame; try done; [apply u64_range|zlen_lia].
Qed.

Lemma push_safe G n k w s :
  exec_pre env G (X_makePush n k) w s -> wp (makePush n k) s (exec_post env (X_makePush n k) w s).
Proof.
  destruct s as [[p st m rs c] e]. intros [Hf He Hst _ Hpar Hpush _ _ [Hc _] _ _]. pose proof Hf as [_ _ Hco Hp Hr].
  cbn in Hst, Hp, Hr, Hpar, Hco. apply andb_true_iff in Hpar as [Hk1%Z.leb_le Hk2%Z.leb_le].
  specialize (Hpush eq_refl). cbn in Hpush. pose proof (co_code _ Hco) as [_ Hl]. unfold data_max in Hl.
  unfold makePush. frame_steps. cbv zeta.
  rewrite u64_small, i64_small by u64_lia.
  set (a := if p + 1 <? zlen (Code c) then p + 1 else zlen (Code c)).
  assert (0 <= a <= zlen (Code c)) as Ha by (unfold a; destruct (Z.ltb_spec (p + 1) (zlen (Code c))); lia).
  set (b := if a + k <? zlen (Code c) then a + k else zlen (Code c)).
  assert (a <= b <= zlen (Code c)) as Hb by (unfold b; destruct (Z.ltb_spec (a + k) (zlen (Code c))); lia).
  frame_steps. eapply wp_lift_opt; [by apply zslice_Some; lia|]. frame_steps.
  apply post_frame; try done; [apply u64_range|zlen_lia].
Qed.

Lemma dup_safe G n w s :
  exec_pre env G (X_makeDup n) w s -> wp (makeDup n) s (exec_post env (X_makeDup n) w s).
Proof.
  destruct s as [[p st m rs c] e]. intros [Hf He Hst _ Hpar _ _ _ [Hc _] _ _]. pose proof Hf as [_ _ _ Hp Hr].
  cbn in Hst, Hp, Hr, Hpar. apply Z.leb_le in Hpar. unfold makeDup. frame_steps.
  destruct (zget_Some st (n - 1)) as [x Ex]; [lia|].
  eapply wp_lift_opt; [unfold dup; by rewrite Ex|]. frame_steps.
  apply post_frame; try done. zlen_lia.
Qed.

Lemma swap_safe G n w s :
  exec_pre env G (X_makeSwap n) w s -> wp (makeSwap n) s (exec_post env (X_makeSwap n) w s).
Proof.
  destruct s as [[p st m rs c] e]. intros [Hf He Hst _ Hpar _ _ _ [Hc _] _ _]. pose proof Hf as [_ _ _ Hp Hr].
  cbn in Hst, Hp, Hr, Hpar. apply Z.leb_le in Hpar. unfold makeSwap. frame_steps.
  destruct (zget_Some st (n + 1 - 1)) as [x Ex]; [lia|]. destruct (zget_Some st 0) as [y Ey]; [lia|].
  eapply wp_lift_opt; [unfold swap; by rewrite Ex, Ey|]. frame_steps.
  apply post_frame; try done. cbn [pops pushes stack fr fr_stack]. unfold zlen. rewrite !length_insert. lia.
Qed.

Lemma calldataload_safe G w s :
  exec_pre env G X_opCallDataLoad w s -> wp opCallDataLoad s (exec_post env X_opCallDataLoad w s).
Proof.
  destruct s as [[p st m rs c] e]. intros [Hf He Hst _ _ _ _ _ [Hc _] _ _]. pose proof Hf as [_ _ Hco Hp Hr].
  cbn in Hst, Hp, Hr, Hco. take_operand st Hst. unfold opCallDataLoad. frame_steps.
  rewrite U_Uint64WithOverflow_val. case_match; frame_steps; [apply post_frame; try done; zlen_lia|].
  destruct (getData_ok (Input c) (u64 (U_ToBig u)) 32) as (d & E & _);
    [apply Hco|apply u64_range|by unfold data_max|].
  eapply wp_lift_out; [exact E|]. frame_steps. apply post_frame; try done; zlen_lia.
Qed.

Lemma blockhash_safe G w s :
  exec_pre env G X_opBlockhash w s -> wp (opBlockhash env) s (exec_post env X_opBlockhash w s).
Proof.
  destruct s as [[p st m rs c] e]. intros [Hf He Hst _ _ _ _ _ [Hc _] _ _]. pose proof Hf as [_ _ _ Hp Hr].
  cbn in Hst, Hp, Hr. take_operand st Hst. unfold opBlockhash. frame_steps.
  rewrite U_Uint64WithOverflow_val. case_match; cbv zeta; frame_steps; apply post_frame; try done; zlen_lia.
Qed.

(** ** The state database *)

(** A read from within a frame. *)
Lemma wp_state {A} (f : DB -> A * DB) `{!Getter f} s e0 (Q : A -> mstate -> Prop) :
  good env e0 (evm s) ->
  (forall d', good env e0 (with_db (evm s) d') ->
     Q (fst (f (statedb (evm s)))) (MkMstate U S (fr s) (with_db (evm s) d'))) ->
  wp (on_evm (db_get f)) s Q.
Proof. intros Hg HQ. apply wp_on_evm. eapply wp_getter; [apply _|exact Hg|]. intros d' Hg' _. by apply HQ. Qed.

Lemma wp_state_write (f : DB -> DB) `{!Writer f} s e0 (Q : unit -> mstate -> Prop) :
  good env e0 (evm s) -> ~ protected env e0 ->
  (forall d', good env e0 (with_db (evm s) d') -> Q tt (MkMstate U S (fr s) (with_db (evm s) d'))) ->
  wp (on_evm (db_do f)) s Q.
Proof. intros Hg Hp HQ. apply wp_on_evm. eapply wp_writer; [apply _|exact Hg|done|]. intros d' Hg'. by apply HQ. Qed.

Ltac read_state H0 d H := eapply wp_state; [apply _|exact H0|]; intros d H; cbn [fr evm].

Definition reads_state (x : execFn) : bool :=
  match x with
  | X_opBalance | X_opExtCodeSize | X_opExtCodeHash | X_opSload | X_opSelfBalance => true
  | _ => false
  end.

Lemma reads_safe G run x w s :
  reads_state x = true -> exec_pre env G x w s -> wp (exec_of env run x) s (exec_post env x w s).
Proof.
  destruct s as [[p st m rs c] e]. intros Hx [Hf He Hst _ _ _ _ _ [Hc _] _ _].
  pose proof (good_refl env e He) as Hg. cbn in Hst.
  destruct x; try discriminate Hx; clear Hx; cbn in Hst; try take_operand st Hst; cbn [exec_of].
  - unfold opBalance. frame_steps. read_state Hg d1 Hg1. frame_steps. apply post_db; try done. zlen_lia.
  - unfold opExtCodeSize. frame_steps. read_state Hg d1 Hg1. frame_steps. apply post_db; try done. zlen_lia.
  - unfold opSload, self_addr. frame_steps. read_state Hg d1 Hg1. frame_steps. apply post_db; try done. zlen_lia.
  - unfold opExtCodeHash. cbv zeta. frame_steps. read_state Hg d1 Hg1. case_match; frame_steps.
    + apply post_db; try done. zlen_lia.
    + read_state Hg1 d2 Hg2. frame_steps. apply post_db; try done. zlen_lia.
  - unfold opSelfBalance, self_addr. frame_steps. read_state Hg d1 Hg1. frame_steps. apply post_db; try done. zlen_lia.
Qed.

Lemma sstore_safe G w s : exec_pre env G X_opSstore w s -> wp opSstore s (exec_post env X_opSstore w s).
Proof.
  destruct s as [[p st m rs c] e]. intros [Hf He Hst _ _ _ Hwr _ [Hc _] _ _]. specialize (Hwr eq_refl).
  cbn in Hst. do 2 take_operand st Hst. unfold opSstore, self_addr. frame_steps.
  eapply wp_state_write; [apply _|by apply good_refl|done|]. intros d1 Hg1. frame_steps.
  apply post_db; try done. zlen_lia.
Qed.

Lemma suicide_safe G w s : exec_pre env G X_opSuicide w s -> wp opSuicide s (exec_post env X_opSuicide w s).
Proof.
  destruct s as [[p st m rs c] e]. intros [Hf He Hst _ _ _ Hwr _ [Hc _] _ _]. specialize (Hwr eq_refl).
  cbn in Hst. take_operand st Hst. unfold opSuicide, self_addr. frame_steps.
  set (a := Contract_Address c). apply wp_on_evm. eapply wp_getter; [apply _|by apply good_refl|].
  intros d1 Hg1 (Hd1 & Hv1 & _). frame_steps. destruct (GetBalance_spec a (statedb e) (eo_db _ He)) as [-> _].
  set (x := vBalance (view (statedb e)) a). apply wp_on_evm.
  pose proof (AddBalance_spec (U_Bytes20 u) x d1 Hd1) as Ha. set (d2 := AddBalance (U_Bytes20 u) x d1) in *.
  apply wp_db_do. change (AddBalance (U_Bytes20 u) x (statedb _)) with d2. frame_steps.
  apply wp_on_evm. destruct (Suicide_spec a d2 (proj1 Ha)) as [_ Hs].
  unfold wp, db_get. cbn [statedb with_db evm] in *. destruct (Suicide a d2) as [b d3] eqn:E. cbn.
  apply post_db; try done; [|zlen_lia].
  cbn [evm]. change (good env e (with_db (with_db e d1) d3)).
  apply (good_with_db env e (with_db e d1) (fun v => s_Suicide a (s_AddBalance (U_Bytes20 u) x v)) d3 Hg1); [|done|].
  - eapply effect_comp; [apply _|exact Ha|exact Hs].
  - cbn [statedb with_db]. assert (x = vBalance (view d1) a) as -> by (symmetry; apply (ve_Balance _ _ Hv1)). by apply no_mint_Suicide, view_wf.
Qed.

(** ** The memory *)

(** The window of an instruction with offset and length on the stack. *)
Ltac window Hmem n Hn := destruct (Hmem _ eq_refl) as (n & [= Hn] & ?).

Lemma sha3_safe G w s : exec_pre env G X_opSha3 w s -> wp (opSha3 env) s (exec_post env X_opSha3 w s).
Proof.
  destruct s as [[p st m rs c] e]. intros [Hf He Hst Hmem _ _ _ _ [Hc _] _ _]. pose proof (fo_mem _ _ Hf) as Hm.
  cbn in Hst, Hm. do 2 take_operand st Hst. window Hmem n Hn. unfold opSha3. frame_steps.
  eapply wp_getPtr; [exact Hm|by eapply calc_covered|]. intros sl Hsl. frame_steps.
  eapply wp_bytes_of; [exact Hm|exact Hsl|]. intros _. cbv zeta. frame_steps.
  apply (wp_mono _ _ (fun _ s' => fr s' = MkFrame U p (u0 :: st) m rs c /\ good env e (evm s'))).
  { case_match; [|apply wp_ret; split; [done|by apply good_refl]]. apply wp_on_evm.
    eapply wp_quiet; [by apply good_refl|apply quiet_AddPreimage, He|]. by intros d' Hg'. }
  intros [] [f' e'] [E Hg]. cbn in E, Hg. subst f'. frame_steps. apply post_db; try done. zlen_lia.
Qed.

(** The copying instructions, once the bytes are there. *)
Lemma copy_tail x w s s1 o l d :
  frame_ok (fr s) w -> good env (evm s) (evm s1) -> 0 <= callee_gas x s ->
  (exists st', fr s1 = fr_stack (fr s) st' /\ zlen st' = zlen (stack (fr s)) - pops x + pushes x) ->
  covered (memory (fr s)) (U_ToBig o) (U_ToBig l) -> data_ok d ->
  wp (memSet (U_Uint64 o) (U_Uint64 l) d ;;; done_) s1 (exec_post env x w s).
Proof.
  intros Hf Hg Hc (st' & Ef & Hst) Hcov [Hd _]. apply wp_bind. pose proof (fo_mem _ _ Hf) as Hm.
  eapply wp_memSet; [rewrite Ef; exact Hm|by rewrite Ef|done|]. intros m' Hm'. apply wp_ret.
  rewrite Ef. by apply post_mem.
Qed.

Lemma sat64_range x : is_u64 (sat64 x).
Proof.
  unfold sat64. rewrite U_Uint64WithOverflow_val. case_match; [by unfold is_u64|apply u64_range].
Qed.

(** The length of a covered window is small. *)
Lemma covered_len m w o l :
  mem_ok m w -> covered m (U_ToBig o) (U_ToBig l) ->
  U_Uint64 l = U_ToBig l /\ 0 <= U_Uint64 l <= data_max /\ U_ToBig l <= 137438953440.
Proof.
  intros Hm Hc. destruct (covered_u64 _ _ _ _ Hm Hc) as (-> & _ & Hl & _). unfold max_words, data_max in *. lia.
Qed.

Lemma calldatacopy_safe G w s :
  exec_pre env G X_opCallDataCopy w s -> wp opCallDataCopy s (exec_post env X_opCallDataCopy w s).
Proof.
  destruct s as [[p st m rs c] e]. intros [Hf He Hst Hmem _ _ _ _ [Hc _] _ _]. pose proof Hf as [_ Hm Hco _ _].
  cbn in Hst, Hm, Hco. do 3 take_operand st Hst. window Hmem n Hn.
  assert (covered m (U_ToBig u) (U_ToBig u1)) as Hcov by (by eapply calc_covered).
  destruct (covered_len _ _ _ _ Hm Hcov) as (El & Hl & _). unfold opCallDataCopy. frame_steps.
  destruct (getData_ok (Input c) (sat64 u0) (U_Uint64 u1)) as (d & E & Hd); [apply Hco|apply sat64_range|done|].
  eapply wp_lift_out; [exact E|]. eapply copy_tail; try done; [by apply good_refl|]. eexists. split; [done|zlen_lia].
Qed.

Lemma codecopy_safe G w s :
  exec_pre env G X_opCodeCopy w s -> wp opCodeCopy s (exec_post env X_opCodeCopy w s).
Proof.
  destruct s as [[p st m rs c] e]. intros [Hf He Hst Hmem _ _ _ _ [Hc _] _ _]. pose proof Hf as [_ Hm Hco _ _].
  cbn in Hst, Hm, Hco. do 3 take_operand st Hst. window Hmem n Hn.
  assert (covered m (U_ToBig u) (U_ToBig u1)) as Hcov by (by eapply calc_covered).
  destruct (covered_len _ _ _ _ Hm Hcov) as (El & Hl & _). unfold opCodeCopy. frame_steps.
  destruct (getData_ok (Code c) (sat64 u0) (U_Uint64 u1)) as (d & E & Hd); [apply Hco|apply sat64_range|done|].
  eapply wp_lift_out; [exact E|]. eapply copy_tail; try done; [by apply good_refl|]. eexists. split; [done|zlen_lia].
Qed.

Lemma extcodecopy_safe G w s :
  exec_pre env G X_opExtCodeCopy w s -> wp opExtCodeCopy s (exec_post env X_opExtCodeCopy w s).
Proof.
  destruct s as [[p st m rs c] e]. intros [Hf He Hst Hmem _ _ _ _ [Hc _] _ _]. pose proof Hf as [_ Hm Hco _ _].
  cbn in Hst, Hm, Hco. do 4 take_operand st Hst. window Hmem n Hn.
  assert (covered m (U_ToBig u0) (U_ToBig u2)) as Hcov by (by eapply calc_covered).
  destruct (covered_len _ _ _ _ Hm Hcov) as (El & Hl & _). unfold opExtCodeCopy. frame_steps.
  read_state (good_refl env e He) d1 Hg1. frame_steps.
  destruct (GetCode_spec (U_Bytes20 u) (statedb e) (eo_db _ He)) as [-> _].
  destruct (getData_ok (vCode (view (statedb e)) (U_Bytes20 u)) (sat64 u1) (U_Uint64 u2)) as (d & E & Hd);
    [apply view_wf, He|apply sat64_range|done|].
  eapply wp_lift_out; [exact E|]. eapply copy_tail; try done. eexists. split; [done|zlen_lia].
Qed.

Lemma returndatacopy_safe G w s :
  exec_pre env G X_opReturnDataCopy w s -> wp opReturnDataCopy s (exec_post env X_opReturnDataCopy w s).
Proof.
  destruct s as [[p st m rs c] e]. intros [Hf He Hst Hmem _ _ _ _ [Hc _] _ _]. pose proof Hf as [_ Hm _ Hp Hr].
  cbn in Hst, Hm, Hp, Hr. do 3 take_operand st Hst. window Hmem n Hn.
  assert (covered m (U_ToBig u) (U_ToBig u1)) as Hcov by (by eapply calc_covered).
  destruct (covered_len _ _ _ _ Hm Hcov) as (El & Hl & Hl2). unfold opReturnDataCopy. frame_steps.
  rewrite !U_Uint64WithOverflow_val. pose proof (U_range u0).
  destruct (Z.ltb_spec (U_ToBig u0) two64); cbn [negb]; frame_steps; [|by apply post_fail].
  rewrite !U_Add_val.
  assert (w256 (U_ToBig u0 + U_ToBig u1) = U_ToBig u0 + U_ToBig u1) as ->
    by (apply Z.mod_small; unfold two256, data_max in *; u64_lia).
  destruct (Z.ltb_spec (U_ToBig u0 + U_ToBig u1) two64); cbn [negb orb]; frame_steps; [|by apply post_fail].
  pose proof (eo_rd _ He) as Hrd. pose proof Hrd as [_ Hrl]. cbn in Hrl. unfold data_max in Hrl.
  pose proof (zlen_nonneg (returnData e)). rewrite !u64_small by u64_lia.
  destruct (Z.ltb_spec (zlen (returnData e)) (U_ToBig u0 + U_ToBig u1)); frame_steps; [by apply post_fail|].
  pose proof (zslice_Some (returnData e) (U_ToBig u0) (U_ToBig u0 + U_ToBig u1) ltac:(lia) ltac:(lia) ltac:(lia)) as Es.
  eapply wp_lift_opt; [exact Es|]. eapply copy_tail; try done; [by apply good_refl| |by eapply data_ok_slice].
  eexists. split; [done|zlen_lia].
Qed.

(** A word, or a byte, at an offset. *)
Lemma mload_safe G w s : exec_pre env G X_opMload w s -> wp opMload s (exec_post env X_opMload w s).
Proof.
  destruct s as [[p st m rs c] e]. intros [Hf He Hst Hmem _ _ _ _ [Hc _] _ _]. pose proof Hf as [_ Hm _ Hp Hr].
  cbn in Hst, Hm, Hp, Hr. take_operand st Hst. window Hmem n Hn.
  destruct (calc1_covered m u 32 n ltac:(u64_lia) Hn) as (E & Ho & Hl); [done|].
  pose proof (mem_len_small _ _ Hm) as Hs. unfold max_words in Hs. unfold opMload. frame_steps.
  rewrite E, i64_small by u64_lia. eapply wp_lift_out.
  - unfold GetPtr, Memory_Len in *. destruct (Z.eqb_spec 32 0); [lia|].
    destruct (Z.ltb_spec (U_ToBig u) (zlen (store m))); [|lia]. by rewrite zslice_Some by lia.
  - frame_steps. apply post_frame; try done. zlen_lia.
Qed.

Lemma mstore_safe G w s : exec_pre env G X_opMstore w s -> wp opMstore s (exec_post env X_opMstore w s).
Proof.
  destruct s as [[p st m rs c] e]. intros [Hf He Hst Hmem _ _ _ _ [Hc _] _ _]. pose proof (fo_mem _ _ Hf) as Hm.
  cbn in Hst, Hm. do 2 take_operand st Hst. window Hmem n Hn.
  destruct (calc1_covered m u 32 n ltac:(u64_lia) Hn) as (E & Ho & Hl); [done|]. unfold opMstore. frame_steps.
  destruct (Set32_covered m w (U_Uint64 u) u0 Hm) as (m' & Em & Hm' & _); [by rewrite E..|].
  eapply wp_lift_out; [exact Em|]. frame_steps. apply post_mem; try done; [by apply good_refl|zlen_lia].
Qed.

Lemma mstore8_safe G w s : exec_pre env G X_opMstore8 w s -> wp opMstore8 s (exec_post env X_opMstore8 w s).
Proof.
  destruct s as [[p st m rs c] e]. intros [Hf He Hst Hmem _ _ _ _ [Hc _] _ _]. pose proof (fo_mem _ _ Hf) as Hm.
  cbn in Hst, Hm. do 2 take_operand st Hst. window Hmem n Hn.
  destruct (calc1_covered m u 1 n ltac:(u64_lia) Hn) as (E & Ho & Hl); [done|]. unfold opMstore8. frame_steps.
  unfold Memory_Len in Hl.
  eapply wp_lift_opt; [apply zput_Some; rewrite E; lia|]. frame_steps.
  apply post_mem; try done; [by apply good_refl| |zlen_lia].
  apply mem_ok_store; [done|unfold zlen; by rewrite length_insert|].
  apply Forall_insert; [apply Hm|]. unfold u8, is_byte. apply Z.mod_pos_bound. lia.
Qed.

Lemma return_safe G w s : exec_pre env G X_opReturn w s -> wp opReturn s (exec_post env X_opReturn w s).
Proof.
  destruct s as [[p st m rs c] e]. intros [Hf He Hst Hmem _ _ _ _ [Hc _] _ _]. pose proof (fo_mem _ _ Hf) as Hm.
  cbn in Hst, Hm. do 2 take_operand st Hst. window Hmem n Hn. unfold opReturn. frame_steps.
  eapply wp_getPtr; [exact Hm|by eapply calc_covered|]. intros sl Hsl. frame_steps.
  destruct Hf. split; cbn; try done; [by apply good_refl|lia|intros _; zlen_lia].
Qed.

Lemma revert_op_safe G w s : exec_pre env G X_opRevert w s -> wp opRevert s (exec_post env X_opRevert w s).
Proof.
  destruct s as [[p st m rs c] e]. intros [Hf He Hst Hmem _ _ _ _ [Hc _] _ _]. pose proof (fo_mem _ _ Hf) as Hm.
  cbn in Hst, Hm. do 2 take_operand st Hst. window Hmem n Hn. unfold opRevert. frame_steps.
  eapply wp_getPtr; [exact Hm|by eapply calc_covered|]. intros sl Hsl. frame_steps.
  destruct Hf. split; cbn; try done; [by apply good_refl|lia|intros _; zlen_lia].
Qed.

(** Popping topics. *)
Lemma wp_pop_topics n st1 st2 s (Q : list Hash -> mstate -> Prop) :
  stack (fr s) = st1 ++ st2 -> length st1 = n ->
  Q (map U_Bytes32 st1) (MkMstate U S (fr_stack (fr s) st2) (evm s)) -> wp (pop_topics n) s Q.
Proof.
  revert st1 s Q. induction n as [|n IH]; intros [|x st1] s Q Es El HQ; try discriminate El.
  - apply wp_ret. cbn in Es. destruct s as [[]]. cbn in *. by subst.
  - apply wp_bind. eapply wp_pop; [exact Es|]. apply wp_bind. eapply (IH st1); [done|by injection El|].
    by apply wp_ret.
Qed.

Lemma log_safe G n w s :
  exec_pre env G (X_makeLog n) w s -> wp (makeLog env n) s (exec_post env (X_makeLog n) w s).
Proof.
  destruct s as [[p st m rs c] e]. intros [Hf He Hst Hmem Hpar _ Hwr _ [Hc _] _ _]. pose proof (fo_mem _ _ Hf) as Hm.
  specialize (Hwr eq_refl). cbn in Hst, Hm, Hpar. apply andb_true_iff in Hpar as [Hn0%Z.leb_le Hn4%Z.leb_le].
  do 2 take_operand st Hst. window Hmem k Hk. rewrite !zlen_cons in Hst. unfold makeLog. frame_steps.
  eapply (wp_pop_topics _ (take (Z.to_nat n) st) (drop (Z.to_nat n) st)).
  { by rewrite take_drop. }
  { rewrite length_take. unfold zlen in Hst. lia. }
  frame_steps. eapply wp_getCopy; [exact Hm|by eapply calc_covered|]. intros b Hb. unfold self_addr. frame_steps.
  eapply wp_state_write; [apply _|by apply good_refl|done|]. intros d1 Hg1. frame_steps.
  apply post_db; try done. cbn [pops pushes stack fr fr_stack]. rewrite zlen_drop, !zlen_cons by lia. lia.
Qed.
End exec_mem.
