(* ===== verification/VmExecCalls.v ===== *)
(** * Calls and creations as instructions, and all instructions together

    [exec_safe] is the summary of VmExecSafe, VmExecMem and this file: what the
    interpreter loop uses of an instruction. *)

From Stdlib Require Import ZArith Lia.
From S2P Require Import Prelude Common Params Uint256 Crypto VmMemory VmAnalysis VmState VmContracts VmTable VmGas VmInstr VmInterp VmSpec VmMemFacts VmTableOk VmInv VmGasSafe VmContractsSafe VmCallSafe VmExecSafe VmExecMem.

Open Scope go_scope.

#[local] Arguments be_bytes : simpl never.

Section exec_calls.
Context {U : Uint256} {UL : Uint256Laws U}.
Context {S : StateDB} {K : Keccak} {KI : KeccakInjective K} {SP : StateDBSpec S K}.
Context {C : CryptoPrims} {CL : CryptoLaws C} (env : Env).
Context (G : Z) (run : Contract -> bytes -> bool -> M EVM (bytes * option error * Contract)).
Context (Hctx : core_context env) (Hrun : run_spec env G run).

Lemma contract_ok_gas c g : contract_ok c -> 0 <= g < gas_max -> contract_ok (with_Gas c g).
Proof. intros [] Hg. by split. Qed.

(** ** Calls *)

Lemma call_return_safe x w s s1 st' args ro rz rt gleft err :
  frame_ok (fr s) w -> fr s1 = fr_stack (fr s) st' -> good env (evm s) (evm s1) ->
  pushes x = 1 -> zlen st' = zlen (stack (fr s)) - pops x ->
  covered (memory (fr s)) (U_ToBig ro) (U_ToBig rz) -> slice_ok args ->
  data_ok (ret_bytes (deref (memory (fr s)) args) rt) ->
  0 <= gleft <= callee_gas x s -> Gas (contract (fr s)) + callee_gas x s < gas_max ->
  wp (call_tail args ro rz (rt, gleft, err)) s1 (exec_post env x w s).
Proof.
  intros Hf Ef Hg Hpu Hst Hcov Ha Hd Hl Hmax. destruct Hf as [_ Hm Hco Hp Hr].
  set (out := match rt with RetOwn b => Own b | RetInput => args end).
  assert (slice_ok out) as Hout by (destruct rt; [by apply slice_ok_own|done]).
  unfold call_tail. frame_steps. fold out. destruct s1 as [f1 e1]. cbn in Ef, Hg. subst f1.
  cbn [fr evm stack memory rstack contract pc fr_stack].
  match goal with |- wp _ _ ?Q => apply (wp_mono _ _ (fun _ s2 => exists m2, mem_ok m2 w /\
    s2 = MkMstate U S (MkFrame U (pc (fr s)) ((if bool_decide (err <> None) then U_Clear else U_SetOne) :: st')
           m2 (rstack (fr s)) (contract (fr s))) e1)) end.
  - case_match; [|apply wp_ret; by exists (memory (fr s))].
    apply wp_bind. eapply wp_bytes_of; [exact Hm|exact Hout|]. intros [Hb _].
    eapply wp_memSet; [exact Hm|exact Hcov|exact Hb|]. intros m' Hm'. by exists m'.
  - intros [] s2 (m2 & Hm2 & ->). unfold addGas. frame_steps. pose proof (co_gas _ Hco) as Hgas.
    assert (u64 (Gas (contract (fr s)) + gleft) = Gas (contract (fr s)) + gleft) as Eg
      by (apply u64_small; unfold gas_max in *; u64_lia).
    split; cbn; try done.
    + apply contract_ok_gas; [done|]. lia.
    + lia.
    + intros _. rewrite zlen_cons. lia.
Qed.

Lemma bigVal_val v : bigVal v = U_ToBig v.
Proof. unfold bigVal. rewrite U_IsZero_val. by destruct (Z.eqb_spec (U_ToBig v) 0) as [->|]. Qed.
Lemma bigVal_nonneg v : 0 <= bigVal v.
Proof. rewrite bigVal_val. apply U_range. Qed.

(** The two windows of a call. *)
Ltac windows Hmem :=
  let n := fresh "n" in let Hn := fresh "Hn" in let Hle := fresh "Hle" in
  destruct (Hmem _ eq_refl) as (n & Hn & Hle);
  apply mem_max_both in Hn as (? & ? & [= ?] & [= ?] & ? & ?); cbn in Hle.

(** From the operands to the result of the call. *)
Ltac call_body Hm He Hcal lem :=
  eapply wp_getPtr; [exact Hm|eapply calc_covered; [eassumption|cbn; lia]|];
  let sl := fresh "sl" in let Hsl := fresh "Hsl" in
  intros sl Hsl; frame_steps;
  eapply wp_bytes_of; [exact Hm|exact Hsl|]; intros Hin; frame_steps;
  apply wp_on_evm; eapply wp_mono; [apply lem; try done; try lia|
  let Hg' := fresh in let Hl' := fresh in let Hd' := fresh in
  intros [[rt gleft] err] e' (Hg' & Hl' & Hd' & _);
  eapply call_return_safe; try done; [zlen_lia|eapply calc_covered; [eassumption|cbn; lia]]].

Lemma call_safe w s : exec_pre env G X_opCall w s -> wp (opCall env run) s (exec_post env X_opCall w s).
Proof.
  destruct s as [[p st m rs c] e]. intros [Hf He Hst Hmem _ _ _ Hval [Hcal0 Hcal] _ Htot]. pose proof Hf as [_ Hm Hco _ _].
  cbn in Hst, Hm, Hco. do 7 take_operand st Hst. windows Hmem.
  specialize (Hval eq_refl). specialize (Hcal eq_refl). cbn in Hcal0, Hcal, Htot, Hval.
  change (Z.to_nat 2) with 2%nat in *. cbn in Hcal0, Hcal, Htot, Hval. pose proof (co_gas _ Hco).
  unfold opCall. frame_steps. call_body Hm He Hcal (Call_safe env G run Hctx Hrun).
  - apply bigVal_nonneg.
  - intros Hpr. rewrite bigVal_val. by apply Hval.
Qed.

Lemma callcode_safe w s : exec_pre env G X_opCallCode w s -> wp (opCallCode env run) s (exec_post env X_opCallCode w s).
Proof.
  destruct s as [[p st m rs c] e]. intros [Hf He Hst Hmem _ _ _ Hval [Hcal0 Hcal] _ Htot]. pose proof Hf as [_ Hm Hco _ _].
  cbn in Hst, Hm, Hco. do 7 take_operand st Hst. windows Hmem. specialize (Hcal eq_refl). cbn in Hcal0, Hcal, Htot.
  change (Z.to_nat 2) with 2%nat in *. cbn in Hcal0, Hcal, Htot. pose proof (co_gas _ Hco).
  unfold opCallCode. frame_steps. call_body Hm He Hcal (CallCode_safe env G run Hctx Hrun).
Qed.

Lemma delegatecall_safe w s :
  exec_pre env G X_opDelegateCall w s -> wp (opDelegateCall env run) s (exec_post env X_opDelegateCall w s).
Proof.
  destruct s as [[p st m rs c] e]. intros [Hf He Hst Hmem _ _ _ Hval [Hcal0 Hcal] _ Htot]. pose proof Hf as [_ Hm Hco _ _].
  cbn in Hst, Hm, Hco. do 6 take_operand st Hst. windows Hmem. specialize (Hcal eq_refl). cbn in Hcal0, Hcal, Htot. pose proof (co_gas _ Hco).
  unfold opDelegateCall. frame_steps. call_body Hm He Hcal (DelegateCall_safe env G run Hrun).
  by eexists _, _, _.
Qed.

Lemma staticcall_safe w s :
  exec_pre env G X_opStaticCall w s -> wp (opStaticCall env run) s (exec_post env X_opStaticCall w s).
Proof.
  destruct s as [[p st m rs c] e]. intros [Hf He Hst Hmem _ _ _ Hval [Hcal0 Hcal] _ Htot]. pose proof Hf as [_ Hm Hco _ _].
  cbn in Hst, Hm, Hco. do 6 take_operand st Hst. windows Hmem. specialize (Hcal eq_refl). cbn in Hcal0, Hcal, Htot. pose proof (co_gas _ Hco).
  unfold opStaticCall. frame_steps. call_body Hm He Hcal (StaticCall_safe env G run Hrun).
Qed.

(** ** Creations *)

Lemma UseGas_take c g : 0 <= g <= Gas c -> Gas c < gas_max -> snd (UseGas c g) = with_Gas c (Gas c - g).
Proof.
  intros Hg Hm. unfold UseGas. destruct (Z.ltb_spec (Gas c) g); [lia|]. cbn.
  by rewrite u64_small by (unfold gas_max in *; u64_lia).
Qed.

(** What is left after the gas [g] of a creation was taken out, and [gleft] given back. *)
Lemma create_tail_safe x w s st' e1 v g gleft (b : bool) rt :
  frame_ok (fr s) w -> good env (evm s) e1 -> callee_gas x s = 0 -> pushes x = 1 ->
  zlen st' = zlen (stack (fr s)) - pops x -> 0 <= gleft <= g -> g <= Gas (contract (fr s)) -> data_ok rt ->
  wp (push_ v ;;; addGas gleft ;;; if b then ret (Own rt, None) else done_)
    (MkMstate U S (fr_contract (fr_stack (fr s) st') (with_Gas (contract (fr s)) (Gas (contract (fr s)) - g))) e1)
    (exec_post env x w s).
Proof.
  intros [_ Hm Hco Hp Hr] Hg Hc Hpu Hst Hl Hgl Hrt. unfold addGas. frame_steps. pose proof (co_gas _ Hco) as Hgas.
  cbn [Gas with_Gas].
  rewrite u64_small by (unfold gas_max in *; u64_lia).
  apply (wp_mono _ _ (fun r s' => slice_ok r.1 /\ s' = MkMstate U S (fr_contract (fr_stack (fr s) (v :: st'))
    (with_Gas (contract (fr s)) (Gas (contract (fr s)) - g + gleft))) e1)).
  - destruct b; apply wp_ret; (split; [|done]); [by apply slice_ok_own|apply slice_ok_nil].
  - intros r s' [Hr' ->]. split; cbn; try done.
    + apply contract_ok_gas; [done|lia].
    + lia.
    + intros _. rewrite zlen_cons. lia.
Qed.

Lemma share_range g : 0 <= g < gas_max -> 0 <= u64 (g - g / 64) <= g.
Proof.
  intros H. pose proof (Z.div_pos g 64 ltac:(lia) ltac:(lia)). pose proof (Z.div_le_upper_bound g 64 g ltac:(lia) ltac:(lia)).
  rewrite u64_small by (unfold gas_max in *; u64_lia). lia.
Qed.

Lemma create_op_safe w s : exec_pre env G X_opCreate w s -> wp (opCreate env run) s (exec_post env X_opCreate w s).
Proof.
  destruct s as [[p st m rs c] e]. intros [Hf He Hst Hmem _ _ Hwr _ Hcal Hcre Htot]. pose proof Hf as [_ Hm Hco _ _].
  specialize (Hwr eq_refl). specialize (Hcre eq_refl).
  cbn in Hst, Hm, Hco, Hcre. do 3 take_operand st Hst. destruct (Hmem _ eq_refl) as (n & [= Hn] & Hle).
  pose proof (co_gas _ Hco) as Hgas. unfold opCreate. frame_steps.
  eapply wp_getCopy; [exact Hm|by eapply calc_covered|]. intros b Hb. frame_steps. cbv zeta.
  set (g := if rIsEIP150 (chainRules env) then u64 (Gas c - Gas c / 64) else Gas c).
  assert (0 <= g <= Gas c) as Hg by (unfold g; case_match; [by apply share_range|lia]).
  unfold useGas. frame_steps. rewrite UseGas_take by lia.
  apply wp_on_evm. eapply wp_mono; [apply (Create_safe env G run Hctx Hrun); try done; (lia || apply bigVal_nonneg)|].
  intros [[[rt a] gleft] err] e' (Hg' & Hl' & Hd' & _).
  apply (create_tail_safe X_opCreate w (MkMstate U S (MkFrame U p (u :: u0 :: u1 :: st) m rs c) e)); try done; [zlen_lia|].
  cbn; lia.
Qed.

Lemma create2_op_safe w s : exec_pre env G X_opCreate2 w s -> wp (opCreate2 env run) s (exec_post env X_opCreate2 w s).
Proof.
  destruct s as [[p st m rs c] e]. intros [Hf He Hst Hmem _ _ Hwr _ Hcal Hcre Htot]. pose proof Hf as [_ Hm Hco _ _].
  specialize (Hwr eq_refl). specialize (Hcre eq_refl).
  cbn in Hst, Hm, Hco, Hcre. do 4 take_operand st Hst. destruct (Hmem _ eq_refl) as (n & [= Hn] & Hle).
  pose proof (co_gas _ Hco) as Hgas. unfold opCreate2. frame_steps.
  eapply wp_getCopy; [exact Hm|by eapply calc_covered|]. intros b Hb. frame_steps. cbv zeta.
  pose proof (share_range (Gas c) Hgas) as Hg. set (g := u64 (Gas c - Gas c / 64)) in *.
  unfold useGas. frame_steps. rewrite UseGas_take by lia.
  apply wp_on_evm. eapply wp_mono; [apply (Create2_safe env G run Hctx Hrun); try done; (lia || apply bigVal_nonneg)|].
  intros [[[rt a] gleft] err] e' (Hg' & Hl' & Hd' & _).
  apply (create_tail_safe X_opCreate2 w (MkMstate U S (MkFrame U p (u :: u0 :: u1 :: u2 :: st) m rs c) e)); try done;
    [zlen_lia|]. cbn; lia.
Qed.

(** ** All instructions *)

Theorem exec_safe x w s : exec_pre env G x w s -> wp (exec_of env run x) s (exec_post env x w s).
Proof.
  intros H. destruct (is_pure x) eqn:Ep; [by eapply pure_safe|].
  destruct (reads_state x) eqn:Er; [by eapply reads_safe|].
  destruct x; try discriminate Ep; try discriminate Er; cbn [exec_of];
    eauto using sha3_safe, calldataload_safe, calldatacopy_safe, codecopy_safe, extcodecopy_safe, returndatacopy_safe,
      blockhash_safe, mload_safe, mstore_safe, mstore8_safe, sstore_safe, suicide_safe, jump_safe, jumpi_safe,
      jumpsub_safe, returnsub_safe, push1_safe, push_safe, dup_safe, swap_safe, log_safe, return_safe,
      revert_op_safe, call_safe, callcode_safe, delegatecall_safe, staticcall_safe, create_op_safe, create2_op_safe.
Qed.
End exec_calls.
