(* ===== verification/VmStepSafe.v ===== *)
(** * One round of the interpreter is safe *)

From Stdlib Require Import ZArith Lia.
From S2P Require Import Prelude Common Params Uint256 Crypto VmMemory VmAnalysis VmState VmContracts VmTable VmGas VmInstr VmInterp VmSpec VmMemFacts VmTableOk VmInv VmGasSafe VmContractsSafe VmCallSafe VmExecSafe VmExecMem VmExecCalls.

Open Scope go_scope.

#[local] Arguments be_bytes : simpl never.

(** ** What the check of a table entry says *)

Record op_facts (op : Z) (o : operation) : Prop := MkOpFacts {
  of_pops : pops (execute o) <= op_minStack o;
  of_max : op_maxStack o <= StackLimit + pops (execute o) - pushes (execute o);
  of_params : params_ok (execute o) = true;
  of_gas_params : gas_params_ok (dynamicGas o) = true;
  of_mem : memorySize o = mem_for (execute o);
  of_memgas : forall f, memorySize o = Some f -> exists g, dynamicGas o = Some g /\ charges_mem g = true;
  of_reads : forall g, dynamicGas o = Some g -> gas_reads g <= op_minStack o;
  of_const : 0 <= constantGas o <= 1000000;
  of_progress : halts o = false -> reverts o = false -> 1 <= constantGas o + gas_min (dynamicGas o);
  of_call : is_call (execute o) = true -> dynamicGas o = call_gas_for (execute o) /\ 1 <= constantGas o;
  of_create : is_create (execute o) = true -> 1 <= constantGas o;
  of_writes : writes_state (execute o) = true \/ gas_writes (dynamicGas o) = true -> writes o = true;
  of_opCall : execute o = X_opCall -> op = Op.CALL;
  of_CALL : op = Op.CALL -> 3 <= op_minStack o;
  of_push : is_push (execute o) = true -> op <> Op.STOP;
}.

Lemma implb'_elim a b : implb' a b = true -> a = true -> b = true.
Proof. unfold implb'. by destruct a. Qed.

Lemma op_ok_facts op o : op_ok op o = true -> op_facts op o.
Proof.
  unfold op_ok. rewrite !andb_true_iff.
  intros [[[[[[[[[[[[[[[[Hpops Hmax] Hpar] Hgpar] Hmem] Hmg] Hdyn] Hc0] Hc1] Hprog] Hcall] Hcre] Hwr] HopC] HCALL] Hpush] _].
  apply bool_decide_eq_true in Hmem. apply Z.leb_le in Hc0, Hc1, Hpops, Hmax.
  split; try done; try lia.
  - intros f Hf. rewrite Hf in Hmg. destruct (dynamicGas o) as [g|]; [by exists g|done].
  - intros g Hg. rewrite Hg in Hdyn. apply andb_true_iff in Hdyn as [Hdyn _]. by apply Z.leb_le.
  - intros Hh Hr. rewrite Hh, Hr in Hprog. by apply Z.leb_le.
  - intros Hc. apply (implb'_elim _ _ Hcall), andb_true_iff in Hc as [Hc1' Hc2].
    split; [by eapply bool_decide_eq_true|by apply Z.leb_le].
  - intros Hc. by apply Z.leb_le, (implb'_elim _ _ Hcre).
  - intros Hw. apply (implb'_elim _ _ Hwr). destruct Hw as [->| ->]; [done|apply orb_true_r].
  - intros Hx. by apply Z.eqb_eq, (implb'_elim _ _ HopC), bool_decide_eq_true.
  - intros Ho. apply Z.leb_le, (implb'_elim _ _ HCALL). by apply Z.eqb_eq.
  - intros Hp Ho. apply (implb'_elim _ _ Hpush) in Hp. by subst op.
Qed.

(** ** The phases of a round *)

Section step_safe.
Context {U : Uint256} {UL : Uint256Laws U}.
Context {S : StateDB} {K : Keccak} {KI : KeccakInjective K} {SP : StateDBSpec S K}.
Context {C : CryptoPrims} {CL : CryptoLaws C} (env : Env).

(** The write protection lets an instruction through only if it does not write. *)
Lemma write_protected_spec op o s :
  op_facts op o -> op_minStack o <= zlen (stack (fr s)) ->
  wp (write_protected env op o) s (fun b s' => s' = s /\
    (b = false -> protected env (evm s) -> writes o = false /\
      (op = Op.CALL -> forall v, Back (stack (fr s)) 2 = Some v -> U_ToBig v = 0))).
Proof.
  intros Ho Hst. unfold write_protected. apply wp_bind, wp_gets. unfold protected.
  destruct (readOnly (evm s)); cbn [andb]; [|apply wp_ret; split; [done|by intros _ []]].
  destruct (rIsByzantium (chainRules env)); [|apply wp_ret; split; [done|by intros _ []]].
  destruct (writes o) eqn:Ew; [by apply wp_ret|].
  destruct (Z.eqb_spec op Op.CALL) as [E|]; [|apply wp_ret; split; [done|by intros _ _; split]].
  apply wp_bind, wp_Back; [pose proof (of_CALL _ _ Ho E); lia|]. intros v Hv. apply wp_ret. split; [done|].
  intros Hs%negb_false_iff%Z.eqb_eq _. split; [done|]. intros _ v' Hv'. assert (v' = v) as -> by congruence.
  rewrite U_Sign_val in Hs. apply Z.sgn_null_iff in Hs. pose proof (U_range v) as Hr. revert Hs.
  unfold s256. case_match; lia.
Qed.

(** Spending gas. *)
Lemma wp_useGas g s (Q : bool -> mstate -> Prop) :
  0 <= g -> 0 <= Gas (contract (fr s)) < gas_max ->
  Q false s ->
  (g <= Gas (contract (fr s)) ->
   Q true (MkMstate U S (fr_contract (fr s) (with_Gas (contract (fr s)) (Gas (contract (fr s)) - g))) (evm s))) ->
  wp (useGas_ g) s Q.
Proof.
  intros Hg Hr Hf Ht. unfold useGas_. apply wp_bind, wp_gets. unfold UseGas.
  destruct (Z.ltb_spec (Gas (contract (fr s))) g).
  - apply wp_bind, wp_modf, wp_ret. by destruct s as [[]].
  - rewrite u64_small by (unfold gas_max in *; u64_lia). apply wp_bind, wp_modf, wp_ret. by apply Ht.
Qed.

(** The memory size functions find their operands, and compute a [uint64]. *)
Definition sized (r : option (Z * bool)) : Prop := exists n b, r = Some (n, b) /\ is_u64 n.

Lemma calc_u64 o n : is_u64 n -> is_u64 (calcMemSize64WithUint o n).1.
Proof.
  intros Hn. unfold calcMemSize64WithUint. rewrite U_Uint64WithOverflow_val.
  repeat case_match; cbn; try done; apply u64_range.
Qed.

Lemma sized_mem2 i j (st : Stack u256) : 0 <= i < zlen st -> 0 <= j < zlen st -> sized (mem2 i j st).
Proof.
  intros Hi Hj. unfold mem2, Back. destruct (zget_Some _ _ Hi) as [o ->]. destruct (zget_Some _ _ Hj) as [l ->].
  destruct (calcMemSize64 o l) as [n b] eqn:E. exists n, b. split; [done|]. revert E. unfold calcMemSize64.
  case_match; [by intros [= <- _]|]. intros E. change n with (n, b).1. rewrite <- E. apply calc_u64.
  rewrite U_Uint64_val. apply u64_range.
Qed.

Lemma sized_mem1 i l (st : Stack u256) : 0 <= i < zlen st -> is_u64 l -> sized (mem1 i l st).
Proof.
  intros Hi Hl. unfold mem1, Back. destruct (zget_Some _ _ Hi) as [o ->].
  pose proof (calc_u64 o l Hl) as Hn. destruct (calcMemSize64WithUint o l) as [n b]. by exists n, b.
Qed.

Lemma sized_max f g (st : Stack u256) : sized (f st) -> sized (g st) -> sized (mem_max f g st).
Proof.
  intros (n & b & Ef & Hn) (n' & b' & Eg & Hn'). unfold mem_max, sized. rewrite Ef, Eg.
  destruct b; [by eexists _, _|]. destruct b'; [by eexists _, _|]. case_match; by eexists _, _.
Qed.

Lemma mem_of_sized x f (st : Stack u256) :
  mem_for x = Some f -> pops x <= zlen st -> params_ok x = true -> sized (mem_of f st).
Proof.
  intros Hx Hst Hp. assert (is_u64 32 /\ is_u64 1) as [H32 H1] by (split; u64_lia).
  destruct x; try discriminate Hx; injection Hx as <-; cbn in Hst, Hp;
    try (apply andb_true_iff in Hp as [Hp%Z.leb_le _]);
    first [apply sized_mem2; lia|apply sized_mem1; [lia|done]|apply sized_max; apply sized_mem2; lia].
Qed.

(** The rounded size covers what the size function asked for. *)
Lemma needed_memory_spec op o s :
  op_facts op o -> op_minStack o <= zlen (stack (fr s)) ->
  wp (needed_memory o) s (fun r s' => s' = s /\ forall sz, r = inl sz ->
    exists k, sz = 32 * k /\ 0 <= k /\ (memorySize o = None -> k = 0) /\
      forall f, memorySize o = Some f -> exists n, mem_of f (stack (fr s)) = Some (n, false) /\ n <= 32 * k).
Proof.
  intros Ho Hst. unfold needed_memory. destruct (memorySize o) as [f|] eqn:Em.
  2: { apply wp_ret. split; [done|]. intros sz [= <-]. by exists 0. }
  apply wp_bind, wp_gets. destruct (mem_of_sized (execute o) f (stack (fr s))) as (n & b & E & Hn).
  { by rewrite <- (of_mem _ _ Ho). } { pose proof (of_pops _ _ Ho). lia. } { apply Ho. }
  apply wp_bind. eapply wp_lift_opt; [exact E|]. destruct b; [by apply wp_ret|].
  destruct (SafeMul (toWordSize n) 32) as [sz ov] eqn:Es. destruct ov; [by apply wp_ret|]. apply wp_ret.
  split; [done|]. intros sz' [= <-]. destruct (round_words n sz Hn Es) as (-> & Hle & _).
  exists ((n + 31) / 32). split; [done|]. split; [apply Z.div_pos; unfold is_u64 in Hn; lia|]. split; [done|].
  intros f' [= <-]. by exists n.
Qed.

(** The gas of a call covers what the callee gets. *)
Lemma callee_paid x g s s2 c :
  call_gas_for x = Some g -> stack (fr s2) = stack (fr s) ->
  0 <= callGasTemp (evm s2) -> callGasTemp (evm s2) + transfer_cost g s <= c ->
  0 <= callee_gas x s2 <= c.
Proof.
  intros Hx Es Ht Hc. unfold callee_gas. destruct x; try discriminate Hx; injection Hx as <-; unfold transfer_cost in Hc; rewrite ?Es.
  all: try lia.
  all: revert Hc; destruct (Back (stack (fr s)) 2) as [v|]; [|lia]; unfold stipend; rewrite U_IsZero_val.
  all: destruct (U_ToBig v =? 0); cbn [negb]; intros Hc; [lia|]; unfold u64.
  all: pose proof (Z.mod_pos_bound (callGasTemp (evm s2) + CallStipend) two64 ltac:(by unfold two64)).
  all: pose proof (Z.mod_le (callGasTemp (evm s2) + CallStipend) two64 ltac:(lia) ltac:(by unfold two64)).
  all: lia.
Qed.

Lemma callee_none x s : is_call x = false -> callee_gas x s = 0.
Proof. by destruct x. Qed.

(** Memory and gas changed, the rest of the frame is the same. *)
Definition charged (o : operation) (w k : Z) (s : mstate) (ok : bool) (s2 : mstate) : Prop :=
  exists m2 g2,
    fr s2 = fr_contract (fr_memory (fr s) m2) (with_Gas (contract (fr s)) g2) /\
    good env (evm s) (evm s2) /\ 0 <= g2 <= Gas (contract (fr s)) /\
    (ok = true ->
     mem_paid m2 w (32 * k) /\ gas_min (dynamicGas o) <= Gas (contract (fr s)) - g2 /\
     0 <= callee_gas (execute o) s2 <= Gas (contract (fr s)) - g2).

Lemma with_Gas_id c : with_Gas c (Gas c) = c.
Proof. by destruct c. Qed.

Lemma mem_ok_paid0 m w : mem_ok m w -> mem_paid m w (32 * 0).
Proof.
  intros [H1 H2 H3 H4]. split; try done.
  change (32 * 0 / 32) with 0. by rewrite Z.max_l by lia.
Qed.

Lemma charge_dynamic_spec op o w k s :
  op_facts op o -> frame_ok (fr s) w -> evm_ok (evm s) -> op_minStack o <= zlen (stack (fr s)) -> 0 <= k ->
  (memorySize o = None -> k = 0) -> (protected env (evm s) -> writes o = false) ->
  wp (charge_dynamic env o (32 * k)) s (charged o w k s).
Proof.
  intros Ho Hf He Hst Hk Hk0 Hw. unfold charge_dynamic. pose proof Hf as [_ Hm Hco _ _]. pose proof (co_gas _ Hco) as Hgas.
  destruct (dynamicGas o) as [g|] eqn:Eg.
  2: { apply wp_ret. exists (memory (fr s)), (Gas (contract (fr s))). rewrite with_Gas_id.
    split; [by destruct s as [[]]|]. split; [by apply good_refl|]. split; [lia|]. intros _. rewrite Eg.
    destruct (memorySize o) as [f|] eqn:Em; [destruct (of_memgas _ _ Ho _ Em) as (? & ? & _); congruence|].
    rewrite Hk0 by done. split; [by apply mem_ok_paid0|]. rewrite callee_none; [cbn; lia|].
    destruct (is_call (execute o)) eqn:Ec; [|done]. destruct (of_call _ _ Ho Ec) as [E _]. rewrite Eg in E.
    by destruct (execute o). }
  apply wp_bind. eapply wp_mono.
  { apply (gas_safe env g w k); try done; [pose proof (of_reads _ _ Ho g Eg); lia|..].
    - rewrite <- Eg. apply Ho.
    - intros Hgw Hp. rewrite (of_writes _ _ Ho) in Hw; [by specialize (Hw Hp)|]. right. by rewrite Eg. }
  intros r s2 ((Efr & _ & Hg2) & Hr).
  assert (contract (fr s2) = contract (fr s) /\ stack (fr s2) = stack (fr s)) as [Ec Es] by (by rewrite Efr).
  assert (fr s2 = fr_contract (fr_memory (fr s) (memory (fr s2))) (with_Gas (contract (fr s)) (Gas (contract (fr s)))))
    as Efr' by (rewrite with_Gas_id, Efr at 1; by destruct (fr s)).
  destruct r as [c|err].
  2: { apply wp_ret. eexists _, _. split; [exact Efr'|]. split; [done|]. split; [lia|done]. }
  destruct Hr as (Hc & Hmin & Hmem & Hcall). unfold is_u64 in Hc.
  apply wp_useGas; [lia|by rewrite Ec|..].
  { eexists _, _. split; [exact Efr'|]. split; [done|]. split; [lia|done]. }
  rewrite Ec. intros Hle. exists (memory (fr s2)), (Gas (contract (fr s)) - c). cbn [fr evm].
  split; [rewrite Efr at 1; by destruct (fr s)|]. split; [done|]. split; [lia|]. intros _. rewrite Eg. split.
  - destruct (charges_mem g) eqn:Ecm; [done|]. rewrite Hmem.
    destruct (memorySize o) as [f|] eqn:Em; [destruct (of_memgas _ _ Ho _ Em) as (? & ? & ?); congruence|].
    rewrite Hk0 by done. by apply mem_ok_paid0.
  - split; [lia|]. replace (Gas (contract (fr s)) - (Gas (contract (fr s)) - c)) with c by lia.
    destruct (is_call (execute o)) eqn:Eic; [|rewrite callee_none by done; lia].
    destruct (of_call _ _ Ho Eic) as [Ecg _]. rewrite Eg in Ecg. symmetry in Ecg.
    assert (is_call_gas g = true) as Hig by (destruct (execute o); try discriminate Ecg; by injection Ecg as <-).
    destruct (Hcall Hig) as [Ht Htc].
    apply (callee_paid _ g s _ c Ecg); cbn [fr evm fr_contract stack]; done.
Qed.

(** ** The round *)

(** A round that goes on has spent gas and keeps the frame well-formed. *)
Definition step_post (e : EVM) (gas : Z) (r : outcome_step) (s' : mstate) : Prop :=
  good env e (evm s') /\
  match r with
  | Continue => Gas (contract (fr s')) < gas /\ exists w', frame_ok (fr s') w'
  | Return_ b _ => contract_ok (contract (fr s')) /\ Gas (contract (fr s')) <= gas /\ data_ok b
  end.

Lemma after_execute_spec op o w e gas s s2 r err :
  op_facts op o -> exec_post env (execute o) w s (r, err) s2 -> good env e (evm s) ->
  Gas (contract (fr s)) + callee_gas (execute o) s <= gas ->
  (halts o = false -> reverts o = false -> Gas (contract (fr s)) + callee_gas (execute o) s < gas) ->
  zlen (stack (fr s)) <= op_maxStack o ->
  wp (after_execute o r err) s2 (step_post e gas).
Proof.
  intros Ho [Hge Hm Hc Hg _ Hp Hr Hret Hst] Hg0 Hle Hlt Hmax. cbn in Hret, Hst. unfold after_execute.
  apply wp_bind, wp_gets. set (b := deref (memory (fr s2)) r).
  assert (data_ok b) as Hb by (by eapply deref_ok).
  assert (good env e (evm s2)) as Hg2 by (by eapply good_trans).
  apply wp_bind. apply (wp_mono _ _ (fun _ s3 => fr s3 = fr s2 /\ good env e (evm s3))).
  { case_match; [|by apply wp_ret]. apply wp_mode. split; [done|]. cbn. rewrite CopyBytes_id. by apply good_returnData. }
  intros [] s3 [Ef Hg3]. destruct err as [er|].
  { apply wp_ret. split; [done|]. rewrite Ef. split; [done|]. split; [lia|apply data_ok_nil]. }
  destruct (reverts o) eqn:Erev. { apply wp_ret. split; [done|]. rewrite Ef. split; [done|]. split; [lia|done]. }
  destruct (halts o) eqn:Eh. { apply wp_ret. split; [done|]. rewrite Ef. split; [done|]. split; [lia|done]. }
  specialize (Hlt eq_refl eq_refl). pose proof (of_max _ _ Ho) as Hom. specialize (Hst eq_refl).
  assert (frame_ok (fr s3) w) as Hf3 by (rewrite Ef; split; [lia|done..]).
  apply wp_bind. apply (wp_mono _ _ (fun _ s4 => evm s4 = evm s3 /\ contract (fr s4) = contract (fr s3) /\ frame_ok (fr s4) w)).
  { case_match; [|by apply wp_ret]. apply wp_modf. split; [done|]. split; [done|].
    destruct Hf3. split; cbn; try done. apply u64_range. }
  intros [] s4 (Ee & Ec & Hf4). apply wp_ret. split; [by rewrite Ee|]. rewrite Ec, Ef. split; [lia|by exists w].
Qed.

Context (G : Z) (run : Contract -> bytes -> bool -> M EVM (bytes * option error * Contract)).
Context (Hctx : core_context env) (Hrun : run_spec env G run).

Lemma exec_phase op o w k s1 s2 gas :
  op_facts op o -> frame_ok (fr s1) w -> charged o w k s1 true s2 -> 0 <= k ->
  op_minStack o <= zlen (stack (fr s1)) <= op_maxStack o ->
  (forall f, memorySize o = Some f -> exists n, mem_of f (stack (fr s1)) = Some (n, false) /\ n <= 32 * k) ->
  (protected env (evm s1) -> writes o = false /\
     (op = Op.CALL -> forall v, Back (stack (fr s1)) 2 = Some v -> U_ToBig v = 0)) ->
  (is_push (execute o) = true -> pc (fr s1) < zlen (Code (contract (fr s1)))) ->
  gas = Gas (contract (fr s1)) + constantGas o -> gas <= G -> gas < gas_max ->
  wp ((if 0 <? 32 * k then modf (fun f => fr_memory f (Resize (memory f) (32 * k))) else ret tt) ;;;
      ' (r, err) <~ exec_of env run (execute o) ;;
      after_execute o r err) s2 (step_post (evm s1) gas).
Proof.
  intros Ho Hf (m2 & g2 & Ef & Hg2 & Hgr & Hok) Hk Hst Hmem Hpr Hpush -> HG Hmax.
  destruct (Hok eq_refl) as (Hpaid & Hmin & Hcal). clear Hok. destruct Hf as [Hsl _ Hco Hp Hr].
  pose proof (of_const _ _ Ho) as Hconst.
  set (m3 := if 0 <? 32 * k then Resize m2 (32 * k) else m2).
  set (s3 := MkMstate U S (fr_contract (fr_memory (fr s1) m3) (with_Gas (contract (fr s1)) g2)) (evm s2)).
  assert (mem_ok m3 (Z.max w k)) as Hm3 by (by apply Resize_paid).
  apply wp_bind. apply (wp_mono _ _ (fun _ s => s = s3)).
  { unfold s3, m3. case_match; [apply wp_modf|apply wp_ret]; rewrite ?Ef; [done|].
    destruct s2 as [f2 e2]. cbn in Ef |- *. by rewrite Ef. }
  intros [] _ ->. assert (callee_gas (execute o) s3 = callee_gas (execute o) s2) as Ecal.
  { unfold callee_gas, s3. by rewrite Ef. }
  apply wp_bind. eapply wp_mono.
  - apply (exec_safe env G run Hctx Hrun _ (Z.max w k)). rewrite <- Ecal in Hcal. split; cbn [fr evm s3].
    + split; cbn; try done. apply contract_ok_gas; [done|]. pose proof (co_gas _ Hco). lia.
    + apply Hg2.
    + cbn. pose proof (of_pops _ _ Ho). lia.
    + intros f Ef'. rewrite <- (of_mem _ _ Ho) in Ef'. destruct (Hmem f Ef') as (n & En & Hn). exists n.
      split; [done|]. cbn. rewrite (mo_len _ _ Hm3). lia.
    + apply Ho.
    + done.
    + intros Hw Hprot. rewrite (of_writes _ _ Ho (or_introl Hw)) in Hpr. destruct Hg2 as [_ [_ Ero _ _]].
      destruct Hpr as [? _]; [|done]. unfold protected in *. by rewrite <- Ero.
    + intros Hx Hprot v Hv. destruct Hg2 as [_ [_ Ero _ _]]. destruct Hpr as [_ Hv0].
      { unfold protected in *. by rewrite <- Ero. }
      apply Hv0; [by apply (of_opCall _ _ Ho)|done].
    + split; [lia|]. intros Eic. destruct (of_call _ _ Ho Eic) as [_ Hc1]. lia.
    + intros Hcre. pose proof (of_create _ _ Ho Hcre). cbn. lia.
    + cbn [contract fr_contract Gas with_Gas]. lia.
  - intros [r err] s4 Hpost. eapply (after_execute_spec op o _ _ _ s3); [done|exact Hpost|exact Hg2|..].
    + cbn. rewrite Ecal. lia.
    + intros Hh Hrv. pose proof (of_progress _ _ Ho Hh Hrv). cbn. rewrite Ecal.
      destruct (is_call (execute o)) eqn:Eic; [|rewrite callee_none by done; lia].
      destruct (of_call _ _ Ho Eic) as [_ Hc1]. lia.
    + cbn. lia.
Qed.
End step_safe.
