(* ===== verification/VmSafety.v ===== *)
(** * The interpreter terminates, and its calls keep their promises

    From one round to the whole run: the loop of [Run] ends within the fuel the
    gas gives it, and the calls of [evm.go] over it need no further assumption. *)

From Stdlib Require Import ZArith Lia.
From S2P Require Import Prelude Common Params Uint256 Crypto VmMemory VmAnalysis VmState VmContracts VmTable VmGas VmInstr VmInterp VmSpec VmMemFacts VmTableOk VmInv VmGasSafe VmContractsSafe VmCallSafe VmExecSafe VmExecMem VmExecCalls VmStepSafe.

Open Scope go_scope.

#[local] Arguments be_bytes : simpl never.

Section safety.
Context {U : Uint256} {UL : Uint256Laws U}.
Context {S : StateDB} {K : Keccak} {KI : KeccakInjective K} {SP : StateDBSpec S K}.
Context {C : CryptoPrims} {CL : CryptoLaws C} (env : Env).

(** An environment the theorems are about: a table that passes the check, and
    the transfer functions of [core/evm.go]. *)
Definition env_ok : Prop := jt_ok (jumpTable env) /\ core_context env.
Context (Henv : env_ok).

Lemma fail_step_safe e0 gas s er :
  good env e0 (evm s) -> contract_ok (contract (fr s)) -> Gas (contract (fr s)) <= gas ->
  wp (fail_step er) s (step_post env e0 gas).
Proof. intros Hg Hc Hl. apply wp_ret. split; [done|]. split; [done|]. split; [done|apply data_ok_nil]. Qed.

Lemma GetOp_inside c p : contract_ok c -> GetOp c p <> 0 -> p < zlen (Code c).
Proof.
  intros Hc. unfold GetOp, GetByte. rewrite (data_len c Hc). destruct (Z.ltb_spec p (zlen (Code c))); [done|].
  intros H0. by destruct H0.
Qed.

Lemma step_safe G run w s :
  run_spec env G run -> frame_ok (fr s) w -> evm_ok (evm s) -> Gas (contract (fr s)) <= G ->
  wp (step env run) s (step_post env (evm s) (Gas (contract (fr s)))).
Proof.
  intros Hrun Hf He HG. pose proof Hf as [Hsl Hm Hco Hp Hr]. pose proof (co_gas _ Hco) as Hgas.
  pose proof (good_refl env _ He) as Hg.
  unfold step. apply wp_bind, wp_gets. apply wp_bind, wp_gets. set (op := GetOp _ _).
  destruct (jumpTable env op) as [o|] eqn:Eo; [|by apply fail_step_safe].
  pose proof (op_ok_facts _ _ (proj1 Henv _ _ Eo)) as Ho.
  apply wp_bind, wp_gets. unfold len. case_match eqn:Hmin; [by apply fail_step_safe|]. apply Z.ltb_ge in Hmin.
  case_match eqn:Hmax; [by apply fail_step_safe|]. apply Z.ltb_ge in Hmax.
  apply wp_bind. eapply wp_mono; [by apply write_protected_spec|]. intros b s0 [-> Hpr].
  destruct b; [by apply fail_step_safe|]. specialize (Hpr eq_refl).
  pose proof (of_const _ _ Ho) as Hconst.
  apply wp_bind, wp_useGas; [lia|done|by apply fail_step_safe|]. intros Hcg. cbn [negb].
  set (c1 := with_Gas _ _). set (s1 := MkMstate U S (fr_contract (fr s) c1) (evm s)).
  assert (contract_ok c1) as Hc1 by (apply contract_ok_gas; [done|lia]).
  assert (frame_ok (fr s1) w) as Hf1 by (by split).
  apply wp_bind. eapply wp_mono; [by apply (needed_memory_spec op o s1)|]. intros ms s1' [-> Hms].
  destruct ms as [sz|er]; [|apply fail_step_safe; cbn; [done..|lia]].
  destruct (Hms sz eq_refl) as (k & -> & Hk & Hk0 & Hmem).
  apply wp_bind. eapply wp_mono.
  { apply (charge_dynamic_spec env op o w k s1); try done. intros Hprot. by destruct (Hpr Hprot). }
  intros ok s2 Hch. destruct ok; cbn [negb].
  - pose proof (exec_phase env G run (proj2 Henv) Hrun op o w k s1 s2 (Gas (contract (fr s)))) as He2.
    apply He2; try done; try (cbn; lia).
    intros Hpush. apply GetOp_inside; [done|]. apply (of_push _ _ Ho Hpush).
  - destruct Hch as (m2 & g2 & Ef & Hg2 & Hr2 & _). apply fail_step_safe; [done|rewrite Ef; cbn..].
    + apply contract_ok_gas; [done|]. cbn in Hr2. lia.
    + cbn in Hr2. lia.
Qed.

(** ** The loop *)

Definition loop_post (e : EVM) (gas : Z) (r : bytes * option error) (s' : mstate) : Prop :=
  good env e (evm s') /\ 0 <= Gas (contract (fr s')) <= gas /\ data_ok r.1.

Lemma aborted_safe steps s :
  evm_ok (evm s) -> wp (aborted steps) s (fun _ s' => fr s' = fr s /\ good env (evm s) (evm s')).
Proof.
  intros He. unfold aborted. case_match; [|apply wp_ret; split; [done|by apply good_refl]].
  apply wp_bind, wp_gets. case_match; [apply wp_ret; split; [done|by apply good_refl]|].
  apply wp_bind, wp_mode, wp_ret. split; [done|]. by apply good_abort, good_refl.
Qed.

(** [Run] around a loop that is safe for contracts with less than [G] gas. *)
Lemma Run_with_safe G lp :
  (forall s w, frame_ok (fr s) w -> evm_ok (evm s) -> Gas (contract (fr s)) < G ->
     wp (lp 0) s (loop_post (evm s) (Gas (contract (fr s))))) ->
  run_spec env G (Run_with lp).
Proof.
  intros Hlp c input ro e Hc Hi HG He Hd. unfold Run_with. apply wp_bind, wp_modify, wp_bind, wp_gets.
  set (sets := ro && negb (readOnly (with_depth e (depth e + 1)))).
  apply wp_bind. apply (wp_mono _ _ (fun _ e1 => e1 = with_readOnly (with_depth e (depth e + 1)) (ro || readOnly e))).
  { unfold sets, wp. cbn. destruct ro, (readOnly e) eqn:Er; cbn; unfold with_readOnly, with_depth; cbn; by rewrite ?Er. }
  intros [] _ ->. apply wp_bind, wp_modify.
  set (e1 := with_returnData (with_readOnly (with_depth e (depth e + 1)) (ro || readOnly e)) []).
  assert (evm_ok e1) as He1.
  { destruct He as [H1 H2 H3 H4]. split; cbn; try done; lia. }
  apply wp_bind. apply (wp_mono _ _ (fun r e2 => good env e1 e2 /\ 0 <= Gas r.2 <= Gas c /\ data_ok r.1.1)).
  { case_match; [apply wp_ret; split; [by apply good_refl|]; split; [pose proof (co_gas _ Hc); cbn; lia|apply data_ok_nil]|].
    set (s1 := MkMstate U S (MkFrame U 0 [] NewMemory [] (with_Input c input)) e1).
    assert (frame_ok (fr s1) 0) as Hf1.
    { split; cbn; try done. destruct Hc. by split. }
    specialize (Hlp s1 0 Hf1 He1 HG). unfold wp in *. cbv beta. fold s1. destruct (lp 0 s1) as [[[b err] s2]|[]|]; done. }
  intros [[rt err] c'] e2 ([He2 [Xd Xr Xs Xv Xm]] & Hgas & Hrt). cbn in Hgas, Hrt.
  apply wp_bind. apply (wp_mono _ _ (fun _ e3 => e3 = with_readOnly e2 (readOnly e))).
  { unfold sets. cbn. cbn in Xr. destruct ro, (readOnly e) eqn:Er; unfold wp; cbn in Xr |- *; unfold with_readOnly; destruct e2; cbn in *; by subst. }
  intros [] _ ->. apply wp_bind, wp_modify, wp_ret.
  assert (ro || readOnly e = true -> rIsByzantium (chainRules env) = true ->
          ro_eq (view (statedb e2)) (view (statedb e))) as Hview by (intros H1 H2; by apply Xv).
  split; [|by split]. split; [split; [|split]|].
  - destruct He2 as [H1 H2 H3 H4]. cbn in Xd. split; cbn; try done. pose proof (eo_depth _ He). lia.
  - cbn. cbn in Xd. lia.
  - done.
  - done.
  - intros [Hp1 Hp2]. cbn. apply Hview; [rewrite Hp1; apply orb_true_r|done].
  - exact Xm.
  - intros -> Hb. by apply Hview.
Qed.

(** More fuel than gas is enough: every round that goes on costs gas, and a
    nested frame starts with less gas than the one that opens it had. *)
Lemma loop_safe fuel steps s w :
  frame_ok (fr s) w -> evm_ok (evm s) -> Gas (contract (fr s)) < Z.of_nat fuel ->
  wp (loop env fuel steps) s (loop_post (evm s) (Gas (contract (fr s)))).
Proof.
  revert steps s w. induction fuel as [|fuel IH]; intros steps s w Hf He Hg.
  { pose proof (co_gas _ (fo_contract _ _ Hf)). lia. }
  cbn [loop]. apply wp_bind. eapply wp_mono; [by apply aborted_safe|]. intros b s1 [Ef Hg1].
  pose proof (co_gas _ (fo_contract _ _ Hf)) as Hgas.
  destruct b. { apply wp_ret. split; [done|]. rewrite Ef. split; [lia|apply data_ok_nil]. }
  apply wp_bind. eapply wp_mono.
  { apply (step_safe (Z.of_nat fuel) _ w s1); [|by rewrite Ef|apply Hg1|rewrite Ef; lia].
    apply Run_with_safe. intros s' w' Hf' He' Hg'. by eapply IH. }
  intros r s2 [Hg2 Hr]. rewrite Ef in Hr. destruct r as [|b err].
  - destruct Hr as (Hlt & w' & Hf2). eapply wp_mono; [eapply (IH _ s2 w' Hf2); [apply Hg2|lia]|].
    intros [b err] s3 (Hg3 & Hl3 & Hd3). split; [eapply good_trans; [exact Hg1|by eapply good_trans]|]. split; [lia|done].
  - destruct Hr as (Hc & Hle & Hd). apply wp_ret. split; [by eapply good_trans|]. split; [|done].
    pose proof (co_gas _ Hc). lia.
Qed.

(** The interpreter keeps the promise the calls rely on. *)
Lemma Run_spec fuel : run_spec env (Z.of_nat fuel) (Run env fuel).
Proof. apply Run_with_safe. intros s w Hf He Hg. by eapply loop_safe. Qed.
End safety.
