(* ===== verification/VmFuel.v ===== *)
(** * The fuel of the interpreter does not matter

    A run that does not exhaust its fuel has the same outcome with any larger
    fuel: [Run] is a function of the contract, its input and the machine alone. *)

From Stdlib Require Import ZArith Lia.
From S2P Require Import Prelude Common Params Uint256 Crypto VmMemory VmAnalysis VmState VmContracts VmTable VmGas VmInstr VmInterp.

Open Scope go_scope.

(** ** Computations ordered by fuel *)

(** [m'] has the outcome of [m] wherever [m] has fuel enough. *)
Definition fuel_le {T A} (m m' : M T A) : Prop := forall s, m s <> NoFuel -> m' s = m s.

#[export] Instance fuel_le_refl {T A} : Reflexive (@fuel_le T A).
Proof. done. Qed.

Lemma fuel_le_bind {T A B} (m m' : M T A) (f f' : A -> M T B) :
  fuel_le m m' -> (forall a, fuel_le (f a) (f' a)) -> fuel_le (bind m f) (bind m' f').
Proof.
  intros Hm Hf s H. unfold bind in *. rewrite (Hm s) by (by destruct (m s)).
  destruct (m s) as [[a s']|p|]; [by apply Hf|done..].
Qed.

Lemma fuel_le_on_evm {U : Uint256} {S : StateDB} {A} (m m' : M EVM A) : fuel_le m m' -> fuel_le (on_evm m) (on_evm m').
Proof. intros Hm s H. unfold on_evm in *. rewrite (Hm (evm s)) by (by destruct (m (evm s))). done. Qed.

Lemma fuel_le_bind_r {T A B} (m : M T A) (f f' : A -> M T B) :
  (forall a, fuel_le (f a) (f' a)) -> fuel_le (bind m f) (bind m f').
Proof. by apply fuel_le_bind. Qed.

(** Descend to the calls [tac] is about. *)
Ltac fuel_mono tac :=
  repeat first
    [ lazymatch goal with |- fuel_le ?a ?a => reflexivity end
    | tac
    | apply fuel_le_on_evm
    | apply fuel_le_bind; [|intros ?]
    | match goal with |- context [match ?x with _ => _ end] => destruct x end ].

Section fuel.
Context {U : Uint256} {S : StateDB} {K : Keccak} {C : CryptoPrims} (env : Env).
Abbreviation runner := (Contract -> bytes -> bool -> M EVM (bytes * option error * Contract)) (only parsing).

Section monotone.
Context (run run' : runner) (Hrun : forall c i ro, fuel_le (run c i ro) (run' c i ro)).

Lemma run_contract_mono c i ro : fuel_le (run_contract run c i ro) (run_contract run' c i ro).
Proof. apply fuel_le_bind; [apply Hrun|done]. Qed.

Lemma Call_mono cl a i g v : fuel_le (Call env run cl a i g v) (Call env run' cl a i g v).
Proof. unfold Call. fuel_mono ltac:(apply run_contract_mono). Qed.
Lemma CallCode_mono cl a i g v : fuel_le (CallCode env run cl a i g v) (CallCode env run' cl a i g v).
Proof. unfold CallCode. fuel_mono ltac:(apply run_contract_mono). Qed.
Lemma DelegateCall_mono cl a i g : fuel_le (DelegateCall env run cl a i g) (DelegateCall env run' cl a i g).
Proof. unfold DelegateCall. fuel_mono ltac:(apply run_contract_mono). Qed.
Lemma StaticCall_mono cl a i g : fuel_le (StaticCall env run cl a i g) (StaticCall env run' cl a i g).
Proof. unfold StaticCall. fuel_mono ltac:(apply run_contract_mono). Qed.
Lemma create_mono cl h g v a : fuel_le (create env run cl h g v a) (create env run' cl h g v a).
Proof. unfold create. fuel_mono ltac:(apply Hrun). Qed.
Lemma Create_mono cl c g v : fuel_le (Create env run cl c g v) (Create env run' cl c g v).
Proof. unfold Create. fuel_mono ltac:(apply create_mono). Qed.
Lemma Create2_mono cl c g v salt : fuel_le (Create2 env run cl c g v salt) (Create2 env run' cl c g v salt).
Proof. apply create_mono. Qed.

Lemma exec_mono x : fuel_le (exec_of env run x) (exec_of env run' x).
Proof.
  destruct x; cbn [exec_of]; try lazymatch goal with |- fuel_le ?a ?a => reflexivity end.
  - unfold opCreate. cbv zeta. fuel_mono ltac:(apply Create_mono).
  - unfold opCall. fuel_mono ltac:(apply Call_mono).
  - unfold opCallCode. fuel_mono ltac:(apply CallCode_mono).
  - unfold opCreate2. cbv zeta. fuel_mono ltac:(apply Create2_mono).
  - unfold opStaticCall. fuel_mono ltac:(apply StaticCall_mono).
  - unfold opDelegateCall. fuel_mono ltac:(apply DelegateCall_mono).
Qed.

Lemma step_mono : fuel_le (step env run) (step env run').
Proof.
  unfold step. cbv zeta. do 2 (apply fuel_le_bind_r; intros ?). case_match; [|reflexivity].
  apply fuel_le_bind_r; intros ?. case_match; [reflexivity|]. case_match; [reflexivity|].
  apply fuel_le_bind_r; intros ?. case_match; [reflexivity|]. apply fuel_le_bind_r; intros ?. case_match; [reflexivity|].
  apply fuel_le_bind_r; intros ?. case_match; [|reflexivity]. apply fuel_le_bind_r; intros ?. case_match; [reflexivity|].
  apply fuel_le_bind_r; intros ?. apply fuel_le_bind; [apply exec_mono|]. intros [r err]. reflexivity.
Qed.
End monotone.

Lemma Run_with_mono lp lp' :
  fuel_le (lp 0) (lp' 0) -> forall c i ro, fuel_le (Run_with lp c i ro) (Run_with lp' c i ro).
Proof.
  intros H c i ro. unfold Run_with. do 4 (apply fuel_le_bind_r; intros ?).
  apply fuel_le_bind; [|reflexivity]. case_match; [reflexivity|]. intros e He. cbv beta in *.
  rewrite H; [done|]. by destruct (lp 0 _).
Qed.

Lemma loop_mono fuel fuel' steps :
  (fuel <= fuel')%nat -> fuel_le (loop env fuel steps) (loop env fuel' steps).
Proof.
  revert fuel' steps. induction fuel as [|fuel IH]; intros fuel' steps Hle; [by intros s []|].
  destruct fuel' as [|fuel']; [lia|]. cbn [loop]. apply fuel_le_bind_r; intros stop. case_match; [reflexivity|].
  apply fuel_le_bind.
  - apply step_mono. apply Run_with_mono. apply IH. lia.
  - intros r. case_match; [apply IH; lia|reflexivity].
Qed.

Lemma Run_mono fuel fuel' c i ro :
  (fuel <= fuel')%nat -> fuel_le (Run env fuel c i ro) (Run env fuel' c i ro).
Proof. intros H. apply Run_with_mono. by apply loop_mono. Qed.
End fuel.
