(* ===== verification/VmTheorems.v ===== *)
(** * Theorems about the EVM

    The properties of [core/vm] the files before lead to, for an EVM whose
    interpreter was made by [NewEVMInterpreter] and whose transfer functions are
    those of [core/evm.go]; and a concrete EVM at which they apply. *)

From Stdlib Require Import ZArith Lia.
From S2P Require Import Prelude Common Params Uint256 Crypto VmMemory VmAnalysis VmState VmContracts VmTable VmGas VmInstr VmInterp VmSpec VmMemFacts VmTableOk VmInv VmGasSafe VmContractsSafe VmCallSafe VmExecSafe VmExecMem VmExecCalls VmStepSafe VmSafety VmFuel.

Open Scope go_scope.

#[local] Arguments be_bytes : simpl never.

(** The environment of an EVM as [NewEVM] sets it up over [core/evm.go]: its jump
    table comes from [NewEVMInterpreter], for any fork and any extra EIPs, in a
    process that may have made other interpreters before. *)
Definition interpreter_env {S : StateDB} (env : Env) : Prop :=
  core_context env /\
  exists g h eips jt ex h',
    reachable g h /\ NewEVMInterpreter g (chainRules env) eips h = Ok ((jt, ex), h') /\
    jumpTable env = table h' jt.

Lemma interpreter_env_ok {S : StateDB} (env : Env) : interpreter_env env -> env_ok env.
Proof.
  intros [Hc (g & h & eips & jt & ex & h' & Hr%reachable_ok & E & Ht)]. split; [|done]. rewrite Ht.
  by destruct (NewEVMInterpreter_ok _ _ _ _ _ _ _ Hr E) as [_ [[_ ?] _]%Forall_cons].
Qed.

(** ** A concrete EVM *)

Module Demo.
Definition rules : RulesT := Build_RulesT 1 true true true true true true true true false.

Definition jt : Z -> option operation :=
  match init_sets heap0 with
  | Ok (g, h) =>
      match NewEVMInterpreter g rules [] h with
      | Ok ((t, _), h') => table h' t
      | _ => fun _ => None
      end
  | _ => fun _ => None
  end.

Definition context : Context :=
  MkContext StateDB_ref core_CanTransfer core_Transfer (fun n => n) 77 1 88 10000000 5000000 1600000000 1.

Definition env : Env := MkEnv StateDB_ref context 1 rules false false jt.

(** PUSH1 1, PUSH1 2, ADD, PUSH1 0, MSTORE, PUSH1 32, PUSH1 0, RETURN. *)
Definition add_code : bytes := [96; 1; 96; 2; 1; 96; 0; 82; 96; 32; 96; 0; 243].
(** JUMPDEST, PUSH1 0, JUMP. *)
Definition spin_code : bytes := [91; 96; 0; 86].

Definition empty_view : View :=
  MkView (fun _ => false) (fun _ => 0) (fun _ => 0) (fun _ => []) (fun _ => 0) (fun _ _ => 0)
    (fun _ _ => 0) (fun _ => false) 0 [].
(** Two contracts, and an account with 500 wei. *)
Definition view0 : View :=
  s_AddBalance 300 500 (s_SetCode 200 spin_code (s_SetCode 100 add_code empty_view)).
Definition evm0 : EVM := MkEVM StateDB_ref (MkRefdb view0 [] 0) 0 0 [] false [] ∅.

Definition contract_of (code : bytes) (gas : Z) : Contract :=
  MkContract 300 (AccountRef 300) 100 None code 0 (Some 100) [] gas 0.

Lemma env_interpreter : interpreter_env env.
Proof.
  split; [done|]. unfold env, jt. cbn [chainRules jumpTable].
  destruct (init_sets heap0) as [[g h]|p|] eqn:E.
  - eexists g, h, [], _, _, _. split; [by apply reach_init|]. split; reflexivity.
  - exfalso. pose proof check_init as H. rewrite E in H. discriminate H.
  - exfalso. pose proof check_init as H. rewrite E in H. discriminate H.
Qed.

Lemma code_data l : forallb (fun b => (0 <=? b) && (b <? 256)) l = true -> zlen l <= 4096 -> data_ok l.
Proof.
  intros H Hl. split; [|unfold data_max; lia]. apply Forall_forall. intros b Hb.
  rewrite forallb_forall in H. specialize (H b (proj1 (list_elem_of_In _ _) Hb)). cbn in H. unfold is_byte. go_bool. lia.
Qed.

Lemma view0_ok : view_ok view0.
Proof.
  apply s_AddBalance_ok, s_SetCode_ok; [by apply code_data|].
  apply s_SetCode_ok; [by apply code_data|]. split; cbn; try done.
Qed.

Lemma evm0_ok : evm_ok evm0.
Proof.
  split; cbn; [|apply cache_ok_empty|apply data_ok_nil|unfold CallCreateDepth; lia].
  refine (MkRefdbOk _ _ _ _ _); cbn; [apply view0_ok|constructor|constructor].
Qed.

Lemma contract_of_ok code gas : data_ok code -> 0 <= gas < gas_max -> contract_ok (contract_of code gas).
Proof. intros Hc Hg. split; cbn; try done. by left. Qed.
End Demo.

(** The demo contract returns 3; the other one runs out of gas. *)
Example demo_run :
  match run Demo.env 200 (Demo.contract_of Demo.add_code 100) [] false Demo.evm0 with
  | Ok (rt, err, c, _) => (be_val rt, err, Gas c) = (3, None, 76)
  | _ => False
  end /\
  match run Demo.env 200 (Demo.contract_of Demo.spin_code 100) [] false Demo.evm0 with
  | Ok (rt, err, c, _) => (rt, err) = ([], Some ErrOutOfGas)
  | _ => False
  end.
Proof. split; vm_compute; reflexivity. Qed.

(** ** The interpreter *)

Section theorems.
Context {U : Uint256} {UL : Uint256Laws U}.
Context {S : StateDB} {K : Keccak} {KI : KeccakInjective K} {SP : StateDBSpec S K}.
Context {C : CryptoPrims} {CL : CryptoLaws C} (env : Env).

Lemma run_promise fuel : interpreter_env env -> run_spec env (Z.of_nat fuel) (run env fuel).
Proof. intros H. exact (Run_spec env (interpreter_env_ok env H) fuel). Qed.


(** The fuel is only a device of the model: a run that ends within its fuel has
    the same result with any larger fuel. *)
Lemma run_fuel_irrelevant fuel fuel' c input ro e :
  (fuel <= fuel')%nat -> run env fuel c input ro e <> NoFuel ->
  run env fuel' c input ro e = run env fuel c input ro e.
Proof. intros Hle Hn. exact (Run_mono env fuel fuel' c input ro Hle e Hn). Qed.

(** A round of the interpreter loop keeps the frame well formed (at most 1024
    words on the stack and 1023 on the return stack, memory a whole number of
    words whose fee is recorded) and costs gas, or ends the run with no more gas
    than before. *)
Theorem step_invariant fuel w s :
  interpreter_env env -> frame_ok (fr s) w -> evm_ok (evm s) -> Gas (contract (fr s)) <= Z.of_nat fuel ->
  wp (step env (run env fuel)) s (fun r s' =>
    good env (evm s) (evm s') /\
    match r with
    | Continue => Gas (contract (fr s')) < Gas (contract (fr s)) /\ exists w', frame_ok (fr s') w'
    | Return_ b _ => contract_ok (contract (fr s')) /\ Gas (contract (fr s')) <= Gas (contract (fr s)) /\ data_ok b
    end).
Proof.
  intros Henv Hf He Hg. eapply step_safe; [by apply interpreter_env_ok|by apply run_promise|done..].
Qed.

(** ** Calls *)



(** The same for [CallCode], and for [DelegateCall] made by a contract. *)
Theorem delegated_calls_atomic fuel caller addr input gas v e :
  interpreter_env env -> evm_ok e -> data_ok input -> 0 <= gas < gas_max -> gas < Z.of_nat fuel ->
  wp (CallCode env (run env fuel) caller addr input gas v) e (call_post env e input gas) /\
  forall s a x, wp (DelegateCall env (run env fuel) (CallerContract s a x) addr input gas) e (call_post env e input gas).
Proof.
  intros Henv He Hi Hg Hf. split.
  - apply (CallCode_safe env (Z.of_nat fuel)); try done; [apply Henv|by apply run_promise|lia|lia].
  - intros s a x. apply (DelegateCall_safe env (Z.of_nat fuel)); try done; [by apply run_promise|by eexists _, _, _|lia|lia].
Qed.



(** The same for [Create2], at the address derived from the salt and the hash
    of the init code. *)
Theorem Create2_correct fuel caller code gas v salt e :
  interpreter_env env -> evm_ok e -> data_ok code -> 0 <= gas < gas_max -> gas < Z.of_nat fuel ->
  0 <= v -> ~ protected env e ->
  wp (Create2 env (run env fuel) caller code gas v salt) e
    (create_post env e (ref_Address caller)
       (CreateAddress2 (ref_Address caller) (U_Bytes32 salt) (Hash_Bytes (Keccak256Hash code))) gas).
Proof.
  intros Henv He Hc Hg Hf Hv0 Hp.
  apply (Create2_safe env (Z.of_nat fuel)); try done; [apply Henv|by apply run_promise|lia|lia].
Qed.
End theorems.

(** ** The theorems at the concrete EVM *)


(** The first round of the demo contract. *)
Definition demo_start : mstate :=
  MkMstate Uint256_ref StateDB_ref (MkFrame Uint256_ref 0 [] NewMemory [] (Demo.contract_of Demo.add_code 100)) Demo.evm0.

Lemma step_invariant_witness :
  wp (step Demo.env (run Demo.env 100)) demo_start (fun r s' => good Demo.env Demo.evm0 (evm s')).
Proof.
  eapply wp_mono.
  - apply (step_invariant Demo.env 100 0 demo_start);
      [apply Demo.env_interpreter| |apply Demo.evm0_ok|by vm_compute].
    split; cbn; [by unfold StackLimit|apply NewMemory_ok|by apply Demo.contract_of_ok; [apply Demo.code_data|]|done|done].
  - by intros r s' [H _].
Defined.


Lemma view0_ether : ether Demo.view0 500.
Proof.
  assert (forall a, vBalance Demo.view0 a = if a =? 300 then 500 else 0) as E.
  { intros a. unfold Demo.view0, s_AddBalance, s_SetCode, s_ensure. cbn. unfold upd. cbn.
    destruct (a =? 300), (a =? 200), (a =? 100); done. }
  split; [intros a; rewrite E; by destruct (a =? 300)|]. exists [300]. split; [apply NoDup_singleton|].
  split; [|unfold sum_balance; cbn [foldr]; by rewrite E].
  intros a Ha. rewrite E. destruct (Z.eqb_spec a 300) as [->|]; [|done]. by destruct Ha; left.
Qed.


Lemma delegated_calls_atomic_witness :
  wp (DelegateCall Demo.env (run Demo.env 101) (CallerContract 100 300 0) 200 [] 100) Demo.evm0
    (call_post Demo.env Demo.evm0 [] 100).
Proof.
  refine (proj2 (delegated_calls_atomic Demo.env 101 (AccountRef 300) 200 [] 100 0 Demo.evm0 _ _ _ _ _) 100 300 0);
    [apply Demo.env_interpreter|apply Demo.evm0_ok|apply data_ok_nil|by vm_compute|by vm_compute].
Defined.


(** PUSH1 1, PUSH1 0, RETURN: an init code that returns one zero byte. *)
Definition demo_init : bytes := [96; 1; 96; 0; 243].


Lemma Create2_correct_witness :
  wp (Create2 Demo.env (run Demo.env 1001) (AccountRef 300) demo_init 1000 5 (7 : @u256 Uint256_ref)) Demo.evm0
    (create_post Demo.env Demo.evm0 300 (CreateAddress2 300 (U_Bytes32 (7 : @u256 Uint256_ref)) (Hash_Bytes (Keccak256Hash demo_init))) 1000).
Proof.
  apply (Create2_correct Demo.env 1001 (AccountRef 300) demo_init 1000 5 (7 : @u256 Uint256_ref) Demo.evm0);
    [apply Demo.env_interpreter|apply Demo.evm0_ok|by apply Demo.code_data|by vm_compute|by vm_compute|done|by intros []].
Defined.

(** The creation succeeds, the code is there, and the call fails with all gas gone. *)
Example demo_calls :
  match Create Demo.env (run Demo.env 1001) (AccountRef 300) demo_init 1000 5 Demo.evm0 with
  | Ok (rt, a, gleft, err, e') =>
      (rt, gleft, err, vCode (view (statedb e')) a, vBalance (view (statedb e')) a,
       vNonce (view (statedb e')) 300) = ([0], 791, None, [0], 5, 1)
  | _ => False
  end /\
  match Call Demo.env (run Demo.env 101) (AccountRef 300) 200 [] 100 7 Demo.evm0 with
  | Ok (rt, gleft, err, e') => (gleft, err, vBalance (view (statedb e')) 200) = (0, Some ErrOutOfGas, 0)
  | _ => False
  end.
Proof. split; vm_compute; reflexivity. Qed.
