(* ===== verification/VmSemantics.v ===== *)
(** * What the instructions compute

    Arithmetic, memory, storage, push, jump and gas rules of the instructions
    against reference definitions written from the Yellow Paper. *)

From Stdlib Require Import ZArith Lia.
From S2P Require Import Prelude Common Params Uint256 Crypto VmMemory VmAnalysis VmState VmContracts VmTable VmGas VmInstr VmInterp VmSpec VmMemFacts VmTableOk VmInv VmGasSafe VmContractsSafe VmCallSafe VmExecSafe VmExecMem VmTheorems.

Open Scope go_scope.

#[local] Arguments be_bytes : simpl never.

(** ** Arithmetic and logic *)

Definition truth (b : bool) : Z := if b then 1 else 0.

Inductive alu_fn :=
| Unary (f : Z -> Z)
| Binary (f : Z -> Z -> Z)          (* top, second *)
| Ternary (f : Z -> Z -> Z -> Z).

(** The function an instruction computes on unsigned 256-bit values. *)
Definition alu (x : execFn) : option alu_fn :=
  match x with
  | X_opAdd => Some (Binary (fun a b => (a + b) mod two256))
  | X_opSub => Some (Binary (fun a b => (a - b) mod two256))
  | X_opMul => Some (Binary (fun a b => (a * b) mod two256))
  | X_opDiv => Some (Binary (fun a b => if b =? 0 then 0 else a / b))
  | X_opSdiv => Some (Binary (fun a b => if b =? 0 then 0 else Z.quot (s256 a) (s256 b) mod two256))
  | X_opMod => Some (Binary (fun a b => if b =? 0 then 0 else a mod b))
  | X_opSmod => Some (Binary (fun a b => if b =? 0 then 0 else Z.rem (s256 a) (s256 b) mod two256))
  | X_opExp => Some (Binary (fun a b => (a ^ b) mod two256))
  | X_opSignExtend => Some (Binary (fun a b => extend_sign b a))
  | X_opLt => Some (Binary (fun a b => truth (a <? b)))
  | X_opGt => Some (Binary (fun a b => truth (b <? a)))
  | X_opSlt => Some (Binary (fun a b => truth (s256 a <? s256 b)))
  | X_opSgt => Some (Binary (fun a b => truth (s256 b <? s256 a)))
  | X_opEq => Some (Binary (fun a b => truth (a =? b)))
  | X_opAnd => Some (Binary Z.land)
  | X_opOr => Some (Binary Z.lor)
  | X_opXor => Some (Binary Z.lxor)
  | X_opByte => Some (Binary (fun i v => if i <? 32 then (v / 256 ^ (31 - i)) mod 256 else 0))
  | X_opSHL => Some (Binary (fun n v => (v * 2 ^ n) mod two256))
  | X_opSHR => Some (Binary (fun n v => v / 2 ^ n))
  | X_opSAR => Some (Binary (fun n v => (s256 v / 2 ^ n) mod two256))
  | X_opNot => Some (Unary (fun a => two256 - 1 - a))
  | X_opIszero => Some (Unary (fun a => truth (a =? 0)))
  | X_opAddmod => Some (Ternary (fun a b m => if m =? 0 then 0 else (a + b) mod m))
  | X_opMulmod => Some (Ternary (fun a b m => if m =? 0 then 0 else (a * b) mod m))
  | _ => None
  end.

Lemma two256_pow : two256 = 2 ^ 256.
Proof. reflexivity. Qed.

(** A shift by at least the width. *)
Lemma shl_wide v n : 256 <= n -> (v * 2 ^ n) mod two256 = 0.
Proof.
  intros Hn. rewrite two256_pow. replace (2 ^ n) with (2 ^ (n - 256) * 2 ^ 256) by (rewrite <- Z.pow_add_r by lia; f_equal; lia).
  rewrite Z.mul_assoc. apply Z.mod_mul. lia.
Qed.

Lemma shr_wide v n : 0 <= v < two256 -> 256 <= n -> v / 2 ^ n = 0.
Proof.
  intros Hv Hn. apply Z.div_small. pose proof (Z.pow_le_mono_r 2 256 n ltac:(lia) Hn). rewrite two256_pow in Hv. lia.
Qed.

Lemma sar_wide v n : 0 <= v < two256 -> 256 <= n ->
  (s256 v / 2 ^ n) mod two256 = if 0 <=? Z.sgn (s256 v) then 0 else two256 - 1.
Proof.
  intros Hv Hn. pose proof (Z.pow_le_mono_r 2 256 n ltac:(lia) Hn) as Hp. rewrite two256_pow in *.
  assert (2 ^ 256 = 2 * 2 ^ 255) as E by (rewrite <- Z.pow_succ_r by lia; reflexivity).
  assert (0 < 2 ^ 255) by (apply Z.pow_pos_nonneg; lia).
  unfold s256. rewrite two256_pow. destruct (Z.ltb_spec v (2 ^ 255)).
  - rewrite Z.div_small by lia. destruct (Z.leb_spec 0 (Z.sgn v)); [done|]. lia.
  - destruct (Z.leb_spec 0 (Z.sgn (v - 2 ^ 256))) as [Hs|Hs].
    + assert (Z.sgn (v - 2 ^ 256) = -1) by (apply Z.sgn_neg; lia). lia.
    + replace ((v - 2 ^ 256) / 2 ^ n) with (-1).
      * symmetry. apply (Z.mod_unique _ _ (-1)); lia.
      * apply (Z.div_unique_pos _ _ _ (v - 2 ^ 256 + 2 ^ n)); lia.
Qed.

Section alu.
Context {U : Uint256} {UL : Uint256Laws U} {S : StateDB} {K : Keccak} {C : CryptoPrims} (env : Env).
Context (run : Contract -> bytes -> bool -> M EVM (bytes * option error * Contract)).

(** [x] replaces the operands, above [st], by a word of value [v], and changes
    nothing else. *)
Definition computes (x : execFn) (s : mstate) (st : Stack u256) (v : Z) : Prop :=
  exists r, U_ToBig r = v /\
    exec_of env run x s = Ok (Own [], None, MkMstate U S (fr_stack (fr s) (r :: st)) (evm s)).

Lemma truth_val (b : bool) : U_ToBig (if b then U_SetOne else U_Clear) = truth b.
Proof. destruct b; [apply U_SetOne_val|apply U_Clear_val]. Qed.

(** C39: The arithmetic, comparison, bitwise and shift instructions compute the
    functions of the Yellow Paper on 256-bit words, with their operands in the
    right order: also for division by zero, and for shifts by any amount, where
    the code takes a branch of its own. *)
Theorem alu_correct x s :
  match alu x with
  | None => True
  | Some (Unary f) => forall a st, stack (fr s) = a :: st -> computes x s st (f (U_ToBig a))
  | Some (Binary f) =>
      forall a b st, stack (fr s) = a :: b :: st -> computes x s st (f (U_ToBig a) (U_ToBig b))
  | Some (Ternary f) =>
      forall a b m st, stack (fr s) = a :: b :: m :: st ->
        computes x s st (f (U_ToBig a) (U_ToBig b) (U_ToBig m))
  end.
Proof.
  destruct s as [[p stk mem rs c] e]. cbn [fr stack].
  destruct x; try exact I; cbn [alu]; intros; subst stk; eexists; (split; [|reflexivity]).
  all: rewrite ?U_Add_val, ?U_Sub_val, ?U_Mul_val, ?U_Div_val, ?U_SDiv_val, ?U_Mod_val, ?U_SMod_val, ?U_Exp_val,
    ?U_ExtendSign_val, ?U_Not_val, ?U_And_val, ?U_Or_val, ?U_Xor_val, ?U_Byte_val, ?truth_val, ?U_Lt_val, ?U_Gt_val,
    ?U_Slt_val, ?U_Sgt_val, ?U_Eq_val, ?U_IsZero_val, ?U_MulMod_val; try reflexivity.
  - destruct (Z.eqb_spec (U_ToBig m) 0); [apply U_Clear_val|by apply U_AddMod_val].
  - rewrite U_LtUint64_val by done. pose proof (U_range a). destruct (Z.ltb_spec (U_ToBig a) 256).
    + rewrite U_Uint64_val, u64_small, U_Lsh_val by u64_lia. done.
    + rewrite shl_wide by lia. apply U_Clear_val.
  - rewrite U_LtUint64_val by done. pose proof (U_range a). pose proof (U_range b). destruct (Z.ltb_spec (U_ToBig a) 256).
    + rewrite U_Uint64_val, u64_small, U_Rsh_val by u64_lia. done.
    + rewrite shr_wide by (done || lia). apply U_Clear_val.
  - rewrite U_GtUint64_val by done. pose proof (U_range a). pose proof (U_range b). destruct (Z.ltb_spec 256 (U_ToBig a)).
    + rewrite U_Sign_val, sar_wide by (done || lia). case_match; [apply U_Clear_val|apply U_SetAllOne_val].
    + rewrite U_Uint64_val, u64_small, U_SRsh_val by u64_lia. done.
Qed.
End alu.

(** SAR by 300 of the smallest signed word. *)
Definition sar_state : mstate :=
  MkMstate Uint256_ref StateDB_ref (MkFrame Uint256_ref 0 [300; 2 ^ 255; 9] NewMemory [] (Demo.contract_of [] 0)) Demo.evm0.

Lemma alu_correct_witness :
  computes Demo.env (run Demo.env 1) X_opSAR sar_state [9] ((s256 (w256 (2 ^ 255)) / 2 ^ w256 300) mod two256) /\
  (s256 (w256 (2 ^ 255)) / 2 ^ w256 300) mod two256 = two256 - 1.
Proof.
  split; [|vm_compute; reflexivity].
  exact (alu_correct Demo.env (run Demo.env 1) X_opSAR sar_state 300 (2 ^ 255) [9] eq_refl).
Defined.

(** ** Memory *)

Section memory_ops.
Context {U : Uint256} {UL : Uint256Laws U} {S : StateDB} {K : Keccak} {C : CryptoPrims}.

(** The 32 bytes at [o]. *)
Definition word_at (m : Memory) (o : Z) : bytes := take 32 (drop (Z.to_nat o) (store m)).

(** What MLOAD puts on the stack. *)
Lemma opMload_word s w o st :
  mem_ok (memory (fr s)) w -> stack (fr s) = o :: st -> U_ToBig o + 32 <= Memory_Len (memory (fr s)) ->
  opMload s = Ok (Own [], None, MkMstate U S (fr_stack (fr s) (U_SetBytes (word_at (memory (fr s)) (U_ToBig o)) :: st)) (evm s)).
Proof.
  destruct s as [[p stk m rs c] e]. cbn [fr evm stack memory fr_stack]. intros Hm -> Ho.
  pose proof (mem_len_small _ _ Hm) as Hl. unfold max_words in Hl. pose proof (U_range o).
  assert (GetPtr m (i64 (U_Uint64 o)) 32 = Ok (MemSlice (U_ToBig o) 32)) as Ep.
  { rewrite U_Uint64_val, u64_small, i64_small by u64_lia.
    unfold GetPtr, Memory_Len in *. change (32 =? 0) with false. cbv iota.
    destruct (Z.ltb_spec (U_ToBig o) (zlen (store m))); [|lia]. by rewrite zslice_Some by lia. }
  cbv [opMload bind peek_ getf gets lift_out lift_opt peek Back fr stack memory ret].
  change (zget (o :: st) 0) with (Some o). cbv iota beta. rewrite Ep. reflexivity.
Qed.

Lemma take_drop_same {A} (l1 l2 l3 : list A) n k :
  length l1 = n -> length l2 = k -> take k (drop n (l1 ++ l2 ++ l3)) = l2.
Proof.
  intros <- <-. rewrite drop_app_length. by rewrite take_app_length.
Qed.

(** Windows outside a changed segment. *)
Lemma take_drop_before {A} (l1 l2 l2' l3 : list A) n k :
  (n + k <= length l1)%nat -> take k (drop n (l1 ++ l2 ++ l3)) = take k (drop n (l1 ++ l2' ++ l3)).
Proof.
  intros H. rewrite !drop_app_le by lia. rewrite !take_app_le; [done|rewrite length_drop; lia..].
Qed.

Lemma take_drop_after {A} (l1 l2 l2' l3 : list A) n k :
  length l2 = length l2' -> (length l1 + length l2 <= n)%nat ->
  take k (drop n (l1 ++ l2 ++ l3)) = take k (drop n (l1 ++ l2' ++ l3)).
Proof.
  intros E H. rewrite !app_assoc. rewrite !drop_app_ge by (rewrite length_app; lia).
  by rewrite !length_app, E.
Qed.

(** MLOAD reads back what MSTORE wrote: after MSTORE of [val] at [off] into
    memory the frame has paid for, MLOAD at the same offset gives [val], at an
    offset 32 or more away it gives what it gave before, and the size and the
    recorded fee of the memory have not changed. *)
Theorem mstore_mload s w off val st :
  mem_ok (memory (fr s)) w -> stack (fr s) = off :: val :: st ->
  U_ToBig off + 32 <= Memory_Len (memory (fr s)) ->
  exists m', opMstore s = Ok (Own [], None, MkMstate U S (fr_memory (fr_stack (fr s) st) m') (evm s)) /\
    mem_ok m' w /\
    forall o st', U_ToBig o + 32 <= Memory_Len m' ->
      let s' := MkMstate U S (fr_memory (fr_stack (fr s) (o :: st')) m') (evm s) in
      let loaded v := MkMstate U S (fr_memory (fr_stack (fr s) (v :: st')) m') (evm s) in
      exists v, opMload s' = Ok (Own [], None, loaded v) /\
        (U_ToBig o = U_ToBig off -> U_ToBig v = U_ToBig val) /\
        (U_ToBig o + 32 <= U_ToBig off \/ U_ToBig off + 32 <= U_ToBig o ->
         v = U_SetBytes (word_at (memory (fr s)) (U_ToBig o))).
Proof.
  intros Hm Es Ho. pose proof (U_range off) as Hr. pose proof (mem_len_small _ _ Hm) as Hl. unfold max_words in Hl.
  assert (U_Uint64 off = U_ToBig off) as Eo by (rewrite U_Uint64_val; apply u64_small; u64_lia).
  destruct (Set32_covered (memory (fr s)) w (U_ToBig off) val Hm ltac:(lia) Ho) as (m' & Em & Hm' & Est).
  exists m'. split; [|split; [done|]].
  - destruct s as [[p stk m rs c] e]. cbn [fr evm stack memory] in *. subst stk.
    cbv [opMstore bind pop_ getf gets lift_out lift_opt pop fr stack memory ret set_stack modf modify fr_stack].
    rewrite Eo, Em. reflexivity.
  - intros o st' Hlen. cbv zeta. exists (U_SetBytes (word_at m' (U_ToBig o))).
    split; [exact (opMload_word (MkMstate U S (fr_memory (fr_stack (fr s) (o :: st')) m') (evm s)) w o st' Hm' eq_refl Hlen)|].
    unfold word_at. rewrite Est. unfold Memory_Len in *. pose proof (U_range o) as Hro.
    set (s0 := store (memory (fr s))) in *. set (n := Z.to_nat (U_ToBig off)).
    assert (length (take n s0) = n) as Ln by (rewrite length_take; unfold zlen in *; lia). split.
    + intros E. rewrite E. fold n. rewrite (take_drop_same _ _ _ n 32 Ln (be_bytes_length _ _)).
      rewrite U_SetBytes_val by apply be_bytes_is_byte. rewrite be_val_be_bytes.
      pose proof (U_range val). unfold w256. rewrite (Z.mod_small (U_ToBig val)) by done. by apply Z.mod_small.
    + intros Hd. f_equal.
      assert (s0 = take n s0 ++ take 32 (drop n s0) ++ drop (Z.to_nat (U_ToBig off + 32)) s0) as Esplit.
      { replace (Z.to_nat (U_ToBig off + 32)) with (n + 32)%nat by lia. rewrite <- drop_drop. by rewrite !take_drop. }
      assert (length (take 32 (drop n s0)) = 32%nat) as L32 by (rewrite length_take, length_drop; unfold zlen in *; lia).
      transitivity (take 32 (drop (Z.to_nat (U_ToBig o)) (take n s0 ++ take 32 (drop n s0) ++ drop (Z.to_nat (U_ToBig off + 32)) s0)));
        [|by rewrite <- Esplit].
      destruct Hd; [apply take_drop_before|apply take_drop_after]; rewrite ?be_bytes_length, ?L32, ?Ln; lia.
Qed.
End memory_ops.

(** A frame with one word of memory. *)
Definition word_state : mstate :=
  MkMstate Uint256_ref StateDB_ref
    (MkFrame Uint256_ref 0 [0; 77; 5] (MkMemory (zeros 32) 3) [] (Demo.contract_of [] 0)) Demo.evm0.

Lemma mstore_mload_witness :
  exists m', opMstore word_state =
    Ok (Own [], None, MkMstate Uint256_ref StateDB_ref (fr_memory (fr_stack (fr word_state) [5]) m') Demo.evm0).
Proof.
  destruct (mstore_mload word_state 1 (0 : @u256 Uint256_ref) (77 : @u256 Uint256_ref) [5]) as (m' & E & _).
  - split; [by vm_compute|reflexivity|reflexivity|apply Forall_zeros].
  - reflexivity.
  - by vm_compute.
  - by exists m'.
Defined.

(** ** Storage gas (EIP-2200) *)

(** Gas, and change of the refund counter, of a store of [new] in a slot that
    held [orig] at the start of the transaction and holds [cur] now. *)
Definition sstore_cost (orig cur new : Z) : Z :=
  if cur =? new then 800
  else if orig =? cur then (if orig =? 0 then 20000 else 5000)
  else 800.

Definition sstore_refund (orig cur new : Z) : Z :=
  if cur =? new then 0
  else if orig =? cur then (if orig =? 0 then 0 else if new =? 0 then 15000 else 0)
  else
    (if orig =? 0 then 0 else if cur =? 0 then -15000 else if new =? 0 then 15000 else 0)
    + (if orig =? new then (if orig =? 0 then 19200 else 4200) else 0).

(** Net price of holding [cur] in place of [orig]. *)
Definition net_price (orig cur : Z) : Z :=
  if orig =? cur then 0 else if orig =? 0 then 19200 else if cur =? 0 then 4200 - 15000 else 4200.

Lemma sstore_net orig cur new :
  sstore_cost orig cur new - sstore_refund orig cur new = 800 + net_price orig new - net_price orig cur.
Proof.
  unfold sstore_cost, sstore_refund, net_price.
  destruct (Z.eqb_spec cur new), (Z.eqb_spec orig cur), (Z.eqb_spec orig 0), (Z.eqb_spec new 0), (Z.eqb_spec cur 0),
    (Z.eqb_spec orig new); subst; lia.
Qed.

Lemma u64_add_l a b : u64 (u64 a + b) = u64 (a + b).
Proof. unfold u64. apply Zplus_mod_idemp_l. Qed.

Lemma s_setRefund_twice r r' v : s_setRefund r (s_setRefund r' v) = s_setRefund r v.
Proof. reflexivity. Qed.

Section storage_gas.
Context {U : Uint256} {UL : Uint256Laws U} {S : StateDB} {K : Keccak} {SP : StateDBSpec S K}.

Abbreviation sview s := (view (statedb (evm s))) (only parsing).

(** Nothing but the refund counter has changed, by [d]. *)
Definition refunded (s s' : mstate) (d : Z) : Prop :=
  fr s' = fr s /\ db_ok (statedb (evm s')) /\
  sview s' ≡ s_setRefund (u64 (vRefund (sview s) + d)) (sview s).

Lemma refunded_refl s : db_ok (statedb (evm s)) -> is_u64 (vRefund (sview s)) -> refunded s s 0.
Proof.
  intros Hd Hr. split; [done|]. split; [done|]. rewrite Z.add_0_r, u64_small by done. by split.
Qed.

Lemma refunded_view s s' d : refunded s s' d ->
  (forall a k, vState (sview s') a k = vState (sview s) a k) /\
  (forall a k, vCommitted (sview s') a k = vCommitted (sview s) a k).
Proof. intros (_ & _ & []). done. Qed.

Lemma refunded_trans s s' s'' d d' :
  refunded s s' d -> fr s'' = fr s' -> db_ok (statedb (evm s'')) ->
  sview s'' ≡ s_setRefund (u64 (vRefund (sview s') + d')) (sview s') -> refunded s s'' (d + d').
Proof.
  intros (Ef & _ & Hv) Ef' Hd Hv'. split; [congruence|]. split; [done|].
  rewrite Hv', (ve_Refund _ _ Hv), Hv. cbn [vRefund s_setRefund]. by rewrite u64_add_l, s_setRefund_twice, Z.add_assoc.
Qed.

Lemma refunded_read {A} (f : DB -> A * DB) s0 s d (Q : A -> mstate -> Prop) :
  refunded s0 s d -> effect id (statedb (evm s)) (snd (f (statedb (evm s)))) ->
  (forall s', refunded s0 s' d -> Q (fst (f (statedb (evm s)))) s') -> wp (on_evm (db_get f)) s Q.
Proof.
  intros (Ef & Hd & Hv) (Hd' & Hv' & _) HQ. unfold wp, on_evm, db_get. destruct (f (statedb (evm s))) as [a d'].
  cbn in *. apply HQ. split; [done|]. split; [done|]. cbn. by rewrite Hv'.
Qed.

Lemma refunded_add g s0 s d (Q : unit -> mstate -> Prop) :
  refunded s0 s d -> (forall s', refunded s0 s' (d + g) -> Q tt s') -> wp (addRefund g) s Q.
Proof.
  intros Hr HQ. destruct (AddRefund_spec g _ (proj1 (proj2 Hr))) as (Hd' & Hv' & _).
  unfold wp, addRefund, on_evm. cbn. apply HQ. by eapply refunded_trans.
Qed.

Lemma refunded_sub g s0 s d (Q : unit -> mstate -> Prop) :
  refunded s0 s d -> (forall s', refunded s0 s' (d - g) -> Q tt s') -> wp (subRefund g) s Q.
Proof.
  intros Hr HQ. pose proof (SubRefund_spec g _ (proj1 (proj2 Hr))) as Hs.
  unfold wp, subRefund, on_evm, db_try. destruct (vRefund (sview s) <? g); [by rewrite Hs|].
  destruct Hs as (d' & -> & Hd' & Hv' & _). cbn. apply HQ. by eapply refunded_trans.
Qed.

(** [gasSStoreEIP2200] implements net gas metering: with more than the
    stipend left it charges [sstore_cost] and moves the refund counter by
    [sstore_refund], for the original, the current and the new value of the
    slot; hence a store costs 800 plus the change of a net price that depends on
    the original and the present value only, so that the total of a sequence of
    stores does not depend on the values in between. *)
Theorem sstore_gas_net n s loc val st :
  stack (fr s) = loc :: val :: st -> evm_ok (evm s) -> is_u64 (vRefund (sview s)) ->
  let a := Contract_Address (contract (fr s)) in
  let orig := vCommitted (sview s) a (U_ToBig loc) in
  let cur := vState (sview s) a (U_ToBig loc) in
  wp (gasSStoreEIP2200 n) s (fun r s' =>
    if Gas (contract (fr s)) <=? 2300 then r = inr ErrReentrancySentry /\ s' = s
    else r = inl (sstore_cost orig cur (U_ToBig val)) /\
         refunded s s' (sstore_refund orig cur (U_ToBig val)) /\
         sstore_cost orig cur (U_ToBig val) - sstore_refund orig cur (U_ToBig val)
         = 800 + net_price orig (U_ToBig val) - net_price orig cur).
Proof.
  intros Es He Hr a orig cur. pose proof (refunded_refl s (eo_db _ He) Hr) as H0.
  unfold gasSStoreEIP2200. apply wp_bind, wp_gets. change SstoreSentryGasEIP2200 with 2300.
  destruct (Gas (contract (fr s)) <=? 2300); [by apply wp_ret|].
  apply (wp_mono _ _ (fun r s' => r = inl (sstore_cost orig cur (U_ToBig val)) /\
    refunded s s' (sstore_refund orig cur (U_ToBig val)))); [|intros r s' []; split; [done|]; split; [done|apply sstore_net]].
  apply wp_bind, wp_Back; [rewrite Es, !zlen_cons; pose proof (zlen_nonneg st); lia|].
  rewrite Es. intros y [= <-]. apply wp_bind, wp_Back; [rewrite Es, !zlen_cons; pose proof (zlen_nonneg st); lia|].
  rewrite Es. intros x [= <-]. apply wp_bind, wp_gets. fold a. rewrite U_Bytes32_val.
  apply wp_bind. destruct (GetState_spec a (U_ToBig loc) _ (eo_db _ He)) as [E1 X1].
  eapply refunded_read; [exact H0|exact X1|]. rewrite E1. fold cur. intros s1 H1. cbv zeta. rewrite U_Bytes32_val.
  unfold sstore_cost, sstore_refund. destruct (cur =? U_ToBig val); [by apply wp_ret|].
  apply wp_bind. destruct (GetCommittedState_spec a (U_ToBig loc) _ (proj1 (proj2 H1))) as [E2 X2].
  eapply refunded_read; [exact H1|exact X2|]. rewrite E2, (proj2 (refunded_view _ _ _ H1)). fold orig. intros s2 H2.
  destruct (orig =? cur).
  - destruct (orig =? 0); [by apply wp_ret|]. apply wp_bind.
    destruct (U_ToBig val =? 0); [eapply refunded_add; [exact H2|]; intros s3 H3; by apply wp_ret|by apply wp_ret, wp_ret].
  - apply wp_bind. unfold dirty_refunds. apply wp_bind.
    apply (wp_mono _ _ (fun _ s3 => refunded s s3 (if orig =? 0 then 0 else if cur =? 0 then -15000 else if U_ToBig val =? 0 then 15000 else 0))).
    + destruct (orig =? 0); [by apply wp_ret|]. cbn [negb]. destruct (cur =? 0).
      { eapply refunded_sub; [exact H2|]. done. }
      destruct (U_ToBig val =? 0); [by eapply refunded_add; [exact H2|]|by apply wp_ret].
    + intros [] s3 H3. destruct (orig =? U_ToBig val);
        [destruct (orig =? 0); (eapply refunded_add; [exact H3|]; intros s4 H4; by apply wp_ret)|].
      rewrite Z.add_0_r. by apply wp_ret, wp_ret.
Qed.
End storage_gas.

(** A slot of the demo EVM, first stored to. *)
Definition sstore_state : mstate :=
  MkMstate Uint256_ref StateDB_ref
    (MkFrame Uint256_ref 0 [4; 9] NewMemory [] (Demo.contract_of [] 100000)) Demo.evm0.

Lemma sstore_gas_net_witness :
  wp (gasSStoreEIP2200 0) sstore_state (fun r s' => r = inl 20000 /\ refunded sstore_state s' 0).
Proof.
  eapply wp_mono.
  - apply (sstore_gas_net 0 sstore_state (4 : @u256 Uint256_ref) (9 : @u256 Uint256_ref) []);
      [reflexivity|apply Demo.evm0_ok|by vm_compute].
  - intros r s' H. cbn in H. destruct H as (Hr & Hf & _). by split.
Defined.

(** ** Storage *)

Section storage_ops.
Context {U : Uint256} {UL : Uint256Laws U} {S : StateDB} {K : Keccak} {SP : StateDBSpec S K}.

(** SLOAD reads back what SSTORE wrote: after SSTORE of [val] at [loc], SLOAD
    at the same location gives [val] and at any other location what was there,
    in the storage of the executing account; the storage of other accounts is
    as before. *)
Theorem sstore_sload s loc val st :
  stack (fr s) = loc :: val :: st -> evm_ok (evm s) ->
  let a := Contract_Address (contract (fr s)) in
  exists e', opSstore s = Ok (Own [], None, MkMstate U S (fr_stack (fr s) st) e') /\
    (forall b k, b <> a -> vState (view (statedb e')) b k = vState (view (statedb (evm s))) b k) /\
    forall l st', exists v e'',
      opSload (MkMstate U S (fr_stack (fr s) (l :: st')) e')
        = Ok (Own [], None, MkMstate U S (fr_stack (fr s) (v :: st')) e'') /\
      view (statedb e'') ≡ view (statedb e') /\
      U_ToBig v = w256 (if U_ToBig l =? U_ToBig loc then U_ToBig val else vState (view (statedb (evm s))) a (U_ToBig l)).
Proof.
  destruct s as [[p stk m rs c] e]. cbn [fr evm stack contract]. intros -> He. set (a := Contract_Address c).
  destruct (SetState_spec a (U_Bytes32 loc) (U_Bytes32 val) _ (eo_db _ He)) as (Hd & Hv & _).
  pose proof (s_ensure_ro a _ (view_wf _ (eo_db _ He))) as Hro.
  exists (with_db e (SetState a (U_Bytes32 loc) (U_Bytes32 val) (statedb e))).
  split; [reflexivity|]. cbn [statedb with_db]. split.
  { intros b k Hb. rewrite (ve_State _ _ Hv). cbn. rewrite upd_ne by done. apply (ro_State _ _ Hro). }
  intros l st'. set (d1 := SetState _ _ _ _) in *.
  destruct (GetState_spec a (U_Bytes32 l) d1 Hd) as [El (_ & Hv2 & _)].
  destruct (GetState a (U_Bytes32 l) d1) as [x d2] eqn:Eg. cbn [fst snd] in El, Hv2.
  exists (U_SetBytes (Hash_Bytes x)), (with_db (with_db e d1) d2). split.
  { cbv [opSload bind peek_ getf gets lift_opt peek Back fr stack ret self_addr on_evm db_get contract evm fr_stack].
    change (zget (l :: st') 0) with (Some l). cbv iota beta. fold a. cbn [statedb with_db]. rewrite Eg. reflexivity. }
  split; [done|]. unfold Hash_Bytes. rewrite U_SetBytes_val by apply be_bytes_is_byte. rewrite be_val_be_bytes, El.
  rewrite (ve_State _ _ Hv). cbn [vState s_SetState]. rewrite upd_eq, !U_Bytes32_val. unfold upd.
  change (256 ^ Z.of_nat 32) with two256. unfold w256. rewrite Zmod_mod. case_match; [done|]. by rewrite (ro_State _ _ Hro).
Qed.
End storage_ops.

Lemma sstore_sload_witness :
  exists e', opSstore sstore_state = Ok (Own [], None, MkMstate Uint256_ref StateDB_ref (fr_stack (fr sstore_state) []) e').
Proof.
  destruct (sstore_sload sstore_state (4 : @u256 Uint256_ref) (9 : @u256 Uint256_ref) []) as (e' & E & _);
    [reflexivity|apply Demo.evm0_ok|by exists e'].
Defined.
