(* ===== verification/VmRules.v ===== *)
(** * Memory fees, call gas, jump destinations and push data *)

From Stdlib Require Import ZArith Lia.
From S2P Require Import Prelude Common Params Uint256 Crypto VmMemory VmAnalysis VmState VmContracts VmTable VmGas VmInstr VmInterp VmSpec VmMemFacts VmTableOk VmInv VmExecSafe VmTheorems.

Open Scope go_scope.

#[local] Arguments be_bytes : simpl never.

(** ** Memory fees *)

(** Growing the memory to a sequence of sizes, in words: each is charged and
    then allocated, as the interpreter does it.  [None] if one is refused. *)
Fixpoint grow (m : Memory) (ks : list Z) : option (Z * Memory) :=
  match ks with
  | [] => Some (0, m)
  | k :: ks =>
      match memoryGasCost m (32 * k) with
      | (inl fee, m) =>
          let m := if 0 <? 32 * k then Resize m (32 * k) else m in
          match grow m ks with
          | Some (rest, m) => Some (fee + rest, m)
          | None => None
          end
      | (inr _, _) => None
      end
  end.

(** Memory is charged by its final size: growing it step by step, through any
    sequence of sizes below the limit of 0x1FFFFFFFE0 bytes, costs in total the
    difference of the total fees 3w + w^2/512 of the largest and the first size
    in words, and never overflows; the memory then has that size. *)
Theorem memory_fee_path_independent ks m w :
  mem_ok m w -> Forall (fun k => 0 <= k <= max_words) ks ->
  let w' := fold_left Z.max ks w in
  exists m', grow m ks = Some (total_fee w' - total_fee w, m') /\ mem_ok m' w' /\
    Memory_Len m' = 32 * w'.
Proof.
  intros Hm Hks. cbv zeta. revert m w Hm. induction Hks as [|k ks Hk Hks IH]; intros m w Hm; cbn [grow fold_left].
  - exists m. rewrite Z.sub_diag. split; [done|]. split; [done|apply Hm].
  - destruct (memoryGasCost_spec m w (32 * k) k Hm eq_refl) as [[Hb _]|(_ & m1 & -> & _ & Hp)]; [lia|lia|].
    assert (mem_ok (if 0 <? 32 * k then Resize m1 (32 * k) else m1) (Z.max w k)) as Hm2 by (apply Resize_paid; [done|lia]).
    destruct (IH _ _ Hm2) as (m' & -> & Hm' & Hl). exists m'. split; [|done]. do 2 f_equal. lia.
Qed.

Lemma memory_fee_path_independent_witness :
  exists m', grow NewMemory [1; 100; 3; 24] = Some (total_fee 100 - total_fee 0, m') /\ mem_ok m' 100 /\
    Memory_Len m' = 3200.
Proof.
  apply (memory_fee_path_independent [1; 100; 3; 24] NewMemory 0); [apply NewMemory_ok|].
  repeat constructor; vm_compute; discriminate.
Defined.

(** ** The gas of a call *)

Section call_gas.
Context {U : Uint256} {UL : Uint256Laws U}.

(** [callGas] gives the callee what was asked for, but from EIP-150 on no
    more than all but one 64th of the gas left after the base cost, so that the
    caller keeps that part; before EIP-150 a request that is no [uint64] is an
    overflow. *)
Theorem callGas_rule availableGas base callCost :
  0 <= base <= availableGas -> availableGas < two64 ->
  let left := availableGas - base in
  callGas true availableGas base callCost = Some (Z.min (U_ToBig callCost) (left - left / 64)) /\
  64 * Z.min (U_ToBig callCost) (left - left / 64) <= 63 * left + 63 /\
  callGas false availableGas base callCost = (if U_ToBig callCost <? two64 then Some (U_ToBig callCost) else None).
Proof.
  intros Hb Ha. cbv zeta. pose proof (U_range callCost) as Hr.
  pose proof (Z.div_mod (availableGas - base) 64 ltac:(lia)) as Hdm.
  pose proof (Z.mod_pos_bound (availableGas - base) 64 ltac:(lia)) as Hmb.
  pose proof (Z.div_pos (availableGas - base) 64 ltac:(lia) ltac:(lia)) as Hdp.
  unfold callGas. rewrite U_IsUint64_val, U_Uint64_val.
  rewrite (u64_small (availableGas - base)) by u64_lia.
  rewrite (u64_small (availableGas - base - _)) by u64_lia.
  destruct (Z.ltb_spec (U_ToBig callCost) two64); cbn [negb orb]; split_and!.
  - rewrite u64_small by u64_lia. destruct (Z.ltb_spec (availableGas - base - (availableGas - base) / 64) (U_ToBig callCost)); f_equal; lia.
  - lia.
  - by rewrite u64_small by u64_lia.
  - f_equal. u64_lia.
  - lia.
  - done.
Qed.
End call_gas.

Lemma callGas_rule_witness :
  callGas true 6700 300 (1000000 : @u256 Uint256_ref) = Some (Z.min (w256 1000000) (6400 - 6400 / 64)).
Proof. apply (callGas_rule 6700 300 (1000000 : @u256 Uint256_ref)); [lia|unfold two64; lia]. Defined.

(** ** Jump destinations *)

Section jumps.
Context {U : Uint256} {UL : Uint256Laws U} {K : Keccak} {KI : KeccakInjective K}.

(** A jump destination is valid exactly if the byte there is a JUMPDEST that
    is an instruction and not push data, whether the analysis comes from the
    contract, from the map shared by hash, or is made on the spot; looking it up
    keeps the contract and the shared map consistent. *)
Theorem validJumpdest_correct c j dest :
  contract_ok c -> cache_ok j ->
  exists b c' j', validJumpdest c j dest = Some (b, c', j') /\
    contract_ok c' /\ cache_ok j' /\ Code c' = Code c /\ Gas c' = Gas c /\
    (b = true <-> zget (Code c) (U_ToBig dest) = Some 91 /\ instr_start (Code c) (U_ToBig dest)).
Proof.
  intros Hc Hj. destruct (validJumpdest_ok c j dest Hc Hj) as (b & c' & j' & E & (H1 & H2 & H3 & H4) & Hb).
  by exists b, c', j'.
Qed.
End jumps.

(** PUSH1 0x5b, JUMPDEST. *)
Lemma validJumpdest_correct_witness :
  exists b c' j', validJumpdest (Demo.contract_of [96; 91; 91] 10) ∅ (1 : @u256 Uint256_ref) = Some (b, c', j') /\ b = false.
Proof.
  destruct (validJumpdest_correct (Demo.contract_of [96; 91; 91] 10) ∅ (1 : @u256 Uint256_ref)) as (b & c' & j' & E & _).
  - apply Demo.contract_of_ok; [by apply Demo.code_data|by vm_compute].
  - apply cache_ok_empty.
  - exists b, c', j'. split; [done|]. vm_compute in E. by injection E.
Defined.

(** ** Push data *)

(** Byte [i] of the code, zero past its end. *)
Definition code_at (code : bytes) (i : Z) : Z := default 0 (zget code i).

(** The [k] bytes from [p] on. *)
Definition push_data (code : bytes) (p : Z) (k : nat) : bytes := map (fun i => code_at code (p + Z.of_nat i)) (seq 0 k).

Lemma push_data_lookup code p k i : push_data code p k !! i = if decide (i < k)%nat then Some (code_at code (p + Z.of_nat i)) else None.
Proof.
  unfold push_data. rewrite list_lookup_fmap. case_decide.
  - by rewrite lookup_seq_lt.
  - by rewrite lookup_seq_ge by lia.
Qed.

Lemma pad_push_data code p (k : nat) :
  0 <= p ->
  let a := if p <? zlen code then p else zlen code in
  let b := if a + Z.of_nat k <? zlen code then a + Z.of_nat k else zlen code in
  exists d, zslice code a b = Some d /\ RightPadBytes d (Z.of_nat k) = push_data code p k.
Proof.
  intros Hp a b. pose proof (zlen_nonneg code) as Hn.
  assert (a = Z.min p (zlen code)) as Ea by (unfold a; destruct (Z.ltb_spec p (zlen code)); lia).
  assert (b = Z.min (a + Z.of_nat k) (zlen code)) as Eb
    by (unfold b; destruct (Z.ltb_spec (a + Z.of_nat k) (zlen code)); lia).
  clearbody a b. subst b. rewrite zslice_Some by lia. eexists. split; [done|].
  set (d := take _ _). assert (zlen d = Z.min (a + Z.of_nat k) (zlen code) - a) as Ld.
  { unfold d, zlen in *. rewrite length_take, length_drop. lia. }
  rewrite RightPadBytes_app by lia. apply list_eq. intros i. rewrite push_data_lookup.
  unfold code_at, zget. destruct (Z.leb_spec 0 (p + Z.of_nat i)) as [_|]; [|lia].
  destruct (decide (i < length d)%nat) as [Hi|Hi].
  - unfold zlen in *. rewrite lookup_app_l by done. unfold d. rewrite lookup_take, lookup_drop.
    rewrite !decide_True by lia. replace (Z.to_nat (p + Z.of_nat i)) with (Z.to_nat a + i)%nat by lia.
    destruct (code !! (Z.to_nat a + i)%nat) eqn:E; [done|]. apply lookup_ge_None in E. lia.
  - rewrite lookup_app_r by lia. unfold zeros. unfold zlen in *. case_decide.
    + rewrite lookup_replicate_2 by lia. rewrite lookup_ge_None_2 by lia. done.
    + apply lookup_replicate_None. lia.
Qed.

Lemma push_data_bytes code p k : Forall is_byte code -> Forall is_byte (push_data code p k).
Proof.
  intros H. apply Forall_forall. intros x (i & -> & _)%list_elem_of_fmap. unfold code_at.
  destruct (zget code (p + Z.of_nat i)) eqn:E; [|split; cbn; lia]. cbn. unfold zget in E. case_match; [|done].
  by eapply Forall_lookup_1.
Qed.

Section push.
Context {U : Uint256} {UL : Uint256Laws U} {S : StateDB} {K : Keccak} {C : CryptoPrims} (env : Env).
Context (run : Contract -> bytes -> bool -> M EVM (bytes * option error * Contract)).

(** The function of PUSHk in the tables. *)
Definition push_fn (k : nat) : execFn := if (k =? 1)%nat then X_opPush1 else X_makePush (Z.of_nat k) (Z.of_nat k).

Lemma be_val_push code p k : data_ok code -> (k <= 32)%nat ->
  w256 (be_val (push_data code p k)) = be_val (push_data code p k).
Proof.
  intros [Hb _] Hk. pose proof (be_val_bound _ (push_data_bytes code p k Hb)) as Hr. apply Z.mod_small.
  assert (256 ^ zlen (push_data code p k) <= two256); [|lia].
  unfold zlen, push_data. rewrite length_map, length_seq. change two256 with (256 ^ 32). apply Z.pow_le_mono_r; lia.
Qed.

(** PUSH1 to PUSH32 push the big-endian value of the bytes that follow the
    opcode, with zeros for those past the end of the code, and move the program
    counter to the last of them. *)
Theorem push_pushes_data k s :
  (1 <= k <= 32)%nat -> data_ok (Code (contract (fr s))) -> 0 <= pc (fr s) < zlen (Code (contract (fr s))) ->
  exists v, U_ToBig v = be_val (push_data (Code (contract (fr s))) (pc (fr s) + 1) k) /\
    exec_of env run (push_fn k) s
    = Ok (Own [], None, MkMstate U S (fr_pc (fr_stack (fr s) (v :: stack (fr s))) (pc (fr s) + Z.of_nat k)) (evm s)).
Proof.
  destruct s as [[p st m rs c] e]. cbn [fr evm stack contract pc]. intros Hk Hc Hp. set (code := Code c) in *.
  assert (zlen code <= 4611686018427387904) as Hl by apply Hc. rewrite <- be_val_push by (done || lia).
  unfold push_fn. destruct (Nat.eqb_spec k 1) as [->|Hk1]; cbn [exec_of].
  - cbv [opPush1 bind modf modify getf gets fof fr pc contract fr_pc fr_stack lift_opt push_ ret done_ evm stack]. fold code.
    rewrite !u64_small by u64_lia.
    change (push_data code (p + 1) 1) with [code_at code (p + 1 + 0)]. rewrite Z.add_0_r. unfold code_at.
    destruct (Z.ltb_spec (p + 1) (zlen code)).
    + destruct (zget_Some code (p + 1)) as [x Ex]; [lia|]. rewrite Ex. exists (U_SetUint64 x). split; [|reflexivity].
      assert (is_byte x) as Hx.
      { unfold zget in Ex. destruct (0 <=? p + 1); [|done]. eapply Forall_lookup_1; [apply Hc|exact Ex]. }
      unfold is_byte in Hx. rewrite U_SetUint64_val by u64_lia. symmetry. apply Z.mod_small. cbn. unfold two256. lia.
    + assert (zget code (p + 1) = None) as Ex by (apply zget_None; lia). rewrite Ex. exists U_Clear. split; [|reflexivity].
      apply U_Clear_val.
  - cbv [makePush bind modf modify getf gets fof fr pc contract fr_pc fr_stack lift_opt push_ ret done_ evm stack]. fold code.
    rewrite !u64_small, i64_small by u64_lia.
    destruct (pad_push_data code (p + 1) k ltac:(lia)) as (d & Ed & Epad). cbv zeta. rewrite Ed, Epad.
    eexists. split; [|reflexivity]. apply U_SetBytes_val. apply push_data_bytes, Hc.
Qed.
End push.

(** PUSH2 at the end of the code: one byte is missing. *)
Definition push_state : mstate :=
  MkMstate Uint256_ref StateDB_ref (MkFrame Uint256_ref 0 [] NewMemory [] (Demo.contract_of [97; 18] 10)) Demo.evm0.

Lemma push_pushes_data_witness :
  exists v, U_ToBig v = be_val (push_data [97; 18] (0 + 1) 2) /\
    exec_of Demo.env (run Demo.env 1) (push_fn 2) push_state
    = Ok (Own [], None, MkMstate Uint256_ref StateDB_ref (fr_pc (fr_stack (fr push_state) (v :: [])) (0 + Z.of_nat 2)) Demo.evm0).
Proof.
  apply (push_pushes_data Demo.env (run Demo.env 1) 2 push_state); [lia|by apply Demo.code_data|by vm_compute].
Defined.

(** ** The identity contract and the return data

    [dataCopy.Run] returns its input, which is a window of the caller's memory.
    [opCall] copies the output into memory before the interpreter saves it as
    return data, so that a call of the identity contract whose output window
    overlaps its input leaves return data that is not the output of the call. *)

(** Memory 1, 2; CALL of contract 4 with input [0,2) and output [1,2); then the
    two bytes of return data are returned. *)
Definition alias_code : bytes :=
  [96; 1; 96; 0; 83; 96; 2; 96; 1; 83;
   96; 1; 96; 1; 96; 2; 96; 0; 96; 0; 96; 4; 97; 3; 232; 241; 80;
   96; 2; 96; 0; 96; 32; 62; 96; 2; 96; 32; 243].

Theorem identity_returndata_corrupted :
  match RunPrecompiledContract P_dataCopy [1; 2] 1000 with
  | Ok (r, _, err) => (ret_bytes [1; 2] r, err) = ([1; 2], None)
  | _ => False
  end /\
  match run Demo.env 2000 (Demo.contract_of alias_code 2000) [] false Demo.evm0 with
  | Ok (rt, err, _, _) => (rt, err) = ([1; 1], None)
  | _ => False
  end.
Proof. split; vm_compute; reflexivity. Qed.
