(* ===== verification/StateTransition.v ===== *)
(** * Applying a message

    [core/gaspool.go] and [core/state_transition.go]: buying gas from the pool of
    the block, the intrinsic gas, the call or creation, the refund and the fee.
    The theorems are in the second half: what a message costs, what it can leave
    behind, and when it is refused. *)

From Stdlib Require Import ZArith Lia.
From S2P Require Import Prelude Common Params Uint256 Crypto VmMemory VmAnalysis VmState VmContracts VmTable VmGas VmInstr VmInterp VmSpec VmMemFacts VmTableOk VmInv VmContractsSafe VmCallSafe VmSafety VmTheorems.

Open Scope go_scope.

(** ** core/gaspool.go *)

Definition GasPool : Type := Z.

Definition GasPool_AddGas (gp : GasPool) (amount : Z) : outcome GasPool :=
  if two64 - 1 - amount <? gp then Panic PanicGasPool else Ok (u64 (gp + amount)).

(** ** core/error.go *)

Inductive core_error :=
| ErrNonceTooLow
| ErrNonceTooHigh
| ErrGasLimitReached
| ErrInsufficientFundsForTransfer
| ErrInsufficientFunds
| core_ErrGasUintOverflow
| ErrIntrinsicGas.

Definition GasPool_SubGas (gp : GasPool) (amount : Z) : GasPool + core_error :=
  if gp <? amount then inr ErrGasLimitReached else inl (u64 (gp - amount)).

(** ** core/state_transition.go *)

Record Message := MkMessage {
  msg_From : Address;
  msg_To : option Address;
  msg_GasPrice : Z;
  msg_Gas : Z;
  msg_Value : Z;
  msg_Nonce : Z;
  msg_CheckNonce : bool;
  msg_Data : bytes;
}.

Record ExecutionResult := MkExecutionResult {
  UsedGas : Z;
  Err : option error;
  ReturnData : bytes;
}.

Definition Failed (r : ExecutionResult) : bool := bool_decide (Err r <> None).
Definition Return (r : ExecutionResult) : bytes := if Failed r then [] else CopyBytes (ReturnData r).
Definition Revert (r : ExecutionResult) : bytes :=
  if bool_decide (Err r = Some ErrExecutionReverted) then CopyBytes (ReturnData r) else [].

(** [for _, byt := range data { if byt != 0 { nz++ } }]. *)
Fixpoint count_nonzero (data : bytes) (nz : Z) : Z :=
  match data with
  | [] => nz
  | b :: data => count_nonzero data (if negb (b =? 0) then u64 (nz + 1) else nz)
  end.

Definition IntrinsicGas (data : bytes) (contractCreation isHomestead isEIP2028 : bool) : Z + core_error :=
  let gas := if contractCreation && isHomestead then TxGasContractCreation else TxGas in
  if 0 <? zlen data then
    let nz := count_nonzero data 0 in
    let nonZeroGas := if isEIP2028 then TxDataNonZeroGasEIP2028 else TxDataNonZeroGasFrontier in
    if (two64 - 1 - gas) / nonZeroGas <? nz then inr core_ErrGasUintOverflow
    else
      let gas := u64 (gas + u64 (nz * nonZeroGas)) in
      let z := u64 (zlen data - nz) in
      if (two64 - 1 - gas) / TxDataZeroGas <? z then inr core_ErrGasUintOverflow
      else inl (u64 (gas + u64 (z * TxDataZeroGas)))
  else inl gas.

Section state_transition.
Context {U : Uint256} {S : StateDB} {K : Keccak} {C : CryptoPrims} (env : Env).
Context (run : Contract -> bytes -> bool -> M EVM (bytes * option error * Contract)).

(** The fields that change: the pool, the gas, and the state behind the EVM. *)
Record StateTransition := MkStateTransition {
  st_gp : GasPool;
  st_gas : Z;
  st_initialGas : Z;
  st_evm : EVM;
}.

Definition NewStateTransition (e : EVM) (gp : GasPool) : StateTransition := MkStateTransition gp 0 0 e.

Definition st_set_gp (s : StateTransition) x := MkStateTransition x (st_gas s) (st_initialGas s) (st_evm s).
Definition st_set_gas (s : StateTransition) x := MkStateTransition (st_gp s) x (st_initialGas s) (st_evm s).
Definition st_set_initialGas (s : StateTransition) x := MkStateTransition (st_gp s) (st_gas s) x (st_evm s).
Definition st_set_evm (s : StateTransition) x := MkStateTransition (st_gp s) (st_gas s) (st_initialGas s) x.

(** A piece of the EVM, or of its state. *)
Definition st_on_evm {A} (m : M EVM A) : M StateTransition A :=
  fun s => match m (st_evm s) with
           | Ok (a, e) => Ok (a, st_set_evm s e)
           | Panic p => Panic p
           | NoFuel => NoFuel
           end.
Definition st_get {A} (f : DB -> A * DB) : M StateTransition A := st_on_evm (db_get f).
Definition st_do (f : DB -> DB) : M StateTransition unit := st_on_evm (db_do f).

Definition gasUsed (s : StateTransition) : Z := u64 (st_initialGas s - st_gas s).

Definition buyGas (msg : Message) : M StateTransition (option core_error) :=
  let mgval := msg_Gas msg * msg_GasPrice msg in
  balance <~ st_get (GetBalance (msg_From msg)) ;;
  if balance <? mgval then ret (Some ErrInsufficientFunds)
  else
    gp <~ gets st_gp ;;
    match GasPool_SubGas gp (msg_Gas msg) with
    | inr err => ret (Some err)
    | inl gp =>
        modify (fun s => st_set_gp s gp) ;;;
        modify (fun s => st_set_gas s (u64 (st_gas s + msg_Gas msg))) ;;;
        modify (fun s => st_set_initialGas s (msg_Gas msg)) ;;;
        st_do (SubBalance (msg_From msg) mgval) ;;;
        ret None
    end.

Definition preCheck (msg : Message) : M StateTransition (option core_error) :=
  if msg_CheckNonce msg then
    nonce <~ st_get (GetNonce (msg_From msg)) ;;
    if nonce <? msg_Nonce msg then ret (Some ErrNonceTooHigh)
    else if msg_Nonce msg <? nonce then ret (Some ErrNonceTooLow)
    else buyGas msg
  else buyGas msg.

Definition refundGas (msg : Message) : M StateTransition unit :=
  used <~ gets gasUsed ;;
  counter <~ gets (fun s => GetRefund (statedb (st_evm s))) ;;
  let refund := used / 2 in
  let refund := if counter <? refund then counter else refund in
  modify (fun s => st_set_gas s (u64 (st_gas s + refund))) ;;;
  gas <~ gets st_gas ;;
  st_do (AddBalance (msg_From msg) (gas * msg_GasPrice msg)) ;;;
  gp <~ gets st_gp ;;
  gp <~ lift_out (GasPool_AddGas gp gas) ;;
  modify (fun s => st_set_gp s gp).

(** The creation or the call: the result and the gas left. *)
Definition execute_message (msg : Message) (gas : Z) : M StateTransition (bytes * Z * option error) :=
  match msg_To msg with
  | None =>
      ' (rt, _, gas, vmerr) <~ st_on_evm (Create env run (AccountRef (msg_From msg)) (msg_Data msg) gas (msg_Value msg)) ;;
      ret (rt, gas, vmerr)
  | Some addr =>
      nonce <~ st_get (GetNonce (msg_From msg)) ;;
      st_do (SetNonce (msg_From msg) (u64 (nonce + 1))) ;;;
      ' (rt, gas, vmerr) <~ st_on_evm (Call env run (AccountRef (msg_From msg)) addr (msg_Data msg) gas (msg_Value msg)) ;;
      ret (ret_bytes (msg_Data msg) rt, gas, vmerr)
  end.

Definition TransitionDb (msg : Message) : M StateTransition (ExecutionResult + core_error) :=
  err <~ preCheck msg ;;
  match err with
  | Some err => ret (inr err)
  | None =>
      match IntrinsicGas (msg_Data msg) (bool_decide (msg_To msg = None)) (rIsHomestead (chainRules env)) (rIsIstanbul (chainRules env)) with
      | inr err => ret (inr err)
      | inl gas =>
          left <~ gets st_gas ;;
          if left <? gas then ret (inr ErrIntrinsicGas)
          else
            modify (fun s => st_set_gas s (u64 (st_gas s - gas))) ;;;
            can <~ (if 0 <? Z.sgn (msg_Value msg)
                    then st_get (CanTransfer (ctx env) (msg_From msg) (msg_Value msg))
                    else ret true) ;;
            if negb can then ret (inr ErrInsufficientFundsForTransfer)
            else
              left <~ gets st_gas ;;
              ' (rt, left, vmerr) <~ execute_message msg left ;;
              modify (fun s => st_set_gas s left) ;;;
              refundGas msg ;;;
              used <~ gets gasUsed ;;
              st_do (AddBalance (Coinbase (ctx env)) (used * msg_GasPrice msg)) ;;;
              used <~ gets gasUsed ;;
              ret (inl (MkExecutionResult used vmerr rt))
      end
  end.

Definition ApplyMessage (e : EVM) (msg : Message) (gp : GasPool)
  : outcome ((ExecutionResult + core_error) * StateTransition) :=
  TransitionDb msg (NewStateTransition e gp).
End state_transition.

(** ** The intrinsic gas *)

(** The base price, and the price of each byte. *)
Definition intrinsic_cost (data : bytes) (contractCreation isHomestead isEIP2028 : bool) : Z :=
  let base := if contractCreation && isHomestead then 53000 else 21000 in
  let nonzero := if isEIP2028 then 16 else 68 in
  base + foldr (fun b n => (if b =? 0 then 4 else nonzero) + n) 0 data.

Lemma count_nonzero_spec data n :
  0 <= n -> n + zlen data < two64 ->
  count_nonzero data n = n + zlen (filter (fun b => b <> 0) data).
Proof.
  revert n. induction data as [|b data IH]; intros n Hn Hl; cbn [count_nonzero]; [change (n = n + 0); lia|].
  rewrite zlen_cons in Hl. rewrite filter_cons. pose proof (zlen_nonneg data).
  destruct (Z.eqb_spec b 0) as [->|Hb]; cbn [negb].
  - rewrite decide_False by (by intros []). rewrite IH by lia. done.
  - rewrite decide_True by done. rewrite u64_small by u64_lia. rewrite IH by lia. rewrite zlen_cons. lia.
Qed.

Lemma nonzero_le data : 0 <= zlen (filter (fun b : Z => b <> 0) data) <= zlen data.
Proof. unfold zlen. pose proof (length_filter (fun b : Z => b <> 0) data). lia. Qed.

Lemma data_cost nonzero data :
  foldr (fun b n => (if b =? 0 then 4 else nonzero) + n) 0 data
  = nonzero * zlen (filter (fun b => b <> 0) data) + 4 * (zlen data - zlen (filter (fun b => b <> 0) data)).
Proof.
  induction data as [|b data IH]; cbn [foldr]; [change (0 = nonzero * 0 + 4 * (0 - 0)); lia|]. rewrite IH, filter_cons, zlen_cons.
  destruct (Z.eqb_spec b 0) as [->|Hb].
  - rewrite decide_False by (by intros []). lia.
  - rewrite decide_True by done. rewrite zlen_cons. lia.
Qed.

Lemma div_lt_iff a b c : 0 < b -> (a / b <? c) = (a <? b * c).
Proof.
  intros Hb. destruct (Z.ltb_spec (a / b) c) as [H|H], (Z.ltb_spec a (b * c)) as [H'|H']; try done; exfalso.
  - pose proof (Z.div_le_lower_bound a b c Hb H'). lia.
  - pose proof (Z.div_lt_upper_bound a b c Hb H'). lia.
Qed.

Lemma IntrinsicGas_cost data creation homestead eip2028 :
  zlen data < two64 ->
  IntrinsicGas data creation homestead eip2028 =
  let cost := intrinsic_cost data creation homestead eip2028 in
  if cost <? two64 then inl cost else inr core_ErrGasUintOverflow.
Proof.
  intros Hl. cbv zeta. unfold IntrinsicGas, intrinsic_cost. rewrite data_cost.
  set (base := if creation && homestead then 53000 else 21000).
  assert (0 < base <= 53000) as Hbase by (unfold base; destruct (creation && homestead); lia).
  destruct (Z.ltb_spec 0 (zlen data)) as [H0|H0].
  2: { destruct data as [|b data]; [|rewrite zlen_cons in H0; pose proof (zlen_nonneg data); lia].
       change (zlen (filter (fun b : Z => b <> 0) [])) with 0. change (zlen (@nil Z)) with 0.
       rewrite !Z.mul_0_r, !Z.add_0_r. destruct (Z.ltb_spec base two64); [done|u64_lia]. }
  rewrite count_nonzero_spec by lia. rewrite Z.add_0_l. set (nz := zlen (filter _ data)).
  pose proof (nonzero_le data) as Hnz. fold nz in Hnz. set (c := if eip2028 then 16 else 68).
  replace (if eip2028 then TxDataNonZeroGasEIP2028 else TxDataNonZeroGasFrontier) with c by (by destruct eip2028).
  assert (0 < c <= 68) as Hc by (unfold c; destruct eip2028; lia).
  rewrite div_lt_iff by lia. rewrite (u64_small (zlen data - nz)) by u64_lia.
  destruct (Z.ltb_spec (two64 - 1 - base) (c * nz)).
  { destruct (Z.ltb_spec (base + (c * nz + 4 * (zlen data - nz))) two64); [lia|done]. }
  rewrite (u64_small (nz * c)) by (unfold is_u64; lia). rewrite (u64_small (base + nz * c)) by (unfold is_u64; lia).
  rewrite div_lt_iff by lia.
  destruct (Z.ltb_spec (two64 - 1 - (base + nz * c)) (4 * (zlen data - nz))).
  { destruct (Z.ltb_spec (base + (c * nz + 4 * (zlen data - nz))) two64); [lia|done]. }
  rewrite (u64_small ((zlen data - nz) * 4)) by (unfold is_u64; lia).
  rewrite u64_small by (unfold is_u64; lia).
  destruct (Z.ltb_spec (base + (c * nz + 4 * (zlen data - nz))) two64); [f_equal; lia|lia].
Qed.

(** ** The transition *)

Section transition.
Context {U : Uint256} {UL : Uint256Laws U}.
Context {S : StateDB} {K : Keccak} {KI : KeccakInjective K} {SP : StateDBSpec S K}.
Context {C : CryptoPrims} {CL : CryptoLaws C} (env : Env).

Lemma wp_st_on_evm {A} (m : M EVM A) s (Q : A -> StateTransition -> Prop) :
  wp m (st_evm s) (fun a e => Q a (st_set_evm s e)) -> wp (st_on_evm m) s Q.
Proof. unfold wp, st_on_evm. by destruct (m (st_evm s)) as [[a e]|[]|]. Qed.

(** Messages the theorems are about: gas below 2^61, no negative amounts. *)
Record msg_ok (msg : Message) : Prop := MkMsgOk {
  mo_gas : 0 <= msg_Gas msg < gas_max;
  mo_price : 0 <= msg_GasPrice msg;
  mo_value : 0 <= msg_Value msg;
  mo_data : data_ok (msg_Data msg);
}.

Definition gas_cost (msg : Message) : Z := msg_Gas msg * msg_GasPrice msg.

(** When a message is refused, and why: before its gas is bought, and after. *)
Definition refused_early (msg : Message) (v : View) (gp : Z) : option core_error :=
  let nonce := vNonce v (msg_From msg) in
  if msg_CheckNonce msg && (nonce <? msg_Nonce msg) then Some ErrNonceTooHigh
  else if msg_CheckNonce msg && (msg_Nonce msg <? nonce) then Some ErrNonceTooLow
  else if vBalance v (msg_From msg) <? gas_cost msg then Some ErrInsufficientFunds
  else if gp <? msg_Gas msg then Some ErrGasLimitReached
  else None.

Definition msg_intrinsic (msg : Message) : Z :=
  intrinsic_cost (msg_Data msg) (bool_decide (msg_To msg = None)) (rIsHomestead (chainRules env)) (rIsIstanbul (chainRules env)).

Definition refused_late (msg : Message) (v : View) : option core_error :=
  if negb (msg_intrinsic msg <? two64) then Some core_ErrGasUintOverflow
  else if msg_Gas msg <? msg_intrinsic msg then Some ErrIntrinsicGas
  else if (0 <? msg_Value msg) && (vBalance v (msg_From msg) - gas_cost msg <? msg_Value msg)
       then Some ErrInsufficientFundsForTransfer
  else None.

Definition refused (msg : Message) (v : View) (gp : Z) : option core_error :=
  match refused_early msg v gp with Some er => Some er | None => refused_late msg v end.

(** The state after the gas is bought. *)
Definition bought (msg : Message) (v : View) : View := s_SubBalance (msg_From msg) (gas_cost msg) v.

Definition bought_state (msg : Message) (e : EVM) (gp : Z) (s : StateTransition) : Prop :=
  st_gp s = gp - msg_Gas msg /\ st_gas s = msg_Gas msg /\ st_initialGas s = msg_Gas msg /\
  gas_cost msg <= vBalance (view (statedb e)) (msg_From msg) /\ msg_Gas msg <= gp /\
  good env e (st_evm s) /\ view (statedb (st_evm s)) ≡ bought msg (view (statedb e)).

Lemma buyGas_safe msg e gp e1 :
  msg_ok msg -> evm_ok e -> is_u64 gp -> ~ protected env e -> good env e e1 -> view (statedb e1) ≡ view (statedb e) ->
  wp (buyGas msg) (NewStateTransition e1 gp) (fun r s' =>
    let balance := vBalance (view (statedb e)) (msg_From msg) in
    match r with
    | Some er =>
        er = (if balance <? gas_cost msg then ErrInsufficientFunds else ErrGasLimitReached) /\
        (gas_cost msg <= balance -> gp < msg_Gas msg) /\
        view (statedb (st_evm s')) ≡ view (statedb e) /\ st_gp s' = gp
    | None => bought_state msg e gp s'
    end).
Proof.
  intros Hm He Hgp Hnp Hg1 Hv1. unfold buyGas. apply wp_bind, wp_st_on_evm. cbn [st_evm NewStateTransition].
  eapply wp_getter; [apply _|exact Hg1|]. intros d2 Hg2 (Hd2 & Hv2 & _).
  destruct (GetBalance_spec (msg_From msg) _ (eo_db _ (proj1 Hg1))) as [-> _]. rewrite (ve_Balance _ _ Hv1).
  fold (gas_cost msg). assert (view d2 ≡ view (statedb e)) as Hve by (by rewrite Hv2, Hv1).
  destruct (Z.ltb_spec (vBalance (view (statedb e)) (msg_From msg)) (gas_cost msg)) as [Hb|Hb].
  { apply wp_ret. split; [done|]. split; [lia|]. done. }
  apply wp_bind, wp_gets. cbn [st_gp st_set_evm NewStateTransition]. unfold GasPool_SubGas.
  destruct (Z.ltb_spec gp (msg_Gas msg)) as [Hgl|Hgl]; [by apply wp_ret|].
  do 3 (apply wp_bind, wp_modify). apply wp_bind, wp_st_on_evm. cbn [st_evm st_set_gp st_set_gas st_set_initialGas st_set_evm].
  eapply (wp_effect env _ (s_SubBalance (msg_From msg) (gas_cost msg))); [exact Hg2|done|by apply SubBalance_spec| |].
  - intros n Hn. pose proof (mo_price _ Hm). pose proof (mo_gas _ Hm). unfold gas_cost in *.
    eexists. split; [|apply ether_SubBalance; [by apply view_wf| |exact Hn]].
    + nia.
    + etransitivity; [exact Hb|]. by rewrite (ve_Balance _ _ Hve).
  - intros d3 Hg3 (_ & Hv3 & _). apply wp_ret. pose proof (mo_gas _ Hm).
    split_and!; cbn; try done.
    + apply u64_small. unfold is_u64 in *. lia.
    + rewrite Z.add_0_l. apply u64_small. unfold is_u64, gas_max, two64 in *. lia.
    + rewrite Hv3. cbn [statedb with_db]. unfold bought. by rewrite Hve.
Qed.

Lemma preCheck_safe msg e gp :
  msg_ok msg -> evm_ok e -> is_u64 gp -> ~ protected env e ->
  wp (preCheck msg) (NewStateTransition e gp) (fun r s' =>
    refused_early msg (view (statedb e)) gp = r /\
    match r with
    | Some er => view (statedb (st_evm s')) ≡ view (statedb e) /\ st_gp s' = gp
    | None => bought_state msg e gp s'
    end).
Proof.
  intros Hm He Hgp Hnp.
  assert (forall e1, good env e e1 -> view (statedb e1) ≡ view (statedb e) ->
    (msg_CheckNonce msg = true -> vNonce (view (statedb e)) (msg_From msg) = msg_Nonce msg) ->
    wp (buyGas msg) (NewStateTransition e1 gp) (fun r s' =>
      refused_early msg (view (statedb e)) gp = r /\
      match r with
      | Some er => view (statedb (st_evm s')) ≡ view (statedb e) /\ st_gp s' = gp
      | None => bought_state msg e gp s'
      end)) as Hbuy.
  { intros e1 Hg1 Hv1 Hn. eapply wp_mono; [by apply buyGas_safe|]. intros r s' Hr. unfold refused_early.
    assert (msg_CheckNonce msg && (vNonce (view (statedb e)) (msg_From msg) <? msg_Nonce msg) = false) as ->
      by (destruct (msg_CheckNonce msg); cbn; [rewrite Hn by done; lia|done]).
    assert (msg_CheckNonce msg && (msg_Nonce msg <? vNonce (view (statedb e)) (msg_From msg)) = false) as ->
      by (destruct (msg_CheckNonce msg); cbn; [rewrite Hn by done; lia|done]).
    destruct r as [er|].
    - destruct Hr as (-> & Hlt & Hvs & Hgs).
      destruct (Z.ltb_spec (vBalance (view (statedb e)) (msg_From msg)) (gas_cost msg)); [done|].
      destruct (Z.ltb_spec gp (msg_Gas msg)); [done|lia].
    - destruct Hr as (Hr1 & Hr2 & Hr3 & Hr4 & Hr5 & Hr6).
      destruct (Z.ltb_spec (vBalance (view (statedb e)) (msg_From msg)) (gas_cost msg)); [lia|].
      destruct (Z.ltb_spec gp (msg_Gas msg)); [lia|done]. }
  unfold preCheck. destruct (msg_CheckNonce msg) eqn:Ec; [|apply Hbuy; [by apply good_refl|done|done]].
  apply wp_bind, wp_st_on_evm. cbn [st_evm NewStateTransition].
  eapply wp_getter; [apply _|by apply good_refl|]. intros d2 Hg2 (Hd2 & Hv2 & _).
  destruct (GetNonce_spec (msg_From msg) _ (eo_db _ He)) as [-> _].
  destruct (Z.ltb_spec (vNonce (view (statedb e)) (msg_From msg)) (msg_Nonce msg)) as [H1|H1].
  { apply wp_ret. split; [|done]. unfold refused_early. rewrite Ec. by destruct (Z.ltb_spec (vNonce (view (statedb e)) (msg_From msg)) (msg_Nonce msg)); [|lia]. }
  destruct (Z.ltb_spec (msg_Nonce msg) (vNonce (view (statedb e)) (msg_From msg))) as [H2|H2].
  { apply wp_ret. split; [|done]. unfold refused_early. rewrite Ec. cbn [andb].
    destruct (Z.ltb_spec (vNonce (view (statedb e)) (msg_From msg)) (msg_Nonce msg)); [lia|].
    by destruct (Z.ltb_spec (msg_Nonce msg) (vNonce (view (statedb e)) (msg_From msg))); [|lia]. }
  apply (Hbuy (with_db e d2)); [done|done|]. intros _. lia.
Qed.

(** ** The execution *)

(** The nonce of the sender goes up. *)
Definition bump (msg : Message) (v : View) : View :=
  s_SetNonce (msg_From msg) (u64 (vNonce v (msg_From msg) + 1)) v.

Definition executed (msg : Message) (e : EVM) (gas : Z) (r : bytes * Z * option error) (e' : EVM) : Prop :=
  let '(rt, gleft, err) := r in
  good env e e' /\ 0 <= gleft <= gas /\ data_ok rt /\
  (err <> None -> (msg_To msg = None -> rIsHomestead (chainRules env) = true) ->
   view (statedb e') ≡ bump msg (view (statedb e)) \/ (msg_To msg = None /\ view (statedb e') ≡ view (statedb e))).

Lemma execute_safe fuel msg gas s :
  interpreter_env env -> msg_ok msg -> evm_ok (st_evm s) -> ~ protected env (st_evm s) ->
  0 <= gas < gas_max -> gas < Z.of_nat fuel ->
  wp (execute_message env (run env fuel) msg gas) s (fun r s' =>
    exists e', s' = st_set_evm s e' /\ executed msg (st_evm s) gas r e').
Proof.
  intros Henv Hm He Hnp Hg Hf. unfold execute_message. destruct (msg_To msg) as [addr|] eqn:Et.
  - apply wp_bind, wp_st_on_evm. eapply wp_getter; [apply _|by apply good_refl|]. intros d1 Hg1 (Hd1 & Hv1 & _).
    destruct (GetNonce_spec (msg_From msg) _ (eo_db _ He)) as [-> _].
    apply wp_bind, wp_st_on_evm. cbn [st_evm st_set_evm].
    eapply (wp_effect env _ (s_SetNonce (msg_From msg) _)); [exact Hg1|done|by apply SetNonce_spec|by apply no_mint_SetNonce, view_wf|].
    intros d2 Hg2 (Hd2 & Hv2 & _). apply wp_bind, wp_st_on_evm. cbn [st_evm st_set_evm].
    eapply wp_mono.
    + apply (Call_safe env (Z.of_nat fuel) (run env fuel) (proj1 Henv) (run_promise env fuel Henv));
        [apply Hg2|apply Hm|lia|lia|apply Hm|]. intros Hp. by destruct Hnp.
    + intros [[rt gleft] err] e' (Hg' & Hl & Hd & Hv' & _). apply wp_ret. eexists. split; [done|].
      split; [by eapply good_trans|]. split; [done|]. split; [done|]. intros Her _. left. rewrite (Hv' Her).
      cbn [statedb with_db] in *. rewrite Hv2. unfold bump. by rewrite Hv1.
  - apply wp_bind, wp_st_on_evm.
    eapply wp_mono; [apply (Create_safe env (Z.of_nat fuel) (run env fuel) (proj1 Henv) (run_promise env fuel Henv));
      [done|lia|lia|apply Hm|done|apply Hm]|].
    intros [[[rt a] gleft] err] e' (Hg' & Hl & Hd & _ & Hv'). apply wp_ret. eexists. split; [done|].
    split; [done|]. split; [done|]. split; [done|]. intros Her Hh. destruct (Hv' Her (Hh Et)) as [E|E]; [by right|by left].
Qed.

(** ** The fee *)

(** What is left goes back to the sender, what was used goes to the miner. *)
Definition settle (msg : Message) (used : Z) (v : View) : View :=
  s_AddBalance (Coinbase (ctx env)) (used * msg_GasPrice msg)
    (s_AddBalance (msg_From msg) ((msg_Gas msg - used) * msg_GasPrice msg) v).

#[local] Instance settle_proper msg used : Proper ((≡) ==> (≡)) (settle msg used).
Proof. intros v w H. unfold settle. by rewrite H. Qed.

Lemma settle_ether msg used v n :
  msg_ok msg -> view_ok v -> 0 <= used <= msg_Gas msg -> ether v n -> ether (settle msg used v) (n + gas_cost msg).
Proof.
  intros Hm Hv Hu Hn. pose proof (mo_price _ Hm). unfold settle, gas_cost.
  replace (n + msg_Gas msg * msg_GasPrice msg)
    with (n + (msg_Gas msg - used) * msg_GasPrice msg + used * msg_GasPrice msg) by lia.
  apply ether_AddBalance; [by apply s_AddBalance_ok|nia|]. apply ether_AddBalance; [done|nia|done].
Qed.

(** The refund is at most half of the gas used. *)
Definition refund_of (used counter : Z) : Z := Z.min (used / 2) counter.

Lemma half_range u : 0 <= u -> 0 <= u / 2 <= u.
Proof. intros H. split; [apply Z.div_pos; lia|]. apply Z.div_le_upper_bound; lia. Qed.

Lemma finish_safe msg s gleft gp (r : bytes * option error) :
  msg_ok msg -> evm_ok (st_evm s) -> is_u64 gp -> msg_Gas msg <= gp ->
  0 <= gleft <= msg_Gas msg -> st_gp s = gp - msg_Gas msg -> st_initialGas s = msg_Gas msg ->
  0 <= vRefund (view (statedb (st_evm s))) ->
  wp (modify (fun s => st_set_gas s gleft) ;;;
      refundGas msg ;;;
      used <~ gets gasUsed ;;
      st_do (AddBalance (Coinbase (ctx env)) (used * msg_GasPrice msg)) ;;;
      used <~ gets gasUsed ;;
      ret (inl (MkExecutionResult used (snd r) (fst r)))) s (fun res s' =>
    let v := view (statedb (st_evm s)) in
    let used := msg_Gas msg - gleft - refund_of (msg_Gas msg - gleft) (vRefund v) in
    res = @inl _ core_error (MkExecutionResult used (snd r) (fst r)) /\
    st_gp s' = gp - used /\ view (statedb (st_evm s')) ≡ settle msg used v /\ evm_ok (st_evm s')).
Proof.
  intros Hm He Hgp Hle Hl Es Ei Hc. pose proof (mo_gas _ Hm) as Hgas. set (v := view (statedb (st_evm s))).
  set (ub := msg_Gas msg - gleft). pose proof (half_range ub ltac:(unfold ub; lia)) as Hh.
  set (rf := refund_of ub (vRefund v)). assert (0 <= rf <= ub) as Hrf by (unfold rf, refund_of, v; lia).
  assert (forall x, 0 <= x <= msg_Gas msg -> u64 x = x) as Hu by (intros x Hx; apply u64_small; unfold is_u64, gas_max, two64 in *; lia).
  apply wp_bind, wp_modify, wp_bind. unfold refundGas. apply wp_bind, wp_gets, wp_bind, wp_gets.
  assert (gasUsed (st_set_gas s gleft) = ub) as ->.
  { unfold gasUsed. cbn [st_initialGas st_gas st_set_gas]. by rewrite Ei, Hu by lia. }
  cbn [st_evm st_set_gas]. rewrite (GetRefund_spec _ (eo_db _ He)). fold v.
  replace (if vRefund v <? ub / 2 then vRefund v else ub / 2) with rf
    by (unfold rf, refund_of; destruct (Z.ltb_spec (vRefund v) (ub / 2)); lia).
  apply wp_bind, wp_modify, wp_bind, wp_gets. cbn [st_gas st_set_gas]. rewrite (Hu (gleft + rf)) by (unfold ub in *; lia).
  apply wp_bind, wp_st_on_evm, wp_db_do. cbn [st_evm st_set_gas].
  destruct (AddBalance_spec (msg_From msg) ((gleft + rf) * msg_GasPrice msg) _ (eo_db _ He)) as (Hd1 & Hv1 & _).
  set (d1 := AddBalance _ _ _) in *.
  apply wp_bind, wp_gets. cbn [st_gp st_set_evm st_set_gas]. rewrite Es. unfold GasPool_AddGas, is_u64 in *.
  destruct (Z.ltb_spec (two64 - 1 - (gleft + rf)) (gp - msg_Gas msg)); [unfold ub in *; lia|].
  rewrite (u64_small (gp - msg_Gas msg + (gleft + rf))) by (unfold is_u64, ub in *; lia).
  apply wp_bind. change (lift_out (Ok ?x)) with (ret (S := StateTransition) x). apply wp_ret, wp_modify.
  replace (gp - msg_Gas msg + (gleft + rf)) with (gp - (ub - rf)) by (unfold ub; lia).
  assert (forall s', st_initialGas s' = msg_Gas msg -> st_gas s' = gleft + rf -> gasUsed s' = ub - rf) as Hused.
  { intros s' E1 E2. unfold gasUsed. rewrite E1, E2, Hu by (unfold ub in *; lia). unfold ub. lia. }
  apply wp_bind, wp_gets. rewrite Hused by done.
  apply wp_bind, wp_st_on_evm, wp_db_do. cbn [st_evm st_set_gas st_set_gp st_set_evm statedb with_db].
  destruct (AddBalance_spec (Coinbase (ctx env)) ((ub - rf) * msg_GasPrice msg) d1 Hd1) as (Hd2 & Hv2 & _).
  apply wp_bind, wp_gets, wp_ret. rewrite Hused by done. cbn [st_set_gas st_set_evm st_set_gp st_gp st_evm statedb with_db].
  split; [done|]. split; [done|]. split; [|by destruct He].
  rewrite Hv2, Hv1. unfold settle. fold rf. by replace (msg_Gas msg - (ub - rf)) with (gleft + rf) by (unfold ub; lia).
Qed.

(** What applying [msg] in the state [v] with [gp] in the pool may end in. *)
Definition transition_post (msg : Message) (v : View) (gp : Z) (r : ExecutionResult + core_error) (s' : StateTransition) : Prop :=
  let v' := view (statedb (st_evm s')) in
  match r with
  | inr er =>
      refused msg v gp = Some er /\
      (refused_early msg v gp = Some er -> v' ≡ v /\ st_gp s' = gp) /\
      (refused_early msg v gp = None -> v' ≡ bought msg v /\ st_gp s' = gp - msg_Gas msg)
  | inl res =>
      refused msg v gp = None /\
      UsedGas res <= msg_Gas msg /\ msg_intrinsic msg <= 2 * UsedGas res /\ st_gp s' = gp - UsedGas res /\
      no_mint v v' /\ evm_ok (st_evm s') /\
      (Err res <> None -> (msg_To msg = None -> rIsHomestead (chainRules env) = true) ->
       v' ≡ settle msg (UsedGas res) (bump msg (bought msg v)) \/
       (msg_To msg = None /\ v' ≡ settle msg (UsedGas res) (bought msg v)))
  end.

Lemma intrinsic_pos msg : 21000 <= msg_intrinsic msg.
Proof.
  unfold msg_intrinsic, intrinsic_cost. rewrite data_cost. pose proof (nonzero_le (msg_Data msg)).
  destruct (bool_decide (msg_To msg = None) && rIsHomestead (chainRules env)), (rIsIstanbul (chainRules env)); lia.
Qed.

Lemma bought_ether msg v n :
  msg_ok msg -> view_ok v -> gas_cost msg <= vBalance v (msg_From msg) -> ether v n -> ether (bought msg v) (n - gas_cost msg).
Proof. intros Hm Hv Hb Hn. by apply ether_SubBalance. Qed.

#[local] Instance bump_proper msg : Proper ((≡) ==> (≡)) (bump msg).
Proof. intros v w H. unfold bump. by rewrite (ve_Nonce _ _ H), H. Qed.

(** After the checks: execution, refund and fee. *)
Lemma execute_and_settle fuel msg e gp s :
  interpreter_env env -> msg_ok msg -> evm_ok e -> ~ protected env e -> is_u64 gp -> msg_Gas msg < Z.of_nat fuel ->
  bought_state msg e gp (st_set_gas s (msg_Gas msg)) -> st_gas s = msg_Gas msg - msg_intrinsic msg ->
  msg_intrinsic msg <= msg_Gas msg -> refused msg (view (statedb e)) gp = None ->
  wp (left <~ gets st_gas ;;
      ' (rt, left, vmerr) <~ execute_message env (run env fuel) msg left ;;
      modify (fun s => st_set_gas s left) ;;;
      refundGas msg ;;;
      used <~ gets gasUsed ;;
      st_do (AddBalance (Coinbase (ctx env)) (used * msg_GasPrice msg)) ;;;
      used <~ gets gasUsed ;;
      ret (inl (MkExecutionResult used vmerr rt))) s (transition_post msg (view (statedb e)) gp).
Proof.
  intros Henv Hm He Hnp Hgp Hf (B1 & _ & B3 & B4 & B5 & B6 & B7) Hgas Hi Hr. cbn in B1, B3, B6, B7.
  pose proof (intrinsic_pos msg) as Hpos. pose proof (mo_gas _ Hm) as Hmg.
  apply wp_bind, wp_gets, wp_bind. rewrite Hgas.
  eapply wp_mono; [apply (execute_safe fuel); try done; [apply B6| |lia|lia]|].
  { intros [Hp ?]. apply Hnp. split; [|done]. destruct B6 as [_ [_ Er _ _ _]]. by rewrite <- Er. }
  intros [[rt gleft] err] s2 (e2 & -> & Hg2 & Hl & Hd & Hv2).
  pose proof (vo_refund _ (view_wf _ (eo_db _ (proj1 Hg2)))) as Hc.
  eapply wp_mono; [apply (finish_safe msg (st_set_evm s e2) gleft gp (rt, err)); try done; [apply Hg2|lia|apply Hc]|].
  intros res s' (-> & Hp' & Hv' & Hev'). cbn [fst snd st_evm st_set_evm] in *. unfold transition_post. cbn [UsedGas Err].
  set (ub := msg_Gas msg - gleft) in *. set (rf := refund_of ub (vRefund (view (statedb e2)))) in *.
  assert (0 <= rf /\ 2 * rf <= ub) as Hrf.
  { unfold rf, refund_of. pose proof (half_range ub ltac:(unfold ub; lia)). pose proof (Z.mul_div_le ub 2 ltac:(lia)). destruct Hc. lia. }
  split; [done|]. split; [unfold ub in *; lia|]. split; [unfold ub in *; lia|]. split; [done|]. split; [|split; [exact Hev'|]].
  - intros n Hn. pose proof (view_wf _ (eo_db _ He)) as Hw.
    pose proof (bought_ether msg _ n Hm Hw B4 Hn) as Hn1.
    apply (ether_same _ (view (statedb (st_evm s)))) in Hn1; [|intros a; apply B7].
    destruct (x_mint _ _ _ (proj2 Hg2) _ Hn1) as (m & Hm' & Hn2).
    exists (m + gas_cost msg). split; [lia|]. eapply ether_same; [intros a; apply (ve_Balance _ _ Hv')|].
    apply settle_ether; [done|apply view_wf, (proj1 Hg2)|unfold ub in *; lia|done].
  - intros Her Hh. destruct (Hv2 Her Hh) as [E|[Et E]]; [left|right; split; [done|]]; by rewrite Hv', E, B7.
Qed.

Lemma TransitionDb_safe fuel msg e gp :
  interpreter_env env -> msg_ok msg -> evm_ok e -> ~ protected env e -> is_u64 gp -> msg_Gas msg < Z.of_nat fuel ->
  wp (TransitionDb env (run env fuel) msg) (NewStateTransition e gp) (transition_post msg (view (statedb e)) gp).
Proof.
  intros Henv Hm He Hnp Hgp Hf. unfold TransitionDb. apply wp_bind. eapply wp_mono; [by apply preCheck_safe|].
  intros r s1 [Hre Hr]. destruct r as [er|].
  { destruct Hr as [Hv Hp]. apply wp_ret. unfold transition_post, refused. rewrite Hre. done. }
  set (v := view (statedb e)) in *.
  assert (forall er s', refused_late msg v = Some er -> view (statedb (st_evm s')) ≡ bought msg v ->
    st_gp s' = gp - msg_Gas msg -> transition_post msg v gp (inr er) s') as Hlate.
  { intros er s' Hl Hv Hp. unfold transition_post, refused. rewrite Hre. done. }
  pose proof Hr as (B1 & B2 & B3 & B4 & B5 & B6 & B7).
  pose proof (mo_data _ Hm) as [_ Hlen]. rewrite IntrinsicGas_cost by (unfold data_max, two64 in *; lia).
  fold (msg_intrinsic msg). cbv zeta. destruct (Z.ltb_spec (msg_intrinsic msg) two64) as [Hi|Hi].
  2: { apply wp_ret, Hlate; [|done|done]. unfold refused_late. by destruct (Z.ltb_spec (msg_intrinsic msg) two64); [lia|]. }
  pose proof (intrinsic_pos msg) as Hpos.
  apply wp_bind, wp_gets. rewrite B2. destruct (Z.ltb_spec (msg_Gas msg) (msg_intrinsic msg)) as [Hg|Hg].
  { apply wp_ret, Hlate; [|done|done]. unfold refused_late. destruct (Z.ltb_spec (msg_intrinsic msg) two64); [|lia].
    cbn [negb]. by destruct (Z.ltb_spec (msg_Gas msg) (msg_intrinsic msg)); [|lia]. }
  assert (refused_late msg v = if (0 <? msg_Value msg) && (vBalance v (msg_From msg) - gas_cost msg <? msg_Value msg)
    then Some ErrInsufficientFundsForTransfer else None) as Hrl.
  { unfold refused_late. destruct (Z.ltb_spec (msg_intrinsic msg) two64); [|lia]. cbn [negb].
    by destruct (Z.ltb_spec (msg_Gas msg) (msg_intrinsic msg)); [lia|]. }
  apply wp_bind, wp_modify. rewrite B2, u64_small by (pose proof (mo_gas _ Hm); unfold is_u64, gas_max, two64 in *; lia).
  set (s2 := st_set_gas s1 (msg_Gas msg - msg_intrinsic msg)).
  assert (view_ok v) as Hw by apply view_wf, He.
  assert (vBalance (view (statedb (st_evm s2))) (msg_From msg) = vBalance v (msg_From msg) - gas_cost msg) as Hbal.
  { cbn. rewrite (ve_Balance _ _ B7). unfold bought, s_SubBalance. cbn. unfold upd. rewrite Z.eqb_refl. by rewrite s_ensure_balance. }
  apply wp_bind. apply (wp_mono _ _ (fun can s3 => exists d, s3 = st_set_evm s2 (with_db (st_evm s2) d) /\
    good env e (with_db (st_evm s2) d) /\ view d ≡ bought msg v /\
    can = negb ((0 <? msg_Value msg) && (vBalance v (msg_From msg) - gas_cost msg <? msg_Value msg)))).
  { assert ((0 <? Z.sgn (msg_Value msg)) = (0 <? msg_Value msg)) as -> by (by destruct (msg_Value msg)).
    destruct (0 <? msg_Value msg).
    - apply wp_st_on_evm. rewrite (proj1 (proj1 Henv)). eapply wp_getter; [apply _|exact B6|].
      intros d Hgd (_ & Hvd & _). exists d. split; [done|]. split; [done|]. split; [by rewrite Hvd|].
      change (st_evm s2) with (st_evm s1) in *. unfold core_CanTransfer. destruct (GetBalance_spec (msg_From msg) _ (eo_db _ (proj1 B6))) as [Eb _].
      destruct (GetBalance (msg_From msg) (statedb (st_evm s1))) as [b d']. cbn in Eb, Hbal |- *. rewrite Eb, Hbal. lia.
    - apply wp_ret. exists (statedb (st_evm s2)). assert (with_db (st_evm s2) (statedb (st_evm s2)) = st_evm s2) as -> by (by destruct (st_evm s2)).
      split; [by destruct s1|]. by split_and!. }
  intros can s3 (d & -> & Hgd & Hvd & ->). rewrite negb_involutive.
  destruct ((0 <? msg_Value msg) && (vBalance v (msg_From msg) - gas_cost msg <? msg_Value msg)).
  { by apply wp_ret, Hlate. }
  apply (execute_and_settle fuel msg e); try done. unfold refused. fold v. by rewrite Hre.
Qed.

(** ** Theorems *)


(** The intrinsic gas is the sum of a base price and a price for each byte of
    data, or an error exactly if the sum is no [uint64]; no intermediate
    multiplication or addition wraps around. *)
Theorem IntrinsicGas_correct data creation homestead eip2028 :
  zlen data < two64 ->
  IntrinsicGas data creation homestead eip2028 =
  let cost := intrinsic_cost data creation homestead eip2028 in
  if cost <? two64 then inl cost else inr core_ErrGasUintOverflow.
Proof. apply IntrinsicGas_cost. Qed.
End transition.

Lemma IntrinsicGas_correct_witness :
  IntrinsicGas [0; 1; 2] true true true = inl 53036.
Proof. rewrite (IntrinsicGas_correct [0; 1; 2] true true true) by (by vm_compute). reflexivity. Defined.

(** ** A concrete message *)

(** 300 calls the contract that spins, with 7 wei and 21500 gas at price 0. *)
Definition demo_msg (price : Z) : Message := MkMessage 300 (Some 200) price 21500 7 0 true [].

Lemma demo_msg_ok price : 0 <= price -> msg_ok (demo_msg price).
Proof. intros H. split; cbn; [by unfold gas_max|done|done|apply data_ok_nil]. Qed.


(** The call runs out of gas: only the nonce changes.  At price 1 the sender is too poor. *)
Example demo_transition :
  match TransitionDb Demo.env (run Demo.env 21501) (demo_msg 0) (NewStateTransition Demo.evm0 30000) with
  | Ok (inl res, s) =>
      (UsedGas res, Err res, st_gp s, vNonce (view (statedb (st_evm s))) 300, vBalance (view (statedb (st_evm s))) 200)
      = (21500, Some ErrOutOfGas, 8500, 1, 0)
  | _ => False
  end /\
  match TransitionDb Demo.env (run Demo.env 21501) (demo_msg 1) (NewStateTransition Demo.evm0 30000) with
  | Ok (inr er, _) => er = ErrInsufficientFunds
  | _ => False
  end.
Proof. split; vm_compute; reflexivity. Qed.
