(* ===== verification/StateDB.v ===== *)
(** * The state database

    [core/state/state_object.go], [journal.go] and [statedb.go]: accounts cached
    as state objects over an account trie, a journal of changes, and snapshots
    that revert to an index of the journal.  The model is of a database opened
    without a snapshot tree ([s.snap == nil]); reading the tries and the code
    store goes through the interface [Database] of [core/state/database.go],
    here the class [StateStore]. *)

From Stdlib Require Import ZArith Lia.
From S2P Require Import Prelude Common Params Uint256 Rlp Crypto VmMemory VmAnalysis VmState.

Open Scope go_scope.

(** ** core/state/database.go: the interfaces [Database] and [Trie]

    [None] is an error.  The tries hash their keys themselves. *)

(** [Account]: the consensus representation; [Balance] and [CodeHash] are
    pointers, [None] is nil. *)
Record Account := MkAccount {
  acc_Nonce : Z;
  acc_Balance : option Z;
  acc_Root : Hash;
  acc_CodeHash : option Hash;
}.

Class StateStore := {
  Trie : Type;
  OpenStorageTrie : Hash -> Hash -> option Trie;
  (* the trie [OpenStorageTrie] opens for the empty root never fails *)
  EmptyStorageTrie : Hash -> Trie;
  TryGet : Trie -> bytes -> option bytes;
  TryUpdate : Trie -> bytes -> bytes -> option Trie;
  TryDelete : Trie -> bytes -> option Trie;
  Trie_Hash : Trie -> Hash;
  ContractCode : Hash -> Hash -> option bytes;
  ContractCodeSize : Hash -> Hash -> option Z;
  (* rlp.DecodeBytes into an Account *)
  decodeAccount : bytes -> option Account;
  (* rlp.EncodeToBytes of an Account; a negative balance is an error *)
  encodeAccount : Account -> option bytes;
}.

Definition emptyRoot : Hash := 39309028074332508661983559455579427211983204215636056653337583610388178777121.

(** ** core/state/state_object.go *)

Section state_object.
Context {SS : StateStore} {K : Keccak}.

Record stateObject := MkObject {
  address : Address;
  addrHash : Hash;
  obj_Nonce : Z;
  obj_Balance : Z;
  obj_Root : Hash;
  obj_CodeHash : Hash;
  obj_dbErr : bool;
  obj_trie : option Trie;
  code : option bytes;
  originStorage : gmap Hash Hash;
  pendingStorage : gmap Hash Hash;
  dirtyStorage : gmap Hash Hash;
  fakeStorage : option (gmap Hash Hash);
  dirtyCode : bool;
  suicided : bool;
  deleted : bool;
}.

Definition o_balance (o : stateObject) x := MkObject (address o) (addrHash o) (obj_Nonce o) x (obj_Root o) (obj_CodeHash o)
  (obj_dbErr o) (obj_trie o) (code o) (originStorage o) (pendingStorage o) (dirtyStorage o) (fakeStorage o) (dirtyCode o) (suicided o) (deleted o).
Definition o_nonce (o : stateObject) x := MkObject (address o) (addrHash o) x (obj_Balance o) (obj_Root o) (obj_CodeHash o)
  (obj_dbErr o) (obj_trie o) (code o) (originStorage o) (pendingStorage o) (dirtyStorage o) (fakeStorage o) (dirtyCode o) (suicided o) (deleted o).
Definition o_root (o : stateObject) x := MkObject (address o) (addrHash o) (obj_Nonce o) (obj_Balance o) x (obj_CodeHash o)
  (obj_dbErr o) (obj_trie o) (code o) (originStorage o) (pendingStorage o) (dirtyStorage o) (fakeStorage o) (dirtyCode o) (suicided o) (deleted o).
Definition o_code (o : stateObject) h c dc := MkObject (address o) (addrHash o) (obj_Nonce o) (obj_Balance o) (obj_Root o) h
  (obj_dbErr o) (obj_trie o) c (originStorage o) (pendingStorage o) (dirtyStorage o) (fakeStorage o) dc (suicided o) (deleted o).
Definition o_storage (o : stateObject) org pen dir := MkObject (address o) (addrHash o) (obj_Nonce o) (obj_Balance o) (obj_Root o) (obj_CodeHash o)
  (obj_dbErr o) (obj_trie o) (code o) org pen dir (fakeStorage o) (dirtyCode o) (suicided o) (deleted o).
Definition o_fake (o : stateObject) x := MkObject (address o) (addrHash o) (obj_Nonce o) (obj_Balance o) (obj_Root o) (obj_CodeHash o)
  (obj_dbErr o) (obj_trie o) (code o) (originStorage o) (pendingStorage o) (dirtyStorage o) x (dirtyCode o) (suicided o) (deleted o).
Definition o_trie (o : stateObject) t err := MkObject (address o) (addrHash o) (obj_Nonce o) (obj_Balance o) (obj_Root o) (obj_CodeHash o)
  err t (code o) (originStorage o) (pendingStorage o) (dirtyStorage o) (fakeStorage o) (dirtyCode o) (suicided o) (deleted o).
Definition o_flags (o : stateObject) su de := MkObject (address o) (addrHash o) (obj_Nonce o) (obj_Balance o) (obj_Root o) (obj_CodeHash o)
  (obj_dbErr o) (obj_trie o) (code o) (originStorage o) (pendingStorage o) (dirtyStorage o) (fakeStorage o) (dirtyCode o) su de.

Definition empty (s : stateObject) : bool :=
  (obj_Nonce s =? 0) && (Z.sgn (obj_Balance s) =? 0) && (obj_CodeHash s =? emptyCodeHash).

Definition newObject (addr : Address) (data : Account) : stateObject :=
  let balance := default 0 (acc_Balance data) in
  let codeHash := default emptyCodeHash (acc_CodeHash data) in
  let root := if acc_Root data =? 0 then emptyRoot else acc_Root data in
  MkObject addr (Keccak256Hash (Address_Bytes addr)) (acc_Nonce data) balance root codeHash
    false None None ∅ ∅ ∅ None false false false.

Definition setError (s : stateObject) : stateObject := o_trie s (obj_trie s) true.
Definition markSuicided (s : stateObject) : stateObject := o_flags s true (deleted s).

Definition getTrie (s : stateObject) : Trie * stateObject :=
  match obj_trie s with
  | Some t => (t, s)
  | None =>
      match OpenStorageTrie (addrHash s) (obj_Root s) with
      | Some t => (t, o_trie s (Some t) (obj_dbErr s))
      | None => let t := EmptyStorageTrie (addrHash s) in (t, o_trie s (Some t) true)
      end
  end.

(** [value.SetBytes(content)] of the RLP string [enc]; a malformed string is an
    error that is recorded, with an empty content. *)
Definition storage_value (enc : bytes) : Hash * bool :=
  if 0 <? zlen enc then
    match Split enc with
    | Some (inl (_, content, _)) => (BytesToHash content, false)
    | _ => (BytesToHash [], true)
    end
  else (0, false).

Definition stateObject_GetCommittedState (s : stateObject) (key : Hash) : Hash * stateObject :=
  match fakeStorage s with
  | Some f => (default 0 (f !! key), s)
  | None =>
      match pendingStorage s !! key with
      | Some value => (value, s)
      | None =>
          match originStorage s !! key with
          | Some value => (value, s)
          | None =>
              let '(t, s) := getTrie s in
              match TryGet t (Hash_Bytes key) with
              | None => (0, setError s)
              | Some enc =>
                  let '(value, err) := storage_value enc in
                  let s := if (err : bool) then setError s else s in
                  (value, o_storage s (<[key := value]> (originStorage s)) (pendingStorage s) (dirtyStorage s))
              end
          end
      end
  end.

Definition stateObject_GetState (s : stateObject) (key : Hash) : Hash * stateObject :=
  match fakeStorage s with
  | Some f => (default 0 (f !! key), s)
  | None =>
      match dirtyStorage s !! key with
      | Some value => (value, s)
      | None => stateObject_GetCommittedState s key
      end
  end.

Definition setState (s : stateObject) (key value : Hash) : stateObject :=
  o_storage s (originStorage s) (pendingStorage s) (<[key := value]> (dirtyStorage s)).

Definition stateObject_SetStorage (s : stateObject) (storage : gmap Hash Hash) : stateObject :=
  let f := default ∅ (fakeStorage s) in
  o_fake s (Some (storage ∪ f)).

Definition finalise (s : stateObject) : stateObject :=
  o_storage s (originStorage s) (dirtyStorage s ∪ pendingStorage s) ∅.

Definition setBalance (s : stateObject) (amount : Z) : stateObject := o_balance s amount.
Definition setNonce (s : stateObject) (nonce : Z) : stateObject := o_nonce s nonce.
Definition setCode (s : stateObject) (codeHash : Hash) (c : option bytes) : stateObject :=
  o_code s codeHash c true.

(** One slot of [updateTrie]: the trie is changed in place. *)
Definition update_slot (s : stateObject) (kv : Hash * Hash) : stateObject :=
  let '(key, value) := kv in
  if value =? default (0 : Hash) (originStorage s !! key) then s
  else
    let s := o_storage s (<[key := value]> (originStorage s)) (pendingStorage s) (dirtyStorage s) in
    let '(tr, s) := getTrie s in
    match (if value =? 0 then TryDelete tr (Hash_Bytes key)
           else TryUpdate tr (Hash_Bytes key) (default [] (EncodeToBytes (VBytes (TrimLeftZeroes (Hash_Bytes value)))))) with
    | None => setError s
    | Some tr => o_trie s (Some tr) (obj_dbErr s)
    end.

Definition updateTrie (s : stateObject) : option Trie * stateObject :=
  let s := finalise s in
  if bool_decide (pendingStorage s = ∅) then (obj_trie s, s)
  else
    let '(_, s) := getTrie s in
    let s := fold_left update_slot (map_to_list (pendingStorage s)) s in
    let s := o_storage s (originStorage s) ∅ (dirtyStorage s) in
    (obj_trie s, s).

Definition updateRoot (s : stateObject) : stateObject :=
  let '(tr, s) := updateTrie s in
  match tr with
  | None => s
  | Some tr => o_root s (Trie_Hash tr)
  end.

(** [Code]: nil is [None]; what was loaded is kept. *)
Definition stateObject_Code (s : stateObject) : option bytes * stateObject :=
  match code s with
  | Some c => (Some c, s)
  | None =>
      if obj_CodeHash s =? emptyCodeHash then (None, s)
      else
        let c := ContractCode (addrHash s) (obj_CodeHash s) in
        let s := if bool_decide (c = None) then setError s else s in
        (c, o_code s (obj_CodeHash s) c (dirtyCode s))
  end.

Definition stateObject_CodeSize (s : stateObject) : Z * stateObject :=
  match code s with
  | Some c => (zlen c, s)
  | None =>
      if obj_CodeHash s =? emptyCodeHash then (0, s)
      else
        match ContractCodeSize (addrHash s) (obj_CodeHash s) with
        | Some n => (n, s)
        | None => (0, setError s)
        end
  end.

(** ** core/state/journal.go *)

Inductive journalEntry :=
| createObjectChange (account : Address)
| resetObjectChange (prev : stateObject) (prevdestruct : bool)
| suicideChange (account : Address) (prev : bool) (prevbalance : Z)
| balanceChange (account : Address) (prev : Z)
| nonceChange (account : Address) (prev : Z)
| storageChange (account : Address) (key prevalue : Hash)
| codeChange (account : Address) (prevcode : option bytes) (prevhash : Hash)
| refundChange (prev : Z)
| addLogChange (txhash : Hash)
| addPreimageChange (hash : Hash)
| touchChange (account : Address).

Definition dirtied (e : journalEntry) : option Address :=
  match e with
  | createObjectChange a | suicideChange a _ _ | balanceChange a _ | nonceChange a _
  | storageChange a _ _ | codeChange a _ _ | touchChange a => Some a
  | resetObjectChange _ _ | refundChange _ | addLogChange _ | addPreimageChange _ => None
  end.

Record journal := MkJournal { entries : list journalEntry; dirties : gmap Address Z }.

Definition newJournal : journal := MkJournal [] ∅.

Definition dirty (j : journal) (a : Address) : journal :=
  MkJournal (entries j) (<[a := default 0 (dirties j !! a) + 1]> (dirties j)).

Definition journal_append (j : journal) (e : journalEntry) : journal :=
  let j := MkJournal (entries j ++ [e]) (dirties j) in
  match dirtied e with Some a => dirty j a | None => j end.

(** [j.dirties[a]--] and the deletion at zero. *)
Definition undirty (m : gmap Address Z) (a : Address) : gmap Address Z :=
  let n := default 0 (m !! a) - 1 in
  if n =? 0 then delete a m else <[a := n]> m.

Definition journal_length (j : journal) : Z := zlen (entries j).

(** ** core/state/statedb.go *)

Record revision := MkRevision { rev_id : Z; journalIndex : Z }.

(** [types.Log] as the database completes it. *)
Record txLog := MkTxLog { log_of : Log; log_TxHash : Hash; log_BlockHash : Hash; log_TxIndex : Z; log_Index : Z }.

Record statedb := MkStateDB {
  trie : Trie;
  stateObjects : gmap Address stateObject;
  stateObjectsPending : gset Address;
  stateObjectsDirty : gset Address;
  dbErr : bool;
  refund : Z;
  thash : Hash;
  bhash : Hash;
  txIndex : Z;
  logs : gmap Hash (list txLog);
  logSize : Z;
  preimages : gmap Hash bytes;
  jrnl : journal;
  validRevisions : list revision;
  nextRevisionId : Z;
}.

Definition s_objects (s : statedb) x := MkStateDB (trie s) x (stateObjectsPending s) (stateObjectsDirty s) (dbErr s) (refund s)
  (thash s) (bhash s) (txIndex s) (logs s) (logSize s) (preimages s) (jrnl s) (validRevisions s) (nextRevisionId s).
Definition s_marks (s : statedb) p d := MkStateDB (trie s) (stateObjects s) p d (dbErr s) (refund s)
  (thash s) (bhash s) (txIndex s) (logs s) (logSize s) (preimages s) (jrnl s) (validRevisions s) (nextRevisionId s).
Definition s_trie (s : statedb) t err := MkStateDB t (stateObjects s) (stateObjectsPending s) (stateObjectsDirty s) err (refund s)
  (thash s) (bhash s) (txIndex s) (logs s) (logSize s) (preimages s) (jrnl s) (validRevisions s) (nextRevisionId s).
Definition s_refund (s : statedb) x := MkStateDB (trie s) (stateObjects s) (stateObjectsPending s) (stateObjectsDirty s) (dbErr s) x
  (thash s) (bhash s) (txIndex s) (logs s) (logSize s) (preimages s) (jrnl s) (validRevisions s) (nextRevisionId s).
Definition s_tx (s : statedb) th bh ti := MkStateDB (trie s) (stateObjects s) (stateObjectsPending s) (stateObjectsDirty s) (dbErr s) (refund s)
  th bh ti (logs s) (logSize s) (preimages s) (jrnl s) (validRevisions s) (nextRevisionId s).
Definition s_logs (s : statedb) x n := MkStateDB (trie s) (stateObjects s) (stateObjectsPending s) (stateObjectsDirty s) (dbErr s) (refund s)
  (thash s) (bhash s) (txIndex s) x n (preimages s) (jrnl s) (validRevisions s) (nextRevisionId s).
Definition s_preimages (s : statedb) x := MkStateDB (trie s) (stateObjects s) (stateObjectsPending s) (stateObjectsDirty s) (dbErr s) (refund s)
  (thash s) (bhash s) (txIndex s) (logs s) (logSize s) x (jrnl s) (validRevisions s) (nextRevisionId s).
Definition s_journal (s : statedb) x := MkStateDB (trie s) (stateObjects s) (stateObjectsPending s) (stateObjectsDirty s) (dbErr s) (refund s)
  (thash s) (bhash s) (txIndex s) (logs s) (logSize s) (preimages s) x (validRevisions s) (nextRevisionId s).
Definition s_revisions (s : statedb) x n := MkStateDB (trie s) (stateObjects s) (stateObjectsPending s) (stateObjectsDirty s) (dbErr s) (refund s)
  (thash s) (bhash s) (txIndex s) (logs s) (logSize s) (preimages s) (jrnl s) x n.

(** [New], after [OpenTrie]. *)
Definition New (tr : Trie) : statedb :=
  MkStateDB tr ∅ ∅ ∅ false 0 0 0 0 ∅ 0 ∅ newJournal [] 0.

Definition StateDB_setError (s : statedb) : statedb := s_trie s (trie s) true.

Definition append (s : statedb) (e : journalEntry) : statedb := s_journal s (journal_append (jrnl s) e).

Definition setStateObject (s : statedb) (object : stateObject) : statedb :=
  s_objects s (<[address object := object]> (stateObjects s)).

(** [s.trie.TryGet(addr[:])], [s.trie.TryUpdate(addr[:], data)] and
    [s.trie.TryDelete(addr[:])]; an integer that is no address has no account. *)
Definition in_range (addr : Address) : bool := (0 <=? addr) && (addr <? two160).
Definition TryGet_account (t : Trie) (addr : Address) : option bytes :=
  if in_range addr then TryGet t (Address_Bytes addr) else Some [].
Definition TryUpdate_account (t : Trie) (addr : Address) (data : bytes) : option Trie :=
  if in_range addr then TryUpdate t (Address_Bytes addr) data else Some t.
Definition TryDelete_account (t : Trie) (addr : Address) : option Trie :=
  if in_range addr then TryDelete t (Address_Bytes addr) else Some t.

Definition getDeletedStateObject (s : statedb) (addr : Address) : option stateObject * statedb :=
  match stateObjects s !! addr with
  | Some obj => (Some obj, s)
  | None =>
      match TryGet_account (trie s) addr with
      | None => (None, StateDB_setError s)
      | Some [] => (None, s)
      | Some enc =>
          match decodeAccount enc with
          | None => (None, s)
          | Some data =>
              let obj := newObject addr data in
              (Some obj, setStateObject s obj)
          end
      end
  end.

Definition getStateObject (s : statedb) (addr : Address) : option stateObject * statedb :=
  let '(o, s) := getDeletedStateObject s addr in
  match o with
  | Some obj => if deleted obj then (None, s) else (Some obj, s)
  | None => (None, s)
  end.

(** The new object, and the one it replaces unless that was deleted. *)
Definition createObject (s : statedb) (addr : Address) : stateObject * option stateObject * statedb :=
  let '(prev, s) := getDeletedStateObject s addr in
  let newobj := setNonce (newObject addr (MkAccount 0 None 0 None)) 0 in
  let s := match prev with
           | None => append s (createObjectChange addr)
           | Some prev => append s (resetObjectChange prev false)
           end in
  let s := setStateObject s newobj in
  match prev with
  | Some prev => if deleted prev then (newobj, None, s) else (newobj, Some prev, s)
  | None => (newobj, None, s)
  end.

Definition GetOrNewStateObject (s : statedb) (addr : Address) : stateObject * statedb :=
  let '(o, s) := getStateObject s addr in
  match o with
  | Some obj => (obj, s)
  | None => let '(newobj, _, s) := createObject s addr in (newobj, s)
  end.

(** *** Readers *)

(** [stateObject := s.getStateObject(addr); if stateObject != nil { ... }]: the
    object's method may change its caches. *)
Definition read_object {A} (none : A) (f : stateObject -> A * stateObject) (s : statedb) (addr : Address) : A * statedb :=
  let '(o, s) := getStateObject s addr in
  match o with
  | None => (none, s)
  | Some obj => let '(a, obj) := f obj in (a, setStateObject s obj)
  end.

Definition StateDB_Exist (s : statedb) (addr : Address) : bool * statedb :=
  let '(o, s) := getStateObject s addr in (bool_decide (is_Some o), s).
Definition StateDB_Empty (s : statedb) (addr : Address) : bool * statedb :=
  let '(o, s) := getStateObject s addr in
  (match o with None => true | Some so => empty so end, s).
Definition StateDB_GetBalance (s : statedb) (addr : Address) : Z * statedb :=
  read_object 0 (fun o => (obj_Balance o, o)) s addr.
Definition StateDB_GetNonce (s : statedb) (addr : Address) : Z * statedb :=
  read_object 0 (fun o => (obj_Nonce o, o)) s addr.
Definition StateDB_GetCode (s : statedb) (addr : Address) : bytes * statedb :=
  let '(c, s) := read_object None stateObject_Code s addr in (default [] c, s).
Definition StateDB_GetCodeSize (s : statedb) (addr : Address) : Z * statedb :=
  read_object 0 stateObject_CodeSize s addr.
Definition StateDB_GetCodeHash (s : statedb) (addr : Address) : Hash * statedb :=
  read_object 0 (fun o => (obj_CodeHash o, o)) s addr.
Definition StateDB_GetState (s : statedb) (addr : Address) (hash : Hash) : Hash * statedb :=
  read_object 0 (fun o => stateObject_GetState o hash) s addr.
Definition StateDB_GetCommittedState (s : statedb) (addr : Address) (hash : Hash) : Hash * statedb :=
  read_object 0 (fun o => stateObject_GetCommittedState o hash) s addr.
Definition StateDB_HasSuicided (s : statedb) (addr : Address) : bool * statedb :=
  read_object false (fun o => (suicided o, o)) s addr.
Definition StateDB_GetRefund (s : statedb) : Z := refund s.
Definition GetLogs (s : statedb) (hash : Hash) : list txLog := default [] (logs s !! hash).

(** *** Writers *)

Definition ripemd : Address := 3.

(** [touch]: the ripemd contract is marked once more, which survives a revert. *)
Definition touch (s : statedb) (o : stateObject) : statedb :=
  let s := append s (touchChange (address o)) in
  if address o =? ripemd then s_journal s (dirty (jrnl s) (address o)) else s.

Definition stateObject_SetBalance (s : statedb) (o : stateObject) (amount : Z) : statedb :=
  let s := append s (balanceChange (address o) (obj_Balance o)) in
  setStateObject s (setBalance o amount).

Definition stateObject_AddBalance (s : statedb) (o : stateObject) (amount : Z) : statedb :=
  if Z.sgn amount =? 0 then (if empty o then touch s o else s)
  else stateObject_SetBalance s o (obj_Balance o + amount).

Definition stateObject_SubBalance (s : statedb) (o : stateObject) (amount : Z) : statedb :=
  if Z.sgn amount =? 0 then s
  else stateObject_SetBalance s o (obj_Balance o - amount).

Definition stateObject_SetNonce (s : statedb) (o : stateObject) (nonce : Z) : statedb :=
  let s := append s (nonceChange (address o) (obj_Nonce o)) in
  setStateObject s (setNonce o nonce).

Definition stateObject_SetCode (s : statedb) (o : stateObject) (codeHash : Hash) (c : bytes) : statedb :=
  let '(prevcode, o) := stateObject_Code o in
  let s := append s (codeChange (address o) prevcode (obj_CodeHash o)) in
  setStateObject s (setCode o codeHash (Some c)).

Definition stateObject_SetState (s : statedb) (o : stateObject) (key value : Hash) : statedb :=
  match fakeStorage o with
  | Some f => setStateObject s (o_fake o (Some (<[key := value]> f)))
  | None =>
      let '(prev, o) := stateObject_GetState o key in
      let s := setStateObject s o in
      if prev =? value then s
      else
        let s := append s (storageChange (address o) key prev) in
        setStateObject s (setState o key value)
  end.

Definition StateDB_AddBalance (s : statedb) (addr : Address) (amount : Z) : statedb :=
  let '(o, s) := GetOrNewStateObject s addr in stateObject_AddBalance s o amount.
Definition StateDB_SubBalance (s : statedb) (addr : Address) (amount : Z) : statedb :=
  let '(o, s) := GetOrNewStateObject s addr in stateObject_SubBalance s o amount.
Definition StateDB_SetBalance (s : statedb) (addr : Address) (amount : Z) : statedb :=
  let '(o, s) := GetOrNewStateObject s addr in stateObject_SetBalance s o amount.
Definition StateDB_SetNonce (s : statedb) (addr : Address) (nonce : Z) : statedb :=
  let '(o, s) := GetOrNewStateObject s addr in stateObject_SetNonce s o nonce.
Definition StateDB_SetCode (s : statedb) (addr : Address) (c : bytes) : statedb :=
  let '(o, s) := GetOrNewStateObject s addr in stateObject_SetCode s o (Keccak256Hash c) c.
Definition StateDB_SetState (s : statedb) (addr : Address) (key value : Hash) : statedb :=
  let '(o, s) := GetOrNewStateObject s addr in stateObject_SetState s o key value.
Definition StateDB_SetStorage (s : statedb) (addr : Address) (storage : gmap Hash Hash) : statedb :=
  let '(o, s) := GetOrNewStateObject s addr in setStateObject s (stateObject_SetStorage o storage).

Definition StateDB_CreateAccount (s : statedb) (addr : Address) : statedb :=
  let '(newObj, prev, s) := createObject s addr in
  match prev with
  | Some prev => setStateObject s (setBalance newObj (obj_Balance prev))
  | None => s
  end.

Definition StateDB_Suicide (s : statedb) (addr : Address) : bool * statedb :=
  let '(o, s) := getStateObject s addr in
  match o with
  | None => (false, s)
  | Some o =>
      let s := append s (suicideChange addr (suicided o) (obj_Balance o)) in
      (true, setStateObject s (o_balance (markSuicided o) 0))
  end.

Definition StateDB_AddLog (s : statedb) (l : Log) : statedb :=
  let s := append s (addLogChange (thash s)) in
  let l := MkTxLog l (thash s) (bhash s) (txIndex s) (logSize s) in
  s_logs s (<[thash s := GetLogs s (thash s) ++ [l]]> (logs s)) (u64 (logSize s + 1)).

Definition StateDB_AddPreimage (s : statedb) (hash : Hash) (preimage : bytes) : statedb :=
  match preimages s !! hash with
  | Some _ => s
  | None => let s := append s (addPreimageChange hash) in s_preimages s (<[hash := CopyBytes preimage]> (preimages s))
  end.

Definition StateDB_AddRefund (s : statedb) (gas : Z) : statedb :=
  let s := append s (refundChange (refund s)) in s_refund s (u64 (refund s + gas)).

Definition StateDB_SubRefund (s : statedb) (gas : Z) : outcome statedb :=
  let s := append s (refundChange (refund s)) in
  if refund s <? gas then Panic PanicRefund else Ok (s_refund s (u64 (refund s - gas))).

Definition Prepare (s : statedb) (th bh : Hash) (ti : Z) : statedb := s_tx s th bh ti.

(** *** Reverting *)

(** A method of the object at [a] that must be there. *)
Definition with_object (s : statedb) (a : Address) (f : stateObject -> stateObject) : outcome statedb :=
  let '(o, s) := getStateObject s a in
  match o with
  | None => Panic PanicNil
  | Some o => Ok (setStateObject s (f o))
  end.

(** [entry.revert(s)]. *)
Definition revert_entry (e : journalEntry) (s : statedb) : outcome statedb :=
  match e with
  | createObjectChange a =>
      Ok (s_marks (s_objects s (delete a (stateObjects s))) (stateObjectsPending s) (stateObjectsDirty s ∖ {[a]}))
  | resetObjectChange prev _ => Ok (setStateObject s prev)
  | suicideChange a prev prevbalance =>
      let '(o, s) := getStateObject s a in
      match o with
      | Some o => Ok (setStateObject s (setBalance (o_flags o prev (deleted o)) prevbalance))
      | None => Ok s
      end
  | touchChange _ => Ok s
  | balanceChange a prev => with_object s a (fun o => setBalance o prev)
  | nonceChange a prev => with_object s a (fun o => setNonce o prev)
  | codeChange a prevcode prevhash => with_object s a (fun o => setCode o prevhash prevcode)
  | storageChange a key prevalue => with_object s a (fun o => setState o key prevalue)
  | refundChange prev => Ok (s_refund s prev)
  | addLogChange txhash =>
      let l := GetLogs s txhash in
      if zlen l =? 1 then Ok (s_logs s (delete txhash (logs s)) (u64 (logSize s - 1)))
      else match zslice l 0 (zlen l - 1) with
           | Some l => Ok (s_logs s (<[txhash := l]> (logs s)) (u64 (logSize s - 1)))
           | None => Panic PanicIndex
           end
  | addPreimageChange hash => Ok (s_preimages s (delete hash (preimages s)))
  end.

(** [journal.revert(s, snapshot)]: the entries from the last down to
    [snapshot]; then the journal is cut. *)
Fixpoint revert_entries (es : list journalEntry) (s : statedb) : outcome statedb :=
  match es with
  | [] => Ok s
  | e :: es =>
      s <- revert_entry e s ;;
      let s := match dirtied e with
               | Some a => s_journal s (MkJournal (entries (jrnl s)) (undirty (dirties (jrnl s)) a))
               | None => s
               end in
      revert_entries es s
  end.

Definition journal_revert (s : statedb) (snapshot : Z) : outcome statedb :=
  let es := entries (jrnl s) in
  s <- revert_entries (rev (drop (Z.to_nat snapshot) es)) s ;;
  match zslice es 0 snapshot with
  | Some es => Ok (s_journal s (MkJournal es (dirties (jrnl s))))
  | None => Panic PanicIndex
  end.

(** [sort.Search(n, f)]: binary search in [0, n). *)
Fixpoint sort_Search (fuel : nat) (i j : Z) (f : Z -> bool) : Z :=
  match fuel with
  | O => i
  | S fuel =>
      if i <? j then
        let h := (i + j) / 2 in
        if negb (f h) then sort_Search fuel (h + 1) j f else sort_Search fuel i h f
      else i
  end.

Definition StateDB_Snapshot (s : statedb) : Z * statedb :=
  let id := nextRevisionId s in
  (id, s_revisions s (validRevisions s ++ [MkRevision id (journal_length (jrnl s))]) (nextRevisionId s + 1)).

Definition StateDB_RevertToSnapshot (s : statedb) (revid : Z) : outcome statedb :=
  let rs := validRevisions s in
  let idx := sort_Search (S (length rs)) 0 (zlen rs)
               (fun i => match zget rs i with Some r => revid <=? rev_id r | None => false end) in
  match zget rs idx with
  | None => Panic PanicRevision
  | Some r =>
      if negb (rev_id r =? revid) then Panic PanicRevision
      else
        s <- journal_revert s (journalIndex r) ;;
        Ok (s_revisions s (take (Z.to_nat idx) (validRevisions s)) (nextRevisionId s))
  end.

(** *** The end of a transaction *)

Definition clearJournalAndRefund (s : statedb) : statedb :=
  let s := if 0 <? zlen (entries (jrnl s)) then s_refund (s_journal s newJournal) 0 else s in
  s_revisions s [] (nextRevisionId s).

(** One address of [journal.dirties] in [Finalise]. *)
Definition finalise_addr (deleteEmptyObjects : bool) (s : statedb) (addr : Address) : statedb :=
  match stateObjects s !! addr with
  | None => s
  | Some obj =>
      let obj := if suicided obj || (deleteEmptyObjects && empty obj)
                 then o_flags obj (suicided obj) true
                 else finalise obj in
      let s := s_objects s (<[addr := obj]> (stateObjects s)) in
      s_marks s ({[addr]} ∪ stateObjectsPending s) ({[addr]} ∪ stateObjectsDirty s)
  end.

Definition Finalise (s : statedb) (deleteEmptyObjects : bool) : statedb :=
  clearJournalAndRefund (fold_left (finalise_addr deleteEmptyObjects) (elements (dom (dirties (jrnl s)))) s).

(** *** The root of the state *)

Definition obj_account (obj : stateObject) : Account :=
  MkAccount (obj_Nonce obj) (Some (obj_Balance obj)) (obj_Root obj) (Some (obj_CodeHash obj)).

Definition updateStateObject (s : statedb) (obj : stateObject) : outcome statedb :=
  data <- of_option PanicOther (encodeAccount (obj_account obj)) ;;
  Ok (match TryUpdate_account (trie s) (address obj) data with
      | Some tr => s_trie s tr (dbErr s)
      | None => StateDB_setError s
      end).

Definition deleteStateObject (s : statedb) (obj : stateObject) : statedb :=
  match TryDelete_account (trie s) (address obj) with
  | Some tr => s_trie s tr (dbErr s)
  | None => StateDB_setError s
  end.

(** One address of [stateObjectsPending] in [IntermediateRoot]. *)
Definition write_back (s : statedb) (addr : Address) : outcome statedb :=
  obj <- of_option PanicNil (stateObjects s !! addr) ;;
  if deleted obj then Ok (deleteStateObject s obj)
  else
    let obj := updateRoot obj in
    updateStateObject (s_objects s (<[addr := obj]> (stateObjects s))) obj.

Fixpoint write_all (s : statedb) (addrs : list Address) : outcome statedb :=
  match addrs with
  | [] => Ok s
  | addr :: addrs => s <- write_back s addr ;; write_all s addrs
  end.

Definition IntermediateRoot (s : statedb) (deleteEmptyObjects : bool) : outcome (Hash * statedb) :=
  let s := Finalise s deleteEmptyObjects in
  s <- write_all s (elements (stateObjectsPending s)) ;;
  let s := s_marks s ∅ (stateObjectsDirty s) in
  Ok (Trie_Hash (trie s), s).
End state_object.
