(* ===== verification/StateDBView.v ===== *)
(** * What a state database shows

    The view of a database of StateDB in the sense of VmSpec, and how the state
    objects, the journal and its entries act on views. *)

From Stdlib Require Import ZArith Lia.
From S2P Require Import Prelude Common Params Uint256 Rlp Crypto VmMemory VmAnalysis VmState VmSpec VmMemFacts StateDB.

Open Scope go_scope.

Section objects.
Context {SS : StateStore} {K : Keccak}.

(** ** The contents of an object *)

(** The code with hash [h] of an account, [c] if it is loaded. *)
Definition code_value (ah : Hash) (c : option bytes) (h : Hash) : bytes :=
  match c with
  | Some c => c
  | None => if h =? emptyCodeHash then [] else default [] (ContractCode ah h)
  end.
Definition code_val (o : stateObject) : bytes := code_value (addrHash o) (code o) (obj_CodeHash o).

(** The storage trie the object has or would open. *)
Definition trie_of (o : stateObject) : Trie :=
  match obj_trie o with
  | Some t => t
  | None => default (EmptyStorageTrie (addrHash o)) (OpenStorageTrie (addrHash o) (obj_Root o))
  end.
Definition slot (o : stateObject) (key : Hash) : Hash :=
  match TryGet (trie_of o) (Hash_Bytes key) with
  | None => 0
  | Some enc => fst (storage_value enc)
  end.
Definition committed_val (o : stateObject) (key : Hash) : Hash :=
  match pendingStorage o !! key with
  | Some v => v
  | None => default (slot o key) (originStorage o !! key)
  end.
Definition state_val (o : stateObject) (key : Hash) : Hash :=
  default (committed_val o key) (dirtyStorage o !! key).

(** The hash belongs to the code, which is there. *)
Definition code_fits (ah : Hash) (c : option bytes) (h : Hash) : Prop :=
  h = Keccak256Hash (code_value ah c h) /\ data_ok (code_value ah c h) /\
  (c = None -> h <> emptyCodeHash -> ContractCodeSize ah h = Some (zlen (code_value ah c h))).

Record obj_ok (a : Address) (o : stateObject) : Prop := MkObjOk {
  ok_address : address o = a;
  ok_addrHash : addrHash o = Keccak256Hash (Address_Bytes a);
  ok_fake : fakeStorage o = None;
  ok_code : code_fits (addrHash o) (code o) (obj_CodeHash o);
}.

(** Same contents; caches may differ. *)
Record obj_same (o o' : stateObject) : Prop := MkObjSame {
  os_address : address o' = address o;
  os_addrHash : addrHash o' = addrHash o;
  os_Nonce : obj_Nonce o' = obj_Nonce o;
  os_Balance : obj_Balance o' = obj_Balance o;
  os_CodeHash : obj_CodeHash o' = obj_CodeHash o;
  os_code : code_val o' = code_val o;
  os_state : forall k, state_val o' k = state_val o k;
  os_committed : forall k, committed_val o' k = committed_val o k;
  os_suicided : suicided o' = suicided o;
  os_deleted : deleted o' = deleted o;
}.

Lemma obj_same_refl o : obj_same o o.
Proof. by split. Qed.

(** ** Reading from an object *)

Lemma getTrie_same o : obj_same o (snd (getTrie o)) /\
  trie_of (snd (getTrie o)) = trie_of o /\ pendingStorage (snd (getTrie o)) = pendingStorage o /\
  originStorage (snd (getTrie o)) = originStorage o /\ dirtyStorage (snd (getTrie o)) = dirtyStorage o /\
  fakeStorage (snd (getTrie o)) = fakeStorage o /\ code (snd (getTrie o)) = code o.
Proof.
  assert (trie_of (snd (getTrie o)) = trie_of o) as E.
  { unfold trie_of, getTrie. destruct (obj_trie o) eqn:Et; [cbn; by rewrite Et|].
    by destruct (OpenStorageTrie (addrHash o) (obj_Root o)) eqn:Eo; cbn; rewrite ?Et, ?Eo. }
  assert (forall k, slot (snd (getTrie o)) k = slot o k) as Es by (intros k; unfold slot; by rewrite E).
  revert E Es. unfold getTrie. destruct (obj_trie o); [done|].
  destruct (OpenStorageTrie (addrHash o) (obj_Root o)); cbn; intros E Es;
    (split; [split; try done; intros k; unfold state_val, committed_val; cbn; by rewrite Es|done]).
Qed.

Lemma getTrie_trie o : fst (getTrie o) = trie_of o.
Proof.
  unfold getTrie, trie_of. destruct (obj_trie o); [done|]. by destruct (OpenStorageTrie (addrHash o) (obj_Root o)).
Qed.

(** Reading with [f] gives [val] and changes caches only. *)
Definition reads {A} (f : stateObject -> A * stateObject) (val : stateObject -> A) : Prop :=
  forall a o, obj_ok a o -> fst (f o) = val o /\ obj_same o (snd (f o)) /\ obj_ok a (snd (f o)).

Lemma reads_field {A} (val : stateObject -> A) : reads (fun o => (val o, o)) val.
Proof. intros a o H. split; [done|]. by split; [apply obj_same_refl|]. Qed.

Lemma obj_ok_same a o o' :
  obj_ok a o -> obj_same o o' -> fakeStorage o' = None -> code o' = code o -> obj_ok a o'.
Proof.
  intros [H1 H2 H3 H4] [E1 E2 _ _ E5 _ _ _ _ _] Hf Hc. split; try congruence.
Qed.

(** Remembering a slot. *)
Lemma cache_same o key :
  let v := slot o key in
  pendingStorage o !! key = None -> originStorage o !! key = None ->
  obj_same o (o_storage o (<[key := v]> (originStorage o)) (pendingStorage o) (dirtyStorage o)).
Proof.
  intros v Hp Ho.
  set (o' := o_storage o (<[key := v]> (originStorage o)) (pendingStorage o) (dirtyStorage o)).
  assert (forall k, committed_val o' k = committed_val o k) as Hcom.
  { intros k. unfold committed_val. change (pendingStorage o') with (pendingStorage o).
    destruct (pendingStorage o !! k); [done|]. change (slot o' k) with (slot o k). cbn.
    rewrite lookup_insert. case_decide; [subst k; by rewrite Ho|done]. }
  split; try done. intros k. unfold state_val. change (dirtyStorage o') with (dirtyStorage o). by rewrite Hcom.
Qed.

Lemma obj_same_trans o1 o2 o3 : obj_same o1 o2 -> obj_same o2 o3 -> obj_same o1 o3.
Proof. intros [] []. split; try congruence; intros k; by etransitivity. Qed.

Lemma setError_same o : obj_same o (setError o).
Proof.
  by split.
Qed.

Lemma GetCommittedState_reads key : reads (fun o => stateObject_GetCommittedState o key) (fun o => committed_val o key).
Proof.
  intros a o Hok. pose proof Hok as [_ _ Hf _]. unfold stateObject_GetCommittedState, committed_val. rewrite Hf.
  destruct (pendingStorage o !! key) eqn:Ep; [split; [done|]; by split; [apply obj_same_refl|]|].
  destruct (originStorage o !! key) eqn:Eo; [split; [done|]; by split; [apply obj_same_refl|]|].
  destruct (getTrie_same o) as (Hs & Ht & Hp & Hor & Hd & Hfk & Hc).
  destruct (getTrie o) as [t o1] eqn:Eg. cbn [fst snd] in *. assert (t = trie_of o) as Et by (by rewrite <- getTrie_trie, Eg).
  unfold slot. cbn [default]. rewrite <- Et. destruct (TryGet t (Hash_Bytes key)) as [enc|] eqn:Etg; cbn [fst snd].
  - set (e := snd (storage_value enc)). destruct (storage_value enc) as [value err] eqn:Esv. cbn [fst snd].
    set (o2 := if err then setError o1 else o1).
    assert (obj_same o1 o2) as H12 by (unfold o2; destruct err; [apply setError_same|apply obj_same_refl]).
    assert (trie_of o2 = t /\ originStorage o2 = originStorage o /\ pendingStorage o2 = pendingStorage o /\
            fakeStorage o2 = None /\ code o2 = code o) as (T2 & O2 & P2 & F2 & C2).
    { unfold o2. destruct err; cbn; [|by rewrite Ht, <- Et, Hfk].
      rewrite <- Hfk in Hf. split; [|done]. by rewrite Et, <- Ht. }
    assert (slot o2 key = value) as Esl by (unfold slot; by rewrite T2, Etg, Esv).
    pose proof (cache_same o2 key) as Hcs. cbv zeta in Hcs. rewrite Esl, P2, O2 in Hcs. specialize (Hcs Ep Eo).
    rewrite O2, P2. split; [done|]. split; [eapply obj_same_trans; [exact Hs|]; by eapply obj_same_trans|].
    eapply obj_ok_same; [exact Hok|eapply obj_same_trans; [exact Hs|]; by eapply obj_same_trans|done|done].
  - split; [done|]. split; [eapply obj_same_trans; [exact Hs|apply setError_same]|].
    eapply obj_ok_same; [exact Hok|eapply obj_same_trans; [exact Hs|apply setError_same]|cbn; congruence|done].
Qed.

Lemma GetState_reads key : reads (fun o => stateObject_GetState o key) (fun o => state_val o key).
Proof.
  intros a o Hok. pose proof Hok as [_ _ Hf _]. unfold stateObject_GetState, state_val. rewrite Hf.
  destruct (dirtyStorage o !! key) eqn:Ed; [split; [done|]; by split; [apply obj_same_refl|]|].
  by apply (GetCommittedState_reads key a o).
Qed.

Lemma Code_reads : reads (fun o => let '(c, o) := stateObject_Code o in (default [] c, o)) code_val.
Proof.
  intros a o Hok. pose proof Hok as [H1 H2 H3 (H4 & H5 & H6)]. unfold code_val, stateObject_Code, code_value in *.
  destruct (code o) as [c|] eqn:Ec; [cbn; split; [done|]; by split; [apply obj_same_refl|]|].
  destruct (obj_CodeHash o =? emptyCodeHash) eqn:Eh; [cbn; split; [done|]; by split; [apply obj_same_refl|]|].
  destruct (ContractCode (addrHash o) (obj_CodeHash o)) as [c|] eqn:Ecc; cbn [default fst snd] in *.
  - rewrite bool_decide_false by done. split; [done|]. split; [split; try done; unfold code_val, code_value; cbn|].
    + by rewrite Ec, Eh, Ecc.
    + split; try done.
  - rewrite bool_decide_true by done. set (o' := o_code _ _ _ _).
    assert (obj_same o o') as Hs.
    { unfold o'. eapply obj_same_trans; [apply setError_same|]. split; try done. unfold code_val. cbn. by rewrite Ec. }
    split; [done|]. split; [done|]. by eapply obj_ok_same.
Qed.

Lemma CodeSize_reads : reads stateObject_CodeSize (fun o => zlen (code_val o)).
Proof.
  intros a o Hok. pose proof Hok as [H1 H2 H3 (H4 & H5 & H6)]. unfold code_val, stateObject_CodeSize, code_value in *.
  destruct (code o) as [c|] eqn:Ec; [cbn; split; [done|]; by split; [apply obj_same_refl|]|].
  destruct (Z.eqb_spec (obj_CodeHash o) emptyCodeHash); [cbn; split; [done|]; by split; [apply obj_same_refl|]|].
  rewrite H6 by done. cbn. split; [done|]. by split; [apply obj_same_refl|].
Qed.

(** ** The database *)

(** The object the account trie has for [a]. *)
Definition load (t : Trie) (a : Address) : option stateObject :=
  match TryGet_account t a with
  | None | Some [] => None
  | Some enc => newObject a <$> decodeAccount enc
  end.

(** The object at [a], deleted or not. *)
Definition object (d : statedb) (a : Address) : option stateObject :=
  match stateObjects d !! a with Some o => Some o | None => load (trie d) a end.

Definition undeleted (o : option stateObject) : option stateObject :=
  match o with Some o => if deleted o then None else Some o | None => None end.
Definition live (d : statedb) (a : Address) : option stateObject := undeleted (object d a).

Definition view_of (d : statedb) : View :=
  MkView (fun a => bool_decide (is_Some (live d a)))
    (fun a => from_option obj_Balance 0 (live d a))
    (fun a => from_option obj_Nonce 0 (live d a))
    (fun a => from_option code_val [] (live d a))
    (fun a => from_option obj_CodeHash 0 (live d a))
    (fun a k => from_option (fun o => state_val o k) 0 (live d a))
    (fun a k => from_option (fun o => committed_val o k) 0 (live d a))
    (fun a => from_option suicided false (live d a))
    (refund d) (map log_of (GetLogs d (thash d))).

(** The view with the object [o] at [a]. *)
Definition v_put (a : Address) (o : option stateObject) (v : View) : View :=
  MkView (upd (vExist v) a (bool_decide (is_Some o)))
    (upd (vBalance v) a (from_option obj_Balance 0 o))
    (upd (vNonce v) a (from_option obj_Nonce 0 o))
    (upd (vCode v) a (from_option code_val [] o))
    (upd (vCodeHash v) a (from_option obj_CodeHash 0 o))
    (upd (vState v) a (fun k => from_option (fun o => state_val o k) 0 o))
    (upd (vCommitted v) a (fun k => from_option (fun o => committed_val o k) 0 o))
    (upd (vSuicided v) a (from_option suicided false o))
    (vRefund v) (vLogs v).

#[global] Instance v_put_proper a o : Proper ((≡) ==> (≡)) (v_put a o).
Proof. intros v w []. split; cbn; unfold upd; intros; try (destruct (_ =? a)); auto. Qed.

(** Well-formed up to the journal. *)
Record objects_ok (d : statedb) : Prop := MkObjectsOk {
  w_objects : forall a o, stateObjects d !! a = Some o -> obj_ok a o;
  w_load : forall a o, stateObjects d !! a = None -> load (trie d) a = Some o -> obj_ok a o;
}.

Lemma object_ok d a o : objects_ok d -> object d a = Some o -> obj_ok a o.
Proof. intros [H1 H2]. unfold object. destruct (stateObjects d !! a) eqn:E; [intros [= <-]|]; auto. Qed.

Lemma live_ok d a o : objects_ok d -> live d a = Some o -> obj_ok a o.
Proof.
  unfold live, undeleted. intros H. destruct (object d a) as [o'|] eqn:E; [|done].
  destruct (deleted o'); [done|]. intros [= <-]. by eapply object_ok.
Qed.

Lemma live_deleted d a o : live d a = Some o -> deleted o = false.
Proof.
  unfold live, undeleted. destruct (object d a) as [o'|]; [|done]. destruct (deleted o') eqn:E; [done|]. by intros [= <-].
Qed.

(** Two databases with the same fields but for the objects; the caches of [d'] may be fuller. *)
Record same_rest (d d' : statedb) : Prop := MkSameRest {
  sr_trie : trie d' = trie d;
  sr_refund : refund d' = refund d;
  sr_thash : thash d' = thash d;
  sr_logs : logs d' = logs d;
  sr_jrnl : jrnl d' = jrnl d;
  sr_revs : validRevisions d' = validRevisions d;
  sr_next : nextRevisionId d' = nextRevisionId d;
}.

Lemma same_rest_refl d : same_rest d d.
Proof. by split. Qed.
Lemma same_rest_trans d1 d2 d3 : same_rest d1 d2 -> same_rest d2 d3 -> same_rest d1 d3.
Proof. intros [] []. split; congruence. Qed.

Lemma view_object d d' :
  (forall a, object d' a = object d a) -> refund d' = refund d -> GetLogs d' (thash d') = GetLogs d (thash d) ->
  view_of d' ≡ view_of d.
Proof. intros Ho Hr Hl. split; cbn; intros; unfold live; rewrite ?Ho, ?Hr, ?Hl; done. Qed.

Lemma object_put d o a : object (setStateObject d o) a = if a =? address o then Some o else object d a.
Proof.
  unfold object, setStateObject. cbn. rewrite lookup_insert. destruct (Z.eqb_spec a (address o)) as [->|].
  - by rewrite decide_True.
  - by rewrite decide_False by done.
Qed.

Lemma view_put d o : view_of (setStateObject d o) ≡ v_put (address o) (undeleted (Some o)) (view_of d).
Proof.
  assert (forall a, live (setStateObject d o) a = if a =? address o then undeleted (Some o) else live d a) as Hl.
  { intros a. unfold live. rewrite object_put. by destruct (a =? address o). }
  split; cbn [view_of v_put vExist vBalance vNonce vCode vCodeHash vState vCommitted vSuicided vRefund vLogs];
    unfold upd; intros; rewrite ?Hl; try (destruct (_ =? address o)); done.
Qed.

(** Putting an object with the contents of the one there changes nothing. *)
Lemma v_put_same d a o o' :
  live d a = Some o -> obj_same o o' -> v_put a (Some o') (view_of d) ≡ view_of d.
Proof.
  intros Hl []. split; cbn; unfold upd; intros; try (destruct (Z.eqb_spec a0 a) as [->|]); rewrite ?Hl; cbn; auto.
Qed.

Lemma objects_ok_put d o : objects_ok d -> obj_ok (address o) o -> objects_ok (setStateObject d o).
Proof.
  intros [H1 H2] Ho. split; intros a o'; cbn; rewrite lookup_insert; case_decide; try done; [|by apply H1|by apply H2].
  subst a. by intros [= <-].
Qed.

(** *** Loading an object *)

Lemma getDeleted_spec d a :
  objects_ok d ->
  let '(o, d') := getDeletedStateObject d a in
  o = object d a /\ same_rest d d' /\ objects_ok d' /\ (forall b, object d' b = object d b) /\
  (forall o', o = Some o' -> stateObjects d' !! a = Some o').
Proof.
  intros H. unfold getDeletedStateObject, object. destruct (stateObjects d !! a) as [o|] eqn:E.
  { split; [done|]. split; [apply same_rest_refl|]. split; [done|]. split; [done|]. by intros o' [= <-]. }
  destruct (load (trie d) a) as [o|] eqn:El; unfold load in El.
  - destruct (TryGet_account (trie d) a) as [[|x enc]|] eqn:Et; try done.
    destruct (decodeAccount (x :: enc)) as [data|] eqn:Ed; [|done]. cbn in El. injection El as <-.
    split; [done|]. split; [by split|]. split; [|split].
    + apply objects_ok_put; [done|]. apply (w_load _ H a); [done|]. unfold load. by rewrite Et, Ed.
    + intros b. fold (object (setStateObject d (newObject a data)) b). rewrite object_put. cbn.
      destruct (Z.eqb_spec b a) as [->|]; [|done]. unfold load. by rewrite E, Et, Ed.
    + intros o' [= <-]. cbn. rewrite lookup_insert. by rewrite decide_True.
  - destruct (TryGet_account (trie d) a) as [[|x enc]|] eqn:Et.
    + split; [done|]. by split; [apply same_rest_refl|].
    + destruct (decodeAccount (x :: enc)); [done|]. split; [done|]. by split; [apply same_rest_refl|].
    + split; [done|]. split; [by split|]. split; [by destruct H; split|]. by split.
Qed.

(** [d'] is [d] with more in its caches. *)
Definition cached (d d' : statedb) : Prop :=
  same_rest d d' /\ objects_ok d' /\ view_of d' ≡ view_of d.

Lemma same_rest_logs d d' : same_rest d d' -> GetLogs d' (thash d') = GetLogs d (thash d).
Proof. intros [_ _ Ht Hl _ _ _]. unfold GetLogs. by rewrite Ht, Hl. Qed.

Lemma getStateObject_spec d a :
  objects_ok d ->
  let '(o, d') := getStateObject d a in
  o = live d a /\ cached d d' /\ (forall b, object d' b = object d b) /\
  (forall o', o = Some o' -> stateObjects d' !! a = Some o').
Proof.
  intros H. pose proof (getDeleted_spec d a H) as Hg. unfold getStateObject, live.
  destruct (getDeletedStateObject d a) as [o d']. destruct Hg as (-> & Hr & Ho & Hb & Hs).
  assert (cached d d') as Hc.
  { split; [done|]. split; [done|]. apply view_object; [done|apply Hr|by apply same_rest_logs]. }
  unfold undeleted. destruct (object d a) as [o|]; [destruct (deleted o); [done|]|done].
  split; [done|]. split; [done|]. by split.
Qed.

Lemma read_object_spec {A} (none : A) f val d a :
  reads f val -> objects_ok d ->
  fst (read_object none f d a) = from_option val none (live d a) /\ cached d (snd (read_object none f d a)).
Proof.
  intros Hf H. pose proof (getStateObject_spec d a H) as Hg. unfold read_object.
  destruct (getStateObject d a) as [o d']. destruct Hg as (-> & (Hr & Ho & Hv) & Hb & Hs).
  destruct (live d a) as [o|] eqn:El; [|done].
  assert (live d' a = Some o) as El' by (unfold live; by rewrite Hb).
  destruct (Hf a o (live_ok _ _ _ H El)) as (Ev & Hsame & Hok). destruct (f o) as [x o']. cbn in *.
  split; [done|]. assert (address o' = a) as Ea by apply Hok.
  assert (deleted o' = false) as Ed by (rewrite (os_deleted _ _ Hsame); by eapply live_deleted).
  split; [|split].
  - eapply same_rest_trans; [exact Hr|]. by split.
  - apply objects_ok_put; [done|]. by rewrite Ea.
  - rewrite view_put, Ea. cbn. rewrite Ed. by rewrite v_put_same.
Qed.
End objects.
