(* ===== verification/StateDBRefine.v ===== *)
(** * The state database implements its contract

    Undoing a journal entry as a function on views; every writer's entries undo
    it; hence reverting to a snapshot restores the view at the snapshot.  The
    result is the instance of [StateDBSpec] for [core/state], through which the
    theorems about the EVM apply to it. *)

From Stdlib Require Import ZArith Lia Sorting.Sorted.
From stdpp Require Import sorting.
From S2P Require Import Prelude Common Params Uint256 Rlp Crypto VmMemory VmAnalysis VmState VmSpec VmMemFacts StateDB StateDBView.

Open Scope go_scope.

Section refine.
Context {SS : StateStore} {K : Keccak}.

(** ** Undoing entries *)

Definition v_nonce (a : Address) (x : Z) (v : View) : View :=
  MkView (vExist v) (vBalance v) (upd (vNonce v) a x) (vCode v) (vCodeHash v) (vState v)
    (vCommitted v) (vSuicided v) (vRefund v) (vLogs v).
Definition v_code (a : Address) (c : bytes) (h : Hash) (v : View) : View :=
  MkView (vExist v) (vBalance v) (vNonce v) (upd (vCode v) a c) (upd (vCodeHash v) a h) (vState v)
    (vCommitted v) (vSuicided v) (vRefund v) (vLogs v).
Definition v_state (a : Address) (k x : Hash) (v : View) : View :=
  MkView (vExist v) (vBalance v) (vNonce v) (vCode v) (vCodeHash v) (upd (vState v) a (upd (vState v a) k x))
    (vCommitted v) (vSuicided v) (vRefund v) (vLogs v).
Definition v_suicide (a : Address) (p : bool) (x : Z) (v : View) : View :=
  MkView (vExist v) (upd (vBalance v) a x) (vNonce v) (vCode v) (vCodeHash v) (vState v)
    (vCommitted v) (upd (vSuicided v) a p) (vRefund v) (vLogs v).
Definition v_logs (l : list Log) (v : View) : View :=
  MkView (vExist v) (vBalance v) (vNonce v) (vCode v) (vCodeHash v) (vState v)
    (vCommitted v) (vSuicided v) (vRefund v) l.

Definition account_hash (a : Address) : Hash := Keccak256Hash (Address_Bytes a).

Definition undo (e : journalEntry) (v : View) : View :=
  match e with
  | createObjectChange a => v_put a None v
  | resetObjectChange prev _ => v_put (address prev) (undeleted (Some prev)) v
  | suicideChange a p x => if vExist v a then v_suicide a p x v else v
  | balanceChange a x => s_setBalance a x v
  | nonceChange a x => v_nonce a x v
  | storageChange a k x => v_state a k x v
  | codeChange a c h => v_code a (code_value (account_hash a) c h) h v
  | refundChange x => s_setRefund x v
  | addLogChange _ => v_logs (removelast (vLogs v)) v
  | addPreimageChange _ | touchChange _ => v
  end.

(** What undoing relies on. *)
Definition undo_pre (e : journalEntry) (v : View) : Prop :=
  match e with
  | balanceChange a _ | nonceChange a _ | storageChange a _ _ | codeChange a _ _ => vExist v a = true
  | addLogChange _ => vLogs v <> []
  | _ => True
  end.

(** What an entry of the journal records, for the trie and transaction at hand. *)
Definition entry_ok (t : Trie) (th : Hash) (e : journalEntry) : Prop :=
  match e with
  | createObjectChange a => load t a = None
  | resetObjectChange prev _ => obj_ok (address prev) prev
  | codeChange a c h => code_fits (account_hash a) c h
  | addLogChange h => h = th
  | _ => True
  end.

#[global] Instance undo_proper e : Proper ((≡) ==> (≡)) (undo e).
Proof.
  intros v w H. destruct e; cbn [undo]; try (by rewrite H).
  - rewrite (ve_Exist _ _ H). destruct (vExist w account); [|done].
    destruct H. split; cbn; unfold upd; intros; try (destruct (_ =? account)); auto.
  - destruct H. split; cbn; unfold upd; intros; try (destruct (_ =? account)); auto.
  - destruct H. split; cbn; auto. intros a k. unfold upd. destruct (a =? account); [|auto]. by destruct (k =? key).
  - destruct H. split; cbn; unfold upd; intros; try (destruct (_ =? account)); auto.
  - destruct H. split; cbn; auto. by rewrite ve_Logs.
Qed.

Lemma undo_pre_proper e v w : v ≡ w -> undo_pre e v -> undo_pre e w.
Proof. intros []. destruct e; cbn; congruence. Qed.

(** ** The contents of changed objects *)

Lemma put_balance d a o x :
  live d a = Some o -> v_put a (Some (setBalance o x)) (view_of d) ≡ s_setBalance a x (view_of d).
Proof.
  intros Hl. split; cbn; unfold upd; intros; try (destruct (Z.eqb_spec a0 a) as [->|]); rewrite ?Hl; done.
Qed.
Lemma put_nonce d a o x :
  live d a = Some o -> v_put a (Some (setNonce o x)) (view_of d) ≡ v_nonce a x (view_of d).
Proof.
  intros Hl. split; cbn; unfold upd; intros; try (destruct (Z.eqb_spec a0 a) as [->|]); rewrite ?Hl; done.
Qed.
Lemma put_code d a o h c :
  live d a = Some o -> addrHash o = account_hash a ->
  v_put a (Some (setCode o h c)) (view_of d) ≡ v_code a (code_value (account_hash a) c h) h (view_of d).
Proof.
  intros Hl Ha. split; cbn; unfold upd; intros; try (destruct (Z.eqb_spec a0 a) as [->|]); rewrite ?Hl; cbn; try done.
  unfold code_val. cbn. by rewrite Ha.
Qed.
Lemma put_state d a o k x :
  live d a = Some o -> v_put a (Some (setState o k x)) (view_of d) ≡ v_state a k x (view_of d).
Proof.
  intros Hl. split; cbn; unfold upd; intros; try (destruct (Z.eqb_spec a0 a) as [->|]); rewrite ?Hl; cbn; try done.
  unfold state_val. cbn. rewrite lookup_insert. destruct (Z.eqb_spec k0 k) as [->|].
  - by rewrite decide_True.
  - rewrite decide_False by done. unfold upd. done.
Qed.
Lemma put_suicide d a o p x :
  live d a = Some o ->
  v_put a (Some (setBalance (o_flags o p (deleted o)) x)) (view_of d) ≡ v_suicide a p x (view_of d).
Proof.
  intros Hl. split; cbn; unfold upd; intros; try (destruct (Z.eqb_spec a0 a) as [->|]); rewrite ?Hl; done.
Qed.

(** ** Reverting one entry *)

Record kept (d d' : statedb) : Prop := MkKept {
  k_trie : trie d' = trie d;
  k_thash : thash d' = thash d;
  k_jrnl : jrnl d' = jrnl d;
  k_revs : validRevisions d' = validRevisions d;
  k_next : nextRevisionId d' = nextRevisionId d;
}.

Lemma kept_refl d : kept d d.
Proof. by split. Qed.
Lemma kept_trans d1 d2 d3 : kept d1 d2 -> kept d2 d3 -> kept d1 d3.
Proof. intros [] []. split; congruence. Qed.
Lemma same_rest_kept d d' : same_rest d d' -> kept d d'.
Proof. intros []. by split. Qed.

(** [d'] is well-formed and shows [v]. *)
Definition reaches (d : statedb) (v : View) (d' : statedb) : Prop :=
  objects_ok d' /\ view_of d' ≡ v /\ kept d d'.

Lemma put_reaches d a o :
  objects_ok d -> obj_ok a o -> deleted o = false ->
  reaches d (v_put a (Some o) (view_of d)) (setStateObject d o).
Proof.
  intros H Ho Hd. assert (address o = a) as Ea by apply Ho.
  split; [apply objects_ok_put; [done|by rewrite Ea]|]. split; [|by split].
  rewrite view_put, Ea. cbn. by rewrite Hd.
Qed.

Lemma reaches_cached d d1 v d2 : cached d d1 -> reaches d1 v d2 -> reaches d v d2.
Proof.
  intros (Hr & _ & _) (H2 & H3 & H4). split; [done|]. split; [done|].
  eapply kept_trans; [by apply same_rest_kept|done].
Qed.

Lemma with_object_spec d a o f v :
  objects_ok d -> live d a = Some o -> v_put a (Some (f o)) (view_of d) ≡ v ->
  obj_ok a (f o) -> deleted (f o) = false ->
  exists d', with_object d a f = Ok d' /\ reaches d v d'.
Proof.
  intros H Hl Hv' Hf Hd. unfold with_object. pose proof (getStateObject_spec d a H) as Hg.
  destruct (getStateObject d a) as [o' d1]. destruct Hg as (-> & Hc & _ & _). rewrite Hl.
  eexists. split; [done|]. eapply reaches_cached; [exact Hc|].
  destruct Hc as (_ & H1 & Hv). destruct (put_reaches d1 a (f o) H1 Hf Hd) as (? & E & ?).
  split; [done|]. split; [|done]. by rewrite E, Hv.
Qed.

Lemma exist_live d a : vExist (view_of d) a = true -> exists o, live d a = Some o.
Proof. cbn. intros H. by apply bool_decide_eq_true in H. Qed.

Lemma obj_ok_code a o h c :
  obj_ok a o -> code_fits (account_hash a) c h -> obj_ok a (setCode o h c).
Proof. intros [H1 H2 H3 H4] Hc. split; try done. cbn. by rewrite H2. Qed.

Lemma revert_log d :
  vLogs (view_of d) <> [] ->
  exists l n, revert_entry (addLogChange (thash d)) d = Ok (s_logs d l n) /\
    map log_of (default [] (l !! thash d)) = removelast (vLogs (view_of d)).
Proof.
  cbn [revert_entry view_of vLogs]. set (l := GetLogs d (thash d)). intros Hl.
  assert (l <> []) as Hne by (intros E; by rewrite E in Hl).
  destruct (exists_last Hne) as (l' & x & E). rewrite E, zlen_app.
  destruct (Z.eqb_spec (zlen l' + zlen [x]) 1) as [E1|E1].
  - eexists _, _. split; [done|]. rewrite lookup_delete, decide_True by done. unfold zlen in E1. cbn in E1.
    destruct l'; [done|cbn in E1; lia].
  - replace (zlen l' + zlen [x] - 1) with (zlen l') by (unfold zlen; cbn; lia).
    rewrite zslice_Some by (unfold zlen; rewrite ?length_app; cbn; lia).
    eexists _, _. split; [done|]. rewrite lookup_insert, decide_True by done.
    rewrite Z.sub_0_r. change (Z.to_nat 0) with 0%nat. rewrite drop_0. unfold zlen.
    rewrite Nat2Z.id, take_app_length, map_app. cbn. by rewrite removelast_last.
Qed.

(** Reverting an entry undoes it on the view, and does not fail. *)
Lemma revert_entry_spec e d :
  objects_ok d -> entry_ok (trie d) (thash d) e -> undo_pre e (view_of d) ->
  exists d', revert_entry e d = Ok d' /\ reaches d (undo e (view_of d)) d'.
Proof.
  intros H He Hp. destruct e as [a|prev pd|a p x|a x|a x|a k x|a c h|x|th|h|a]; cbn [entry_ok undo_pre undo] in *.
  - eexists. split; [done|]. split; [|split; [|by split]].
    + destruct H as [H1 H2]. split; intros b o; cbn; rewrite lookup_delete; case_decide as E; [done|apply H1|subst b; by rewrite He|apply H2].
    + set (d' := s_marks _ _ _).
      assert (forall b, live d' b = if b =? a then None else live d b) as Hl.
      { intros b. unfold live, object. cbn. rewrite lookup_delete. destruct (Z.eqb_spec b a) as [->|].
        - rewrite decide_True by done. by rewrite He.
        - by rewrite decide_False. }
      split; cbn [view_of v_put vExist vBalance vNonce vCode vCodeHash vState vCommitted vSuicided vRefund vLogs];
        unfold upd; intros; rewrite ?Hl; try (destruct (_ =? a)); done.
  - eexists. split; [done|]. split; [by apply objects_ok_put|]. split; [apply view_put|by split].
  - cbn [revert_entry]. pose proof (getStateObject_spec d a H) as Hg.
    destruct (getStateObject d a) as [o d1]. destruct Hg as (-> & Hc & Hb & _).
    destruct (live d a) as [o|] eqn:El.
    + assert (vExist (view_of d) a = true) as -> by (cbn; by rewrite El).
      eexists. split; [done|]. eapply reaches_cached; [exact Hc|]. destruct Hc as (_ & H1 & Hv).
      assert (live d1 a = Some o) as El1 by (unfold live; by rewrite Hb).
      pose proof (live_ok _ _ _ H El) as Ho. pose proof (live_deleted _ _ _ El) as Hd.
      destruct (put_reaches d1 a (setBalance (o_flags o p (deleted o)) x) H1) as (? & E & ?);
        [by destruct Ho; split|done|].
      split; [done|]. split; [|done]. rewrite E, <- (put_suicide d a o p x El). by rewrite Hv.
    + assert (vExist (view_of d) a = false) as -> by (cbn; by rewrite El).
      eexists. split; [done|]. destruct Hc as (Hr & H1 & Hv). split; [done|]. split; [done|by apply same_rest_kept].
  - destruct (exist_live _ _ Hp) as [o El].
    eapply with_object_spec; [done|done|by apply put_balance|by destruct (live_ok _ _ _ H El); split|by apply (live_deleted _ _ _ El)].
  - destruct (exist_live _ _ Hp) as [o El].
    eapply with_object_spec; [done|done|by apply put_nonce|by destruct (live_ok _ _ _ H El); split|by apply (live_deleted _ _ _ El)].
  - destruct (exist_live _ _ Hp) as [o El].
    eapply with_object_spec; [done|done|by apply put_state|by destruct (live_ok _ _ _ H El); split|by apply (live_deleted _ _ _ El)].
  - destruct (exist_live _ _ Hp) as [o El]. pose proof (live_ok _ _ _ H El) as Ho.
    eapply with_object_spec; [done|done|apply put_code; [done|apply Ho]|by apply obj_ok_code|by apply (live_deleted _ _ _ El)].
  - eexists. split; [done|]. split; [by destruct H|]. by split.
  - subst th. destruct (revert_log d Hp) as (l & n & -> & El). eexists. split; [done|].
    split; [by destruct H|]. split; [|by split]. split; try done.
  - eexists. split; [done|]. split; [by destruct H|]. by split.
  - eexists. split; [done|]. split; [done|]. split; [done|apply kept_refl].
Qed.

(** ** The journal

    The entries newest first. *)

Fixpoint unwind (es : list journalEntry) (v : View) : View :=
  match es with
  | [] => v
  | e :: es => unwind es (undo e v)
  end.

(** The account has nothing to be flushed. *)
Definition settled (v : View) (a : Address) : Prop :=
  (forall k, vState v a k = vCommitted v a k) /\ vSuicided v a = false.

Definition undirtied (a : Address) (es : list journalEntry) : Prop := Forall (fun e => dirtied e <> Some a) es.

(** The entries can be undone from [v], back to a view without changes and
    refund; accounts that no entry marks are settled all along. *)
Fixpoint jok (es : list journalEntry) (v : View) : Prop :=
  (forall a, undirtied a es -> settled v a) /\ is_u64 (vRefund v) /\
  match es with
  | [] => vRefund v = 0
  | e :: es => undo_pre e v /\ jok es (undo e v)
  end.

Lemma settled_proper v w a : v ≡ w -> settled v a -> settled w a.
Proof. intros [] [H1 H2]. split; [|congruence]. intros k. by rewrite <- ve_State, <- ve_Committed. Qed.

#[global] Instance unwind_proper es : Proper ((≡) ==> (≡)) (unwind es).
Proof. induction es as [|e es IH]; intros v w H; cbn; [done|]. apply IH. by rewrite H. Qed.

Lemma unwind_app es es' v : unwind (es ++ es') v = unwind es' (unwind es v).
Proof. revert v. induction es as [|e es IH]; intros v; cbn; [done|apply IH]. Qed.

Lemma jok_proper es v w : v ≡ w -> jok es v -> jok es w.
Proof.
  revert v w. induction es as [|e es IH]; intros v w H (Hs & Hu & Hj);
    (split; [intros a Ha; by eapply settled_proper, Hs|]); (split; [by rewrite <- (ve_Refund _ _ H)|]).
  - by rewrite <- (ve_Refund _ _ H).
  - destruct Hj as [Hp Hj]. split; [by eapply undo_pre_proper|]. eapply IH; [|exact Hj]. by rewrite H.
Qed.

Lemma jok_app es es' v : jok (es ++ es') v -> jok es' (unwind es v).
Proof. revert v. induction es as [|e es IH]; intros v; cbn; [done|]. intros (_ & _ & _ & Hj). by apply IH. Qed.

(** How often the entries mark [a]. *)
Definition marks (a : Address) (es : list journalEntry) : Z := zlen (filter (fun e => dirtied e = Some a) es).

Lemma marks_app a es es' : marks a (es ++ es') = marks a es + marks a es'.
Proof. unfold marks. by rewrite filter_app, zlen_app. Qed.
Lemma marks_one a e : marks a [e] = if bool_decide (dirtied e = Some a) then 1 else 0.
Proof. unfold marks. rewrite filter_cons, filter_nil. case_bool_decide; [by rewrite decide_True|by rewrite decide_False]. Qed.

Record jrnl_same (d d' : statedb) : Prop := MkJrnlSame {
  js_trie : trie d' = trie d;
  js_thash : thash d' = thash d;
  js_entries : entries (jrnl d') = entries (jrnl d);
  js_revs : validRevisions d' = validRevisions d;
  js_next : nextRevisionId d' = nextRevisionId d;
}.

Lemma view_journal d j : view_of (s_journal d j) ≡ view_of d.
Proof. by split. Qed.

(** Reverting entries, newest first. *)
Lemma revert_entries_spec es d base :
  objects_ok d -> Forall (entry_ok (trie d) (thash d)) es -> jok (es ++ base) (view_of d) ->
  (forall a, marks a (es ++ base) <= default 0 (dirties (jrnl d) !! a)) ->
  exists d', revert_entries es d = Ok d' /\ objects_ok d' /\ view_of d' ≡ unwind es (view_of d) /\ jrnl_same d d' /\
    (forall a, marks a base <= default 0 (dirties (jrnl d') !! a)).
Proof.
  revert d. induction es as [|e es IH]; intros d H He Hj Hm; cbn [revert_entries unwind].
  { exists d. split; [done|]. split; [done|]. split; [done|]. by split. }
  inversion He as [|? ? He1 He2]; subst. destruct Hj as (_ & _ & Hp & Hj).
  destruct (revert_entry_spec e d H He1 Hp) as (d1 & -> & H1 & Hv1 & [K1 K2 K3 K4 K5]). cbn [obind].
  set (d2 := match dirtied e with Some a => _ | None => _ end).
  assert (objects_ok d2 /\ view_of d2 ≡ view_of d1 /\ jrnl_same d1 d2) as (H2 & Hv2 & [J1 J2 J3 J4 J5]).
  { unfold d2. destruct (dirtied e); [|done]. split; [by destruct H1|]. by split; [apply view_journal|]. }
  destruct (IH d2) as (d' & -> & H' & Hv' & [? ? ? ? ?] & Hm').
  - done.
  - by rewrite J1, J2, K1, K2.
  - eapply jok_proper; [|exact Hj]. by rewrite Hv2, Hv1.
  - intros a. specialize (Hm a). cbn [app] in Hm. change (e :: es ++ base) with ([e] ++ (es ++ base)) in Hm. rewrite marks_app, marks_one in Hm.
    unfold d2. destruct (dirtied e) as [b|] eqn:Ed.
    + cbn. unfold undirty. rewrite K3. case_bool_decide as Eb.
      * injection Eb as ->. destruct (Z.eqb_spec (default 0 (dirties (jrnl d) !! a) - 1) 0).
        -- rewrite lookup_delete, decide_True by done. cbn. lia.
        -- rewrite lookup_insert, decide_True by done. cbn. lia.
      * assert (b <> a) by congruence. destruct (_ =? 0).
        -- rewrite lookup_delete, decide_False by done. lia.
        -- rewrite lookup_insert, decide_False by done. lia.
    + rewrite K3. case_bool_decide; [done|]. lia.
  - exists d'. split; [done|]. split; [done|]. split; [by rewrite Hv', Hv2, Hv1|]. split; [|done].
    split; congruence.
Qed.

(** ** Well-formed databases *)

Record revs_ok (rs : list revision) (next len : Z) : Prop := MkRevsOk {
  ro_ids : StronglySorted Z.lt (map rev_id rs ++ [next]);
  ro_index : StronglySorted Z.le (map journalIndex rs ++ [len]);
  ro_nonneg : Forall (fun r => 0 <= journalIndex r) rs;
}.

Record sdb_ok (d : statedb) : Prop := MkSdbOk {
  so_objects : objects_ok d;
  so_entries : Forall (entry_ok (trie d) (thash d)) (entries (jrnl d));
  so_journal : jok (rev (entries (jrnl d))) (view_of d);
  so_dirties : forall a, marks a (entries (jrnl d)) <= default 0 (dirties (jrnl d) !! a);
  so_revs : revs_ok (validRevisions d) (nextRevisionId d) (zlen (entries (jrnl d)));
}.

(** The view at each live snapshot. *)
Definition view_at (d : statedb) (i : Z) : View :=
  unwind (rev (drop (Z.to_nat i) (entries (jrnl d)))) (view_of d).
Definition sdb_snaps (d : statedb) : list (Z * View) :=
  map (fun r => (rev_id r, view_at d (journalIndex r))) (validRevisions d).

Definition eff (f : View -> View) (d d' : statedb) : Prop :=
  sdb_ok d' /\ view_of d' ≡ f (view_of d) /\ snaps_eq (sdb_snaps d') (sdb_snaps d) /\
  nextRevisionId d' = nextRevisionId d.

Lemma eff_trans f g d1 d2 d3 : Proper ((≡) ==> (≡)) g -> eff f d1 d2 -> eff g d2 d3 -> eff (fun v => g (f v)) d1 d3.
Proof.
  intros Hg (_ & V1 & S1 & N1) (H2 & V2 & S2 & N2). split; [done|].
  split; [by rewrite V2, V1|]. split; [by rewrite S2|congruence].
Qed.

Lemma eff_id d : sdb_ok d -> eff id d d.
Proof. intros H. by split_and!. Qed.

Lemma eff_equiv f g d d' : f (view_of d) ≡ g (view_of d) -> eff f d d' -> eff g d d'.
Proof. intros E (H & V & S & N). split; [done|]. by split; [rewrite V|]. Qed.

Lemma idx_sorted rs next len r :
  revs_ok rs next len -> r ∈ rs -> 0 <= journalIndex r <= len.
Proof.
  intros [_ Hi Hn] Hr. rewrite Forall_forall in Hn. split; [by apply Hn|].
  clear Hn. induction rs as [|r' rs IH]; [by apply elem_of_nil in Hr|].
  inversion Hi as [|? ? Hs Hf]; subst. apply elem_of_cons in Hr as [->|Hr]; [|auto].
  rewrite Forall_app in Hf. destruct Hf as [_ Hf]. by inversion Hf.
Qed.

(** Databases with the same journal and view. *)
Lemma eff_cached d d' : sdb_ok d -> cached d d' -> eff id d d'.
Proof.
  intros [H1 H2 H3 H4 H5] ([R1 R2 R3 R4 R5 R6 R7] & Ho & Hv).
  split; [split; rewrite ?R1, ?R3, ?R5, ?R6, ?R7; auto; by eapply jok_proper; [symmetry|]|].
  split; [done|]. split; [|done]. unfold sdb_snaps, view_at. rewrite R6, R5. unfold snaps_eq. apply Forall2_fmap, Forall_Forall2_diag.
  apply Forall_forall. intros r _. split; [done|]. cbn. by rewrite Hv.
Qed.

(** Recording one entry that undoes the change. *)
Record records (e : journalEntry) (d d' : statedb) : Prop := MkRecords {
  rc_trie : trie d' = trie d;
  rc_thash : thash d' = thash d;
  rc_revs : validRevisions d' = validRevisions d;
  rc_next : nextRevisionId d' = nextRevisionId d;
  rc_entries : entries (jrnl d') = entries (jrnl d) ++ [e];
  rc_dirties : forall a, default 0 (dirties (jrnl d) !! a) + marks a [e] <= default 0 (dirties (jrnl d') !! a);
}.

Lemma eff_record e f d d' :
  sdb_ok d -> objects_ok d' -> records e d d' -> entry_ok (trie d) (thash d) e -> view_of d' ≡ f (view_of d) ->
  undo_pre e (f (view_of d)) -> undo e (f (view_of d)) ≡ view_of d ->
  (forall a, dirtied e <> Some a -> settled (view_of d) a -> settled (f (view_of d)) a) ->
  (is_u64 (vRefund (view_of d)) -> is_u64 (vRefund (f (view_of d)))) ->
  eff f d d'.
Proof.
  intros [H1 H2 H3 H4 H5] Ho [R1 R2 R3 R4 R5 R6] He Hv Hp Hu Hs Hru. symmetry in Hv.
  split; [split|split; [done|split; [|done]]].
  - done.
  - rewrite R1, R2, R5. apply Forall_app. split; [done|]. by constructor.
  - rewrite R5, rev_app_distr. cbn. split; [|split].
    + intros a Ha. eapply settled_proper; [exact Hv|]. inversion Ha; subst. apply Hs; [done|].
      destruct (rev (entries (jrnl d))) eqn:E; destruct H3 as [H3 _]; auto.
    + change (is_u64 (vRefund (view_of d'))). rewrite <- (ve_Refund _ _ Hv). apply Hru.
      destruct (rev (entries (jrnl d))); by destruct H3 as (_ & ? & _).
    + split; [by eapply undo_pre_proper|]. eapply jok_proper; [|exact H3]. by rewrite <- Hv, Hu.
  - intros a. rewrite R5, marks_app. specialize (H4 a). specialize (R6 a). lia.
  - rewrite R3, R4, R5, zlen_app. destruct H5 as [I1 I2 I3]. split; [done| |done].
    clear - I2. induction (validRevisions d) as [|r rs IH]; cbn in *; [by repeat constructor|].
    inversion I2 as [|? ? Hs Hf]; subst. constructor; [auto|]. rewrite Forall_app in *. destruct Hf as [Hf Hl].
    split; [done|]. inversion Hl; subst. repeat constructor. unfold zlen in *. cbn. lia.
  - unfold sdb_snaps. rewrite R3. unfold snaps_eq. apply Forall2_fmap, Forall_Forall2_diag.
    apply Forall_forall. intros r Hr. split; [done|]. cbn. unfold view_at. rewrite R5.
    apply list_elem_of_In in Hr. pose proof (idx_sorted _ _ _ r H5 ltac:(by apply list_elem_of_In)) as Hi.
    rewrite drop_app_le by (unfold zlen in Hi; lia). rewrite rev_app_distr. cbn. by rewrite <- Hv, Hu.
Qed.
End refine.

(** ** The methods

    What the code relies on of its tries and of the encoding of accounts: the empty
    root opens a trie without values; what is written is read, and nothing else
    changes; an account whose balance is not negative is read as it was written. *)

Class StateStoreLaws (SS : StateStore) := {
  open_empty : forall ah, exists t, OpenStorageTrie ah emptyRoot = Some t /\ forall k, TryGet t k = Some [];
  TryUpdate_get : forall t k v t', TryUpdate t k v = Some t' -> v <> [] -> TryGet t' k = Some v;
  TryUpdate_other : forall t k v t' k', TryUpdate t k v = Some t' -> k' <> k -> TryGet t' k' = TryGet t k';
  TryDelete_get : forall t k t', TryDelete t k = Some t' -> TryGet t' k = Some [];
  TryDelete_other : forall t k t' k', TryDelete t k = Some t' -> k' <> k -> TryGet t' k' = TryGet t k';
  account_roundtrip : forall n x r h, 0 <= x ->
    exists b, encodeAccount (MkAccount n (Some x) r (Some h)) = Some b /\ b <> [] /\ decodeAccount b = Some (MkAccount n (Some x) r (Some h));
}.

Section methods.
Context {SS : StateStore} {K : Keccak} {SL : StateStoreLaws SS}.

Lemma append_records e d : records e d (append d e).
Proof.
  split; try done.
  - unfold append, journal_append. cbn. by destruct (dirtied e).
  - intros a. rewrite marks_one. unfold append, journal_append. cbn. destruct (dirtied e) as [b|]; cbn.
    + rewrite lookup_insert. case_bool_decide; case_decide; simplify_eq; cbn; lia.
    + rewrite bool_decide_false by done. lia.
Qed.

Lemma records_put e d d' o : records e d d' -> records e d (setStateObject d' o).
Proof. intros []. by split. Qed.

Lemma put_records e d o : records e d (setStateObject (append d e) o).
Proof. apply records_put, append_records. Qed.

(** *** New objects *)

Definition fresh (a : Address) (x : Z) : stateObject := setBalance (setNonce (newObject a (MkAccount 0 None 0 None)) 0) x.

Lemma fresh_ok a x : obj_ok a (fresh a x).
Proof.
  split; try done. unfold code_fits. cbn. unfold code_value. rewrite Z.eqb_refl. split; [done|].
  split; [by constructor|]. done.
Qed.

Lemma fresh_slot a x k : slot (fresh a x) k = 0.
Proof.
  unfold slot, trie_of. change (obj_trie (fresh a x)) with (@None Trie).
  change (obj_Root (fresh a x)) with emptyRoot. destruct (open_empty (addrHash (fresh a x))) as (t & -> & Ht).
  cbn. by rewrite Ht.
Qed.

Lemma put_fresh a x v : v_put a (Some (fresh a x)) v ≡ s_fresh a x v.
Proof.
  split; cbn [v_put s_fresh vExist vBalance vNonce vCode vCodeHash vState vCommitted vSuicided vRefund vLogs];
    try done; intros b; unfold upd; destruct (b =? a); try done.
  - cbn. unfold code_val, code_value. cbn. by rewrite Z.eqb_refl.
  - intros k. cbn. unfold state_val, committed_val. rewrite fresh_slot. done.
  - intros k. cbn. unfold committed_val. rewrite fresh_slot. done.
Qed.

(** Putting back what was there. *)
Lemma unput d a x : v_put a (live d a) (s_fresh a x (view_of d)) ≡ view_of d.
Proof. split; cbn; unfold upd; intros; try (destruct (Z.eqb_spec a0 a) as [->|]); done. Qed.

Lemma eff_fresh d a x e :
  sdb_ok d -> entry_ok (trie d) (thash d) e -> undo_pre e (s_fresh a x (view_of d)) ->
  (forall w, undo e w = v_put a (live d a) w) ->
  let d' := setStateObject (append d e) (fresh a x) in
  eff (s_fresh a x) d d' /\ live d' a = Some (fresh a x).
Proof.
  intros H He Hp Hu d'. split; [|unfold live, d'; rewrite object_put; cbn; by rewrite Z.eqb_refl].
  eapply (eff_record e); [done| |apply put_records|done| |done| | |done].
  - apply objects_ok_put; [by destruct (so_objects _ H)|apply fresh_ok].
  - unfold d'. rewrite view_put. cbn [undeleted]. change (deleted (fresh a x)) with false. cbv iota.
    change (address (fresh a x)) with a. by rewrite put_fresh.
  - rewrite Hu. apply unput.
  - intros b _ [Hb1 Hb2]. split; cbn; unfold upd; destruct (b =? a); try done.
Qed.

(** [createObject] on [getDeletedStateObject]'s result. *)
Lemma create_fresh d a x :
  sdb_ok d ->
  let e := match object d a with None => createObjectChange a | Some prev => resetObjectChange prev false end in
  let d' := setStateObject (append d e) (fresh a x) in
  eff (s_fresh a x) d d' /\ live d' a = Some (fresh a x).
Proof.
  intros H. destruct (object d a) as [prev|] eqn:E; cbn zeta.
  - pose proof (object_ok _ _ _ (so_objects _ H) E) as Ho. assert (address prev = a) as Ea by apply Ho.
    apply eff_fresh; [done|cbn; by rewrite Ea|done|]. intros w. cbn [undo]. unfold live. by rewrite E, Ea.
  - apply eff_fresh; [done| |done|].
    + cbn. unfold object in E. by destruct (stateObjects d !! a).
    + intros w. cbn [undo]. unfold live. by rewrite E.
Qed.

Lemma getDeleted_eff d a :
  sdb_ok d ->
  let '(o, d') := getDeletedStateObject d a in
  o = object d a /\ eff id d d' /\ sdb_ok d' /\ (forall b, object d' b = object d b).
Proof.
  intros H. pose proof (getDeleted_spec d a (so_objects _ H)) as Hg.
  destruct (getDeletedStateObject d a) as [o d']. destruct Hg as (-> & Hr & Ho & Hb & _).
  assert (eff id d d') as He.
  { apply eff_cached; [done|]. split; [done|]. split; [done|].
    apply view_object; [done|apply Hr|by apply same_rest_logs]. }
  split; [done|]. split; [done|]. split; [apply He|done].
Qed.

Lemma fresh_eq d a x y : setStateObject (setStateObject d (fresh a x)) (fresh a y) = setStateObject d (fresh a y).
Proof. unfold setStateObject. cbn. by rewrite insert_insert_eq. Qed.

Lemma CreateAccount_eff a d : sdb_ok d -> eff (s_CreateAccount a) d (StateDB_CreateAccount d a).
Proof.
  intros H. unfold StateDB_CreateAccount, createObject. pose proof (getDeleted_eff d a H) as Hg.
  destruct (getDeletedStateObject d a) as [o d1]. destruct Hg as (-> & He1 & H1 & Hb).
  change (setNonce (newObject a (MkAccount 0 None 0 None)) 0) with (fresh a 0).
  pose proof (fun x => proj1 (create_fresh d1 a x H1)) as Hc. cbn zeta in Hc. rewrite Hb in Hc.
  assert (forall x, (if vExist (view_of d) a then vBalance (view_of d) a else 0) = x ->
    eff (fun v => s_fresh a x (id v)) d (setStateObject (append d1
       match object d a with Some prev => resetObjectChange prev false | None => createObjectChange a end) (fresh a x)) ->
    eff (s_CreateAccount a) d (setStateObject (append d1
       match object d a with Some prev => resetObjectChange prev false | None => createObjectChange a end) (fresh a x))) as Hx.
  { intros x Ex. apply eff_equiv. unfold s_CreateAccount. by rewrite Ex. }
  assert (forall x, eff (fun v => s_fresh a x (id v)) d (setStateObject (append d1
       match object d a with Some prev => resetObjectChange prev false | None => createObjectChange a end) (fresh a x))) as Hy.
  { intros x. eapply eff_trans; [apply _|done|apply Hc]. }
  destruct (object d a) as [prev|] eqn:E; [destruct (deleted prev) eqn:Ed|].
  - apply Hx; [|apply Hy]. cbn. unfold live. rewrite E. cbn. by rewrite Ed.
  - change (setBalance (fresh a 0) (obj_Balance prev)) with (fresh a (obj_Balance prev)). rewrite fresh_eq.
    apply Hx; [|apply Hy]. cbn. unfold live. rewrite E. cbn. by rewrite Ed.
  - apply Hx; [|apply Hy]. cbn. unfold live. by rewrite E.
Qed.

(** *** Writing to an object *)

Lemma getStateObject_eff d a :
  sdb_ok d ->
  let '(o, d') := getStateObject d a in
  o = live d a /\ eff id d d' /\ sdb_ok d' /\ (forall b, object d' b = object d b).
Proof.
  intros H. unfold getStateObject, live. pose proof (getDeleted_eff d a H) as Hg.
  destruct (getDeletedStateObject d a) as [o d']. destruct Hg as (-> & Hg). unfold undeleted.
  destruct (object d a) as [o|]; [by destruct (deleted o)|done].
Qed.

Lemma GetOrNew_eff d a :
  sdb_ok d ->
  let '(o, d') := GetOrNewStateObject d a in eff (s_ensure a) d d' /\ live d' a = Some o.
Proof.
  intros H. unfold GetOrNewStateObject. pose proof (getStateObject_eff d a H) as Hg.
  destruct (getStateObject d a) as [o d1]. destruct Hg as (-> & He & H1 & Hb).
  assert (live d1 a = live d a) as El by (unfold live; by rewrite Hb).
  destruct (live d a) as [o|] eqn:E.
  { split; [|done]. eapply eff_equiv; [|exact He]. unfold s_ensure. cbn. by rewrite E. }
  unfold createObject. pose proof (getDeleted_eff d1 a H1) as Hg.
  destruct (getDeletedStateObject d1 a) as [o2 d2]. destruct Hg as (-> & He2 & H2 & Hb2).
  change (setNonce (newObject a (MkAccount 0 None 0 None)) 0) with (fresh a 0).
  destruct (create_fresh d2 a 0 H2) as (He3 & Hl3). cbn zeta in He3, Hl3. rewrite Hb2 in He3, Hl3.
  assert (eff (fun v => s_fresh a 0 (id (id v))) d (setStateObject (append d2
       match object d1 a with Some prev => resetObjectChange prev false | None => createObjectChange a end) (fresh a 0))) as He4.
  { eapply (eff_trans (fun v => id (id v)) (s_fresh a 0)); [apply _| |exact He3]. by eapply eff_trans; [apply _| |]. }
  assert (s_fresh a 0 (id (id (view_of d))) ≡ s_ensure a (view_of d)) as Ev.
  { unfold s_ensure. cbn. by rewrite E. }
  pose proof (eff_equiv _ _ _ _ Ev He4) as He5.
  destruct (object d1 a) as [prev|] eqn:Eo; [|done]. by destruct (deleted prev).
Qed.

Lemma v_put_settled a o v b : b <> a -> settled v b -> settled (v_put a o v) b.
Proof. intros Hb [H1 H2]. split; cbn; intros; rewrite ?upd_ne by done; auto. Qed.

Lemma eff_put d a o o' e f :
  sdb_ok d -> live d a = Some o -> obj_ok a o' -> deleted o' = false -> dirtied e = Some a ->
  v_put a (Some o') (view_of d) ≡ f (view_of d) -> entry_ok (trie d) (thash d) e ->
  undo_pre e (f (view_of d)) -> undo e (f (view_of d)) ≡ view_of d ->
  eff f d (setStateObject (append d e) o').
Proof.
  intros H Hl Ho Hd Hdt Hv He Hp Hu. assert (address o' = a) as Ea by apply Ho.
  eapply (eff_record e); [done| |apply put_records|done| |done|done| |by rewrite <- (ve_Refund _ _ Hv)].
  - apply objects_ok_put; [by destruct (so_objects _ H)|by rewrite Ea].
  - rewrite view_put. cbn [undeleted]. rewrite Hd, Ea. exact Hv.
  - intros b Hb Hs. eapply settled_proper; [exact Hv|]. apply v_put_settled; [congruence|done].
Qed.

Lemma GetOrNew_then d a f (g : stateObject -> statedb -> statedb) :
  sdb_ok d -> Proper ((≡) ==> (≡)) f ->
  (forall d o, sdb_ok d -> live d a = Some o -> eff f d (g o d)) ->
  eff (fun v => f (s_ensure a v)) d (let '(o, d') := GetOrNewStateObject d a in g o d').
Proof.
  intros H Hf Hg. pose proof (GetOrNew_eff d a H) as Hn. destruct (GetOrNewStateObject d a) as [o d'].
  destruct Hn as (He & Hl). eapply eff_trans; [done|exact He|]. apply Hg; [apply He|done].
Qed.

(** Overwriting a field and writing it back. *)
Lemma s_setBalance_back a x v : s_setBalance a (vBalance v a) (s_setBalance a x v) ≡ v.
Proof. split; cbn; try done. unfold upd. intros b. by destruct (Z.eqb_spec b a) as [->|]. Qed.

Lemma SetBalance_eff d a o x :
  sdb_ok d -> live d a = Some o -> eff (s_setBalance a x) d (stateObject_SetBalance d o x).
Proof.
  intros H Hl. pose proof (live_ok _ _ _ (so_objects _ H) Hl) as Ho. assert (address o = a) as Ea by apply Ho.
  unfold stateObject_SetBalance. rewrite Ea.
  eapply eff_put; [done|done|by destruct Ho; split|by apply (live_deleted _ _ _ Hl)|done|by apply put_balance|done|
    cbn; by rewrite Hl|].
  cbn [undo]. replace (obj_Balance o) with (vBalance (view_of d) a) by (cbn; by rewrite Hl). apply s_setBalance_back.
Qed.

#[local] Instance setBalance_proper a (g : View -> Z) :
  Proper ((≡) ==> (=)) g -> Proper ((≡) ==> (≡)) (fun v => s_setBalance a (g v) v).
Proof. intros Hg v w H. cbn. rewrite (Hg _ _ H). destruct H. split; cbn; unfold upd; intros; try (destruct (_ =? a)); auto. Qed.

Lemma s_setBalance_id a v : s_setBalance a (vBalance v a) v ≡ v.
Proof. split; cbn; try done. unfold upd. intros b. by destruct (Z.eqb_spec b a) as [->|]. Qed.

Lemma touch_eff d a o : sdb_ok d -> live d a = Some o -> eff id d (touch d o).
Proof.
  intros H Hl. pose proof (live_ok _ _ _ (so_objects _ H) Hl) as Ho. assert (address o = a) as Ea by apply Ho.
  unfold touch. rewrite Ea. apply (eff_record (touchChange a)); try done.
  - destruct (a =? ripemd); by destruct (so_objects _ H).
  - destruct (append_records (touchChange a) d) as [R1 R2 R3 R4 R5 R6]. destruct (a =? ripemd); [|done].
    split; try done. intros b. etransitivity; [apply R6|]. set (d1 := append d (touchChange a)).
    change (dirties (jrnl (s_journal d1 (dirty (jrnl d1) a))))
      with (<[a := default 0 (dirties (jrnl d1) !! a) + 1]> (dirties (jrnl d1))).
    rewrite lookup_insert. case_decide; [|done]. subst b. set (n := default 0 _). change (n <= n + 1). lia.
  - by destruct (a =? ripemd).
Qed.

Lemma sgn_zero x : (Z.sgn x =? 0) = (x =? 0).
Proof. by destruct x. Qed.

Lemma AddBalance_eff a x d : sdb_ok d -> eff (s_AddBalance a x) d (StateDB_AddBalance d a x).
Proof.
  intros H. apply (GetOrNew_then d a (fun v => s_setBalance a (vBalance v a + x) v) (fun o d => stateObject_AddBalance d o x)); [done| |].
  { apply setBalance_proper. intros v w E. by rewrite (ve_Balance _ _ E). }
  clear d H. intros d o H Hl. unfold stateObject_AddBalance. rewrite sgn_zero.
  assert (vBalance (view_of d) a = obj_Balance o) as Eb by (cbn; by rewrite Hl).
  destruct (Z.eqb_spec x 0) as [->|Hx].
  - apply (eff_equiv id); [cbn; rewrite Z.add_0_r; symmetry; apply s_setBalance_id|].
    destruct (empty o); [by eapply touch_eff|]. by apply eff_id.
  - rewrite <- Eb. apply (eff_equiv (s_setBalance a (vBalance (view_of d) a + x))); [done|]. by apply SetBalance_eff.
Qed.

Lemma SubBalance_eff a x d : sdb_ok d -> eff (s_SubBalance a x) d (StateDB_SubBalance d a x).
Proof.
  intros H. apply (GetOrNew_then d a (fun v => s_setBalance a (vBalance v a - x) v) (fun o d => stateObject_SubBalance d o x)); [done| |].
  { apply setBalance_proper. intros v w E. by rewrite (ve_Balance _ _ E). }
  clear d H. intros d o H Hl. unfold stateObject_SubBalance. rewrite sgn_zero.
  assert (vBalance (view_of d) a = obj_Balance o) as Eb by (cbn; by rewrite Hl).
  destruct (Z.eqb_spec x 0) as [->|Hx].
  - apply (eff_equiv id); [cbn; rewrite Z.sub_0_r; symmetry; apply s_setBalance_id|]. by apply eff_id.
  - rewrite <- Eb. apply (eff_equiv (s_setBalance a (vBalance (view_of d) a - x))); [done|]. by apply SetBalance_eff.
Qed.

Lemma SetNonce_eff a x d : sdb_ok d -> eff (s_SetNonce a x) d (StateDB_SetNonce d a x).
Proof.
  intros H. apply (GetOrNew_then d a (v_nonce a x) (fun o d => stateObject_SetNonce d o x)); [done|apply (undo_proper (nonceChange a x))|].
  clear d H. intros d o H Hl. pose proof (live_ok _ _ _ (so_objects _ H) Hl) as Ho. assert (address o = a) as Ea by apply Ho.
  unfold stateObject_SetNonce. rewrite Ea.
  eapply eff_put; [done|done|by destruct Ho; split|by apply (live_deleted _ _ _ Hl)|done|by apply put_nonce|done|
    cbn; by rewrite Hl|].
  split; cbn; try done. unfold upd. intros b. destruct (Z.eqb_spec b a) as [->|]; by rewrite ?Hl.
Qed.

Lemma eff_cached_put d a o o' :
  sdb_ok d -> live d a = Some o -> obj_same o o' -> obj_ok a o' ->
  eff id d (setStateObject d o') /\ live (setStateObject d o') a = Some o'.
Proof.
  intros H Hl Hs Ho. assert (address o' = a) as Ea by apply Ho.
  assert (deleted o' = false) as Hd by (rewrite (os_deleted _ _ Hs); by apply (live_deleted _ _ _ Hl)).
  split; [|unfold live; rewrite object_put, Ea, Z.eqb_refl; cbn; by rewrite Hd].
  apply eff_cached; [done|]. split; [by split|].
  destruct (put_reaches d a o' (so_objects _ H) Ho Hd) as (? & E & _). split; [done|]. rewrite E. by apply (v_put_same d a o).
Qed.

(** The entry of [SetCode] keeps the code that was read. *)
Lemma Code_prev a o :
  obj_ok a o ->
  let '(c, o') := stateObject_Code o in
  obj_same o o' /\ obj_ok a o' /\ code_value (account_hash a) c (obj_CodeHash o) = code_val o /\
  code_fits (account_hash a) c (obj_CodeHash o).
Proof.
  intros Ho. destruct (Code_reads a o Ho) as (Ev & Hs & Hok). revert Ev Hs Hok.
  destruct Ho as [H1 H2 H3 H4]. unfold account_hash. rewrite <- H2. unfold code_val, stateObject_Code in *.
  destruct (code o) as [c|] eqn:Ec; [done|].
  unfold code_fits, code_value in *. destruct (Z.eqb_spec (obj_CodeHash o) emptyCodeHash) as [E|E]; [done|].
  destruct (ContractCode (addrHash o) (obj_CodeHash o)) as [c|]; cbn; intros; [|done].
  split; [done|]. split; [done|]. split; [done|]. by destruct H4 as (? & ? & _).
Qed.

Lemma SetCode_eff a c d : sdb_ok d -> data_ok c -> eff (s_SetCode a c) d (StateDB_SetCode d a c).
Proof.
  intros H Hc. apply (GetOrNew_then d a (v_code a c (Keccak256Hash c)) (fun o d => stateObject_SetCode d o (Keccak256Hash c) c)); [done| |].
  { apply (undo_proper (codeChange a (Some c) (Keccak256Hash c))). }
  clear d H. intros d o H Hl. pose proof (live_ok _ _ _ (so_objects _ H) Hl) as Ho.
  unfold stateObject_SetCode. pose proof (Code_prev a o Ho) as Hp. destruct (stateObject_Code o) as [pc o'].
  destruct Hp as (Hs & Ho' & Ev & Hf). assert (address o' = a) as Ea by apply Ho'. rewrite Ea, (os_CodeHash _ _ Hs).
  assert (obj_ok a (setCode o' (Keccak256Hash c) (Some c))) as Hn.
  { apply obj_ok_code; [done|]. by split. }
  assert (v_put a (Some (setCode o' (Keccak256Hash c) (Some c))) (view_of d) ≡ v_code a c (Keccak256Hash c) (view_of d)) as Hv.
  { rewrite <- (put_code d a o (Keccak256Hash c) (Some c) Hl) by apply Ho.
    destruct Hs as [_ _ E3 E4 _ _ E7 E8 E9 _]. split; cbn; unfold upd; intros; try (destruct (_ =? a)); auto; [apply E7|apply E8]. }
  eapply eff_put; [done|done|done|rewrite <- (live_deleted _ _ _ Hl); apply Hs|done|exact Hv|done|cbn; by rewrite Hl|].
  cbn [undo]. rewrite Ev. split; cbn; try done; unfold upd; intros b; destruct (Z.eqb_spec b a) as [->|]; by rewrite ?Hl.
Qed.

Lemma v_state_id a k v : v_state a k (vState v a k) v ≡ v.
Proof.
  split; cbn; try done. unfold upd. intros b k'. destruct (Z.eqb_spec b a) as [->|]; [|done].
  by destruct (Z.eqb_spec k' k) as [->|].
Qed.

Lemma v_state_back a k x v : v_state a k (vState v a k) (v_state a k x v) ≡ v.
Proof.
  split; cbn; try done. unfold upd. intros b k'. rewrite Z.eqb_refl. destruct (Z.eqb_spec b a) as [->|]; [|done].
  by destruct (Z.eqb_spec k' k) as [->|].
Qed.

Lemma SetState_eff a k x d : sdb_ok d -> eff (s_SetState a k x) d (StateDB_SetState d a k x).
Proof.
  intros H. apply (GetOrNew_then d a (v_state a k x) (fun o d => stateObject_SetState d o k x)); [done|apply (undo_proper (storageChange a k x))|].
  clear d H. intros d o H Hl. pose proof (live_ok _ _ _ (so_objects _ H) Hl) as Ho.
  unfold stateObject_SetState. rewrite (ok_fake _ _ Ho).
  destruct (GetState_reads k a o Ho) as (Ev & Hs & Ho'). destruct (stateObject_GetState o k) as [p o']. cbn [fst snd] in *.
  destruct (eff_cached_put d a o o' H Hl Hs Ho') as [He Hl']. set (d1 := setStateObject d o') in *.
  assert (vState (view_of d) a k = p) as Ep by (cbn; rewrite Hl; done).
  destruct (Z.eqb_spec p x) as [->|Hx].
  - eapply eff_equiv; [|exact He]. rewrite <- Ep. symmetry. apply v_state_id.
  - assert (address o' = a) as Ea by apply Ho'. rewrite Ea.
    apply (eff_trans id (v_state a k x) d d1); [apply (undo_proper (storageChange a k x))|done|].
    pose proof (proj1 He) as H1.
    eapply eff_put; [done|done|by destruct Ho'; split|by apply (live_deleted _ _ _ Hl')|done|by apply put_state|done|
      cbn -[d1]; by rewrite Hl'|].
    cbn [undo]. assert (p = vState (view_of d1) a k) as -> by (rewrite <- Ep; symmetry; apply He). apply v_state_back.
Qed.

Lemma Suicide_eff a d :
  sdb_ok d -> fst (StateDB_Suicide d a) = vExist (view_of d) a /\ eff (s_Suicide a) d (snd (StateDB_Suicide d a)).
Proof.
  intros H. unfold StateDB_Suicide. pose proof (getStateObject_eff d a H) as Hg.
  destruct (getStateObject d a) as [o d1]. destruct Hg as (-> & He & H1 & Hb).
  assert (live d1 a = live d a) as El by (unfold live; by rewrite Hb).
  destruct (live d a) as [o|] eqn:E; cbn [fst snd].
  - split; [cbn; by rewrite E|]. pose proof (live_ok _ _ _ (so_objects _ H1) El) as Ho.
    apply (eff_equiv (fun v => v_suicide a true 0 (id v))); [unfold s_Suicide; cbn; by rewrite E|].
    assert (Proper ((≡) ==> (≡)) (v_suicide a true 0)) as HP.
    { intros v w []. split; cbn; unfold upd; intros; try (destruct (_ =? a)); auto. }
    apply (eff_trans id (v_suicide a true 0) d d1); [done|done|].
    eapply eff_put; [done|exact El|by destruct Ho; split|by apply (live_deleted _ _ _ El)|done| |done|done|].
    + apply (put_suicide d1 a o true 0 El).
    + cbn [undo]. change (vExist (v_suicide a true 0 (view_of d1)) a) with (vExist (view_of d1) a).
      assert (vExist (view_of d1) a = true) as -> by (cbn; by rewrite El).
      split; cbn; try done; unfold upd; intros b; destruct (Z.eqb_spec b a) as [->|]; by rewrite ?El.
  - split; [cbn; by rewrite E|]. eapply eff_equiv; [|exact He]. unfold s_Suicide. cbn. by rewrite E.
Qed.

(** *** The refund counter, logs and preimages *)

Lemma refund_eff d r :
  is_u64 r -> sdb_ok d -> eff (s_setRefund r) d (s_refund (append d (refundChange (refund d))) r).
Proof.
  intros Hr H. apply (eff_record (refundChange (refund d))); try done.
  - by destruct (so_objects _ H).
  - destruct (append_records (refundChange (refund d)) d). by split.
Qed.

Lemma AddLog_eff l d : sdb_ok d -> eff (s_AddLog l) d (StateDB_AddLog d l).
Proof.
  intros H. apply (eff_record (addLogChange (thash d))); try done.
  - by destruct (so_objects _ H).
  - destruct (append_records (addLogChange (thash d)) d). by split.
  - split; try done. cbn. unfold GetLogs. cbn. rewrite lookup_insert, decide_True by done. cbn. by rewrite map_app.
  - cbn. by destruct (map log_of (GetLogs d (thash d))).
  - split; try done. cbn. by rewrite removelast_last.
Qed.

Lemma AddPreimage_eff h b d : sdb_ok d -> eff id d (StateDB_AddPreimage d h b).
Proof.
  intros H. unfold StateDB_AddPreimage. destruct (preimages d !! h); [by apply eff_id|].
  apply (eff_record (addPreimageChange h)); try done.
  - by destruct (so_objects _ H).
  - destruct (append_records (addPreimageChange h) d). by split.
Qed.

(** *** Readers *)

Lemma read_eff {A} (none : A) f val d a :
  reads f val -> sdb_ok d ->
  fst (read_object none f d a) = from_option val none (live d a) /\ eff id d (snd (read_object none f d a)).
Proof.
  intros Hf H. destruct (read_object_spec none f val d a Hf (so_objects _ H)) as [E Hc].
  split; [done|by apply eff_cached].
Qed.

Lemma GetCode_eff a d :
  sdb_ok d -> fst (StateDB_GetCode d a) = vCode (view_of d) a /\ eff id d (snd (StateDB_GetCode d a)).
Proof.
  intros H. pose proof (read_eff [] _ _ d a Code_reads H) as [E He]. unfold StateDB_GetCode, read_object in *.
  destruct (getStateObject d a) as [[o|] d1]; [|done]. by destruct (stateObject_Code o) as [c o'].
Qed.

Lemma Exist_eff a d :
  sdb_ok d -> fst (StateDB_Exist d a) = vExist (view_of d) a /\ eff id d (snd (StateDB_Exist d a)).
Proof.
  intros H. pose proof (getStateObject_eff d a H) as Hg. unfold StateDB_Exist.
  destruct (getStateObject d a) as [o d1]. by destruct Hg as (-> & He & _).
Qed.

Lemma Empty_eff a d :
  sdb_ok d -> fst (StateDB_Empty d a) = vEmpty (view_of d) a /\ eff id d (snd (StateDB_Empty d a)).
Proof.
  intros H. pose proof (getStateObject_eff d a H) as Hg. unfold StateDB_Empty.
  destruct (getStateObject d a) as [o d1]. destruct Hg as (-> & He & _). split; [|done]. unfold vEmpty. cbn.
  destruct (live d a) as [o|]; cbn; [|done]. unfold empty. by rewrite sgn_zero.
Qed.

(** *** Snapshots *)

Lemma sorted_push (R : Z -> Z -> Prop) l x y :
  Transitive R -> R x y -> StronglySorted R (l ++ [x]) -> StronglySorted R ((l ++ [x]) ++ [y]).
Proof.
  intros HT Hxy Hs. apply StronglySorted_app_2; [|done|by repeat constructor].
  intros a b Ha Hb%list_elem_of_singleton. subst b. apply elem_of_app in Ha as [Ha|Ha%list_elem_of_singleton]; [|by subst].
  transitivity x; [|done]. by apply (StronglySorted_app_1_elem_of _ _ _ _ x Hs); [|left].
Qed.

Lemma revs_push rs next len :
  0 <= len -> revs_ok rs next len -> revs_ok (rs ++ [MkRevision next len]) (next + 1) len.
Proof.
  intros Hl [I1 I2 I3]. split.
  - rewrite map_app. apply sorted_push; [apply _|cbn; lia|done].
  - rewrite map_app. apply sorted_push; [apply _|cbn; lia|done].
  - apply Forall_app. split; [done|]. by repeat constructor.
Qed.

Lemma Snapshot_eff d :
  sdb_ok d ->
  let '(id, d') := StateDB_Snapshot d in
  sdb_ok d' /\ view_of d' ≡ view_of d /\ snaps_eq (sdb_snaps d') (sdb_snaps d ++ [(id, view_of d)]) /\
  Forall (fun p => fst p < id) (sdb_snaps d).
Proof.
  intros [H1 H2 H3 H4 H5]. cbn [StateDB_Snapshot]. split; [|split; [done|split]].
  - split; [by destruct H1|done|done|done|]. apply revs_push; [apply zlen_nonneg|done].
  - unfold sdb_snaps. cbn. rewrite map_app. apply Forall2_app; [apply (reflexivity (R := snaps_eq))|].
    repeat constructor; cbn; unfold view_at, journal_length, zlen; cbn; by rewrite Nat2Z.id, drop_ge by done.
  - unfold sdb_snaps. apply Forall_fmap, Forall_forall. intros r Hr. cbn.
    apply (StronglySorted_app_1_elem_of _ _ _ _ _ (ro_ids _ _ _ H5)); [|left]. by apply list_elem_of_fmap_2.
Qed.

Lemma sort_Search_spec fuel i j f :
  i <= j -> j - i < Z.of_nat fuel -> (forall x y, i <= x <= y -> y < j -> f x = true -> f y = true) ->
  let r := sort_Search fuel i j f in
  i <= r <= j /\ (forall x, i <= x < r -> f x = false) /\ (r < j -> f r = true).
Proof.
  revert i j. induction fuel as [|fuel IH]; intros i j Hij Hf Hm; [lia|]. cbn [sort_Search].
  destruct (Z.ltb_spec i j); [|by split; [lia|split; [intros; lia|lia]]].
  assert (i <= (i + j) / 2 < j) as Hh by (split; [apply Z.div_le_lower_bound|apply Z.div_lt_upper_bound]; lia).
  destruct (f ((i + j) / 2)) eqn:E; cbn [negb].
  - destruct (IH i ((i + j) / 2)) as (R1 & R2 & R3); [lia|lia|intros x y ? ?; apply Hm; lia|].
    split; [lia|]. split; [done|]. intros _.
    destruct (Z.eq_dec (sort_Search fuel i ((i + j) / 2) f) ((i + j) / 2)) as [->|]; [done|apply R3; lia].
  - destruct (IH ((i + j) / 2 + 1) j) as (R1 & R2 & R3); [lia|lia|intros x y ? ?; apply Hm; lia|].
    split; [lia|]. split; [|done]. intros x Hx. destruct (Z.lt_ge_cases ((i + j) / 2) x); [apply R2; lia|].
    destruct (f x) eqn:Ex; [|done]. by rewrite (Hm x ((i + j) / 2)) in E by (done || lia).
Qed.

(** The binary search finds the revision. *)
Lemma ids_sorted_get rs next i j r r' :
  StronglySorted Z.lt (map rev_id rs ++ [next]) -> zget rs i = Some r -> zget rs j = Some r' ->
  i <= j -> rev_id r <= rev_id r'.
Proof.
  intros Hs%StronglySorted_app_1_l. revert i j. induction rs as [|x rs IH]; intros i j Hi Hj Hij.
  { apply zget_lt in Hi. unfold zlen in Hi. cbn in Hi. lia. }
  inversion Hs as [|? ? Hs' Hf]; subst. pose proof (zget_lt _ _ _ Hi). pose proof (zget_lt _ _ _ Hj).
  unfold zget in *. destruct (Z.leb_spec 0 i), (Z.leb_spec 0 j); try lia.
  destruct (Z.to_nat i) as [|ni] eqn:Ei, (Z.to_nat j) as [|nj] eqn:Ej; cbn in *; try lia; simplify_eq; [lia| |].
  - rewrite Forall_forall in Hf. enough (rev_id r < rev_id r') by lia. apply Hf. apply list_elem_of_fmap_2.
    by eapply list_elem_of_lookup_2.
  - apply (IH Hs' (i - 1) (j - 1)); [| |lia].
    + destruct (Z.leb_spec 0 (i - 1)); [|lia]. by replace (Z.to_nat (i - 1)) with ni by lia.
    + destruct (Z.leb_spec 0 (j - 1)); [|lia]. by replace (Z.to_nat (j - 1)) with nj by lia.
Qed.

Lemma zget_middle {A} (l1 : list A) x l2 : zget (l1 ++ x :: l2) (zlen l1) = Some x.
Proof.
  unfold zget, zlen. destruct (Z.leb_spec 0 (Z.of_nat (length l1))); [|lia]. by rewrite Nat2Z.id, list_lookup_middle.
Qed.

Lemma Search_revision rs1 r rs2 next :
  let rs := rs1 ++ r :: rs2 in
  StronglySorted Z.lt (map rev_id rs ++ [next]) ->
  sort_Search (S (length rs)) 0 (zlen rs)
    (fun i => match zget rs i with Some r' => rev_id r <=? rev_id r' | None => false end) = zlen rs1.
Proof.
  intros rs Hs. set (f := fun i => _).
  assert (zget rs (zlen rs1) = Some r) as Er by apply zget_middle.
  assert (f (zlen rs1) = true) as Hf by (unfold f; rewrite Er; lia).
  assert (forall x, 0 <= x < zlen rs1 -> f x = false) as Hlow.
  { intros x Hx. unfold f. pose proof (zget_lt _ _ _ Er). destruct (zget_Some rs x ltac:(lia)) as (r' & E). rewrite E.
    enough (rev_id r' < rev_id r) by lia.
    apply StronglySorted_app_1_l in Hs. unfold rs in Hs. rewrite map_app in Hs.
    apply (StronglySorted_app_1_elem_of _ _ _ _ _ Hs); [|cbn; left]. apply list_elem_of_fmap_2.
    unfold zget, zlen in *. destruct (Z.leb_spec 0 x); [|done]. unfold rs in E. rewrite lookup_app_l in E by lia.
    by eapply list_elem_of_lookup_2. }
  destruct (sort_Search_spec (S (length rs)) 0 (zlen rs) f) as (R1 & R2 & R3).
  - apply zlen_nonneg.
  - unfold zlen. lia.
  - intros x y Hxy Hy. unfold f. destruct (zget rs x) eqn:Ex; [|done]. destruct (zget_Some rs y ltac:(lia)) as (r' & Ey).
    rewrite Ey. pose proof (ids_sorted_get _ _ _ _ _ _ Hs Ex Ey ltac:(lia)). lia.
  - set (k := sort_Search _ _ _ _) in *. pose proof (zget_lt _ _ _ Er). pose proof (zlen_nonneg rs1).
    destruct (Z.lt_trichotomy k (zlen rs1)) as [Hk|[Hk|Hk]]; [|done|].
    + by rewrite Hlow in R3 by lia; specialize (R3 ltac:(lia)).
    + by rewrite R2 in Hf by lia.
Qed.

Lemma drop_take_split (es : list journalEntry) i j :
  (i <= j <= length es)%nat -> drop i es = drop i (take j es) ++ drop j es.
Proof.
  intros H. rewrite <- (take_drop j es) at 1. rewrite drop_app_le; [done|]. rewrite length_take. lia.
Qed.

(** Cutting the journal at [i] and reverting what is cut off. *)
Lemma journal_revert_spec d i :
  sdb_ok d -> 0 <= i <= zlen (entries (jrnl d)) ->
  exists d', journal_revert d i = Ok d' /\ objects_ok d' /\ view_of d' ≡ view_at d i /\
    trie d' = trie d /\ thash d' = thash d /\ validRevisions d' = validRevisions d /\
    nextRevisionId d' = nextRevisionId d /\ entries (jrnl d') = take (Z.to_nat i) (entries (jrnl d)) /\
    jok (rev (entries (jrnl d'))) (view_of d') /\
    forall a, marks a (entries (jrnl d')) <= default 0 (dirties (jrnl d') !! a).
Proof.
  intros [H1 H2 H3 H4 _] Hi. unfold journal_revert. set (es := entries (jrnl d)) in *. set (n := Z.to_nat i).
  assert (rev es = rev (drop n es) ++ rev (take n es)) as Es by (by rewrite <- rev_app_distr, take_drop).
  assert (forall a l, marks a (rev l) = marks a l) as Hrev.
  { intros a l. unfold marks, zlen. f_equal. apply Permutation_length. by rewrite <- Permutation_rev. }
  destruct (revert_entries_spec (rev (drop n es)) d (rev (take n es))) as (d1 & -> & Ho & Hv & [J1 J2 J3 J4 J5] & Hm).
  - done.
  - apply Forall_rev, Forall_drop. done.
  - by rewrite <- Es.
  - intros a. rewrite <- Es, Hrev. apply H4.
  - cbn [obind]. rewrite zslice_Some by lia. eexists. split; [done|]. cbn. rewrite Z.sub_0_r. fold n.
    split; [by destruct Ho|]. split; [done|]. repeat (split; [done|]).
    split; [|intros a; rewrite <- Hrev; apply Hm].
    change (jok (rev (take n es)) (view_of d1)). eapply jok_proper; [symmetry; exact Hv|].
    apply jok_app. by rewrite <- Es.
Qed.

Lemma Revert_eff d rs1 r rs2 :
  sdb_ok d -> validRevisions d = rs1 ++ r :: rs2 ->
  exists d', StateDB_RevertToSnapshot d (rev_id r) = Ok d' /\ sdb_ok d' /\ view_of d' ≡ view_at d (journalIndex r) /\
    snaps_eq (sdb_snaps d') (map (fun r => (rev_id r, view_at d (journalIndex r))) rs1) /\
    nextRevisionId d' = nextRevisionId d.
Proof.
  intros H Er. pose proof (so_revs _ H) as [I1 I2 I3].
  assert (0 <= journalIndex r <= zlen (entries (jrnl d))) as Hi.
  { apply (idx_sorted _ _ _ r (so_revs _ H)). rewrite Er. apply elem_of_app. right. left. }
  destruct (journal_revert_spec d (journalIndex r) H Hi) as (d1 & E & Ho & Hv & T1 & T2 & T3 & T4 & T5 & Hj & Hm).
  unfold StateDB_RevertToSnapshot. rewrite Er in *. rewrite (Search_revision rs1 r rs2 _ I1), zget_middle, Z.eqb_refl.
  cbn [negb]. rewrite E. cbn [obind]. eexists. split; [done|]. rewrite T3. unfold zlen. rewrite Nat2Z.id, take_app_length.
  set (d' := s_revisions _ _ _).
  assert (revs_ok rs1 (nextRevisionId d) (journalIndex r)) as Hr.
  { rewrite map_app, <- app_assoc in I1, I2. split.
    - apply StronglySorted_app_2; [|by apply StronglySorted_app_1_l in I1|by repeat constructor].
      intros x y Hx Hy%list_elem_of_singleton. subst y. apply (StronglySorted_app_1_elem_of _ _ _ _ _ I1); [done|].
      apply elem_of_app. right. left.
    - change (map journalIndex (r :: rs2)) with ([journalIndex r] ++ map journalIndex rs2) in I2.
      rewrite <- app_assoc, app_assoc in I2. by apply StronglySorted_app_1_l in I2.
    - by apply Forall_app in I3 as [? _]. }
  split; [split|split; [done|split; [|done]]].
  - by destruct Ho.
  - cbn. rewrite T1, T2, T5. apply Forall_take, H.
  - exact Hj.
  - exact Hm.
  - cbn. rewrite T4, T5. unfold zlen in *. rewrite length_take, Nat.min_l by lia. by rewrite Z2Nat.id by lia.
  - unfold sdb_snaps. cbn. unfold snaps_eq. apply Forall2_fmap, Forall_Forall2_diag, Forall_forall. intros r' Hr'.
    split; [done|]. cbn. unfold view_at at 1. cbn. pose proof (idx_sorted _ _ _ r' Hr Hr') as Hi'. rewrite T5.
    etransitivity; [apply unwind_proper; exact Hv|].
    unfold view_at, zlen in *. rewrite <- unwind_app, <- rev_app_distr, <- drop_take_split by lia. done.
Qed.
End methods.

(** ** Pending objects

    The addresses in [stateObjectsPending] have objects, which no revert removes. *)

Section pending.
Context {SS : StateStore} {K : Keccak}.

Definition pending_ok (d : statedb) : Prop :=
  forall a, a ∈ stateObjectsPending d -> is_Some (stateObjects d !! a) /\ createObjectChange a ∉ entries (jrnl d).

(** Objects are added, and created only where there was none. *)
Record grows (d d' : statedb) : Prop := MkGrows {
  gr_pending : stateObjectsPending d' = stateObjectsPending d;
  gr_objects : forall a, is_Some (stateObjects d !! a) -> is_Some (stateObjects d' !! a);
  gr_entries : forall a, createObjectChange a ∈ entries (jrnl d') -> createObjectChange a ∈ entries (jrnl d) \/ stateObjects d !! a = None;
}.

Lemma db_grows_refl d : grows d d.
Proof. split; [done|done|by left]. Qed.

Lemma db_grows_trans d1 d2 d3 : grows d1 d2 -> grows d2 d3 -> grows d1 d3.
Proof.
  intros [P1 O1 E1] [P2 O2 E2]. split; [congruence|auto|]. intros a H. destruct (E2 a H) as [H'|H']; [by apply E1|].
  right. destruct (stateObjects d1 !! a) eqn:E; [|done]. destruct (O1 a) as [o Ho]; [by rewrite E|congruence].
Qed.

Lemma grows_pending d d' : grows d d' -> pending_ok d -> pending_ok d'.
Proof.
  intros [P O E] H a. rewrite P. intros Ha. destruct (H a Ha) as [[o Ho] Hn]. split; [apply O; by rewrite Ho|].
  intros Hc. destruct (E a Hc); [done|congruence].
Qed.

Lemma grows_put d o : grows d (setStateObject d o).
Proof. split; [done| |by left]. intros a H. cbn. rewrite lookup_insert. by case_decide. Qed.

Lemma grows_append d e : (forall a, e <> createObjectChange a) -> grows d (append d e).
Proof.
  intros He. split; [done|done|]. intros a. unfold append, journal_append. cbn [s_journal jrnl]. intros H. left.
  assert (entries (match dirtied e with Some a => dirty (MkJournal (entries (jrnl d) ++ [e]) (dirties (jrnl d))) a | None => MkJournal (entries (jrnl d) ++ [e]) (dirties (jrnl d)) end)
    = entries (jrnl d) ++ [e]) as E by (by destruct (dirtied e)).
  rewrite E in H. apply elem_of_app in H as [H|H%list_elem_of_singleton]; [done|]. by destruct (He a).
Qed.

Lemma grows_getDeleted d a : grows d (snd (getDeletedStateObject d a)).
Proof. unfold getDeletedStateObject. repeat case_match; cbn [snd]; try apply db_grows_refl; [apply grows_put|split; [done|done|by left]]. Qed.

Lemma grows_get d a : grows d (snd (getStateObject d a)).
Proof. pose proof (grows_getDeleted d a). unfold getStateObject. destruct (getDeletedStateObject d a) as [[o|] d']; [by destruct (deleted o)|done]. Qed.

Lemma grows_createObject d a : grows d (snd (createObject d a)).
Proof.
  unfold createObject. pose proof (grows_getDeleted d a) as H. destruct (getDeletedStateObject d a) as [prev d1] eqn:E. cbn [snd] in H.
  assert (grows d (match prev with None => append d1 (createObjectChange a) | Some prev => append d1 (resetObjectChange prev false) end)) as H2.
  { destruct prev as [prev|]; [eapply db_grows_trans; [exact H|by apply grows_append]|]. destruct H as [P O En]. split; [done|done|].
    intros b. unfold append, journal_append. cbn [s_journal jrnl dirtied dirty entries]. intros [Hb|Hb%list_elem_of_singleton]%elem_of_app; [by apply En|].
    injection Hb as ->. right. unfold getDeletedStateObject in E. by destruct (stateObjects d !! a). }
  set (d2 := match prev with None => _ | Some _ => _ end) in *. clearbody d2.
  destruct prev as [prev|]; [destruct (deleted prev)|]; cbn [snd]; (eapply db_grows_trans; [exact H2|apply grows_put]).
Qed.

Lemma grows_GetOrNew d a : grows d (snd (GetOrNewStateObject d a)).
Proof.
  unfold GetOrNewStateObject. pose proof (grows_get d a) as H. destruct (getStateObject d a) as [[o|] d1]; [done|]. cbn [snd] in H.
  pose proof (grows_createObject d1 a) as H2. destruct (createObject d1 a) as [[o p] d2]. by eapply db_grows_trans.
Qed.

Lemma grows_read {A} none (f : stateObject -> A * stateObject) d a : grows d (snd (read_object none f d a)).
Proof.
  unfold read_object. pose proof (grows_get d a) as H. destruct (getStateObject d a) as [[o|] d1]; [|done]. destruct (f o) as [x o']. cbn [snd] in *.
  eapply db_grows_trans; [exact H|apply grows_put].
Qed.

(** A change of fields other than the objects, the journal and the set. *)
Lemma grows_fields d d' : stateObjectsPending d' = stateObjectsPending d -> stateObjects d' = stateObjects d -> entries (jrnl d') = entries (jrnl d) -> grows d d'.
Proof. intros P O E. split; [done|by rewrite O|]. rewrite E. by left. Qed.

Lemma grows_then d a (f : stateObject -> statedb -> statedb) : (forall o d, grows d (f o d)) ->
  grows d (let '(o, d) := GetOrNewStateObject d a in f o d).
Proof. intros Hf. pose proof (grows_GetOrNew d a) as H. destruct (GetOrNewStateObject d a) as [o d1]. eapply db_grows_trans; [exact H|apply Hf]. Qed.

Lemma grows_append_then d e d' : (forall a, e <> createObjectChange a) -> grows (append d e) d' -> grows d d'.
Proof. intros He H. eapply db_grows_trans; [by apply grows_append|done]. Qed.

Lemma grows_SetBalance d o x : grows d (stateObject_SetBalance d o x).
Proof. eapply grows_append_then; [|apply grows_put]. done. Qed.

Lemma grows_AddBalance d o x : grows d (stateObject_AddBalance d o x).
Proof.
  unfold stateObject_AddBalance. destruct (Z.sgn x =? 0); [|apply grows_SetBalance]. destruct (empty o); [|apply db_grows_refl].
  eapply (grows_append_then d (touchChange (address o))); [done|]. unfold touch. destruct (address o =? ripemd); [by apply grows_fields|apply db_grows_refl].
Qed.

Lemma grows_SubBalance d o x : grows d (stateObject_SubBalance d o x).
Proof. unfold stateObject_SubBalance. destruct (Z.sgn x =? 0); [apply db_grows_refl|apply grows_SetBalance]. Qed.

Lemma grows_SetCode d o h c : grows d (stateObject_SetCode d o h c).
Proof. unfold stateObject_SetCode. destruct (stateObject_Code o). eapply grows_append_then; [|apply grows_put]. done. Qed.

Lemma grows_SetState d o k x : grows d (stateObject_SetState d o k x).
Proof.
  unfold stateObject_SetState. destruct (fakeStorage o); [apply grows_put|]. destruct (stateObject_GetState o k) as [p o1].
  eapply db_grows_trans; [apply grows_put|]. destruct (p =? x); [apply db_grows_refl|]. eapply grows_append_then; [|apply grows_put]. done.
Qed.

Lemma grows_CreateAccount d a : grows d (StateDB_CreateAccount d a).
Proof.
  unfold StateDB_CreateAccount. pose proof (grows_createObject d a) as H. destruct (createObject d a) as [[o [p|]] d1]; cbn [snd] in H; [|done].
  eapply db_grows_trans; [exact H|apply grows_put].
Qed.

Lemma grows_Suicide d a : grows d (snd (StateDB_Suicide d a)).
Proof.
  unfold StateDB_Suicide. pose proof (grows_get d a) as H. destruct (getStateObject d a) as [[o|] d1]; [|done]. cbn [snd] in *.
  eapply db_grows_trans; [exact H|]. eapply grows_append_then; [|apply grows_put]. done.
Qed.

Lemma grows_AddPreimage d h b : grows d (StateDB_AddPreimage d h b).
Proof. unfold StateDB_AddPreimage. destruct (preimages d !! h); [apply db_grows_refl|]. eapply (grows_append_then d (addPreimageChange h)); [done|by apply grows_fields]. Qed.

Lemma grows_SubRefund d g d' : StateDB_SubRefund d g = Ok d' -> grows d d'.
Proof. unfold StateDB_SubRefund. case_match; [done|]. intros [= <-]. eapply (grows_append_then d (refundChange (refund d))); [done|by apply grows_fields]. Qed.

(** Reverting removes only objects it has an entry for. *)
Definition keeps (P : Address -> Prop) (d d' : statedb) : Prop :=
  stateObjectsPending d' = stateObjectsPending d /\ forall a, P a -> is_Some (stateObjects d !! a) -> is_Some (stateObjects d' !! a).

Lemma revert_entry_keeps e d d' : revert_entry e d = Ok d' -> keeps (fun a => e <> createObjectChange a) d d'.
Proof.
  assert (grows d d' -> keeps (fun a => e <> createObjectChange a) d d') as Hg by (intros []; split; auto).
  assert (forall b f, with_object d b f = Ok d' -> grows d d') as Hw.
  { intros b f. unfold with_object. pose proof (grows_get d b) as H. destruct (getStateObject d b) as [[o|] e2]; [|done].
    intros [= <-]. eapply db_grows_trans; [exact H|apply grows_put]. }
  destruct e as [b|prev pd|b p x|b x|b x|b k x|b c h|x|th|h|b]; cbn [revert_entry]; intros E; try (by apply Hg; eapply Hw); try (by injection E as <-).
  - injection E as <-. split; [done|]. intros a Hne. cbn. by rewrite lookup_delete_ne by congruence.
  - injection E as <-. apply Hg, grows_put.
  - apply Hg. pose proof (grows_get d b) as H. destruct (getStateObject d b) as [[o|] d1]; injection E as <-; [|done]. eapply db_grows_trans; [exact H|apply grows_put].
  - repeat case_match; try done; by injection E as <-.
Qed.

Lemma revert_entries_keeps es : forall d d', revert_entries es d = Ok d' -> keeps (fun a => createObjectChange a ∉ es) d d'.
Proof.
  induction es as [|e es IH]; intros d d'; cbn [revert_entries]; [by intros [= <-]|]. intros E.
  destruct (revert_entry e d) as [d1|p|] eqn:E1; [|done|done]. cbn [obind] in E. destruct (revert_entry_keeps e d d1 E1) as [P1 O1].
  apply IH in E as [P2 O2]. split; [rewrite P2; by destruct (dirtied e)|]. intros a [Hne Hn]%not_elem_of_cons Ha.
  apply O2; [done|]. destruct (dirtied e); apply O1; (done || congruence).
Qed.

Lemma Revert_pending d i d' : StateDB_RevertToSnapshot d i = Ok d' -> pending_ok d -> pending_ok d'.
Proof.
  unfold StateDB_RevertToSnapshot. destruct (zget _ _) as [r|]; [|done]. destruct (negb _); [done|]. unfold journal_revert.
  destruct (revert_entries _ d) as [d1|p|] eqn:E1; [|done|done]. cbn [obind]. destruct (zslice _ 0 _) as [es|] eqn:Es; [|done]. cbn [obind]. intros [= <-] H a Ha.
  destruct (revert_entries_keeps _ _ _ E1) as [P O]. cbn in Ha. rewrite P in Ha. destruct (H a Ha) as [Ho Hn]. cbn. split.
  - apply O; [|done]. intros Hin. apply Hn. apply list_elem_of_In in Hin. rewrite <- in_rev in Hin. apply list_elem_of_In in Hin. by eapply subseteq_drop.
  - intros Hin. apply Hn. apply zslice_inv in Es as (_ & _ & _ & ->). rewrite drop_0 in Hin. by eapply subseteq_take.
Qed.

(** What [Finalise] leaves. *)
Lemma finalise_addr_pending del d a :
  (forall b, is_Some (stateObjects d !! b) -> is_Some (stateObjects (finalise_addr del d a) !! b)) /\
  (forall b, b ∈ stateObjectsPending (finalise_addr del d a) -> b ∈ stateObjectsPending d \/ is_Some (stateObjects (finalise_addr del d a) !! b)).
Proof.
  unfold finalise_addr. destruct (stateObjects d !! a) as [o|] eqn:E; [|by split; [|by left]]. cbn [stateObjects s_marks s_objects stateObjectsPending].
  split; intros b; rewrite lookup_insert; [by case_decide|]. intros [->%elem_of_singleton|Hb]%elem_of_union; [right|by left]. by rewrite decide_True.
Qed.

Lemma Finalise_pending d del : pending_ok d -> entries (jrnl (Finalise d del)) = [] -> pending_ok (Finalise d del).
Proof.
  intros H He a Ha. rewrite He. split; [|by apply not_elem_of_nil]. revert Ha. unfold Finalise. set (l := elements _). clearbody l.
  assert (forall b, b ∈ stateObjectsPending d -> is_Some (stateObjects d !! b)) as H1 by (intros b Hb; apply (H b Hb)). clear H He.
  assert (forall d, stateObjectsPending (clearJournalAndRefund d) = stateObjectsPending d /\ stateObjects (clearJournalAndRefund d) = stateObjects d) as Hc.
  { intros e. unfold clearJournalAndRefund. by case_match. }
  destruct (Hc (fold_left (finalise_addr del) l d)) as [-> ->]. revert d H1. induction l as [|b l IH]; intros d H1; cbn [fold_left]; [apply H1|].
  apply IH. intros c Hb. destruct (finalise_addr_pending del d b) as [O P]. destruct (P c Hb) as [?|?]; [by apply O, H1|done].
Qed.
End pending.

(** ** The instance *)

Section instance.
Context {SS : StateStore} {K : Keccak}.

#[export] Instance statedb_StateDB : StateDB := {|
  DB := statedb;
  CreateAccount a d := StateDB_CreateAccount d a;
  SubBalance a x d := StateDB_SubBalance d a x;
  AddBalance a x d := StateDB_AddBalance d a x;
  GetBalance a d := StateDB_GetBalance d a;
  GetNonce a d := StateDB_GetNonce d a;
  SetNonce a x d := StateDB_SetNonce d a x;
  GetCodeHash a d := StateDB_GetCodeHash d a;
  GetCode a d := StateDB_GetCode d a;
  SetCode a c d := StateDB_SetCode d a c;
  GetCodeSize a d := StateDB_GetCodeSize d a;
  AddRefund g d := StateDB_AddRefund d g;
  SubRefund g d := StateDB_SubRefund d g;
  GetRefund d := StateDB_GetRefund d;
  GetCommittedState a k d := StateDB_GetCommittedState d a k;
  GetState a k d := StateDB_GetState d a k;
  SetState a k x d := StateDB_SetState d a k x;
  Suicide a d := StateDB_Suicide d a;
  HasSuicided a d := StateDB_HasSuicided d a;
  Exist a d := StateDB_Exist d a;
  Empty a d := StateDB_Empty d a;
  RevertToSnapshot i d := StateDB_RevertToSnapshot d i;
  Snapshot d := StateDB_Snapshot d;
  AddLog l d := StateDB_AddLog d l;
  AddPreimage h b d := StateDB_AddPreimage d h b;
|}.

Context {SL : StateStoreLaws SS}.

Lemma refund_range d : sdb_ok d -> is_u64 (refund d).
Proof. intros [_ _ Hj _ _]. destruct (rev (entries (jrnl d))); by destruct Hj as (_ & ? & _). Qed.

Lemma view_of_ok d : objects_ok d -> is_u64 (refund d) -> view_ok (view_of d).
Proof.
  intros H Hr. split; cbn; [intros a..|].
  - intros Ha%bool_decide_eq_false. destruct (live d a); [by destruct Ha|]. done.
  - intros Ha%bool_decide_eq_true. destruct (live d a) as [o|] eqn:E; [|by destruct Ha]. cbn.
    apply (live_ok _ _ _ H E).
  - destruct (live d a) as [o|] eqn:E; cbn; [|by constructor]. apply (live_ok _ _ _ H E).
  - done.
Qed.

Lemma Revert_snaps d l1 i v l2 :
  sdb_ok d -> snaps_eq (sdb_snaps d) (l1 ++ (i, v) :: l2) ->
  exists d', StateDB_RevertToSnapshot d i = Ok d' /\ sdb_ok d' /\ view_of d' ≡ v /\ snaps_eq (sdb_snaps d') l1 /\
    nextRevisionId d' = nextRevisionId d.
Proof.
  intros H Hs. unfold sdb_snaps at 1, snaps_eq in Hs.
  apply Forall2_app_inv_r in Hs as (k1 & k2 & S1 & S2 & E). inversion S2 as [|p ? k2' ? [Ei Ev] S2' Ek]; subst.
  apply fmap_app_inv in E as (rs1 & rs2 & -> & E2 & Er).
  symmetry in E2. apply fmap_cons_inv in E2 as (r & rs2' & -> & _ & ->). cbn in Ei, Ev. subst i.
  destruct (Revert_eff d rs1 r rs2' H Er) as (d' & E & Hd & Hv & Hsn & Hn).
  exists d'. split; [done|]. split; [done|]. split; [by rewrite Hv|]. split; [by etransitivity|done].
Qed.

Lemma SubRefund_eff g d :
  sdb_ok d ->
  if vRefund (view_of d) <? g then StateDB_SubRefund d g = Panic PanicRefund
  else exists d', StateDB_SubRefund d g = Ok d' /\ eff (s_SubRefund g) d d'.
Proof.
  intros H. unfold StateDB_SubRefund. cbn. destruct (refund d <? g); [done|].
  eexists. split; [done|]. apply (eff_equiv (s_setRefund (u64 (refund d - g)))); [done|]. by apply refund_eff; [apply u64_range|].
Qed.

Definition db_good (d : statedb) : Prop := sdb_ok d /\ pending_ok d.

Lemma eff_effect f d d' :
  db_good d -> eff f d d' -> grows d d' -> db_good d' /\ view_of d' ≡ f (view_of d) /\ snaps_eq (sdb_snaps d') (sdb_snaps d).
Proof. intros [_ Hp] (H & V & S & _) Hg. split; [|done]. split; [done|]. by eapply grows_pending. Qed.

Lemma eff_read {A} (x y : A) f d d' :
  db_good d -> x = y /\ eff f d d' -> grows d d' ->
  x = y /\ db_good d' /\ view_of d' ≡ f (view_of d) /\ snaps_eq (sdb_snaps d') (sdb_snaps d).
Proof. intros H [E He] Hg. split; [done|by apply eff_effect]. Qed.

#[export] Instance statedb_StateDBSpec : StateDBSpec statedb_StateDB K.
Proof.
  refine {| db_ok := db_good : @DB statedb_StateDB -> Prop; view := view_of : @DB statedb_StateDB -> View;
            snaps := sdb_snaps : @DB statedb_StateDB -> list (Z * View) |}.
  - intros d [H _]. apply view_of_ok; [apply H|]. by apply refund_range.
  - intros a d H. exact (eff_effect _ _ _ H (CreateAccount_eff a d (proj1 H)) (grows_CreateAccount d a)).
  - intros a x d H. exact (eff_effect _ _ _ H (SubBalance_eff a x d (proj1 H)) (grows_then d a _ (fun o d => grows_SubBalance d o x))).
  - intros a x d H. exact (eff_effect _ _ _ H (AddBalance_eff a x d (proj1 H)) (grows_then d a _ (fun o d => grows_AddBalance d o x))).
  - intros a x d H. apply (eff_effect _ _ _ H (SetNonce_eff a x d (proj1 H))), grows_then.
    intros o e. by eapply grows_append_then; [|apply grows_put].
  - intros a c d H Hc. exact (eff_effect _ _ _ H (SetCode_eff a c d (proj1 H) Hc) (grows_then d a _ (fun o d => grows_SetCode d o _ c))).
  - intros a k x d H. exact (eff_effect _ _ _ H (SetState_eff a k x d (proj1 H)) (grows_then d a _ (fun o d => grows_SetState d o k x))).
  - intros g d H. apply (eff_effect _ _ _ H); [|eapply (grows_append_then d (refundChange (refund d))); [done|by apply grows_fields]].
    apply (eff_equiv (s_setRefund (u64 (refund d + g)))); [done|]. by apply refund_eff; [apply u64_range|apply H].
  - intros l d H. apply (eff_effect _ _ _ H (AddLog_eff l d (proj1 H))). eapply (grows_append_then d (addLogChange (thash d))); [done|by apply grows_fields].
  - intros h b d H. exact (eff_effect _ _ _ H (AddPreimage_eff h b d (proj1 H)) (grows_AddPreimage d h b)).
  - intros a d H. exact (eff_read _ _ _ _ _ H (Suicide_eff a d (proj1 H)) (grows_Suicide d a)).
  - intros a d H. apply (eff_read _ _ _ _ _ H); [|apply grows_read]. by apply read_eff; [apply reads_field|apply H].
  - intros a d H. apply (eff_read _ _ _ _ _ H); [|apply grows_read]. by apply read_eff; [apply reads_field|apply H].
  - intros a d H. apply (eff_read _ _ _ _ _ H); [|apply grows_read]. by apply read_eff; [apply reads_field|apply H].
  - intros a d H. apply (eff_read _ _ _ _ _ H (GetCode_eff a d (proj1 H))). pose proof (grows_read None stateObject_Code d a) as Hg.
    unfold StateDB_GetCode. by destruct (read_object None stateObject_Code d a).
  - intros a d H. destruct (read_eff 0 _ _ d a CodeSize_reads (proj1 H)) as [E He]. split; [|by apply eff_effect; [|exact He|apply grows_read]].
    etransitivity; [exact E|]. cbn. by destruct (live d a).
  - intros a k d H. exact (eff_read _ _ _ _ _ H (read_eff 0 _ _ d a (GetState_reads k) (proj1 H)) (grows_read _ _ d a)).
  - intros a k d H. exact (eff_read _ _ _ _ _ H (read_eff 0 _ _ d a (GetCommittedState_reads k) (proj1 H)) (grows_read _ _ d a)).
  - intros a d H. apply (eff_read _ _ _ _ _ H); [|apply grows_read]. by apply read_eff; [apply reads_field|apply H].
  - intros a d H. apply (eff_read _ _ _ _ _ H (Exist_eff a d (proj1 H))). pose proof (grows_get d a) as Hg. unfold StateDB_Exist. by destruct (getStateObject d a).
  - intros a d H. apply (eff_read _ _ _ _ _ H (Empty_eff a d (proj1 H))). pose proof (grows_get d a) as Hg. unfold StateDB_Empty. by destruct (getStateObject d a).
  - done.
  - intros g d H. pose proof (SubRefund_eff g d (proj1 H)) as Hs. change (view_of d) with (view_of (d : statedb)) in Hs.
    destruct (vRefund (view_of d) <? g); [done|]. destruct Hs as (d' & E & He). exists d'. split; [done|]. exact (eff_effect _ _ _ H He (grows_SubRefund d g d' E)).
  - intros d [H Hp]. destruct (Snapshot_eff d H) as (? & ? & ?). by split.
  - intros d l1 i v l2 [H Hp] Hs. destruct (Revert_snaps d l1 i v l2 H Hs) as (d' & E & ? & ? & ? & _). exists d'.
    split; [done|]. split; [split; [done|by eapply Revert_pending]|done].
Defined.
End instance.
