(* ===== verification/StateDBTheorems.v ===== *)
(** * The theorems about the state database

    [core/state] against the reference machine of VmSpec, the end of a transaction
    ([Finalise]), what the journal does not cover, and the root of the state
    ([IntermediateRoot]). *)

From Stdlib Require Import ZArith Lia Sorting.Sorted.
From S2P Require Import Prelude Common Params Uint256 Rlp Crypto VmMemory VmAnalysis VmState VmSpec VmMemFacts StateDB StateDBView StateDBRefine.

Open Scope go_scope.

(** ** The end of a transaction *)

Section finalise.
Context {SS : StateStore} {K : Keccak}.

(** The accounts [Finalise] visits: marked by the journal and loaded. *)
Definition visited (d : statedb) (a : Address) : bool :=
  bool_decide (a ∈ dom (dirties (jrnl d))) && bool_decide (a ∈ dom (stateObjects d)).

(** The view at the end of a transaction: the visited accounts that destructed
    themselves, or that are empty, are gone; what is left of the storage is the
    committed storage of the next transaction. *)
Definition v_Finalise (deleteEmptyObjects : bool) (vis : Address -> bool) (v : View) : View :=
  let gone a := vis a && (vSuicided v a || (deleteEmptyObjects && vEmpty v a)) in
  let keep {A} (x : A) a y := if gone a then x else y in
  MkView (fun a => keep false a (vExist v a)) (fun a => keep 0 a (vBalance v a)) (fun a => keep 0 a (vNonce v a))
    (fun a => keep [] a (vCode v a)) (fun a => keep 0 a (vCodeHash v a))
    (fun a k => keep 0 a (vState v a k)) (fun a k => keep 0 a (vState v a k))
    (fun _ => false) 0 (vLogs v).

Definition fin_object (del : bool) (o : stateObject) : stateObject :=
  if suicided o || (del && empty o) then o_flags o (suicided o) true else finalise o.

Lemma fold_finalise del l d :
  NoDup l ->
  let d' := fold_left (finalise_addr del) l d in
  same_rest d d' /\
  forall a, stateObjects d' !! a = if decide (a ∈ l) then fin_object del <$> stateObjects d !! a else stateObjects d !! a.
Proof.
  revert d. induction l as [|b l IH]; intros d Hl; cbn [fold_left].
  { split; [apply same_rest_refl|]. intros a. rewrite decide_False; [done|apply not_elem_of_nil]. }
  apply NoDup_cons in Hl as [Hb Hl]. destruct (IH (finalise_addr del d b) Hl) as [Hr Ho].
  assert (same_rest d (finalise_addr del d b) /\ forall a, stateObjects (finalise_addr del d b) !! a =
    if decide (a = b) then fin_object del <$> stateObjects d !! a else stateObjects d !! a) as [Hr' Ho'].
  { unfold finalise_addr, fin_object. destruct (stateObjects d !! b) as [o|] eqn:E.
    - split; [by split|]. intros a. cbn. rewrite lookup_insert. destruct (decide (b = a)) as [->|].
      + rewrite decide_True, E by done. done.
      + rewrite decide_False by congruence. done.
    - split; [apply same_rest_refl|]. intros a. case_decide; [subst; by rewrite E|done]. }
  split; [by eapply same_rest_trans|]. intros a. rewrite Ho, Ho'.
  destruct (decide (a = b)) as [->|Hab].
  - rewrite (decide_False (P := b ∈ l)) by done. rewrite decide_True by left. done.
  - destruct (decide (a ∈ l)); [rewrite decide_True by (by right); done|].
    rewrite decide_False; [done|]. intros [?|?]%elem_of_cons; done.
Qed.

Lemma fin_ok del a o : obj_ok a o -> obj_ok a (fin_object del o).
Proof. intros [H1 H2 H3 H4]. unfold fin_object. by destruct (suicided o || (del && empty o)). Qed.

Lemma finalise_state o k : state_val (finalise o) k = state_val o k /\ committed_val (finalise o) k = state_val o k.
Proof.
  unfold state_val, committed_val. cbn. rewrite lookup_union, lookup_empty.
  by destruct (dirtyStorage o !! k), (pendingStorage o !! k).
Qed.

Lemma live_Finalise del d a :
  live (Finalise d del) a =
  match live d a with
  | Some o => if visited d a then (if suicided o || (del && empty o) then None else Some (finalise o)) else Some o
  | None => None
  end.
Proof.
  destruct (fold_finalise del (elements (dom (dirties (jrnl d)))) d (NoDup_elements _)) as [Hr Ho].
  unfold live, object, visited.
  assert (stateObjects (Finalise d del) !! a = stateObjects (fold_left (finalise_addr del) (elements (dom (dirties (jrnl d)))) d) !! a) as ->.
  { unfold Finalise, clearJournalAndRefund. by destruct (0 <? _). }
  assert (trie (Finalise d del) = trie d) as ->.
  { rewrite <- (sr_trie _ _ Hr). unfold Finalise, clearJournalAndRefund. by destruct (0 <? _). }
  rewrite Ho. unfold fin_object. destruct (stateObjects d !! a) as [o|] eqn:E.
  - rewrite (bool_decide_true (a ∈ dom (stateObjects d))) by (apply elem_of_dom; eauto). rewrite andb_true_r.
    destruct (decide (a ∈ elements (dom (dirties (jrnl d))))) as [Hin|Hin]; rewrite elem_of_elements in Hin.
    + rewrite bool_decide_true by done. cbn. destruct (deleted o) eqn:Ed, (suicided o || (del && empty o)) eqn:Eg; cbn; by rewrite ?Ed, ?Eg.
    + rewrite bool_decide_false by done. cbn. by destruct (deleted o).
  - rewrite (bool_decide_false (a ∈ dom (stateObjects d))) by (intros [? ?]%elem_of_dom; congruence).
    rewrite andb_false_r. case_decide; cbn; by destruct (undeleted (load (trie d) a)).
Qed.

(** Accounts that are not visited are settled. *)
Lemma unvisited_settled d a : sdb_ok d -> visited d a = false -> settled (view_of d) a.
Proof.
  intros [H1 H2 H3 H4 H5]. unfold visited. rewrite andb_false_iff, !bool_decide_eq_false. intros [Ha|Ha].
  - assert (undirtied a (rev (entries (jrnl d)))) as Hu.
    { apply Forall_rev, Forall_forall. intros e He Ed. specialize (H4 a).
      apply not_elem_of_dom in Ha. rewrite Ha in H4. unfold marks, zlen in H4. cbn in H4.
      destruct (filter (fun e => dirtied e = Some a) (entries (jrnl d))) eqn:Ef; [|cbn in H4; lia].
      assert (e ∈ filter (fun e => dirtied e = Some a) (entries (jrnl d))) as Hin by (by apply list_elem_of_filter).
      rewrite Ef in Hin. by apply not_elem_of_nil in Hin. }
    destruct (rev (entries (jrnl d))); destruct H3 as [H3 _]; auto.
  - apply not_elem_of_dom in Ha. unfold settled. cbn. unfold live, object. rewrite Ha. unfold load.
    destruct (TryGet_account (trie d) a) as [[|x enc]|]; try done.
    by destruct (decodeAccount (x :: enc)).
Qed.

Lemma Finalise_kept d del :
  sdb_ok d ->
  trie (Finalise d del) = trie d /\ thash (Finalise d del) = thash d /\ refund (Finalise d del) = 0 /\
  GetLogs (Finalise d del) (thash d) = GetLogs d (thash d) /\ entries (jrnl (Finalise d del)) = [] /\
  (forall a, 0 <= default 0 (dirties (jrnl (Finalise d del)) !! a)) /\ validRevisions (Finalise d del) = [].
Proof.
  intros H. destruct (fold_finalise del (elements (dom (dirties (jrnl d)))) d (NoDup_elements _)) as [[R1 R2 R3 R4 R5 R6 R7] _].
  unfold Finalise, clearJournalAndRefund. set (d1 := fold_left _ _ _) in *. rewrite R5. unfold GetLogs.
  destruct (Z.ltb_spec 0 (zlen (entries (jrnl d)))) as [Hl|Hl]; cbn; rewrite ?R1, ?R2, ?R3, ?R4, ?R5.
  - split_and!; done.
  - assert (entries (jrnl d) = []) as E by (destruct (entries (jrnl d)); [done|unfold zlen in Hl; cbn in Hl; lia]).
    pose proof (so_journal _ H) as Hj. rewrite E in Hj. destruct Hj as (_ & _ & Hj). cbn in Hj.
    rewrite E, Hj. split_and!; try done. intros a. etransitivity; [|apply (so_dirties _ H a)]. apply zlen_nonneg.
Qed.

Lemma Finalise_objects d del : sdb_ok d -> objects_ok (Finalise d del).
Proof.
  intros H. destruct (fold_finalise del (elements (dom (dirties (jrnl d)))) d (NoDup_elements _)) as [Hr Ho].
  destruct (so_objects _ H) as [H1 H2]. destruct (Finalise_kept d del H) as (E & _). split.
  - intros a o. assert (stateObjects (Finalise d del) !! a =
      stateObjects (fold_left (finalise_addr del) (elements (dom (dirties (jrnl d)))) d) !! a) as ->
      by (unfold Finalise, clearJournalAndRefund; by destruct (0 <? _)).
    rewrite Ho. case_decide; [|apply H1]. destruct (stateObjects d !! a) as [o'|] eqn:Eo; [|done].
    intros [= <-]. by apply fin_ok, H1.
  - intros a o. assert (stateObjects (Finalise d del) !! a =
      stateObjects (fold_left (finalise_addr del) (elements (dom (dirties (jrnl d)))) d) !! a) as ->
      by (unfold Finalise, clearJournalAndRefund; by destruct (0 <? _)).
    rewrite Ho, E. case_decide; [|apply H2]. destruct (stateObjects d !! a) eqn:Eo; [done|]. intros _. by apply H2.
Qed.

Lemma Finalise_view d del : sdb_ok d -> view_of (Finalise d del) ≡ v_Finalise del (visited d) (view_of d).
Proof.
  intros H. destruct (Finalise_kept d del H) as (_ & Et & Er & El & _).
  assert (forall a, (vSuicided (view_of d) a || (del && vEmpty (view_of d) a)) =
    match live d a with Some o => suicided o || (del && empty o) | None => del end) as Hg.
  { intros a. unfold vEmpty. cbn. destruct (live d a) as [o|]; cbn; [|by rewrite andb_true_r].
    unfold empty. by rewrite sgn_zero. }
  assert (forall a, visited d a = false -> forall o, live d a = Some o ->
    suicided o = false /\ forall k, committed_val o k = state_val o k) as Hset.
  { intros a Ha o Ho. destruct (unvisited_settled d a H Ha) as [S1 S2]. cbn in S1, S2. rewrite Ho in S1, S2.
    split; [done|]. intros k. symmetry. apply S1. }
  split; cbn [v_Finalise vExist vBalance vNonce vCode vCodeHash vState vCommitted vSuicided vRefund vLogs].
  all: try (intros a; rewrite ?Hg; cbn; rewrite live_Finalise; specialize (Hset a);
    destruct (visited d a) eqn:Ev, (live d a) as [o|] eqn:Eo; cbn; try destruct (suicided o || (del && empty o)) eqn:Eg;
    try done; try (by destruct del)).
  all: try (intros k; cbn; try done; apply finalise_state).
  - intros k. by destruct (Hset eq_refl o eq_refl) as [_ ->].
  - intros k. by destruct (Hset eq_refl o eq_refl) as [_ ->].
  - cbn. by apply orb_false_iff in Eg as [-> _].
  - by destruct (Hset eq_refl o eq_refl) as [-> _].
  - by destruct (Hset eq_refl o eq_refl) as [-> _].
  - exact Er.
  - cbn [view_of vLogs]. by rewrite Et, El.
Qed.
End finalise.

(** ** Against the reference machine *)

(** A call of a method of the interface, and what it returns. *)
Inductive dbop :=
| DCreateAccount (a : Address) | DSubBalance (a : Address) (x : Z) | DAddBalance (a : Address) (x : Z)
| DSetNonce (a : Address) (n : Z) | DSetCode (a : Address) (c : bytes) | DSetState (a : Address) (k x : Hash)
| DAddRefund (g : Z) | DSubRefund (g : Z) | DAddLog (l : Log) | DAddPreimage (h : Hash) (b : bytes) | DSuicide (a : Address)
| DGetBalance (a : Address) | DGetNonce (a : Address) | DGetCodeHash (a : Address) | DGetCode (a : Address)
| DGetCodeSize (a : Address) | DGetState (a : Address) (k : Hash) | DGetCommittedState (a : Address) (k : Hash)
| DHasSuicided (a : Address) | DExist (a : Address) | DEmpty (a : Address) | DGetRefund
| DSnapshot | DRevertToSnapshot (i : Z).

Inductive dbres := RUnit | RInt (x : Z) | RBool (b : bool) | RBytes (b : bytes).

Definition unit_res {D} (d : D) : outcome (dbres * D) := Ok (RUnit, d).
Definition int_res {D} (p : Z * D) : outcome (dbres * D) := Ok (RInt (fst p), snd p).
Definition bool_res {D} (p : bool * D) : outcome (dbres * D) := Ok (RBool (fst p), snd p).

Definition dbop_run {S : StateDB} (o : dbop) (d : DB) : outcome (dbres * DB) :=
  match o with
  | DCreateAccount a => unit_res (CreateAccount a d)
  | DSubBalance a x => unit_res (SubBalance a x d)
  | DAddBalance a x => unit_res (AddBalance a x d)
  | DSetNonce a n => unit_res (SetNonce a n d)
  | DSetCode a c => unit_res (SetCode a c d)
  | DSetState a k x => unit_res (SetState a k x d)
  | DAddRefund g => unit_res (AddRefund g d)
  | DSubRefund g => d <- SubRefund g d ;; unit_res d
  | DAddLog l => unit_res (AddLog l d)
  | DAddPreimage h b => unit_res (AddPreimage h b d)
  | DSuicide a => bool_res (Suicide a d)
  | DGetBalance a => int_res (GetBalance a d)
  | DGetNonce a => int_res (GetNonce a d)
  | DGetCodeHash a => int_res (GetCodeHash a d)
  | DGetCode a => let '(c, d) := GetCode a d in Ok (RBytes c, d)
  | DGetCodeSize a => int_res (GetCodeSize a d)
  | DGetState a k => int_res (GetState a k d)
  | DGetCommittedState a k => int_res (GetCommittedState a k d)
  | DHasSuicided a => bool_res (HasSuicided a d)
  | DExist a => bool_res (Exist a d)
  | DEmpty a => bool_res (Empty a d)
  | DGetRefund => Ok (RInt (GetRefund d), d)
  | DSnapshot => int_res (Snapshot d)
  | DRevertToSnapshot i => d <- RevertToSnapshot i d ;; unit_res d
  end.

(** A sequence of calls and all they return. *)
Fixpoint dbops_run {S : StateDB} (ops : list dbop) (d : DB) : outcome (list dbres * DB) :=
  match ops with
  | [] => Ok ([], d)
  | o :: ops =>
      p <- dbop_run o d ;;
      q <- dbops_run ops (snd p) ;;
      Ok (fst p :: fst q, snd q)
  end.

Definition dbop_ok (o : dbop) : Prop := match o with DSetCode _ c => data_ok c | _ => True end.

Section bisimulation.
Context {SS : StateStore} {K : Keccak} {SL : StateStoreLaws SS}.

(** The database and the reference machine show the same, now and at each
    snapshot. *)
Definition related (d : statedb) (r : refdb) : Prop :=
  sdb_ok d /\ view_of d ≡ r_view r /\ snaps_eq (sdb_snaps d) (r_snaps r) /\ nextRevisionId d = r_next r.

Definition same_outcome {A} (o : outcome (A * statedb)) (o' : outcome (A * refdb)) : Prop :=
  match o, o' with
  | Ok (x, d), Ok (y, r) => x = y /\ related d r
  | Panic p, Panic q => p = q
  | _, _ => False
  end.

Lemma related_do f d d' r : Proper ((≡) ==> (≡)) f -> related d r -> eff f d d' -> related d' (r_do f r).
Proof.
  intros Hf (_ & Hv & Hs & Hn) (H' & Hv' & Hs' & Hn'). split; [done|]. split; [by rewrite Hv', Hv|].
  split; [by rewrite Hs'|cbn; congruence].
Qed.

Lemma related_id d d' r : related d r -> eff id d d' -> related d' r.
Proof.
  intros (_ & Hv & Hs & Hn) (H' & Hv' & Hs' & Hn'). split; [done|]. split; [by rewrite Hv', Hv|].
  split; [by rewrite Hs'|congruence].
Qed.

Lemma read_same {A} (x y : A) d d' r : related d r -> x = y /\ eff id d d' -> x = y /\ related d' r.
Proof. intros H [E He]. split; [done|by eapply related_id]. Qed.

Lemma r_find_inv i l v pre : r_find i l = Some (v, pre) -> exists post, l = pre ++ (i, v) :: post.
Proof.
  revert pre. induction l as [|[j w] l IH]; intros pre; cbn; [done|].
  destruct (Z.eqb_spec j i) as [->|]; [intros [= -> <-]; by exists l|].
  destruct (r_find i l) as [[w' pre']|]; [|done]. intros [= -> <-]. destruct (IH pre' eq_refl) as [post ->]. by exists post.
Qed.

Lemma r_find_None i l : r_find i l = None -> Forall (fun p => fst p <> i) l.
Proof.
  induction l as [|[j w] l IH]; cbn; [by constructor|]. destruct (Z.eqb_spec j i); [done|].
  destruct (r_find i l) as [[? ?]|]; [done|]. intros _. constructor; auto.
Qed.

(** Both machines revert to the same snapshot, or refuse. *)
Lemma Revert_same d r i : related d r -> same_outcome (dbop_run (S := statedb_StateDB) (DRevertToSnapshot i) d) (dbop_run (S := StateDB_ref) (DRevertToSnapshot i) r).
Proof.
  intros (H & Hv & Hs & Hn). cbn. destruct (r_find i (r_snaps r)) as [[v pre]|] eqn:Ef.
  - apply r_find_inv in Ef as (post & E). rewrite E in Hs.
    destruct (Revert_snaps d pre i v post H Hs) as (d' & -> & H' & Hv' & Hs' & Hn'). cbn.
    split; [done|]. split; [done|]. split; [done|]. split; [done|]. cbn. congruence.
  - unfold StateDB_RevertToSnapshot. destruct (zget (validRevisions d) _) as [rv|] eqn:Eg; [|done].
    destruct (Z.eqb_spec (rev_id rv) i) as [<-|]; [|done]. exfalso.
    apply r_find_None in Ef. assert (rv ∈ validRevisions d) as Hin.
    { unfold zget in Eg. case_match; [|done]. by eapply list_elem_of_lookup_2. }
    assert ((rev_id rv, view_at d (journalIndex rv)) ∈ sdb_snaps d) as Hin'.
    { unfold sdb_snaps. by apply (list_elem_of_fmap_2 (fun r => (rev_id r, view_at d (journalIndex r)))). }
    apply list_elem_of_lookup in Hin' as [k Hk].
    destruct (Forall2_lookup_l _ _ _ _ _ Hs Hk) as (p & Hp & [Ei _]).
    eapply (Forall_lookup_1 _ _ _ _ Ef Hp). by rewrite <- Ei.
Qed.

Lemma SubRefund_same d r g : related d r -> same_outcome (dbop_run (S := statedb_StateDB) (DSubRefund g) d) (dbop_run (S := StateDB_ref) (DSubRefund g) r).
Proof.
  intros H. pose proof (SubRefund_eff g d (proj1 H)) as He. cbn.
  rewrite <- (ve_Refund _ _ (proj1 (proj2 H))). destruct (vRefund (view_of d) <? g).
  - by rewrite He.
  - destruct He as (d' & -> & He). split; [done|]. by apply (related_do (s_SubRefund g) d); [apply _| |].
Qed.

Lemma Snapshot_same d r : related d r -> same_outcome (dbop_run (S := statedb_StateDB) DSnapshot d) (dbop_run (S := StateDB_ref) DSnapshot r).
Proof.
  intros (H & Hv & Hs & Hn). destruct (Snapshot_eff d H) as (H' & Hv' & Hs' & _).
  cbn [dbop_run int_res Snapshot statedb_StateDB StateDB_ref fst snd StateDB_Snapshot same_outcome].
  split; [by rewrite Hn|]. split; [done|]. split; [by rewrite Hv'|]. split; [|cbn; congruence].
  etransitivity; [exact Hs'|]. cbn. apply Forall2_app; [done|]. apply Forall2_cons. split; [|by apply Forall2_nil]. by split.
Qed.

Lemma write_same f d d' r :
  Proper ((≡) ==> (≡)) f -> related d r -> eff f d d' -> same_outcome (unit_res d') (unit_res (r_do f r)).
Proof. intros Hf H He. split; [done|by apply (related_do f d)]. Qed.

Lemma int_same d r p y :
  related d r -> fst p = y /\ eff id d (snd p) -> same_outcome (int_res p) (int_res (y, r)).
Proof. intros H [E He]. split; [cbn; by rewrite E|by eapply related_id]. Qed.

Lemma bool_same d r p y :
  related d r -> fst p = y /\ eff id d (snd p) -> same_outcome (bool_res p) (bool_res (y, r)).
Proof. intros H [E He]. split; [cbn; by rewrite E|by eapply related_id]. Qed.

Lemma Suicide_same d r a : related d r -> same_outcome (dbop_run (S := statedb_StateDB) (DSuicide a) d) (dbop_run (S := StateDB_ref) (DSuicide a) r).
Proof.
  intros H. destruct (Suicide_eff a d (proj1 H)) as [E He]. split.
  - f_equal. etransitivity; [exact E|]. apply H.
  - by apply (related_do (s_Suicide a) d); [apply _| |].
Qed.

Lemma GetCode_same d r a : related d r -> same_outcome (dbop_run (S := statedb_StateDB) (DGetCode a) d) (dbop_run (S := StateDB_ref) (DGetCode a) r).
Proof.
  intros H. destruct (GetCode_eff a d (proj1 H)) as [E He]. cbn. destruct (StateDB_GetCode d a) as [c d'].
  split; [f_equal; etransitivity; [exact E|apply H]|by eapply related_id].
Qed.

Lemma dbop_same o d r : dbop_ok o -> related d r -> same_outcome (dbop_run (S := statedb_StateDB) o d) (dbop_run (S := StateDB_ref) o r).
Proof.
  intros Ho H. pose proof (proj1 H) as Hd. pose proof (proj1 (proj2 H)) as Hv. destruct o.
  - eapply write_same; [apply _|done|by apply CreateAccount_eff].
  - eapply write_same; [apply _|done|by apply SubBalance_eff].
  - eapply write_same; [apply _|done|by apply AddBalance_eff].
  - eapply write_same; [apply _|done|by apply SetNonce_eff].
  - eapply write_same; [apply _|done|by apply SetCode_eff].
  - eapply write_same; [apply _|done|by apply SetState_eff].
  - eapply (write_same (s_AddRefund g) d); [apply _|done|].
    apply (eff_equiv (s_setRefund (u64 (refund d + g)))); [done|by apply refund_eff; [apply u64_range|]].
  - by apply SubRefund_same.
  - eapply write_same; [apply _|done|by apply AddLog_eff].
  - split; [done|]. eapply related_id; [done|]. by apply AddPreimage_eff.
  - by apply Suicide_same.
  - apply (int_same d); [done|]. rewrite <- (ve_Balance _ _ Hv). by apply read_eff; [apply reads_field|].
  - apply (int_same d); [done|]. rewrite <- (ve_Nonce _ _ Hv). by apply read_eff; [apply reads_field|].
  - apply (int_same d); [done|]. rewrite <- (ve_CodeHash _ _ Hv). by apply read_eff; [apply reads_field|].
  - by apply GetCode_same.
  - apply (int_same d); [done|]. rewrite <- (ve_Code _ _ Hv).
    destruct (read_eff 0 _ _ d a CodeSize_reads Hd) as [E He]. split; [|exact He].
    etransitivity; [exact E|]. cbn. by destruct (live d a).
  - apply (int_same d); [done|]. rewrite <- (ve_State _ _ Hv). by apply (read_eff 0 _ _ d a (GetState_reads k)).
  - apply (int_same d); [done|]. rewrite <- (ve_Committed _ _ Hv). by apply (read_eff 0 _ _ d a (GetCommittedState_reads k)).
  - apply (bool_same d); [done|]. rewrite <- (ve_Suicided _ _ Hv). by apply read_eff; [apply reads_field|].
  - apply (bool_same d); [done|]. rewrite <- (ve_Exist _ _ Hv). by apply Exist_eff.
  - apply (bool_same d); [done|]. replace (vEmpty (r_view r) a) with (vEmpty (view_of d) a); [by apply Empty_eff|].
    unfold vEmpty. by rewrite (ve_Exist _ _ Hv), (ve_Nonce _ _ Hv), (ve_Balance _ _ Hv), (ve_CodeHash _ _ Hv).
  - split; [|done]. f_equal. apply Hv.
  - by apply Snapshot_same.
  - by apply Revert_same.
Qed.

Lemma dbops_same ops d r :
  Forall dbop_ok ops -> related d r ->
  same_outcome (dbops_run (S := statedb_StateDB) ops d) (dbops_run (S := StateDB_ref) ops r).
Proof.
  intros Ho. revert d r. induction Ho as [|o ops Ho Hops IH]; intros d r H; cbn [dbops_run]; [done|].
  pose proof (dbop_same o d r Ho H) as Hs. unfold same_outcome in Hs.
  destruct (dbop_run (S := statedb_StateDB) o d) as [[x d1]|p|], (dbop_run (S := StateDB_ref) o r) as [[y r1]|q|];
    try done; cbn [obind fst snd].
  destruct Hs as [-> H1]. specialize (IH d1 r1 H1). unfold same_outcome in IH.
  destruct (dbops_run (S := statedb_StateDB) ops d1) as [[xs d2]|p|], (dbops_run (S := StateDB_ref) ops r1) as [[ys r2]|q|];
    try done; cbn [obind fst snd].
  destruct IH as [-> H2]. by split.
Qed.

(** *** Nested snapshots *)

Lemma split_past {A} (l1 l2 l3 l4 : list (Z * A)) i j v w :
  Forall (fun p => fst p < i) l1 -> i < j -> l1 ++ (i, v) :: l2 = l3 ++ (j, w) :: l4 ->
  exists l, l3 = l1 ++ (i, v) :: l.
Proof.
  intros H Hij. revert l3. induction H as [|p l1 Hp H IH]; intros [|q l3]; cbn; intros E; injection E as; subst.
  - lia.
  - by exists l3.
  - cbn in Hp. lia.
  - destruct (IH l3) as [l ->]; [done|]. by exists l.
Qed.

Lemma Revert_found d i d' :
  sdb_ok d -> StateDB_RevertToSnapshot d i = Ok d' ->
  exists pre v post, sdb_snaps d = pre ++ (i, v) :: post /\ sdb_ok d' /\ snaps_eq (sdb_snaps d') pre.
Proof.
  intros H E. destruct (r_find i (sdb_snaps d)) as [[v pre]|] eqn:Ef.
  - apply r_find_inv in Ef as (post & Es). exists pre, v, post. split; [done|].
    destruct (Revert_snaps d pre i v post H) as (d1 & E1 & H1 & _ & Hs & _); [by rewrite Es|].
    rewrite E in E1. by injection E1 as <-.
  - assert (related d (MkRefdb (view_of d) (sdb_snaps d) (nextRevisionId d))) as Hr by (by split_and!).
    apply (Revert_same _ _ i) in Hr. cbn in Hr. by rewrite Ef, E in Hr.
Qed.

(** The snapshot [(i, v)] stays in place. *)
Definition holds (l : list (Z * View)) (i : Z) (v : View) (d : statedb) : Prop :=
  sdb_ok d /\ exists l', snaps_eq (sdb_snaps d) (l ++ (i, v) :: l').

Definition newer (i : Z) (o : dbop) : Prop := match o with DRevertToSnapshot j => i < j | _ => True end.

Lemma dbop_no_panic (o : dbop) (d : statedb) :
  sdb_ok d -> dbop_ok o ->
  match dbop_run (S := statedb_StateDB) o d with
  | Ok (x, d') => match o with DRevertToSnapshot _ | DSnapshot => True | _ => snaps_eq (sdb_snaps d') (sdb_snaps d) end /\ sdb_ok d'
  | Panic p => p = PanicRefund \/ p = PanicRevision
  | NoFuel => False
  end.
Proof.
  intros H Ho. set (r := MkRefdb (view_of d) (sdb_snaps d) (nextRevisionId d)).
  assert (related d r) as Hr by (by split_and!). pose proof (dbop_same o d r Ho Hr) as Hs. unfold same_outcome in Hs.
  destruct (dbop_run (S := statedb_StateDB) o d) as [[x d']|p|], (dbop_run (S := StateDB_ref) o r) as [[y r']|q|] eqn:E; try done.
  - destruct Hs as (_ & Hd' & _ & Hs' & _). split; [|done]. destruct o; try done;
      cbn in E; try (injection E as _ <-; exact Hs'). case_match; [done|]. injection E as _ <-. exact Hs'.
  - subst q. destruct o; try done; cbn in E; repeat (case_match; try done); cbn in E; injection E as <-; auto.
Qed.

Lemma dbop_holds l i v o d x d' :
  Forall (fun p => fst p < i) l -> newer i o -> dbop_ok o -> holds l i v d ->
  dbop_run (S := statedb_StateDB) o d = Ok (x, d') -> holds l i v d'.
Proof.
  intros Hl Hn Ho (H & l' & Hs) E. pose proof (dbop_no_panic o d H Ho) as Hp. rewrite E in Hp. destruct Hp as [Hp Hd'].
  split; [done|]. destruct o; try (exists l'; by rewrite Hp); clear Hp.
  - destruct (Snapshot_eff d H) as (_ & _ & Hs' & _). cbn in E. injection E as _ <-.
    exists (l' ++ [(nextRevisionId d, view_of d)]). etransitivity; [exact Hs'|].
    rewrite app_comm_cons, app_assoc. by apply Forall2_app; [|apply (reflexivity (R := snaps_eq))].
  - cbn in Hn, E. destruct (StateDB_RevertToSnapshot d i0) as [d1|p|] eqn:Er; try done. injection E as _ <-.
    destruct (Revert_found d i0 d1 H Er) as (pre & w & post & Es & _ & Hs'). rewrite Es in Hs.
    apply Forall2_app_inv_l in Hs as (k1 & k2 & Hk1 & Hk2 & Ek).
    apply Forall2_cons_inv_l in Hk2 as ([j w'] & k2' & [Ej _] & _ & ->). cbn in Ej. subst j.
    destruct (split_past l l' k1 k2' i i0 v w' Hl Hn Ek) as [l'' ->]. exists l''. by rewrite Hs'.
Qed.

Lemma dbops_holds l i v ops d :
  Forall (fun p => fst p < i) l -> Forall (newer i) ops -> Forall dbop_ok ops -> holds l i v d ->
  match dbops_run (S := statedb_StateDB) ops d with
  | Ok (_, d') => holds l i v d'
  | Panic p => p = PanicRefund \/ p = PanicRevision
  | NoFuel => False
  end.
Proof.
  intros Hl Hn. revert d. induction Hn as [|o ops Hno Hn IH]; intros d Ho Hd; cbn [dbops_run]; [done|].
  apply Forall_cons in Ho as [Ho Hops]. pose proof (dbop_no_panic o d (proj1 Hd) Ho) as Hp.
  destruct (dbop_run (S := statedb_StateDB) o d) as [[x d1]|p|] eqn:E; cbn [obind fst snd]; [|done|done].
  specialize (IH d1 Hops (dbop_holds l i v o d x d1 Hl Hno Ho Hd E)).
  by destruct (dbops_run (S := statedb_StateDB) ops d1) as [[xs d2]|p|].
Qed.

(** ** Theorems *)

(** C3: [core/state] refines the abstract account state: whatever sequence of
    calls of the [StateDB] interface is made, with nested snapshots and reverts,
    the cached objects with their journal return what the machine of plain views
    returns, fail when it fails, and end in a database that shows the same. *)
Theorem statedb_refines ops d r :
  Forall dbop_ok ops -> related d r ->
  same_outcome (dbops_run (S := statedb_StateDB) ops d) (dbops_run (S := StateDB_ref) ops r).
Proof. apply dbops_same. Qed.

(** C15: Reverting to a snapshot undoes everything since: after any calls that do
    not revert to an older snapshot, [RevertToSnapshot] succeeds and shows the
    balances, nonces, codes, storage, suicides, logs and refund of the moment the
    snapshot was taken.  On the way nothing panics but a refund counter below zero
    and a revert to a snapshot that is not there. *)
Theorem snapshot_revert ops d :
  sdb_ok d -> Forall dbop_ok ops ->
  let '(i, d1) := StateDB_Snapshot d in
  Forall (newer i) ops ->
  match dbops_run (S := statedb_StateDB) ops d1 with
  | Ok (_, d2) =>
      exists d3, StateDB_RevertToSnapshot d2 i = Ok d3 /\ view_of d3 ≡ view_of d /\ sdb_ok d3 /\
        snaps_eq (sdb_snaps d3) (sdb_snaps d)
  | Panic p => p = PanicRefund \/ p = PanicRevision
  | NoFuel => False
  end.
Proof.
  intros H Ho. pose proof (Snapshot_eff d H) as Hs. destruct (StateDB_Snapshot d) as [i d1].
  destruct Hs as (H1 & _ & Hs & Hl). intros Hn.
  pose proof (dbops_holds (sdb_snaps d) i (view_of d) ops d1 Hl Hn Ho (conj H1 (ex_intro _ [] Hs))) as Hd.
  destruct (dbops_run (S := statedb_StateDB) ops d1) as [[xs d2]|p|]; [|done|done].
  destruct Hd as (H2 & l' & Hs2). destruct (Revert_snaps d2 _ _ _ _ H2 Hs2) as (d3 & E & H3 & Hv & Hs3 & _).
  exists d3. by split_and!.
Qed.

Lemma Finalise_ok d del :
  sdb_ok d ->
  sdb_ok (Finalise d del) /\ view_of (Finalise d del) ≡ v_Finalise del (visited d) (view_of d) /\
  sdb_snaps (Finalise d del) = [] /\ entries (jrnl (Finalise d del)) = [].
Proof.
  intros H. pose proof (Finalise_view d del H) as Hv.
  destruct (Finalise_kept d del H) as (E1 & E2 & E3 & E4 & E5 & E6 & E7).
  split; [|unfold sdb_snaps; by rewrite E7]. split.
  - by apply Finalise_objects.
  - by rewrite E5.
  - rewrite E5. split; [|split; [cbn [view_of vRefund]; by rewrite E3|exact E3]]. intros a _. eapply settled_proper; [symmetry; exact Hv|]. by split.
  - rewrite E5. exact E6.
  - rewrite E5, E7. by repeat constructor.
Qed.

(** C16: [Finalise] ends a transaction: of the accounts the transaction touched
    those that destructed themselves, and with [deleteEmptyObjects] the empty
    ones, are gone; every other account keeps its balance, nonce, code and
    storage, which is now the committed storage; the refund counter, the journal
    and the snapshots are cleared.  Accounts without a journal entry need no
    visit. *)
Theorem Finalise_correct d del :
  sdb_ok d ->
  sdb_ok (Finalise d del) /\ view_of (Finalise d del) ≡ v_Finalise del (visited d) (view_of d) /\
  sdb_snaps (Finalise d del) = [] /\ entries (jrnl (Finalise d del)) = [].
Proof. apply Finalise_ok. Qed.
End bisimulation.

(** ** The root of the state *)

Section root.
Context {SS : StateStore} {K : Keccak} {SL : StateStoreLaws SS}.

(** The same account; the storage and its trie may differ. *)
Record same_account (o o' : stateObject) : Prop := MkSameAccount {
  sa_address : address o' = address o;
  sa_addrHash : addrHash o' = addrHash o;
  sa_Nonce : obj_Nonce o' = obj_Nonce o;
  sa_Balance : obj_Balance o' = obj_Balance o;
  sa_CodeHash : obj_CodeHash o' = obj_CodeHash o;
  sa_code : code o' = code o;
  sa_fake : fakeStorage o' = fakeStorage o;
  sa_suicided : suicided o' = suicided o;
  sa_deleted : deleted o' = deleted o;
}.

Lemma same_account_refl o : same_account o o.
Proof. by split. Qed.
Lemma same_account_trans o1 o2 o3 : same_account o1 o2 -> same_account o2 o3 -> same_account o1 o3.
Proof. intros [] []. split; congruence. Qed.

Lemma same_account_ok a o o' : same_account o o' -> obj_ok a o -> obj_ok a o'.
Proof. intros [] []. split; congruence. Qed.

Lemma getTrie_account o : same_account o (snd (getTrie o)) /\ dirtyStorage (snd (getTrie o)) = dirtyStorage o.
Proof. unfold getTrie. destruct (obj_trie o); [by split|]. by destruct (OpenStorageTrie _ _). Qed.

Lemma update_slot_account o kv : same_account o (update_slot o kv) /\ dirtyStorage (update_slot o kv) = dirtyStorage o.
Proof.
  destruct kv as [k x]. unfold update_slot. destruct (x =? _); [by split|]. set (o1 := o_storage o _ _ _).
  destruct (getTrie_account o1) as [H1 H2]. destruct (getTrie o1) as [tr o2]. cbn [snd] in *.
  assert (same_account o o2) as H by (eapply same_account_trans; [|exact H1]; by split).
  case_match; (split; [eapply same_account_trans; [exact H|by split]|done]).
Qed.

Lemma updateTrie_account o : same_account o (snd (updateTrie o)) /\ dirtyStorage (snd (updateTrie o)) = ∅.
Proof.
  unfold updateTrie. set (o1 := finalise o). assert (same_account o o1 /\ dirtyStorage o1 = ∅) as [H1 D1] by done. clearbody o1.
  case_bool_decide; [done|]. destruct (getTrie_account o1) as [Hg Dg]. destruct (getTrie o1) as [tr o2]. cbn [snd] in *.
  assert (same_account o o2 /\ dirtyStorage o2 = ∅) as [H3 D3] by (split; [by eapply same_account_trans|congruence]).
  generalize (map_to_list (pendingStorage o2)). clear -H3 D3. intros l. revert o2 H3 D3. induction l as [|kv l IH]; intros o2 H3 D3.
  - split; [|done]. eapply same_account_trans; [exact H3|by split].
  - destruct (update_slot_account o2 kv) as [Hu Du]. apply (IH (update_slot o2 kv)); [by eapply same_account_trans|congruence].
Qed.

(** Computing the root of an account's storage settles the storage. *)
Lemma updateRoot_account o : same_account o (updateRoot o) /\ dirtyStorage (updateRoot o) = ∅.
Proof.
  unfold updateRoot. destruct (updateTrie_account o) as [H D]. destruct (updateTrie o) as [[tr|] o2]; [|done].
  split; [|done]. eapply same_account_trans; [exact H|by split].
Qed.

(** *** The storage

    A slot that was written has been read before, unless reading it failed. *)

Definition slots_loaded (o : stateObject) : Prop :=
  forall k v, (dirtyStorage o ∪ pendingStorage o) !! k = Some v -> is_hash k /\ is_Some (originStorage o !! k).

Lemma getTrie_some o : obj_trie (snd (getTrie o)) = Some (trie_of o) /\ originStorage (snd (getTrie o)) = originStorage o /\ pendingStorage (snd (getTrie o)) = pendingStorage o.
Proof. unfold getTrie, trie_of. destruct (obj_trie o) eqn:E; [done|]. by destruct (OpenStorageTrie _ _). Qed.

(** One slot is written; the others stay. *)
Lemma update_slot_ok o k v : is_hash k -> is_Some (originStorage o !! k) ->
  originStorage (update_slot o (k, v)) = <[k := v]> (originStorage o) /\
  forall k', is_hash k' -> k' <> k -> slot (update_slot o (k, v)) k' = slot o k'.
Proof.
  intros Hk [x Ex]. cbv beta iota delta [update_slot]. rewrite Ex. cbn [default from_option id]. destruct (Z.eqb_spec v x) as [->|Hv].
  { split; [symmetry; by apply insert_id|done]. }
  set (o1 := o_storage o _ _ _). destruct (getTrie_some o1) as (Et & Eo & _). destruct (getTrie o1) as [tr o2] eqn:Eg. cbn [snd] in *.
  assert (tr = trie_of o) as ->.
  { change (trie_of o) with (trie_of o1). rewrite <- getTrie_trie, Eg. done. }
  assert (forall t, originStorage (o_trie o2 t (obj_dbErr o2)) = <[k := v]> (originStorage o)) as Horg by done.
  assert (forall t, (exists w, TryUpdate (trie_of o) (Hash_Bytes k) w = Some t) \/ TryDelete (trie_of o) (Hash_Bytes k) = Some t ->
    forall k', is_hash k' -> k' <> k -> slot (o_trie o2 (Some t) (obj_dbErr o2)) k' = slot o k') as Hslot.
  { intros t H k' Hk' Hne. unfold slot. change (trie_of (o_trie o2 (Some t) (obj_dbErr o2))) with t.
    assert (Hash_Bytes k' <> Hash_Bytes k) as Hkk by (intros E; apply Hne; by apply Hash_Bytes_inj).
    assert (TryGet t (Hash_Bytes k') = TryGet (trie_of o) (Hash_Bytes k')) as ->; [|done].
    destruct H as [[w H]|H]; [by eapply TryUpdate_other|by eapply TryDelete_other]. }
  destruct (v =? 0).
  - destruct (TryDelete _ _) as [t|] eqn:Ed; [split; [done|]; apply Hslot; by right|]. split; [done|]. intros k' _ _. unfold slot, trie_of. cbn [setError o_trie obj_trie]. by rewrite Et.
  - destruct (TryUpdate _ _ _) as [t|] eqn:Ed; [split; [done|]; apply Hslot; left; by eexists|]. split; [done|]. intros k' _ _. unfold slot, trie_of. cbn [setError o_trie obj_trie]. by rewrite Et.
Qed.

Lemma update_slots_ok l : NoDup l.*1 -> forall o, (forall k v, (k, v) ∈ l -> is_hash k /\ is_Some (originStorage o !! k)) ->
  let o' := fold_left update_slot l o in
  (forall k v, (k, v) ∈ l -> originStorage o' !! k = Some v) /\
  (forall k, is_hash k -> k ∉ l.*1 -> originStorage o' !! k = originStorage o !! k /\ slot o' k = slot o k).
Proof.
  induction l as [|[k v] l IH]; intros Hl o H; cbn [fold_left]; [split; [by intros ? ? []%elem_of_nil|done]|].
  rewrite fmap_cons in *. apply NoDup_cons in Hl as [Hn Hl]. destruct (H k v) as [Hk Hs]; [apply list_elem_of_here|].
  destruct (update_slot_ok o k v Hk Hs) as [Eo Hsl]. destruct (IH Hl (update_slot o (k, v))) as [I1 I2].
  { intros k' v' Hin. destruct (H k' v') as [Hk' Hs']; [by apply list_elem_of_further|]. split; [done|]. rewrite Eo, lookup_insert. by case_decide. }
  split.
  - intros k' v' [[= -> ->]|Hin]%elem_of_cons; [|by apply I1]. destruct (I2 k Hk Hn) as [-> _]. by rewrite Eo, lookup_insert_eq.
  - intros k' Hk' [Hne Hn']%not_elem_of_cons. destruct (I2 k' Hk' Hn') as [-> ->]. rewrite Eo, lookup_insert_ne by done. split; [done|by apply Hsl].
Qed.

(** Writing the storage to its trie keeps every slot. *)
Lemma updateRoot_storage o k : slots_loaded o -> is_hash k -> committed_val (updateRoot o) k = state_val o k.
Proof.
  intros Hl Hk. destruct (finalise_state o k) as [_ <-]. unfold updateRoot, updateTrie. set (o1 := finalise o).
  assert (forall k v, pendingStorage o1 !! k = Some v -> is_hash k /\ is_Some (originStorage o1 !! k)) as Hl1 by exact Hl. clearbody o1. clear Hl.
  destruct (bool_decide_reflect (pendingStorage o1 = ∅)) as [E|_].
  { unfold committed_val, slot, trie_of. destruct (obj_trie o1) as [t|] eqn:Et; cbn [o_root pendingStorage originStorage obj_trie]; by rewrite ?Et. }
  destruct (getTrie_some o1) as (Et & Eo & Ep). destruct (getTrie o1) as [tr o2]. cbn [snd] in *. rewrite Ep.
  destruct (update_slots_ok (map_to_list (pendingStorage o1)) (NoDup_fst_map_to_list _) o2) as [I1 I2].
  { intros k' v Hin%elem_of_map_to_list. rewrite Eo. by eapply Hl1. }
  set (o3 := fold_left _ _ _) in *. set (o4 := o_storage o3 _ _ _).
  assert (committed_val o4 k = committed_val o1 k) as E4.
  { unfold committed_val at 1. cbn [o4 o_storage pendingStorage originStorage]. rewrite lookup_empty. change (slot o4 k) with (slot o3 k). unfold committed_val.
    destruct (pendingStorage o1 !! k) as [v|] eqn:E; [by rewrite (I1 k v) by (by apply elem_of_map_to_list)|].
    destruct (I2 k Hk) as [-> ->].
    { intros ((k', v) & -> & Hin%elem_of_map_to_list)%list_elem_of_fmap. cbn in E. congruence. }
    rewrite Eo. unfold slot, trie_of at 1. by rewrite Et. }
  destruct (obj_trie o4) as [t|] eqn:Et4; [|done]. rewrite <- E4. unfold committed_val, slot, trie_of. cbn [o_root pendingStorage originStorage obj_trie]. by rewrite Et4.
Qed.

(** The trie has what the object at [a] says. *)
Definition stored (d : statedb) (a : Address) : Prop :=
  match stateObjects d !! a with
  | None => False
  | Some o =>
      if deleted o then TryGet_account (trie d) a = Some []
      else exists enc, TryGet_account (trie d) a = Some enc /\ enc <> [] /\ decodeAccount enc = Some (obj_account o)
  end.

(** All but the objects, the trie and the error of the database. *)
Record same_fields (d d' : statedb) : Prop := MkSameFields {
  sf_pending : stateObjectsPending d' = stateObjectsPending d;
  sf_refund : refund d' = refund d;
  sf_thash : thash d' = thash d;
  sf_logs : logs d' = logs d;
  sf_jrnl : jrnl d' = jrnl d;
  sf_revs : validRevisions d' = validRevisions d;
  sf_next : nextRevisionId d' = nextRevisionId d;
}.

(** [l] has been written back. *)
Record written (l : list Address) (d d' : statedb) : Prop := MkWritten {
  wr_fields : same_fields d d';
  wr_objects : forall a o, a ∈ l -> stateObjects d !! a = Some o ->
    exists o', stateObjects d' !! a = Some o' /\ same_account o o' /\ (o' = o \/ o' = updateRoot o);
  wr_others : forall a, a ∉ l -> stateObjects d' !! a = stateObjects d !! a /\ TryGet_account (trie d') a = TryGet_account (trie d) a;
  wr_stored : dbErr d' = false -> dbErr d = false /\ forall a, a ∈ l -> is_address a -> stored d' a;
}.

Lemma in_range_iff a : in_range a = true <-> is_address a.
Proof. unfold in_range, is_address. rewrite andb_true_iff, Z.leb_le, Z.ltb_lt. done. Qed.

Lemma account_other t a b t' : (exists v, TryUpdate_account t a v = Some t') \/ TryDelete_account t a = Some t' -> b <> a -> TryGet_account t' b = TryGet_account t b.
Proof.
  unfold TryUpdate_account, TryDelete_account, TryGet_account. intros H Hne. destruct (in_range b) eqn:Hb; [|done]. destruct (in_range a) eqn:Ha; [|by destruct H as [[v [= <-]]|[= <-]]].
  assert (Address_Bytes b <> Address_Bytes a) as Hk by (intros E; apply Hne, Address_Bytes_inj; by rewrite ?in_range_iff in *).
  destruct H as [[v H]|H]; [by eapply TryUpdate_other|by eapply TryDelete_other].
Qed.

Lemma write_back_ok d a o : obj_ok a o -> stateObjects d !! a = Some o -> (deleted o = false -> 0 <= obj_Balance o) ->
  exists d', write_back d a = Ok d' /\ written [a] d d'.
Proof.
  intros Ho Eo Hb. unfold write_back. rewrite Eo. cbn [of_option obind]. destruct (deleted o) eqn:Ed.
  - unfold deleteStateObject. rewrite (ok_address _ _ Ho). eexists. split; [done|]. split.
    + by case_match.
    + intros b o' ->%list_elem_of_singleton Eb. exists o. assert (o' = o) as -> by congruence. split_and!; [by case_match|apply same_account_refl|by left].
    + intros b Hne%not_elem_of_cons. destruct (TryDelete_account (trie d) a) as [t|] eqn:Et; [|done]. split; [done|]. eapply account_other; [by right|apply Hne].
    + destruct (TryDelete_account (trie d) a) as [t|] eqn:Et; [|done]. intros E. split; [done|]. intros b ->%list_elem_of_singleton Hr%in_range_iff.
      unfold stored. cbn. rewrite Eo, Ed. unfold TryDelete_account, TryGet_account in *. rewrite Hr in *. by eapply TryDelete_get.
  - destruct (updateRoot_account o) as [Hs Hd]. set (o' := updateRoot o) in *. unfold updateStateObject. destruct (account_roundtrip (obj_Nonce o') (obj_Balance o') (obj_Root o') (obj_CodeHash o')) as (enc & Ee & Hne & Hdec).
    { rewrite (sa_Balance _ _ Hs). by apply Hb. }
    unfold obj_account. rewrite Ee. cbn [of_option obind]. rewrite (sa_address _ _ Hs), (ok_address _ _ Ho). eexists. split; [done|].
    assert (forall d0, stateObjects d0 = <[a := o']> (stateObjects d) -> stateObjects d0 !! a = Some o') as Hl by (intros d0 ->; apply lookup_insert_eq).
    split.
    + by case_match.
    + intros b o1 ->%list_elem_of_singleton Eb. exists o'. assert (o1 = o) as -> by congruence. split_and!; [apply Hl; by case_match|done|by right].
    + intros b [Hb' _]%not_elem_of_cons. cbn [trie s_objects]. destruct (TryUpdate_account (trie d) a enc) as [t|] eqn:Et; cbn [stateObjects trie s_trie s_objects StateDB_setError]; rewrite lookup_insert_ne by done; [|done].
      split; [done|]. eapply account_other; [left; by exists enc|done].
    + cbn [trie s_objects]. destruct (TryUpdate_account (trie d) a enc) as [t|] eqn:Et; [|done]. intros E. split; [done|]. intros b ->%list_elem_of_singleton Hr%in_range_iff.
      unfold stored. rewrite Hl by reflexivity. rewrite (sa_deleted _ _ Hs), Ed. exists enc. split_and!; [|done|done]. cbn. unfold TryUpdate_account, TryGet_account in *. rewrite Hr in *. by eapply TryUpdate_get.
Qed.

Lemma stored_other d d' a : stateObjects d' !! a = stateObjects d !! a -> TryGet_account (trie d') a = TryGet_account (trie d) a -> stored d a -> stored d' a.
Proof. unfold stored. by intros -> ->. Qed.

Lemma write_all_ok l : NoDup l -> forall d, (forall a, a ∈ l -> exists o, stateObjects d !! a = Some o /\ obj_ok a o /\ (deleted o = false -> 0 <= obj_Balance o)) ->
  exists d', write_all d l = Ok d' /\ written l d d'.
Proof.
  intros Hl. induction Hl as [|a l Ha Hl IH]; intros d H; cbn [write_all].
  { exists d. split; [done|]. split; [done|by intros a o []%elem_of_nil|done|]. intros E. split; [done|]. by intros a []%elem_of_nil. }
  destruct (H a ltac:(apply list_elem_of_here)) as (o & Eo & Ho & Hb). destruct (write_back_ok d a o Ho Eo Hb) as (d1 & -> & [F1 O1 T1 S1]). cbn [obind].
  assert (forall b, b ∈ l -> b ∉ [a]) as Hn by (intros b Hb' ->%list_elem_of_singleton; done).
  destruct (IH d1) as (d2 & -> & [F2 O2 T2 S2]).
  { intros b Hb'. destruct (T1 b (Hn b Hb')) as [-> _]. apply H. by apply list_elem_of_further. }
  exists d2. split; [done|]. split.
  - destruct F1, F2. split; congruence.
  - intros b o1 [->|Hb']%elem_of_cons Eb; [destruct (T2 a Ha) as [-> _]; apply O1; [apply list_elem_of_here|done]|].
    apply O2; [done|]. by destruct (T1 b (Hn b Hb')) as [-> _].
  - intros b [Hb1 Hb2]%not_elem_of_cons. destruct (T2 b Hb2) as [-> ->]. apply T1. intros ->%list_elem_of_singleton. done.
  - intros E. destruct (S2 E) as [E1 H2]. destruct (S1 E1) as [E0 H1]. split; [done|]. intros b [->|Hb']%elem_of_cons Hr; [|by apply H2].
    destruct (T2 a Ha). eapply stored_other; [done|done|]. apply H1; [apply list_elem_of_here|done].
Qed.

(** The same accounts, storage aside. *)
Record accounts_eq (v w : View) : Prop := MkAccountsEq {
  ae_Exist : forall a, vExist v a = vExist w a;
  ae_Balance : forall a, vBalance v a = vBalance w a;
  ae_Nonce : forall a, vNonce v a = vNonce w a;
  ae_Code : forall a, vCode v a = vCode w a;
  ae_CodeHash : forall a, vCodeHash v a = vCodeHash w a;
  ae_Suicided : forall a, vSuicided v a = vSuicided w a;
  ae_Refund : vRefund v = vRefund w;
  ae_Logs : vLogs v = vLogs w;
}.

Lemma accounts_eq_view u v w : accounts_eq u v -> v ≡ w -> accounts_eq u w.
Proof. intros [] []. split; intros; etransitivity; eauto. Qed.

(** The account at [a] as a database opened at the trie reads it. *)
Definition reads_back (t : Trie) (v : View) (a : Address) : Prop :=
  let w := view_of (New t) in vExist w a = vExist v a /\ vBalance w a = vBalance v a /\ vNonce w a = vNonce v a /\ vCodeHash w a = vCodeHash v a.

Lemma New_live t a : live (New t) a = load t a.
Proof.
  unfold live, object. change (stateObjects (New t)) with (∅ : gmap Address stateObject). rewrite lookup_empty.
  change (trie (New t)) with t. unfold load. destruct (TryGet_account t a) as [[|x enc]|]; [done|by destruct (decodeAccount (x :: enc))|done].
Qed.

Lemma stored_reads d a : stored d a -> reads_back (trie d) (view_of d) a.
Proof.
  unfold stored, reads_back. cbn [view_of vExist vBalance vNonce vCodeHash]. rewrite New_live. unfold live, object, load.
  destruct (stateObjects d !! a) as [o|]; [|done]. cbn [undeleted]. destruct (deleted o); [by intros ->|].
  intros (enc & -> & Hne & Hd). destruct enc as [|x enc]; [done|]. by rewrite Hd.
Qed.

Definition live_same (o o' : option stateObject) : Prop :=
  match o, o' with
  | Some o, Some o' => same_account o o' /\ (o' = o \/ o' = updateRoot o)
  | None, None => True
  | _, _ => False
  end.

Lemma written_live l d d' : written l d d' -> (forall a, a ∈ l -> is_Some (stateObjects d !! a)) -> forall a, live_same (live d a) (live d' a).
Proof.
  intros [_ O T _] Hl a. unfold live, object. destruct (decide (a ∈ l)) as [Ha|Ha].
  - destruct (Hl a Ha) as [o Eo]. destruct (O a o Ha Eo) as (o' & -> & Hs & Hd). rewrite Eo. cbn [undeleted]. rewrite (sa_deleted _ _ Hs). by destruct (deleted o).
  - destruct (T a Ha) as [-> Et]. unfold load. rewrite Et. destruct (undeleted _); [|done]. split; [apply same_account_refl|by left].
Qed.

Lemma live_same_accounts d d' : (forall a, live_same (live d a) (live d' a)) -> refund d' = refund d -> GetLogs d' (thash d') = GetLogs d (thash d) ->
  accounts_eq (view_of d') (view_of d).
Proof.
  intros H Hr Hl. split; cbn [view_of vExist vBalance vNonce vCode vCodeHash vSuicided vRefund vLogs]; [intros a; pose proof (H a) as Ha..|done|by rewrite Hl];
    unfold live_same in Ha; destruct (live d a), (live d' a); try done; destruct Ha as [[] _]; cbn [from_option]; try done.
  unfold code_val. congruence.
Qed.

Lemma written_ok l d d' : written l d d' -> (forall a, a ∈ l -> is_Some (stateObjects d !! a)) -> sdb_ok d -> entries (jrnl d) = [] -> sdb_ok d'.
Proof.
  intros W Hl [H1 H2 H3 H4 H5] He. pose proof (written_live l d d' W Hl) as Hlive. destruct W as [[F1 F2 F3 F4 F5 F6 F7] O T _]. destruct H1 as [Ho Hld].
  assert (forall a, stateObjects d' !! a = None -> a ∉ l) as Hn.
  { intros a E Ha. destruct (Hl a Ha) as [o Eo]. destruct (O a o Ha Eo) as (o' & E' & _). congruence. }
  split; rewrite ?F3, ?F5, ?F6, ?F7, ?He in *; [split| | |done|done].
  - intros a o E. destruct (decide (a ∈ l)) as [Ha|Ha]; [|apply Ho; by destruct (T a Ha) as [<- _]].
    destruct (Hl a Ha) as [o0 Eo]. destruct (O a o0 Ha Eo) as (o' & E' & Hs & _). assert (o = o') as -> by congruence. eapply same_account_ok; [exact Hs|by apply Ho].
  - intros a o E. destruct (T a (Hn a E)) as [E' Et]. unfold load. rewrite Et. apply Hld. congruence.
  - constructor.
  - destruct H3 as (Hs & Hr & Hz). split; [|cbn [view_of vRefund] in *; rewrite F2; by split]. intros a Ha. specialize (Hs a Ha). specialize (Hlive a).
    unfold settled in *. cbn [view_of vState vCommitted vSuicided] in *. unfold live_same in Hlive. destruct (live d a) as [o|], (live d' a) as [o'|]; try done.
    destruct Hlive as [Hsa Hd]. destruct Hs as [Hs1 Hs2]. cbn [from_option] in *. split; [|by rewrite (sa_suicided _ _ Hsa)].
    destruct Hd as [->| ->]; [done|]. intros k. unfold state_val. by rewrite (proj2 (updateRoot_account o)), lookup_empty.
Qed.

Lemma live_same_state d d' a k : live_same (live d a) (live d' a) -> (forall o, live d a = Some o -> slots_loaded o) -> is_hash k ->
  vState (view_of d') a k = vState (view_of d) a k.
Proof.
  intros H Hl Hk. cbn [view_of vState]. unfold live_same in H. destruct (live d a) as [o|], (live d' a) as [o'|]; try done. cbn [from_option].
  destruct H as [_ [->| ->]]; [done|]. rewrite <- (updateRoot_storage o k (Hl o eq_refl) Hk). unfold state_val. by rewrite (proj2 (updateRoot_account o)), lookup_empty.
Qed.

(** What [IntermediateRoot] leaves. *)
Record rooted (f d' : statedb) : Prop := MkRooted {
  ro_good : db_good d';
  ro_entries : entries (jrnl d') = [];
  ro_pending : stateObjectsPending d' = ∅;
  ro_accounts : accounts_eq (view_of d') (view_of f);
  ro_storage : forall a k, (forall o, live f a = Some o -> slots_loaded o) -> is_hash k -> vState (view_of d') a k = vState (view_of f) a k;
  ro_stored : dbErr d' = false -> forall a, a ∈ stateObjectsPending f -> is_address a -> reads_back (trie d') (view_of d') a;
}.

(** [IntermediateRoot] returns, and writes the pending accounts to the trie. *)
Lemma IntermediateRoot_ok d del : db_good d -> (forall a, 0 <= vBalance (view_of d) a) ->
  exists d', IntermediateRoot d del = Ok (Trie_Hash (trie d'), d') /\ rooted (Finalise d del) d'.
Proof.
  intros [H Hp] Hb. destruct (Finalise_ok d del H) as (H1 & Hv & Hs & He). pose proof (Finalise_pending d del Hp He) as Hp1.
  unfold IntermediateRoot. set (d1 := Finalise d del) in *. destruct (write_all_ok _ (NoDup_elements (stateObjectsPending d1)) d1) as (d2 & -> & W).
  { intros a Ha%elem_of_elements. destruct (Hp1 a Ha) as [[o Eo] _]. exists o. split; [done|]. split; [by apply (so_objects _ H1)|].
    intros Ed. assert (vBalance (view_of d1) a = obj_Balance o) as <- by (cbn; unfold live, object; rewrite Eo; cbn; by rewrite Ed).
    rewrite (ve_Balance _ _ Hv). cbn. case_match; [done|apply Hb]. }
  cbn [obind]. set (d3 := s_marks d2 ∅ (stateObjectsDirty d2)). assert (forall a, a ∈ elements (stateObjectsPending d1) -> is_Some (stateObjects d1 !! a)) as Hl.
  { intros a Ha%elem_of_elements. apply (Hp1 a Ha). }
  pose proof (written_ok _ _ _ W Hl H1 He) as H2. pose proof (written_live _ _ _ W Hl) as Hlive. pose proof (wr_fields _ _ _ W) as [F1 F2 F3 F4 F5 F6 F7].
  exists d3. split; [done|]. split.
  - split; [|intros a []%elem_of_empty]. by destruct H2 as [[] ? ? ? ?].
  - change (jrnl d3) with (jrnl d2). by rewrite F5.
  - done.
  - apply (live_same_accounts d1 d2); [done|done|]. unfold GetLogs. by rewrite F3, F4.
  - intros a k. by apply (live_same_state d1 d2).
  - intros E a Ha Hr. apply (stored_reads d2). apply (wr_stored _ _ _ W E); [by apply elem_of_elements|done].
Qed.

End root.

(** ** A concrete store *)

(** Tries as maps; an account is encoded as its fields, or as its nonce and balance. *)
#[export] Instance MapStore : StateStore := {|
  Trie := gmap bytes bytes;
  OpenStorageTrie _ root := if root =? emptyRoot then Some ∅ else None;
  EmptyStorageTrie _ := ∅;
  TryGet t k := Some (default [] (t !! k));
  TryUpdate t k v := Some (<[k := v]> t);
  TryDelete t k := Some (delete k t);
  Trie_Hash _ := emptyRoot;
  ContractCode _ _ := None;
  ContractCodeSize _ _ := None;
  decodeAccount b :=
    match b with
    | [n; x] => Some (MkAccount n (Some x) 0 None)
    | [n; x; r; h] => Some (MkAccount n (Some x) r (Some h))
    | _ => None
    end;
  encodeAccount a :=
    let x := default 0 (acc_Balance a) in
    if x <? 0 then None else Some [acc_Nonce a; x; acc_Root a; default emptyCodeHash (acc_CodeHash a)];
|}.

#[export] Instance MapStoreLaws : StateStoreLaws MapStore.
Proof.
  split.
  - intros ah. exists ∅. split; [done|]. intros k. cbn. by rewrite lookup_empty.
  - intros t k v t' [= <-] _. cbn. by rewrite lookup_insert_eq.
  - intros t k v t' k' [= <-] Hk. cbn. by rewrite lookup_insert_ne.
  - intros t k t' [= <-]. cbn. by rewrite lookup_delete_eq.
  - intros t k t' k' [= <-] Hk. cbn. by rewrite lookup_delete_ne.
  - intros n x r h Hx. cbn. destruct (Z.ltb_spec x 0); [lia|]. eexists. by split_and!.
Qed.

(** Accounts without code. *)
Definition plain (t : gmap bytes bytes) : Prop := map_Forall (fun _ enc => length enc = 2%nat) t.

Lemma MapStore_load (t : @Trie MapStore) a o : plain t -> load (SS := MapStore) t a = Some o -> obj_ok a o.
Proof.
  intros Ht. unfold load, TryGet_account. destruct (in_range a); [|done].
  change (TryGet (StateStore := MapStore) t (Address_Bytes a)) with (Some (default [] (t !! Address_Bytes a))). destruct (t !! Address_Bytes a) as [enc|] eqn:E; [|done].
  apply Ht in E. destruct enc as [|x [|y [|]]]; try done. cbn. by intros [= <-].
Qed.

Lemma New_ok (t : @Trie MapStore) : plain t -> sdb_ok (New (SS := MapStore) t).
Proof.
  intros Ht.
  split.
  - split; [|intros a o _; by apply MapStore_load]. intros a o. cbn. by rewrite lookup_empty.
  - constructor.
  - split; [|by split]. intros a _. unfold settled. cbn [view_of vState vCommitted vSuicided]. rewrite New_live. unfold load.
    destruct (TryGet_account t a) as [[|x enc]|]; [done|by destruct (decodeAccount (x :: enc))|done].
  - intros a. cbn. by rewrite lookup_empty.
  - by repeat constructor.
Qed.

(** An account with balance 100, and some calls with nested snapshots. *)
Definition demo_trie : gmap bytes bytes := {[ Address_Bytes 7 := [1; 100] ]}.

Lemma demo_trie_plain : plain demo_trie.
Proof. unfold plain, demo_trie. by apply map_Forall_singleton. Qed.

Definition demo_ops : list dbop :=
  [ DSubBalance 7 30; DAddBalance 8 30; DSnapshot; DSetState 8 1 5; DSetCode 8 [96; 0]; DAddRefund 10; DSnapshot;
    DSetState 8 1 6; DSuicide 7; DAddLog (MkLog 8 [1] [2] 0); DSubRefund 4; DRevertToSnapshot 2; DGetState 8 1; DGetBalance 7;
    DGetRefund; DGetCodeSize 8; DCreateAccount 8; DGetState 8 1; DGetBalance 8; DHasSuicided 7 ].

Lemma demo_ops_ok : Forall dbop_ok demo_ops.
Proof.
  repeat (apply Forall_cons_2; [cbn; try exact I|]); [|by apply Forall_nil_2].
  split; [|vm_compute; discriminate]. repeat (apply Forall_cons_2; [unfold is_byte; lia|]). by apply Forall_nil_2.
Qed.

Lemma statedb_refines_witness :
  let d := New (SS := MapStore) demo_trie in
  same_outcome (dbops_run (S := statedb_StateDB) demo_ops d)
    (dbops_run (S := StateDB_ref) demo_ops (MkRefdb (view_of d) [] 0)).
Proof. cbv zeta. apply statedb_refines; [apply demo_ops_ok|]. split_and!; try done. apply New_ok, demo_trie_plain. Defined.

Lemma snapshot_revert_witness :
  let d := New (SS := MapStore) demo_trie in
  match dbops_run (S := statedb_StateDB) demo_ops (snd (StateDB_Snapshot d)) with
  | Ok (_, d2) =>
      exists d3, StateDB_RevertToSnapshot d2 0 = Ok d3 /\ view_of d3 ≡ view_of d /\ sdb_ok d3 /\
        snaps_eq (sdb_snaps d3) (sdb_snaps d)
  | Panic p => p = PanicRefund \/ p = PanicRevision
  | NoFuel => False
  end.
Proof.
  cbv zeta. apply (snapshot_revert demo_ops (New (SS := MapStore) demo_trie) (New_ok _ demo_trie_plain) demo_ops_ok).
  repeat (apply Forall_cons_2; [cbn; try exact I; lia|]). by apply Forall_nil_2.
Defined.

(** The calls return what they should, and the revert is not refused. *)
Example demo_results :
  match dbops_run (S := statedb_StateDB) demo_ops (snd (StateDB_Snapshot (New (SS := MapStore) demo_trie))) with
  | Ok (rs, _) => drop 12 rs
  | _ => []
  end = [RInt 5; RInt 70; RInt 10; RInt 2; RUnit; RInt 0; RInt 30; RBool false].
Proof. vm_compute. reflexivity. Qed.

Lemma Finalise_correct_witness :
  let d := StateDB_AddBalance (New (SS := MapStore) demo_trie) 9 0 in
  sdb_ok (Finalise d true) /\ view_of (Finalise d true) ≡ v_Finalise true (visited d) (view_of d) /\
  sdb_snaps (Finalise d true) = [] /\ entries (jrnl (Finalise d true)) = [].
Proof.
  cbv zeta. apply Finalise_correct. apply (AddBalance_eff 9 0 (New (SS := MapStore) demo_trie)). apply New_ok, demo_trie_plain.
Defined.

(** Touching an empty account makes it, ending the transaction removes it. *)
Example demo_touch :
  let d := StateDB_AddBalance (New (SS := MapStore) demo_trie) 9 0 in
  fst (StateDB_Exist d 9) = true /\ fst (StateDB_Exist (Finalise d true) 9) = false /\
  fst (StateDB_GetBalance (Finalise d true) 7) = 100.
Proof. vm_compute. auto. Qed.

(** The storage an override sets ([SetStorage], for [eth_call]) is outside of the
    journal: a store into it survives the revert of the call that made it. *)
Lemma fake_storage_not_reverted :
  let d := StateDB_SetStorage (New (SS := MapStore) demo_trie) 7 {[ 1 := 5 ]} in
  let '(i, d1) := StateDB_Snapshot d in
  fst (StateDB_GetState d 7 1) = 5 /\
  match StateDB_RevertToSnapshot (StateDB_SetState d1 7 1 6) i with
  | Ok d2 => fst (StateDB_GetState d2 7 1) = 6
  | _ => False
  end.
Proof. vm_compute. auto. Qed.

(** An account is created; the root is that of a trie that has it. *)
Lemma New_good (t : @Trie MapStore) : plain t -> db_good (New t).
Proof. intros H. split; [by apply New_ok|]. intros a []%elem_of_empty. Qed.


Example root_runs :
  match IntermediateRoot (StateDB_AddBalance (New (SS := MapStore) demo_trie) 9 5) true with
  | Ok (_, d) => map (vBalance (view_of (New (trie d)))) [7; 8; 9] = [100; 0; 5] /\ dbErr d = false
  | _ => False
  end.
Proof. vm_compute. by split. Qed.
