(* ===== verification/RlpStream.v ===== *)
(** * The RLP stream decoder

    [rlp/decode.go]: the [Stream] that reads values off an input, and the
    decoders built for a Go type by [makeDecoder].  The input is a
    [bytes.Reader], given by the bytes it has left.  A decoder returns the value
    it stores in its target; on success this value does not depend on what the
    target held before.  Types with a [DecodeRLP] method of their own are not
    covered. *)

From Stdlib Require Import ZArith Lia.
From S2P Require Import Prelude Common Rlp.

Open Scope go_scope.

(** ** Stream *)

Record listpos := Listpos { pos : Z; lsize : Z }.

(** [kind] is [None] where the code has -1: the kind of the next value has to be
    read.  [stack] has its last element first. *)
Record Stream := MkStream {
  reader : bytes;
  remaining : Z;
  limited : bool;
  kind : option Kind;
  size : Z;
  byteval : Z;
  kinderr : option rlp_error;
  stack : list listpos
}.

Definition set_reader (s : Stream) (r : bytes) : Stream :=
  MkStream r (remaining s) (limited s) (kind s) (size s) (byteval s) (kinderr s) (stack s).
Definition set_remaining (s : Stream) (n : Z) : Stream :=
  MkStream (reader s) n (limited s) (kind s) (size s) (byteval s) (kinderr s) (stack s).
Definition set_kind (s : Stream) (k : option Kind) : Stream :=
  MkStream (reader s) (remaining s) (limited s) k (size s) (byteval s) (kinderr s) (stack s).
Definition set_size (s : Stream) (n : Z) : Stream :=
  MkStream (reader s) (remaining s) (limited s) (kind s) n (byteval s) (kinderr s) (stack s).
Definition set_byteval (s : Stream) (b : Z) : Stream :=
  MkStream (reader s) (remaining s) (limited s) (kind s) (size s) b (kinderr s) (stack s).
Definition set_kinderr (s : Stream) (e : option rlp_error) : Stream :=
  MkStream (reader s) (remaining s) (limited s) (kind s) (size s) (byteval s) e (stack s).
Definition set_stack (s : Stream) (l : list listpos) : Stream :=
  MkStream (reader s) (remaining s) (limited s) (kind s) (size s) (byteval s) (kinderr s) l.

(** Code that returns a value or an error. *)
Abbreviation ME A := (M Stream (rres A)) (only parsing).

Definition ebind {A B} (m : ME A) (f : A -> ME B) : ME B :=
  bind m (fun r => match r with inl a => f a | inr e => ret (inr e) end).
Definition eret {A} (a : A) : ME A := ret (inl a).
Definition throw {A} (e : rlp_error) : ME A := ret (inr e).

Notation "x <-! m ;; k" := (ebind m (fun x => k))
  (at level 20, m at level 99, k at level 200, only parsing) : go_scope.
Notation "' pat <-! m ;; k" := (ebind m (fun x => match x with pat => k end))
  (at level 20, pat pattern, m at level 99, k at level 200, only parsing) : go_scope.
Notation "m ;;! k" := (ebind m (fun _ => k))
  (at level 100, k at level 200, right associativity, only parsing) : go_scope.

(** [Reset] on a [bytes.Reader]: without a limit the length of the reader is
    taken. *)
Definition Reset (r : bytes) (inputLimit : Z) : Stream :=
  MkStream r (if 0 <? inputLimit then inputLimit else zlen r) true None 0 0 None [].

(** [willRead(n)] accounts for [n] bytes of input before they are read. *)
Definition willRead (n : Z) : ME unit :=
  modify (fun s => set_kind s None) ;;;
  s <~ get ;;
  match stack s with
  | tos :: below =>
      if u64 (lsize tos - pos tos) <? n then throw ErrElemTooLarge
      else modify (fun s => set_stack s (Listpos (u64 (pos tos + n)) (lsize tos) :: below)) ;;; eret tt
  | [] => eret tt
  end ;;!
  s <~ get ;;
  if limited s then
    if remaining s <? n then throw ErrValueTooLarge
    else modify (fun s => set_remaining s (u64 (remaining s - n))) ;;; eret tt
  else eret tt.

Definition readByte : ME Z :=
  willRead 1 ;;!
  s <~ get ;;
  match reader s with
  | b :: r => put (set_reader s r) ;;; eret b
  | [] => throw ErrUnexpectedEOF
  end.

(** [readFull(buf)] returns the [n = len(buf)] bytes it puts into [buf]. *)
Definition readFull (n : Z) : ME bytes :=
  willRead n ;;!
  s <~ get ;;
  if zlen (reader s) <? n then put (set_reader s []) ;;; throw ErrUnexpectedEOF
  else
    put (set_reader s (drop (Z.to_nat n) (reader s))) ;;;
    eret (take (Z.to_nat n) (reader s)).

(** [readUint(size)]; [uintbuf] is filled with zeroes and the bytes read. *)
Definition readUint (size : Z) : ME Z :=
  if size =? 0 then modify (fun s => set_kind s None) ;;; eret 0
  else if size =? 1 then readByte
  else if 8 <? size then raise PanicIndex
  else
    buf <-! readFull size ;;
    match buf with
    | b :: _ => if b =? 0 then throw ErrCanonSize else eret (be_val buf)
    | [] => raise PanicIndex
    end.

(** [readKind] returns kind and size also when it returns an error. *)
Definition readKind_size (k : Kind) (n : Z) : M Stream (Kind * Z * option rlp_error) :=
  r <~ readUint n ;;
  match r with
  | inl size => ret (k, size, if size <? 56 then Some ErrCanonSize else None)
  | inr e => ret (k, 0, Some e)
  end.

Definition Stream_readKind : M Stream (Kind * Z * option rlp_error) :=
  r <~ readByte ;;
  match r with
  | inr e =>
      s <~ get ;;
      ret (KByte, 0,
           Some (match stack s, e with
                 | [], ErrUnexpectedEOF => ErrEOF
                 | [], ErrValueTooLarge => ErrEOF
                 | _, _ => e
                 end))
  | inl b =>
      modify (fun s => set_byteval s 0) ;;;
      if b <? 128 then modify (fun s => set_byteval s b) ;;; ret (KByte, 0, None)
      else if b <? 184 then ret (KString, b - 128, None)
      else if b <? 192 then readKind_size KString (b - 183)
      else if b <? 248 then ret (KList, b - 192, None)
      else readKind_size KList (b - 247)
  end.

(** [Kind]: what the stream has cached, or the kind of the next value, which is
    then cached. *)
Definition Kind_cached : ME (Kind * Z) :=
  s <~ get ;;
  match kind s, kinderr s with
  | Some k, None => eret (k, size s)
  | _, Some e => throw e
  | None, None => raise PanicOther
  end.

Definition Kind_check (s : Stream) (size : Z) : option rlp_error :=
  match stack s with
  | [] => if limited s && (remaining s <? size) then Some ErrValueTooLarge else None
  | tos :: _ => if u64 (lsize tos - pos tos) <? size then Some ErrElemTooLarge else None
  end.

Definition at_list_end (s : Stream) : bool :=
  match stack s with
  | tos :: _ => pos tos =? lsize tos
  | [] => false
  end.

Definition Stream_Kind : ME (Kind * Z) :=
  s <~ get ;;
  match kind s with
  | Some _ => Kind_cached
  | None =>
      modify (fun s => set_kinderr s None) ;;;
      if at_list_end s then throw EOL
      else
        ' (k, n, err) <~ Stream_readKind ;;
        modify (fun s =>
          set_kinderr (set_size (set_kind s (Some k)) n)
            (match err with None => Kind_check s n | Some e => Some e end)) ;;;
        Kind_cached
  end.

Definition Stream_Bytes : ME bytes :=
  ' (k, n) <-! Stream_Kind ;;
  match k with
  | KByte =>
      modify (fun s => set_kind s None) ;;;
      b <~ gets byteval ;; eret [b]
  | KString =>
      b <-! readFull n ;;
      if (n =? 1) && (match b with x :: _ => x <? 128 | [] => false end)
      then throw ErrCanonSize
      else eret b
  | KList => throw ErrExpectedString
  end.

Definition Stream_Raw : ME bytes :=
  ' (k, n) <-! Stream_Kind ;;
  match k with
  | KByte =>
      modify (fun s => set_kind s None) ;;;
      b <~ gets byteval ;; eret [b]
  | KString => b <-! readFull n ;; eret (puthead 128 183 n ++ b)
  | KList => b <-! readFull n ;; eret (puthead 192 247 n ++ b)
  end.

(** [uint(maxbits)] *)
Definition Stream_uint (maxbits : Z) : ME Z :=
  ' (k, n) <-! Stream_Kind ;;
  match k with
  | KByte =>
      b <~ gets byteval ;;
      if b =? 0 then throw ErrCanonInt
      else modify (fun s => set_kind s None) ;;; eret b
  | KString =>
      if maxbits / 8 <? n then throw ErrUintOverflow
      else
        r <~ readUint (u8 n) ;;
        match r with
        | inr ErrCanonSize => throw ErrCanonInt
        | inr e => throw e
        | inl v => if (0 <? n) && (v <? 128) then throw ErrCanonSize else eret v
        end
  | KList => throw ErrExpectedString
  end.

Definition Stream_Uint : ME Z := Stream_uint 64.

Definition Stream_Bool : ME bool :=
  num <-! Stream_uint 8 ;;
  if num =? 0 then eret false
  else if num =? 1 then eret true
  else throw (ErrInvalidBool num).

Definition Stream_List : ME Z :=
  ' (k, n) <-! Stream_Kind ;;
  match k with
  | KList =>
      modify (fun s => set_size (set_kind (set_stack s (Listpos 0 n :: stack s)) None) 0) ;;;
      eret n
  | _ => throw ErrExpectedList
  end.

Definition Stream_ListEnd : ME unit :=
  s <~ get ;;
  match stack s with
  | [] => throw ErrNotInList
  | tos :: below =>
      if negb (pos tos =? lsize tos) then throw ErrNotAtEOL
      else
        let below' := match below with
                      | [] => []
                      | t :: l => Listpos (u64 (pos t + lsize tos)) (lsize t) :: l
                      end in
        put (set_size (set_kind (set_stack s below') None) 0) ;;;
        eret tt
  end.

(** ** Decoders *)

Definition wrapStreamError (e : rlp_error) : rlp_error :=
  match e with
  | ErrCanonInt => DecodeError MsgCanonInt
  | ErrCanonSize => DecodeError MsgCanonSize
  | ErrExpectedList => DecodeError MsgExpectedList
  | ErrExpectedString => DecodeError MsgExpectedString
  | ErrUintOverflow => DecodeError MsgTooLong
  | ErrNotAtEOL => DecodeError MsgTooManyElements
  | e => e
  end.

Definition wrap {A} (m : ME A) : ME A :=
  r <~ m ;; ret (match r with inl a => inl a | inr e => inr (wrapStreamError e) end).

Abbreviation decoder := (M Stream (rres rval)) (only parsing).

Definition decodeRawValue : decoder := b <-! Stream_Raw ;; eret (VRaw b).
Definition decodeUint (bits : Z) : decoder := num <-! wrap (Stream_uint bits) ;; eret (VUint num).
Definition decodeBool : decoder := b <-! wrap Stream_Bool ;; eret (VBool b).
Definition decodeString : decoder := b <-! wrap Stream_Bytes ;; eret (VBytes b).
Definition decodeByteSlice : decoder := b <-! wrap Stream_Bytes ;; eret (VBytes b).

Definition decodeBigInt : decoder :=
  b <-! wrap Stream_Bytes ;;
  if (match b with x :: _ => x =? 0 | [] => false end) then throw (wrapStreamError ErrCanonInt)
  else eret (VBigInt (be_val b)).

(** [bv, _ := s.Uint()] drops the error of [Uint]. *)
Definition decodeByteArray (vlen : Z) : decoder :=
  ' (k, n) <-! Stream_Kind ;;
  match k with
  | KByte =>
      if vlen =? 0 then throw (DecodeError MsgTooLong)
      else if 1 <? vlen then throw (DecodeError MsgTooShort)
      else
        r <~ Stream_Uint ;;
        eret (VByteArray [u8 (match r with inl bv => bv | inr _ => 0 end)])
  | KString =>
      if vlen <? n then throw (DecodeError MsgTooLong)
      else if n <? vlen then throw (DecodeError MsgTooShort)
      else
        slice <-! readFull vlen ;;
        if (n =? 1) && (match slice with x :: _ => x <? 128 | [] => false end)
        then throw (wrapStreamError ErrCanonSize)
        else eret (VByteArray slice)
  | KList => throw (wrapStreamError ErrExpectedString)
  end.

(** [decodeSliceElems]: elements until the end of the list; one round of the
    loop per unit of fuel. *)
Fixpoint decodeSliceElems (fuel : nat) (elemdec : decoder) (acc : list rval) : ME (list rval) :=
  match fuel with
  | O => fun _ => NoFuel
  | S fuel =>
      r <~ elemdec ;;
      match r with
      | inl v => decodeSliceElems fuel elemdec (acc ++ [v])
      | inr EOL => eret acc
      | inr e => throw e
      end
  end.

Definition decodeListSlice (fuel : nat) (elemdec : decoder) : decoder :=
  n <-! wrap Stream_List ;;
  if n =? 0 then Stream_ListEnd ;;! eret (VList [])
  else
    l <-! decodeSliceElems fuel elemdec [] ;;
    Stream_ListEnd ;;! eret (VList l).

(** The elements of an array; [None] when the input has too few. *)
Fixpoint array_elems (vlen : nat) (elemdec : decoder) (acc : list rval) : ME (option (list rval)) :=
  match vlen with
  | O => eret (Some acc)
  | S vlen =>
      r <~ elemdec ;;
      match r with
      | inl v => array_elems vlen elemdec (acc ++ [v])
      | inr EOL => eret None
      | inr e => throw e
      end
  end.

Definition decodeListArray (vlen : nat) (elemdec : decoder) : decoder :=
  wrap Stream_List ;;!
  o <-! array_elems vlen elemdec [] ;;
  match o with
  | None => throw (DecodeError MsgTooFewListElements)
  | Some l => wrap Stream_ListEnd ;;! eret (VList l)
  end.

(** The fields of a struct in order. *)
Fixpoint struct_fields (fields : list decoder) (acc : list rval) : ME (list rval) :=
  match fields with
  | [] => eret acc
  | f :: fields =>
      r <~ f ;;
      match r with
      | inl v => struct_fields fields (acc ++ [v])
      | inr EOL => throw (DecodeError MsgTooFewElements)
      | inr e => throw e
      end
  end.

(** [tail] decodes the elements of a last field tagged with it. *)
Definition makeStructDecoder (fields : list decoder) (tail : option (ME (list rval))) : decoder :=
  wrap Stream_List ;;!
  l <-! struct_fields fields [] ;;
  l' <-! match tail with None => eret [] | Some m => m end ;;
  wrap Stream_ListEnd ;;! eret (VList (l ++ l')).

Definition Kind_eqb (a b : Kind) : bool :=
  match a, b with
  | KByte, KByte | KString, KString | KList, KList => true
  | _, _ => false
  end.

Definition makeNilPtrDecoder (nilKind : Kind) (elemdec : decoder) : decoder :=
  ' (k, n) <-! wrap Stream_Kind ;;
  if negb (Kind_eqb k KByte) && (n =? 0) then
    if negb (Kind_eqb k nilKind) then throw (DecodeError (MsgWrongEmpty k nilKind))
    else modify (fun s => set_kind s None) ;;; eret (VNilPtr nilKind)
  else elemdec.

(** [decodeInterface] for [interface{}]; the fuel also bounds the nesting. *)
Fixpoint decodeInterface (fuel : nat) : decoder :=
  match fuel with
  | O => fun _ => NoFuel
  | S fuel =>
      ' (k, _) <-! Stream_Kind ;;
      match k with
      | KList => decodeListSlice fuel (decodeInterface fuel)
      | _ => b <-! Stream_Bytes ;; eret (VBytes b)
      end
  end.

(** ** Types

    The Go types [makeDecoder] distinguishes.  A struct is given by the types of
    the fields [structFields] returns, without the ignored ones; a pointer field
    carries the kind of its [nil] tag. *)
Inductive rtype :=
| TRaw | TBigInt | TUint (bits : Z) | TBool | TString | TBytes
| TByteArray (vlen : nat)
| TPtr (nilOK : option Kind) (elem : rtype)
| TSlice (elem : rtype)
| TArray (vlen : nat) (elem : rtype)
| TStruct (fields : list rtype) (tail : option rtype)
| TInterface.

Fixpoint makeDecoder (fuel : nat) (t : rtype) {struct t} : decoder :=
  match t with
  | TRaw => decodeRawValue
  | TBigInt => decodeBigInt
  | TUint bits => decodeUint bits
  | TBool => decodeBool
  | TString => decodeString
  | TBytes => decodeByteSlice
  | TByteArray vlen => decodeByteArray (Z.of_nat vlen)
  | TPtr None t => makeDecoder fuel t
  | TPtr (Some nilKind) t => makeNilPtrDecoder nilKind (makeDecoder fuel t)
  | TSlice t => decodeListSlice fuel (makeDecoder fuel t)
  | TArray vlen t => decodeListArray vlen (makeDecoder fuel t)
  | TStruct ts tail =>
      makeStructDecoder (map (makeDecoder fuel) ts)
        (match tail with
         | None => None
         | Some t => Some (decodeSliceElems fuel (makeDecoder fuel t) [])
         end)
  | TInterface => decodeInterface fuel
  end.

(** [DecodeBytes(b, val)] into a target of type [t]. *)
Definition DecodeBytes (fuel : nat) (t : rtype) (b : bytes) : outcome (rres rval) :=
  match makeDecoder fuel t (Reset b (zlen b)) with
  | Ok (inl v, s) => Ok (if 0 <? zlen (reader s) then inr ErrMoreThanOneValue else inl v)
  | Ok (inr e, _) => Ok (inr e)
  | Panic p => Panic p
  | NoFuel => NoFuel
  end.
