(* ===== verification/RlpSpec.v ===== *)
(** * RLP as the Yellow Paper defines it

    The reference encoding [rlp] of Appendix B, and the proof that the encoder
    of [rlp/encode.go], which writes list contents first and inserts the list
    headers afterwards, computes it. *)

From Stdlib Require Import ZArith Lia.
From S2P Require Import Prelude Common Rlp.

(** ** Minimal big-endian integers *)

Definition byte_len (i : Z) : Z := if i <=? 0 then 0 else Z.log2 i / 8 + 1.

(** [BE(i)]: no leading zero byte, and nothing for zero. *)
Definition be_min (i : Z) : bytes := be_bytes (Z.to_nat (byte_len i)) i.

Definition leading_ok (l : bytes) : Prop := match l with x :: _ => x <> 0 | [] => True end.

Lemma byte_len_unique i k : 0 < k -> 256 ^ (k - 1) <= i < 256 ^ k -> byte_len i = k.
Proof.
  intros Hk [Hl Hu]. assert (0 < 256 ^ (k - 1)) by (apply Z.pow_pos_nonneg; lia).
  unfold byte_len. destruct (Z.leb_spec i 0); [lia|].
  change 256 with (2 ^ 8) in Hl, Hu. rewrite <- !Z.pow_mul_r in Hl, Hu by lia.
  apply Z.log2_le_pow2 in Hl; [|lia]. apply Z.log2_lt_pow2 in Hu; [|lia].
  assert (Z.log2 i / 8 = k - 1); [|lia].
  symmetry. apply Z.div_unique with (r := Z.log2 i - 8 * (k - 1)); lia.
Qed.

Lemma byte_len_bounds i : 0 < i -> 0 < byte_len i /\ 256 ^ (byte_len i - 1) <= i < 256 ^ byte_len i.
Proof.
  intros Hi. unfold byte_len. destruct (Z.leb_spec i 0); [lia|].
  pose proof (Z.log2_nonneg i). pose proof (Z.log2_spec i Hi) as [Hl Hu].
  pose proof (Z.div_mod (Z.log2 i) 8 ltac:(lia)).
  pose proof (Z.mod_pos_bound (Z.log2 i) 8 ltac:(lia)).
  split; [lia|]. change 256 with (2 ^ 8). rewrite <- !Z.pow_mul_r by lia. split.
  - etransitivity; [|exact Hl]. apply Z.pow_le_mono_r; lia.
  - eapply Z.lt_le_trans; [exact Hu|]. apply Z.pow_le_mono_r; lia.
Qed.

Lemma byte_len_nonneg i : 0 <= byte_len i.
Proof.
  destruct (Z.le_gt_cases i 0).
  - unfold byte_len. destruct (Z.leb_spec i 0); lia.
  - pose proof (byte_len_bounds i ltac:(lia)). lia.
Qed.

Lemma zlen_be_min i : zlen (be_min i) = byte_len i.
Proof.
  unfold be_min, zlen. rewrite be_bytes_length. pose proof (byte_len_nonneg i). lia.
Qed.

Lemma be_min_bytes i : Forall is_byte (be_min i).
Proof. apply be_bytes_is_byte. Qed.

Lemma be_val_be_min i : 0 <= i -> be_val (be_min i) = i.
Proof.
  intros Hi. unfold be_min. rewrite be_val_be_bytes, Z2Nat.id by apply byte_len_nonneg.
  apply Z.mod_small. split; [done|]. destruct (Z.le_gt_cases i 0).
  - replace i with 0 by lia. reflexivity.
  - apply byte_len_bounds. lia.
Qed.

Lemma be_val_leading x l :
  Forall is_byte (x :: l) -> x <> 0 -> 256 ^ zlen l <= be_val (x :: l) < 256 ^ (1 + zlen l).
Proof.
  intros Hl Hx. pose proof (be_val_bound _ Hl) as Hb. rewrite zlen_cons in Hb.
  split; [|lia]. rewrite be_val_cons. apply Forall_cons in Hl as [Hx' Hl].
  pose proof (be_val_bound _ Hl). unfold is_byte in Hx'. nia.
Qed.

Lemma be_min_be_val l : Forall is_byte l -> leading_ok l -> be_min (be_val l) = l.
Proof.
  destruct l as [|x l]; [done|]. cbn [leading_ok]. intros Hl Hx.
  unfold be_min. rewrite (byte_len_unique _ (zlen (x :: l))).
  - unfold zlen. rewrite Nat2Z.id. by apply be_bytes_be_val.
  - rewrite zlen_cons. pose proof (zlen_nonneg l). lia.
  - rewrite zlen_cons. replace (1 + zlen l - 1) with (zlen l) by lia. by apply be_val_leading.
Qed.

Lemma be_min_leading i : leading_ok (be_min i).
Proof.
  destruct (be_min i) as [|x l] eqn:E; [done|]. cbn. intros ->.
  assert (0 < i) as Hi.
  { destruct (Z.le_gt_cases i 0); [|lia]. unfold be_min, byte_len in E.
    destruct (Z.leb_spec i 0); [done|lia]. }
  pose proof (byte_len_bounds i Hi) as [Hk [Hl _]].
  pose proof (be_val_be_min i ltac:(lia)) as Hv. pose proof (be_min_bytes i) as Hb.
  pose proof (zlen_be_min i) as Hz. rewrite E in *. rewrite be_val_cons in Hv.
  apply Forall_cons in Hb as [_ Hb]. pose proof (be_val_bound _ Hb).
  rewrite zlen_cons in Hz. replace (byte_len i - 1) with (zlen l) in Hl by lia. lia.
Qed.

(** [putint] writes exactly these bytes. *)
Lemma be_min_fixed k i : 0 < Z.of_nat k -> 256 ^ (Z.of_nat k - 1) <= i < 256 ^ Z.of_nat k -> be_min i = be_bytes k i.
Proof. intros Hk Hi. unfold be_min. rewrite (byte_len_unique _ _ Hk Hi). by rewrite Nat2Z.id. Qed.

Lemma putint_be_min i : 0 < i < two64 -> putint i = be_min i.
Proof.
  unfold two64. intros Hi. unfold putint. rewrite !Z.shiftl_mul_pow2, !Z.shiftr_div_pow2 by lia.
  repeat match goal with
  | |- context [if i <? ?c then _ else _] =>
      let c' := eval cbv in c in change c with c'; destruct (Z.ltb_spec i c')
  end;
  match goal with
  | |- ?l = _ => let n := eval cbv in (length l) in rewrite (be_min_fixed n i);
      [|reflexivity|match goal with |- ?a <= i < ?b =>
        let a' := eval cbv in a in let b' := eval cbv in b in change (a' <= i < b'); lia end]
  end;
  unfold u8; cbn [be_bytes app]; rewrite ?Z.div_div by lia; cbn;
  change (Z.pow_pos 2 8) with 256; rewrite ?Z.div_1_r; reflexivity.
Qed.

Lemma byte_len_shift i : 0 < i -> byte_len i = 1 + byte_len (i / 256).
Proof.
  intros Hi. destruct (Z.lt_ge_cases i 256) as [Hs|Hs].
  - rewrite Z.div_small, (byte_len_unique i 1) by (cbn; lia). reflexivity.
  - assert (0 < i / 256) as Hp by (apply Z.div_str_pos; lia).
    destruct (byte_len_bounds _ Hp) as (Hk & Hl & Hu).
    apply byte_len_unique; [lia|].
    replace (1 + byte_len (i / 256) - 1) with (Z.succ (byte_len (i / 256) - 1)) by lia.
    rewrite Z.add_comm, (Z.pow_succ_r _ (byte_len (i / 256))), Z.pow_succ_r by lia.
    pose proof (Z.div_mod i 256 ltac:(lia)). pose proof (Z.mod_pos_bound i 256 ltac:(lia)). lia.
Qed.

Lemma intsize_loop_spec n size i :
  0 <= i < 256 ^ (Z.of_nat n) -> intsize_loop n size i = size + byte_len (i / 256).
Proof.
  revert size i. induction n as [|n IH]; intros size i Hi.
  - change (256 ^ Z.of_nat 0) with 1 in Hi. assert (i = 0) as -> by lia.
    change (byte_len (0 / 256)) with 0. cbn [intsize_loop]. lia.
  - cbn [intsize_loop]. rewrite Z.shiftr_div_pow2 by lia. change (2 ^ 8) with 256.
    rewrite Nat2Z.inj_succ, Z.pow_succ_r in Hi by lia.
    destruct (Z.eqb_spec (i / 256) 0) as [->|Hne]; [change (byte_len 0) with 0; lia|].
    pose proof (Z.div_pos i 256 ltac:(lia) ltac:(lia)).
    rewrite IH by (split; [lia|apply Z.div_lt_upper_bound; lia]).
    rewrite (byte_len_shift (i / 256)) by lia. lia.
Qed.

Lemma intsize_byte_len i : 0 < i < two64 -> intsize i = byte_len i.
Proof.
  intros Hi. unfold intsize. change two64 with (256 ^ Z.of_nat 8) in Hi.
  rewrite intsize_loop_spec by lia. rewrite (byte_len_shift i) by lia. done.
Qed.

(** ** The reference encoding *)

(** The header of a string ([base] 128) or list ([base] 192) of [n] bytes. *)
Definition rlp_head (base n : Z) : bytes :=
  if n <? 56 then [base + n] else base + 55 + zlen (be_min n) :: be_min n.

Definition rlp_string (b : bytes) : bytes :=
  match b with
  | [x] => if x <? 128 then [x] else rlp_head 128 1 ++ b
  | _ => rlp_head 128 (zlen b) ++ b
  end.

Definition rlp_list (content : bytes) : bytes := rlp_head 192 (zlen content) ++ content.

Fixpoint rlp (v : rval) : bytes :=
  match v with
  | VBytes b | VByteArray b => rlp_string b
  | VUint i | VBigInt i => rlp_string (be_min i)
  | VBool b => rlp_string (be_min (if b then 1 else 0))
  | VRaw b => b
  | VNil => rlp_list []
  | VNilPtr k => match k with KString => rlp_string [] | _ => rlp_list [] end
  | VList l => rlp_list (concat (map rlp l))
  end.

(** What the writers accept: octets, 64-bit integers, and big integers that are
    not negative. *)
Fixpoint encodable (v : rval) : Prop :=
  match v with
  | VBytes b | VByteArray b | VRaw b => Forall is_byte b
  | VUint i => is_u64 i
  | VBigInt i => 0 <= i
  | VBool _ | VNil | VNilPtr _ => True
  | VList l => foldr and True (map encodable l)
  end.

Section rval_ind.
Variable P : rval -> Prop.
Hypothesis HBytes : forall b, P (VBytes b).
Hypothesis HByteArray : forall b, P (VByteArray b).
Hypothesis HUint : forall i, P (VUint i).
Hypothesis HBool : forall b, P (VBool b).
Hypothesis HBigInt : forall i, P (VBigInt i).
Hypothesis HRaw : forall b, P (VRaw b).
Hypothesis HNil : P VNil.
Hypothesis HNilPtr : forall k, P (VNilPtr k).
Hypothesis HList : forall l, Forall P l -> P (VList l).

Fixpoint rval_nested_ind (v : rval) : P v :=
  match v with
  | VBytes b => HBytes b
  | VByteArray b => HByteArray b
  | VUint i => HUint i
  | VBool b => HBool b
  | VBigInt i => HBigInt i
  | VRaw b => HRaw b
  | VNil => HNil
  | VNilPtr k => HNilPtr k
  | VList l =>
      HList l ((fix all (l : list rval) : Forall P l :=
                  match l with
                  | [] => Forall_nil_2 _
                  | v :: l => Forall_cons_2 _ _ _ (rval_nested_ind v) (all l)
                  end) l)
  end.
End rval_ind.

(** ** Headers *)

Lemma byte_len_u64 i : i < two64 -> byte_len i <= 8.
Proof.
  intros Hi. destruct (Z.le_gt_cases i 0) as [H|H].
  - unfold byte_len. destruct (Z.leb_spec i 0); lia.
  - pose proof (byte_len_bounds i ltac:(lia)) as (_ & Hl & _).
    change two64 with (256 ^ 8) in Hi.
    pose proof (Z.pow_lt_mono_r_iff 256 (byte_len i - 1) 8 ltac:(lia) ltac:(lia)). lia.
Qed.

Lemma u8_small x : 0 <= x < 256 -> u8 x = x.
Proof. apply Z.mod_small. Qed.

Lemma puthead_rlp_head base large n :
  base = 128 /\ large = 183 \/ base = 192 /\ large = 247 -> is_u64 n ->
  puthead base large n = rlp_head base n.
Proof.
  intros Hb Hn. unfold puthead, rlp_head. destruct (Z.ltb_spec n 56).
  - rewrite (u8_small n), u8_small by u64_lia. done.
  - rewrite putint_be_min by u64_lia. rewrite zlen_be_min.
    pose proof (byte_len_u64 n ltac:(u64_lia)). pose proof (byte_len_nonneg n).
    rewrite (u8_small (byte_len n)), u8_small by lia. f_equal. lia.
Qed.

Lemma headsize_rlp_head base n : is_u64 n -> headsize n = zlen (rlp_head base n).
Proof.
  intros Hn. unfold headsize, rlp_head. destruct (Z.ltb_spec n 56); [done|].
  rewrite zlen_cons, zlen_be_min, intsize_byte_len by u64_lia. done.
Qed.

Lemma rlp_head_length base n : is_u64 n -> 1 <= zlen (rlp_head base n) <= 9.
Proof.
  intros Hn. unfold rlp_head. destruct (Z.ltb_spec n 56); [rewrite zlen_cons, zlen_nil; lia|].
  rewrite zlen_cons, zlen_be_min. pose proof (byte_len_u64 n ltac:(u64_lia)).
  pose proof (byte_len_nonneg n). lia.
Qed.

(** ** Writers of strings and integers *)

Lemma wstr_wstr w a b : wstr (wstr w a) b = wstr w (a ++ b).
Proof. unfold wstr. cbn. by rewrite app_assoc. Qed.

Lemma encodeStringHeader_rlp w n : is_u64 n -> encodeStringHeader w n = wstr w (rlp_head 128 n).
Proof.
  intros Hn. rewrite <- (puthead_rlp_head 128 183) by auto.
  unfold encodeStringHeader, puthead. rewrite (u64_small n) by done. by destruct (n <? 56).
Qed.

Lemma encodeString_rlp w b : is_u64 (zlen b) -> encodeString w b = wstr w (rlp_string b).
Proof.
  intros Hn. unfold encodeString, rlp_string. destruct b as [|x [|y b]].
  - by rewrite encodeStringHeader_rlp, wstr_wstr.
  - destruct (Z.leb_spec x 127), (Z.ltb_spec x 128); try lia; [done|].
    by rewrite encodeStringHeader_rlp, wstr_wstr by (unfold is_u64, two64; lia).
  - by rewrite encodeStringHeader_rlp, wstr_wstr.
Qed.

Lemma writeByteArray_rlp w b : is_u64 (zlen b) -> writeByteArray w b = wstr w (rlp_string b).
Proof.
  intros Hn. unfold writeByteArray, rlp_string. destruct b as [|x [|y b]].
  - done.
  - destruct (Z.leb_spec x 127), (Z.ltb_spec x 128); done || lia.
  - by rewrite encodeStringHeader_rlp, wstr_wstr.
Qed.

Lemma rlp_string_long b : 2 <= zlen b -> rlp_string b = rlp_head 128 (zlen b) ++ b.
Proof. by destruct b as [|x [|y b]]. Qed.

Lemma be_min_small i : 0 < i < 256 -> be_min i = [i].
Proof.
  intros Hi. rewrite (be_min_fixed 1 i) by (cbn; lia). cbn [be_bytes app]. by rewrite Z.mod_small by lia.
Qed.

Lemma encodeUint_rlp w i : is_u64 i -> encodeUint w i = wstr w (rlp_string (be_min i)).
Proof.
  intros Hi. unfold encodeUint. destruct (Z.eqb_spec i 0) as [->|]; [done|].
  destruct (Z.lt_ge_cases i 256) as [Hs|Hs].
  - rewrite be_min_small by u64_lia. cbn [rlp_string].
    destruct (Z.ltb_spec i 128); [by rewrite u8_small by u64_lia|].
    rewrite putint_be_min, be_min_small by u64_lia. done.
  - destruct (Z.ltb_spec i 128); [lia|]. rewrite putint_be_min by u64_lia.
    pose proof (byte_len_u64 i ltac:(u64_lia)). pose proof (byte_len_shift i ltac:(lia)).
    pose proof (byte_len_shift (i / 256) ltac:(apply Z.div_str_pos; lia)).
    pose proof (byte_len_nonneg (i / 256 / 256)).
    rewrite rlp_string_long, !zlen_be_min by (rewrite zlen_be_min; lia).
    unfold rlp_head. destruct (Z.ltb_spec (byte_len i) 56); [|lia].
    by rewrite (u8_small (byte_len i)), u8_small by lia.
Qed.

Lemma byte_len_bits i : 0 < i -> Z.shiftr (Z.land (Z.log2 i + 1 + 7) (-8)) 3 = byte_len i.
Proof.
  intros Hi. rewrite Z.shiftr_land. change (Z.shiftr (-8) 3) with (-1).
  rewrite Z.land_m1_r, Z.shiftr_div_pow2 by lia. change (2 ^ 3) with 8.
  unfold byte_len. destruct (Z.leb_spec i 0); [lia|].
  replace (Z.log2 i + 1 + 7) with (Z.log2 i + 1 * 8) by lia. by rewrite Z.div_add by lia.
Qed.

Lemma writeBigInt_rlp w i :
  0 <= i -> byte_len i <= data_max -> writeBigInt w i = Some (wstr w (rlp_string (be_min i))).
Proof.
  intros Hi Hlen. unfold writeBigInt. destruct (Z.ltb_spec i 0); [lia|].
  destruct (Z.eqb_spec i 0) as [->|]; [done|].
  destruct (Z.leb_spec (Z.log2 i + 1) 64) as [Hb|Hb].
  - rewrite encodeUint_rlp; [done|]. split; [done|]. change two64 with (2 ^ 64). apply Z.log2_lt_pow2; lia.
  - rewrite byte_len_bits by lia. assert (9 <= byte_len i) as H9.
    { unfold byte_len. destruct (Z.leb_spec i 0); [lia|].
      pose proof (Z.div_le_mono 64 (Z.log2 i) 8 ltac:(lia) ltac:(lia)) as H1.
      change (64 / 8) with 8 in H1. lia. }
    rewrite encodeStringHeader_rlp, wstr_wstr by (unfold data_max in *; u64_lia).
    rewrite rlp_string_long, zlen_be_min by (rewrite zlen_be_min; lia). done.
Qed.

(** ** The encoder buffer

    [render p s heads] is what [toBytes] makes of the string data [s], which
    starts at offset [p] of [str], and the list heads of that part. *)

Fixpoint render (p : Z) (s : bytes) (heads : list listhead) : bytes :=
  match heads with
  | [] => s
  | h :: heads =>
      take (Z.to_nat (offset h - p)) s ++ listhead_encode h ++
      render (offset h) (drop (Z.to_nat (offset h - p)) s) heads
  end.

Fixpoint heads_ok (p : Z) (s : bytes) (heads : list listhead) : Prop :=
  match heads with
  | [] => True
  | h :: heads =>
      p <= offset h <= p + zlen s /\
      heads_ok (offset h) (drop (Z.to_nat (offset h - p)) s) heads
  end.

(** [w'] is [w] with the encoding [out] added. *)
Definition appended (w w' : encbuf) (out : bytes) : Prop :=
  exists s hs,
    str w' = str w ++ s /\ lheads w' = lheads w ++ hs /\
    lhsize w' = lhsize w + (zlen out - zlen s) /\
    heads_ok (zlen (str w)) s hs /\ render (zlen (str w)) s hs = out.

Lemma zlen_drop_sub (s : bytes) n : 0 <= n <= zlen s -> zlen (drop (Z.to_nat n) s) = zlen s - n.
Proof. unfold zlen. rewrite length_drop. lia. Qed.

Lemma render_app p s1 s2 hs1 hs2 :
  heads_ok p s1 hs1 -> heads_ok (p + zlen s1) s2 hs2 ->
  heads_ok p (s1 ++ s2) (hs1 ++ hs2) /\
  render p (s1 ++ s2) (hs1 ++ hs2) = render p s1 hs1 ++ render (p + zlen s1) s2 hs2.
Proof.
  revert p s1. induction hs1 as [|h hs1 IH]; intros p s1 H1 H2.
  - destruct hs2 as [|h hs2]; [done|]. cbn [heads_ok render app] in *.
    destruct H2 as [Ho H2]. pose proof (zlen_nonneg s1).
    assert (drop (Z.to_nat (offset h - p)) (s1 ++ s2)
            = drop (Z.to_nat (offset h - (p + zlen s1))) s2) as ->.
    { rewrite drop_app, drop_ge by (unfold zlen in *; lia). cbn [app]. f_equal. unfold zlen in *. lia. }
    rewrite take_app, (take_ge s1), <- app_assoc by (unfold zlen in *; lia).
    rewrite zlen_app. split; [split; [lia|done]|]. do 3 f_equal. unfold zlen in *. lia.
  - cbn [heads_ok render app] in *. destruct H1 as [Ho H1].
    rewrite drop_app_le, take_app_le by (unfold zlen in *; lia).
    destruct (IH (offset h) (drop (Z.to_nat (offset h - p)) s1)) as [Hk ->]; [done|..].
    { rewrite zlen_drop_sub by lia. by replace (offset h + _) with (p + zlen s1) by lia. }
    rewrite zlen_drop_sub by lia. replace (offset h + _) with (p + zlen s1) by lia.
    rewrite zlen_app, !app_assoc. pose proof (zlen_nonneg s2). split; [split; [lia|done]|done].
Qed.

Lemma appended_wstr w b : appended w (wstr w b) b.
Proof. exists b, []. cbn. rewrite app_nil_r. split_and!; try done. lia. Qed.

Lemma appended_nil w : appended w w [].
Proof. exists [], []. rewrite !app_nil_r. split_and!; try done. cbn. lia. Qed.

Lemma appended_trans w w1 w2 a b : appended w w1 a -> appended w1 w2 b -> appended w w2 (a ++ b).
Proof.
  intros (s1 & hs1 & Es1 & El1 & Eh1 & Ho1 & <-) (s2 & hs2 & Es2 & El2 & Eh2 & Ho2 & <-).
  rewrite Es1, zlen_app in Ho2, Eh2. rewrite Es1, zlen_app.
  destruct (render_app _ _ _ _ _ Ho1 Ho2) as [Ho Er].
  exists (s1 ++ s2), (hs1 ++ hs2). rewrite Es2, Es1, El2, El1, !app_assoc.
  split_and!; try done. rewrite !zlen_app. lia.
Qed.

Lemma appended_list w w2 out :
  appended (snd (list_ w)) w2 out -> zlen out <= data_max ->
  exists w3, listEnd w2 (fst (list_ w)) = Some w3 /\ appended w w3 (rlp_list out).
Proof.
  intros (s & hs & Es & El & Eh & Ho & Er) Hlen. cbn [fst snd list_ str lheads lhsize] in *.
  pose proof (zlen_nonneg out). pose proof (zlen_nonneg (lheads w)).
  assert (is_u64 (zlen out)) as Hu by (unfold data_max in *; u64_lia).
  set (h := Listhead (zlen (str w)) (lhsize w)) in *.
  assert (Z.to_nat (zlen (lheads w ++ [h]) - 1) = length (lheads w)) as Ei.
  { rewrite zlen_app, zlen_cons, zlen_nil. unfold zlen. lia. }
  assert (0 <= zlen (lheads w ++ [h]) - 1 < zlen (lheads w2)) as Hi.
  { rewrite El, (zlen_app (_ ++ _)). rewrite zlen_app, (zlen_cons h), (zlen_nil (A := listhead)). pose proof (zlen_nonneg hs). lia. }
  assert (zget (lheads w2) (zlen (lheads w ++ [h]) - 1) = Some h) as Hg.
  { unfold zget. destruct (Z.leb_spec 0 (zlen (lheads w ++ [h]) - 1)); [|lia].
    rewrite Ei, El, <- app_assoc. by apply list_lookup_middle. }
  unfold listEnd. rewrite Hg, zput_Some by done. cbn [offset hsize h].
  assert (esize w2 - zlen (str w) - lhsize w = zlen out) as ->.
  { unfold esize. rewrite Es, Eh, zlen_app. lia. }
  eexists. split; [done|]. exists s, (Listhead (zlen (str w)) (zlen out) :: hs). cbn [str lheads lhsize].
  rewrite Ei, El, <- app_assoc. cbn [app]. rewrite insert_app_r_alt, Nat.sub_diag by done.
  cbn [insert list_insert heads_ok render offset]. rewrite Z.sub_diag, take_0, drop_0, Er.
  unfold listhead_encode. cbn [hsize app]. rewrite u64_small, puthead_rlp_head by auto.
  pose proof (headsize_rlp_head 192 _ Hu) as Hh. unfold headsize in Hh.
  unfold rlp_list. rewrite zlen_app, Eh.
  split_and!; try done; [destruct (zlen out <? 56); lia|pose proof (zlen_nonneg s); lia..].
Qed.

(** ** The writers *)

Lemma rlp_string_shorter b : zlen b <= zlen (rlp_string b).
Proof.
  assert (forall n, zlen b <= zlen (rlp_head 128 n ++ b)) as H.
  { intros n. rewrite zlen_app. pose proof (zlen_nonneg (rlp_head 128 n)). lia. }
  unfold rlp_string. destruct b as [|x [|y b]]; [apply H| |apply H].
  destruct (x <? 128); [done|apply H].
Qed.

Lemma write_list l w :
  write (VList l) w =
  match foldl (fun ow v => match ow with Some w => write v w | None => None end)
          (Some (snd (list_ w))) l with
  | Some w2 => listEnd w2 (fst (list_ w))
  | None => None
  end.
Proof.
  cbn [write]. destruct (list_ w) as [index w1]. cbn [fst snd]. clear w.
  match goal with |- match ?a with _ => _ end = match ?b with _ => _ end => assert (a = b) as -> end; [|done].
  revert w1. induction l as [|v l IH]; intros w1; [done|]. cbn [foldl].
  destruct (write v w1) as [w2|]; [apply IH|]. clear IH. by induction l.
Qed.

Lemma write_scalar v w b :
  write v w = Some (wstr w b) -> rlp v = b -> exists w', write v w = Some w' /\ appended w w' (rlp v).
Proof. intros -> ->. eauto using appended_wstr. Qed.

Lemma string_size b : zlen (rlp_string b) <= data_max -> is_u64 (zlen b).
Proof.
  pose proof (rlp_string_shorter b). pose proof (zlen_nonneg b). unfold data_max. u64_lia.
Qed.

Lemma write_elems l w1 :
  Forall (fun v => forall w, encodable v -> zlen (rlp v) <= data_max ->
            exists w', write v w = Some w' /\ appended w w' (rlp v)) l ->
  encodable (VList l) -> zlen (concat (map rlp l)) <= data_max ->
  exists w2,
    foldl (fun ow v => match ow with Some w => write v w | None => None end) (Some w1) l = Some w2
    /\ appended w1 w2 (concat (map rlp l)).
Proof.
  intros IH. cbn [encodable]. revert w1. induction IH as [|v l Hv1 _ IH]; intros w1 Hv Hl.
  - exists w1. split; [done|apply appended_nil].
  - cbn [map foldr concat foldl] in *. destruct Hv as [Hv Hvs]. rewrite zlen_app in Hl.
    pose proof (zlen_nonneg (rlp v)). pose proof (zlen_nonneg (concat (map rlp l))).
    destruct (Hv1 w1) as (w2 & -> & H2); [done|lia|].
    destruct (IH w2 Hvs ltac:(lia)) as (w3 & -> & H3). eauto using appended_trans.
Qed.

Lemma write_correct v : forall w,
  encodable v -> zlen (rlp v) <= data_max -> exists w', write v w = Some w' /\ appended w w' (rlp v).
Proof.
  induction v as [b|b|i|b|i|b| |k|l IH] using rval_nested_ind; intros w Hv Hlen.
  - apply write_scalar with (rlp_string b); [|done]. cbn.
    by rewrite encodeString_rlp by auto using string_size.
  - apply write_scalar with (rlp_string b); [|done]. cbn.
    by rewrite writeByteArray_rlp by auto using string_size.
  - eapply write_scalar; [|done]. cbn. by rewrite encodeUint_rlp.
  - eapply write_scalar; [|done]. by destruct b.
  - eapply write_scalar; [|done]. apply writeBigInt_rlp; [done|].
    rewrite <- zlen_be_min. pose proof (rlp_string_shorter (be_min i)). cbn [rlp] in Hlen. lia.
  - by eapply write_scalar.
  - by eapply write_scalar.
  - destruct k; [|by eapply write_scalar|].
    all: apply (appended_list w (snd (list_ w)) []); [apply appended_nil|done].
  - rewrite write_list. change (zlen (rlp_list (concat (map rlp l))) <= data_max) in Hlen.
    unfold rlp_list in Hlen. rewrite zlen_app in Hlen.
    pose proof (zlen_nonneg (rlp_head 192 (zlen (concat (map rlp l))))).
    destruct (write_elems l (snd (list_ w)) IH Hv ltac:(lia)) as (w2 & -> & H2).
    apply (appended_list w w2 (concat (map rlp l))); [done|lia].
Qed.

(** ** Assembling the output *)

Lemma copy_at_app (pre dst src : bytes) :
  zlen src <= zlen dst ->
  copy_at (pre ++ dst) (zlen pre) src = Some (pre ++ src ++ drop (length src) dst).
Proof.
  intros H. unfold copy_at. rewrite zlen_app. pose proof (zlen_nonneg pre). pose proof (zlen_nonneg dst).
  rewrite zslice_Some by (rewrite ?zlen_app; lia). do 2 f_equal; unfold zlen in *.
  - rewrite Nat2Z.id. apply take_app_length.
  - rewrite Nat2Z.id, drop_app_length, take_ge by lia. unfold gocopy. by rewrite take_ge by lia.
Qed.

Lemma toBytes_loop_render w heads pre dst strpos :
  0 <= strpos <= zlen (str w) ->
  heads_ok strpos (drop (Z.to_nat strpos) (str w)) heads ->
  zlen dst = zlen (render strpos (drop (Z.to_nat strpos) (str w)) heads) ->
  toBytes_loop w heads (pre ++ dst) strpos (zlen pre)
  = Some (pre ++ render strpos (drop (Z.to_nat strpos) (str w)) heads).
Proof.
  revert pre dst strpos. induction heads as [|h heads IH]; intros pre dst strpos Hp Ho Hl.
  - cbn [toBytes_loop render] in *. rewrite zslice_Some, take_ge by (unfold zlen in *; rewrite ?length_drop; lia).
    rewrite copy_at_app, (drop_ge dst), app_nil_r by (unfold zlen in *; lia). done.
  - cbn [toBytes_loop render heads_ok] in *. destruct Ho as [Hh Ho].
    rewrite zlen_drop_sub in Hh by lia. rewrite zslice_Some by lia.
    set (piece := take (Z.to_nat (offset h - strpos)) (drop (Z.to_nat strpos) (str w))) in *.
    assert (zlen piece = offset h - strpos) as Hpiece.
    { unfold piece, zlen in *. rewrite length_take, length_drop. lia. }
    rewrite drop_drop in Ho, Hl |- *.
    replace (Z.to_nat strpos + _)%nat with (Z.to_nat (offset h)) in * by lia.
    rewrite !zlen_app in Hl.
    pose proof (zlen_nonneg (listhead_encode h)) as He.
    pose proof (zlen_nonneg (render (offset h) (drop (Z.to_nat (offset h)) (str w)) heads)) as Hr.
    rewrite zlen_app. replace (Z.min _ _) with (zlen piece) by lia.
    rewrite copy_at_app by lia. set (dst' := drop (length piece) dst).
    assert (zlen dst' = zlen dst - zlen piece) as Hd by (unfold dst', zlen in *; rewrite length_drop; lia).
    rewrite !zlen_app. destruct (Z.ltb_spec (zlen pre + (zlen piece + zlen dst')) (zlen pre + zlen piece + zlen (listhead_encode h))); [lia|].
    rewrite (app_assoc pre), <- zlen_app, copy_at_app, (app_assoc (pre ++ piece)), <- zlen_app by lia.
    replace (strpos + zlen piece) with (offset h) by lia.
    rewrite IH; [by rewrite <- !app_assoc|lia|done|].
    rewrite Hpiece in Hd. unfold zlen in *. rewrite length_drop. lia.
Qed.

Lemma appended_render w out :
  appended reset w out -> heads_ok 0 (str w) (lheads w) /\ render 0 (str w) (lheads w) = out /\ esize w = zlen out.
Proof.
  intros (s & hs & Es & El & Eh & Ho & Er). cbn in *. rewrite Es, El. unfold esize.
  rewrite Es, Eh. split_and!; [done..|lia].
Qed.

Lemma toBytes_render w out : appended reset w out -> toBytes w = Some out.
Proof.
  intros (Ho & Er & Es)%appended_render. unfold toBytes.
  pose proof (zlen_nonneg out). pose proof (zlen_nonneg (str w)).
  rewrite <- Er, <- (drop_0 (str w)) at 1.
  apply (toBytes_loop_render w (lheads w) [] (zeros (esize w)) 0); [lia|by rewrite drop_0|].
  rewrite zlen_zeros, drop_0, Er by lia. done.
Qed.

Lemma toWriter_loop_render w heads strpos :
  0 <= strpos <= zlen (str w) ->
  heads_ok strpos (drop (Z.to_nat strpos) (str w)) heads ->
  exists ps, toWriter_loop w heads strpos = Some ps /\
             concat ps = render strpos (drop (Z.to_nat strpos) (str w)) heads.
Proof.
  revert strpos. induction heads as [|h heads IH]; intros strpos Hp Ho; cbn [toWriter_loop render heads_ok] in *.
  - destruct (Z.ltb_spec strpos (zlen (str w))).
    + rewrite zslice_Some, take_ge by (unfold zlen in *; rewrite ?length_drop; lia).
      eexists. split; [done|]. apply app_nil_r.
    + exists []. by rewrite drop_ge by (unfold zlen in *; lia).
  - destruct Ho as [Hh Ho]. rewrite zlen_drop_sub in Hh by lia. rewrite drop_drop in Ho |- *.
    replace (Z.to_nat strpos + _)%nat with (Z.to_nat (offset h)) in * by lia.
    destruct (IH (offset h) ltac:(lia) Ho) as (ps & Hps & Er).
    destruct (Z.ltb_spec 0 (offset h - strpos)).
    + rewrite zslice_Some by lia.
      assert (strpos + zlen (take (Z.to_nat (offset h - strpos)) (drop (Z.to_nat strpos) (str w))) = offset h) as ->.
      { unfold zlen in *. rewrite length_take, length_drop. lia. }
      rewrite Hps. eexists. split; [done|]. cbn [concat]. by rewrite Er.
    + assert (offset h = strpos) as E by lia. rewrite E in *. rewrite Hps. eexists. split; [done|].
      cbn [concat]. by rewrite Er, Z.sub_diag, take_0.
Qed.

Lemma EncodeToBytes_rlp v : encodable v -> zlen (rlp v) <= data_max -> EncodeToBytes v = Some (rlp v).
Proof.
  intros Hv Hlen. destruct (write_correct v reset Hv Hlen) as (w & Ew & Ha).
  unfold EncodeToBytes. rewrite Ew. by apply toBytes_render.
Qed.

Lemma Encode_rlp v : encodable v -> zlen (rlp v) <= data_max -> Encode v = Some (rlp v).
Proof.
  intros Hv Hlen. destruct (write_correct v reset Hv Hlen) as (w & Ew & Ha).
  pose proof (appended_render _ _ Ha) as (Ho & Er & _). pose proof (zlen_nonneg (str w)).
  destruct (toWriter_loop_render w (lheads w) 0) as (ps & Hps & Ec); [lia|by rewrite drop_0|].
  unfold Encode, toWriter. rewrite drop_0, Er in Ec. by rewrite Ew, Hps, Ec.
Qed.

(** C38: RLP encoding.  For every value the writers accept, [EncodeToBytes]
    returns the encoding of Appendix B of the Yellow Paper, although the encoder
    buffer holds string data and list headers apart and computes the size of a
    list after its elements; and what [Encode] writes to an [io.Writer], piece
    by piece, is the same encoding. *)
Theorem EncodeToBytes_correct v :
  encodable v -> zlen (rlp v) <= data_max ->
  EncodeToBytes v = Some (rlp v) /\ Encode v = Some (rlp v).
Proof. intros Hv Hlen. split; [by apply EncodeToBytes_rlp|by apply Encode_rlp]. Qed.

Lemma EncodeToBytes_correct_witness :
  EncodeToBytes (VList [VUint 1024; VList [VBytes [1]; VNilPtr KList]; VBytes [200]])
  = Some [200; 130; 4; 0; 194; 1; 192; 129; 200].
Proof.
  refine (proj1 (EncodeToBytes_correct (VList [VUint 1024; VList [VBytes [1]; VNilPtr KList]; VBytes [200]]) _ _)).
  - cbn. unfold is_u64, two64. split_and!; try done; by repeat apply Forall_cons_2; try apply Forall_nil_2.
  - vm_compute. discriminate.
Defined.
