(* ===== verification/RlpDecode.v ===== *)
(** * The stream decoder accepts exactly the canonical encodings

    Properties of [RlpStream]: a decoder built for a type accepts an input
    exactly when it is the encoding of a value of the type, it always ends, and
    it never panics. *)

From Stdlib Require Import ZArith Lia.
From S2P Require Import Prelude Common Rlp RlpStream RlpSpec.

Open Scope go_scope.

(** ** Running decoders *)

Ltac stream_simpl :=
  cbv beta iota zeta delta [set_reader set_remaining set_kind set_size set_byteval set_kinderr
    set_stack reader remaining limited kind size byteval kinderr stack pos lsize] in *.

Section running.
Context {A B : Type}.


Lemma bind_ok (m : M Stream A) (f : A -> M Stream B) s a s' : m s = Ok (a, s') -> bind m f s = f a s'.
Proof. unfold bind. by intros ->. Qed.

Lemma ebind_ok (m : M Stream (rres A)) (f : A -> M Stream (rres B)) s a s' :
  m s = Ok (inl a, s') -> ebind m f s = f a s'.
Proof. unfold ebind, bind. by intros ->. Qed.

Lemma ebind_err (m : M Stream (rres A)) (f : A -> M Stream (rres B)) s e s' :
  m s = Ok (inr e, s') -> ebind m f s = Ok (inr e, s').
Proof. unfold ebind, bind. by intros ->. Qed.

Lemma wrap_ok (m : M Stream (rres A)) s a s' : m s = Ok (inl a, s') -> wrap m s = Ok (inl a, s').
Proof. unfold wrap, bind. by intros ->. Qed.

Lemma wrap_err (m : M Stream (rres A)) s e s' :
  m s = Ok (inr e, s') -> wrap m s = Ok (inr (wrapStreamError e), s').
Proof. unfold wrap, bind. by intros ->. Qed.
End running.

Lemma wrap_EOL e : wrapStreamError e = EOL -> e = EOL.
Proof. by destruct e. Qed.

(** ** Consuming input *)

(** How many bytes can still be read: the limit of the input and of the
    innermost list. *)
Definition room (s : Stream) : Z :=
  match stack s with
  | [] => remaining s
  | tos :: _ => Z.min (remaining s) (lsize tos - pos tos)
  end.

Definition top_ok (l : list listpos) : Prop :=
  match l with
  | [] => True
  | tos :: _ => 0 <= pos tos <= lsize tos /\ lsize tos < two64
  end.

Record stream_ok (s : Stream) : Prop := {
  so_limited : limited s = true;
  so_remaining : remaining s = zlen (reader s);
  so_data : data_ok (reader s);
  so_top : top_ok (stack s)
}.

Definition advance (n : Z) (l : list listpos) : list listpos :=
  match l with
  | [] => []
  | tos :: l => Listpos (pos tos + n) (lsize tos) :: l
  end.

(** [s'] is [s] after the bytes [c] have been read. *)
Record consumed (c : bytes) (s s' : Stream) : Prop := {
  co_reader : reader s = c ++ reader s';
  co_remaining : remaining s' = remaining s - zlen c;
  co_limited : limited s' = limited s;
  co_stack : stack s' = advance (zlen c) (stack s);
  co_room : zlen c <= room s
}.

Lemma advance_0 l : advance 0 l = l.
Proof. destruct l as [|[p n] l]; [done|]. cbn. by rewrite Z.add_0_r. Qed.

Lemma advance_add a b l : advance b (advance a l) = advance (a + b) l.
Proof. destruct l as [|t l]; [done|]. cbn. by rewrite Z.add_assoc. Qed.

Lemma room_nonneg s : stream_ok s -> 0 <= room s.
Proof.
  intros [_ Hr _ Ht]. unfold room. pose proof (zlen_nonneg (reader s)).
  destruct (stack s) as [|t l]; cbn in Ht; lia.
Qed.

Lemma room_consumed c s s' : consumed c s s' -> room s' = room s - zlen c.
Proof.
  intros []. unfold room. rewrite co_stack0, co_remaining0.
  destruct (stack s); cbn; lia.
Qed.

Lemma consumed_ok c s s' : stream_ok s -> consumed c s s' -> stream_ok s'.
Proof.
  intros [Hl Hr [Hb Hlen] Ht] [Er Em El Es Ec]. rewrite Er, zlen_app in *.
  apply Forall_app in Hb as [_ Hb]. pose proof (zlen_nonneg c).
  split; [congruence|lia|split; [done|lia]|]. rewrite Es. unfold room in Ec.
  destruct (stack s); cbn in *; [done|lia].
Qed.

Lemma consumed_nil s s' :
  stream_ok s -> reader s' = reader s -> remaining s' = remaining s -> limited s' = limited s ->
  stack s' = stack s -> consumed [] s s'.
Proof.
  intros Hs Er Em El Es. pose proof (room_nonneg s Hs).
  split; rewrite ?zlen_nil; [done|lia|done|by rewrite advance_0|lia].
Qed.

Lemma consumed_trans a b s s1 s2 : consumed a s s1 -> consumed b s1 s2 -> consumed (a ++ b) s s2.
Proof.
  intros Ha Hb. pose proof (room_consumed _ _ _ Ha) as Hr. destruct Ha, Hb. split.
  - rewrite co_reader0, co_reader1. by rewrite app_assoc.
  - rewrite zlen_app. lia.
  - congruence.
  - rewrite co_stack1, co_stack0, advance_add, zlen_app. done.
  - rewrite zlen_app. lia.
Qed.

Lemma consumed_same c s s1 s2 :
  consumed c s s1 -> reader s2 = reader s1 -> remaining s2 = remaining s1 ->
  limited s2 = limited s1 -> stack s2 = stack s1 -> consumed c s s2.
Proof. intros [] E1 E2 E3 E4. split; by rewrite ?E1, ?E2, ?E3, ?E4. Qed.

(** ** Reading bytes *)

Lemma willRead_ok n s :
  stream_ok s -> 0 <= n <= room s ->
  exists s', willRead n s = Ok (inl tt, s') /\ kind s' = None /\ reader s' = reader s /\
             remaining s' = remaining s - n /\ limited s' = limited s /\ stack s' = advance n (stack s).
Proof.
  intros [Hl Hr [_ Hlen] Ht] Hn. destruct s as [r rem lim k sz bv ke st].
  unfold willRead, ebind, bind, modify, get, eret, throw, ret, room, data_max in *.
  stream_simpl.
  pose proof (zlen_nonneg r).
  destruct st as [|[tp tn] st]; subst lim; stream_simpl; cbn [top_ok advance pos lsize] in *.
  - destruct (Z.ltb_spec rem n); [lia|]. rewrite u64_small by u64_lia. eexists. by split_and!.
  - rewrite u64_small by u64_lia. destruct (Z.ltb_spec (tn - tp) n); [lia|].
    stream_simpl.
    destruct (Z.ltb_spec rem n); [lia|]. rewrite !u64_small by u64_lia. eexists. by split_and!.
Qed.

Lemma willRead_err n s :
  stream_ok s -> room s < n < two64 -> exists e s', willRead n s = Ok (inr e, s') /\ e <> EOL.
Proof.
  intros Hs Hn. pose proof (room_nonneg s Hs). destruct Hs as [Hl Hr [_ Hlen] Ht].
  destruct s as [r rem lim k sz bv ke st].
  unfold willRead, ebind, bind, modify, get, eret, throw, ret, room, data_max in *.
  stream_simpl.
  destruct st as [|[tp tn] st]; subst lim; stream_simpl; cbn [top_ok advance pos lsize] in *.
  - destruct (Z.ltb_spec rem n); [|lia]. eauto.
  - rewrite u64_small by u64_lia. destruct (Z.ltb_spec (tn - tp) n); [by eauto|].
    stream_simpl.
    destruct (Z.ltb_spec rem n); [by eauto|lia].
Qed.

Lemma room_reader s : stream_ok s -> room s <= zlen (reader s).
Proof. intros [_ Hr _ _]. unfold room. destruct (stack s); lia. Qed.

Lemma readFull_ok n s :
  stream_ok s -> 0 <= n <= room s ->
  exists c s', readFull n s = Ok (inl c, s') /\ zlen c = n /\ consumed c s s' /\ kind s' = None.
Proof.
  intros Hs Hn. pose proof (room_reader s Hs).
  destruct (willRead_ok n s Hs Hn) as (s1 & E & Hk & Hr & Hm & Hl & Hst).
  unfold readFull. rewrite (ebind_ok _ _ _ _ _ E). unfold bind, get, put.
  destruct (Z.ltb_spec (zlen (reader s1)) n); [rewrite Hr in *; lia|].
  eexists _, _. split; [done|]. assert (zlen (take (Z.to_nat n) (reader s1)) = n) as Hz.
  { unfold zlen in *. rewrite length_take. lia. }
  split; [done|]. split; [|done]. split; cbn [set_reader reader remaining limited stack]; rewrite ?Hz; try done.
  - by rewrite take_drop.
  - lia.
Qed.

Lemma readFull_err n s :
  stream_ok s -> room s < n < two64 -> exists e s', readFull n s = Ok (inr e, s') /\ e <> EOL.
Proof.
  intros Hs Hn. destruct (willRead_err n s Hs Hn) as (e & s' & E & He).
  unfold readFull. rewrite (ebind_err _ _ _ _ _ E). eauto.
Qed.

(** The bytes read are determined by the input. *)
Lemma prefix_eq (a b ra rb : bytes) : a ++ ra = b ++ rb -> zlen a = zlen b -> a = b /\ ra = rb.
Proof. intros E H. apply app_inj_1 in E; [done|]. unfold zlen in H. lia. Qed.

Lemma readFull_read c rest s :
  stream_ok s -> reader s = c ++ rest -> zlen c <= room s ->
  exists s', readFull (zlen c) s = Ok (inl c, s') /\ consumed c s s' /\ kind s' = None.
Proof.
  intros Hs Er Hc. pose proof (zlen_nonneg c).
  destruct (readFull_ok (zlen c) s Hs ltac:(lia)) as (c' & s' & E & Hz & Hco & Hk).
  pose proof (co_reader _ _ _ Hco) as Er'. rewrite Er in Er'.
  apply prefix_eq in Er' as [-> _]; [|done]. eauto.
Qed.

Lemma readByte_ok s :
  stream_ok s -> 1 <= room s ->
  exists b s', readByte s = Ok (inl b, s') /\ consumed [b] s s' /\ kind s' = None.
Proof.
  intros Hs Hn. pose proof (room_reader s Hs).
  destruct (willRead_ok 1 s Hs ltac:(lia)) as (s1 & E & Hk & Hr & Hm & Hl & Hst).
  unfold readByte. rewrite (ebind_ok _ _ _ _ _ E). unfold bind, get, put.
  destruct (reader s1) as [|b r] eqn:Er; [rewrite <- Hr, zlen_nil in *; lia|].
  eexists b, _. split; [done|]. split; [|done].
  split; cbn [set_reader reader remaining limited stack]; try done.
Qed.

Lemma readByte_err s :
  stream_ok s -> room s < 1 -> exists e s', readByte s = Ok (inr e, s') /\ e <> EOL.
Proof.
  intros Hs Hn. destruct (willRead_err 1 s Hs ltac:(split; [lia|done])) as (e & s' & E & He).
  unfold readByte. rewrite (ebind_err _ _ _ _ _ E). eauto.
Qed.

(** [readUint] reads a big-endian number without leading zeroes (one byte is
    taken as it is). *)
Definition uint_bytes (c : bytes) : Prop := zlen c = 1 \/ leading_ok c.

Lemma be_val_one b : be_val [b] = b.
Proof. done. Qed.

Lemma readUint_ok k s :
  stream_ok s -> 1 <= k <= 8 ->
  (exists c s', readUint k s = Ok (inl (be_val c), s') /\ zlen c = k /\ uint_bytes c /\ consumed c s s' /\ kind s' = None)
  \/ (exists e s', readUint k s = Ok (inr e, s') /\ e <> EOL).
Proof.
  intros Hs Hk. unfold readUint. destruct (Z.eqb_spec k 0); [lia|].
  destruct (Z.eqb_spec k 1) as [->|].
  - destruct (Z.lt_ge_cases (room s) 1); [right; by apply readByte_err|left].
    destruct (readByte_ok s Hs ltac:(lia)) as (b & s' & E & Hc & Hn).
    exists [b], s'. rewrite E. split_and!; try done. by left.
  - destruct (Z.ltb_spec 8 k); [lia|]. destruct (Z.lt_ge_cases (room s) k) as [H1|H1].
    + right. destruct (readFull_err k s Hs ltac:(u64_lia)) as (e & s' & E & He).
      rewrite (ebind_err _ _ _ _ _ E). eauto.
    + destruct (readFull_ok k s Hs ltac:(lia)) as (c & s' & E & Hz & Hc & Hn).
      rewrite (ebind_ok _ _ _ _ _ E). destruct c as [|b c]; [rewrite zlen_nil in Hz; lia|].
      destruct (Z.eqb_spec b 0); [right; by eauto|left]. eexists (b :: c), s'.
      split_and!; try done. by right.
Qed.

Lemma readUint_read c rest s :
  stream_ok s -> 1 <= zlen c <= 8 -> uint_bytes c -> reader s = c ++ rest -> zlen c <= room s ->
  exists s', readUint (zlen c) s = Ok (inl (be_val c), s') /\ consumed c s s' /\ kind s' = None.
Proof.
  intros Hs Hk Hu Er Hc. unfold readUint. destruct (Z.eqb_spec (zlen c) 0); [lia|].
  destruct (Z.eqb_spec (zlen c) 1) as [E1|].
  - destruct c as [|b [|]]; try (rewrite !zlen_cons in E1; pose proof (zlen_nonneg l); lia); [done|].
    destruct (readByte_ok s Hs ltac:(lia)) as (b' & s' & E & Hco & Hn).
    pose proof (co_reader _ _ _ Hco) as Er'. rewrite Er in Er'. injection Er' as -> _.
    rewrite E. eauto.
  - destruct (Z.ltb_spec 8 (zlen c)); [lia|].
    destruct (readFull_read c rest s Hs Er Hc) as (s' & E & Hco & Hn).
    rewrite (ebind_ok _ _ _ _ _ E). destruct c as [|b c]; [done|].
    destruct Hu as [?|Hu]; [done|]. cbn in Hu. destruct (Z.eqb_spec b 0); [done|]. eauto.
Qed.

(** ** Headers *)

(** The bytes of a header, with the kind and the content size it stands for; a
    single byte is its own header. *)
Inductive is_head : Kind -> Z -> bytes -> Prop :=
| head_byte b : 0 <= b < 128 -> is_head KByte 0 [b]
| head_string n : is_u64 n -> is_head KString n (rlp_head 128 n)
| head_list n : is_u64 n -> is_head KList n (rlp_head 192 n).

Lemma is_head_length k n hd : is_head k n hd -> 1 <= zlen hd /\ is_u64 n.
Proof.
  destruct 1 as [b Hb|n Hn|n Hn].
  - rewrite zlen_cons, zlen_nil. u64_lia.
  - pose proof (rlp_head_length 128 n Hn). split; [lia|done].
  - pose proof (rlp_head_length 192 n Hn). split; [lia|done].
Qed.

(** A long header from its size bytes. *)
Lemma rlp_head_long base c :
  Forall is_byte c -> uint_bytes c -> 56 <= be_val c -> rlp_head base (be_val c) = base + 55 + zlen c :: c.
Proof.
  intros Hb Hu H. assert (be_min (be_val c) = c) as E.
  { apply be_min_be_val; [done|]. destruct Hu as [Hu|Hu]; [|done].
    destruct c as [|x [|y c]]; [done| |rewrite !zlen_cons in Hu; pose proof (zlen_nonneg c); lia].
    rewrite be_val_one in H. cbn. lia. }
  unfold rlp_head. destruct (Z.ltb_spec (be_val c) 56); [lia|]. by rewrite E.
Qed.

Lemma be_val_u64 c : Forall is_byte c -> zlen c <= 8 -> is_u64 (be_val c).
Proof.
  intros Hb Hc. pose proof (be_val_bound c Hb). pose proof (zlen_nonneg c).
  pose proof (Z.pow_le_mono_r 256 (zlen c) 8 ltac:(lia) Hc) as Hp.
  change (256 ^ 8) with two64 in Hp. unfold is_u64. lia.
Qed.

Lemma consumed_bytes c s s' : stream_ok s -> consumed c s s' -> Forall is_byte c.
Proof.
  intros Hs Hc. destruct (so_data _ Hs) as [Hb _]. rewrite (co_reader _ _ _ Hc) in Hb.
  by apply Forall_app in Hb as [Hb _].
Qed.

Lemma consumed_byteval c s s' b : consumed c s s' -> consumed c s (set_byteval s' b).
Proof. intros H. by apply consumed_same with s'. Qed.

Definition head_read (k : Kind) (n : Z) (hd : bytes) (s s' : Stream) : Prop :=
  is_head k n hd /\ consumed hd s s' /\ (k = KByte -> hd = [byteval s']).

Lemma readKind_size_ok base k kk b s s1 :
  (k = KString /\ base = 128 \/ k = KList /\ base = 192) ->
  stream_ok s -> consumed [b] s s1 -> b = base + 55 + kk -> 1 <= kk <= 8 ->
  (exists n hd s', readKind_size k kk s1 = Ok ((k, n, None), s') /\ head_read k n hd s s') \/
  (exists n e s', readKind_size k kk s1 = Ok ((k, n, Some e), s') /\ e <> EOL).
Proof.
  intros Hk Hs H1 Eb Hkk. pose proof (consumed_ok _ _ _ Hs H1) as Hs1. unfold readKind_size.
  destruct (readUint_ok kk s1 Hs1 Hkk) as [(c & s' & E & Hz & Hu & Hc & _)|(e & s' & E & He)];
    rewrite (bind_ok _ _ _ _ _ E); [|right; by eauto].
  unfold ret. destruct (Z.ltb_spec (be_val c) 56); [right; by eauto|left].
  pose proof (consumed_bytes _ _ _ Hs1 Hc) as Hb.
  eexists _, ([b] ++ c), s'. split; [done|].
  assert ([b] ++ c = rlp_head base (be_val c)) as ->
    by (rewrite rlp_head_long by done; cbn; f_equal; lia).
  split_and!; [| |by destruct Hk as [[-> _]|[-> _]]].
  - assert (is_u64 (be_val c)) by (apply be_val_u64; [done|lia]).
    destruct Hk as [[-> ->]|[-> ->]]; by constructor.
  - rewrite rlp_head_long by done. replace (base + 55 + zlen c) with b by lia.
    by apply (consumed_trans [b] c s s1 s').
Qed.

Lemma Stream_readKind_ok s :
  stream_ok s ->
  (exists k n hd s', Stream_readKind s = Ok ((k, n, None), s') /\ head_read k n hd s s') \/
  (exists k n e s', Stream_readKind s = Ok ((k, n, Some e), s') /\ e <> EOL).
Proof.
  intros Hs. unfold Stream_readKind. destruct (Z.lt_ge_cases (room s) 1) as [Hr|Hr].
  { destruct (readByte_err s Hs Hr) as (e & s' & E & He). rewrite (bind_ok _ _ _ _ _ E).
    right. unfold bind, get, ret. eexists _, _, _, _. split; [done|]. by destruct (stack s'), e. }
  destruct (readByte_ok s Hs Hr) as (b & s1 & E & Hc & _). rewrite (bind_ok _ _ _ _ _ E).
  pose proof (consumed_bytes _ _ _ Hs Hc) as Hb. apply Forall_cons in Hb as [Hb _]. unfold is_byte in Hb.
  unfold bind at 1, modify. apply (consumed_byteval _ _ _ 0) in Hc.
  destruct (Z.ltb_spec b 128); [|destruct (Z.ltb_spec b 184); [|destruct (Z.ltb_spec b 192);
    [|destruct (Z.ltb_spec b 248)]]].
  - left. eexists _, _, [b], _. split; [done|]. split_and!; [constructor; lia| |done].
    by apply (consumed_byteval _ _ _ b).
  - left. eexists _, _, [b], _. split; [done|]. split_and!; [|done|done].
    replace [b] with (rlp_head 128 (b - 128)); [constructor; u64_lia|].
    unfold rlp_head. destruct (Z.ltb_spec (b - 128) 56); [f_equal; lia|lia].
  - destruct (readKind_size_ok 128 KString (b - 183) b s _ ltac:(auto) Hs Hc) as [(n & hd & s' & E' & H')|(n & e & s' & E' & H')];
      [lia..| |]; [left|right]; eauto 10.
  - left. eexists _, _, [b], _. split; [done|]. split_and!; [|done|done].
    replace [b] with (rlp_head 192 (b - 192)); [constructor; u64_lia|].
    unfold rlp_head. destruct (Z.ltb_spec (b - 192) 56); [f_equal; lia|lia].
  - destruct (readKind_size_ok 192 KList (b - 247) b s _ ltac:(auto) Hs Hc) as [(n & hd & s' & E' & H')|(n & e & s' & E' & H')];
      [lia..| |]; [left|right]; eauto 10.
Qed.

(** Reading a header that is there. *)
Lemma readByte_read b rest s :
  stream_ok s -> reader s = b :: rest -> 1 <= room s ->
  exists s', readByte s = Ok (inl b, s') /\ consumed [b] s s'.
Proof.
  intros Hs Er Hr. destruct (readByte_ok s Hs Hr) as (b' & s' & E & Hc & _).
  pose proof (co_reader _ _ _ Hc) as Er'. rewrite Er in Er'. injection Er' as -> _. eauto.
Qed.

Lemma readKind_size_read k n rest s :
  is_u64 n -> 56 <= n -> stream_ok s -> reader s = be_min n ++ rest -> byte_len n <= room s ->
  exists s', readKind_size k (byte_len n) s = Ok ((k, n, None), s') /\ consumed (be_min n) s s'.
Proof.
  intros Hn H56 Hs Er Hr. unfold readKind_size.
  pose proof (byte_len_u64 n ltac:(u64_lia)). pose proof (byte_len_bounds n ltac:(lia)) as [Hp _].
  rewrite <- zlen_be_min in *.
  destruct (readUint_read (be_min n) rest s Hs ltac:(lia) (or_intror (be_min_leading n)) Er Hr) as (s' & E & Hc & _).
  rewrite (bind_ok _ _ _ _ _ E), be_val_be_min by lia. unfold ret.
  destruct (Z.ltb_spec n 56); [lia|]. eauto.
Qed.

Ltac byte_tests :=
  repeat match goal with
  | |- context [if ?a <? ?c then _ else _] =>
      (destruct (Z.ltb_spec a c); [u64_lia|]) || (destruct (Z.ltb_spec a c); [|u64_lia])
  end.

Lemma Stream_readKind_read k n hd rest s :
  is_head k n hd -> stream_ok s -> reader s = hd ++ rest -> zlen hd <= room s ->
  exists s', Stream_readKind s = Ok ((k, n, None), s') /\ head_read k n hd s s'.
Proof.
  intros Hhd Hs Er Hr. pose proof (is_head_length _ _ _ Hhd) as [Hl _].
  assert (exists b c, hd = b :: c) as (b & c & Ehd).
  { destruct hd as [|b c]; [rewrite zlen_nil in Hl; lia|eauto]. }
  rewrite Ehd in Er, Hr. rewrite zlen_cons in Hr. pose proof (zlen_nonneg c).
  destruct (readByte_read b (c ++ rest) s Hs Er ltac:(lia)) as (s1 & E & Hc).
  unfold Stream_readKind. rewrite (bind_ok _ _ _ _ _ E). unfold bind at 1, modify.
  apply (consumed_byteval _ _ _ 0) in Hc. pose proof (consumed_ok _ _ _ Hs Hc) as Hs1.
  pose proof (room_consumed _ _ _ Hc) as Hr1. change (zlen [b]) with 1 in Hr1.
  assert (reader (set_byteval s1 0) = c ++ rest) as Er1
    by (pose proof (co_reader _ _ _ Hc) as Er'; rewrite Er in Er'; by injection Er').
  inversion Hhd as [b' Hb Ek En Eh|n' Hn Ek En Eh|n' Hn Ek En Eh]; subst k n; rewrite Ehd in *.
  - injection Eh as ->. destruct (Z.ltb_spec b 128); [|lia]. destruct c; [|done].
    eexists. split; [done|]. split_and!; [done|by apply (consumed_byteval _ _ _ b)|done].
  - rewrite Eh. unfold rlp_head in Eh. destruct (Z.ltb_spec n' 56).
    + injection Eh as <- <-. byte_tests. replace (128 + n' - 128) with n' by lia.
      eexists. split; [done|]. by split_and!.
    + injection Eh as <- <-. pose proof (byte_len_u64 n' ltac:(u64_lia)).
      pose proof (byte_len_bounds n' ltac:(lia)) as [Hp _]. rewrite zlen_be_min in *. byte_tests.
      replace (128 + 55 + byte_len n' - 183) with (byte_len n') by lia.
      destruct (readKind_size_read KString n' rest _ Hn ltac:(lia) Hs1 Er1 ltac:(lia)) as (s2 & -> & Hc2).
      eexists. split; [done|]. split_and!; [done| |done]. by apply (consumed_trans [_] _ _ _ _ Hc).
  - rewrite Eh. unfold rlp_head in Eh. destruct (Z.ltb_spec n' 56).
    + injection Eh as <- <-. byte_tests. replace (192 + n' - 192) with n' by lia.
      eexists. split; [done|]. by split_and!.
    + injection Eh as <- <-. pose proof (byte_len_u64 n' ltac:(u64_lia)).
      pose proof (byte_len_bounds n' ltac:(lia)) as [Hp _]. rewrite zlen_be_min in *. byte_tests.
      replace (192 + 55 + byte_len n' - 247) with (byte_len n') by lia.
      destruct (readKind_size_read KList n' rest _ Hn ltac:(lia) Hs1 Er1 ltac:(lia)) as (s2 & -> & Hc2).
      eexists. split; [done|]. split_and!; [done| |done]. by apply (consumed_trans [_] _ _ _ _ Hc).
Qed.

(** ** [Kind] *)

(** [s'] is [s] with the header [hd] of the next value read and cached. *)
Record peeked (k : Kind) (n : Z) (hd : bytes) (s s' : Stream) : Prop := {
  pk_head : head_read k n hd s s';
  pk_kind : kind s' = Some k;
  pk_size : size s' = n;
  pk_err : kinderr s' = None;
  pk_fits : match stack s' with [] => True | tos :: _ => n <= lsize tos - pos tos end
}.

Lemma Kind_EOL s :
  kind s = None -> at_list_end s = true -> Stream_Kind s = Ok (inr EOL, set_kinderr s None).
Proof. intros Hk He. unfold Stream_Kind, bind, get, modify. by rewrite Hk, He. Qed.

Lemma Kind_cached_peek s k : kind s = Some k -> Stream_Kind s = Kind_cached s.
Proof. intros Hk. unfold Stream_Kind, bind, get. by rewrite Hk. Qed.

Lemma Kind_cached_ok s k : kind s = Some k -> kinderr s = None -> Kind_cached s = Ok (inl (k, size s), s).
Proof. intros Hk He. unfold Kind_cached, bind, get. by rewrite Hk, He. Qed.

Lemma Kind_peeked k n hd s s' : peeked k n hd s s' -> Stream_Kind s' = Ok (inl (k, n), s').
Proof. intros [_ Hk <- He _]. by rewrite (Kind_cached_peek _ _ Hk), Kind_cached_ok with (k := k). Qed.

Lemma Kind_from_readKind s k n err s1 :
  kind s = None -> at_list_end s = false -> Stream_readKind (set_kinderr s None) = Ok ((k, n, err), s1) ->
  Stream_Kind s =
  Kind_cached (set_kinderr (set_size (set_kind s1 (Some k)) n)
                 (match err with None => Kind_check s1 n | Some e => Some e end)).
Proof.
  intros Hk He E. unfold Stream_Kind, bind, get, modify. rewrite Hk, He.
  unfold bind, modify in *. by rewrite E.
Qed.

Lemma stream_ok_kinderr s e : stream_ok s -> stream_ok (set_kinderr s e).
Proof. by intros []. Qed.

Lemma head_read_kinderr k n hd s e s' : head_read k n hd (set_kinderr s e) s' -> head_read k n hd s s'.
Proof. intros (H & [] & Hb). split_and!; [done|by split|done]. Qed.

Lemma head_read_cache k n hd s s1 :
  stream_ok s -> head_read k n hd s s1 -> Kind_check s1 n = None ->
  peeked k n hd s (set_kinderr (set_size (set_kind s1 (Some k)) n) None).
Proof.
  intros Hs (H & Hc & Hb) Hf. split; [|done..|].
  - split_and!; [done|by apply consumed_same with s1|done].
  - cbn [set_kinderr set_size set_kind stack].
    pose proof (so_top _ (consumed_ok _ _ _ Hs Hc)) as Ht. unfold Kind_check in Hf.
    destruct (stack s1) as [|t l]; [done|]. cbn [top_ok] in Ht.
    rewrite u64_small in Hf by u64_lia. destruct (Z.ltb_spec (lsize t - pos t) n); [done|lia].
Qed.

Lemma Kind_ok s :
  stream_ok s -> kind s = None -> at_list_end s = false ->
  (exists k n hd s', Stream_Kind s = Ok (inl (k, n), s') /\ peeked k n hd s s') \/
  (exists e s', Stream_Kind s = Ok (inr e, s') /\ e <> EOL).
Proof.
  intros Hs Hk He. pose proof (stream_ok_kinderr _ None Hs) as Hs0.
  destruct (Stream_readKind_ok _ Hs0) as [(k & n & hd & s1 & E & H)|(k & n & e & s1 & E & H)];
    rewrite (Kind_from_readKind _ _ _ _ _ Hk He E).
  - apply head_read_kinderr in H. destruct (Kind_check s1 n) as [e|] eqn:Ec.
    + right. eexists e, _. split; [done|]. unfold Kind_check in Ec.
      destruct (stack s1); repeat case_match; simplify_eq; done.
    + left. eexists k, n, hd, _. split; [by rewrite Kind_cached_ok with (k := k)|]. by apply head_read_cache.
  - right. by eexists e, _.
Qed.

Lemma Kind_read k n hd rest s :
  is_head k n hd -> stream_ok s -> kind s = None -> reader s = hd ++ rest -> zlen hd + n <= room s ->
  at_list_end s = false /\
  exists s', Stream_Kind s = Ok (inl (k, n), s') /\ peeked k n hd s s'.
Proof.
  intros Hhd Hs Hk Er Hr. pose proof (is_head_length _ _ _ Hhd) as [Hl Hn].
  assert (at_list_end s = false) as He.
  { unfold at_list_end, room in *. destruct (stack s) as [|t l]; [done|].
    destruct (Z.eqb_spec (pos t) (lsize t)); [u64_lia|done]. }
  split; [done|]. pose proof (stream_ok_kinderr _ None Hs) as Hs0.
  destruct (Stream_readKind_read k n hd rest _ Hhd Hs0 Er) as (s1 & E & H).
  { change (room (set_kinderr s None)) with (room s). u64_lia. }
  apply head_read_kinderr in H. rewrite (Kind_from_readKind _ _ _ _ _ Hk He E).
  assert (Kind_check s1 n = None) as Ec.
  { destruct H as (_ & Hc & _). pose proof (room_consumed _ _ _ Hc) as Hrc.
    pose proof (consumed_ok _ _ _ Hs Hc) as [H1 H2 H3 H4]. unfold Kind_check, room in *. rewrite H1.
    destruct (stack s1) as [|t l]; cbn [top_ok andb] in *.
    - destruct (Z.ltb_spec (remaining s1) n); [lia|done].
    - rewrite u64_small by u64_lia. destruct (Z.ltb_spec (lsize t - pos t) n); [lia|done]. }
  rewrite Ec. eexists. split; [by rewrite Kind_cached_ok with (k := k)|]. by apply head_read_cache.
Qed.

(** ** Correct decoders *)

(** [is_item b]: a header followed by as many bytes as it announces. *)
Definition is_item (b : bytes) : Prop :=
  exists k n hd c, is_head k n hd /\ zlen c = n /\ b = hd ++ c.

(** Decoding may start after the kind has been looked at. *)
Definition absorbs {A} (m : M Stream (rres A)) : Prop :=
  forall s kn s1, Stream_Kind s = Ok (inl kn, s1) -> m s1 = m s.

Record ready (N : nat) (s : Stream) : Prop := {
  rd_ok : stream_ok s;
  rd_kind : kind s = None;
  rd_fuel : (length (reader s) < N)%nat
}.

Definition done_with {A} (m : M Stream (rres A)) (r : rres A) (c : bytes) (s : Stream) : Prop :=
  exists s', m s = Ok (r, s') /\ consumed c s s' /\ kind s' = None.

Definition fails {A} (m : M Stream (rres A)) (s : Stream) : Prop :=
  exists e s', m s = Ok (inr e, s') /\ e <> EOL.

(** [m] decodes the values of [R], which [enc] encodes: it returns only values
    of [R] after reading exactly their encoding, it reads every encoding of a
    value of [R], and it reports the end of a list.  The bound on the input is
    the fuel [m] runs with. *)
Record decodes {A} (N : nat) (m : M Stream (rres A)) (enc : A -> bytes) (R : A -> Prop) : Prop := {
  dec_end s : ready N s -> at_list_end s = true -> done_with m (inr EOL) [] s;
  dec_sound s : ready N s -> at_list_end s = false ->
    (exists a, R a /\ done_with m (inl a) (enc a) s) \/ fails m s;
  dec_complete s a rest : ready N s -> R a -> reader s = enc a ++ rest -> zlen (enc a) <= room s ->
    done_with m (inl a) (enc a) s;
  dec_item a : R a -> zlen (enc a) <= data_max -> is_item (enc a);
  dec_peek : absorbs m
}.

Lemma Kind_again s kn s1 : Stream_Kind s = Ok (inl kn, s1) -> Stream_Kind s1 = Ok (inl kn, s1).
Proof.
  intros E. assert (Kind_cached s1 = Ok (inl kn, s1) /\ exists k, kind s1 = Some k) as (E1 & k & Hk).
  { assert (forall s0 k, kind s0 = Some k -> Kind_cached s0 = Ok (inl kn, s1) ->
              Kind_cached s1 = Ok (inl kn, s1) /\ exists k, kind s1 = Some k) as H.
    { intros s0 k Hk Hc. pose proof Hc as Hc'. unfold Kind_cached, bind, get in Hc'. rewrite Hk in Hc'.
      destruct (kinderr s0); [done|]. unfold eret, ret in Hc'. simplify_eq. eauto. }
    unfold Stream_Kind, bind, get, modify in E. destruct (kind s) as [k|] eqn:Hk; [by eapply H|].
    destruct (at_list_end s); [done|].
    unfold bind in E. destruct (Stream_readKind (set_kinderr s None)) as [[[[k n] err] s2]| |]; [|done..].
    eapply H; [|exact E]. done. }
  by rewrite (Kind_cached_peek _ _ Hk).
Qed.

Lemma absorbs_Kind : absorbs Stream_Kind.
Proof. intros s kn s1 E. by rewrite E, (Kind_again _ _ _ E). Qed.

Lemma absorbs_ebind {A B} (m : M Stream (rres A)) (f : A -> M Stream (rres B)) :
  absorbs m -> absorbs (ebind m f).
Proof. intros H s kn s1 E. unfold ebind, bind. by rewrite (H _ _ _ E). Qed.

Lemma absorbs_bind {A B} (m : M Stream (rres A)) (f : rres A -> M Stream (rres B)) :
  absorbs m -> absorbs (bind m f).
Proof. intros H s kn s1 E. unfold bind. by rewrite (H _ _ _ E). Qed.

Lemma absorbs_wrap {A} (m : M Stream (rres A)) : absorbs m -> absorbs (wrap m).
Proof. apply absorbs_bind. Qed.

#[export] Hint Resolve absorbs_Kind absorbs_ebind absorbs_bind absorbs_wrap : go.

Lemma ready_le N N' s : (N <= N')%nat -> ready N s -> ready N' s.
Proof. intros H [H1 H2 H3]. split; [done..|lia]. Qed.

Lemma decodes_le {A} N N' (m : M Stream (rres A)) enc R :
  (N' <= N)%nat -> decodes N m enc R -> decodes N' m enc R.
Proof. intros H []. split; eauto using ready_le. Qed.

(** Running a decoder whose result is then converted. *)
Lemma done_with_map {A B} (m : M Stream (rres A)) (f : A -> M Stream (rres B)) a b c s :
  done_with m (inl a) c s -> (forall s', f a s' = Ok (inl b, s')) -> done_with (ebind m f) (inl b) c s.
Proof. intros (s' & E & H) Hf. exists s'. by rewrite (ebind_ok _ _ _ _ _ E). Qed.

Lemma done_with_err {A B} (m : M Stream (rres A)) (f : A -> M Stream (rres B)) e c s :
  done_with m (inr e) c s -> done_with (ebind m f) (inr e) c s.
Proof. intros (s' & E & H). exists s'. by rewrite (ebind_err _ _ _ _ _ E). Qed.

Lemma done_with_wrap {A} (m : M Stream (rres A)) a c s : done_with m (inl a) c s -> done_with (wrap m) (inl a) c s.
Proof. intros (s' & E & H). exists s'. by rewrite (wrap_ok _ _ _ _ E). Qed.

Lemma fails_ebind {A B} (m : M Stream (rres A)) (f : A -> M Stream (rres B)) s : fails m s -> fails (ebind m f) s.
Proof. intros (e & s' & E & H). exists e, s'. by rewrite (ebind_err _ _ _ _ _ E). Qed.

Lemma fails_wrap {A} (m : M Stream (rres A)) s : fails m s -> fails (wrap m) s.
Proof.
  intros (e & s' & E & H). exists (wrapStreamError e), s'. rewrite (wrap_err _ _ _ _ E).
  split; [done|]. intros ?%wrap_EOL. done.
Qed.

Lemma decodes_wrap {A} N (m : M Stream (rres A)) enc R : decodes N m enc R -> decodes N (wrap m) enc R.
Proof.
  intros [H1 H2 H3 H4 H5]. split; [| | |done|by auto with go].
  - intros s Hs He. destruct (H1 s Hs He) as (s' & E & H). exists s'. by rewrite (wrap_err _ _ _ _ E).
  - intros s Hs He. destruct (H2 s Hs He) as [(a & Ha & H)|H]; [left|right; by apply fails_wrap].
    eauto using done_with_wrap.
  - intros s a rest Hs Ha Er Hr. eauto using done_with_wrap.
Qed.

(** A decoder followed by a check and a conversion. *)
Lemma decodes_map {A B} N (m : M Stream (rres A)) (f : A -> M Stream (rres B)) enc enc' R R' :
  decodes N m enc R ->
  (forall a, R a -> (exists b, R' b /\ enc' b = enc a /\ forall s, f a s = Ok (inl b, s)) \/
                    (exists e, e <> EOL /\ forall s, f a s = Ok (inr e, s))) ->
  (forall b, R' b -> exists a, R a /\ enc' b = enc a /\ forall s, f a s = Ok (inl b, s)) ->
  decodes N (ebind m f) enc' R'.
Proof.
  intros [H1 H2 H3 H4 H5] Hf Hb. split.
  - eauto using done_with_err.
  - intros s Hs He. destruct (H2 s Hs He) as [(a & Ha & Hd)|Hd]; [|right; by apply fails_ebind].
    destruct (Hf a Ha) as [(b & Rb & Eb & Ef)|(e & Ee & Ef)]; [left|right].
    + exists b. split; [done|]. rewrite Eb. by eapply done_with_map.
    + destruct Hd as (s' & E & _). exists e, s'. by rewrite (ebind_ok _ _ _ _ _ E), Ef.
  - intros s b rest Hs Rb Er Hr. destruct (Hb b Rb) as (a & Ra & Eb & Ef).
    rewrite Eb in *. eapply done_with_map; [by eapply H3|done].
  - intros b Rb Hl. destruct (Hb b Rb) as (a & Ra & Eb & Ef). rewrite Eb in *. auto.
  - auto with go.
Qed.

(** ** Decoders of strings and integers *)

Lemma peeked_ok k n hd s s1 : stream_ok s -> peeked k n hd s s1 -> stream_ok s1.
Proof. intros Hs [(_ & Hc & _) _ _ _ _]. by eapply consumed_ok. Qed.

Lemma consumed_fuel c s s' : consumed c s s' -> (length (reader s) = length c + length (reader s'))%nat.
Proof. intros []. rewrite co_reader0, length_app. lia. Qed.

Lemma done_with_peeked {A} (f : Kind * Z -> M Stream (rres A)) k n hd s s1 r c :
  peeked k n hd s s1 -> Stream_Kind s = Ok (inl (k, n), s1) -> done_with (f (k, n)) r c s1 ->
  done_with (ebind Stream_Kind f) r (hd ++ c) s.
Proof.
  intros Hp E (s' & E' & Hc & Hk). exists s'. rewrite (ebind_ok _ _ _ _ _ E).
  split_and!; [done| |done]. destruct Hp as [(_ & Hc1 & _) _ _ _ _]. by eapply consumed_trans.
Qed.

(** A decoder that looks at the kind first. *)
Lemma decodes_kind {A} N (f : Kind * Z -> M Stream (rres A)) enc R :
  (forall s s1 k n hd, ready N s -> stream_ok s1 -> peeked k n hd s s1 -> Stream_Kind s = Ok (inl (k, n), s1) ->
     (exists a c, R a /\ enc a = hd ++ c /\ done_with (f (k, n)) (inl a) c s1) \/ fails (f (k, n)) s1) ->
  (forall a, R a -> zlen (enc a) <= data_max ->
     exists k n hd c, is_head k n hd /\ zlen c = n /\ enc a = hd ++ c /\
       forall s s1 rest, ready N s -> stream_ok s1 -> peeked k n hd s s1 -> Stream_Kind s = Ok (inl (k, n), s1) ->
         reader s1 = c ++ rest -> zlen c <= room s1 -> done_with (f (k, n)) (inl a) c s1) ->
  decodes N (ebind Stream_Kind f) enc R.
Proof.
  intros HS HC. split.
  - intros s [Hs Hk Hn] He. eexists. rewrite (ebind_err _ _ _ _ _ (Kind_EOL s Hk He)).
    split_and!; [done| |done]. by apply consumed_nil.
  - intros s Hr He. pose proof Hr as [Hs Hk Hn].
    destruct (Kind_ok s Hs Hk He) as [(k & n & hd & s1 & E & Hp)|(e & s1 & E & Hee)].
    + pose proof (peeked_ok _ _ _ _ _ Hs Hp) as Hs1.
      destruct (HS s s1 k n hd Hr Hs1 Hp E) as [(a & c & Ra & Ea & Hd)|(e & s' & E' & Hee)]; [left|right].
      * exists a. split; [done|]. rewrite Ea. by eapply done_with_peeked.
      * exists e, s'. by rewrite (ebind_ok _ _ _ _ _ E).
    + right. exists e, s1. by rewrite (ebind_err _ _ _ _ _ E).
  - intros s a rest Hr Ra Er Hroom. pose proof Hr as [Hs Hk Hn].
    pose proof (room_reader s Hs). destruct (so_data _ Hs) as [_ Hlen].
    destruct (HC a Ra ltac:(lia)) as (k & n & hd & c & Hhd & Hz & Ea & Hf).
    rewrite Ea, zlen_app in Hroom. rewrite Ea, <- app_assoc in Er.
    destruct (Kind_read k n hd (c ++ rest) s Hhd Hs Hk Er ltac:(lia)) as [_ (s1 & E & Hp)].
    pose proof (peeked_ok _ _ _ _ _ Hs Hp) as Hs1. pose proof (pk_head _ _ _ _ _ Hp) as (_ & Hc & _).
    rewrite Ea. eapply done_with_peeked; [done..|]. eapply Hf; [done..| |].
    + pose proof (co_reader _ _ _ Hc) as Er1. rewrite Er in Er1. apply app_inv_head in Er1. done.
    + rewrite (room_consumed _ _ _ Hc). lia.
  - intros a Ra Hl. destruct (HC a Ra Hl) as (k & n & hd & c & ? & ? & ? & _). by exists k, n, hd, c.
  - auto with go.
Qed.

Lemma done_with_byte s1 hd s n :
  stream_ok s1 -> peeked KByte n hd s s1 ->
  done_with (modify (fun s => set_kind s None) ;;; b <~ gets byteval ;; eret [b]) (inl hd) [] s1.
Proof.
  intros Hs1 [(_ & _ & Hb) _ _ _ _]. rewrite (Hb eq_refl). eexists. split; [done|]. split; [|done].
  by apply consumed_nil.
Qed.

Lemma done_with_readFull {A} (f : bytes -> M Stream (rres A)) c a rest s :
  stream_ok s -> reader s = c ++ rest -> zlen c <= room s -> (forall s, f c s = Ok (inl a, s)) ->
  done_with (ebind (readFull (zlen c)) f) (inl a) c s.
Proof.
  intros Hs Er Hr Hf. destruct (readFull_read c rest s Hs Er Hr) as (s' & E & Hc & Hk).
  exists s'. by rewrite (ebind_ok _ _ _ _ _ E).
Qed.

(** Reading a string of [n] bytes: the bytes read, or an error. *)
Lemma readFull_cases {A} (f : bytes -> M Stream (rres A)) n s :
  stream_ok s -> is_u64 n ->
  (exists c s', zlen c = n /\ Forall is_byte c /\ consumed c s s' /\ kind s' = None /\ ebind (readFull n) f s = f c s')
  \/ fails (ebind (readFull n) f) s.
Proof.
  intros Hs Hn. destruct (Z.lt_ge_cases (room s) n) as [H|H].
  - right. apply fails_ebind. apply readFull_err; [done|u64_lia].
  - left. destruct (readFull_ok n s Hs ltac:(u64_lia)) as (c & s' & E & Hz & Hc & Hk).
    exists c, s'. rewrite (ebind_ok _ _ _ _ _ E). split_and!; try done. by eapply consumed_bytes.
Qed.

(** Strings that are not encoded as themselves. *)
Definition short_byte (c : bytes) : bool := (zlen c =? 1) && (match c with x :: _ => x <? 128 | [] => false end).

Lemma rlp_string_head c : short_byte c = false -> rlp_string c = rlp_head 128 (zlen c) ++ c.
Proof.
  unfold short_byte, rlp_string. destruct c as [|x [|y c]]; try done. change (zlen [x] =? 1) with true. cbn [andb]. by intros ->.
Qed.

Lemma rlp_string_byte x : x < 128 -> rlp_string [x] = [x].
Proof. intros H. cbn. by destruct (Z.ltb_spec x 128); [|lia]. Qed.

Lemma short_byte_true c : Forall is_byte c -> short_byte c = true -> exists x, c = [x] /\ 0 <= x < 128.
Proof.
  unfold short_byte. destruct c as [|x [|y c]]; [done| |].
  - cbn. intros Hb H. apply Forall_cons in Hb as [Hb _]. unfold is_byte in Hb. go_bool. exists x. split; [done|lia].
  - intros _ H. apply andb_true_iff in H as [H _]. apply Z.eqb_eq in H. rewrite !zlen_cons in H.
    pose proof (zlen_nonneg c). lia.
Qed.

Lemma string_fits c : zlen (rlp_string c) <= data_max -> is_u64 (zlen c).
Proof. apply string_size. Qed.

Lemma decodes_Bytes N : decodes N Stream_Bytes rlp_string (Forall is_byte).
Proof.
  apply decodes_kind.
  - intros s s1 k n hd [Hs _ _] Hs1 Hp _. pose proof (pk_head _ _ _ _ _ Hp) as (Hhd & Hc & Hb).
    pose proof (is_head_length _ _ _ Hhd) as [_ Hn]. destruct k.
    + left. exists hd, []. inversion Hhd as [b Hb'| |]; subst. rewrite app_nil_r, rlp_string_byte by lia.
      split_and!; [|done|by eapply done_with_byte].
      apply Forall_cons_2; [unfold is_byte; lia|apply Forall_nil_2].
    + inversion Hhd; subst. destruct (readFull_cases (fun b =>
        if (n =? 1) && (match b with x :: _ => x <? 128 | [] => false end) then throw ErrCanonSize else eret b) n s1 Hs1 Hn)
        as [(c & s' & Hz & Hcb & Hc' & Hk & E)|Hf]; [|by right].
      destruct ((n =? 1) && _) eqn:Ec; [right; exists ErrCanonSize, s'; by rewrite E|left].
      exists c, c. rewrite <- Hz in *. rewrite rlp_string_head by done. split_and!; [done..|].
      exists s'. by rewrite E.
    + right. by exists ErrExpectedString, s1.
  - intros a Ra Hl. pose proof (string_fits a Hl) as Hu. destruct (short_byte a) eqn:Es.
    + apply short_byte_true in Es as (x & -> & Hx); [|done]. exists KByte, 0, [x], [].
      rewrite rlp_string_byte by lia. split_and!; [by constructor|done|done|].
      intros s s1 rest _ Hs1 Hp _ _ _. by eapply done_with_byte.
    + exists KString, (zlen a), (rlp_head 128 (zlen a)), a. rewrite rlp_string_head by done.
      split_and!; [by constructor|done|done|]. intros s s1 rest _ Hs1 Hp _ Er Hr.
      eapply done_with_readFull; [done..|]. intros s0. unfold short_byte in Es. by rewrite Es.
Qed.

Lemma decodes_Raw N : decodes N Stream_Raw (fun b => b) (fun b => is_item b /\ Forall is_byte b).
Proof.
  apply decodes_kind.
  - intros s s1 k n hd [Hs _ _] Hs1 Hp _. pose proof (pk_head _ _ _ _ _ Hp) as (Hhd & Hc & Hb).
    pose proof (is_head_length _ _ _ Hhd) as [_ Hn]. destruct k.
    + left. exists hd, []. rewrite app_nil_r. inversion Hhd; subst.
      split_and!; [|exact (consumed_bytes _ _ _ Hs Hc)|done|by eapply done_with_byte].
      exists KByte, 0, [b], []. by rewrite app_nil_r.
    + destruct (readFull_cases (fun b => eret (puthead 128 183 n ++ b)) n s1 Hs1 Hn)
        as [(c & s' & Hz & Hcb & Hc' & Hk & E)|Hf]; [left|by right].
      exists (hd ++ c), c. inversion Hhd; subst.
      split_and!; [by eexists KString, _, _, _|apply Forall_app; eauto using consumed_bytes|done|].
      exists s'. by rewrite E, puthead_rlp_head by auto.
    + destruct (readFull_cases (fun b => eret (puthead 192 247 n ++ b)) n s1 Hs1 Hn)
        as [(c & s' & Hz & Hcb & Hc' & Hk & E)|Hf]; [left|by right].
      exists (hd ++ c), c. inversion Hhd; subst.
      split_and!; [by eexists KList, _, _, _|apply Forall_app; eauto using consumed_bytes|done|].
      exists s'. by rewrite E, puthead_rlp_head by auto.
  - intros a [(k & n & hd & c & Hhd & Hz & ->) _] Hl. exists k, n, hd, c. split_and!; [done..|].
    intros s s1 rest _ Hs1 Hp _ Er Hr. pose proof (is_head_length _ _ _ Hhd) as [_ Hn]. destruct k.
    + inversion Hhd; subst. assert (c = []) as -> by (by apply zlen_zero). rewrite app_nil_r. by eapply done_with_byte.
    + inversion Hhd; subst. eapply done_with_readFull; [done..|]. intros s0. by rewrite puthead_rlp_head by auto.
    + inversion Hhd; subst. eapply done_with_readFull; [done..|]. intros s0. by rewrite puthead_rlp_head by auto.
Qed.

Definition uint_bits (bits : Z) : Prop := bits = 8 \/ bits = 16 \/ bits = 32 \/ bits = 64.

Lemma uint_bits_pow bits : uint_bits bits -> 2 ^ bits = 256 ^ (bits / 8) /\ 1 <= bits / 8 <= 8.
Proof. by intros [->|[->|[->| ->]]]. Qed.

Lemma uint_bytes_min c : Forall is_byte c -> uint_bytes c -> be_val c <> 0 -> be_min (be_val c) = c.
Proof.
  intros Hb Hu H. apply be_min_be_val; [done|]. destruct Hu as [Hu|Hu]; [|done].
  destruct c as [|x [|y c]]; [done| |rewrite !zlen_cons in Hu; pose proof (zlen_nonneg c); lia]. done.
Qed.

Lemma short_byte_val c : Forall is_byte c -> 128 <= be_val c -> short_byte c = false.
Proof.
  intros Hb H. destruct (short_byte c) eqn:E; [|done].
  apply short_byte_true in E as (x & -> & Hx); [|done]. rewrite be_val_one in H. lia.
Qed.

(** The string case of [uint]. *)
Definition uint_string (n : Z) : M Stream (rres Z) :=
  r <~ readUint (u8 n) ;;
  match r with
  | inr ErrCanonSize => throw ErrCanonInt
  | inr e => throw e
  | inl v => if (0 <? n) && (v <? 128) then throw ErrCanonSize else eret v
  end.

Lemma uint_string_zero s : stream_ok s -> done_with (uint_string 0) (inl 0) [] s.
Proof. intros Hs. eexists. split; [done|]. split; [by apply consumed_nil|done]. Qed.

Lemma uint_string_cases n s :
  stream_ok s -> 1 <= n <= 8 ->
  (exists c, zlen c = n /\ Forall is_byte c /\ uint_bytes c /\ 128 <= be_val c /\
     done_with (uint_string n) (inl (be_val c)) c s) \/ fails (uint_string n) s.
Proof.
  intros Hs Hn. unfold uint_string, done_with, fails. rewrite u8_small by lia.
  destruct (readUint_ok n s Hs Hn) as [(c & s' & E & Hz & Hu & Hc & Hk)|(e & s' & E & He)];
    rewrite (bind_ok _ _ _ _ _ E).
  - destruct (Z.ltb_spec 0 n); [cbn [andb]|lia]. destruct (Z.ltb_spec (be_val c) 128); [right; by eauto|left].
    exists c. split_and!; try done; [by eapply consumed_bytes|]. by exists s'.
  - right. destruct e; (eexists _, s'; split; [done|done]).
Qed.

Lemma uint_string_read c rest s :
  stream_ok s -> 1 <= zlen c <= 8 -> uint_bytes c -> 128 <= be_val c -> reader s = c ++ rest -> zlen c <= room s ->
  done_with (uint_string (zlen c)) (inl (be_val c)) c s.
Proof.
  intros Hs Hn Hu Hv Er Hr. unfold uint_string, done_with. rewrite u8_small by lia.
  destruct (readUint_read c rest s Hs Hn Hu Er Hr) as (s' & E & Hc & Hk). exists s'.
  rewrite (bind_ok _ _ _ _ _ E). destruct (Z.ltb_spec (be_val c) 128); [lia|]. by rewrite andb_false_r.
Qed.

Lemma decodes_uint N bits :
  uint_bits bits ->
  decodes N (Stream_uint bits) (fun i => rlp_string (be_min i)) (fun i => 0 <= i < 2 ^ bits).
Proof.
  intros Hbits. pose proof (uint_bits_pow bits Hbits) as [Hpow H8].
  pose proof (Z.pow_le_mono_r 256 1 (bits / 8) ltac:(lia) ltac:(lia)) as Hpow1. change (256 ^ 1) with 256 in Hpow1.
  apply decodes_kind.
  - intros s s1 k n hd [Hs _ _] Hs1 Hp _. pose proof (pk_head _ _ _ _ _ Hp) as (Hhd & Hc & Hb). destruct k.
    + inversion Hhd as [b Hb'| |]; subst. specialize (Hb eq_refl). injection Hb as ->.
      unfold done_with, fails, bind, gets. destruct (Z.eqb_spec (byteval s1) 0); [right; by eexists _, s1|left].
      exists (byteval s1), []. rewrite be_min_small, rlp_string_byte by lia.
      split_and!; [lia..|done|]. eexists. split; [done|]. split; [by apply consumed_nil|done].
    + inversion Hhd as [|n' Hn|]; subst n' hd. fold (uint_string n).
      destruct (Z.ltb_spec (bits / 8) n); [right; by eexists _, s1|].
      destruct (Z.eq_dec n 0) as [->|].
      { left. exists 0, []. split_and!; [lia|lia|done|by apply uint_string_zero]. }
      destruct (uint_string_cases n s1 Hs1 ltac:(u64_lia)) as [(c & <- & Hcb & Hu & Hv & Hd)|Hf]; [left|by right].
      exists (be_val c), c. rewrite uint_bytes_min, rlp_string_head by (try apply short_byte_val; done || lia).
      split_and!; [lia| |done|done]. pose proof (be_val_bound c Hcb).
      pose proof (Z.pow_le_mono_r 256 (zlen c) (bits / 8) ltac:(lia) ltac:(lia)). lia.
    + right. by exists ErrExpectedString, s1.
  - intros i Hi Hl. destruct (Z.eq_dec i 0) as [->|]; [|destruct (Z.lt_ge_cases i 128)].
    + exists KString, 0, [128], []. split_and!; [apply (head_string 0); u64_lia|done|done|].
      intros s s1 rest _ Hs1 _ _ _ _. destruct (Z.ltb_spec (bits / 8) 0); [lia|]. by apply uint_string_zero.
    + exists KByte, 0, [i], []. rewrite be_min_small, rlp_string_byte by lia.
      split_and!; [constructor; lia|done|done|]. intros s s1 rest _ Hs1 Hp _ _ _.
      pose proof (pk_head _ _ _ _ _ Hp) as (_ & _ & Hb). specialize (Hb eq_refl). injection Hb as Hb.
      unfold done_with, bind, gets. rewrite <- Hb. destruct (Z.eqb_spec i 0); [lia|].
      eexists. split; [done|]. split; [by apply consumed_nil|done].
    + pose proof (byte_len_bounds i ltac:(lia)) as (Hp & Hlo & _).
      assert (byte_len i <= bits / 8) as Hlen.
      { rewrite Hpow in Hi. pose proof (Z.pow_lt_mono_r_iff 256 (byte_len i - 1) (bits / 8) ltac:(lia) ltac:(lia)). lia. }
      pose proof (be_val_be_min i ltac:(lia)) as Hv. pose proof (zlen_be_min i) as Hz.
      exists KString, (byte_len i), (rlp_head 128 (byte_len i)), (be_min i). rewrite <- Hz.
      split_and!; [constructor; u64_lia|done| |].
      { apply rlp_string_head, short_byte_val; [apply be_min_bytes|lia]. }
      intros s s1 rest _ Hs1 _ _ Er Hr. fold (uint_string (zlen (be_min i))).
      destruct (Z.ltb_spec (bits / 8) (zlen (be_min i))); [lia|]. rewrite <- Hv at 2.
      eapply uint_string_read; [done|lia| |lia|done|done]. right. apply be_min_leading.
Qed.

Lemma decodes_ByteArray N vlen :
  0 <= vlen -> vlen <> 1 ->
  decodes N (decodeByteArray vlen) rlp (fun v => exists b, v = VByteArray b /\ Forall is_byte b /\ zlen b = vlen).
Proof.
  intros Hv H1. apply decodes_kind.
  - intros s s1 k n hd [Hs _ _] Hs1 Hp _. pose proof (pk_head _ _ _ _ _ Hp) as (Hhd & Hc & Hb).
    pose proof (is_head_length _ _ _ Hhd) as [_ Hn]. destruct k.
    + right. destruct (Z.eqb_spec vlen 0); [by eexists _, s1|].
      destruct (Z.ltb_spec 1 vlen); [by eexists _, s1|lia].
    + destruct (Z.ltb_spec vlen n); [right; by eexists _, s1|].
      destruct (Z.ltb_spec n vlen); [right; by eexists _, s1|]. assert (vlen = n) as -> by lia.
      destruct (readFull_cases (fun slice =>
        if (n =? 1) && (match slice with x :: _ => x <? 128 | [] => false end)
        then throw (wrapStreamError ErrCanonSize) else eret (VByteArray slice)) n s1 Hs1 Hn)
        as [(c & s' & Hz & Hcb & Hc' & Hk & E)|Hf]; [left|by right].
      destruct (Z.eqb_spec n 1); [lia|]. exists (VByteArray c), c. inversion Hhd; subst.
      cbn [rlp]. rewrite rlp_string_head by (unfold short_byte; by destruct (Z.eqb_spec (zlen c) 1)).
      split_and!; [by eauto|done|]. exists s'. by rewrite E.
    + right. by eexists _, s1.
  - intros v (b & -> & Hb & <-) Hl. cbn [rlp] in *. pose proof (string_fits b Hl) as Hu.
    exists KString, (zlen b), (rlp_head 128 (zlen b)), b.
    rewrite rlp_string_head by (unfold short_byte; by destruct (Z.eqb_spec (zlen b) 1)).
    split_and!; [by constructor|done|done|]. intros s s1 rest _ Hs1 Hp _ Er Hr.
    rewrite Z.ltb_irrefl. eapply done_with_readFull; [done..|].
    intros s0. by destruct (Z.eqb_spec (zlen b) 1).
Qed.

(** ** Lists *)

(** [s'] is [s] inside a list of [n] bytes whose header has just been read. *)
Definition entered (n : Z) (s s' : Stream) : Prop :=
  exists s1, consumed (rlp_head 192 n) s s1 /\ is_u64 n /\
    match stack s1 with [] => True | tos :: _ => n <= lsize tos - pos tos end /\
    reader s' = reader s1 /\ remaining s' = remaining s1 /\ limited s' = limited s1 /\
    stack s' = Listpos 0 n :: stack s1 /\ kind s' = None.

Lemma List_enter n hd s s1 :
  peeked KList n hd s s1 -> Stream_Kind s = Ok (inl (KList, n), s1) ->
  exists s', Stream_List s = Ok (inl n, s') /\ entered n s s'.
Proof.
  intros [(Hhd & Hc & _) Hk Hn _ Hf] E. inversion Hhd; subst. unfold Stream_List.
  rewrite (ebind_ok _ _ _ _ _ E). eexists. split; [done|]. exists s1. by split_and!.
Qed.

Lemma List_cases s :
  stream_ok s -> kind s = None -> at_list_end s = false ->
  (exists n s', Stream_List s = Ok (inl n, s') /\ entered n s s') \/ fails Stream_List s.
Proof.
  intros Hs Hk He. destruct (Kind_ok s Hs Hk He) as [(k & n & hd & s1 & E & Hp)|Hf].
  - destruct k; [right|right|left].
    1,2: unfold fails, Stream_List; rewrite (ebind_ok _ _ _ _ _ E); by eexists _, s1.
    exists n. by eapply List_enter.
  - right. by apply fails_ebind.
Qed.

Lemma List_EOL s :
  kind s = None -> at_list_end s = true -> Stream_List s = Ok (inr EOL, set_kinderr s None).
Proof. intros Hk He. unfold Stream_List. by rewrite (ebind_err _ _ _ _ _ (Kind_EOL s Hk He)). Qed.

Lemma List_read n rest s :
  is_u64 n -> stream_ok s -> kind s = None -> reader s = rlp_head 192 n ++ rest ->
  zlen (rlp_head 192 n) + n <= room s -> exists s', Stream_List s = Ok (inl n, s') /\ entered n s s'.
Proof.
  intros Hn Hs Hk Er Hr. destruct (Kind_read KList n _ rest s (head_list n Hn) Hs Hk Er Hr) as [_ (s1 & E & Hp)].
  by eapply List_enter.
Qed.

Lemma entered_ok n s s' : stream_ok s -> entered n s s' -> stream_ok s'.
Proof.
  intros Hs (s1 & Hc & Hn & _ & Er & Em & El & Es & _). destruct (consumed_ok _ _ _ Hs Hc) as [H1 H2 H3 _].
  split; rewrite ?Er, ?Em, ?El, ?Es; try done. cbn. u64_lia.
Qed.

Lemma entered_ready N n s s' : ready (S N) s -> entered n s s' -> ready N s'.
Proof.
  intros [Hs Hk Hf] He. split; [by eapply entered_ok| |].
  - by destruct He as (s1 & _ & _ & _ & _ & _ & _ & _ & ?).
  - destruct He as (s1 & Hc & Hn & _ & -> & _). apply consumed_fuel in Hc.
    pose proof (rlp_head_length 192 n Hn). unfold zlen in *. lia.
Qed.

(** Leaving the list after its whole content has been read. *)
Lemma ListEnd_ok n c s s1 s2 :
  stream_ok s -> entered n s s1 -> consumed c s1 s2 -> zlen c = n ->
  exists s', Stream_ListEnd s2 = Ok (inl tt, s') /\ consumed (rlp_list c) s s' /\ kind s' = None.
Proof.
  intros Hs (s0 & Hc0 & Hn & Hf & Er & Em & El & Es & _) Hc <-.
  pose proof (co_stack _ _ _ Hc) as Hst. rewrite Es in Hst. cbn [advance pos lsize] in Hst.
  rewrite Z.add_0_l in Hst. pose proof (consumed_ok _ _ _ Hs Hc0) as Hs0. pose proof (so_top _ Hs0) as Ht.
  unfold Stream_ListEnd, bind, get, put. rewrite Hst. cbn [pos lsize]. rewrite Z.eqb_refl. cbn [negb].
  eexists. split; [done|]. split; [|done]. apply (consumed_trans _ _ _ s0 _ Hc0).
  split; cbn [set_size set_kind set_stack reader remaining limited stack].
  - rewrite <- Er. by apply co_reader.
  - rewrite (co_remaining _ _ _ Hc), Em. done.
  - rewrite (co_limited _ _ _ Hc), El. done.
  - destruct (stack s0) as [|t l]; [done|]. cbn [top_ok advance] in *.
    rewrite u64_small; [done|]. pose proof (zlen_nonneg c). u64_lia.
  - pose proof (co_room _ _ _ Hc) as Hr. unfold room in *. rewrite Es, Em in Hr. cbn [pos lsize] in Hr.
    destruct (stack s0); lia.
Qed.

Lemma ListEnd_err n c s s1 s2 :
  entered n s s1 -> consumed c s1 s2 -> zlen c <> n -> fails Stream_ListEnd s2.
Proof.
  intros (s0 & _ & _ & _ & _ & _ & _ & Es & _) Hc Hz.
  pose proof (co_stack _ _ _ Hc) as Hst. rewrite Es in Hst. cbn [advance pos lsize] in Hst.
  exists ErrNotAtEOL, s2. unfold Stream_ListEnd, bind, get. rewrite Hst. cbn [pos lsize].
  destruct (Z.eqb_spec (0 + zlen c) n); [lia|done].
Qed.

Definition rlp_elems (l : list rval) : bytes := concat (map rlp l).

Lemma rlp_elems_app l1 l2 : rlp_elems (l1 ++ l2) = rlp_elems l1 ++ rlp_elems l2.
Proof. unfold rlp_elems. by rewrite map_app, concat_app. Qed.

Lemma rlp_elems_cons v l : rlp_elems (v :: l) = rlp v ++ rlp_elems l.
Proof. done. Qed.

(** A decoder of the content of a list of [n] bytes. *)
Record decodes_elems (N : nat) (seq : Z -> M Stream (rres (list rval))) (R : list rval -> Prop) : Prop := {
  el_sound n s below : ready N s -> stack s = Listpos 0 n :: below ->
    (exists l, R l /\ done_with (seq n) (inl l) (rlp_elems l) s) \/ fails (seq n) s;
  el_complete n s below l rest : ready N s -> stack s = Listpos 0 n :: below -> R l ->
    zlen (rlp_elems l) = n -> reader s = rlp_elems l ++ rest -> n <= room s ->
    done_with (seq n) (inl l) (rlp_elems l) s
}.

(** The list decoders of the source are of this form. *)
Definition list_decoder (seq : Z -> M Stream (rres (list rval))) (last : M Stream (rres unit)) : decoder :=
  n <-! wrap Stream_List ;; l <-! seq n ;; last ;;! eret (VList l).

Lemma last_ok (last : M Stream (rres unit)) s u s' :
  last = Stream_ListEnd \/ last = wrap Stream_ListEnd ->
  Stream_ListEnd s = Ok (inl u, s') -> last s = Ok (inl u, s').
Proof. intros [->| ->]; [done|apply wrap_ok]. Qed.

Lemma last_err (last : M Stream (rres unit)) s :
  last = Stream_ListEnd \/ last = wrap Stream_ListEnd -> fails Stream_ListEnd s -> fails last s.
Proof. intros [->| ->]; [done|apply fails_wrap]. Qed.

Lemma rlp_list_item c : zlen (rlp_list c) <= data_max -> is_item (rlp_list c).
Proof.
  unfold rlp_list. rewrite zlen_app. intros Hl.
  pose proof (zlen_nonneg (rlp_head 192 (zlen c))). pose proof (zlen_nonneg c).
  exists KList, (zlen c), (rlp_head 192 (zlen c)), c.
  split_and!; [|done|done]. constructor. unfold data_max in *. u64_lia.
Qed.

Lemma decodes_list N seq last R :
  last = Stream_ListEnd \/ last = wrap Stream_ListEnd ->
  decodes_elems N seq R ->
  decodes (S N) (list_decoder seq last) rlp (fun v => exists l, v = VList l /\ R l).
Proof.
  intros Hlast [HS HC]. unfold list_decoder. split.
  - intros s [Hs Hk _] He. apply done_with_err. eexists.
    rewrite (wrap_err _ _ _ _ (List_EOL s Hk He)).
    split_and!; [done| |done]. by apply consumed_nil.
  - intros s Hr He. pose proof Hr as [Hs Hk _].
    destruct (List_cases s Hs Hk He) as [(n & s1 & E & Hen)|Hf]; [|right; by apply fails_ebind, fails_wrap].
    apply wrap_ok in E. unfold done_with, fails. rewrite (ebind_ok _ _ _ _ _ E).
    pose proof (entered_ready _ _ _ _ Hr Hen) as Hr1. pose proof Hen as (s0 & _ & _ & _ & _ & _ & _ & Es & _).
    destruct (HS n s1 _ Hr1 Es) as [(l & Rl & s2 & E2 & Hc & _)|(e & s2 & E2 & Hee)];
      [|right; exists e, s2; by rewrite (ebind_err _ _ _ _ _ E2)].
    setoid_rewrite (ebind_ok _ _ _ _ _ E2). destruct (Z.eq_dec (zlen (rlp_elems l)) n) as [Hz|Hz].
    + left. destruct (ListEnd_ok n _ s s1 s2 Hs Hen Hc Hz) as (s' & E' & Hc' & Hk').
      exists (VList l). split; [by eauto|]. exists s'.
      by rewrite (ebind_ok _ _ _ _ _ (last_ok _ _ _ _ Hlast E')).
    + right. pose proof (last_err last s2 Hlast (ListEnd_err _ _ _ _ _ Hen Hc Hz)) as (e & s' & E' & Hee).
      exists e, s'. by rewrite (ebind_err _ _ _ _ _ E').
  - intros s v rest Hr (l & -> & Rl) Er Hroom. pose proof Hr as [Hs Hk _].
    change (rlp (VList l)) with (rlp_list (rlp_elems l)) in *. unfold rlp_list in Er, Hroom.
    rewrite zlen_app in Hroom. rewrite <- app_assoc in Er. pose proof (room_reader s Hs).
    destruct (so_data _ Hs) as [_ Hlen]. pose proof (zlen_nonneg (rlp_elems l)).
    assert (is_u64 (zlen (rlp_elems l))) as Hu.
    { pose proof (zlen_nonneg (rlp_head 192 (zlen (rlp_elems l)))). unfold data_max in *. u64_lia. }
    destruct (List_read _ _ s Hu Hs Hk Er Hroom) as (s1 & E & Hen).
    apply wrap_ok in E. unfold done_with. rewrite (ebind_ok _ _ _ _ _ E).
    pose proof (entered_ready _ _ _ _ Hr Hen) as Hr1. pose proof Hen as (s0 & Hc0 & _ & _ & Er0 & Em0 & _ & Es & _).
    destruct (HC _ s1 _ l rest Hr1 Es Rl eq_refl) as (s2 & E2 & Hc & _).
    { rewrite Er0. pose proof (co_reader _ _ _ Hc0) as Er'. rewrite Er in Er'. by apply app_inv_head in Er'. }
    { pose proof (room_consumed _ _ _ Hc0) as Hr0. unfold room in *. rewrite Es. cbn [pos lsize].
      rewrite Em0. destruct (stack s0); lia. }
    rewrite (ebind_ok _ _ _ _ _ E2).
    destruct (ListEnd_ok _ _ s s1 s2 Hs Hen Hc eq_refl) as (s' & E' & Hc' & Hk'). exists s'.
    by rewrite (ebind_ok _ _ _ _ _ (last_ok _ _ _ _ Hlast E')).
  - intros v (l & -> & Rl). apply rlp_list_item.
  - apply absorbs_ebind, absorbs_wrap, absorbs_ebind, absorbs_Kind.
Qed.
