(* ===== verification/RlpTheorems.v ===== *)
(** * Decoding by type

    The decoders [makeDecoder] builds are correct for the values of the type,
    by induction on the type; with it the theorems about [DecodeBytes], and
    those about the splitting functions of [rlp/raw.go]. *)

From Stdlib Require Import ZArith Lia.
From S2P Require Import Prelude Common Rlp RlpStream RlpSpec RlpDecode.

Open Scope go_scope.

(** ** Sequences of elements *)

Lemma item_length b : is_item b -> 1 <= zlen b.
Proof.
  intros (k & n & hd & c & Hhd & _ & ->). rewrite zlen_app. pose proof (is_head_length _ _ _ Hhd) as [H _].
  pose proof (zlen_nonneg c). lia.
Qed.

Lemma consumed_ready N c s s' : ready N s -> consumed c s s' -> kind s' = None -> ready N s'.
Proof.
  intros [Hs Hk Hf] Hc Hk'. split; [by eapply consumed_ok|done|]. apply consumed_fuel in Hc. lia.
Qed.

Lemma consumed_max c s s' : stream_ok s -> consumed c s s' -> zlen c <= data_max.
Proof.
  intros Hs Hc. pose proof (co_room _ _ _ Hc). pose proof (room_reader _ Hs).
  destruct (so_data _ Hs). lia.
Qed.

(** Reading a value shortens the input. *)
Lemma decoded_ready {A} N f (m : M Stream (rres A)) enc R a s s' :
  decodes N m enc R -> R a -> ready (S f) s -> consumed (enc a) s s' -> kind s' = None -> ready f s'.
Proof.
  intros Hd Ra [Hs Hk Hf] Hc Hk'. pose proof (consumed_ok _ _ _ Hs Hc) as Hs'.
  pose proof (item_length _ (dec_item _ _ _ _ Hd a Ra (consumed_max _ _ _ Hs Hc))) as H1.
  apply consumed_fuel in Hc. split; [done|done|]. unfold zlen in H1. lia.
Qed.

Section elems.
Context (N : nat) (elemdec : decoder) (R : rval -> Prop).
Hypothesis Helem : decodes N elemdec rlp R.


Lemma SliceElems_sound fuel acc s :
  (fuel <= N)%nat -> ready fuel s ->
  (exists l, Forall R l /\ done_with (decodeSliceElems fuel elemdec acc) (inl (acc ++ l)) (rlp_elems l) s)
  \/ fails (decodeSliceElems fuel elemdec acc) s.
Proof.
  revert acc s. induction fuel as [|fuel IH]; intros acc s HN Hr; [by destruct Hr; lia|].
  pose proof (ready_le _ N _ HN Hr) as HrN. unfold done_with, fails. cbn [decodeSliceElems].
  destruct (at_list_end s) eqn:He.
  - destruct (dec_end _ _ _ _ Helem s HrN He) as (s' & E & Hc & Hk). rewrite (bind_ok _ _ _ _ _ E).
    left. exists []. rewrite app_nil_r. split; [apply Forall_nil_2|]. by exists s'.
  - destruct (dec_sound _ _ _ _ Helem s HrN He) as [(v & Rv & s1 & E & Hc & Hk)|(e & s1 & E & Hee)];
      rewrite (bind_ok _ _ _ _ _ E).
    + pose proof (decoded_ready _ _ _ _ _ _ _ _ Helem Rv Hr Hc Hk) as Hr1.
      destruct (IH (acc ++ [v]) s1 ltac:(lia) Hr1) as [(l & Rl & s2 & E2 & Hc2 & Hk2)|Hf]; [left|by right].
      exists (v :: l). split; [by apply Forall_cons_2|]. exists s2. rewrite E2, <- app_assoc.
      split_and!; [done| |done]. rewrite rlp_elems_cons. by eapply consumed_trans.
    + right. exists e, s1. by destruct e.
Qed.

Lemma at_end_exact s t below : stack s = t :: below -> pos t = lsize t -> at_list_end s = true.
Proof. intros Hs Hp. unfold at_list_end. rewrite Hs. by apply Z.eqb_eq. Qed.

Lemma SliceElems_complete fuel acc l s t below rest :
  (fuel <= N)%nat -> ready fuel s -> Forall R l -> stack s = t :: below ->
  lsize t - pos t = zlen (rlp_elems l) -> reader s = rlp_elems l ++ rest -> zlen (rlp_elems l) <= room s ->
  done_with (decodeSliceElems fuel elemdec acc) (inl (acc ++ l)) (rlp_elems l) s.
Proof.
  revert acc l s t. induction fuel as [|fuel IH]; intros acc l s t HN Hr Rl Hst Hz Er Hroom;
    [by destruct Hr; lia|].
  pose proof (ready_le _ N _ HN Hr) as HrN. unfold done_with. cbn [decodeSliceElems].
  destruct Rl as [|v l Rv Rl].
  - assert (at_list_end s = true) as He by (eapply at_end_exact; [done|change (zlen (rlp_elems [])) with 0 in Hz; lia]).
    destruct (dec_end _ _ _ _ Helem s HrN He) as (s' & E & Hc & Hk). rewrite (bind_ok _ _ _ _ _ E), app_nil_r.
    by exists s'.
  - rewrite rlp_elems_cons, zlen_app in *. rewrite <- app_assoc in Er. pose proof (zlen_nonneg (rlp_elems l)).
    destruct (dec_complete _ _ _ _ Helem s v _ HrN Rv Er ltac:(lia)) as (s1 & E & Hc & Hk).
    rewrite (bind_ok _ _ _ _ _ E). pose proof (decoded_ready _ _ _ _ _ _ _ _ Helem Rv Hr Hc Hk) as Hr1.
    pose proof (co_stack _ _ _ Hc) as Hs1. rewrite Hst in Hs1. cbn [advance] in Hs1.
    destruct (IH (acc ++ [v]) l s1 _ ltac:(lia) Hr1 Rl Hs1) as (s2 & E2 & Hc2 & Hk2).
    + cbn [pos lsize]. lia.
    + pose proof (co_reader _ _ _ Hc) as Er'. rewrite Er in Er'. by apply app_inv_head in Er'.
    + rewrite (room_consumed _ _ _ Hc). lia.
    + exists s2. rewrite E2, <- app_assoc. split_and!; [done|by eapply consumed_trans|done].
Qed.

Lemma array_elems_sound vlen acc s :
  ready N s ->
  (exists l, Forall R l /\ length l = vlen /\
     done_with (array_elems vlen elemdec acc) (inl (Some (acc ++ l))) (rlp_elems l) s)
  \/ (exists s', array_elems vlen elemdec acc s = Ok (inl None, s'))
  \/ fails (array_elems vlen elemdec acc) s.
Proof.
  revert acc s. induction vlen as [|vlen IH]; intros acc s Hr.
  - left. exists []. rewrite app_nil_r. split_and!; [apply Forall_nil_2|done|].
    exists s. destruct Hr. split_and!; [done|by apply consumed_nil|done].
  - unfold done_with, fails. cbn [array_elems]. destruct (at_list_end s) eqn:He.
    + destruct (dec_end _ _ _ _ Helem s Hr He) as (s' & E & _). rewrite (bind_ok _ _ _ _ _ E).
      right. left. by exists s'.
    + destruct (dec_sound _ _ _ _ Helem s Hr He) as [(v & Rv & s1 & E & Hc & Hk)|(e & s1 & E & Hee)];
        rewrite (bind_ok _ _ _ _ _ E); [|right; right; exists e, s1; by destruct e].
      destruct (IH (acc ++ [v]) s1 (consumed_ready _ _ _ _ Hr Hc Hk)) as [(l & Rl & <- & s2 & E2 & Hc2 & Hk2)|Hf]; [left|by right].
      exists (v :: l). split_and!; [by apply Forall_cons_2|done|]. exists s2. rewrite E2, <- app_assoc.
      split_and!; [done|rewrite rlp_elems_cons; by eapply consumed_trans|done].
Qed.

Lemma array_elems_complete acc l s rest :
  ready N s -> Forall R l -> reader s = rlp_elems l ++ rest -> zlen (rlp_elems l) <= room s ->
  done_with (array_elems (length l) elemdec acc) (inl (Some (acc ++ l))) (rlp_elems l) s.
Proof.
  intros Hr Rl. revert acc s Hr. induction Rl as [|v l Rv Rl IH]; intros acc s Hr Er Hroom.
  - rewrite app_nil_r. exists s. destruct Hr. split_and!; [done|by apply consumed_nil|done].
  - unfold done_with. cbn [length array_elems]. rewrite rlp_elems_cons, zlen_app in *. rewrite <- app_assoc in Er.
    pose proof (zlen_nonneg (rlp_elems l)).
    destruct (dec_complete _ _ _ _ Helem s v _ Hr Rv Er ltac:(lia)) as (s1 & E & Hc & Hk).
    rewrite (bind_ok _ _ _ _ _ E).
    destruct (IH (acc ++ [v]) s1 (consumed_ready _ _ _ _ Hr Hc Hk)) as (s2 & E2 & Hc2 & Hk2).
    + pose proof (co_reader _ _ _ Hc) as Er'. rewrite Er in Er'. by apply app_inv_head in Er'.
    + rewrite (room_consumed _ _ _ Hc). lia.
    + exists s2. rewrite E2, <- app_assoc. split_and!; [done|by eapply consumed_trans|done].
Qed.
End elems.

Lemma struct_fields_sound N ds Rs acc s :
  Forall2 (fun d R => decodes N d rlp R) ds Rs -> ready N s ->
  (exists l, Forall2 (fun R v => R v) Rs l /\
     done_with (struct_fields ds acc) (inl (acc ++ l)) (rlp_elems l) s) \/ fails (struct_fields ds acc) s.
Proof.
  intros H. revert acc s. induction H as [|d R ds Rs Hd H IH]; intros acc s Hr.
  - left. exists []. rewrite app_nil_r. split; [constructor|].
    exists s. destruct Hr. split_and!; [done|by apply consumed_nil|done].
  - unfold done_with, fails. cbn [struct_fields]. destruct (at_list_end s) eqn:He.
    + destruct (dec_end _ _ _ _ Hd s Hr He) as (s' & E & _). rewrite (bind_ok _ _ _ _ _ E).
      right. by eexists _, s'.
    + destruct (dec_sound _ _ _ _ Hd s Hr He) as [(v & Rv & s1 & E & Hc & Hk)|(e & s1 & E & Hee)];
        rewrite (bind_ok _ _ _ _ _ E); [|right; exists e, s1; by destruct e].
      destruct (IH (acc ++ [v]) s1 (consumed_ready _ _ _ _ Hr Hc Hk)) as [(l & Rl & s2 & E2 & Hc2 & Hk2)|Hf]; [left|by right].
      exists (v :: l). split; [by constructor|]. exists s2. rewrite E2, <- app_assoc.
      split_and!; [done|rewrite rlp_elems_cons; by eapply consumed_trans|done].
Qed.

Lemma struct_fields_complete N ds Rs acc l s rest :
  Forall2 (fun d R => decodes N d rlp R) ds Rs -> Forall2 (fun R v => R v) Rs l -> ready N s ->
  reader s = rlp_elems l ++ rest -> zlen (rlp_elems l) <= room s ->
  done_with (struct_fields ds acc) (inl (acc ++ l)) (rlp_elems l) s.
Proof.
  intros H. revert acc l s. induction H as [|d R ds Rs Hd H IH]; intros acc l s Hl Hr Er Hroom;
    inversion Hl as [|? v ? l' Rv Hl']; subst.
  - rewrite app_nil_r. exists s. destruct Hr. split_and!; [done|by apply consumed_nil|done].
  - unfold done_with. cbn [struct_fields]. rewrite rlp_elems_cons, zlen_app in *. rewrite <- app_assoc in Er.
    pose proof (zlen_nonneg (rlp_elems l')).
    destruct (dec_complete _ _ _ _ Hd s v _ Hr Rv Er ltac:(lia)) as (s1 & E & Hc & Hk).
    rewrite (bind_ok _ _ _ _ _ E).
    destruct (IH (acc ++ [v]) l' s1 Hl' (consumed_ready _ _ _ _ Hr Hc Hk)) as (s2 & E2 & Hc2 & Hk2).
    + pose proof (co_reader _ _ _ Hc) as Er'. rewrite Er in Er'. by apply app_inv_head in Er'.
    + rewrite (room_consumed _ _ _ Hc). lia.
    + exists s2. rewrite E2, <- app_assoc. split_and!; [done|by eapply consumed_trans|done].
Qed.

(** ** The list decoders *)

Lemma decodes_ext {A} N (m m' : M Stream (rres A)) enc R :
  (forall s, m s = m' s) -> decodes N m' enc R -> decodes N m enc R.
Proof.
  intros E [H1 H2 H3 H4 H5]. unfold done_with, fails in *.
  split; [..|done|]; unfold done_with, fails.
  - intros s. setoid_rewrite E. apply H1.
  - intros s. setoid_rewrite E. apply H2.
  - intros s a rest. setoid_rewrite E. apply H3.
  - intros s kn s1 Ek. rewrite !E. by eapply H5.
Qed.

Lemma decodes_iff {A} N (m : M Stream (rres A)) enc R R' :
  (forall a, R a <-> R' a) -> decodes N m enc R -> decodes N m enc R'.
Proof.
  intros E [H1 H2 H3 H4 H5]. split; [done|..|done].
  - intros s Hr He. destruct (H2 s Hr He) as [(a & Ra & H)|H]; [left|by right]. exists a. by rewrite <- E.
  - intros s a rest Hr Ra. apply H3; [done|]. by apply E.
  - intros a Ra. by apply H4, E.
Qed.

Definition slice_elems (fuel : nat) (elemdec : decoder) (n : Z) : M Stream (rres (list rval)) :=
  if n =? 0 then eret [] else decodeSliceElems fuel elemdec [].

Lemma decodeListSlice_frame fuel elemdec s :
  decodeListSlice fuel elemdec s = list_decoder (slice_elems fuel elemdec) Stream_ListEnd s.
Proof.
  unfold decodeListSlice, list_decoder, slice_elems, ebind, bind.
  destruct (wrap Stream_List s) as [[[n|e] s1]| |]; [|done..]. by destruct (n =? 0).
Qed.

Lemma elems_nil N elemdec R l :
  decodes N elemdec rlp R -> Forall R l -> zlen (rlp_elems l) = 0 -> l = [].
Proof.
  intros Hd Rl Hz. destruct Rl as [|v l Rv Rl]; [done|]. rewrite rlp_elems_cons, zlen_app in Hz.
  pose proof (zlen_nonneg (rlp v)). pose proof (zlen_nonneg (rlp_elems l)).
  pose proof (item_length _ (dec_item _ _ _ _ Hd v Rv ltac:(unfold data_max; lia))). lia.
Qed.

Lemma slice_elems_ok N elemdec R :
  decodes N elemdec rlp R -> decodes_elems N (slice_elems N elemdec) (Forall R).
Proof.
  intros Hd. unfold slice_elems. split.
  - intros n s below Hr Hst. destruct (Z.eqb_spec n 0).
    + left. exists []. split; [apply Forall_nil_2|]. exists s. destruct Hr.
      split_and!; [done|by apply consumed_nil|done].
    + apply (SliceElems_sound N elemdec R Hd N [] s (le_n N) Hr).
  - intros n s below l rest Hr Hst Rl Hz Er Hroom. destruct (Z.eqb_spec n 0) as [E0|].
    + subst n. rewrite (elems_nil _ _ _ _ Hd Rl E0). exists s. destruct Hr.
      split_and!; [done|by apply consumed_nil|done].
    + eapply (SliceElems_complete N elemdec R Hd N [] l s _ _ rest (le_n N) Hr Rl Hst); [|done|lia].
      cbn [pos lsize]. lia.
Qed.

Lemma decodes_ListSlice N elemdec R :
  decodes N elemdec rlp R ->
  decodes (S N) (decodeListSlice N elemdec) rlp (fun v => exists l, v = VList l /\ Forall R l).
Proof.
  intros Hd. eapply decodes_ext; [apply decodeListSlice_frame|].
  apply decodes_list; [by left|]. by apply slice_elems_ok.
Qed.

Definition array_seq (vlen : nat) (elemdec : decoder) (_ : Z) : M Stream (rres (list rval)) :=
  o <-! array_elems vlen elemdec [] ;;
  match o with None => throw (DecodeError MsgTooFewListElements) | Some l => eret l end.

Lemma decodeListArray_frame vlen elemdec s :
  decodeListArray vlen elemdec s = list_decoder (array_seq vlen elemdec) (wrap Stream_ListEnd) s.
Proof.
  unfold decodeListArray, list_decoder, array_seq, ebind, bind.
  destruct (wrap Stream_List s) as [[[n|e] s1]| |]; [|done..].
  by destruct (array_elems vlen elemdec [] s1) as [[[[l|]|e] s2]| |].
Qed.

Lemma decodes_ListArray N vlen elemdec R :
  decodes N elemdec rlp R ->
  decodes (S N) (decodeListArray vlen elemdec) rlp
    (fun v => exists l, v = VList l /\ (Forall R l /\ length l = vlen)).
Proof.
  intros Hd. eapply decodes_ext; [apply decodeListArray_frame|].
  apply decodes_list; [by right|]. unfold array_seq. split.
  - intros n s below Hr _.
    destruct (array_elems_sound N elemdec R Hd vlen [] s Hr) as [(l & Rl & Hl & H)|[(s' & E)|H]].
    + left. exists l. split; [done|]. by eapply done_with_map.
    + right. unfold fails. rewrite (ebind_ok _ _ _ _ _ E). by eexists _, s'.
    + right. by apply fails_ebind.
  - intros n s below l rest Hr _ [Rl <-] Hz Er Hroom. eapply done_with_map.
    + apply (array_elems_complete N elemdec R Hd [] l s rest Hr Rl Er). lia.
    + done.
Qed.

Definition struct_seq (fields : list decoder) (tail : option (M Stream (rres (list rval)))) (_ : Z) :
    M Stream (rres (list rval)) :=
  l <-! struct_fields fields [] ;;
  l' <-! match tail with None => eret [] | Some m => m end ;;
  eret (l ++ l').

Lemma makeStructDecoder_frame fields tail s :
  makeStructDecoder fields tail s = list_decoder (struct_seq fields tail) (wrap Stream_ListEnd) s.
Proof.
  unfold makeStructDecoder, list_decoder, struct_seq, ebind, bind.
  destruct (wrap Stream_List s) as [[[n|e] s1]| |]; [|done..].
  destruct (struct_fields fields [] s1) as [[[l|e] s2]| |]; [|done..].
  by destruct (match tail with None => eret [] | Some m => m end s2) as [[[l'|e] s3]| |].
Qed.

(** The tail of a struct takes the rest of the list. *)
Definition tail_type (tail : option (rval -> Prop)) (l : list rval) : Prop :=
  match tail with None => l = [] | Some R => Forall R l end.

Definition tail_decoder (N : nat) (tail : option decoder) : option (M Stream (rres (list rval))) :=
  match tail with None => None | Some d => Some (decodeSliceElems N d []) end.

Lemma tail_sound N dt Rt s :
  option_Forall2 (fun d R => decodes N d rlp R) dt Rt -> ready N s ->
  let m := match tail_decoder N dt with None => eret [] | Some m => m end in
  (exists l, tail_type Rt l /\ done_with m (inl l) (rlp_elems l) s) \/ fails m s.
Proof.
  intros [d R Hd|] Hr; cbn.
  - apply (SliceElems_sound N d R Hd N [] s (le_n N) Hr).
  - left. exists []. split; [done|]. exists s. destruct Hr. split_and!; [done|by apply consumed_nil|done].
Qed.

Lemma tail_complete N dt Rt s t below l rest :
  option_Forall2 (fun d R => decodes N d rlp R) dt Rt -> ready N s -> tail_type Rt l ->
  stack s = t :: below -> lsize t - pos t = zlen (rlp_elems l) -> reader s = rlp_elems l ++ rest ->
  zlen (rlp_elems l) <= room s ->
  done_with (match tail_decoder N dt with None => eret [] | Some m => m end) (inl l) (rlp_elems l) s.
Proof.
  intros [d R Hd|] Hr Hl Hst Hz Er Hroom; cbn in *.
  - by eapply (SliceElems_complete N d R Hd N [] l s _ _ rest (le_n N) Hr).
  - subst l. exists s. destruct Hr. split_and!; [done|by apply consumed_nil|done].
Qed.

Lemma decodes_Struct N ds Rs dt Rt :
  Forall2 (fun d R => decodes N d rlp R) ds Rs -> option_Forall2 (fun d R => decodes N d rlp R) dt Rt ->
  decodes (S N) (makeStructDecoder ds (tail_decoder N dt)) rlp
    (fun v => exists l, v = VList l /\
       exists l1 l2, l = l1 ++ l2 /\ Forall2 (fun R v => R v) Rs l1 /\ tail_type Rt l2).
Proof.
  intros Hds Hdt. eapply decodes_ext; [apply makeStructDecoder_frame|].
  apply decodes_list; [by right|]. unfold struct_seq. split.
  - intros n s below Hr _.
    destruct (struct_fields_sound N ds Rs [] s Hds Hr) as [(l1 & Rl & s1 & E & Hc & Hk)|H]; [|right; by apply fails_ebind].
    unfold done_with, fails. rewrite (ebind_ok _ _ _ _ _ E). cbn [app].
    destruct (tail_sound N dt Rt s1 Hdt (consumed_ready _ _ _ _ Hr Hc Hk)) as [(l2 & Rl2 & s2 & E2 & Hc2 & Hk2)|(e & s2 & E2 & He)].
    + left. exists (l1 ++ l2). split; [by exists l1, l2|]. exists s2. rewrite (ebind_ok _ _ _ _ _ E2), rlp_elems_app.
      split_and!; [done|by eapply consumed_trans|done].
    + right. exists e, s2. by rewrite (ebind_err _ _ _ _ _ E2).
  - intros n s below l rest Hr Hst (l1 & l2 & -> & Rl & Rl2) Hz Er Hroom.
    rewrite rlp_elems_app, zlen_app in *. rewrite <- app_assoc in Er. pose proof (zlen_nonneg (rlp_elems l2)).
    destruct (struct_fields_complete N ds Rs [] l1 s _ Hds Rl Hr Er ltac:(lia)) as (s1 & E & Hc & Hk).
    unfold done_with. rewrite (ebind_ok _ _ _ _ _ E). cbn [app].
    pose proof (co_stack _ _ _ Hc) as Hs1. rewrite Hst in Hs1. cbn [advance pos lsize] in Hs1.
    destruct (tail_complete N dt Rt s1 _ _ l2 rest Hdt (consumed_ready _ _ _ _ Hr Hc Hk) Rl2 Hs1) as (s2 & E2 & Hc2 & Hk2).
    + cbn [pos lsize]. lia.
    + pose proof (co_reader _ _ _ Hc) as Er'. rewrite Er in Er'. by apply app_inv_head in Er'.
    + rewrite (room_consumed _ _ _ Hc). lia.
    + exists s2. rewrite (ebind_ok _ _ _ _ _ E2). split_and!; [done|by eapply consumed_trans|done].
Qed.

(** ** Pointers *)

Definition empty_item (b : bytes) : Prop := b = [128] \/ b = [192].

Lemma head_first k n hd c : is_head k n hd -> hd = 128 :: c \/ hd = 192 :: c -> k <> KByte /\ n = 0 /\ c = [].
Proof.
  intros Hhd Hf. inversion Hhd as [b Hb| |]; subst; [destruct Hf; simplify_eq; lia|..];
    unfold rlp_head in Hf; (destruct (Z.ltb_spec n 56);
      [destruct Hf as [Hf|Hf]; injection Hf as Hf1 Hf2; repeat split; try done; u64_lia|]).
  all: rewrite zlen_be_min in Hf; pose proof (byte_len_bounds n ltac:(lia)); pose proof (byte_len_u64 n ltac:(u64_lia));
    destruct Hf as [Hf|Hf]; injection Hf as Hf1 Hf2; lia.
Qed.

Lemma item_empty k n hd c rest rest' :
  is_head k n hd -> empty_item c -> c ++ rest = hd ++ rest' -> k <> KByte /\ n = 0.
Proof.
  intros Hhd Hc E. pose proof (is_head_length _ _ _ Hhd) as [Hl _].
  destruct hd as [|x hd]; [by rewrite zlen_nil in Hl|].
  assert (x :: hd = 128 :: hd \/ x :: hd = 192 :: hd) as Hf.
  { destruct Hc as [->| ->]; injection E as <- _; auto. }
  by destruct (head_first _ _ _ _ Hhd Hf) as (? & ? & _).
Qed.

Lemma nonempty_kind k n : negb (Kind_eqb k KByte) && (n =? 0) = true <-> k <> KByte /\ n = 0.
Proof. rewrite andb_true_iff, Z.eqb_eq. destruct k; cbn; intuition congruence. Qed.

Lemma zero_head k hd : is_head k 0 hd -> k <> KByte -> rlp (VNilPtr k) = hd.
Proof. intros Hhd Hk. by inversion Hhd; subst. Qed.

Lemma nil_item nilKind : nilKind <> KByte -> is_item (rlp (VNilPtr nilKind)) /\ empty_item (rlp (VNilPtr nilKind)).
Proof.
  intros Hnk. destruct nilKind; [done|..].
  - split; [|by left]. exists KString, 0, [128], []. split_and!; [apply (head_string 0); u64_lia|done..].
  - split; [|by right]. exists KList, 0, [192], []. split_and!; [apply (head_list 0); u64_lia|done..].
Qed.

Section nil_pointer.
Context (N : nat) (nilKind : Kind) (elemdec : decoder) (R : rval -> Prop).
Hypothesis Hnk : nilKind <> KByte.
Hypothesis Hd : decodes N elemdec rlp R.

Lemma NilPtr_sound s :
  ready N s -> at_list_end s = false ->
  (exists v, (v = VNilPtr nilKind \/ R v /\ ~ empty_item (rlp v)) /\
     done_with (makeNilPtrDecoder nilKind elemdec) (inl v) (rlp v) s)
  \/ fails (makeNilPtrDecoder nilKind elemdec) s.
Proof.
  intros Hr He. pose proof Hr as [Hs Hk Hf]. unfold done_with, fails, makeNilPtrDecoder.
  destruct (Kind_ok s Hs Hk He) as [(k & n & hd & s1 & E & Hp)|Hfl];
    [|right; by apply fails_ebind, fails_wrap].
  setoid_rewrite (ebind_ok _ _ _ _ _ (wrap_ok _ _ _ _ E)).
  pose proof (pk_head _ _ _ _ _ Hp) as (Hhd & Hc & _).
  destruct (negb (Kind_eqb k KByte) && (n =? 0)) eqn:Ez.
  - apply nonempty_kind in Ez as [Hkb ->]. destruct (Kind_eqb k nilKind) eqn:Ek; cbn [negb]; [|right; by eexists _, s1].
    assert (k = nilKind) as -> by (by destruct k, nilKind).
    left. exists (VNilPtr nilKind). split; [by left|]. eexists. split; [done|].
    rewrite (zero_head _ _ Hhd Hkb). split; [by apply consumed_same with s1|done].
  - rewrite (dec_peek _ _ _ _ Hd _ _ _ E).
    destruct (dec_sound _ _ _ _ Hd s Hr He) as [(v & Rv & s2 & E2 & Hc2 & Hk2)|Hfl]; [left|by right].
    exists v. split; [|by exists s2]. right. split; [done|]. intros Hem.
    pose proof (co_reader _ _ _ Hc2) as Er. rewrite (co_reader _ _ _ Hc) in Er.
    apply not_true_iff_false in Ez. apply Ez, nonempty_kind. by apply (item_empty _ _ _ _ _ _ Hhd Hem (eq_sym Er)).
Qed.

Lemma NilPtr_complete s v rest :
  ready N s -> v = VNilPtr nilKind \/ R v /\ ~ empty_item (rlp v) ->
  reader s = rlp v ++ rest -> zlen (rlp v) <= room s ->
  done_with (makeNilPtrDecoder nilKind elemdec) (inl v) (rlp v) s.
Proof.
  intros Hr Hv Er Hroom. pose proof Hr as [Hs Hk Hf].
  assert (is_item (rlp v)) as (k & n & hd & c & Hhd & Hz & Ev).
  { destruct Hv as [->|[Rv _]]; [by apply nil_item|].
    apply (dec_item _ _ _ _ Hd v Rv). pose proof (room_reader _ Hs). destruct (so_data _ Hs). lia. }
  pose proof Er as Er'. pose proof Hroom as Hroom'. rewrite Ev, zlen_app in Hroom'. rewrite Ev, <- app_assoc in Er'.
  destruct (Kind_read k n hd _ s Hhd Hs Hk Er' ltac:(lia)) as [_ (s1 & E & Hp)].
  unfold done_with, makeNilPtrDecoder. rewrite (ebind_ok _ _ _ _ _ (wrap_ok _ _ _ _ E)).
  pose proof (pk_head _ _ _ _ _ Hp) as (_ & Hc & _).
  destruct (negb (Kind_eqb k KByte) && (n =? 0)) eqn:Ez.
  - apply nonempty_kind in Ez as [Hkb ->]. apply zlen_zero in Hz as ->. rewrite app_nil_r in Ev.
    rewrite <- (zero_head _ _ Hhd Hkb) in Ev.
    assert (v = VNilPtr nilKind) as ->.
    { destruct Hv as [?|[_ Hne]]; [done|]. destruct Hne. rewrite Ev. by apply nil_item. }
    assert (k = nilKind) as -> by (by destruct k, nilKind).
    destruct (Kind_eqb nilKind nilKind) eqn:Ek; [|by destruct nilKind]. cbn [negb].
    eexists. split; [done|]. split; [|done]. rewrite (zero_head _ _ Hhd Hkb). by apply consumed_same with s1.
  - rewrite (dec_peek _ _ _ _ Hd _ _ _ E). destruct Hv as [->|[Rv _]].
    + apply not_true_iff_false in Ez. destruct Ez. apply nonempty_kind.
      destruct (nil_item _ Hnk) as [_ Hem]. rewrite Er in Er'. exact (item_empty _ _ _ _ _ _ Hhd Hem Er').
    + by eapply (dec_complete _ _ _ _ Hd).
Qed.

Lemma decodes_NilPtr :
  decodes N (makeNilPtrDecoder nilKind elemdec) rlp
    (fun v => v = VNilPtr nilKind \/ R v /\ ~ empty_item (rlp v)).
Proof.
  split.
  - intros s [Hs Hk Hf] He. apply done_with_err. eexists. rewrite (wrap_err _ _ _ _ (Kind_EOL s Hk He)).
    split_and!; [done| |done]. by apply consumed_nil.
  - apply NilPtr_sound.
  - apply NilPtr_complete.
  - intros v [->|[Rv _]] Hl; [by apply nil_item|]. by apply (dec_item _ _ _ _ Hd).
  - apply absorbs_ebind, absorbs_wrap, absorbs_Kind.
Qed.
End nil_pointer.

(** ** Interfaces *)

(** What is decoded into an [interface{}]. *)
Inductive iface_value : rval -> Prop :=
| iface_bytes b : Forall is_byte b -> iface_value (VBytes b)
| iface_list l : Forall iface_value l -> iface_value (VList l).

Lemma iface_item v : iface_value v -> zlen (rlp v) <= data_max -> is_item (rlp v).
Proof.
  destruct 1 as [b Hb|l Hl]; cbn [rlp]; [by apply (dec_item _ _ _ _ (decodes_Bytes 0))|apply rlp_list_item].
Qed.

Lemma iface_cases v :
  iface_value v <-> (exists l, v = VList l /\ Forall iface_value l) \/ (exists b, v = VBytes b /\ Forall is_byte b).
Proof.
  split; [destruct 1; eauto|]. intros [(l & -> & H)|(b & -> & H)]; by constructor.
Qed.

Lemma decodes_Interface N : decodes N (decodeInterface N) rlp iface_value.
Proof.
  induction N as [|N IH].
  { split; [intros s [_ _ H]; lia|intros s [_ _ H]; lia|intros s a rest [_ _ H]; lia|apply iface_item|done]. }
  pose proof (decodes_ListSlice N _ _ IH) as HL. pose proof (decodes_Bytes (S N)) as HB.
  assert (forall s1 b c, done_with Stream_Bytes (inl b) c s1 ->
            done_with (b <-! Stream_Bytes ;; eret (VBytes b)) (inl (VBytes b)) c s1) as Hmap.
  { intros s1 b c H. by eapply done_with_map. }
  split; [..|apply iface_item|apply absorbs_ebind, absorbs_Kind].
  - intros s [Hs Hk _] He. apply done_with_err. eexists. rewrite (Kind_EOL s Hk He).
    split_and!; [done| |done]. by apply consumed_nil.
  - intros s Hr He. pose proof Hr as [Hs Hk _]. unfold done_with, fails. cbn [decodeInterface].
    destruct (Kind_ok s Hs Hk He) as [(k & n & hd & s1 & E & Hp)|Hf]; [|right; by apply fails_ebind].
    setoid_rewrite (ebind_ok _ _ _ _ _ E). destruct k.
    3: { rewrite (dec_peek _ _ _ _ HL _ _ _ E). destruct (dec_sound _ _ _ _ HL s Hr He) as [(v & (l & -> & Hl) & H)|H];
         [left|by right]. exists (VList l). split; [by constructor|done]. }
    all: rewrite (absorbs_ebind _ _ (dec_peek _ _ _ _ HB) _ _ _ E);
      destruct (dec_sound _ _ _ _ HB s Hr He) as [(b & Hb & H)|H]; [left|right; by apply fails_ebind];
      exists (VBytes b); split; [by constructor|by apply Hmap].
  - intros s v rest Hr Hv Er Hroom. pose proof Hr as [Hs Hk _].
    assert (zlen (rlp v) <= data_max) as Hmax by (pose proof (room_reader _ Hs); destruct (so_data _ Hs); lia).
    destruct (iface_item v Hv Hmax) as (k & n & hd & c & Hhd & Hz & Ev).
    pose proof Er as Er'. pose proof Hroom as Hroom'. rewrite Ev, zlen_app in Hroom'. rewrite Ev, <- app_assoc in Er'.
    destruct (Kind_read k n hd _ s Hhd Hs Hk Er' ltac:(lia)) as [He (s1 & E & Hp)].
    unfold done_with. cbn [decodeInterface]. rewrite (ebind_ok _ _ _ _ _ E).
    apply iface_cases in Hv as [(l & -> & Hl)|(b & -> & Hb)].
    + destruct (dec_complete _ _ _ _ HL s (VList l) rest Hr (ex_intro _ l (conj eq_refl Hl)) Er Hroom) as (s2 & E2 & H2).
      destruct k; [exfalso..|].
      1,2: revert E2; unfold decodeListSlice, Stream_List, wrap, ebind, bind; by rewrite E.
      exists s2. by rewrite (dec_peek _ _ _ _ HL _ _ _ E).
    + pose proof (dec_complete _ _ _ _ HB s b rest Hr Hb Er Hroom) as H2. destruct k.
      3: { exfalso. destruct H2 as (s2 & E2 & _). revert E2. unfold Stream_Bytes, ebind, bind. by rewrite E. }
      all: rewrite (absorbs_ebind _ _ (dec_peek _ _ _ _ HB) _ _ _ E); by apply Hmap.
Qed.

(** ** Types *)

(** The values of a type, as decoding returns them. *)
Fixpoint has_type (t : rtype) : rval -> Prop :=
  match t with
  | TRaw => fun v => exists b, v = VRaw b /\ is_item b /\ Forall is_byte b
  | TBigInt => fun v => exists i, v = VBigInt i /\ 0 <= i
  | TUint bits => fun v => exists i, v = VUint i /\ 0 <= i < 2 ^ bits
  | TBool => fun v => exists b, v = VBool b
  | TString | TBytes => fun v => exists b, v = VBytes b /\ Forall is_byte b
  | TByteArray vlen => fun v => exists b, v = VByteArray b /\ Forall is_byte b /\ zlen b = Z.of_nat vlen
  | TPtr None t => has_type t
  | TPtr (Some nilKind) t => fun v => v = VNilPtr nilKind \/ has_type t v /\ ~ empty_item (rlp v)
  | TSlice t => fun v => exists l, v = VList l /\ Forall (has_type t) l
  | TArray vlen t => fun v => exists l, v = VList l /\ (Forall (has_type t) l /\ length l = vlen)
  | TStruct ts tail => fun v => exists l, v = VList l /\
      exists l1 l2, l = l1 ++ l2 /\ Forall2 (fun R v => R v) (map has_type ts) l1 /\
        tail_type (match tail with None => None | Some t => Some (has_type t) end) l2
  | TInterface => iface_value
  end.

(** The types covered: the integer types of Go, pointer tags that ask for a
    string or a list, and no array of a single byte (see
    [byte_array_roundtrip]). *)
Fixpoint supported (t : rtype) : Prop :=
  match t with
  | TUint bits => uint_bits bits
  | TByteArray vlen => vlen <> 1%nat
  | TPtr nilOK t => nilOK <> Some KByte /\ supported t
  | TSlice t | TArray _ t => supported t
  | TStruct ts tail => foldr and True (map supported ts) /\ match tail with None => True | Some t => supported t end
  | _ => True
  end.

Section rtype_ind.
Variable P : rtype -> Prop.
Hypothesis HRaw : P TRaw.
Hypothesis HBigInt : P TBigInt.
Hypothesis HUint : forall bits, P (TUint bits).
Hypothesis HBool : P TBool.
Hypothesis HString : P TString.
Hypothesis HBytes : P TBytes.
Hypothesis HByteArray : forall vlen, P (TByteArray vlen).
Hypothesis HPtr : forall nilOK t, P t -> P (TPtr nilOK t).
Hypothesis HSlice : forall t, P t -> P (TSlice t).
Hypothesis HArray : forall vlen t, P t -> P (TArray vlen t).
Hypothesis HStruct : forall ts tail, Forall P ts -> (forall t, tail = Some t -> P t) -> P (TStruct ts tail).
Hypothesis HInterface : P TInterface.

Fixpoint rtype_nested_ind (t : rtype) : P t :=
  match t with
  | TRaw => HRaw
  | TBigInt => HBigInt
  | TUint bits => HUint bits
  | TBool => HBool
  | TString => HString
  | TBytes => HBytes
  | TByteArray vlen => HByteArray vlen
  | TPtr nilOK t => HPtr nilOK t (rtype_nested_ind t)
  | TSlice t => HSlice t (rtype_nested_ind t)
  | TArray vlen t => HArray vlen t (rtype_nested_ind t)
  | TStruct ts tail =>
      HStruct ts tail
        ((fix all (l : list rtype) : Forall P l :=
            match l with
            | [] => Forall_nil_2 _
            | t :: l => Forall_cons_2 _ _ _ (rtype_nested_ind t) (all l)
            end) ts)
        (match tail as o return (forall t, o = Some t -> P t) with
         | None => fun t H => match H with end
         | Some t0 => fun t H => match H in _ = o return (match o with Some t => P t | None => True end) with
                                 | eq_refl => rtype_nested_ind t0 end
         end)
  | TInterface => HInterface
  end.
End rtype_ind.

Lemma decodes_value {A} N (m : M Stream (rres A)) (f : A -> rval) enc R R' :
  decodes N m enc R -> (forall a, rlp (f a) = enc a) -> (forall v, R' v <-> exists a, v = f a /\ R a) ->
  decodes N (a <-! m ;; eret (f a)) rlp R'.
Proof.
  intros Hd He HR. eapply decodes_map; [exact Hd|..].
  - intros a Ra. left. exists (f a). split_and!; [apply HR; by eauto|done|done].
  - intros v (a & -> & Ra)%HR. exists a. by split_and!.
Qed.

Lemma decodes_BigInt N : decodes N decodeBigInt rlp (has_type TBigInt).
Proof.
  eapply decodes_map; [apply decodes_wrap, decodes_Bytes|..].
  - intros b Hb. destruct b as [|x b].
    + left. exists (VBigInt 0). split_and!; [by exists 0|done|done].
    + destruct (Z.eqb_spec x 0) as [->|Hx]; [right; by exists (wrapStreamError ErrCanonInt)|left].
      exists (VBigInt (be_val (x :: b))). split_and!; [| |done].
      * eexists. split; [done|]. by apply be_val_bound.
      * cbn [rlp]. by rewrite be_min_be_val.
  - intros v (i & -> & Hi). exists (be_min i). split_and!; [apply be_min_bytes|done|].
    intros s. pose proof (be_min_leading i) as Hl. rewrite <- (be_val_be_min i) at 3 by done.
    destruct (be_min i) as [|x b]; [done|]. cbn [leading_ok] in Hl.
    by destruct (Z.eqb_spec x 0).
Qed.

Lemma decodes_Bool N : decodes N decodeBool rlp (has_type TBool).
Proof.
  apply decodes_value with (enc := fun b : bool => rlp_string (be_min (if b then 1 else 0))) (R := fun _ => True);
    [|done|by split; [intros [b ->]; eauto|intros (b & -> & _); exists b]].
  apply decodes_wrap. eapply decodes_map; [apply (decodes_uint N 8); by left|..].
  - intros i Hi. destruct (Z.eqb_spec i 0) as [->|]; [left; by exists false|].
    destruct (Z.eqb_spec i 1) as [->|]; [left; by exists true|right; by exists (ErrInvalidBool i)].
  - intros b _. exists (if b then 1 else 0). destruct b; split_and!; done.
Qed.

(** ** Correctness of the decoders *)

Lemma makeDecoder_struct N ts tail :
  makeDecoder N (TStruct ts tail) =
  makeStructDecoder (map (makeDecoder N) ts)
    (tail_decoder N (match tail with None => None | Some t => Some (makeDecoder N t) end)).
Proof. by destruct tail. Qed.

Lemma fields_decode N ts :
  Forall (fun t => supported t -> decodes N (makeDecoder N t) rlp (has_type t)) ts ->
  foldr and True (map supported ts) ->
  Forall2 (fun d R => decodes N d rlp R) (map (makeDecoder N) ts) (map has_type ts).
Proof.
  induction 1 as [|t ts Ht _ IH]; cbn [map foldr]; [constructor|].
  intros [Hs Hss]. constructor; auto.
Qed.

Lemma makeDecoder_correct N t : supported t -> decodes N (makeDecoder N t) rlp (has_type t).
Proof.
  induction t as [| |bits| | | |vlen|nilOK t IH|t IH|vlen t IH|ts tail IHs IHt|] using rtype_nested_ind;
    intros Hsup.
  - by apply (decodes_value _ _ VRaw _ _ _ (decodes_Raw N)).
  - apply decodes_BigInt.
  - by apply (decodes_value _ _ VUint _ _ _ (decodes_wrap _ _ _ _ (decodes_uint N bits Hsup))).
  - apply decodes_Bool.
  - by apply (decodes_value _ _ VBytes _ _ _ (decodes_wrap _ _ _ _ (decodes_Bytes N))).
  - by apply (decodes_value _ _ VBytes _ _ _ (decodes_wrap _ _ _ _ (decodes_Bytes N))).
  - apply decodes_ByteArray; [lia|]. cbn in Hsup. lia.
  - destruct Hsup as [Hk Hsup]. destruct nilOK as [k|]; [|by apply IH].
    apply decodes_NilPtr; [congruence|by apply IH].
  - eapply decodes_le; [|apply decodes_ListSlice, IH, Hsup]. lia.
  - eapply decodes_le; [|apply decodes_ListArray, IH, Hsup]. lia.
  - destruct Hsup as [Hs Ht]. rewrite makeDecoder_struct. eapply decodes_le; [|apply decodes_Struct].
    + lia.
    + by apply fields_decode.
    + destruct tail as [t|]; constructor. by apply IHt.
  - apply decodes_Interface.
Qed.

Lemma Reset_ready b N : data_ok b -> (length b < N)%nat -> ready N (Reset b (zlen b)).
Proof.
  intros Hb HN. split; [|done|done]. split; [done| |done|done]. cbn.
  pose proof (zlen_nonneg b). destruct (Z.ltb_spec 0 (zlen b)); done.
Qed.

(** ** Encodable values *)

Lemma iface_encodable v : iface_value v -> encodable v.
Proof.
  induction v as [b|b|i|b|i|b| |k|l IH] using rval_nested_ind; intros Hv; inversion Hv as [? Hb|? Hl]; subst; [done|].
  clear Hv. cbn [encodable]. induction Hl as [|v l Hv Hl IHl]; [done|].
  apply Forall_cons in IH as [IHv IH]. cbn. auto.
Qed.

Lemma list_encodable (R : rval -> Prop) l :
  (forall v, R v -> encodable v) -> Forall R l -> encodable (VList l).
Proof. intros H Hl. cbn [encodable]. induction Hl as [|v l Hv Hl IH]; [done|]. cbn. auto. Qed.

Lemma encodable_app l1 l2 : encodable (VList l1) -> encodable (VList l2) -> encodable (VList (l1 ++ l2)).
Proof. cbn [encodable]. induction l1 as [|v l1 IH]; cbn; [done|]. intros [H1 H2] H3. auto. Qed.

Lemma has_type_encodable t v : supported t -> has_type t v -> encodable v.
Proof.
  revert v. induction t as [| |bits| | | |vlen|nilOK t IH|t IH|vlen t IH|ts tail IHs IHt|] using rtype_nested_ind;
    intros v Hsup; cbn [has_type].
  - by intros (b & -> & _ & ?).
  - by intros (i & -> & ?).
  - intros (i & -> & Hi). cbn. pose proof (uint_bits_pow bits Hsup) as [Hp H8].
    pose proof (Z.pow_le_mono_r 256 (bits / 8) 8 ltac:(lia) ltac:(lia)) as Hle.
    change (256 ^ 8) with two64 in Hle. unfold is_u64. lia.
  - by intros (b & ->).
  - by intros (b & -> & ?).
  - by intros (b & -> & ?).
  - by intros (b & -> & ? & _).
  - destruct Hsup as [_ Hsup]. destruct nilOK as [k|]; [|by apply IH].
    intros [->|[H _]]; [done|by apply IH].
  - intros (l & -> & H). eapply list_encodable; [|done]. intros v. by apply IH.
  - intros (l & -> & H & _). eapply list_encodable; [|done]. intros v. by apply IH.
  - destruct Hsup as [Hs Ht]. intros (l & -> & l1 & l2 & -> & H1 & H2). apply encodable_app.
    + clear H2 IHt. revert l1 Hs H1. induction IHs as [|t ts Hd _ IH]; intros l1 Hs H1;
        inversion H1 as [|? v ? l Hv Hl]; subst; [done|].
      cbn in Hs. destruct Hs as [Hs1 Hs2]. split; [by apply Hd|by apply IH].
    + destruct tail as [t|]; cbn in H2; [|by subst]. eapply list_encodable; [|done]. intros v. by apply IHt.
  - apply iface_encodable.
Qed.

(** ** DecodeBytes *)

Section DecodeBytes.
Context (fuel : nat) (t : rtype) (b : bytes).
Hypothesis Ht : supported t.
Hypothesis Hb : data_ok b.
Hypothesis Hfuel : (length b < fuel)%nat.

Lemma DecodeBytes_sound :
  (exists v, has_type t v /\ rlp v = b /\ DecodeBytes fuel t b = Ok (inl v)) \/
  (exists e, DecodeBytes fuel t b = Ok (inr e)).
Proof.
  pose proof (Reset_ready b fuel Hb Hfuel) as Hr. unfold DecodeBytes.
  destruct (dec_sound _ _ _ _ (makeDecoder_correct fuel t Ht) _ Hr eq_refl)
    as [(v & Hv & s' & -> & Hc & _)|(e & s' & -> & _)]; [|right; by eauto].
  pose proof (co_reader _ _ _ Hc) as Er. cbn [Reset reader] in Er.
  destruct (Z.ltb_spec 0 (zlen (reader s'))) as [Hl|Hl]; [right; by eauto|left].
  assert (reader s' = []) as E by (apply zlen_zero; pose proof (zlen_nonneg (reader s')); lia).
  rewrite E, app_nil_r in Er. by exists v.
Qed.

Lemma DecodeBytes_complete v : has_type t v -> rlp v = b -> DecodeBytes fuel t b = Ok (inl v).
Proof.
  intros Hv E. pose proof (Reset_ready b fuel Hb Hfuel) as Hr. unfold DecodeBytes.
  destruct (dec_complete _ _ _ _ (makeDecoder_correct fuel t Ht) _ v [] Hr Hv) as (s' & -> & Hc & _).
  - by rewrite app_nil_r.
  - pose proof (so_remaining _ (rd_ok _ _ Hr)) as Hm. unfold room. change (stack _) with (@nil listpos). cbn iota.
    rewrite Hm. change (reader _) with b. rewrite E. done.
  - pose proof (co_reader _ _ _ Hc) as Er. cbn [Reset reader] in Er. rewrite E in Er.
    rewrite <- (app_nil_r b) in Er at 1. apply app_inv_head in Er. by rewrite <- Er.
Qed.
End DecodeBytes.

(** Encodings consist of octets. *)
Lemma rlp_head_bytes base n : base = 128 \/ base = 192 -> is_u64 n -> Forall is_byte (rlp_head base n).
Proof.
  intros Hb Hn. unfold rlp_head. destruct (Z.ltb_spec n 56).
  - apply Forall_cons_2; [unfold is_byte; u64_lia|apply Forall_nil_2].
  - rewrite zlen_be_min. pose proof (byte_len_u64 n ltac:(u64_lia)). pose proof (byte_len_nonneg n).
    apply Forall_cons_2; [unfold is_byte; lia|apply be_min_bytes].
Qed.

Lemma rlp_string_bytes b : Forall is_byte b -> zlen (rlp_string b) <= data_max -> Forall is_byte (rlp_string b).
Proof.
  intros Hb Hl. pose proof (string_size b Hl) as Hu. destruct (short_byte b) eqn:E.
  - apply short_byte_true in E as (x & -> & Hx); [|done]. by rewrite rlp_string_byte by lia.
  - rewrite rlp_string_head by done. apply Forall_app. split; [apply rlp_head_bytes; auto|done].
Qed.

Lemma rlp_bytes v : encodable v -> zlen (rlp v) <= data_max -> Forall is_byte (rlp v).
Proof.
  induction v as [b|b|i|b|i|b| |k|l IH] using rval_nested_ind; intros Hv Hl; cbn [rlp] in *.
  1,2: by apply rlp_string_bytes.
  1-3: apply rlp_string_bytes; [apply be_min_bytes|done].
  - done.
  - apply (rlp_head_bytes 192 0); [auto|u64_lia].
  - destruct k; [apply (rlp_head_bytes 192 0)|apply (rlp_head_bytes 128 0)|apply (rlp_head_bytes 192 0)]; auto; u64_lia.
  - unfold rlp_list in *. fold (rlp_elems l) in *. rewrite zlen_app in Hl. pose proof (zlen_nonneg (rlp_elems l)).
    pose proof (zlen_nonneg (rlp_head 192 (zlen (rlp_elems l)))).
    apply Forall_app. split; [apply rlp_head_bytes; [auto|unfold data_max in *; u64_lia]|].
    assert (zlen (rlp_elems l) <= data_max) as Hel by lia. clear - IH Hv Hel. cbn [encodable] in Hv.
    induction IH as [|v l Hd _ IH]; [apply Forall_nil_2|]. cbn in Hv. destruct Hv as [Hv Hvs].
    rewrite rlp_elems_cons, zlen_app in *. pose proof (zlen_nonneg (rlp v)). pose proof (zlen_nonneg (rlp_elems l)).
    apply Forall_app. split; [apply Hd; [done|lia]|apply IH; [done|lia]].
Qed.


(** A type with every kind of field, and a value of it. *)
Definition demo_type : rtype :=
  TStruct [TUint 64; TPtr (Some KString) TString; TArray 2 TBool; TByteArray 20; TInterface; TRaw] (Some TBigInt).
Definition demo_value : rval :=
  VList [VUint 1024; VNilPtr KString; VList [VBool true; VBool false]; VByteArray (replicate 20 7);
         VList [VBytes [1; 2]; VList []; VBytes (replicate 60 9)]; VRaw [193; 5]; VBigInt 5; VBigInt (2 ^ 80)].

Lemma demo_supported : supported demo_type.
Proof. cbn. unfold uint_bits. split_and!; try done; auto 10. Qed.

Lemma demo_has_type : has_type demo_type demo_value.
Proof.
  assert (forall x n, is_byte x -> Forall is_byte (replicate n x)) as Hrep.
  { intros x n Hx. by apply Forall_replicate. }
  eexists. split; [done|].
  exists [VUint 1024; VNilPtr KString; VList [VBool true; VBool false]; VByteArray (replicate 20 7);
          VList [VBytes [1; 2]; VList []; VBytes (replicate 60 9)]; VRaw [193; 5]], [VBigInt 5; VBigInt (2 ^ 80)].
  split; [done|]. split.
  - cbn [map]. repeat match goal with |- Forall2 _ _ _ => constructor end; cbn [has_type].
    + eexists. split; [done|lia].
    + by left.
    + eexists. split; [done|]. split; [|done]. repeat apply Forall_cons_2; [by eexists..|apply Forall_nil_2].
    + eexists. split; [done|]. split; [apply Hrep; unfold is_byte; lia|done].
    + apply iface_list. repeat apply Forall_cons_2; [..|apply Forall_nil_2].
      * apply iface_bytes. repeat apply Forall_cons_2; [unfold is_byte; lia..|apply Forall_nil_2].
      * apply iface_list, Forall_nil_2.
      * apply iface_bytes, Hrep. unfold is_byte. lia.
    + eexists. split; [done|]. split.
      * exists KList, 1, [193], [5]. split; [apply (head_list 1); u64_lia|done].
      * repeat apply Forall_cons_2; [unfold is_byte; lia..|apply Forall_nil_2].
  - cbn. repeat apply Forall_cons_2; [by eexists..|apply Forall_nil_2].
Qed.




(** C37: totality.  On any input, decoding ends after at most as many rounds of
    its loops as the input has bytes, without a panic, with a value of the type
    or an error. *)
Theorem decode_total fuel t b :
  supported t -> data_ok b -> (length b < fuel)%nat ->
  exists r, DecodeBytes fuel t b = Ok r /\ (forall v, r = inl v -> has_type t v).
Proof.
  intros Ht Hb Hf. destruct (DecodeBytes_sound fuel t b Ht Hb Hf) as [(v & Hv & _ & E)|(e & E)].
  - exists (inl v). split; [done|]. by intros v' [= <-].
  - by exists (inr e).
Qed.

Lemma decode_total_witness :
  exists r, DecodeBytes 4 (TSlice TInterface) [194; 248; 1] = Ok r /\ (forall v, r = inl v -> has_type (TSlice TInterface) v).
Proof.
  apply decode_total; [done| |cbn; lia]. split; [|vm_compute; discriminate].
  repeat apply Forall_cons_2; [unfold is_byte; lia..|apply Forall_nil_2].
Defined.

(** ** Arrays of one byte

    [decodeByteArray] reads a single byte with [s.Uint] and drops its error.
    For the byte zero [Uint] reports a non-canonical integer before it resets
    [s.kind], so that the stream still has the byte cached: the next value of
    the stream is the same byte again. *)

(** The value [ [2][1]byte{{0},{0}} ] cannot be decoded from its encoding, but
    is decoded from one with a single element. *)
Lemma byte_array_roundtrip fuel :
  let t := TArray 2 (TByteArray 1) in
  let v := VList [VByteArray [0]; VByteArray [0]] in
  EncodeToBytes v = Some [194; 0; 0] /\
  DecodeBytes fuel t [194; 0; 0] = Ok (inr (DecodeError MsgTooManyElements)) /\
  DecodeBytes fuel t [193; 0] = Ok (inl v).
Proof. done. Qed.

Lemma byte_array_stuck fuel acc s :
  kind s = Some KByte -> kinderr s = None -> byteval s = 0 ->
  decodeSliceElems fuel (decodeByteArray 1) acc s = NoFuel.
Proof.
  intros Hk He Hb. revert acc. induction fuel as [|fuel IH]; intros acc; [done|].
  cbn [decodeSliceElems]. pose proof (Kind_cached_ok s KByte Hk He) as Ec.
  rewrite <- (Kind_cached_peek s KByte Hk) in Ec.
  assert (decodeByteArray 1 s = Ok (inl (VByteArray [0]), s)) as E; [|rewrite (bind_ok _ _ _ _ _ E); apply IH].
  assert (Stream_Uint s = Ok (inr ErrCanonInt, s)) as Eu.
  { unfold Stream_Uint, Stream_uint. rewrite (ebind_ok _ _ _ _ _ Ec). unfold bind, gets. by rewrite Hb. }
  unfold decodeByteArray. rewrite (ebind_ok _ _ _ _ _ Ec). change (1 =? 0) with false. change (1 <? 1) with false.
  cbn iota. by rewrite (bind_ok _ _ _ _ _ Eu).
Qed.

(** Decoding the two bytes [c1 00] into a slice of one-byte arrays never ends:
    every round appends another element. *)
Lemma byte_array_slice_diverges fuel : DecodeBytes fuel (TSlice (TByteArray 1)) [193; 0] = NoFuel.
Proof.
  destruct fuel as [|fuel]; [done|]. unfold DecodeBytes.
  change (makeDecoder (S fuel) (TSlice (TByteArray 1)) (Reset [193; 0] (zlen [193; 0])))
    with ((l <-! decodeSliceElems fuel (decodeByteArray 1) [VByteArray [0]] ;; Stream_ListEnd ;;! eret (VList l))
            (MkStream [] 0 true (Some KByte) 0 0 None [Listpos 1 1])).
  unfold ebind, bind. by rewrite byte_array_stuck.
Qed.
