(* ===== verification/RlpRaw.v ===== *)
(** * Splitting encoded values

    The functions of [rlp/raw.go] accept exactly the strings and lists of the
    reference encoding in front of an input. *)

From Stdlib Require Import ZArith Lia.
From S2P Require Import Prelude Common Rlp RlpStream RlpSpec RlpDecode.

(** ** Headers *)

Lemma shift_or_val l acc :
  0 <= acc -> Forall is_byte l -> fold_left (fun acc x => Z.lor (Z.shiftl acc 8) x) l acc = be_val_acc acc l.
Proof.
  intros Ha Hl. revert acc Ha. induction Hl as [|x l Hx Hl IH]; intros acc Ha; [done|]. cbn [fold_left be_val_acc].
  assert (Z.lor (Z.shiftl acc 8) x = acc * 256 + x) as ->.
  { rewrite Z.shiftl_mul_pow2 by lia. change (2 ^ 8) with 256. unfold is_byte in Hx.
    rewrite <- Z.lxor_lor, <- Z.add_nocarry_lxor; [done|..];
    apply Z.bits_inj'; intros n Hn; rewrite Z.land_spec, Z.bits_0;
    (destruct (Z.lt_ge_cases n 8) as [H|H];
     [change 256 with (2 ^ 8); by rewrite Z.mul_pow2_bits_low|
      rewrite (Z.bits_above_log2 x); [apply andb_false_r|lia|]]);
    (destruct (Z.eq_dec x 0) as [->|]; [cbn; lia|]);
    (assert (Z.log2 x < 8) by (apply Z.log2_lt_pow2; [lia|change (2 ^ 8) with 256; lia])); lia. }
  unfold is_byte in Hx. apply IH. lia.
Qed.

Lemma readSize_ok c tl :
  Forall is_byte c -> 1 <= zlen c ->
  readSize (c ++ tl) (zlen c) =
  if (be_val c <? 56) || (match c with x :: _ => x =? 0 | [] => true end) then inr ErrCanonSize else inl (be_val c).
Proof.
  intros Hc H1. unfold readSize. rewrite zlen_app. pose proof (zlen_nonneg tl).
  destruct (Z.ltb_spec (zlen c + zlen tl) (zlen c)); [lia|].
  assert (take (Z.to_nat (zlen c)) (c ++ tl) = c) as ->.
  { unfold zlen. rewrite Nat2Z.id. apply take_app_length. }
  rewrite shift_or_val by (done || lia). fold (be_val c).
  by destruct c as [|x c].
Qed.

Lemma readSize_short b n : zlen b < n -> readSize b n = inr ErrUnexpectedEOF.
Proof. intros H. unfold readSize. by destruct (Z.ltb_spec (zlen b) n); [|lia]. Qed.

(** What [readKind] accepts: [ts] bytes of header, [cs] bytes of content. *)
Definition raw_head (k : Kind) (ts cs : Z) (b : bytes) : Prop :=
  match k with
  | KByte => ts = 0 /\ cs = 1 /\ exists x r, b = x :: r /\ 0 <= x < 128
  | KString => is_u64 cs /\ exists r, b = rlp_head 128 cs ++ r /\ ts = zlen (rlp_head 128 cs) /\ cs <= zlen r /\
                 (cs = 1 -> forall x r', r = x :: r' -> 128 <= x)
  | KList => is_u64 cs /\ exists r, b = rlp_head 192 cs ++ r /\ ts = zlen (rlp_head 192 cs) /\ cs <= zlen r
  end.

Lemma split_length {A} (l : list A) n : 0 <= n <= zlen l -> exists a c, l = a ++ c /\ zlen a = n.
Proof.
  intros H. exists (take (Z.to_nat n) l), (drop (Z.to_nat n) l). rewrite take_drop. split; [done|].
  unfold zlen in *. rewrite length_take. lia.
Qed.

(** A header of size bytes [c] after the tag [base + 55 + len c]. *)
Lemma readSize_sound base slen tl cs :
  Forall is_byte tl -> 1 <= slen <= 8 -> readSize tl slen = inl cs ->
  is_u64 cs /\ exists r, base + 55 + slen :: tl = rlp_head base cs ++ r /\ slen + 1 = zlen (rlp_head base cs).
Proof.
  intros Hb Hs E. destruct (Z.lt_ge_cases (zlen tl) slen); [by rewrite readSize_short in E|].
  destruct (split_length tl slen ltac:(lia)) as (c & r & -> & <-).
  apply Forall_app in Hb as [Hc _]. rewrite readSize_ok in E by (done || lia).
  destruct ((be_val c <? 56) || _) eqn:Eb; [done|]. apply orb_false_iff in Eb as [E1 E2].
  apply Z.ltb_ge in E1. injection E as <-. split; [apply be_val_u64; [done|lia]|].
  exists r. rewrite rlp_head_long; [rewrite zlen_cons; split; [done|lia]|done| |done].
  right. destruct c as [|x c]; [done|]. cbn. by apply Z.eqb_neq.
Qed.

Lemma readSize_complete base n r :
  is_u64 n -> 56 <= n ->
  rlp_head base n ++ r = base + 55 + byte_len n :: be_min n ++ r /\
  readSize (be_min n ++ r) (byte_len n) = inl n /\ 1 <= byte_len n <= 8 /\ zlen (rlp_head base n) = byte_len n + 1.
Proof.
  intros Hn H. pose proof (byte_len_u64 n ltac:(u64_lia)). pose proof (byte_len_bounds n ltac:(lia)) as [Hp _].
  pose proof (be_min_leading n) as Hl. unfold rlp_head. destruct (Z.ltb_spec n 56); [lia|].
  rewrite zlen_be_min, zlen_cons, zlen_be_min. split_and!; [done| |lia|lia|lia].
  rewrite <- zlen_be_min, readSize_ok by (apply be_min_bytes || (rewrite zlen_be_min; lia)).
  rewrite be_val_be_min by lia. destruct (Z.ltb_spec n 56); [lia|]. cbn [orb].
  destruct (be_min n) as [|x c] eqn:E.
  - apply (f_equal zlen) in E. rewrite zlen_be_min, zlen_nil in E. lia.
  - cbn in Hl. by destruct (Z.eqb_spec x 0).
Qed.

Lemma rlp_head_short base n : n < 56 -> rlp_head base n = [base + n].
Proof. intros H. unfold rlp_head. by destruct (Z.ltb_spec n 56); [|lia]. Qed.

(** The check of the content size at the end of [readKind]. *)
Lemma size_check (b : bytes) ts cs :
  zlen b <= data_max -> 0 <= ts <= zlen b -> (u64 (zlen b - ts) <? cs) = false <-> cs <= zlen b - ts.
Proof.
  intros Hb Ht. rewrite u64_small by (unfold data_max in *; u64_lia). apply Z.ltb_ge.
Qed.

Lemma readKind_sound b k ts cs : data_ok b -> readKind b = inl (k, ts, cs) -> raw_head k ts cs b.
Proof.
  intros [Hb Hlen] E. unfold readKind in E. destruct b as [|x tl]; [done|].
  apply Forall_cons in Hb as [Hx Hb]. unfold is_byte in Hx. pose proof (zlen_nonneg tl).
  assert (forall k0 ts0 cs0, 0 <= ts0 <= 1 + zlen tl ->
    (if u64 (zlen (x :: tl) - ts0) <? cs0 then inr ErrValueTooLarge else inl (k0, ts0, cs0)) = inl (k, ts, cs) ->
    k0 = k /\ ts0 = ts /\ cs0 = cs /\ cs0 <= zlen (x :: tl) - ts0) as Hchk.
  { intros k0 ts0 cs0 Ht. destruct (u64 _ <? cs0) eqn:Es; [done|]. intros [= -> -> ->].
    apply size_check in Es; [done..|rewrite zlen_cons; lia]. }
  destruct (Z.ltb_spec x 128); [|destruct (Z.ltb_spec x 184); [|destruct (Z.ltb_spec x 192); [|destruct (Z.ltb_spec x 248)]]].
  - apply Hchk in E as (<- & <- & <- & Hs); [|lia]. cbn. split_and!; try done. exists x, tl. split; [done|lia].
  - destruct ((x - 128 =? 1) && _) eqn:Ec; [done|].
    apply Hchk in E as (<- & <- & <- & Hs); [|lia]. rewrite zlen_cons in Hs. split; [u64_lia|].
    exists tl. rewrite rlp_head_short by lia. replace (128 + (x - 128)) with x by lia.
    split_and!; [done|done|lia|]. intros E1 y r' ->. rewrite E1 in Ec. cbn in Ec. by apply Z.ltb_ge.
  - destruct (readSize tl (x - 183)) as [cs0|] eqn:Es; [|done].
    destruct (readSize_sound 128 (x - 183) tl cs0 Hb ltac:(lia) Es) as (Hu & r & Er & Hz).
    replace (128 + 55 + (x - 183)) with x in Er by lia.
    assert (zlen (x :: tl) = zlen (rlp_head 128 cs0) + zlen r) as Hl by (by rewrite Er, zlen_app).
    pose proof (zlen_nonneg r). rewrite zlen_cons in Hl.
    apply Hchk in E as (<- & <- & <- & Hs); [|lia]. rewrite zlen_cons in Hs. split; [done|].
    exists r. split_and!; [done|done|lia|]. intros ->. exfalso.
    change (zlen (rlp_head 128 1)) with 1 in Hz. lia.
  - apply Hchk in E as (<- & <- & <- & Hs); [|lia]. rewrite zlen_cons in Hs. split; [u64_lia|].
    exists tl. rewrite rlp_head_short by lia. replace (192 + (x - 192)) with x by lia. split_and!; [done|done|lia].
  - destruct (readSize tl (x - 247)) as [cs0|] eqn:Es; [|done].
    destruct (readSize_sound 192 (x - 247) tl cs0 Hb ltac:(lia) Es) as (Hu & r & Er & Hz).
    replace (192 + 55 + (x - 247)) with x in Er by lia.
    assert (zlen (x :: tl) = zlen (rlp_head 192 cs0) + zlen r) as Hl by (by rewrite Er, zlen_app).
    pose proof (zlen_nonneg r). rewrite zlen_cons in Hl.
    apply Hchk in E as (<- & <- & <- & Hs); [|lia]. rewrite zlen_cons in Hs. split; [done|].
    exists r. split_and!; [done|done|lia].
Qed.

Ltac tag_tests :=
  repeat match goal with
  | |- context [if ?a <? ?c then _ else _] =>
      (destruct (Z.ltb_spec a c); [lia|]) || (destruct (Z.ltb_spec a c); [|lia])
  end.

Lemma readKind_complete b k ts cs : data_ok b -> raw_head k ts cs b -> readKind b = inl (k, ts, cs).
Proof.
  intros [Hb Hlen] Hh.
  assert (forall (b' : bytes) ts', b' = b -> 0 <= ts' -> 0 <= cs <= zlen b - ts' ->
            (if u64 (zlen b' - ts') <? cs then inr ErrValueTooLarge else inl (k, ts', cs)) = inl (k, ts', cs)) as Hchk.
  { intros b' ts' -> Ht Hc. assert ((u64 (zlen b - ts') <? cs) = false) as ->; [|done]. apply size_check; [done|lia|lia]. }
  destruct k; cbn [raw_head] in Hh.
  - destruct Hh as (-> & -> & x & r & -> & Hx). unfold readKind. destruct (Z.ltb_spec x 128); [|lia].
    apply Hchk; [done|lia|]. rewrite zlen_cons. pose proof (zlen_nonneg r). lia.
  - destruct Hh as (Hu & r & -> & -> & Hr & H1). rewrite zlen_app in Hchk.
    destruct (Z.lt_ge_cases cs 56) as [Hs|Hs].
    + rewrite rlp_head_short in * by done. cbn [app readKind]. unfold is_u64 in Hu. tag_tests.
      replace (128 + cs - 128) with cs by lia.
      assert ((cs =? 1) && (match r with x :: _ => x <? 128 | [] => false end) = false) as ->.
      { destruct (Z.eqb_spec cs 1) as [E1|]; [|done]. destruct r as [|y r]; [done|]. cbn. apply Z.ltb_ge. by eapply H1. }
      change (zlen [128 + cs]) with 1 in *. apply Hchk; [done|lia|lia].
    + destruct (readSize_complete 128 cs r Hu Hs) as (Eh & Es & Hbl & Hz). rewrite Eh in *. rewrite Hz in *.
      cbn [readKind]. tag_tests. replace (128 + 55 + byte_len cs - 183) with (byte_len cs) by lia.
      rewrite Es. apply Hchk; [done|lia|]. u64_lia.
  - destruct Hh as (Hu & r & -> & -> & Hr). rewrite zlen_app in Hchk.
    destruct (Z.lt_ge_cases cs 56) as [Hs|Hs].
    + rewrite rlp_head_short in * by done. cbn [app readKind]. unfold is_u64 in Hu. tag_tests.
      replace (192 + cs - 192) with cs by lia.
      change (zlen [192 + cs]) with 1 in *. apply Hchk; [done|lia|lia].
    + destruct (readSize_complete 192 cs r Hu Hs) as (Eh & Es & Hbl & Hz). rewrite Eh in *. rewrite Hz in *.
      cbn [readKind]. tag_tests. replace (192 + 55 + byte_len cs - 247) with (byte_len cs) by lia.
      rewrite Es. apply Hchk; [done|lia|]. u64_lia.
Qed.

(** ** Splitting off the first value *)

(** [content] is the content of the string or list in front of [rest]. *)
Definition first_value (b : bytes) (k : Kind) (content rest : bytes) : Prop :=
  k = KList /\ b = rlp_list content ++ rest \/
  k = (if short_byte content then KByte else KString) /\ b = rlp_string content ++ rest.

Lemma zslice_mid (a c r : bytes) : zslice (a ++ c ++ r) (zlen a) (zlen a + zlen c) = Some c.
Proof.
  pose proof (zlen_nonneg a). pose proof (zlen_nonneg c). pose proof (zlen_nonneg r).
  rewrite zslice_Some by (rewrite ?zlen_app; lia). f_equal.
  replace (zlen a + zlen c - zlen a) with (zlen c) by lia. unfold zlen. rewrite !Nat2Z.id, drop_app_length.
  apply take_app_length.
Qed.

Lemma zslice_end (a r : bytes) : zslice (a ++ r) (zlen a) (zlen (a ++ r)) = Some r.
Proof.
  pose proof (zslice_mid a r []) as H. rewrite app_nil_r in H. by rewrite zlen_app.
Qed.

(** [raw_head] with the content cut off. *)
Lemma raw_head_split b k ts cs :
  data_ok b -> raw_head k ts cs b ->
  exists hd c r, b = hd ++ c ++ r /\ zlen hd = ts /\ zlen c = cs /\ first_value b k c r.
Proof.
  intros [Hb Hlen] Hh. destruct k; cbn [raw_head] in Hh.
  - destruct Hh as (-> & -> & x & r & -> & Hx). exists [], [x], r. split_and!; try done. right.
    unfold short_byte. cbn. by destruct (Z.ltb_spec x 128); [|lia].
  - destruct Hh as (Hu & r & -> & -> & Hr & H1). destruct (split_length r cs ltac:(u64_lia)) as (c & r' & -> & <-).
    exists (rlp_head 128 (zlen c)), c, r'. split_and!; try done. right.
    assert (short_byte c = false) as Hs.
    { unfold short_byte. destruct (Z.eqb_spec (zlen c) 1) as [E1|]; [|done]. destruct c as [|y c]; [done|].
      cbn. apply Z.ltb_ge. by eapply H1. }
    rewrite Hs, rlp_string_head, <- app_assoc by done. done.
  - destruct Hh as (Hu & r & -> & -> & Hr). destruct (split_length r cs ltac:(u64_lia)) as (c & r' & -> & <-).
    exists (rlp_head 192 (zlen c)), c, r'. split_and!; try done. left. unfold rlp_list. by rewrite <- app_assoc.
Qed.

Lemma first_value_raw b k content rest :
  data_ok b -> first_value b k content rest ->
  exists hd, b = hd ++ content ++ rest /\ raw_head k (zlen hd) (zlen content) b.
Proof.
  intros [Hb Hlen] Hf. pose proof (zlen_nonneg content). pose proof (zlen_nonneg rest).
  assert (is_u64 (zlen content)) as Hu.
  { pose proof (rlp_string_shorter content). destruct Hf as [[_ ->]|[_ ->]]; unfold rlp_list in Hlen;
      rewrite !zlen_app in Hlen; pose proof (zlen_nonneg (rlp_head 192 (zlen content))); unfold data_max in *; u64_lia. }
  destruct Hf as [[-> ->]|[-> ->]].
  - exists (rlp_head 192 (zlen content)). unfold rlp_list. rewrite <- app_assoc. split; [done|]. split; [done|].
    exists (content ++ rest). split_and!; try done. rewrite zlen_app. lia.
  - destruct (short_byte content) eqn:Es.
    + assert (exists x, content = [x] /\ x < 128) as (x & -> & Hx).
      { unfold short_byte in Es. apply andb_true_iff in Es as [E1 E2]. apply Z.eqb_eq in E1.
        destruct content as [|x [|y c]]; [done|exists x; split; [done|by apply Z.ltb_lt]|].
        rewrite !zlen_cons in E1. pose proof (zlen_nonneg c). lia. }
      rewrite rlp_string_byte in * by done. exists []. split; [done|]. cbn. split_and!; try done.
      exists x, rest. split; [done|]. apply Forall_app in Hb as [Hb _]. apply Forall_cons in Hb as [Hb _].
      unfold is_byte in Hb. lia.
    + rewrite rlp_string_head, <- app_assoc in * by done. exists (rlp_head 128 (zlen content)). split; [done|].
      split; [done|]. exists (content ++ rest). split_and!; try done; [rewrite zlen_app; lia|].
      intros E1 y r' Er. destruct content as [|z c]; [done|]. injection Er as -> _.
      unfold short_byte in Es. rewrite E1 in Es. cbn in Es. by apply Z.ltb_ge.
Qed.

Lemma u64_len a b : 0 <= a -> 0 <= b -> a + b <= data_max -> u64 (a + b) = a + b.
Proof. intros. apply u64_small. unfold data_max in *. u64_lia. Qed.

Lemma Split_at b k ts cs hd c r :
  data_ok b -> readKind b = inl (k, ts, cs) -> b = hd ++ c ++ r -> zlen hd = ts -> zlen c = cs ->
  Split b = Some (inl (k, c, r)).
Proof.
  intros [_ Hlen] E Eb <- <-. unfold Split. rewrite E.
  pose proof (zlen_nonneg hd). pose proof (zlen_nonneg c). pose proof (zlen_nonneg r).
  rewrite u64_len by (rewrite Eb, !zlen_app in Hlen; lia). rewrite Eb at 1. rewrite zslice_mid.
  rewrite Eb, app_assoc, <- zlen_app, zslice_end. done.
Qed.

Lemma Split_iff b k content rest :
  data_ok b -> Split b = Some (inl (k, content, rest)) <-> first_value b k content rest.
Proof.
  intros Hb. split.
  - intros E. destruct (readKind b) as [[[k' ts] cs]|e] eqn:Ek; [|unfold Split in E; by rewrite Ek in E].
    pose proof (readKind_sound _ _ _ _ Hb Ek) as Hh.
    destruct (raw_head_split _ _ _ _ Hb Hh) as (hd & c & r & Eb & Ht & Hc & Hf).
    rewrite (Split_at _ _ _ _ _ _ _ Hb Ek Eb Ht Hc) in E. by simplify_eq.
  - intros Hf. destruct (first_value_raw _ _ _ _ Hb Hf) as (hd & Eb & Hh).
    by apply (Split_at _ _ _ _ _ _ _ Hb (readKind_complete _ _ _ _ Hb Hh) Eb).
Qed.

Lemma Split_total b : data_ok b -> exists r, Split b = Some r.
Proof.
  intros Hb. destruct (readKind b) as [[[k ts] cs]|e] eqn:Ek; [|exists (inr e); unfold Split; by rewrite Ek].
  pose proof (readKind_sound _ _ _ _ Hb Ek) as Hh.
  destruct (raw_head_split _ _ _ _ Hb Hh) as (hd & c & r & Eb & Ht & Hc & _).
  eexists. by apply (Split_at _ _ _ _ _ _ _ Hb Ek Eb Ht Hc).
Qed.

(** ** Integers *)

Lemma SplitString_iff b content rest :
  data_ok b -> SplitString b = Some (inl (content, rest)) <-> b = rlp_string content ++ rest.
Proof.
  intros Hb. unfold SplitString. split.
  - destruct (Split b) as [[[[k c] r]|e]|] eqn:E; [|done..]. apply Split_iff in E; [|done].
    destruct E as [[-> ->]|[-> ->]]; [done|]. destruct (short_byte c); by intros [= -> ->].
  - intros Eb. assert (first_value b (if short_byte content then KByte else KString) content rest) as Hf by (by right).
    apply Split_iff in Hf; [|done]. rewrite Hf. by destruct (short_byte content).
Qed.

Lemma readSize_content c :
  Forall is_byte c -> 2 <= zlen c ->
  readSize c (zlen c) = if (match c with x :: _ => x =? 0 | [] => true end) then inr ErrCanonSize else inl (be_val c).
Proof.
  intros Hc H2. pose proof (readSize_ok c [] Hc ltac:(lia)) as E. rewrite app_nil_r in E. rewrite E.
  destruct c as [|x c]; [done|]. destruct (Z.eqb_spec x 0); [by rewrite orb_true_r|]. rewrite orb_false_r.
  pose proof (be_val_leading x c Hc ltac:(done)) as [Hv _]. rewrite zlen_cons in H2.
  pose proof (Z.pow_le_mono_r 256 1 (zlen c) ltac:(lia) ltac:(lia)) as Hp. change (256 ^ 1) with 256 in Hp.
  destruct (Z.ltb_spec (be_val (x :: c)) 56); [lia|done].
Qed.

Lemma be_min_length_u64 c : Forall is_byte c -> leading_ok c -> is_u64 (be_val c) -> zlen c <= 8.
Proof.
  intros Hb Hl Hu. rewrite <- (be_min_be_val c Hb Hl), zlen_be_min. apply byte_len_u64. u64_lia.
Qed.

Lemma SplitUint64_iff b x rest :
  data_ok b -> SplitUint64 b = Some (inl (x, rest)) <-> is_u64 x /\ b = rlp_string (be_min x) ++ rest.
Proof.
  intros Hb. unfold SplitUint64. split.
  - destruct (SplitString b) as [[[c r]|e]|] eqn:E; [|done..]. apply SplitString_iff in E; [|done].
    assert (Forall is_byte c) as Hc.
    { destruct Hb as [Hb _]. rewrite E in Hb. apply Forall_app in Hb as [Hb _].
      destruct (short_byte c) eqn:Es; [|rewrite rlp_string_head in Hb by done; by apply Forall_app in Hb as [_ ?]].
      unfold short_byte in Es. apply andb_true_iff in Es as [_ Es]. destruct c as [|y [|z c]]; [done| |].
      - unfold rlp_string in Hb. by rewrite Es in Hb.
      - rewrite rlp_string_long in Hb; [by apply Forall_app in Hb as [_ ?]|]. rewrite !zlen_cons. pose proof (zlen_nonneg c). lia. }
    destruct c as [|y [|z c]].
    + intros [= <- <-]. split; [u64_lia|done].
    + destruct (Z.eqb_spec y 0); [done|]. intros [= <- <-]. apply Forall_cons in Hc as [Hy _]. unfold is_byte in Hy.
      rewrite be_min_small by lia. split; [u64_lia|done].
    + destruct (Z.ltb_spec 8 (zlen (y :: z :: c))); [done|]. pose proof (zlen_nonneg c).
      rewrite u8_small by (rewrite !zlen_cons in *; lia). rewrite readSize_content by (done || (rewrite !zlen_cons; lia)).
      destruct (Z.eqb_spec y 0); [done|]. intros [= <- <-]. rewrite be_min_be_val by done.
      split; [by apply be_val_u64|done].
  - intros [Hx Eb]. apply SplitString_iff in Eb; [|done]. rewrite Eb.
    pose proof (be_min_bytes x) as Hc. pose proof (be_min_leading x) as Hl. pose proof (be_val_be_min x ltac:(u64_lia)) as Hv.
    pose proof (be_min_length_u64 (be_min x) Hc Hl ltac:(by rewrite Hv)) as H8.
    destruct (be_min x) as [|y [|z c]].
    + by rewrite <- Hv.
    + cbn [leading_ok] in Hl. rewrite be_val_one in Hv. subst y. by destruct (Z.eqb_spec x 0).
    + destruct (Z.ltb_spec 8 (zlen (y :: z :: c))); [lia|]. pose proof (zlen_nonneg c).
      rewrite u8_small by (rewrite !zlen_cons in *; lia). rewrite readSize_content by (done || (rewrite !zlen_cons; lia)).
      cbn [leading_ok] in Hl. destruct (Z.eqb_spec y 0); [done|]. by rewrite Hv.
Qed.

(** ** Counting values *)

Definition top_item (x : bytes) : Prop := exists c, x = rlp_string c \/ x = rlp_list c.

Lemma top_item_nonempty x : top_item x -> x <> [].
Proof.
  assert (forall base n l, rlp_head base n ++ l <> []) as H.
  { intros base n l. unfold rlp_head. by destruct (n <? 56). }
  intros (c & [->| ->]); [|apply H]. unfold rlp_string. destruct c as [|y [|z c]]; [apply H| |apply H].
  destruct (y <? 128); [done|apply H].
Qed.

Lemma first_value_item b k c r : first_value b k c r -> exists x, top_item x /\ b = x ++ r.
Proof. intros [[_ ->]|[_ ->]]; eexists; split; try done; exists c; auto. Qed.

Lemma item_first_value x r : top_item x -> exists k c, first_value (x ++ r) k c r.
Proof. intros (c & [->| ->]); [exists (if short_byte c then KByte else KString), c; by right|exists KList, c; by left]. Qed.

Lemma raw_head_length k ts cs b : raw_head k ts cs b -> 1 <= ts + cs /\ 0 <= ts /\ 0 <= cs.
Proof.
  destruct k; cbn.
  - lia.
  - intros (Hu & r & _ & -> & _). pose proof (rlp_head_length 128 cs Hu). u64_lia.
  - intros (Hu & r & _ & -> & _). pose proof (rlp_head_length 192 cs Hu). u64_lia.
Qed.

(** One round of [CountValues]. *)
Lemma readKind_step b :
  data_ok b -> b <> [] ->
  (exists k ts cs x r, readKind b = inl (k, ts, cs) /\ b = x ++ r /\ top_item x /\
     zslice b (u64 (ts + cs)) (zlen b) = Some r /\ (length r < length b)%nat /\ data_ok r /\
     (forall x' r', top_item x' -> b = x' ++ r' -> r' = r)) \/
  (exists e, readKind b = inr e /\ forall x r, top_item x -> b = x ++ r -> False).
Proof.
  intros Hb Hne. destruct (readKind b) as [[[k ts] cs]|e] eqn:E.
  - left. pose proof (readKind_sound _ _ _ _ Hb E) as Hh. pose proof (raw_head_length _ _ _ _ Hh) as (H1 & H2 & H3).
    destruct (raw_head_split _ _ _ _ Hb Hh) as (hd & c & r & Eb & Ht & Hc & Hf).
    destruct (first_value_item _ _ _ _ Hf) as (x & Hx & Ex). exists k, ts, cs, x, r.
    pose proof Hb as [Hbb Hbl]. rewrite Eb in Hbb, Hbl. rewrite !zlen_app in Hbl. pose proof (zlen_nonneg r).
    apply Forall_app in Hbb as [_ Hbb]. apply Forall_app in Hbb as [_ Hbr].
    split_and!; [done|done|done| | |split; [done|lia]|].
    + rewrite u64_len by lia. rewrite Eb, app_assoc, <- Ht, <- Hc, <- zlen_app. apply zslice_end.
    + rewrite Eb, !length_app. unfold zlen in *. lia.
    + intros x' r' Hx' Eb'. destruct (item_first_value x' r' Hx') as (k' & c' & Hf'). rewrite <- Eb' in Hf'.
      apply Split_iff in Hf; [|done]. apply Split_iff in Hf'; [|done]. congruence.
  - right. exists e. split; [done|]. intros x r Hx Eb. destruct (item_first_value x r Hx) as (k & c & Hf).
    rewrite <- Eb in Hf. destruct (first_value_raw _ _ _ _ Hb Hf) as (hd & _ & Hh).
    apply readKind_complete in Hh; [|done]. congruence.
Qed.

Lemma CountValues_step n i b :
  b <> [] ->
  CountValues_loop (S n) i b =
  match readKind b with
  | inr e => Some (inr e)
  | inl (_, tagsize, size) =>
      match zslice b (u64 (tagsize + size)) (zlen b) with
      | Some b => CountValues_loop n (i + 1) b
      | None => None
      end
  end.
Proof. by destruct b. Qed.

Lemma CountValues_loop_spec n i b :
  data_ok b -> (length b < n)%nat ->
  (exists r, CountValues_loop n i b = Some r) /\
  forall m, CountValues_loop n i b = Some (inl m) <->
            exists items, Forall top_item items /\ b = concat items /\ m = i + zlen items.
Proof.
  revert i b. induction n as [|n IH]; intros i b Hb Hn; [lia|].
  destruct (decide (b = [])) as [->|Hne].
  - split; [by eexists|]. intros m. split.
    + intros [= <-]. exists []. split_and!; [apply Forall_nil_2|done|rewrite zlen_nil; lia].
    + intros (items & Hi & E & ->). destruct Hi as [|x items Hx _]; [by rewrite zlen_nil, Z.add_0_r|].
      cbn [concat] in E. symmetry in E. apply app_eq_nil in E as [E _].
      by destruct (top_item_nonempty x Hx).
  - rewrite CountValues_step by done.
    destruct (readKind_step b Hb Hne) as [(k & ts & cs & x & r & -> & Eb & Hx & -> & Hl & Hr & Hu)|(e & -> & Hno)].
    + destruct (IH (i + 1) r Hr ltac:(lia)) as [Ht Hm]. split; [done|]. intros m. rewrite Hm. split.
      * intros (items & Hi & Er & ->). exists (x :: items). rewrite zlen_cons. cbn [concat]. rewrite <- Er.
        split_and!; [by apply Forall_cons_2|done|lia].
      * intros (items & Hi & Er & ->). destruct Hi as [|x' items Hx' Hi]; [done|]. cbn [concat] in Er.
        exists items. rewrite zlen_cons. split_and!; [done|symmetry; by apply (Hu x')|lia].
    + split; [by eexists|]. intros m. split; [done|]. intros (items & Hi & Er & _).
      destruct Hi as [|x' items Hx' Hi]; [done|]. by destruct (Hno x' (concat items)).
Qed.

(** Splitting without decoding.  On any input, [Split], [SplitUint64] and
    [CountValues] return without a slice out of range; [Split] returns the
    content and the rest exactly when the input starts with the encoding of that
    content as a string or list, [SplitUint64] exactly when it starts with the
    encoding of that integer, and [CountValues] counts the values exactly when
    the input is a sequence of them. *)
Theorem raw_split_correct b :
  data_ok b ->
  (exists r, Split b = Some r) /\
  (forall k content rest, Split b = Some (inl (k, content, rest)) <->
     k = KList /\ b = rlp_list content ++ rest \/
     k = (if short_byte content then KByte else KString) /\ b = rlp_string content ++ rest) /\
  (forall x rest, SplitUint64 b = Some (inl (x, rest)) <-> is_u64 x /\ b = rlp_string (be_min x) ++ rest) /\
  (exists r, CountValues b = Some r) /\
  (forall n, CountValues b = Some (inl n) <->
     exists items, Forall top_item items /\ b = concat items /\ n = zlen items).
Proof.
  intros Hb. split; [by apply Split_total|]. split; [intros; by apply Split_iff|].
  split; [intros; by apply SplitUint64_iff|]. apply (CountValues_loop_spec (S (length b)) 0 b Hb). lia.
Qed.

Lemma raw_split_correct_witness :
  data_ok [194; 1; 2; 5] /\ Split [194; 1; 2; 5] = Some (inl (KList, [1; 2], [5])).
Proof.
  assert (data_ok [194; 1; 2; 5]) as Hb.
  { split; [|vm_compute; discriminate]. repeat apply Forall_cons_2; [unfold is_byte; lia..|apply Forall_nil_2]. }
  split; [done|]. apply (proj1 (proj2 (raw_split_correct _ Hb))). by left.
Defined.
