(* ===== verification/Trie.v ===== *)
(** * The Merkle Patricia trie

    Package [trie]: key encodings ([encoding.go]), nodes and their decoding
    ([node.go]), the node database ([database.go], without its reference counts,
    the entry of the zero hash that roots them, and the cache of nodes read from
    disk), the operations of a trie ([trie.go]), hashing ([hasher.go]) and
    committing ([committer.go], without a leaf callback).  The functions modelled
    copy a node before they change it, so that a node is a value here; a node that
    is not loaded is its hash. *)

From Stdlib Require Import ZArith Lia.
From S2P Require Import Prelude Common Rlp Crypto.

Open Scope go_scope.

(** ** trie/encoding.go *)

Definition hasTerm (s : bytes) : bool :=
  match last s with Some x => x =? 16 | None => false end.

(** [decodeNibbles(nibbles, bytes)]: the bytes written; [None] when a nibble is
    missing at the end. *)
Fixpoint decodeNibbles (nibbles : bytes) : option bytes :=
  match nibbles with
  | [] => Some []
  | [_] => None
  | a :: b :: r =>
      match decodeNibbles r with
      | Some l => Some (Z.lor (u8 (Z.shiftl a 4)) b :: l)
      | None => None
      end
  end.

Definition hexToCompact (hex : bytes) : option bytes :=
  let terminator := if hasTerm hex then 1 else 0 in
  let hex := if hasTerm hex then take (length hex - 1) hex else hex in
  let buf0 := u8 (Z.shiftl terminator 5) in
  match (if Z.land (zlen hex) 1 =? 1
         then match hex with
              | x :: hex => (Z.lor (Z.lor buf0 (Z.shiftl 1 4)) x, hex)
              | [] => (buf0, hex)
              end
         else (buf0, hex)) with
  | (buf0, hex) =>
      match decodeNibbles hex with
      | Some l => Some (buf0 :: l)
      | None => None
      end
  end.

(** [hexToCompactInPlace]: the loop reads two nibbles at [ni] and writes a byte
    at [bi] of the same slice. *)
Fixpoint compactInPlace_loop (fuel : nat) (hex : bytes) (hexLen bi ni : Z) : option bytes :=
  match fuel with
  | O => None
  | S fuel =>
      if ni <? hexLen then
        match zget hex ni, zget hex (ni + 1) with
        | Some a, Some b =>
            match zput hex bi (Z.lor (u8 (Z.shiftl a 4)) b) with
            | Some hex => compactInPlace_loop fuel hex hexLen (bi + 1) (ni + 2)
            | None => None
            end
        | _, _ => None
        end
      else Some hex
  end.

Definition hexToCompactInPlace (hex : bytes) : option (Z * bytes) :=
  let term := match zget hex (zlen hex - 1) with Some x => x =? 16 | None => false end in
  let hexLen := if term then zlen hex - 1 else zlen hex in
  let firstByte := if term then Z.shiftl 1 5 else 0 in
  let binLen := hexLen / 2 + 1 in
  match (if Z.land hexLen 1 =? 1
         then match zget hex 0 with
              | Some x => Some (Z.lor (Z.lor firstByte (Z.shiftl 1 4)) x, 1)
              | None => None
              end
         else Some (firstByte, 0)) with
  | None => None
  | Some (firstByte, ni) =>
      match compactInPlace_loop (S (length hex)) hex hexLen 1 ni with
      | None => None
      | Some hex =>
          match zput hex 0 firstByte with
          | Some hex => Some (binLen, hex)
          | None => None
          end
      end
  end.

Definition keybytesToHex (str : bytes) : bytes :=
  concat (map (fun b => [b / 16; b mod 16]) str) ++ [16].

Definition compactToHex (compact : bytes) : bytes :=
  match compact with
  | [] => []
  | _ =>
      let base := keybytesToHex compact in
      let b0 := match base with x :: _ => x | [] => 0 end in
      let base := if b0 <? 2 then take (length base - 1) base else base in
      let chop := 2 - Z.land b0 1 in
      drop (Z.to_nat chop) base
  end.

Definition hexToKeybytes (hex : bytes) : outcome bytes :=
  let hex := if hasTerm hex then take (length hex - 1) hex else hex in
  if negb (Z.land (zlen hex) 1 =? 0) then Panic PanicOther
  else of_option PanicIndex (decodeNibbles hex).

Fixpoint prefixLen (a b : bytes) : nat :=
  match a, b with
  | x :: a, y :: b => if x =? y then S (prefixLen a b) else 0
  | _, _ => 0
  end.

(** ** trie/node.go *)

Record nodeFlag := MkNodeFlag { hash : option bytes; dirty : bool }.

Inductive node :=
| nilNode
| fullNode (Children : list node) (flags : nodeFlag)
| shortNode (Key : bytes) (Val : node) (flags : nodeFlag)
| hashNode (h : bytes)
| valueNode (v : bytes).

(** [nodeFlag{dirty: true}] *)
Definition newFlag : nodeFlag := MkNodeFlag None true.

Definition cache (n : node) : option bytes * bool :=
  match n with
  | fullNode _ f | shortNode _ _ f => (hash f, dirty f)
  | _ => (None, true)
  end.

(** What the [rlp] package sees of a node: a short node is a struct of key and
    value, a full node encodes its 17 children, an absent one as the empty
    string. *)
Fixpoint node_rval (n : node) : rval :=
  match n with
  | nilNode => VNil
  | fullNode cs _ =>
      VList (map (fun c => match c with nilNode => VBytes [] | c => node_rval c end) cs)
  | shortNode k v _ => VList [VBytes k; node_rval v]
  | hashNode h => VBytes h
  | valueNode v => VBytes v
  end.

(** Decoding; errors are not told apart. *)
Definition hashLen : Z := 32.

(** The slices [rlp.Split] returns; a panic of [Split] is passed on. *)
Definition obind2 {A B} (m : option (rres A)) (f : A -> outcome (option B)) : outcome (option B) :=
  match m with
  | None => Panic PanicIndex
  | Some (inr _) => Ok None
  | Some (inl a) => f a
  end.

(** [decodeRef] with [decodeNode(nil, _)] as argument. *)
Definition decodeRef (decodeNode : bytes -> outcome (option node)) (buf : bytes)
    : outcome (option (node * bytes)) :=
  obind2 (Split buf) (fun '(kind, val, rest) =>
    match kind with
    | KList =>
        let size := zlen buf - zlen rest in
        if hashLen <? size then Ok None
        else n <- decodeNode buf ;;
             match n with Some n => Ok (Some (n, rest)) | None => Ok None end
    | KString =>
        if zlen val =? 0 then Ok (Some (nilNode, rest))
        else if zlen val =? 32 then Ok (Some (hashNode val, rest))
        else Ok None
    | KByte => Ok None
    end).

Definition decodeShort (decodeNode : bytes -> outcome (option node)) (h : option bytes) (elems : bytes)
    : outcome (option node) :=
  obind2 (SplitString elems) (fun '(kbuf, rest) =>
    let flag := MkNodeFlag h false in
    let key := compactToHex kbuf in
    if hasTerm key then
      obind2 (SplitString rest) (fun '(val, _) => Ok (Some (shortNode key (valueNode val) flag)))
    else
      r <- decodeRef decodeNode rest ;;
      match r with
      | Some (r, _) => Ok (Some (shortNode key r flag))
      | None => Ok None
      end).

(** The first 16 children. *)
Fixpoint decode_children (decodeNode : bytes -> outcome (option node)) (i : nat) (elems : bytes) (acc : list node)
    : outcome (option (list node * bytes)) :=
  match i with
  | O => Ok (Some (acc, elems))
  | S i =>
      r <- decodeRef decodeNode elems ;;
      match r with
      | Some (cld, rest) => decode_children decodeNode i rest (acc ++ [cld])
      | None => Ok None
      end
  end.

Definition decodeFull (decodeNode : bytes -> outcome (option node)) (h : option bytes) (elems : bytes)
    : outcome (option node) :=
  r <- decode_children decodeNode 16 elems [] ;;
  match r with
  | None => Ok None
  | Some (cs, elems) =>
      obind2 (SplitString elems) (fun '(val, _) =>
        let c := if 0 <? zlen val then valueNode val else nilNode in
        Ok (Some (fullNode (cs ++ [c]) (MkNodeFlag h false))))
  end.

(** [decodeNode(hash, buf)]; embedded nodes are shorter than the node they are
    in, so that the length of the input is enough fuel. *)
Fixpoint decodeNode (fuel : nat) (h : option bytes) (buf : bytes) : outcome (option node) :=
  match fuel with
  | O => NoFuel
  | S fuel =>
      if zlen buf =? 0 then Ok None
      else
        obind2 (SplitList buf) (fun '(elems, _) =>
          match CountValues elems with
          | None => Panic PanicIndex
          | Some c =>
              let c := match c with inl c => c | inr _ => 0 end in
              if c =? 2 then decodeShort (decodeNode fuel None) h elems
              else if c =? 17 then decodeFull (decodeNode fuel None) h elems
              else Ok None
          end)
  end.

Definition mustDecodeNode (h buf : bytes) : outcome node :=
  n <- decodeNode (S (length buf)) (Some h) buf ;;
  match n with Some n => Ok n | None => Panic PanicOther end.

(** ** trie/database.go

    [dirties] holds the nodes not yet written to disk in their collapsed form,
    [diskdb] the encoded nodes on disk. *)

Inductive rawNode :=
| rawNil
| rawFullNode (Children : list rawNode)
| rawShortNode (Key : bytes) (Val : rawNode)
| rawHash (h : bytes)
| rawValue (v : bytes).

Fixpoint simplifyNode (n : node) : outcome rawNode :=
  match n with
  | shortNode k v _ => v <- simplifyNode v ;; Ok (rawShortNode k v)
  | fullNode cs _ =>
      cs <- (fix all (cs : list node) : outcome (list rawNode) :=
               match cs with
               | [] => Ok []
               | c :: cs =>
                   c <- (match c with nilNode => Ok rawNil | c => simplifyNode c end) ;;
                   cs <- all cs ;;
                   Ok (c :: cs)
               end) cs ;;
      Ok (rawFullNode cs)
  | valueNode v => Ok (rawValue v)
  | hashNode h => Ok (rawHash h)
  | nilNode => Panic PanicOther
  end.

Fixpoint expandNode (h : option bytes) (n : rawNode) : node :=
  match n with
  | rawShortNode k v => shortNode (compactToHex k) (expandNode None v) (MkNodeFlag h false)
  | rawFullNode cs =>
      fullNode (map (fun c => match c with rawNil => nilNode | c => expandNode None c end) cs) (MkNodeFlag h false)
  | rawValue v => valueNode v
  | rawHash h => hashNode h
  | rawNil => nilNode
  end.

Record Database := MkDatabase { dirties : gmap Hash rawNode; diskdb : Hash -> option bytes }.

(** [db.node(hash)]: nil when the database does not have the node. *)
Definition db_node (db : Database) (h : Hash) : outcome node :=
  match dirties db !! h with
  | Some raw => Ok (expandNode (Some (Hash_Bytes h)) raw)
  | None =>
      match diskdb db h with
      | None => Ok nilNode
      | Some enc => mustDecodeNode (Hash_Bytes h) enc
      end
  end.

Definition db_insert (db : Database) (h : Hash) (n : node) : outcome Database :=
  match dirties db !! h with
  | Some _ => Ok db
  | None =>
      raw <- simplifyNode n ;;
      Ok (MkDatabase (<[h := raw]> (dirties db)) (diskdb db))
  end.

(** ** trie/trie.go *)

Inductive trie_error := MissingNodeError (NodeHash : Hash) (Path : bytes).

Abbreviation R A := (outcome (A + trie_error)) (only parsing).

Definition rbind {A B} (m : R A) (f : A -> R B) : R B :=
  obind m (fun r => match r with inl a => f a | inr e => Ok (inr e) end).

Notation "x <=- m ;; k" := (rbind m (fun x => k))
  (at level 20, m at level 99, k at level 200, only parsing) : go_scope.
Notation "' pat <=- m ;; k" := (rbind m (fun x => match x with pat => k end))
  (at level 20, pat pattern, m at level 99, k at level 200, only parsing) : go_scope.

Definition resolveHash (db : Database) (n prefix : bytes) : R node :=
  let h := BytesToHash n in
  node <- db_node db h ;;
  match node with
  | nilNode => Ok (inr (MissingNodeError h prefix))
  | node => Ok (inl node)
  end.

Definition resolve (db : Database) (n : node) (prefix : bytes) : R node :=
  match n with
  | hashNode h => resolveHash db h prefix
  | n => Ok (inl n)
  end.

(** The child of a full node; the array has 17 elements. *)
Definition child (cs : list node) (i : Z) : outcome node := of_option PanicIndex (zget cs i).
Definition set_child (cs : list node) (i : Z) (c : node) : outcome (list node) := of_option PanicIndex (zput cs i c).

(** [tryGet(origNode, key, pos)]: the value, the node with what was loaded on
    the way, and whether something was loaded. *)
Fixpoint tryGet (fuel : nat) (db : Database) (origNode : node) (key : bytes) (p : Z)
    : R (option bytes * node * bool) :=
  match fuel with
  | O => NoFuel
  | S fuel =>
      match origNode with
      | nilNode => Ok (inl (None, nilNode, false))
      | valueNode v => Ok (inl (Some v, origNode, false))
      | shortNode k val flags =>
          if (zlen key - p <? zlen k) || negb (bool_decide (zslice key p (p + zlen k) = Some k))
          then Ok (inl (None, origNode, false))
          else
            ' (value, newnode, didResolve) <=- tryGet fuel db val key (p + zlen k) ;;
            Ok (inl (value, if (didResolve : bool) then shortNode k newnode flags else origNode, didResolve))
      | fullNode cs flags =>
          i <- of_option PanicIndex (zget key p) ;;
          c <- child cs i ;;
          ' (value, newnode, didResolve) <=- tryGet fuel db c key (p + 1) ;;
          if (didResolve : bool) then
            cs <- set_child cs i newnode ;;
            Ok (inl (value, fullNode cs flags, true))
          else Ok (inl (value, origNode, false))
      | hashNode h =>
          n <=- resolveHash db h (take (Z.to_nat p) key) ;;
          ' (value, newnode, _) <=- tryGet fuel db n key p ;;
          Ok (inl (value, newnode, true))
      end
  end.

(** [insert(n, prefix, key, value)]: whether the node changed, and the new
    node. *)
Fixpoint insert_ (fuel : nat) (db : Database) (n : node) (prefix key : bytes) (value : node)
    : R (bool * node) :=
  match fuel with
  | O => NoFuel
  | S fuel =>
      match key with
      | [] =>
          match n with
          | valueNode v =>
              match value with
              | valueNode v' => Ok (inl (negb (bool_decide (v = v')), value))
              | _ => Panic PanicTypeAssert
              end
          | _ => Ok (inl (true, value))
          end
      | k0 :: krest =>
          match n with
          | shortNode nkey val flags =>
              let matchlen := prefixLen key nkey in
              if (matchlen =? length nkey)%nat then
                ' (d, nn) <=- insert_ fuel db val (prefix ++ take matchlen key) (drop matchlen key) value ;;
                if negb d then Ok (inl (false, n))
                else Ok (inl (true, shortNode nkey nn newFlag))
              else
                i <- of_option PanicIndex (nkey !! matchlen) ;;
                ' (_, c) <=- insert_ fuel db nilNode (prefix ++ take (matchlen + 1) nkey) (drop (matchlen + 1) nkey) val ;;
                cs <- set_child (replicate 17 nilNode) i c ;;
                j <- of_option PanicIndex (key !! matchlen) ;;
                ' (_, c) <=- insert_ fuel db nilNode (prefix ++ take (matchlen + 1) key) (drop (matchlen + 1) key) value ;;
                cs <- set_child cs j c ;;
                let branch := fullNode cs newFlag in
                if (matchlen =? 0)%nat then Ok (inl (true, branch))
                else Ok (inl (true, shortNode (take matchlen key) branch newFlag))
          | fullNode cs flags =>
              c <- child cs k0 ;;
              ' (d, nn) <=- insert_ fuel db c (prefix ++ [k0]) krest value ;;
              if negb d then Ok (inl (false, n))
              else cs <- set_child cs k0 nn ;;
                   Ok (inl (true, fullNode cs newFlag))
          | nilNode => Ok (inl (true, shortNode key value newFlag))
          | hashNode h =>
              rn <=- resolveHash db h prefix ;;
              ' (d, nn) <=- insert_ fuel db rn prefix key value ;;
              if negb d then Ok (inl (false, rn)) else Ok (inl (true, nn))
          | valueNode _ => Panic PanicOther
          end
      end
  end.

(** The only child left of a full node: -1 when there is none, -2 when there are
    several. *)
Fixpoint single_child (cs : list node) (i pos : Z) : Z :=
  match cs with
  | [] => pos
  | nilNode :: cs => single_child cs (i + 1) pos
  | _ :: cs => if pos =? -1 then single_child cs (i + 1) i else -2
  end.

(** [delete(n, prefix, key)] *)
Fixpoint delete_ (fuel : nat) (db : Database) (n : node) (prefix key : bytes) : R (bool * node) :=
  match fuel with
  | O => NoFuel
  | S fuel =>
      match n with
      | shortNode nkey val flags =>
          let matchlen := prefixLen key nkey in
          if (matchlen <? length nkey)%nat then Ok (inl (false, n))
          else if (matchlen =? length key)%nat then Ok (inl (true, nilNode))
          else
            ' (d, c) <=- delete_ fuel db val (prefix ++ take (length nkey) key) (drop (length nkey) key) ;;
            if negb d then Ok (inl (false, n))
            else
              match c with
              | shortNode ckey cval _ => Ok (inl (true, shortNode (nkey ++ ckey) cval newFlag))
              | c => Ok (inl (true, shortNode nkey c newFlag))
              end
      | fullNode cs flags =>
          match key with
          | [] => Panic PanicIndex
          | k0 :: krest =>
              c <- child cs k0 ;;
              ' (d, nn) <=- delete_ fuel db c (prefix ++ [k0]) krest ;;
              if negb d then Ok (inl (false, n))
              else
                cs <- set_child cs k0 nn ;;
                let p := single_child cs 0 (-1) in
                if 0 <=? p then
                  c <- child cs p ;;
                  let plain := Ok (inl (true, shortNode [p] c newFlag)) in
                  if negb (p =? 16) then
                    cnode <=- resolve db c prefix ;;
                    match cnode with
                    | shortNode ckey cval _ => Ok (inl (true, shortNode (p :: ckey) cval newFlag))
                    | _ => plain
                    end
                  else plain
                else Ok (inl (true, fullNode cs newFlag))
          end
      | valueNode _ => Ok (inl (true, nilNode))
      | nilNode => Ok (inl (false, nilNode))
      | hashNode h =>
          rn <=- resolveHash db h prefix ;;
          ' (d, nn) <=- delete_ fuel db rn prefix key ;;
          if negb d then Ok (inl (false, rn)) else Ok (inl (true, nn))
      end
  end.

(** A trie is its root; [db] is shared.  The rounds of an operation: one per
    nibble of the key, and one more where a node has to be loaded. *)
Definition op_fuel (k : bytes) : nat := S (2 * length k).

Definition TryGet (db : Database) (root : node) (key : bytes) : R (option bytes * node) :=
  let k := keybytesToHex key in
  ' (value, newroot, didResolve) <=- tryGet (op_fuel k) db root k 0 ;;
  Ok (inl (value, if (didResolve : bool) then newroot else root)).

Definition TryDelete (db : Database) (root : node) (key : bytes) : R node :=
  let k := keybytesToHex key in
  ' (_, n) <=- delete_ (op_fuel k) db root [] k ;;
  Ok (inl n).

Definition TryUpdate (db : Database) (root : node) (key value : bytes) : R node :=
  let k := keybytesToHex key in
  if negb (zlen value =? 0) then
    ' (_, n) <=- insert_ (op_fuel k) db root [] k (valueNode value) ;;
    Ok (inl n)
  else
    ' (_, n) <=- delete_ (op_fuel k) db root [] k ;;
    Ok (inl n).

Definition emptyRoot : Hash := 39309028074332508661983559455579427211983204215636056653337583610388178777121.

(** [New(root, db)] *)
Definition New (root : Hash) (db : Database) : R node :=
  if negb (root =? 0) && negb (root =? emptyRoot)
  then resolveHash db (Hash_Bytes root) []
  else Ok (inl nilNode).

(** ** trie/hasher.go *)

Section hashing.
Context {K : Keccak}.

Definition hashData (data : bytes) : node := hashNode (Keccak256 data).

(** [shortnodeToHash] and [fullnodeToHash]: a node of less than 32 bytes stays in
    its parent. *)
Definition nodeToHash (n : node) (force : bool) : outcome node :=
  tmp <- of_option PanicOther (Encode (node_rval n)) ;;
  if (zlen tmp <? 32) && negb force then Ok n else Ok (hashData tmp).

Definition flag_hash (f : nodeFlag) (hashed : node) : nodeFlag :=
  MkNodeFlag (match hashed with hashNode h => Some h | _ => None end) (dirty f).

(** [hash(n, force)] returns the hash of [n] and [n] with the hashes cached in
    its nodes. *)
Fixpoint hash_ (n : node) (force : bool) : outcome (node * node) :=
  match fst (cache n) with
  | Some h => Ok (hashNode h, n)
  | None =>
      match n with
      | shortNode k v f =>
          ck <- of_option PanicIndex (hexToCompact k) ;;
          vs <- (match v with
                 | fullNode _ _ | shortNode _ _ _ => hash_ v false
                 | _ => Ok (v, v)
                 end) ;;
          hashed <- nodeToHash (shortNode ck (fst vs) f) force ;;
          Ok (hashed, shortNode k (snd vs) (flag_hash f hashed))
      | fullNode cs f =>
          r <- (fix children (i : nat) (cs : list node) {struct cs} : outcome (list node * list node) :=
                  match cs, i with
                  | [], _ => Ok ([], [])
                  | cs, O => Ok (cs, cs)
                  | c :: cs, S i =>
                      cc <- (match c with
                             | nilNode => Ok (valueNode [], nilNode)
                             | c => hash_ c false
                             end) ;;
                      rest <- children i cs ;;
                      Ok (fst cc :: fst rest, snd cc :: snd rest)
                  end) 16%nat cs ;;
          hashed <- nodeToHash (fullNode (fst r) f) force ;;
          Ok (hashed, fullNode (snd r) (flag_hash f hashed))
      | n => Ok (n, n)
      end
  end.

(** [Hash()]: the root hash, and the root with its hashes cached. *)
Definition Trie_Hash (root : node) : outcome (Hash * node) :=
  match root with
  | nilNode => Ok (emptyRoot, nilNode)
  | _ =>
      r <- hash_ root true ;;
      match fst r with
      | hashNode h => Ok (BytesToHash h, snd r)
      | _ => Panic PanicTypeAssert
      end
  end.

(** ** trie/committer.go *)

Definition store (n : node) (db : Database) : outcome (node * Database) :=
  match fst (cache n) with
  | None => Ok (n, db)
  | Some h =>
      db <- db_insert db (BytesToHash h) n ;;
      Ok (hashNode h, db)
  end.

Fixpoint commit (n : node) (db : Database) : outcome (node * Database) :=
  match cache n with
  | (Some h, false) => Ok (hashNode h, db)
  | _ =>
      match n with
      | shortNode k v f =>
          r <- (match v with fullNode _ _ => commit v db | _ => Ok (v, db) end) ;;
          ck <- of_option PanicIndex (hexToCompact k) ;;
          store (shortNode ck (fst r) f) (snd r)
      | fullNode cs f =>
          r <- (fix children (i : nat) (cs : list node) (db : Database) {struct cs}
                  : outcome (list node * Database) :=
                  match cs, i with
                  | [], _ => Ok ([], db)
                  | cs, O => Ok (cs, db)
                  | c :: cs, S i =>
                      r <- (match c with
                            | nilNode => Ok (nilNode, db)
                            | hashNode h => Ok (hashNode h, db)
                            | c => commit c db
                            end) ;;
                      rest <- children i cs (snd r) ;;
                      Ok (fst r :: fst rest, snd rest)
                  end) 16%nat cs db ;;
          store (fullNode (fst r) f) (snd r)
      | hashNode h => Ok (hashNode h, db)
      | _ => Panic PanicOther
      end
  end.

(** [Commit(nil)]: the root hash, the new root and the database with the dirty
    nodes in it. *)
Definition Trie_Commit (root : node) (db : Database) : outcome (Hash * node * Database) :=
  match root with
  | nilNode => Ok (emptyRoot, nilNode, db)
  | _ =>
      r <- Trie_Hash root ;;
      let rootHash := fst r in
      let root := snd r in
      if negb (snd (cache root)) then Ok (rootHash, root, db)
      else
        c <- commit root db ;;
        match fst c with
        | hashNode h => Ok (rootHash, hashNode h, snd c)
        | _ => Panic PanicTypeAssert
        end
  end.
End hashing.
