(* ===== verification/TrieEnc.v ===== *)
(** * Key encodings of the trie

    Hex keys ([keybytesToHex]) and compact keys ([hexToCompact]) stand for the
    same paths: the conversions of [trie/encoding.go] are inverse to each other,
    and the in-place variant agrees with the one that allocates. *)

From Stdlib Require Import ZArith Lia.
From S2P Require Import Prelude Common Rlp Crypto Trie.

(** ** Nibbles *)

Definition is_nibble (x : Z) : Prop := 0 <= x < 16.

Definition nib (b : Z) : bytes := [b / 16; b mod 16].
Definition nibs (bs : bytes) : bytes := concat (map nib bs).

Lemma nibs_cons b bs : nibs (b :: bs) = b / 16 :: b mod 16 :: nibs bs.
Proof. done. Qed.

Lemma nibs_nibbles bs : Forall is_byte bs -> Forall is_nibble (nibs bs).
Proof.
  induction 1 as [|b bs Hb _ IH]; [apply Forall_nil_2|]. rewrite nibs_cons. unfold is_byte in Hb.
  pose proof (Z.mod_pos_bound b 16 ltac:(lia)). pose proof (Z.div_pos b 16 ltac:(lia) ltac:(lia)).
  pose proof (Z.div_lt_upper_bound b 16 16 ltac:(lia) ltac:(lia)).
  repeat apply Forall_cons_2; [unfold is_nibble; lia..|done].
Qed.

Lemma length_nibs bs : length (nibs bs) = (2 * length bs)%nat.
Proof. induction bs as [|b bs IH]; [done|]. rewrite nibs_cons. cbn [length]. lia. Qed.

Lemma nibs_inj bs bs' : nibs bs = nibs bs' -> bs = bs'.
Proof.
  revert bs'. induction bs as [|b bs IH]; intros [|b' bs'] E; [done..|].
  rewrite !nibs_cons in E. injection E as E1 E2 E3. rewrite (IH _ E3). f_equal.
  rewrite (Z.div_mod b 16), (Z.div_mod b' 16) by lia. congruence.
Qed.

(** Two nibbles in a byte. *)
Lemma nibble_or a b : is_nibble a -> is_nibble b -> Z.lor (u8 (Z.shiftl a 4)) b = a * 16 + b.
Proof.
  unfold is_nibble. intros Ha Hb. rewrite Z.shiftl_mul_pow2 by lia. change (2 ^ 4) with 16.
  unfold u8. rewrite Z.mod_small by lia.
  assert (Z.land (a * 16) b = 0) as Hl.
  { apply Z.bits_inj'. intros n Hn. rewrite Z.land_spec, Z.bits_0.
    destruct (Z.lt_ge_cases n 4) as [H|H]; [change 16 with (2 ^ 4); by rewrite Z.mul_pow2_bits_low|].
    rewrite (Z.bits_above_log2 b); [apply andb_false_r|lia|].
    destruct (Z.eq_dec b 0) as [->|]; [cbn; lia|].
    assert (Z.log2 b < 4) by (apply Z.log2_lt_pow2; [lia|change (2 ^ 4) with 16; lia]). lia. }
  rewrite <- Z.lxor_lor, <- Z.add_nocarry_lxor by done. done.
Qed.

Lemma decodeNibbles_nibs bs : Forall is_byte bs -> decodeNibbles (nibs bs) = Some bs.
Proof.
  induction 1 as [|b bs Hb Hbs IH]; [done|]. rewrite nibs_cons. cbn [decodeNibbles]. rewrite IH.
  pose proof (nibs_nibbles [b] (Forall_cons_2 _ _ _ Hb (Forall_nil_2 _))) as Hn. rewrite nibs_cons in Hn.
  apply Forall_cons in Hn as [H1 Hn]. apply Forall_cons in Hn as [H2 _]. rewrite nibble_or by done.
  do 2 f_equal. rewrite (Z.div_mod b 16) at 3 by lia. lia.
Qed.

(** Nibbles of even length are those of some bytes. *)
Lemma even_nibs ns :
  Forall is_nibble ns -> Nat.Even (length ns) -> exists bs, Forall is_byte bs /\ ns = nibs bs.
Proof.
  intros Hn [m Hm]. revert ns Hn Hm. induction m as [|m IH]; intros ns Hn Hm.
  - exists []. split; [apply Forall_nil_2|]. destruct ns; [done|cbn in Hm; lia].
  - destruct ns as [|a [|b ns]]; [cbn in Hm; lia..|]. apply Forall_cons in Hn as [Ha Hn].
    apply Forall_cons in Hn as [Hb Hn]. destruct (IH ns Hn) as (bs & Hbs & ->); [cbn in Hm; lia|].
    unfold is_nibble in *. exists (a * 16 + b :: bs). split; [apply Forall_cons_2; [unfold is_byte; lia|done]|].
    rewrite nibs_cons. rewrite Z.div_add_l, (Z.div_small b), Z.add_0_r by lia.
    by rewrite Z.add_comm, Z.mod_add, Z.mod_small by lia.
Qed.

(** ** Hex keys *)

(** Hex keys end with the terminator 16. *)
Definition hexkey (k : bytes) : Prop := exists ns, k = ns ++ [16] /\ Forall is_nibble ns.

Lemma keybytesToHex_nibs str : keybytesToHex str = nibs str ++ [16].
Proof. done. Qed.

Lemma keybytesToHex_hexkey str : Forall is_byte str -> hexkey (keybytesToHex str).
Proof. intros H. exists (nibs str). split; [done|]. by apply nibs_nibbles. Qed.

Lemma keybytesToHex_inj a b : keybytesToHex a = keybytesToHex b -> a = b.
Proof. rewrite !keybytesToHex_nibs. intros E. apply app_inj_tail in E as [E _]. by apply nibs_inj. Qed.

Lemma last_snoc_term ns : hasTerm (ns ++ [16]) = true.
Proof. unfold hasTerm. by rewrite last_snoc. Qed.

Lemma hasTerm_nibbles ns : Forall is_nibble ns -> hasTerm ns = false.
Proof.
  intros H. unfold hasTerm. destruct (last ns) as [x|] eqn:E; [|done].
  apply last_Some in E as (l & ->). apply Forall_app in H as [_ H]. apply Forall_cons in H as [H _].
  unfold is_nibble in H. apply Z.eqb_neq. lia.
Qed.

Lemma take_snoc {A} (l : list A) x : take (length (l ++ [x]) - 1) (l ++ [x]) = l.
Proof. rewrite length_app. cbn [length]. replace (length l + 1 - 1)%nat with (length l) by lia. apply take_app_length. Qed.

Lemma even_land n : Z.land (Z.of_nat n) 1 = if Nat.even n then 0 else 1.
Proof.
  change 1 with (Z.ones 1) at 1. rewrite Z.land_ones by lia. change (2 ^ 1) with 2.
  destruct (Nat.even n) eqn:E.
  - apply Nat.even_spec in E as [m ->]. rewrite Nat2Z.inj_mul, Z.mul_comm. apply Z.mod_mul. lia.
  - assert (Nat.odd n = true) as Ho by (unfold Nat.odd; by rewrite E).
    apply Nat.odd_spec in Ho as [m ->]. rewrite Nat2Z.inj_add, Nat2Z.inj_mul.
    rewrite Z.add_comm, Z.mul_comm, Z.mod_add by lia. done.
Qed.

Lemma hexToKeybytes_nibs str : Forall is_byte str -> hexToKeybytes (keybytesToHex str) = Ok str.
Proof.
  intros H. rewrite keybytesToHex_nibs. unfold hexToKeybytes. rewrite last_snoc_term, take_snoc.
  unfold zlen. rewrite even_land, length_nibs. assert (Nat.even (2 * length str) = true) as ->.
  { apply Nat.even_spec. by exists (length str). }
  cbn [negb]. change (0 =? 0) with true. cbn iota. by rewrite decodeNibbles_nibs.
Qed.

(** ** Compact keys *)

(** The parts of a path: an optional first nibble, pairs of nibbles, an optional
    terminator. *)
Definition odd_part (o : option Z) : bytes := match o with Some x => [x] | None => [] end.
Definition term_part (t : bool) : bytes := if t then [16] else [].
Definition compact_flag (o : option Z) (t : bool) : Z :=
  (if t then 32 else 0) + (match o with Some x => 16 + x | None => 0 end).

Lemma hexToCompact_parts o bs t :
  (forall x, o = Some x -> is_nibble x) -> Forall is_byte bs ->
  hexToCompact (odd_part o ++ nibs bs ++ term_part t) = Some (compact_flag o t :: bs).
Proof.
  intros Ho Hbs. pose proof (nibs_nibbles bs Hbs) as Hn.
  assert (Forall is_nibble (odd_part o ++ nibs bs)) as Hall.
  { apply Forall_app. split; [|done]. destruct o as [x|]; [|apply Forall_nil_2].
    apply Forall_cons_2; [by apply Ho|apply Forall_nil_2]. }
  rewrite app_assoc. unfold hexToCompact.
  assert (hasTerm ((odd_part o ++ nibs bs) ++ term_part t) = t /\
          (if t then take (length ((odd_part o ++ nibs bs) ++ term_part t) - 1) ((odd_part o ++ nibs bs) ++ term_part t)
           else (odd_part o ++ nibs bs) ++ term_part t) = odd_part o ++ nibs bs) as [Et Eh].
  { destruct t; cbn [term_part]; [by rewrite last_snoc_term, take_snoc|].
    rewrite app_nil_r. by rewrite hasTerm_nibbles. }
  rewrite Et, Eh. unfold zlen. rewrite even_land, length_app, length_nibs.
  destruct o as [x|]; cbn [odd_part app length].
  - assert (Nat.even (1 + 2 * length bs) = false) as ->.
    { rewrite Nat.even_add, Nat.even_mul. done. }
    cbn iota. change (1 =? 1) with true. cbn iota. rewrite decodeNibbles_nibs by done. do 2 f_equal.
    specialize (Ho x eq_refl). pose proof (nibble_or (if t then 3 else 1) x ltac:(destruct t; unfold is_nibble; lia) Ho) as E.
    unfold compact_flag. destruct t.
    + change (u8 (Z.shiftl 3 4)) with 48 in E. change (Z.lor 48 x = 32 + (16 + x)). lia.
    + change (u8 (Z.shiftl 1 4)) with 16 in E. change (Z.lor 16 x = 0 + (16 + x)). lia.
  - assert (Nat.even (0 + 2 * length bs) = true) as -> by (rewrite Nat.even_add, Nat.even_mul; done).
    cbn iota. change (0 =? 1) with false. cbn iota. rewrite decodeNibbles_nibs by done.
    by destruct t.
Qed.

Lemma compactToHex_parts o bs t :
  (forall x, o = Some x -> is_nibble x) ->
  compactToHex (compact_flag o t :: bs) = odd_part o ++ nibs bs ++ term_part t.
Proof.
  intros Ho. unfold compactToHex. rewrite keybytesToHex_nibs, nibs_cons. cbn [app].
  assert (exists h, compact_flag o t / 16 = h /\ (h <? 2) = negb t /\ Z.land h 1 = match o with Some _ => 1 | None => 0 end /\
            (forall x, o = Some x -> compact_flag o t mod 16 = x)) as (h & -> & E2 & El & Em).
  { unfold compact_flag. destruct o as [x|].
    - specialize (Ho x eq_refl). unfold is_nibble in Ho. eexists. split; [done|].
      replace ((if t then 32 else 0) + (16 + x)) with ((if t then 3 else 1) * 16 + x) by (destruct t; lia).
      rewrite Z.div_add_l, Z.div_small, Z.add_0_r by lia. split_and!; [by destruct t..|].
      intros y [= <-]. rewrite Z.add_comm, Z.mod_add, Z.mod_small by lia. done.
    - destruct t; (eexists; split; [done|]; split_and!; done). }
  rewrite E2, El. destruct t; cbn [negb term_part].
  - destruct o as [x|]; cbn [odd_part app]; [by rewrite (Em x eq_refl)|done].
  - assert (forall a b : Z, take (length (a :: b :: nibs bs ++ [16]) - 1) (a :: b :: nibs bs ++ [16]) = a :: b :: nibs bs) as Etk.
    { intros a b. change (a :: b :: nibs bs ++ [16]) with ((a :: b :: nibs bs) ++ [16]). apply take_snoc. }
    rewrite Etk, app_nil_r. destruct o as [x|]; cbn [odd_part app]; [by rewrite (Em x eq_refl)|done].
Qed.

(** Every path has such parts. *)
Lemma path_parts (ns : bytes) :
  Forall is_nibble ns ->
  exists o bs, (forall x, o = Some x -> is_nibble x) /\ Forall is_byte bs /\ ns = odd_part o ++ nibs bs.
Proof.
  intros Hn. destruct (Nat.Even_or_Odd (length ns)) as [He|[m Hm]].
  - destruct (even_nibs ns Hn He) as (bs & Hbs & ->). exists None, bs. by split_and!.
  - destruct ns as [|x ns]; [cbn in Hm; lia|]. apply Forall_cons in Hn as [Hx Hn].
    destruct (even_nibs ns Hn) as (bs & Hbs & ->); [exists m; cbn in Hm; lia|].
    exists (Some x), bs. split_and!; [|done|done]. by intros y [= <-].
Qed.

(** A path of the trie: nibbles, with a terminator at the end of a key. *)
Definition path (k : bytes) : Prop := exists ns t, k = ns ++ term_part t /\ Forall is_nibble ns.

Lemma hexToCompact_path k :
  path k -> exists c, hexToCompact k = Some c /\ compactToHex c = k /\ Forall is_byte c /\ c <> [].
Proof.
  intros (ns & t & -> & Hn). destruct (path_parts ns Hn) as (o & bs & Ho & Hbs & ->).
  rewrite <- app_assoc. exists (compact_flag o t :: bs). split; [by apply hexToCompact_parts|].
  split; [by apply compactToHex_parts|]. split; [|done]. apply Forall_cons_2; [|done].
  unfold compact_flag, is_byte. destruct o as [x|]; [specialize (Ho x eq_refl); unfold is_nibble in Ho|]; destruct t; lia.
Qed.

(** ** The in-place conversion *)

Lemma zget_nat {A} (l : list A) (i : nat) : zget l (Z.of_nat i) = l !! i.
Proof. unfold zget. destruct (Z.leb_spec 0 (Z.of_nat i)); [|lia]. by rewrite Nat2Z.id. Qed.

Lemma zput_nat {A} (l : list A) (i : nat) x : (i < length l)%nat -> zput l (Z.of_nat i) x = Some (<[i := x]> l).
Proof. intros H. rewrite zput_Some by (unfold zlen; lia). by rewrite Nat2Z.id. Qed.

(** The loop reads ahead of what it writes. *)
Lemma compactInPlace_loop_ok fuel hex hexLen (bi ni : nat) bs :
  Forall is_byte bs -> (length bs < fuel)%nat -> (ni + 2 * length bs = hexLen)%nat -> (hexLen <= length hex)%nat ->
  (1 <= bi <= ni + 1)%nat ->
  (forall j, (j < 2 * length bs)%nat -> hex !! (ni + j)%nat = nibs bs !! j) ->
  exists hex', compactInPlace_loop fuel hex (Z.of_nat hexLen) (Z.of_nat bi) (Z.of_nat ni) = Some hex' /\
    length hex' = length hex /\ take bi hex' = take bi hex /\ take (length bs) (drop bi hex') = bs.
Proof.
  intros Hbs. revert fuel hex bi ni. induction Hbs as [|b bs Hb Hbs IH]; intros fuel hex bi ni Hf Hl Hle Hbi Hread;
    (destruct fuel as [|fuel]; [cbn in Hf; lia|]); cbn [compactInPlace_loop length] in *.
  - destruct (Z.ltb_spec (Z.of_nat ni) (Z.of_nat hexLen)); [lia|]. by exists hex.
  - destruct (Z.ltb_spec (Z.of_nat ni) (Z.of_nat hexLen)); [|lia].
    replace (Z.of_nat ni + 1) with (Z.of_nat (ni + 1)) by lia. rewrite !zget_nat.
    pose proof (Hread 0%nat ltac:(lia)) as E0. pose proof (Hread 1%nat ltac:(lia)) as E1.
    rewrite nibs_cons in E0, E1. rewrite Nat.add_0_r in E0. cbn in E0, E1. rewrite E0, E1.
    pose proof (nibs_nibbles [b] (Forall_cons_2 _ _ _ Hb (Forall_nil_2 _))) as Hn. rewrite nibs_cons in Hn.
    apply Forall_cons in Hn as [H1 Hn]. apply Forall_cons in Hn as [H2 _].
    rewrite nibble_or, zput_nat by (done || lia).
    replace (b / 16 * 16 + b mod 16) with b by (pose proof (Z.div_mod b 16 ltac:(lia)); lia).
    replace (Z.of_nat bi + 1) with (Z.of_nat (bi + 1)) by lia.
    replace (Z.of_nat ni + 2) with (Z.of_nat (ni + 2)) by lia.
    destruct (IH fuel (<[bi := b]> hex) (bi + 1)%nat (ni + 2)%nat) as (hex' & E & Hlen & Ht & Hd); [lia|lia|rewrite length_insert; lia|lia|..].
    { intros j Hj. rewrite list_lookup_insert_ne by lia. specialize (Hread (j + 2)%nat ltac:(lia)).
      rewrite nibs_cons in Hread. replace (ni + 2 + j)%nat with (ni + (j + 2))%nat by lia. rewrite Hread.
      by replace (j + 2)%nat with (S (S j)) by lia. }
    exists hex'. rewrite length_insert in Hlen. split_and!; [done|done|..].
    + apply (f_equal (take bi)) in Ht. rewrite !take_take, Nat.min_l in Ht by lia.
      rewrite Ht. apply take_insert_ge. lia.
    + assert (hex' !! bi = Some b) as Eb.
      { assert (take (bi + 1) hex' !! bi = Some b) as Eb'.
        { rewrite Ht, lookup_take_lt by lia. apply list_lookup_insert_eq. lia. }
        by rewrite lookup_take_lt in Eb' by lia. }
      rewrite (drop_S _ _ _ Eb). cbn [take]. f_equal. by replace (S bi) with (bi + 1)%nat by lia.
Qed.

Lemma hexToCompactInPlace_parts o bs t :
  (forall x, o = Some x -> is_nibble x) -> Forall is_byte bs -> odd_part o ++ nibs bs ++ term_part t <> [] ->
  exists hex', hexToCompactInPlace (odd_part o ++ nibs bs ++ term_part t) = Some (1 + zlen bs, hex') /\
               take (1 + length bs) hex' = compact_flag o t :: bs.
Proof.
  intros Ho Hbs Hne. set (hex := odd_part o ++ nibs bs ++ term_part t) in *.
  set (ni := match o with Some _ => 1%nat | None => 0%nat end).
  set (hexLen := (ni + 2 * length bs)%nat).
  assert (length hex = hexLen + length (term_part t))%nat as Hlen.
  { unfold hex, hexLen, ni. rewrite !length_app, length_nibs. by destruct o; cbn; lia. }
  assert (match zget hex (zlen hex - 1) with Some x => x =? 16 | None => false end = t) as Et.
  { assert (0 < length hex)%nat as Hpos by (destruct hex; [done|cbn; lia]).
    replace (zlen hex - 1) with (Z.of_nat (length hex - 1)) by (unfold zlen; lia). rewrite zget_nat.
    replace (length hex - 1)%nat with (Nat.pred (length hex)) by lia. rewrite <- last_lookup.
    change (hasTerm hex = t). unfold hex. rewrite app_assoc. destruct t; cbn [term_part]; [apply last_snoc_term|].
    rewrite app_nil_r. apply hasTerm_nibbles, Forall_app. split; [|by apply nibs_nibbles].
    destruct o as [x|]; [apply Forall_cons_2; [by apply Ho|apply Forall_nil_2]|apply Forall_nil_2]. }
  unfold hexToCompactInPlace. rewrite Et.
  assert ((if t then zlen hex - 1 else zlen hex) = Z.of_nat hexLen) as ->.
  { unfold zlen. rewrite Hlen. destruct t; cbn; lia. }
  rewrite even_land. assert (Nat.even hexLen = match o with Some _ => false | None => true end) as ->.
  { unfold hexLen, ni. rewrite Nat.even_add, Nat.even_mul. by destruct o. }
  assert (exists fb, (if (match o with Some _ => 1 | None => 0 end) =? 1
    then match zget hex 0 with
         | Some x => Some (Z.lor (Z.lor (if t then Z.shiftl 1 5 else 0) (Z.shiftl 1 4)) x, 1)
         | None => None end
    else Some (if t then Z.shiftl 1 5 else 0, 0)) = Some (fb, Z.of_nat ni) /\ fb = compact_flag o t) as (fb & Efb & Ec).
  { unfold ni. destruct o as [x|]; cbn.
    - eexists. split; [done|]. specialize (Ho x eq_refl).
      pose proof (nibble_or (if t then 3 else 1) x ltac:(destruct t; unfold is_nibble; lia) Ho) as E.
      unfold compact_flag. destruct t.
      + change (u8 (Z.shiftl 3 4)) with 48 in E. change (Z.lor 48 x = 32 + (16 + x)). lia.
      + change (u8 (Z.shiftl 1 4)) with 16 in E. change (Z.lor 16 x = 0 + (16 + x)). lia.
    - eexists. split; [done|]. by destruct t. }
  replace (if (match o with Some _ => false | None => true end) then 0 else 1)
    with (match o with Some _ => 1 | None => 0 end) by (by destruct o).
  rewrite Efb. destruct (compactInPlace_loop_ok (S (length hex)) hex hexLen 1 ni bs) as (hex' & E & Hl' & Ht & Hd);
    [done|lia|done|lia|unfold ni; destruct o; lia| |].
  { intros j Hj. assert (hex !! (ni + j)%nat = (nibs bs ++ term_part t) !! j) as -> by (by unfold hex, ni; destruct o).
    apply lookup_app_l. rewrite length_nibs. lia. }
  change (Z.of_nat 1) with 1 in E. rewrite E. assert (0 < length hex')%nat as Hpos by (rewrite Hl'; destruct hex; [done|cbn; lia]).
  change 0 with (Z.of_nat 0) at 1. rewrite zput_nat by done.
  eexists. split; [do 2 f_equal|].
  - replace (Z.of_nat hexLen) with (zlen bs * 2 + Z.of_nat ni) by (unfold hexLen, zlen; lia).
    rewrite Z.div_add_l, Z.div_small by (unfold ni; destruct o; lia). lia.
  - destruct hex' as [|y hex']; [cbn in Hpos; lia|]. cbn in Hd |- *. rewrite drop_0 in Hd. by rewrite Hd, Ec.
Qed.

(** Key encodings.  Converting a key to hex and back gives the key; hex and
    compact form of a path are converted into each other without loss, so that
    different paths have different compact keys; and the in-place conversion
    leaves exactly the compact key in front of its slice. *)
Theorem key_encodings_roundtrip :
  (forall str, Forall is_byte str -> hexToKeybytes (keybytesToHex str) = Ok str) /\
  (forall k, path k -> exists c, hexToCompact k = Some c /\ compactToHex c = k) /\
  (forall k, path k -> k <> [] ->
     exists n hex', hexToCompactInPlace k = Some (n, hex') /\ hexToCompact k = Some (take (Z.to_nat n) hex')).
Proof.
  split; [apply hexToKeybytes_nibs|]. split.
  - intros k Hk. destruct (hexToCompact_path k Hk) as (c & E & Ec & _). eauto.
  - intros k (ns & t & -> & Hn) Hne. destruct (path_parts ns Hn) as (o & bs & Ho & Hbs & ->). rewrite <- app_assoc in *.
    destruct (hexToCompactInPlace_parts o bs t Ho Hbs Hne) as (hex' & E & Ht). exists (1 + zlen bs), hex'.
    split; [done|]. rewrite hexToCompact_parts by done. unfold zlen.
    replace (Z.to_nat (1 + Z.of_nat (length bs))) with (1 + length bs)%nat by lia. by rewrite Ht.
Qed.
