(* ===== verification/TrieSpec.v ===== *)
(** * Tries as finite maps

    The tree a trie stands for once all its nodes are loaded: what it maps a key
    to, and the shape every trie has (no node that could be merged with another).
    A tree of this shape is determined by the map it represents. *)

From Stdlib Require Import ZArith Lia.
From S2P Require Import Prelude Common Rlp Crypto Trie TrieEnc.

(** ** Trees *)

Inductive tree :=
| TNil
| TFull (cs : list tree)
| TShort (key : bytes) (c : tree)
| TVal (v : bytes).

Section tree_ind.
Variable P : tree -> Prop.
Hypothesis HNil : P TNil.
Hypothesis HFull : forall cs, Forall P cs -> P (TFull cs).
Hypothesis HShort : forall k c, P c -> P (TShort k c).
Hypothesis HVal : forall v, P (TVal v).

Fixpoint tree_nested_ind (t : tree) : P t :=
  match t with
  | TNil => HNil
  | TFull cs =>
      HFull cs ((fix all (l : list tree) : Forall P l :=
                   match l with
                   | [] => Forall_nil_2 _
                   | t :: l => Forall_cons_2 _ _ _ (tree_nested_ind t) (all l)
                   end) cs)
  | TShort k c => HShort k c (tree_nested_ind c)
  | TVal v => HVal v
  end.
End tree_ind.

(** The rest of [key] after the prefix [p]. *)
Fixpoint strip (p key : bytes) : option bytes :=
  match p, key with
  | [], _ => Some key
  | x :: p, y :: key => if x =? y then strip p key else None
  | _ :: _, [] => None
  end.

Fixpoint tget (t : tree) (key : bytes) : option bytes :=
  match t with
  | TNil => None
  | TVal v => match key with [] => Some v | _ => None end
  | TShort p c => match strip p key with Some rest => tget c rest | None => None end
  | TFull cs =>
      match key with
      | [] => None
      | i :: rest =>
          if (0 <=? i)
          then (fix nth (cs : list tree) (n : nat) : option bytes :=
                  match cs, n with
                  | [], _ => None
                  | c :: _, O => tget c rest
                  | _ :: cs, S n => nth cs n
                  end) cs (Z.to_nat i)
          else None
      end
  end.

Lemma tget_full cs key :
  tget (TFull cs) key =
  match key with [] => None | i :: rest => match zget cs i with Some c => tget c rest | None => None end end.
Proof.
  cbn [tget]. destruct key as [|i rest]; [done|]. unfold zget. destruct (0 <=? i); [|done].
  generalize (Z.to_nat i). induction cs as [|c cs IH]; intros [|n]; cbn; auto.
Qed.

Lemma strip_app p key rest : strip p key = Some rest <-> key = p ++ rest.
Proof.
  revert key. induction p as [|x p IH]; intros key; cbn.
  - split; [by intros [= ->]|by intros ->].
  - destruct key as [|y key]; [done|]. destruct (Z.eqb_spec x y) as [->|Hne].
    + rewrite IH. split; [by intros ->|by intros [= ->]].
    + split; [done|]. intros [= -> _]. done.
Qed.

Lemma strip_self p rest : strip p (p ++ rest) = Some rest.
Proof. by apply strip_app. Qed.

(** ** Shape *)

Definition is_val (t : tree) : Prop := exists v, t = TVal v /\ v <> [].

Definition two_children (cs : list tree) : Prop :=
  exists i j c d, i <> j /\ cs !! i = Some c /\ cs !! j = Some d /\ c <> TNil /\ d <> TNil.

(** Leaves have keys with a terminator and values that are not empty, extensions
    lead to full nodes, full nodes have at least two children and values only in
    the last place. *)
Fixpoint wft (t : tree) : Prop :=
  match t with
  | TNil | TVal _ => False
  | TShort k c =>
      match c with
      | TVal v => hexkey k /\ v <> []
      | TFull _ => k <> [] /\ Forall is_nibble k /\ wft c
      | _ => False
      end
  | TFull cs =>
      length cs = 17%nat /\
      foldr and True (map (fun c => c = TNil \/ is_val c \/ wft c) cs) /\
      (forall i c, cs !! i = Some c -> is_val c <-> i = 16%nat /\ c <> TNil) /\
      two_children cs
  end.

(** What can stand at a place of the trie that is reached with [k] left of the
    key. *)
Definition slot (t : tree) (k : bytes) : Prop :=
  hexkey k /\ (t = TNil \/ wft t) \/ k = [] /\ (t = TNil \/ is_val t).

Definition slotkey (k : bytes) : Prop := hexkey k \/ k = [].

Lemma hexkey_cons i k : hexkey (i :: k) <-> (is_nibble i /\ hexkey k) \/ (i = 16 /\ k = []).
Proof.
  split.
  - intros (ns & E & Hn). destruct ns as [|x ns]; cbn in E; injection E as -> ->; [by right|left].
    apply Forall_cons in Hn as [Hx Hn]. split; [done|]. by exists ns.
  - intros [[Hi (ns & -> & Hn)]|[-> ->]]; [exists (i :: ns)|exists []]; split; try done.
    by apply Forall_cons_2.
Qed.

Lemma hexkey_nonempty k : hexkey k -> k <> [].
Proof. intros (ns & -> & _) E. by apply app_eq_nil in E as [_ ?]. Qed.

(** The terminator is at the end only. *)
Lemma hexkey_app p k : Forall is_nibble p -> hexkey (p ++ k) <-> hexkey k.
Proof.
  intros Hp. induction Hp as [|x p Hx Hp IH]; [done|]. cbn [app]. rewrite hexkey_cons, IH.
  unfold is_nibble in *. split; [intros [[_ ?]|[-> _]]; [done|lia]|auto].
Qed.

Lemma hexkey_prefix a b : hexkey a -> hexkey (a ++ b) -> b = [].
Proof.
  intros (ns & -> & Hn). rewrite <- app_assoc, hexkey_app by done. cbn [app]. rewrite hexkey_cons.
  unfold is_nibble. intros [[? _]|[_ ?]]; [lia|done].
Qed.

Lemma full_child cs i c : wft (TFull cs) -> cs !! i = Some c ->
  (i < 17)%nat /\ (c = TNil \/ (i = 16%nat /\ is_val c) \/ ((i < 16)%nat /\ wft c)).
Proof.
  intros (Hlen & Hc & Hv & _) E. pose proof (lookup_lt_Some _ _ _ E) as Hi. rewrite Hlen in Hi. split; [done|].
  assert (c = TNil \/ is_val c \/ wft c) as [->|[H|H]].
  { apply foldr_and_Forall in Hc. rewrite Forall_lookup in Hc. by eapply Hc. }
  - by left.
  - right. left. split; [|done]. by apply (Hv i c E).
  - right. right. split; [|done]. destruct (decide (i = 16%nat)) as [->|]; [|lia].
    exfalso. assert (is_val c) as (v & -> & _); [|done]. apply (Hv 16%nat c E). split; [done|]. by intros ->.
Qed.

Lemma slot_nil k : slotkey k -> slot TNil k.
Proof. intros [H|H]; [left|right]; auto. Qed.

Lemma slot_slotkey t k : slot t k -> slotkey k.
Proof. intros [[H _]|[H _]]; [by left|by right]. Qed.

Lemma slot_full cs i k c : wft (TFull cs) -> hexkey (i :: k) -> zget cs i = Some c -> slot c k.
Proof.
  intros Hw Hk E. unfold zget in E. destruct (Z.leb_spec 0 i); [|done].
  destruct (full_child _ _ _ Hw E) as [Hi Hc]. apply hexkey_cons in Hk as [[Hn Hk]|[-> ->]].
  - left. split; [done|]. unfold is_nibble in Hn. destruct Hc as [->|[[Hi' _]|[_ Hc]]]; [by left|lia|by right].
  - right. split; [done|]. destruct Hc as [->|[[_ Hc]|[Hi' _]]]; [by left|by right|change (Z.to_nat 16) with 16%nat in Hi'; lia].
Qed.

Lemma full_lookup cs i k : wft (TFull cs) -> hexkey (i :: k) -> exists c, zget cs i = Some c /\ slot c k.
Proof.
  intros Hw Hk. destruct (zget_Some cs i) as [c E].
  { destruct Hw as (Hlen & _). unfold zlen. rewrite Hlen. apply hexkey_cons in Hk as [[Hn _]|[-> _]]; [unfold is_nibble in Hn|]; lia. }
  exists c. split; [done|]. by eapply slot_full.
Qed.

Lemma slot_short p c k rest : wft (TShort p c) -> hexkey k -> k = p ++ rest -> slot c rest.
Proof.
  intros Hw Hk ->. cbn [wft] in Hw. destruct c as [|cs|?|v]; try done.
  - destruct Hw as (_ & Hp & Hw). left. split; [by apply hexkey_app in Hk|by right].
  - destruct Hw as [Hp Hv]. right. split; [by apply hexkey_prefix in Hk|]. right. by exists v.
Qed.

(** ** A tree has a key *)

Lemma wft_nonempty t : wft t -> exists k v, hexkey k /\ tget t k = Some v.
Proof.
  induction t as [|cs IH|p c IH|v] using tree_nested_ind; intros Hw; [done|..|done].
  - pose proof Hw as (_ & _ & _ & i & _ & c & _ & _ & Ec & _ & Hc & _).
    destruct (full_child _ _ _ Hw Ec) as [Hi [->|[[-> (v & -> & Hv)]|[Hi' Hcw]]]]; [done|..].
    + exists [16], v. split; [by exists []|]. rewrite tget_full.
      change (zget cs 16) with (zget cs (Z.of_nat 16)). by rewrite zget_nat, Ec.
    + rewrite Forall_lookup in IH. destruct (IH i c Ec Hcw) as (k & v & Hk & E). exists (Z.of_nat i :: k), v.
      split; [apply hexkey_cons; left; split; [unfold is_nibble; lia|done]|].
      by rewrite tget_full, zget_nat, Ec.
  - cbn [wft] in Hw. destruct c as [|cs|?|v]; try done.
    + destruct Hw as (_ & Hp & Hw). destruct (IH Hw) as (k & v & Hk & E). exists (p ++ k), v.
      split; [by apply hexkey_app|]. cbn [tget]. by rewrite strip_self.
    + destruct Hw as [Hp Hv]. exists p, v. split; [done|]. cbn [tget]. rewrite <- (app_nil_r p) at 2.
      by rewrite strip_self.
Qed.

(** The keys of a full node start with two different nibbles at least. *)
Lemma full_two_keys cs :
  wft (TFull cs) ->
  exists i j k k' v v', i <> j /\ hexkey (i :: k) /\ hexkey (j :: k') /\
    tget (TFull cs) (i :: k) = Some v /\ tget (TFull cs) (j :: k') = Some v'.
Proof.
  intros Hw. pose proof Hw as (_ & _ & _ & i & j & c & d & Hij & Ec & Ed & Hc & Hd).
  assert (forall n e, cs !! n = Some e -> e <> TNil ->
            exists k v, hexkey (Z.of_nat n :: k) /\ tget (TFull cs) (Z.of_nat n :: k) = Some v) as H.
  { intros n e E He. destruct (full_child _ _ _ Hw E) as [Hn Hcase].
    assert (zget cs (Z.of_nat n) = Some e) as Ez by (by rewrite zget_nat).
    destruct Hcase as [->|[[-> (v & -> & Hv)]|[Hn' Hew]]]; [done|..].
    - exists [], v. split; [by exists []|]. by rewrite tget_full, Ez.
    - destruct (wft_nonempty e Hew) as (k & v & Hk & Ek). exists k, v.
      split; [apply hexkey_cons; left; split; [unfold is_nibble; lia|done]|]. by rewrite tget_full, Ez. }
  destruct (H i c Ec Hc) as (k & v & Hk & E). destruct (H j d Ed Hd) as (k' & v' & Hk' & E').
  exists (Z.of_nat i), (Z.of_nat j), k, k', v, v'. split_and!; try done. lia.
Qed.

(** ** Trees are determined by their content *)

(** Two trees that give every hex key the same value. *)
Definition same_content (t t' : tree) : Prop := forall k, hexkey k -> tget t k = tget t' k.

Lemma short_keys p c k v : tget (TShort p c) k = Some v -> exists rest, k = p ++ rest /\ tget c rest = Some v.
Proof.
  cbn [tget]. destruct (strip p k) as [rest|] eqn:E; [|done]. intros Hv. apply strip_app in E. eauto.
Qed.

(** A full node is not a short node. *)
Lemma short_not_full p c cs : wft (TShort p c) -> wft (TFull cs) -> ~ same_content (TShort p c) (TFull cs).
Proof.
  intros Hs Hf He. destruct (full_two_keys cs Hf) as (i & j & k & k' & v & v' & Hij & Hk & Hk' & E & E').
  rewrite <- He in E, E' by done. apply short_keys in E as (r & Er & _). apply short_keys in E' as (r' & Er' & _).
  assert (p <> []) as Hp.
  { cbn [wft] in Hs. destruct c; try done; [by destruct Hs|]. destruct Hs as [Hs _]. by apply hexkey_nonempty. }
  destruct p as [|x p]; [done|]. injection Er as -> _. injection Er' as -> _. done.
Qed.

(** The key of an extension is the longest common prefix of the keys below. *)
Lemma ext_prefix p cs q c' :
  wft (TShort p (TFull cs)) -> wft (TShort q c') -> same_content (TShort p (TFull cs)) (TShort q c') ->
  exists r, p = q ++ r.
Proof.
  intros (Hne & Hp & Hf) Hq He. destruct (full_two_keys cs Hf) as (i & j & k & k' & v & v' & Hij & Hk & Hk' & E & E').
  assert (forall i k v, hexkey (i :: k) -> tget (TFull cs) (i :: k) = Some v ->
            exists r, p ++ i :: k = q ++ r) as H.
  { intros i0 k0 v0 Hk0 E0. assert (tget (TShort p (TFull cs)) (p ++ i0 :: k0) = Some v0) as E1
      by (cbn [tget]; by rewrite strip_self). rewrite He in E1 by (by apply hexkey_app).
    apply short_keys in E1 as (r & Er & _). eauto. }
  destruct (H i k v Hk E) as (r & Er). destruct (H j k' v' Hk' E') as (r' & Er').
  clear - Hij Er Er'. revert q r r' Er Er'. induction p as [|x p IH]; intros [|y q] r r' Er Er'; cbn in *.
  - by exists [].
  - injection Er as -> _. by injection Er' as -> _.
  - by exists (x :: p).
  - injection Er as -> Er. injection Er' as Er'. destruct (IH q r r' Er Er') as (s & ->). by exists s.
Qed.

Lemma app_same_length (p q r s : bytes) : p = q ++ r -> q = p ++ s -> p = q.
Proof.
  intros Ep Eq. rewrite Ep, <- app_assoc in Eq. rewrite <- (app_nil_r q) in Eq at 1. apply app_inv_head in Eq.
  symmetry in Eq. apply app_eq_nil in Eq as [-> _]. by rewrite app_nil_r in Ep.
Qed.

Lemma leaf_not_ext p v q cs : wft (TShort p (TVal v)) -> wft (TShort q (TFull cs)) ->
  ~ same_content (TShort p (TVal v)) (TShort q (TFull cs)).
Proof.
  intros Hl (Hne & Hq & Hf) He. destruct (full_two_keys cs Hf) as (i & j & k & k' & w & w' & Hij & Hk & Hk' & E & E').
  assert (forall i k w, hexkey (i :: k) -> tget (TFull cs) (i :: k) = Some w -> q ++ i :: k = p) as H.
  { intros i0 k0 w0 Hk0 E0. assert (tget (TShort q (TFull cs)) (q ++ i0 :: k0) = Some w0) as E1
      by (cbn [tget]; by rewrite strip_self). rewrite <- He in E1 by (by apply hexkey_app).
    apply short_keys in E1 as (r & Er & Ev). destruct r; [|done]. by rewrite app_nil_r in Er. }
  pose proof (H i k w Hk E) as E1. pose proof (H j k' w' Hk' E') as E2. rewrite <- E2 in E1.
  apply app_inv_head in E1. by injection E1 as ->.
Qed.

Lemma same_content_child cs ds i c d :
  same_content (TFull cs) (TFull ds) -> cs !! i = Some c -> ds !! i = Some d -> (i < 16)%nat -> same_content c d.
Proof.
  intros He Ec Ed Hi k Hk. specialize (He (Z.of_nat i :: k)). rewrite !tget_full, !zget_nat, Ec, Ed in He.
  apply He, hexkey_cons. left. split; [unfold is_nibble; lia|done].
Qed.

Lemma nil_content t : t = TNil \/ wft t -> same_content TNil t -> t = TNil.
Proof.
  intros [->|Hw] He; [done|]. destruct (wft_nonempty t Hw) as (k & v & Hk & E).
  specialize (He k Hk). cbn in He. congruence.
Qed.

Lemma tree_canonical t t' : wft t -> wft t' -> same_content t t' -> t = t'.
Proof.
  revert t'. induction t as [|cs IH|p c IH|v] using tree_nested_ind; intros t' Hw Hw' He; [done|..|done].
  - destruct t' as [|ds|q d|]; [done|..|done].
    2: { exfalso. eapply short_not_full; [exact Hw'|exact Hw|]. intros k Hk. symmetry. by apply He. }
    f_equal. apply list_eq. intros i. pose proof Hw as (Hl & _). pose proof Hw' as (Hl' & _).
    destruct (cs !! i) as [c|] eqn:Ec.
    2: { apply lookup_ge_None in Ec. symmetry. apply lookup_ge_None. lia. }
    destruct (lookup_lt_is_Some_2 ds i) as [d Ed]; [apply lookup_lt_Some in Ec; lia|]. rewrite Ed. f_equal.
    destruct (full_child _ _ _ Hw Ec) as [Hi Hc]. destruct (full_child _ _ _ Hw' Ed) as [_ Hd].
    destruct (decide (i = 16%nat)) as [->|Hne].
    + assert (hexkey [16]) as H16 by (by exists []). specialize (He [16] H16). rewrite !tget_full in He.
      change 16 with (Z.of_nat 16) in He. rewrite !zget_nat, Ec, Ed in He.
      destruct Hc as [->|[[_ (v & -> & _)]|[? _]]]; [| |lia]; (destruct Hd as [->|[[_ (w & -> & _)]|[? _]]]; [| |lia]);
        cbn in He; congruence.
    + pose proof (same_content_child _ _ _ _ _ He Ec Ed ltac:(lia)) as He'.
      destruct Hc as [->|[[-> _]|[_ Hc]]]; [|done|].
      { symmetry. apply nil_content; [|done]. destruct Hd as [?|[[? _]|[_ ?]]]; [by left|done|by right]. }
      destruct Hd as [->|[[-> _]|[_ Hd]]]; [|done|].
      { apply nil_content; [by right|]. intros k Hk. symmetry. by apply He'. }
      rewrite Forall_lookup in IH. by eapply IH.
  - destruct t' as [|ds|q d|]; [done|..|done].
    1: { exfalso. by eapply short_not_full. }
    assert (same_content (TShort q d) (TShort p c)) as He' by (intros k Hk; symmetry; by apply He).
    pose proof Hw as Hwc. pose proof Hw' as Hwd. cbn [wft] in Hwc, Hwd.
    destruct c as [|cs|?|v]; try done; (destruct d as [|ds|?|w]; try done).
    + destruct (ext_prefix _ _ _ _ Hw Hw' He) as (r & Er). destruct (ext_prefix _ _ _ _ Hw' Hw He') as (s & Es).
      pose proof (app_same_length _ _ _ _ Er Es) as ->. f_equal. apply IH; [by destruct Hwc as (_ & _ & ?)|by destruct Hwd as (_ & _ & ?)|].
      intros k Hk. destruct Hwc as (_ & Hp & _). specialize (He (q ++ k)). cbn [tget] in He. rewrite !strip_self in He.
      apply He. by apply hexkey_app.
    + exfalso. by apply (leaf_not_ext q w p cs).
    + exfalso. by apply (leaf_not_ext p v q ds).
    + destruct Hwc as [Hp _]. specialize (He p Hp). cbn [tget] in He. rewrite <- (app_nil_r p) in He at 2.
      rewrite strip_self in He. destruct (strip q p) as [r|] eqn:Eq; [|done]. destruct r; [|done]. injection He as ->.
      apply strip_app in Eq. rewrite app_nil_r in Eq. by rewrite Eq.
Qed.
