(* ===== verification/TrieRefine.v ===== *)
(** * The operations of the trie refine those of a finite map

    A node of the trie represents a tree ([Rep]): its unloaded parts through the
    database, its cached hashes being those of the tree.  Get, insert and delete
    on a node act on the tree like on a finite map, whatever parts of it are
    loaded. *)

From Stdlib Require Import ZArith Lia.
From S2P Require Import Prelude Common Rlp RlpSpec Crypto Trie TrieEnc TrieSpec.

Open Scope go_scope.

(** ** The hash of a tree *)

Section merkle.
Context {K : Keccak}.

Definition compact (k : bytes) : bytes := default [] (hexToCompact k).

(** How a parent refers to a child of encoding [e]: nodes of 32 bytes and more by
    their hash. *)
Definition node_ref (t : tree) (e : bytes) : bytes :=
  match t with
  | TNil | TVal _ => e
  | _ => if zlen e <? 32 then e else rlp_string (Keccak256 e)
  end.

(** The encoding of a node (Yellow Paper, Appendix D). *)
Fixpoint tenc (t : tree) : bytes :=
  match t with
  | TNil => rlp_string []
  | TVal v => rlp_string v
  | TShort k c => rlp_list (rlp_string (compact k) ++ node_ref c (tenc c))
  | TFull cs => rlp_list (concat (map (fun c => node_ref c (tenc c)) cs))
  end.

Definition tref (t : tree) : bytes := node_ref t (tenc t).

Definition thash (t : tree) : bytes := Keccak256 (tenc t).

(** Nodes of 32 bytes and more are referred to by their hash. *)
Definition hashed (t : tree) : bool :=
  match t with TNil | TVal _ => false | _ => negb (zlen (tenc t) <? 32) end.

(** Every loaded node that is referred to by its hash has it cached. *)
Inductive Cached : node -> tree -> Prop :=
| cached_nil : Cached nilNode TNil
| cached_val v : Cached (valueNode v) (TVal v)
| cached_hash h t : Cached (hashNode h) t
| cached_short k n t f :
    Cached n t -> (hash f = None -> hashed (TShort k t) = false) -> Cached (shortNode k n f) (TShort k t)
| cached_full cs ts f :
    Forall2 Cached cs ts -> (hash f = None -> hashed (TFull ts) = false) -> Cached (fullNode cs f) (TFull ts).

(** ** Representation *)

Section store.
(** The trees in the database, by hash. *)
Context (store : Hash -> option tree).

(** [root]: the root of a trie is hashed also when it is small.  A cached hash is
    that of the tree; the nodes that are not dirty are in the database, on their
    own or inside of their parent. *)
Definition flag_ok (root : bool) (f : nodeFlag) (t : tree) : Prop :=
  match hash f with
  | Some h =>
      h = thash t /\ (root = false -> 32 <= zlen (tenc t)) /\
      (dirty f = false -> store (BytesToHash h) = Some t)
  | None => dirty f = true \/ (root = false /\ zlen (tenc t) < 32)
  end.

Inductive Rep : bool -> node -> tree -> Prop :=
| rep_nil r : Rep r nilNode TNil
| rep_val r v : Rep r (valueNode v) (TVal v)
| rep_hash r h t :
    store (BytesToHash h) = Some t -> h = thash t -> (r = false -> 32 <= zlen (tenc t)) -> Rep r (hashNode h) t
| rep_short r k n t f :
    Rep false n t -> flag_ok r f (TShort k t) -> (hash f = None \/ Cached n t) -> Rep r (shortNode k n f) (TShort k t)
| rep_full r cs ts f :
    Forall2 (Rep false) cs ts -> flag_ok r f (TFull ts) -> (hash f = None \/ Forall2 Cached cs ts) ->
    Rep r (fullNode cs f) (TFull ts).

Definition loaded (n : node) : Prop :=
  match n with shortNode _ _ _ | fullNode _ _ => True | _ => False end.

(** The database has the nodes of the trees in [store]. *)
Definition db_ok (db : Database) : Prop :=
  forall h t, store h = Some t ->
    wft t /\ exists n, db_node db h = Ok n /\ Rep true n t /\ Cached n t /\ loaded n.

Context (db : Database).
Hypothesis Hdb : db_ok db.

Lemma newFlag_ok r t : flag_ok r newFlag t.
Proof. by left. Qed.

Lemma rep_short_new r k n t : Rep false n t -> Rep r (shortNode k n newFlag) (TShort k t).
Proof. constructor; [done|apply newFlag_ok|by left]. Qed.

Lemma rep_full_new r cs ts : Forall2 (Rep false) cs ts -> Rep r (fullNode cs newFlag) (TFull ts).
Proof. constructor; [done|apply newFlag_ok|by left]. Qed.

Lemma flag_ok_child f t : flag_ok true f t -> 32 <= zlen (tenc t) -> flag_ok false f t.
Proof.
  unfold flag_ok. intros Hf Hs. destruct (hash f) as [h|].
  - destruct Hf as (? & _ & ?). by split_and!.
  - destruct Hf as [?|[? _]]; [by left|done].
Qed.

Lemma Rep_child n t : Rep true n t -> loaded n -> 32 <= zlen (tenc t) -> Rep false n t.
Proof.
  intros HR Hl Hs. inversion HR as [| | |r k m u f Hm Hf Hc|r cs ts f Hcs Hf Hc]; subst; try done; constructor; try done;
    by apply flag_ok_child.
Qed.

Lemma resolve_ok r h t p :
  Rep r (hashNode h) t -> wft t /\ exists n, resolveHash db h p = Ok (inl n) /\ Rep r n t /\ Cached n t /\ loaded n.
Proof.
  intros HR. inversion HR as [| |r' h' t' Es Eh Hsz| |]; subst. destruct (Hdb _ _ Es) as (Hw & n & En & Hn & Hc & Hl).
  split; [done|]. exists n. split_and!; [|destruct r; [done|apply Rep_child; auto]|done|done].
  unfold resolveHash. rewrite En. by destruct n.
Qed.

Lemma Rep_nil_iff r n t : Rep r n t -> t = TNil <-> n = nilNode.
Proof.
  intros HR. split; [|intros ->; by inversion HR]. intros ->.
  inversion HR as [| |r' h' t' Es| |]; subst; [done|]. by destruct (Hdb _ _ Es) as [? _].
Qed.

(** ** Get *)

(** Fuel: two rounds per nibble, one more for an unloaded node. *)
Definition need (n : node) (k : bytes) : nat :=
  match n with hashNode _ => S (2 * length k) | _ => Nat.max 1 (2 * length k) end.

Lemma need_le n k : (need n k <= S (2 * length k))%nat.
Proof. destruct n; cbn; lia. Qed.

Lemma need_pos n k : (1 <= need n k)%nat.
Proof. destruct n; cbn; lia. Qed.

Lemma short_match (pre k nk : bytes) :
  (zlen (pre ++ k) - zlen pre <? zlen nk) || negb (bool_decide (zslice (pre ++ k) (zlen pre) (zlen pre + zlen nk) = Some nk))
  = match strip nk k with Some _ => false | None => true end.
Proof.
  pose proof (zlen_nonneg pre). pose proof (zlen_nonneg nk). pose proof (zlen_nonneg k).
  rewrite zlen_app. destruct (Z.ltb_spec (zlen pre + zlen k - zlen pre) (zlen nk)) as [H'|H'].
  - destruct (strip nk k) as [r|] eqn:E; [|done]. apply strip_app in E as ->. rewrite zlen_app in H'.
    pose proof (zlen_nonneg r). lia.
  - cbn [orb]. rewrite zslice_Some by (rewrite ?zlen_app; lia).
    replace (zlen pre + zlen nk - zlen pre) with (zlen nk) by lia. unfold zlen. rewrite !Nat2Z.id, drop_app_length.
    destruct (strip nk k) as [r|] eqn:E.
    + apply strip_app in E as ->. by rewrite take_app_length, bool_decide_true.
    + rewrite bool_decide_false; [done|]. intros [= Et]. assert (strip nk k = Some (drop (length nk) k)); [|congruence].
      apply strip_app. by rewrite <- Et at 1; rewrite take_drop.
Qed.

Lemma Rep_Forall2_lookup cs ts i : Forall2 (Rep false) cs ts -> forall t, zget ts i = Some t ->
  exists c, zget cs i = Some c /\ Rep false c t.
Proof.
  unfold zget. intros H t. destruct (0 <=? i); [|done]. intros E.
  destruct (Forall2_lookup_r _ _ _ _ _ H E) as (c & Ec & HR). eauto.
Qed.

Lemma Rep_set_child cs ts i c t :
  Forall2 (Rep false) cs ts -> Rep false c t -> 0 <= i < zlen ts ->
  set_child cs i c = Ok (<[Z.to_nat i := c]> cs) /\ Forall2 (Rep false) (<[Z.to_nat i := c]> cs) (<[Z.to_nat i := t]> ts).
Proof.
  intros H Hc Hi. split; [|by apply Forall2_insert]. unfold set_child.
  rewrite zput_Some; [done|]. unfold zlen in *. by rewrite (Forall2_length _ _ _ H).
Qed.

Lemma wft_zlen cs : wft (TFull cs) -> zlen cs = 17.
Proof. intros (Hl & _). unfold zlen. by rewrite Hl. Qed.

Lemma Rep_full_inv r cs f t : Rep r (fullNode cs f) t -> exists ts, t = TFull ts /\ Forall2 (Rep false) cs ts /\ flag_ok r f t /\ (hash f = None \/ Forall2 Cached cs ts).
Proof. intros H. inversion H; subst. eauto 6. Qed.

Lemma Rep_short_inv r k n f t : Rep r (shortNode k n f) t -> exists u, t = TShort k u /\ Rep false n u /\ flag_ok r f t /\ (hash f = None \/ Cached n u).
Proof. intros H. inversion H; subst. eauto 6. Qed.

Lemma Cached_full_inv cs f ts : Cached (fullNode cs f) (TFull ts) -> Forall2 Cached cs ts /\ (hash f = None -> hashed (TFull ts) = false).
Proof. intros H. by inversion H; subst. Qed.

Lemma Cached_short_inv k n f t : Cached (shortNode k n f) (TShort k t) -> Cached n t /\ (hash f = None -> hashed (TShort k t) = false).
Proof. intros H. by inversion H; subst. Qed.

Lemma Cached_set_child cs ts i c c' t :
  Forall2 Cached cs ts -> zget cs i = Some c -> zget ts i = Some t -> (Cached c t -> Cached c' t) ->
  Forall2 Cached (<[Z.to_nat i := c']> cs) ts.
Proof.
  unfold zget. intros H Ec Et Hc. destruct (0 <=? i); [|done]. rewrite <- (list_insert_id ts _ _ Et).
  apply Forall2_insert; [done|]. apply Hc. by eapply Forall2_lookup_lr.
Qed.

Lemma slot_wft t k : slot t k -> k <> [] -> t <> TNil -> wft t /\ hexkey k.
Proof. intros [[Hk [?|?]]|[? _]] Hne Ht; done. Qed.

Lemma slot_loaded t k : slot t k -> wft t -> hexkey k.
Proof. intros [[Hk _]|[_ [->|(v & -> & _)]]] Hw; done. Qed.

Lemma tryGet_ok fuel : forall r n t pre k,
  Rep r n t -> slot t k -> (need n k <= fuel)%nat ->
  exists n' did, tryGet fuel db n (pre ++ k) (zlen pre) = Ok (inl (tget t k, n', did)) /\ Rep r n' t /\ (Cached n t -> Cached n' t).
Proof.
  induction fuel as [|fuel IH]; intros r n t pre k HR Hs Hf; [pose proof (need_pos n k); lia|].
  cbn [tryGet]. destruct n as [|cs f|nk val f|h|v].
  - inversion HR; subst. by exists nilNode, false.
  - destruct (Rep_full_inv _ _ _ _ HR) as (ts & -> & Hcs & Hfl & Hca).
    assert (wft (TFull ts)) as Hw by (by destruct Hs as [[_ [?|?]]|[_ [?|(v & ? & _)]]]).
    pose proof (slot_loaded _ _ Hs Hw) as Hk. destruct k as [|i k]; [by destruct (hexkey_nonempty [])|].
    assert (zget (pre ++ i :: k) (zlen pre) = Some i) as Ei.
    { unfold zlen. rewrite zget_nat, lookup_app_r, Nat.sub_diag by lia. done. }
    rewrite Ei. cbn [of_option obind]. destruct (full_lookup _ _ _ Hw Hk) as (c & Ec & Hc).
    destruct (Rep_Forall2_lookup _ _ _ Hcs _ Ec) as (cn & Ecn & HRc). unfold child. rewrite Ecn. cbn [of_option obind].
    destruct (IH false cn c (pre ++ [i]) k HRc Hc) as (n' & did & E & HR' & Hcc).
    { pose proof (need_le cn k). cbn [need length] in Hf. lia. }
    rewrite <- app_assoc, zlen_app in E. cbn [app] in E. change (zlen [i]) with 1 in E. rewrite E. cbn [rbind obind].
    rewrite tget_full, Ec. destruct did; [|by exists (fullNode cs f), false].
    destruct (Rep_set_child cs ts i n' c Hcs HR') as [-> Hcs']; [by apply zget_lt in Ec|]. cbn [obind].
    eexists _, true. split_and!; [done|constructor; [|done|]|].
    + unfold zget in Ec. destruct (0 <=? i); [|done]. by rewrite (list_insert_id ts _ _ Ec) in Hcs'.
    + destruct Hca as [?|Hca]; [by left|right]. by eapply Cached_set_child.
    + intros [Hall Hf']%Cached_full_inv. constructor; [|done]. by eapply Cached_set_child.
  - destruct (Rep_short_inv _ _ _ _ _ HR) as (u & -> & Hu & Hfl & Hca).
    assert (wft (TShort nk u)) as Hw by (by destruct Hs as [[_ [?|?]]|[_ [?|(v & ? & _)]]]).
    pose proof (slot_loaded _ _ Hs Hw) as Hk. rewrite short_match. cbn [tget].
    destruct (strip nk k) as [rest|] eqn:Es; [|by exists (shortNode nk val f), false].
    apply strip_app in Es as ->. pose proof (slot_short _ _ _ _ Hw Hk eq_refl) as Hsu.
    destruct (IH false val u (pre ++ nk) rest Hu Hsu) as (n' & did & E & HR' & Hcc).
    { assert (nk <> []) as Hne.
      { cbn [wft] in Hw. destruct u; try done; [by destruct Hw|]. destruct Hw as [Hw _]. by apply hexkey_nonempty. }
      pose proof (need_le val rest). cbn [need] in Hf. rewrite length_app in Hf. destruct nk; [done|]. cbn [length] in Hf. lia. }
    rewrite <- app_assoc, zlen_app in E. rewrite E. cbn [rbind obind].
    eexists _, did. split; [done|]. destruct did; [|done]. split; [constructor; [done..|]|].
    + destruct Hca as [?|Hca]; [by left|right; auto].
    + intros [Hv Hf']%Cached_short_inv. constructor; auto.
  - destruct (resolve_ok r h t (take (Z.to_nat (zlen pre)) (pre ++ k)) HR) as (Hw & m & -> & Hm & Hmc & Hl). cbn [rbind obind].
    destruct (IH r m t pre k Hm Hs) as (n' & did & -> & HR' & Hcc).
    { cbn [need] in Hf. pose proof (slot_loaded _ _ Hs Hw) as Hk. apply hexkey_nonempty in Hk. destruct k; [done|]. cbn [length] in *. destruct m; try done; cbn; lia. }
    cbn [rbind obind]. exists n', true. split_and!; auto.
  - inversion HR; subst. exists (valueNode v), false. split; [|by split].
    destruct Hs as [[_ [?|?]]|[-> _]]; done.
Qed.
End store.
End merkle.
