(* ===== verification/TrieUpdate.v ===== *)
(** * Insertion and deletion

    [insert_] and [delete_] keep the shape of the tree and change the value of
    one key. *)

From Stdlib Require Import ZArith Lia.
From S2P Require Import Prelude Common Rlp RlpSpec Crypto Trie TrieEnc TrieSpec TrieRefine.

Open Scope go_scope.

(** ** Changing a child *)

(** [c] can be the child of a full node in place [i]. *)
Definition child_at (i : Z) (c : tree) : Prop := is_nibble i /\ wft c \/ i = 16 /\ is_val c.

Lemma child_at_range i c : child_at i c -> 0 <= i < 17 /\ c <> TNil.
Proof.
  unfold child_at, is_nibble. intros [[Hi Hc]|[-> (v & -> & _)]]; (split; [lia|]); [by intros ->|done].
Qed.

Lemma child_at_slot i k c : hexkey (i :: k) -> slot c k -> c <> TNil -> child_at i c.
Proof.
  intros Hk Hs Hne. apply hexkey_cons in Hk as [[Hi Hk]|[-> ->]].
  - left. split; [done|]. destruct Hs as [[_ [?|?]]|[-> _]]; [done..|]. by destruct (hexkey_nonempty []).
  - right. split; [done|]. destruct Hs as [[Hk _]|[_ [?|?]]]; [by destruct (hexkey_nonempty [])|done..].
Qed.

Lemma zget_list_insert {A} (l : list A) i j x :
  0 <= i < zlen l -> 0 <= j -> zget (<[Z.to_nat i := x]> l) j = if i =? j then Some x else zget l j.
Proof.
  unfold zlen, zget. intros Hi Hj. destruct (Z.leb_spec 0 j); [|lia]. destruct (Z.eqb_spec i j) as [->|Hne].
  - apply list_lookup_insert_eq. lia.
  - apply list_lookup_insert_ne. lia.
Qed.

Lemma tget_set_child cs i c j k :
  0 <= i < zlen cs -> 0 <= j ->
  tget (TFull (<[Z.to_nat i := c]> cs)) (j :: k) = if i =? j then tget c k else tget (TFull cs) (j :: k).
Proof. intros Hi Hj. rewrite !tget_full, zget_list_insert by done. by destruct (i =? j). Qed.

(** The conditions of [wft] on the children of a full node, place by place. *)
Definition children_ok (cs : list tree) : Prop :=
  length cs = 17%nat /\ forall i c, cs !! i = Some c -> c = TNil \/ child_at (Z.of_nat i) c.

Lemma wft_full_iff cs : wft (TFull cs) <-> children_ok cs /\ two_children cs.
Proof.
  split.
  - intros Hw. pose proof Hw as (Hl & _ & _ & H2). split; [|done]. split; [done|]. intros i c E.
    destruct (full_child _ _ _ Hw E) as [Hi [->|[[-> Hv]|[Hi' Hc]]]]; [by left|right; right; done|right; left].
    split; [unfold is_nibble; lia|done].
  - intros [[Hl Hc] H2]. cbn [wft]. split_and!; [done| |..|done].
    + apply foldr_and_Forall, Forall_lookup. intros i c E. destruct (Hc i c E) as [?|[[_ ?]|[_ ?]]]; auto.
    + intros i c E. specialize (Hc i c E). split.
      * intros (v & -> & Hv). destruct Hc as [?|[[_ ?]|[? _]]]; [done..|]. split; [lia|done].
      * intros [-> Hne]. destruct Hc as [?|[[Hn _]|[_ ?]]]; [done|unfold is_nibble in Hn; lia|done].
Qed.

Lemma children_ok_insert cs i c :
  children_ok cs -> c = TNil \/ child_at i c -> 0 <= i < 17 -> children_ok (<[Z.to_nat i := c]> cs).
Proof.
  intros [Hl Hc] Hi Hr. split; [by rewrite length_insert|]. intros j d E.
  destruct (decide (Z.to_nat i = j)) as [<-|Hne].
  - rewrite list_lookup_insert_eq in E by lia. injection E as <-. by rewrite Z2Nat.id by lia.
  - rewrite list_lookup_insert_ne in E by done. auto.
Qed.

Lemma children_ok_nil : children_ok (replicate 17 TNil).
Proof. split; [done|]. intros i c E. apply lookup_replicate in E as [-> _]. by left. Qed.

(** Some other child is there. *)
Lemma two_children_other cs i : two_children cs -> exists j c, j <> i /\ cs !! j = Some c /\ c <> TNil.
Proof.
  intros (a & b & c & d & Hab & Ea & Eb & Hc & Hd). destruct (decide (a = i)) as [->|]; [exists b, d|exists a, c]; auto.
Qed.

Lemma two_children_insert cs i c :
  (i < length cs)%nat -> c <> TNil -> (exists j d, j <> i /\ cs !! j = Some d /\ d <> TNil) -> two_children (<[i := c]> cs).
Proof.
  intros Hi Hc (j & d & Hj & Ed & Hd). exists i, j, c, d. split_and!; [done|by apply list_lookup_insert_eq| |done|done].
  by rewrite list_lookup_insert_ne.
Qed.

Lemma wft_set_child cs i c : wft (TFull cs) -> child_at i c -> wft (TFull (<[Z.to_nat i := c]> cs)).
Proof.
  intros [Hc H2]%wft_full_iff Hi. destruct (child_at_range _ _ Hi) as [Hr Hne]. apply wft_full_iff. split.
  - apply children_ok_insert; auto.
  - apply two_children_insert; [destruct Hc as [-> _]; lia|done|by apply two_children_other].
Qed.

Lemma wft_branch i j c d :
  i <> j -> child_at i c -> child_at j d ->
  wft (TFull (<[Z.to_nat j := d]> (<[Z.to_nat i := c]> (replicate 17 TNil)))).
Proof.
  intros Hij Hc Hd. destruct (child_at_range _ _ Hc) as [Hi Hcn]. destruct (child_at_range _ _ Hd) as [Hj Hdn].
  apply wft_full_iff. split.
  - apply children_ok_insert; [|by right|done]. apply children_ok_insert; [apply children_ok_nil|by right|done].
  - apply two_children_insert; [rewrite length_insert, length_replicate; lia|done|].
    exists (Z.to_nat i), c. split_and!; [lia| |done]. apply list_lookup_insert_eq. rewrite length_replicate. lia.
Qed.

(** ** Diverging keys *)

Lemma prefixLen_strip key nkey :
  prefixLen key nkey = length nkey <-> exists rest, strip nkey key = Some rest.
Proof.
  revert key. induction nkey as [|y nkey IH]; intros key; cbn [strip].
  - split; [by eauto|]. by destruct key.
  - destruct key as [|x key]; cbn [prefixLen length]; [split; [done|intros (? & ?); done]|].
    rewrite (Z.eqb_sym x y). destruct (y =? x); [|split; [done|intros (? & ?); done]].
    rewrite <- IH. split; [by intros [=]|by intros ->].
Qed.

Lemma prefixLen_diverge key nkey :
  strip nkey key = None ->
  (exists p x kr y nr, key = p ++ x :: kr /\ nkey = p ++ y :: nr /\ x <> y /\ prefixLen key nkey = length p) \/
  (exists r, nkey = key ++ r /\ r <> []).
Proof.
  revert key. induction nkey as [|y nkey IH]; intros key E; cbn [strip] in E; [done|].
  destruct key as [|x key]; [right; by exists (y :: nkey)|].
  destruct (Z.eqb_spec y x) as [->|Hne].
  - destruct (IH key E) as [(p & a & kr & b & nr & -> & -> & Hab & Hl)|(r & -> & Hr)]; [left|right; by exists r].
    exists (x :: p), a, kr, b, nr. split_and!; try done. cbn [prefixLen length app]. by rewrite Z.eqb_refl, Hl.
  - left. exists [], x, key, y, nkey. split_and!; try done. cbn. by destruct (Z.eqb_spec x y).
Qed.

(** A hex key is no proper prefix of the key of a short node. *)
Lemma short_diverge key nkey c :
  wft (TShort nkey c) -> hexkey key -> strip nkey key = None ->
  exists p x kr y nr, key = p ++ x :: kr /\ nkey = p ++ y :: nr /\ x <> y /\ prefixLen key nkey = length p /\ Forall is_nibble p.
Proof.
  intros Hw Hk E. destruct (prefixLen_diverge _ _ E) as [(p & x & kr & y & nr & Ek & En & Hxy & Hl)|(r & -> & Hr)].
  - exists p, x, kr, y, nr. split_and!; try done. clear - Ek Hk. subst key.
    destruct Hk as (ns & E & Hn). revert ns E Hn. induction p as [|a p IH]; intros ns E Hn; [apply Forall_nil_2|].
    destruct ns as [|b ns]; cbn in E; [injection E as _ E; by apply app_eq_nil in E as [_ ?]|].
    injection E as -> E. apply Forall_cons in Hn as [Hb Hn]. apply Forall_cons_2; [done|by eapply IH].
  - exfalso. cbn [wft] in Hw. destruct c as [|cs|?|v]; try done.
    + destruct Hw as (_ & Hn & _). apply Forall_app in Hn as [Hn _]. destruct Hk as (ns & -> & _).
      apply Forall_app in Hn as [_ Hn]. apply Forall_cons in Hn as [Hn _]. unfold is_nibble in Hn. lia.
    + destruct Hw as [Hn _]. by apply hexkey_prefix in Hn.
Qed.

(** What remains of a short node below the point where a key leaves it. *)
Definition cut_short (nr : bytes) (c : tree) : tree := match nr with [] => c | _ => TShort nr c end.

Lemma cut_short_child p y nr c : wft (TShort (p ++ y :: nr) c) -> Forall is_nibble p -> child_at y (cut_short nr c).
Proof.
  intros Hw Hp. cbn [wft] in Hw. destruct c as [|cs|?|v]; try done.
  - destruct Hw as (_ & Hn & Hw). apply Forall_app in Hn as [_ Hn]. apply Forall_cons in Hn as [Hy Hn].
    left. split; [done|]. destruct nr as [|z nr]; [done|]. change (z :: nr <> [] /\ Forall is_nibble (z :: nr) /\ wft (TFull cs)). by split_and!.
  - destruct Hw as [Hk Hv]. rewrite hexkey_app in Hk by done. apply hexkey_cons in Hk as [[Hy Hk]|[-> ->]].
    + left. split; [done|]. destruct nr as [|z nr]; [by destruct (hexkey_nonempty [])|]. by split.
    + right. split; [done|]. by exists v.
Qed.

Lemma tget_cut_short nr c k : tget (cut_short nr c) k = match strip nr k with Some r => tget c r | None => None end.
Proof. by destruct nr. Qed.

(** The tree of a new leaf. *)
Lemma leaf_child x kr v : hexkey (x :: kr) -> v <> [] -> child_at x (cut_short kr (TVal v)).
Proof.
  intros Hk Hv. apply hexkey_cons in Hk as [[Hx Hk]|[-> ->]].
  - left. split; [done|]. destruct kr as [|z kr]; [by destruct (hexkey_nonempty [])|]. by split.
  - right. split; [done|]. by exists v.
Qed.

Lemma strip_same p q r : strip (p ++ q) (p ++ r) = strip q r.
Proof. induction p as [|a p IH]; [done|]. cbn. by rewrite Z.eqb_refl. Qed.

Lemma strip_through p q k : strip (p ++ q) k = match strip p k with Some r => strip q r | None => None end.
Proof.
  revert k. induction p as [|a p IH]; intros k; [done|]. cbn. destruct k as [|b k]; [done|].
  by destruct (a =? b).
Qed.

Lemma hexkey_elem k j r p : hexkey k -> k = p ++ j :: r -> 0 <= j < 17.
Proof.
  intros (ns & -> & Hn) Ek. assert (Forall (fun x => 0 <= x < 17) (ns ++ [16])) as H.
  { apply Forall_app. split; [|apply Forall_cons_2; [lia|apply Forall_nil_2]].
    eapply Forall_impl; [exact Hn|]. unfold is_nibble. intros; lia. }
  rewrite Ek in H. apply Forall_app in H as [_ H]. by apply Forall_cons in H as [H _].
Qed.

(** A short node that became a branch maps the same keys, and the new one. *)
Lemma branch_content p x kr y nr c v k :
  x <> y -> 0 <= x < 17 -> 0 <= y < 17 -> hexkey k ->
  let branch := TFull (<[Z.to_nat x := cut_short kr (TVal v)]> (<[Z.to_nat y := cut_short nr c]> (replicate 17 TNil))) in
  match strip p k with Some r => tget branch r | None => None end
  = if bool_decide (k = p ++ x :: kr) then Some v else tget (TShort (p ++ y :: nr) c) k.
Proof.
  intros Hxy Hx Hy Hk branch. cbn [tget]. assert (zlen (replicate 17 TNil) = 17) as H17 by done.
  assert (zlen (<[Z.to_nat y := cut_short nr c]> (replicate 17 TNil)) = 17) as H17' by (unfold zlen; by rewrite length_insert).
  rewrite strip_through. destruct (strip p k) as [r|] eqn:E.
  - apply strip_app in E as ->. destruct r as [|j r].
    { rewrite bool_decide_false; [done|]. intros Ek. by apply app_inv_head in Ek. }
    pose proof (hexkey_elem _ _ _ _ Hk eq_refl) as Hj. unfold branch. rewrite !tget_set_child by lia.
    cbn [strip]. destruct (Z.eqb_spec x j) as [->|Hxj].
    + destruct (Z.eqb_spec y j); [done|]. rewrite tget_cut_short. destruct (strip kr r) as [q|] eqn:Eq.
      * apply strip_app in Eq as ->. destruct q as [|z q].
        -- by rewrite app_nil_r, bool_decide_true.
        -- rewrite bool_decide_false; [done|]. intros Ek. apply app_inv_head in Ek. injection Ek as Ek.
           rewrite <- (app_nil_r kr) in Ek at 2. by apply app_inv_head in Ek.
      * rewrite bool_decide_false; [done|]. intros Ek. apply app_inv_head in Ek. injection Ek as ->.
        rewrite <- (app_nil_r kr) in Eq at 2. by rewrite strip_self in Eq.
    + rewrite bool_decide_false by (intros Ek; apply app_inv_head in Ek; by injection Ek).
      destruct (Z.eqb_spec y j) as [->|Hyj]; [by rewrite tget_cut_short|].
      rewrite tget_full. unfold zget. destruct (0 <=? j); [|done].
      destruct (replicate 17 TNil !! Z.to_nat j) as [d|] eqn:Ed; [|done]. by apply lookup_replicate in Ed as [-> _].
  - rewrite bool_decide_false; [done|]. intros ->. by rewrite strip_self in E.
Qed.

(** ** Insertion *)

(** [k'] is a key of the place that [k] is a key of. *)
Definition samekind (k k' : bytes) : Prop := hexkey k /\ hexkey k' \/ k = [] /\ k' = [].

Lemma samekind_cons i k k' : hexkey (i :: k) -> hexkey (i :: k') -> samekind k k'.
Proof.
  rewrite !hexkey_cons. unfold is_nibble.
  intros [[Hi Hk]|[-> ->]] [[Hi' Hk']|[Hi' Hk']]; subst; [by left|lia|lia|by right].
Qed.

Lemma samekind_short nk u r r' :
  wft (TShort nk u) -> hexkey (nk ++ r) -> hexkey (nk ++ r') -> samekind r r'.
Proof.
  intros Hw Hk Hk'. cbn [wft] in Hw. destruct u; try done.
  - destruct Hw as (_ & Hn & _). rewrite hexkey_app in Hk, Hk' by done. by left.
  - destruct Hw as [Hn _]. right. split; by apply (hexkey_prefix nk).
Qed.

(** [t'] is [t] with [k] mapped to [o]. *)
Definition updated (t : tree) (k : bytes) (o : option bytes) (t' : tree) : Prop :=
  forall k', samekind k k' -> tget t' k' = if bool_decide (k' = k) then o else tget t k'.

Lemma wft_short_nonempty nk u : wft (TShort nk u) -> nk <> [].
Proof.
  cbn [wft]. destruct u; try done; [by intros [? _]|]. intros [Hn _]. by apply hexkey_nonempty.
Qed.

Lemma hexkey_samekind k k' : hexkey k -> samekind k k' -> hexkey k'.
Proof. intros Hk [[_ ?]|[-> _]]; [done|]. by destruct (hexkey_nonempty []). Qed.

Lemma updated_full cs i k c c' o :
  wft (TFull cs) -> hexkey (i :: k) -> zget cs i = Some c -> updated c k o c' ->
  updated (TFull cs) (i :: k) o (TFull (<[Z.to_nat i := c']> cs)).
Proof.
  intros Hw Hk Ec Hu k' Hk'%hexkey_samekind; [|done]. destruct k' as [|j k']; [by destruct (hexkey_nonempty [])|].
  pose proof (hexkey_elem _ j k' [] Hk' eq_refl) as Hj. pose proof (zget_lt _ _ _ Ec) as Hi.
  rewrite tget_set_child by lia. destruct (Z.eqb_spec i j) as [<-|Hne].
  - rewrite Hu by (by eapply samekind_cons). rewrite tget_full, Ec.
    destruct (decide (k' = k)) as [->|Hn]; [by rewrite !bool_decide_true|].
    rewrite !bool_decide_false; [done| |done]. by intros [=].
  - rewrite bool_decide_false; [done|]. by intros [=].
Qed.

Lemma updated_short nk u u' r o :
  wft (TShort nk u) -> hexkey (nk ++ r) -> updated u r o u' ->
  updated (TShort nk u) (nk ++ r) o (TShort nk u').
Proof.
  intros Hw Hk Hu k' Hk'%hexkey_samekind; [|done]. cbn [tget]. destruct (strip nk k') as [r'|] eqn:E.
  - apply strip_app in E as ->. rewrite Hu by (by eapply samekind_short).
    destruct (decide (r' = r)) as [->|Hn]; [by rewrite !bool_decide_true|].
    rewrite !bool_decide_false; [done| |done]. intros ?%app_inv_head. done.
  - rewrite bool_decide_false; [done|]. intros ->. by rewrite strip_self in E.
Qed.

Section update.
Context {K : Keccak} (store : Hash -> option tree) (db : Database).
Hypothesis Hdb : db_ok store db.

(** What a new short node, or its value where no key is left, stands for. *)
Definition cut_node (nr : bytes) (n : node) : node := match nr with [] => n | _ => shortNode nr n newFlag end.

Lemma Rep_cut nr n c : Rep store false n c -> Rep store false (cut_node nr n) (cut_short nr c).
Proof. intros H. destruct nr; [done|]. by apply rep_short_new. Qed.

Lemma insert_nil fuel prefix k n : insert_ (S fuel) db nilNode prefix k n = Ok (inl (true, cut_node k n)).
Proof. by destruct k. Qed.

Lemma drop_next {A} (p : list A) x r : drop (length p + 1) (p ++ x :: r) = r.
Proof. rewrite <- drop_drop, drop_app_length. done. Qed.

(** The branch [insert_] makes where [key] leaves the key of a short node. *)
Lemma insert_diverge r fuel nkey val u flags prefix key v :
  Rep store false val u -> wft (TShort nkey u) -> hexkey key -> v <> [] -> strip nkey key = None ->
  exists n' t', insert_ (S (S fuel)) db (shortNode nkey val flags) prefix key (valueNode v) = Ok (inl (true, n')) /\
    Rep store r n' t' /\ wft t' /\ updated (TShort nkey u) key (Some v) t'.
Proof.
  intros HR Hw Hk Hv Es. destruct (short_diverge _ _ _ Hw Hk Es) as (p & x & kr & y & nr & Ek & En & Hxy & Hl & Hp).
  subst nkey. pose proof (hexkey_elem _ _ _ _ Hk Ek) as Hx.
  assert (hexkey (x :: kr)) as Hxk by (rewrite Ek in Hk; by apply hexkey_app in Hk).
  pose proof (cut_short_child _ _ _ _ Hw Hp) as Hcy. pose proof (leaf_child _ _ _ Hxk Hv) as Hcx.
  destruct (child_at_range _ _ Hcy) as [Hy _].
  set (ts1 := <[Z.to_nat y := cut_short nr u]> (replicate 17 TNil)).
  set (ts2 := <[Z.to_nat x := cut_short kr (TVal v)]> ts1).
  assert (Forall2 (Rep store false) (replicate 17 nilNode) (replicate 17 TNil)) as H0.
  { apply Forall2_replicate. constructor. }
  destruct (Rep_set_child store _ _ y _ _ H0 (Rep_cut nr _ _ HR)) as [E1 H1]; [done|]. fold ts1 in H1.
  destruct (Rep_set_child store _ ts1 x (cut_node kr (valueNode v)) (cut_short kr (TVal v)) H1) as [E2 H2];
    [apply Rep_cut; constructor|unfold ts1, zlen; by rewrite length_insert|]. fold ts2 in H2.
  assert (wft (TFull ts2)) as Hwf by (apply (wft_branch y x); [done..]).
  assert (updated (TShort (p ++ y :: nr) u) key (Some v) (cut_short p (TFull ts2))) as Hup.
  { intros k' Hk'%hexkey_samekind; [|done]. rewrite tget_cut_short, Ek. by apply branch_content. }
  set (n' := cut_node p (fullNode (<[Z.to_nat x := cut_node kr (valueNode v)]> (<[Z.to_nat y := cut_node nr val]> (replicate 17 nilNode))) newFlag)).
  exists n', (cut_short p (TFull ts2)). split_and!; [|..|done].
  - destruct key as [|k0 krest] eqn:Ekey; [by destruct (hexkey_nonempty [])|]. rewrite <- Ekey in *.
    change (insert_ (S (S fuel)) db (shortNode (p ++ y :: nr) val flags) prefix key (valueNode v) = Ok (inl (true, n'))).
    rewrite Ekey. remember (S fuel) as f1. cbn [insert_]. rewrite <- Ekey, Hl. subst f1.
    rewrite (proj2 (Nat.eqb_neq _ _)) by (rewrite length_app; cbn [length]; lia).
    rewrite lookup_app_r, Nat.sub_diag by lia. cbn [lookup list_lookup of_option obind].
    rewrite drop_next, insert_nil. cbn [rbind obind]. rewrite E1. cbn [obind].
    rewrite Ek at 1. rewrite lookup_app_r, Nat.sub_diag by lia. cbn [lookup list_lookup of_option obind].
    rewrite Ek at 2. rewrite drop_next, insert_nil. cbn [rbind obind]. rewrite E2. cbn [obind].
    unfold n'. destruct p as [|z p]; [done|]. cbn [length Nat.eqb]. rewrite Ek. by rewrite (take_app_length (z :: p)).
  - unfold n'. destruct p as [|z p]; [by apply rep_full_new|]. by apply rep_short_new, rep_full_new.
  - destruct p as [|z p]; [done|]. change (z :: p <> [] /\ Forall is_nibble (z :: p) /\ wft (TFull ts2)). by split_and!.
Qed.

Lemma slot_nonnil_kind t k : slot t k -> t <> TNil -> hexkey k -> wft t.
Proof. intros [[_ [?|?]]|[-> _]] Hne Hk; [done..|]. by destruct (hexkey_nonempty []). Qed.

Lemma need_child m n k i : (S (need m k) <= need n (i :: k))%nat.
Proof. pose proof (need_le m k). destruct n; cbn [need length]; lia. Qed.

Lemma need_app m n nk k : nk <> [] -> (S (need m k) <= need n (nk ++ k))%nat.
Proof. intros Hne. pose proof (need_le m k). destruct nk; [done|]. destruct n; cbn [need length app]; rewrite ?length_app; lia. Qed.

Lemma need_resolved h m k : loaded m -> k <> [] -> (S (need m k) <= need (hashNode h) k)%nat.
Proof. intros Hl Hk. destruct k; [done|]. destruct m; try done; cbn [need length]; lia. Qed.

Lemma drop_prefix (p r : bytes) : drop (length p) (p ++ r) = r.
Proof. apply drop_app_length. Qed.

(** An extension or leaf whose child was replaced. *)
Lemma wft_short_update nk u u' rest :
  wft (TShort nk u) -> slot u' rest -> hexkey (nk ++ rest) -> u' <> TNil -> (forall cs, u = TFull cs -> exists ds, u' = TFull ds) ->
  wft (TShort nk u').
Proof.
  intros Hw Hs Hk Hne Hf. cbn [wft] in Hw. destruct u as [|cs|?|v]; try done.
  - destruct (Hf cs eq_refl) as (ds & ->). destruct Hw as (Hn & Hp & _).
    change (nk <> [] /\ Forall is_nibble nk /\ wft (TFull ds)). split_and!; [done..|].
    apply (slot_nonnil_kind _ rest); [done..|]. by apply hexkey_app in Hk.
  - destruct Hw as [Hn _]. apply hexkey_prefix in Hk as ->; [|done].
    destruct Hs as [[Hk _]|[_ [?|(w & -> & Hw)]]]; [by destruct (hexkey_nonempty [])|done|]. by split.
Qed.

Lemma wft_slot t k : wft t -> hexkey k -> slot t k.
Proof. intros. left. split; [done|by right]. Qed.

Lemma slot_shape t k : slot t k -> t <> TNil -> (forall v, t <> TVal v) -> wft t /\ hexkey k.
Proof. intros [[Hk [?|?]]|[_ [?|(v & -> & _)]]] Hn Hv; try done. by destruct (Hv v). Qed.

Record inserted (r : bool) (t : tree) (k v : bytes) (d : bool) (n' : node) (t' : tree) : Prop := {
  ins_rep : Rep store r n' t';
  ins_slot : slot t' k;
  ins_nonnil : t' <> TNil;
  ins_content : updated t k (Some v) t';
  ins_full : forall cs, t = TFull cs -> exists ds, t' = TFull ds;
  ins_same : d = false -> t' = t;
}.

(** No key left: the value is replaced. *)
Lemma insert_value r fuel n t prefix v :
  Rep store r n t -> slot t [] -> v <> [] ->
  exists d, insert_ (S fuel) db n prefix [] (valueNode v) = Ok (inl (d, valueNode v)) /\
    inserted r t [] v d (valueNode v) (TVal v).
Proof.
  intros HR Hs Hv. destruct Hs as [[Hk _]|[_ Ht]]; [by destruct (hexkey_nonempty [])|].
  assert (forall d, (d = false -> TVal v = t) -> inserted r t [] v d (valueNode v) (TVal v)) as Hins.
  { intros d Hd. constructor; [constructor|right; split; [done|right; by exists v]|done| |intros cs ->|done].
    - intros k' [[Hk _]|[_ ->]]; [by destruct (hexkey_nonempty [])|]. by rewrite bool_decide_true.
    - by destruct Ht as [?|(? & ? & _)]. }
  inversion HR as [| |r' h' t' Es| |]; subst.
  - exists true. split; [done|]. by apply Hins.
  - eexists. split; [done|]. apply Hins. intros E. apply negb_false_iff, bool_decide_eq_true in E. by subst.
  - destruct (Hdb _ _ Es) as [Hw _]. by destruct Ht as [->|(? & -> & _)].
  - by destruct Ht as [?|(? & ? & _)].
  - by destruct Ht as [?|(? & ? & _)].
Qed.

Lemma inserted_leaf r k v :
  hexkey k -> v <> [] -> inserted r TNil k v true (shortNode k (valueNode v) newFlag) (TShort k (TVal v)).
Proof.
  intros Hk Hv. constructor; [apply rep_short_new; constructor|by apply wft_slot|done| |done|done].
  intros k' Hk'%hexkey_samekind; [|done]. cbn [tget]. destruct (strip k k') as [q|] eqn:Es.
  - apply strip_app in Es as ->. pose proof (hexkey_prefix _ _ Hk Hk') as ->. by rewrite app_nil_r, bool_decide_true.
  - rewrite bool_decide_false; [done|]. intros ->. rewrite <- (app_nil_r k) in Es at 2. by rewrite strip_self in Es.
Qed.

(** The end of [insert_] on a full and on a short node, once the child is done. *)
Lemma inserted_full r cs ts f k0 k v c d nn t' :
  Rep store r (fullNode cs f) (TFull ts) -> wft (TFull ts) -> hexkey (k0 :: k) -> zget ts k0 = Some c ->
  inserted false c k v d nn t' ->
  exists n'' t'', (if negb d then Ok (inl (false, fullNode cs f))
                   else cs <- set_child cs k0 nn ;; Ok (inl (true, fullNode cs newFlag))) = Ok (inl (d, n'')) :> R (bool * node) /\
    inserted r (TFull ts) (k0 :: k) v d n'' t''.
Proof.
  intros HR Hw Hk Ec Hi. destruct (Rep_full_inv _ _ _ _ _ HR) as (? & [= <-] & Hcs & _).
  pose proof (updated_full _ _ _ _ _ _ Hw Hk Ec (ins_content _ _ _ _ _ _ _ Hi)) as Hup.
  destruct d; cbn [negb].
  - destruct (Rep_set_child store cs ts k0 nn t' Hcs (ins_rep _ _ _ _ _ _ _ Hi)) as [-> Hcs']; [by apply zget_lt in Ec|].
    cbn [obind]. eexists _, (TFull (<[Z.to_nat k0 := t']> ts)). split; [done|].
    constructor; [by apply rep_full_new| |done|done|by eauto|done].
    apply wft_slot; [|done]. apply wft_set_child; [done|]. eapply child_at_slot; [done|apply Hi|apply Hi].
  - exists (fullNode cs f), (TFull ts). split; [done|]. constructor; [done|by apply wft_slot|done| |by eauto|done].
    rewrite (ins_same _ _ _ _ _ _ _ Hi eq_refl) in Hup. unfold zget in Ec. destruct (0 <=? k0); [|done].
    by rewrite (list_insert_id ts _ _ Ec) in Hup.
Qed.

Lemma inserted_short r nk val u f rest v d nn t' :
  Rep store r (shortNode nk val f) (TShort nk u) -> wft (TShort nk u) -> hexkey (nk ++ rest) ->
  inserted false u rest v d nn t' ->
  exists n'' t'', (if negb d then Ok (inl (false, shortNode nk val f))
                   else Ok (inl (true, shortNode nk nn newFlag))) = Ok (inl (d, n'')) :> R (bool * node) /\
    inserted r (TShort nk u) (nk ++ rest) v d n'' t''.
Proof.
  intros HR Hw Hk Hi. pose proof (updated_short _ _ _ _ _ Hw Hk (ins_content _ _ _ _ _ _ _ Hi)) as Hup.
  destruct d; cbn [negb].
  - eexists _, (TShort nk t'). split; [done|].
    constructor; [apply rep_short_new, Hi| |done|done|done|done].
    apply wft_slot; [|done]. eapply wft_short_update; [done|apply Hi|done|apply Hi|apply Hi].
  - exists (shortNode nk val f), (TShort nk u). split; [done|]. rewrite (ins_same _ _ _ _ _ _ _ Hi eq_refl) in Hup.
    constructor; try done. by apply wft_slot.
Qed.

Lemma insert_ok fuel : forall r n t prefix k v,
  Rep store r n t -> slot t k -> v <> [] -> (need n k <= fuel)%nat ->
  exists d n' t', insert_ fuel db n prefix k (valueNode v) = Ok (inl (d, n')) /\ inserted r t k v d n' t'.
Proof.
  induction fuel as [|fuel IH]; intros r n t prefix k v HR Hs Hv Hf; [pose proof (need_pos n k); lia|].
  destruct k as [|k0 krest] eqn:Ek.
  { destruct (insert_value r fuel n t prefix v HR Hs Hv) as (d & E & H). by exists d, (valueNode v), (TVal v). }
  destruct n as [|cs f|nk val f|h|w].
  - inversion HR; subst. pose proof (slot_slotkey _ _ Hs) as [Hk|?]; [|done].
    eexists true, _, _. split; [done|]. by apply inserted_leaf.
  - destruct (Rep_full_inv _ _ _ _ _ HR) as (ts & -> & Hcs & _). destruct (slot_shape _ _ Hs) as [Hw Hk]; [done..|].
    destruct (full_lookup _ _ _ Hw Hk) as (c & Ec & Hc).
    destruct (Rep_Forall2_lookup _ _ _ _ Hcs _ Ec) as (cn & Ecn & HRc).
    destruct (IH false cn c (prefix ++ [k0]) krest v HRc Hc Hv) as (d & n' & t' & E & Hi).
    { pose proof (need_child cn (fullNode cs f) krest k0). lia. }
    cbn [insert_]. unfold child. rewrite Ecn. cbn [of_option obind]. rewrite E. cbn [rbind obind].
    exists d. by eapply inserted_full.
  - destruct (Rep_short_inv _ _ _ _ _ _ HR) as (u & -> & Hu & _). destruct (slot_shape _ _ Hs) as [Hw Hk]; [done..|].
    destruct (strip nk (k0 :: krest)) as [rest|] eqn:Es.
    + pose proof (proj2 (prefixLen_strip _ _) (ex_intro _ _ Es)) as Hpl. apply strip_app in Es.
      destruct (IH false val u (prefix ++ take (length nk) (k0 :: krest)) rest v Hu (slot_short _ _ _ _ Hw Hk Es) Hv)
        as (d & n' & t' & E & Hi).
      { pose proof (need_app val (shortNode nk val f) nk rest (wft_short_nonempty _ _ Hw)). rewrite <- Es in H. lia. }
      cbn [insert_]. rewrite Hpl, Nat.eqb_refl. rewrite Es, drop_prefix, <- Es, E. cbn [rbind obind].
      rewrite Es in *. exists d. by eapply inserted_short.
    + destruct fuel as [|fuel]; [cbn in Hf; lia|].
      destruct (insert_diverge r fuel nk val u f prefix (k0 :: krest) v Hu Hw Hk Hv Es) as (n' & t' & E & HR' & Hw' & Hup).
      exists true, n', t'. split; [done|]. constructor; try done; [by apply wft_slot|by intros ->].
  - destruct (resolve_ok _ _ Hdb r h t prefix HR) as (Hw & m & E & Hm & _ & Hl).
    destruct (IH r m t prefix (k0 :: krest) v Hm Hs Hv) as (d & n' & t' & E' & Hi).
    { pose proof (need_resolved h m (k0 :: krest) Hl ltac:(done)). lia. }
    cbn [insert_]. rewrite E. cbn [rbind obind]. rewrite E'. cbn [rbind obind].
    destruct d; cbn [negb]; [by exists true, n', t'|]. exists false, m, t. split; [done|].
    destruct Hi as [_ _ ? ? ? Hi]. rewrite (Hi eq_refl) in *. by constructor.
  - inversion HR; subst. exfalso. by destruct Hs as [[_ [?|?]]|[? _]].
Qed.

(** ** Deletion *)

Lemma nilNode_dec (n : node) : n = nilNode \/ n <> nilNode.
Proof. destruct n; [by left|by right..]. Qed.

Lemma single_child_found cs i pos : 0 <= i -> 0 <= pos ->
  (single_child cs i pos = pos /\ forall j c, cs !! j = Some c -> c = nilNode) \/
  (single_child cs i pos = -2 /\ exists j c, cs !! j = Some c /\ c <> nilNode).
Proof.
  revert i. induction cs as [|c cs IH]; intros i Hi Hp; [left; split; [done|]; by intros|].
  destruct (nilNode_dec c) as [->|Hc].
  - cbn [single_child]. destruct (IH (i + 1) ltac:(lia) Hp) as [[E H]|(E & j & c & Ec & Hc)].
    + left. split; [done|]. intros [|j] c Ec; [by injection Ec|by eapply H].
    + right. split; [done|]. by exists (S j), c.
  - right. split; [|by exists 0%nat, c]. cbn [single_child]. destruct (Z.eqb_spec pos (-1)); [lia|]. by destruct c.
Qed.

(** The children of a full node are all absent, all but one, or neither. *)
Lemma single_child_spec cs i : 0 <= i ->
  (single_child cs i (-1) = -1 /\ forall j c, cs !! j = Some c -> c = nilNode) \/
  (exists j c, single_child cs i (-1) = i + Z.of_nat j /\ cs !! j = Some c /\ c <> nilNode /\
     forall j' c', cs !! j' = Some c' -> j' <> j -> c' = nilNode) \/
  (single_child cs i (-1) = -2 /\
     exists j j' c c', j <> j' /\ cs !! j = Some c /\ cs !! j' = Some c' /\ c <> nilNode /\ c' <> nilNode).
Proof.
  revert i. induction cs as [|c cs IH]; intros i Hi; [left; split; [done|]; by intros|].
  destruct (nilNode_dec c) as [->|Hc].
  - cbn [single_child]. destruct (IH (i + 1) ltac:(lia)) as [[E H]|[(j & c & E & Ec & Hc & H)|(E & j & j' & c & c' & Hj & H)]].
    + left. split; [done|]. intros [|j] c Ec; [by injection Ec|by eapply H].
    + right. left. exists (S j), c. split_and!; [lia|done|done|]. intros [|j'] c' Ec' Hj; [by injection Ec'|]. apply (H j'); [done|lia].
    + right. right. split; [done|]. exists (S j), (S j'), c, c'. split; [lia|done].
  - assert (single_child (c :: cs) i (-1) = single_child cs (i + 1) i) as -> by (by destruct c).
    right. destruct (single_child_found cs (i + 1) i ltac:(lia) Hi) as [[E H]|(E & j & d & Ed & Hd)].
    + left. exists 0%nat, c. split_and!; [lia|done|done|]. intros [|j'] c' Ec' Hj; [done|]. by eapply H.
    + right. split; [done|]. exists 0%nat, (S j), c, d. by split_and!.
Qed.

(** A short node in front of another one is merged with it. *)
Definition merged (nk : bytes) (t : tree) : tree :=
  match t with TShort ck u => TShort (nk ++ ck) u | _ => TShort nk t end.

Lemma wft_merged nk t : nk <> [] -> Forall is_nibble nk -> wft t -> wft (merged nk t).
Proof.
  intros Hne Hn Hw. destruct t as [|ts|ck u|v]; [done|..|done].
  - change (nk <> [] /\ Forall is_nibble nk /\ wft (TFull ts)). by split_and!.
  - cbn [merged]. destruct u as [|us|?|v]; try (by destruct Hw).
    + destruct Hw as (_ & Hc & Hw). change (nk ++ ck <> [] /\ Forall is_nibble (nk ++ ck) /\ wft (TFull us)).
      split_and!; [by destruct nk|by apply Forall_app|done].
    + destruct Hw as [Hk Hv]. split; [by apply hexkey_app|done].
Qed.

Lemma tget_merged nk t k : tget (merged nk t) k = tget (TShort nk t) k.
Proof. destruct t; try done. cbn [merged tget]. rewrite strip_through. by destruct (strip nk k). Qed.

Lemma Rep_merged r nk m c t :
  loaded m -> Rep store false m t -> Rep store false c t ->
  Rep store r (match m with
               | shortNode ck cv _ => shortNode (nk ++ ck) cv newFlag
               | _ => shortNode nk c newFlag
               end) (merged nk t).
Proof.
  intros Hl Hm Hc. destruct m as [|cs f|ck cv f|?|?]; try done.
  - destruct (Rep_full_inv _ _ _ _ _ Hm) as (ts & -> & _). by apply rep_short_new.
  - destruct (Rep_short_inv _ _ _ _ _ _ Hm) as (u & -> & Hu & _). by apply rep_short_new.
Qed.

(** A full node with one child is the short node to it. *)
Lemma tget_collapse ts p c k :
  ts !! p = Some c -> (forall j d, ts !! j = Some d -> j <> p -> d = TNil) -> hexkey k ->
  tget (TFull ts) k = tget (TShort [Z.of_nat p] c) k.
Proof.
  intros Ec H Hk. destruct k as [|j k]; [by destruct (hexkey_nonempty [])|].
  pose proof (hexkey_elem _ j k [] Hk eq_refl) as Hj. rewrite tget_full. cbn [tget strip].
  destruct (Z.eqb_spec (Z.of_nat p) j) as [<-|Hne]; [by rewrite zget_nat, Ec|].
  unfold zget. destruct (0 <=? j) eqn:Ej; [|done]. destruct (ts !! Z.to_nat j) as [d|] eqn:Ed; [|done].
  rewrite (H _ _ Ed); [done|lia].
Qed.

Record deleted (r : bool) (t : tree) (k : bytes) (d : bool) (n' : node) (t' : tree) : Prop := {
  del_rep : Rep store r n' t';
  del_slot : slot t' k;
  del_content : updated t k None t';
  del_loaded : d = true -> n' = nilNode \/ loaded n';
  del_same : d = false -> t' = t;
}.

Lemma Rep_nil_children cs ts j c t :
  Forall2 (Rep store false) cs ts -> cs !! j = Some c -> ts !! j = Some t -> c = nilNode <-> t = TNil.
Proof.
  intros H Ec Et. pose proof (Forall2_lookup_lr _ _ _ _ _ _ H Ec Et) as HR. symmetry. by apply (Rep_nil_iff _ _ Hdb false).
Qed.

(** The end of [delete_] on a full node. *)
Definition delete_full_end (cs : list node) (prefix : bytes) : R (bool * node) :=
  let p := single_child cs 0 (-1) in
  if 0 <=? p then
    c <- child cs p ;;
    let plain := Ok (inl (true, shortNode [p] c newFlag)) in
    if negb (p =? 16) then
      cnode <=- resolve db c prefix ;;
      match cnode with
      | shortNode ckey cval _ => Ok (inl (true, shortNode (p :: ckey) cval newFlag))
      | _ => plain
      end
    else plain
  else Ok (inl (true, fullNode cs newFlag)).

Lemma resolve_child_ok n t p :
  Rep store false n t -> wft t -> exists m, resolve db n p = Ok (inl m) /\ Rep store false m t /\ loaded m.
Proof.
  intros HR Hw. destruct n as [|cs f|nk val f|h|v].
  - by inversion HR; subst.
  - by exists (fullNode cs f).
  - by exists (shortNode nk val f).
  - destruct (resolve_ok _ _ Hdb false h t p HR) as (_ & m & E & Hm & _ & Hl). by exists m.
  - by inversion HR; subst.
Qed.

Lemma delete_full_end_ok r cs ts prefix :
  Forall2 (Rep store false) cs ts -> children_ok ts -> (exists j c, ts !! j = Some c /\ c <> TNil) ->
  exists n' t', delete_full_end cs prefix = Ok (inl (true, n')) /\ Rep store r n' t' /\ wft t' /\ loaded n' /\
    forall k, hexkey k -> tget t' k = tget (TFull ts) k.
Proof.
  intros Hcs Hok (j0 & c0 & Ec0 & Hc0). unfold delete_full_end.
  destruct (single_child_spec cs 0 ltac:(lia)) as [[_ H]|[(j & c & E & Ec & Hc & H)|(E & j & j' & c & c' & Hj & Ec & Ec' & Hc & Hc')]].
  - exfalso. destruct (Forall2_lookup_r _ _ _ _ _ Hcs Ec0) as (n0 & En0 & _).
    apply Hc0. eapply Rep_nil_children; [done..|]. by eapply H.
  - rewrite E, Z.add_0_l. destruct (Z.leb_spec 0 (Z.of_nat j)); [|lia].
    unfold child. rewrite zget_nat, Ec. cbn [of_option obind].
    destruct (Forall2_lookup_l _ _ _ _ _ Hcs Ec) as (t & Et & HR).
    assert (t <> TNil) as Ht by (intros Et0; by apply Hc, (Rep_nil_children _ _ _ _ _ Hcs Ec Et)).
    assert (forall i d, ts !! i = Some d -> i <> j -> d = TNil) as Hone.
    { intros i d Ed Hi. destruct (Forall2_lookup_r _ _ _ _ _ Hcs Ed) as (n0 & En0 & _).
      eapply Rep_nil_children; [done..|]. by eapply H. }
    pose proof (fun k => tget_collapse ts j t k Et Hone) as Hget. clear H Hone.
    destruct Hok as [_ Hok]. destruct (Hok j t Et) as [?|[[Hn Hw]|[E16 Hv]]]; [done|..].
    + destruct (Z.eqb_spec (Z.of_nat j) 16) as [E16|_]; [unfold is_nibble in Hn; lia|]. cbn [negb].
      destruct (resolve_child_ok c t prefix HR Hw) as (m & -> & Hm & Hl). cbn [rbind obind].
      pose proof (Rep_merged r [Z.of_nat j] m c t Hl Hm HR) as HRm.
      eexists _, (merged [Z.of_nat j] t). split_and!; [|exact HRm| | |].
      * by destruct m.
      * apply wft_merged; [done|by apply Forall_cons_2|done].
      * by destruct m.
      * intros k Hk. rewrite tget_merged. symmetry. by apply Hget.
    + rewrite E16, Z.eqb_refl in *. cbn [negb]. destruct Hv as (v & -> & Hv).
      eexists _, (TShort [16] (TVal v)). split_and!; [done|by apply rep_short_new| |done|].
      * split; [by exists []|done].
      * intros k Hk. symmetry. by apply Hget.
  - rewrite E. change (0 <=? -2) with false. eexists _, (TFull ts). split; [done|].
    split_and!; [by apply rep_full_new| |done|done].
    apply wft_full_iff. split; [done|].
    destruct (Forall2_lookup_l _ _ _ _ _ Hcs Ec) as (t & Et & _). destruct (Forall2_lookup_l _ _ _ _ _ Hcs Ec') as (t' & Et' & _).
    exists j, j', t, t'. split_and!; [done..| |]; intros H0; [apply Hc|apply Hc']; by eapply Rep_nil_children.
Qed.

Lemma updated_content t k o t' t'' :
  hexkey k -> updated t k o t' -> (forall k', hexkey k' -> tget t'' k' = tget t' k') -> updated t k o t''.
Proof. intros Hk Hu He k' Hk'. rewrite He; [by apply Hu|]. by eapply hexkey_samekind. Qed.

Lemma deleted_full r cs ts f k0 k c d nn t' prefix :
  Rep store r (fullNode cs f) (TFull ts) -> wft (TFull ts) -> hexkey (k0 :: k) -> zget ts k0 = Some c ->
  deleted false c k d nn t' ->
  exists n'' t'', (if negb d then Ok (inl (false, fullNode cs f))
                   else cs <- set_child cs k0 nn ;; delete_full_end cs prefix) = Ok (inl (d, n'')) :> R (bool * node) /\
    deleted r (TFull ts) (k0 :: k) d n'' t''.
Proof.
  intros HR Hw Hk Ec Hi. destruct (Rep_full_inv _ _ _ _ _ HR) as (? & [= <-] & Hcs & _).
  pose proof (updated_full _ _ _ _ _ _ Hw Hk Ec (del_content _ _ _ _ _ _ Hi)) as Hup.
  pose proof (hexkey_elem _ k0 k [] Hk eq_refl) as Hk0. destruct d; cbn [negb].
  - destruct (Rep_set_child store cs ts k0 nn t' Hcs (del_rep _ _ _ _ _ _ Hi)) as [-> Hcs']; [by apply zget_lt in Ec|].
    cbn [obind]. apply wft_full_iff in Hw as [Hok H2].
    assert (t' = TNil \/ child_at k0 t') as Ht'.
    { destruct Hi as [_ Hs _ _ _]. destruct t' as [| | |]; [by left|right; by eapply child_at_slot..]. }
    destruct (two_children_other ts (Z.to_nat k0) H2) as (j & e & Hj & Ee & He).
    destruct (delete_full_end_ok r _ _ prefix Hcs' (children_ok_insert _ _ _ Hok Ht' Hk0)) as (n' & t'' & E & HR' & Hw' & Hl & Hc).
    { exists j, e. split; [|done]. by rewrite list_lookup_insert_ne. }
    exists n', t''. split; [done|]. constructor; [done|by apply wft_slot| |by right|done].
    by eapply updated_content.
  - exists (fullNode cs f), (TFull ts). split; [done|]. constructor; [done|by apply wft_slot| |done|done].
    rewrite (del_same _ _ _ _ _ _ Hi eq_refl) in Hup. unfold zget in Ec. destruct (0 <=? k0); [|done].
    by rewrite (list_insert_id ts _ _ Ec) in Hup.
Qed.

(** A full node does not become empty. *)
Lemma deleted_full_nonnil ts k t' : wft (TFull ts) -> hexkey k -> updated (TFull ts) k None t' -> t' <> TNil.
Proof.
  intros Hw Hk Hu ->. destruct (full_two_keys ts Hw) as (i & j & ki & kj & v & w & Hij & Hi & Hj & Ei & Ej).
  pose proof (Hu (i :: ki) ltac:(by left)) as Hi'. pose proof (Hu (j :: kj) ltac:(by left)) as Hj'.
  rewrite Ei in Hi'. rewrite Ej in Hj'. cbn [tget] in *.
  destruct (bool_decide_reflect (i :: ki = k)) as [<-|]; [|done].
  destruct (bool_decide_reflect (j :: kj = i :: ki)) as [[=]|]; done.
Qed.

Lemma deleted_short r nk val u f rest d nn t' :
  Rep store r (shortNode nk val f) (TShort nk u) -> wft (TShort nk u) -> hexkey (nk ++ rest) -> rest <> [] ->
  deleted false u rest d nn t' ->
  exists n'' t'', (if negb d then Ok (inl (false, shortNode nk val f))
                   else match nn with
                        | shortNode ckey cval _ => Ok (inl (true, shortNode (nk ++ ckey) cval newFlag))
                        | c => Ok (inl (true, shortNode nk c newFlag))
                        end) = Ok (inl (d, n'')) :> R (bool * node) /\
    deleted r (TShort nk u) (nk ++ rest) d n'' t''.
Proof.
  intros HR Hw Hk Hr Hi. pose proof (updated_short _ _ _ _ _ Hw Hk (del_content _ _ _ _ _ _ Hi)) as Hup.
  destruct d; cbn [negb].
  - pose proof Hw as Hwu. cbn [wft] in Hwu. destruct u as [|us|?|v]; try done.
    2: { destruct Hwu as [Hn _]. by apply hexkey_prefix in Hk. }
    destruct Hwu as (Hne & Hn & Hwu). pose proof Hk as Hkr. rewrite hexkey_app in Hkr by done.
    assert (t' <> TNil) as Ht' by (eapply deleted_full_nonnil; [done..|apply Hi]).
    pose proof (slot_nonnil_kind _ _ (del_slot _ _ _ _ _ _ Hi) Ht' Hkr) as Hwt.
    assert (loaded nn) as Hl.
    { destruct (del_loaded _ _ _ _ _ _ Hi eq_refl) as [->|?]; [|done]. destruct Ht'.
      by apply (Rep_nil_iff _ _ Hdb false nilNode t' (del_rep _ _ _ _ _ _ Hi)). }
    pose proof (Rep_merged r nk nn nn t' Hl (del_rep _ _ _ _ _ _ Hi) (del_rep _ _ _ _ _ _ Hi)) as HRm.
    eexists _, (merged nk t'). split; [|constructor; [exact HRm|by apply wft_slot; [apply wft_merged|]| | |done]].
    + by destruct nn.
    + eapply updated_content; [done..|]. intros k' _. apply tget_merged.
    + intros _. right. by destruct nn.
  - exists (shortNode nk val f), (TShort nk u). split; [done|]. rewrite (del_same _ _ _ _ _ _ Hi eq_refl) in Hup.
    constructor; try done. by apply wft_slot.
Qed.

(** The key of a leaf: the leaf goes. *)
Lemma deleted_leaf r k v : wft (TShort k (TVal v)) -> deleted r (TShort k (TVal v)) k true nilNode TNil.
Proof.
  intros [Hk Hv]. constructor; [constructor|apply slot_nil; by left| |by left|done].
  intros k' Hk'%hexkey_samekind; [|done]. cbn [tget]. destruct (strip k k') as [q|] eqn:Es; [|by destruct (bool_decide _)].
  apply strip_app in Es as ->. pose proof (hexkey_prefix _ _ Hk Hk') as ->. by rewrite app_nil_r, bool_decide_true.
Qed.

(** Nothing to delete. *)
Lemma deleted_none r n t k : Rep store r n t -> slot t k -> tget t k = None -> deleted r t k false n t.
Proof.
  intros HR Hs E. constructor; try done. intros k' _. destruct (bool_decide_reflect (k' = k)) as [->|]; done.
Qed.

Lemma prefixLen_le a b : (prefixLen a b <= length b)%nat.
Proof. revert b. induction a as [|x a IH]; intros [|y b]; cbn; try lia. destruct (x =? y); [|lia]. pose proof (IH b). lia. Qed.

Lemma delete_ok fuel : forall r n t prefix k,
  Rep store r n t -> slot t k -> (need n k <= fuel)%nat ->
  exists d n' t', delete_ fuel db n prefix k = Ok (inl (d, n')) /\ deleted r t k d n' t'.
Proof.
  induction fuel as [|fuel IH]; intros r n t prefix k HR Hs Hf; [pose proof (need_pos n k); lia|].
  destruct n as [|cs f|nk val f|h|w].
  - inversion HR; subst. exists false, nilNode, TNil. split; [done|]. by apply deleted_none.
  - destruct (Rep_full_inv _ _ _ _ _ HR) as (ts & -> & Hcs & _). destruct (slot_shape _ _ Hs) as [Hw Hk]; [done..|].
    destruct k as [|k0 krest]; [by destruct (hexkey_nonempty [])|].
    destruct (full_lookup _ _ _ Hw Hk) as (c & Ec & Hc).
    destruct (Rep_Forall2_lookup _ _ _ _ Hcs _ Ec) as (cn & Ecn & HRc).
    destruct (IH false cn c (prefix ++ [k0]) krest HRc Hc) as (d & n' & t' & E & Hi).
    { pose proof (need_child cn (fullNode cs f) krest k0). lia. }
    cbn [delete_]. unfold child at 1. rewrite Ecn. cbn [of_option obind]. rewrite E. cbn [rbind obind].
    exists d. by eapply deleted_full.
  - destruct (Rep_short_inv _ _ _ _ _ _ HR) as (u & -> & Hu & _). destruct (slot_shape _ _ Hs) as [Hw Hk]; [done..|].
    cbn [delete_]. pose proof (prefixLen_le k nk) as Hle. destruct (strip nk k) as [rest|] eqn:Es.
    + pose proof (proj2 (prefixLen_strip _ _) (ex_intro _ _ Es)) as Hpl. apply strip_app in Es as ->.
      rewrite Hpl, Nat.ltb_irrefl. rewrite length_app. destruct rest as [|x rest].
      * rewrite app_nil_r in *. rewrite Nat.add_0_r, Nat.eqb_refl.
        assert (exists v, u = TVal v) as (v & ->).
        { pose proof (slot_short _ _ _ [] Hw Hk (eq_sym (app_nil_r _))) as [[Hk0 _]|[_ [->|(v & -> & _)]]]; [by destruct (hexkey_nonempty [])|done|by exists v]. }
        exists true, nilNode, TNil. split; [done|]. by apply deleted_leaf.
      * cbn [length]. rewrite (proj2 (Nat.eqb_neq _ _)) by lia. rewrite take_app_length, drop_prefix.
        destruct (IH false val u (prefix ++ nk) (x :: rest) Hu (slot_short _ _ _ _ Hw Hk eq_refl)) as (d & n' & t' & E & Hi).
        { pose proof (need_app val (shortNode nk val f) nk (x :: rest) (wft_short_nonempty _ _ Hw)). lia. }
        rewrite E. cbn [rbind obind]. exists d. by eapply deleted_short.
    + assert (prefixLen k nk <> length nk) as Hne.
      { intros H. apply prefixLen_strip in H as [? ?]. congruence. }
      rewrite (proj2 (Nat.ltb_lt _ _)) by lia. exists false, (shortNode nk val f), (TShort nk u). split; [done|].
      apply deleted_none; [done..|]. cbn [tget]. by rewrite Es.
  - destruct (resolve_ok _ _ Hdb r h t prefix HR) as (Hw & m & E & Hm & _ & Hl). pose proof (slot_loaded _ _ Hs Hw) as Hk.
    destruct (IH r m t prefix k Hm Hs) as (d & n' & t' & E' & Hi).
    { pose proof (need_resolved h m k Hl (hexkey_nonempty _ Hk)). lia. }
    cbn [delete_]. rewrite E. cbn [rbind obind]. rewrite E'. cbn [rbind obind].
    destruct d; cbn [negb]; [by exists true, n', t'|]. exists false, m, t. split; [done|].
    destruct Hi as [_ ? ? ? Hi]. rewrite (Hi eq_refl) in *. by constructor.
  - inversion HR; subst. destruct Hs as [[_ [?|?]]|[-> _]]; [done..|].
    exists true, nilNode, TNil. split; [done|]. constructor; [constructor|apply slot_nil; by right| |by left|done].
    intros k' [[Hk _]|[_ ->]]; [by destruct (hexkey_nonempty [])|]. done.
Qed.
End update.
