(* ===== verification/TrieMap.v ===== *)
(** * A trie is a finite map

    [TryGet], [TryUpdate] and [TryDelete] on a trie act like lookup, insertion
    and deletion on the finite map it represents, whatever parts of the trie are
    loaded, and never fail on a complete database.  The map determines the tree,
    so that the tree does not depend on the history of the trie. *)

From Stdlib Require Import ZArith Lia.
From stdpp Require Import gmap.
From S2P Require Import Prelude Common Rlp RlpSpec Crypto Trie TrieEnc TrieSpec TrieRefine TrieUpdate.

Open Scope go_scope.

(** ** The map of a tree *)

Abbreviation kvmap := (gmap bytes bytes).

Record content (t : tree) (m : kvmap) : Prop := {
  content_get : forall key, Forall is_byte key -> tget t (keybytesToHex key) = m !! key;
  content_key : forall k v, hexkey k -> tget t k = Some v -> exists key, Forall is_byte key /\ k = keybytesToHex key;
  content_dom : forall key v, m !! key = Some v -> Forall is_byte key;
}.

Definition tree_shape (t : tree) : Prop := t = TNil \/ wft t.

Lemma content_empty : content TNil ∅.
Proof. constructor; [done|done|]. intros key v E. by rewrite lookup_empty in E. Qed.

(** The content of a tree after an update is that of the updated map. *)
Lemma content_updated t m key o t' :
  content t m -> Forall is_byte key -> updated t (keybytesToHex key) o t' ->
  content t' (partial_alter (fun _ => o) key m).
Proof.
  intros [Hg Hk Hd] Hb Hu. pose proof (keybytesToHex_hexkey _ Hb) as Hx. constructor.
  - intros k' Hb'. rewrite Hu by (left; split; [done|by apply keybytesToHex_hexkey]).
    destruct (decide (k' = key)) as [->|Hne]; [by rewrite bool_decide_true, lookup_partial_alter_eq|].
    rewrite bool_decide_false by (intros E; by apply keybytesToHex_inj in E). rewrite lookup_partial_alter_ne by done. auto.
  - intros k v Hk' E. rewrite Hu in E by (by left).
    destruct (bool_decide_reflect (k = keybytesToHex key)) as [->|]; [by exists key|by eapply Hk].
  - intros k' v E. destruct (decide (k' = key)) as [->|Hne]; [done|]. rewrite lookup_partial_alter_ne in E by done. by eapply Hd.
Qed.

(** The tree of a map is unique. *)
Lemma content_unique t t' m : tree_shape t -> tree_shape t' -> content t m -> content t' m -> t = t'.
Proof.
  intros Ht Ht' [Hg Hk _] [Hg' Hk' _]. assert (same_content t t') as He.
  { intros k Hx. destruct (tget t k) as [v|] eqn:E, (tget t' k) as [v'|] eqn:E'; [..|done].
    - destruct (Hk _ _ Hx E) as (key & Hb & ->). rewrite Hg in E by done. rewrite Hg' in E' by done. congruence.
    - destruct (Hk _ _ Hx E) as (key & Hb & ->). rewrite Hg in E by done. rewrite Hg' in E' by done. congruence.
    - destruct (Hk' _ _ Hx E') as (key & Hb & ->). rewrite Hg in E by done. rewrite Hg' in E' by done. congruence. }
  destruct Ht as [->|Hw], Ht' as [->|Hw']; [done|symmetry|..|].
  - apply nil_content; [by right|done].
  - apply nil_content; [by right|]. intros k Hx. symmetry. by apply He.
  - by apply tree_canonical.
Qed.

(** The map of a tree is unique. *)
Lemma content_functional t m m' : content t m -> content t m' -> m = m'.
Proof.
  intros [Hg _ Hd] [Hg' _ Hd']. apply map_eq. intros key.
  destruct (m !! key) as [v|] eqn:E; [|destruct (m' !! key) as [v'|] eqn:E'; [|done]].
  - pose proof (Hd _ _ E) as Hb. by rewrite <- Hg', Hg, E.
  - pose proof (Hd' _ _ E') as Hb. by rewrite <- E, <- Hg, Hg'.
Qed.

(** ** Sequences of operations *)

Inductive trie_op :=
| OpGet (key : bytes)
| OpUpdate (key value : bytes)
| OpDelete (key : bytes).

Definition op_key (o : trie_op) : bytes := match o with OpGet k | OpUpdate k _ | OpDelete k => k end.

(** The specification: an update with an empty value deletes. *)
Definition map_op (m : kvmap) (o : trie_op) : option bytes * kvmap :=
  match o with
  | OpGet k => (m !! k, m)
  | OpUpdate k v => (None, if zlen v =? 0 then delete k m else <[k := v]> m)
  | OpDelete k => (None, delete k m)
  end.

Fixpoint map_ops (m : kvmap) (ops : list trie_op) : list (option bytes) * kvmap :=
  match ops with
  | [] => ([], m)
  | o :: ops => let '(v, m) := map_op m o in let '(vs, m) := map_ops m ops in (v :: vs, m)
  end.

(** The same operations on a trie. *)
Definition run_op (db : Database) (root : node) (o : trie_op) : R (option bytes * node) :=
  match o with
  | OpGet k => TryGet db root k
  | OpUpdate k v => n <=- TryUpdate db root k v ;; Ok (inl (None, n))
  | OpDelete k => n <=- TryDelete db root k ;; Ok (inl (None, n))
  end.

Fixpoint run_ops (db : Database) (root : node) (ops : list trie_op) : R (list (option bytes) * node) :=
  match ops with
  | [] => Ok (inl ([], root))
  | o :: ops =>
      ' (v, root) <=- run_op db root o ;;
      ' (vs, root) <=- run_ops db root ops ;;
      Ok (inl (v :: vs, root))
  end.

Section refinement.
Context {K : Keccak} (store : Hash -> option tree) (db : Database).

(** The root [n] stands for the map [m]. *)
Definition trie_map (n : node) (m : kvmap) : Prop :=
  exists t, tree_shape t /\ Rep store true n t /\ content t m.

Lemma trie_map_empty : trie_map nilNode ∅.
Proof. exists TNil. split_and!; [by left|constructor|apply content_empty]. Qed.

Hypothesis Hdb : db_ok store db.

Lemma shape_slot t k : tree_shape t -> hexkey k -> slot t k.
Proof. intros Ht Hk. by left. Qed.

Lemma slot_tree_shape t k : slot t k -> hexkey k -> tree_shape t.
Proof. intros [[_ H]|[-> _]] Hk; [done|]. by destruct (hexkey_nonempty []). Qed.

Lemma op_fuel_enough n k : (need n k <= op_fuel k)%nat.
Proof. apply need_le. Qed.

Lemma TryGet_ok n m key :
  trie_map n m -> Forall is_byte key ->
  exists n', TryGet db n key = Ok (inl (m !! key, n')) /\ trie_map n' m.
Proof.
  intros (t & Ht & HR & Hc) Hb. pose proof (keybytesToHex_hexkey _ Hb) as Hk.
  destruct (tryGet_ok _ _ Hdb (op_fuel (keybytesToHex key)) true n t [] (keybytesToHex key) HR (shape_slot _ _ Ht Hk) (op_fuel_enough _ _))
    as (n' & did & E & HR' & _). change (zlen []) with 0 in E. cbn [app] in E.
  unfold TryGet. rewrite E. cbn [rbind obind]. rewrite (content_get _ _ Hc) by done. eexists. split; [done|].
  exists t. split_and!; [done| |done]. by destruct did.
Qed.

Lemma delete_trie n m key :
  trie_map n m -> Forall is_byte key ->
  exists d n', delete_ (op_fuel (keybytesToHex key)) db n [] (keybytesToHex key) = Ok (inl (d, n')) /\ trie_map n' (delete key m).
Proof.
  intros (t & Ht & HR & Hc) Hb. pose proof (keybytesToHex_hexkey _ Hb) as Hk.
  destruct (delete_ok _ _ Hdb _ true n t [] _ HR (shape_slot _ _ Ht Hk) (op_fuel_enough _ _)) as (d & n' & t' & E & [HR' Hs Hu _ _]).
  exists d, n'. split; [done|]. exists t'. split_and!; [by eapply slot_tree_shape|done|].
  by apply (content_updated _ _ _ _ _ Hc Hb Hu).
Qed.

Lemma TryDelete_ok n m key :
  trie_map n m -> Forall is_byte key -> exists n', TryDelete db n key = Ok (inl n') /\ trie_map n' (delete key m).
Proof.
  intros Hm Hb. destruct (delete_trie n m key Hm Hb) as (d & n' & E & H). unfold TryDelete. rewrite E. cbn [rbind obind]. by exists n'.
Qed.

Lemma TryUpdate_ok n m key v :
  trie_map n m -> Forall is_byte key ->
  exists n', TryUpdate db n key v = Ok (inl n') /\ trie_map n' (if zlen v =? 0 then delete key m else <[key := v]> m).
Proof.
  intros Hm Hb. unfold TryUpdate. destruct (Z.eqb_spec (zlen v) 0) as [E0|Hv]; cbn [negb].
  { destruct (delete_trie n m key Hm Hb) as (d & n' & E & H). rewrite E. cbn [rbind obind]. by exists n'. }
  destruct Hm as (t & Ht & HR & Hc). pose proof (keybytesToHex_hexkey _ Hb) as Hk.
  assert (v <> []) as Hv' by (by intros ->).
  destruct (insert_ok _ _ Hdb _ true n t [] _ v HR (shape_slot _ _ Ht Hk) Hv' (op_fuel_enough _ _)) as (d & n' & t' & E & [HR' Hs _ Hu _ _]).
  rewrite E. cbn [rbind obind]. exists n'. split; [done|]. exists t'. split_and!; [by eapply slot_tree_shape|done|].
  apply (content_updated _ _ _ _ _ Hc Hb Hu).
Qed.

Lemma run_op_ok n m o :
  trie_map n m -> Forall is_byte (op_key o) ->
  exists n', run_op db n o = Ok (inl (fst (map_op m o), n')) /\ trie_map n' (snd (map_op m o)).
Proof.
  intros Hm Hb. destruct o as [key|key v|key]; cbn [run_op map_op fst snd op_key] in *.
  - by apply TryGet_ok.
  - destruct (TryUpdate_ok n m key v Hm Hb) as (n' & -> & H). by exists n'.
  - destruct (TryDelete_ok n m key Hm Hb) as (n' & -> & H). by exists n'.
Qed.
End refinement.

(** C6: the trie refines a finite map.  Every sequence of gets, updates and
    deletes on a trie that stands for a map returns what the same sequence on the
    map returns, without an error or panic and within the fuel, whichever nodes
    of the trie are loaded and whichever have to be read from the database; and
    the new root stands for the new map. *)
Theorem trie_refines_map {K : Keccak} (store : Hash -> option tree) (db : Database) (root : node) (m : kvmap) (ops : list trie_op) :
  db_ok store db -> trie_map store root m -> Forall (fun o => Forall is_byte (op_key o)) ops ->
  exists root', run_ops db root ops = Ok (inl (fst (map_ops m ops), root')) /\ trie_map store root' (snd (map_ops m ops)).
Proof.
  intros Hdb Hm Hops. revert root m Hm. induction Hops as [|o ops Ho _ IH]; intros root m Hm; [by exists root|].
  cbn [run_ops map_ops]. destruct (run_op_ok _ _ Hdb root m o Hm Ho) as (root1 & -> & Hm1).
  destruct (map_op m o) as [v m1]. cbn [fst snd] in *. cbn [rbind obind].
  destruct (IH root1 m1 Hm1) as (root2 & -> & Hm2). destruct (map_ops m1 ops) as [vs m2]. cbn [rbind obind fst snd] in *.
  by exists root2.
Qed.
