(* ===== verification/TrieHash.v ===== *)
(** * Hashing a trie

    [hash_] computes the Merkle hash of the tree a node stands for, using the
    cached hashes of the nodes that have one, and caches the others.  The tree of
    a map is unique, so that the root hash is a function of the map. *)

From Stdlib Require Import ZArith Lia.
From stdpp Require Import gmap.
From S2P Require Import Prelude Common Rlp RlpSpec Crypto Trie TrieEnc TrieSpec TrieRefine TrieUpdate TrieMap.

Open Scope go_scope.

(** ** Sizes

    Keys and values are far shorter than what a Go slice can hold, so that the
    encoding of a node is one. *)

Definition size_max : Z := 2 ^ 40.

Fixpoint tsized (t : tree) : Prop :=
  match t with
  | TNil => True
  | TVal v => Forall is_byte v /\ zlen v <= size_max
  | TShort k c => zlen k <= size_max /\ tsized c
  | TFull cs => foldr and True (map tsized cs)
  end.

Lemma tsized_full cs i c : tsized (TFull cs) -> cs !! i = Some c -> tsized c.
Proof.
  intros H E. apply (proj1 (foldr_and_Forall tsized cs)) in H. rewrite Forall_lookup in H. by eapply H.
Qed.

Definition small_entry (k v : bytes) : Prop := 2 * zlen k < size_max /\ Forall is_byte v /\ zlen v <= size_max.

(** A node whose keys and values are small is. *)
Lemma tsized_content t :
  (forall k v, hexkey k -> tget t k = Some v -> zlen k <= size_max /\ Forall is_byte v /\ zlen v <= size_max) ->
  tree_shape t -> tsized t.
Proof.
  induction t as [|cs IH|p c IH|v] using tree_nested_ind; intros H [Ht|Hw]; try done.
  - assert (Forall tsized cs) as Hall.
    { apply Forall_lookup. intros i c E. rewrite Forall_lookup in IH.
      destruct (full_child _ _ _ Hw E) as [Hi [->|[[-> (v & -> & Hv)]|[Hi' Hc]]]]; [done|..].
      - apply (H [16] v); [by exists []|]. rewrite tget_full. change (zget cs 16) with (zget cs (Z.of_nat 16)). by rewrite zget_nat, E.
      - apply (IH i c E); [|by right]. intros k v Hk Ek. destruct (H (Z.of_nat i :: k) v) as [Hl Hv].
        + apply hexkey_cons. left. split; [unfold is_nibble; lia|done].
        + by rewrite tget_full, zget_nat, E.
        + split; [|done]. rewrite zlen_cons in Hl. lia. }
    by apply foldr_and_Forall.
  - cbn [tsized]. pose proof Hw as Hw'. cbn [wft] in Hw'. destruct c as [|cs|?|v]; try done.
    + destruct Hw' as (Hne & Hp & Hc). destruct (wft_nonempty _ Hc) as (k & v & Hk & E).
      assert (forall k v, hexkey k -> tget (TFull cs) k = Some v ->
                zlen p + zlen k <= size_max /\ Forall is_byte v /\ zlen v <= size_max) as H'.
      { intros k' v' Hk' E'. rewrite <- zlen_app. apply H; [by apply hexkey_app|]. cbn [tget]. by rewrite strip_self. }
      split; [pose proof (H' k v Hk E) as [? _]; pose proof (zlen_nonneg k); lia|].
      apply IH; [|by right]. intros k' v' Hk' E'. destruct (H' k' v' Hk' E') as [? ?]. split; [|done]. pose proof (zlen_nonneg p). lia.
    + destruct Hw' as [Hk Hv]. apply (H p v Hk). cbn [tget]. rewrite <- (app_nil_r p) at 2. by rewrite strip_self.
Qed.

Lemma tsized_map t m : tree_shape t -> content t m -> map_Forall small_entry m -> tsized t.
Proof.
  intros Ht [Hg Hk _] Hm. apply tsized_content; [|done]. intros k v Hx E.
  destruct (Hk _ _ Hx E) as (key & Hb & ->). rewrite Hg in E by done. destruct (Hm _ _ E) as (Hl & Hv).
  split; [|done]. rewrite keybytesToHex_nibs, zlen_app. unfold zlen in *. rewrite length_nibs. cbn [length]. lia.
Qed.

(** ** The encoding of a tree as a value *)

Section hashing.
Context {K : Keccak}.

Fixpoint tval (t : tree) : rval :=
  match t with
  | TNil => VBytes []
  | TVal v => VBytes v
  | TShort k c => VList [VBytes (compact k); if hashed c then VBytes (thash c) else tval c]
  | TFull cs => VList (map (fun c => if hashed c then VBytes (thash c) else tval c) cs)
  end.

Definition cval (t : tree) : rval := if hashed t then VBytes (thash t) else tval t.

Lemma tref_hashed t : tref t = if hashed t then rlp_string (thash t) else tenc t.
Proof. unfold tref, node_ref, hashed. destruct t; try done; by destruct (_ <? 32). Qed.

Lemma rlp_tval t : rlp (tval t) = tenc t.
Proof.
  induction t as [|cs IH|k c IH|v] using tree_nested_ind; [done|..|done].
  - cbn [tval rlp tenc]. do 2 f_equal. rewrite map_map. apply map_ext_Forall.
    eapply Forall_impl; [exact IH|]. cbv beta. intros c Hc.  change (node_ref c (tenc c)) with (tref c). rewrite tref_hashed. by destruct (hashed c).
  - cbn [tval rlp tenc map concat]. rewrite app_nil_r. do 2 f_equal. change (node_ref c (tenc c)) with (tref c).
    rewrite tref_hashed. by destruct (hashed c).
Qed.

Lemma rlp_cval t : rlp (cval t) = tref t.
Proof. unfold cval. rewrite tref_hashed. destruct (hashed t); [done|apply rlp_tval]. Qed.

Lemma thash_bytes t : Forall is_byte (thash t) /\ zlen (thash t) = 32.
Proof. split; [apply be_bytes_is_byte|apply Keccak256_len]. Qed.

Lemma zlen_rlp_string b : zlen b < two64 -> zlen (rlp_string b) <= zlen b + 9.
Proof.
  intros H. pose proof (zlen_nonneg b). assert (zlen (rlp_head 128 (zlen b) ++ b) <= zlen b + 9) as Hh.
  { rewrite zlen_app. pose proof (rlp_head_length 128 (zlen b) ltac:(u64_lia)). lia. }
  unfold rlp_string. destruct b as [|x [|y b]]; [done| |done].
  destruct (x <? 128); [|done]. change (zlen [x]) with 1. lia.
Qed.

Lemma zlen_rlp_list b : zlen b < two64 -> zlen (rlp_list b) <= zlen b + 9.
Proof.
  intros H. pose proof (zlen_nonneg b). unfold rlp_list. rewrite zlen_app. pose proof (rlp_head_length 192 (zlen b) ltac:(u64_lia)). lia.
Qed.

(** A reference is short, unless it is a value. *)
Lemma zlen_tref t : tsized t -> zlen (tref t) <= size_max + 9.
Proof.
  intros H. rewrite tref_hashed. destruct (hashed t) eqn:E.
  - destruct (thash_bytes t) as [_ Hl]. pose proof (zlen_rlp_string (thash t)) as Hs. rewrite Hl in Hs. unfold two64 in Hs.
    unfold size_max. lia.
  - unfold hashed in E. destruct t as [|cs|k c|v]; [done|..].
    + apply negb_false_iff, Z.ltb_lt in E. unfold size_max. lia.
    + apply negb_false_iff, Z.ltb_lt in E. unfold size_max. lia.
    + destruct H as [_ H]. pose proof (zlen_rlp_string v) as Hs. unfold size_max, two64 in *. cbn [tenc]. lia.
Qed.

Lemma zlen_compact k : path k -> zlen (compact k) <= zlen k + 1.
Proof.
  intros (ns & t & -> & Hn). destruct (path_parts ns Hn) as (o & bs & Ho & Hbs & ->). unfold compact.
  rewrite <- app_assoc, hexToCompact_parts by done.
  change (zlen (compact_flag o t :: bs) <= zlen (odd_part o ++ nibs bs ++ term_part t) + 1). rewrite zlen_cons, !zlen_app.
  unfold zlen. rewrite length_nibs. lia.
Qed.

Lemma wft_path k c : wft (TShort k c) -> path k.
Proof.
  cbn [wft]. destruct c; try done.
  - intros (_ & Hn & _). exists k, false. cbn. by rewrite app_nil_r.
  - intros [(ns & -> & Hn) _]. by exists ns, true.
Qed.

(** What the library needs to encode a node. *)
Lemma tval_ok t : tree_shape t \/ is_val t -> tsized t -> encodable (tval t) /\ encodable (cval t).
Proof.
  assert (forall t, encodable (tval t) -> encodable (tval t) /\ encodable (cval t)) as Hboth.
  { intros u Hu. split; [done|]. unfold cval. destruct (hashed u); [apply thash_bytes|done]. }
  induction t as [|cs IH|k c IH|v] using tree_nested_ind; intros Ht Hs; apply Hboth.
  - apply Forall_nil_2.
  - assert (wft (TFull cs)) as Hw by (by destruct Ht as [[?|?]|(v & ? & _)]).
    cbn [tval encodable]. apply foldr_and_Forall, Forall_lookup. intros i v Ev.
    rewrite list_lookup_fmap in Ev. apply fmap_Some in Ev as (c & Ec & ->). rewrite Forall_lookup in IH.
    apply (IH i c Ec); [|by eapply tsized_full].
    destruct (full_child _ _ _ Hw Ec) as [_ [->|[[_ H]|[_ H]]]]; [by left; left|by right|by left; right].
  - assert (wft (TShort k c)) as Hw by (by destruct Ht as [[?|?]|(v & ? & _)]).
    destruct (hexToCompact_path k (wft_path _ _ Hw)) as (ck & Ek & _ & Hb & _). destruct Hs as [_ Hs].
    cbn [tval encodable map foldr]. split_and!; [unfold compact; by rewrite Ek| |done].
    apply IH; [|done]. cbn [wft] in Hw. destruct c; try done; [left; right; by destruct Hw as (_ & _ & ?)|].
    right. destruct Hw as [_ Hw]. by eexists.
  - apply Hs.
Qed.

Lemma zlen_tenc t : wft t -> tsized t -> zlen (tenc t) <= data_max.
Proof.
  intros Hw Hs. destruct t as [|cs|k c|v]; try done.
  - assert (zlen (concat (map tref cs)) <= 17 * (size_max + 9)) as Hc.
    { assert (Forall tsized cs) as Hall by (apply Forall_lookup; intros i c E; by eapply tsized_full).
      assert (zlen (concat (map tref cs)) <= zlen cs * (size_max + 9)) as H.
      { clear - Hall. induction Hall as [|c cs Hc _ IH]; [done|]. cbn [map concat]. rewrite zlen_app, zlen_cons.
        pose proof (zlen_tref c Hc). lia. }
      by rewrite (wft_zlen _ Hw) in H. }
    pose proof (zlen_rlp_list (concat (map tref cs))) as H. change (zlen (rlp_list (concat (map tref cs))) <= data_max).
    unfold size_max, two64, data_max in *. lia.
  - destruct Hs as [Hk Hs]. pose proof (zlen_compact k (wft_path _ _ Hw)). pose proof (zlen_tref c Hs).
    pose proof (zlen_rlp_string (compact k)) as H1. change (zlen (rlp_list (rlp_string (compact k) ++ tref c)) <= data_max).
    pose proof (zlen_rlp_list (rlp_string (compact k) ++ tref c)) as H2. rewrite zlen_app in H2.
    unfold size_max, two64, data_max in *. lia.
Qed.

(** ** [hash_] *)

Section node_ind.
Variable P : node -> Prop.
Hypothesis HNil : P nilNode.
Hypothesis HFull : forall cs f, Forall P cs -> P (fullNode cs f).
Hypothesis HShort : forall k c f, P c -> P (shortNode k c f).
Hypothesis HHash : forall h, P (hashNode h).
Hypothesis HVal : forall v, P (valueNode v).

Fixpoint node_nested_ind (n : node) : P n :=
  match n with
  | nilNode => HNil
  | fullNode cs f =>
      HFull cs f ((fix all (l : list node) : Forall P l :=
                     match l with
                     | [] => Forall_nil_2 _
                     | n :: l => Forall_cons_2 _ _ _ (node_nested_ind n) (all l)
                     end) cs)
  | shortNode k c f => HShort k c f (node_nested_ind c)
  | hashNode h => HHash h
  | valueNode v => HVal v
  end.
End node_ind.

(** A child as the library sees it. *)
Definition child_rval (n : node) : rval := match n with nilNode => VBytes [] | n => node_rval n end.

Lemma nodeToHash_ok n t force :
  node_rval n = tval t -> wft t -> tsized t ->
  nodeToHash n force = Ok (if force || hashed t then hashNode (thash t) else n).
Proof.
  intros E Hw Hs. unfold nodeToHash. rewrite E, Encode_rlp; [|apply tval_ok; [left; by right|done]|rewrite rlp_tval; by apply zlen_tenc].
  cbn [of_option obind]. rewrite rlp_tval. assert (hashed t = negb (zlen (tenc t) <? 32)) as -> by (by destruct t).
  by destruct force, (zlen (tenc t) <? 32).
Qed.

Section store.
Context (store : Hash -> option tree).

(** [n'] is [n] with its hashes cached, [hn] what a parent holds of it. *)
Record hash_done (r : bool) (t : tree) (hn n' : node) : Prop := {
  hd_rep : Rep store r n' t;
  hd_cached : Cached n' t;
  hd_top : r = true -> hn = hashNode (thash t) /\ (loaded n' -> fst (cache n') = Some (thash t));
  hd_ref : r = false -> child_rval hn = cval t;
}.

(** The flags [hash_] leaves. *)
Lemma flag_hash_ok r f n t :
  wft t -> flag_ok store r f t -> hash f = None ->
  let hn := if r || hashed t then hashNode (thash t) else n in
  loaded n -> flag_ok store r (flag_hash f hn) t /\ (hash (flag_hash f hn) = None -> r = false /\ hashed t = false) /\
  (r = true -> hash (flag_hash f hn) = Some (thash t)).
Proof.
  intros Hw Hf E hn Hl. unfold flag_ok in Hf. rewrite E in Hf. unfold hn, flag_ok.
  assert (hashed t = negb (zlen (tenc t) <? 32)) as Eh by (by destruct t).
  destruct (r || hashed t) eqn:Er; cbn [flag_hash hash dirty].
  - split_and!; [done|..|done|done].
    + intros ->. cbn in Er. rewrite Eh in Er. apply negb_true_iff, Z.ltb_ge in Er. lia.
    + intros Ed. destruct Hf as [?|[-> Hsz]]; [congruence|]. cbn in Er. rewrite Eh in Er. apply negb_true_iff, Z.ltb_ge in Er. lia.
  - apply orb_false_iff in Er as [-> Er]. destruct n; try done; cbn [hash dirty]; by split_and!.
Qed.

(** The loop over the children in [hash_]. *)
Fixpoint hash_children (i : nat) (cs : list node) {struct cs} : outcome (list node * list node) :=
  match cs, i with
  | [], _ => Ok ([], [])
  | cs, O => Ok (cs, cs)
  | c :: cs, S i =>
      cc <- (match c with nilNode => Ok (valueNode [], nilNode) | c => hash_ c false end) ;;
      rest <- hash_children i cs ;;
      Ok (fst cc :: fst rest, snd cc :: snd rest)
  end.

Lemma hash_full cs f force : hash f = None ->
  hash_ (fullNode cs f) force =
  (r <- hash_children 16 cs ;;
   hashed <- nodeToHash (fullNode (fst r) f) force ;;
   Ok (hashed, fullNode (snd r) (flag_hash f hashed))).
Proof. intros E. cbn [hash_ cache fst]. rewrite E. reflexivity. Qed.

Lemma hash_cached r n t h :
  Rep store r n t -> loaded n -> fst (cache n) = Some h -> hash_done r t (hashNode h) n.
Proof.
  intros HR Hl E. assert (h = thash t /\ (r = false -> hashed t = true) /\ Cached n t) as (-> & Hh & Hc).
  { inversion HR as [| | |r' k m u f Hm Hf Hc|r' cs ts f Hcs Hf Hc]; subst; try done; cbn [cache fst] in E;
      unfold flag_ok in Hf; rewrite E in Hf; destruct Hf as (-> & Hsz & _); (split; [done|]); (split;
      [intros Hr; cbn [hashed]; apply negb_true_iff, Z.ltb_ge; auto|]); (destruct Hc as [?|Hc]; [congruence|]);
      constructor; try done; congruence. }
  constructor; [done|done|by split|]. intros Hr. unfold cval. by rewrite (Hh Hr).
Qed.

(** The database has no other trees. *)
Hypothesis Hst : forall h t, store h = Some t -> wft t.

Lemma Rep_leaf c t : Rep store false c t -> t = TNil \/ is_val t -> child_rval c = cval t /\ Cached c t.
Proof.
  intros HR Ht. inversion HR as [| |r h u Es| |]; subst.
  - split; [done|constructor].
  - split; [done|constructor].
  - apply Hst in Es. by destruct Ht as [->|(v & -> & _)].
  - by destruct Ht as [?|(v & ? & _)].
  - by destruct Ht as [?|(v & ? & _)].
Qed.

Lemma hash_children_leaf cs ts :
  Forall2 (Rep store false) cs ts -> Forall (fun t => t = TNil \/ is_val t) ts ->
  map child_rval cs = map cval ts /\ Forall2 Cached cs ts.
Proof.
  intros H. induction H as [|c t cs ts Hc _ IH]; intros Hl; [split; [done|constructor]|].
  apply Forall_cons in Hl as [Ht Hl]. destruct (IH Hl) as [E HC]. destruct (Rep_leaf _ _ Hc Ht) as [E1 H1].
  cbn [map]. rewrite E1, E. split; [done|by constructor].
Qed.

Definition hash_spec (n : node) : Prop :=
  forall r t, Rep store r n t -> wft t -> tsized t -> exists hn n', hash_ n r = Ok (hn, n') /\ hash_done r t hn n'.

Lemma hash_children_ok cs ts i :
  Forall2 (Rep store false) cs ts -> Forall hash_spec cs -> Forall tsized ts ->
  Forall tree_shape (take i ts) -> Forall (fun t => t = TNil \/ is_val t) (drop i ts) ->
  exists hs cs', hash_children i cs = Ok (hs, cs') /\ map child_rval hs = map cval ts /\
    Forall2 (Rep store false) cs' ts /\ Forall2 Cached cs' ts.
Proof.
  intros H. revert i. induction H as [|c t cs ts Hc Hcs IH]; intros i Hsp Hsz Ht Hd.
  - exists [], []. split_and!; [done|done|constructor|constructor].
  - destruct i as [|i].
    { exists (c :: cs), (c :: cs). destruct (hash_children_leaf (c :: cs) (t :: ts)) as [? ?]; [by constructor|done|].
      split_and!; [done|done|by constructor|done]. }
    apply Forall_cons in Hsp as [Hsc Hsp]. apply Forall_cons in Hsz as [Hzt Hsz]. cbn [take drop] in Ht, Hd.
    apply Forall_cons in Ht as [Ht Hts]. destruct (IH i Hsp Hsz Hts Hd) as (hs & cs' & E & Em & HR' & HC').
    assert (exists hn n', (match c with nilNode => Ok (valueNode [], nilNode) | c => hash_ c false end) = Ok (hn, n') /\
              child_rval hn = cval t /\ Rep store false n' t /\ Cached n' t) as (hn & n' & E1 & E2 & HR1 & HC1).
    { destruct Ht as [->|Hw].
      - assert (c = nilNode) as ->; [|exists (valueNode []), nilNode; split_and!; [done|done|constructor|constructor]].
        inversion Hc as [| |r h u Es| |]; subst; [done|]. by apply Hst in Es.
      - destruct (Hsc false t Hc Hw Hzt) as (hn & n' & E1 & [HR1 HC1 _ Hr]). exists hn, n'.
        split_and!; [|by apply Hr|done|done]. destruct c; try done. by inversion Hc; subst. }
    exists (hn :: hs), (n' :: cs'). cbn [hash_children]. rewrite E1. cbn [obind]. rewrite E. cbn [obind fst snd map].
    rewrite E2, Em. split_and!; [by destruct c|done|by constructor|by constructor].
Qed.

Lemma hash_finish r f t n m :
  wft t -> tsized t -> flag_ok store r f t -> hash f = None -> node_rval n = tval t -> loaded n -> loaded m ->
  let hn := if r || hashed t then hashNode (thash t) else n in
  fst (cache m) = hash (flag_hash f hn) ->
  Rep store r m t -> Cached m t -> nodeToHash n r = Ok hn /\ hash_done r t hn m.
Proof.
  intros Hw Hs Hf E En Hl Hm hn Ec HR HC. split; [by apply nodeToHash_ok|].
  destruct (flag_hash_ok r f n t Hw Hf E Hl) as (_ & _ & Htop). constructor; [done|done|..].
  - intros ->. split; [done|]. intros _. rewrite Ec. by apply Htop.
  - intros ->. unfold hn, cval. cbn [orb]. destruct (hashed t); [done|]. rewrite <- En. by destruct n.
Qed.

Lemma node_rval_cval hn t : wft t -> child_rval hn = cval t -> node_rval hn = cval t.
Proof.
  intros Hw E. destruct hn; try done. cbn in E. exfalso. unfold cval in E. destruct (hashed t).
  - injection E as E. destruct (thash_bytes t) as [_ Hl]. by rewrite <- E in Hl.
  - by destruct t.
Qed.

Lemma hash_full_ok cs f : Forall hash_spec cs -> hash_spec (fullNode cs f).
Proof.
  intros IH r t HR Hw Hs. destruct (hash f) as [h|] eqn:E.
  { exists (hashNode h), (fullNode cs f). split; [cbn; by rewrite E|]. by apply hash_cached. }
  destruct (Rep_full_inv _ _ _ _ _ HR) as (ts & -> & Hcs & Hf & _). rewrite hash_full by done.
  assert (Forall tsized ts) as Hsz by (by apply foldr_and_Forall).
  destruct (hash_children_ok cs ts 16 Hcs IH Hsz) as (hs & cs' & -> & Em & HR' & HC').
  { apply Forall_lookup. intros i t Et. apply lookup_take_Some in Et as [Et Hi].
    destruct (full_child _ _ _ Hw Et) as [_ [->|[[-> _]|[_ ?]]]]; [by left|lia|by right]. }
  { apply Forall_lookup. intros i t Et. rewrite lookup_drop in Et.
    destruct (full_child _ _ _ Hw Et) as [_ [->|[[_ ?]|[? _]]]]; [by left|by right|lia]. }
  cbn [obind fst snd]. set (t := TFull ts) in *. set (n := fullNode hs f).
  destruct (flag_hash_ok r f n t Hw Hf E I) as (Hf' & Hn & _).
  set (hn := if r || hashed t then hashNode (thash t) else n) in *.
  destruct (hash_finish r f t n (fullNode cs' (flag_hash f hn))) as [-> Hd]; try done.
  - change (VList (map child_rval hs) = VList (map cval ts)). by rewrite Em.
  - constructor; [done|done|by right].
  - constructor; [done|]. intros E'. by apply Hn in E' as [_ ?].
  - cbn [obind]. eexists _, _. split; [done|exact Hd].
Qed.

Lemma hash_short_child v u :
  hash_spec v -> Rep store false v u -> tsized u -> wft u \/ is_val u ->
  (forall k c, u <> TShort k c) ->
  exists hv v', (match v with fullNode _ _ | shortNode _ _ _ => hash_ v false | _ => Ok (v, v) end) = Ok (hv, v') /\
    node_rval hv = cval u /\ Rep store false v' u /\ Cached v' u.
Proof.
  intros IH HR Hs Hu Hns. destruct Hu as [Hw|Hv].
  - destruct v as [|cs f|k c f|h|w].
    + by inversion HR; subst.
    + destruct (IH false u HR Hw Hs) as (hv & v' & E & [HR' HC' _ Hr]). exists hv, v'. split_and!; [done| |done|done].
      apply node_rval_cval; auto.
    + destruct (IH false u HR Hw Hs) as (hv & v' & E & [HR' HC' _ Hr]). exists hv, v'. split_and!; [done| |done|done].
      apply node_rval_cval; auto.
    + exists (hashNode h), (hashNode h). split_and!; [done| |done|constructor].
      inversion HR as [| |r h' u' Es Eh Hsz| |]; subst. unfold cval.
      assert (hashed u = true) as ->; [|done]. assert (hashed u = negb (zlen (tenc u) <? 32)) as -> by (by destruct u).
      apply negb_true_iff, Z.ltb_ge. auto.
    + by inversion HR; subst.
  - destruct (Rep_leaf _ _ HR (or_intror Hv)) as [Er Hc]. destruct Hv as (w & -> & _).
    inversion HR as [| |r h' u' Es| |]; subst; [|by apply Hst in Es]. eexists _, _. by split_and!.
Qed.

Lemma hash_short_ok k v f : hash_spec v -> hash_spec (shortNode k v f).
Proof.
  intros IH r t HR Hw Hs. destruct (hash f) as [h|] eqn:E.
  { exists (hashNode h), (shortNode k v f). split; [cbn; by rewrite E|]. by apply hash_cached. }
  destruct (Rep_short_inv _ _ _ _ _ _ HR) as (u & -> & Hu & Hf & _).
  destruct (hexToCompact_path k (wft_path _ _ Hw)) as (ck & Ek & _ & Hb & _).
  destruct (hash_short_child v u IH Hu) as (hv & v' & Ev & Er & HR' & HC').
  { apply Hs. }
  { pose proof Hw as Hw'. cbn [wft] in Hw'. destruct u; try done; [by left; destruct Hw' as (_ & _ & ?)|right].
    destruct Hw' as [_ ?]. by eexists. }
  { intros k' c ->. done. }
  cbn [hash_ cache fst]. rewrite E, Ek. cbn [of_option obind]. rewrite Ev. cbn [obind fst snd].
  set (t := TShort k u) in *. set (n := shortNode ck hv f).
  destruct (flag_hash_ok r f n t Hw Hf E I) as (Hf' & Hn & _).
  set (hn := if r || hashed t then hashNode (thash t) else n) in *.
  destruct (hash_finish r f t n (shortNode k v' (flag_hash f hn))) as [-> Hd]; try done.
  - change (VList [VBytes ck; node_rval hv] = VList [VBytes (compact k); cval u]). unfold compact. by rewrite Er, Ek.
  - constructor; [done|done|by right].
  - constructor; [done|]. intros E'. by apply Hn in E' as [_ ?].
  - cbn [obind]. eexists _, _. split; [done|exact Hd].
Qed.

Lemma hash_ok n : hash_spec n.
Proof.
  induction n as [|cs f IH|k v f IH|h|v] using node_nested_ind.
  - intros r t HR Hw _. by inversion HR; subst.
  - by apply hash_full_ok.
  - by apply hash_short_ok.
  - intros r t HR Hw _. exists (hashNode h), (hashNode h). split; [done|].
    inversion HR as [| |r' h' t' Es Eh Hsz| |]; subst. constructor; [done|constructor|by intros|]. intros ->.
    unfold cval. assert (hashed t = true) as ->; [|done]. assert (hashed t = negb (zlen (tenc t) <? 32)) as -> by (by destruct t).
    apply negb_true_iff, Z.ltb_ge. auto.
  - intros r t HR Hw _. by inversion HR; subst.
Qed.

(** The root hash of a map's tree. *)
Definition root_hash (t : tree) : Hash :=
  match t with TNil => emptyRoot | _ => BytesToHash (thash t) end.

Lemma Trie_Hash_tree n t :
  Rep store true n t -> tree_shape t -> tsized t ->
  exists n', Trie_Hash n = Ok (root_hash t, n') /\ Rep store true n' t /\ Cached n' t /\
    (loaded n' -> fst (cache n') = Some (thash t)).
Proof.
  intros HR [->|Hw] Hs.
  { assert (n = nilNode) as ->; [|exists nilNode; split_and!; [done|constructor|constructor|done]].
    inversion HR as [| |r h u Es| |]; subst; [done|]. by apply Hst in Es. }
  destruct (hash_ok n true t HR Hw Hs) as (hn & n' & E & [HR' HC' Ht _]). destruct (Ht eq_refl) as [-> Hl].
  exists n'. unfold Trie_Hash. assert (root_hash t = BytesToHash (thash t)) as -> by (by destruct t).
  split_and!; [|done|done|done]. destruct n; [by inversion HR; subst|..]; by rewrite E.
Qed.
End store.
End hashing.

(** C18: the root hash is a function of the content.  Hashing never fails; two
    tries with the same content have the same root hash, whatever operations led
    to them, whichever of their nodes are loaded and whichever hashes are cached;
    and hashing leaves the content as it is. *)
Theorem root_hash_history_independent {K : Keccak} (store1 store2 : Hash -> option tree) (db1 db2 : Database) (root1 root2 : node) (m : kvmap) :
  db_ok store1 db1 -> db_ok store2 db2 -> trie_map store1 root1 m -> trie_map store2 root2 m -> map_Forall small_entry m ->
  exists h root1' root2', Trie_Hash root1 = Ok (h, root1') /\ Trie_Hash root2 = Ok (h, root2') /\
    trie_map store1 root1' m /\ trie_map store2 root2' m.
Proof.
  intros Hdb1 Hdb2 (t & Ht & HR & Hc) (t2 & Ht2 & HR2 & Hc2) Hm.
  rewrite (content_unique _ _ _ Ht2 Ht Hc2 Hc) in *. pose proof (tsized_map _ _ Ht Hc Hm) as Hs.
  destruct (Trie_Hash_tree store1 (fun h t E => proj1 (Hdb1 h t E)) root1 t HR Ht Hs) as (n1 & E1 & HR1 & _).
  destruct (Trie_Hash_tree store2 (fun h t E => proj1 (Hdb2 h t E)) root2 t HR2 Ht Hs) as (n2 & E2 & HR2' & _).
  exists (root_hash t), n1, n2. split_and!; [done|done|by exists t|by exists t].
Qed.
