(* ===== verification/TrieDisk.v ===== *)
(** * Nodes in the database

    A node in the database holds the hashes of its large children and its small
    children themselves.  Decoding its encoding gives this node back, so that the
    encodings of different trees differ unless two hashes collide: the root hash
    of a trie commits to its content. *)

From Stdlib Require Import ZArith Lia.
From stdpp Require Import gmap.
From S2P Require Import Prelude Common Rlp RlpSpec RlpDecode RlpTheorems RlpRaw Crypto Trie TrieEnc TrieSpec TrieRefine TrieUpdate TrieMap TrieHash.

Open Scope go_scope.

Section disk.
Context {K : Keccak}.

(** The node the database gives for the tree [t]. *)
Fixpoint unload (h : option bytes) (t : tree) : node :=
  match t with
  | TNil => nilNode
  | TVal v => valueNode v
  | TShort k c => shortNode k (if hashed c then hashNode (thash c) else unload None c) (MkNodeFlag h false)
  | TFull cs => fullNode (map (fun c => if hashed c then hashNode (thash c) else unload None c) cs) (MkNodeFlag h false)
  end.

Definition uref (t : tree) : node := if hashed t then hashNode (thash t) else unload None t.

(** ** Decoding *)

Lemma Split_string b rest : data_ok (rlp_string b ++ rest) ->
  Split (rlp_string b ++ rest) = Some (inl (if short_byte b then KByte else KString, b, rest)).
Proof. intros H. apply Split_iff; [done|]. by right. Qed.

Lemma Split_list b rest : data_ok (rlp_list b ++ rest) -> Split (rlp_list b ++ rest) = Some (inl (KList, b, rest)).
Proof. intros H. apply Split_iff; [done|]. by left. Qed.

Lemma SplitList_list b rest : data_ok (rlp_list b ++ rest) -> SplitList (rlp_list b ++ rest) = Some (inl (b, rest)).
Proof. intros H. unfold SplitList. by rewrite Split_list. Qed.

Lemma SplitString_string b rest : data_ok (rlp_string b ++ rest) -> SplitString (rlp_string b ++ rest) = Some (inl (b, rest)).
Proof. intros H. by apply SplitString_iff. Qed.

Lemma data_ok_tail a b : data_ok (a ++ b) -> data_ok b.
Proof. intros [H Hl]. apply Forall_app in H as [_ H]. split; [done|]. rewrite zlen_app in Hl. pose proof (zlen_nonneg a). lia. Qed.

Lemma data_ok_front a b : data_ok (a ++ b) -> data_ok a.
Proof. intros [H Hl]. apply Forall_app in H as [H _]. split; [done|]. rewrite zlen_app in Hl. pose proof (zlen_nonneg b). lia. Qed.

Lemma rlp_list_content b rest : data_ok (rlp_list b ++ rest) -> data_ok b.
Proof. intros H. apply data_ok_front in H. by apply data_ok_tail in H. Qed.

Lemma CountValues_items items : data_ok (concat items) -> Forall top_item items -> CountValues (concat items) = Some (inl (zlen items)).
Proof.
  intros Hb Hi. unfold CountValues. apply (proj2 (CountValues_loop_spec (S (length (concat items))) 0 (concat items) Hb ltac:(lia))).
  exists items. by split_and!.
Qed.

Lemma tref_item t : tree_shape t \/ is_val t -> top_item (tref t).
Proof.
  intros Ht. rewrite tref_hashed. destruct (hashed t); [eexists; by left|].
  destruct t as [|cs|k c|v]; eexists; [left|right|right|left]; done.
Qed.

Lemma rlp_list_longer b : (length b < length (rlp_list b))%nat.
Proof. unfold rlp_list, rlp_head. rewrite length_app. destruct (zlen b <? 56); cbn [length]; lia. Qed.

Lemma concat_member {A} (l : list (list A)) i x : l !! i = Some x -> (length x <= length (concat l))%nat.
Proof.
  revert i. induction l as [|y l IH]; intros i E; [done|]. cbn [concat]. rewrite length_app.
  destruct i as [|i]; [injection E as ->; lia|]. pose proof (IH i E). lia.
Qed.

(** [dec] decodes the small trees below [t]. *)
Definition decodes_ref (dec : bytes -> outcome (option node)) (t : tree) : Prop :=
  forall rest, data_ok (tref t ++ rest) -> hashed t = false -> wft t -> dec (tref t ++ rest) = Ok (Some (unload None t)).

Lemma decodeRef_ok dec t rest :
  tree_shape t -> data_ok (tref t ++ rest) -> decodes_ref dec t -> decodeRef dec (tref t ++ rest) = Ok (Some (uref t, rest)).
Proof.
  intros Ht Hb Hd. unfold decodeRef, uref. rewrite tref_hashed in *. destruct (hashed t) eqn:Eh.
  - destruct (thash_bytes t) as [Hbt Hl]. rewrite Split_string by done. cbn [obind2]. assert (short_byte (thash t) = false) as ->.
    { unfold short_byte. by rewrite Hl. }
    by rewrite Hl.
  - destruct Ht as [->|Hw]; [change (tenc TNil) with (rlp_string []) in *; by rewrite Split_string|].
    specialize (Hd rest). rewrite tref_hashed, Eh in Hd.
    assert (zlen (tenc t) < 32) as Hs.
    { unfold hashed in Eh. destruct t; try done; by apply negb_false_iff, Z.ltb_lt in Eh. }
    assert (exists b, tenc t = rlp_list b) as (b & Eb) by (destruct t; try done; by eexists).
    rewrite Eb in *. rewrite Split_list by done. cbn [obind2]. rewrite zlen_app.
    replace (zlen (rlp_list b) + zlen rest - zlen rest) with (zlen (rlp_list b)) by lia.
    unfold hashLen. destruct (Z.ltb_spec 32 (zlen (rlp_list b))); [lia|]. rewrite Hd by done. done.
Qed.

Lemma decode_children_ok dec ts acc rest :
  Forall tree_shape ts -> Forall (decodes_ref dec) ts -> data_ok (concat (map tref ts) ++ rest) ->
  decode_children dec (length ts) (concat (map tref ts) ++ rest) acc = Ok (Some (acc ++ map uref ts, rest)).
Proof.
  intros Ht Hd. revert acc. induction ts as [|t ts IH]; intros acc Hb; [by rewrite app_nil_r|].
  apply Forall_cons in Ht as [Ht Hts]. apply Forall_cons in Hd as [Hd Hds]. cbn [map concat length decode_children] in *.
  rewrite <- app_assoc in *. rewrite decodeRef_ok by done. cbn [obind]. rewrite IH by (try done; by apply data_ok_tail in Hb).
  by rewrite <- app_assoc.
Qed.

Lemma decodeShort_ok dec h k c :
  wft (TShort k c) -> data_ok (rlp_string (compact k) ++ tref c) -> decodes_ref dec c ->
  decodeShort dec h (rlp_string (compact k) ++ tref c) = Ok (Some (unload h (TShort k c))).
Proof.
  intros Hw Hb Hd. unfold decodeShort. rewrite SplitString_string by done. cbn [obind2].
  destruct (hexToCompact_path k (wft_path _ _ Hw)) as (ck & Ek & Ec & _).
  assert (compactToHex (compact k) = k) as -> by (unfold compact; by rewrite Ek).
  pose proof Hw as Hw'. cbn [wft] in Hw'. apply data_ok_tail in Hb. destruct c as [|cs|?|v]; try done.
  - destruct Hw' as (_ & Hn & Hc). rewrite hasTerm_nibbles by done. rewrite <- (app_nil_r (tref (TFull cs))) in *.
    rewrite decodeRef_ok; [done|by right|done..].
  - destruct Hw' as [(ns & -> & _) _]. rewrite last_snoc_term. change (tref (TVal v)) with (rlp_string v) in *.
    rewrite <- (app_nil_r (rlp_string v)) in *. by rewrite SplitString_string.
Qed.

Lemma decodeFull_ok dec h ts :
  wft (TFull ts) -> data_ok (concat (map tref ts)) -> Forall (decodes_ref dec) ts ->
  decodeFull dec h (concat (map tref ts)) = Ok (Some (unload h (TFull ts))).
Proof.
  intros Hw Hb Hd. pose proof Hw as (Hl & _).
  destruct (lookup_lt_is_Some_2 ts 16 ltac:(lia)) as [c Ec].
  assert (ts = take 16 ts ++ [c]) as E.
  { rewrite <- (take_drop 16 ts) at 1. f_equal. rewrite (drop_S _ _ _ Ec). by rewrite drop_ge by lia. }
  assert (length (take 16 ts) = 16%nat) as Hl16 by (rewrite length_take; lia).
  assert (Forall tree_shape (take 16 ts)) as Hsh.
  { apply Forall_lookup. intros i t Et. apply lookup_take_Some in Et as [Et Hi].
    destruct (full_child _ _ _ Hw Et) as [_ [->|[[-> _]|[_ ?]]]]; [by left|lia|by right]. }
  assert (c = TNil \/ is_val c) as Hc.
  { destruct (full_child _ _ _ Hw Ec) as [_ [->|[[_ ?]|[? _]]]]; [by left|by right|lia]. }
  unfold decodeFull. rewrite E in Hb, Hd |- *. rewrite map_app, concat_app in *. apply Forall_app in Hd as [Hd _].
  cbn [map concat] in *. rewrite app_nil_r in *. rewrite <- Hl16 at 1. rewrite decode_children_ok by done. cbn [obind].
  apply data_ok_tail in Hb. rewrite <- (app_nil_r (tref c)) in *.
  assert (exists v, tref c = rlp_string v /\ (if 0 <? zlen v then valueNode v else nilNode) = uref c) as (v & Ev & Eu).
  { destruct Hc as [->|(v & -> & Hv)]; [by exists []|]. exists v. split; [done|]. destruct v as [|x v]; [done|].
    rewrite zlen_cons. pose proof (zlen_nonneg v). by destruct (Z.ltb_spec 0 (1 + zlen v)); [|lia]. }
  rewrite Ev in *. rewrite SplitString_string by done. cbn [obind2]. rewrite Eu.
  cbn [unload]. do 3 f_equal. change ([] ++ map uref (take 16 ts) ++ [uref c] = map uref (take 16 ts ++ [c])). by rewrite map_app.
Qed.

Lemma decodeNode_ok fuel : forall h t rest,
  wft t -> (length (tenc t) < fuel)%nat -> data_ok (tenc t ++ rest) ->
  decodeNode fuel h (tenc t ++ rest) = Ok (Some (unload h t)).
Proof.
  induction fuel as [|fuel IH]; intros h t rest Hw Hf Hb; [lia|].
  assert (forall c, (length (tref c) < fuel)%nat -> decodes_ref (decodeNode fuel None) c) as Hd.
  { intros c Hl rest' Hb' Eh Hc. rewrite tref_hashed, Eh in *. by apply IH. }
  assert (forall b, (zlen (rlp_list b ++ rest) =? 0) = false) as Hne.
  { intros b. rewrite zlen_app. pose proof (rlp_list_longer b). pose proof (zlen_nonneg rest). apply Z.eqb_neq. unfold zlen in *. lia. }
  destruct t as [|cs|k c|v]; try done.
  - change (tenc (TFull cs)) with (rlp_list (concat (map tref cs))) in *. cbn [decodeNode]. rewrite Hne.
    rewrite SplitList_list by done. cbn [obind2]. pose proof (rlp_list_content _ _ Hb) as Hc.
    pose proof (rlp_list_longer (concat (map tref cs))). rewrite CountValues_items; [|done|].
    + unfold zlen at 1 2. rewrite length_map. pose proof Hw as (-> & _). cbn [Z.eqb]. apply decodeFull_ok; [done..|].
      apply Forall_lookup. intros i t Et. apply Hd.
      pose proof (concat_member (map tref cs) i (tref t) ltac:(by rewrite list_lookup_fmap, Et)). lia.
    + apply Forall_lookup. intros i x Ex. rewrite list_lookup_fmap in Ex. apply fmap_Some in Ex as (t & Et & ->).
      apply tref_item. destruct (full_child _ _ _ Hw Et) as [_ [->|[[_ ?]|[_ ?]]]]; [by left; left|by right|by left; right].
  - change (tenc (TShort k c)) with (rlp_list (rlp_string (compact k) ++ tref c)) in *. cbn [decodeNode]. rewrite Hne.
    rewrite SplitList_list by done. cbn [obind2]. pose proof (rlp_list_content _ _ Hb) as Hc.
    pose proof (rlp_list_longer (rlp_string (compact k) ++ tref c)). rewrite length_app in *.
    pose proof (CountValues_items [rlp_string (compact k); tref c]) as Hcv. cbn [concat] in Hcv. rewrite app_nil_r in Hcv.
    rewrite Hcv; [|done|].
    + change (zlen [rlp_string (compact k); tref c]) with 2. cbn [Z.eqb]. apply decodeShort_ok; [done..|]. apply Hd. lia.
    + apply Forall_cons_2; [eexists; by left|]. apply Forall_cons_2; [|apply Forall_nil_2]. apply tref_item.
      cbn [wft] in Hw. destruct c; try done; [left; right; by destruct Hw as (_ & _ & ?)|]. right. destruct Hw as [_ ?]. by eexists.
Qed.

Lemma tenc_data t : wft t -> tsized t -> data_ok (tenc t).
Proof.
  intros Hw Hs. pose proof (zlen_tenc t Hw Hs) as Hl. split; [|done]. rewrite <- rlp_tval in *.
  apply rlp_bytes; [|done]. apply tval_ok; [left; by right|done].
Qed.

Lemma mustDecodeNode_ok h t : wft t -> tsized t -> mustDecodeNode h (tenc t) = Ok (unload (Some h) t).
Proof.
  intros Hw Hs. unfold mustDecodeNode. rewrite <- (app_nil_r (tenc t)) at 2.
  rewrite decodeNode_ok; [done|done|lia|]. rewrite app_nil_r. by apply tenc_data.
Qed.

(** ** A database that holds a tree *)

Inductive subtree (s : tree) : tree -> Prop :=
| sub_refl : subtree s s
| sub_short k c : subtree s c -> subtree s (TShort k c)
| sub_full cs i c : cs !! i = Some c -> subtree s c -> subtree s (TFull cs).

Lemma subtree_trans s t u : subtree s t -> subtree t u -> subtree s u.
Proof. intros Hs Hu. induction Hu; [done|by apply sub_short|by eapply sub_full]. Qed.

Lemma subtree_sized s t : subtree s t -> tsized t -> tsized s.
Proof.
  induction 1 as [|k c _ IH|cs i c E _ IH]; intros Hz; [done|destruct Hz as [_ Hz]; auto|]. apply IH. by eapply tsized_full.
Qed.

Definition stored (store : Hash -> option tree) (t : tree) : Prop :=
  forall s, subtree s t -> hashed s = true -> store (BytesToHash (thash s)) = Some s.

Lemma hashed_size t : hashed t = true -> 32 <= zlen (tenc t).
Proof. unfold hashed. destruct t; try done; intros E; by apply negb_true_iff, Z.ltb_ge in E. Qed.

Lemma unhashed_size t : wft t -> hashed t = false -> zlen (tenc t) < 32.
Proof. unfold hashed. destruct t; try done; intros _ E; by apply negb_false_iff, Z.ltb_lt in E. Qed.

Definition slot_tree (t : tree) : Prop := tree_shape t \/ is_val t.

Lemma child_slot_tree cs i c : wft (TFull cs) -> cs !! i = Some c -> slot_tree c.
Proof.
  intros Hw E. destruct (full_child _ _ _ Hw E) as [_ [->|[[_ ?]|[_ ?]]]]; [by left; left|by right|by left; right].
Qed.

Lemma short_slot_tree k c : wft (TShort k c) -> slot_tree c.
Proof.
  cbn [wft]. destruct c; try done; [intros (_ & _ & ?); left; by right|]. intros [_ ?]. right. by eexists.
Qed.

Lemma slot_tree_loaded t : slot_tree t -> t <> TNil -> (forall v, t <> TVal v) -> wft t.
Proof. intros [[?|?]|(v & -> & _)] Hn Hv; try done. by destruct (Hv v). Qed.

Section unload.
Context (store : Hash -> option tree).

Definition unload_spec (t : tree) : Prop :=
  forall r h, wft t -> (forall s, subtree s t -> s <> t -> hashed s = true -> store (BytesToHash (thash s)) = Some s) ->
    flag_ok store r (MkNodeFlag h false) t -> (h = None -> hashed t = false) ->
    Rep store r (unload h t) t /\ Cached (unload h t) t.

Lemma Rep_uref c : slot_tree c -> stored store c -> unload_spec c -> Rep store false (uref c) c /\ Cached (uref c) c.
Proof.
  intros Hs Hst H. unfold uref. destruct (hashed c) eqn:E.
  - split; constructor; [apply Hst; [constructor|done]|done|]. intros _. by apply hashed_size.
  - destruct Hs as [[->|Hw]|(v & -> & _)]; [split; constructor| |split; constructor].
    apply H; [done| | |done].
    + intros s Hsub _. by apply Hst.
    + right. split; [done|]. by apply unhashed_size.
Qed.

(** A tree is not below itself. *)
Fixpoint depth (t : tree) : nat :=
  match t with
  | TNil | TVal _ => 0
  | TShort _ c => S (depth c)
  | TFull cs => S (foldr Nat.max 0%nat (map depth cs))
  end.

Lemma depth_child cs i c : cs !! i = Some c -> (depth c <= foldr Nat.max 0%nat (map depth cs))%nat.
Proof.
  revert i. induction cs as [|d cs IH]; intros i E; [done|]. cbn. destruct i as [|i]; [injection E as ->; lia|].
  pose proof (IH i E). lia.
Qed.

Lemma subtree_depth s t : subtree s t -> (depth s <= depth t)%nat.
Proof.
  induction 1 as [|k c _ IH|cs i c E _ IH]; [done|cbn; lia|]. cbn. pose proof (depth_child _ _ _ E). lia.
Qed.

Lemma Rep_unload t : unload_spec t.
Proof.
  induction t as [|cs IH|k c IH|v] using tree_nested_ind; intros r h Hw Hst Hf Hh; [done|..|done].
  - assert (Forall2 (Rep store false) (map uref cs) cs /\ Forall2 Cached (map uref cs) cs) as [HR HC].
    { assert (Forall (fun c => Rep store false (uref c) c /\ Cached (uref c) c) cs) as Hall.
      { rewrite Forall_lookup in IH |- *. intros i c E. apply Rep_uref; [by eapply child_slot_tree| |by eapply IH].
        intros s Hs Ehs. apply Hst; [by eapply sub_full| |done]. intros ->. apply subtree_depth in Hs. cbn in Hs.
        pose proof (depth_child _ _ _ E). lia. }
      clear - Hall. induction Hall as [|c cs [? ?] _ [? ?]]; split; constructor; done. }
    split; constructor; try done. by right.
  - destruct (Rep_uref c) as [HR HC]; [by eapply short_slot_tree| |done|split; constructor; try done; by right].
    intros s Hs Ehs. apply Hst; [by apply sub_short| |done]. intros ->. apply subtree_depth in Hs. cbn in Hs. lia.
Qed.

(** The database gives a tree it holds. *)
Lemma unload_root t :
  wft t -> stored store t -> store (BytesToHash (thash t)) = Some t ->
  Rep store true (unload (Some (thash t)) t) t /\ Cached (unload (Some (thash t)) t) t /\ loaded (unload (Some (thash t)) t).
Proof.
  intros Hw Hst E. destruct (Rep_unload t true (Some (thash t)) Hw) as [HR HC]; [intros s Hs _; by apply Hst|by split_and!|done|].
  split_and!; [done..|by destruct t].
Qed.
End unload.

(** ** The encoding determines the tree *)

Definition collision_free (t t' : tree) : Prop :=
  forall s s', subtree s t -> subtree s' t' -> thash s = thash s' -> tenc s = tenc s'.

Lemma uref_inj c c' :
  slot_tree c -> slot_tree c' -> tsized c -> tsized c' -> collision_free c c' ->
  (unload None c = unload None c' -> c = c') -> uref c = uref c' -> c = c'.
Proof.
  intros Hs Hs' Hz Hz' Hcf IH. unfold uref. assert (forall h t, unload None t <> hashNode h) as Hne by (by intros h []).
  destruct (hashed c) eqn:E, (hashed c') eqn:E'; intros Er.
  - assert (thash c = thash c') as Eh by congruence. clear Er. apply IH. assert (wft c) as Hw by (apply slot_tree_loaded; [done|by intros ->|by intros v ->]).
    assert (wft c') as Hw' by (apply slot_tree_loaded; [done|by intros ->|by intros v ->]).
    assert (tenc c = tenc c') as Ee by (apply Hcf; [apply sub_refl|apply sub_refl|done]).
    pose proof (decodeNode_ok (S (length (tenc c))) None c [] Hw ltac:(lia)) as H1.
    pose proof (decodeNode_ok (S (length (tenc c))) None c' [] Hw' ltac:(rewrite Ee; lia)) as H2.
    rewrite app_nil_r in *. specialize (H1 (tenc_data c Hw Hz)). specialize (H2 (tenc_data c' Hw' Hz')). rewrite Ee in H1. congruence.
  - by destruct (Hne (thash c) c').
  - by destruct (Hne (thash c') c).
  - by apply IH.
Qed.

Lemma unload_inj t : forall t',
  slot_tree t -> slot_tree t' -> tsized t -> tsized t' -> collision_free t t' -> unload None t = unload None t' -> t = t'.
Proof.
  induction t as [|cs IH|k c IH|v] using tree_nested_ind; intros t' Hs Hs' Hz Hz' Hcf E; (destruct t' as [|cs'|k' c'|v']; try done).
  - assert (wft (TFull cs)) as Hw by (by apply slot_tree_loaded). assert (wft (TFull cs')) as Hw' by (by apply slot_tree_loaded).
    injection E as E. change (map uref cs = map uref cs') in E. f_equal. apply list_eq. intros i.
    assert (map uref cs !! i = map uref cs' !! i) as Ei by (by rewrite E). rewrite !list_lookup_fmap in Ei.
    destruct (cs !! i) as [c|] eqn:Ec, (cs' !! i) as [c'|] eqn:Ec'; try done. injection Ei as Ei. f_equal.
    rewrite Forall_lookup in IH. pose proof (child_slot_tree _ _ _ Hw Ec). pose proof (child_slot_tree _ _ _ Hw' Ec').
    pose proof (tsized_full _ _ _ Hz Ec). pose proof (tsized_full _ _ _ Hz' Ec').
    assert (collision_free c c') by (intros s s' Hsub Hsub'; apply Hcf; by eapply sub_full).
    apply uref_inj; try done. by apply (IH i c Ec).
  - assert (wft (TShort k c)) as Hw by (by apply slot_tree_loaded). assert (wft (TShort k' c')) as Hw' by (by apply slot_tree_loaded).
    injection E as -> E. f_equal. destruct Hz as [_ Hz], Hz' as [_ Hz'].
    pose proof (short_slot_tree _ _ Hw). pose proof (short_slot_tree _ _ Hw').
    assert (collision_free c c') by (intros s s' Hsub Hsub'; apply Hcf; by apply sub_short).
    apply uref_inj; try done. by apply IH.
  - by injection E as ->.
Qed.

Lemma thash_inj t t' : wft t -> wft t' -> tsized t -> tsized t' -> collision_free t t' -> thash t = thash t' -> t = t'.
Proof.
  intros Hw Hw' Hz Hz' Hcf E. assert (slot_tree t) by (left; by right). assert (slot_tree t') by (left; by right).
  apply unload_inj; try done. assert (tenc t = tenc t') as Ee by (apply Hcf; [apply sub_refl|apply sub_refl|done]).
  pose proof (mustDecodeNode_ok [] t Hw Hz) as H1. pose proof (mustDecodeNode_ok [] t' Hw' Hz') as H2.
  rewrite Ee, H2 in H1. assert (unload (Some []) t' = unload (Some []) t) as Hu by congruence.
  clear - Hu. destruct t, t'; cbn [unload] in *; congruence.
Qed.
End disk.

(** ** The root hash commits to the content *)

Lemma be_val_inj a b : Forall is_byte a -> Forall is_byte b -> length a = length b -> be_val a = be_val b -> a = b.
Proof.
  intros Ha Hb Hl E. rewrite <- (be_bytes_be_val a Ha), <- (be_bytes_be_val b Hb). by rewrite Hl, E.
Qed.

Lemma BytesToHash_32 b : zlen b = 32 -> BytesToHash b = be_val b.
Proof. unfold BytesToHash, crop_left, HashLength. intros ->. done. Qed.

Lemma length_thash {K : Keccak} t : length (thash t) = 32%nat.
Proof. destruct (thash_bytes t) as [_ H]. unfold zlen in H. lia. Qed.

Lemma Hash_Bytes_thash {K : Keccak} t : Hash_Bytes (BytesToHash (thash t)) = thash t.
Proof.
  destruct (thash_bytes t) as [Hb Hl]. rewrite BytesToHash_32 by done. unfold Hash_Bytes.
  rewrite <- (length_thash t). by apply be_bytes_be_val.
Qed.

Lemma BytesToHash_thash_inj {K : Keccak} t t' : BytesToHash (thash t) = BytesToHash (thash t') -> thash t = thash t'.
Proof. intros E. rewrite <- (Hash_Bytes_thash t), <- (Hash_Bytes_thash t'). by rewrite E. Qed.

Lemma root_hash_thash {K : Keccak} t : Keccak256Hash [128] = emptyRoot -> root_hash t = BytesToHash (thash t).
Proof.
  intros E. destruct t; [|done..]. unfold thash, Keccak256. change (tenc TNil) with [128]. rewrite E. by vm_compute.
Qed.

Lemma nil_hash {K : Keccak} t : wft t -> collision_free TNil t -> thash TNil <> thash t.
Proof.
  intros Hw Hcf E. apply Hcf in E; [|apply sub_refl..]. change (tenc TNil) with [128] in E.
  destruct t as [|cs|k c|v]; try done; cbn [tenc] in E; unfold rlp_list, rlp_head in E;
    match type of E with _ = (if ?x <? 56 then _ else _) ++ _ =>
      pose proof (zlen_nonneg (be_min x)); pose proof (zlen_nonneg (concat (map tref []))); destruct (Z.ltb_spec x 56) end;
    cbn [app] in E; injection E as E _; try lia.
  - pose proof (zlen_nonneg (concat (map (fun c => node_ref c (tenc c)) cs))). lia.
  - pose proof (zlen_nonneg (rlp_string (compact k) ++ node_ref c (tenc c))). lia.
Qed.

Lemma root_hash_inj {K : Keccak} t t' :
  Keccak256Hash [128] = emptyRoot -> tree_shape t -> tree_shape t' -> tsized t -> tsized t' ->
  collision_free t t' -> root_hash t = root_hash t' -> t = t'.
Proof.
  intros Hk Ht Ht' Hs Hs' Hcf E. rewrite !root_hash_thash in E by done. apply BytesToHash_thash_inj in E.
  destruct Ht as [->|Hw], Ht' as [->|Hw'].
  - done.
  - by destruct (nil_hash t').
  - destruct (nil_hash t); [done| |done]. intros s s' Hsub Hsub' Eh. symmetry. by apply Hcf.
  - by apply thash_inj.
Qed.

(** C19: the root hash commits to the content.  If two tries have the same root
    hash then they have the same content, unless the hashes of two of their nodes
    collide.  [emptyRoot] being the hash of the encoding of an absent node is a
    constant of Keccak-256. *)
Theorem root_hash_binding {K : Keccak} (store1 store2 : Hash -> option tree) (db1 db2 : Database) (root1 root2 root1' root2' : node) (m1 m2 : kvmap) (h : Hash) :
  Keccak256Hash [128] = emptyRoot ->
  db_ok store1 db1 -> db_ok store2 db2 -> trie_map store1 root1 m1 -> trie_map store2 root2 m2 ->
  map_Forall small_entry m1 -> map_Forall small_entry m2 ->
  (forall t1 t2, content t1 m1 -> content t2 m2 -> tree_shape t1 -> tree_shape t2 -> collision_free t1 t2) ->
  Trie_Hash root1 = Ok (h, root1') -> Trie_Hash root2 = Ok (h, root2') -> m1 = m2.
Proof.
  intros Hk Hdb1 Hdb2 (t1 & Ht1 & HR1 & Hc1) (t2 & Ht2 & HR2 & Hc2) Hm1 Hm2 Hcf E1 E2.
  pose proof (tsized_map _ _ Ht1 Hc1 Hm1) as Hs1. pose proof (tsized_map _ _ Ht2 Hc2 Hm2) as Hs2.
  destruct (Trie_Hash_tree store1 (fun h t E => proj1 (Hdb1 h t E)) root1 t1 HR1 Ht1 Hs1) as (n1 & E1' & _).
  destruct (Trie_Hash_tree store2 (fun h t E => proj1 (Hdb2 h t E)) root2 t2 HR2 Ht2 Hs2) as (n2 & E2' & _).
  assert (t1 = t2) as -> by (apply root_hash_inj; auto; congruence). by eapply content_functional.
Qed.

(** ** A database on disk *)

(** The trees of [store] are on disk, with the nodes below them. *)
Definition disk_ok {K : Keccak} (store : Hash -> option tree) (db : Database) : Prop :=
  forall h t, store h = Some t ->
    wft t /\ tsized t /\ h = BytesToHash (thash t) /\ stored store t /\
    dirties db !! h = None /\ diskdb db h = Some (tenc t).

(** Nodes on disk.  A database that has the encodings of the nodes of a set of
    trees under their hashes gives exactly these trees: decoding a node never
    fails, and gives a node that stands for the tree it was encoded from. *)
Lemma disk_db_ok {K : Keccak} (store : Hash -> option tree) (db : Database) :
  disk_ok store db -> db_ok store db.
Proof.
  intros H h t E. destruct (H h t E) as (Hw & Hs & Eh & Hst & Ed & Edisk). split; [done|]. subst h.
  exists (unload (Some (thash t)) t). split; [|by apply unload_root].
  unfold db_node. rewrite Ed, Edisk, Hash_Bytes_thash. by apply mustDecodeNode_ok.
Qed.
