(* ===== verification/TrieCommit.v ===== *)
(** * Committing a trie

    [commit] writes the dirty nodes of a trie to the database, children first, and
    leaves the root's hash.  Afterwards the trie can be opened again from its root
    hash, with the same content. *)

From Stdlib Require Import ZArith Lia.
From stdpp Require Import gmap.
From S2P Require Import Prelude Common Rlp RlpSpec Crypto Trie TrieEnc TrieSpec TrieRefine TrieUpdate TrieMap TrieHash TrieDisk.

Open Scope go_scope.

Section commit.
Context {K : Keccak}.

Abbreviation H t := (BytesToHash (thash t)).

(** ** Growing databases *)

Definition extends (st st' : Hash -> option tree) : Prop := forall h t, st h = Some t -> st' h = Some t.

Lemma extends_refl st : extends st st.
Proof. by intros h t. Qed.

Lemma extends_trans st1 st2 st3 : extends st1 st2 -> extends st2 st3 -> extends st1 st3.
Proof. intros H1 H2 h t E. auto. Qed.

Lemma flag_ok_mono st st' r f t : extends st st' -> flag_ok st r f t -> flag_ok st' r f t.
Proof. intros Hx. unfold flag_ok. destruct (hash f); [|done]. intros (? & ? & ?). split_and!; auto. Qed.

Lemma Rep_mono st st' n : forall r t, extends st st' -> Rep st r n t -> Rep st' r n t.
Proof.
  induction n as [|cs f IH|k c f IH|h|v] using node_nested_ind; intros r t Hx HR.
  - inversion HR; subst. constructor.
  - destruct (Rep_full_inv _ _ _ _ _ HR) as (ts & -> & Hcs & Hf & Hc). constructor; [|by eapply flag_ok_mono|done].
    clear - IH Hcs Hx. induction Hcs as [|c t cs ts Hc Hcs IHcs]; constructor; apply Forall_cons in IH as [IHc IH]; auto.
  - destruct (Rep_short_inv _ _ _ _ _ _ HR) as (u & -> & Hu & Hf & Hc). constructor; [auto|by eapply flag_ok_mono|done].
  - inversion HR; subst. constructor; auto.
  - inversion HR; subst. constructor.
Qed.

Lemma stored_mono st st' t : extends st st' -> stored st t -> stored st' t.
Proof. intros Hx Hs s Hsub Hh. auto. Qed.

(** ** The database while committing *)

(** [U]: the trees that occur; no two of them have the same hash. *)
Context (U : tree -> Prop).
Hypothesis U_inj : forall s s', U s -> U s' -> H s = H s' -> s = s'.

Record db_inv (st : Hash -> option tree) (db : Database) : Prop := {
  di_ok : db_ok st db;
  di_dirty : forall h raw, dirties db !! h = Some raw -> is_Some (st h);
  di_hash : forall h t, st h = Some t -> U t /\ h = H t;
  di_closed : forall h t, st h = Some t -> stored st t;
}.

Definition st_add (st : Hash -> option tree) (t : tree) : Hash -> option tree :=
  fun h => if h =? H t then Some t else st h.

Lemma st_add_extends st db t : db_inv st db -> U t -> extends st (st_add st t).
Proof.
  intros Hi Hu h u E. unfold st_add. destruct (Z.eqb_spec h (H t)) as [->|]; [|done].
  destruct (di_hash _ _ Hi _ _ E) as [Hu' Eh]. f_equal. by apply U_inj.
Qed.

Definition all_known (t : tree) : Prop := forall s, subtree s t -> U s.

(** Inserting a node whose children are in the database. *)
Lemma db_insert_ok st db t n raw :
  db_inv st db -> all_known t -> wft t -> (forall s, subtree s t -> s <> t -> hashed s = true -> st (H s) = Some s) ->
  simplifyNode n = Ok raw -> expandNode (Some (thash t)) raw = unload (Some (thash t)) t ->
  exists db' st', db_insert db (H t) n = Ok db' /\ db_inv st' db' /\ extends st st' /\ st' (H t) = Some t /\ stored st' t.
Proof.
  intros Hi HU Hw Hsub En Eraw. pose proof (HU t (sub_refl t)) as Hu. unfold db_insert.
  destruct (dirties db !! H t) as [raw'|] eqn:Ed.
  - destruct (di_dirty _ _ Hi _ _ Ed) as [u Eu]. destruct (di_hash _ _ Hi _ _ Eu) as [Hu' Eh].
    rewrite <- (U_inj _ _ Hu Hu' Eh) in *. exists db, st. split_and!; [done|done|apply extends_refl|done|by eapply di_closed].
  - rewrite En. cbn [obind]. eexists _, (st_add st t). pose proof (st_add_extends _ _ _ Hi Hu) as Hx.
    assert (st_add st t (H t) = Some t) as Et by (unfold st_add; by rewrite Z.eqb_refl).
    assert (stored (st_add st t) t) as Hst.
    { intros s Hs Eh. unfold st_add. destruct (Z.eqb_spec (H s) (H t)) as [Es|Hne].
      - f_equal. apply U_inj; auto.
      - apply Hsub; [done| |done]. by intros ->. }
    split_and!; [done| |done|done|done]. constructor.
    + intros h u. unfold st_add at 1. destruct (Z.eqb_spec h (H t)) as [->|Hne].
      * intros [= <-]. split; [done|]. exists (unload (Some (thash t)) t). split; [|by apply unload_root].
        unfold db_node. cbn [dirties]. rewrite lookup_insert_eq. by rewrite Hash_Bytes_thash, Eraw.
      * intros Eu. destruct (di_ok _ _ Hi h u Eu) as (Hwu & m & Em & HR & HC & Hl). split; [done|]. exists m.
        split_and!; [|by eapply Rep_mono|done|done]. rewrite <- Em. unfold db_node. cbn [dirties diskdb]. by rewrite lookup_insert_ne.
    + intros h r. cbn [dirties]. unfold st_add. destruct (Z.eqb_spec h (H t)) as [->|Hne]; [done|].
      rewrite lookup_insert_ne by done. apply (di_dirty _ _ Hi).
    + intros h u. unfold st_add. destruct (Z.eqb_spec h (H t)) as [->|Hne]; [by intros [= <-]|]. apply (di_hash _ _ Hi).
    + intros h u. unfold st_add at 1. destruct (Z.eqb_spec h (H t)) as [->|Hne]; [by intros [= <-]|].
      intros Eu. eapply stored_mono; [done|]. by eapply di_closed.
Qed.

(** ** [commit] *)

(** What a parent stores of the child [t]. *)
Definition simplifies (n : node) (u : node) : Prop :=
  n <> nilNode /\ exists raw, simplifyNode n = Ok raw /\ expandNode None raw = u.

Definition big (r : bool) (t : tree) : bool := r || hashed t.

Record committed (r : bool) (t : tree) (st : Hash -> option tree) (n' : node) (db' : Database) (st' : Hash -> option tree) : Prop := {
  cm_inv : db_inv st' db';
  cm_ext : extends st st';
  cm_stored : stored st' t;
  cm_top : big r t = true -> n' = hashNode (thash t) /\ st' (H t) = Some t;
  cm_inline : big r t = false -> simplifies n' (unload None t);
}.

Definition commit_spec (n : node) : Prop :=
  forall r t st db, Rep st r n t -> Cached n t -> wft t -> all_known t -> db_inv st db ->
    (r = true -> loaded n -> fst (cache n) = Some (thash t)) ->
    exists n' db' st', commit n db = Ok (n', db') /\ committed r t st n' db' st'.

Lemma big_false r t : big r t = false -> r = false /\ hashed t = false.
Proof. apply orb_false_iff. Qed.

(** [store] at the end of [commit]: [n] is the node in its collapsed form. *)
Lemma store_ok r t n f st0 st db raw :
  fst (cache n) = hash f -> flag_ok st0 r f t -> (hash f = None -> big r t = false) ->
  extends st0 st -> db_inv st db -> all_known t -> wft t ->
  (forall s, subtree s t -> s <> t -> hashed s = true -> st (H s) = Some s) ->
  n <> nilNode -> simplifyNode n = Ok raw -> (forall h, expandNode h raw = unload h t) ->
  exists n' db' st', Trie.store n db = Ok (n', db') /\ committed r t st0 n' db' st'.
Proof.
  intros Ec Hf Hb Hx Hi HU Hw Hsub Hn En Eraw. unfold Trie.store. rewrite Ec. unfold flag_ok in Hf.
  destruct (hash f) as [h|] eqn:Eh.
  - destruct Hf as (-> & Hsz & _). destruct (db_insert_ok st db t n raw Hi HU Hw Hsub En (Eraw _)) as (db' & st' & -> & Hi' & Hx' & Et & Hst).
    cbn [obind]. eexists _, db', st'. split; [done|]. constructor; [done|by eapply extends_trans|done|done|].
    intros Hnb. destruct (big_false _ _ Hnb) as [-> Hs]. pose proof (unhashed_size t Hw Hs).
    specialize (Hsz eq_refl). lia.
  - eexists _, db, st. split; [done|]. constructor; [done|done|..].
    + intros s Hs Ehs. apply Hsub; [done| |done]. intros ->. destruct (big_false _ _ (Hb eq_refl)) as [_ ?]. congruence.
    + by rewrite Hb.
    + intros _. split; [done|]. by exists raw.
Qed.

Lemma committed_ref t st n' db' st' : wft t -> committed false t st n' db' st' -> simplifies n' (uref t).
Proof.
  intros Hw [_ _ _ Ht Hin]. unfold uref. change (big false t) with (hashed t) in *. destruct (hashed t).
  - destruct (Ht eq_refl) as [-> _]. split; [done|]. by eexists.
  - by apply Hin.
Qed.

(** Children that are not visited. *)
Record kept (t : tree) (st : Hash -> option tree) (n' : node) (db' : Database) (st' : Hash -> option tree) : Prop := {
  kp_inv : db_inv st' db';
  kp_ext : extends st st';
  kp_stored : stored st' t;
  kp_ref : simplifies n' (uref t);
}.

Lemma stored_val st v : stored st (TVal v).
Proof. intros s Hs Eh. by inversion Hs; subst. Qed.

Lemma stored_nil st : stored st TNil.
Proof. intros s Hs Eh. by inversion Hs; subst. Qed.

Lemma kept_val st db v : db_inv st db -> kept (TVal v) st (valueNode v) db st.
Proof. intros Hi. constructor; [done|apply extends_refl|apply stored_val|]. split; [done|]. by eexists. Qed.

Lemma kept_hash st db h t : db_inv st db -> Rep st false (hashNode h) t -> kept t st (hashNode h) db st.
Proof.
  intros Hi HR. inversion HR as [| |r h' t' Es Eh Hsz| |]; subst. constructor; [done|apply extends_refl|by eapply di_closed|].
  split; [done|]. eexists. split; [done|]. unfold uref. assert (hashed t = true) as ->; [|done].
  destruct (di_ok _ _ Hi _ _ Es) as [Hw _]. destruct (hashed t) eqn:Eh; [done|]. pose proof (unhashed_size t Hw Eh).
  specialize (Hsz eq_refl). lia.
Qed.

Lemma kept_commit t st n' db' st' : wft t -> committed false t st n' db' st' -> kept t st n' db' st'.
Proof. intros Hw Hc. constructor; [apply Hc..|by eapply committed_ref]. Qed.

Lemma commit_short_child v u st db :
  commit_spec v -> Rep st false v u -> Cached v u -> slot_tree u -> u <> TNil -> (forall k c, u <> TShort k c) ->
  all_known u -> db_inv st db ->
  exists n' db' st', (match v with fullNode _ _ => commit v db | _ => Ok (v, db) end) = Ok (n', db') /\ kept u st n' db' st'.
Proof.
  intros IH HR HC Hs Hn Hns HU Hi. destruct v as [|cs f|k c f|h|w].
  - by inversion HR; subst.
  - destruct (Rep_full_inv _ _ _ _ _ HR) as (ts & -> & _). assert (wft (TFull ts)) as Hw by (by apply slot_tree_loaded).
    destruct (IH false _ st db HR HC Hw HU Hi) as (n' & db' & st' & E & Hc); [done|]. exists n', db', st'.
    split; [done|]. by apply kept_commit.
  - destruct (Rep_short_inv _ _ _ _ _ _ HR) as (c' & -> & _). by destruct (Hns k c').
  - exists (hashNode h), db, st. split; [done|]. by apply kept_hash.
  - inversion HR; subst. exists (valueNode w), db, st. split; [done|]. by apply kept_val.
Qed.

(** A tree below the child of a node is below the node. *)
Lemma proper_short st k c :
  stored st c -> forall s, subtree s (TShort k c) -> s <> TShort k c -> hashed s = true -> st (H s) = Some s.
Proof. intros Hst s Hs Hne. inversion Hs; subst; [done|]. by apply Hst. Qed.

Lemma proper_full st cs :
  Forall (stored st) cs -> forall s, subtree s (TFull cs) -> s <> TFull cs -> hashed s = true -> st (H s) = Some s.
Proof. intros Hst s Hs Hne. inversion Hs as [| |? i c E Hsub]; subst; [done|]. rewrite Forall_lookup in Hst. by apply (Hst i c E). Qed.

Lemma commit_clean r n t st db :
  Rep st r n t -> loaded n -> wft t -> db_inv st db -> (exists h, cache n = (Some h, false)) ->
  exists n' db' st', commit n db = Ok (n', db') /\ committed r t st n' db' st'.
Proof.
  intros HR Hl Hw Hi [h Ec]. assert (h = thash t /\ st (H t) = Some t /\ (r = false -> 32 <= zlen (tenc t))) as (-> & Et & Hsz).
  { inversion HR as [| | |r' k m u f Hm Hf Hc|r' cs ts f Hcs Hf Hc]; subst; try done; cbn [cache] in Ec; injection Ec as E1 E2;
      unfold flag_ok in Hf; rewrite E1 in Hf; destruct Hf as (-> & Hsz & Hst); split_and!; auto. }
  exists (hashNode (thash t)), db, st. split; [destruct n; try done; cbn [commit]; by rewrite Ec|].
  constructor; [done|apply extends_refl|by eapply di_closed|done|].
  intros [-> Hh]%big_false. pose proof (unhashed_size t Hw Hh). specialize (Hsz eq_refl). lia.
Qed.

Lemma commit_short_ok k v f : commit_spec v -> commit_spec (shortNode k v f).
Proof.
  intros IH r t st db HR HC Hw HU Hi Htop.
  assert ((exists h, cache (shortNode k v f) = (Some h, false)) \/
          commit (shortNode k v f) db =
            (r <- (match v with fullNode _ _ => commit v db | _ => Ok (v, db) end) ;;
             ck <- of_option PanicIndex (hexToCompact k) ;;
             Trie.store (shortNode ck (fst r) f) (snd r))) as [Hclean|Ecm].
  { cbn [commit cache]. destruct (hash f) as [h|], (dirty f); eauto. }
  { by eapply commit_clean. }
  rewrite Ecm. clear Ecm. destruct (Rep_short_inv _ _ _ _ _ _ HR) as (u & -> & Hu & Hf & _).
  destruct (Cached_short_inv _ _ _ _ HC) as [HCu Hhf].
  assert (all_known u) as HUu by (intros s Hs; apply HU; by apply sub_short).
  destruct (commit_short_child v u st db IH Hu HCu (short_slot_tree _ _ Hw)) as (n' & db' & st' & -> & [Hi' Hx' Hst' (Hn' & raw & En & Er)]);
    [by intros ->|by intros k' c ->|done|done|].
  destruct (hexToCompact_path k (wft_path _ _ Hw)) as (ck & Ek & Eck & _). cbn [obind fst snd]. rewrite Ek. cbn [of_option obind].
  eapply (store_ok r (TShort k u) (shortNode ck n' f) f st st' db' (rawShortNode ck raw)); try done.
  - intros E. unfold big. rewrite (Hhf E), orb_false_r. destruct r; [|done]. specialize (Htop eq_refl I). cbn in Htop. congruence.
  - by apply proper_short.
  - cbn [simplifyNode]. by rewrite En.
  - intros h. cbn [expandNode unload]. by rewrite Eck, Er.
Qed.

(** The loops over the children. *)
Fixpoint simplify_children (cs : list node) : outcome (list rawNode) :=
  match cs with
  | [] => Ok []
  | c :: cs =>
      c <- (match c with nilNode => Ok rawNil | c => simplifyNode c end) ;;
      cs <- simplify_children cs ;;
      Ok (c :: cs)
  end.

Lemma simplify_full cs f : simplifyNode (fullNode cs f) = (cs <- simplify_children cs ;; Ok (rawFullNode cs)).
Proof. reflexivity. Qed.

Fixpoint commit_children (i : nat) (cs : list node) (db : Database) {struct cs} : outcome (list node * Database) :=
  match cs, i with
  | [], _ => Ok ([], db)
  | cs, O => Ok (cs, db)
  | c :: cs, S i =>
      r <- (match c with
            | nilNode => Ok (nilNode, db)
            | hashNode h => Ok (hashNode h, db)
            | c => commit c db
            end) ;;
      rest <- commit_children i cs (snd r) ;;
      Ok (fst r :: fst rest, snd rest)
  end.

Definition expand_child (c : rawNode) : node := match c with rawNil => nilNode | c => expandNode None c end.

(** What [simplifyNode] makes of a child. *)
Definition simplifies_child (n u : node) : Prop :=
  exists raw, (match n with nilNode => Ok rawNil | c => simplifyNode c end) = Ok raw /\ expand_child raw = u.

Lemma simplifies_some n u : simplifies n u -> simplifies_child n u.
Proof.
  intros (Hn & raw & En & Er). exists raw. split; [by destruct n|]. rewrite <- Er. by destruct raw.
Qed.

Lemma simplifies_nil : simplifies_child nilNode (uref TNil).
Proof. exists rawNil. done. Qed.

Lemma simplify_children_ok cs us :
  Forall2 simplifies_child cs us -> exists raws, simplify_children cs = Ok raws /\ map expand_child raws = us.
Proof.
  induction 1 as [|c u cs us (raw & En & Er) _ (raws & Es & Em)]; [by exists []|].
  exists (raw :: raws). cbn [simplify_children]. rewrite En. cbn [obind]. rewrite Es. cbn [obind map]. by rewrite Er, Em.
Qed.

Record kept_all (ts : list tree) (st : Hash -> option tree) (ns : list node) (db' : Database) (st' : Hash -> option tree) : Prop := {
  ka_inv : db_inv st' db';
  ka_ext : extends st st';
  ka_stored : Forall (stored st') ts;
  ka_ref : Forall2 simplifies_child ns (map uref ts);
}.

Lemma commit_child_ok c t st db :
  commit_spec c -> Rep st false c t -> Cached c t -> tree_shape t -> all_known t -> db_inv st db ->
  exists n' db' st', (match c with
                      | nilNode => Ok (nilNode, db)
                      | hashNode h => Ok (hashNode h, db)
                      | c => commit c db
                      end) = Ok (n', db') /\
    db_inv st' db' /\ extends st st' /\ stored st' t /\ simplifies_child n' (uref t).
Proof.
  intros IH HR HC Ht HU Hi. destruct c as [|cs f|k v f|h|w].
  - inversion HR; subst. exists nilNode, db, st. split_and!; [done|done|apply extends_refl|apply stored_nil|apply simplifies_nil].
  - assert (wft t) as Hw by (destruct Ht as [->|?]; [by inversion HR|done]).
    destruct (IH false t st db HR HC Hw HU Hi) as (n' & db' & st' & E & Hc); [done|]. exists n', db', st'.
    apply kept_commit in Hc as [? ? ? ?]; [|done]. split_and!; [done..|by apply simplifies_some].
  - assert (wft t) as Hw by (destruct Ht as [->|?]; [by inversion HR|done]).
    destruct (IH false t st db HR HC Hw HU Hi) as (n' & db' & st' & E & Hc); [done|]. exists n', db', st'.
    apply kept_commit in Hc as [? ? ? ?]; [|done]. split_and!; [done..|by apply simplifies_some].
  - exists (hashNode h), db, st. destruct (kept_hash st db h t Hi HR) as [? ? ? ?]. split_and!; [done..|by apply simplifies_some].
  - inversion HR; subst. by destruct Ht.
Qed.

Lemma leaf_simplifies st db c t :
  db_inv st db -> Rep st false c t -> t = TNil \/ is_val t -> stored st t /\ simplifies_child c (uref t).
Proof.
  intros Hi HR Ht. inversion HR as [| |r h u Es| |]; subst.
  - split; [apply stored_nil|apply simplifies_nil].
  - split; [apply stored_val|]. by eexists.
  - destruct (di_ok _ _ Hi _ _ Es) as [Hw _]. by destruct Ht as [->|(v & -> & _)].
  - by destruct Ht as [?|(v & ? & _)].
  - by destruct Ht as [?|(v & ? & _)].
Qed.

Lemma commit_children_ok cs : forall ts i st db,
  Forall2 (Rep st false) cs ts -> Forall2 Cached cs ts -> Forall commit_spec cs -> Forall all_known ts -> db_inv st db ->
  Forall tree_shape (take i ts) -> Forall (fun t => t = TNil \/ is_val t) (drop i ts) ->
  exists ns db' st', commit_children i cs db = Ok (ns, db') /\ kept_all ts st ns db' st'.
Proof.
  induction cs as [|c cs IH]; intros ts i st db HR HC Hsp HU Hi Ht Hd.
  - inversion HR; subst. exists [], db, st. split; [done|]. constructor; [done|apply extends_refl|apply Forall_nil_2|constructor].
  - inversion HR as [|? t ? ts' Hc Hcs]; subst. inversion HC as [|? ? ? ? HCc HCs]; subst.
    apply Forall_cons in Hsp as [Hsc Hsp]. apply Forall_cons in HU as [HUt HUs]. destruct i as [|i].
    { exists (c :: cs), db, st. split; [done|]. cbn [drop] in Hd.
      assert (Forall (stored st) (t :: ts') /\ Forall2 simplifies_child (c :: cs) (map uref (t :: ts'))) as [Hst Hr].
      { clear - HR Hd Hi. induction HR as [|c0 t0 cs0 ts0 Hc _ IH]; [split; constructor|].
        apply Forall_cons in Hd as [Ht Hd]. destruct (IH Hd) as [? ?]. destruct (leaf_simplifies _ _ _ _ Hi Hc Ht) as [? ?].
        split; constructor; done. }
      constructor; [done|apply extends_refl|done|done]. }
    cbn [take drop] in Ht, Hd. apply Forall_cons in Ht as [Ht Hts].
    destruct (commit_child_ok c t st db Hsc Hc HCc Ht HUt Hi) as (n1 & db1 & st1 & E1 & Hi1 & Hx1 & Hst1 & Hr1).
    assert (Forall2 (Rep st1 false) cs ts') as Hcs1.
    { eapply Forall2_impl; [exact Hcs|]. intros ? ?. by apply Rep_mono. }
    destruct (IH ts' i st1 db1 Hcs1 HCs Hsp HUs Hi1 Hts Hd) as (ns & db2 & st2 & E2 & [Hi2 Hx2 Hst2 Hr2]).
    exists (n1 :: ns), db2, st2. cbn [commit_children]. rewrite E1. cbn [obind fst snd]. rewrite E2. cbn [obind fst snd].
    split; [by destruct c|]. constructor; [done|by eapply extends_trans| |].
    + apply Forall_cons_2; [by eapply stored_mono|done].
    + cbn [map]. by constructor.
Qed.

Lemma commit_full_ok cs f : Forall commit_spec cs -> commit_spec (fullNode cs f).
Proof.
  intros IH r t st db HR HC Hw HU Hi Htop.
  assert ((exists h, cache (fullNode cs f) = (Some h, false)) \/
          commit (fullNode cs f) db =
            (r <- commit_children 16 cs db ;; Trie.store (fullNode (fst r) f) (snd r))) as [Hclean|Ecm].
  { cbn [commit cache]. destruct (hash f) as [h|], (dirty f); eauto. }
  { by eapply commit_clean. }
  rewrite Ecm. clear Ecm. destruct (Rep_full_inv _ _ _ _ _ HR) as (ts & -> & Hcs & Hf & _).
  destruct (Cached_full_inv _ _ _ HC) as [HCs Hhf].
  destruct (commit_children_ok cs ts 16 st db Hcs HCs IH) as (ns & db' & st' & -> & [Hi' Hx' Hst' Hr']).
  { apply Forall_lookup. intros i c Ec s Hs. apply HU. by eapply sub_full. }
  { done. }
  { apply Forall_lookup. intros i t Et. apply lookup_take_Some in Et as [Et Hlt].
    destruct (full_child _ _ _ Hw Et) as [_ [->|[[-> _]|[_ ?]]]]; [by left|lia|by right]. }
  { apply Forall_lookup. intros i t Et. rewrite lookup_drop in Et.
    destruct (full_child _ _ _ Hw Et) as [_ [->|[[_ ?]|[? _]]]]; [by left|by right|lia]. }
  cbn [obind fst snd]. destruct (simplify_children_ok _ _ Hr') as (raws & Es & Em).
  eapply (store_ok r (TFull ts) (fullNode ns f) f st st' db' (rawFullNode raws)); try done.
  - intros E. unfold big. rewrite (Hhf E), orb_false_r. destruct r; [|done]. specialize (Htop eq_refl I). cbn in Htop. congruence.
  - by apply proper_full.
  - rewrite simplify_full, Es. done.
  - intros h. change (fullNode (map expand_child raws) (MkNodeFlag h false) = fullNode (map uref ts) (MkNodeFlag h false)). by rewrite Em.
Qed.

Lemma commit_ok n : commit_spec n.
Proof.
  induction n as [|cs f IH|k v f IH|h|v] using node_nested_ind.
  - intros r t st db HR _ Hw. by inversion HR; subst.
  - by apply commit_full_ok.
  - by apply commit_short_ok.
  - intros r t st db HR _ Hw _ Hi _. inversion HR as [| |r' h' t' Es Eh Hsz| |]; subst.
    exists (hashNode (thash t)), db, st. split; [done|]. constructor; [done|apply extends_refl|by eapply di_closed|done|].
    intros [-> Hh]%big_false. pose proof (unhashed_size t Hw Hh). specialize (Hsz eq_refl). lia.
  - intros r t st db HR _ Hw. by inversion HR; subst.
Qed.
End commit.

(** ** [Trie_Commit] and [New] *)

Section reopen.
Context {K : Keccak} (U : tree -> Prop).
Hypothesis U_inj : forall s s', U s -> U s' -> BytesToHash (thash s) = BytesToHash (thash s') -> s = s'.

Lemma New_tree_ok st db t :
  db_inv U st db -> tree_shape t -> (t <> TNil -> st (root_hash t) = Some t /\ root_hash t <> 0 /\ root_hash t <> emptyRoot) ->
  exists n, New (root_hash t) db = Ok (inl n) /\ Rep st true n t.
Proof.
  intros Hi [->|Hw] Ht.
  { exists nilNode. split; [done|constructor]. }
  destruct (Ht ltac:(by intros ->)) as (Es & H0 & He). unfold New.
  destruct (Z.eqb_spec (root_hash t) 0) as [?|_]; [done|]. destruct (Z.eqb_spec (root_hash t) emptyRoot) as [?|_]; [done|]. cbn [negb andb].
  assert (root_hash t = BytesToHash (thash t)) as E by (by destruct t). rewrite E in *. rewrite Hash_Bytes_thash.
  destruct (resolve_ok _ _ (di_ok _ _ _ Hi) true (thash t) t []) as (_ & n & -> & HR & _); [|by exists n].
  by constructor.
Qed.

Lemma Trie_Commit_tree st db root t :
  db_inv U st db -> Rep st true root t -> tree_shape t -> tsized t -> all_known U t ->
  exists root' db' st', Trie_Commit root db = Ok (root_hash t, root', db') /\ db_inv U st' db' /\ extends st st' /\
    Rep st' true root' t /\ (t <> TNil -> st' (root_hash t) = Some t).
Proof.
  intros Hi HR Ht Hs HU. assert (forall h t, st h = Some t -> wft t) as Hst by (intros h u E; by apply (di_ok _ _ _ Hi h u E)).
  destruct Ht as [->|Hw].
  { assert (root = nilNode) as -> by (by apply (Rep_nil_iff _ _ (di_ok _ _ _ Hi) true root TNil)).
    exists nilNode, db, st. split_and!; [done|done|apply extends_refl|constructor|done]. }
  destruct (Trie_Hash_tree st Hst root t HR (or_intror Hw) Hs) as (n & E & HRn & HCn & Htop).
  assert (root <> nilNode) as Hr by (intros ->; by inversion HR; subst).
  assert (root_hash t = BytesToHash (thash t)) as Eh by (by destruct t).
  assert (Trie_Commit root db =
            if negb (snd (cache n)) then Ok (root_hash t, n, db)
            else c <- commit n db ;; match fst c with hashNode h => Ok (root_hash t, hashNode h, snd c) | _ => Panic PanicTypeAssert end) as ->.
  { unfold Trie_Commit. rewrite E. by destruct root. }
  destruct (negb (snd (cache n))) eqn:Ed.
  - exists n, db, st. split_and!; [done|done|apply extends_refl|done|]. intros _.
    apply negb_true_iff in Ed. rewrite Eh. inversion HRn as [| | |r k m u f Hm Hf Hc|r cs ts f Hcs Hf Hc]; subst; try done;
      cbn [cache fst snd] in *; specialize (Htop I); unfold flag_ok in Hf; rewrite Htop in Hf; destruct Hf as (_ & _ & Hf); auto.
  - destruct (commit_ok U U_inj n true t st db HRn HCn Hw HU Hi) as (n' & db' & st' & -> & [Hi' Hx' Hst' Ht' _]); [by intros _|].
    destruct (Ht' eq_refl) as [-> Et]. cbn [obind fst snd]. exists (hashNode (thash t)), db', st'.
    split_and!; [done|done|done|by constructor|]. intros _. by rewrite Eh.
Qed.
End reopen.

(** C20: commit and reopen.  Committing a trie returns its root hash and leaves a
    database from which the trie with that root hash can be opened again with the
    same content; what was in the database stays there.  The hypotheses on the
    hash say that no two of the trees involved have the same hash and that the
    hash of the root is not one of the two values [New] takes for the empty
    trie. *)
Theorem commit_reopen {K : Keccak} (U : tree -> Prop) (st : Hash -> option tree) (db : Database) (root : node) (m : kvmap) :
  (forall s s', U s -> U s' -> BytesToHash (thash s) = BytesToHash (thash s') -> s = s') ->
  db_inv U st db -> trie_map st root m -> map_Forall small_entry m ->
  (forall t, content t m -> tree_shape t -> all_known U t) ->
  (forall t, content t m -> wft t -> root_hash t <> 0 /\ root_hash t <> emptyRoot) ->
  exists h root' db' st' root'', Trie_Commit root db = Ok (h, root', db') /\ New h db' = Ok (inl root'') /\
    db_inv U st' db' /\ extends st st' /\ trie_map st' root' m /\ trie_map st' root'' m.
Proof.
  intros U_inj Hi (t & Ht & HR & Hc) Hm HU Hroot. pose proof (tsized_map _ _ Ht Hc Hm) as Hs.
  destruct (Trie_Commit_tree U U_inj st db root t Hi HR Ht Hs (HU t Hc Ht)) as (root' & db' & st' & E & Hi' & Hx & HR' & Et).
  destruct (New_tree_ok U st' db' t Hi' Ht) as (root'' & En & HR'').
  { intros Hne. split; [by apply Et|]. apply Hroot; [done|]. by destruct Ht. }
  exists (root_hash t), root', db', st', root''. split_and!; [done|done|done|done|by exists t|by exists t].
Qed.
