(* ===== verification/TrieProof.v ===== *)
(** * Merkle proofs

    [trie/proof.go]: [Prove] collects the nodes on the path of a key,
    [VerifyProof] follows them from a root hash.  A proof never verifies for a
    value the trie does not have, and what [Prove] returns verifies. *)

From Stdlib Require Import ZArith Lia.
From stdpp Require Import gmap.
From S2P Require Import Prelude Common Rlp RlpSpec Crypto Trie TrieEnc TrieSpec TrieRefine TrieUpdate TrieMap TrieHash TrieDisk.

Open Scope go_scope.

(** ** trie/proof.go *)

(** [get(tn, key, skipResolved)] *)
Fixpoint get (tn : node) (key : bytes) (skipResolved : bool) {struct tn} : outcome (bytes * node) :=
  match tn with
  | shortNode nkey val _ =>
      if (zlen key <? zlen nkey) || negb (bool_decide (zslice key 0 (zlen nkey) = Some nkey))
      then Ok ([], nilNode)
      else
        let key := drop (length nkey) key in
        if negb skipResolved then Ok (key, val) else get val key skipResolved
  | fullNode cs _ =>
      match key with
      | [] => Panic PanicIndex
      | k0 :: key =>
          (fix child (cs : list node) (i : nat) : outcome (bytes * node) :=
             match cs, i with
             | [], _ => Panic PanicIndex
             | c :: _, O => if negb skipResolved then Ok (key, c) else get c key skipResolved
             | _ :: cs, S i => child cs i
             end) cs (Z.to_nat k0)
      end
  | hashNode h => Ok (key, hashNode h)
  | nilNode => Ok (key, nilNode)
  | valueNode v => Ok ([], valueNode v)
  end.

Inductive proof_error := ProofNodeMissing | BadProofNode | ProofTrieError (e : trie_error).

(** The rounds of the loop of [VerifyProof]. *)
Fixpoint VerifyProof_loop (fuel : nat) (wantHash : Hash) (key : bytes) (proofDb : Hash -> option bytes)
    : outcome (option bytes + proof_error) :=
  match fuel with
  | O => NoFuel
  | S fuel =>
      match proofDb wantHash with
      | None => Ok (inr ProofNodeMissing)
      | Some buf =>
          n <- decodeNode (S (length buf)) (Some (Hash_Bytes wantHash)) buf ;;
          match n with
          | None => Ok (inr BadProofNode)
          | Some n =>
              r <- get n key true ;;
              match snd r with
              | nilNode => Ok (inl None)
              | hashNode cld => VerifyProof_loop fuel (BytesToHash cld) (fst r) proofDb
              | valueNode cld => Ok (inl (Some cld))
              | _ => VerifyProof_loop fuel wantHash key proofDb
              end
          end
      end
  end.

(** Every node of a proof uses up a part of the key. *)
Definition VerifyProof (rootHash : Hash) (key : bytes) (proofDb : Hash -> option bytes) : outcome (option bytes + proof_error) :=
  let key := keybytesToHex key in
  VerifyProof_loop (S (length key)) rootHash key proofDb.

Section prove.
Context {K : Keccak}.

(** The nodes on the path of [key]. *)
Fixpoint Prove_path (fuel : nat) (db : Database) (tn : node) (key : bytes) : R (list node) :=
  match fuel with
  | O => NoFuel
  | S fuel =>
      match key, tn with
      | [], _ | _, nilNode => Ok (inl [])
      | _, shortNode nkey val f =>
          let '(tn, key) :=
            if (zlen key <? zlen nkey) || negb (bool_decide (zslice key 0 (zlen nkey) = Some nkey))
            then (nilNode, key)
            else (val, drop (length nkey) key) in
          nodes <=- Prove_path fuel db tn key ;;
          Ok (inl (shortNode nkey val f :: nodes))
      | k0 :: key, fullNode cs f =>
          tn <- child cs k0 ;;
          nodes <=- Prove_path fuel db tn key ;;
          Ok (inl (fullNode cs f :: nodes))
      | _, hashNode h => n <=- resolveHash db h [] ;; Prove_path fuel db n key
      | _, valueNode _ => Panic PanicOther
      end
  end.

(** [proofHash(original)]: the collapsed node and its hash. *)
Definition proofHash (original : node) : outcome (node * node) :=
  match original with
  | shortNode k v f =>
      ck <- of_option PanicIndex (hexToCompact k) ;;
      vs <- (match v with
             | fullNode _ _ | shortNode _ _ _ => hash_ v false
             | _ => Ok (v, v)
             end) ;;
      let sn := shortNode ck (fst vs) f in
      hn <- nodeToHash sn false ;;
      Ok (sn, hn)
  | fullNode cs f =>
      r <- hash_children 16 cs ;;
      let fn := fullNode (fst r) f in
      hn <- nodeToHash fn false ;;
      Ok (fn, hn)
  | n => Ok (n, n)
  end.

Fixpoint Prove_put (i : nat) (nodes : list node) (fromLevel : nat) (proofDb : gmap Hash bytes) : outcome (gmap Hash bytes) :=
  match nodes with
  | [] => Ok proofDb
  | n :: nodes =>
      match fromLevel with
      | S fromLevel => Prove_put (S i) nodes fromLevel proofDb
      | O =>
          r <- proofHash n ;;
          let '(n, hn) := r in
          let isHash := match hn with hashNode _ => true | _ => false end in
          if isHash || (i =? 0)%nat then
            let enc := default [] (EncodeToBytes (node_rval n)) in
            let hash := match hn with hashNode h => h | _ => Keccak256 enc end in
            Prove_put (S i) nodes O (<[BytesToHash hash := enc]> proofDb)
          else Prove_put (S i) nodes O proofDb
      end
  end.

Definition Prove (db : Database) (root : node) (key : bytes) (fromLevel : nat) (proofDb : gmap Hash bytes) : R (gmap Hash bytes) :=
  let key := keybytesToHex key in
  nodes <=- Prove_path (S (op_fuel key)) db root key ;;
  proofDb <- Prove_put 0 nodes fromLevel proofDb ;;
  Ok (inl proofDb).
End prove.

(** ** Following a path *)

(** [s] is reached from [t] with [key], [rest] being left of it. *)
Inductive reach : tree -> bytes -> tree -> bytes -> Prop :=
| reach_here t key : reach t key t key
| reach_short k c rest s rest' : reach c rest s rest' -> reach (TShort k c) (k ++ rest) s rest'
| reach_full cs i c rest s rest' : zget cs i = Some c -> reach c rest s rest' -> reach (TFull cs) (i :: rest) s rest'.

Lemma reach_subtree t key s rest : reach t key s rest -> subtree s t.
Proof.
  induction 1 as [t key|k c rest s rest' _ IH|cs i c rest s rest' E _ IH]; [apply sub_refl|by apply sub_short|].
  unfold zget in E. destruct (0 <=? i); [|done]. by eapply sub_full.
Qed.

Lemma reach_get t key s rest : reach t key s rest -> tget t key = tget s rest.
Proof.
  induction 1 as [t key|k c rest s rest' _ IH|cs i c rest s rest' E _ IH]; [done| |].
  - cbn [tget]. by rewrite strip_self.
  - by rewrite tget_full, E.
Qed.

Lemma reach_trans t key s rest u rest' : reach t key s rest -> reach s rest u rest' -> reach t key u rest'.
Proof. induction 1; intros Hr; [done|constructor; auto|econstructor; eauto]. Qed.

Lemma match_strip (key nk : bytes) :
  (zlen key <? zlen nk) || negb (bool_decide (zslice key 0 (zlen nk) = Some nk))
  = match strip nk key with Some _ => false | None => true end.
Proof.
  pose proof (short_match [] key nk) as H. change (zlen []) with 0 in H. rewrite Z.sub_0_r, Z.add_0_l in H. exact H.
Qed.

Lemma get_full cs f k0 key skip :
  0 <= k0 -> get (fullNode cs f) (k0 :: key) skip =
  match zget cs k0 with
  | Some c => if negb skip then Ok (key, c) else get c key skip
  | None => Panic PanicIndex
  end.
Proof.
  intros Hk. cbn [get]. unfold zget. destruct (Z.leb_spec 0 k0); [|lia]. clear Hk H.
  generalize (Z.to_nat k0). induction cs as [|c cs IH]; intros [|i]; cbn; auto.
Qed.

Section sound.
Context {K : Keccak}.

(** What [get] finds in a node of the database. *)
Inductive get_result (t : tree) (key : bytes) : bytes -> node -> Prop :=
| found_nil rest : tget t key = None -> get_result t key rest nilNode
| found_val rest v : tget t key = Some v -> get_result t key rest (valueNode v)
| found_hash s rest : reach t key s rest -> wft s -> hashed s = true -> hexkey rest -> get_result t key rest (hashNode (thash s)).

Definition get_spec (t : tree) : Prop :=
  forall h key, slot t key -> (t <> TNil -> hashed t = false \/ wft t) ->
    exists rest cld, get (unload h t) key true = Ok (rest, cld) /\ get_result t key rest cld /\
      (wft t -> forall c, cld = hashNode c -> (length rest < length key)%nat).

Lemma get_uref c key :
  slot c key -> get_spec c ->
  exists rest cld, get (uref c) key true = Ok (rest, cld) /\ get_result c key rest cld /\
    (forall h, cld = hashNode h -> (length rest <= length key)%nat).
Proof.
  intros Hs H. unfold uref. destruct (hashed c) eqn:E.
  - exists key, (hashNode (thash c)). split_and!; [done| |done].
    destruct Hs as [[Hk [->|Hw]]|[_ [->|(v & -> & _)]]]; try done. apply found_hash; [apply reach_here|done..].
  - destruct (H None key Hs) as (rest & cld & Eg & Hr & Hl); [by left|]. exists rest, cld. split_and!; [done..|].
    intros h ->. inversion Hr as [| |s rest' Hre Hws]; subst. destruct (reach_get _ _ _ _ Hre).
    destruct c as [|cs|k c|v].
    + by inversion Hre; subst.
    + assert (wft (TFull cs)) as Hw by (by destruct Hs as [[_ [?|?]]|[_ [?|(? & ? & _)]]]). pose proof (Hl Hw _ eq_refl). lia.
    + assert (wft (TShort k c)) as Hw by (by destruct Hs as [[_ [?|?]]|[_ [?|(? & ? & _)]]]). pose proof (Hl Hw _ eq_refl). lia.
    + by inversion Hre; subst.
Qed.

Lemma get_result_short k c rest rest' cld : get_result c rest rest' cld -> get_result (TShort k c) (k ++ rest) rest' cld.
Proof.
  assert (tget (TShort k c) (k ++ rest) = tget c rest) as E by (cbn [tget]; by rewrite strip_self).
  intros [r Hn|r v Hv|s r Hr Hw Hh Hk]; [apply found_nil; congruence|apply found_val; congruence|].
  apply found_hash; try done. by apply reach_short.
Qed.

Lemma get_result_full cs i c rest rest' cld :
  zget cs i = Some c -> get_result c rest rest' cld -> get_result (TFull cs) (i :: rest) rest' cld.
Proof.
  intros Ec. assert (tget (TFull cs) (i :: rest) = tget c rest) as E by (by rewrite tget_full, Ec).
  intros [r Hn|r v Hv|s r Hr Hw Hh Hk]; [apply found_nil; congruence|apply found_val; congruence|].
  apply found_hash; try done. by eapply reach_full.
Qed.

Lemma get_unload t : get_spec t.
Proof.
  induction t as [|cs IH|k c IH|v] using tree_nested_ind; intros h key Hs _.
  - exists key, nilNode. split_and!; [done|by apply found_nil|done].
  - destruct (slot_shape _ _ Hs) as [Hw Hk]; [done..|]. destruct key as [|i key]; [by destruct (hexkey_nonempty [])|].
    pose proof (hexkey_elem _ i key [] Hk eq_refl) as Hi. destruct (full_lookup _ _ _ Hw Hk) as (c & Ec & Hc).
    cbn [unload]. rewrite get_full by lia. change (map _ cs) with (map uref cs).
    assert (zget (map uref cs) i = Some (uref c)) as ->.
    { unfold zget in *. destruct (0 <=? i); [|done]. by rewrite list_lookup_fmap, Ec. }
    cbn [negb]. assert (get_spec c) as Hsp.
    { rewrite Forall_lookup in IH. unfold zget in Ec. destruct (0 <=? i); [|done]. by eapply IH. }
    destruct (get_uref c key Hc Hsp) as (rest & cld & -> & Hr & Hl). exists rest, cld.
    split_and!; [done|by eapply get_result_full|]. intros _ h' E. specialize (Hl h' E). cbn [length]. lia.
  - destruct (slot_shape _ _ Hs) as [Hw Hk]; [done..|]. cbn [unload get]. rewrite match_strip.
    change (if hashed c then hashNode (thash c) else unload None c) with (uref c).
    destruct (strip k key) as [rest|] eqn:Es.
    + apply strip_app in Es as ->. rewrite drop_app_length. cbn [negb].
      destruct (get_uref c rest (slot_short _ _ _ _ Hw Hk eq_refl) IH) as (rest' & cld & -> & Hr & Hl).
      exists rest', cld. split_and!; [done|by apply get_result_short|]. intros _ h' E. specialize (Hl h' E).
      rewrite length_app. pose proof (wft_short_nonempty _ _ Hw). destruct k; [done|]. cbn [length]. lia.
    + exists [], nilNode. split_and!; [done| |done]. apply found_nil. cbn [tget]. by rewrite Es.
  - exists [], (valueNode v). split_and!; [done| |done]. apply found_val.
    destruct Hs as [[_ [?|?]]|[-> _]]; done.
Qed.

(** One round of [VerifyProof] on a node of the tree. *)
Lemma VerifyProof_ok proofDb t fuel : forall s key,
  (forall s b, subtree s t -> proofDb (BytesToHash (thash s)) = Some b -> b = tenc s) ->
  (forall s, subtree s t -> wft s -> tsized s) ->
  subtree s t -> wft s -> hexkey key -> (length key < fuel)%nat ->
  VerifyProof_loop fuel (BytesToHash (thash s)) key proofDb = Ok (inl (tget s key)) \/
  (VerifyProof_loop fuel (BytesToHash (thash s)) key proofDb = Ok (inr ProofNodeMissing) /\
   exists u rest, reach s key u rest /\ wft u /\ (u = s \/ hashed u = true) /\ proofDb (BytesToHash (thash u)) = None).
Proof.
  induction fuel as [|fuel IH]; intros s key Hdb Hsz Hs Hw Hk Hf; [lia|]. cbn [VerifyProof_loop].
  destruct (proofDb (BytesToHash (thash s))) as [buf|] eqn:Eb.
  2: { right. split; [done|]. exists s, key. split_and!; [apply reach_here|done|by left|done]. }
  apply Hdb in Eb as ->; [|done]. pose proof (Hsz s Hs Hw) as Hz. rewrite <- (app_nil_r (tenc s)) at 2 4.
  rewrite decodeNode_ok; [|done|lia|rewrite app_nil_r; by apply tenc_data]. cbn [obind].
  destruct (get_unload s (Some (Hash_Bytes (BytesToHash (thash s)))) key) as (rest & cld & -> & Hr & Hl); [by apply wft_slot|by right|].
  cbn [obind fst snd]. destruct Hr as [r Hn|r v Hv|u r Hre Hwu Hh Hkr].
  - left. by rewrite Hn.
  - left. by rewrite Hv.
  - specialize (Hl Hw _ eq_refl). rewrite (reach_get _ _ _ _ Hre).
    assert (subtree u t) as Hu.
    { apply reach_subtree in Hre. clear - Hre Hs. induction Hs; [done|by apply sub_short|by eapply sub_full]. }
    destruct (IH u r Hdb Hsz Hu Hwu Hkr ltac:(lia)) as [->|(-> & w & rest & Hrw & Hww & Hcase & Ew)]; [by left|right].
    split; [done|]. exists w, rest. split_and!; [by eapply reach_trans|done| |done]. right. by destruct Hcase as [->|?].
Qed.
End sound.

(** C21: proofs are sound.  Let a trie that is not empty have the root hash [h].
    Whatever nodes are given to [VerifyProof] for [h] and a key, stored under
    their hashes, it returns the value the trie has for the key (or that there is
    none), or that a node is missing; it does not return anything else, panic or
    go on forever, unless the hash of a given node collides with that of a node of
    the trie. *)
Theorem verify_proof_sound {K : Keccak} (store : Hash -> option tree) (db : Database) (root root' : node) (m : kvmap) (h : Hash) (key : bytes) (proofDb : Hash -> option bytes) :
  db_ok store db -> trie_map store root m -> map_Forall small_entry m -> m <> ∅ ->
  Trie_Hash root = Ok (h, root') -> Forall is_byte key ->
  (forall h b, proofDb h = Some b -> h = BytesToHash (Keccak256 b)) ->
  (forall t s h b, content t m -> tree_shape t -> subtree s t -> proofDb h = Some b -> BytesToHash (Keccak256 b) = BytesToHash (Keccak256 (tenc s)) -> b = tenc s) ->
  VerifyProof h key proofDb = Ok (inl (m !! key)) \/ VerifyProof h key proofDb = Ok (inr ProofNodeMissing).
Proof.
  intros Hdb (t & Ht & HR & Hc) Hm Hne Eh Hb Hp Hcol. pose proof (tsized_map _ _ Ht Hc Hm) as Hs.
  destruct (Trie_Hash_tree store (fun h t E => proj1 (Hdb h t E)) root t HR Ht Hs) as (n1 & E1 & _).
  assert (wft t) as Hw by (destruct Ht as [->|?]; [by destruct Hne; eapply content_functional; [|apply content_empty]|done]).
  assert (h = BytesToHash (thash t)) as -> by (rewrite E1 in Eh; injection Eh as <- _; by destruct t).
  pose proof (keybytesToHex_hexkey _ Hb) as Hk. unfold VerifyProof.
  destruct (VerifyProof_ok proofDb t (S (length (keybytesToHex key))) t (keybytesToHex key)) as [->|[-> _]]; try done.
  - intros s b Hsub Es. apply (Hcol t s _ b Hc Ht Hsub Es). symmetry. by apply Hp.
  - intros s Hsub _. by eapply subtree_sized.
  - apply sub_refl.
  - lia.
  - left. by rewrite (content_get _ _ Hc).
  - by right.
Qed.

(** ** What [Prove] returns *)

(** The trees on the path of a key. *)
Inductive tpath : tree -> bytes -> list tree -> Prop :=
| tp_done t : tpath t [] []
| tp_nil key : tpath TNil key []
| tp_miss k c key : strip k key = None -> tpath (TShort k c) key [TShort k c]
| tp_short k c rest l : tpath c rest l -> tpath (TShort k c) (k ++ rest) (TShort k c :: l)
| tp_full cs i c rest l : zget cs i = Some c -> tpath c rest l -> tpath (TFull cs) (i :: rest) (TFull cs :: l).

Lemma reach_length t key s rest : reach t key s rest -> (length rest <= length key)%nat.
Proof. induction 1; [done|rewrite length_app; lia|cbn [length]; lia]. Qed.

Lemma reach_short_inv k c key u rest :
  reach (TShort k c) key u rest -> u = TShort k c \/ exists r, key = k ++ r /\ reach c r u rest.
Proof. intros H. inversion H; subst; eauto. Qed.

Lemma reach_tpath t key l u rest : tpath t key l -> reach t key u rest -> rest <> [] -> u <> TNil -> u ∈ l.
Proof.
  intros Hp. revert u rest. induction Hp as [t|key|k c key Es|k c rest0 l _ IH|cs i c rest0 l Ec _ IH]; intros u rest Hr Hne Hu.
  - apply reach_length in Hr. destruct rest; [done|cbn in Hr; lia].
  - inversion Hr; subst; done.
  - apply reach_short_inv in Hr as [->|(r & -> & _)]; [by apply list_elem_of_singleton|]. by rewrite strip_self in Es.
  - apply reach_short_inv in Hr as [->|(r & Er & Hr)]; [by left|]. apply app_inv_head in Er as ->. right. by eapply IH.
  - inversion Hr as [| |cs' i' c' rest' s' r' Ec' Hr']; subst; [by left|]. rewrite Ec in Ec'. injection Ec' as <-.
    right. by eapply IH.
Qed.

Section completeness.
Context {K : Keccak} (store : Hash -> option tree) (db : Database).
Hypothesis Hdb : db_ok store db.

Definition on_path (n : node) (s : tree) : Prop := loaded n /\ wft s /\ exists r, Rep store r n s.

Lemma Prove_path_ok fuel : forall r tn t key,
  Rep store r tn t -> slot t key -> (need tn key < fuel)%nat ->
  exists ns ss, Prove_path fuel db tn key = Ok (inl ns) /\ tpath t key ss /\ Forall2 on_path ns ss.
Proof.
  induction fuel as [|fuel IH]; intros r tn t key HR Hs Hf; [lia|].
  destruct key as [|k0 key].
  { exists [], []. split_and!; [by destruct tn|constructor|constructor]. }
  destruct tn as [|cs f|nk val f|h|v].
  - inversion HR; subst. exists [], []. split_and!; [done|constructor|constructor].
  - destruct (Rep_full_inv _ _ _ _ _ HR) as (ts & -> & Hcs & _). destruct (slot_shape _ _ Hs) as [Hw Hk]; [done..|].
    destruct (full_lookup _ _ _ Hw Hk) as (c & Ec & Hc). destruct (Rep_Forall2_lookup _ _ _ _ Hcs _ Ec) as (cn & Ecn & HRc).
    destruct (IH false cn c key HRc Hc) as (ns & ss & E & Hp & Hall).
    { pose proof (need_child cn (fullNode cs f) key k0). lia. }
    cbn [Prove_path]. unfold child. rewrite Ecn. cbn [of_option obind]. rewrite E. cbn [rbind obind].
    eexists _, (TFull ts :: ss). split_and!; [done|by econstructor|]. constructor; [|done]. split_and!; [done|done|by exists r].
  - destruct (Rep_short_inv _ _ _ _ _ _ HR) as (u & -> & Hu & _). destruct (slot_shape _ _ Hs) as [Hw Hk]; [done..|].
    cbn [Prove_path]. rewrite match_strip. destruct (strip nk (k0 :: key)) as [rest|] eqn:Es.
    + apply strip_app in Es. destruct (IH false val u rest Hu (slot_short _ _ _ _ Hw Hk Es)) as (ns & ss & E & Hp & Hall).
      { pose proof (need_app val (shortNode nk val f) nk rest (wft_short_nonempty _ _ Hw)). rewrite <- Es in H. lia. }
      rewrite Es, drop_app_length, E. cbn [rbind obind]. eexists _, (TShort nk u :: ss). split_and!; [done|by constructor|].
      constructor; [|done]. split_and!; [done|done|by exists r].
    + destruct fuel as [|fuel]; [cbn [need length] in Hf; lia|]. cbn [Prove_path]. cbn [rbind obind].
      eexists _, [TShort nk u]. split_and!; [done|by constructor|]. constructor; [|constructor]. split_and!; [done|done|by exists r].
  - destruct (resolve_ok _ _ Hdb r h t [] HR) as (Hw & m & E & Hm & _ & Hl).
    destruct (IH r m t (k0 :: key) Hm Hs) as (ns & ss & E' & Hp & Hall).
    { pose proof (need_resolved h m (k0 :: key) Hl ltac:(done)). lia. }
    exists ns, ss. split_and!; [|done|done]. cbn [Prove_path]. rewrite E. cbn [rbind obind]. exact E'.
  - inversion HR; subst. exfalso. by destruct Hs as [[_ [?|?]]|[? _]].
Qed.

Lemma proofHash_ok n s :
  on_path n s -> tsized s ->
  exists cn hn, proofHash n = Ok (cn, hn) /\ node_rval cn = tval s /\
    hn = (if hashed s then hashNode (thash s) else cn).
Proof.
  intros (Hl & Hw & r & HR) Hz. assert (forall h t, store h = Some t -> wft t) as Hst by (intros h u E; by apply (Hdb h u E)).
  destruct n as [|cs f|k v f|?|?]; try done.
  - destruct (Rep_full_inv _ _ _ _ _ HR) as (ts & -> & Hcs & _). assert (Forall tsized ts) as Hsz by (by apply foldr_and_Forall).
    destruct (hash_children_ok store Hst cs ts 16 Hcs) as (hs & cs' & E & Em & _ & _).
    { apply Forall_lookup. intros i c _. by apply hash_ok. }
    { done. }
    { apply Forall_lookup. intros i t Et. apply lookup_take_Some in Et as [Et Hi].
      destruct (full_child _ _ _ Hw Et) as [_ [->|[[-> _]|[_ ?]]]]; [by left|lia|by right]. }
    { apply Forall_lookup. intros i t Et. rewrite lookup_drop in Et.
      destruct (full_child _ _ _ Hw Et) as [_ [->|[[_ ?]|[? _]]]]; [by left|by right|lia]. }
    assert (node_rval (fullNode hs f) = tval (TFull ts)) as Ev.
    { change (VList (map child_rval hs) = VList (map cval ts)). by rewrite Em. }
    cbn [proofHash]. rewrite E. cbn [obind fst]. rewrite (nodeToHash_ok _ _ _ Ev Hw Hz). cbn [obind orb]. by eexists _, _.
  - destruct (Rep_short_inv _ _ _ _ _ _ HR) as (u & -> & Hu & _).
    destruct (hexToCompact_path k (wft_path _ _ Hw)) as (ck & Ek & _).
    destruct (hash_short_child store Hst v u) as (hv & v' & E & Er & _ & _); [by apply hash_ok|done|by apply Hz| | |].
    { destruct (short_slot_tree _ _ Hw) as [[->|?]|?]; [done|by left|by right]. }
    { by intros k' c ->. }
    assert (node_rval (shortNode ck hv f) = tval (TShort k u)) as Ev.
    { change (VList [VBytes ck; node_rval hv] = VList [VBytes (compact k); cval u]). unfold compact. by rewrite Er, Ek. }
    cbn [proofHash]. rewrite Ek. cbn [of_option obind]. rewrite E. cbn [obind fst].
    rewrite (nodeToHash_ok _ _ _ Ev Hw Hz). cbn [obind orb]. by eexists _, _.
Qed.

(** The entries of the proof are nodes of [t], under their hashes. *)
Definition proof_ok (t : tree) (pdb : gmap Hash bytes) : Prop :=
  forall h b, pdb !! h = Some b -> exists s, subtree s t /\ h = BytesToHash (thash s) /\ b = tenc s.

Lemma EncodeToBytes_tval n s : node_rval n = tval s -> wft s -> tsized s -> EncodeToBytes (node_rval n) = Some (tenc s).
Proof.
  intros E Hw Hz. rewrite E, <- rlp_tval. apply EncodeToBytes_rlp; [apply tval_ok; [left; by right|done]|].
  rewrite rlp_tval. by apply zlen_tenc.
Qed.

Lemma Prove_put_ok t (Hcf : collision_free t t) ns ss :
  Forall2 on_path ns ss -> Forall tsized ss -> Forall (fun s => subtree s t) ss -> forall i pdb,
  proof_ok t pdb ->
  exists pdb', Prove_put i ns 0 pdb = Ok pdb' /\ proof_ok t pdb' /\
    (forall s, subtree s t -> pdb !! BytesToHash (thash s) = Some (tenc s) -> pdb' !! BytesToHash (thash s) = Some (tenc s)) /\
    (forall j s, ss !! j = Some s -> hashed s = true \/ (i + j = 0)%nat -> pdb' !! BytesToHash (thash s) = Some (tenc s)).
Proof.
  induction 1 as [|n s ns ss Hn _ IH]; intros Hz Hsub i pdb Hp.
  { exists pdb. split_and!; [done|done|done|]. by intros. }
  apply Forall_cons in Hz as [Hzs Hz]. apply Forall_cons in Hsub as [Hss Hsub].
  destruct (proofHash_ok n s Hn Hzs) as (cn & hn & E & Ev & Eh). destruct Hn as (_ & Hw & _).
  pose proof (EncodeToBytes_tval cn s Ev Hw Hzs) as Ee.
  cbn [Prove_put]. rewrite E. cbn [obind]. rewrite Ee. cbn [default from_option id].
  set (pdb1 := <[BytesToHash (thash s) := tenc s]> pdb).
  assert (proof_ok t pdb1) as Hp1.
  { intros h b. unfold pdb1. rewrite lookup_insert_Some. intros [[<- <-]|[_ Eb]]; [by exists s|by apply Hp]. }
  assert (forall u, subtree u t -> pdb !! BytesToHash (thash u) = Some (tenc u) -> pdb1 !! BytesToHash (thash u) = Some (tenc u)) as Hk1.
  { intros u Hu Eu. unfold pdb1. destruct (decide (BytesToHash (thash s) = BytesToHash (thash u))) as [Eq|Hne].
    - rewrite Eq, lookup_insert_eq. f_equal. apply Hcf; [done|done|]. by apply BytesToHash_thash_inj.
    - by rewrite lookup_insert_ne. }
  assert (exists pdb2, (if (match hn with hashNode _ => true | _ => false end) || (i =? 0)%nat
            then Prove_put (S i) ns 0 (<[BytesToHash (match hn with hashNode h => h | _ => Keccak256 (tenc s) end) := tenc s]> pdb)
            else Prove_put (S i) ns 0 pdb) = Prove_put (S i) ns 0 pdb2 /\ (pdb2 = pdb1 \/ pdb2 = pdb /\ hashed s = false /\ i <> 0%nat))
    as (pdb2 & -> & Hcase).
  { assert (loaded cn \/ hashed s = true) as Hcn.
    { left. destruct cn; try done; by destruct s. }
    subst hn. destruct (hashed s); cbn [orb]; [by exists pdb1; auto|].
    destruct Hcn as [Hcn|?]; [|done]. destruct cn; try done; (destruct (Nat.eqb_spec i 0); [exists pdb1|exists pdb]; auto). }
  assert (proof_ok t pdb2) as Hp2 by (by destruct Hcase as [->|[-> _]]).
  destruct (IH Hz Hsub (S i) pdb2 Hp2) as (pdb' & E' & Hp' & Hkeep & Hput). exists pdb'. split_and!; [done|done|..].
  - intros u Hu Eu. apply Hkeep; [done|]. destruct Hcase as [->|[-> _]]; auto.
  - intros [|j] u Eu Hcond; [|apply (Hput j u Eu); destruct Hcond as [?|?]; [by left|lia]]. injection Eu as <-.
    apply Hkeep; [done|]. destruct Hcase as [->|(_ & Hh & Hi)]; [unfold pdb1; by rewrite lookup_insert_eq|].
    destruct Hcond as [?|?]; [congruence|lia].
Qed.
End completeness.

Lemma tpath_subtree t key l : tpath t key l -> Forall (fun s => subtree s t) l.
Proof.
  induction 1 as [t|key|k c key Es|k c rest0 l _ IH|cs i c rest0 l Ec _ IH].
  - apply Forall_nil_2.
  - apply Forall_nil_2.
  - apply Forall_cons_2; [apply sub_refl|apply Forall_nil_2].
  - apply Forall_cons_2; [apply sub_refl|]. eapply Forall_impl; [exact IH|]. intros s. apply sub_short.
  - apply Forall_cons_2; [apply sub_refl|]. eapply Forall_impl; [exact IH|]. intros s.
    unfold zget in Ec. destruct (0 <=? i); [|done]. by eapply sub_full.
Qed.

Lemma tpath_head t key l : wft t -> key <> [] -> tpath t key l -> l !! 0%nat = Some t.
Proof. intros Hw Hk Hp. by inversion Hp; subst. Qed.

Lemma reach_slot t key u rest : reach t key u rest -> slot t key -> slot u rest.
Proof.
  induction 1 as [t key|k c rest s rest' _ IH|cs i c rest s rest' E _ IH]; intros Hs; [done|..].
  - destruct (slot_shape _ _ Hs) as [Hw Hk]; [done..|]. apply IH. by eapply slot_short.
  - destruct (slot_shape _ _ Hs) as [Hw Hk]; [done..|]. apply IH. by eapply slot_full.
Qed.

(** C22: proofs are complete.  For every key, present or not, [Prove] on a trie
    that is not empty returns nodes with which [VerifyProof] confirms what the
    trie has for the key under its root hash, unless two nodes of the trie have
    the same hash. *)
Theorem prove_verifies {K : Keccak} (store : Hash -> option tree) (db : Database) (root root' : node) (m : kvmap) (h : Hash) (key : bytes) :
  db_ok store db -> trie_map store root m -> map_Forall small_entry m -> m <> ∅ ->
  Trie_Hash root = Ok (h, root') -> Forall is_byte key ->
  (forall t, content t m -> tree_shape t -> collision_free t t) ->
  exists proofDb, Prove db root key 0 ∅ = Ok (inl proofDb) /\ VerifyProof h key (fun h => proofDb !! h) = Ok (inl (m !! key)).
Proof.
  intros Hdb (t & Ht & HR & Hc) Hm Hne Eh Hb Hcf. specialize (Hcf t Hc Ht). pose proof (tsized_map _ _ Ht Hc Hm) as Hs.
  destruct (Trie_Hash_tree store (fun h t E => proj1 (Hdb h t E)) root t HR Ht Hs) as (n1 & E1 & _).
  assert (wft t) as Hw by (destruct Ht as [->|?]; [by destruct Hne; eapply content_functional; [|apply content_empty]|done]).
  assert (h = BytesToHash (thash t)) as -> by (rewrite E1 in Eh; injection Eh as <- _; by destruct t).
  pose proof (keybytesToHex_hexkey _ Hb) as Hk.
  destruct (Prove_path_ok store db Hdb (S (op_fuel (keybytesToHex key))) true root t (keybytesToHex key) HR (wft_slot _ _ Hw Hk)) as (ns & ss & Ep & Hp & Hall).
  { pose proof (op_fuel_enough root (keybytesToHex key)). lia. }
  pose proof (tpath_subtree _ _ _ Hp) as Hsub.
  assert (Forall tsized ss) as Hz by (eapply Forall_impl; [exact Hsub|]; intros s Hss; exact (subtree_sized s t Hss Hs)).
  destruct (Prove_put_ok store db Hdb t Hcf ns ss Hall Hz Hsub 0 ∅) as (pdb & Epdb & Hpok & _ & Hput).
  { intros h b E. by rewrite lookup_empty in E. }
  exists pdb. split; [unfold Prove; rewrite Ep; cbn [rbind obind]; by rewrite Epdb|]. unfold VerifyProof.
  destruct (VerifyProof_ok (fun h => pdb !! h) t (S (length (keybytesToHex key))) t (keybytesToHex key)) as [->|(_ & u & rest & Hr & Hwu & Hcase & En)]; try done.
  - intros s b Hss Es. destruct (Hpok _ _ Es) as (s' & Hs' & Eq & ->). apply Hcf; [done|done|]. symmetry. by apply BytesToHash_thash_inj.
  - intros s Hss _. by eapply subtree_sized.
  - apply sub_refl.
  - lia.
  - by rewrite (content_get _ _ Hc).
  - exfalso. enough (pdb !! BytesToHash (thash u) = Some (tenc u)) by congruence. destruct Hcase as [->|Hh].
    + apply (Hput 0%nat); [|by right]. by apply tpath_head in Hp; [|done|apply hexkey_nonempty].
    + pose proof (slot_loaded _ _ (reach_slot _ _ _ _ Hr (wft_slot _ _ Hw Hk)) Hwu) as Hkr.
      destruct (proj1 (list_elem_of_lookup ss u)) as [j Ej]; [|by apply (Hput j); [done|left]].
      eapply reach_tpath; [done..|by apply hexkey_nonempty|by intros ->].
Qed.
