(* ===== verification/TrieExample.v ===== *)
(** * A trie

    A trie with two keys, one node of which is referred to by its hash: the
    concrete instance of the theorems on tries. *)

From Stdlib Require Import ZArith Lia.
From stdpp Require Import gmap.
From S2P Require Import Prelude Common Rlp RlpSpec Crypto Trie TrieEnc TrieSpec TrieRefine TrieUpdate TrieMap TrieHash TrieDisk TrieCommit TrieProof.

Open Scope go_scope.

(** A hash of 256 bits, with the known hash of the empty trie. *)
Definition Keccak_digest : Keccak :=
  {| Keccak256Hash b := if bool_decide (b = [128]) then emptyRoot else digest b |}.

#[local] Existing Instance Keccak_digest.

(** The node determines the tree. *)
Lemma Rep_functional st n : forall r r' t t', Rep st r n t -> Rep st r' n t' -> t = t'.
Proof.
  induction n as [|cs f IH|k c f IH|h|v] using node_nested_ind; intros r r' t t' HR HR'.
  - by inversion HR; inversion HR'; subst.
  - destruct (Rep_full_inv _ _ _ _ _ HR) as (ts & -> & Hcs & _). destruct (Rep_full_inv _ _ _ _ _ HR') as (ts' & -> & Hcs' & _).
    f_equal. clear - IH Hcs Hcs'. revert ts' Hcs'. induction Hcs as [|c t cs ts Hc _ IHcs]; intros ts' Hcs'; inversion Hcs'; subst; [done|].
    apply Forall_cons in IH as [IHc IH]. f_equal; [by eapply IHc|by apply IHcs].
  - destruct (Rep_short_inv _ _ _ _ _ _ HR) as (u & -> & Hu & _). destruct (Rep_short_inv _ _ _ _ _ _ HR') as (u' & -> & Hu' & _).
    f_equal. by eapply IH.
  - inversion HR; inversion HR'; subst. congruence.
  - by inversion HR; inversion HR'; subst.
Qed.

(** ** The trie *)

Definition ex_long : bytes := replicate 40 7.
Definition ex_ops : list trie_op := [OpUpdate [1; 2] ex_long; OpUpdate [1; 3] [9]].
Definition ex_map : kvmap := <[[1; 3] := [9]]> (<[[1; 2] := ex_long]> ∅).

Definition ex_leaf1 : tree := TShort [16] (TVal ex_long).
Definition ex_leaf2 : tree := TShort [16] (TVal [9]).
Definition ex_full : tree := TFull (<[3%nat := ex_leaf2]> (<[2%nat := ex_leaf1]> (replicate 17 TNil))).
Definition ex_tree : tree := TShort [0; 1; 0] ex_full.

(** No node in the database. *)
Definition ex_db : Database := MkDatabase ∅ (fun _ => None).
Definition ex_store : Hash -> option tree := fun _ => None.

Lemma ex_db_ok : db_ok ex_store ex_db.
Proof. by intros h t [=]. Qed.

Definition ex_root : node :=
  match run_ops ex_db nilNode ex_ops with Ok (inl (_, n)) => n | _ => nilNode end.

Lemma ex_keys : Forall is_byte [1; 2] /\ Forall is_byte [1; 3].
Proof. split; repeat apply Forall_cons_2; try apply Forall_nil_2; unfold is_byte; lia. Qed.

Lemma ex_trie : trie_map ex_store ex_root ex_map.
Proof.
  destruct ex_keys as [Hk1 Hk2].
  destruct (TryUpdate_ok ex_store ex_db ex_db_ok nilNode ∅ [1; 2] ex_long (trie_map_empty _) Hk1) as (n1 & E1 & H1).
  destruct (TryUpdate_ok ex_store ex_db ex_db_ok n1 _ [1; 3] [9] H1 Hk2) as (n2 & E2 & H2).
  assert (ex_root = n2) as ->.
  { unfold ex_root, ex_ops. cbn [run_ops run_op]. rewrite E1. cbn [rbind obind]. rewrite E2. reflexivity. }
  exact H2.
Qed.

Lemma ex_rep : Rep ex_store true ex_root ex_tree.
Proof.
  assert (ex_root = shortNode [0; 1; 0]
            (fullNode (<[3%nat := shortNode [16] (valueNode [9]) newFlag]>
                        (<[2%nat := shortNode [16] (valueNode ex_long) newFlag]> (replicate 17 nilNode))) newFlag) newFlag) as ->
    by (by vm_compute).
  apply rep_short_new, rep_full_new. apply Forall2_insert; [apply Forall2_insert; [apply Forall2_replicate; constructor|]|];
    apply rep_short_new; constructor.
Qed.

Lemma ex_content : tree_shape ex_tree /\ content ex_tree ex_map.
Proof.
  destruct ex_trie as (t & Ht & HR & Hc). by rewrite (Rep_functional _ _ _ _ _ _ ex_rep HR).
Qed.

Lemma ex_wft : wft ex_tree.
Proof. by destruct ex_content as [[?|?] _]. Qed.

Lemma ex_small : map_Forall small_entry ex_map.
Proof.
  intros k v. unfold ex_map. rewrite lookup_insert_Some. intros [[<- <-]|[_ E]].
  - split_and!; [done|by repeat constructor|done].
  - rewrite lookup_insert_Some in E. destruct E as [[<- <-]|[_ E]]; [|by rewrite lookup_empty in E].
    split_and!; [done|apply Forall_replicate; unfold is_byte; lia|done].
Qed.

Lemma ex_unique t : content t ex_map -> tree_shape t -> t = ex_tree.
Proof. intros Hc Ht. destruct ex_content as [Hte Hce]. by apply (content_unique _ _ ex_map). Qed.

(** ** Its nodes *)

Definition ex_trees : list tree := [ex_tree; ex_full; TNil; ex_leaf1; TVal ex_long; ex_leaf2; TVal [9]].

Lemma ex_subtrees s : subtree s ex_tree -> s ∈ ex_trees.
Proof.
  assert (forall v, subtree s (TVal v) -> s = TVal v) as Hv by (intros v H; by inversion H).
  assert (forall v, subtree s (TShort [16] (TVal v)) -> s = TShort [16] (TVal v) \/ s = TVal v) as Hl.
  { intros v H. inversion H as [|k c H'|]; subst; [by left|right; auto]. }
  intros H. unfold ex_trees. inversion H as [|k c H'|]; subst; [by left|right].
  inversion H' as [| |cs i c E Hs]; subst; [by left|right].
  do 17 (destruct i as [|i];
    [injection E as <-; (inversion Hs; subst; by left) || (apply Hl in Hs as [->| ->]; set_solver)|]). done.
Qed.

Definition ex_known (s : tree) : Prop := subtree s ex_tree.

Lemma ex_hashes : NoDup (map (fun t => BytesToHash (thash t)) ex_trees).
Proof. apply (bool_decide_unpack _). vm_compute. exact I. Qed.

(** No two of them have the same hash. *)
Lemma ex_no_collision s s' : ex_known s -> ex_known s' -> BytesToHash (thash s) = BytesToHash (thash s') -> s = s'.
Proof.
  intros Hs%ex_subtrees Hs'%ex_subtrees E.
  apply list_elem_of_lookup in Hs as [i Ei]. apply list_elem_of_lookup in Hs' as [j Ej].
  assert (i = j) as ->; [|congruence]. apply (NoDup_lookup _ i j (BytesToHash (thash s)) ex_hashes).
  - rewrite list_lookup_fmap, Ei. reflexivity.
  - rewrite list_lookup_fmap, Ej, E. reflexivity.
Qed.

Lemma ex_collision_free : collision_free ex_tree ex_tree.
Proof. intros s s' Hs Hs' E. f_equal. apply ex_no_collision; [done..|]. by rewrite E. Qed.

(** ** The trie in the database *)

Lemma ex_inv : db_inv ex_known ex_store ex_db.
Proof. constructor; [apply ex_db_ok|intros h raw E; change (dirties ex_db) with (∅ : gmap Hash rawNode) in E; by rewrite lookup_empty in E|done|done]. Qed.

(** What [Trie_Commit] leaves: the hash of the root and the database. *)
Definition ex_committed : node * Database :=
  match Trie_Commit ex_root ex_db with Ok (_, n, db) => (n, db) | _ => (nilNode, ex_db) end.

Lemma ex_committed_ok : exists st, db_ok st (snd ex_committed) /\ trie_map st (fst ex_committed) ex_map.
Proof.
  destruct ex_content as [Ht Hc].
  destruct (Trie_Commit_tree ex_known ex_no_collision ex_store ex_db ex_root ex_tree ex_inv ex_rep Ht (tsized_map _ _ Ht Hc ex_small))
    as (root' & db' & st' & E & Hi & _ & HR & _); [by intros s Hs|].
  exists st'. unfold ex_committed. rewrite E. cbn [fst snd]. split; [exact (di_ok _ _ _ Hi)|].
  exists ex_tree. split; [exact Ht|split; [exact HR|exact Hc]].
Qed.

Lemma trie_refines_map_witness :
  exists root', run_ops (snd ex_committed) (fst ex_committed) [OpGet [1; 2]; OpDelete [1; 2]; OpGet [1; 2]; OpGet [1; 3]]
    = Ok (inl ([Some ex_long; None; None; Some [9]], root')).
Proof.
  destruct ex_committed_ok as (st & Hdb & Hm). destruct ex_keys as [Hk1 Hk2].
  destruct (trie_refines_map st (snd ex_committed) (fst ex_committed) ex_map
              [OpGet [1; 2]; OpDelete [1; 2]; OpGet [1; 2]; OpGet [1; 3]] Hdb Hm) as (root' & E & _);
    [do 3 (apply Forall_cons_2; [exact Hk1|]); apply Forall_cons_2; [exact Hk2|apply Forall_nil_2]|].
  exists root'. rewrite E. vm_compute. reflexivity.
Defined.

Lemma root_hash_history_independent_witness :
  exists h root1 root2, Trie_Hash ex_root = Ok (h, root1) /\ Trie_Hash (fst ex_committed) = Ok (h, root2).
Proof.
  destruct ex_committed_ok as (st & Hdb & Hm).
  destruct (root_hash_history_independent ex_store st ex_db (snd ex_committed) ex_root (fst ex_committed) ex_map
              ex_db_ok Hdb ex_trie Hm ex_small) as (h & root1 & root2 & E1 & E2 & _).
  exists h, root1, root2. split; [exact E1|exact E2].
Defined.

Definition ex_root_hash : Hash := match Trie_Hash ex_root with Ok (h, _) => h | _ => 0 end.

Lemma ex_root_hash_ok : exists root', Trie_Hash ex_root = Ok (ex_root_hash, root').
Proof. unfold ex_root_hash. destruct (Trie_Hash ex_root) as [[h r]|p|] eqn:E; [by exists r|by vm_compute in E..]. Qed.

(** The same map in another way. *)
Definition ex_root2 : node :=
  match run_ops ex_db nilNode [OpUpdate [1; 2] [5]; OpUpdate [1; 3] [9]; OpUpdate [1; 2] ex_long] with
  | Ok (inl (_, n)) => n
  | _ => nilNode
  end.
Definition ex_map2 : kvmap := <[[1; 2] := ex_long]> (<[[1; 3] := [9]]> (<[[1; 2] := [5]]> ∅)).

Lemma ex_trie2 : trie_map ex_store ex_root2 ex_map2.
Proof.
  destruct ex_keys as [Hk1 Hk2].
  destruct (TryUpdate_ok ex_store ex_db ex_db_ok nilNode ∅ [1; 2] [5] (trie_map_empty _) Hk1) as (n1 & E1 & H1).
  destruct (TryUpdate_ok ex_store ex_db ex_db_ok n1 _ [1; 3] [9] H1 Hk2) as (n2 & E2 & H2).
  destruct (TryUpdate_ok ex_store ex_db ex_db_ok n2 _ [1; 2] ex_long H2 Hk1) as (n3 & E3 & H3).
  assert (ex_root2 = n3) as ->; [|exact H3].
  unfold ex_root2. cbn [run_ops run_op]. rewrite E1. cbn [rbind obind]. rewrite E2. cbn [rbind obind]. by rewrite E3.
Qed.

Lemma ex_map2_eq : ex_map2 = ex_map.
Proof. unfold ex_map2, ex_map. rewrite (insert_insert_ne _ [1; 2] [1; 3]) by done. by rewrite insert_insert_eq. Qed.

Lemma root_hash_binding_witness : ex_map2 = ex_map.
Proof.
  assert (exists r1 r2, Trie_Hash ex_root2 = Ok (ex_root_hash, r1) /\ Trie_Hash ex_root = Ok (ex_root_hash, r2)) as (r1 & r2 & E1 & E2)
    by (eexists _, _; split; vm_compute; reflexivity).
  apply (root_hash_binding ex_store ex_store ex_db ex_db ex_root2 ex_root r1 r2 ex_map2 ex_map ex_root_hash
           ltac:(by vm_compute) ex_db_ok ex_db_ok ex_trie2 ex_trie ltac:(rewrite ex_map2_eq; exact ex_small) ex_small); [|exact E1|exact E2].
  intros t1 t2 H1 H2 Hs1 Hs2. rewrite ex_map2_eq in H1. rewrite (ex_unique t1 H1 Hs1), (ex_unique t2 H2 Hs2). apply ex_collision_free.
Defined.

Lemma commit_reopen_witness :
  exists h root' db' root'', Trie_Commit ex_root ex_db = Ok (h, root', db') /\ New h db' = Ok (inl root'').
Proof.
  destruct (commit_reopen ex_known ex_store ex_db ex_root ex_map ex_no_collision ex_inv ex_trie ex_small)
    as (h & root' & db' & st' & root'' & E & En & _).
  - intros t Hc Ht s Hs. by rewrite (ex_unique t Hc Ht) in Hs.
  - intros t Hc Hw. rewrite (ex_unique t Hc (or_intror Hw)). split; vm_compute; discriminate.
  - exists h, root', db', root''. split; [exact E|exact En].
Defined.

(** ** The trie on disk *)

Definition ex_disk_store (h : Hash) : option tree :=
  if h =? BytesToHash (thash ex_tree) then Some ex_tree
  else if h =? BytesToHash (thash ex_full) then Some ex_full
  else if h =? BytesToHash (thash ex_leaf1) then Some ex_leaf1
  else None.

Lemma ex_disk_known h t : ex_disk_store h = Some t -> ex_known t /\ wft t /\ h = BytesToHash (thash t).
Proof.
  assert (subtree ex_full ex_tree) as Hf by (apply sub_short, sub_refl).
  assert (subtree ex_leaf1 ex_full) as Hl by (apply (sub_full _ _ 2 ex_leaf1); [reflexivity|apply sub_refl]).
  assert (wft ex_full) as Hwf by (pose proof ex_wft as (_ & _ & H); exact H).
  assert (wft ex_leaf1) as Hwl by (split; [by exists []|discriminate]).
  unfold ex_disk_store, ex_known. destruct (Z.eqb_spec h (BytesToHash (thash ex_tree))) as [->|_].
  { intros [= <-]. split; [apply sub_refl|split; [exact ex_wft|reflexivity]]. }
  destruct (Z.eqb_spec h (BytesToHash (thash ex_full))) as [->|_].
  { intros [= <-]. split; [exact Hf|split; [exact Hwf|reflexivity]]. }
  destruct (Z.eqb_spec h (BytesToHash (thash ex_leaf1))) as [->|_]; [|discriminate].
  intros [= <-]. split; [apply sub_short; exact Hl|split; [exact Hwl|reflexivity]].
Qed.

(** ** Proofs *)

Lemma ex_nonempty : ex_map <> ∅.
Proof. apply insert_non_empty. Qed.

Lemma prove_verifies_witness :
  exists proofDb, Prove ex_db ex_root [1; 2] 0 ∅ = Ok (inl proofDb) /\
    VerifyProof ex_root_hash [1; 2] (fun h => proofDb !! h) = Ok (inl (Some ex_long)).
Proof.
  destruct ex_root_hash_ok as (root' & E).
  destruct (prove_verifies ex_store ex_db ex_root root' ex_map ex_root_hash [1; 2] ex_db_ok ex_trie ex_small ex_nonempty E (proj1 ex_keys))
    as (pdb & Ep & Ev).
  - intros t Hc Ht. rewrite (ex_unique t Hc Ht). exact ex_collision_free.
  - exists pdb. split; [exact Ep|]. rewrite Ev. vm_compute. reflexivity.
Defined.

Lemma verify_proof_sound_witness :
  let proofDb := fun h => match ex_disk_store h with Some t => Some (tenc t) | None => None end in
  VerifyProof ex_root_hash [1; 3] proofDb = Ok (inl (Some [9])) \/
  VerifyProof ex_root_hash [1; 3] proofDb = Ok (inr ProofNodeMissing).
Proof.
  intros proofDb. destruct ex_root_hash_ok as (root' & E).
  refine (verify_proof_sound ex_store ex_db ex_root root' ex_map ex_root_hash [1; 3] proofDb ex_db_ok ex_trie ex_small ex_nonempty E (proj2 ex_keys) _ _).
  - intros h b Eb. unfold proofDb in Eb. destruct (ex_disk_store h) as [t|] eqn:Et; [|discriminate]. injection Eb as <-.
    exact (proj2 (proj2 (ex_disk_known h t Et))).
  - intros t s h b Hc Ht Hs Eb Eq. rewrite (ex_unique t Hc Ht) in Hs. unfold proofDb in Eb.
    destruct (ex_disk_store h) as [u|] eqn:Et; [|discriminate]. injection Eb as <-.
    rewrite (ex_no_collision u s (proj1 (ex_disk_known h u Et)) Hs Eq). reflexivity.
Defined.

Lemma key_encodings_roundtrip_witness :
  hexToKeybytes (keybytesToHex [1; 2]) = Ok [1; 2] /\ exists c, hexToCompact [1; 2; 3; 16] = Some c /\ compactToHex c = [1; 2; 3; 16].
Proof.
  split.
  - exact (proj1 key_encodings_roundtrip [1; 2] (proj1 ex_keys)).
  - apply (proj1 (proj2 key_encodings_roundtrip)). exists [1; 2; 3], true. split; [reflexivity|].
    repeat apply Forall_cons_2; try apply Forall_nil_2; unfold is_nibble; lia.
Defined.
