(* ===== verification/StackTrie.v ===== *)
(** * The append-only trie

    [trie/stacktrie.go]: a trie for keys that come in increasing order, which
    keeps only the nodes on the path of the last key and hashes a node as soon as
    no later key can be below it; and [core/types/derive_sha.go], which computes
    with it the root hash of a list of transactions or receipts.

    A [*StackTrie] is owned by its parent, so that it is a value here; [nilST] is
    the nil pointer.  The pool of unused nodes hands out nodes that were reset.
    The state is the database, nil or what was written to it: every node of a
    trie has the same. *)

From Stdlib Require Import ZArith Lia.
From S2P Require Import Prelude Common Rlp Crypto Trie.

Open Scope go_scope.

(** ** trie/stacktrie.go *)

Inductive nodetype := emptyNode | branchNode | extNode | leafNode | hashedNode.

Inductive StackTrie :=
| nilST
| ST (nodeType : nodetype) (val key : bytes) (keyOffset : Z) (children : list StackTrie).

Definition stdb : Type := option (list (bytes * bytes)).

(** [st.db.Put(key, value)] where [st.db] is not nil. *)
Definition Put (key value : bytes) : M stdb unit :=
  modify (fun db => match db with Some l => Some (l ++ [(key, value)]) | None => None end).

Abbreviation noChildren := (replicate 16 nilST).

(** What [Reset], [NewStackTrie] and the pool give; [keyOffset] is zero but for
    the nodes of a branch. *)
Definition NewStackTrie (keyOffset : Z) : StackTrie := ST emptyNode [] [] keyOffset noChildren.

Definition newLeaf (ko : Z) (key val : bytes) : M stdb StackTrie :=
  k <~ lift_opt PanicIndex (zslice key ko (zlen key)) ;;
  ret (ST leafNode val k ko noChildren).

Definition newExt (ko : Z) (key : bytes) (child : StackTrie) : M stdb StackTrie :=
  k <~ lift_opt PanicIndex (zslice key ko (zlen key)) ;;
  ret (ST extNode [] k ko (child :: replicate 15 nilST)).

(** [getDiffIndex(key)]; the second argument is [key] from [keyOffset] on. *)
Fixpoint getDiffIndex (skey key : bytes) : option nat :=
  match skey, key with
  | [], _ => Some O
  | _ :: _, [] => None
  | x :: skey, y :: key => if x =? y then option_map S (getDiffIndex skey key) else Some O
  end.

Definition st_val (st : StackTrie) : bytes := match st with ST _ v _ _ _ => v | nilST => [] end.

Section hashing.
Context {K : Keccak}.

(** The end of [hash]: the encoding of the node, or its hash when it has 32 bytes
    or more, takes the place of the value. *)
Definition hash_finish (n : rval) (ko : Z) (cs : list StackTrie) : M stdb StackTrie :=
  tmp <~ lift_opt PanicOther (Encode n) ;;
  if zlen tmp <? 32 then ret (ST hashedNode tmp [] ko cs)
  else
    let h := Keccak256 tmp in
    Put h tmp ;;;
    ret (ST hashedNode h [] ko cs).

Fixpoint st_hash (st : StackTrie) : M stdb StackTrie :=
  match st with
  | nilST => raise PanicNil
  | ST nodeType val key ko children =>
      match nodeType with
      | hashedNode => ret st
      | branchNode =>
          nodes <~ (fix each (cs : list StackTrie) : M stdb (list rval) :=
                      match cs with
                      | [] => ret []
                      | child :: cs =>
                          n <~ (match child with
                                | nilST => ret (VBytes [])
                                | _ =>
                                    child <~ st_hash child ;;
                                    ret (if zlen (st_val child) <? 32 then VRaw (st_val child) else VBytes (st_val child))
                                end) ;;
                          rest <~ each cs ;;
                          ret (n :: rest)
                      end) children ;;
          hash_finish (VList (nodes ++ [VBytes []])) ko noChildren
      | extNode =>
          match children with
          | [] => raise PanicIndex
          | child :: rest =>
              child <~ st_hash child ;;
              ck <~ lift_opt PanicIndex (hexToCompact key) ;;
              hash_finish (VList [VBytes ck; VBytes (st_val child)]) ko (nilST :: rest)
          end
      | leafNode =>
          ' (sz, k) <~ lift_opt PanicIndex (hexToCompactInPlace (key ++ [16])) ;;
          ck <~ lift_opt PanicIndex (zslice k 0 sz) ;;
          hash_finish (VList [VBytes ck; VBytes val]) ko children
      | emptyNode => ret (ST hashedNode (Hash_Bytes emptyRoot) [] ko children)
      end
  end.

(** The loop of [insert] at a branch: hash the last child before [idx]. *)
Fixpoint hash_prev (i : nat) (cs : list StackTrie) : M stdb (list StackTrie) :=
  match i with
  | O => ret cs
  | S i =>
      match cs !! i with
      | None => raise PanicIndex
      | Some nilST => hash_prev i cs
      | Some (ST hashedNode _ _ _ _) => ret cs
      | Some c => c <~ st_hash c ;; ret (<[i := c]> cs)
      end
  end.

(** [children[i] = c] of a node. *)
Definition set_st (cs : list StackTrie) (i : Z) (c : StackTrie) : M stdb (list StackTrie) :=
  lift_opt PanicIndex (zput cs i c).

(** [insert(key, value)] *)
Fixpoint st_insert (fuel : nat) (st : StackTrie) (key value : bytes) : M stdb StackTrie :=
  match fuel, st with
  | O, _ => fun _ => NoFuel
  | _, nilST => raise PanicNil
  | S fuel, ST nodeType val skey ko children =>
      match nodeType with
      | branchNode =>
          idx <~ lift_opt PanicIndex (zget key ko) ;;
          cs <~ hash_prev (Z.to_nat idx) children ;;
          c <~ lift_opt PanicIndex (zget cs idx) ;;
          let c := match c with nilST => NewStackTrie (ko + 1) | c => c end in
          c <~ st_insert fuel c key value ;;
          cs <~ set_st cs idx c ;;
          ret (ST branchNode val skey ko cs)
      | extNode =>
          diffidx <~ lift_opt PanicIndex (getDiffIndex skey (drop (Z.to_nat ko) key)) ;;
          child <~ lift_opt PanicIndex (children !! 0%nat) ;;
          if (diffidx =? length skey)%nat then
            child <~ st_insert fuel child key value ;;
            ret (ST extNode val skey ko (<[0%nat := child]> children))
          else
            n <~ (if (diffidx <? length skey - 1)%nat then newExt (Z.of_nat diffidx + 1) skey child else ret child) ;;
            n <~ st_hash n ;;
            o <~ newLeaf (ko + Z.of_nat diffidx + 1) key value ;;
            origIdx <~ lift_opt PanicIndex (skey !! diffidx) ;;
            newIdx <~ lift_opt PanicIndex (zget key (Z.of_nat diffidx + ko)) ;;
            (if (diffidx =? 0)%nat then
               cs <~ set_st (<[0%nat := nilST]> children) origIdx n ;;
               cs <~ set_st cs newIdx o ;;
               ret (ST branchNode val (take diffidx skey) ko cs)
             else
               cs <~ set_st noChildren origIdx n ;;
               cs <~ set_st cs newIdx o ;;
               let p := ST branchNode [] [] (ko + Z.of_nat diffidx) cs in
               ret (ST extNode val (take diffidx skey) ko (<[0%nat := p]> children)))
      | leafNode =>
          diffidx <~ lift_opt PanicIndex (getDiffIndex skey (drop (Z.to_nat ko) key)) ;;
          if (length skey <=? diffidx)%nat then raise PanicOther
          else
            origIdx <~ lift_opt PanicIndex (skey !! diffidx) ;;
            n <~ newLeaf (Z.of_nat diffidx + 1) skey val ;;
            n <~ st_hash n ;;
            newIdx <~ lift_opt PanicIndex (zget key (Z.of_nat diffidx + ko)) ;;
            let pOffset := if (diffidx =? 0)%nat then ko else ko + Z.of_nat diffidx in
            o <~ newLeaf (pOffset + 1) key value ;;
            (if (diffidx =? 0)%nat then
               cs <~ set_st (<[0%nat := nilST]> children) origIdx n ;;
               cs <~ set_st cs newIdx o ;;
               ret (ST branchNode [] (take diffidx skey) ko cs)
             else
               cs <~ set_st noChildren origIdx n ;;
               cs <~ set_st cs newIdx o ;;
               let p := ST branchNode [] [] pOffset cs in
               ret (ST extNode [] (take diffidx skey) ko (<[0%nat := p]> children)))
      | emptyNode =>
          k <~ lift_opt PanicIndex (zslice key ko (zlen key)) ;;
          ret (ST leafNode value k ko children)
      | hashedNode => raise PanicOther
      end
  end.

(** [TryUpdate(key, value)]; [insert] goes down one nibble per round. *)
Definition st_TryUpdate (st : StackTrie) (key value : bytes) : M stdb StackTrie :=
  let k := keybytesToHex key in
  if zlen value =? 0 then raise PanicOther
  else st_insert (S (length k)) st (take (length k - 1) k) value.

(** [Hash()] *)
Definition st_Hash (st : StackTrie) : M stdb (Hash * StackTrie) :=
  st <~ st_hash st ;;
  if negb (zlen (st_val st) =? 32) then ret (BytesToHash (Keccak256 (st_val st)), st)
  else ret (BytesToHash (st_val st), st).

Inductive st_error := ErrCommitDisabled.

(** [Commit()] *)
Definition st_Commit (st : StackTrie) : M stdb ((Hash + st_error) * StackTrie) :=
  db <~ Prelude.get ;;
  match db with
  | None => ret (inr ErrCommitDisabled, st)
  | Some _ =>
      st <~ st_hash st ;;
      ret (inl (BytesToHash (st_val st)), st)
  end.

(** ** core/types/derive_sha.go

    The interface [Hasher]: tries of both kinds implement it. *)

Class Hasher (H : Type) := {
  Hasher_Reset : H -> H;
  Hasher_Update : bytes -> bytes -> H -> outcome H;
  Hasher_Hash : H -> outcome (Hash * H);
}.

#[export] Instance Hasher_StackTrie : Hasher (StackTrie * stdb) := {|
  Hasher_Reset _ := (NewStackTrie 0, None);
  Hasher_Update key value h := st_TryUpdate (fst h) key value (snd h);
  Hasher_Hash h := r <- st_Hash (fst h) (snd h) ;; Ok (fst (fst r), (snd (fst r), snd r));
|}.

(** [Update] of a trie logs an error and drops it. *)
#[export] Instance Hasher_Trie (db : Database) : Hasher node := {|
  Hasher_Reset _ := nilNode;
  Hasher_Update key value root :=
    r <- TryUpdate db root key value ;;
    Ok (match r with inl root => root | inr _ => root end);
  Hasher_Hash := Trie_Hash;
|}.

Section derive.
Context {H : Type} {HH : Hasher H}.

(** One round: the index as a key, [list.GetRlp(i)] as the value; an error of
    [rlp.Encode] would leave the key empty. *)
Definition derive_update (items : list bytes) (hasher : H) (i : Z) : outcome H :=
  v <- of_option PanicIndex (zget items i) ;;
  Hasher_Update (default [] (Encode (VUint i))) v hasher.

Fixpoint derive_loop (items : list bytes) (idxs : list Z) (hasher : H) : outcome H :=
  match idxs with
  | [] => Ok hasher
  | i :: idxs => hasher <- derive_update items hasher i ;; derive_loop items idxs hasher
  end.

(** The indices of the three loops, in the order of their keys. *)
Definition derive_order (n : Z) : list Z :=
  seqZ 1 (Z.min n 128 - 1) ++ (if 0 <? n then [0] else []) ++ seqZ 128 (n - 128).

Definition DeriveSha (items : list bytes) (hasher : H) : outcome (Hash * H) :=
  hasher <- derive_loop items (derive_order (zlen items)) (Hasher_Reset hasher) ;;
  Hasher_Hash hasher.
End derive.
End hashing.
