(* ===== verification/StackTrieOk.v ===== *)
(** * The append-only trie computes the root hash of the trie

    A [StackTrie] stands for a tree of [TrieSpec]: directly on the path of the
    last key, and through the hashes of the nodes that were closed before.
    Inserting increasing keys keeps this, so that its hash is that of the trie
    with the same content, if no value is so short that the node of an extension
    is embedded in it. *)

From Stdlib Require Import ZArith Lia.
From stdpp Require Import gmap.
From S2P Require Import Prelude Common Rlp RlpSpec Crypto Trie TrieEnc TrieSpec TrieRefine TrieUpdate TrieMap TrieHash TrieDisk StackTrie.

Open Scope go_scope.

(** ** Sizes of encodings

    Values have seven bytes at least; then every full node has 32, and is
    referred to by its hash. *)

Fixpoint tlong (t : tree) : Prop :=
  match t with
  | TNil => True
  | TVal v => 7 <= zlen v
  | TShort _ c => tlong c
  | TFull cs => foldr and True (map tlong cs)
  end.

Lemma tlong_full cs i c : tlong (TFull cs) -> cs !! i = Some c -> tlong c.
Proof.
  intros H E. apply (proj1 (foldr_and_Forall tlong cs)) in H. rewrite Forall_lookup in H. by eapply H.
Qed.

Lemma zlen_rlp_head base n : 1 <= zlen (rlp_head base n).
Proof. unfold rlp_head. destruct (n <? 56); rewrite zlen_cons; match goal with |- context [zlen ?l] => pose proof (zlen_nonneg l) end; lia. Qed.

Lemma zlen_rlp_string_ge b : 1 <= zlen (rlp_string b) /\ (2 <= zlen b -> 1 + zlen b <= zlen (rlp_string b)).
Proof.
  split.
  - unfold rlp_string. pose proof (zlen_nonneg b). destruct b as [|x [|y b]].
    + done.
    + destruct (x <? 128); [done|]. rewrite zlen_app, zlen_cons, zlen_nil. pose proof (zlen_rlp_head 128 1). lia.
    + pose proof (zlen_rlp_head 128 (zlen (x :: y :: b))). rewrite zlen_app. lia.
  - intros H. rewrite rlp_string_long by done. rewrite zlen_app. pose proof (zlen_rlp_head 128 (zlen b)). lia.
Qed.

Lemma zlen_rlp_list_ge b : 1 + zlen b <= zlen (rlp_list b).
Proof. unfold rlp_list. rewrite zlen_app. pose proof (zlen_rlp_head 192 (zlen b)). lia. Qed.

(** The length of a list of items of which two are long. *)
Lemma concat_one (ls : list bytes) i a :
  Forall (fun l => 1 <= zlen l) ls -> ls !! i = Some a -> zlen ls - 1 + zlen a <= zlen (concat ls).
Proof.
  intros H. revert i. induction H as [|l ls Hl Hls IH]; intros i E; [done|]. cbn [concat]. rewrite zlen_app, zlen_cons.
  destruct i as [|i]; cbn in E.
  - injection E as ->. assert (zlen ls <= zlen (concat ls)); [|lia]. clear - Hls.
    induction Hls as [|l ls Hl _ IH]; [done|]. cbn [concat]. rewrite zlen_app, zlen_cons. lia.
  - specialize (IH i E). lia.
Qed.

Lemma concat_two (ls : list bytes) i j a b :
  Forall (fun l => 1 <= zlen l) ls -> i <> j -> ls !! i = Some a -> ls !! j = Some b ->
  zlen ls - 2 + zlen a + zlen b <= zlen (concat ls).
Proof.
  intros H. revert i j. induction H as [|l ls Hl Hls IH]; intros i j Hij Ea Eb; [done|].
  cbn [concat]. rewrite zlen_app, zlen_cons. destruct i as [|i], j as [|j]; cbn in Ea, Eb.
  - done.
  - injection Ea as ->. pose proof (concat_one ls j b Hls Eb). lia.
  - injection Eb as ->. pose proof (concat_one ls i a Hls Ea). lia.
  - pose proof (IH i j ltac:(lia) Ea Eb). lia.
Qed.

(** ** Keys in order *)

(** [a] comes before [b], and is no prefix of it. *)
Definition key_lt (a b : bytes) : Prop := exists p x a' y b', a = p ++ x :: a' /\ b = p ++ y :: b' /\ x < y.

Lemma key_lt_cons x a y b : key_lt (x :: a) (y :: b) <-> x < y \/ (x = y /\ key_lt a b).
Proof.
  split.
  - intros ([|z p] & x' & a' & y' & b' & Ea & Eb & Hlt); injection Ea as -> ->; injection Eb as -> ->; [by left|right].
    split; [done|]. by exists p, x', a', y', b'.
  - intros [Hlt|[-> (p & x' & a' & y' & b' & -> & -> & Hlt)]]; [by exists [], x, a, y, b|by exists (y :: p), x', a', y', b'].
Qed.

Lemma key_lt_cons_l x a r : key_lt (x :: a) r -> exists y b, r = y :: b /\ (x < y \/ (x = y /\ key_lt a b)).
Proof.
  intros H. destruct r as [|y b]; [|exists y, b; split; [done|by apply key_lt_cons]].
  destruct H as ([|] & ? & ? & ? & ? & _ & ? & _); done.
Qed.

Lemma key_lt_app k l r :
  key_lt (k ++ l) r ->
  (exists p x a y b, k = p ++ x :: a /\ r = p ++ y :: b /\ x < y) \/ (exists r', r = k ++ r' /\ key_lt l r').
Proof.
  revert r. induction k as [|z k IH]; intros r H; [right; by exists r|]. cbn [app] in H.
  destruct (key_lt_cons_l _ _ _ H) as (y & b & -> & [Hlt|[-> Hb]]).
  - left. by exists [], z, k, y, b.
  - destruct (IH b Hb) as [(p & x & a & y' & b' & -> & -> & Hlt)|(r' & -> & Hr)]; [left|right; by exists r'].
    by exists (y :: p), x, a, y', b'.
Qed.

(** The nibbles of ordered keys are ordered. *)
Lemma key_lt_nibs a b : Forall is_byte a -> Forall is_byte b -> key_lt a b -> key_lt (nibs a) (nibs b).
Proof.
  intros Ha Hb (p & x & a' & y & b' & -> & -> & Hlt).
  assert (forall q, nibs (p ++ q) = nibs p ++ nibs q) as Happ by (intros q; unfold nibs; by rewrite map_app, concat_app).
  rewrite !Happ, !nibs_cons. apply Forall_app in Ha as [_ Ha], Hb as [_ Hb]. apply Forall_cons in Ha as [Hx _], Hb as [Hy _].
  unfold is_byte in *. pose proof (Z.div_le_mono x y 16 ltac:(lia) ltac:(lia)).
  destruct (decide (x / 16 = y / 16)) as [E|Hne].
  - exists (nibs p ++ [x / 16]), (x mod 16), (nibs a'), (y mod 16), (nibs b'). rewrite <- !app_assoc, E. cbn [app].
    split_and!; [done|done|]. pose proof (Z.div_mod x 16). pose proof (Z.div_mod y 16). lia.
  - exists (nibs p), (x / 16), (x mod 16 :: nibs a'), (y / 16), (y mod 16 :: nibs b'). split_and!; [done|done|lia].
Qed.

Lemma key_lt_irrefl a : ~ key_lt a a.
Proof.
  intros (p & x & a' & y & b' & E & E' & Hlt). rewrite E in E'. apply app_inv_head in E'. injection E' as -> _. lia.
Qed.

Lemma getDiffIndex_diff p x a y b : x <> y -> getDiffIndex (p ++ x :: a) (p ++ y :: b) = Some (length p).
Proof.
  intros H. induction p as [|z p IH]; cbn.
  - by destruct (Z.eqb_spec x y).
  - by rewrite Z.eqb_refl, IH.
Qed.

Lemma getDiffIndex_prefix k r : getDiffIndex k (k ++ r) = Some (length k).
Proof. induction k as [|z k IH]; cbn; [by destruct r|]. by rewrite Z.eqb_refl, IH. Qed.

Section stacktrie.
Context {K : Keccak}.

Lemma tref_ge_one t : 1 <= zlen (tref t).
Proof.
  rewrite tref_hashed. destruct (hashed t); [apply zlen_rlp_string_ge|].
  destruct t as [|cs|k c|v]; cbn [tenc].
  - apply zlen_rlp_string_ge.
  - match goal with |- context [rlp_list ?l] => pose proof (zlen_rlp_list_ge l); pose proof (zlen_nonneg l) end. lia.
  - match goal with |- context [rlp_list ?l] => pose proof (zlen_rlp_list_ge l); pose proof (zlen_nonneg l) end. lia.
  - apply zlen_rlp_string_ge.
Qed.

Lemma zlen_tref_hashed t : hashed t = true -> 33 <= zlen (tref t).
Proof.
  intros E. rewrite tref_hashed, E. destruct (thash_bytes t) as [_ Hl]. pose proof (proj2 (zlen_rlp_string_ge (thash t))). lia.
Qed.

Lemma tref_long t :
  (wft t \/ is_val t) -> tlong t -> 8 <= zlen (tref t) /\ (forall cs, t = TFull cs -> hashed t = true).
Proof.
  induction t as [|cs IH|k c IH|v] using tree_nested_ind; intros Ht Hl.
  - destruct Ht as [?|(v & ? & _)]; done.
  - assert (wft (TFull cs)) as Hw by (by destruct Ht as [?|(v & ? & _)]).
    assert (hashed (TFull cs) = true) as Hh; [|split; [pose proof (zlen_tref_hashed _ Hh); lia|by intros]].
    cbn [hashed]. apply negb_true_iff, Z.ltb_ge.
    change (tenc (TFull cs)) with (rlp_list (concat (map tref cs))).
    pose proof Hw as (Hlen & _ & _ & i & j & c & d & Hij & Ec & Ed & Hc & Hd).
    assert (forall n e, cs !! n = Some e -> e <> TNil -> 8 <= zlen (tref e)) as H8.
    { intros n e En Hne. rewrite Forall_lookup in IH. apply (IH n e En).
      - destruct (full_child _ _ _ Hw En) as [_ [->|[[_ ?]|[_ ?]]]]; [done|by right|by left].
      - by eapply tlong_full. }
    pose proof (concat_two (map tref cs) i j (tref c) (tref d)) as H2. rewrite !list_lookup_fmap, Ec, Ed in H2.
    specialize (H2 ltac:(apply Forall_map, Forall_forall; intros; apply tref_ge_one) Hij eq_refl eq_refl).
    pose proof (H8 i c Ec Hc). pose proof (H8 j d Ed Hd). pose proof (zlen_rlp_list_ge (concat (map tref cs))).
    assert (zlen (map tref cs) = 17) as E17 by (unfold zlen; by rewrite length_map, Hlen). lia.
  - split; [|done]. assert (wft (TShort k c)) as Hw by (by destruct Ht as [?|(v & ? & _)]).
    destruct (hashed (TShort k c)) eqn:Eh; [pose proof (zlen_tref_hashed _ Eh); lia|]. rewrite tref_hashed, Eh.
    change (tenc (TShort k c)) with (rlp_list (rlp_string (compact k) ++ tref c)).
    pose proof (zlen_rlp_list_ge (rlp_string (compact k) ++ tref c)) as H1. rewrite zlen_app in H1.
    pose proof (proj1 (zlen_rlp_string_ge (compact k))).
    assert (8 <= zlen (tref c)); [|lia]. apply IH; [|done]. cbn [wft] in Hw. destruct c; try done; [left; by destruct Hw as (_ & _ & ?)|].
    right. destruct Hw as [_ ?]. by eexists.
  - split; [|done]. rewrite tref_hashed. cbn [hashed tenc tlong] in *. pose proof (proj2 (zlen_rlp_string_ge v)). lia.
Qed.

Lemma full_hashed cs : wft (TFull cs) -> tlong (TFull cs) -> hashed (TFull cs) = true.
Proof. intros Hw Hl. exact (proj2 (tref_long (TFull cs) (or_introl Hw) Hl) cs eq_refl). Qed.

(** ** What a node stands for *)

(** The value of a hashed node. *)
Definition stval (t : tree) : bytes := if hashed t then thash t else tenc t.

Lemma stval_short t : wft t -> (zlen (stval t) <? 32) = negb (hashed t).
Proof.
  intros Hw. unfold stval. destruct (hashed t) eqn:E.
  - destruct (thash_bytes t) as [_ ->]. done.
  - apply Z.ltb_lt. by apply unhashed_size.
Qed.

(** The database, if there is one, has the nodes of [t] that have a hash. *)
Definition written (db : stdb) (t : tree) : Prop :=
  match db with
  | None => True
  | Some l => forall s, subtree s t -> hashed s = true -> (thash s, tenc s) ∈ l
  end.

(** What is written is written under its hash. *)
Definition put_ok (kv : bytes * bytes) : Prop := fst kv = Keccak256 (snd kv).

(** Nothing is removed from the database. *)
Definition grows (db db' : stdb) : Prop :=
  match db, db' with
  | None, None => True
  | Some l, Some l' => l ⊆ l' /\ (Forall put_ok l -> Forall put_ok l')
  | _, _ => False
  end.

Lemma grows_refl db : grows db db.
Proof. destruct db; cbn; [|done]. split; [|done]. intros x Hx. exact Hx. Qed.

Lemma grows_trans db1 db2 db3 : grows db1 db2 -> grows db2 db3 -> grows db1 db3.
Proof. destruct db1, db2, db3; cbn; try done. intros [H1 ?] [H2 ?]. split; [|by auto]. intros x Hx. auto. Qed.

Lemma written_mono db db' t : grows db db' -> written db t -> written db' t.
Proof. destruct db, db'; cbn; try done. intros [Hg _] Hw s Hs Hh. auto. Qed.

Lemma written_leaf db t : t = TNil \/ is_val t -> written db t.
Proof. destruct db as [l|]; [|done]. intros Ht s Hs. destruct Ht as [->|(v & -> & _)]; by inversion Hs; subst. Qed.

(** A closed node. *)
Inductive HRep (db : stdb) : StackTrie -> tree -> Prop :=
| hrep_nil : HRep db nilST TNil
| hrep_hashed k ko cs t : wft t -> written db t -> HRep db (ST hashedNode (stval t) k ko cs) t.

(** An open node, at offset [ko] of the keys; [last] is the rest of the last
    key. *)
Inductive SRep (db : stdb) : StackTrie -> Z -> bytes -> tree -> Prop :=
| srep_leaf ko key v : SRep db (ST leafNode v key ko noChildren) ko key (TShort (key ++ [16]) (TVal v))
| srep_ext ko v key c last ts :
    SRep db c (ko + zlen key) last (TFull ts) ->
    SRep db (ST extNode v key ko (c :: replicate 15 nilST)) ko (key ++ last) (TShort key (TFull ts))
| srep_branch ko v k cs ts (i : nat) last c t :
    length cs = 16%nat -> length ts = 17%nat -> ts !! 16%nat = Some TNil ->
    cs !! i = Some c -> ts !! i = Some t -> SRep db c (ko + 1) last t ->
    (forall j d u, j <> i -> cs !! j = Some d -> ts !! j = Some u -> HRep db d u /\ ((i < j)%nat -> d = nilST)) ->
    SRep db (ST branchNode v k ko cs) ko (Z.of_nat i :: last) (TFull ts).

Lemma HRep_mono db db' st t : grows db db' -> HRep db st t -> HRep db' st t.
Proof. intros Hg [|k ko cs u Hw Hd]; constructor; [done|by eapply written_mono]. Qed.

Lemma SRep_mono db db' st ko last t : grows db db' -> SRep db st ko last t -> SRep db' st ko last t.
Proof.
  intros Hg H. induction H as [|ko v key c last ts _ IH|ko v k cs ts i last c t Hl Hl' H16 Ec Et _ IH Ho]; [constructor|by constructor|].
  eapply srep_branch; try done. intros j d u Hj Ed Eu. destruct (Ho j d u Hj Ed Eu) as [HR Hn]. split; [by eapply HRep_mono|done].
Qed.

Lemma SRep_open db st ko last t : SRep db st ko last t ->
  st <> nilST /\ (forall v k o cs, st <> ST hashedNode v k o cs) /\ t <> TNil.
Proof. by intros []. Qed.

(** ** Hashing *)

Definition written_below (db : stdb) (t : tree) : Prop :=
  match t with
  | TShort _ c => written db c
  | TFull cs => Forall (written db) cs
  | _ => True
  end.

Lemma written_node db t : written_below db t ->
  (match db with Some l => hashed t = true -> (thash t, tenc t) ∈ l | None => True end) -> written db t.
Proof.
  destruct db as [l|]; [|done]. intros Hb Ht s Hs Hh. inversion Hs as [|k c Hs' E|cs i c Ei Hs' E]; subst; [by apply Ht|..].
  - exact (Hb s Hs' Hh).
  - cbn [written_below] in Hb. rewrite Forall_lookup in Hb. exact (Hb i c Ei s Hs' Hh).
Qed.

Lemma hash_finish_ok n t ko cs db :
  encodable n -> rlp n = tenc t -> wft t -> tsized t -> written_below db t ->
  exists db', hash_finish n ko cs db = Ok (ST hashedNode (stval t) [] ko cs, db') /\ grows db db' /\ written db' t.
Proof.
  intros He Er Hw Hs Hd. unfold hash_finish. rewrite Encode_rlp; [|done|rewrite Er; by apply zlen_tenc]. rewrite Er.
  unfold bind, lift_opt, ret, Put, modify, stval. assert (hashed t = negb (zlen (tenc t) <? 32)) as Eh by (by destruct t).
  destruct (zlen (tenc t) <? 32) eqn:E; cbn [negb] in Eh; rewrite Eh.
  - exists db. split_and!; [done|apply grows_refl|]. apply written_node; [done|]. destruct db; [congruence|done].
  - assert (grows db (match db with Some l => Some (l ++ [(Keccak256 (tenc t), tenc t)]) | None => None end)) as Hg.
    { destruct db; cbn; [|done]. split; [intros x Hx; apply elem_of_app; by left|].
      intros Hl. apply Forall_app. split; [done|]. by apply Forall_singleton. }
    eexists. split_and!; [done|exact Hg|]. apply written_node.
    + destruct t as [|ts|k c|v]; try done; [|by eapply written_mono]. cbn [written_below] in *.
      eapply Forall_impl; [exact Hd|]. intros c. by apply written_mono.
    + destruct db as [l|]; [|done]. intros _. apply elem_of_app. right. apply list_elem_of_here.
Qed.

Lemma compact_in_place k : path k -> k <> [] ->
  exists n k', hexToCompactInPlace k = Some (n, k') /\ zslice k' 0 n = Some (compact k).
Proof.
  intros (ns & t & -> & Hn) Hne. destruct (path_parts ns Hn) as (o & bs & Ho & Hbs & ->). rewrite <- app_assoc in *.
  destruct (hexToCompactInPlace_parts o bs t Ho Hbs Hne) as (hex' & E & Ht). exists (1 + zlen bs), hex'. split; [done|].
  unfold compact. rewrite hexToCompact_parts by done. cbn [default].
  assert (1 + length bs <= length hex')%nat as Hl.
  { apply (f_equal length) in Ht. rewrite length_take in Ht. cbn [length] in Ht. lia. }
  rewrite zslice_Some by (unfold zlen; lia). rewrite drop_0. unfold zlen.
  replace (Z.to_nat (1 + Z.of_nat (length bs) - 0)) with (1 + length bs)%nat by lia. by rewrite Ht.
Qed.

Lemma compact_bytes k : path k -> hexToCompact k = Some (compact k) /\ Forall is_byte (compact k).
Proof. intros Hk. unfold compact. destruct (hexToCompact_path k Hk) as (c & -> & _ & Hb & _). done. Qed.

Lemma hash_leaf_ok key v ko cs db :
  wft (TShort (key ++ [16]) (TVal v)) -> tsized (TShort (key ++ [16]) (TVal v)) ->
  exists st' db', st_hash (ST leafNode v key ko cs) db = Ok (st', db') /\ grows db db' /\ HRep db' st' (TShort (key ++ [16]) (TVal v)).
Proof.
  intros Hw Hs. pose proof (wft_path _ _ Hw) as Hp. destruct (compact_bytes _ Hp) as [_ Hb].
  destruct (compact_in_place _ Hp) as (n & k' & E1 & E2); [by apply (wft_short_nonempty _ _ Hw)|].
  destruct (hash_finish_ok (VList [VBytes (compact (key ++ [16])); VBytes v]) (TShort (key ++ [16]) (TVal v)) ko cs db)
    as (db' & E & Hg & Hd); [|cbn [rlp map concat]; by rewrite app_nil_r|done|done|apply written_leaf; right; destruct Hw as [_ ?]; by eexists|].
  { cbn [encodable map foldr]. split_and!; [done|apply Hs|done]. }
  eexists _, db'. split_and!; [|done|by constructor]. cbn [st_hash]. unfold bind at 1, lift_opt at 1, ret at 1. rewrite E1.
  unfold bind at 1, lift_opt at 1, ret at 1. rewrite E2. exact E.
Qed.

Lemma hash_ext_ok key c c' v ko rest ts db db1 :
  wft (TShort key (TFull ts)) -> tsized (TShort key (TFull ts)) -> tlong (TFull ts) ->
  st_hash c db = Ok (c', db1) -> grows db db1 -> HRep db1 c' (TFull ts) ->
  exists st' db', st_hash (ST extNode v key ko (c :: rest)) db = Ok (st', db') /\ grows db db' /\ HRep db' st' (TShort key (TFull ts)).
Proof.
  intros Hw Hs Hl Ec Hg1 HR. destruct (compact_bytes _ (wft_path _ _ Hw)) as [Ek Hb].
  inversion HR as [|k' ko' cs' t' Hwf Hd]; subst. pose proof (full_hashed ts Hwf Hl) as Hh.
  assert (stval (TFull ts) = thash (TFull ts)) as Ev by (unfold stval; by rewrite Hh).
  destruct (hash_finish_ok (VList [VBytes (compact key); VBytes (stval (TFull ts))]) (TShort key (TFull ts)) ko (nilST :: rest) db1)
    as (db' & E & Hg & Hd'); [| |done|done|done|].
  { cbn [encodable map foldr]. rewrite Ev. split_and!; [done|apply thash_bytes|done]. }
  { cbn [rlp map concat]. rewrite app_nil_r, Ev. change (tenc (TShort key (TFull ts))) with (rlp_list (rlp_string (compact key) ++ tref (TFull ts))).
    by rewrite tref_hashed, Hh. }
  eexists _, db'. split_and!; [|by eapply grows_trans|by constructor]. cbn [st_hash]. unfold bind at 1. rewrite Ec.
  unfold bind at 1, lift_opt at 1, ret at 1. rewrite Ek. exact E.
Qed.

(** The loop over the children of a branch. *)
Fixpoint hash_each (cs : list StackTrie) : M stdb (list rval) :=
  match cs with
  | [] => ret []
  | child :: cs =>
      n <~ (match child with
            | nilST => ret (VBytes [])
            | _ =>
                child <~ st_hash child ;;
                ret (if zlen (st_val child) <? 32 then VRaw (st_val child) else VBytes (st_val child))
            end) ;;
      rest <~ hash_each cs ;;
      ret (n :: rest)
  end.

Lemma st_hash_branch v k ko cs :
  st_hash (ST branchNode v k ko cs) = (nodes <~ hash_each cs ;; hash_finish (VList (nodes ++ [VBytes []])) ko noChildren).
Proof. reflexivity. Qed.

Definition stnode (t : tree) : rval :=
  match t with TNil => VBytes [] | _ => if hashed t then VBytes (thash t) else VRaw (tenc t) end.

Lemma stnode_ok t : tree_shape t -> tsized t -> encodable (stnode t) /\ rlp (stnode t) = tref t.
Proof.
  intros [->|Hw] Hs; [split; [apply Forall_nil_2|done]|]. rewrite tref_hashed.
  assert (stnode t = if hashed t then VBytes (thash t) else VRaw (tenc t)) as -> by (by destruct t).
  destruct (hashed t); (split; [|done]); [apply thash_bytes|by apply tenc_data].
Qed.

(** A child that hashes to a closed node, whenever it is hashed. *)
Definition hashes (db : stdb) (c : StackTrie) (t : tree) : Prop :=
  (c = nilST /\ t = TNil) \/
  (c <> nilST /\ wft t /\ forall db0, grows db db0 ->
     exists c' db', st_hash c db0 = Ok (c', db') /\ grows db0 db' /\ HRep db' c' t).

Lemma HRep_hashes db c t : HRep db c t -> hashes db c t.
Proof.
  intros [|k ko cs u Hw Hd]; [by left|right]. split_and!; [done|done|]. intros db0 Hg. eexists _, db0.
  split_and!; [done|apply grows_refl|]. constructor; [done|by eapply written_mono].
Qed.

Lemma hash_each_ok db cs ts : Forall2 (hashes db) cs ts -> forall db0, grows db db0 ->
  exists db', hash_each cs db0 = Ok (map stnode ts, db') /\ grows db0 db' /\ Forall (written db') ts.
Proof.
  induction 1 as [|c t cs ts Hc _ IH]; intros db0 Hg.
  { exists db0. split_and!; [done|apply grows_refl|apply Forall_nil_2]. }
  cbn [hash_each]. destruct Hc as [[-> ->]|(Hne & Hw & Hh)].
  - destruct (IH db0 Hg) as (db' & E & Hg' & Hd). exists db'. unfold bind, ret. rewrite E. split_and!; [done|done|].
    apply Forall_cons_2; [|done]. apply written_leaf. by left.
  - destruct (Hh db0 Hg) as (c' & db1 & E1 & Hg1 & HR). inversion HR as [|k' ko' cs' t' _ Hd1]; subst; [done|].
    destruct (IH db1 (grows_trans _ _ _ Hg Hg1)) as (db' & E & Hg' & Hd). exists db'.
    unfold bind, ret. assert (stnode t = if hashed t then VBytes (thash t) else VRaw (tenc t)) as En by (by destruct t).
    split_and!; [|by eapply grows_trans|apply Forall_cons_2; [by eapply written_mono|done]].
    destruct c; [done|]. rewrite E1. cbn [st_val]. rewrite stval_short by done. rewrite E. cbn [map]. rewrite En. unfold stval.
    by destruct (hashed t).
Qed.

Lemma hash_branch_ok db v k ko cs ts db0 :
  wft (TFull ts) -> tsized (TFull ts) -> ts !! 16%nat = Some TNil -> Forall2 (hashes db) cs (take 16 ts) -> grows db db0 ->
  exists st' db', st_hash (ST branchNode v k ko cs) db0 = Ok (st', db') /\ grows db0 db' /\ HRep db' st' (TFull ts).
Proof.
  intros Hw Hs H16 Hcs Hg. destruct (hash_each_ok db cs (take 16 ts) Hcs db0 Hg) as (db1 & E1 & Hg1 & Hd).
  pose proof Hw as (Hlen & _). assert (ts = take 16 ts ++ [TNil]) as Ets.
  { rewrite <- (take_drop 16 ts) at 1. f_equal. rewrite (drop_S _ _ _ H16), drop_ge by lia. done. }
  assert (map stnode (take 16 ts) ++ [VBytes []] = map stnode ts) as En by (rewrite Ets at 2; by rewrite map_app).
  destruct (hash_finish_ok (VList (map stnode ts)) (TFull ts) ko noChildren db1) as (db' & E & Hg' & Hd'); [..|].
  - cbn [encodable]. apply foldr_and_Forall, Forall_lookup. intros i x Ex. rewrite list_lookup_fmap in Ex.
    apply fmap_Some in Ex as (t & Et & ->). apply stnode_ok; [|by eapply tsized_full].
    destruct (full_child _ _ _ Hw Et) as [_ [->|[[-> _]|[_ ?]]]]; [by left| |by right]. rewrite H16 in Et. injection Et as <-. by left.
  - cbn [rlp]. change (tenc (TFull ts)) with (rlp_list (concat (map tref ts))). do 2 f_equal. rewrite map_map.
    apply list_eq. intros i. rewrite !list_lookup_fmap. destruct (ts !! i) as [t|] eqn:Et; [|done]. cbn. f_equal.
    apply stnode_ok; [|by eapply tsized_full].
    destruct (full_child _ _ _ Hw Et) as [_ [->|[[-> _]|[_ ?]]]]; [by left| |by right]. rewrite H16 in Et. injection Et as <-. by left.
  - done.
  - done.
  - cbn [written_below]. rewrite Ets. apply Forall_app. split; [done|]. apply Forall_singleton, written_leaf. by left.
  - rewrite st_hash_branch. unfold bind at 1. rewrite E1, En, E. eexists _, db'.
    split_and!; [done|by eapply grows_trans|by constructor].
Qed.

Lemma wft_short_child k ts : wft (TShort k (TFull ts)) -> wft (TFull ts).
Proof. by intros (_ & _ & ?). Qed.

(** Hashing closes a node. *)
Lemma st_hash_ok db st ko last t :
  SRep db st ko last t -> wft t -> tsized t -> tlong t -> forall db0, grows db db0 ->
  exists st' db', st_hash st db0 = Ok (st', db') /\ grows db0 db' /\ HRep db' st' t.
Proof.
  induction 1 as [ko key v|ko v key c last ts _ IH|ko v k cs ts i last c t Hl Hl' H16 Ec Et HS IH Ho]; intros Hw Hs Hlo db0 Hg.
  - by apply hash_leaf_ok.
  - destruct (IH (wft_short_child _ _ Hw) (proj2 Hs) Hlo db0 Hg) as (c' & db1 & E & Hg1 & HR). by eapply hash_ext_ok.
  - apply (hash_branch_ok db); try done. apply Forall2_same_length_lookup. split; [rewrite length_take; lia|].
    intros j d u Ed Eu. apply lookup_take_Some in Eu as [Eu Hj]. destruct (decide (j = i)) as [->|Hne].
    + rewrite Ec in Ed. injection Ed as <-. rewrite Et in Eu. injection Eu as <-. right.
      destruct (SRep_open _ _ _ _ _ HS) as (Hn & _ & Htn). split; [done|].
      assert (wft t) as Hwt by (destruct (full_child _ _ _ Hw Et) as [_ [?|[[? _]|[_ ?]]]]; [done|lia|done]).
      split; [done|]. apply IH; [done|by eapply tsized_full|by eapply tlong_full].
    + apply HRep_hashes. by apply (Ho j d u Hne).
Qed.

(** ** Insertion *)

(** The tree after a key left the key of a short node. *)
Lemma diverge_tree p x kr y nr u v :
  wft (TShort (p ++ x :: nr) u) -> hexkey (p ++ y :: kr) -> Forall is_nibble p -> v <> [] -> x <> y ->
  let ts := <[Z.to_nat y := cut_short kr (TVal v)]> (<[Z.to_nat x := cut_short nr u]> (replicate 17 TNil)) in
  wft (TFull ts) /\ wft (cut_short p (TFull ts)) /\
  updated (TShort (p ++ x :: nr) u) (p ++ y :: kr) (Some v) (cut_short p (TFull ts)).
Proof.
  intros Hw Hk Hp Hv Hxy ts. pose proof (hexkey_elem _ _ _ _ Hk eq_refl) as Hy.
  assert (hexkey (y :: kr)) as Hyk by (by apply hexkey_app in Hk).
  pose proof (cut_short_child _ _ _ _ Hw Hp) as Hcx. destruct (child_at_range _ _ Hcx) as [Hx _].
  assert (wft (TFull ts)) as Hwf by (apply (wft_branch x y); [done|done|by apply leaf_child]).
  split_and!; [done|..].
  - destruct p as [|z p]; [done|]. change (z :: p <> [] /\ Forall is_nibble (z :: p) /\ wft (TFull ts)). by split_and!.
  - intros k' Hk'%hexkey_samekind; [|done]. rewrite tget_cut_short. apply branch_content; [by intros ->|done|done|done].
Qed.

(** A branch with a closed and an open child. *)
Lemma branch_rep db n u o w ko v k x y b :
  HRep db n u -> SRep db o (ko + 1) b w -> is_nibble x -> is_nibble y -> x < y ->
  SRep db (ST branchNode v k ko (<[Z.to_nat y := o]> (<[Z.to_nat x := n]> noChildren))) ko (y :: b)
    (TFull (<[Z.to_nat y := w]> (<[Z.to_nat x := u]> (replicate 17 TNil)))).
Proof.
  intros HR HS Hx Hy Hxy. unfold is_nibble in *. assert (y = Z.of_nat (Z.to_nat y)) as Ey by lia. rewrite Ey at 2.
  eapply srep_branch; [..|exact HS|].
  - by rewrite !length_insert.
  - by rewrite !length_insert.
  - rewrite !list_lookup_insert_ne by lia. done.
  - apply list_lookup_insert_eq. rewrite length_insert. cbn. lia.
  - apply list_lookup_insert_eq. rewrite length_insert. cbn. lia.
  - intros j d e Hj Ed Ee. rewrite list_lookup_insert_ne in Ed by done. rewrite list_lookup_insert_ne in Ee by done.
    destruct (decide (j = Z.to_nat x)) as [->|Hjx].
    + rewrite list_lookup_insert_eq in Ed by (cbn; lia). rewrite list_lookup_insert_eq in Ee by (cbn; lia).
      injection Ed as <-. injection Ee as <-. split; [done|lia].
    + rewrite list_lookup_insert_ne in Ed by done. rewrite list_lookup_insert_ne in Ee by done. apply lookup_replicate in Ed as [-> _]. apply lookup_replicate in Ee as [-> _].
      split; [constructor|done].
Qed.

Lemma set_st_ok cs i c db : 0 <= i < zlen cs -> set_st cs i c db = Ok (<[Z.to_nat i := c]> cs, db).
Proof. intros H. unfold set_st. by rewrite zput_Some. Qed.

Lemma newLeaf_ok pre rest v db : newLeaf (zlen pre) (pre ++ rest) v db = Ok (ST leafNode v rest (zlen pre) noChildren, db).
Proof.
  unfold newLeaf. pose proof (zlen_nonneg pre). pose proof (zlen_nonneg rest). rewrite zlen_app, zslice_Some by (rewrite ?zlen_app; lia).
  unfold bind, lift_opt, ret. repeat f_equal. unfold zlen. rewrite Nat2Z.id, drop_app_length, take_ge by lia. done.
Qed.

Lemma newExt_ok pre rest c db : newExt (zlen pre) (pre ++ rest) c db = Ok (ST extNode [] rest (zlen pre) (c :: replicate 15 nilST), db).
Proof.
  unfold newExt. pose proof (zlen_nonneg pre). pose proof (zlen_nonneg rest). rewrite zlen_app, zslice_Some by (rewrite ?zlen_app; lia).
  unfold bind, lift_opt, ret. repeat f_equal. unfold zlen. rewrite Nat2Z.id, drop_app_length, take_ge by lia. done.
Qed.

Lemma zget_at {A} (pre : list A) x r : zget (pre ++ x :: r) (zlen pre) = Some x.
Proof. unfold zlen. rewrite zget_nat, lookup_app_r, Nat.sub_diag by lia. done. Qed.

Lemma drop_at (pre r : bytes) : drop (Z.to_nat (zlen pre)) (pre ++ r) = r.
Proof. unfold zlen. by rewrite Nat2Z.id, drop_app_length. Qed.

(** What inserting a key at offset [ko] gives. *)
Record inserted (db : stdb) (st : StackTrie) (ko : Z) (rest v : bytes) (t : tree) (db' : stdb) (t' : tree) : Prop := {
  ins_rep : SRep db' st ko rest t';
  ins_grows : grows db db';
  ins_wft : wft t';
  ins_updated : updated t (rest ++ [16]) (Some v) t';
  ins_full : forall ts, t = TFull ts -> exists ts', t' = TFull ts';
}.

Lemma bind_some {S A B} p (a : A) (f : A -> M S B) s : bind (lift_opt p (Some a)) f s = f a s.
Proof. reflexivity. Qed.

Lemma run_bind {S A B} (m : M S A) (f : A -> M S B) s a s' : m s = Ok (a, s') -> bind m f s = f a s'.
Proof. unfold bind. by intros ->. Qed.

Lemma leaf_at db (pre : bytes) y b v : SRep db (ST leafNode v b (zlen (pre ++ [y])) noChildren) (zlen pre + 1) b (TShort (b ++ [16]) (TVal v)).
Proof. rewrite zlen_app. change (zlen [y]) with 1. constructor. Qed.

Lemma cut_leaf b v : cut_short (b ++ [16]) (TVal v) = TShort (b ++ [16]) (TVal v).
Proof. by destruct b. Qed.

(** The leaf or extension that splits: [n] is what is left of it below the new
    branch. *)
Lemma split_inserted db db1 (pre : bytes) p x nr u y b v n v1 v2 k2 :
  wft (TShort (p ++ x :: nr) u) -> Forall is_nibble (p ++ y :: b) -> is_nibble x -> x < y -> v <> [] ->
  grows db db1 -> HRep db1 n (cut_short nr u) ->
  let o := ST leafNode v b (zlen ((pre ++ p) ++ [y])) noChildren in
  let cs := <[Z.to_nat y := o]> (<[Z.to_nat x := n]> noChildren) in
  let st' := match p with
             | [] => ST branchNode v1 [] (zlen pre) cs
             | _ => ST extNode v1 p (zlen pre) (ST branchNode v2 k2 (zlen (pre ++ p)) cs :: replicate 15 nilST)
             end in
  exists t', inserted db st' (zlen pre) (p ++ y :: b) v (TShort (p ++ x :: nr) u) db1 t'.
Proof.
  intros Hw Hn Hx Hxy Hv Hg HR o cs st'. pose proof Hn as Hn'. apply Forall_app in Hn' as [Hp Hyb]. apply Forall_cons in Hyb as [Hy Hb].
  destruct (diverge_tree p x (b ++ [16]) y nr u v Hw) as (Hwf & Hwt & Hup); [|done|done|lia|].
  { rewrite app_comm_cons, app_assoc. by exists (p ++ y :: b). }
  rewrite cut_leaf in *. set (ts := <[Z.to_nat y := TShort (b ++ [16]) (TVal v)]> _) in *.
  exists (cut_short p (TFull ts)). constructor; [|done|done|rewrite <- app_assoc; exact Hup|done].
  assert (SRep db1 (ST branchNode v2 k2 (zlen (pre ++ p)) cs) (zlen (pre ++ p)) (y :: b) (TFull ts)) as HB
    by (apply branch_rep; [done|apply leaf_at|done|done|done]).
  unfold st'. destruct p as [|z p].
  - apply branch_rep; [done|unfold o; rewrite app_nil_r; apply leaf_at|done|done|done].
  - apply srep_ext. by rewrite <- zlen_app.
Qed.

Lemma off_next (pre : bytes) y : zlen pre + 1 = zlen (pre ++ [y]).
Proof. by rewrite zlen_app. Qed.

Lemma diff_lookup p x (a : bytes) : (p ++ x :: a) !! length p = Some x.
Proof. by apply list_lookup_middle. Qed.

Lemma diff_bound p x (a : bytes) : (length (p ++ x :: a) <=? length p)%nat = false.
Proof. apply Nat.leb_gt. rewrite length_app. cbn [length]. lia. Qed.

Lemma take_diff p x (a : bytes) : take (length p) (p ++ x :: a) = p.
Proof. apply take_app_length. Qed.

Lemma new_offset (pre p : bytes) : (if (length p =? 0)%nat then zlen pre else zlen pre + Z.of_nat (length p)) = zlen (pre ++ p).
Proof. rewrite zlen_app. unfold zlen. destruct p; cbn [length Nat.eqb]; lia. Qed.

Lemma get_new (pre p : bytes) y b : zget (pre ++ p ++ y :: b) (Z.of_nat (length p) + zlen pre) = Some y.
Proof.
  rewrite app_assoc. replace (Z.of_nat (length p) + zlen pre) with (zlen (pre ++ p)) by (rewrite zlen_app; unfold zlen; lia).
  apply zget_at.
Qed.

Lemma newLeaf_new (pre p : bytes) y b v db :
  newLeaf (zlen (pre ++ p) + 1) (pre ++ p ++ y :: b) v db = Ok (ST leafNode v b (zlen ((pre ++ p) ++ [y])) noChildren, db).
Proof.
  rewrite (off_next _ y), app_assoc. replace ((pre ++ p) ++ y :: b) with (((pre ++ p) ++ [y]) ++ b) by (by rewrite <- app_assoc).
  apply newLeaf_ok.
Qed.

Lemma newLeaf_old (p : bytes) x a v db :
  newLeaf (Z.of_nat (length p) + 1) (p ++ x :: a) v db = Ok (ST leafNode v a (zlen (p ++ [x])) noChildren, db).
Proof.
  change (Z.of_nat (length p)) with (zlen p). rewrite (off_next _ x). replace (p ++ x :: a) with ((p ++ [x]) ++ a) by (by rewrite <- app_assoc).
  apply newLeaf_ok.
Qed.

(** Putting the two children into the new branch, in place or below an
    extension. *)
Lemma set_two n o x y db {B} (f : list StackTrie -> M stdb B) cs0 :
  is_nibble x -> is_nibble y -> length cs0 = 16%nat ->
  (cs <~ set_st cs0 x n ;; cs <~ set_st cs y o ;; f cs) db = f (<[Z.to_nat y := o]> (<[Z.to_nat x := n]> cs0)) db.
Proof.
  unfold is_nibble. intros Hx Hy Hl. assert (0 <= x < zlen cs0) as Hx' by (unfold zlen; lia).
  rewrite (run_bind _ _ _ _ _ (set_st_ok cs0 x n db Hx')). apply run_bind, set_st_ok. unfold zlen. rewrite length_insert. lia.
Qed.

Lemma insert_leaf_ok db fuel v0 (pre key rest v : bytes) :
  let t := TShort (key ++ [16]) (TVal v0) in
  wft t -> tsized t -> key_lt key rest -> Forall is_nibble rest -> v <> [] ->
  exists st' db' t', st_insert (S fuel) (ST leafNode v0 key (zlen pre) noChildren) (pre ++ rest) v db = Ok (st', db') /\
    inserted db st' (zlen pre) rest v t db' t'.
Proof.
  intros t Hw Hs (p & x & a & y & b & -> & -> & Hxy) Hn Hv. unfold t in *. rewrite <- app_assoc in *. cbn [app] in *.
  pose proof Hn as Hn'. apply Forall_app in Hn' as [Hp Hyb]. apply Forall_cons in Hyb as [Hy Hb].
  assert (is_nibble x) as Hx.
  { destruct Hw as [(ns & E & Hns) _]. rewrite app_comm_cons, app_assoc in E. apply app_inj_tail in E as [<- _].
    apply Forall_app in Hns as [_ Hns]. by apply Forall_cons in Hns as [? _]. }
  destruct (cut_short_child _ _ _ _ Hw Hp) as [[_ Hwc]|[? _]]; [|unfold is_nibble in Hx; lia]. rewrite cut_leaf in Hwc.
  destruct (hash_leaf_ok a v0 (zlen (p ++ [x])) noChildren db Hwc) as (n & db1 & En & Hg & HR).
  { destruct Hs as [Hs1 Hs2]. split; [|done]. rewrite zlen_app, zlen_cons in Hs1. pose proof (zlen_nonneg p). lia. }
  destruct (split_inserted db db1 pre p x (a ++ [16]) (TVal v0) y b v n [] [] []) as (t' & Hi); try done.
  { by rewrite cut_leaf. }
  cbn [st_insert]. rewrite drop_at, getDiffIndex_diff, bind_some, diff_bound, diff_lookup, bind_some by lia.
  rewrite (run_bind _ _ _ _ _ (newLeaf_old p x a v0 db)), (run_bind _ _ _ _ _ En), get_new, bind_some, new_offset.
  cbv zeta. rewrite (run_bind _ _ _ _ _ (newLeaf_new pre p y b v db1)), take_diff.
  destruct p as [|z p]; cbn [length Nat.eqb]; rewrite set_two by done; unfold ret; eexists _, db1, t'; (split; [done|exact Hi]).
Qed.

Lemma insert_ext_split db fuel v0 (pre : bytes) p x a y b v c last ts :
  let t := TShort (p ++ x :: a) (TFull ts) in
  SRep db c (zlen pre + zlen (p ++ x :: a)) last (TFull ts) ->
  wft t -> tsized t -> tlong t -> Forall is_nibble (p ++ y :: b) -> v <> [] -> x < y ->
  exists st' db' t', st_insert (S fuel) (ST extNode v0 (p ++ x :: a) (zlen pre) (c :: replicate 15 nilST)) (pre ++ p ++ y :: b) v db = Ok (st', db') /\
    inserted db st' (zlen pre) (p ++ y :: b) v t db' t'.
Proof.
  intros t HS Hw Hs Hl Hn Hv Hxy. pose proof Hn as Hn'. apply Forall_app in Hn' as [Hp Hyb]. apply Forall_cons in Hyb as [Hy Hb].
  pose proof Hw as (_ & Hna & Hwf). apply Forall_app in Hna as [_ Hxa]. apply Forall_cons in Hxa as [Hx Ha].
  destruct (st_hash_ok db c _ last (TFull ts) HS Hwf (proj2 Hs) Hl db (grows_refl db)) as (c' & db0 & Ec & Hg0 & HRc).
  assert (exists n db1, (m <~ (if (length p <? length (p ++ x :: a) - 1)%nat then newExt (Z.of_nat (length p) + 1) (p ++ x :: a) c else ret c) ;; st_hash m) db
             = Ok (n, db1) /\ grows db db1 /\ HRep db1 n (cut_short a (TFull ts))) as (n & db1 & En & Hg & HR).
  { rewrite length_app. cbn [length]. destruct a as [|z a].
    - rewrite (proj2 (Nat.ltb_ge _ _)) by (cbn [length]; lia). exists c', db0. split_and!; done.
    - rewrite (proj2 (Nat.ltb_lt _ _)) by (cbn [length]; lia). change (Z.of_nat (length p)) with (zlen p). rewrite (off_next _ x).
      replace (p ++ x :: z :: a) with ((p ++ [x]) ++ z :: a) by (by rewrite <- app_assoc).
      rewrite (run_bind _ _ _ _ _ (newExt_ok (p ++ [x]) (z :: a) c db)). eapply hash_ext_ok; [..|exact Ec|done|done].
      + change (z :: a <> [] /\ Forall is_nibble (z :: a) /\ wft (TFull ts)). done.
      + destruct Hs as [Hs1 Hs2]. split; [|done]. rewrite zlen_app, zlen_cons in Hs1. pose proof (zlen_nonneg p). lia.
      + done. }
  destruct (split_inserted db db1 pre p x a (TFull ts) y b v n v0 [] []) as (t' & Hi); try done.
  cbn [st_insert]. rewrite drop_at, getDiffIndex_diff, bind_some by lia. cbn [lookup list_lookup]. rewrite bind_some.
  rewrite (proj2 (Nat.eqb_neq _ _)) by (rewrite length_app; cbn [length]; lia).
  unfold bind in En. match type of En with match ?e with _ => _ end = _ => destruct e as [[m db2]|?|] eqn:Em end; [|done..].
  rewrite (run_bind _ _ _ _ _ Em), (run_bind _ _ _ _ _ En).
  replace (zlen pre + Z.of_nat (length p) + 1) with (zlen (pre ++ p) + 1) by (rewrite zlen_app; unfold zlen; lia).
  rewrite (run_bind _ _ _ _ _ (newLeaf_new pre p y b v db1)), diff_lookup, bind_some, get_new, bind_some, take_diff.
  replace (zlen pre + Z.of_nat (length p)) with (zlen (pre ++ p)) by (rewrite zlen_app; unfold zlen; lia).
  destruct p as [|z p]; cbn [length Nat.eqb]; rewrite set_two by done; unfold ret; eexists _, db1, t'; (split; [done|exact Hi]).
Qed.

Definition closed (c : StackTrie) : Prop := c = nilST \/ exists v k ko cs, c = ST hashedNode v k ko cs.

Lemma HRep_closed db c t : HRep db c t -> closed c.
Proof. intros [|]; [by left|right; eauto]. Qed.

(** Nothing to hash before [j]. *)
Lemma hash_prev_closed j cs db :
  (j <= length cs)%nat -> (forall k c, (k < j)%nat -> cs !! k = Some c -> closed c) -> hash_prev j cs db = Ok (cs, db).
Proof.
  induction j as [|j IH]; intros Hj Hc; [done|]. cbn [hash_prev]. destruct (lookup_lt_is_Some_2 cs j) as [c Ec]; [lia|]. rewrite Ec.
  destruct (Hc j c ltac:(lia) Ec) as [->|(v & k & ko & cs' & ->)]; [|done]. apply IH; [lia|]. intros k d Hk. apply Hc. lia.
Qed.

(** The last child before [j] is open. *)
Lemma hash_prev_open i j cs c c' db db' :
  (i < j <= length cs)%nat -> cs !! i = Some c -> ~ closed c -> st_hash c db = Ok (c', db') ->
  (forall k d, (i < k < j)%nat -> cs !! k = Some d -> d = nilST) -> hash_prev j cs db = Ok (<[i := c']> cs, db').
Proof.
  induction j as [|j IH]; intros Hj Ec Hc Eh Hn; [lia|]. cbn [hash_prev]. destruct (decide (i = j)) as [->|Hne].
  - rewrite Ec. destruct c as [|[] v k ko cs']; [by destruct Hc; left|..];
      try (rewrite (run_bind _ _ _ _ _ Eh); reflexivity). destruct Hc. right. eauto.
  - destruct (lookup_lt_is_Some_2 cs j) as [d Ed]; [lia|]. rewrite Ed. pose proof (Hn j d ltac:(lia) Ed) as ->.
    apply IH; try done; [lia|]. intros k d Hk. apply Hn. lia.
Qed.

Lemma SRep_not_closed db c ko last t : SRep db c ko last t -> ~ closed c.
Proof. intros H%SRep_open [->|(v & k & ko' & cs & ->)]; destruct H as (? & Hh & _); [done|]. by eapply Hh. Qed.

Lemma wft_open_child db c ko last ts i t : wft (TFull ts) -> SRep db c ko last t -> ts !! i = Some t -> (i < 16)%nat -> wft t.
Proof.
  intros Hw HS Et Hi. destruct (SRep_open _ _ _ _ _ HS) as (_ & _ & Hn).
  destruct (full_child _ _ _ Hw Et) as [_ [?|[[? _]|[_ ?]]]]; [done|lia|done].
Qed.

Lemma hexkey_snoc ns : Forall is_nibble ns -> hexkey (ns ++ [16]).
Proof. intros H. by exists ns. Qed.

Lemma updated_leaf b v : updated TNil (b ++ [16]) (Some v) (TShort (b ++ [16]) (TVal v)).
Proof.
  intros k' _. cbn [tget]. destruct (strip (b ++ [16]) k') as [r|] eqn:E.
  - apply strip_app in E as ->. destruct r as [|z r]; [by rewrite app_nil_r, bool_decide_true|].
    rewrite bool_decide_false; [done|]. intros E. rewrite <- (app_nil_r (b ++ [16])) in E at 2. by apply app_inv_head in E.
  - rewrite bool_decide_false; [done|]. intros ->. rewrite <- (app_nil_r (b ++ [16])) in E at 2. by rewrite strip_self in E.
Qed.

(** A new child of a branch, behind the last one. *)
Lemma insert_branch_new db fuel v0 k0 (pre : bytes) cs ts i last c t y b v :
  length cs = 16%nat -> length ts = 17%nat -> ts !! 16%nat = Some TNil ->
  cs !! i = Some c -> ts !! i = Some t -> SRep db c (zlen pre + 1) last t ->
  (forall j d u, j <> i -> cs !! j = Some d -> ts !! j = Some u -> HRep db d u /\ ((i < j)%nat -> d = nilST)) ->
  wft (TFull ts) -> tsized (TFull ts) -> tlong (TFull ts) -> is_nibble y -> Forall is_nibble b -> v <> [] -> Z.of_nat i < y ->
  exists st' db' t', st_insert (S (S fuel)) (ST branchNode v0 k0 (zlen pre) cs) (pre ++ y :: b) v db = Ok (st', db') /\
    inserted db st' (zlen pre) (y :: b) v (TFull ts) db' t'.
Proof.
  intros Hl Hl' H16 Ec Et HS Ho Hw Hs Hlo Hy Hb Hv Hiy. unfold is_nibble in Hy. set (j := Z.to_nat y).
  assert (wft t) as Hwt by (eapply wft_open_child; [done|exact HS|exact Et|lia]).
  destruct (st_hash_ok db c _ last t HS Hwt (tsized_full _ _ _ Hs Et) (tlong_full _ _ _ Hlo Et) db (grows_refl db)) as (c' & db1 & Eh & Hg & HR).
  assert (cs !! j = Some nilST) as Ej.
  { destruct (lookup_lt_is_Some_2 cs j) as [d Ed]; [lia|]. destruct (lookup_lt_is_Some_2 ts j) as [u Eu]; [lia|].
    rewrite Ed. f_equal. apply (Ho j d u ltac:(lia) Ed Eu). lia. }
  assert (ts !! j = Some TNil) as Etj.
  { destruct (lookup_lt_is_Some_2 ts j) as [u Eu]; [lia|]. rewrite Eu. f_equal.
    destruct (Ho j nilST u ltac:(lia) Ej Eu) as [HRj _]. by inversion HRj. }
  set (o := ST leafNode v b (zlen pre + 1) noChildren). set (leaf := TShort (b ++ [16]) (TVal v)).
  exists (ST branchNode v0 k0 (zlen pre) (<[j := o]> (<[i := c']> cs))), db1, (TFull (<[j := leaf]> ts)). split.
  - remember (S fuel) as f1 eqn:Ef. cbn [st_insert]. rewrite zget_at, bind_some. fold j.
    rewrite (run_bind _ _ _ _ _ (hash_prev_open i j cs c c' db db1 ltac:(lia) Ec (SRep_not_closed _ _ _ _ _ HS) Eh
       ltac:(intros k d Hk Ed; destruct (lookup_lt_is_Some_2 ts k) as [u Eu]; [lia|]; apply (Ho k d u ltac:(lia) Ed Eu); lia))).
    replace (zget (<[i := c']> cs) y) with (Some nilST).
    2: { unfold zget. rewrite (proj2 (Z.leb_le 0 y)) by lia. fold j. rewrite list_lookup_insert_ne by lia. by rewrite Ej. }
    rewrite bind_some. cbv zeta. subst f1.
    assert (st_insert (S fuel) (NewStackTrie (zlen pre + 1)) (pre ++ y :: b) v db1 = Ok (o, db1)) as Eo.
    { cbn [st_insert NewStackTrie]. rewrite (off_next pre y). replace (pre ++ y :: b) with ((pre ++ [y]) ++ b) by (by rewrite <- app_assoc).
      pose proof (zlen_nonneg (pre ++ [y])). pose proof (zlen_nonneg b). rewrite zslice_Some by (rewrite ?(zlen_app (pre ++ [y])); lia).
      rewrite bind_some. unfold ret, o. rewrite (off_next pre y), drop_at. do 3 f_equal. apply take_ge. rewrite zlen_app. unfold zlen in *. lia. }
    rewrite (run_bind _ _ _ _ _ Eo). erewrite run_bind; [reflexivity|]. apply set_st_ok. unfold zlen. rewrite length_insert. lia.
  - assert (hexkey (b ++ [16])) as Hbk by (by apply hexkey_snoc).
    assert (Z.of_nat j = y) as Ey by lia. constructor.
    + rewrite <- Ey. apply (srep_branch db1 _ _ _ _ _ j b o leaf).
      * by rewrite !length_insert.
      * by rewrite length_insert.
      * by rewrite list_lookup_insert_ne by lia.
      * apply list_lookup_insert_eq. rewrite length_insert. lia.
      * apply list_lookup_insert_eq. lia.
      * apply srep_leaf.
      * intros k d u Hk Ed Eu. rewrite list_lookup_insert_ne in Ed by done. rewrite list_lookup_insert_ne in Eu by done.
        destruct (decide (k = i)) as [->|Hki].
        -- rewrite list_lookup_insert_eq in Ed by lia. injection Ed as <-. rewrite Et in Eu. injection Eu as <-. split; [done|lia].
        -- rewrite list_lookup_insert_ne in Ed by done. destruct (Ho k d u Hki Ed Eu) as [HRk Hn]. split; [by eapply HRep_mono|]. intros; apply Hn; lia.
    + done.
    + apply wft_set_child; [done|]. left. split; [unfold is_nibble; lia|]. by split.
    + change ((y :: b) ++ [16]) with (y :: (b ++ [16])). apply updated_full with (c := TNil); [done| | |apply updated_leaf].
      * apply hexkey_cons. left. split; [unfold is_nibble; lia|done].
      * unfold zget. rewrite (proj2 (Z.leb_le 0 y)) by lia. done.
    + intros ? _. eauto.
Qed.

Lemma st_insert_ok db st ko last t : SRep db st ko last t -> forall fuel (pre rest v : bytes),
  zlen pre = ko -> wft t -> tsized t -> tlong t -> key_lt last rest -> Forall is_nibble rest -> v <> [] -> (length rest < fuel)%nat ->
  exists st' db' t', st_insert fuel st (pre ++ rest) v db = Ok (st', db') /\ inserted db st' ko rest v t db' t'.
Proof.
  induction 1 as [ko key v0|ko v0 key c last ts HS IH|ko v0 k0 cs ts i last c t Hl Hl' H16 Ec Et HS IH Ho];
    intros fuel pre rest v Eko Hw Hs Hlo Hlt Hn Hv Hf; (destruct fuel as [|fuel]; [lia|]); subst ko.
  - by apply insert_leaf_ok.
  - destruct (key_lt_app _ _ _ Hlt) as [(p & x & a & y & b & -> & -> & Hxy)|(r & -> & Hlt')].
    { by eapply insert_ext_split. }
    pose proof Hw as (Hne & Hk & Hwf). apply Forall_app in Hn as [_ Hn].
    destruct (IH fuel (pre ++ key) r v) as (c' & db' & u & E & [HS' Hg Hwu Hu Hfu]); try done.
    { by rewrite zlen_app. }
    { apply Hs. }
    { rewrite length_app in Hf. destruct key; [done|]. cbn [length] in Hf. lia. }
    destruct (Hfu ts eq_refl) as (ts' & ->). eexists _, db', (TShort key (TFull ts')). split.
    + cbn [st_insert]. rewrite drop_at, getDiffIndex_prefix, bind_some. cbn [lookup list_lookup]. rewrite bind_some, Nat.eqb_refl.
      rewrite app_assoc, (run_bind _ _ _ _ _ E). reflexivity.
    + constructor; [by apply srep_ext|done|by split_and!| |done]. rewrite <- app_assoc. apply updated_short; [done| |done].
      rewrite hexkey_app by done. by apply hexkey_snoc.
  - destruct (key_lt_cons_l _ _ _ Hlt) as (y & b & -> & [Hiy|[<- Hlt']]); apply Forall_cons in Hn as [Hy Hb].
    { cbn [length] in Hf. destruct fuel as [|fuel]; [lia|]. by eapply insert_branch_new. }
    unfold is_nibble in Hy. assert (i < 16)%nat as Hi by lia. pose proof (wft_open_child _ _ _ _ _ _ _ Hw HS Et Hi) as Hwt.
    destruct (IH fuel (pre ++ [Z.of_nat i]) b v) as (c' & db' & u & E & [HS' Hg Hwu Hu _]); try done.
    { by rewrite <- off_next. }
    { by eapply tsized_full. }
    { by eapply tlong_full. }
    { cbn [length] in Hf. lia. }
    eexists _, db', (TFull (<[i := u]> ts)). split.
    + cbn [st_insert]. rewrite zget_at, bind_some, Nat2Z.id.
      rewrite (run_bind _ _ _ _ _ (hash_prev_closed i cs db ltac:(lia)
        ltac:(intros k d Hk Ed; destruct (lookup_lt_is_Some_2 ts k) as [e Ee]; [lia|]; eapply HRep_closed; apply (Ho k d e ltac:(lia) Ed Ee)))).
      rewrite zget_nat, Ec, bind_some. destruct (SRep_open _ _ _ _ _ HS) as (Hc & _). cbv zeta.
      replace (match c with nilST => NewStackTrie (zlen pre + 1) | _ => c end) with c by (by destruct c).
      rewrite <- app_assoc in E. cbn [app] in E. rewrite (run_bind _ _ _ _ _ E).
      erewrite run_bind; [reflexivity|]. apply set_st_ok. unfold zlen. lia.
    + rewrite Nat2Z.id. constructor.
      * apply (srep_branch db' _ _ _ _ _ i b c' u); [by rewrite length_insert|by rewrite length_insert|by rewrite list_lookup_insert_ne by lia|
          apply list_lookup_insert_eq; lia|apply list_lookup_insert_eq; lia|done|].
        intros k d e Hk Ed Ee. rewrite list_lookup_insert_ne in Ed by done. rewrite list_lookup_insert_ne in Ee by done.
        destruct (Ho k d e Hk Ed Ee) as [HRk Hnn]. split; [by eapply HRep_mono|done].
      * done.
      * rewrite <- (Nat2Z.id i). apply wft_set_child; [done|]. left. split; [unfold is_nibble; lia|done].
      * change ((Z.of_nat i :: b) ++ [16]) with (Z.of_nat i :: (b ++ [16])). rewrite <- (Nat2Z.id i) at 2.
        apply updated_full with (c := t); [done| |by rewrite zget_nat|done].
        apply hexkey_cons. left. split; [unfold is_nibble; lia|by apply hexkey_snoc].
      * intros ? _. eauto.
Qed.
End stacktrie.
