(* ===== verification/StackTrieTheorems.v ===== *)
(** * Theorems about the append-only trie

    Its root hash is that of the trie with the same content; what it writes to a
    database is enough to open that trie; and [DeriveSha] computes the same hash
    with either kind of trie. *)

From Stdlib Require Import ZArith Lia Sorted.
From stdpp Require Import gmap.
From S2P Require Import Prelude Common Rlp RlpSpec Crypto Trie TrieEnc TrieSpec TrieRefine TrieUpdate TrieMap TrieHash TrieDisk StackTrie StackTrieOk.

Open Scope go_scope.

(** ** Sequences of updates *)

Definition stack_entry (kv : bytes * bytes) : Prop :=
  Forall is_byte (fst kv) /\ small_entry (fst kv) (snd kv) /\ 7 <= zlen (snd kv).

Lemma tlong_content t :
  (forall k v, hexkey k -> tget t k = Some v -> 7 <= zlen v) -> tree_shape t -> tlong t.
Proof.
  induction t as [|cs IH|p c IH|v] using tree_nested_ind; intros H [Ht|Hw]; try done.
  - apply foldr_and_Forall, Forall_lookup. intros i c E. rewrite Forall_lookup in IH.
    destruct (full_child _ _ _ Hw E) as [Hi [->|[[-> (v & -> & Hv)]|[Hi' Hc]]]]; [done|..].
    + apply (H [16] v); [by exists []|]. rewrite tget_full. change (zget cs 16) with (zget cs (Z.of_nat 16)). by rewrite zget_nat, E.
    + apply (IH i c E); [|by right]. intros k v Hk Ek. apply (H (Z.of_nat i :: k) v).
      * apply hexkey_cons. left. split; [unfold is_nibble; lia|done].
      * by rewrite tget_full, zget_nat, E.
  - cbn [tlong]. pose proof Hw as Hw'. cbn [wft] in Hw'. destruct c as [|cs|?|v]; try done.
    + destruct Hw' as (Hne & Hp & Hc). apply IH; [|by right]. intros k v Hk E. apply (H (p ++ k) v); [by apply hexkey_app|].
      cbn [tget]. by rewrite strip_self.
    + destruct Hw' as [Hk Hv]. apply (H p v Hk). cbn [tget]. rewrite <- (app_nil_r p) at 2. by rewrite strip_self.
Qed.

Section sequence.
Context {K : Keccak}.

(** [st] has the entries [m]; [last] is the last key. *)
Definition st_map (db : stdb) (st : StackTrie) (last : option bytes) (m : kvmap) : Prop :=
  match last with
  | None => st = NewStackTrie 0 /\ m = ∅
  | Some k => exists t, SRep db st 0 (nibs k) t /\ wft t /\ content t m
  end.

Definition entries_ok (m : kvmap) : Prop := map_Forall (fun k v => stack_entry (k, v)) m.

Lemma entries_small m : entries_ok m -> map_Forall small_entry m.
Proof. intros H k v E. by apply (H k v E). Qed.

Lemma entries_tlong t m : tree_shape t -> content t m -> entries_ok m -> tlong t.
Proof.
  intros Ht [Hg Hk _] Hm. apply tlong_content; [|done]. intros k v Hx E. destruct (Hk _ _ Hx E) as (key & Hb & ->).
  rewrite Hg in E by done. by apply (Hm _ _ E).
Qed.

Lemma entries_insert m k v : entries_ok m -> stack_entry (k, v) -> entries_ok (<[k := v]> m).
Proof. intros Hm He. by apply map_Forall_insert_2. Qed.

Lemma st_update_ok db st last m k v :
  st_map db st last m -> entries_ok m -> stack_entry (k, v) -> (forall l, last = Some l -> Forall is_byte l /\ key_lt l k) ->
  exists st' db', st_TryUpdate st k v db = Ok (st', db') /\ grows db db' /\ st_map db' st' (Some k) (<[k := v]> m).
Proof.
  intros Hm He (Hb & (Hl & Hvb & Hvl) & H7) Hlast. cbn [fst snd] in *. pose proof (nibs_nibbles k Hb) as Hn.
  assert (v <> []) as Hv by (intros ->; rewrite zlen_nil in H7; lia).
  assert (st_TryUpdate st k v db = st_insert (S (length (keybytesToHex k))) st ([] ++ nibs k) v db) as E0.
  { unfold st_TryUpdate. destruct (Z.eqb_spec (zlen v) 0); [lia|]. rewrite keybytesToHex_nibs, take_snoc. done. }
  rewrite E0. destruct last as [l|].
  - destruct Hm as (t & HS & Hw & Hc). destruct (Hlast l eq_refl) as [Hlb Hlt].
    destruct (st_insert_ok db st 0 (nibs l) t HS (S (length (keybytesToHex k))) [] (nibs k) v) as (st' & db' & t' & E & [HS' Hg Hw' Hu _]); try done.
    { eapply tsized_map; [by right|done|by apply entries_small]. }
    { eapply entries_tlong; [by right|done|done]. }
    { by apply key_lt_nibs. }
    { rewrite keybytesToHex_nibs, length_app. cbn [length]. lia. }
    exists st', db'. split_and!; [done|done|]. exists t'. split_and!; [done|done|]. rewrite <- keybytesToHex_nibs in Hu.
    exact (content_updated _ _ _ _ _ Hc Hb Hu).
  - destruct Hm as [-> ->]. exists (ST leafNode v (nibs k) 0 noChildren), db. split_and!; [|apply grows_refl|].
    + cbn [st_insert NewStackTrie app]. pose proof (zlen_nonneg (nibs k)). rewrite zslice_full. done.
    + exists (TShort (nibs k ++ [16]) (TVal v)). split_and!; [constructor|split; [by exists (nibs k)|done]|].
      pose proof (updated_leaf (nibs k) v) as Hu. rewrite <- keybytesToHex_nibs in Hu |- *.
      exact (content_updated _ _ _ _ _ content_empty Hb Hu).
Qed.

Fixpoint st_updates (kvs : list (bytes * bytes)) (st : StackTrie) : M stdb StackTrie :=
  match kvs with
  | [] => ret st
  | (k, v) :: kvs => st <~ st_TryUpdate st k v ;; st_updates kvs st
  end.

Fixpoint map_updates (kvs : list (bytes * bytes)) (m : kvmap) : kvmap :=
  match kvs with
  | [] => m
  | (k, v) :: kvs => map_updates kvs (<[k := v]> m)
  end.

(** The keys come in order, after [last]. *)
Fixpoint increasing (last : option bytes) (kvs : list (bytes * bytes)) : Prop :=
  match kvs with
  | [] => True
  | (k, _) :: kvs => (match last with Some l => key_lt l k | None => True end) /\ increasing (Some k) kvs
  end.

Lemma map_updates_Forall (P : bytes * bytes -> Prop) kvs : forall m,
  map_Forall (fun k v => P (k, v)) m -> Forall P kvs -> map_Forall (fun k v => P (k, v)) (map_updates kvs m).
Proof.
  induction kvs as [|[k v] kvs IH]; intros m Hm Hk; [done|]. apply Forall_cons in Hk as [Hk Hkvs].
  apply IH; [by apply map_Forall_insert_2|done].
Qed.

Lemma map_updates_ok kvs m : entries_ok m -> Forall stack_entry kvs -> entries_ok (map_updates kvs m).
Proof. apply map_updates_Forall. Qed.

Lemma st_updates_ok kvs : forall db st last m,
  st_map db st last m -> entries_ok m -> Forall stack_entry kvs -> increasing last kvs -> (forall l, last = Some l -> Forall is_byte l) ->
  exists st' db' last', st_updates kvs st db = Ok (st', db') /\ grows db db' /\ st_map db' st' last' (map_updates kvs m) /\
    (kvs <> [] \/ last <> None -> last' <> None).
Proof.
  induction kvs as [|[k v] kvs IH]; intros db st last m Hm He Hk Hi Hl.
  { exists st, db, last. split_and!; [done|apply grows_refl|done|by intros [?|?]]. }
  apply Forall_cons in Hk as [Hkv Hkvs]. destruct Hi as [Hlt Hi].
  destruct (st_update_ok db st last m k v Hm He Hkv) as (st1 & db1 & E1 & Hg1 & Hm1).
  { intros l ->. split; [by apply Hl|done]. }
  destruct (IH db1 st1 (Some k) _ Hm1 (entries_insert _ _ _ He Hkv) Hkvs Hi) as (st' & db' & last' & E & Hg & Hm' & Hlast).
  { intros l [= <-]. apply Hkv. }
  exists st', db', last'. split_and!; [|by eapply grows_trans|done|intros _; apply Hlast; by right]. cbn [st_updates]. by rewrite (run_bind _ _ _ _ _ E1).
Qed.

(** The tree of a trie, and that closing it gives the root hash. *)
Lemma st_map_tree db st last m : st_map db st last m -> exists t, tree_shape t /\ content t m.
Proof.
  destruct last as [k|]; [|intros [_ ->]; exists TNil; split; [by left|apply content_empty]].
  intros (t & _ & Hw & Hc). exists t. split; [by right|done].
Qed.

Lemma emptyRoot_bytes : BytesToHash (Hash_Bytes emptyRoot) = emptyRoot.
Proof. apply BytesToHash_Hash_Bytes. split; [done|]. by vm_compute. Qed.

Lemma st_Hash_ok db st last m t :
  st_map db st last m -> entries_ok m -> tree_shape t -> content t m ->
  exists st' db', st_Hash st db = Ok (root_hash t, st', db') /\ grows db db' /\ (t <> TNil -> HRep db' st' t).
Proof.
  intros Hm He Ht Hc. destruct last as [k|].
  - destruct Hm as (t' & HS & Hw & Hc'). rewrite (content_unique t t' m Ht (or_intror Hw) Hc Hc') in *.
    assert (tree_shape t') as Ht' by (by right).
    destruct (st_hash_ok db st 0 _ t' HS Hw (tsized_map _ _ Ht' Hc' (entries_small _ He)) (entries_tlong _ _ Ht' Hc' He) db (grows_refl db))
      as (st' & db' & E & Hg & HR). exists st', db'. split_and!; [|done|done].
    unfold st_Hash. rewrite (run_bind _ _ _ _ _ E). inversion HR as [|k' ko cs u _ Hd]; subst; [done|]. cbn [st_val].
    assert (root_hash t' = BytesToHash (thash t')) as -> by (by destruct t'). unfold stval. destruct (hashed t') eqn:Eh.
    + destruct (thash_bytes t') as [_ ->]. done.
    + pose proof (unhashed_size _ Hw Eh). destruct (Z.eqb_spec (zlen (tenc t')) 32); [lia|]. done.
  - destruct Hm as [-> ->]. rewrite (content_unique t TNil ∅ Ht (or_introl eq_refl) Hc content_empty).
    eexists _, db. split_and!; [|apply grows_refl|done]. unfold st_Hash, bind. cbn [st_hash NewStackTrie ret st_val root_hash].
    unfold Hash_Bytes at 1. rewrite zlen_be_bytes. cbn [negb Z.eqb]. by rewrite emptyRoot_bytes.
Qed.
End sequence.

(** ** The same updates on a trie *)

Section trie.
Context {K : Keccak} (tdb : Database).

Fixpoint trie_updates (kvs : list (bytes * bytes)) (root : node) : outcome node :=
  match kvs with
  | [] => Ok root
  | (k, v) :: kvs => root <- Hasher_Update (Hasher := Hasher_Trie tdb) k v root ;; trie_updates kvs root
  end.

(** A trie that has not been committed loads nothing. *)
Definition no_store : Hash -> option tree := fun _ => None.

Lemma no_store_ok : db_ok no_store tdb.
Proof. by intros h t E. Qed.

Lemma trie_updates_ok kvs : forall root m,
  trie_map no_store root m -> Forall stack_entry kvs ->
  exists root', trie_updates kvs root = Ok root' /\ trie_map no_store root' (map_updates kvs m).
Proof.
  induction kvs as [|[k v] kvs IH]; intros root m Hm Hk; [by exists root|]. apply Forall_cons in Hk as [(Hb & _ & H7) Hkvs].
  destruct (TryUpdate_ok no_store tdb no_store_ok root m k v Hm Hb) as (root1 & E1 & Hm1).
  cbn [trie_updates Hasher_Update Hasher_Trie fst snd] in *. rewrite E1. cbn [obind].
  destruct (Z.eqb_spec (zlen v) 0); [lia|]. by apply IH.
Qed.

Lemma Trie_Hash_map root m t :
  trie_map no_store root m -> entries_ok m -> tree_shape t -> content t m ->
  exists root', Trie_Hash root = Ok (root_hash t, root').
Proof.
  intros (t' & Ht' & HR & Hc') He Ht Hc. rewrite (content_unique t t' m Ht Ht' Hc Hc') in *.
  destruct (Trie_Hash_tree no_store (fun h t E => proj1 (no_store_ok h t E)) root t' HR Ht') as (root' & E & _).
  { eapply tsized_map; [done|done|by apply entries_small]. }
  by exists root'.
Qed.
End trie.

(** ** Keys of a list *)

(** The key of the entry [i]. *)
Definition index_key (i : Z) : bytes := rlp_string (be_min i).

Lemma lex_val a b : length a = length b -> Forall is_byte a -> Forall is_byte b -> be_val a < be_val b -> key_lt a b.
Proof.
  revert b. induction a as [|x a IH]; intros [|y b] Hl Ha Hb Hlt; try done.
  apply Forall_cons in Ha as [Hx Ha], Hb as [Hy Hb]. injection Hl as Hl. rewrite !be_val_cons in Hlt.
  pose proof (be_val_bound a Ha) as Ba. pose proof (be_val_bound b Hb) as Bb.
  assert (zlen a = zlen b) as El by (unfold zlen; by rewrite Hl). rewrite El in *. set (P := 256 ^ zlen b) in *.
  apply key_lt_cons. destruct (Z.lt_trichotomy x y) as [?|[->|?]]; [by left|right|nia].
  split; [done|]. apply IH; [done..|lia].
Qed.

Lemma index_key_big i : 128 <= i < two64 -> index_key i = 128 + byte_len i :: be_min i.
Proof.
  intros Hi. unfold index_key. destruct (byte_len_bounds i ltac:(lia)) as [Hp Hb]. pose proof (byte_len_u64 i ltac:(lia)) as H8.
  pose proof (zlen_be_min i) as Hl. unfold rlp_string, rlp_head.
  destruct (be_min i) as [|x [|y l]] eqn:E.
  - rewrite zlen_nil in Hl. lia.
  - change (zlen [x]) with 1 in Hl. assert (x = i) as ->.
    { rewrite <- (be_val_be_min i) by lia. rewrite E. cbn. lia. }
    destruct (Z.ltb_spec i 128); [lia|]. by rewrite <- Hl.
  - rewrite Hl. destruct (Z.ltb_spec (byte_len i) 56); [done|lia].
Qed.

Lemma index_key_small i : 0 < i < 128 -> index_key i = [i].
Proof. intros Hi. unfold index_key. rewrite be_min_small by lia. cbn. by destruct (Z.ltb_spec i 128); [|lia]. Qed.

(** The place of an index in the order of the keys. *)
Definition index_rank (i : Z) : Z := if i =? 0 then 128 else if i <? 128 then i else i + 1.

Lemma byte_len_mono i j : 0 < i <= j -> byte_len i <= byte_len j.
Proof.
  intros H. destruct (byte_len_bounds i ltac:(lia)) as [Hp Hb]. destruct (byte_len_bounds j ltac:(lia)) as [Hp' Hb'].
  destruct (Z.le_gt_cases (byte_len i) (byte_len j)) as [?|Hgt]; [done|].
  assert (256 ^ byte_len j <= 256 ^ (byte_len i - 1)); [|lia]. apply Z.pow_le_mono_r; lia.
Qed.

Lemma index_key_order i j :
  0 <= i < two64 -> 0 <= j < two64 -> index_rank i < index_rank j -> key_lt (index_key i) (index_key j).
Proof.
  assert (forall i, 128 <= i < two64 -> 1 <= byte_len i) as Hpos by (intros k Hk; destruct (byte_len_bounds k ltac:(lia)); lia).
  unfold index_rank. intros Hi Hj. destruct (Z.eqb_spec i 0) as [->|Hi0], (Z.eqb_spec j 0) as [->|Hj0].
  - lia.
  - destruct (Z.ltb_spec j 128); [lia|]. intros _. rewrite (index_key_big j) by lia. change (index_key 0) with [128].
    pose proof (Hpos j ltac:(lia)). apply key_lt_cons. left. lia.
  - destruct (Z.ltb_spec i 128); [|lia]. intros _. rewrite index_key_small by lia. change (index_key 0) with [128].
    apply key_lt_cons. by left.
  - destruct (Z.ltb_spec i 128), (Z.ltb_spec j 128); intros E; try lia.
    + rewrite !index_key_small by lia. apply key_lt_cons. by left.
    + rewrite index_key_small, index_key_big by lia. pose proof (Hpos j ltac:(lia)). apply key_lt_cons. left. lia.
    + rewrite !index_key_big by lia. pose proof (byte_len_mono i j ltac:(lia)). apply key_lt_cons.
      destruct (Z.eq_dec (byte_len i) (byte_len j)) as [El|]; [right|left; lia]. split; [by rewrite El|].
      pose proof (zlen_be_min i) as L1. pose proof (zlen_be_min j) as L2.
      apply lex_val; [unfold zlen in *; lia|apply be_min_bytes|apply be_min_bytes|]. rewrite !be_val_be_min by lia. lia.
Qed.

(** Indices whose keys come in order, after rank [b]. *)
Fixpoint ordered (b : Z) (l : list Z) : Prop :=
  match l with
  | [] => True
  | i :: l => b < index_rank i /\ ordered (index_rank i) l
  end.

Lemma ordered_weaken b b' l : b' <= b -> ordered b l -> ordered b' l.
Proof. destruct l; [done|]. cbn. intros H [? ?]. split; [lia|done]. Qed.

Lemma ordered_app b c l1 l2 :
  ordered b l1 -> Forall (fun i => index_rank i <= c) l1 -> b <= c -> ordered c l2 -> ordered b (l1 ++ l2).
Proof.
  revert b. induction l1 as [|i l1 IH]; intros b Ho Hc Hb H2; [by eapply ordered_weaken|].
  apply Forall_cons in Hc as [Hi Hc]. destruct Ho as [? Ho]. split; [done|]. by apply IH.
Qed.

Lemma ordered_seqZ (n : nat) : forall b a,
  (forall i, a <= i < a + Z.of_nat n -> b < index_rank i /\ forall j, i < j < a + Z.of_nat n -> index_rank i < index_rank j) ->
  ordered b (seqZ a (Z.of_nat n)).
Proof.
  induction n as [|n IH]; intros b a H; [done|]. rewrite seqZ_cons by lia.
  replace (Z.pred (Z.of_nat (S n))) with (Z.of_nat n) by lia. split; [apply H; lia|].
  apply IH. intros i Hi. split; [apply (H a ltac:(lia)); lia|]. intros j Hj. apply (H i ltac:(lia)). lia.
Qed.

Lemma derive_order_ordered n : ordered 0 (derive_order n).
Proof.
  assert (forall a m b, (forall i, a <= i < a + m -> b < index_rank i /\ forall j, i < j < a + m -> index_rank i < index_rank j) -> ordered b (seqZ a m)) as Hs.
  { intros a m b H. destruct (Z.le_gt_cases m 0); [by rewrite seqZ_nil|].
    rewrite <- (Z2Nat.id m) by lia. apply ordered_seqZ. by rewrite Z2Nat.id by lia. }
  assert (forall i, 0 < i < 128 -> index_rank i = i) as R1.
  { intros i Hi. unfold index_rank. destruct (Z.eqb_spec i 0); [lia|]. destruct (Z.ltb_spec i 128); lia. }
  assert (forall i, 128 <= i -> index_rank i = i + 1) as R2.
  { intros i Hi. unfold index_rank. destruct (Z.eqb_spec i 0); [lia|]. destruct (Z.ltb_spec i 128); lia. }
  unfold derive_order. apply ordered_app with (c := 127).
  - apply Hs. intros i Hi. rewrite R1 by lia. split; [lia|]. intros j Hj. rewrite R1 by lia. lia.
  - apply Forall_seqZ. intros i Hi. rewrite R1; lia.
  - lia.
  - apply ordered_app with (c := 128); [by destruct (0 <? n)| |lia|].
    + destruct (0 <? n); [by apply Forall_singleton|apply Forall_nil_2].
    + apply Hs. intros i Hi. rewrite R2 by lia. split; [lia|]. intros j Hj. rewrite R2; lia.
Qed.

Lemma ordered_NoDup b l : ordered b l -> NoDup l /\ Forall (fun i => b < index_rank i) l.
Proof.
  revert b. induction l as [|i l IH]; intros b Ho; [split; [apply NoDup_nil_2|apply Forall_nil_2]|].
  destruct Ho as [Hb Ho]. destruct (IH _ Ho) as [Hn Hf]. split.
  - apply NoDup_cons. split; [|done]. intros Hi. rewrite Forall_forall in Hf. specialize (Hf i Hi). cbv beta in Hf. lia.
  - apply Forall_cons_2; [done|]. eapply Forall_impl; [exact Hf|]. cbv beta. intros; lia.
Qed.

Lemma elem_of_derive_order n i : 0 <= n -> i ∈ derive_order n <-> 0 <= i < n.
Proof.
  intros Hn. unfold derive_order. rewrite !elem_of_app, !elem_of_seqZ. destruct (Z.ltb_spec 0 n).
  - rewrite list_elem_of_singleton. lia.
  - rewrite elem_of_nil. lia.
Qed.

(** ** The map of a list *)

Lemma index_key_inj i j : 0 <= i < two64 -> 0 <= j < two64 -> index_key i = index_key j -> i = j.
Proof.
  intros Hi Hj E. destruct (Z.lt_trichotomy (index_rank i) (index_rank j)) as [H|[H|H]].
  - apply index_key_order in H; [|done..]. rewrite E in H. by apply key_lt_irrefl in H.
  - unfold index_rank in H. destruct (Z.eqb_spec i 0), (Z.eqb_spec j 0), (Z.ltb_spec i 128), (Z.ltb_spec j 128); lia.
  - apply index_key_order in H; [|done..]. rewrite E in H. by apply key_lt_irrefl in H.
Qed.

Lemma Encode_index i : 0 <= i < two64 -> Encode (VUint i) = Some (index_key i).
Proof.
  intros Hi. rewrite Encode_rlp; [done|done|]. cbn [rlp]. pose proof (zlen_rlp_string (be_min i)) as H. rewrite zlen_be_min in H.
  pose proof (byte_len_u64 i ltac:(lia)). pose proof (byte_len_nonneg i). unfold data_max, two64 in *. lia.
Qed.

Lemma index_key_bytes i : 0 <= i < two64 -> Forall is_byte (index_key i) /\ zlen (index_key i) <= 17.
Proof.
  intros Hi. pose proof (byte_len_u64 i ltac:(lia)). pose proof (zlen_rlp_string (be_min i)) as H1. rewrite zlen_be_min in H1.
  split; [|unfold index_key, two64 in *; lia]. destruct (Z.eq_dec i 0) as [->|]; [change (Forall is_byte [128]); repeat constructor; unfold is_byte; lia|].
  destruct (Z.lt_ge_cases i 128); [rewrite index_key_small by lia; repeat constructor; unfold is_byte; lia|].
  rewrite index_key_big by lia. apply Forall_cons_2; [unfold is_byte; pose proof (byte_len_nonneg i); lia|apply be_min_bytes].
Qed.

(** [m] has the entries of [items] under the keys of their indices. *)
Definition list_map (items : list bytes) (m : kvmap) : Prop :=
  forall k v, m !! k = Some v <-> exists i, 0 <= i /\ k = index_key i /\ zget items i = Some v.

Definition item_ok (v : bytes) : Prop := Forall is_byte v /\ 7 <= zlen v <= size_max.

Definition pairs (items : list bytes) (idxs : list Z) : list (bytes * bytes) :=
  map (fun i => (index_key i, default [] (zget items i))) idxs.

Lemma map_updates_lookup kvs : forall m k v, NoDup kvs.*1 ->
  map_updates kvs m !! k = Some v <-> (k, v) ∈ kvs \/ (~ k ∈ kvs.*1 /\ m !! k = Some v).
Proof.
  induction kvs as [|[k' v'] kvs IH]; intros m k v Hn; cbn [map_updates].
  { cbn. split; [intros; right; split; [apply not_elem_of_nil|done]|intros [H|[_ ?]]; [by apply elem_of_nil in H|done]]. }
  cbn in Hn. apply NoDup_cons in Hn as [Hni Hn]. rewrite IH by done. cbn [fmap list_fmap]. rewrite elem_of_cons, not_elem_of_cons. cbn [fst].
  destruct (decide (k = k')) as [->|Hne].
  - rewrite lookup_insert_eq. split.
    + intros [Hin|[_ [= ->]]]; [left; by right|left; by left].
    + intros [[[= ->]|Hin]|[[? _] _]]; [right; by split|by left|done].
  - rewrite lookup_insert_ne by done. split.
    + intros [Hin|[? ?]]; [left; by right|right; by split_and!].
    + intros [[[= ? ?]|Hin]|[[_ ?] ?]]; [done|by left|right; by split].
Qed.

Lemma pairs_NoDup items idxs : NoDup idxs -> Forall (fun i => 0 <= i < two64) idxs -> NoDup (pairs items idxs).*1.
Proof.
  intros Hn Hf. unfold pairs. induction Hn as [|i l Hi Hn IH]; [apply NoDup_nil_2|]. apply Forall_cons in Hf as [Hfi Hf].
  cbn. apply NoDup_cons. split; [|by apply IH]. intros H. apply list_elem_of_fmap in H as ([k v] & Ek & H).
  cbn in Ek. subst k. apply list_elem_of_fmap in H as (j & [= Ek _] & Hj). rewrite Forall_forall in Hf. apply index_key_inj in Ek; [|done|by apply Hf].
  subst. done.
Qed.

Lemma derive_indices (items : list bytes) :
  zlen items <= two32 -> Forall (fun i => 0 <= i < zlen items /\ 0 <= i < two64) (derive_order (zlen items)).
Proof.
  intros Hl. apply Forall_forall. intros i Hi. apply elem_of_derive_order in Hi; [|apply zlen_nonneg]. unfold two32, two64 in *. lia.
Qed.

Lemma pairs_map items : zlen items <= two32 -> list_map items (map_updates (pairs items (derive_order (zlen items))) ∅).
Proof.
  intros Hl k v. pose proof (derive_indices items Hl) as Hd. pose proof (ordered_NoDup _ _ (derive_order_ordered (zlen items))) as [Hn _].
  rewrite map_updates_lookup. 2: { apply pairs_NoDup; [done|]. eapply Forall_impl; [exact Hd|]. by intros i [_ ?]. }
  rewrite lookup_empty. split.
  - intros [H|[_ ?]]; [|done]. apply list_elem_of_fmap in H as (i & [= -> ->] & Hi). rewrite Forall_forall in Hd.
    destruct (Hd i Hi) as [Hr _]. destruct (zget_Some items i Hr) as [w Ew]. exists i. rewrite Ew. split_and!; [lia|done|done].
  - intros (i & Hi & -> & E). left. apply list_elem_of_fmap. exists i. rewrite E. split; [done|].
    apply elem_of_derive_order; [apply zlen_nonneg|]. by apply zget_lt in E.
Qed.

Lemma pairs_entries items idxs :
  Forall item_ok items -> Forall (fun i => 0 <= i < zlen items /\ 0 <= i < two64) idxs -> Forall stack_entry (pairs items idxs).
Proof.
  intros Hi Hd. unfold pairs. apply Forall_map. eapply Forall_impl; [exact Hd|]. intros i [Hr H64].
  destruct (zget_Some items i Hr) as [v Ev]. rewrite Ev. cbn [default]. destruct (index_key_bytes i H64) as [Hb Hl].
  unfold zget in Ev. destruct (0 <=? i); [|done]. rewrite Forall_lookup in Hi. destruct (Hi _ _ Ev) as (Hvb & H7 & Hsz).
  split_and!; cbn [fst snd]; [done|split_and!; [unfold size_max; lia|done|done]|done].
Qed.

Lemma pairs_increasing items l b :
  ordered b l -> Forall (fun i => 0 <= i < two64) l ->
  forall last, (forall k, last = Some k -> exists i, 0 <= i < two64 /\ k = index_key i /\ index_rank i <= b) -> increasing last (pairs items l).
Proof.
  revert b. induction l as [|i l IH]; intros b Ho Hf last Hlast; [done|]. apply Forall_cons in Hf as [Hi Hf]. destruct Ho as [Hb Ho].
  split.
  - destruct last as [k|]; [|done]. destruct (Hlast k eq_refl) as (j & Hj & -> & Hr). apply index_key_order; [done|done|lia].
  - apply (IH (index_rank i)); [done|done|]. intros k [= <-]. exists i. split_and!; [lia|lia|done|lia].
Qed.

(** ** [DeriveSha] *)

Section derive.
Context {K : Keccak}.

Lemma derive_loop_st items idxs : forall st db,
  Forall (fun i => 0 <= i < zlen items /\ 0 <= i < two64) idxs ->
  derive_loop items idxs (st, db) = st_updates (pairs items idxs) st db.
Proof.
  induction idxs as [|i idxs IH]; intros st db Hf; [done|]. apply Forall_cons in Hf as [[Hr H64] Hf].
  cbn [derive_loop pairs map st_updates]. unfold derive_update. destruct (zget_Some items i Hr) as [v Ev]. rewrite Ev, Encode_index by done.
  cbn [of_option obind from_option id Hasher_Update Hasher_StackTrie fst snd]. unfold bind, obind.
  destruct (st_TryUpdate st (index_key i) v db) as [[st1 db1]|?|]; [|done..]. by apply IH.
Qed.

Lemma derive_loop_trie tdb items idxs : forall root,
  Forall (fun i => 0 <= i < zlen items /\ 0 <= i < two64) idxs ->
  derive_loop (HH := Hasher_Trie tdb) items idxs root = trie_updates tdb (pairs items idxs) root.
Proof.
  induction idxs as [|i idxs IH]; intros root Hf; [done|]. apply Forall_cons in Hf as [[Hr H64] Hf].
  cbn [derive_loop pairs map trie_updates]. unfold derive_update. destruct (zget_Some items i Hr) as [v Ev]. rewrite Ev, Encode_index by done.
  cbn [of_option obind from_option id]. unfold obind. destruct (Hasher_Update _ _ _); [|done..]. by apply IH.
Qed.

(** Either kind of trie has the root hash of the map of the list. *)
Lemma DeriveSha_tree items h0 root0 tdb :
  Forall item_ok items -> zlen items <= two32 ->
  exists m t, list_map items m /\ tree_shape t /\ content t m /\ entries_ok m /\
    (exists h', DeriveSha (HH := Hasher_StackTrie) items h0 = Ok (root_hash t, h')) /\
    (exists root', DeriveSha (HH := Hasher_Trie tdb) items root0 = Ok (root_hash t, root')).
Proof.
  intros Hi Hl. pose proof (derive_indices items Hl) as Hd. set (ps := pairs items (derive_order (zlen items))).
  assert (Forall stack_entry ps) as Hps by (by apply pairs_entries). set (m := map_updates ps ∅).
  assert (entries_ok m) as He by (apply map_updates_ok; [apply map_Forall_empty|done]).
  assert (increasing None ps) as Hinc.
  { eapply pairs_increasing; [apply derive_order_ordered| |done]. eapply Forall_impl; [exact Hd|]. by intros i [_ ?]. }
  destruct (st_updates_ok ps None (NewStackTrie 0) None ∅) as (st & db & last & Es & _ & Hm & _); try done.
  fold m in Hm. destruct (st_map_tree _ _ _ _ Hm) as (t & Ht & Hc). exists m, t.
  split_and!; [by apply pairs_map|done|done|done|..].
  - destruct (st_Hash_ok db st last m t Hm He Ht Hc) as (st' & db' & Eh & _). eexists. unfold DeriveSha.
    cbn [Hasher_Reset Hasher_StackTrie]. rewrite derive_loop_st by done. fold ps. rewrite Es. cbn [obind Hasher_Hash Hasher_StackTrie fst snd]. rewrite Eh. reflexivity.
  - destruct (trie_updates_ok tdb ps nilNode ∅ (trie_map_empty no_store) Hps) as (root & Er & Hr).
    destruct (Trie_Hash_map tdb root m t Hr He Ht Hc) as (root' & Eh). exists root'. unfold DeriveSha.
    cbn [Hasher_Reset Hasher_Trie]. rewrite derive_loop_trie by done. fold ps. rewrite Er. exact Eh.
Qed.
End derive.


Lemma list_map_inj items1 items2 m :
  zlen items1 <= two32 -> zlen items2 <= two32 -> list_map items1 m -> list_map items2 m -> items1 = items2.
Proof.
  assert (forall (l l' : list bytes) n v, zlen l <= two32 -> zlen l' <= two32 -> list_map l m -> list_map l' m ->
            l !! n = Some v -> l' !! n = Some v) as H.
  { intros l l' n v Hl Hl' H H' E. rewrite <- zget_nat in E. pose proof (zget_lt _ _ _ E) as Hr.
    assert (m !! index_key (Z.of_nat n) = Some v) as Em by (apply H; exists (Z.of_nat n); split_and!; [lia|done|done]).
    apply H' in Em as (j & Hj & Ek & Ej). pose proof (zget_lt _ _ _ Ej) as Hrj.
    apply index_key_inj in Ek; [|unfold two32, two64 in *; lia..]. by rewrite <- zget_nat, Ek. }
  intros Hl1 Hl2 H1 H2. apply list_eq. intros n.
  destruct (items1 !! n) as [v|] eqn:E1; [symmetry; by apply (H items1 items2 n v)|].
  destruct (items2 !! n) as [v|] eqn:E2; [|done]. rewrite <- E1. by apply (H items2 items1 n v).
Qed.

Lemma list_map_functional items m m' : list_map items m -> list_map items m' -> m = m'.
Proof.
  intros H H'. apply map_eq. intros k. destruct (m !! k) as [v|] eqn:E.
  - symmetry. by apply H', H.
  - destruct (m' !! k) as [v|] eqn:E'; [|done]. rewrite <- E. by apply H, H'.
Qed.

(** The hash of a list commits to the list.  [DeriveSha] never fails, and the
    hash the sealer of a block computes with a trie is the one a validator
    computes with the append-only trie exactly when the lists are the same,
    unless the hashes of two nodes of their tries collide. *)
Theorem DeriveSha_commits {K : Keccak} (items1 items2 : list bytes) (st0 : StackTrie * stdb) (root0 : node) (tdb : Database) :
  Keccak256Hash [128] = emptyRoot ->
  Forall item_ok items1 -> Forall item_ok items2 -> zlen items1 <= two32 -> zlen items2 <= two32 ->
  (forall m1 m2 t1 t2, list_map items1 m1 -> list_map items2 m2 -> content t1 m1 -> content t2 m2 ->
     tree_shape t1 -> tree_shape t2 -> collision_free t1 t2) ->
  exists h1 h2 st' root', DeriveSha (HH := Hasher_StackTrie) items1 st0 = Ok (h1, st') /\
    DeriveSha (HH := Hasher_Trie tdb) items2 root0 = Ok (h2, root') /\ (h1 = h2 <-> items1 = items2).
Proof.
  intros Hk Hi1 Hi2 Hl1 Hl2 Hcf.
  destruct (DeriveSha_tree items1 st0 root0 tdb Hi1 Hl1) as (m1 & t1 & Hm1 & Ht1 & Hc1 & He1 & (st' & E1) & _).
  destruct (DeriveSha_tree items2 st0 root0 tdb Hi2 Hl2) as (m2 & t2 & Hm2 & Ht2 & Hc2 & He2 & _ & (root' & E2)).
  exists (root_hash t1), (root_hash t2), st', root'. split_and!; [done|done|]. split.
  - intros E. assert (t1 = t2) as ->.
    { apply root_hash_inj; try done; [by eapply tsized_map, entries_small..|]. by apply (Hcf m1 m2). }
    rewrite (content_functional _ _ _ Hc1 Hc2) in Hm1. by eapply list_map_inj.
  - intros ->. rewrite (list_map_functional _ _ _ Hm1 Hm2) in Hc1. by rewrite (content_unique t1 t2 m2 Ht1 Ht2 Hc1 Hc2).
Qed.

(** ** A committed trie *)

Fixpoint subtrees (t : tree) : list tree :=
  t :: match t with
       | TShort _ c => subtrees c
       | TFull cs => concat (map subtrees cs)
       | _ => []
       end.

Lemma subtrees_spec s t : subtree s t -> s ∈ subtrees t.
Proof.
  induction 1 as [|k c _ IH|cs i c E _ IH]; [destruct s; apply list_elem_of_here|by apply list_elem_of_further|].
  apply list_elem_of_further. apply list_elem_of_lookup in IH as [j Ej]. apply list_elem_of_In, in_concat. exists (subtrees c).
  split; [|by apply list_elem_of_In; eapply list_elem_of_lookup_2].
  apply in_map, list_elem_of_In. by eapply list_elem_of_lookup_2.
Qed.

Lemma subtrees_sub s t : s ∈ subtrees t -> subtree s t.
Proof.
  revert s. induction t as [|cs IH|k c IH|v] using tree_nested_ind; intros s Hs; cbn [subtrees] in Hs;
    apply elem_of_cons in Hs as [->|Hs]; try apply sub_refl; try by apply elem_of_nil in Hs.
  - apply list_elem_of_In, in_concat in Hs as (l & Hl & Hs). apply in_map_iff in Hl as (c & <- & Hc).
    apply list_elem_of_In, list_elem_of_lookup in Hc as [i Ei]. rewrite Forall_lookup in IH. eapply sub_full; [exact Ei|].
    apply (IH i c Ei). by apply list_elem_of_In.
  - apply sub_short. by apply IH.
Qed.

Section committed.
Context {K : Keccak}.

(** The database after the writes [l]; the last write of a key counts. *)
Definition disk_of (l : list (bytes * bytes)) : Database :=
  MkDatabase ∅ (fun h => option_map snd (find (fun kv => BytesToHash (fst kv) =? h) (reverse l))).

Definition tree_store (t : tree) (h : Hash) : option tree :=
  find (fun s => hashed s && (BytesToHash (thash s) =? h)) (subtrees t).

(** No two values of [X] have the same hash. *)
Definition no_collision (X : bytes -> Prop) : Prop := forall x y, X x -> X y -> Keccak256 x = Keccak256 y -> x = y.

(** What was written, and the encodings of the nodes. *)
Definition relevant (l : list (bytes * bytes)) (t : tree) (x : bytes) : Prop :=
  x ∈ l.*2 \/ exists s, subtree s t /\ x = tenc s.

Lemma Keccak256_BytesToHash x y : BytesToHash (Keccak256 x) = BytesToHash (Keccak256 y) -> Keccak256 x = Keccak256 y.
Proof.
  intros E. rewrite !BytesToHash_32 in E by apply Keccak256_len. apply be_val_inj; [apply be_bytes_is_byte..| |done].
  unfold Keccak256. by rewrite !be_bytes_length.
Qed.

Lemma subtree_wft s t : subtree s t -> wft t -> hashed s = true -> wft s.
Proof.
  induction 1 as [|k c Hs IH|cs i c E Hs IH]; intros Hw Hh; [done|..].
  - cbn [wft] in Hw. destruct c; try done; [apply IH; [by destruct Hw as (_ & _ & ?)|done]|]. by inversion Hs; subst.
  - destruct (full_child _ _ _ Hw E) as [_ [->|[[_ (v & -> & _)]|[_ Hc]]]]; [by inversion Hs; subst|by inversion Hs; subst|]. by apply IH.
Qed.

Lemma tree_store_ok l t :
  wft t -> tsized t -> no_collision (relevant l t) -> forall s, subtree s t -> hashed s = true ->
  tree_store t (BytesToHash (thash s)) = Some s.
Proof.
  intros Hw Hz Hcf s Hs Hh. unfold tree_store. destruct (find _ _) as [u|] eqn:E.
  - apply find_some in E as [Hin Ht]. apply andb_true_iff in Ht as [Hhu Eh]. apply Z.eqb_eq, Keccak256_BytesToHash in Eh.
    apply list_elem_of_In, subtrees_sub in Hin. f_equal. apply thash_inj; try done.
    + by eapply subtree_wft.
    + by eapply subtree_wft.
    + by eapply subtree_sized.
    + by eapply subtree_sized.
    + intros a b Ha Hb Hab. apply Hcf; [right; exists a; split; [by eapply subtree_trans|done]|right; exists b; split; [by eapply subtree_trans|done]|done].
  - eapply find_none in E; [|apply list_elem_of_In, subtrees_spec; exact Hs]. cbv beta in E. by rewrite Hh, Z.eqb_refl in E.
Qed.

Lemma disk_of_ok l t :
  wft t -> tsized t -> Forall put_ok l -> written (Some l) t -> no_collision (relevant l t) -> disk_ok (tree_store t) (disk_of l).
Proof.
  intros Hw Hz Hl Hd Hcf h s E. assert (subtree s t /\ hashed s = true /\ BytesToHash (thash s) = h) as (Hs & Hh & <-).
  { unfold tree_store in E. apply find_some in E as [Hin Ht]. apply andb_true_iff in Ht as [Hh Eh].
    split_and!; [by apply subtrees_sub, list_elem_of_In|done|by apply Z.eqb_eq]. }
  split_and!; [by eapply subtree_wft|by eapply subtree_sized|done| |done|].
  - intros u Hu Huh. eapply tree_store_ok; try done. by eapply subtree_trans.
  - cbn [diskdb disk_of]. assert ((thash s, tenc s) ∈ reverse l) as Hin by (apply elem_of_reverse; by apply Hd).
    destruct (find _ _) as [[k v]|] eqn:Ef.
    + apply find_some in Ef as [Hkv Eh]. apply list_elem_of_In in Hkv. rewrite elem_of_reverse in Hkv. cbn [fst snd option_map] in *. f_equal.
      rewrite Forall_forall in Hl. pose proof (Hl _ Hkv) as Ek. unfold put_ok in Ek. cbn [fst snd] in Ek. subst k.
      apply Z.eqb_eq, Keccak256_BytesToHash in Eh. apply Hcf; [left; apply list_elem_of_fmap; by exists (Keccak256 v, v)|right; by exists s|done].
    + eapply find_none in Ef; [|apply list_elem_of_In; exact Hin]. cbn [fst] in Ef. by rewrite Z.eqb_refl in Ef.
Qed.

(** A trie with long values is referred to by its hash. *)
Lemma long_hashed t : wft t -> tlong t -> (forall k v, hexkey k -> tget t k = Some v -> 32 <= zlen v) -> hashed t = true.
Proof.
  intros Hw Hl H32. destruct t as [|cs|k c|v]; try done; [by apply full_hashed|].
  cbn [hashed]. apply negb_true_iff, Z.ltb_ge. change (tenc (TShort k c)) with (rlp_list (rlp_string (compact k) ++ tref c)).
  pose proof (zlen_rlp_list_ge (rlp_string (compact k) ++ tref c)) as H1. rewrite zlen_app in H1.
  pose proof (zlen_nonneg (rlp_string (compact k))). assert (32 <= zlen (tref c)); [|lia].
  pose proof Hw as Hw'. cbn [wft] in Hw'. destruct c as [|cs|?|v]; try done.
  - pose proof (zlen_tref_hashed (TFull cs)) as H33. specialize (H33 (full_hashed cs (wft_short_child _ _ Hw) Hl)). lia.
  - specialize (H32 k v (proj1 Hw')). cbn [tget] in H32. rewrite <- (app_nil_r k) in H32 at 2. rewrite strip_self in H32. specialize (H32 eq_refl).
    rewrite tref_hashed. cbn [hashed tenc]. pose proof (proj2 (zlen_rlp_string_ge v)). lia.
Qed.
End committed.

(** A committed append-only trie can be opened.  [Commit] after increasing
    updates returns the root hash, and what was written to the database is enough
    to open the trie with that hash: it has exactly the entries of the updates.
    Values have 32 bytes or more, so that the root has a hash of its own. *)
Theorem stacktrie_commit_opens {K : Keccak} (kvs : list (bytes * bytes)) :
  kvs <> [] -> Forall stack_entry kvs -> Forall (fun kv => 32 <= zlen (snd kv)) kvs -> increasing None kvs ->
  exists st l h st' l' t, st_updates kvs (NewStackTrie 0) (Some []) = Ok (st, Some l) /\
    st_Commit st (Some l) = Ok (inl h, st', Some l') /\ wft t /\ content t (map_updates kvs ∅) /\ h = root_hash t /\
    (no_collision (relevant l' t) -> h <> 0 -> h <> emptyRoot ->
     exists root, New h (disk_of l') = Ok (inl root) /\ trie_map (tree_store t) root (map_updates kvs ∅)).
Proof.
  intros Hne Hk H32 Hi.
  destruct (st_updates_ok kvs (Some []) (NewStackTrie 0) None ∅) as (st & db & last & Es & Hg & Hm & Hl); try done.
  destruct db as [l|]; [|done]. destruct Hg as [_ Hp]. specialize (Hp (Forall_nil_2 _)).
  assert (entries_ok (map_updates kvs ∅)) as He by (apply map_updates_ok; [apply map_Forall_empty|done]).
  destruct last as [k|]; [|by destruct Hl; [left|]]. destruct Hm as (t & HS & Hw & Hc). assert (tree_shape t) as Ht by (by right).
  pose proof (tsized_map _ _ Ht Hc (entries_small _ He)) as Hz. pose proof (entries_tlong _ _ Ht Hc He) as Hlong.
  destruct (st_hash_ok _ st 0 _ t HS Hw Hz Hlong _ (grows_refl _)) as (st' & db' & E & Hg & HR). destruct db' as [l'|]; [|done].
  destruct Hg as [_ Hp']. specialize (Hp' Hp). inversion HR as [|k' ko cs u _ Hd]; subst; [done|].
  assert (hashed t = true) as Hh.
  { apply long_hashed; [done|done|]. intros x v Hx Ex. destruct (content_key _ _ Hc _ _ Hx Ex) as (key & Hb & ->).
    rewrite (content_get _ _ Hc) in Ex by done. assert (map_Forall (fun k v => 32 <= zlen (snd (k, v))) (map_updates kvs ∅)) as Hall
      by (apply (map_updates_Forall (fun kv => 32 <= zlen (snd kv))); [apply map_Forall_empty|done]). exact (Hall _ _ Ex). }
  assert (root_hash t = BytesToHash (thash t)) as Er by (by destruct t).
  eexists st, l, (root_hash t), _, l', t. split_and!; [done| |done|done|done|].
  { unfold st_Commit, bind, Prelude.get. rewrite E. cbn [ret st_val]. unfold stval. by rewrite Hh, Er. }
  intros Hcf H0 He0. pose proof (disk_of_ok l' t Hw Hz Hp' Hd Hcf) as Hdisk.
  pose proof (disk_db_ok _ _ Hdisk) as Hdb. unfold New.
  destruct (Z.eqb_spec (root_hash t) 0) as [?|_]; [done|]. destruct (Z.eqb_spec (root_hash t) emptyRoot) as [?|_]; [done|]. cbn [negb andb].
  rewrite Er, Hash_Bytes_thash. destruct (resolve_ok _ _ Hdb true (thash t) t []) as (_ & n & -> & HR' & _).
  { constructor; [|done|done]. eapply tree_store_ok; try done. apply sub_refl. }
  exists n. split; [done|]. by exists t.
Qed.
