(* ===== verification/StackTrieExample.v ===== *)
(** * Examples of append-only tries

    The theorems at concrete updates and lists, and where the append-only trie
    differs from the trie: short values. *)

From Stdlib Require Import ZArith Lia.
From stdpp Require Import gmap.
From S2P Require Import Prelude Common Rlp RlpSpec Crypto Trie TrieEnc TrieSpec TrieRefine TrieUpdate TrieMap TrieHash TrieDisk TrieExample StackTrie StackTrieOk StackTrieTheorems.

#[local] Existing Instance Keccak_digest.

Definition st_kvs : list (bytes * bytes) := [([1; 2], replicate 40 7); ([1; 3], replicate 33 9); ([2], replicate 50 1)].

Lemma st_entry k v :
  Forall is_byte k -> Forall is_byte v -> zlen k <= 10 -> 7 <= zlen v <= 100 -> stack_entry (k, v).
Proof. intros Hk Hv Hl Hz. split_and!; cbn [fst snd]; [done|split_and!; [unfold size_max; lia|done|unfold size_max; lia]|lia]. Qed.

Ltac all_bytes := repeat (first [apply Forall_nil_2 | apply Forall_cons_2; [unfold is_byte; lia|]]).

Lemma st_kvs_ok : Forall stack_entry st_kvs.
Proof.
  unfold st_kvs. repeat (apply Forall_cons_2; [apply st_entry; [all_bytes|apply Forall_replicate; unfold is_byte; lia|vm_compute; discriminate|split; vm_compute; discriminate]|]).
  apply Forall_nil_2.
Qed.

Lemma st_kvs_increasing : increasing None st_kvs.
Proof.
  split; [done|]. split; [exists [1], 2, [], 3, []; split_and!; [done|done|lia]|].
  split; [exists [], 1, [3], 2, []; split_and!; [done|done|lia]|done].
Qed.


Lemma stacktrie_commit_opens_witness :
  exists st l h st' l', st_updates st_kvs (NewStackTrie 0) (Some []) = Ok (st, Some l) /\
    st_Commit st (Some l) = Ok (inl h, st', Some l').
Proof.
  destruct (stacktrie_commit_opens st_kvs) as (st & l & h & st' & l' & t & E1 & E2 & _).
  - discriminate.
  - exact st_kvs_ok.
  - unfold st_kvs. repeat (apply Forall_cons_2; [vm_compute; discriminate|]). apply Forall_nil_2.
  - exact st_kvs_increasing.
  - exists st, l, h, st', l'. split; [exact E1|exact E2].
Defined.

(** ** Lists of one entry *)

Definition st_tree (v : bytes) : tree := TShort [8; 0; 16] (TVal v).

Lemma st_tree_unique v m t :
  v <> [] -> list_map [v] m -> content t m -> tree_shape t -> t = st_tree v.
Proof.
  intros Hv Hm Hc Ht. assert (m = <[[128] := v]> ∅) as ->.
  { apply (list_map_functional [v]); [done|]. intros k w. split.
    - intros E. destruct (decide (k = [128])) as [->|Hne].
      + rewrite lookup_insert_eq in E. injection E as <-. exists 0. split_and!; [lia|reflexivity|reflexivity].
      + by rewrite lookup_insert_ne, lookup_empty in E.
    - intros (i & Hi & -> & E). pose proof (zget_lt _ _ _ E) as Hr. change (zlen [v]) with 1 in Hr.
      assert (i = 0) as -> by lia. injection E as <-. apply lookup_insert_eq. }
  apply (content_unique _ _ (<[[128] := v]> ∅)); [done| |done|].
  - right. split; [|done]. exists [8; 0]. split; [done|]. repeat (apply Forall_cons_2; [unfold is_nibble; lia|]). apply Forall_nil_2.
  - apply (content_updated TNil ∅ [128] (Some v) (st_tree v) content_empty); [all_bytes|]. apply (updated_leaf [8; 0] v).
Qed.

Lemma st_subtrees s v : subtree s (st_tree v) -> s = st_tree v \/ s = TVal v.
Proof. intros H. inversion H as [|k c H'|]; subst; [by left|right]. by inversion H'. Qed.

Definition st_item1 : bytes := replicate 40 7.
Definition st_item2 : bytes := replicate 41 7.

Lemma st_collision_free : collision_free (st_tree st_item1) (st_tree st_item2).
Proof.
  intros s s' Hs Hs' E. destruct (st_subtrees _ _ Hs) as [->| ->], (st_subtrees _ _ Hs') as [->| ->];
    exfalso; revert E; vm_compute; discriminate.
Qed.

Lemma DeriveSha_commits_witness :
  exists h1 h2 st' root', DeriveSha (HH := Hasher_StackTrie) [st_item1] (nilST, None) = Ok (h1, st') /\
    DeriveSha (HH := Hasher_Trie ex_db) [st_item2] nilNode = Ok (h2, root') /\ (h1 = h2 <-> [st_item1] = [st_item2]).
Proof.
  apply (DeriveSha_commits [st_item1] [st_item2] (nilST, None) nilNode ex_db).
  - vm_compute. reflexivity.
  - apply Forall_cons_2; [|apply Forall_nil_2]. split; [apply Forall_replicate; unfold is_byte; lia|split; vm_compute; discriminate].
  - apply Forall_cons_2; [|apply Forall_nil_2]. split; [apply Forall_replicate; unfold is_byte; lia|split; vm_compute; discriminate].
  - vm_compute. discriminate.
  - vm_compute. discriminate.
  - intros m1 m2 t1 t2 Hm1 Hm2 Hc1 Hc2 Ht1 Ht2.
    rewrite (st_tree_unique st_item1 m1 t1), (st_tree_unique st_item2 m2 t2) by (done || discriminate). exact st_collision_free.
Defined.

(** ** Short values

    [hash] encodes the child of an extension as a byte string, also where the child
    is an embedded node: with values of one byte the hash is not that of the
    trie. *)
Definition st_short : list (bytes * bytes) := [([1; 2], [5]); ([1; 3], [9])].

Definition st_root (kvs : list (bytes * bytes)) : option Hash :=
  match st_updates kvs (NewStackTrie 0) None with
  | Ok (st, db) => match st_Hash st db with Ok (h, _, _) => Some h | _ => None end
  | _ => None
  end.

Definition trie_root (kvs : list (bytes * bytes)) : option Hash :=
  match trie_updates ex_db kvs nilNode with
  | Ok root => match Trie_Hash root with Ok (h, _) => Some h | _ => None end
  | _ => None
  end.

Lemma stacktrie_short_values_differ :
  exists h h', st_root st_short = Some h /\ trie_root st_short = Some h' /\ h <> h'.
Proof. eexists _, _. split_and!; [vm_compute; reflexivity|vm_compute; reflexivity|vm_compute; discriminate]. Qed.

(** [Commit] returns the encoding of a root of less than 32 bytes in place of its
    hash, and does not write the root. *)
Lemma stacktrie_commit_short_root :
  exists st h, st_updates [([1], [5])] (NewStackTrie 0) (Some []) = Ok (st, Some []) /\
    (exists st', st_Commit st (Some []) = Ok (inl h, st', Some [])) /\ trie_root [([1], [5])] <> Some h.
Proof.
  eexists _, _. split; [vm_compute; reflexivity|]. split; [eexists; vm_compute; reflexivity|vm_compute; discriminate].
Qed.
