(* ===== verification/Bitutil.v ===== *)
(** * Bitwise operations and sparse compression of byte strings

    [common/bitutil/bitutil.go]: the word-wise operations for machines with
    unaligned access, next to the byte-wise ones they replace.
    [common/bitutil/compress.go]: the bitset compression of the bloom bit vectors
    and its inverse. *)

From Stdlib Require Import ZArith Lia.
From stdpp Require Import list.
From S2P Require Import Prelude.

Open Scope go_scope.

(** ** Operations on byte strings *)

Definition wordSize : nat := 8.

(** Word [i] of a slice that is read as a slice of machine words, low byte
    first.  A word that does not lie in the slice is not accessed by the code
    below when the destination has room; [None] stands for the access. *)
Definition get_word (l : bytes) (i : nat) : option Z :=
  let w := take wordSize (drop (wordSize * i) l) in
  if decide (length w = wordSize) then Some (be_val (reverse w)) else None.

Definition set_word (l : bytes) (i : nat) (w : Z) : option bytes :=
  if decide (wordSize * i + wordSize <= length l)%nat
  then Some (take (wordSize * i) l ++ reverse (be_bytes wordSize w) ++ drop (wordSize * i + wordSize) l)
  else None.

Section operation.
Context (f : Z -> Z -> Z).

(** [for i := 0; i < w; i++ { dw[i] = aw[i] op bw[i] }] *)
Fixpoint words_loop (n i : nat) (dst a b : bytes) : outcome bytes :=
  match n with
  | O => Ok dst
  | S n =>
      x <- of_option PanicIndex (get_word a i) ;;
      y <- of_option PanicIndex (get_word b i) ;;
      dst <- of_option PanicIndex (set_word dst i (f x y)) ;;
      words_loop n (S i) dst a b
  end.

(** [for ; i < n; i++ { dst[i] = a[i] op b[i] }] *)
Fixpoint bytes_loop (n i : nat) (dst a b : bytes) : outcome bytes :=
  match n with
  | O => Ok dst
  | S n =>
      x <- of_option PanicIndex (a !! i) ;;
      y <- of_option PanicIndex (b !! i) ;;
      if decide (i < length dst)%nat then bytes_loop n (S i) (<[i := f x y]> dst) a b else Panic PanicIndex
  end.

Definition fast_op (dst a b : bytes) : outcome (bytes * nat) :=
  let n := if decide (length b < length a)%nat then length b else length a in
  let w := (n / wordSize)%nat in
  dst <- words_loop w 0 dst a b ;;
  let i := (n - n mod wordSize)%nat in
  dst <- bytes_loop (n - i) i dst a b ;;
  Ok (dst, n).

Definition safe_op (dst a b : bytes) : outcome (bytes * nat) :=
  let n := if decide (length b < length a)%nat then length b else length a in
  dst <- bytes_loop n 0 dst a b ;;
  Ok (dst, n).
End operation.

Definition fastXORBytes := fast_op Z.lxor.
Definition safeXORBytes := safe_op Z.lxor.
Definition fastANDBytes := fast_op Z.land.
Definition safeANDBytes := safe_op Z.land.
Definition fastORBytes := fast_op Z.lor.
Definition safeORBytes := safe_op Z.lor.

Section arch.
(** [supportsUnaligned], from [runtime.GOARCH]. *)
Context (supportsUnaligned : bool).
Definition XORBytes := if supportsUnaligned then fastXORBytes else safeXORBytes.
Definition ANDBytes := if supportsUnaligned then fastANDBytes else safeANDBytes.
Definition ORBytes := if supportsUnaligned then fastORBytes else safeORBytes.
End arch.

(** ** Compression *)

(** The loop over the input: the bitset of the bytes that are not zero, and
    these bytes. *)
Fixpoint encode_loop (data : bytes) (i : nat) (nonZeroBitset nonZeroBytes : bytes) : outcome (bytes * bytes) :=
  match data with
  | [] => Ok (nonZeroBitset, nonZeroBytes)
  | b :: data =>
      if b =? 0 then encode_loop data (S i) nonZeroBitset nonZeroBytes
      else
        x <- of_option PanicIndex (nonZeroBitset !! (i / 8)%nat) ;;
        encode_loop data (S i)
          (<[(i / 8)%nat := Z.lor x (u8 (Z.shiftl 1 (7 - Z.of_nat (i mod 8))))]> nonZeroBitset) (nonZeroBytes ++ [b])
  end.

Fixpoint bitsetEncodeBytes (fuel : nat) (data : bytes) : outcome bytes :=
  match fuel with
  | O => NoFuel
  | S fuel =>
      match data with
      | [] => Ok []
      | [b] => if b =? 0 then Ok [] else Ok data
      | _ =>
          r <- encode_loop data 0 (replicate ((length data + 7) / 8) 0) [] ;;
          let '(nonZeroBitset, nonZeroBytes) := r in
          if decide (length nonZeroBytes = 0%nat) then Ok []
          else out <- bitsetEncodeBytes fuel nonZeroBitset ;; Ok (out ++ nonZeroBytes)
      end
  end.

Definition CompressBytes (data : bytes) : outcome bytes :=
  out <- bitsetEncodeBytes (S (length data)) data ;;
  if decide (length out < length data)%nat then Ok out else Ok data.

Inductive compress_error := errMissingData | errUnreferencedData | errExceededTarget | errZeroContent.

(** The loop over the bits of the bitset; the state is [decomp] and [ptr]. *)
Fixpoint decode_loop (n i : nat) (nonZeroBitset data decomp : bytes) (ptr : nat) : outcome (bytes * nat + compress_error) :=
  match n with
  | O => Ok (inl (decomp, ptr))
  | S n =>
      x <- of_option PanicIndex (nonZeroBitset !! (i / 8)%nat) ;;
      if Z.land x (u8 (Z.shiftl 1 (7 - Z.of_nat (i mod 8)))) =? 0 then decode_loop n (S i) nonZeroBitset data decomp ptr
      else match data !! ptr with
           | None => Ok (inr errMissingData)
           | Some b =>
               if decide (length decomp <= i)%nat then Ok (inr errExceededTarget)
               else if b =? 0 then Ok (inr errZeroContent)
               else decode_loop n (S i) nonZeroBitset data (<[i := b]> decomp) (S ptr)
           end
  end.

Fixpoint bitsetDecodePartialBytes (fuel : nat) (data : bytes) (target : nat) : outcome (bytes * nat + compress_error) :=
  match fuel with
  | O => NoFuel
  | S fuel =>
      if decide (target = 0%nat) then Ok (inl ([], 0%nat))
      else match data with
           | [] => Ok (inl (replicate target 0, 0%nat))
           | d0 :: _ =>
               if decide (target = 1%nat) then Ok (inl ([d0], if d0 =? 0 then 0%nat else 1%nat))
               else
                 r <- bitsetDecodePartialBytes fuel data ((target + 7) / 8) ;;
                 match r with
                 | inr e => Ok (inr e)
                 | inl (nonZeroBitset, ptr) =>
                     decode_loop (8 * length nonZeroBitset) 0 nonZeroBitset data (replicate target 0) ptr
                 end
           end
  end.

Definition bitsetDecodeBytes (data : bytes) (target : nat) : outcome (bytes + compress_error) :=
  r <- bitsetDecodePartialBytes (S target) data target ;;
  match r with
  | inr e => Ok (inr e)
  | inl (out, size) => if decide (size = length data) then Ok (inl out) else Ok (inr errUnreferencedData)
  end.

Definition DecompressBytes (data : bytes) (target : nat) : outcome (bytes + compress_error) :=
  if decide (target < length data)%nat then Ok (inr errExceededTarget)
  else if decide (length data = target) then Ok (inl data)
  else bitsetDecodeBytes data target.

(** ** The word-wise operations are the byte-wise ones *)

(** [f] works on every bit for itself. *)
Class Bitwise (f : Z -> Z -> Z) := {
  bit_op : bool -> bool -> bool;
  bit_op_spec : forall x y k, Z.testbit (f x y) k = bit_op (Z.testbit x k) (Z.testbit y k);
  bit_op_false : bit_op false false = false;
}.

#[export, refine] Instance Bitwise_lxor : Bitwise Z.lxor := {| bit_op := xorb |}.
Proof. all: intros; try apply Z.lxor_spec; done. Defined.
#[export, refine] Instance Bitwise_land : Bitwise Z.land := {| bit_op := andb |}.
Proof. all: intros; try apply Z.land_spec; done. Defined.
#[export, refine] Instance Bitwise_lor : Bitwise Z.lor := {| bit_op := orb |}.
Proof. all: intros; try apply Z.lor_spec; done. Defined.

Section bitwise.
Context (f : Z -> Z -> Z) `{!Bitwise f}.

Lemma bitwise_div x y : f x y / 256 = f (x / 256) (y / 256).
Proof.
  change 256 with (2 ^ 8). rewrite <- !Z.shiftr_div_pow2 by lia. apply Z.bits_inj'. intros k Hk.
  rewrite (bit_op_spec (f := f)), !Z.shiftr_spec by lia. apply (bit_op_spec (f := f)).
Qed.

Lemma bitwise_mod x y : f x y mod 256 = f (x mod 256) (y mod 256).
Proof.
  change 256 with (2 ^ 8). rewrite <- !Z.land_ones by lia. apply Z.bits_inj'. intros k Hk.
  rewrite (bit_op_spec (f := f)), !Z.land_spec, (bit_op_spec (f := f)). destruct (Z.testbit (Z.ones 8) k); [by rewrite !andb_true_r|].
  by rewrite !andb_false_r, bit_op_false.
Qed.

Lemma be_bytes_bitwise n : forall x y, be_bytes n (f x y) = zip_with f (be_bytes n x) (be_bytes n y).
Proof.
  induction n as [|n IH]; intros x y; [done|]. cbn [be_bytes]. rewrite bitwise_div, IH, bitwise_mod.
  by rewrite zip_with_app by by rewrite !be_bytes_length.
Qed.

Lemma zip_with_reverse (l1 l2 : bytes) : length l1 = length l2 -> zip_with f (reverse l1) (reverse l2) = reverse (zip_with f l1 l2).
Proof.
  intros Hl. apply list_eq. intros i. rewrite lookup_zip_with.
  assert (length (zip_with f l1 l2) = length l1) as Hz by (apply length_zip_with_l; lia).
  destruct (decide (i < length l1)%nat) as [Hi|Hi].
  - rewrite !reverse_lookup by lia. rewrite lookup_zip_with, Hz, <- Hl. done.
  - by rewrite (lookup_ge_None_2 (reverse l1)), (lookup_ge_None_2 (reverse (zip_with f l1 l2))) by (rewrite length_reverse; lia).
Qed.

(** A word of the result, byte by byte. *)
Lemma word_bitwise (u v : bytes) :
  length u = wordSize -> length v = wordSize -> Forall is_byte u -> Forall is_byte v ->
  reverse (be_bytes wordSize (f (be_val (reverse u)) (be_val (reverse v)))) = zip_with f u v.
Proof.
  intros Hu Hv Bu Bv. rewrite be_bytes_bitwise. unfold wordSize.
  assert (forall w : bytes, length w = wordSize -> Forall is_byte w -> be_bytes 8 (be_val (reverse w)) = reverse w) as Hw.
  { intros w Hl Hb. rewrite <- (be_bytes_be_val (reverse w)) at 2 by by apply Forall_reverse. by rewrite length_reverse, Hl. }
  rewrite !Hw by done. by rewrite zip_with_reverse, reverse_involutive by congruence.
Qed.

(** [dst] with the places from [i] to [i + n] taken from [z]. *)
Definition overlay (dst z : bytes) (i n : nat) : bytes := take i dst ++ take n (drop i z) ++ drop (i + n) dst.

Lemma overlay_nil dst z i : overlay dst z i 0 = dst.
Proof. unfold overlay. by rewrite take_0, app_nil_l, Nat.add_0_r, take_drop. Qed.

Lemma overlay_lookup dst z i n k :
  (i + n <= length z)%nat -> (i + n <= length dst)%nat ->
  overlay dst z i n !! k = if decide (i <= k < i + n)%nat then z !! k else dst !! k.
Proof.
  intros Hz Hd. unfold overlay. rewrite lookup_app, length_take_le by lia. destruct (decide (k < i)%nat).
  - rewrite lookup_take_lt by lia. rewrite decide_False by lia. destruct (dst !! k) eqn:E; [done|]. apply lookup_ge_None in E. lia.
  - rewrite lookup_take_ge by lia. rewrite lookup_app, length_take_le by (rewrite length_drop; lia).
    destruct (decide (k < i + n)%nat).
    + rewrite lookup_take_lt by lia. rewrite lookup_drop, decide_True by lia. replace (i + (k - i))%nat with k by lia.
      destruct (z !! k) eqn:E; [done|]. apply lookup_ge_None in E. lia.
    + rewrite lookup_take_ge by lia. rewrite lookup_drop, decide_False by lia. f_equal. lia.
Qed.

Lemma length_overlay dst z i n : (i + n <= length z)%nat -> (i + n <= length dst)%nat -> length (overlay dst z i n) = length dst.
Proof. intros. unfold overlay. rewrite !length_app, length_take_le, length_take_le, length_drop by (rewrite ?length_drop; lia). lia. Qed.

Lemma overlay_trans dst z i n m :
  (i + n + m <= length z)%nat -> (i + n + m <= length dst)%nat -> overlay (overlay dst z i n) z (i + n) m = overlay dst z i (n + m).
Proof.
  intros Hz Hd. apply list_eq. intros k. rewrite !overlay_lookup by (rewrite ?length_overlay; lia).
  repeat case_decide; done || lia.
Qed.

Lemma bytes_loop_ok n : forall i (dst a b : bytes),
  (i + n <= length a)%nat -> (i + n <= length b)%nat -> (i + n <= length dst)%nat ->
  bytes_loop f n i dst a b = Ok (overlay dst (zip_with f a b) i n).
Proof.
  induction n as [|n IH]; intros i dst a b Ha Hb Hd; cbn [bytes_loop].
  { by rewrite overlay_nil. }
  destruct (lookup_lt_is_Some_2 a i ltac:(lia)) as [x Ex]. destruct (lookup_lt_is_Some_2 b i ltac:(lia)) as [y Ey].
  rewrite Ex, Ey. cbn [of_option obind]. rewrite decide_True by lia. rewrite IH by (rewrite ?length_insert; lia). f_equal.
  apply list_eq. intros k. pose proof (length_zip_with f a b). rewrite !overlay_lookup by (rewrite ?length_insert; lia).
  destruct (decide (k = i)) as [->|Hk]; [|rewrite list_lookup_insert_ne by done; repeat case_decide; done || lia].
  rewrite list_lookup_insert_eq by lia. rewrite decide_False, decide_True by lia. by rewrite lookup_zip_with, Ex, Ey.
Qed.

Lemma get_word_ok (l : bytes) i : (8 * i + 8 <= length l)%nat -> get_word l i = Some (be_val (reverse (take 8 (drop (8 * i) l)))).
Proof. intros H. unfold get_word, wordSize. rewrite decide_True; [done|]. rewrite length_take_le; [done|]. rewrite length_drop. lia. Qed.

Lemma words_loop_ok n : forall i (dst a b : bytes), Forall is_byte a -> Forall is_byte b ->
  (8 * (i + n) <= length a)%nat -> (8 * (i + n) <= length b)%nat -> (8 * (i + n) <= length dst)%nat ->
  words_loop f n i dst a b = Ok (overlay dst (zip_with f a b) (8 * i) (8 * n)).
Proof.
  induction n as [|n IH]; intros i dst a b Ba Bb Ha Hb Hd; cbn [words_loop].
  { by rewrite Nat.mul_0_r, overlay_nil. }
  pose proof (length_zip_with f a b). rewrite !get_word_ok by lia. cbn [of_option obind]. unfold set_word.
  rewrite decide_True by (unfold wordSize; lia). cbn [of_option obind].
  rewrite word_bitwise by (rewrite ?length_take_le by (rewrite length_drop; lia); done || by apply Forall_take, Forall_drop).
  rewrite <- zip_with_take, <- zip_with_drop. unfold wordSize. fold (overlay dst (zip_with f a b) (8 * i) 8).
  rewrite IH by (rewrite ?length_overlay by lia; done || lia). f_equal.
  replace (8 * S i)%nat with (8 * i + 8)%nat by lia. rewrite overlay_trans by lia. f_equal. lia.
Qed.

Lemma fast_op_safe (dst a b : bytes) :
  Forall is_byte a -> Forall is_byte b -> (length a `min` length b <= length dst)%nat ->
  fast_op f dst a b = safe_op f dst a b /\
  safe_op f dst a b = Ok (zip_with f a b ++ drop (length a `min` length b) dst, length a `min` length b)%nat.
Proof.
  intros Ba Bb Hd. unfold fast_op, safe_op, wordSize. set (n := if decide _ then _ else _).
  assert (n = length a `min` length b)%nat as En by (unfold n; case_decide; lia). rewrite <- En in Hd |- *. clearbody n.
  pose proof (Nat.div_mod_eq n 8). pose proof (Nat.mod_upper_bound n 8 ltac:(lia)). pose proof (length_zip_with f a b) as Hz.
  rewrite (bytes_loop_ok n) by lia. rewrite words_loop_ok by (done || lia). cbn [obind].
  rewrite bytes_loop_ok; [|rewrite ?length_overlay; lia..]. cbn [obind].
  assert (overlay dst (zip_with f a b) 0 n = zip_with f a b ++ drop n dst) as Eo.
  { unfold overlay. rewrite take_0, app_nil_l, drop_0. by rewrite take_ge by lia. }
  split; [|by rewrite Eo]. do 2 f_equal. replace (n - n mod 8)%nat with (8 * 0 + 8 * (n / 8))%nat by lia.
  rewrite overlay_trans by lia. f_equal. lia.
Qed.
End bitwise.

(** The word-wise operations are the byte-wise ones.  Into a destination with
    room for the result, [fastXORBytes], [fastANDBytes] and [fastORBytes] write
    what the byte loops write, which is the operation on each pair of bytes, for
    any lengths of the operands, and return the same count. *)
Theorem fast_bytes_safe (dst a b : bytes) :
  Forall is_byte a -> Forall is_byte b -> (length a `min` length b <= length dst)%nat ->
  let n := (length a `min` length b)%nat in
  (fastXORBytes dst a b = safeXORBytes dst a b /\ safeXORBytes dst a b = Ok (zip_with Z.lxor a b ++ drop n dst, n)) /\
  (fastANDBytes dst a b = safeANDBytes dst a b /\ safeANDBytes dst a b = Ok (zip_with Z.land a b ++ drop n dst, n)) /\
  (fastORBytes dst a b = safeORBytes dst a b /\ safeORBytes dst a b = Ok (zip_with Z.lor a b ++ drop n dst, n)).
Proof. intros Ha Hb Hd. split; [|split]; exact (fast_op_safe _ dst a b Ha Hb Hd). Qed.

Lemma fast_bytes_safe_witness :
  fastXORBytes (zeros 12) [1; 2; 3; 4; 5; 6; 7; 8; 9; 10] [255; 0; 255; 0; 255; 0; 255; 0; 255; 0; 255] =
  Ok ([254; 2; 252; 4; 250; 6; 248; 8; 246; 10; 0; 0], 10%nat).
Proof.
  refine (eq_trans (proj1 (proj1 (fast_bytes_safe (zeros 12) [1; 2; 3; 4; 5; 6; 7; 8; 9; 10] [255; 0; 255; 0; 255; 0; 255; 0; 255; 0; 255] _ _ _))) _).
  - repeat (apply Forall_cons_2; [unfold is_byte; lia|]). apply Forall_nil_2.
  - repeat (apply Forall_cons_2; [unfold is_byte; lia|]). apply Forall_nil_2.
  - vm_compute. lia.
  - reflexivity.
Defined.

(** ** Compression and back *)

(** Bit [j] of a bitset, high bits first. *)
Definition bit_at (bs : bytes) (j : nat) : bool := Z.testbit (nth (j / 8) bs 0) (7 - Z.of_nat (j mod 8)).

Lemma bit_mask j : u8 (Z.shiftl 1 (7 - Z.of_nat (j mod 8))) = 2 ^ (7 - Z.of_nat (j mod 8)) /\ 0 <= 7 - Z.of_nat (j mod 8) < 8.
Proof.
  pose proof (Nat.mod_upper_bound j 8 ltac:(lia)) as H. set (k := (j mod 8)%nat) in *. split; [|lia].
  do 8 (destruct k as [|k]; [reflexivity|]). lia.
Qed.

Lemma land_pow2 x k : 0 <= k -> (Z.land x (2 ^ k) =? 0) = negb (Z.testbit x k).
Proof.
  intros Hk. destruct (Z.testbit x k) eqn:E; cbn [negb].
  - apply Z.eqb_neq. intros H. assert (Z.testbit (Z.land x (2 ^ k)) k = false) as F by (rewrite H; apply Z.bits_0).
    by rewrite Z.land_spec, E, Z.pow2_bits_true in F by lia.
  - apply Z.eqb_eq. apply Z.bits_inj'. intros i Hi. rewrite Z.land_spec, Z.bits_0.
    destruct (decide (i = k)) as [->|Hne]; [by rewrite E|]. by rewrite Z.pow2_bits_false, andb_false_r by lia.
Qed.

(** Setting bit [i]. *)
Lemma bit_at_set bs i x j :
  bs !! (i / 8)%nat = Some x ->
  bit_at (<[(i / 8)%nat := Z.lor x (u8 (Z.shiftl 1 (7 - Z.of_nat (i mod 8))))]> bs) j = bit_at bs j || bool_decide (j = i).
Proof.
  intros Ex. destruct (bit_mask i) as [-> Hi]. destruct (bit_mask j) as [_ Hj]. unfold bit_at. rewrite !nth_lookup.
  destruct (decide (j / 8 = i / 8)%nat) as [E|E].
  - rewrite E, list_lookup_insert_eq by (by eapply lookup_lt_Some). rewrite Ex. cbn [default from_option id].
    rewrite Z.lor_spec, Z.pow2_bits_eqb by lia. f_equal.
    pose proof (Nat.div_mod_eq i 8). pose proof (Nat.div_mod_eq j 8).
    destruct (Z.eqb_spec (7 - Z.of_nat (i mod 8)) (7 - Z.of_nat (j mod 8))); symmetry; [apply bool_decide_eq_true|apply bool_decide_eq_false]; lia.
  - rewrite list_lookup_insert_ne by done. rewrite bool_decide_eq_false_2, orb_false_r by congruence. done.
Qed.

Definition nonzero (b : Z) : bool := negb (b =? 0).
Definition nonzeros (l : bytes) : bytes := List.filter nonzero l.

Lemma encode_loop_ok data : forall i bs nz,
  (i + length data <= 8 * length bs)%nat ->
  exists bs', encode_loop data i bs nz = Ok (bs', nz ++ nonzeros data) /\ length bs' = length bs /\
    forall j, bit_at bs' j = bit_at bs j || (bool_decide (i <= j)%nat && nonzero (nth (j - i) data 0)).
Proof.
  induction data as [|b data IH]; intros i bs nz Hl; cbn [encode_loop].
  { exists bs. rewrite app_nil_r. split_and!; try done. intros j. by rewrite (nth_overflow []), andb_false_r, orb_false_r by (cbn; lia). }
  cbn [length] in Hl. assert (forall j, (i < j)%nat -> nth (j - i) (b :: data) 0 = nth (j - S i) data 0) as Hnth.
  { intros j Hj. replace (j - i)%nat with (S (j - S i)) by lia. done. }
  destruct (Z.eqb_spec b 0) as [->|Hne].
  - destruct (IH (S i) bs nz ltac:(lia)) as (bs' & E & L & H). exists bs'. split_and!; try done. intros j. rewrite H.
    f_equal. destruct (lt_eq_lt_dec i j) as [[Hij|<-]|Hij].
    + by rewrite !bool_decide_eq_true_2, Hnth by lia.
    + rewrite bool_decide_eq_false_2, bool_decide_eq_true_2 by lia. by rewrite Nat.sub_diag.
    + by rewrite !bool_decide_eq_false_2 by lia.
  - pose proof (Nat.div_mod_eq i 8). pose proof (Nat.mod_upper_bound i 8 ltac:(lia)).
    destruct (lookup_lt_is_Some_2 bs (i / 8)%nat ltac:(lia)) as [x Ex]. rewrite Ex. cbn [of_option obind].
    set (bs1 := <[_ := _]> bs). destruct (IH (S i) bs1 (nz ++ [b])) as (bs' & E & L & Hbit).
    { unfold bs1. rewrite length_insert. lia. }
    exists bs'. unfold bs1 in L. rewrite length_insert in L. split_and!; try done.
    + rewrite E. unfold nonzeros. cbn [List.filter]. unfold nonzero at 2. destruct (Z.eqb_spec b 0); [done|]. cbn [negb]. by rewrite <- app_assoc.
    + intros j. rewrite Hbit. unfold bs1. rewrite bit_at_set by done. rewrite <- orb_assoc. f_equal.
      destruct (lt_eq_lt_dec i j) as [[Hij|<-]|Hij].
      * rewrite bool_decide_eq_false_2 by lia. by rewrite !bool_decide_eq_true_2, Hnth by lia.
      * rewrite (bool_decide_eq_true_2 (i = i)), (bool_decide_eq_true_2 (i <= i)%nat) by lia. rewrite Nat.sub_diag. cbn [nth orb andb]. unfold nonzero. by destruct (Z.eqb_spec b 0).
      * by rewrite !bool_decide_eq_false_2 by lia.
Qed.

Lemma bit_at_zeros n j : bit_at (replicate n 0) j = false.
Proof.
  unfold bit_at. rewrite nth_lookup. destruct (replicate n 0 !! (j / 8)%nat) as [x|] eqn:E; [|apply Z.bits_0].
  apply lookup_replicate in E as [-> _]. apply Z.bits_0.
Qed.

Lemma nonzeros_cons b l : nonzeros (b :: l) = (if nonzero b then [b] else []) ++ nonzeros l.
Proof. unfold nonzeros. cbn [List.filter]. by destruct (nonzero b). Qed.

Lemma nonzeros_nil l : nonzeros l = [] -> l = replicate (length l) 0.
Proof.
  induction l as [|b l IH]; [done|]. rewrite nonzeros_cons. unfold nonzero. destruct (Z.eqb_spec b 0) as [->|]; [|done].
  cbn [negb app length replicate]. intros H. by rewrite <- IH.
Qed.

(** The decoder writes the bytes the bitset announces back to their places. *)
Lemma decode_loop_ok bs (d s rest : bytes) :
  (length d <= 8 * length bs)%nat -> (forall j, bit_at bs j = nonzero (nth j d 0)) ->
  forall n i decomp ptr, (i + n = 8 * length bs)%nat -> drop ptr s = nonzeros (drop i d) ++ rest ->
  (forall k, decomp !! k = if decide (k < i)%nat then d !! k else (fun _ => 0) <$> d !! k) ->
  decode_loop n i bs s decomp ptr = Ok (inl (d, ptr + length (nonzeros (drop i d)))%nat).
Proof.
  intros Hl Hbit n. induction n as [|n IH]; intros i decomp ptr Hi Hs Hd; cbn [decode_loop].
  { rewrite drop_ge by lia. cbn [nonzeros List.filter length]. rewrite Nat.add_0_r. do 3 f_equal. apply list_eq. intros k. rewrite Hd.
    case_decide; [done|]. by rewrite lookup_ge_None_2 by lia. }
  pose proof (Nat.div_mod_eq i 8). pose proof (Nat.mod_upper_bound i 8 ltac:(lia)).
  destruct (lookup_lt_is_Some_2 bs (i / 8)%nat ltac:(lia)) as [x Ex]. rewrite Ex. cbn [of_option obind].
  destruct (bit_mask i) as [-> Hm]. rewrite land_pow2 by lia. pose proof (Hbit i) as Hbi. unfold bit_at in Hbi.
  rewrite nth_lookup, Ex in Hbi. cbn [default from_option id] in Hbi. rewrite Hbi. rewrite nth_lookup.
  destruct (d !! i) as [b|] eqn:Eb; cbn [default from_option id].
  - rewrite (drop_S _ _ _ Eb), nonzeros_cons in Hs |- *. destruct (nonzero b) eqn:Nb; cbn [negb].
    + assert (s !! ptr = Some b) as ->.
      { rewrite <- (Nat.add_0_r ptr), <- lookup_drop, Hs. done. }
      assert (length decomp = length d) as Ld.
      { apply Nat.le_antisymm; apply Nat.nlt_ge; intros Hlt; [pose proof (Hd (length d)) as Hk|pose proof (Hd (length decomp)) as Hk].
        - rewrite (lookup_ge_None_2 d) in Hk by lia. destruct (lookup_lt_is_Some_2 decomp _ Hlt) as [? E]. rewrite E in Hk. by case_decide.
        - rewrite (lookup_ge_None_2 decomp) in Hk by lia. destruct (lookup_lt_is_Some_2 d _ Hlt) as [? E]. rewrite E in Hk. by case_decide. }
      pose proof (lookup_lt_Some _ _ _ Eb). rewrite decide_False by lia. unfold nonzero in Nb.
      destruct (Z.eqb_spec b 0); [done|]. rewrite IH; [do 3 f_equal; cbn [app length]; lia|lia| |].
      * replace (S ptr) with (ptr + 1)%nat by lia. by rewrite <- drop_drop, Hs.
      * intros k. destruct (decide (k = i)) as [->|Hk].
        { by rewrite list_lookup_insert_eq, decide_True by lia. }
        rewrite list_lookup_insert_ne, Hd by done. repeat case_decide; done || lia.
    + rewrite IH; [done|lia|done|]. intros k. rewrite Hd. unfold nonzero in Nb. apply negb_false_iff, Z.eqb_eq in Nb.
      destruct (decide (k = i)) as [->|]; [|repeat case_decide; done || lia]. rewrite decide_False, decide_True by lia. by rewrite Eb, Nb.
  - apply lookup_ge_None in Eb. change (nonzero 0) with false. cbn [negb]. rewrite (drop_ge d i) in Hs |- * by lia.
    rewrite IH; [by rewrite (drop_ge d) by lia|lia|by rewrite (drop_ge d) by lia|]. intros k. rewrite Hd.
    repeat case_decide; try done; try lia. by rewrite lookup_ge_None_2 by lia.
Qed.

Lemma half_len n : (2 <= n)%nat -> ((n + 7) / 8 < n /\ n <= 8 * ((n + 7) / 8) /\ 0 < (n + 7) / 8)%nat.
Proof. intros H. pose proof (Nat.div_mod_eq (n + 7) 8). pose proof (Nat.mod_upper_bound (n + 7) 8 ltac:(lia)). lia. Qed.

Lemma nonzero_exists l : nonzeros l <> [] <-> exists j, nonzero (nth j l 0) = true.
Proof.
  split.
  - induction l as [|b l IH]; [done|]. rewrite nonzeros_cons. destruct (nonzero b) eqn:E; [by exists 0%nat|].
    cbn [app]. intros H. destruct (IH H) as [j Hj]. by exists (S j).
  - intros [j Hj] E. apply nonzeros_nil in E. rewrite E in Hj. rewrite nth_lookup in Hj.
    destruct (replicate _ _ !! j) as [x|] eqn:Ex; [|done]. by apply lookup_replicate in Ex as [-> _].
Qed.

Lemma bitset_roundtrip fuel : forall data, (length data < fuel)%nat ->
  exists out, bitsetEncodeBytes fuel data = Ok out /\ (nonzeros data = [] -> out = []) /\
    (nonzeros data <> [] -> out <> [] /\ forall fuel' rest, (length data < fuel')%nat ->
      bitsetDecodePartialBytes fuel' (out ++ rest) (length data) = Ok (inl (data, length out))).
Proof.
  induction fuel as [|fuel IH]; intros data Hf; [lia|].
  destruct data as [|b0 [|b1 data]].
  { exists []. split_and!; done. }
  { cbn [bitsetEncodeBytes]. rewrite nonzeros_cons. unfold nonzero. destruct (Z.eqb_spec b0 0) as [->|Hne]; cbn [negb app].
    - exists []. split_and!; done.
    - exists [b0]. split_and!; [done|done|]. intros _. split; [done|]. intros [|fuel'] rest Hf'; [lia|]. cbn [bitsetDecodePartialBytes app length].
      rewrite decide_False, decide_True by lia. by destruct (Z.eqb_spec b0 0). }
  cbn [bitsetEncodeBytes]. set (d := b0 :: b1 :: data) in *. assert (2 <= length d)%nat as H2 by (cbn [d length]; lia).
  destruct (half_len _ H2) as (Hlt & Hle & Hpos). set (m := ((length d + 7) / 8)%nat) in *.
  destruct (encode_loop_ok d 0 (replicate m 0) []) as (bs & E & L & Hbit); [rewrite length_replicate; lia|].
  rewrite length_replicate in L. rewrite E. cbn [obind app]. assert (forall j, bit_at bs j = nonzero (nth j d 0)) as Hbits.
  { intros j. rewrite Hbit, bit_at_zeros, bool_decide_eq_true_2, Nat.sub_0_r by lia. done. }
  destruct (decide (length (nonzeros d) = 0%nat)) as [Hz|Hz].
  { exists []. apply nil_length_inv in Hz. split_and!; done. }
  assert (nonzeros d <> []) as Hnz by (intros En; by rewrite En in Hz).
  assert (nonzeros bs <> []) as Hnb.
  { apply nonzero_exists in Hnz as [j Hj]. apply nonzero_exists. exists (j / 8)%nat. rewrite <- Hbits in Hj. unfold bit_at in Hj.
    unfold nonzero. destruct (Z.eqb_spec (nth (j / 8) bs 0) 0) as [E0|]; [|done]. by rewrite E0, Z.bits_0 in Hj. }
  destruct (IH bs ltac:(lia)) as (out & Eo & _ & Hout). rewrite Eo. destruct (Hout Hnb) as [Hne Hdec].
  cbn [obind]. exists (out ++ nonzeros d). split_and!; [done|done|]. intros _. split; [by destruct out|].
  intros [|fuel'] rest Hf'; [lia|]. cbn [bitsetDecodePartialBytes]. rewrite decide_False by lia.
  destruct out as [|o out]; [done|]. cbn [app]. rewrite decide_False by lia. fold m. rewrite <- L.
  change (o :: (out ++ nonzeros d) ++ rest) with (((o :: out) ++ nonzeros d) ++ rest). rewrite <- app_assoc, Hdec by lia. cbn [obind].
  rewrite (decode_loop_ok bs d _ rest); [|lia|exact Hbits|done| |].
  - rewrite drop_0. cbn [app length]. by rewrite length_app.
  - rewrite drop_app_length, drop_0. done.
  - intros k. rewrite decide_False by lia. clearbody d. destruct (d !! k) as [x|] eqn:Ek; cbn [fmap option_fmap option_map].
    + rewrite lookup_replicate_2; [done|]. by eapply lookup_lt_Some.
    + apply lookup_ge_None in Ek. apply lookup_ge_None_2. by rewrite length_replicate.
Qed.

(** Compression is lossless.  [CompressBytes] returns for every input, never
    more than the input, and [DecompressBytes] with the length of the input gives
    the input back. *)
Lemma compress_roundtrip (data : bytes) :
  exists out, CompressBytes data = Ok out /\ (length out <= length data)%nat /\ DecompressBytes out (length data) = Ok (inl data).
Proof.
  destruct (bitset_roundtrip (S (length data)) data ltac:(lia)) as (out & E & Hz & Hnz). unfold CompressBytes. rewrite E. cbn [obind].
  destruct (decide (length out < length data)%nat) as [Hl|Hl].
  - exists out. split_and!; [done|lia|]. unfold DecompressBytes. rewrite decide_False, decide_False by lia. unfold bitsetDecodeBytes.
    destruct (decide (nonzeros data = [])) as [E0|E0].
    + rewrite (Hz E0). cbn [bitsetDecodePartialBytes]. rewrite decide_False by lia. cbn [obind length]. by rewrite <- (nonzeros_nil data E0).
    + destruct (Hnz E0) as [_ Hdec]. specialize (Hdec (S (length data)) [] ltac:(lia)). rewrite app_nil_r in Hdec. rewrite Hdec.
      cbn [obind]. by rewrite decide_True.
  - exists data. split_and!; [done|lia|]. unfold DecompressBytes. by rewrite decide_False, decide_True by lia.
Qed.

(** ** Testing for a bit *)

Fixpoint test_words (n i : nat) (p : bytes) : outcome bool :=
  match n with
  | O => Ok false
  | S n => w <- of_option PanicIndex (get_word p i) ;; if negb (w =? 0) then Ok true else test_words n (S i) p
  end.

Definition safeTestBytes (p : bytes) : bool := existsb (fun b => negb (b =? 0)) p.

Definition fastTestBytes (p : bytes) : outcome bool :=
  let n := length p in
  let w := (n / wordSize)%nat in
  r <- test_words w 0 p ;;
  if r then Ok true else Ok (safeTestBytes (drop (n - n mod wordSize) p)).

Lemma be_val_zero l : Forall is_byte l -> be_val l = 0 <-> existsb (fun b => negb (b =? 0)) l = false.
Proof.
  induction 1 as [|b l Hb Hl IH]; [done|]. rewrite be_val_cons. cbn [existsb]. rewrite orb_false_iff, negb_false_iff, Z.eqb_eq, <- IH.
  pose proof (be_val_bound l Hl). pose proof (Z.pow_pos_nonneg 256 (zlen l) ltac:(lia) (zlen_nonneg l)). unfold is_byte in Hb. nia.
Qed.

Lemma existsb_reverse {A} (f : A -> bool) l : existsb f (reverse l) = existsb f l.
Proof.
  induction l as [|x l IH]; [done|]. rewrite reverse_cons, existsb_app, IH. cbn [existsb]. rewrite orb_false_r. apply orb_comm.
Qed.

Lemma fastTestBytes_safe p : Forall is_byte p -> fastTestBytes p = Ok (safeTestBytes p).
Proof.
  intros Hp. unfold fastTestBytes, wordSize. pose proof (Nat.div_mod_eq (length p) 8) as Hn.
  pose proof (Nat.mod_upper_bound (length p) 8 ltac:(lia)) as Hm.
  assert (forall n i, (8 * (i + n) <= length p)%nat -> test_words n i p = Ok (safeTestBytes (take (8 * n) (drop (8 * i) p)))) as Hw.
  { intros n. induction n as [|n IH]; intros i Hi; [done|]. cbn [test_words]. rewrite get_word_ok by lia. cbn [of_option obind].
    replace (8 * S n)%nat with (8 + 8 * n)%nat by lia. rewrite <- take_take_drop, drop_drop.
    unfold safeTestBytes. rewrite existsb_app.
    assert (Forall is_byte (reverse (take 8 (drop (8 * i) p)))) as Hb by (by apply Forall_reverse, Forall_take, Forall_drop).
    pose proof (be_val_zero _ Hb) as Hz. rewrite existsb_reverse in Hz. destruct (Z.eqb_spec (be_val (reverse (take 8 (drop (8 * i) p)))) 0) as [E|E]; cbn [negb].
    - rewrite (proj1 Hz E). cbn [orb]. rewrite IH by lia. unfold safeTestBytes. do 4 f_equal. lia.
    - destruct (existsb _ (take 8 _)) eqn:Ex; [done|]. by rewrite Hz in E. }
  rewrite Hw by lia. cbn [obind]. rewrite drop_0. replace (length p - length p mod 8)%nat with (8 * (length p / 8))%nat by lia.
  assert (safeTestBytes p = safeTestBytes (take (8 * (length p / 8)) p) || safeTestBytes (drop (8 * (length p / 8)) p)) as ->.
  { unfold safeTestBytes. by rewrite <- existsb_app, take_drop. }
  by destruct (safeTestBytes (take _ p)).
Qed.
