(* ===== verification/Types.v ===== *)
(** * Headers

    [core/types/block.go]: the header of a block, its encoding and its hash.  A
    big integer behind a pointer is [option Z]; arrays of bytes that are compared
    or indexed are byte strings.  The theorem: a header hash commits to every
    field of the header. *)

From Stdlib Require Import ZArith Lia.
From stdpp Require Import list.
From S2P Require Import Prelude Common Rlp Crypto RlpStream RlpSpec RlpDecode RlpTheorems.

Open Scope go_scope.

Abbreviation Bloom := (list Z) (only parsing).         (* [256]byte *)
Abbreviation BlockNonce := (list Z) (only parsing).    (* [8]byte *)

Definition EncodeNonce (i : Z) : BlockNonce := be_bytes 8 i.
Definition BlockNonce_Uint64 (n : BlockNonce) : Z := be_val n.

Record Header := MkHeader {
  h_ParentHash : Hash;
  h_UncleHash : Hash;
  h_Coinbase : Address;
  h_Root : Hash;
  h_TxHash : Hash;
  h_ReceiptHash : Hash;
  h_Bloom : Bloom;
  h_Difficulty : option Z;
  h_Number : option Z;
  h_GasLimit : Z;
  h_GasUsed : Z;
  h_Time : Z;
  h_Extra : bytes;
  h_MixDigest : Hash;
  h_Nonce : BlockNonce;
}.

(** Dereferencing a [*big.Int]. *)
Definition deref (x : option Z) : outcome Z := of_option PanicNil x.

(** [x.Uint64()] is the low word of the absolute value. *)
Definition Uint64 (x : Z) : Z := u64 (Z.abs x).
Definition BitLen (x : Z) : Z := if x =? 0 then 0 else Z.log2 (Z.abs x) + 1.

(** A [*big.Int] in a struct: nil is encoded as the empty string. *)
Definition big_rval (x : option Z) : rval := match x with Some x => VBigInt x | None => VNilPtr KString end.

(** The fields of a header without those of the seal, as [SealHash] and the
    encoder list them. *)
Definition header_fields (h : Header) : list rval :=
  [VByteArray (Hash_Bytes (h_ParentHash h)); VByteArray (Hash_Bytes (h_UncleHash h)); VByteArray (Address_Bytes (h_Coinbase h));
   VByteArray (Hash_Bytes (h_Root h)); VByteArray (Hash_Bytes (h_TxHash h)); VByteArray (Hash_Bytes (h_ReceiptHash h));
   VByteArray (h_Bloom h); big_rval (h_Difficulty h); big_rval (h_Number h); VUint (h_GasLimit h); VUint (h_GasUsed h);
   VUint (h_Time h); VBytes (h_Extra h)].

Definition header_rval (h : Header) : rval :=
  VList (header_fields h ++ [VByteArray (Hash_Bytes (h_MixDigest h)); VByteArray (h_Nonce h)]).

(** ** Hashes *)

Section hashes.
Context {K : Keccak}.

(** [rlpHash]: an error of the encoder is dropped, and nothing is hashed then. *)
Definition rlpHash (x : rval) : Hash := Keccak256Hash (default [] (Encode x)).

Definition Header_Hash (h : Header) : Hash := rlpHash (header_rval h).

Definition EmptyUncleHash : Hash := rlpHash (VList []).
Definition EmptyRootHash : Hash := 39309028074332508661983559455579427211983204215636056653337583610388178777121.

Definition CalcUncleHash (uncles : list Header) : Hash :=
  match uncles with
  | [] => EmptyUncleHash
  | _ => rlpHash (VList (map header_rval uncles))
  end.

Definition EmptyBody (h : Header) : bool := (h_TxHash h =? EmptyRootHash) && (h_UncleHash h =? EmptyUncleHash).
Definition EmptyReceipts (h : Header) : bool := h_ReceiptHash h =? EmptyRootHash.
End hashes.

Inductive sanity_error := LargeNumber (bitlen : Z) | LargeDifficulty (bitlen : Z) | LargeExtra (size : Z).

Definition SanityCheck (h : Header) : option sanity_error :=
  if match h_Number h with Some n => (n <? 0) || (two64 <=? n) | None => false end
  then Some (LargeNumber (BitLen (default 0 (h_Number h))))
  else if match h_Difficulty h with Some d => 80 <? BitLen d | None => false end
  then Some (LargeDifficulty (BitLen (default 0 (h_Difficulty h))))
  else if 100 * 1024 <? zlen (h_Extra h) then Some (LargeExtra (zlen (h_Extra h)))
  else None.

(** [CopyHeader]: the integers and the extra data are copied; a missing integer
    becomes zero. *)
Definition CopyHeader (h : Header) : Header :=
  MkHeader (h_ParentHash h) (h_UncleHash h) (h_Coinbase h) (h_Root h) (h_TxHash h) (h_ReceiptHash h) (h_Bloom h)
    (Some (default 0 (h_Difficulty h))) (Some (default 0 (h_Number h))) (h_GasLimit h) (h_GasUsed h) (h_Time h) (h_Extra h)
    (h_MixDigest h) (h_Nonce h).

(** ** The hash commits to the header *)

Definition header_type : rtype :=
  TStruct ([TByteArray 32; TByteArray 32; TByteArray 20; TByteArray 32; TByteArray 32; TByteArray 32; TByteArray 256; TBigInt; TBigInt;
            TUint 64; TUint 64; TUint 64; TBytes] ++ [TByteArray 32; TByteArray 8]) None.

(** The values the fields of a header take: arrays have their lengths, integers
    are there and not negative. *)
Record header_ok (h : Header) : Prop := MkHeaderOk {
  ok_ParentHash : is_hash (h_ParentHash h);
  ok_UncleHash : is_hash (h_UncleHash h);
  ok_Coinbase : is_address (h_Coinbase h);
  ok_Root : is_hash (h_Root h);
  ok_TxHash : is_hash (h_TxHash h);
  ok_ReceiptHash : is_hash (h_ReceiptHash h);
  ok_Bloom : bytes_n 256 (h_Bloom h);
  ok_Difficulty : exists d, h_Difficulty h = Some d /\ 0 <= d;
  ok_Number : exists n, h_Number h = Some n /\ 0 <= n;
  ok_GasLimit : is_u64 (h_GasLimit h);
  ok_GasUsed : is_u64 (h_GasUsed h);
  ok_Time : is_u64 (h_Time h);
  ok_Extra : Forall is_byte (h_Extra h);
  ok_MixDigest : is_hash (h_MixDigest h);
  ok_Nonce : bytes_n 8 (h_Nonce h);
  ok_size : zlen (rlp (header_rval h)) <= data_max;
}.

(** Two values of a type with the same encoding are the same. *)
Lemma rlp_inj t v1 v2 : supported t -> has_type t v1 -> has_type t v2 -> zlen (rlp v1) <= data_max -> rlp v1 = rlp v2 -> v1 = v2.
Proof.
  intros Ht H1 H2 Hl E. assert (data_ok (rlp v1)) as Hd by (split; [by apply rlp_bytes, Hl; eapply has_type_encodable|done]).
  pose proof (DecodeBytes_complete (S (length (rlp v1))) t _ Ht Hd ltac:(lia) v1 H1 eq_refl) as E1.
  pose proof (DecodeBytes_complete (S (length (rlp v1))) t _ Ht Hd ltac:(lia) v2 H2 (eq_sym E)) as E2. congruence.
Qed.

Lemma rlpHash_rlp {K : Keccak} t v : supported t -> has_type t v -> zlen (rlp v) <= data_max -> rlpHash v = Keccak256Hash (rlp v).
Proof. intros Ht Hv Hl. unfold rlpHash. by rewrite (Encode_rlp v (has_type_encodable t v Ht Hv) Hl). Qed.

(** The two inputs are not a collision of the hash function. *)
Definition no_collision {K : Keccak} (b1 b2 : bytes) : Prop := Keccak256Hash b1 = Keccak256Hash b2 -> b1 = b2.

Lemma rlpHash_inj {K : Keccak} t v1 v2 :
  supported t -> has_type t v1 -> has_type t v2 -> zlen (rlp v1) <= data_max -> zlen (rlp v2) <= data_max ->
  no_collision (rlp v1) (rlp v2) -> rlpHash v1 = rlpHash v2 -> v1 = v2.
Proof.
  intros Ht H1 H2 L1 L2 Hk E. rewrite !(rlpHash_rlp t) in E by done. apply Hk in E. by eapply rlp_inj.
Qed.

Lemma Hash_Bytes_ok h : Forall is_byte (Hash_Bytes h) /\ zlen (Hash_Bytes h) = Z.of_nat 32.
Proof. split; [apply be_bytes_is_byte|apply zlen_be_bytes]. Qed.
Lemma Address_Bytes_ok a : Forall is_byte (Address_Bytes a) /\ zlen (Address_Bytes a) = Z.of_nat 20.
Proof. split; [apply be_bytes_is_byte|apply zlen_be_bytes]. Qed.

Lemma rlp_elem_le v l : v ∈ l -> zlen (rlp v) <= zlen (rlp (VList l)).
Proof.
  intros Hin. assert (zlen (rlp v) <= zlen (concat (map rlp l))) as Hc.
  { induction Hin as [v l|v w l _ IH]; cbn [map concat]; rewrite zlen_app; [pose proof (zlen_nonneg (concat (map rlp l))); lia|pose proof (zlen_nonneg (rlp w)); lia]. }
  change (rlp (VList l)) with (rlp_list (concat (map rlp l))). unfold rlp_list. rewrite zlen_app.
  pose proof (zlen_nonneg (rlp_head 192 (zlen (concat (map rlp l))))). lia.
Qed.

(** The extra data is as short as the encoding of the header. *)
Lemma extra_short h : header_ok h -> zlen (h_Extra h) < two64.
Proof.
  intros H. pose proof (ok_size h H) as Hs. pose proof (rlp_string_shorter (h_Extra h)) as He.
  assert (zlen (rlp (VBytes (h_Extra h))) <= zlen (rlp (header_rval h))) as Hle.
  { apply rlp_elem_le. apply elem_of_app. left. unfold header_fields. do 12 apply list_elem_of_further. apply list_elem_of_here. }
  change (rlp (VBytes (h_Extra h))) with (rlp_string (h_Extra h)) in Hle. unfold data_max, two64 in *. lia.
Qed.

Lemma header_supported : supported header_type.
Proof. cbn. unfold uint_bits. split_and!; try done; auto 10. Qed.

Lemma hash_has_type h : has_type (TByteArray 32) (VByteArray (Hash_Bytes h)).
Proof. eexists. split; [done|apply Hash_Bytes_ok]. Qed.
Lemma address_has_type a : has_type (TByteArray 20) (VByteArray (Address_Bytes a)).
Proof. eexists. split; [done|apply Address_Bytes_ok]. Qed.
Lemma array_has_type n b : bytes_n (Z.of_nat n) b -> has_type (TByteArray n) (VByteArray b).
Proof. intros H. by exists b. Qed.
Lemma u64_has_type i : is_u64 i -> has_type (TUint 64) (VUint i).
Proof. intros H. by exists i. Qed.
Lemma big_has_type i : 0 <= i -> has_type TBigInt (VBigInt i).
Proof. intros H. by exists i. Qed.
Lemma bytes_has_type b : Forall is_byte b -> has_type TBytes (VBytes b).
Proof. intros H. by exists b. Qed.

Lemma struct_has_type ts vs : Forall2 has_type ts vs -> has_type (TStruct ts None) (VList vs).
Proof.
  intros H. eexists. split; [done|]. exists vs, []. split; [by rewrite app_nil_r|]. split; [|done].
  induction H as [|t v ts vs Hv _ IH]; cbn [map]; [apply Forall2_nil_2|by apply Forall2_cons_2].
Qed.

Lemma header_has_type h : header_ok h -> has_type header_type (header_rval h).
Proof.
  intros []. destruct ok_Difficulty0 as (d & Ed & Hd), ok_Number0 as (n & En & Hn).
  apply struct_has_type. unfold header_fields. rewrite Ed, En. cbn [app big_rval]. clear Ed En ok_size0.
  apply Forall2_cons_2; [apply hash_has_type|]. apply Forall2_cons_2; [apply hash_has_type|]. apply Forall2_cons_2; [apply address_has_type|].
  do 3 (apply Forall2_cons_2; [apply hash_has_type|]). apply Forall2_cons_2; [by apply (array_has_type 256)|].
  do 2 (apply Forall2_cons_2; [by apply big_has_type|]). do 3 (apply Forall2_cons_2; [by apply u64_has_type|]).
  apply Forall2_cons_2; [by apply bytes_has_type|]. apply Forall2_cons_2; [apply hash_has_type|].
  apply Forall2_cons_2; [by apply (array_has_type 8)|]. apply Forall2_nil_2.
Qed.

Lemma VList_cons_inj a b l k : VList (a :: l) = VList (b :: k) -> a = b /\ VList l = VList k.
Proof. intros [= -> ->]. done. Qed.
Lemma VByteArray_inj a b : VByteArray a = VByteArray b -> a = b.
Proof. by intros [= ->]. Qed.

Lemma header_rval_inj h1 h2 : header_ok h1 -> header_ok h2 -> header_rval h1 = header_rval h2 -> h1 = h2.
Proof.
  intros [] [] E. destruct ok_Difficulty0 as (d & Ed & _), ok_Number0 as (n & En & _), ok_Difficulty1 as (d' & Ed' & _), ok_Number1 as (n' & En' & _).
  clear ok_size0 ok_size1. unfold header_rval, header_fields in E. rewrite Ed, En, Ed', En' in E. cbn [app big_rval] in E.
  do 15 (apply VList_cons_inj in E as [? E]). clear E.
  repeat match goal with
  | H : VByteArray (Hash_Bytes _) = _ |- _ => apply VByteArray_inj, Hash_Bytes_inj in H; [|done..]
  | H : VByteArray (Address_Bytes _) = _ |- _ => apply VByteArray_inj, Address_Bytes_inj in H; [|done..]
  | H : VByteArray _ = _ |- _ => apply VByteArray_inj in H
  | H : VUint _ = VUint _ |- _ => injection H as H
  | H : VBytes _ = VBytes _ |- _ => injection H as H
  | H : VBigInt _ = VBigInt _ |- _ => injection H as H
  end.
  destruct h1, h2. cbn [h_ParentHash h_UncleHash h_Coinbase h_Root h_TxHash h_ReceiptHash h_Bloom h_Difficulty h_Number h_GasLimit h_GasUsed
    h_Time h_Extra h_MixDigest h_Nonce] in *. subst. reflexivity.
Qed.

(** A header hash commits to the header: two headers with the same hash agree in
    every field, unless their encodings are a collision of the hash function. *)
Lemma Header_Hash_binding {K : Keccak} (h1 h2 : Header) :
  header_ok h1 -> header_ok h2 -> no_collision (rlp (header_rval h1)) (rlp (header_rval h2)) -> Header_Hash h1 = Header_Hash h2 -> h1 = h2.
Proof.
  intros H1 H2 Hk E. apply header_rval_inj; [done..|].
  apply (rlpHash_inj header_type); [apply header_supported|by apply header_has_type..|apply H1|apply H2|done|done].
Qed.

Definition ex_header : Header :=
  MkHeader 1 2 3 4 5 6 (zeros 256) (Some 131072) (Some 7) 5000000 21000 1600000000 [76; 84] 8 (EncodeNonce 42).

Lemma ex_header_ok : header_ok ex_header.
Proof.
  split; try (unfold is_hash, is_address, is_u64; cbn; split; [discriminate|reflexivity]).
  - split; [apply Forall_replicate; split; [discriminate|reflexivity]|reflexivity].
  - by exists 131072.
  - by exists 7.
  - repeat (apply Forall_cons_2; [unfold is_byte; cbn; lia|]). apply Forall_nil_2.
  - split; [apply be_bytes_is_byte|reflexivity].
  - vm_compute. discriminate.
Qed.
