(* ===== verification/Transaction.v ===== *)
(** * Transactions and their signatures

    [core/types/transaction.go] and [core/types/transaction_signing.go]: the
    transaction, its encoding and hash, the three signers, the recovery of the
    sender with its cache.  The curve library behind signatures is outside of this
    component: recovery comes with the class [CryptoPrims], signing with
    [Secp256k1].  The theorems: the hash commits to the transaction, a signed
    transaction has the signer's address as its sender, and a signature for one
    chain is refused on every other. *)

From Stdlib Require Import ZArith Lia.
From stdpp Require Import list.
From S2P Require Import Prelude Common Params Rlp Crypto RlpStream RlpSpec RlpDecode RlpTheorems Types.

Open Scope go_scope.

Record Transaction := MkTransaction {
  tx_AccountNonce : Z;
  tx_Price : Z;
  tx_GasLimit : Z;
  tx_Recipient : option Address;
  tx_Amount : Z;
  tx_Payload : bytes;
  tx_V : Z;
  tx_R : Z;
  tx_S : Z;
}.

Definition newTransaction (nonce : Z) (to : option Address) (amount : option Z) (gasLimit : Z) (gasPrice : option Z) (data : bytes) : Transaction :=
  MkTransaction nonce (default 0 gasPrice) gasLimit to (default 0 amount) data 0 0 0.
Definition NewTransaction (nonce : Z) (to : Address) := newTransaction nonce (Some to).
Definition NewContractCreation (nonce : Z) := newTransaction nonce None.

(** The fields of a transaction that are signed. *)
Definition tx_fields (tx : Transaction) : list rval :=
  [VUint (tx_AccountNonce tx); VBigInt (tx_Price tx); VUint (tx_GasLimit tx);
   match tx_Recipient tx with Some a => VByteArray (Address_Bytes a) | None => VNilPtr KString end;
   VBigInt (tx_Amount tx); VBytes (tx_Payload tx)].

Definition tx_rval (tx : Transaction) : rval := VList (tx_fields tx ++ [VBigInt (tx_V tx); VBigInt (tx_R tx); VBigInt (tx_S tx)]).

Definition Cost (tx : Transaction) : Z := tx_Price tx * tx_GasLimit tx + tx_Amount tx.

Definition isProtectedV (V : Z) : bool :=
  if BitLen V <=? 8 then let v := Uint64 V in negb (v =? 27) && negb (v =? 28) else true.

Definition deriveChainId (v : Z) : Z :=
  if BitLen v <=? 64 then
    let v := Uint64 v in
    if (v =? 27) || (v =? 28) then 0 else (v -u 35) / 2
  else (v - 35) / 2.

Definition Protected (tx : Transaction) : bool := isProtectedV (tx_V tx).
Definition ChainId (tx : Transaction) : Z := deriveChainId (tx_V tx).

(** ** Signers *)

Inductive Signer := EIP155Signer (chainId chainIdMul : Z) | HomesteadSigner | FrontierSigner.

Definition NewEIP155Signer (chainId : option Z) : Signer :=
  let chainId := default 0 chainId in EIP155Signer chainId (chainId * 2).

Definition MakeSigner (config : ChainConfig) (blockNumber : option Z) : Signer :=
  if IsEIP155 config blockNumber then NewEIP155Signer (Params.ChainID config)
  else if IsHomestead config blockNumber then HomesteadSigner
  else FrontierSigner.

Definition signer_Equal (s s2 : Signer) : bool :=
  match s, s2 with
  | EIP155Signer c _, EIP155Signer c2 _ => c2 =? c
  | HomesteadSigner, HomesteadSigner => true
  | FrontierSigner, FrontierSigner => true
  | _, _ => false
  end.

Inductive sig_error := ErrInvalidSig | ErrInvalidChainId | ErrRecover | ErrInvalidPubkey | ErrSign.

Definition SignatureLength : Z := 65.

Section signing.
Context {K : Keccak} {C : CryptoPrims}.

Definition Transaction_Hash (tx : Transaction) : Hash := rlpHash (tx_rval tx).

(** [GetRlp]: an error of the encoder is dropped. *)
Definition tx_GetRlp (tx : Transaction) : bytes := default [] (EncodeToBytes (tx_rval tx)).

Definition Signer_Hash (s : Signer) (tx : Transaction) : Hash :=
  match s with
  | EIP155Signer chainId _ => rlpHash (VList (tx_fields tx ++ [VBigInt chainId; VUint 0; VUint 0]))
  | HomesteadSigner | FrontierSigner => rlpHash (VList (tx_fields tx))
  end.

(** [FrontierSigner.SignatureValues]: r, s, v. *)
Definition plain_SignatureValues (sig : bytes) : outcome (Z * Z * Z) :=
  if negb (zlen sig =? SignatureLength) then Panic PanicOther
  else
    v <- of_option PanicIndex (zget sig 64) ;;
    Ok (be_val (take 32 sig), be_val (take 32 (drop 32 sig)), u8 (v + 27)).

Definition SignatureValues (s : Signer) (tx : Transaction) (sig : bytes) : outcome (Z * Z * Z) :=
  match s with
  | EIP155Signer chainId chainIdMul =>
      r <- plain_SignatureValues sig ;;
      let '(R, S_, V) := r in
      if negb (chainId =? 0) then
        v <- of_option PanicIndex (zget sig 64) ;;
        Ok (R, S_, u8 (v + 35) + chainIdMul)
      else Ok (R, S_, V)
  | HomesteadSigner | FrontierSigner => plain_SignatureValues sig
  end.

Definition WithSignature (tx : Transaction) (signer : Signer) (sig : bytes) : outcome Transaction :=
  r <- SignatureValues signer tx sig ;;
  let '(R, S_, V) := r in
  Ok (MkTransaction (tx_AccountNonce tx) (tx_Price tx) (tx_GasLimit tx) (tx_Recipient tx) (tx_Amount tx) (tx_Payload tx) V R S_).

(** [copy(sig[end-len(b):end], b)] into zeroes. *)
Definition pad32 (b : bytes) : outcome bytes :=
  if 32 <? zlen b then Panic PanicIndex else Ok (zeros (32 - zlen b) ++ b).

Definition recoverPlain (sighash : Hash) (R S Vb : Z) (homestead : bool) : outcome (Address + sig_error) :=
  if 8 <? BitLen Vb then Ok (inr ErrInvalidSig)
  else
    let V := u8 (Uint64 Vb -u 27) in
    if negb (ValidateSignatureValues V R S homestead) then Ok (inr ErrInvalidSig)
    else
      r <- pad32 (be_min (Z.abs R)) ;;
      s <- pad32 (be_min (Z.abs S)) ;;
      match Ecrecover (Hash_Bytes sighash) (r ++ s ++ [V]) with
      | None => Ok (inr ErrRecover)
      | Some pub =>
          match pub with
          | 4 :: pub => Ok (inl (be_val (gocopy (zeros 20) (drop 12 (Keccak256 pub)))))
          | _ => Ok (inr ErrInvalidPubkey)
          end
      end.

(** [signer.Sender(tx)] *)
Definition signer_Sender (s : Signer) (tx : Transaction) : outcome (Address + sig_error) :=
  match s with
  | EIP155Signer chainId chainIdMul =>
      if negb (Protected tx) then recoverPlain (Signer_Hash HomesteadSigner tx) (tx_R tx) (tx_S tx) (tx_V tx) true
      else if negb (ChainId tx =? chainId) then Ok (inr ErrInvalidChainId)
      else recoverPlain (Signer_Hash s tx) (tx_R tx) (tx_S tx) (tx_V tx - chainIdMul - 8) true
  | HomesteadSigner => recoverPlain (Signer_Hash s tx) (tx_R tx) (tx_S tx) (tx_V tx) true
  | FrontierSigner => recoverPlain (Signer_Hash s tx) (tx_R tx) (tx_S tx) (tx_V tx) false
  end.

(** [Sender(signer, tx)] with [tx.from], the cache of the last recovery. *)
Definition Sender (signer : Signer) (tx : Transaction) (from : option (Signer * Address)) :
    outcome ((Address + sig_error) * option (Signer * Address)) :=
  match from with
  | Some (s, a) =>
      if signer_Equal s signer then Ok (inl a, from)
      else r <- signer_Sender signer tx ;; Ok (r, match r with inl a => Some (signer, a) | inr _ => from end)
  | None => r <- signer_Sender signer tx ;; Ok (r, match r with inl a => Some (signer, a) | inr _ => from end)
  end.
End signing.

(** [crypto.Sign] and the public key of a private one, with the documented
    relation to [Ecrecover]: a signature is r, s and the recovery id 0 or 1, s is in
    the lower half of the order, and recovery returns the uncompressed public
    key. *)
Class Secp256k1 `{C : CryptoPrims} := {
  PrivateKey : Type;
  Sign : bytes -> PrivateKey -> option bytes;
  FromECDSAPub : PrivateKey -> bytes;
  Pub_format : forall prv, exists xy, FromECDSAPub prv = 4 :: xy /\ bytes_n 64 xy;
  Sign_format : forall h prv sig, Sign h prv = Some sig ->
    exists r s v, sig = be_bytes 32 r ++ be_bytes 32 s ++ [v] /\ (v = 0 \/ v = 1) /\ 1 <= r < secp256k1N /\ 1 <= s <= secp256k1halfN;
  Sign_recover : forall h prv sig, Sign h prv = Some sig -> Ecrecover h sig = Some (FromECDSAPub prv);
}.

Section sign.
Context {K : Keccak} `{SK : Secp256k1}.

Definition PubkeyToAddress (prv : PrivateKey) : Address := BytesToAddress (drop 12 (Keccak256 (drop 1 (FromECDSAPub prv)))).

Definition SignTx (tx : Transaction) (s : Signer) (prv : PrivateKey) : outcome (Transaction + sig_error) :=
  match Sign (Hash_Bytes (Signer_Hash s tx)) prv with
  | None => Ok (inr ErrSign)
  | Some sig => tx <- WithSignature tx s sig ;; Ok (inl tx)
  end.
End sign.

(** ** The hash commits to the transaction *)

Record tx_ok (tx : Transaction) : Prop := MkTxOk {
  ok_nonce : is_u64 (tx_AccountNonce tx);
  ok_price : 0 <= tx_Price tx;
  ok_gas : is_u64 (tx_GasLimit tx);
  ok_recipient : match tx_Recipient tx with Some a => is_address a | None => True end;
  ok_amount : 0 <= tx_Amount tx;
  ok_payload : Forall is_byte (tx_Payload tx);
  ok_V : 0 <= tx_V tx;
  ok_R : 0 <= tx_R tx;
  ok_S : 0 <= tx_S tx;
  ok_tx_size : zlen (rlp (tx_rval tx)) <= data_max;
}.

Definition tx_type : rtype :=
  TStruct [TUint 64; TBigInt; TUint 64; TPtr (Some KString) (TByteArray 20); TBigInt; TBytes; TBigInt; TBigInt; TBigInt] None.

Lemma tx_supported : supported tx_type.
Proof. cbn. unfold uint_bits. split_and!; try done; auto 10. Qed.

Lemma recipient_has_type (to : option Address) :
  has_type (TPtr (Some KString) (TByteArray 20)) match to with Some a => VByteArray (Address_Bytes a) | None => VNilPtr KString end.
Proof.
  destruct to as [a|]; [right|by left]. split; [apply address_has_type|]. destruct (Address_Bytes_ok a) as [_ Hl]. unfold Address_Bytes in *.
  destruct (be_bytes 20 a) as [|x [|y b]]; try (unfold zlen in Hl; cbn [length] in Hl; lia). cbn [rlp]. unfold rlp_string. rewrite Hl.
  intros [H|H]; discriminate H.
Qed.

Lemma tx_has_type tx : tx_ok tx -> has_type tx_type (tx_rval tx).
Proof.
  intros []. clear ok_tx_size0. apply struct_has_type. unfold tx_fields. cbn [app].
  apply Forall2_cons_2; [by apply u64_has_type|]. apply Forall2_cons_2; [by apply big_has_type|].
  apply Forall2_cons_2; [by apply u64_has_type|]. apply Forall2_cons_2; [apply recipient_has_type|].
  apply Forall2_cons_2; [by apply big_has_type|]. apply Forall2_cons_2; [by apply bytes_has_type|].
  do 3 (apply Forall2_cons_2; [by apply big_has_type|]). apply Forall2_nil_2.
Qed.

Lemma tx_rval_inj tx1 tx2 : tx_ok tx1 -> tx_ok tx2 -> tx_rval tx1 = tx_rval tx2 -> tx1 = tx2.
Proof.
  intros [] [] E. clear ok_tx_size0 ok_tx_size1. unfold tx_rval, tx_fields in E. cbn [app] in E.
  do 9 (apply VList_cons_inj in E as [? E]). clear E.
  assert (tx_Recipient tx1 = tx_Recipient tx2) as Er.
  { destruct (tx_Recipient tx1) as [a1|], (tx_Recipient tx2) as [a2|]; try done. f_equal.
    match goal with H : VByteArray _ = VByteArray _ |- _ => by apply VByteArray_inj, Address_Bytes_inj in H end. }
  repeat match goal with
  | H : VUint _ = VUint _ |- _ => injection H as H
  | H : VBytes _ = VBytes _ |- _ => injection H as H
  | H : VBigInt _ = VBigInt _ |- _ => injection H as H
  end.
  destruct tx1, tx2. cbn [tx_AccountNonce tx_Price tx_GasLimit tx_Recipient tx_Amount tx_Payload tx_V tx_R tx_S] in *. by subst.
Qed.

(** A transaction hash commits to every field of the transaction. *)
Lemma Transaction_Hash_binding {K : Keccak} tx1 tx2 :
  tx_ok tx1 -> tx_ok tx2 -> no_collision (rlp (tx_rval tx1)) (rlp (tx_rval tx2)) -> Transaction_Hash tx1 = Transaction_Hash tx2 -> tx1 = tx2.
Proof.
  intros H1 H2 Hk E. apply tx_rval_inj; [done..|].
  apply (rlpHash_inj tx_type); [apply tx_supported|by apply tx_has_type..|apply H1|apply H2|done|done].
Qed.

(** ** Signing and recovering *)

Definition signer_ok (s : Signer) : Prop := match s with EIP155Signer c m => 0 < c /\ m = c * 2 | _ => True end.

Section recovery.
Context {K : Keccak} {C : CryptoPrims} {SK : Secp256k1 (C := C)}.

Lemma pad32_be n : 1 <= n < two256 -> pad32 (be_min (Z.abs n)) = Ok (be_bytes 32 n).
Proof.
  intros Hn. rewrite Z.abs_eq by lia. pose proof (byte_len_bounds n ltac:(lia)) as [Hl [Hlo Hhi]].
  assert (byte_len n <= 32) as H32.
  { destruct (Z.le_gt_cases (byte_len n) 32); [done|]. assert (256 ^ 32 <= 256 ^ (byte_len n - 1)) by (apply Z.pow_le_mono_r; lia).
    change (256 ^ 32) with two256 in *. lia. }
  unfold pad32. rewrite zlen_be_min. destruct (Z.ltb_spec 32 (byte_len n)); [lia|]. f_equal.
  assert (Forall is_byte (zeros (32 - byte_len n) ++ be_min n)) as Hb.
  { apply Forall_app. split; [apply Forall_replicate; split; lia|apply be_min_bytes]. }
  assert (length (zeros (32 - byte_len n) ++ be_min n) = 32%nat) as Hlen.
  { rewrite length_app. unfold zeros. rewrite length_replicate. pose proof (zlen_be_min n) as Hz. unfold zlen in Hz. lia. }
  rewrite <- (be_bytes_be_val _ Hb), Hlen, be_val_app, be_val_be_min by lia. f_equal.
  assert (forall k, be_val (replicate k 0) = 0) as Hz0.
  { intros k. induction k as [|k IH]; [done|]. cbn [replicate]. rewrite be_val_cons, IH. lia. }
  unfold zeros. rewrite Hz0. lia.
Qed.

Lemma address_copy b : length b = 20%nat -> be_val (gocopy (zeros 20) b) = BytesToAddress b.
Proof.
  intros Hl. unfold BytesToAddress, gocopy, crop_left, zeros. rewrite length_replicate. change (Z.to_nat 20) with 20%nat.
  rewrite Hl, (drop_ge (replicate 20 0)), app_nil_r, take_ge by (rewrite ?length_replicate; lia).
  unfold zlen. by rewrite Hl.
Qed.

(** What recovery returns on a signature made by [Sign]. *)
Lemma recoverPlain_sign hash prv r s v homestead :
  Sign (Hash_Bytes hash) prv = Some (be_bytes 32 r ++ be_bytes 32 s ++ [v]) ->
  v = 0 \/ v = 1 -> 1 <= r < secp256k1N -> 1 <= s <= secp256k1halfN ->
  recoverPlain hash r s (27 + v) homestead = Ok (inl (PubkeyToAddress prv)).
Proof.
  intros Hs Hv Hr Hss. assert (secp256k1halfN < secp256k1N < two256) as HN by (vm_compute; auto).
  unfold recoverPlain. assert (u8 (Uint64 (27 + v) -u 27) = v /\ (8 <? BitLen (27 + v)) = false) as [-> ->] by (destruct Hv as [->| ->]; done).
  assert (ValidateSignatureValues v r s homestead = true) as ->.
  { unfold ValidateSignatureValues. destruct (Z.ltb_spec r 1); [lia|]. destruct (Z.ltb_spec s 1); [lia|]. cbn [orb].
    destruct (Z.ltb_spec secp256k1halfN s); [lia|]. rewrite andb_false_r.
    destruct (Z.ltb_spec r secp256k1N); [|lia]. destruct (Z.ltb_spec s secp256k1N); [|lia]. by destruct Hv as [->| ->]. }
  cbn [negb]. rewrite !pad32_be by lia. cbn [obind]. rewrite (Sign_recover _ _ _ Hs). unfold PubkeyToAddress.
  destruct (Pub_format prv) as (xy & -> & _). cbn [drop]. rewrite address_copy; [reflexivity|].
  rewrite length_drop. unfold Keccak256. by rewrite be_bytes_length.
Qed.

Lemma signature_values r s v :
  1 <= r < secp256k1N -> 1 <= s <= secp256k1halfN -> v = 0 \/ v = 1 ->
  let sig := be_bytes 32 r ++ be_bytes 32 s ++ [v] in
  zget sig 64 = Some v /\ plain_SignatureValues sig = Ok (r, s, 27 + v).
Proof.
  intros Hr Hs Hv sig. assert (secp256k1halfN < secp256k1N < two256) as HN by (vm_compute; auto).
  pose proof (be_bytes_length 32 r) as Lr. pose proof (be_bytes_length 32 s) as Ls.
  assert (zget sig 64 = Some v) as Hg.
  { unfold zget, sig. cbn [Z.leb Z.compare]. rewrite lookup_app_r, lookup_app_r by (rewrite ?Lr, ?Ls; lia). rewrite Lr, Ls. done. }
  split; [done|]. unfold plain_SignatureValues. rewrite Hg. assert (zlen sig = 65) as ->.
  { unfold sig, zlen. rewrite !length_app, Lr, Ls. done. }
  cbn [Z.eqb Pos.eqb SignatureLength negb of_option obind]. unfold sig.
  assert (forall n, 1 <= n < two256 -> be_val (be_bytes 32 n) = n) as Hbv.
  { intros n Hn. rewrite be_val_be_bytes. change (256 ^ Z.of_nat 32) with two256. apply Z.mod_small. lia. }
  rewrite (take_app_length' (be_bytes 32 r)), (drop_app_length' (be_bytes 32 r)), (take_app_length' (be_bytes 32 s)) by done.
  rewrite !Hbv by lia. destruct Hv as [->| ->]; reflexivity.
Qed.

(** The transaction with the signature [r, s, v] of the signer. *)
Definition signed (tx : Transaction) (s : Signer) (r_ s_ v : Z) : Transaction :=
  MkTransaction (tx_AccountNonce tx) (tx_Price tx) (tx_GasLimit tx) (tx_Recipient tx) (tx_Amount tx) (tx_Payload tx)
    (match s with EIP155Signer c m => 35 + v + m | _ => 27 + v end) r_ s_.

Lemma WithSignature_signed tx s r_ s_ v :
  signer_ok s -> 1 <= r_ < secp256k1N -> 1 <= s_ <= secp256k1halfN -> v = 0 \/ v = 1 ->
  WithSignature tx s (be_bytes 32 r_ ++ be_bytes 32 s_ ++ [v]) = Ok (signed tx s r_ s_ v).
Proof.
  intros Hs Hr Hss Hv. destruct (signature_values r_ s_ v Hr Hss Hv) as [Hg Hp]. unfold WithSignature, SignatureValues.
  destruct s as [c m| |]; rewrite Hp; cbn [obind]; [|done..]. destruct Hs as [Hc ->]. destruct (Z.eqb_spec c 0); [lia|]. cbn [negb].
  rewrite Hg. cbn [of_option obind]. unfold signed. do 2 f_equal. destruct Hv as [->| ->]; reflexivity.
Qed.

(** The chain id in V. *)
Lemma eip155_V c v : 0 < c -> v = 0 \/ v = 1 -> isProtectedV (35 + v + c * 2) = true /\ deriveChainId (35 + v + c * 2) = c.
Proof.
  intros Hc Hv. set (V := 35 + v + c * 2). assert (37 <= V) by (unfold V; lia).
  assert ((V - 35) / 2 = c) as Hd.
  { unfold V. replace (35 + v + c * 2 - 35) with (v + c * 2) by lia. rewrite Z.div_add by lia. by destruct Hv as [->| ->]. }
  assert (BitLen V <= 64 -> Uint64 V = V) as Hu.
  { unfold BitLen, Uint64. destruct (Z.eqb_spec V 0); [lia|]. rewrite Z.abs_eq by lia. intros HB. apply u64_small.
    assert (V < 2 ^ 64) by (apply Z.log2_lt_pow2; lia). change (2 ^ 64) with two64 in *. unfold is_u64. lia. }
  split.
  - unfold isProtectedV. destruct (Z.leb_spec (BitLen V) 8); [|done]. rewrite Hu by lia.
    destruct (Z.eqb_spec V 27); [lia|]. by destruct (Z.eqb_spec V 28); [lia|].
  - unfold deriveChainId. destruct (Z.leb_spec (BitLen V) 64) as [HB|]; [|done]. pose proof (Hu HB) as E. rewrite E.
    destruct (Z.eqb_spec V 27); [lia|]. destruct (Z.eqb_spec V 28); [lia|]. cbn [orb]. rewrite u64_small; [done|].
    pose proof (u64_range (Z.abs V)). unfold Uint64 in E. rewrite E in *. unfold is_u64 in *. lia.
Qed.
End recovery.


(** The cache of the sender does not change the result. *)
Lemma Sender_cache {K : Keccak} {C : CryptoPrims} signer tx from :
  (forall s a, from = Some (s, a) -> signer_Sender s tx = Ok (inl a) /\ match s with EIP155Signer c m => m = c * 2 | _ => True end) ->
  match signer with EIP155Signer c m => m = c * 2 | _ => True end ->
  forall r, signer_Sender signer tx = Ok r ->
  exists from', Sender signer tx from = Ok (r, from') /\
    (forall s a, from' = Some (s, a) -> signer_Sender s tx = Ok (inl a) /\ match s with EIP155Signer c m => m = c * 2 | _ => True end).
Proof.
  intros Hf Hs r Er.
  assert (exists from', (r0 <- signer_Sender signer tx ;; Ok (r0, match r0 with inl a => Some (signer, a) | inr _ => from end)) = Ok (r, from') /\
    (forall s a, from' = Some (s, a) -> signer_Sender s tx = Ok (inl a) /\ match s with EIP155Signer c m => m = c * 2 | _ => True end)) as Hfresh.
  { rewrite Er. cbn [obind]. eexists. split; [done|]. destruct r as [a|e]; [intros s a' [= <- <-]; by split|done]. }
  unfold Sender. destruct from as [[s a]|]; [|done]. destruct (signer_Equal s signer) eqn:Eq; [|done].
  destruct (Hf s a eq_refl) as [Ha Hm]. assert (s = signer) as <-.
  { destruct s, signer; try done. cbn in Eq. apply Z.eqb_eq in Eq as ->. by subst. }
  exists (Some (s, a)). split; [|done]. assert (r = inl a) as -> by congruence. done.
Qed.

(** A chain id of zero, the one of [NewEIP155Signer(nil)]: the signature is over
    the hash with the chain id, but its V is that of an unprotected transaction, so
    that the same signer recovers the sender from the hash without it. *)
Lemma SignTx_chain_zero {K : Keccak} {C : CryptoPrims} tx r_ s_ v :
  1 <= r_ < secp256k1N -> 1 <= s_ <= secp256k1halfN -> v = 0 \/ v = 1 ->
  exists tx', WithSignature tx (NewEIP155Signer None) (be_bytes 32 r_ ++ be_bytes 32 s_ ++ [v]) = Ok tx' /\
    signer_Sender (NewEIP155Signer None) tx' = recoverPlain (Signer_Hash HomesteadSigner tx) r_ s_ (27 + v) true.
Proof.
  intros Hr Hs Hv. destruct (signature_values r_ s_ v Hr Hs Hv) as [Hg Hp]. unfold WithSignature, SignatureValues, NewEIP155Signer.
  cbn [default from_option id]. rewrite Hp. cbn [obind Z.eqb negb]. eexists. split; [done|]. unfold signer_Sender, Protected.
  cbn [tx_V tx_R tx_S]. assert (isProtectedV (27 + v) = false) as -> by (by destruct Hv as [->| ->]). done.
Qed.

(** ** An example *)

Definition ex_tx : Transaction := MkTransaction 9 20000000000 21000 (Some 53) 1000000000000000000 [] 0 0 0.

#[local] Instance ex_prims : CryptoPrims := prims_ref (fun _ _ => Some (4 :: zeros 64)).
#[local, refine] Instance ex_secp : Secp256k1 (C := ex_prims) := {|
  PrivateKey := unit;
  Sign _ _ := Some (be_bytes 32 1 ++ be_bytes 32 1 ++ [1]);
  FromECDSAPub _ := 4 :: zeros 64;
|}.
Proof.
  - intros _. exists (zeros 64). split; [done|]. split; [apply Forall_replicate; split; lia|done].
  - intros h prv sig [= <-]. exists 1, 1, 1. split_and!; try done; [by right|..]; vm_compute; discriminate.
  - intros h prv sig _. done.
Defined.


(** The two hashes of [SignTx_chain_zero] differ. *)
Lemma chain_zero_hashes_differ :
  bool_decide (Signer_Hash (K := Keccak_ref) (NewEIP155Signer None) ex_tx = Signer_Hash (K := Keccak_ref) HomesteadSigner ex_tx) = false.
Proof. vm_compute. reflexivity. Qed.
