(* ===== verification/Receipt.v ===== *)
(** * Logs and receipts

    [core/types/log.go] and [core/types/receipt.go]: the outcome of a transaction,
    its consensus encoding, and the encoding the database keeps.  The theorem: both
    encodings are read back into what was written, up to the fields they leave
    out. *)

From Stdlib Require Import ZArith Lia.
From stdpp Require Import list.
From S2P Require Import Prelude Common Rlp Crypto VmState StateDB RlpStream RlpSpec RlpDecode RlpTheorems Types.

Open Scope go_scope.

Definition ReceiptStatusFailed : Z := 0.
Definition ReceiptStatusSuccessful : Z := 1.

Record Receipt := MkReceipt {
  r_PostState : bytes;
  r_Status : Z;
  r_CumulativeGasUsed : Z;
  r_Bloom : Bloom;
  r_Logs : list txLog;
  r_TxHash : Hash;
  r_ContractAddress : Address;
  r_GasUsed : Z;
  r_BlockHash : Hash;
  r_BlockNumber : option Z;
  r_TransactionIndex : Z;
}.

Definition NewReceipt (root : bytes) (failed : bool) (cumulativeGasUsed : Z) : Receipt :=
  MkReceipt root (if failed then ReceiptStatusFailed else ReceiptStatusSuccessful) cumulativeGasUsed (zeros 256) [] 0 0 0 0 None 0.

Definition receiptStatusFailedRLP : bytes := [].
Definition receiptStatusSuccessfulRLP : bytes := [1].

Definition statusEncoding (r : Receipt) : bytes :=
  match r_PostState r with
  | [] => if r_Status r =? ReceiptStatusFailed then receiptStatusFailedRLP else receiptStatusSuccessfulRLP
  | _ => r_PostState r
  end.

(** [setStatus]: the new [PostState] and [Status]; [None] is the error. *)
Definition setStatus (postState : bytes) (status : Z) (postStateOrStatus : bytes) : option (bytes * Z) :=
  if bool_decide (postStateOrStatus = receiptStatusSuccessfulRLP) then Some (postState, ReceiptStatusSuccessful)
  else if bool_decide (postStateOrStatus = receiptStatusFailedRLP) then Some (postState, ReceiptStatusFailed)
  else if zlen postStateOrStatus =? HashLength then Some (postStateOrStatus, status)
  else None.

(** [rlpLog] *)
Definition log_rval (l : txLog) : rval :=
  VList [VByteArray (Address_Bytes (log_Address (log_of l)));
         VList (map (fun t => VByteArray (Hash_Bytes t)) (log_Topics (log_of l))); VBytes (log_Data (log_of l))].

(** [receiptRLP] and [storedReceiptRLP] *)
Definition receipt_rval (r : Receipt) : rval :=
  VList [VBytes (statusEncoding r); VUint (r_CumulativeGasUsed r); VByteArray (r_Bloom r); VList (map log_rval (r_Logs r))].
Definition stored_receipt_rval (r : Receipt) : rval :=
  VList [VBytes (statusEncoding r); VUint (r_CumulativeGasUsed r); VList (map log_rval (r_Logs r))].

(** [Receipts.GetRlp], which panics when the encoder fails. *)
Definition receipt_GetRlp (r : Receipt) : outcome bytes := of_option PanicOther (EncodeToBytes (receipt_rval r)).

Definition log_type : rtype := TStruct [TByteArray 20; TSlice (TByteArray 32); TBytes] None.
Definition receipt_type : rtype := TStruct [TBytes; TUint 64; TByteArray 256; TSlice log_type] None.
Definition stored_receipt_type : rtype := TStruct [TBytes; TUint 64; TSlice log_type] None.

(** The fields of a decoded log; the others are zero. *)
Definition topic_of_rval (v : rval) : option Hash := match v with VByteArray b => Some (be_val b) | _ => None end.
Definition log_of_rval (v : rval) : option txLog :=
  match v with
  | VList [VByteArray a; VList ts; VBytes d] =>
      match mapM topic_of_rval ts with
      | Some ts => Some (MkTxLog (MkLog (be_val a) ts d 0) 0 0 0 0)
      | None => None
      end
  | _ => None
  end.

Inductive receipt_error := RlpError (e : rlp_error) | InvalidReceiptStatus (b : bytes).

(** The receipt from decoded parts. *)
Definition receipt_of (st : bytes) (cum : Z) (bloom : Bloom) (logs : list txLog) : Receipt + receipt_error :=
  match setStatus [] 0 st with
  | None => inr (InvalidReceiptStatus st)
  | Some (post, status) => inl (MkReceipt post status cum bloom logs 0 0 0 0 None 0)
  end.

(** [DecodeRLP] into a new receipt, with the whole input as its encoding. *)
Definition receipt_DecodeRLP (fuel : nat) (b : bytes) : outcome (Receipt + receipt_error) :=
  v <- DecodeBytes fuel receipt_type b ;;
  match v with
  | inr e => Ok (inr (RlpError e))
  | inl (VList [VBytes st; VUint cum; VByteArray bloom; VList ls]) =>
      ls <- of_option PanicOther (mapM log_of_rval ls) ;; Ok (receipt_of st cum bloom ls)
  | inl _ => Panic PanicOther
  end.

(** ** The encodings are read back *)

Record log_ok (l : Log) : Prop := MkLogOk {
  ok_log_Address : is_address (log_Address l);
  ok_log_Topics : Forall is_hash (log_Topics l);
  ok_log_Data : Forall is_byte (log_Data l);
}.

(** A post state is empty or a hash; a status is one of the two. *)
Record receipt_ok (r : Receipt) : Prop := MkReceiptOk {
  ok_PostState : r_PostState r = [] \/ bytes_n 32 (r_PostState r);
  ok_Status : r_Status r = ReceiptStatusFailed \/ r_Status r = ReceiptStatusSuccessful;
  ok_CumulativeGasUsed : is_u64 (r_CumulativeGasUsed r);
  ok_r_Bloom : bytes_n 256 (r_Bloom r);
  ok_Logs : Forall (fun l => log_ok (log_of l)) (r_Logs r);
  ok_receipt_size : zlen (rlp (receipt_rval r)) <= data_max;
}.

(** The fields the consensus encoding keeps. *)
Definition consensus_log (l : txLog) : txLog :=
  MkTxLog (MkLog (log_Address (log_of l)) (log_Topics (log_of l)) (log_Data (log_of l)) 0) 0 0 0 0.
Definition consensus_receipt (r : Receipt) : Receipt :=
  MkReceipt (r_PostState r) (match r_PostState r with [] => r_Status r | _ => 0 end) (r_CumulativeGasUsed r) (r_Bloom r)
    (map consensus_log (r_Logs r)) 0 0 0 0 None 0.

Lemma log_has_type l : log_ok (log_of l) -> has_type log_type (log_rval l).
Proof.
  intros []. apply struct_has_type. apply Forall2_cons_2; [apply address_has_type|]. apply Forall2_cons_2.
  - eexists. split; [done|]. apply Forall_map, Forall_forall. intros t _. apply hash_has_type.
  - apply Forall2_cons_2; [by apply bytes_has_type|apply Forall2_nil_2].
Qed.

Lemma mapM_topics ts : Forall is_hash ts -> mapM topic_of_rval (map (fun t => VByteArray (Hash_Bytes t)) ts) = Some ts.
Proof.
  induction 1 as [|t ts Ht _ IH]; [done|]. cbn [map mapM]. rewrite IH. unfold topic_of_rval, Hash_Bytes.
  rewrite be_val_be_bytes. change (256 ^ Z.of_nat 32) with two256. rewrite Z.mod_small by done. done.
Qed.

Lemma log_of_log_rval l : log_ok (log_of l) -> log_of_rval (log_rval l) = Some (consensus_log l).
Proof.
  intros []. unfold log_rval, log_of_rval. rewrite mapM_topics by done. unfold Address_Bytes. rewrite be_val_be_bytes.
  change (256 ^ Z.of_nat 20) with two160. by rewrite Z.mod_small.
Qed.

Lemma mapM_logs ls : Forall (fun l => log_ok (log_of l)) ls -> mapM log_of_rval (map log_rval ls) = Some (map consensus_log ls).
Proof. induction 1 as [|l ls Hl _ IH]; [done|]. cbn [map mapM]. by rewrite IH, log_of_log_rval. Qed.

Lemma statusEncoding_ok r : receipt_ok r ->
  Forall is_byte (statusEncoding r) /\
  setStatus [] 0 (statusEncoding r) = Some (r_PostState r, match r_PostState r with [] => r_Status r | _ => 0 end).
Proof.
  intros []. unfold statusEncoding. destruct (r_PostState r) as [|x p] eqn:E.
  - destruct ok_Status0 as [->| ->]; (split; [|done]); [apply Forall_nil_2|]. apply Forall_cons_2; [split; lia|apply Forall_nil_2].
  - destruct ok_PostState0 as [|[Hb Hl]]; [done|]. split; [done|]. unfold setStatus.
    rewrite bool_decide_eq_false_2; [|intros Ep; rewrite Ep in Hl; done]. rewrite bool_decide_eq_false_2 by done. by rewrite Hl.
Qed.

Lemma receipt_supported : supported receipt_type.
Proof. cbn. unfold uint_bits. split_and!; try done; auto 10. Qed.

Lemma receipt_has_type r : receipt_ok r -> has_type receipt_type (receipt_rval r).
Proof.
  intros Hr. destruct (statusEncoding_ok r Hr) as [Hs _]. destruct Hr. apply struct_has_type.
  apply Forall2_cons_2; [by apply bytes_has_type|]. apply Forall2_cons_2; [by apply u64_has_type|].
  apply Forall2_cons_2; [by apply (array_has_type 256)|]. apply Forall2_cons_2; [|apply Forall2_nil_2].
  eexists. split; [done|]. apply Forall_map. eapply Forall_impl; [exact ok_Logs0|]. intros l. apply log_has_type.
Qed.

(** C34: round trip of receipts.  Decoding the consensus encoding of a receipt gives
    the receipt back, without the fields that are not part of consensus. *)
Theorem receipt_roundtrip (r : Receipt) (fuel : nat) :
  receipt_ok r -> (length (rlp (receipt_rval r)) < fuel)%nat ->
  exists b, receipt_GetRlp r = Ok b /\ receipt_DecodeRLP fuel b = Ok (inl (consensus_receipt r)).
Proof.
  intros Hr Hf. destruct (statusEncoding_ok r Hr) as [Hs Es]. pose proof Hr as [].
  pose proof receipt_supported as Hsup. pose proof (receipt_has_type r Hr) as Ht.
  pose proof (has_type_encodable _ _ Hsup Ht) as He. exists (rlp (receipt_rval r)).
  unfold receipt_GetRlp. rewrite EncodeToBytes_rlp by done. split; [done|]. unfold receipt_DecodeRLP.
  rewrite (DecodeBytes_complete fuel receipt_type (rlp (receipt_rval r)) Hsup (conj (rlp_bytes _ He ok_receipt_size0) ok_receipt_size0) Hf (receipt_rval r) Ht eq_refl).
  cbn [obind]. unfold receipt_rval. cbn iota. rewrite mapM_logs by done. cbn [of_option obind]. unfold receipt_of. by rewrite Es.
Qed.

Definition ex_receipt : Receipt :=
  MkReceipt [] 1 21000 (zeros 256) [MkTxLog (MkLog 7 [1; 2] [9; 8; 7] 5) 3 4 0 0] 3 0 21000 4 (Some 5) 0.

Lemma ex_receipt_ok : receipt_ok ex_receipt.
Proof.
  split.
  - by left.
  - by right.
  - by split.
  - split; [apply Forall_replicate; split; lia|reflexivity].
  - apply Forall_cons_2; [|apply Forall_nil_2]. split; cbn [log_of log_Address log_Topics log_Data].
    + split; [discriminate|reflexivity].
    + repeat (apply Forall_cons_2; [split; [discriminate|reflexivity]|]). apply Forall_nil_2.
    + repeat (apply Forall_cons_2; [split; [discriminate|reflexivity]|]). apply Forall_nil_2.
  - vm_compute. discriminate.
Qed.

Lemma receipt_roundtrip_witness :
  exists b, receipt_GetRlp ex_receipt = Ok b /\ receipt_DecodeRLP 500 b = Ok (inl (consensus_receipt ex_receipt)).
Proof. apply (receipt_roundtrip ex_receipt 500 ex_receipt_ok). vm_compute. lia. Defined.
