(* ===== verification/Bloom.v ===== *)
(** * Log blooms and the bit vectors of the index

    [core/types/bloom9.go]: the bloom filter of the logs of a block.
    [core/bloombits/generator.go]: the rotation of the filters of a section of
    blocks into one bit vector for every bit of the filter.  The theorems: the filter
    of a list of logs contains every address and topic of them, and the rotation is
    the transposition of the bit matrix. *)

From Stdlib Require Import ZArith Lia.
From stdpp Require Import list.
From S2P Require Import Prelude Common Crypto VmState StateDB Bitutil Types Receipt.

Open Scope go_scope.

Definition BloomByteLength : Z := 256.
Definition BloomBitLength : Z := 2048.

Section bloom.
Context {K : Keccak}.

(** The place of one pair of bytes of the hash: the index of a byte and the mask. *)
Definition bloom_place (hi lo : Z) : Z * Z :=
  (BloomByteLength - Z.shiftr (Z.land (hi * 256 + lo) 2047) 3 - 1, u8 (Z.shiftl 1 (Z.land lo 7))).

(** [hashbuf] holds the first six bytes of the hash. *)
Definition bloomValues (data : bytes) : (Z * Z) * (Z * Z) * (Z * Z) :=
  let hashbuf := take 6 (Keccak256 data) in
  let b i := nth i hashbuf 0 in
  (bloom_place (b 0%nat) (b 1%nat), bloom_place (b 2%nat) (b 3%nat), bloom_place (b 4%nat) (b 5%nat)).

(** [b[i] |= v] *)
Definition bloom_or (b : Bloom) (p : Z * Z) : Bloom := alter (fun x => Z.lor x (snd p)) (Z.to_nat (fst p)) b.

Definition bloom_add (b : Bloom) (d : bytes) : Bloom :=
  let '(p1, p2, p3) := bloomValues d in bloom_or (bloom_or (bloom_or b p1) p2) p3.

(** [v == v & b[i]] *)
Definition bloom_has (b : Bloom) (p : Z * Z) : bool := snd p =? Z.land (snd p) (nth (Z.to_nat (fst p)) b 0).

Definition Bloom_Test (b : Bloom) (topic : bytes) : bool :=
  let '(p1, p2, p3) := bloomValues topic in bloom_has b p1 && bloom_has b p2 && bloom_has b p3.

(** [SetBytes]: right-aligned in a zero filter. *)
Definition BytesToBloom (d : bytes) : outcome Bloom :=
  if BloomByteLength <? zlen d then Panic PanicOther else Ok (zeros (BloomByteLength - zlen d) ++ d).

(** The body of the loops of [CreateBloom] and [LogsBloom]. *)
Definition add_log (bin : Bloom) (l : Log) : Bloom :=
  fold_left (fun bin t => bloom_add bin (Hash_Bytes t)) (log_Topics l) (bloom_add bin (Address_Bytes (log_Address l))).

Definition LogsBloom (logs : list Log) : Bloom := fold_left add_log logs (zeros 256).

Definition CreateBloom (receipts : list Receipt) : Bloom :=
  fold_left (fun bin r => fold_left (fun bin l => add_log bin (log_of l)) (r_Logs r) bin) receipts (zeros 256).

(** [calcBloomIndexes] of [bloombits/matcher.go]: the three bits of a value. *)
Definition calcBloomIndexes (b : bytes) : list nat :=
  let b := Keccak256 b in
  map (fun i => Z.to_nat (Z.land (Z.shiftl (nth (2 * i) b 0) 8) 2047 + nth (2 * i + 1) b 0)) [0; 1; 2]%nat.
End bloom.

(** ** The generator *)

Record Generator := MkGenerator { g_blooms : list bytes; g_sections : nat; g_nextSec : nat }.

Inductive generator_error := errSectionCount | errSectionOutOfBounds | errUnexpectedIndex | errNotFullyGenerated | errBloomBitOutOfBounds.

Definition NewGenerator (sections : nat) : Generator + generator_error :=
  if negb (sections mod 8 =? 0)%nat then inr errSectionCount
  else inl (MkGenerator (replicate 2048 (replicate (sections / 8) 0)) sections 0).

(** [b.blooms[row][byteIndex] |= ((bloomByte >> k) & 1) << bitIndex] *)
Definition or_row (byteIndex : nat) (bitIndex bloomByte : Z) (base : nat) (blooms : list bytes) (k : nat) : list bytes :=
  alter (alter (fun x => Z.lor x (u8 (Z.shiftl (Z.land (Z.shiftr bloomByte (Z.of_nat k)) 1) bitIndex))) byteIndex) (base + k)%nat blooms.

(** The loop over the bytes of the filter, from its end. *)
Fixpoint add_bytes (n byt : nat) (bloom : Bloom) (byteIndex : nat) (bitIndex : Z) (blooms : list bytes) : outcome (list bytes) :=
  match n with
  | O => Ok blooms
  | S n =>
      bloomByte <- of_option PanicIndex (zget bloom (BloomByteLength - 1 - Z.of_nat byt)) ;;
      if bloomByte =? 0 then add_bytes n (S byt) bloom byteIndex bitIndex blooms
      else add_bytes n (S byt) bloom byteIndex bitIndex
             (fold_left (or_row byteIndex bitIndex bloomByte (8 * byt)) [7; 6; 5; 4; 3; 2; 1; 0]%nat blooms)
  end.

Definition AddBloom (b : Generator) (index : nat) (bloom : Bloom) : outcome (Generator + generator_error) :=
  if (g_sections b <=? g_nextSec b)%nat then Ok (inr errSectionOutOfBounds)
  else if negb (g_nextSec b =? index)%nat then Ok (inr errUnexpectedIndex)
  else
    let byteIndex := (g_nextSec b / 8)%nat in
    let bitIndex := 7 - Z.of_nat (g_nextSec b mod 8) in
    blooms <- add_bytes 256 0 bloom byteIndex bitIndex (g_blooms b) ;;
    Ok (inl (MkGenerator blooms (g_sections b) (S (g_nextSec b)))).

Definition Bitset (b : Generator) (idx : nat) : outcome (bytes + generator_error) :=
  if negb (g_nextSec b =? g_sections b)%nat then Ok (inr errNotFullyGenerated)
  else if (2048 <=? idx)%nat then Ok (inr errBloomBitOutOfBounds)
  else row <- of_option PanicIndex (g_blooms b !! idx) ;; Ok (inl row).

(** ** Bits of a filter *)

(** Bit [j] of a filter read as a number. *)
Definition bloom_bit (b : Bloom) (j : nat) : bool := Z.testbit (nth (255 - j / 8) b 0) (Z.of_nat (j mod 8)).

Section bits.
Context {K : Keccak}.

Lemma Keccak256_bytes b : Forall is_byte (Keccak256 b) /\ length (Keccak256 b) = 32%nat.
Proof. split; [apply be_bytes_is_byte|apply be_bytes_length]. Qed.

Lemma nth_byte (l : bytes) i : Forall is_byte l -> is_byte (nth i l 0).
Proof.
  intros Hl. destruct (l !! i) as [x|] eqn:E; rewrite nth_lookup, E; cbn [default from_option id]; [|split; lia].
  exact (Forall_lookup_1 _ _ _ _ Hl E).
Qed.

(** The index [calcBloomIndexes] computes names the place [bloomValues] computes. *)
Definition place_of (j : nat) : Z * Z := (255 - Z.of_nat (j / 8), 2 ^ Z.of_nat (j mod 8)).

Lemma place_index hi lo : is_byte hi -> is_byte lo ->
  let j := Z.to_nat (Z.land (Z.shiftl hi 8) 2047 + lo) in bloom_place hi lo = place_of j /\ (j < 2048)%nat.
Proof.
  intros Hhi Hlo. unfold is_byte in *. assert (Z.land (hi * 256 + lo) 2047 = (hi mod 8) * 256 + lo) as E1.
  { change 2047 with (Z.ones 11). rewrite Z.land_ones by lia. change (2 ^ 11) with 2048.
    pose proof (Z.div_mod hi 8 ltac:(lia)). pose proof (Z.mod_pos_bound hi 8 ltac:(lia)).
    symmetry. apply Z.mod_unique with (q := hi / 8); lia. }
  assert (Z.land (Z.shiftl hi 8) 2047 = (hi mod 8) * 256) as E2.
  { change 2047 with (Z.ones 11). rewrite Z.land_ones, Z.shiftl_mul_pow2 by lia. change (2 ^ 8) with 256. change (2 ^ 11) with 2048.
    pose proof (Z.div_mod hi 8 ltac:(lia)). pose proof (Z.mod_pos_bound hi 8 ltac:(lia)).
    symmetry. apply Z.mod_unique with (q := hi / 8); lia. }
  pose proof (Z.mod_pos_bound hi 8 ltac:(lia)) as Hm. unfold bloom_place, place_of, BloomByteLength. rewrite E1, E2.
  set (v := hi mod 8 * 256 + lo) in *. assert (0 <= v < 2048) by lia. split; [|lia].
  assert (Z.of_nat (Z.to_nat v / 8) = v / 8 /\ Z.of_nat (Z.to_nat v mod 8) = v mod 8) as [-> ->].
  { rewrite Nat2Z.inj_div, Nat2Z.inj_mod, Z2Nat.id by lia. done. }
  rewrite Z.shiftr_div_pow2 by lia. change (2 ^ 3) with 8. f_equal; [lia|].
  assert (Z.land lo 7 = v mod 8) as ->.
  { change 7 with (Z.ones 3). rewrite Z.land_ones by lia. change (2 ^ 3) with 8. unfold v.
    replace (hi mod 8 * 256 + lo) with (lo + (hi mod 8 * 32) * 8) by lia. by rewrite Z.mod_add. }
  pose proof (Z.mod_pos_bound v 8 ltac:(lia)). rewrite Z.shiftl_1_l. unfold u8. apply Z.mod_small.
  split; [apply Z.pow_nonneg; lia|]. change 256 with (2 ^ 8). apply Z.pow_lt_mono_r; lia.
Qed.

Lemma bloomValues_indexes data :
  let idxs := calcBloomIndexes data in
  exists j1 j2 j3, idxs = [j1; j2; j3] /\ bloomValues data = (place_of j1, place_of j2, place_of j3) /\ Forall (fun j => j < 2048)%nat idxs.
Proof.
  cbv zeta. destruct (Keccak256_bytes data) as [Hb Hl]. unfold calcBloomIndexes, bloomValues. cbn [map].
  assert (forall i, (i < 6)%nat -> nth i (take 6 (Keccak256 data)) 0 = nth i (Keccak256 data) 0) as Ht.
  { intros i Hi. rewrite !nth_lookup, lookup_take_lt by done. done. }
  rewrite !Ht by lia. cbn [Nat.mul Nat.add]. set (k := Keccak256 data) in *.
  destruct (place_index (nth 0 k 0) (nth 1 k 0)) as [-> H1]; [by apply nth_byte..|].
  destruct (place_index (nth 2 k 0) (nth 3 k 0)) as [-> H2]; [by apply nth_byte..|].
  destruct (place_index (nth 4 k 0) (nth 5 k 0)) as [-> H3]; [by apply nth_byte..|].
  eexists _, _, _. split_and!; [done|done|]. repeat (apply Forall_cons_2; [done|]). apply Forall_nil_2.
Qed.

Lemma bloom_has_bit b j : (j < 2048)%nat -> bloom_has b (place_of j) = bloom_bit b j.
Proof.
  intros Hj. unfold bloom_has, place_of, bloom_bit. cbn [fst snd].
  assert (j / 8 < 256)%nat by (apply Nat.Div0.div_lt_upper_bound; lia).
  replace (Z.to_nat (255 - Z.of_nat (j / 8))) with (255 - j / 8)%nat by lia. set (x := nth _ b 0). set (k := Z.of_nat (j mod 8)).
  assert (0 <= k) by (unfold k; lia). destruct (Z.testbit x k) eqn:E.
  - apply Z.eqb_eq. apply Z.bits_inj'. intros i Hi. rewrite Z.land_spec. destruct (decide (i = k)) as [->|Hne]; [by rewrite E, andb_true_r|].
    by rewrite Z.pow2_bits_false by lia.
  - apply Z.eqb_neq. intros Hx. assert (Z.testbit (Z.land (2 ^ k) x) k = true) as F by (by rewrite <- Hx, Z.pow2_bits_true).
    by rewrite Z.land_spec, E, andb_false_r in F.
Qed.

(** A test asks for the three bits. *)
Lemma Bloom_Test_bits b topic : Bloom_Test b topic = forallb (bloom_bit b) (calcBloomIndexes topic).
Proof.
  destruct (bloomValues_indexes topic) as (j1 & j2 & j3 & Ei & Ev & Hj). unfold Bloom_Test. rewrite Ei in *. rewrite Ev.
  apply Forall_cons in Hj as [H1 Hj]. apply Forall_cons in Hj as [H2 Hj]. apply Forall_cons in Hj as [H3 _].
  rewrite !bloom_has_bit by done. cbn [forallb]. by rewrite andb_true_r, andb_assoc.
Qed.

Lemma bloom_or_bit b j i : length b = 256%nat -> (j < 2048)%nat -> (i < 2048)%nat ->
  bloom_bit (bloom_or b (place_of j)) i = bloom_bit b i || bool_decide (i = j).
Proof.
  intros Hl Hj Hi. unfold bloom_or, place_of, bloom_bit. cbn [fst snd].
  assert (j / 8 < 256)%nat by (apply Nat.Div0.div_lt_upper_bound; lia). assert (i / 8 < 256)%nat by (apply Nat.Div0.div_lt_upper_bound; lia).
  replace (Z.to_nat (255 - Z.of_nat (j / 8))) with (255 - j / 8)%nat by lia. rewrite !nth_lookup.
  pose proof (Nat.div_mod_eq i 8). pose proof (Nat.div_mod_eq j 8).
  destruct (decide (i / 8 = j / 8)%nat) as [E|E].
  - rewrite E, list_lookup_alter_eq. destruct (lookup_lt_is_Some_2 b (255 - j / 8)) as [x ->]; [lia|]. cbn [fmap option_fmap option_map default from_option id].
    rewrite Z.lor_spec, Z.pow2_bits_eqb by lia. f_equal.
    destruct (Z.eqb_spec (Z.of_nat (j mod 8)) (Z.of_nat (i mod 8))); symmetry; [apply bool_decide_eq_true|apply bool_decide_eq_false]; lia.
  - rewrite list_lookup_alter_ne by lia. rewrite bool_decide_eq_false_2, orb_false_r by congruence. done.
Qed.

Lemma bloom_add_bit b d i : length b = 256%nat -> (i < 2048)%nat ->
  length (bloom_add b d) = 256%nat /\ bloom_bit (bloom_add b d) i = bloom_bit b i || bool_decide (i ∈ calcBloomIndexes d).
Proof.
  intros Hl Hi. destruct (bloomValues_indexes d) as (j1 & j2 & j3 & Ei & Ev & Hj). unfold bloom_add. rewrite Ev. rewrite Ei in *.
  apply Forall_cons in Hj as [H1 Hj]. apply Forall_cons in Hj as [H2 Hj]. apply Forall_cons in Hj as [H3 _].
  assert (forall b p, length b = 256%nat -> length (bloom_or b p) = 256%nat) as Hor by (intros; unfold bloom_or; by rewrite length_alter).
  split; [by repeat apply Hor|]. rewrite !bloom_or_bit by (done || by repeat apply Hor). rewrite <- !orb_assoc. f_equal.
  rewrite (bool_decide_ext (i ∈ [j1; j2; j3]) (i = j1 \/ (i = j2 \/ i = j3))), !bool_decide_or; [done|].
  rewrite !elem_of_cons, elem_of_nil. tauto.
Qed.
End bits.

(** ** Filters of logs *)

Section logs.
Context {K : Keccak}.

(** The values of a log that are put into the filter. *)
Definition log_values (l : Log) : list bytes := Address_Bytes (log_Address l) :: map Hash_Bytes (log_Topics l).

(** The filter of a list of values. *)
Definition is_bloom_of (b : Bloom) (values : list bytes) : Prop :=
  length b = 256%nat /\ forall i, (i < 2048)%nat -> bloom_bit b i = existsb (fun v => bool_decide (i ∈ calcBloomIndexes v)) values.

Lemma is_bloom_add b vs d : is_bloom_of b vs -> is_bloom_of (bloom_add b d) (vs ++ [d]).
Proof.
  intros [Hl Hb]. split; [by apply (bloom_add_bit b d 0); [|lia]|]. intros i Hi. destruct (bloom_add_bit b d i Hl Hi) as [_ ->].
  rewrite Hb, existsb_app by done. cbn [existsb]. by rewrite orb_false_r.
Qed.

Lemma is_bloom_values b vs ds : is_bloom_of b vs -> is_bloom_of (fold_left bloom_add ds b) (vs ++ ds).
Proof.
  revert b vs. induction ds as [|d ds IH]; intros b vs H; cbn [fold_left]; [by rewrite app_nil_r|].
  rewrite (app_assoc vs [d] ds : vs ++ d :: ds = (vs ++ [d]) ++ ds). by apply IH, is_bloom_add.
Qed.

Lemma fold_left_map {A B C} (f : A -> B -> A) (g : C -> B) l : forall a, fold_left f (map g l) a = fold_left (fun a x => f a (g x)) l a.
Proof. induction l as [|x l IH]; intros a; [done|]. cbn [map fold_left]. apply IH. Qed.

Lemma is_bloom_log b vs l : is_bloom_of b vs -> is_bloom_of (add_log b l) (vs ++ log_values l).
Proof.
  intros H. unfold add_log, log_values. rewrite <- fold_left_map.
  rewrite (app_assoc vs [Address_Bytes (log_Address l)] (map Hash_Bytes (log_Topics l)) : vs ++ _ :: _ = _). by apply is_bloom_values, is_bloom_add.
Qed.

Lemma is_bloom_zero : is_bloom_of (zeros 256) [].
Proof.
  split; [done|]. intros i Hi. unfold bloom_bit. rewrite nth_lookup.
  destruct (zeros 256 !! (255 - i / 8)%nat) as [x|] eqn:E; [|apply Z.bits_0]. apply lookup_replicate in E as [-> _]. apply Z.bits_0.
Qed.

Lemma LogsBloom_ok logs : is_bloom_of (LogsBloom logs) (concat (map log_values logs)).
Proof.
  unfold LogsBloom. assert (forall b vs, is_bloom_of b vs -> is_bloom_of (fold_left add_log logs b) (vs ++ concat (map log_values logs))) as H.
  { induction logs as [|l logs IH]; intros b vs Hb; cbn [fold_left map concat]; [by rewrite app_nil_r|]. rewrite app_assoc. by apply IH, is_bloom_log. }
  apply (H _ [] is_bloom_zero).
Qed.

(** The logs of the receipts of a block. *)
Definition receipts_logs (rs : list Receipt) : list Log := concat (map (fun r => map log_of (r_Logs r)) rs).

Lemma CreateBloom_LogsBloom rs : CreateBloom rs = LogsBloom (receipts_logs rs).
Proof.
  unfold CreateBloom, LogsBloom, receipts_logs. generalize (zeros 256). induction rs as [|r rs IH]; intros b; [done|].
  cbn [fold_left map concat]. rewrite fold_left_app, fold_left_map. apply IH.
Qed.

Lemma LogsBloom_complete rs l v : l ∈ receipts_logs rs -> v ∈ log_values l -> Bloom_Test (CreateBloom rs) v = true.
Proof.
  rewrite CreateBloom_LogsBloom. destruct (LogsBloom_ok (receipts_logs rs)) as [Hl Hb]. intros Hin Hv. rewrite Bloom_Test_bits, forallb_forall.
  intros j Ij. apply list_elem_of_In in Ij. destruct (bloomValues_indexes v) as (j1 & j2 & j3 & _ & _ & Hlt).
  rewrite Hb by (by apply (proj1 (Forall_forall _ _) Hlt)). apply existsb_exists. exists v. split; [|by apply bool_decide_eq_true].
  apply in_concat. exists (log_values l). split; [apply in_map|]; by apply list_elem_of_In.
Qed.

(** Blooms have no false negatives.  The bloom of the receipts of a block
    passes the test for the address and for every topic of every log in them, and
    in general for exactly those values whose three bits are bits of such
    values. *)
Theorem CreateBloom_complete (rs : list Receipt) (l : Log) (v : bytes) :
  (l ∈ receipts_logs rs -> v ∈ log_values l -> Bloom_Test (CreateBloom rs) v = true) /\
  (Bloom_Test (CreateBloom rs) v = true <->
   forall j, j ∈ calcBloomIndexes v -> exists l' v', l' ∈ receipts_logs rs /\ v' ∈ log_values l' /\ j ∈ calcBloomIndexes v').
Proof.
  rewrite CreateBloom_LogsBloom. destruct (LogsBloom_ok (receipts_logs rs)) as [Hl Hb]. rewrite Bloom_Test_bits, forallb_forall.
  assert (forall j, j ∈ calcBloomIndexes v -> (bloom_bit (LogsBloom (receipts_logs rs)) j = true <->
    exists l' v', l' ∈ receipts_logs rs /\ v' ∈ log_values l' /\ j ∈ calcBloomIndexes v')) as Hj.
  { intros j Hj. rewrite Hb, existsb_exists.
    - split.
      + intros (v' & Hv & Hd). apply bool_decide_eq_true in Hd. apply in_concat in Hv as (vs & Hvs & Hv). apply in_map_iff in Hvs as (l' & <- & Hl').
        exists l', v'. split_and!; [by apply list_elem_of_In..|done].
      + intros (l' & v' & Hl' & Hv' & Hd). exists v'. split; [|by apply bool_decide_eq_true]. apply in_concat. exists (log_values l').
        rewrite list_elem_of_In in Hl'. rewrite list_elem_of_In in Hv'. split; [by apply in_map|done].
    - destruct (bloomValues_indexes v) as (j1 & j2 & j3 & _ & _ & Hlt). by apply (proj1 (Forall_forall _ _) Hlt). }
  split.
  - intros Hin Hv j Ij. apply list_elem_of_In in Ij. apply Hj; [done|]. by exists l, v.
  - split; intros H j Ij.
    + apply Hj; [done|]. apply H. by apply list_elem_of_In.
    + apply list_elem_of_In in Ij. apply Hj; [done|]. by apply H.
Qed.
End logs.

(** ** The rotation *)

(** What is or-ed into a row. *)
Definition row_mask (bitIndex bloomByte : Z) (k : nat) : Z := u8 (Z.shiftl (Z.land (Z.shiftr bloomByte (Z.of_nat k)) 1) bitIndex).

Lemma row_mask_bit bitIndex x k : 0 <= bitIndex < 8 -> row_mask bitIndex x k = if Z.testbit x (Z.of_nat k) then u8 (Z.shiftl 1 bitIndex) else 0.
Proof.
  intros Hb. unfold row_mask. change 1 with (Z.ones 1) at 1. rewrite Z.land_ones, Z.shiftr_div_pow2 by lia. change (2 ^ 1) with 2.
  rewrite <- Z.testbit_spec' by lia. destruct (Z.testbit x (Z.of_nat k)); cbn [Z.b2z]; [done|]. by rewrite Z.shiftl_0_l.
Qed.

Lemma or_rows_lookup byteIndex bitIndex x base ks : NoDup ks -> forall blooms idx,
  fold_left (or_row byteIndex bitIndex x base) ks blooms !! idx =
  (if bool_decide (base <= idx /\ idx - base ∈ ks)%nat then alter (fun y => Z.lor y (row_mask bitIndex x (idx - base))) byteIndex else id) <$> blooms !! idx.
Proof.
  intros Hnd. induction Hnd as [|k ks Hk Hnd IH]; intros blooms idx; cbn [fold_left].
  { rewrite bool_decide_eq_false_2; [by destruct (blooms !! idx)|]. intros [_ Hin]. by apply not_elem_of_nil in Hin. }
  rewrite IH. unfold or_row. destruct (decide (idx = base + k)%nat) as [->|Hne].
  - rewrite list_lookup_alter_eq. replace (base + k - base)%nat with k by lia. rewrite bool_decide_eq_false_2 by (by intros [_ H]).
    rewrite bool_decide_eq_true_2 by (split; [lia|apply list_elem_of_here]). by destruct (blooms !! (base + k)%nat).
  - rewrite list_lookup_alter_ne by done. f_equal. erewrite bool_decide_ext; [done|]. rewrite elem_of_cons. split; [tauto|].
    intros [Hle [E|Hin]]; [lia|done].
Qed.

Definition byte_rows : list nat := [7; 6; 5; 4; 3; 2; 1; 0]%nat.

Lemma byte_rows_spec base idx : (base <= idx /\ idx - base ∈ byte_rows)%nat <-> (base <= idx < base + 8)%nat.
Proof.
  unfold byte_rows. split.
  - intros [Hle Hk]. repeat (apply elem_of_cons in Hk as [Hk|Hk]; [lia|]). by apply not_elem_of_nil in Hk.
  - intros H. split; [lia|]. assert (idx - base < 8)%nat as Hlt by lia. generalize dependent (idx - base)%nat. intros k Hk.
    do 8 (destruct k as [|k]; [rewrite !elem_of_cons; tauto|]). lia.
Qed.

(** The byte of the filter that row [idx] reads. *)
Definition bloom_byte (bloom : Bloom) (idx : nat) : Z := nth (255 - idx / 8) bloom 0.

Lemma add_bytes_ok bloom byteIndex bitIndex n : length bloom = 256%nat -> 0 <= bitIndex < 8 -> forall byt blooms, (byt + n = 256)%nat ->
  exists blooms', add_bytes n byt bloom byteIndex bitIndex blooms = Ok blooms' /\ forall idx,
    blooms' !! idx = (if bool_decide (8 * byt <= idx < 2048)%nat
                      then alter (fun y => Z.lor y (row_mask bitIndex (bloom_byte bloom idx) (idx mod 8))) byteIndex else id) <$> blooms !! idx.
Proof.
  intros Hl Hb. induction n as [|n IH]; intros byt blooms Hn; cbn [add_bytes].
  { exists blooms. split; [done|]. intros idx. rewrite bool_decide_eq_false_2 by lia. by destruct (blooms !! idx). }
  destruct (zget_Some bloom (BloomByteLength - 1 - Z.of_nat byt)) as [x Ex]; [unfold BloomByteLength, zlen; lia|]. rewrite Ex. cbn [of_option obind].
  assert (forall idx, (8 * byt <= idx < 8 * byt + 8)%nat -> bloom_byte bloom idx = x /\ (idx mod 8 = idx - 8 * byt)%nat) as Hx.
  { intros idx Hi. assert (idx / 8 = byt)%nat as E by (symmetry; apply Nat.div_unique with (r := (idx - 8 * byt)%nat); lia).
    split; [|pose proof (Nat.div_mod_eq idx 8); lia]. unfold bloom_byte. rewrite E, nth_lookup. unfold zget, BloomByteLength in Ex.
    destruct (Z.leb_spec 0 (256 - 1 - Z.of_nat byt)); [|lia]. replace (255 - byt)%nat with (Z.to_nat (256 - 1 - Z.of_nat byt)) by lia. by rewrite Ex. }
  assert (exists blooms', add_bytes n (S byt) bloom byteIndex bitIndex
      (if x =? 0 then blooms else fold_left (or_row byteIndex bitIndex x (8 * byt)) byte_rows blooms) = Ok blooms' /\ forall idx,
    blooms' !! idx = (if bool_decide (8 * byt <= idx < 2048)%nat
                      then alter (fun y => Z.lor y (row_mask bitIndex (bloom_byte bloom idx) (idx mod 8))) byteIndex else id) <$> blooms !! idx) as H;
    [|by destruct (x =? 0)].
  destruct (IH (S byt) (if x =? 0 then blooms else fold_left (or_row byteIndex bitIndex x (8 * byt)) byte_rows blooms) ltac:(lia)) as (blooms' & E & Hlk).
  exists blooms'. split; [done|]. intros idx. rewrite Hlk.
  assert ((if x =? 0 then blooms else fold_left (or_row byteIndex bitIndex x (8 * byt)) byte_rows blooms) !! idx =
    (if bool_decide (8 * byt <= idx < 8 * byt + 8)%nat then alter (fun y => Z.lor y (row_mask bitIndex (bloom_byte bloom idx) (idx mod 8))) byteIndex else id)
      <$> blooms !! idx) as ->.
  { destruct (Z.eqb_spec x 0) as [->|Hne].
    - destruct (bool_decide_reflect (8 * byt <= idx < 8 * byt + 8)%nat) as [Hi|]; [|by destruct (blooms !! idx)].
      destruct (Hx idx Hi) as [-> _]. rewrite row_mask_bit, Z.bits_0 by done. destruct (blooms !! idx) as [row|]; cbn; [|done]. f_equal.
      symmetry. apply list_alter_id. intros y. apply Z.lor_0_r.
    - rewrite or_rows_lookup by (unfold byte_rows; apply (bool_decide_unpack _); vm_compute; done).
      destruct (bool_decide_reflect (8 * byt <= idx /\ idx - 8 * byt ∈ byte_rows)%nat) as [Hi|Hi]; rewrite byte_rows_spec in Hi;
        destruct (bool_decide_reflect (8 * byt <= idx < 8 * byt + 8)%nat); try done; try lia. by destruct (Hx idx Hi) as [-> ->]. }
  rewrite <- option_fmap_compose. f_equal. destruct (bool_decide_reflect (8 * byt <= idx < 8 * byt + 8)%nat), (bool_decide_reflect (8 * S byt <= idx < 2048)%nat),
    (bool_decide_reflect (8 * byt <= idx < 2048)%nat); done || lia.
Qed.

(** The rows hold the bits of the filters [bs] added so far. *)
Record gen_ok (g : Generator) (bs : list Bloom) : Prop := MkGenOk {
  gen_sections : (g_sections g mod 8 = 0)%nat;
  gen_next : g_nextSec g = length bs;
  gen_room : (length bs <= g_sections g)%nat;
  gen_rows : length (g_blooms g) = 2048%nat;
  gen_row : forall idx row, g_blooms g !! idx = Some row -> length row = (g_sections g / 8)%nat /\ Forall is_byte row /\
    forall s, (s < g_sections g)%nat -> bit_at row s = match bs !! s with Some b => bloom_bit b idx | None => false end;
}.

Lemma NewGenerator_ok sections : (sections mod 8 = 0)%nat -> exists g, NewGenerator sections = inl g /\ gen_ok g [] /\ g_sections g = sections.
Proof.
  intros Hs. unfold NewGenerator. rewrite Hs. eexists. split; [done|]. split; [|done]. split; cbn [g_sections g_nextSec g_blooms]; try done; [cbn; lia|].
  intros idx row Hrow. apply lookup_replicate in Hrow as [-> _]. split_and!; [apply length_replicate|apply Forall_replicate; split; lia|]. intros s Hs'. apply bit_at_zeros.
Qed.

Lemma alter_as_insert {A} (f : A -> A) (l : list A) i y : l !! i = Some y -> alter f i l = <[i := f y]> l.
Proof.
  intros E. apply list_eq. intros k. destruct (decide (k = i)) as [->|].
  - rewrite list_lookup_alter_eq, E. symmetry. apply list_lookup_insert_eq. by eapply lookup_lt_Some.
  - by rewrite list_lookup_alter_ne, list_lookup_insert_ne.
Qed.

Lemma bit_at_or (row : bytes) (i k j : nat) x : (i / 8 < length row)%nat ->
  bit_at (alter (fun y => Z.lor y (row_mask (7 - Z.of_nat (i mod 8)) x k)) (i / 8)%nat row) j =
  bit_at row j || (bool_decide (j = i) && Z.testbit x (Z.of_nat k)).
Proof.
  intros Hi. destruct (bit_mask i) as [_ Hm]. rewrite row_mask_bit by done. destruct (lookup_lt_is_Some_2 row _ Hi) as [y Ey].
  rewrite (alter_as_insert _ _ _ _ Ey). destruct (Z.testbit x (Z.of_nat k)).
  - rewrite bit_at_set by done. by rewrite andb_true_r.
  - by rewrite Z.lor_0_r, list_insert_id, andb_false_r, orb_false_r.
Qed.

Lemma lor_byte x y : is_byte x -> is_byte y -> is_byte (Z.lor x y).
Proof.
  unfold is_byte. intros Hx Hy. split; [apply Z.lor_nonneg; lia|]. destruct (Z.eq_dec (Z.lor x y) 0) as [->|Hne]; [lia|].
  assert (0 <= Z.lor x y) by (apply Z.lor_nonneg; lia). apply (Z.log2_lt_pow2 _ 8); [lia|]. rewrite Z.log2_lor by lia.
  apply Z.max_lub_lt; [destruct (Z.eq_dec x 0) as [->|]|destruct (Z.eq_dec y 0) as [->|]]; try (cbn; lia); apply Z.log2_lt_pow2; lia.
Qed.

Lemma alter_row_bytes (row : bytes) bitIndex x k i : Forall is_byte row -> Forall is_byte (alter (fun y => Z.lor y (row_mask bitIndex x k)) i row).
Proof.
  intros Hr. destruct (row !! i) as [y|] eqn:E.
  - rewrite (alter_as_insert _ _ _ _ E). apply Forall_insert; [done|]. apply lor_byte; [exact (Forall_lookup_1 _ _ _ _ Hr E)|].
    unfold row_mask, u8. apply Z.mod_pos_bound. lia.
  - assert (alter (fun y => Z.lor y (row_mask bitIndex x k)) i row = row) as ->; [|done]. apply list_eq. intros j.
    destruct (decide (j = i)) as [->|]; [by rewrite list_lookup_alter_eq, E|by rewrite list_lookup_alter_ne].
Qed.

Lemma AddBloom_ok g bs bloom : gen_ok g bs -> (length bs < g_sections g)%nat -> length bloom = 256%nat ->
  exists g', AddBloom g (length bs) bloom = Ok (inl g') /\ gen_ok g' (bs ++ [bloom]) /\ g_sections g' = g_sections g.
Proof.
  intros [Hs Hn Hr Hl Hrow] Hlt Hb. unfold AddBloom. rewrite Hn. destruct (Nat.leb_spec (g_sections g) (length bs)); [lia|]. rewrite Nat.eqb_refl. cbn [negb].
  destruct (bit_mask (length bs)) as [_ Hm].
  destruct (add_bytes_ok bloom (length bs / 8) (7 - Z.of_nat (length bs mod 8)) 256 Hb Hm 0 (g_blooms g) eq_refl) as (blooms' & E & Hlk).
  rewrite E. cbn [obind]. eexists. split; [done|]. split; [|done].
  assert (length blooms' = 2048%nat) as Hl'.
  { apply Nat.le_antisymm; apply Nat.nlt_ge; intros Hx.
    - specialize (Hlk 2048%nat). destruct (lookup_lt_is_Some_2 blooms' 2048 Hx) as [? Ex]. by rewrite Ex, (lookup_ge_None_2 (g_blooms g)) in Hlk by lia.
    - specialize (Hlk (length blooms')). destruct (lookup_lt_is_Some_2 (g_blooms g) (length blooms')) as [? Ex]; [lia|].
      by rewrite Ex, (lookup_ge_None_2 blooms') in Hlk. }
  pose proof (Nat.div_mod_eq (g_sections g) 8). pose proof (Nat.div_mod_eq (length bs) 8).
  assert (length bs / 8 < g_sections g / 8)%nat as Hbyte by lia.
  split; cbn [g_sections g_nextSec g_blooms]; rewrite ?length_app; cbn [length]; try done; try lia.
  intros idx row Ex. pose proof (lookup_lt_Some _ _ _ Ex) as Hidx. rewrite Hl' in Hidx. rewrite Hlk in Ex.
  destruct (g_blooms g !! idx) as [row0|] eqn:E0; [|done]. destruct (Hrow idx row0 E0) as (Hl0 & Hb0 & Hbit). rewrite bool_decide_eq_true_2 in Ex by lia.
  cbn [fmap option_fmap option_map] in Ex. apply (inj Some) in Ex. subst row. split_and!; [by rewrite length_alter|by apply alter_row_bytes|]. intros s' Hs'. rewrite bit_at_or by lia. rewrite Hbit by done.
  destruct (decide (s' = length bs)) as [->|Hne].
  - rewrite lookup_ge_None_2, list_lookup_middle, bool_decide_eq_true_2 by done. done.
  - rewrite bool_decide_eq_false_2, orb_false_r by done. destruct (decide (s' < length bs)%nat); [by rewrite lookup_app_l|].
    by rewrite !lookup_ge_None_2 by (rewrite ?length_app; cbn [length]; lia).
Qed.

(** The filters of a section, added in order. *)
Fixpoint add_blooms (g : Generator) (i : nat) (bs : list Bloom) : outcome (Generator + generator_error) :=
  match bs with
  | [] => Ok (inl g)
  | b :: bs => r <- AddBloom g i b ;; match r with inl g => add_blooms g (S i) bs | inr e => Ok (inr e) end
  end.

Lemma add_blooms_ok bs : forall g done_, gen_ok g done_ -> (length done_ + length bs <= g_sections g)%nat -> Forall (fun b => length b = 256%nat) bs ->
  exists g', add_blooms g (length done_) bs = Ok (inl g') /\ gen_ok g' (done_ ++ bs) /\ g_sections g' = g_sections g.
Proof.
  induction bs as [|b bs IH]; intros g done_ Hg Hl Hb; cbn [add_blooms]; [exists g; by rewrite app_nil_r|].
  apply Forall_cons in Hb as [Hb Hbs]. cbn [length] in Hl.
  destruct (AddBloom_ok g done_ b Hg ltac:(lia) Hb) as (g1 & -> & Hg1 & E1). cbn [obind].
  destruct (IH g1 (done_ ++ [b]) Hg1) as (g2 & E2 & Hg2 & Es); [rewrite length_app, E1; cbn [length]; lia|done|].
  rewrite length_app, Nat.add_comm in E2. cbn [length Nat.add] in E2. exists g2. rewrite <- app_assoc in Hg2. split_and!; [done|done|congruence].
Qed.

(** The generator transposes.  Fed with the filters of all blocks of a section,
    it returns for each of the 2048 bits a vector whose bit [s] is that bit of the
    filter of block [s]. *)
Lemma generator_transposes (bs : list Bloom) :
  (length bs mod 8 = 0)%nat -> Forall (fun b => length b = 256%nat) bs ->
  exists g0 g, NewGenerator (length bs) = inl g0 /\ add_blooms g0 0 bs = Ok (inl g) /\
    forall idx, (idx < 2048)%nat -> exists row, Bitset g idx = Ok (inl row) /\ length row = (length bs / 8)%nat /\ Forall is_byte row /\
      forall s b, bs !! s = Some b -> bit_at row s = bloom_bit b idx.
Proof.
  intros H8 Hb. destruct (NewGenerator_ok (length bs) H8) as (g0 & E0 & Hg0 & Es0).
  destruct (add_blooms_ok bs g0 [] Hg0) as (g & E & [Hs Hn Hr Hl Hrow] & Es); [cbn [length]; lia|done|]. exists g0, g. split_and!; [done|done|].
  intros idx Hidx. destruct (lookup_lt_is_Some_2 (g_blooms g) idx) as [row Erow]; [lia|]. destruct (Hrow idx row Erow) as (Hlen & Hbytes & Hbit). exists row.
  unfold Bitset. rewrite Hn, Es, Es0. cbn [app]. rewrite Nat.eqb_refl. cbn [negb]. destruct (Nat.leb_spec 2048 idx); [lia|]. rewrite Erow.
  split_and!; [done|rewrite Hlen; f_equal; lia|done|]. intros s b Eb. rewrite Hbit by (pose proof (lookup_lt_Some _ _ _ Eb); lia). cbn [app]. by rewrite Eb.
Qed.
