(* ===== verification/LogFilter.v ===== *)
(** * Searching logs

    [eth/bloombits.go]: the index of the bit vectors of every section of blocks.
    [core/bloombits/matcher.go]: the search through it, as the flow of one section
    through the stages of the pipeline and the enumeration of the matches; the
    stages exchange sections in order, the scheduling of the requests for vectors is
    not modelled.  [eth/filters/filter.go]: the search for logs through the index
    and through the headers.  The theorem: the search returns exactly the logs in
    range that match, whatever part of the chain is indexed. *)

From Stdlib Require Import ZArith Lia.
From stdpp Require Import gmap.
From S2P Require Import Prelude Common Crypto VmState StateDB Bitutil Types Receipt Bloom.

Open Scope go_scope.

(** ** eth/bloombits.go *)

(** The database of compressed vectors; the key is made of the bit, the section and
    the hash of the last block of the section. *)
Definition bitsdb : Type := gmap (nat * Z * Hash) bytes.

Record BloomIndexer := MkBloomIndexer { bi_size : nat; bi_gen : option Generator; bi_section : Z; bi_head : Hash }.

Definition indexer_Reset (b : BloomIndexer) (section : Z) : BloomIndexer * option generator_error :=
  match NewGenerator (bi_size b) with
  | inl gen => (MkBloomIndexer (bi_size b) (Some gen) section 0, None)
  | inr e => (MkBloomIndexer (bi_size b) None section 0, Some e)
  end.

(** The error of [AddBloom] is dropped. *)
Definition indexer_Process {K : Keccak} (b : BloomIndexer) (header : Header) : outcome BloomIndexer :=
  gen <- of_option PanicNil (bi_gen b) ;;
  number <- deref (h_Number header) ;;
  r <- AddBloom gen (Z.to_nat (Uint64 number -u bi_section b *u Z.of_nat (bi_size b))) (h_Bloom header) ;;
  Ok (MkBloomIndexer (bi_size b) (Some (match r with inl gen => gen | inr _ => gen end)) (bi_section b) (Header_Hash header)).

(** The loop of [Commit] over the bits from [i]. *)
Fixpoint commit_bits (n i : nat) (b : BloomIndexer) (gen : Generator) (batch : bitsdb) : outcome (bitsdb + generator_error) :=
  match n with
  | O => Ok (inl batch)
  | S n =>
      bits <- Bitset gen i ;;
      match bits with
      | inr e => Ok (inr e)
      | inl bits => c <- CompressBytes bits ;; commit_bits n (S i) b gen (<[(i, bi_section b, bi_head b) := c]> batch)
      end
  end.

Definition indexer_Commit (b : BloomIndexer) (db : bitsdb) : outcome (bitsdb * option generator_error) :=
  gen <- of_option PanicNil (bi_gen b) ;;
  r <- commit_bits 2048 0 b gen db ;;
  match r with inl db' => Ok (db', None) | inr e => Ok (db, Some e) end.

(** What a handler of [startBloomHandlers] answers for one section. *)
Definition serve_bits (db : bitsdb) (ReadCanonicalHash : Z -> Hash) (sectionSize : nat) (bit : nat) (section : Z) : outcome (option bytes) :=
  let head := ReadCanonicalHash ((section +u 1) *u Z.of_nat sectionSize -u 1) in
  match db !! (bit, section, head) with
  | None => Ok None
  | Some compVector =>
      r <- DecompressBytes compVector (sectionSize / 8) ;;
      Ok (match r with inl blob => Some blob | inr _ => None end)
  end.

(** ** core/bloombits/matcher.go *)

Section matcher.
Context {K : Keccak} (sectionSize : nat) (bits : nat -> Z -> bytes).

(** The filters that constrain: an empty filter and one with a nil clause match
    everything. *)
Definition NewMatcher (filters : list (list (option bytes))) : list (list (list nat)) :=
  concat (map (fun filter =>
    match filter with
    | [] => []
    | _ => match mapM id filter with Some clauses => [map calcBloomIndexes clauses] | None => [] end
    end) filters).

(** The conjunction of the vectors of a clause; the destination is the first
    operand. *)
Fixpoint and_vectors (section : Z) (idxs : list nat) (andVector : option bytes) : outcome (option bytes) :=
  match idxs with
  | [] => Ok andVector
  | j :: idxs =>
      let data := bits j section in
      match andVector with
      | None => and_vectors section idxs (Some (gocopy (replicate (sectionSize / 8) 0) data))
      | Some v => r <- ANDBytes true v v data ;; and_vectors section idxs (Some (fst r))
      end
  end.

Fixpoint or_vectors (section : Z) (clauses : list (list nat)) (orVector : option bytes) : outcome (option bytes) :=
  match clauses with
  | [] => Ok orVector
  | c :: clauses =>
      andVector <- and_vectors section c None ;;
      match orVector with
      | None => or_vectors section clauses andVector
      | Some v =>
          a <- of_option PanicOther andVector ;;
          r <- ORBytes true v v a ;; or_vectors section clauses (Some (fst r))
      end
  end.

(** One stage: [None] when the section has no match left. *)
Definition subMatch (filter : list (list nat)) (section : Z) (bitset : bytes) : outcome (option bytes) :=
  orVector <- or_vectors section filter None ;;
  let orVector := default (replicate (sectionSize / 8) 0) orVector in
  r <- ANDBytes true orVector orVector bitset ;;
  t <- fastTestBytes (fst r) ;;
  Ok (if t : bool then Some (fst r) else None).

Fixpoint run_section (filters : list (list (list nat))) (section : Z) (bitset : bytes) : outcome (option bytes) :=
  match filters with
  | [] => Ok (Some bitset)
  | f :: filters =>
      r <- subMatch f section bitset ;;
      match r with Some bitset => run_section filters section bitset | None => Ok None end
  end.

(** The enumeration of the set bits from [i] to [last]; a zero byte is skipped. *)
Fixpoint emit (fuel : nat) (i last sectionStart : Z) (bitset : bytes) : outcome (list Z) :=
  match fuel with
  | O => NoFuel
  | S fuel =>
      if last <? i then Ok []
      else
        next <- of_option PanicIndex (zget bitset ((i -u sectionStart) / 8)) ;;
        if next =? 0 then emit fuel ((if i mod 8 =? 0 then i +u 7 else i) +u 1) last sectionStart bitset
        else
          rest <- emit fuel (i +u 1) last sectionStart bitset ;;
          Ok (if negb (Z.land next (u8 (Z.shiftl 1 (7 - i mod 8))) =? 0) then i :: rest else rest)
  end.

(** The matches of a section between [begin] and [end_]. *)
Definition section_matches (filters : list (list (list nat))) (begin end_ section : Z) : outcome (list Z) :=
  r <- run_section filters section (replicate (sectionSize / 8) 255) ;;
  match r with
  | None => Ok []
  | Some bitset =>
      let size := Z.of_nat sectionSize in
      let sectionStart := section *u size in
      let first := if sectionStart <? begin then begin else sectionStart in
      let last := sectionStart +u size -u 1 in
      let last := if end_ <? last then end_ else last in
      emit (S (Z.to_nat (last - first + 1))) first last sectionStart bitset
  end.

Fixpoint sections_matches (filters : list (list (list nat))) (begin end_ : Z) (sections : list Z) : outcome (list Z) :=
  match sections with
  | [] => Ok []
  | s :: sections =>
      r <- section_matches filters begin end_ s ;;
      rest <- sections_matches filters begin end_ sections ;; Ok (r ++ rest)
  end.

(** [Start] and what it sends to [results]. *)
Definition matcher_Start (filters : list (list (list nat))) (begin end_ : Z) : outcome (list Z) :=
  let size := Z.of_nat sectionSize in
  if (sectionSize =? 0)%nat then Panic PanicOther
  else sections_matches filters begin end_ (seqZ (begin / size) (end_ / size - begin / size + 1)).
End matcher.

(** ** eth/filters/filter.go *)

Definition includes (addresses : list Address) (a : Address) : bool := existsb (fun addr => addr =? a) addresses.

(** The topics of a log against the lists of alternatives; the log has at least as
    many topics as there are lists. *)
Fixpoint topics_match (topics : list (list Hash)) (log_topics : list Hash) : bool :=
  match topics, log_topics with
  | [], _ => true
  | sub :: topics, t :: log_topics =>
      (match sub with [] => true | _ => existsb (fun topic => t =? topic) sub end) && topics_match topics log_topics
  | _ :: _, [] => false
  end.

Definition log_matches (fromBlock toBlock : option Z) (addresses : list Address) (topics : list (list Hash)) (l : Log) : bool :=
  negb (match fromBlock with Some b => (0 <=? i64 b) && (log_BlockNumber l <? Uint64 b) | None => false end) &&
  negb (match toBlock with Some b => (0 <=? i64 b) && (Uint64 b <? log_BlockNumber l) | None => false end) &&
  negb ((0 <? zlen addresses) && negb (includes addresses (log_Address l))) &&
  negb (zlen (log_Topics l) <? zlen topics) &&
  topics_match topics (log_Topics l).

Definition filterLogs (logs : list txLog) (fromBlock toBlock : option Z) (addresses : list Address) (topics : list (list Hash)) : list txLog :=
  List.filter (fun l => log_matches fromBlock toBlock addresses topics (log_of l)) logs.

Definition bloomFilter {K : Keccak} (bloom : Bloom) (addresses : list Address) (topics : list (list Hash)) : bool :=
  (match addresses with [] => true | _ => existsb (fun a => Bloom_Test bloom (Address_Bytes a)) addresses end) &&
  forallb (fun sub => match sub with [] => true | _ => existsb (fun t => Bloom_Test bloom (Hash_Bytes t)) sub end) topics.

(** What a filter asks of the node; [inr] is an error of the backend. *)
Class Backend := {
  backend_error : Type;
  LatestHeader : option Header;
  HeaderByNumber : Z -> option Header + backend_error;
  GetReceipts : Hash -> list Receipt + backend_error;
  BloomStatus : nat * Z;                (* size, sections *)
  ServiceFilter : nat -> Z -> bytes;    (* the vector of a bit and a section *)
}.

Section filter.
Context {K : Keccak} {B : Backend}.

Definition GetLogs (hash : Hash) : list (list txLog) + backend_error :=
  match GetReceipts hash with inl rs => inl (map r_Logs rs) | inr e => inr e end.

Record Filter := MkFilter { f_addresses : list Address; f_topics : list (list Hash); f_begin : Z; f_end : Z; f_matcher : list (list (list nat)) }.

Definition NewRangeFilter (begin end_ : Z) (addresses : list Address) (topics : list (list Hash)) : Filter :=
  let filters := (match addresses with [] => [] | _ => [map (fun a => Some (Address_Bytes a)) addresses] end) ++
                 map (fun sub => map (fun t => Some (Hash_Bytes t)) sub) topics in
  MkFilter addresses topics begin end_ (NewMatcher filters).

(** Logs without their transaction hash are loaded again from the receipts. *)
Definition checkMatches (f : Filter) (header : Header) : list txLog + backend_error :=
  match GetLogs (Header_Hash header) with
  | inr e => inr e
  | inl logsList =>
      let found := filterLogs (concat logsList) None None (f_addresses f) (f_topics f) in
      match found with
      | [] => inl []
      | l :: _ =>
          if log_TxHash l =? 0 then
            match GetReceipts (Header_Hash header) with
            | inr e => inr e
            | inl rs => inl (filterLogs (concat (map r_Logs rs)) None None (f_addresses f) (f_topics f))
            end
          else inl found
      end
  end.

Definition blockLogs (f : Filter) (header : Header) : list txLog + backend_error :=
  if bloomFilter (h_Bloom header) (f_addresses f) (f_topics f) then checkMatches f header else inl [].

(** [unindexedLogs]: the logs, the error, and [f.begin] after the loop. *)
Fixpoint unindexedLogs (fuel : nat) (f : Filter) (begin end_ : Z) : outcome (list txLog * option backend_error * Z) :=
  match fuel with
  | O => NoFuel
  | S fuel =>
      if begin <=? end_ then
        match HeaderByNumber begin with
        | inr e => Ok ([], Some e, begin)
        | inl None => Ok ([], None, begin)
        | inl (Some header) =>
            match blockLogs f header with
            | inr e => Ok ([], Some e, begin)
            | inl found => r <- unindexedLogs fuel f (begin + 1) end_ ;; Ok (found ++ fst (fst r), snd (fst r), snd r)
            end
        end
      else Ok ([], None, begin)
  end.

(** The loop of [indexedLogs] over the matches; [true]: the loop got to the end. *)
Fixpoint load_matches (f : Filter) (matches : list Z) : list txLog * option backend_error * bool :=
  match matches with
  | [] => ([], None, true)
  | number :: matches =>
      match HeaderByNumber number with
      | inr e => ([], Some e, false)
      | inl None => ([], None, false)
      | inl (Some header) =>
          match checkMatches f header with
          | inr e => ([], Some e, false)
          | inl found => let '(logs, err, fin) := load_matches f matches in (found ++ logs, err, fin)
          end
      end
  end.

(** The block after the last match that was looked at. *)
Fixpoint after_matches (f : Filter) (begin : Z) (matches : list Z) : Z :=
  match matches with
  | [] => begin
  | number :: matches =>
      match HeaderByNumber number with
      | inl (Some header) => match checkMatches f header with inl _ => after_matches f (i64 (i64 number + 1)) matches | inr _ => i64 (i64 number + 1) end
      | _ => i64 (i64 number + 1)
      end
  end.

Definition indexedLogs (f : Filter) (begin end_ : Z) : outcome (list txLog * option backend_error * Z) :=
  matches <- matcher_Start (fst BloomStatus) ServiceFilter (f_matcher f) begin end_ ;;
  let '(logs, err, fin) := load_matches f matches in
  Ok (logs, err, if fin : bool then i64 (i64 end_ + 1) else after_matches f begin matches).

(** [Logs] of a range filter. *)
Definition Filter_Logs (f : Filter) : outcome (list txLog * option backend_error) :=
  match LatestHeader with
  | None => Ok ([], None)
  | Some header =>
      number <- deref (h_Number header) ;;
      let head := Uint64 number in
      let begin := if f_begin f =? -1 then i64 head else f_begin f in
      let end_ := if f_end f =? -1 then head else u64 (f_end f) in
      let '(size, sections) := BloomStatus in
      let indexed := sections *u Z.of_nat size in
      r <- (if u64 begin <? indexed then indexedLogs f (u64 begin) (if end_ <? indexed then end_ else indexed -u 1)
            else Ok ([], None, begin)) ;;
      let '(logs, err, begin) := r in
      match err with
      | Some e => Ok (logs, Some e)
      | None =>
          r <- unindexedLogs (S (Z.to_nat (i64 end_ - begin + 1))) f begin (i64 end_) ;;
          let '(rest, err, _) := r in Ok (logs ++ rest, err)
      end
  end.
End filter.

(** ** Vectors *)

(** A vector of [L] bytes with the bits [f]. *)
Definition vector (L : nat) (v : bytes) (f : nat -> bool) : Prop :=
  length v = L /\ Forall is_byte v /\ forall s, (s < 8 * L)%nat -> bit_at v s = f s.

Lemma bit_at_zip (op : Z -> Z -> Z) `{!Bitwise op} (a b : bytes) s : length a = length b -> (s / 8 < length a)%nat ->
  bit_at (zip_with op a b) s = bit_op (f := op) (bit_at a s) (bit_at b s).
Proof.
  intros Hl Hs. unfold bit_at. rewrite !nth_lookup, lookup_zip_with.
  destruct (lookup_lt_is_Some_2 a _ Hs) as [x ->]. destruct (lookup_lt_is_Some_2 b (s / 8)) as [y ->]; [lia|]. cbn [mbind option_bind default from_option id].
  apply bit_op_spec.
Qed.

Lemma land_byte x y : is_byte x -> is_byte y -> is_byte (Z.land x y).
Proof.
  unfold is_byte. intros Hx Hy. assert (0 <= Z.land x y) by (apply Z.land_nonneg; lia). split; [done|].
  destruct (Z.eq_dec (Z.land x y) 0) as [->|]; [lia|]. apply (Z.log2_lt_pow2 _ 8); [lia|].
  eapply Z.le_lt_trans; [apply Z.log2_land; lia|]. destruct (Z.eq_dec x 0) as [->|]; [rewrite Z.land_0_l in *; lia|].
  apply Z.min_lt_iff. left. apply Z.log2_lt_pow2; lia.
Qed.

Lemma Forall_zip_bytes (op : Z -> Z -> Z) (a b : bytes) :
  (forall x y, is_byte x -> is_byte y -> is_byte (op x y)) -> Forall is_byte a -> Forall is_byte b -> Forall is_byte (zip_with op a b).
Proof.
  intros Hop Ha. revert b. induction Ha as [|x a Hx Ha IH]; intros b Hb; [apply Forall_nil_2|]. destruct Hb as [|y b Hy Hb]; [apply Forall_nil_2|].
  cbn [zip_with]. apply Forall_cons_2; auto.
Qed.

Lemma div8_lt s L : (s < 8 * L)%nat -> (s / 8 < L)%nat.
Proof. intros H. apply Nat.Div0.div_lt_upper_bound. lia. Qed.

Lemma AND_vector L a b f g : vector L a f -> vector L b g ->
  exists v, ANDBytes true a a b = Ok (v, L) /\ vector L v (fun s => f s && g s).
Proof.
  intros (La & Ba & Fa) (Lb & Bb & Fb). unfold ANDBytes, fastANDBytes. destruct (fast_op_safe Z.land a a b Ba Bb ltac:(lia)) as [-> ->].
  rewrite drop_ge, app_nil_r by lia. replace (length a `min` length b)%nat with L by lia. eexists. split; [done|].
  split; [rewrite length_zip_with; lia|]. split; [apply Forall_zip_bytes; [exact land_byte|done..]|].
  intros s Hs. pose proof (div8_lt _ _ Hs). rewrite (bit_at_zip Z.land) by lia. cbn [bit_op Bitwise_land]. by rewrite Fa, Fb.
Qed.

Lemma OR_vector L a b f g : vector L a f -> vector L b g ->
  exists v, ORBytes true a a b = Ok (v, L) /\ vector L v (fun s => f s || g s).
Proof.
  intros (La & Ba & Fa) (Lb & Bb & Fb). unfold ORBytes, fastORBytes. destruct (fast_op_safe Z.lor a a b Ba Bb ltac:(lia)) as [-> ->].
  rewrite drop_ge, app_nil_r by lia. replace (length a `min` length b)%nat with L by lia. eexists. split; [done|].
  split; [rewrite length_zip_with; lia|]. split; [apply Forall_zip_bytes; [exact lor_byte|done..]|].
  intros s Hs. pose proof (div8_lt _ _ Hs). rewrite (bit_at_zip Z.lor) by lia. cbn [bit_op Bitwise_lor]. by rewrite Fa, Fb.
Qed.

Lemma vector_ext L v f g : vector L v f -> (forall s, (s < 8 * L)%nat -> f s = g s) -> vector L v g.
Proof. intros (Hl & Hb & Hf) E. split_and!; [done|done|]. intros s Hs. by rewrite <- E, Hf. Qed.

Lemma vector_zero L v f : vector L v f -> safeTestBytes v = false -> forall s, (s < 8 * L)%nat -> f s = false.
Proof.
  intros (Hl & Hb & Hf) Ht s Hs. rewrite <- Hf by done. unfold bit_at. rewrite nth_lookup.
  destruct (v !! (s / 8)%nat) as [x|] eqn:E; [|apply Z.bits_0]. cbn [default from_option id].
  assert (x = 0) as ->; [|apply Z.bits_0]. destruct (Z.eqb_spec x 0); [done|]. exfalso.
  assert (safeTestBytes v = true); [|congruence]. unfold safeTestBytes. apply existsb_exists. exists x. split; [|by destruct (Z.eqb_spec x 0)].
  apply list_elem_of_In. by eapply list_elem_of_lookup_2.
Qed.

Lemma ones_vector L : vector L (replicate L 255) (fun _ => true).
Proof.
  split; [apply length_replicate|]. split; [apply Forall_replicate; split; lia|]. intros s Hs. unfold bit_at. rewrite nth_lookup, lookup_replicate_2 by by apply div8_lt.
  cbn [default from_option id]. destruct (bit_mask s) as [_ Hm]. change 255 with (Z.ones 8). apply Z.ones_spec_low. lia.
Qed.

(** ** The stages of the matcher *)

Section matcher_proofs.
Context {K : Keccak} (sectionSize : nat) (bits : nat -> Z -> bytes) (section : Z) (bloom : nat -> Bloom).
Let L := (sectionSize / 8)%nat.
Hypothesis Hbits : forall j, (j < 2048)%nat -> vector L (bits j section) (fun s => bloom_bit (bloom s) j).

Definition clause_ok (c : list nat) : Prop := c <> [] /\ Forall (fun j => j < 2048)%nat c.

Lemma and_vectors_ok idxs : forall v f, Forall (fun j => j < 2048)%nat idxs -> vector L v f ->
  exists v', and_vectors sectionSize bits section idxs (Some v) = Ok (Some v') /\ vector L v' (fun s => f s && forallb (bloom_bit (bloom s)) idxs).
Proof.
  induction idxs as [|j idxs IH]; intros v f Hj Hv; cbn [and_vectors].
  { exists v. split; [done|]. eapply vector_ext; [done|]. intros s _. cbn. by rewrite andb_true_r. }
  apply Forall_cons in Hj as [Hj Hjs]. destruct (AND_vector L v (bits j section) f _ Hv (Hbits j Hj)) as (v1 & -> & Hv1). cbn [obind fst].
  destruct (IH v1 _ Hjs Hv1) as (v' & E & Hv'). exists v'. split; [done|]. eapply vector_ext; [done|]. intros s _. cbn [forallb]. by rewrite andb_assoc.
Qed.

Lemma clause_vector c : clause_ok c ->
  exists v, and_vectors sectionSize bits section c None = Ok (Some v) /\ vector L v (fun s => forallb (bloom_bit (bloom s)) c).
Proof.
  intros [Hne Hj]. destruct c as [|j c]; [done|]. apply Forall_cons in Hj as [Hj Hjs]. cbn [and_vectors].
  pose proof (Hbits j Hj) as Hb. destruct Hb as (Hl & Hby & Hf). fold L.
  assert (gocopy (replicate L 0) (bits j section) = bits j section) as ->.
  { unfold gocopy. rewrite length_replicate, take_ge, drop_ge, app_nil_r by (rewrite ?length_replicate; lia). done. }
  destruct (and_vectors_ok c (bits j section) _ Hjs (conj Hl (conj Hby Hf))) as (v & E & Hv). exists v. split; [done|].
  eapply vector_ext; [done|]. done.
Qed.

Lemma or_vectors_ok cs : forall v f, Forall clause_ok cs -> vector L v f ->
  exists v', or_vectors sectionSize bits section cs (Some v) = Ok (Some v') /\
    vector L v' (fun s => f s || existsb (fun c => forallb (bloom_bit (bloom s)) c) cs).
Proof.
  induction cs as [|c cs IH]; intros v f Hc Hv; cbn [or_vectors].
  { exists v. split; [done|]. eapply vector_ext; [done|]. intros s _. cbn. by rewrite orb_false_r. }
  apply Forall_cons in Hc as [Hc Hcs]. destruct (clause_vector c Hc) as (a & -> & Ha). cbn [obind of_option].
  destruct (OR_vector L v a _ _ Hv Ha) as (v1 & -> & Hv1). cbn [obind fst]. destruct (IH v1 _ Hcs Hv1) as (v' & E & Hv').
  exists v'. split; [done|]. eapply vector_ext; [done|]. intros s _. cbn [existsb]. by rewrite orb_assoc.
Qed.

Definition filter_matches (b : Bloom) (filter : list (list nat)) : bool := existsb (fun c => forallb (bloom_bit b) c) filter.

Lemma subMatch_ok filter bitset f : filter <> [] -> Forall clause_ok filter -> vector L bitset f ->
  exists r, subMatch sectionSize bits filter section bitset = Ok r /\
    match r with
    | Some v => vector L v (fun s => f s && filter_matches (bloom s) filter)
    | None => forall s, (s < 8 * L)%nat -> f s && filter_matches (bloom s) filter = false
    end.
Proof.
  intros Hne Hc Hv. destruct filter as [|c cs]; [done|]. apply Forall_cons in Hc as [Hc Hcs]. unfold subMatch. cbn [or_vectors].
  destruct (clause_vector c Hc) as (a & -> & Ha). cbn [obind]. destruct (or_vectors_ok cs a _ Hcs Ha) as (o & -> & Ho). cbn [obind default from_option id].
  destruct (AND_vector L o bitset _ _ Ho Hv) as (v & -> & Hv'). cbn [obind fst].
  assert (vector L v (fun s => f s && filter_matches (bloom s) (c :: cs))) as Hv2.
  { eapply vector_ext; [exact Hv'|]. intros s _. cbv beta. apply andb_comm. }
  rewrite fastTestBytes_safe by apply Hv2. cbn [obind]. eexists. split; [done|]. destruct (safeTestBytes v) eqn:E; [done|]. by eapply vector_zero.
Qed.

Lemma run_section_ok filters : forall bitset f, Forall (fun fl => fl <> [] /\ Forall clause_ok fl) filters -> vector L bitset f ->
  exists r, run_section sectionSize bits filters section bitset = Ok r /\
    match r with
    | Some v => vector L v (fun s => f s && forallb (filter_matches (bloom s)) filters)
    | None => forall s, (s < 8 * L)%nat -> f s && forallb (filter_matches (bloom s)) filters = false
    end.
Proof.
  induction filters as [|fl filters IH]; intros bitset f Hf Hv; cbn [run_section].
  { eexists. split; [done|]. eapply vector_ext; [done|]. intros s _. cbn. by rewrite andb_true_r. }
  apply Forall_cons in Hf as [[Hne Hc] Hf]. destruct (subMatch_ok fl bitset f Hne Hc Hv) as ([v|] & -> & Hr); cbn [obind].
  - destruct (IH v _ Hf Hr) as (r & E & Hr'). exists r. split; [done|]. cbn [forallb]. destruct r as [v'|].
    + eapply vector_ext; [done|]. intros s _. cbv beta. by rewrite andb_assoc.
    + intros s Hs. rewrite andb_assoc. by apply Hr'.
  - eexists. split; [done|]. intros s Hs. cbn [forallb]. rewrite andb_assoc. by rewrite Hr.
Qed.
End matcher_proofs.

(** ** The enumeration *)

Lemma seqZ_split i m n : 0 <= m <= n -> seqZ i n = seqZ i m ++ seqZ (i + m) (n - m).
Proof. intros H. replace n with (m + (n - m)) at 1 by lia. apply seqZ_app; lia. Qed.

Lemma filter_none {A} (p : A -> bool) l : (forall x, x ∈ l -> p x = false) -> List.filter p l = [].
Proof.
  induction l as [|x l IH]; intros H; [done|]. cbn [List.filter]. rewrite H by apply list_elem_of_here. apply IH. intros y Hy. apply H. by apply list_elem_of_further.
Qed.

Section emit_proof.
Context (L : nat) (v : bytes) (f : nat -> bool) (start last : Z).
Hypothesis Hv : vector L v f.
Hypothesis Hstart : 0 <= start /\ start mod 8 = 0.
Hypothesis Hlast : last < start + 8 * Z.of_nat L /\ last < 2 ^ 62.

Lemma emit_next i : start <= i <= last ->
  exists next, zget v ((i -u start) / 8) = Some next /\
    negb (Z.land next (u8 (Z.shiftl 1 (7 - i mod 8))) =? 0) = f (Z.to_nat (i - start)) /\
    (next = 0 -> forall n, start <= n -> (n - start) / 8 = (i - start) / 8 -> n <= last -> f (Z.to_nat (n - start)) = false).
Proof.
  intros Hi. destruct Hv as (Hl & Hb & Hf), Hstart as [Hs0 Hs8], Hlast as [Hl1 Hl2]. change (2 ^ 62) with 4611686018427387904 in Hl2.
  rewrite u64_small by u64_lia. assert (forall n, start <= n <= last -> Z.to_nat ((n - start) / 8) = (Z.to_nat (n - start) / 8)%nat /\
    n mod 8 = Z.of_nat (Z.to_nat (n - start) mod 8)) as Hn.
  { intros n Hn. split; [by rewrite Z2Nat.inj_div by lia|]. rewrite Nat2Z.inj_mod, Z2Nat.id by lia. change (Z.of_nat 8) with 8.
    replace (n - start) with (n + (- (start / 8)) * 8) by (pose proof (Z.div_mod start 8 ltac:(lia)); lia). by rewrite Z.mod_add. }
  destruct (zget_Some v ((i - start) / 8)) as [next En].
  { split; [apply Z.div_pos; lia|]. apply Z.div_lt_upper_bound; [lia|]. unfold zlen. lia. }
  exists next. rewrite En. split; [done|]. unfold zget in En. destruct (Z.leb_spec 0 ((i - start) / 8)); [|done].
  destruct (Hn i Hi) as [E1 E2]. rewrite E1 in En. split.
  - rewrite E2. destruct (bit_mask (Z.to_nat (i - start))) as [-> Hm]. rewrite land_pow2, negb_involutive by lia.
    rewrite <- Hf by lia. unfold bit_at. by rewrite nth_lookup, En.
  - intros -> n Hn1 Hn2 Hn3. destruct (Hn n ltac:(lia)) as [E3 _]. rewrite <- Hf by lia. unfold bit_at. rewrite nth_lookup, <- E3, Hn2, E1, En. apply Z.bits_0.
Qed.

Lemma emit_ok fuel : forall i, start <= i -> Z.max 0 (last - i + 1) < Z.of_nat fuel -> i <= 2 ^ 62 + 8 ->
  emit fuel i last start v = Ok (List.filter (fun n => f (Z.to_nat (n - start))) (seqZ i (last - i + 1))).
Proof.
  change (2 ^ 62) with 4611686018427387904 in *. induction fuel as [|fuel IH]; intros i Hi Hfuel Hmax.
  { lia. }
  cbn [emit]. destruct (Z.ltb_spec last i) as [Hlt|Hle].
  { rewrite seqZ_nil by lia. done. }
  destruct (emit_next i ltac:(lia)) as (next & -> & Hbit & Hzero). cbn [of_option obind].
  rewrite (u64_small (i + 1)) by u64_lia. destruct (Z.eqb_spec next 0) as [->|Hne].
  - specialize (Hzero eq_refl). destruct Hstart as [Hs0 Hs8]. set (m := if i mod 8 =? 0 then 8 else 1).
    assert ((if i mod 8 =? 0 then i +u 7 else i) +u 1 = i + m) as ->.
    { unfold m. destruct (i mod 8 =? 0); [rewrite (u64_small (i + 7)), u64_small by u64_lia; lia|apply u64_small; u64_lia]. }
    assert (forall n, i <= n < i + m -> n <= last -> f (Z.to_nat (n - start)) = false) as Hsk.
    { intros n Hn Hnl. apply Hzero; [lia| |done]. unfold m in Hn. destruct (Z.eqb_spec (i mod 8) 0) as [E|E]; [|by replace n with i by lia].
      pose proof (Z.div_mod i 8 ltac:(lia)). pose proof (Z.div_mod start 8 ltac:(lia)).
      replace (i - start) with ((i / 8 - start / 8) * 8) by lia. replace (n - start) with ((n - i) + (i / 8 - start / 8) * 8) by lia.
      rewrite Z.div_add, Z.div_mul, Z.div_small by lia. done. }
    assert (1 <= m <= 8) by (unfold m; destruct (i mod 8 =? 0); lia).
    rewrite IH by lia. f_equal. destruct (decide (i + m <= last + 1)) as [Hd|Hd].
    + rewrite (seqZ_split i m) by lia. rewrite List.filter_app, (filter_none _ (seqZ i m)).
      * cbn [app]. do 2 f_equal. lia.
      * intros n Hn. apply elem_of_seqZ in Hn. apply Hsk; lia.
    + rewrite (seqZ_nil (i + m)) by lia. symmetry. apply filter_none. intros n Hn. apply elem_of_seqZ in Hn. apply Hsk; lia.
  - rewrite IH by lia. cbn [obind]. rewrite Hbit. replace (last - (i + 1) + 1) with (Z.pred (last - i + 1)) by lia.
    rewrite (seqZ_cons i (last - i + 1)) by lia. unfold Z.succ. cbn [List.filter]. by destruct (f (Z.to_nat (i - start))).
Qed.
End emit_proof.

Section start_proofs.
Context {K : Keccak} (size : nat) (bits : nat -> Z -> bytes) (blm : Z -> Bloom) (sections : Z) (filters : list (list (list nat))).
Hypothesis Hsize : (0 < size /\ size mod 8 = 0)%nat.
Hypothesis Hsections : 0 <= sections /\ sections * Z.of_nat size <= 2 ^ 61.
Hypothesis Hvec : forall section j, 0 <= section < sections -> (j < 2048)%nat ->
  vector (size / 8) (bits j section) (fun s => bloom_bit (blm (section * Z.of_nat size + Z.of_nat s)) j).
Hypothesis Hfilters : Forall (fun fl => fl <> [] /\ Forall clause_ok fl) filters.

(** A block passes all filters. *)
Definition block_matches (n : Z) : bool := forallb (filter_matches (blm n)) filters.

Lemma section_matches_ok begin end_ section : 0 <= section < sections -> 0 <= begin <= 2 ^ 61 -> end_ < sections * Z.of_nat size ->
  section_matches size bits filters begin end_ section =
  Ok (List.filter block_matches (let first := Z.max (section * Z.of_nat size) begin in
                                 seqZ first (Z.min ((section + 1) * Z.of_nat size - 1) end_ - first + 1))).
Proof.
  intros Hs Hb He. destruct Hsize as [Hp H8], Hsections as [_ Hmax]. change (2 ^ 61) with 2305843009213693952 in *.
  pose proof (Nat.div_mod_eq size 8). set (z := Z.of_nat size) in *. assert (section * z + z <= sections * z) by nia. assert (0 <= section * z) by nia.
  unfold section_matches. fold z. rewrite !(u64_small (section * z)), (u64_small (section * z + z)), u64_small by u64_lia.
  destruct (run_section_ok size bits section (fun s => blm (section * z + Z.of_nat s)) (fun j Hj => Hvec section j Hs Hj) filters _ _ Hfilters
    (ones_vector (size / 8))) as (r & -> & Hr). cbn [obind].
  assert ((if section * z <? begin then begin else section * z) = Z.max (section * z) begin) as -> by (destruct (Z.ltb_spec (section * z) begin); lia).
  assert ((if end_ <? section * z + z - 1 then end_ else section * z + z - 1) = Z.min ((section + 1) * z - 1) end_) as ->
    by (destruct (Z.ltb_spec end_ (section * z + z - 1)); lia).
  set (first := Z.max (section * z) begin). set (last := Z.min ((section + 1) * z - 1) end_). cbv zeta.
  assert (forall n, first <= n <= last -> block_matches n = true && forallb (filter_matches (blm (section * z + Z.of_nat (Z.to_nat (n - section * z))))) filters) as Hbm.
  { intros n Hn. unfold block_matches. cbn [andb]. rewrite Z2Nat.id by lia. do 3 f_equal. lia. }
  destruct r as [v|].
  - rewrite (emit_ok (size / 8) v _ (section * z) last Hr); unfold first, last; try lia.
    + f_equal. apply List.filter_ext_in. intros n Hn. apply list_elem_of_In, elem_of_seqZ in Hn. symmetry. apply Hbm. unfold first, last. lia.
    + split; [done|]. assert (z = 8 * Z.of_nat (size / 8)) as Ez by (unfold z; lia).
      replace (section * z) with (section * Z.of_nat (size / 8) * 8) by (rewrite Ez; ring). apply Z.mod_mul. lia.
  - f_equal. symmetry. apply filter_none. intros n Hn. apply elem_of_seqZ in Hn. rewrite Hbm by lia. apply Hr. lia.
Qed.

Lemma sections_matches_ok begin end_ k : 0 <= begin <= 2 ^ 61 -> end_ < sections * Z.of_nat size -> forall a,
  0 <= a -> Z.of_nat k = end_ / Z.of_nat size - a + 1 -> begin < (a + 1) * Z.of_nat size ->
  sections_matches size bits filters begin end_ (seqZ a (Z.of_nat k)) =
  Ok (List.filter block_matches (let first := Z.max (a * Z.of_nat size) begin in seqZ first (end_ - first + 1))).
Proof.
  intros Hb He. set (z := Z.of_nat size) in *. assert (0 < z) by (unfold z; lia). pose proof (Z.div_mod end_ z ltac:(lia)) as Hdm.
  pose proof (Z.mod_pos_bound end_ z ltac:(lia)) as Hmod. induction k as [|k IH]; intros a Ha Hk Hba.
  - cbn [seqZ]. rewrite (seqZ_nil a) by lia. cbn [sections_matches]. rewrite seqZ_nil; [done|]. assert (a = end_ / z + 1) by lia. nia.
  - rewrite seqZ_cons by lia. cbn [sections_matches]. assert (a < sections) by nia.
    rewrite section_matches_ok by (done || lia). fold z. cbn [obind]. replace (Z.pred (Z.of_nat (S k))) with (Z.of_nat k) by lia. unfold Z.succ.
    rewrite IH by (lia || nia). cbn [obind]. f_equal. rewrite <- List.filter_app. f_equal. cbv zeta.
    replace (Z.max ((a + 1) * z) begin) with ((a + 1) * z) by lia. set (first := Z.max (a * z) begin).
    assert (first < (a + 1) * z) by (unfold first; nia). destruct (decide ((a + 1) * z <= end_)) as [Hd|Hd].
    + rewrite (seqZ_split first ((a + 1) * z - first) (end_ - first + 1)) by lia.
      replace (Z.min ((a + 1) * z - 1) end_ - first + 1) with ((a + 1) * z - first) by lia. f_equal. f_equal; lia.
    + rewrite (seqZ_nil ((a + 1) * z)) by lia. rewrite app_nil_r. f_equal. lia.
Qed.

(** The index returns the blocks in range that pass the filters, in order. *)
Lemma matcher_Start_ok begin end_ : 0 <= begin <= 2 ^ 61 -> 0 <= end_ < sections * Z.of_nat size ->
  matcher_Start size bits filters begin end_ = Ok (List.filter block_matches (seqZ begin (end_ - begin + 1))).
Proof.
  intros Hb He. unfold matcher_Start. destruct Hsize as [Hp _]. destruct (Nat.eqb_spec size 0); [lia|]. set (z := Z.of_nat size) in *. assert (0 < z) by (unfold z; lia).
  pose proof (Z.div_mod end_ z ltac:(lia)). pose proof (Z.mod_pos_bound end_ z ltac:(lia)).
  pose proof (Z.div_mod begin z ltac:(lia)). pose proof (Z.mod_pos_bound begin z ltac:(lia)). pose proof (Z.div_pos begin z ltac:(lia) ltac:(lia)).
  destruct (decide (begin / z <= end_ / z + 1)) as [Hd|Hd].
  - pose proof (sections_matches_ok begin end_ (Z.to_nat (end_ / z - begin / z + 1)) Hb ltac:(lia) (begin / z)) as E. fold z in E.
    rewrite Z2Nat.id in E by lia. rewrite E by nia. cbv zeta. do 2 f_equal. f_equal; nia.
  - rewrite seqZ_nil by lia. rewrite seqZ_nil by nia. done.
Qed.
End start_proofs.

(** ** The filters of a search *)

Section filters.
Context {K : Keccak}.

Lemma clause_ok_indexes v : clause_ok (calcBloomIndexes v).
Proof. destruct (bloomValues_indexes v) as (j1 & j2 & j3 & E & _ & Hj). rewrite E in *. done. Qed.

Lemma mapM_some {A} (l : list A) : mapM id (map Some l) = Some l.
Proof. induction l as [|x l IH]; [done|]. cbn [map mapM]. rewrite IH. reflexivity. Qed.

(** The filters as lists of values. *)
Definition filter_values (addresses : list Address) (topics : list (list Hash)) : list (list bytes) :=
  (match addresses with [] => [] | _ => [map Address_Bytes addresses] end) ++ map (map Hash_Bytes) topics.

Lemma NewRangeFilter_matcher begin end_ addresses topics :
  f_matcher (NewRangeFilter begin end_ addresses topics) = NewMatcher (map (map Some) (filter_values addresses topics)).
Proof.
  unfold NewRangeFilter, filter_values. cbn [f_matcher]. f_equal. rewrite map_app. f_equal.
  - destruct addresses as [|a l]; [done|]. cbn [map]. by rewrite map_map.
  - rewrite map_map. apply map_ext. intros sub. by rewrite map_map.
Qed.

Lemma NewMatcher_ok vs : Forall (fun fl => fl <> [] /\ Forall clause_ok fl) (NewMatcher (map (map Some) vs)).
Proof.
  induction vs as [|fl vs IH]; [apply Forall_nil_2|]. unfold NewMatcher in *. cbn [map concat]. apply Forall_app. split; [|done].
  destruct fl as [|v fl]; [apply Forall_nil_2|]. cbn [map]. change (Some v :: map Some fl) with (map Some (v :: fl)). rewrite mapM_some.
  apply Forall_cons_2; [|apply Forall_nil_2]. split; [done|]. apply Forall_map, Forall_forall. intros x _. apply clause_ok_indexes.
Qed.

Lemma NewMatcher_matches b vs :
  forallb (filter_matches b) (NewMatcher (map (map Some) vs)) = forallb (fun fl => match fl with [] => true | _ => existsb (Bloom_Test b) fl end) vs.
Proof.
  induction vs as [|fl vs IH]; [done|]. unfold NewMatcher in *. cbn [map concat forallb]. rewrite forallb_app, IH. f_equal.
  destruct fl as [|v fl]; [done|]. cbn [map]. change (Some v :: map Some fl) with (map Some (v :: fl)). rewrite mapM_some. cbn [forallb].
  rewrite andb_true_r. unfold filter_matches. generalize (v :: fl). clear. intros l. induction l as [|x l IH]; [done|].
  cbn [map existsb]. by rewrite IH, Bloom_Test_bits.
Qed.

Lemma existsb_map {A B} (f : B -> bool) (g : A -> B) l : existsb f (map g l) = existsb (fun x => f (g x)) l.
Proof. induction l as [|x l IH]; [done|]. cbn [map existsb]. by rewrite IH. Qed.

(** The index and the header ask the same of a bloom. *)
Lemma matcher_bloomFilter b begin end_ addresses topics :
  forallb (filter_matches b) (f_matcher (NewRangeFilter begin end_ addresses topics)) = bloomFilter b addresses topics.
Proof.
  rewrite NewRangeFilter_matcher, NewMatcher_matches. unfold filter_values, bloomFilter. rewrite forallb_app. f_equal.
  - destruct addresses as [|a l]; [done|]. cbn [forallb]. rewrite andb_true_r. cbn [map existsb]. by rewrite existsb_map.
  - induction topics as [|sub topics IH]; [done|]. cbn [map forallb]. rewrite IH. f_equal. destruct sub as [|t sub]; [done|]. cbn [map existsb]. by rewrite existsb_map.
Qed.

Lemma topics_match_bloom b topics ts :
  (forall t, t ∈ ts -> Bloom_Test b (Hash_Bytes t) = true) -> topics_match topics ts = true ->
  forallb (fun sub => match sub with [] => true | _ => existsb (fun t => Bloom_Test b (Hash_Bytes t)) sub end) topics = true.
Proof.
  revert ts. induction topics as [|sub topics IH]; intros ts Ht Hm; [done|]. destruct ts as [|t ts]; [done|]. cbn [topics_match forallb] in *.
  apply andb_true_iff in Hm as [Hs Hm]. apply andb_true_iff. split; [|apply (IH ts); [|done]; intros t' Ht'; apply Ht; by apply list_elem_of_further].
  destruct sub as [|x sub]; [done|]. apply existsb_exists in Hs as (y & Hy & E). apply Z.eqb_eq in E as <-. apply existsb_exists. exists t.
  split; [done|]. apply Ht, list_elem_of_here.
Qed.

(** A block with a matching log has a bloom that passes. *)
Lemma matching_log_bloom rs addresses topics l :
  l ∈ concat (map r_Logs rs) -> log_matches None None addresses topics (log_of l) = true -> bloomFilter (CreateBloom rs) addresses topics = true.
Proof.
  intros Hl Hm. assert (log_of l ∈ receipts_logs rs) as Hin.
  { apply list_elem_of_In, in_concat in Hl as (ls & Hls & Hl). apply in_map_iff in Hls as (r & <- & Hr). apply list_elem_of_In, in_concat.
    exists (map log_of (r_Logs r)). split; [apply in_map_iff; by exists r|by apply in_map]. }
  assert (forall v, v ∈ log_values (log_of l) -> Bloom_Test (CreateBloom rs) v = true) as Hv by (intros v Hv; by apply (LogsBloom_complete rs (log_of l))).
  unfold log_matches in Hm. rewrite !andb_true_iff, !negb_true_iff in Hm. destruct Hm as [[[[_ _] Ha] _] Ht]. unfold bloomFilter. apply andb_true_iff. split.
  - destruct addresses as [|a al]; [done|]. destruct (includes (a :: al) (log_Address (log_of l))) eqn:E.
    + unfold includes in E. apply existsb_exists in E as (x & Hx & Ex). apply Z.eqb_eq in Ex as ->. apply existsb_exists. eexists. split; [exact Hx|].
      apply Hv, list_elem_of_here.
    + rewrite zlen_cons in Ha. pose proof (zlen_nonneg al). destruct (Z.ltb_spec 0 (1 + zlen al)); [done|lia].
  - eapply topics_match_bloom; [|exact Ht]. intros t Hin'. apply Hv. apply list_elem_of_further, list_elem_of_In, in_map. by apply list_elem_of_In.
Qed.
End filters.

(** ** The search *)

(** A chain with the blocks 0 to [head], whose headers carry the blooms of their
    receipts, and an index of its first sections. *)
Record backend_ok {K : Keccak} {B : Backend} (head : Z) (hdr : Z -> Header) (rcpts : Z -> list Receipt) : Prop := MkBackendOk {
  bo_head : 0 <= head < 2 ^ 61;
  bo_latest : LatestHeader = Some (hdr head) /\ h_Number (hdr head) = Some head;
  bo_headers : forall n, HeaderByNumber n = inl (if (0 <=? n) && (n <=? head) then Some (hdr n) else None);
  bo_receipts : forall n, 0 <= n <= head -> GetReceipts (Header_Hash (hdr n)) = inl (rcpts n);
  bo_blooms : forall n, 0 <= n <= head -> h_Bloom (hdr n) = CreateBloom (rcpts n);
  bo_size : (0 < fst BloomStatus /\ fst BloomStatus mod 8 = 0)%nat;
  bo_sections : 0 <= snd BloomStatus /\ snd BloomStatus * Z.of_nat (fst BloomStatus) <= head + 1;
  bo_index : forall section j, 0 <= section < snd BloomStatus -> (j < 2048)%nat ->
    vector (fst BloomStatus / 8) (ServiceFilter j section)
      (fun s => bloom_bit (h_Bloom (hdr (section * Z.of_nat (fst BloomStatus) + Z.of_nat s))) j);
}.

Section search.
Context {K : Keccak} {B : Backend} (head : Z) (hdr : Z -> Header) (rcpts : Z -> list Receipt).
Hypothesis HB : backend_ok head hdr rcpts.
Context (addresses : list Address) (topics : list (list Hash)).

(** The logs of a block that match. *)
Definition block_found (n : Z) : list txLog := filterLogs (concat (map r_Logs (rcpts n))) None None addresses topics.

Lemma checkMatches_ok f n : f_addresses f = addresses -> f_topics f = topics -> 0 <= n <= head -> checkMatches f (hdr n) = inl (block_found n).
Proof.
  intros Ea Et Hn. unfold checkMatches, GetLogs. rewrite (bo_receipts _ _ _ HB n Hn), Ea, Et. unfold block_found.
  destruct (filterLogs _ _ _ _ _) as [|l ls] eqn:E; [done|]. by destruct (log_TxHash l =? 0).
Qed.

Lemma block_found_bloom n : 0 <= n <= head -> bloomFilter (h_Bloom (hdr n)) addresses topics = false -> block_found n = [].
Proof.
  intros Hn Hb. rewrite (bo_blooms _ _ _ HB n Hn) in Hb. unfold block_found, filterLogs. apply filter_none. intros l Hl.
  destruct (log_matches None None addresses topics (log_of l)) eqn:E; [|done]. by rewrite (matching_log_bloom _ _ _ _ Hl E) in Hb.
Qed.

Lemma header_in_range n : 0 <= n <= head -> HeaderByNumber n = inl (Some (hdr n)).
Proof. intros Hn. rewrite (bo_headers _ _ _ HB). destruct (Z.leb_spec 0 n); [|lia]. by destruct (Z.leb_spec n head); [|lia]. Qed.

Lemma unindexedLogs_ok f fuel : f_addresses f = addresses -> f_topics f = topics -> forall begin end_, 0 <= begin ->
  Z.max 0 (end_ - begin + 1) < Z.of_nat fuel ->
  exists b, unindexedLogs fuel f begin end_ = Ok (concat (map block_found (seqZ begin (Z.min end_ head - begin + 1))), None, b).
Proof.
  intros Ea Et. induction fuel as [|fuel IH]; intros begin end_ Hb Hf; [lia|]. cbn [unindexedLogs].
  destruct (Z.leb_spec begin end_) as [Hle|Hlt]; [|rewrite seqZ_nil by lia; by eexists].
  destruct (decide (begin <= head)) as [Hh|Hh].
  - rewrite header_in_range by lia. assert (blockLogs f (hdr begin) = inl (block_found begin)) as ->.
    { unfold blockLogs. rewrite Ea, Et. destruct (bloomFilter _ _ _) eqn:E; [by apply checkMatches_ok|by rewrite block_found_bloom]. }
    destruct (IH (begin + 1) end_ ltac:(lia) ltac:(lia)) as (b & ->). cbn [obind fst snd]. exists b.
    rewrite (seqZ_cons begin) by lia. cbn [map concat]. unfold Z.succ. do 5 f_equal. f_equal. f_equal. lia.
  - rewrite (bo_headers _ _ _ HB). destruct (Z.leb_spec begin head); [lia|]. rewrite andb_false_r. rewrite seqZ_nil by lia. by eexists.
Qed.

Lemma load_matches_ok f ns : f_addresses f = addresses -> f_topics f = topics -> Forall (fun n => 0 <= n <= head) ns ->
  load_matches f ns = (concat (map block_found ns), None, true).
Proof.
  intros Ea Et. induction 1 as [|n ns Hn _ IH]; [done|]. cbn [load_matches]. rewrite header_in_range by done. rewrite checkMatches_ok by done. by rewrite IH.
Qed.

Lemma found_filtered ns : Forall (fun n => 0 <= n <= head) ns ->
  concat (map block_found (List.filter (fun n => bloomFilter (h_Bloom (hdr n)) addresses topics) ns)) = concat (map block_found ns).
Proof.
  induction 1 as [|n ns Hn _ IH]; [done|]. cbn [List.filter map concat]. destruct (bloomFilter _ _ _) eqn:E; cbn [map concat]; rewrite IH; [done|].
  by rewrite (block_found_bloom n Hn E).
Qed.

Lemma indexedLogs_ok begin0 end0 begin end_ : 0 <= begin <= 2 ^ 61 -> 0 <= end_ < snd BloomStatus * Z.of_nat (fst BloomStatus) ->
  indexedLogs (NewRangeFilter begin0 end0 addresses topics) begin end_ = Ok (concat (map block_found (seqZ begin (end_ - begin + 1))), None, end_ + 1).
Proof.
  intros Hb He. destruct (bo_sections _ _ _ HB) as [Hs Hsm]. destruct (bo_head _ _ _ HB) as [Hh Hh'].
  unfold indexedLogs. rewrite (matcher_Start_ok (fst BloomStatus) ServiceFilter (fun n => h_Bloom (hdr n)) (snd BloomStatus));
    [|apply HB|lia|apply HB|rewrite NewRangeFilter_matcher; apply NewMatcher_ok|done|done].
  cbn [obind]. erewrite List.filter_ext; [|intros n; unfold block_matches; apply matcher_bloomFilter].
  assert (Forall (fun n => 0 <= n <= head) (seqZ begin (end_ - begin + 1))) as Hr by (apply Forall_forall; intros n Hn; apply elem_of_seqZ in Hn; lia).
  rewrite load_matches_ok; [|done|done|].
  - change (2 ^ 61) with 2305843009213693952 in *. rewrite found_filtered by done. rewrite (i64_small end_) by u64_lia. by rewrite i64_small by u64_lia.
  - apply Forall_forall. intros n Hn. apply list_elem_of_In, filter_In in Hn as [Hn _]. apply list_elem_of_In in Hn. by apply (proj1 (Forall_forall _ _) Hr).
Qed.
End search.


(** ** Building the index *)

Section indexing.
Context {K : Keccak}.

(** [Process] on the headers of a section. *)
Fixpoint process_all (b : BloomIndexer) (headers : list Header) : outcome BloomIndexer :=
  match headers with
  | [] => Ok b
  | h :: headers => b <- indexer_Process b h ;; process_all b headers
  end.

Lemma process_all_ok headers : forall b gen done_,
  bi_gen b = Some gen -> gen_ok gen done_ -> g_sections gen = bi_size b -> (length done_ + length headers <= bi_size b)%nat ->
  0 <= bi_section b -> bi_section b * Z.of_nat (bi_size b) + Z.of_nat (bi_size b) <= two63 ->
  (forall i h, headers !! i = Some h -> h_Number h = Some (bi_section b * Z.of_nat (bi_size b) + Z.of_nat (length done_ + i)) /\ length (h_Bloom h) = 256%nat) ->
  exists gen', process_all b headers =
      Ok (MkBloomIndexer (bi_size b) (Some gen') (bi_section b) (match last headers with Some h => Header_Hash h | None => bi_head b end)) /\
    gen_ok gen' (done_ ++ map h_Bloom headers) /\ g_sections gen' = bi_size b.
Proof.
  induction headers as [|h headers IH]; intros b gen done_ Eg Hg Es Hl Hs0 Hs Hh; cbn [process_all].
  { exists gen. rewrite app_nil_r. split_and!; [|done|done]. destruct b. cbn [bi_gen bi_size bi_section bi_head last] in *. by subst. }
  destruct (Hh 0%nat h eq_refl) as [En Hb]. rewrite Nat.add_0_r in En. cbn [length] in Hl. unfold two63 in Hs.
  unfold indexer_Process at 1. rewrite Eg, En. cbn [of_option obind deref]. set (base := bi_section b * Z.of_nat (bi_size b)) in *.
  assert (0 <= base) by (unfold base; lia). unfold Uint64. rewrite Z.abs_eq, (u64_small (base + _)), (u64_small base), u64_small by u64_lia.
  replace (Z.to_nat (base + Z.of_nat (length done_) - base)) with (length done_) by lia.
  destruct (AddBloom_ok gen done_ (h_Bloom h) Hg ltac:(lia) Hb) as (g1 & -> & Hg1 & E1). cbn [obind].
  destruct (IH (MkBloomIndexer (bi_size b) (Some g1) (bi_section b) (Header_Hash h)) g1 (done_ ++ [h_Bloom h])) as (g' & E & Hg' & E').
  - done.
  - done.
  - cbn [bi_size]. congruence.
  - rewrite length_app. cbn [length bi_size]. lia.
  - done.
  - cbn [bi_section bi_size]. unfold two63. lia.
  - intros i h' Hi. rewrite length_app. cbn [length bi_section bi_size]. destruct (Hh (S i) h' Hi) as [E2 Hb2]. rewrite E2. split; [|done]. do 2 f_equal. lia.
  - exists g'. rewrite E. cbn [bi_size bi_section bi_head map]. rewrite <- app_assoc in Hg'. cbn [app] in Hg'. split_and!; [|done|done].
    do 2 f_equal. destruct headers as [|h' headers]; [done|]. rewrite last_cons_cons.
    destruct (last (h' :: headers)) eqn:El; [done|]. by apply last_None in El.
Qed.

Lemma commit_bits_ok b gen bs n : gen_ok gen bs -> length bs = g_sections gen -> forall i batch, (i + n = 2048)%nat ->
  exists db, commit_bits n i b gen batch = Ok (inl db) /\
    (forall j, (i <= j < 2048)%nat -> exists row c, Bitset gen j = Ok (inl row) /\ CompressBytes row = Ok c /\ db !! (j, bi_section b, bi_head b) = Some c) /\
    (forall k, ~ (exists j, (i <= j < 2048)%nat /\ k = (j, bi_section b, bi_head b)) -> db !! k = batch !! k).
Proof.
  intros Hg Hl. induction n as [|n IH]; intros i batch Hi; cbn [commit_bits].
  { exists batch. split_and!; [done|intros; lia|done]. }
  destruct Hg as [_ Hn _ Hrows _]. destruct (lookup_lt_is_Some_2 (g_blooms gen) i) as [row Erow]; [lia|].
  assert (Bitset gen i = Ok (inl row)) as Eb.
  { unfold Bitset. rewrite Hn, Hl, Nat.eqb_refl. cbn [negb]. destruct (Nat.leb_spec 2048 i); [lia|]. by rewrite Erow. }
  rewrite Eb. cbn [obind]. destruct (compress_roundtrip row) as (c & Ec & _). rewrite Ec. cbn [obind].
  destruct (IH (S i) (<[(i, bi_section b, bi_head b) := c]> batch) ltac:(lia)) as (db & E & Hdb & Hother). exists db. split_and!; [done| |].
  - intros j Hj. destruct (decide (j = i)) as [->|Hne]; [|apply Hdb; lia]. exists row, c. split_and!; [done|done|].
    rewrite Hother; [apply lookup_insert_eq|]. intros (j & Hj' & [= E']). lia.
  - intros k Hk. rewrite Hother.
    + apply lookup_insert_ne. intros <-. apply Hk. exists i. split; [lia|done].
    + intros (j & Hj & ->). apply Hk. exists j. split; [lia|done].
Qed.
End indexing.

(** C35: the index of a section.  Resetting the indexer to a section, processing the
    headers of its blocks and committing succeeds, and from then on the node answers
    a request for any bit of that section with the vector of that bit of the blooms
    of its blocks, through the compression of the database; the vectors of other
    sections stay as they are. *)
Theorem indexer_serves {K : Keccak} (b : BloomIndexer) (db : bitsdb) (section : Z) (headers : list Header) (hlast : Header) (canonical : Z -> Hash) :
  (0 < bi_size b /\ bi_size b mod 8 = 0)%nat -> length headers = bi_size b -> 0 <= section -> (section + 1) * Z.of_nat (bi_size b) <= two63 ->
  (forall i h, headers !! i = Some h -> h_Number h = Some (section * Z.of_nat (bi_size b) + Z.of_nat i) /\ length (h_Bloom h) = 256%nat) ->
  last headers = Some hlast -> canonical ((section + 1) * Z.of_nat (bi_size b) - 1) = Header_Hash hlast ->
  exists b1 b2 db', indexer_Reset b section = (b1, None) /\ process_all b1 headers = Ok b2 /\ indexer_Commit b2 db = Ok (db', None) /\
    (forall j, (j < 2048)%nat -> exists v, serve_bits db' canonical (bi_size b) j section = Ok (Some v) /\
       vector (bi_size b / 8) v (fun s => match headers !! s with Some h => bloom_bit (h_Bloom h) j | None => false end)) /\
    (forall j s hash, s <> section -> db' !! (j, s, hash) = db !! (j, s, hash)).
Proof.
  intros [Hpos H8] Hl Hs0 Hs Hh Hlast Hcan. destruct (NewGenerator_ok (bi_size b) H8) as (g0 & E0 & Hg0 & Es0).
  unfold indexer_Reset. rewrite E0. set (b1 := MkBloomIndexer (bi_size b) (Some g0) section 0).
  destruct (process_all_ok headers b1 g0 [] eq_refl Hg0 Es0) as (g & Ep & Hg & Eg); cbn [bi_size bi_section b1 length]; try lia; [exact Hh|].
  rewrite Hlast in Ep. cbn [bi_size bi_section b1 app] in Ep, Hg, Eg. set (b2 := MkBloomIndexer (bi_size b) (Some g) section (Header_Hash hlast)) in *.
  assert (length (map h_Bloom headers) = g_sections g) as Hlen by (rewrite length_map; congruence).
  destruct (commit_bits_ok b2 g _ 2048 Hg Hlen 0 db eq_refl) as (db' & Ec & Hdb & Hother). exists b1, b2, db'.
  split; [done|]. split; [done|]. split; [unfold indexer_Commit; cbn [b2 bi_gen of_option obind]; fold b2; by rewrite Ec|]. split.
  - intros j Hj. destruct (Hdb j ltac:(lia)) as (row & c & Eb & Ecr & Ed). unfold serve_bits. unfold two63 in Hs. set (z := Z.of_nat (bi_size b)) in *.
    rewrite (u64_small (section + 1)), (u64_small ((section + 1) * z)), u64_small by u64_lia. rewrite Hcan. cbn [b2 bi_section bi_head] in Ed. rewrite Ed.
    pose proof Hg as [_ Hn _ _ Hrow]. unfold Bitset in Eb. rewrite Hn, Hlen, Nat.eqb_refl in Eb. cbn [negb] in Eb.
    destruct (Nat.leb_spec 2048 j); [lia|]. destruct (g_blooms g !! j) as [row'|] eqn:Er; [|done]. cbn in Eb. injection Eb as ->.
    destruct (Hrow j row Er) as (Lr & Br & Fr). rewrite Eg in Lr, Fr. destruct (compress_roundtrip row) as (c' & Ec' & _ & Edec).
    assert (c' = c) as -> by congruence. rewrite Lr in Edec. rewrite Edec. cbn [obind]. exists row. split; [done|]. split; [done|]. split; [done|].
    intros s Hs'. rewrite Fr by (pose proof (Nat.div_mod_eq (bi_size b) 8); lia). rewrite list_lookup_fmap. by destruct (headers !! s).
  - intros j s hash Hne. apply Hother. intros (j' & _ & [= _ E _]). cbn in E. done.
Qed.

(** ** An example *)

Definition ex_hdr (n : Z) : Header :=
  MkHeader 0 0 0 0 0 0 (CreateBloom (K := Keccak_ref) [ex_receipt]) (Some 131072) (Some n) 5000000 21000 n [] 0 (zeros 8).

#[local] Instance ex_backend : Backend := {|
  backend_error := unit;
  LatestHeader := Some (ex_hdr 9);
  HeaderByNumber n := inl (if (0 <=? n) && (n <=? 9) then Some (ex_hdr n) else None);
  GetReceipts _ := inl [ex_receipt];
  BloomStatus := (8%nat, 1);
  ServiceFilter j _ := [if bloom_bit (CreateBloom (K := Keccak_ref) [ex_receipt]) j then 255 else 0];
|}.

Lemma ex_backend_ok : backend_ok (K := Keccak_ref) 9 ex_hdr (fun _ => [ex_receipt]).
Proof.
  split; try done; try (cbn; lia).
  intros section j _ Hj. cbn [ServiceFilter ex_backend h_Bloom ex_hdr BloomStatus fst]. change (8 / 8)%nat with 1%nat. destruct (bloom_bit _ j).
  - apply (ones_vector 1).
  - split; [done|]. split; [by apply Forall_cons_2; [split; lia|apply Forall_nil_2]|]. intros s _. apply (bit_at_zeros 1).
Qed.


Definition ex_section : list Header :=
  map (fun n => MkHeader 0 0 0 0 0 0 (zeros 256) (Some 131072) (Some n) 5000000 21000 n [] 0 (zeros 8)) (seqZ 8 8).

Lemma indexer_serves_witness :
  exists b1 b2 db', indexer_Reset (MkBloomIndexer 8 None 0 0) 1 = (b1, None) /\ process_all (K := Keccak_ref) b1 ex_section = Ok b2 /\
    indexer_Commit b2 ∅ = Ok (db', None) /\
    (forall j, (j < 2048)%nat -> exists v, serve_bits db' (fun _ => Header_Hash (K := Keccak_ref) (List.last ex_section ex_header)) 8 j 1 = Ok (Some v) /\
       vector (8 / 8) v (fun s => match ex_section !! s with Some h => bloom_bit (h_Bloom h) j | None => false end)) /\
    (forall j s hash, s <> 1 -> db' !! (j, s, hash) = (∅ : bitsdb) !! (j, s, hash)).
Proof.
  apply (indexer_serves (K := Keccak_ref) (MkBloomIndexer 8 None 0 0) ∅ 1 ex_section (List.last ex_section ex_header)
           (fun _ => Header_Hash (K := Keccak_ref) (List.last ex_section ex_header))).
  - split; [cbn; lia|reflexivity].
  - reflexivity.
  - lia.
  - vm_compute. discriminate.
  - intros i h Hi. do 8 (destruct i as [|i]; [apply (inj Some) in Hi; subst h; split; reflexivity|]). discriminate Hi.
  - reflexivity.
  - reflexivity.
Defined.
