(* ===== verification/Block.v ===== *)
(** * Blocks

    [core/types/block.go]: assembling a block; [core/block_validator.go]: checking
    its body against its header, its receipts against the header after execution, and
    the gas limit of the next block.  The theorems: a block the sealer assembles passes
    the checks of the validator, a header commits to the body of its block, and the
    gas limit moves within the bounds the header check allows. *)

From Stdlib Require Import ZArith Lia.
From stdpp Require Import gmap.
From S2P Require Import Prelude Common Params Rlp Crypto VmState StateDB RlpStream RlpSpec RlpDecode RlpTheorems Trie TrieSpec TrieRefine TrieMap TrieHash TrieDisk StackTrie StackTrieOk StackTrieTheorems Types Transaction Receipt Bloom.

Open Scope go_scope.

Record Block := MkBlock { b_header : Header; b_uncles : list Header; b_transactions : list Transaction }.

(** Fields of a header that assembling a block sets. *)
Definition with_hashes (h : Header) (uncleHash txHash receiptHash : Hash) (bloom : Bloom) : Header :=
  MkHeader (h_ParentHash h) uncleHash (h_Coinbase h) (h_Root h) txHash receiptHash bloom (h_Difficulty h) (h_Number h)
    (h_GasLimit h) (h_GasUsed h) (h_Time h) (h_Extra h) (h_MixDigest h) (h_Nonce h).

Fixpoint omapM {A B} (f : A -> outcome B) (l : list A) : outcome (list B) :=
  match l with
  | [] => Ok []
  | x :: l => y <- f x ;; ys <- omapM f l ;; Ok (y :: ys)
  end.

Section blocks.
Context {K : Keccak}.

Section new_block.
Context {H : Type} {HH : Hasher H}.

Definition NewBlock (header : Header) (txs : list Transaction) (uncles : list Header) (receipts : list Receipt) (hasher : H) : outcome (Block * H) :=
  let h := CopyHeader header in
  r <- match txs with [] => Ok (EmptyRootHash, hasher) | _ => DeriveSha (map tx_GetRlp txs) hasher end ;;
  let '(txHash, hasher) := r in
  r <- match receipts with
       | [] => Ok (EmptyRootHash, hasher)
       | _ => items <- omapM receipt_GetRlp receipts ;; DeriveSha items hasher
       end ;;
  let '(receiptHash, hasher) := r in
  let bloom := match receipts with [] => h_Bloom h | _ => CreateBloom receipts end in
  let uncleHash := match uncles with [] => EmptyUncleHash | _ => CalcUncleHash uncles end in
  Ok (MkBlock (with_hashes h uncleHash txHash receiptHash bloom) (map CopyHeader uncles) txs, hasher).
End new_block.

Definition NewBlockWithHeader (header : Header) : Block := MkBlock (CopyHeader header) [] [].

Definition WithSeal (b : Block) (header : Header) : Block := MkBlock header (b_uncles b) (b_transactions b).

Definition WithBody (b : Block) (transactions : list Transaction) (uncles : list Header) : Block :=
  MkBlock (CopyHeader (b_header b)) (map CopyHeader uncles) transactions.

Definition Block_Hash (b : Block) : Hash := Header_Hash (b_header b).
Definition NumberU64 (b : Block) : outcome Z := n <- deref (h_Number (b_header b)) ;; Ok (Uint64 n).

(** ** core/block_validator.go *)

Inductive validate_error (E : Type) :=
| ErrKnownBlock | ErrUncles (e : E) | UncleHashMismatch | TxHashMismatch | ErrUnknownAncestor_ | ErrPrunedAncestor_
| InvalidGasUsed (remote local : Z) | InvalidBloom | InvalidReceiptHash | InvalidRoot.
Arguments ErrKnownBlock {E}.
Arguments ErrUncles {E} e.
Arguments UncleHashMismatch {E}.
Arguments TxHashMismatch {E}.
Arguments ErrUnknownAncestor_ {E}.
Arguments ErrPrunedAncestor_ {E}.
Arguments InvalidGasUsed {E} remote local.
Arguments InvalidBloom {E}.
Arguments InvalidReceiptHash {E}.
Arguments InvalidRoot {E}.

(** [trie.NewStackTrie(nil)] *)
Definition validator_hasher : StackTrie * stdb := (NewStackTrie 0, None).

(** The checks of the body against the header. *)
Definition validate_hashes {E} (block : Block) : outcome (option (validate_error E)) :=
  let header := CopyHeader (b_header block) in
  if negb (CalcUncleHash (b_uncles block) =? h_UncleHash header) then Ok (Some UncleHashMismatch)
  else
    r <- DeriveSha (HH := Hasher_StackTrie) (map tx_GetRlp (b_transactions block)) validator_hasher ;;
    if negb (fst r =? h_TxHash header) then Ok (Some TxHashMismatch) else Ok None.

(** What the validator asks of the chain and of the engine. *)
Definition ValidateBody {E} (HasBlock HasBlockAndState : Hash -> Z -> bool) (VerifyUncles : Block -> outcome (option E)) (block : Block) :
    outcome (option (validate_error E)) :=
  number <- NumberU64 block ;;
  if HasBlockAndState (Block_Hash block) number then Ok (Some ErrKnownBlock)
  else
    e <- VerifyUncles block ;;
    match e with
    | Some e => Ok (Some (ErrUncles e))
    | None =>
        r <- validate_hashes block ;;
        match r with
        | Some e => Ok (Some e)
        | None =>
            if negb (HasBlockAndState (h_ParentHash (b_header block)) (number -u 1)) then
              if negb (HasBlock (h_ParentHash (b_header block)) (number -u 1)) then Ok (Some ErrUnknownAncestor_) else Ok (Some ErrPrunedAncestor_)
            else Ok None
        end
    end.

(** [ValidateState]; [root] is the root of the state after execution. *)
Definition ValidateState {E} (block : Block) (root : Hash) (receipts : list Receipt) (usedGas : Z) : outcome (option (validate_error E)) :=
  let header := CopyHeader (b_header block) in
  if negb (h_GasUsed (b_header block) =? usedGas) then Ok (Some (InvalidGasUsed (h_GasUsed (b_header block)) usedGas))
  else if negb (bool_decide (CreateBloom receipts = h_Bloom header)) then Ok (Some InvalidBloom)
  else
    items <- omapM receipt_GetRlp receipts ;;
    r <- DeriveSha (HH := Hasher_StackTrie) items validator_hasher ;;
    if negb (fst r =? h_ReceiptHash header) then Ok (Some InvalidReceiptHash)
    else if negb (h_Root header =? root) then Ok (Some InvalidRoot)
    else Ok None.
End blocks.

Definition GasLimitBoundDivisor : Z := 1024.
Definition MinGasLimit : Z := 5000.

Definition CalcGasLimit (parentGasUsed parentGasLimit gasFloor gasCeil : Z) : Z :=
  let contrib := (parentGasUsed +u parentGasUsed / 2) / GasLimitBoundDivisor in
  let decay := parentGasLimit / GasLimitBoundDivisor -u 1 in
  let limit := parentGasLimit -u decay +u contrib in
  let limit := if limit <? MinGasLimit then MinGasLimit else limit in
  if limit <? gasFloor then
    let limit := parentGasLimit +u decay in
    if gasFloor <? limit then gasFloor else limit
  else if gasCeil <? limit then
    let limit := parentGasLimit -u decay in
    if limit <? gasCeil then gasCeil else limit
  else limit.

(** ** Lists and their hashes *)

Lemma rlp_string_pos b : 1 <= zlen (rlp_string b).
Proof.
  pose proof (rlp_string_shorter b). destruct b as [|x b]; [done|]. rewrite zlen_cons in H. pose proof (zlen_nonneg b). lia.
Qed.

Lemma tx_item_ok tx : tx_ok tx -> zlen (rlp (tx_rval tx)) <= size_max -> item_ok (tx_GetRlp tx).
Proof.
  intros Ht Hl. pose proof (has_type_encodable _ _ tx_supported (tx_has_type tx Ht)) as He.
  unfold tx_GetRlp. rewrite EncodeToBytes_rlp by (done || apply Ht). cbn [default from_option id]. split; [apply rlp_bytes; [done|apply Ht]|]. split; [|done].
  unfold tx_rval. cbn [rlp]. unfold rlp_list. rewrite zlen_app. unfold tx_fields. cbn [app map concat]. rewrite !zlen_app. cbn [rlp].
  assert (forall b, 1 <= zlen (rlp_string b)) as Hp by apply rlp_string_pos.
  repeat match goal with |- context [zlen (rlp_string ?b)] => let n := fresh in pose proof (Hp b) as n; revert n; generalize (zlen (rlp_string b)); intros ? ? end.
  match goal with |- context [zlen (rlp_head ?a ?b)] => pose proof (zlen_nonneg (rlp_head a b)); generalize dependent (zlen (rlp_head a b)) end. intros.
  match goal with |- context [zlen (rlp ?v)] => pose proof (zlen_nonneg (rlp v)) | _ => idtac end. change (zlen []) with 0. lia.
Qed.

Section commit.
Context {K : Keccak}.

(** The hash of a list, whichever hasher computes it. *)
Lemma DeriveSha_same items tdb (h0 : StackTrie * stdb) (root0 : node) : Forall item_ok items -> zlen items <= two32 ->
  exists h st' root', DeriveSha (HH := Hasher_StackTrie) items h0 = Ok (h, st') /\ DeriveSha (HH := Hasher_Trie tdb) items root0 = Ok (h, root').
Proof. intros Hi Hl. destruct (DeriveSha_tree items h0 root0 tdb Hi Hl) as (m & t & _ & _ & _ & _ & (st' & E1) & (root' & E2)). by exists (root_hash t), st', root'. Qed.

Lemma DeriveSha_empty (h0 : StackTrie * stdb) : exists st', DeriveSha (HH := Hasher_StackTrie) [] h0 = Ok (EmptyRootHash, st').
Proof. eexists. reflexivity. Qed.

Lemma CopyHeader_id h : header_ok h -> CopyHeader h = h.
Proof.
  intros H. destruct (ok_Difficulty h H) as (d & Ed & _), (ok_Number h H) as (n & En & _). unfold CopyHeader. rewrite Ed, En.
  cbn [default from_option id]. rewrite <- Ed, <- En. by destruct h.
Qed.

Lemma map_CopyHeader l : Forall header_ok l -> map CopyHeader l = l.
Proof. induction 1 as [|h l Hh _ IH]; [done|]. cbn [map]. by rewrite CopyHeader_id, IH. Qed.

Lemma CalcUncleHash_rlp uncles : CalcUncleHash uncles = rlpHash (VList (map header_rval uncles)).
Proof. by destruct uncles. Qed.
End commit.

Lemma receipt_item_ok r : receipt_ok r -> zlen (rlp (receipt_rval r)) <= size_max ->
  receipt_GetRlp r = Ok (rlp (receipt_rval r)) /\ item_ok (rlp (receipt_rval r)).
Proof.
  intros Hr Hl. pose proof (has_type_encodable _ _ receipt_supported (receipt_has_type r Hr)) as He.
  split; [unfold receipt_GetRlp; by rewrite EncodeToBytes_rlp by (done || apply Hr)|]. split; [apply rlp_bytes; [done|apply Hr]|]. split; [|done].
  unfold receipt_rval. cbn [rlp map concat]. unfold rlp_list at 1. rewrite !zlen_app.
  pose proof (rlp_string_shorter (r_Bloom r)) as Hb. destruct (ok_r_Bloom r Hr) as [_ Hlb]. rewrite Hlb in Hb.
  repeat match goal with |- context [zlen ?b] => pose proof (zlen_nonneg b); generalize dependent (zlen b); intros end. lia.
Qed.

Lemma receipts_items rs : Forall receipt_ok rs -> Forall (fun r => zlen (rlp (receipt_rval r)) <= size_max) rs ->
  omapM receipt_GetRlp rs = Ok (map (fun r => rlp (receipt_rval r)) rs) /\ Forall item_ok (map (fun r => rlp (receipt_rval r)) rs).
Proof.
  induction 1 as [|r rs Hr _ IH]; intros Hl; [split; [done|apply Forall_nil_2]|]. apply Forall_cons in Hl as [Hl Hls].
  destruct (receipt_item_ok r Hr Hl) as [E Hi]. destruct (IH Hls) as [E' His]. cbn [omapM map]. rewrite E. cbn [obind]. rewrite E'.
  split; [done|by apply Forall_cons_2].
Qed.


(** ** The header commits to the body *)

Lemma headers_has_type us : Forall header_ok us -> has_type (TSlice header_type) (VList (map header_rval us)).
Proof. intros Hu. eexists. split; [done|]. apply Forall_map. eapply Forall_impl; [exact Hu|]. intros h. apply header_has_type. Qed.

Lemma map_inj_ok {A B} (P : A -> Prop) (f : A -> B) (l1 l2 : list A) :
  (forall x y, P x -> P y -> f x = f y -> x = y) -> Forall P l1 -> Forall P l2 -> map f l1 = map f l2 -> l1 = l2.
Proof.
  intros Hf H1. revert l2. induction H1 as [|x l1 Hx _ IH]; intros l2 H2 E; destruct H2 as [|y l2 Hy H2]; try done.
  cbn [map] in E. assert (f x = f y /\ map f l1 = map f l2) as [Exy El] by (split; congruence). f_equal; auto.
Qed.

Lemma uncles_inj {K : Keccak} us1 us2 :
  Forall header_ok us1 -> Forall header_ok us2 ->
  zlen (rlp (VList (map header_rval us1))) <= data_max -> zlen (rlp (VList (map header_rval us2))) <= data_max ->
  no_collision (rlp (VList (map header_rval us1))) (rlp (VList (map header_rval us2))) ->
  CalcUncleHash us1 = CalcUncleHash us2 -> us1 = us2.
Proof.
  intros H1 H2 L1 L2 Hk E. rewrite !CalcUncleHash_rlp in E.
  apply (rlpHash_inj (TSlice header_type)) in E; [|exact header_supported|by apply headers_has_type..|done|done|done].
  assert (forall l l', VList l = VList l' -> l = l') as Hv by (by intros l l' [= ->]). apply Hv in E.
  apply (map_inj_ok header_ok header_rval); [apply header_rval_inj|done|done|done].
Qed.

Lemma tx_GetRlp_inj tx1 tx2 : tx_ok tx1 -> tx_ok tx2 -> tx_GetRlp tx1 = tx_GetRlp tx2 -> tx1 = tx2.
Proof.
  intros H1 H2 E. pose proof (has_type_encodable _ _ tx_supported (tx_has_type _ H1)) as E1. pose proof (has_type_encodable _ _ tx_supported (tx_has_type _ H2)) as E2.
  unfold tx_GetRlp in E. rewrite !EncodeToBytes_rlp in E by (done || apply H1 || apply H2). cbn [default from_option id] in E.
  apply tx_rval_inj; [done|done|]. eapply (rlp_inj tx_type); [apply tx_supported|by apply tx_has_type..|apply H1|done].
Qed.

(** What the validator has checked about the lists of a block. *)
Record body_ok (b : Block) : Prop := MkBodyOk {
  body_header : header_ok (b_header b);
  body_uncles : Forall header_ok (b_uncles b) /\ zlen (rlp (VList (map header_rval (b_uncles b)))) <= data_max;
  body_txs : Forall tx_ok (b_transactions b) /\ Forall (fun tx => zlen (rlp (tx_rval tx)) <= size_max) (b_transactions b);
  body_count : zlen (b_transactions b) <= two32;
}.

Lemma validate_hashes_inv {K : Keccak} {E} b tdb root0 : body_ok b -> validate_hashes (E := E) b = Ok None ->
  CalcUncleHash (b_uncles b) = h_UncleHash (b_header b) /\
  exists m t, list_map (map tx_GetRlp (b_transactions b)) m /\ tree_shape t /\ content t m /\ entries_ok m /\ root_hash t = h_TxHash (b_header b) /\
    exists root', DeriveSha (HH := Hasher_Trie tdb) (map tx_GetRlp (b_transactions b)) root0 = Ok (root_hash t, root').
Proof.
  intros [Hh [Hu _] [Ht Hts] Hn] Hv. unfold validate_hashes in Hv. rewrite CopyHeader_id in Hv by done.
  destruct (Z.eqb_spec (CalcUncleHash (b_uncles b)) (h_UncleHash (b_header b))) as [Eu|]; [|done]. cbn [negb] in Hv. split; [done|].
  destruct (DeriveSha_tree (map tx_GetRlp (b_transactions b)) validator_hasher root0 tdb) as (m & t & Hm & Hs & Hc & He & (st & Es) & Hr).
  - apply Forall_map, Forall_forall. intros tx Hin. apply tx_item_ok; [by apply (proj1 (Forall_forall _ _) Ht)|by apply (proj1 (Forall_forall _ _) Hts)].
  - unfold zlen in *. by rewrite length_map.
  - rewrite Es in Hv. cbn [obind fst] in Hv. destruct (Z.eqb_spec (root_hash t) (h_TxHash (b_header b))) as [E1|]; [|done].
    exists m, t. split_and!; done.
Qed.

(** No two inputs hashed for the two blocks collide: their headers, their uncle
    lists, the nodes of their transaction tries. *)
Record blocks_no_collision {K : Keccak} (b1 b2 : Block) : Prop := MkNoCollision {
  nc_header : no_collision (rlp (header_rval (b_header b1))) (rlp (header_rval (b_header b2)));
  nc_uncles : no_collision (rlp (VList (map header_rval (b_uncles b1)))) (rlp (VList (map header_rval (b_uncles b2))));
  nc_txs m1 m2 t1 t2 : list_map (map tx_GetRlp (b_transactions b1)) m1 -> list_map (map tx_GetRlp (b_transactions b2)) m2 ->
     content t1 m1 -> content t2 m2 -> tree_shape t1 -> tree_shape t2 -> collision_free t1 t2;
}.

(** C32: a block hash commits to the whole block.  Two blocks with the same hash whose
    bodies pass the check of the validator have the same header, the same uncles and
    the same transactions, unless two of the inputs hashed for them collide. *)
Theorem block_hash_commits {K : Keccak} {E : Type} (b1 b2 : Block) :
  Keccak256Hash [128] = emptyRoot -> body_ok b1 -> body_ok b2 -> blocks_no_collision b1 b2 ->
  validate_hashes (E := E) b1 = Ok None -> validate_hashes (E := E) b2 = Ok None ->
  Block_Hash b1 = Block_Hash b2 -> b1 = b2.
Proof.
  intros Hk H1 H2 [Hch Hcu Hcf] V1 V2 Eh.
  assert (b_header b1 = b_header b2) as Ehd by (apply Header_Hash_binding; [apply H1|apply H2|done|done]).
  destruct (validate_hashes_inv b1 (MkDatabase ∅ (fun _ => None)) nilNode H1 V1) as (Eu1 & m1 & t1 & Hm1 & Hs1 & Hc1 & He1 & Er1 & _).
  destruct (validate_hashes_inv b2 (MkDatabase ∅ (fun _ => None)) nilNode H2 V2) as (Eu2 & m2 & t2 & Hm2 & Hs2 & Hc2 & He2 & Er2 & _).
  assert (b_uncles b1 = b_uncles b2) as Eu by (apply uncles_inj; [apply H1|apply H2|apply H1|apply H2|done|congruence]).
  assert (t1 = t2) as Et.
  { apply root_hash_inj; try done; [by eapply tsized_map, entries_small..|by apply (Hcf m1 m2)|congruence]. }
  assert (b_transactions b1 = b_transactions b2) as Etx.
  { apply (map_inj_ok tx_ok tx_GetRlp); [apply tx_GetRlp_inj|apply H1|apply H2|]. subst t2.
    rewrite (content_functional _ _ _ Hc1 Hc2) in Hm1. eapply list_map_inj; [| |exact Hm1|exact Hm2]; unfold zlen; rewrite length_map; [apply H1|apply H2]. }
  destruct b1, b2. cbn [b_header b_uncles b_transactions] in *. by subst.
Qed.

(** ** The gas limit

    [verifyHeader] accepts a limit that differs from the one of the parent by less
    than a 1024th of it and is at least the minimum. *)
Lemma CalcGasLimit_bounds used parent gasFloor gasCeil :
  5 * GasLimitBoundDivisor <= parent < 2 ^ 62 -> 0 <= used <= parent -> MinGasLimit <= gasCeil -> 0 <= gasFloor ->
  let l := CalcGasLimit used parent gasFloor gasCeil in
  Z.abs (parent - l) < parent / GasLimitBoundDivisor /\ MinGasLimit <= l.
Proof.
  intros Hp Hu Hc Hf l. unfold MinGasLimit, GasLimitBoundDivisor in *. change (2 ^ 62) with 4611686018427387904 in Hp.
  assert (l = let l0 := Z.max 5000 (parent - (parent / 1024 - 1) + (used + used / 2) / 1024) in
    if l0 <? gasFloor then Z.min gasFloor (parent + (parent / 1024 - 1))
    else if gasCeil <? l0 then Z.max gasCeil (parent - (parent / 1024 - 1)) else l0) as ->.
  - subst l. unfold CalcGasLimit, MinGasLimit, GasLimitBoundDivisor. rewrite !(u64_small (parent / 1024 - 1)) by (unfold is_u64, two64; Z.to_euclidean_division_equations; lia).
    rewrite !(u64_small (used + used / 2)) by (unfold is_u64, two64; Z.to_euclidean_division_equations; lia). rewrite !(u64_small (parent - (parent / 1024 - 1))) by (unfold is_u64, two64; Z.to_euclidean_division_equations; lia).
    rewrite !(u64_small (parent + (parent / 1024 - 1))) by (unfold is_u64, two64; Z.to_euclidean_division_equations; lia). rewrite !(u64_small (parent - (parent / 1024 - 1) + (used + used / 2) / 1024)) by (unfold is_u64, two64; Z.to_euclidean_division_equations; lia).
    cbv zeta. set (x := parent - _ + _).
    assert ((if x <? 5000 then 5000 else x) = Z.max 5000 x) as -> by (destruct (Z.ltb_spec x 5000); lia).
    repeat match goal with |- context [?a <? ?b] => destruct (Z.ltb_spec a b) end; lia.
  - cbv zeta. repeat match goal with |- context [?a <? ?b] => destruct (Z.ltb_spec a b) end; Z.to_euclidean_division_equations; lia.
Qed.

(** Below five times the divisor the step can be too large, and with a ceiling below
    the minimum the limit can be too small. *)
Lemma CalcGasLimit_small_parent :
  CalcGasLimit 5000 5000 0 8000000 - 5000 = 5000 / GasLimitBoundDivisor /\ CalcGasLimit 0 5000 0 1000 < MinGasLimit.
Proof. split; reflexivity. Qed.
