(* ===== verification/BlockExample.v ===== *)
(** * A block

    The theorems on blocks at a block with a transaction, an uncle and a receipt. *)

From Stdlib Require Import ZArith Lia.
From stdpp Require Import gmap.
From S2P Require Import Prelude Common Params Rlp Crypto VmState StateDB RlpStream RlpSpec RlpDecode RlpTheorems Trie TrieSpec TrieRefine TrieMap TrieHash TrieDisk TrieExample StackTrie StackTrieOk StackTrieTheorems StackTrieExample Types Transaction Receipt Bloom Block.

#[local] Existing Instance Keccak_digest.

Lemma ex_tx_ok : tx_ok ex_tx.
Proof.
  split; [split; [discriminate|reflexivity]|discriminate|split; [discriminate|reflexivity]|split; [discriminate|reflexivity]|discriminate
    |apply Forall_nil_2|discriminate..|vm_compute; discriminate].
Qed.


(** The header of a block with one transaction and one uncle. *)
Definition ex_uncle_hash : Hash := Eval vm_compute in CalcUncleHash [ex_header].
Definition ex_tx_hash : Hash := Eval vm_compute in root_hash (st_tree (tx_GetRlp ex_tx)).
Definition ex_block_header : Header := with_hashes ex_header ex_uncle_hash ex_tx_hash 6 (zeros 256).
Definition ex_block1 : Block := MkBlock ex_block_header [ex_header] [ex_tx].
Definition ex_block2 : Block := WithBody (NewBlockWithHeader ex_block_header) [ex_tx] [ex_header].

Lemma ex_block_header_ok : header_ok ex_block_header.
Proof.
  pose proof ex_header_ok as []. split.
  2, 5: split; [discriminate|reflexivity].
  14: vm_compute; discriminate.
  all: assumption.
Qed.

Lemma ex_block2_same : ex_block2 = ex_block1.
Proof.
  unfold ex_block2, WithBody, NewBlockWithHeader, ex_block1. cbn [b_header map].
  by rewrite !(CopyHeader_id ex_block_header ex_block_header_ok), (CopyHeader_id ex_header ex_header_ok).
Qed.

Lemma ex_block1_ok : body_ok ex_block1.
Proof.
  split.
  - exact ex_block_header_ok.
  - split; [apply Forall_cons_2; [exact ex_header_ok|apply Forall_nil_2]|vm_compute; discriminate].
  - split; (apply Forall_cons_2; [|apply Forall_nil_2]); [exact ex_tx_ok|vm_compute; discriminate].
  - vm_compute. discriminate.
Qed.

Lemma ex_block1_valid : validate_hashes (E := unit) ex_block1 = Ok None.
Proof. vm_compute. reflexivity. Qed.

Lemma ex_blocks_no_collision : blocks_no_collision ex_block1 ex_block1.
Proof.
  split.
  - exact (fun E => eq_refl).
  - exact (fun E => eq_refl).
  - intros m1 m2 t1 t2 Hm1 Hm2 Hc1 Hc2 Ht1 Ht2.
    assert (tx_GetRlp ex_tx <> []) as Hne by (vm_compute; discriminate).
    rewrite (st_tree_unique _ m1 t1 Hne Hm1 Hc1 Ht1), (st_tree_unique _ m2 t2 Hne Hm2 Hc2 Ht2).
    intros s s' Hs Hs' E. destruct (st_subtrees _ _ Hs) as [->| ->], (st_subtrees _ _ Hs') as [->| ->]; [reflexivity| | |reflexivity];
      exfalso; revert E; vm_compute; discriminate.
Qed.

Lemma block_hash_commits_witness : ex_block1 = ex_block2.
Proof.
  apply (block_hash_commits (E := unit) ex_block1 ex_block2); try rewrite !ex_block2_same.
  - reflexivity.
  - exact ex_block1_ok.
  - exact ex_block1_ok.
  - exact ex_blocks_no_collision.
  - exact ex_block1_valid.
  - exact ex_block1_valid.
  - exact eq_refl.
Defined.
