(* ===== verification/EthashAlgo.v ===== *)
(** * The proof-of-work function

    [consensus/ethash/algorithm.go]: the items of the dataset, the generation of
    the whole dataset by several threads, and the mixing function with the two
    ways to look items up, computing them from the cache or reading them from the
    dataset.  Words are 32-bit, and indices into slices are computed in 32 bits as
    in the source.  Keccak-512 is outside of the repository: the class
    [Keccak512].  The machine is little-endian; [swap] is for others. *)

From Stdlib Require Import ZArith Lia.
From stdpp Require Import gmap.
From S2P Require Import Prelude Common Crypto.

Open Scope go_scope.

Class Keccak512 := {
  keccak512 : bytes -> bytes;
  keccak512_len : forall b, bytes_n 64 (keccak512 b);
}.

(** ** Words *)

(** [binary.LittleEndian.PutUint32] and [Uint32] on consecutive places. *)
Definition word_bytes (w : Z) : bytes := [w mod 256; w / 256 mod 256; w / 65536 mod 256; w / 16777216 mod 256].

Definition bytes_of (ws : list Z) : bytes := concat (map word_bytes ws).

Fixpoint words_of (l : bytes) : list Z :=
  match l with
  | a :: b :: c :: d :: l => a + 256 * b + 65536 * c + 16777216 * d :: words_of l
  | _ => []
  end.

Definition mixBytes : Z := 128.
Definition hashBytes : Z := 64.
Definition hashWords : Z := 16.
Definition datasetParents : nat := 256.
Definition loopAccesses : nat := 64.

Definition fnv (a b : Z) : Z := Z.lxor (u32 (a * 16777619)) b.

(** [fnvHash(mix, data)]: every word of [mix] needs one of [data]. *)
Fixpoint fnvHash (mix data : list Z) : outcome (list Z) :=
  match mix, data with
  | [], _ => Ok []
  | _ :: _, [] => Panic PanicIndex
  | m :: mix, d :: data => r <- fnvHash mix data ;; Ok (fnv m d :: r)
  end.

(** [a % b] on [uint32], which panics for zero. *)
Definition umod (a b : Z) : outcome Z := if b =? 0 then Panic PanicOther else Ok (a mod b).

Section algorithm.
Context {K : Keccak} {K5 : Keccak512}.

(** The loop over the parents of an item. *)
Fixpoint item_parents (n : nat) (cache : list Z) (rows index i : Z) (intMix : list Z) : outcome (list Z) :=
  match n with
  | O => Ok intMix
  | S n =>
      w <- of_option PanicIndex (zget intMix (i mod 16)) ;;
      parent <- umod (fnv (Z.lxor index i) w) rows ;;
      data <- of_option PanicIndex (zslice cache (u32 (parent * hashWords)) (zlen cache)) ;;
      intMix <- fnvHash intMix data ;;
      item_parents n cache rows index (i + 1) intMix
  end.

Definition generateDatasetItem (cache : list Z) (index : Z) : outcome bytes :=
  let rows := u32 (zlen cache / hashWords) in
  r <- umod index rows ;;
  ws <- of_option PanicIndex (zslice cache (u32 (r * hashWords)) (u32 (r * hashWords) + 16)) ;;
  let ws := match ws with w :: ws => Z.lxor w index :: ws | [] => [] end in
  let mix := keccak512 (bytes_of ws) in
  intMix <- item_parents datasetParents cache rows index 0 (words_of mix) ;;
  Ok (keccak512 (bytes_of intMix)).

(** [copy(dst[pos:], src)] *)
Definition copy_to {A} (dst : list A) (pos : Z) (src : list A) : outcome (list A) :=
  if (pos <? 0) || (zlen dst <? pos) then Panic PanicIndex
  else Ok (take (Z.to_nat pos) dst ++ gocopy (drop (Z.to_nat pos) dst) src).

(** [generateDataset]: thread [id] of [threads] writes the items of its batch. *)
Definition thread_items (size threads id : Z) : list Z :=
  let batch := u32 ((u64 (u64 (size + u64 (hashBytes * threads)) - 1)) / u64 (hashBytes * threads)) in
  let first := u32 (u32 id * batch) in
  let limit := u32 (first + batch) in
  let limit := if u32 (size / hashBytes) <? limit then u32 (size / hashBytes) else limit in
  seqZ first (limit - first).

(** One round of a thread.  The offset into the dataset is computed in 32 bits;
    the report of the progress divides by a hundredth of the items. *)
Definition dataset_put (cache : list Z) (dataset : bytes) (index : Z) : outcome bytes :=
  item <- generateDatasetItem cache index ;;
  dataset <- copy_to dataset (u32 (index * hashBytes)) item ;;
  _ <- umod 1 (u32 (zlen dataset / hashBytes / 100)) ;;
  Ok dataset.

(** The rounds of all threads, in the order in which they are run. *)
Fixpoint dataset_puts (cache : list Z) (dataset : bytes) (order : list Z) : outcome bytes :=
  match order with
  | [] => Ok dataset
  | index :: order => dataset <- dataset_put cache dataset index ;; dataset_puts cache dataset order
  end.

(** [order] interleaves the rounds of the threads. *)
Definition dataset_order (size threads : Z) (order : list Z) : Prop :=
  order ≡ₚ concat (map (thread_items size threads) (seqZ 0 threads)).

(** ** hashimoto *)

Section hashimoto.
Context (lookup_ : Z -> outcome (list Z)).

Fixpoint hashimoto_loop (n : nat) (rows seedHead i : Z) (mix temp : list Z) : outcome (list Z) :=
  match n with
  | O => Ok mix
  | S n =>
      w <- of_option PanicIndex (zget mix (i mod zlen mix)) ;;
      parent <- umod (fnv (Z.lxor (u32 i) seedHead) w) rows ;;
      d0 <- lookup_ (u32 (2 * parent)) ;;
      temp <- copy_to temp 0 d0 ;;
      d1 <- lookup_ (u32 (2 * parent + 1)) ;;
      temp <- copy_to temp hashWords d1 ;;
      mix <- fnvHash mix temp ;;
      hashimoto_loop n rows seedHead (i + 1) mix temp
  end.

(** The compression of the mix: [mix[i/4]] is written after [mix[i]] was read. *)
Fixpoint compress_mix (mix : list Z) : list Z :=
  match mix with
  | a :: b :: c :: d :: mix => fnv (fnv (fnv a b) c) d :: compress_mix mix
  | _ => []
  end.

(** [binary.LittleEndian.PutUint64] *)
Definition le64 (x : Z) : bytes := reverse (be_bytes 8 x).

Definition hashimoto (hash : bytes) (nonce size : Z) : outcome (bytes * bytes) :=
  let rows := u32 (size / mixBytes) in
  let seed := gocopy (zeros 32) hash ++ le64 nonce in
  let seed := keccak512 seed in
  seedHead <- of_option PanicIndex (head (words_of seed)) ;;
  let mix := words_of seed ++ words_of seed in
  mix <- hashimoto_loop loopAccesses rows seedHead 0 mix (zeros 32) ;;
  let digest := gocopy (zeros 32) (bytes_of (compress_mix mix)) in
  Ok (digest, Keccak256 (seed ++ digest)).
End hashimoto.

Definition hashimotoLight (size : Z) (cache : list Z) (hash : bytes) (nonce : Z) : outcome (bytes * bytes) :=
  hashimoto (fun index => rawData <- generateDatasetItem cache index ;; Ok (words_of rawData)) hash nonce size.

Definition hashimotoFull (dataset : list Z) (hash : bytes) (nonce : Z) : outcome (bytes * bytes) :=
  hashimoto (fun index =>
    let offset := u32 (index * hashWords) in
    of_option PanicIndex (zslice dataset offset (u32 (offset + hashWords)))) hash nonce (u64 (zlen dataset * 4)).
End algorithm.

(** ** Sizes *)

Lemma length_words_of n : forall l, length l = (4 * n)%nat -> length (words_of l) = n.
Proof.
  induction n as [|n IH]; intros l Hl; [by destruct l|].
  destruct l as [|a [|b [|c [|d l]]]]; cbn [length] in Hl; try lia. cbn [words_of length]. f_equal. apply IH. lia.
Qed.

Lemma words_of_app n : forall l r, length l = (4 * n)%nat -> words_of (l ++ r) = words_of l ++ words_of r.
Proof.
  induction n as [|n IH]; intros l r Hl; [by destruct l|].
  destruct l as [|a [|b [|c [|d l]]]]; cbn [length] in Hl; try lia. cbn [words_of app]. f_equal. apply IH. lia.
Qed.

Lemma fnvHash_ok mix : forall data, (length mix <= length data)%nat -> exists r, fnvHash mix data = Ok r /\ length r = length mix.
Proof.
  induction mix as [|m mix IH]; intros data Hl; [by exists []|]. destruct data as [|d data]; cbn [length] in Hl; [lia|].
  destruct (IH data ltac:(lia)) as (r & E & Hr). cbn [fnvHash]. rewrite E. eexists. split; [done|]. cbn [length]. by rewrite Hr.
Qed.

Lemma copy_to_ok {A} (dst : list A) pos src :
  0 <= pos -> pos + zlen src <= zlen dst ->
  copy_to dst pos src = Ok (take (Z.to_nat pos) dst ++ src ++ drop (Z.to_nat pos + length src) dst).
Proof.
  intros Hp Hl. unfold copy_to. pose proof (zlen_nonneg src).
  destruct (Z.ltb_spec pos 0); [lia|]. destruct (Z.ltb_spec (zlen dst) pos); [lia|]. cbn [orb]. do 2 f_equal.
  unfold gocopy. rewrite length_drop, take_ge by (unfold zlen in *; lia). by rewrite drop_drop.
Qed.

Lemma umod_ok a b : 0 < b -> umod a b = Ok (a mod b) /\ 0 <= a mod b < b.
Proof. intros H. unfold umod. destruct (Z.eqb_spec b 0); [lia|]. split; [done|]. by apply Z.mod_pos_bound. Qed.

Lemma u32_small x : 0 <= x < two32 -> u32 x = x.
Proof. apply Z.mod_small. Qed.

Section proofs.
Context {K : Keccak} {K5 : Keccak512}.

(** A cache has a row at least, and its words are counted in 32 bits. *)
Definition cache_ok (cache : list Z) : Prop := 16 <= zlen cache < two32.

Lemma cache_rows cache : cache_ok cache -> let rows := u32 (zlen cache / hashWords) in 0 < rows /\ 16 * rows <= zlen cache.
Proof.
  unfold cache_ok, hashWords, two32. intros H. pose proof (Z.mul_div_le (zlen cache) 16 ltac:(lia)).
  pose proof (Z.div_le_lower_bound (zlen cache) 16 1 ltac:(lia) ltac:(lia)).
  rewrite u32_small by (unfold two32; lia). cbv zeta. lia.
Qed.

Lemma item_parents_ok cache index n : cache_ok cache -> forall i intMix,
  0 <= i -> length intMix = 16%nat ->
  exists r, item_parents n cache (u32 (zlen cache / hashWords)) index i intMix = Ok r /\ length r = 16%nat.
Proof.
  intros Hc. destruct (cache_rows _ Hc) as [Hr Hl]. set (rows := u32 (zlen cache / hashWords)) in *. unfold cache_ok in Hc.
  induction n as [|n IH]; intros i intMix Hi Hm; [by exists intMix|]. cbn [item_parents].
  pose proof (Z.mod_pos_bound i 16 ltac:(lia)) as Hi16.
  destruct (zget_Some intMix (i mod 16)) as [w ->]; [unfold zlen; lia|]. cbn [of_option obind].
  destruct (umod_ok (fnv (Z.lxor index i) w) rows Hr) as [-> Hp]. cbn [obind]. set (parent := _ mod rows) in *.
  unfold hashWords. rewrite u32_small by lia. rewrite zslice_Some by lia. cbn [of_option obind].
  destruct (fnvHash_ok intMix (take (Z.to_nat (zlen cache - parent * 16)) (drop (Z.to_nat (parent * 16)) cache))) as (m & -> & Hm').
  { rewrite length_take, length_drop. unfold zlen in *. lia. }
  cbn [obind]. apply IH; [lia|congruence].
Qed.

Lemma generateDatasetItem_ok cache index : cache_ok cache -> exists item, generateDatasetItem cache index = Ok item /\ length item = 64%nat.
Proof.
  intros Hc. destruct (cache_rows _ Hc) as [Hr Hl]. unfold generateDatasetItem. set (rows := u32 (zlen cache / hashWords)) in *.
  destruct (umod_ok index rows Hr) as [-> Hp]. cbn [obind]. unfold cache_ok in Hc. unfold hashWords. rewrite u32_small by lia.
  rewrite zslice_Some by lia. cbn [of_option obind]. set (ws := match take _ _ with [] => [] | _ => _ end).
  destruct (item_parents_ok cache index datasetParents Hc 0 (words_of (keccak512 (bytes_of ws)))) as (m & Em & _); [lia| |].
  { apply length_words_of. destruct (keccak512_len (bytes_of ws)) as [_ H]. unfold zlen in H. lia. }
  fold rows in Em. rewrite Em. cbn [obind]. eexists. split; [done|]. destruct (keccak512_len (bytes_of m)) as [_ H]. unfold zlen in H. lia.
Qed.

Definition item_of (cache : list Z) (index : Z) : bytes :=
  match generateDatasetItem cache index with Ok item => item | _ => [] end.

Lemma item_of_ok cache index : cache_ok cache ->
  generateDatasetItem cache index = Ok (item_of cache index) /\ length (item_of cache index) = 64%nat.
Proof. intros Hc. unfold item_of. by destruct (generateDatasetItem_ok cache index Hc) as (item & -> & ?). Qed.

(** ** The dataset as blocks *)

Definition blocks (bs : list bytes) : Prop := Forall (fun b => length b = 64%nat) bs.

Lemma length_blocks bs : blocks bs -> length (concat bs) = (64 * length bs)%nat.
Proof. induction 1 as [|b bs Hb _ IH]; [done|]. cbn [concat length]. rewrite length_app, IH, Hb. lia. Qed.

Lemma split_blocks n : forall d : bytes, length d = (64 * n)%nat -> exists bs, d = concat bs /\ blocks bs /\ length bs = n.
Proof.
  induction n as [|n IH]; intros d Hd; [exists []; split; [by destruct d|split; [apply Forall_nil_2|done]]|].
  destruct (IH (drop 64 d)) as (bs & E & Hb & Hl); [rewrite length_drop; lia|]. exists (take 64 d :: bs). cbn [concat length].
  rewrite <- E, take_drop. split_and!; [done|apply Forall_cons_2; [rewrite length_take; lia|done]|by rewrite Hl].
Qed.

Lemma put_block (bs : list bytes) (i : nat) item :
  blocks bs -> (i < length bs)%nat -> length item = 64%nat ->
  copy_to (concat bs) (Z.of_nat i * 64) item = Ok (concat (<[i := item]> bs)) /\ blocks (<[i := item]> bs).
Proof.
  intros Hb Hi Hit. split; [|by apply Forall_insert].
  assert (blocks (take i bs)) as Ht by (by apply Forall_take). pose proof (length_blocks _ Hb) as Hl. pose proof (length_blocks _ Ht) as Hlt.
  rewrite length_take in Hlt. rewrite copy_to_ok by (unfold zlen; lia). f_equal.
  destruct (lookup_lt_is_Some_2 bs i Hi) as [b Eb]. pose proof (Forall_lookup_1 _ _ _ _ Hb Eb) as Hlb.
  rewrite (insert_take_drop bs i item Hi), concat_app. cbn [concat].
  rewrite <- (take_drop_middle bs i b Eb) at 1 2. rewrite concat_app. cbn [concat].
  replace (Z.to_nat (Z.of_nat i * 64)) with (length (concat (take i bs))) by lia. rewrite take_app_length. f_equal. f_equal.
  rewrite Hit, <- Hlb, <- drop_drop, drop_app_length, drop_app_length. done.
Qed.

Lemma dataset_puts_ok cache order : cache_ok cache -> forall bs,
  blocks bs -> 6400 <= 64 * zlen bs <= two32 -> Forall (fun i => 0 <= i < zlen bs) order ->
  exists bs', dataset_puts cache (concat bs) order = Ok (concat bs') /\ blocks bs' /\ length bs' = length bs /\
    forall i : nat, (i < length bs)%nat -> bs' !! i = if decide (Z.of_nat i ∈ order) then Some (item_of cache (Z.of_nat i)) else bs !! i.
Proof.
  intros Hc. induction order as [|k order IH]; intros bs Hb Hz Ho; [exists bs; split_and!; try done|].
  apply Forall_cons in Ho as [Hk Ho]. destruct (item_of_ok cache k Hc) as [Ek Hlk]. unfold zlen in Hk.
  destruct (put_block bs (Z.to_nat k) (item_of cache k)) as [Ep Hb']; [done|lia|done|]. rewrite Z2Nat.id in Ep by lia.
  destruct (IH (<[Z.to_nat k := item_of cache k]> bs)) as (bs' & E & Hb'' & Hl & Hbs'); [done|unfold zlen; by rewrite length_insert|unfold zlen; by rewrite length_insert|].
  exists bs'. rewrite length_insert in Hl, Hbs'. split_and!; [|done|done|].
  - cbn [dataset_puts]. unfold dataset_put. rewrite Ek. cbn [obind]. unfold hashBytes. unfold zlen in Hz. rewrite u32_small by (unfold two32 in *; lia).
    rewrite Ep. cbn [obind]. unfold zlen. rewrite length_blocks by done. rewrite length_insert.
    replace (Z.of_nat (64 * length bs)) with (Z.of_nat (length bs) * 64) by lia. rewrite Z.div_mul by lia.
    pose proof (Z.div_le_lower_bound (Z.of_nat (length bs)) 100 1 ltac:(lia) ltac:(lia)).
    pose proof (Z.mul_div_le (Z.of_nat (length bs)) 100 ltac:(lia)).
    destruct (umod_ok 1 (u32 (Z.of_nat (length bs) / 100))) as [-> _]; [rewrite u32_small by (unfold two32 in *; lia); lia|]. exact E.
  - intros i Hi. rewrite (Hbs' i Hi). destruct (decide (Z.of_nat i ∈ order)) as [Hin|Hin].
    + by rewrite decide_True by (by apply list_elem_of_further).
    + destruct (decide (i = Z.to_nat k)) as [->|Hne].
      * rewrite list_lookup_insert_eq by lia. rewrite Z2Nat.id by lia. by rewrite decide_True by apply list_elem_of_here.
      * rewrite list_lookup_insert_ne by done. rewrite decide_False; [done|]. intros [?|?]%elem_of_cons; [lia|done].
Qed.

(** The batches cover the dataset. *)
Lemma thread_items_cover size threads i :
  0 < size <= two32 -> size mod 64 = 0 -> 1 <= threads <= 65536 ->
  i ∈ concat (map (thread_items size threads) (seqZ 0 threads)) <-> 0 <= i < size / 64.
Proof.
  unfold two32. intros Hs Hm Ht. set (n := size / 64). assert (size = 64 * n) as En by (pose proof (Z.div_mod size 64 ltac:(lia)); unfold n; lia).
  set (b := (n + threads - 1) / threads).
  assert (threads * b <= n + threads - 1 < threads * b + threads) as Hb.
  { pose proof (Z.div_mod (n + threads - 1) threads ltac:(lia)). pose proof (Z.mod_pos_bound (n + threads - 1) threads ltac:(lia)). unfold b. lia. }
  assert (0 < b) as Hb0 by (apply Z.div_str_pos; lia).
  assert (forall id, 0 <= id < threads -> thread_items size threads id = seqZ (id * b) (Z.min n (id * b + b) - id * b)) as Hitems.
  { intros id Hid. assert (id * b <= n + threads) by nia. assert (b <= n + threads) by nia. unfold thread_items, hashBytes.
    rewrite (u64_small (64 * threads)) by (unfold is_u64, two64; lia). rewrite (u64_small (size + 64 * threads)) by (unfold is_u64, two64; lia).
    rewrite (u64_small (size + 64 * threads - 1)) by (unfold is_u64, two64; lia).
    assert ((size + 64 * threads - 1) / (64 * threads) = b) as ->.
    { symmetry. apply Z.div_unique with (r := size + 64 * threads - 1 - 64 * threads * b); [left; rewrite En; lia|lia]. }
    fold n. rewrite (u32_small b), (u32_small id), (u32_small (id * b)), (u32_small (id * b + b)), (u32_small n) by (unfold two32; lia).
    f_equal. destruct (Z.ltb_spec n (id * b + b)); lia. }
  rewrite list_elem_of_In, in_concat. split.
  - intros (l & Hl & Hi). apply in_map_iff in Hl as (id & <- & Hid). apply list_elem_of_In, elem_of_seqZ in Hid.
    rewrite Hitems in Hi by lia. apply list_elem_of_In, elem_of_seqZ in Hi. nia.
  - intros Hi. assert (0 <= i / b < threads) as Hid by (split; [apply Z.div_pos; lia|apply Z.div_lt_upper_bound; nia]).
    exists (thread_items size threads (i / b)). split; [apply in_map, list_elem_of_In, elem_of_seqZ; lia|].
    rewrite Hitems by lia. apply list_elem_of_In, elem_of_seqZ.
    pose proof (Z.div_mod i b ltac:(lia)). pose proof (Z.mod_pos_bound i b ltac:(lia)). lia.
Qed.

(** What the threads write, in any order. *)
Lemma generateDataset_ok cache (d0 : bytes) threads order :
  cache_ok cache -> 6400 <= zlen d0 <= two32 -> zlen d0 mod 64 = 0 -> 1 <= threads <= 65536 -> dataset_order (zlen d0) threads order ->
  dataset_puts cache d0 order = Ok (concat (map (item_of cache) (seqZ 0 (zlen d0 / 64)))).
Proof.
  intros Hc Hz Hm Ht Ho. pose proof (Z.div_mod (zlen d0) 64 ltac:(lia)) as Hd. set (n := Z.to_nat (zlen d0 / 64)).
  pose proof (Z.div_pos (zlen d0) 64 ltac:(lia) ltac:(lia)). destruct (split_blocks n d0) as (bs & -> & Hb & Hl); [unfold zlen in *; lia|].
  assert (forall i, i ∈ order <-> 0 <= i < Z.of_nat n) as Hin.
  { intros i. rewrite Ho. rewrite thread_items_cover by (done || lia). unfold n. rewrite Z2Nat.id by lia. done. }
  assert (zlen (concat bs) = 64 * zlen bs) as Elen by (unfold zlen; rewrite length_blocks by done; lia).
  destruct (dataset_puts_ok cache order Hc bs Hb ltac:(lia)) as (bs' & E & _ & Hl' & Hbs').
  { apply Forall_forall. intros i Hi. apply Hin in Hi. unfold zlen. lia. }
  rewrite E. do 2 f_equal. apply list_eq. intros i. rewrite list_lookup_fmap.
  assert (Z.to_nat (zlen (concat bs) / 64) = length bs) as En.
  { rewrite Elen, Z.mul_comm, Z.div_mul by lia. unfold zlen. lia. }
  destruct (decide (i < length bs)%nat) as [Hi|Hi].
  - rewrite (Hbs' i Hi), decide_True by (apply Hin; lia). rewrite lookup_seqZ_lt by lia. cbn. by rewrite Z.add_0_l.
  - rewrite (lookup_ge_None_2 bs') by lia. rewrite lookup_seqZ_ge by lia. done.
Qed.

Lemma words_of_blocks bs : blocks bs -> words_of (concat bs) = concat (map words_of bs) /\ Forall (fun w => length w = 16%nat) (map words_of bs).
Proof.
  induction 1 as [|b bs Hb _ [E IH]]; [split; [done|apply Forall_nil_2]|]. cbn [concat map]. rewrite (words_of_app 16) by lia. rewrite E.
  split; [done|]. apply Forall_cons_2; [|done]. apply length_words_of. lia.
Qed.

Lemma slice_words (ws : list (list Z)) i w :
  Forall (fun w => length w = 16%nat) ws -> ws !! i = Some w ->
  zslice (concat ws) (Z.of_nat i * 16) (Z.of_nat i * 16 + 16) = Some w /\ zlen (concat ws) = 16 * zlen ws.
Proof.
  intros Hw Ew. assert (forall l : list (list Z), Forall (fun w => length w = 16%nat) l -> length (concat l) = (16 * length l)%nat) as Hlen.
  { intros l. induction 1 as [|x l Hx _ IH]; [done|]. cbn [concat length]. rewrite length_app, IH, Hx. lia. }
  pose proof (Hlen _ Hw) as Hl. pose proof (lookup_lt_Some _ _ _ Ew) as Hi. split; [|unfold zlen; lia].
  rewrite zslice_Some by (unfold zlen; lia). f_equal. rewrite <- (take_drop_middle ws i w Ew), concat_app. cbn [concat].
  pose proof (Hlen _ (Forall_take _ i _ Hw)) as Ht. rewrite length_take in Ht. pose proof (Forall_lookup_1 _ _ _ _ Hw Ew) as Hlw. cbv beta in Hlw.
  replace (Z.to_nat (Z.of_nat i * 16)) with (length (concat (take i ws))) by lia. rewrite drop_app_length.
  replace (Z.to_nat (Z.of_nat i * 16 + 16 - Z.of_nat i * 16)) with (length w) by lia. apply take_app_length.
Qed.

(** ** The mixing function depends on its items only *)

Lemma hashimoto_loop_ok (l1 l2 : Z -> outcome (list Z)) rows seedHead n :
  0 < rows -> 2 * rows <= two32 ->
  (forall i, 0 <= i < 2 * rows -> exists ws, l1 i = Ok ws /\ l2 i = Ok ws /\ length ws = 16%nat) ->
  forall i mix temp, length mix = 32%nat -> length temp = 32%nat ->
  exists mix', hashimoto_loop l1 n rows seedHead i mix temp = Ok mix' /\ hashimoto_loop l2 n rows seedHead i mix temp = Ok mix' /\ length mix' = 32%nat.
Proof.
  intros Hr H32 Hl. unfold two32 in *. induction n as [|n IH]; intros i mix temp Hm Ht; [by exists mix|]. cbn [hashimoto_loop].
  assert (zlen mix = 32) as Em by (unfold zlen; lia). rewrite Em. pose proof (Z.mod_pos_bound i 32 ltac:(lia)).
  destruct (zget_Some mix (i mod 32)) as [w ->]; [lia|]. cbn [of_option obind].
  destruct (umod_ok (fnv (Z.lxor (u32 i) seedHead) w) rows Hr) as [-> Hp]. cbn [obind]. set (parent := _ mod rows) in *.
  rewrite !u32_small by (unfold two32; lia).
  destruct (Hl (2 * parent) ltac:(lia)) as (w0 & -> & -> & L0). destruct (Hl (2 * parent + 1) ltac:(lia)) as (w1 & -> & -> & L1). cbn [obind].
  rewrite copy_to_ok by (unfold zlen; lia). cbn [obind]. set (t1 := take _ temp ++ _).
  assert (length t1 = 32%nat) as Lt1 by (unfold t1; rewrite !length_app, length_take, length_drop; lia).
  unfold hashWords. rewrite copy_to_ok by (unfold zlen; lia). cbn [obind]. set (t2 := take _ t1 ++ _).
  assert (length t2 = 32%nat) as Lt2 by (unfold t2; rewrite !length_app, length_take, length_drop; lia).
  destruct (fnvHash_ok mix t2) as (m & -> & Hm'); [lia|]. cbn [obind]. apply IH; [congruence|done].
Qed.

Lemma hashimoto_agree (l1 l2 : Z -> outcome (list Z)) hash nonce size :
  128 <= size -> size / 64 <= two32 -> size < two32 * 128 ->
  (forall i, 0 <= i < 2 * (size / 128) -> exists ws, l1 i = Ok ws /\ l2 i = Ok ws /\ length ws = 16%nat) ->
  exists r, hashimoto l1 hash nonce size = Ok r /\ hashimoto l2 hash nonce size = Ok r.
Proof.
  intros Hs H64 Hs' Hl. pose proof (Z.div_le_lower_bound size 128 1 ltac:(lia) ltac:(lia)) as Hr.
  pose proof (Z.div_lt_upper_bound size 128 two32 ltac:(lia) ltac:(lia)) as Hr'.
  assert (2 * (size / 128) <= two32) as H2.
  { pose proof (Z.mul_div_le size 128 ltac:(lia)). pose proof (Z.div_le_lower_bound size 64 (2 * (size / 128)) ltac:(lia) ltac:(lia)). lia. }
  unfold hashimoto, mixBytes. rewrite u32_small by lia. set (seed := keccak512 _).
  destruct (keccak512_len (gocopy (zeros 32) hash ++ le64 nonce)) as [_ Hseed]. fold seed in Hseed. unfold zlen in Hseed.
  pose proof (length_words_of 16 seed ltac:(lia)) as Hw. destruct (words_of seed) as [|w ws] eqn:E; [done|]. rewrite <- E in *. 
  assert (head (words_of seed) = Some w) as -> by (by rewrite E). cbn [of_option obind].
  destruct (hashimoto_loop_ok l1 l2 (size / 128) w loopAccesses ltac:(lia) H2 Hl 0 (words_of seed ++ words_of seed) (zeros 32)) as (m & -> & -> & _).
  { rewrite length_app. lia. }
  { done. }
  cbn [obind]. by eexists.
Qed.
End proofs.

(** Both ways to verify a proof of work agree.  Whatever the order in which the
    threads of [generateDataset] write their items, the dataset is complete, and
    hashing with it gives for every header hash and nonce what hashing with the
    cache gives; neither panics.  The dataset has at most 2^32 bytes: the offsets
    are computed in 32 bits. *)
Lemma hashimoto_full_light {K : Keccak} {K5 : Keccak512} (cache : list Z) (d0 : bytes) (threads : Z) (order : list Z) :
  cache_ok cache -> 6400 <= zlen d0 <= two32 -> zlen d0 mod 128 = 0 -> 1 <= threads <= 65536 ->
  dataset_order (zlen d0) threads order ->
  exists d, dataset_puts cache d0 order = Ok d /\ forall hash nonce, exists r,
    hashimotoFull (words_of d) hash nonce = Ok r /\ hashimotoLight (zlen d0) cache hash nonce = Ok r.
Proof.
  intros Hc Hz Hm Ht Ho. pose proof (Z.div_mod (zlen d0) 128 ltac:(lia)) as Hd. set (q := zlen d0 / 128) in *.
  assert (zlen d0 = (2 * q) * 64) as E64 by lia. assert (zlen d0 / 64 = 2 * q) as En by (rewrite E64; apply Z.div_mul; lia).
  assert (zlen d0 mod 64 = 0) as Hm64 by (rewrite E64; apply Z.mod_mul; lia).
  exists (concat (map (item_of cache) (seqZ 0 (2 * q)))). split; [rewrite <- En; by eapply generateDataset_ok|].
  intros hash nonce. set (bs := map (item_of cache) (seqZ 0 (2 * q))).
  assert (blocks bs) as Hb by (apply Forall_map, Forall_forall; intros i _; apply item_of_ok, Hc).
  destruct (words_of_blocks bs Hb) as [Ew Hw]. assert (length bs = Z.to_nat (2 * q)) as Hl by (unfold bs; by rewrite length_map, length_seqZ).
  assert (forall i, 0 <= i < 2 * q -> zslice (words_of (concat bs)) (i * 16) (i * 16 + 16) = Some (words_of (item_of cache i))) as Hsl.
  { intros i Hi. rewrite Ew. rewrite <- (Z2Nat.id i) at 1 2 by lia. apply slice_words; [done|]. unfold bs. rewrite !list_lookup_fmap.
    rewrite lookup_seqZ_lt by lia. cbn. by rewrite Z.add_0_l, Z2Nat.id by lia. }
  assert (zlen (words_of (concat bs)) = 32 * q) as Hzw.
  { rewrite Ew. destruct (lookup_lt_is_Some_2 (map words_of bs) 0) as [w E0]; [rewrite length_map; lia|].
    destruct (slice_words _ _ _ Hw E0) as [_ ->]. unfold zlen. rewrite length_map. lia. }
  unfold two32 in *. unfold hashimotoFull, hashimotoLight. rewrite Hzw, u64_small by (unfold is_u64, two64; lia).
  replace (32 * q * 4) with (zlen d0) by lia. apply hashimoto_agree; [lia|unfold two32; lia|unfold two32; lia|].
  fold q. intros i Hi. exists (words_of (item_of cache i)). unfold hashWords. cbv zeta. rewrite !u32_small by (rewrite ?u32_small; unfold two32; lia).
  rewrite Hsl by done. destruct (item_of_ok cache i Hc) as [-> Hli]. split_and!; [done|done|]. apply length_words_of. lia.
Qed.

(** In a dataset of more than 2^32 bytes the item 2^26 is written over the first
    item, and its own place is left as it was. *)
Lemma dataset_put_wraps {K5 : Keccak512} (cache : list Z) (dataset : bytes) :
  cache_ok cache -> two32 < zlen dataset < two32 * 64 ->
  dataset_put cache dataset 67108864 = Ok (item_of cache 67108864 ++ drop 64 dataset).
Proof.
  intros Hc Hz. unfold two32 in *. destruct (item_of_ok cache 67108864 Hc) as [E Hl]. unfold dataset_put. rewrite E. cbn [obind].
  change (u32 (67108864 * hashBytes)) with 0. rewrite copy_to_ok by (unfold zlen in *; lia). cbn [obind]. rewrite Hl.
  change (Z.to_nat 0 + 64)%nat with 64%nat. change (take (Z.to_nat 0) dataset) with (@nil Z). cbn [app].
  assert (zlen (item_of cache 67108864 ++ drop 64 dataset) = zlen dataset) as Ez by (unfold zlen in *; rewrite length_app, length_drop; lia).
  rewrite Ez. unfold hashBytes. rewrite Z.div_div by lia. change (64 * 100) with 6400.
  pose proof (Z.div_le_lower_bound (zlen dataset) 6400 1 ltac:(lia) ltac:(lia)).
  pose proof (Z.div_le_upper_bound (zlen dataset) 6400 (4294967296 - 1) ltac:(lia) ltac:(lia)).
  destruct (umod_ok 1 (u32 (zlen dataset / 6400))) as [-> _]; [|done]. rewrite u32_small by (unfold two32; lia). lia.
Qed.

(** ** An example *)

#[export, refine] Instance Keccak512_ref : Keccak512 := {| keccak512 b := be_bytes 64 (digest b) |}.
Proof. intros b. split; [apply be_bytes_is_byte|apply zlen_be_bytes]. Defined.
