(* ===== verification/EthashCache.v ===== *)
(** * The caches and datasets of ethash

    [consensus/ethash/algorithm.go]: the sizes of an epoch, its seed, the
    generation of its cache; [consensus/ethash/ethash.go]: the cache and the
    dataset an engine without a directory for them generates, and the bookkeeping
    of the epochs.  The theorems: the search for a size ends in the largest
    admissible prime, the generation of a cache returns, and the tables agree with
    what the search computes about them. *)

From Stdlib Require Import ZArith Lia Znumtheory.
From stdpp Require Import gmap.
From S2P Require Import Prelude Common Crypto Bitutil EthashSizes EthashAlgo.

Open Scope go_scope.

Definition datasetInitBytes : Z := 1073741824.
Definition datasetGrowthBytes : Z := 8388608.
Definition cacheInitBytes : Z := 16777216.
Definition cacheGrowthBytes : Z := 131072.
Definition epochLength : Z := 30000.
Definition cacheRounds : nat := 3.
Definition maxEpoch : Z := 2048.

(** [big.Int.ProbablyPrime(1)], which decides primality below 2^64. *)
Definition ProbablyPrime (n : Z) : bool :=
  (1 <? n) && forallb (fun d => negb (n mod d =? 0)) (seqZ 2 (Z.sqrt n - 1)).

(** [for !ProbablyPrime(size / unit) { size -= 2 * unit }] *)
Fixpoint size_loop (fuel : nat) (unit_ size : Z) : outcome Z :=
  match fuel with
  | O => NoFuel
  | S fuel => if ProbablyPrime (size / unit_) then Ok size else size_loop fuel unit_ (u64 (size - 2 * unit_))
  end.

Definition calcCacheSize (fuel : nat) (epoch : Z) : outcome Z :=
  size_loop fuel hashBytes (cacheInitBytes +u (cacheGrowthBytes *u u64 epoch) -u hashBytes).

Definition calcDatasetSize (fuel : nat) (epoch : Z) : outcome Z :=
  size_loop fuel mixBytes (datasetInitBytes +u (datasetGrowthBytes *u u64 epoch) -u mixBytes).

Definition cacheSize (fuel : nat) (block : Z) : outcome Z :=
  let epoch := i64 (block / epochLength) in
  if epoch <? maxEpoch then of_option PanicIndex (zget cacheSizes epoch) else calcCacheSize fuel epoch.

Definition datasetSize (fuel : nat) (block : Z) : outcome Z :=
  let epoch := i64 (block / epochLength) in
  if epoch <? maxEpoch then of_option PanicIndex (zget datasetSizes epoch) else calcDatasetSize fuel epoch.

Section cache.
Context {K : Keccak} {K5 : Keccak512}.

Definition seedHash (block : Z) : bytes :=
  let seed := zeros 32 in
  if block <? epochLength then seed
  else Nat.iter (Z.to_nat (i64 (block / epochLength))) (fun seed => Keccak256 seed) seed.

(** [keccak512(cache[pos:], data)] *)
Definition hash_into (cache : bytes) (pos : Z) (data : bytes) : outcome bytes :=
  if zlen cache <? pos + hashBytes then Panic PanicIndex else copy_to cache pos (keccak512 data).

(** [for offset := hashBytes; offset < size; offset += hashBytes] *)
Fixpoint cache_fill (fuel : nat) (offset : Z) (cache : bytes) : outcome bytes :=
  match fuel with
  | O => NoFuel
  | S fuel =>
      if offset <? zlen cache then
        prev <- of_option PanicIndex (zslice cache (offset - hashBytes) offset) ;;
        cache <- hash_into cache offset prev ;;
        cache_fill fuel (offset +u hashBytes) cache
      else Ok cache
  end.

(** One row of a round; the state is the cache and [temp]. *)
Definition cache_row (rows : Z) (st : bytes * bytes) (j : Z) : outcome (bytes * bytes) :=
  let '(cache, temp) := st in
  s <- umod (j - 1 + rows) rows ;;
  let srcOff := s * hashBytes in
  let dstOff := j * hashBytes in
  w <- of_option PanicIndex (zslice cache dstOff (dstOff + 4)) ;;
  w <- of_option PanicIndex (head (words_of w)) ;;
  x <- umod w (u32 rows) ;;
  let xorOff := u32 (x * hashBytes) in
  a <- of_option PanicIndex (zslice cache srcOff (srcOff + hashBytes)) ;;
  b <- of_option PanicIndex (zslice cache xorOff (u32 (xorOff + hashBytes))) ;;
  r <- XORBytes true temp a b ;;
  cache <- hash_into cache dstOff (fst r) ;;
  Ok (cache, fst r).

Fixpoint cache_rows_loop (rows : Z) (js : list Z) (st : bytes * bytes) : outcome (bytes * bytes) :=
  match js with
  | [] => Ok st
  | j :: js => st <- cache_row rows st j ;; cache_rows_loop rows js st
  end.

Fixpoint cache_rounds (n : nat) (rows : Z) (st : bytes * bytes) : outcome (bytes * bytes) :=
  match n with
  | O => Ok st
  | S n => st <- cache_rows_loop rows (seqZ 0 rows) st ;; cache_rounds n rows st
  end.

Definition generateCache (dest : list Z) (seed : bytes) : outcome (list Z) :=
  let cache := bytes_of dest in
  let size := zlen cache in
  let rows := size / hashBytes in
  cache <- hash_into cache 0 seed ;;
  cache <- cache_fill (S (Z.to_nat rows)) hashBytes cache ;;
  st <- cache_rounds cacheRounds rows (cache, zeros hashBytes) ;;
  Ok (words_of (fst st)).

(** [generateDataset]: the threads run their rounds in the order [order]. *)
Definition generateDataset (dest : list Z) (cache : list Z) (order : list Z) : outcome (list Z) :=
  d <- dataset_puts cache (bytes_of dest) order ;; Ok (words_of d).

(** [cache.generate] without a directory. *)
Definition cache_generate (fuel : nat) (epoch : Z) (test : bool) : outcome (list Z) :=
  size <- cacheSize fuel (epoch *u epochLength +u 1) ;;
  let seed := seedHash (epoch *u epochLength +u 1) in
  let size := if test then 1024 else size in
  generateCache (zeros (size / 4)) seed.

(** [dataset.generate].  [mapped]: a directory is configured and mapping the file
    has failed, so that the dataset is generated in memory. *)
Definition dataset_generate (fuel : nat) (epoch : Z) (test mapped : bool) (order : list Z) : outcome (list Z) :=
  csize <- cacheSize fuel (epoch *u epochLength +u 1) ;;
  dsize <- datasetSize fuel (epoch *u epochLength +u 1) ;;
  let seed := seedHash (epoch *u epochLength +u 1) in
  let csize := if test then 1024 else csize in
  let dsize := if test then 32 * 1024 else dsize in
  cache <- generateCache (zeros (csize / 4)) seed ;;
  generateDataset (zeros (if mapped then dsize / 2 else dsize / 4)) cache order.
End cache.

(** ** The epochs an engine keeps

    [simplelru.LRU] is outside of the repository.  What the code relies on: a
    lookup returns what was added under the key, and neither a lookup nor the
    evictions of an addition change what another key holds. *)

Class SimpleLRU (L : Type -> Type) := {
  lru_Get : forall {A}, L A -> Z -> option A * L A;
  lru_Add : forall {A}, L A -> Z -> A -> L A;
}.

Definition lru_holds {L} `{SimpleLRU L} {A} (l : L A) (k : Z) (v : A) : Prop := fst (lru_Get l k) = Some v.

Class SimpleLRULaws (L : Type -> Type) `{SimpleLRU L} : Prop := {
  lru_Get_holds : forall A (l : L A) k k' v, lru_holds (snd (lru_Get l k)) k' v -> lru_holds l k' v;
  lru_Add_holds : forall A (l : L A) k w k' v, lru_holds (lru_Add l k w) k' v -> (k' = k /\ v = w) \/ lru_holds l k' v;
}.

Section lru.
Context {L : Type -> Type} `{SimpleLRU L} {A : Type} (new : Z -> A).

Record lru := MkLru { lru_cache : L A; lru_future : Z; lru_futureItem : option A }.

(** [get(epoch)]: the item of the epoch, and the item of the next one when it is
    new. *)
Definition lru_get (l : lru) (epoch : Z) : option A * option A * lru :=
  let '(item, cache) := lru_Get (lru_cache l) epoch in
  let '(item, cache) :=
    match item with
    | Some item => (Some item, cache)
    | None =>
        let item := if (0 <? lru_future l) && (lru_future l =? epoch) then lru_futureItem l else Some (new epoch) in
        (item, match item with Some i => lru_Add cache epoch i | None => cache end)
    end in
  if (epoch <? maxEpoch - 1) && (lru_future l <? epoch +u 1) then
    let future := new (epoch +u 1) in
    (item, Some future, MkLru cache (epoch +u 1) (Some future))
  else (item, None, MkLru cache (lru_future l) (lru_futureItem l)).
End lru.

(** ** The search for a size *)

Lemma ProbablyPrime_spec n : ProbablyPrime n = true <-> Z.prime n.
Proof.
  unfold ProbablyPrime. rewrite andb_true_iff, Z.ltb_lt, forallb_forall. split.
  - intros [H1 Hd]. split; [done|]. intros d Hdn [q Hq]. assert (0 < q) by nia.
    assert (forall x, 1 < x -> x * x <= n -> (x | n) -> False) as Hno.
    { intros x Hx Hxx Hdiv. assert (x <= Z.sqrt n) by (apply Z.sqrt_le_square; lia).
      specialize (Hd x). rewrite <- list_elem_of_In, elem_of_seqZ in Hd. specialize (Hd ltac:(lia)).
      apply Z.mod_divide in Hdiv; [|lia]. rewrite Hdiv in Hd. done. }
    destruct (Z.le_gt_cases (d * d) n); [apply (Hno d); [lia|done|by exists q]|].
    apply (Hno q); [nia|nia|]. exists d. lia.
  - intros [H1 Hp]. split; [done|]. intros d Hd. apply list_elem_of_In, elem_of_seqZ in Hd.
    apply negb_true_iff, Z.eqb_neq. intros E. apply Z.mod_divide in E; [|lia]. apply (Hp d); [|done].
    pose proof (Z.sqrt_le_lin n ltac:(lia)). assert (Z.sqrt n < n) by (apply Z.sqrt_lt_lin; lia). lia.
Qed.

Lemma size_loop_ok unit_ fuel : forall q,
  0 < unit_ -> 3 <= q -> Z.Odd q -> unit_ * q < two64 -> q <= 2 * Z.of_nat fuel + 1 ->
  exists p, size_loop fuel unit_ (unit_ * q) = Ok (unit_ * p) /\ Z.prime p /\ 3 <= p <= q /\
    forall r, Z.Odd r -> p < r <= q -> ~ Z.prime r.
Proof.
  induction fuel as [|fuel IH]; intros q Hu Hq Hodd H64 Hf; [lia|]. cbn [size_loop].
  rewrite Z.mul_comm, Z.div_mul, (Z.mul_comm q) by lia. destruct (ProbablyPrime q) eqn:E.
  - apply ProbablyPrime_spec in E. exists q. split_and!; try done; try lia.
  - assert (~ Z.prime q) as Hnp by (rewrite <- ProbablyPrime_spec; congruence).
    assert (q <> 3) by (intros ->; by apply Hnp, Z.prime_3). destruct Hodd as [h Hh].
    rewrite u64_small by (unfold is_u64; nia). replace (unit_ * q - 2 * unit_) with (unit_ * (q - 2)) by lia.
    destruct (IH (q - 2)) as (p & Ep & Hp & Hr & Hmax); [done|lia|exists (h - 1); lia|nia|lia|].
    exists p. split_and!; try done; try lia. intros r Hro Hr'. destruct Hro as [k Hk].
    destruct (decide (r = q)) as [->|]; [done|]. apply Hmax; [by exists k|lia].
Qed.

(** The search for the size of a dataset terminates, and what it returns is
    128 times the largest prime that keeps the dataset within its linear growth. *)
Theorem calcDatasetSize_terminates (epoch : Z) :
  0 <= epoch < 2 ^ 40 ->
  exists fuel p, calcDatasetSize fuel epoch = Ok (mixBytes * p) /\ Z.prime p /\
    (forall r, Z.Odd r -> Z.prime r -> mixBytes * r <= datasetInitBytes + datasetGrowthBytes * epoch - mixBytes -> r <= p).
Proof.
  intros He. change (2 ^ 40) with 1099511627776 in He. unfold calcDatasetSize, datasetInitBytes, datasetGrowthBytes, mixBytes.
  set (q := 8388607 + 65536 * epoch). rewrite (u64_small epoch) by u64_lia. rewrite (u64_small (8388608 * epoch)) by u64_lia.
  rewrite (u64_small (1073741824 + _)) by u64_lia. rewrite u64_small by u64_lia.
  replace (1073741824 + 8388608 * epoch - 128) with (128 * q) by (unfold q; lia).
  destruct (size_loop_ok 128 (Z.to_nat q) q) as (p & E & Hp & Hr & Hmax); unfold q in *; [lia|lia|exists (4194303 + 32768 * epoch); lia|u64_lia|lia|].
  exists (Z.to_nat (8388607 + 65536 * epoch)), p. split_and!; [done|done|]. intros r Ho Hpr Hle.
  destruct (Z.le_gt_cases r p); [done|]. exfalso. apply (Hmax r Ho); [lia|done].
Qed.

Lemma calcDatasetSize_terminates_witness :
  exists fuel p, calcDatasetSize fuel 2048 = Ok (mixBytes * p) /\ Z.prime p /\
    (forall r, Z.Odd r -> Z.prime r -> mixBytes * r <= datasetInitBytes + datasetGrowthBytes * 2048 - mixBytes -> r <= p).
Proof. apply (calcDatasetSize_terminates 2048). split; [discriminate|reflexivity]. Defined.

(** ** The tables *)

(** Every size is at most 54 steps of the search below its start. *)
Definition dataset_entry_ok (e size : Z) : bool :=
  let d := datasetInitBytes + datasetGrowthBytes * e - mixBytes - size in (0 <=? d) && (d <=? 54 * 256) && (d mod 256 =? 0).
Definition cache_entry_ok (e size : Z) : bool :=
  let d := cacheInitBytes + cacheGrowthBytes * e - hashBytes - size in (0 <=? d) && (d <=? 49 * 128) && (d mod 128 =? 0).

Fixpoint table_ok (f : Z -> Z -> bool) (e : Z) (l : list Z) : bool :=
  match l with [] => true | x :: l => f e x && table_ok f (e + 1) l end.

Lemma datasetSizes_table : table_ok dataset_entry_ok 0 datasetSizes = true /\ zlen datasetSizes = maxEpoch.
Proof. vm_compute. done. Qed.
Lemma cacheSizes_table : table_ok cache_entry_ok 0 cacheSizes = true /\ zlen cacheSizes = maxEpoch.
Proof. vm_compute. done. Qed.

Lemma table_ok_lookup f l : forall e i x, table_ok f e l = true -> l !! i = Some x -> f (e + Z.of_nat i) x = true.
Proof.
  induction l as [|y l IH]; intros e i x Ht Hx; [done|]. cbn [table_ok] in Ht. apply andb_true_iff in Ht as [Hy Ht].
  destruct i as [|i]; [injection Hx as ->; by rewrite Z.add_0_r|]. specialize (IH _ _ _ Ht Hx).
  replace (e + Z.of_nat (S i)) with (e + 1 + Z.of_nat i) by lia. done.
Qed.

Lemma table_get f l e : table_ok f 0 l = true -> 0 <= e < zlen l -> exists x, zget l e = Some x /\ f e x = true.
Proof.
  intros Ht He. destruct (zget_Some l e He) as [x Ex]. exists x. split; [done|]. unfold zget in Ex.
  destruct (Z.leb_spec 0 e); [|lia]. apply (table_ok_lookup _ _ _ _ _ Ht) in Ex. by rewrite Z.add_0_l, Z2Nat.id in Ex by lia.
Qed.

(** ** Generating a cache *)

Section cache_proofs.
Context {K : Keccak} {K5 : Keccak512}.

(** A buffer of [n] rows of bytes. *)
Definition rows_ok (n : Z) (c : bytes) : Prop := Forall is_byte c /\ zlen c = 64 * n.

Lemma hash_into_ok n c pos data : rows_ok n c -> 0 <= pos -> pos + 64 <= 64 * n -> exists c', hash_into c pos data = Ok c' /\ rows_ok n c'.
Proof.
  intros [Hb Hl] Hp Hn. destruct (keccak512_len data) as [Hkb Hkl]. unfold hash_into, hashBytes. rewrite Hl.
  destruct (Z.ltb_spec (64 * n) (pos + 64)); [lia|]. rewrite copy_to_ok by lia. eexists. split; [done|]. split.
  - apply Forall_app; split; [by apply Forall_take|]. apply Forall_app; split; [done|by apply Forall_drop].
  - unfold zlen in *. rewrite !length_app, length_take, length_drop. lia.
Qed.

Lemma slice_ok n c a len : rows_ok n c -> 0 <= a -> 0 <= len -> a + len <= 64 * n ->
  exists l, zslice c a (a + len) = Some l /\ Forall is_byte l /\ zlen l = len.
Proof.
  intros [Hb Hl] Ha Hlen Hn. rewrite zslice_Some by lia. eexists. split; [done|]. split; [by apply Forall_take, Forall_drop|].
  unfold zlen in *. rewrite length_take, length_drop. lia.
Qed.

Lemma cache_fill_ok n fuel : forall k c, rows_ok n c -> 1 <= k <= n -> n - k < Z.of_nat fuel -> 64 * n < two32 ->
  exists c', cache_fill fuel (64 * k) c = Ok c' /\ rows_ok n c'.
Proof.
  induction fuel as [|fuel IH]; intros k c Hc Hk Hf Hn; cbn [cache_fill].
  - lia.
  - destruct (Z.ltb_spec (64 * k) (zlen c)) as [Hlt|]; [|by exists c]. destruct Hc as [Hb Hl]. unfold hashBytes.
    destruct (slice_ok n c (64 * k - 64) 64) as (prev & E & _); [done|lia..|]. rewrite Z.sub_add in E. rewrite E. cbn [of_option obind].
    destruct (hash_into_ok n c (64 * k) prev) as (c' & -> & Hc'); [done|lia..|]. cbn [obind]. unfold two32 in Hn.
    rewrite u64_small by u64_lia. replace (64 * k + 64) with (64 * (k + 1)) by lia. apply IH; try done; lia.
Qed.

Lemma cache_row_ok n c temp j : rows_ok n c -> rows_ok 1 temp -> 0 <= j < n -> 64 * n < two32 ->
  exists st, cache_row n (c, temp) j = Ok st /\ rows_ok n (fst st) /\ rows_ok 1 (snd st).
Proof.
  intros Hc Ht Hj Hn. unfold two32 in Hn. unfold cache_row, hashBytes.
  destruct (umod_ok (j - 1 + n) n ltac:(lia)) as [-> Hs]. cbn [obind].
  destruct (slice_ok n c (j * 64) 4) as (w & -> & _ & Hw); [done|lia..|]. cbn [of_option obind].
  destruct w as [|w0 [|w1 [|w2 [|w3 w]]]]; try (unfold zlen in Hw; cbn [length] in Hw; lia). cbn [words_of head of_option obind].
  rewrite (u32_small n) by (unfold two32; lia). destruct (umod_ok (w0 + 256 * w1 + 65536 * w2 + 16777216 * w3) n ltac:(lia)) as [-> Hx].
  cbn [obind]. set (x := (w0 + 256 * w1 + 65536 * w2 + 16777216 * w3) mod n) in *. rewrite (u32_small (x * 64)) by (unfold two32; lia). rewrite (u32_small (x * 64 + 64)) by (unfold two32; lia).
  destruct (slice_ok n c ((j - 1 + n) mod n * 64) 64) as (a & -> & Ba & La); [done|lia..|]. cbn [of_option obind].
  destruct (slice_ok n c (x * 64) 64) as (b & -> & Bb & Lb); [done|lia..|]. cbn [of_option obind].
  destruct Ht as [Bt Lt]. unfold XORBytes, fastXORBytes. unfold zlen in La, Lb, Lt.
  destruct (fast_op_safe Z.lxor temp a b Ba Bb) as [-> ->]; [lia|]. cbn [obind fst].
  assert (rows_ok 1 (zip_with Z.lxor a b ++ drop (length a `min` length b) temp)) as Hr.
  { rewrite drop_ge, app_nil_r by lia. split; [|unfold zlen; rewrite length_zip_with; lia].
    apply Forall_zip_with_fst with (P := is_byte); [done|]. eapply Forall_impl; [exact Bb|]. cbv beta. intros y Hy z Hz.
    unfold is_byte in *. split; [apply Z.lxor_nonneg; lia|]. destruct (Z.eq_dec (Z.lxor z y) 0) as [->|Hne]; [lia|].
    assert (0 < Z.lxor z y) by (pose proof (proj2 (Z.lxor_nonneg z y)); lia).
    apply (Z.log2_lt_pow2 _ 8); [lia|]. eapply Z.le_lt_trans; [apply Z.log2_lxor; lia|].
    apply Z.max_lub_lt; (destruct (Z.eq_dec z 0) as [->|]; destruct (Z.eq_dec y 0) as [->|]); try (cbn; lia); apply Z.log2_lt_pow2; lia. }
  destruct (hash_into_ok n c (j * 64) (zip_with Z.lxor a b ++ drop (length a `min` length b) temp)) as (c' & -> & Hc'); [done|lia..|].
  cbn [obind]. by eexists.
Qed.

Lemma cache_rows_loop_ok n js : forall c temp, Forall (fun j => 0 <= j < n) js -> rows_ok n c -> rows_ok 1 temp -> 64 * n < two32 ->
  exists st, cache_rows_loop n js (c, temp) = Ok st /\ rows_ok n (fst st) /\ rows_ok 1 (snd st).
Proof.
  induction js as [|j js IH]; intros c temp Hj Hc Ht Hn; cbn [cache_rows_loop]; [by eexists|]. apply Forall_cons in Hj as [Hj Hjs].
  destruct (cache_row_ok n c temp j Hc Ht Hj Hn) as ([c' temp'] & -> & Hc' & Ht'). cbn [obind]. by apply IH.
Qed.

Lemma cache_rounds_ok n r : forall c temp, rows_ok n c -> rows_ok 1 temp -> 64 * n < two32 ->
  exists st, cache_rounds r n (c, temp) = Ok st /\ rows_ok n (fst st).
Proof.
  induction r as [|r IH]; intros c temp Hc Ht Hn; cbn [cache_rounds]; [by eexists|].
  destruct (cache_rows_loop_ok n (seqZ 0 n) c temp) as ([c' temp'] & -> & Hc' & Ht'); try done; [|cbn [obind]; by apply IH].
  apply Forall_forall. intros j Hj. apply elem_of_seqZ in Hj. lia.
Qed.

Lemma bytes_of_zeros n : 0 <= n -> bytes_of (zeros n) = zeros (4 * n).
Proof.
  intros Hn. unfold zeros. replace (Z.to_nat (4 * n)) with (4 * Z.to_nat n)%nat by lia. induction (Z.to_nat n) as [|k IH]; [done|].
  replace (4 * S k)%nat with (S (S (S (S (4 * k))))) by lia. cbn [replicate]. unfold bytes_of in *. cbn [map concat]. by rewrite IH.
Qed.

Lemma generateCache_ok n seed : 1 <= n -> 64 * n < two32 -> exists cache, generateCache (zeros (16 * n)) seed = Ok cache /\ zlen cache = 16 * n.
Proof.
  intros H1 Hn. unfold generateCache. rewrite bytes_of_zeros by lia. replace (4 * (16 * n)) with (64 * n) by lia.
  assert (rows_ok n (zeros (64 * n))) as H0 by (split; [apply Forall_replicate; split; lia|apply zlen_zeros; lia]).
  rewrite zlen_zeros by lia. unfold hashBytes. rewrite Z.mul_comm, Z.div_mul, (Z.mul_comm n) by lia.
  destruct (hash_into_ok n (zeros (64 * n)) 0 seed) as (c & -> & Hc); [done|lia..|]. cbn [obind].
  destruct (cache_fill_ok n (S (Z.to_nat n)) 1 c) as (c' & E & Hc'); [done|lia..|done|]. change (64 * 1) with 64 in E. rewrite E. cbn [obind].
  destruct (cache_rounds_ok n cacheRounds c' (zeros 64)) as (st & -> & _ & Hl); [done|split; [apply Forall_replicate; split; lia|done]|done|].
  cbn [obind]. eexists. split; [done|]. unfold zlen in *. rewrite (length_words_of (16 * Z.to_nat n)) by lia. lia.
Qed.

(** The sizes of the epochs of the table. *)
Lemma epoch_block epoch : 0 <= epoch < maxEpoch -> i64 ((epoch *u epochLength +u 1) / epochLength) = epoch.
Proof.
  unfold maxEpoch, epochLength. intros He. rewrite (u64_small (epoch * 30000)), u64_small by u64_lia.
  rewrite Z.div_add_l by lia. change (1 / 30000) with 0. rewrite Z.add_0_r. apply i64_small. u64_lia.
Qed.

Lemma cacheSize_table fuel epoch : 0 <= epoch < maxEpoch ->
  exists n, cacheSize fuel (epoch *u epochLength +u 1) = Ok (64 * n) /\ 200000 <= n < 67108864.
Proof.
  intros He. destruct cacheSizes_table as [Ht Hl]. destruct (table_get _ _ epoch Ht) as (x & Ex & Hx); [rewrite Hl; done|].
  unfold cacheSize. rewrite epoch_block by done. destruct (Z.ltb_spec epoch maxEpoch); [|lia]. rewrite Ex. cbn [of_option].
  unfold cache_entry_ok, cacheInitBytes, cacheGrowthBytes, hashBytes, maxEpoch in *. rewrite !andb_true_iff, !Z.leb_le, Z.eqb_eq in Hx.
  destruct Hx as [[H1 H2] H3]. set (d := 16777216 + 131072 * epoch - 64 - x) in *. pose proof (Z.div_mod d 128 ltac:(lia)).
  exists (262143 + 2048 * epoch - 2 * (d / 128)). split; [f_equal|]; lia.
Qed.

Lemma datasetSize_table fuel epoch : 0 <= epoch < maxEpoch ->
  exists n, datasetSize fuel (epoch *u epochLength +u 1) = Ok (128 * n) /\ 65536 * epoch + 8388607 - 108 <= n <= 65536 * epoch + 8388607.
Proof.
  intros He. destruct datasetSizes_table as [Ht Hl]. destruct (table_get _ _ epoch Ht) as (x & Ex & Hx); [rewrite Hl; done|].
  unfold datasetSize. rewrite epoch_block by done. destruct (Z.ltb_spec epoch maxEpoch); [|lia]. rewrite Ex. cbn [of_option].
  unfold dataset_entry_ok, datasetInitBytes, datasetGrowthBytes, mixBytes, maxEpoch in *. rewrite !andb_true_iff, !Z.leb_le, Z.eqb_eq in Hx.
  destruct Hx as [[H1 H2] H3]. set (d := 1073741824 + 8388608 * epoch - 128 - x) in *. pose proof (Z.div_mod d 256 ltac:(lia)).
  exists (8388607 + 65536 * epoch - 2 * (d / 256)). split; [f_equal|]; lia.
Qed.

(** A cache is generated for every epoch of the table, and can be hashed with. *)
Lemma cache_generate_ok fuel epoch test : 0 <= epoch < maxEpoch -> exists cache, cache_generate fuel epoch test = Ok cache /\ cache_ok cache.
Proof.
  intros He. unfold cache_generate. destruct (cacheSize_table fuel epoch He) as (n & -> & Hn). cbn [obind]. cbv zeta.
  assert (exists k, (if test then 1024 else 64 * n) / 4 = 16 * k /\ 1 <= k < 67108864) as (k & -> & Hk).
  { destruct test; [by exists 16|]. exists n. split; [|lia]. replace (64 * n) with (16 * n * 4) by lia. by rewrite Z.div_mul. }
  destruct (generateCache_ok k (seedHash (epoch *u epochLength +u 1))) as (c & -> & Hc); [lia|unfold two32; lia|].
  exists c. split; [done|]. unfold cache_ok, two32. lia.
Qed.
End cache_proofs.

(** ** The epochs of an engine *)

Section lru_proofs.
Context {L : Type -> Type} `{SimpleLRULaws L} {A : Type} (new : Z -> A).

(** Every item is kept under its epoch. *)
Definition lru_ok (l : lru (L := L) (A := A)) : Prop :=
  (forall k v, lru_holds (lru_cache l) k v -> v = new k) /\ (0 < lru_future l -> lru_futureItem l = Some (new (lru_future l))).

Lemma lru_get_ok l epoch : lru_ok l -> 0 <= epoch ->
  let '(item, future, l') := lru_get new l epoch in
  item = Some (new epoch) /\ lru_ok l' /\ (forall f, future = Some f -> f = new (epoch +u 1) /\ lru_future l < epoch + 1).
Proof.
  intros [Hc Hf] He. unfold lru_get. destruct (lru_Get (lru_cache l) epoch) as [item cache] eqn:E.
  assert (forall k v, lru_holds cache k v -> v = new k) as Hc1.
  { intros k v Hv. apply Hc. apply (lru_Get_holds _ _ epoch). by rewrite E. }
  assert (forall cache', (forall k v, lru_holds cache' k v -> v = new k) ->
    let '(item, future, l') := (if (epoch <? maxEpoch - 1) && (lru_future l <? epoch +u 1)
      then (Some (new epoch), Some (new (epoch +u 1)), MkLru cache' (epoch +u 1) (Some (new (epoch +u 1))))
      else (Some (new epoch), None, MkLru cache' (lru_future l) (lru_futureItem l))) in
    item = Some (new epoch) /\ lru_ok l' /\ (forall f, future = Some f -> f = new (epoch +u 1) /\ lru_future l < epoch + 1)) as Hend.
  { intros cache' Hc'. destruct (Z.ltb_spec epoch (maxEpoch - 1)) as [Hm|]; cbn [andb]; [|by split_and!].
    destruct (Z.ltb_spec (lru_future l) (epoch +u 1)) as [Hlt|]; [|by split_and!]. unfold maxEpoch in Hm.
    rewrite (u64_small (epoch + 1)) in Hlt |- * by u64_lia. split_and!; [done|by split|]. intros f [= <-]. split; [done|lia]. }
  destruct item as [item|].
  - assert (item = new epoch) as -> by (apply Hc; unfold lru_holds; by rewrite E). by apply Hend.
  - assert ((if (0 <? lru_future l) && (lru_future l =? epoch) then lru_futureItem l else Some (new epoch)) = Some (new epoch)) as ->.
    { destruct (Z.ltb_spec 0 (lru_future l)); [|done]. destruct (Z.eqb_spec (lru_future l) epoch) as [<-|]; [|done]. cbn [andb]. auto. }
    cbv iota. apply Hend. intros k v Hv. apply lru_Add_holds in Hv as [[-> ->]|Hv]; [done|by apply Hc1].
Qed.
End lru_proofs.
