(* ===== verification/Engine.v ===== *)
(** * Consensus engines

    [consensus/consensus.go], [consensus/errors.go]: what an engine asks of the
    chain and the errors it returns; [consensus/misc]: the checks of the DAO fork
    and of the hash of the gas reprice fork; [consensus/ethash/consensus.go]: the
    difficulty of a block.  The theorem gives the difficulty as a formula, with its
    bounds. *)

From Stdlib Require Import ZArith Lia.
From stdpp Require Import gmap.
From S2P Require Import Prelude Common Params Rlp Crypto Types Transaction Receipt Block.

Open Scope go_scope.

Inductive engine_error :=
(* consensus/errors.go *)
| ErrUnknownAncestor | ErrPrunedAncestor | ErrFutureBlock | ErrInvalidNumber
(* consensus/misc *)
| ErrBadProDAOExtra | ErrBadNoDAOExtra | ForkHashMismatch (have want : Hash)
(* consensus/ethash/consensus.go *)
| errOlderBlockTime | errTooManyUncles | errDuplicateUncle | errUncleIsAncestor | errDanglingUncle
| errInvalidDifficulty_ | errInvalidMixDigest_ | errInvalidPoW
| ExtraTooLong (n : Z) | InvalidDifficulty (have want : Z) | InvalidGasLimitCap (have : Z) | GasUsedOverLimit (used limit : Z)
| InvalidGasLimit (have parent limit : Z).

#[export] Instance engine_error_eq : EqDecision engine_error.
Proof. solve_decision. Defined.

(** [consensus.ChainReader]: the interface of the chain, and what its documentation
    promises.  The header or block returned for a hash and a number has them, and has
    passed the checks of its fields when it was added. *)
Class ChainReader := {
  Config : ChainConfig;
  GetHeader : Hash -> Z -> option Header;
  GetHeaderByNumber : Z -> option Header;
  GetBlock : Hash -> Z -> option Block;
}.

Class ChainReaderLaws {K : Keccak} (CR : ChainReader) : Prop := {
  GetHeader_ok hash number h : GetHeader hash number = Some h ->
    Header_Hash h = hash /\ h_Number h = Some number /\ header_ok h /\ h_GasLimit h < 2 ^ 63;
  GetHeaderByNumber_ok number h : GetHeaderByNumber number = Some h -> h_Number h = Some number /\ header_ok h;
  GetBlock_ok hash number b : GetBlock hash number = Some b ->
    Block_Hash b = hash /\ h_Number (b_header b) = Some number /\ header_ok (b_header b) /\ number < 2 ^ 63 /\ h_GasLimit (b_header b) < 2 ^ 63;
}.

(** ** consensus/misc *)

Definition DAOForkBlockExtra : bytes := [100; 97; 111; 45; 104; 97; 114; 100; 45; 102; 111; 114; 107].
Definition DAOForkExtraRange : Z := 10.

Definition VerifyDAOHeaderExtraData (config : ChainConfig) (header : Header) : outcome (option engine_error) :=
  match DAOForkBlock config with
  | None => Ok None
  | Some fork =>
      let limit := fork + DAOForkExtraRange in
      number <- deref (h_Number header) ;;
      if (number <? fork) || (limit <=? number) then Ok None
      else if DAOForkSupport config then
        if negb (bool_decide (h_Extra header = DAOForkBlockExtra)) then Ok (Some ErrBadProDAOExtra) else Ok None
      else
        if bool_decide (h_Extra header = DAOForkBlockExtra) then Ok (Some ErrBadNoDAOExtra) else Ok None
  end.

Definition VerifyForkHashes {K : Keccak} (config : ChainConfig) (header : Header) (uncle : bool) : outcome (option engine_error) :=
  if uncle then Ok None
  else
    match EIP150Block config with
    | None => Ok None
    | Some fork =>
        number <- deref (h_Number header) ;;
        if fork =? number then
          if negb (EIP150Hash config =? 0) && negb (EIP150Hash config =? Header_Hash header)
          then Ok (Some (ForkHashMismatch (Header_Hash header) (EIP150Hash config)))
          else Ok None
        else Ok None
    end.

(** ** Difficulty *)

Definition DifficultyBoundDivisor : Z := 2048.
Definition MinimumDifficulty : Z := 131072.
Definition DurationLimit : Z := 13.
Definition expDiffPeriod : Z := 100000.

Section difficulty.
Context {K : Keccak}.

Definition makeDifficultyCalculator (bombDelay : Z) (time : Z) (parent : Header) : outcome Z :=
  let bombDelayFromParent := bombDelay - 1 in
  let x := (time - h_Time parent) / 9 in
  let x := if h_UncleHash parent =? EmptyUncleHash then 1 - x else 2 - x in
  let x := if x <? -99 then -99 else x in
  difficulty <- deref (h_Difficulty parent) ;;
  let y := difficulty / DifficultyBoundDivisor in
  let x := difficulty + y * x in
  let x := if x <? MinimumDifficulty then MinimumDifficulty else x in
  number <- deref (h_Number parent) ;;
  let fakeBlockNumber := if bombDelayFromParent <=? number then number - bombDelayFromParent else 0 in
  let periodCount := fakeBlockNumber / expDiffPeriod in
  if 1 <? periodCount then Ok (x + 2 ^ (periodCount - 2)) else Ok x.

Definition calcDifficultyEip2384 := makeDifficultyCalculator 9000000.
Definition calcDifficultyConstantinople := makeDifficultyCalculator 5000000.
Definition calcDifficultyByzantium := makeDifficultyCalculator 3000000.

Definition calcDifficultyHomestead (time : Z) (parent : Header) : outcome Z :=
  let x := (time - h_Time parent) / 10 in
  let x := 1 - x in
  let x := if x <? -99 then -99 else x in
  difficulty <- deref (h_Difficulty parent) ;;
  let y := difficulty / DifficultyBoundDivisor in
  let x := difficulty + y * x in
  let x := if x <? MinimumDifficulty then MinimumDifficulty else x in
  number <- deref (h_Number parent) ;;
  let periodCount := (number + 1) / expDiffPeriod in
  if 1 <? periodCount then Ok (x + 2 ^ (periodCount - 2)) else Ok x.

Definition calcDifficultyFrontier (time : Z) (parent : Header) : outcome Z :=
  difficulty <- deref (h_Difficulty parent) ;;
  let adjust := difficulty / DifficultyBoundDivisor in
  let diff := if time - h_Time parent <? DurationLimit then difficulty + adjust else difficulty - adjust in
  let diff := if diff <? MinimumDifficulty then MinimumDifficulty else diff in
  number <- deref (h_Number parent) ;;
  let periodCount := (number + 1) / expDiffPeriod in
  if 1 <? periodCount then Ok (Z.max (diff + 2 ^ (periodCount - 2)) MinimumDifficulty) else Ok diff.

Definition CalcDifficulty (config : ChainConfig) (time : Z) (parent : Header) : outcome Z :=
  number <- deref (h_Number parent) ;;
  let next := Some (number + 1) in
  if IsMuirGlacier config next then calcDifficultyEip2384 time parent
  else if IsConstantinople config next then calcDifficultyConstantinople time parent
  else if IsByzantium config next then calcDifficultyByzantium time parent
  else if IsHomestead config next then calcDifficultyHomestead time parent
  else calcDifficultyFrontier time parent.

(** The rules of the yellow paper and of the improvement proposals, as a formula:
    what the fork in force takes from the time since the parent, and how many blocks
    it delays the bomb. *)
Definition difficulty_step (config : ChainConfig) (next time : Z) (parent : Header) : Z :=
  let dt := time - h_Time parent in
  if IsMuirGlacier config (Some next) || IsConstantinople config (Some next) || IsByzantium config (Some next)
  then Z.max ((if h_UncleHash parent =? EmptyUncleHash then 1 else 2) - dt / 9) (-99)
  else if IsHomestead config (Some next) then Z.max (1 - dt / 10) (-99)
  else if dt <? 13 then 1 else -1.

Definition bomb_delay (config : ChainConfig) (next : Z) : Z :=
  if IsMuirGlacier config (Some next) then 9000000
  else if IsConstantinople config (Some next) then 5000000
  else if IsByzantium config (Some next) then 3000000
  else 0.

Definition bomb (periods : Z) : Z := if 2 <=? periods then 2 ^ (periods - 2) else 0.

Definition difficulty_formula (config : ChainConfig) (next time d : Z) (parent : Header) : Z :=
  Z.max 131072 (d + d / 2048 * difficulty_step config next time parent) + bomb (Z.max 0 (next - bomb_delay config next) / 100000).

Lemma bomb_nonneg p : 0 <= bomb p.
Proof. unfold bomb. destruct (2 <=? p); [apply Z.pow_nonneg; lia|lia]. Qed.

Lemma add_bomb x p : (if 1 <? p then Ok (x + 2 ^ (p - 2)) else Ok x) = Ok (x + bomb p).
Proof. unfold bomb. destruct (Z.ltb_spec 1 p), (Z.leb_spec 2 p); try lia; f_equal; lia. Qed.

Lemma if_max x m : (if x <? m then m else x) = Z.max m x.
Proof. destruct (Z.ltb_spec x m); lia. Qed.

(** A calculator with a delay, and the one of Homestead, by their parts. *)
Lemma makeDifficultyCalculator_eq delay time parent d n :
  h_Difficulty parent = Some d -> h_Number parent = Some n -> 0 <= n ->
  makeDifficultyCalculator delay time parent =
  Ok (Z.max 131072 (d + d / 2048 * Z.max ((if h_UncleHash parent =? EmptyUncleHash then 1 else 2) - (time - h_Time parent) / 9) (-99))
      + bomb (Z.max 0 (n + 1 - delay) / 100000)).
Proof.
  intros Ed En Hn. unfold makeDifficultyCalculator, deref. rewrite Ed, En. cbn [of_option obind]. rewrite add_bomb, !if_max.
  unfold MinimumDifficulty, DifficultyBoundDivisor, expDiffPeriod. f_equal. f_equal.
  - f_equal. f_equal. f_equal. destruct (h_UncleHash parent =? EmptyUncleHash); lia.
  - f_equal. f_equal. destruct (Z.leb_spec (delay - 1) n); lia.
Qed.

Lemma CalcDifficulty_formula config time parent d n :
  h_Difficulty parent = Some d -> h_Number parent = Some n -> 0 <= n ->
  CalcDifficulty config time parent = Ok (difficulty_formula config (n + 1) time d parent).
Proof.
  intros Ed En Hn. unfold CalcDifficulty, difficulty_formula, difficulty_step, bomb_delay. rewrite En. cbn [deref of_option obind].
  unfold calcDifficultyEip2384, calcDifficultyConstantinople, calcDifficultyByzantium. rewrite !(makeDifficultyCalculator_eq _ time parent d n) by done.
  destruct (IsMuirGlacier _ _); cbn [orb]; [done|]. destruct (IsConstantinople _ _); cbn [orb]; [done|]. destruct (IsByzantium _ _); cbn [orb]; [done|].
  rewrite (Z.sub_0_r (n + 1)), (Z.max_r 0 (n + 1)) by lia. destruct (IsHomestead _ _).
  - unfold calcDifficultyHomestead. rewrite Ed, En. cbn [deref of_option obind]. rewrite add_bomb, !if_max.
    unfold MinimumDifficulty, DifficultyBoundDivisor, expDiffPeriod. by rewrite (Z.max_comm (-99)).
  - unfold calcDifficultyFrontier. rewrite Ed, En. cbn [deref of_option obind]. rewrite !if_max.
    unfold MinimumDifficulty, DifficultyBoundDivisor, expDiffPeriod, DurationLimit. pose proof (bomb_nonneg ((n + 1) / 100000)) as Hb.
    assert ((if time - h_Time parent <? 13 then d + d / 2048 else d - d / 2048) = d + d / 2048 * (if time - h_Time parent <? 13 then 1 else -1)) as ->
      by (destruct (_ <? 13); lia).
    set (x := Z.max 131072 _). assert (131072 <= x) by lia. rewrite <- (Z.max_l (x + 2 ^ _) 131072) at 1.
    2:{ unfold bomb in Hb. destruct (Z.leb_spec 2 ((n + 1) / 100000)); [lia|]. pose proof (Z.pow_nonneg 2 ((n + 1) / 100000 - 2)). lia. }
    unfold bomb. destruct (Z.ltb_spec 1 ((n + 1) / 100000)), (Z.leb_spec 2 ((n + 1) / 100000)); try lia; f_equal; lia.
Qed.

(** C28: the difficulty of a block is that of the formula of the fork in force.  It is
    never below the minimum, and without the bomb it moves by at most two 2048ths of
    that of the parent upwards and 99 downwards, above the minimum. *)
Theorem CalcDifficulty_correct (config : ChainConfig) (time : Z) (parent : Header) (d n : Z) :
  h_Difficulty parent = Some d -> h_Number parent = Some n -> 0 <= n -> 0 <= d -> h_Time parent < time ->
  exists d', CalcDifficulty config time parent = Ok d' /\ d' = difficulty_formula config (n + 1) time d parent /\ MinimumDifficulty <= d' /\
    (n + 1 < bomb_delay config (n + 1) + 200000 -> d - 99 * (d / 2048) <= d' <= Z.max MinimumDifficulty (d + 2 * (d / 2048))).
Proof.
  intros Ed En Hn Hd Ht. exists (difficulty_formula config (n + 1) time d parent). split; [by apply CalcDifficulty_formula|]. split; [done|].
  unfold difficulty_formula, MinimumDifficulty. set (b := bomb _). pose proof (bomb_nonneg (Z.max 0 (n + 1 - bomb_delay config (n + 1)) / 100000)) as Hb. fold b in Hb.
  split; [lia|]. intros Hnb. assert (b = 0) as ->.
  { unfold b, bomb. destruct (Z.leb_spec 2 (Z.max 0 (n + 1 - bomb_delay config (n + 1)) / 100000)) as [H2|]; [|done].
    exfalso. revert H2. apply Z.lt_nge. apply Z.div_lt_upper_bound; lia. }
  assert (-99 <= difficulty_step config (n + 1) time parent <= 2) as Hs.
  { unfold difficulty_step. pose proof (Z.div_pos (time - h_Time parent) 9 ltac:(lia) ltac:(lia)). pose proof (Z.div_pos (time - h_Time parent) 10 ltac:(lia) ltac:(lia)).
    destruct (IsMuirGlacier _ _ || IsConstantinople _ _ || IsByzantium _ _); [destruct (_ =? EmptyUncleHash); lia|].
    destruct (IsHomestead _ _); [lia|]. destruct (_ <? 13); lia. }
  pose proof (Z.div_pos d 2048 Hd ltac:(lia)) as Hq. set (q := d / 2048) in *. set (s := difficulty_step _ _ _ _) in *. nia.
Qed.
End difficulty.
