(* ===== verification/Ethash.v ===== *)
(** * The ethash engine

    [consensus/ethash/consensus.go] and the search of [consensus/ethash/sealer.go]:
    checking headers, seals and uncles, preparing, sealing and rewarding blocks.
    The state of an engine is the epochs its two caches hold; a call that looks one
    up changes it.  The seal of a shared engine is checked by the engine it shares.
    The theorems: a header is accepted exactly when it follows the rules, and a
    header the search finds has a valid seal. *)

From Stdlib Require Import ZArith Lia.
From stdpp Require Import gmap.
From S2P Require Import Prelude Common Params Rlp Crypto VmState RlpSpec Trie StackTrie Types Transaction Receipt Block EthashSizes EthashAlgo EthashCache Engine.

Open Scope go_scope.

Inductive Mode := ModeNormal | ModeShared | ModeTest | ModeFake | ModeFullFake.
#[export] Instance Mode_eq : EqDecision Mode.
Proof. solve_decision. Defined.

(** ** The engine *)

Section engine.
Context {K : Keccak} {K5 : Keccak512} {L : Type -> Type} {LR : SimpleLRU L}.

(** A cache or dataset object is named by its epoch, from which its content is
    generated, once, before it is used. *)
Inductive Ethash := MkEthash (PowMode : Mode) (caches datasets : lru (L := L) (A := Z)) (shared : option Ethash) (fakeFail : Z).
Definition e_PowMode (e : Ethash) : Mode := let 'MkEthash m _ _ _ _ := e in m.
Definition e_caches (e : Ethash) : lru := let 'MkEthash _ c _ _ _ := e in c.
Definition e_datasets (e : Ethash) : lru := let 'MkEthash _ _ d _ _ := e in d.
Definition e_shared (e : Ethash) : option Ethash := let 'MkEthash _ _ _ s _ := e in s.
Definition e_fakeFail (e : Ethash) : Z := let 'MkEthash _ _ _ _ f := e in f.
Definition is_test (m : Mode) : bool := bool_decide (m = ModeTest).

(** What a run depends on beside its arguments: the fuel of the search for sizes,
    the clock, the order in which the threads of a dataset write their items, which
    of the datasets are generated when they are looked up. *)
Record env := MkEnv { fuel : nat; now : Z; order : Z -> list Z; mapped : Z -> bool; generated : Z -> bool }.
Context (v : env).

Definition SealHash (header : Header) : Hash := Keccak256Hash (default [] (Encode (VList (header_fields header)))).

Definition ethash_cache (block : Z) (m : Mode) (caches : lru (L := L)) : outcome (list Z * lru) :=
  let epoch := block / epochLength in
  let '(current, _, caches) := lru_get (fun epoch => epoch) caches epoch in
  current <- of_option PanicOther current ;;
  cache <- cache_generate (fuel v) current (is_test m) ;;
  Ok (cache, caches).

(** The dataset of a block: its object, and its content when it is generated by the
    caller. *)
Definition ethash_dataset (block : Z) (m : Mode) (datasets : lru (L := L)) : outcome (Z * outcome (list Z) * lru) :=
  let epoch := block / epochLength in
  let '(current, _, datasets) := lru_get (fun epoch => epoch) datasets epoch in
  current <- of_option PanicOther current ;;
  Ok (current, dataset_generate (fuel v) current (is_test m) (mapped v current) (order v current), datasets).

(** [verifySeal] after the digest and the result are computed. *)
Definition check_seal (header : Header) (difficulty : Z) (r : bytes * bytes) : option engine_error :=
  let '(digest, result) := r in
  if negb (bool_decide (Hash_Bytes (h_MixDigest header) = digest)) then Some errInvalidMixDigest_
  else if two256 / difficulty <? be_val result then Some errInvalidPoW
  else None.

(** The digest and the result with the dataset, when it is generated. *)
Definition seal_full (header : Header) (number : Z) (m : Mode) (datasets : lru (L := L)) : outcome (option (bytes * bytes) * lru) :=
  r <- ethash_dataset number m datasets ;;
  let '(current, dataset, datasets) := r in
  if generated v current then
    d <- dataset ;;
    r <- hashimotoFull d (Hash_Bytes (SealHash header)) (BlockNonce_Uint64 (h_Nonce header)) ;;
    Ok (Some r, datasets)
  else Ok (None, datasets).

Definition seal_light (header : Header) (number : Z) (m : Mode) (caches : lru (L := L)) : outcome (bytes * bytes * lru) :=
  r <- ethash_cache number m caches ;;
  let '(cache, caches) := r in
  size <- datasetSize (fuel v) number ;;
  let size := if is_test m then 32 * 1024 else size in
  r <- hashimotoLight size cache (Hash_Bytes (SealHash header)) (BlockNonce_Uint64 (h_Nonce header)) ;;
  Ok (r, caches).

Fixpoint verifySeal (header : Header) (fulldag : bool) (ethash : Ethash) : outcome (option engine_error * Ethash) :=
  let 'MkEthash m caches datasets shared fakeFail := ethash in
  match m with
  | ModeFake | ModeFullFake =>
      number <- deref (h_Number header) ;;
      Ok (if fakeFail =? Uint64 number then Some errInvalidPoW else None, ethash)
  | _ =>
      match shared with
      | Some s =>
          r <- verifySeal header fulldag s ;;
          let '(e, s) := r in Ok (e, MkEthash m caches datasets (Some s) fakeFail)
      | None =>
          difficulty <- deref (h_Difficulty header) ;;
          if difficulty <=? 0 then Ok (Some errInvalidDifficulty_, ethash)
          else
            number <- deref (h_Number header) ;;
            let number := Uint64 number in
            r <- (if fulldag then seal_full header number m datasets else Ok (None, datasets)) ;;
            let '(full, datasets) := r in
            match full with
            | Some r => Ok (check_seal header difficulty r, MkEthash m caches datasets None fakeFail)
            | None =>
                r <- seal_light header number m caches ;;
                let '(r, caches) := r in
                Ok (check_seal header difficulty r, MkEthash m caches datasets None fakeFail)
            end
      end
  end.

Definition VerifySeal (header : Header) : M Ethash (option engine_error) := verifySeal header false.

Context {CR : ChainReader}.

Definition MaximumExtraDataSize : Z := 32.
Definition gasLimitCap : Z := 9223372036854775807.

(** [if err := f(); err != nil { return err }] *)
Definition check {S} (m : M S (option engine_error)) (k : M S (option engine_error)) : M S (option engine_error) :=
  e <~ m ;; match e with Some e => ret (Some e) | None => k end.

Definition verifyHeader (header parent : Header) (uncle seal : bool) : M Ethash (option engine_error) :=
  if MaximumExtraDataSize <? u64 (zlen (h_Extra header)) then ret (Some (ExtraTooLong (zlen (h_Extra header))))
  else if negb uncle && (u64 (now v + 15) <? h_Time header) then ret (Some ErrFutureBlock)
  else if h_Time header <=? h_Time parent then ret (Some errOlderBlockTime)
  else
    expected <~ lift_out (CalcDifficulty Config (h_Time header) parent) ;;
    difficulty <~ lift_out (deref (h_Difficulty header)) ;;
    if negb (expected =? difficulty) then ret (Some (InvalidDifficulty difficulty expected))
    else if gasLimitCap <? h_GasLimit header then ret (Some (InvalidGasLimitCap (h_GasLimit header)))
    else if h_GasLimit header <? h_GasUsed header then ret (Some (GasUsedOverLimit (h_GasUsed header) (h_GasLimit header)))
    else
      let diff := i64 (i64 (h_GasLimit parent) - i64 (h_GasLimit header)) in
      let diff := if diff <? 0 then i64 (diff * -1) else diff in
      let limit := h_GasLimit parent / GasLimitBoundDivisor in
      if (limit <=? u64 diff) || (h_GasLimit header <? MinGasLimit) then ret (Some (InvalidGasLimit (h_GasLimit header) (h_GasLimit parent) limit))
      else
        number <~ lift_out (deref (h_Number header)) ;;
        parentNumber <~ lift_out (deref (h_Number parent)) ;;
        if negb (number - parentNumber =? 1) then ret (Some ErrInvalidNumber)
        else
          check (if seal then VerifySeal header else ret None)
            (check (lift_out (VerifyDAOHeaderExtraData Config header))
               (lift_out (VerifyForkHashes Config header uncle))).

Definition VerifyHeader (header : Header) (seal : bool) : M Ethash (option engine_error) := fun ethash =>
  match e_PowMode ethash with
  | ModeFullFake => Ok (None, ethash)
  | _ =>
      number <- deref (h_Number header) ;;
      let number := Uint64 number in
      match GetHeader (Header_Hash header) number with
      | Some _ => Ok (None, ethash)
      | None =>
          match GetHeader (h_ParentHash header) (number -u 1) with
          | None => Ok (Some ErrUnknownAncestor, ethash)
          | Some parent => verifyHeader header parent false seal ethash
          end
      end
  end.

(** [Prepare] sets the difficulty of the header. *)
Definition with_difficulty (h : Header) (d : Z) : Header :=
  MkHeader (h_ParentHash h) (h_UncleHash h) (h_Coinbase h) (h_Root h) (h_TxHash h) (h_ReceiptHash h) (h_Bloom h) (Some d) (h_Number h)
    (h_GasLimit h) (h_GasUsed h) (h_Time h) (h_Extra h) (h_MixDigest h) (h_Nonce h).

Definition Prepare (header : Header) : outcome (option engine_error * Header) :=
  number <- deref (h_Number header) ;;
  match GetHeader (h_ParentHash header) (Uint64 number -u 1) with
  | None => Ok (Some ErrUnknownAncestor, header)
  | Some parent => d <- CalcDifficulty Config (h_Time header) parent ;; Ok (None, with_difficulty header d)
  end.

(** ** The search of the sealer *)

Definition with_seal (h : Header) (nonce : BlockNonce) (mixDigest : Hash) : Header :=
  MkHeader (h_ParentHash h) (h_UncleHash h) (h_Coinbase h) (h_Root h) (h_TxHash h) (h_ReceiptHash h) (h_Bloom h) (h_Difficulty h) (h_Number h)
    (h_GasLimit h) (h_GasUsed h) (h_Time h) (h_Extra h) mixDigest nonce.

(** The rounds of [mine]: [attempts] of them before the search is aborted. *)
Fixpoint mine_loop (attempts : nat) (dataset : list Z) (hash : bytes) (target nonce : Z) (header : Header) : outcome (option Header) :=
  match attempts with
  | O => Ok None
  | S attempts =>
      r <- hashimotoFull dataset hash nonce ;;
      let '(digest, result) := r in
      if be_val result <=? target then
        Ok (Some (with_seal (CopyHeader header) (EncodeNonce nonce) (BytesToHash digest)))
      else mine_loop attempts dataset hash target (nonce +u 1) header
  end.

Definition mine (attempts : nat) (block : Block) (seed : Z) (ethash : Ethash) : outcome (option Block * Ethash) :=
  let 'MkEthash m caches datasets shared fakeFail := ethash in
  let header := CopyHeader (b_header block) in
  difficulty <- deref (h_Difficulty header) ;;
  target <- (if difficulty =? 0 then Panic PanicOther else Ok (two256 / difficulty)) ;;
  number <- deref (h_Number header) ;;
  r <- ethash_dataset (Uint64 number) m datasets ;;
  let '(_, dataset, datasets) := r in
  dataset <- dataset ;;
  h <- mine_loop attempts dataset (Hash_Bytes (SealHash header)) target seed header ;;
  Ok (option_map (WithSeal block) h, MkEthash m caches datasets shared fakeFail).
End engine.

(** ** Seals *)

Section seals.
Context {K : Keccak} {K5 : Keccak512} {L : Type -> Type} {LR : SimpleLRU L} {LL : SimpleLRULaws L}.
Implicit Types (e : Ethash (L := L)) (header parent : Header).

(** The caches hold under an epoch the object of that epoch. *)
Fixpoint engine_ok e : Prop :=
  let 'MkEthash _ caches datasets shared _ := e in
  lru_ok (fun epoch => epoch) caches /\ lru_ok (fun epoch => epoch) datasets /\ match shared with Some s => engine_ok s | None => True end.

(** The engine that checks a seal. *)
Fixpoint checker e : Mode * Z :=
  let 'MkEthash m _ _ shared fakeFail := e in
  match m with
  | ModeFake | ModeFullFake => (m, fakeFail)
  | _ => match shared with Some s => checker s | None => (m, fakeFail) end
  end.

(** The size of the dataset of a block in a mode. *)
Definition mode_size (v : env) (m : Mode) (block : Z) : outcome Z :=
  size <- datasetSize (fuel v) block ;; Ok (if is_test m then 32 * 1024 else size).

(** A proof of work: the mix digest is that of the mixing function, and the result
    times the difficulty does not exceed 2^256. *)
Definition pow_valid (v : env) (m : Mode) header : Prop :=
  exists d n cache size result, h_Difficulty header = Some d /\ 0 < d /\ h_Number header = Some n /\
    cache_generate (fuel v) (Uint64 n / epochLength) (is_test m) = Ok cache /\ mode_size v m (Uint64 n) = Ok size /\
    hashimotoLight size cache (Hash_Bytes (SealHash header)) (BlockNonce_Uint64 (h_Nonce header)) = Ok (Hash_Bytes (h_MixDigest header), result) /\
    be_val result * d <= 2 ^ 256.

Definition seal_valid (v : env) (c : Mode * Z) header : Prop :=
  match fst c with
  | ModeFake | ModeFullFake => exists n, h_Number header = Some n /\ Uint64 n <> snd c
  | m => pow_valid v m header
  end.

(** The numbers whose epochs are in the tables of sizes. *)
Definition number_ok header : Prop := exists n, h_Number header = Some n /\ 0 <= n < maxEpoch * epochLength.

(** A dataset the caller may use: its epoch is one of those whose dataset has at most
    2^32 bytes, it is generated by threads that write all items, and in a slice of
    the right size. *)
Definition dataset_ready (v : env) (m : Mode) header : Prop :=
  exists n size threads, h_Number header = Some n /\ n < 385 * epochLength /\ mode_size v m n = Ok size /\ 1 <= threads <= 65536 /\
    dataset_order size threads (order v (n / epochLength)) /\ mapped v (n / epochLength) = false.

Lemma Uint64_number header n : h_Number header = Some n -> number_ok header -> Uint64 n = n /\ 0 <= n / epochLength < maxEpoch.
Proof.
  intros En (n' & En' & Hn). rewrite En in En'. injection En' as <-. unfold maxEpoch, epochLength in *. split.
  - unfold Uint64. rewrite Z.abs_eq by lia. apply u64_small. unfold is_u64, two64. lia.
  - split; [apply Z.div_pos; lia|apply Z.div_lt_upper_bound; lia].
Qed.

Lemma datasetSize_block fuel n : 0 <= n -> n / epochLength < maxEpoch ->
  datasetSize fuel n = datasetSize fuel (n / epochLength *u epochLength +u 1).
Proof.
  intros Hn He. unfold datasetSize. pose proof (Z.div_pos n epochLength Hn ltac:(unfold epochLength; lia)) as Hp.
  rewrite epoch_block by lia. rewrite i64_small; [done|]. unfold maxEpoch in He. u64_lia.
Qed.

Lemma mode_size_ok v m n : 0 <= n -> n / epochLength < maxEpoch -> exists q, mode_size v m n = Ok (128 * q) /\ 256 <= q <= 65536 * (n / epochLength) + 8388607.
Proof.
  intros Hn He. unfold mode_size. pose proof (Z.div_pos n epochLength Hn ltac:(unfold epochLength; lia)) as Hp.
  rewrite datasetSize_block by done. destruct (datasetSize_table (fuel v) (n / epochLength) ltac:(lia)) as (q & -> & Hq). cbn [obind].
  destruct (is_test m); [exists 256; split; [done|lia]|exists q; split; [done|lia]].
Qed.

Lemma hashimotoLight_ok cache q hash nonce : cache_ok cache -> 1 <= q < 2 ^ 30 -> exists r, hashimotoLight (128 * q) cache hash nonce = Ok r.
Proof.
  intros Hc Hq. destruct (hashimoto_agree (fun index => rawData <- generateDatasetItem cache index ;; Ok (words_of rawData))
    (fun index => rawData <- generateDatasetItem cache index ;; Ok (words_of rawData)) hash nonce (128 * q)) as (r & Hr & _).
  - lia.
  - apply Z.div_le_upper_bound; unfold two32; lia.
  - unfold two32. lia.
  - intros i _. destruct (generateDatasetItem_ok cache i Hc) as (it & -> & Hl). cbn [obind]. exists (words_of it). split_and!; [done..|].
    by apply length_words_of.
  - by exists r.
Qed.

(** The digest has 32 bytes. *)
Lemma bytes_of_bytes ws : Forall is_byte (bytes_of ws).
Proof.
  unfold bytes_of. apply Forall_concat, Forall_map, Forall_forall. intros w _. unfold word_bytes, is_byte.
  repeat (apply Forall_cons_2; [apply Z.mod_pos_bound; lia|]). apply Forall_nil_2.
Qed.

Lemma hashimoto_digest l hash nonce size digest result :
  hashimoto l hash nonce size = Ok (digest, result) -> Forall is_byte digest /\ zlen digest = 32.
Proof.
  unfold hashimoto. intros E. destruct (of_option _ _) as [sh| |] eqn:E1; [|done..]. cbn [obind] in E.
  destruct (hashimoto_loop _ _ _ _ _ _ _) as [mix| |] eqn:E2; [|done..]. cbn [obind] in E. injection E as <- _. split.
  - unfold gocopy. apply Forall_app. split; [apply Forall_take, bytes_of_bytes|]. apply Forall_drop, Forall_replicate. split; lia.
  - unfold zlen. by rewrite gocopy_length.
Qed.

(** A dataset that is ready and the cache give the same. *)
Lemma dataset_light v m header n :
  h_Number header = Some n -> number_ok header -> dataset_ready v m header -> exists cache size d,
    cache_generate (fuel v) (n / epochLength) (is_test m) = Ok cache /\ cache_ok cache /\ mode_size v m n = Ok size /\
    dataset_generate (fuel v) (n / epochLength) (is_test m) (mapped v (n / epochLength)) (order v (n / epochLength)) = Ok d /\
    forall hash nonce, exists r, hashimotoFull d hash nonce = Ok r /\ hashimotoLight size cache hash nonce = Ok r.
Proof.
  intros En Hn (n' & size & threads & En' & Hlt & Es & Ht & Ho & Hm). rewrite En in En'. injection En' as <-.
  destruct (Uint64_number header n En Hn) as [_ He]. destruct Hn as (n' & En' & Hn). rewrite En in En'. injection En' as <-.
  destruct (cache_generate_ok (fuel v) (n / epochLength) (is_test m) He) as (cache & Ec & Hc).
  destruct (mode_size_ok v m n ltac:(lia) ltac:(lia)) as (q & Eq & Hq). assert (size = 128 * q) as -> by congruence.
  assert (n / epochLength < 385) as He' by (apply Z.div_lt_upper_bound; unfold epochLength in *; lia).
  set (d0 := bytes_of (zeros (128 * q / 4))).
  assert (zlen d0 = 128 * q) as Hd0.
  { unfold d0. rewrite bytes_of_zeros by (apply Z.div_pos; lia). rewrite zlen_zeros by (apply Z.mul_nonneg_nonneg; [lia|apply Z.div_pos; lia]).
    replace (128 * q) with (32 * q * 4) by lia. rewrite Z.div_mul by lia. lia. }
  destruct (hashimoto_full_light cache d0 threads (order v (n / epochLength)) Hc) as (d & Ed & Hd).
  - rewrite Hd0. unfold two32. lia.
  - rewrite Hd0, Z.mul_comm. apply Z.mod_mul. lia.
  - done.
  - by rewrite Hd0.
  - rewrite Hd0 in Hd. exists cache, (128 * q), (words_of d). split_and!; [done|done|done| |done].
    unfold dataset_generate, generateDataset. rewrite Hm. unfold cache_generate in Ec.
    destruct (cacheSize_table (fuel v) (n / epochLength) He) as (cs & Ecs & _). rewrite Ecs in Ec |- *. cbn [obind] in Ec |- *.
    unfold mode_size in Eq. rewrite datasetSize_block in Eq by lia. destruct (datasetSize _ _) as [ds| |]; [|done..]. cbn [obind] in Eq |- *.
    rewrite Ec. cbn [obind]. assert ((if is_test m then 32 * 1024 else ds) = 128 * q) as -> by congruence. fold d0. by rewrite Ed.
Qed.

Lemma check_seal_ok header d digest result : 0 < d ->
  check_seal header d (digest, result) = None <-> Hash_Bytes (h_MixDigest header) = digest /\ be_val result * d <= 2 ^ 256.
Proof.
  intros Hd. unfold check_seal. destruct (bool_decide_reflect (Hash_Bytes (h_MixDigest header) = digest)) as [Em|Em]; cbn [negb]; [|by split; [|intros []]].
  change (2 ^ 256) with two256. destruct (Z.ltb_spec (two256 / d) (be_val result)) as [Hlt|Hle].
  - split; [done|]. intros [_ Hw]. exfalso. revert Hlt. apply Z.le_ngt. apply Z.div_le_lower_bound; lia.
  - split; [|done]. intros _. split; [done|]. pose proof (Z.mul_div_le two256 d Hd). nia.
Qed.

Lemma ethash_cache_ok v m block caches : 0 <= block / epochLength < maxEpoch -> lru_ok (fun epoch => epoch) caches ->
  exists cache caches', ethash_cache v block m caches = Ok (cache, caches') /\ lru_ok (fun epoch => epoch) caches' /\
    cache_generate (fuel v) (block / epochLength) (is_test m) = Ok cache /\ cache_ok cache.
Proof.
  intros He Hc. unfold ethash_cache. pose proof (lru_get_ok (fun epoch => epoch) caches (block / epochLength) Hc ltac:(lia)) as Hg.
  destruct (lru_get _ _ _) as [[cur fut] caches']. destruct Hg as (-> & Hc' & _). cbn [of_option obind].
  destruct (cache_generate_ok (fuel v) (block / epochLength) (is_test m) He) as (cache & Ec & Hk). rewrite Ec. cbn [obind]. by exists cache, caches'.
Qed.

Lemma ethash_dataset_ok v m block datasets : 0 <= block / epochLength -> lru_ok (fun epoch => epoch) datasets ->
  exists datasets', lru_ok (fun epoch => epoch) datasets' /\ ethash_dataset v block m datasets =
    Ok (block / epochLength, dataset_generate (fuel v) (block / epochLength) (is_test m) (mapped v (block / epochLength)) (order v (block / epochLength)), datasets').
Proof.
  intros He Hc. unfold ethash_dataset. pose proof (lru_get_ok (fun epoch => epoch) datasets (block / epochLength) Hc He) as Hg.
  destruct (lru_get _ _ _) as [[cur fut] datasets']. destruct Hg as (-> & Hc' & _). cbn [of_option obind]. by exists datasets'.
Qed.

Lemma seal_light_ok v m header n caches : h_Number header = Some n -> number_ok header -> lru_ok (fun epoch => epoch) caches ->
  exists cache size r caches', seal_light v header n m caches = Ok (r, caches') /\ lru_ok (fun epoch => epoch) caches' /\
    cache_generate (fuel v) (n / epochLength) (is_test m) = Ok cache /\ mode_size v m n = Ok size /\
    hashimotoLight size cache (Hash_Bytes (SealHash header)) (BlockNonce_Uint64 (h_Nonce header)) = Ok r.
Proof.
  intros En Hn Hc. destruct (Uint64_number header n En Hn) as [_ He]. destruct Hn as (n' & En' & Hn). rewrite En in En'. injection En' as <-.
  unfold seal_light. destruct (ethash_cache_ok v m n caches He Hc) as (cache & caches' & -> & Hc' & Ec & Hk). cbn [obind].
  destruct (mode_size_ok v m n ltac:(lia) ltac:(lia)) as (q & Eq & Hq).
  destruct (hashimotoLight_ok cache q (Hash_Bytes (SealHash header)) (BlockNonce_Uint64 (h_Nonce header)) Hk) as (r & Er); [unfold maxEpoch in He; lia|].
  exists cache, (128 * q), r, caches'. split_and!; try done. unfold mode_size in Eq. destruct (datasetSize _ _) as [ds| |]; [|done..]. cbn [obind] in Eq |- *.
  assert ((if is_test m then 32 * 1024 else ds) = 128 * q) as -> by congruence. by rewrite Er.
Qed.

(** An error other than those the callers single out. *)
Definition plain (r : option engine_error) : Prop := r <> Some ErrFutureBlock /\ r <> Some ErrUnknownAncestor.

(** An engine of its own. *)
Lemma verifySeal_own v header fulldag m caches datasets fakeFail :
  number_ok header -> (exists d, h_Difficulty header = Some d) -> lru_ok (fun epoch => epoch) caches -> lru_ok (fun epoch => epoch) datasets ->
  (fulldag = true -> dataset_ready v m header) -> m <> ModeFake -> m <> ModeFullFake ->
  exists r caches' datasets', verifySeal v header fulldag (MkEthash m caches datasets None fakeFail) = Ok (r, MkEthash m caches' datasets' None fakeFail) /\
    lru_ok (fun epoch => epoch) caches' /\ lru_ok (fun epoch => epoch) datasets' /\ (r = None <-> pow_valid v m header) /\ plain r.
Proof.
  intros Hn [d Ed] Hc Hds Hready Hf Hff. cbn [verifySeal]. destruct Hn as (n & En & Hn'). assert (number_ok header) as Hn by (by exists n).
  destruct (Uint64_number header n En Hn) as [EU He].
  assert (forall k : outcome (option engine_error * Ethash), match m with ModeFake | ModeFullFake =>
    number <- deref (h_Number header);; Ok (if fakeFail =? Uint64 number then Some errInvalidPoW else None, MkEthash m caches datasets None fakeFail) | _ => k end = k) as ->
    by (by intros k; destruct m).
  rewrite Ed, En. cbn [deref of_option obind]. destruct (Z.leb_spec d 0) as [Hd|Hd].
  { exists (Some errInvalidDifficulty_), caches, datasets. split_and!; [done..| |done]. split; [done|]. intros (d' & _ & _ & _ & _ & Ed' & Hp & _). rewrite Ed in Ed'. injection Ed' as <-. lia. }
  rewrite EU. destruct (seal_light_ok v m header n caches En Hn Hc) as (cache & size & [digest result] & caches' & Es & Hc' & Ec & Esz & Er).
  assert (check_seal header d (digest, result) = None <-> pow_valid v m header) as Hiff.
  { rewrite check_seal_ok by done. split.
    - intros [Em Hw]. exists d, n, cache, size, result. rewrite EU. split_and!; try done. by rewrite Er, Em.
    - intros (d' & n' & cache' & size' & result' & Ed' & _ & En' & Ec' & Esz' & Er' & Hw). rewrite En in En'. injection En' as <-. rewrite EU in *.
      rewrite Ed in Ed'. injection Ed' as <-. rewrite Ec in Ec'. injection Ec' as <-. rewrite Esz in Esz'. injection Esz' as <-. rewrite Er in Er'.
      injection Er' as <- <-. done. }
  assert (exists ds' full, lru_ok (fun epoch => epoch) ds' /\ (if fulldag then seal_full v header n m datasets else Ok (None, datasets)) = Ok (full, ds') /\
    (full = None \/ full = Some (digest, result))) as (ds' & full & Hds' & -> & Efull).
  { destruct fulldag; [|by exists datasets, None; split_and!; [| |left]].
    unfold seal_full. destruct (ethash_dataset_ok v m n datasets ltac:(lia) Hds) as (ds' & Hds' & ->). cbn [obind]. exists ds'.
    destruct (generated v (n / epochLength)); [|by exists None; split_and!; [| |left]].
    destruct (dataset_light v m header n En Hn (Hready eq_refl)) as (cache' & size' & dd & Ec' & _ & Esz' & -> & Hd'). cbn [obind].
    destruct (Hd' (Hash_Bytes (SealHash header)) (BlockNonce_Uint64 (h_Nonce header))) as (r & -> & Er'). cbn [obind].
    exists (Some r). split_and!; [done..|right; congruence]. }
  assert (check_seal header d (digest, result) <> Some ErrFutureBlock /\ check_seal header d (digest, result) <> Some ErrUnknownAncestor) as Hnf
    by (unfold check_seal; by repeat case_match).
  cbn [obind]. destruct Efull as [->| ->].
  - rewrite Es. cbn [obind]. by eexists _, caches', ds'.
  - by eexists _, caches, ds'.
Qed.

(** A seal is checked without a panic, whether with the dataset or with the cache,
    and accepted exactly when it is valid. *)
Lemma verifySeal_ok v header fulldag : number_ok header -> (exists d, h_Difficulty header = Some d) -> forall e,
  engine_ok e -> (fulldag = true -> dataset_ready v (fst (checker e)) header) ->
  exists r e', verifySeal v header fulldag e = Ok (r, e') /\ engine_ok e' /\ checker e' = checker e /\
    (r = None <-> seal_valid v (checker e) header) /\ plain r.
Proof.
  intros Hn Hd. fix IH 1. intros [m caches datasets shared fakeFail] (Hc & Hds & Hs) Hready.
  destruct (decide (m = ModeFake \/ m = ModeFullFake)) as [Hm|Hm].
  - destruct Hn as (n & En & Hn). exists (if fakeFail =? Uint64 n then Some errInvalidPoW else None), (MkEthash m caches datasets shared fakeFail).
    assert (seal_valid v (m, fakeFail) header <-> Uint64 n <> fakeFail) as Hv.
    { assert (seal_valid v (m, fakeFail) header = (exists n, h_Number header = Some n /\ Uint64 n <> fakeFail)) as -> by (by destruct Hm as [-> | ->]).
      rewrite En. split; [by intros (n' & [= <-] & ?)|by exists n]. }
    assert (checker (MkEthash m caches datasets shared fakeFail) = (m, fakeFail)) as -> by (by destruct Hm as [-> | ->]).
    split_and!; [|done|done| |by destruct (_ =? _)].
    + cbn [verifySeal]. rewrite En. by destruct Hm as [-> | ->].
    + rewrite Hv. destruct (Z.eqb_spec fakeFail (Uint64 n)) as [->|Hne]; split; congruence.
  - assert (m <> ModeFake /\ m <> ModeFullFake) as [Hf Hff] by tauto. destruct shared as [s|].
    + assert (forall x, checker (MkEthash m caches datasets (Some x) fakeFail) = checker x) as Eck by (by intros x; destruct m; tauto).
      rewrite Eck in *. destruct (IH s Hs Hready) as (r & s' & E & Hs' & Eck' & Hr & Hnf). exists r, (MkEthash m caches datasets (Some s') fakeFail).
      split_and!; [|done| |done|done].
      * cbn [verifySeal]. rewrite E. by destruct m; tauto.
      * assert (checker (MkEthash m caches datasets (Some s') fakeFail) = checker s') as -> by (by destruct m; tauto). done.
    + assert (checker (MkEthash m caches datasets None fakeFail) = (m, fakeFail)) as Eck by (by destruct m; tauto). rewrite Eck in *.
      destruct (verifySeal_own v header fulldag m caches datasets fakeFail) as (r & caches' & datasets' & E & Hc' & Hds' & Hr & Hnf); try done.
      exists r, (MkEthash m caches' datasets' None fakeFail). split_and!; [done|done|by destruct m; tauto| |done].
      assert (seal_valid v (m, fakeFail) header = pow_valid v m header) as -> by (by destruct m; tauto). done.
Qed.
End seals.

(** ** Headers *)

Section headers.
Context {K : Keccak} {K5 : Keccak512} {L : Type -> Type} {LR : SimpleLRU L} {LL : SimpleLRULaws L} {CR : ChainReader}.
Implicit Types (e : Ethash (L := L)) (header parent : Header).

(** The extra data near the DAO fork, and the hash of the gas reprice fork. *)
Definition dao_valid (config : ChainConfig) header : Prop :=
  forall fork n, DAOForkBlock config = Some fork -> h_Number header = Some n -> fork <= n < fork + 10 ->
    (h_Extra header = DAOForkBlockExtra <-> DAOForkSupport config = true).
Definition fork_hash_valid (config : ChainConfig) header : Prop :=
  forall n, EIP150Block config = Some n -> h_Number header = Some n -> EIP150Hash config <> 0 -> Header_Hash header = EIP150Hash config.

(** The rules for a header [header] on top of [parent]. *)
Record header_valid (v : env) (c : Mode * Z) header parent (uncle seal : bool) : Prop := MkHeaderValid {
  hv_extra : zlen (h_Extra header) <= 32;
  hv_future : uncle = false -> h_Time header <= now v + 15;
  hv_time : h_Time parent < h_Time header;
  hv_difficulty : exists d n, h_Difficulty parent = Some d /\ h_Number parent = Some n /\
    h_Difficulty header = Some (difficulty_formula Config (n + 1) (h_Time header) d parent);
  hv_cap : h_GasLimit header < 2 ^ 63;
  hv_used : h_GasUsed header <= h_GasLimit header;
  hv_limit : Z.abs (h_GasLimit parent - h_GasLimit header) < h_GasLimit parent / 1024 /\ 5000 <= h_GasLimit header;
  hv_number : exists n, h_Number parent = Some n /\ h_Number header = Some (n + 1);
  hv_seal : seal = true -> seal_valid v c header;
  hv_dao : dao_valid Config header;
  hv_fork : uncle = false -> fork_hash_valid Config header;
}.

Lemma VerifyDAO_ok config header n : h_Number header = Some n ->
  exists r, VerifyDAOHeaderExtraData config header = Ok r /\ (r = None <-> dao_valid config header) /\ plain r.
Proof.
  intros En. unfold VerifyDAOHeaderExtraData, dao_valid, DAOForkExtraRange. destruct (DAOForkBlock config) as [fork|].
  2:{ exists None. split_and!; [done|split; [|done]; intros _ fork' n' [=]|done]. }
  rewrite En. cbn [deref of_option obind]. destruct (Z.ltb_spec n fork), (Z.leb_spec (fork + 10) n); cbn [orb];
    try (exists None; split_and!; [done|split; [|done]; intros _ fork' n' [= <-] [= <-] ?; lia|done]).
  assert (forall P : Prop, (forall fork' n', Some fork = Some fork' -> Some n = Some n' -> fork' <= n' < fork' + 10 -> P) <-> P) as HP.
  { intros P. split; [intros HP; apply (HP fork n eq_refl eq_refl); lia|intros p fork' n' _ _ _; exact p]. }
  setoid_rewrite (HP (h_Extra header = DAOForkBlockExtra <-> DAOForkSupport config = true)). clear HP. destruct (DAOForkSupport config), (bool_decide_reflect (h_Extra header = DAOForkBlockExtra)); cbn [negb];
    eexists; (split_and!; [reflexivity| |done]); (split; [intros ?; first [discriminate | split; intros ?; done]|]; intros [H1 H2]; first [reflexivity | exfalso; auto; discriminate (H1 ltac:(assumption))]).
Qed.

Lemma VerifyForkHashes_ok config header n uncle : h_Number header = Some n ->
  exists r, VerifyForkHashes config header uncle = Ok r /\ (r = None <-> (uncle = false -> fork_hash_valid config header)) /\ plain r.
Proof.
  intros En. unfold VerifyForkHashes, fork_hash_valid. destruct uncle; [by exists None|].
  destruct (EIP150Block config) as [fork|]; [|by exists None; split_and!; [|split; [intros _ _ n' [=]|]|]].
  rewrite En. cbn [deref of_option obind]. destruct (Z.eqb_spec fork n) as [<-|Hne].
  2:{ exists None. split_and!; [done|split; [intros _ _ n' [= <-] [= <-]; done|done]|done]. }
  destruct (Z.eqb_spec (EIP150Hash config) 0) as [Ez|Hz]; cbn [negb andb]; [by exists None; split_and!; [|split|]|].
  destruct (Z.eqb_spec (EIP150Hash config) (Header_Hash header)) as [Eh|Hh]; cbn [negb].
  - exists None. split_and!; [done| |done]. split; [intros _ _ n' _ _ _; by symmetry|done].
  - eexists. split_and!; [done| |done]. split; [done|]. intros Hv. exfalso. apply Hh. symmetry. by apply (Hv eq_refl fork).
Qed.

(** The difference of the gas limits in 64 bits. *)
Lemma i64_id x : - two63 <= x < two63 -> i64 x = x.
Proof.
  intros Hx. destruct (Z.le_gt_cases 0 x); [apply i64_small; lia|]. unfold i64, two63, two64 in *.
  rewrite <- (Z.mod_unique x 18446744073709551616 (-1) (x + 18446744073709551616)) by lia.
  destruct (Z.ltb_spec (x + 18446744073709551616) 9223372036854775808); lia.
Qed.

Lemma gas_diff p h : 0 <= p < 2 ^ 63 -> 0 <= h < 2 ^ 63 ->
  (let diff := i64 (i64 p - i64 h) in u64 (if diff <? 0 then i64 (diff * -1) else diff)) = Z.abs (p - h).
Proof.
  intros Hp Hh. change (2 ^ 63) with 9223372036854775808 in *. rewrite (i64_id p), (i64_id h), i64_id by (unfold two63; lia).
  cbv zeta. destruct (Z.ltb_spec (p - h) 0).
  - rewrite i64_id by (unfold two63; lia). rewrite u64_small by (unfold is_u64, two64; lia). lia.
  - rewrite u64_small by (unfold is_u64, two64; lia). lia.
Qed.

(** Where the header is accepted, rejected, or not yet due. *)
Definition header_verdict (v : env) e header parent (uncle seal : bool) (o : outcome (option engine_error * Ethash)) : Prop :=
  exists r e', o = Ok (r, e') /\ engine_ok e' /\ checker e' = checker e /\ r <> Some ErrUnknownAncestor /\ (r = None <-> header_valid v (checker e) header parent uncle seal) /\
    (r = Some ErrFutureBlock <-> zlen (h_Extra header) <= 32 /\ uncle = false /\ now v + 15 < h_Time header).

Lemma verdict_reject v e header parent uncle seal err : engine_ok e -> plain (Some err) ->
  (uncle = false -> 32 < zlen (h_Extra header) \/ h_Time header <= now v + 15) -> ~ header_valid v (checker e) header parent uncle seal ->
  header_verdict v e header parent uncle seal (Ok (Some err, e)).
Proof.
  intros He Herr Hf Hv. exists (Some err), e. split_and!; [done..|by destruct Herr| |].
  - split; [discriminate|]. intros Hv'. by destruct (Hv Hv').
  - split; [intros E; by destruct Herr|]. intros (Hx & Hu & Ht). destruct (Hf Hu); lia.
Qed.

(** The checks of the seal and of the forks. *)
Lemma verifyHeader_tail v e header parent uncle seal n : h_Number header = Some n -> number_ok header -> engine_ok e ->
  (exists d, h_Difficulty header = Some d) -> (uncle = false -> h_Time header <= now v + 15) ->
  ((seal = true -> seal_valid v (checker e) header) -> dao_valid Config header -> (uncle = false -> fork_hash_valid Config header) ->
     header_valid v (checker e) header parent uncle seal) ->
  header_verdict v e header parent uncle seal
    (check (if seal then VerifySeal v header else ret None)
       (check (lift_out (VerifyDAOHeaderExtraData Config header)) (lift_out (VerifyForkHashes Config header uncle))) e).
Proof.
  intros En Hn He Hd Hf Hv.
  assert (forall r e', engine_ok e' -> checker e' = checker e -> plain r -> (r = None <-> header_valid v (checker e) header parent uncle seal) ->
    header_verdict v e header parent uncle seal (Ok (r, e'))) as Hok.
  { intros r e' He' Ec Hr Hiff. exists r, e'. split_and!; [done..|by destruct Hr|done|]. split; [by destruct Hr|]. intros (_ & Hu & Ht). specialize (Hf Hu). lia. }
  assert (exists r e', (if seal then VerifySeal v header else ret None) e = Ok (r, e') /\ engine_ok e' /\ checker e' = checker e /\
    (r = None <-> (seal = true -> seal_valid v (checker e) header)) /\ plain r) as (r & e' & E & He' & Ec & Hr & Hnf).
  { destruct seal; [|by exists None, e].
    destruct (verifySeal_ok v header false Hn Hd e He ltac:(done)) as (r & e' & E & He' & Ec & Hr & Hnf). exists r, e'. split_and!; try done. rewrite Hr. tauto. }
  unfold check, bind. rewrite E. destruct r as [err|].
  { apply Hok; try done. split; [done|]. intros []. destruct Hr as [_ Hr]. by specialize (Hr hv_seal0). }
  destruct (VerifyDAO_ok Config header n En) as (r1 & E1 & H1 & N1). destruct (VerifyForkHashes_ok Config header n uncle En) as (r2 & E2 & H2 & N2).
  unfold lift_out. rewrite E1. destruct r1 as [err|]; [apply Hok; try done; split; [done|]; intros []; by apply H1 in hv_dao0|].
  rewrite E2. apply Hok; [done..|]. rewrite H2. split; [|by intros []]. intros Hfh. apply Hv; [by apply Hr|by apply H1|done].
Qed.

Lemma verifyHeader_ok v header parent uncle seal e :
  header_ok header -> header_ok parent -> h_GasLimit parent < 2 ^ 63 -> 0 <= now v < 2 ^ 63 -> number_ok header -> engine_ok e ->
  header_verdict v e header parent uncle seal (verifyHeader v header parent uncle seal e).
Proof.
  intros Hh Hp Hg Hnow Hn He. destruct (ok_Difficulty header Hh) as (d & Ed & Hd), (ok_Number header Hh) as (n & En & Hn0),
    (ok_Difficulty parent Hp) as (pd & Epd & Hpd), (ok_Number parent Hp) as (pn & Epn & Hpn).
  pose proof (ok_GasLimit header Hh) as HgL. pose proof (ok_GasLimit parent Hp) as HpL. pose proof (zlen_nonneg (h_Extra header)) as Hx0.
  assert (zlen (h_Extra header) < two64) as Hx by (apply extra_short, Hh).
  unfold verifyHeader. unfold MaximumExtraDataSize. rewrite (u64_small (zlen (h_Extra header))), (u64_small (now v + 15)) by (unfold is_u64, two64 in *; lia).
  destruct (Z.ltb_spec 32 (zlen (h_Extra header))) as [H1|H1].
  { apply verdict_reject; [done|by split|by left|]. intros []. lia. }
  destruct (negb uncle && (now v + 15 <? h_Time header)) eqn:Ef.
  { apply andb_true_iff in Ef as [Eu Et%Z.ltb_lt]. apply negb_true_iff in Eu. exists (Some ErrFutureBlock), e. split_and!; try done.
    split; [done|]. intros []. specialize (hv_future0 Eu). lia. }
  assert (uncle = false -> h_Time header <= now v + 15) as Hf by (intros ->; by apply Z.ltb_ge in Ef).
  assert (forall err, plain (Some err) -> ~ header_valid v (checker e) header parent uncle seal -> header_verdict v e header parent uncle seal (ret (Some err) e)) as Hrej.
  { intros err Herr Hv. apply verdict_reject; auto. }
  destruct (Z.leb_spec (h_Time header) (h_Time parent)) as [H2|H2]; [apply Hrej; [done|]; intros []; lia|].
  unfold bind. rewrite (CalcDifficulty_formula Config (h_Time header) parent pd pn Epd Epn Hpn), Ed. cbn [deref of_option lift_out].
  set (f := difficulty_formula _ _ _ _ _). destruct (Z.eqb_spec f d) as [<-|H3]; cbn [negb].
  2:{ apply Hrej; [done|]. intros [_ _ _ (d' & n' & E1 & E2 & E3) _ _ _ _ _ _ _]. rewrite Epd in E1. injection E1 as <-. rewrite Epn in E2. injection E2 as <-.
      rewrite Ed in E3. injection E3 as E3. done. }
  unfold gasLimitCap. destruct (Z.ltb_spec 9223372036854775807 (h_GasLimit header)) as [H4|H4]; [apply Hrej; [done|]; intros []; lia|].
  destruct (Z.ltb_spec (h_GasLimit header) (h_GasUsed header)) as [H5|H5]; [apply Hrej; [done|]; intros []; lia|].
  pose proof (gas_diff (h_GasLimit parent) (h_GasLimit header)) as Eg. cbv zeta in Eg. rewrite Eg by (unfold is_u64 in *; lia).
  unfold GasLimitBoundDivisor, MinGasLimit.
  destruct (Z.leb_spec (h_GasLimit parent / 1024) (Z.abs (h_GasLimit parent - h_GasLimit header))) as [H6|H6]; cbn [orb].
  { apply Hrej; [done|]. intros []. lia. }
  destruct (Z.ltb_spec (h_GasLimit header) 5000) as [H7|H7]; [apply Hrej; [done|]; intros []; lia|].
  rewrite En, Epn. cbn [deref of_option lift_out]. destruct (Z.eqb_spec (n - pn) 1) as [H8|H8]; cbn [negb].
  2:{ apply Hrej; [done|]. intros [_ _ _ _ _ _ _ (n' & E1 & E2) _ _ _]. rewrite Epn in E1. injection E1 as <-. rewrite En in E2. injection E2 as E2. lia. }
  apply (verifyHeader_tail v e header parent uncle seal n En Hn He); [by exists f|done|]. intros Hs Hdao Hfork. split; try done.
  - by exists pd, pn.
  - lia.
  - exists pn. split; [done|]. rewrite En. f_equal. lia.
Qed.

End headers.

(** ** Sealing *)

Section sealing.
Context {K : Keccak} {K5 : Keccak512} {L : Type -> Type} {LR : SimpleLRU L} {LL : SimpleLRULaws L}.
Implicit Types (e : Ethash (L := L)) (header : Header).

Lemma nonce_roundtrip nonce : is_u64 nonce -> BlockNonce_Uint64 (EncodeNonce nonce) = nonce.
Proof. intros Hn. unfold BlockNonce_Uint64, EncodeNonce. rewrite be_val_be_bytes. apply Z.mod_small. exact Hn. Qed.

Lemma digest_hash digest : Forall is_byte digest -> zlen digest = 32 -> Hash_Bytes (BytesToHash digest) = digest.
Proof.
  intros Hb Hl. unfold BytesToHash, crop_left, HashLength. rewrite Hl. change (32 <? 32) with false. cbv iota. unfold Hash_Bytes, zlen in *.
  replace 32%nat with (length digest) by lia. by apply be_bytes_be_val.
Qed.

Lemma mine_loop_ok v m header n d cache size dataset : number_ok header -> h_Number header = Some n -> h_Difficulty header = Some d -> 0 < d ->
  CopyHeader header = header ->
  cache_generate (fuel v) (n / epochLength) (is_test m) = Ok cache -> mode_size v m n = Ok size ->
  (forall hash nonce, exists r, hashimotoFull dataset hash nonce = Ok r /\ hashimotoLight size cache hash nonce = Ok r) ->
  forall attempts seed, is_u64 seed -> exists r, mine_loop attempts dataset (Hash_Bytes (SealHash header)) (two256 / d) seed header = Ok r /\
    match r with
    | Some h => (exists nonce mix, h = with_seal header nonce mix) /\ pow_valid v m h
    | None => forall i mix, (i < attempts)%nat -> ~ pow_valid v m (with_seal header (EncodeNonce (seed +u Z.of_nat i)) mix)
    end.
Proof.
  intros Hn En Ed Hd Hcp Ec Es Hr. destruct (Uint64_number header n En Hn) as [EU _].
  induction attempts as [|attempts IH]; intros seed Hs; [exists None; split; [done|intros; lia]|]. cbn [mine_loop].
  destruct (Hr (Hash_Bytes (SealHash header)) seed) as ([digest result] & Ef & El). rewrite Ef. cbn [obind].
  assert (forall mix, pow_valid v m (with_seal header (EncodeNonce seed) mix) <-> Hash_Bytes mix = digest /\ be_val result <= two256 / d) as Hpow.
  { intros mix. split.
    - intros (d' & n' & c' & s' & r' & Ed' & _ & En' & Ec' & Es' & El' & Hw). cbn [h_Difficulty h_Number h_MixDigest h_Nonce with_seal] in *.
      assert (d' = d) as -> by congruence. assert (n' = n) as -> by congruence. rewrite EU in *. assert (c' = cache) as -> by congruence. assert (s' = size) as -> by congruence.
      rewrite nonce_roundtrip in El' by done. change (SealHash (with_seal header (EncodeNonce seed) mix)) with (SealHash header) in El'.
      rewrite El in El'. injection El' as -> ->. split; [done|]. apply Z.div_le_lower_bound; [lia|]. change two256 with (2 ^ 256). lia.
    - intros [Em Hle]. exists d, n, cache, size, result. rewrite EU. cbn [h_Difficulty h_Number h_MixDigest h_Nonce with_seal]. split_and!; try done.
      + rewrite nonce_roundtrip by done. change (SealHash (with_seal header (EncodeNonce seed) mix)) with (SealHash header). by rewrite El, Em.
      + change (2 ^ 256) with two256. pose proof (Z.mul_div_le two256 d Hd). nia. }
  destruct (Z.leb_spec (be_val result) (two256 / d)) as [Hle|Hgt].
  - eexists. split; [done|]. rewrite Hcp. split; [by eexists _, _|]. apply Hpow. split; [|done].
    destruct (hashimoto_digest _ _ _ _ _ _ El). by apply digest_hash.
  - destruct (IH (seed +u 1) (u64_range _)) as (r & -> & H). exists r. split; [done|]. destruct r as [h|]; [done|]. intros i mix Hi.
    destruct i as [|i]; [rewrite Z.add_0_r, u64_small by done; rewrite Hpow; lia|].
    specialize (H i mix ltac:(lia)). replace (seed +u Z.of_nat (S i)) with (seed +u 1 +u Z.of_nat i); [done|].
    unfold u64. rewrite Zplus_mod_idemp_l. f_equal. lia.
Qed.

End sealing.
