(* ===== verification/EthashUncles.v ===== *)
(** * Uncles and rewards

    [consensus/ethash/consensus.go]: [VerifyUncles], which checks the uncles of a
    block against its last seven ancestors, and [accumulateRewards], which pays for
    the block and its uncles.  The theorems: a block is accepted exactly when its
    uncles follow the rules, and then the rewards are positive, bounded, and what is
    added to the state. *)

From Stdlib Require Import ZArith Lia.
From stdpp Require Import gmap.
From S2P Require Import Prelude Common Params Rlp Crypto VmState VmSpec Trie StackTrie Types Transaction Receipt Block EthashAlgo EthashCache Engine Ethash.

Open Scope go_scope.

(** [mapset.Set], from outside of the repository: what the code relies on. *)
Class MapSet := {
  mapset : Type;
  NewSet : mapset;
  set_Add : mapset -> Hash -> mapset;
  set_Contains : mapset -> Hash -> bool;
}.
Class MapSetLaws (MS : MapSet) : Prop := {
  Contains_new x : set_Contains NewSet x = false;
  Contains_add s x y : set_Contains (set_Add s x) y = (x =? y) || set_Contains s y;
}.

Section uncles.
Context {K : Keccak} {K5 : Keccak512} {L : Type -> Type} {LR : SimpleLRU L} {MS : MapSet} {CR : ChainReader} (v : env).

Definition maxUncles : Z := 2.

(** The hashes of the uncles of the last ancestors, and their headers. *)
Fixpoint collect_ancestors (i : nat) (parent : Hash) (number : Z) (uncles : mapset) (ancestors : gmap Hash Header) : mapset * gmap Hash Header :=
  match i with
  | O => (uncles, ancestors)
  | S i =>
      match GetBlock parent number with
      | None => (uncles, ancestors)
      | Some ancestor =>
          let ancestors := <[Block_Hash ancestor := CopyHeader (b_header ancestor)]> ancestors in
          let uncles := foldl (fun s u => set_Add s (Header_Hash u)) uncles (b_uncles ancestor) in
          collect_ancestors i (h_ParentHash (b_header ancestor)) (number -u 1) uncles ancestors
      end
  end.

(** The loop over the uncles of the block. *)
Fixpoint check_uncles (block : Block) (ancestors : gmap Hash Header) (l : list Header) (uncles : mapset) : M (Ethash (L := L)) (option engine_error) :=
  match l with
  | [] => ret None
  | uncle :: l =>
      let hash := Header_Hash uncle in
      if set_Contains uncles hash then ret (Some errDuplicateUncle)
      else
        let uncles := set_Add uncles hash in
        match ancestors !! hash with
        | Some _ => ret (Some errUncleIsAncestor)
        | None =>
            match ancestors !! h_ParentHash uncle with
            | None => ret (Some errDanglingUncle)
            | Some parent =>
                if h_ParentHash uncle =? h_ParentHash (b_header block) then ret (Some errDanglingUncle)
                else check (verifyHeader v uncle parent true true) (check_uncles block ancestors l uncles)
            end
        end
  end.

Definition VerifyUncles (block : Block) : M (Ethash (L := L)) (option engine_error) := fun ethash =>
  match e_PowMode ethash with
  | ModeFullFake => Ok (None, ethash)
  | _ =>
      if maxUncles <? zlen (b_uncles block) then Ok (Some errTooManyUncles, ethash)
      else if zlen (b_uncles block) =? 0 then Ok (None, ethash)
      else
        number <- NumberU64 block ;;
        let '(uncles, ancestors) := collect_ancestors 7 (h_ParentHash (b_header block)) (number -u 1) NewSet ∅ in
        let ancestors := <[Block_Hash block := CopyHeader (b_header block)]> ancestors in
        let uncles := set_Add uncles (Block_Hash block) in
        check_uncles block ancestors (b_uncles block) uncles ethash
  end.
End uncles.

(** ** Rewards *)

Definition FrontierBlockReward : Z := 5000000000000000000.
Definition ByzantiumBlockReward : Z := 3000000000000000000.
Definition ConstantinopleBlockReward : Z := 2000000000000000000.

Definition block_reward (config : ChainConfig) (number : option Z) : Z :=
  let blockReward := FrontierBlockReward in
  let blockReward := if IsByzantium config number then ByzantiumBlockReward else blockReward in
  if IsConstantinople config number then ConstantinopleBlockReward else blockReward.

Section rewards.
Context {S : StateDB}.

Fixpoint reward_uncles (number : option Z) (blockReward : Z) (uncles : list Header) (reward : Z) (state : DB) : outcome (Z * DB) :=
  match uncles with
  | [] => Ok (reward, state)
  | uncle :: uncles =>
      uncleNumber <- deref (h_Number uncle) ;;
      number' <- deref number ;;
      let r := (uncleNumber + 8 - number') * blockReward / 8 in
      let state := AddBalance (h_Coinbase uncle) r state in
      reward_uncles number blockReward uncles (reward + blockReward / 32) state
  end.

Definition accumulateRewards (config : ChainConfig) (state : DB) (header : Header) (uncles : list Header) : outcome DB :=
  let blockReward := block_reward config (h_Number header) in
  r <- reward_uncles (h_Number header) blockReward uncles blockReward state ;;
  let '(reward, state) := r in
  Ok (AddBalance (h_Coinbase header) reward state).

(** [Finalize]; [IntermediateRoot] is the method of the state. *)
Definition with_root (h : Header) (root : Hash) : Header :=
  MkHeader (h_ParentHash h) (h_UncleHash h) (h_Coinbase h) root (h_TxHash h) (h_ReceiptHash h) (h_Bloom h) (h_Difficulty h) (h_Number h)
    (h_GasLimit h) (h_GasUsed h) (h_Time h) (h_Extra h) (h_MixDigest h) (h_Nonce h).

Definition Finalize {CR : ChainReader} (IntermediateRoot : bool -> DB -> outcome (Hash * DB)) (header : Header) (state : DB) (uncles : list Header) : outcome (Header * DB) :=
  state <- accumulateRewards Config state header uncles ;;
  r <- IntermediateRoot (IsEIP158 Config (h_Number header)) state ;;
  let '(root, state) := r in
  Ok (with_root header root, state).

Definition FinalizeAndAssemble {K : Keccak} {CR : ChainReader} (db : Database) (IntermediateRoot : bool -> DB -> outcome (Hash * DB)) (header : Header) (state : DB)
    (txs : list Transaction) (uncles : list Header) (receipts : list Receipt) : outcome (Block * DB) :=
  r <- Finalize IntermediateRoot header state uncles ;;
  let '(header, state) := r in
  r <- NewBlock (HH := Hasher_Trie db) header txs uncles receipts nilNode ;;
  Ok (fst r, state).
End rewards.

(** ** What is accepted *)

Section verified.
Context {K : Keccak} {K5 : Keccak512} {L : Type -> Type} {LR : SimpleLRU L} {LL : SimpleLRULaws L} {MS : MapSet} {ML : MapSetLaws MS}.
Context {CR : ChainReader} {CL : ChainReaderLaws CR}.
Implicit Types (e : Ethash (L := L)) (block : Block).

(** The last ancestors of a block, the parent first. *)
Fixpoint ancestor_list (i : nat) (parent : Hash) (number : Z) : list Block :=
  match i with
  | O => []
  | S i => match GetBlock parent number with
           | None => []
           | Some a => a :: ancestor_list i (h_ParentHash (b_header a)) (number -u 1)
           end
  end.

Definition ancestors_of block : list Block :=
  match h_Number (b_header block) with
  | Some n => ancestor_list 7 (h_ParentHash (b_header block)) (Uint64 n -u 1)
  | None => []
  end.

(** An uncle of a block: not an uncle of an ancestor before, not an ancestor, and a
    valid header on top of an ancestor other than the parent. *)
Record uncle_valid (v : env) (c : Mode * Z) block (u : Header) : Prop := MkUncleValid {
  uv_fresh : forall a u', a ∈ ancestors_of block -> u' ∈ b_uncles a -> Header_Hash u' <> Header_Hash u;
  uv_new : forall a, a ∈ block :: ancestors_of block -> Block_Hash a <> Header_Hash u;
  uv_parent : exists a, a ∈ block :: ancestors_of block /\ Block_Hash a = h_ParentHash u /\ h_ParentHash u <> h_ParentHash (b_header block) /\
    header_valid v c u (b_header a) true true;
}.

Definition uncles_valid (v : env) (c : Mode * Z) block : Prop :=
  zlen (b_uncles block) <= 2 /\ NoDup (map Header_Hash (b_uncles block)) /\ Forall (uncle_valid v c block) (b_uncles block).

Lemma NoDup_map_unique {A B} (f : A -> B) (l : list A) x y : NoDup (map f l) -> x ∈ l -> y ∈ l -> f x = f y -> x = y.
Proof.
  induction l as [|a l IH]; intros Hd Hx Hy E; [by apply elem_of_nil in Hx|]. cbn [map] in Hd. apply NoDup_cons in Hd as [Hni Hd].
  apply elem_of_cons in Hx as [->|Hx], Hy as [->|Hy]; [done| | |by apply IH]; exfalso; apply Hni;
    [rewrite E|rewrite <- E]; by apply list_elem_of_In, in_map, list_elem_of_In.
Qed.

Lemma Contains_adds l : forall s h, set_Contains (foldl (fun s u => set_Add s (Header_Hash u)) s l) h = true <-> set_Contains s h = true \/ exists u, u ∈ l /\ Header_Hash u = h.
Proof.
  induction l as [|u l IH]; intros s h; cbn [foldl].
  - split; [by left|]. by intros [?|(u & Hu%elem_of_nil & _)].
  - rewrite IH, Contains_add, orb_true_iff, Z.eqb_eq. split.
    + intros [[Eu|Hs]|(u' & Hu & Eu)]; [right; exists u; split; [apply list_elem_of_here|done]|by left|right; exists u'; split; [by apply list_elem_of_further|done]].
    + intros [Hs|(u' & [->|Hu]%elem_of_cons & Eu)]; [by left; right|by left; left|by right; exists u'].
Qed.

(** What the walk over the ancestors collects. *)
Lemma collect_ok i : forall parent number s m, exists s' m', collect_ancestors i parent number s m = (s', m') /\
  (forall h, set_Contains s' h = true <-> set_Contains s h = true \/ exists a u, a ∈ ancestor_list i parent number /\ u ∈ b_uncles a /\ Header_Hash u = h) /\
  (forall h p, m' !! h = Some p -> m !! h = Some p \/ exists a, a ∈ ancestor_list i parent number /\ Block_Hash a = h /\ p = b_header a) /\
  (forall h p, m !! h = Some p -> is_Some (m' !! h)) /\ (forall a, a ∈ ancestor_list i parent number -> is_Some (m' !! Block_Hash a)).
Proof.
  induction i as [|i IH]; intros parent number s m; cbn [collect_ancestors ancestor_list].
  { exists s, m. split_and!; [done| |by left|by eexists|by intros a ?%elem_of_nil]. intros h. split; [by left|by intros [?|(a & u & ?%elem_of_nil & _)]]. }
  destruct (GetBlock parent number) as [a|] eqn:Ea.
  2:{ exists s, m. split_and!; [done| |by left|by eexists|by intros a ?%elem_of_nil]. intros h. split; [by left|by intros [?|(a & u & ?%elem_of_nil & _)]]. }
  destruct (GetBlock_ok _ _ _ Ea) as (_ & _ & Ha & _). rewrite (CopyHeader_id _ Ha).
  destruct (IH (h_ParentHash (b_header a)) (number -u 1) (foldl (fun s u => set_Add s (Header_Hash u)) s (b_uncles a)) (<[Block_Hash a := b_header a]> m))
    as (s' & m' & E & Hs & Hm & Hk & Hl). exists s', m'. split_and!; [done| | | |].
  - intros h. rewrite Hs, Contains_adds. split.
    + intros [[?|(u & Hu & Eu)]|(a' & u & Ha' & Hu)]; [by left|right; exists a, u; split_and!; [apply list_elem_of_here|done..]
        |right; exists a', u; split_and!; [by apply list_elem_of_further|apply Hu..]].
    + intros [?|(a' & u & [->|Ha']%elem_of_cons & Hu)]; [by left; left|left; right; by exists u|right; by exists a', u].
  - intros h p Ep. destruct (Hm h p Ep) as [E'|(a' & Ha' & Eh)]; [|right; exists a'; split; [by apply list_elem_of_further|done]].
    destruct (decide (Block_Hash a = h)) as [<-|Hne].
    + rewrite lookup_insert_eq in E'. injection E' as <-. right. exists a. split_and!; [apply list_elem_of_here|done..].
    + rewrite lookup_insert_ne in E' by done. by left.
  - intros h p Ep. destruct (decide (Block_Hash a = h)) as [<-|Hne]; [apply (Hk _ (b_header a)), lookup_insert_eq|]. apply (Hk _ p). by rewrite lookup_insert_ne.
  - intros a' [->|Ha']%elem_of_cons; [apply (Hk _ (b_header a)), lookup_insert_eq|by apply Hl].
Qed.

Lemma uncle_hash_elem (h : Hash) (l : list Block) :
  h ∈ map Header_Hash (concat (map b_uncles l)) <-> (exists a u, a ∈ l /\ u ∈ b_uncles a /\ Header_Hash u = h).
Proof.
  rewrite list_elem_of_In, in_map_iff. setoid_rewrite in_concat. setoid_rewrite in_map_iff. setoid_rewrite list_elem_of_In. split.
  - intros (u & <- & l' & (a & <- & Ha) & Hin). by exists a, u.
  - intros (a & u & Ha & Hin & <-). exists u. split; [done|]. exists (b_uncles a). split; [by exists a|done].
Qed.

(** The checks of one uncle, when the hashes in [seen] are taken. *)
Definition uncle_checked (v : env) (c : Mode * Z) block (seen : list Hash) (u : Header) : Prop :=
  (Header_Hash u ∉ seen) /\ (forall a, a ∈ block :: ancestors_of block -> Block_Hash a <> Header_Hash u) /\
  exists a, a ∈ block :: ancestors_of block /\ Block_Hash a = h_ParentHash u /\ h_ParentHash u <> h_ParentHash (b_header block) /\
    header_valid v c u (b_header a) true true.

Lemma uncle_checked_cons v c block seen u (l : list Header) : uncle_checked v c block seen u ->
  (NoDup (map Header_Hash l) /\ Forall (uncle_checked v c block (Header_Hash u :: seen)) l) <->
  (NoDup (map Header_Hash (u :: l)) /\ Forall (uncle_checked v c block seen) (u :: l)).
Proof.
  intros Hu. cbn [map]. rewrite NoDup_cons, Forall_cons. split.
  - intros [Hd Hf]. split_and!; try done.
    + intros (w & Ew & Hw)%list_elem_of_In%in_map_iff. apply list_elem_of_In in Hw. apply (proj1 (Forall_forall _ _) Hf) in Hw as [Hs _]. apply Hs. rewrite Ew. apply list_elem_of_here.
    + eapply Forall_impl; [exact Hf|]. intros w (Hs & Hw). split; [|done]. intros Hin. apply Hs. by apply list_elem_of_further.
  - intros [[Hni Hd] [_ Hf]]. split; [done|]. apply Forall_forall. intros w Hw. pose proof (proj1 (Forall_forall _ _) Hf w Hw) as [Hs Hr]. split; [|done].
    intros [E|Hin]%elem_of_cons; [|done]. apply Hni, list_elem_of_In, in_map_iff. exists w. split; [done|by apply list_elem_of_In].
Qed.

Lemma check_uncles_ok v block (m : gmap Hash Header) l :
  0 <= now v < 2 ^ 63 -> Forall header_ok l -> Forall number_ok l ->
  Forall (fun a => header_ok (b_header a) /\ h_GasLimit (b_header a) < 2 ^ 63) (block :: ancestors_of block) ->
  (forall h p, m !! h = Some p <-> (exists a, a ∈ block :: ancestors_of block /\ Block_Hash a = h /\ p = b_header a)) ->
  forall s (seen : list Hash) e, (forall h, set_Contains s h = true <-> h ∈ seen) -> engine_ok e ->
  exists r e', check_uncles v block m l s e = Ok (r, e') /\ engine_ok e' /\ checker e' = checker e /\
    (r = None <-> NoDup (map Header_Hash l) /\ Forall (uncle_checked v (checker e) block seen) l).
Proof.
  intros Hnow Hl Hn Hb Hm. induction l as [|u l IH]; intros s seen e Hs He; cbn [check_uncles].
  { exists None, e. split_and!; try done. split; [|done]. intros _. split; [apply NoDup_nil_2|apply Forall_nil_2]. }
  apply Forall_cons in Hl as [Hu Hl], Hn as [Hun Hn]. set (Q := fun o : outcome (option engine_error * Ethash) => exists r e', o = Ok (r, e') /\ engine_ok e' /\
    checker e' = checker e /\ (r = None <-> NoDup (map Header_Hash (u :: l)) /\ Forall (uncle_checked v (checker e) block seen) (u :: l))).
  assert (forall err e', engine_ok e' -> checker e' = checker e -> ~ uncle_checked v (checker e) block seen u -> Q (Ok (Some err, e'))) as Hrej.
  { intros err e' He' Ec Hno. exists (Some err), e'. split_and!; try done. split; [discriminate|]. intros [_ H]. apply Forall_cons in H as [H _]. done. }
  match goal with |- exists r e', ?o = _ /\ _ => change (Q o) end.
  destruct (set_Contains s (Header_Hash u)) eqn:Es; [apply Hrej; [done..|]; intros [H _]; by apply H, Hs|].
  destruct (m !! Header_Hash u) as [p|] eqn:Eh.
  { apply Hrej; [done..|]. intros (_ & H & _). apply Hm in Eh as (a & Ha & Eh & _). by apply (H a). }
  destruct (m !! h_ParentHash u) as [p|] eqn:Ep.
  2:{ apply Hrej; [done..|]. intros (_ & _ & a & Ha & Ea & _). assert (m !! h_ParentHash u = Some (b_header a)) by (apply Hm; by exists a). congruence. }
  destruct (Z.eqb_spec (h_ParentHash u) (h_ParentHash (b_header block))) as [E|Hne].
  { apply Hrej; [done..|]. by intros (_ & _ & a & _ & _ & ? & _). }
  apply Hm in Ep as (a & Ha & Ea & ->). pose proof (proj1 (Forall_forall _ _) Hb a Ha) as [Hao Hag].
  destruct (verifyHeader_ok v u (b_header a) true true e Hu Hao Hag Hnow Hun He) as (r & e' & E & He' & Ec & _ & Hr & _). unfold check, bind. rewrite E.
  assert (uncle_checked v (checker e) block seen u <-> r = None) as Hck.
  { rewrite Hr. split.
    - intros (_ & _ & a' & Ha' & Eh' & _ & Hv). assert (b_header a' = b_header a) as <-; [|done].
      assert (m !! h_ParentHash u = Some (b_header a)) as E1 by (apply Hm; by exists a). assert (m !! h_ParentHash u = Some (b_header a')) as E2 by (apply Hm; by exists a'). congruence.
    - intros Hv. split_and!; [by intros H%Hs; rewrite Es in H| |by exists a]. intros a' Ha' Eh'.
      assert (m !! Header_Hash u = Some (b_header a')) by (apply Hm; by exists a'). congruence. }
  destruct r as [err|]; [apply Hrej; [done..|]; by intros ?%Hck|].
  destruct (IH Hl Hn (set_Add s (Header_Hash u)) (Header_Hash u :: seen) e') as (r' & e2 & E2 & He2 & Ec2 & Hr2); [|done|].
  { intros h. rewrite Contains_add, orb_true_iff, Z.eqb_eq, elem_of_cons, Hs. split; (intros [?|?]; [left|right]; congruence). }
  rewrite Ec in *. exists r', e2. split_and!; [done|done|done|]. rewrite Hr2. apply uncle_checked_cons. by apply Hck.
Qed.

Lemma ancestor_list_ok i : forall parent number, is_u64 number ->
  Forall (fun a => header_ok (b_header a) /\ h_GasLimit (b_header a) < 2 ^ 63 /\
    exists k, h_Number (b_header a) = Some k /\ 0 <= k < 2 ^ 63 /\ number - Z.of_nat i < k <= number /\ (k = number -> Block_Hash a = parent)) (ancestor_list i parent number).
Proof.
  induction i as [|i IH]; intros parent number Hn; cbn [ancestor_list]; [apply Forall_nil_2|].
  destruct (GetBlock parent number) as [a|] eqn:Ea; [|apply Forall_nil_2]. destruct (GetBlock_ok _ _ _ Ea) as (Eh & En & Ha & Hb & Hg). unfold is_u64 in Hn.
  apply Forall_cons_2; [split_and!; [done|done|]; exists number; split_and!; [done|lia|lia|lia|lia|done]|].
  destruct (Z.eq_dec number 0) as [->|Hz].
  - assert (ancestor_list i (h_ParentHash (b_header a)) (0 -u 1) = []) as ->; [|apply Forall_nil_2]. destruct i; [done|]. cbn [ancestor_list].
    destruct (GetBlock _ (0 -u 1)) as [b|] eqn:Eb; [|done]. destruct (GetBlock_ok _ _ _ Eb) as (_ & _ & _ & Hbad & _).
    change (0 -u 1) with 18446744073709551615 in Hbad. lia.
  - rewrite u64_small by (unfold is_u64; lia). eapply Forall_impl; [apply IH; unfold is_u64; lia|]. cbn beta. intros b (Hb1 & Hb2 & k & Ek & Hk0 & Hk & Hp).
    split_and!; [done|done|]. exists k. split_and!; [done|lia|lia|lia|lia|lia].
Qed.

(** The map and the set that [VerifyUncles] checks the uncles against. *)
Lemma collected block n : h_Number (b_header block) = Some n -> NoDup (map Block_Hash (block :: ancestors_of block)) ->
  exists s m, collect_ancestors 7 (h_ParentHash (b_header block)) (Uint64 n -u 1) NewSet ∅ = (s, m) /\
    (forall h p, <[Block_Hash block := b_header block]> m !! h = Some p <-> (exists a, a ∈ block :: ancestors_of block /\ Block_Hash a = h /\ p = b_header a)) /\
    (forall h, set_Contains (set_Add s (Block_Hash block)) h = true <-> h ∈ Block_Hash block :: map Header_Hash (concat (map b_uncles (ancestors_of block)))).
Proof.
  intros En Hd. destruct (collect_ok 7 (h_ParentHash (b_header block)) (Uint64 n -u 1) NewSet ∅) as (s & m & E & Hs & Hm & _ & Hl).
  assert (ancestors_of block = ancestor_list 7 (h_ParentHash (b_header block)) (Uint64 n -u 1)) as Ea by (unfold ancestors_of; by rewrite En).
  rewrite <- Ea in *. exists s, m. split_and!; [done| |].
  - cbn [map] in Hd. apply NoDup_cons in Hd as [Hni Hd]. intros h p. destruct (decide (Block_Hash block = h)) as [<-|Hne].
    + rewrite lookup_insert_eq. split; [intros [= <-]; exists block; split_and!; [apply list_elem_of_here|done..]|].
      intros (a & [->|Ha]%elem_of_cons & Eh & ->); [done|]. exfalso. apply Hni. rewrite <- Eh. by apply list_elem_of_In, in_map, list_elem_of_In.
    + rewrite lookup_insert_ne by done. split.
      * intros [E'|(a & Ha & Eh)]%Hm; [by rewrite lookup_empty in E'|]. exists a. split; [by apply list_elem_of_further|done].
      * intros (a & [->|Ha]%elem_of_cons & <- & ->); [done|]. destruct (Hl a Ha) as [p Ep]. rewrite Ep. f_equal.
        destruct (Hm _ _ Ep) as [E'|(a' & Ha' & Eh & ->)]; [by rewrite lookup_empty in E'|]. f_equal. by apply (NoDup_map_unique Block_Hash (ancestors_of block)).
  - intros h. rewrite Contains_add, orb_true_iff, Z.eqb_eq, elem_of_cons, Hs, Contains_new, uncle_hash_elem. split.
    + intros [<-|[?|?]]; [by left|done|by right].
    + intros [->|?]; [by left|by right; right].
Qed.

(** C25: [VerifyUncles] accepts exactly the blocks whose uncles follow the rules: at
    most two, different from each other, from the ancestors and from their uncles, and
    valid headers on top of one of the last seven ancestors that is not the parent.  It
    answers for every block. *)
Theorem VerifyUncles_correct (v : env) (block : Block) (e : Ethash (L := L)) :
  0 <= now v < 2 ^ 63 -> engine_ok e -> header_ok (b_header block) -> h_GasLimit (b_header block) < 2 ^ 63 ->
  Forall header_ok (b_uncles block) -> Forall number_ok (b_uncles block) -> NoDup (map Block_Hash (block :: ancestors_of block)) ->
  exists r e', VerifyUncles v block e = Ok (r, e') /\ engine_ok e' /\ (r = None <-> e_PowMode e = ModeFullFake \/ uncles_valid v (checker e) block).
Proof.
  intros Hnow He Hh Hg Hu Hun Hd. unfold VerifyUncles. destruct (decide (e_PowMode e = ModeFullFake)) as [Em|Em].
  { rewrite Em. exists None, e. split_and!; try done. split; [by left|done]. }
  assert (forall k : outcome (option engine_error * Ethash), match e_PowMode e with ModeFullFake => Ok (None, e) | _ => k end = k) as ->
    by (intros k; by destruct (e_PowMode e)).
  unfold maxUncles. destruct (Z.ltb_spec 2 (zlen (b_uncles block))) as [Hl|Hl].
  { exists (Some errTooManyUncles), e. split_and!; try done. split; [done|]. intros [?|[? _]]; [done|lia]. }
  destruct (Z.eqb_spec (zlen (b_uncles block)) 0) as [Hz|Hz].
  { exists None, e. split_and!; try done. split; [|done]. intros _. right. unfold uncles_valid. destruct (b_uncles block) as [|u l].
    - split_and!; [lia|apply NoDup_nil_2|apply Forall_nil_2].
    - rewrite zlen_cons in Hz. pose proof (zlen_nonneg l). lia. }
  destruct (ok_Number _ Hh) as (n & En & Hn). unfold NumberU64. rewrite En. cbn [deref of_option obind]. rewrite (CopyHeader_id _ Hh).
  destruct (collected block n En Hd) as (s & m & -> & Hmap & Hseen).
  destruct (check_uncles_ok v block (<[Block_Hash block := b_header block]> m) (b_uncles block) Hnow Hu Hun) with
    (s := set_Add s (Block_Hash block)) (seen := Block_Hash block :: map Header_Hash (concat (map b_uncles (ancestors_of block)))) (e := e)
    as (r & e' & E & He' & _ & Hr); [|done..|].
  - apply Forall_cons_2; [done|]. unfold ancestors_of. rewrite En. eapply Forall_impl; [apply ancestor_list_ok, u64_range|]. intros a (? & ? & _). done.
  - exists r, e'. split_and!; [done|done|]. rewrite Hr. unfold uncles_valid. split.
    + intros [Hnd Hf]. right. split_and!; [done|done|]. eapply Forall_impl; [exact Hf|]. intros u (H1 & H2 & H3). split; [|done|done].
      intros a u' Ha Hu' Eu. apply H1, list_elem_of_further, uncle_hash_elem. by exists a, u'.
    + intros [?|(_ & Hnd & Hf)]; [done|]. split; [done|]. eapply Forall_impl; [exact Hf|]. intros u [H1 H2 H3]. split_and!; [|done|done].
      intros [E'|(a & u' & Ha & Hin & Eu)%uncle_hash_elem]%elem_of_cons; [by apply (H2 block (list_elem_of_here _ _))|by apply (H1 a u')].
Qed.

(** An uncle is one to six blocks older than the block. *)
Lemma uncle_number v c block n u : uncle_valid v c block u -> h_Number (b_header block) = Some n -> 0 <= n < 2 ^ 63 -> h_ParentHash u <> Block_Hash block ->
  exists k, h_Number u = Some k /\ n - 6 <= k <= n - 1.
Proof.
  intros [_ _ (a & Ha & Eh & Hne & Hv)] En Hn Hnb. apply elem_of_cons in Ha as [->|Ha]; [done|]. unfold ancestors_of in Ha. rewrite En in Ha.
  assert (Uint64 n = n) as EU by (unfold Uint64; rewrite Z.abs_eq by lia; apply u64_small; unfold is_u64, two64; lia). rewrite EU in Ha.
  pose proof (proj1 (Forall_forall _ _) (ancestor_list_ok 7 (h_ParentHash (b_header block)) (n -u 1) (u64_range _)) a Ha) as (_ & _ & k & Ek & Hk & Hr & Hp).
  destruct (hv_number _ _ _ _ _ _ Hv) as (k' & Ek' & Eu). rewrite Ek in Ek'. injection Ek' as <-. exists (k + 1). split; [done|].
  destruct (Z.eq_dec n 0) as [->|Hz]; [change (0 -u 1) with 18446744073709551615 in Hr; lia|].
  rewrite (u64_small (n - 1)) in Hr, Hp by (unfold is_u64, two64; lia). destruct (Z.eq_dec k (n - 1)) as [->|]; [|lia]. specialize (Hp eq_refl). congruence.
Qed.
End verified.

(** ** What is paid *)

Section paid.
Context {S : StateDB} {K : Keccak} {SP : StateDBSpec S K}.

Definition uncle_reward (n R : Z) (u : Header) : Z := (default 0 (h_Number u) + 8 - n) * R / 8.
Definition rewarded (n R : Z) (w : View) (u : Header) : View := s_AddBalance (h_Coinbase u) (uncle_reward n R u) w.
Definition issuance (n R : Z) (uncles : list Header) : Z := R + zlen uncles * (R / 32) + foldr Z.add 0 (map (uncle_reward n R) uncles).

Lemma foldl_rewarded n R us : forall w w', w ≡ w' -> foldl (rewarded n R) w us ≡ foldl (rewarded n R) w' us.
Proof. induction us as [|u us IH]; intros w w' E; cbn [foldl]; [done|]. apply IH. unfold rewarded. by rewrite E. Qed.

Lemma reward_uncles_ok n R us : 0 <= R -> Forall (fun u => exists k, h_Number u = Some k /\ n - 6 <= k <= n - 1) us -> forall r d t, db_ok d -> ether (view d) t ->
  exists d', reward_uncles (Some n) R us r d = Ok (r + zlen us * (R / 32), d') /\ db_ok d' /\ snaps_eq (snaps d') (snaps d) /\
    view d' ≡ foldl (rewarded n R) (view d) us /\ ether (view d') (t + foldr Z.add 0 (map (uncle_reward n R) us)).
Proof.
  intros HR. induction 1 as [|u us (k & Ek & Hk) _ IH]; intros r d t Hd Ht; cbn [reward_uncles].
  { exists d. split_and!; [by rewrite (zlen_nil (A := Header)), Z.mul_0_l, Z.add_0_r|done..|]. cbn [map foldr]. by rewrite Z.add_0_r. }
  rewrite Ek. cbn [deref of_option obind]. destruct (AddBalance_spec (h_Coinbase u) ((k + 8 - n) * R / 8) d Hd) as (Hd' & Hv & Hs).
  assert (uncle_reward n R u = (k + 8 - n) * R / 8) as Er by (unfold uncle_reward; by rewrite Ek).
  assert (ether (view (AddBalance (h_Coinbase u) ((k + 8 - n) * R / 8) d)) (t + (k + 8 - n) * R / 8)) as Ht'.
  { eapply ether_same; [intros a; apply (ve_Balance _ _ Hv)|]. apply ether_AddBalance; [by apply view_wf| |done]. apply Z.div_pos; nia. }
  destruct (IH (r + R / 32) _ _ Hd' Ht') as (d' & -> & Hd'' & Hs' & Hv' & He). exists d'. split_and!; [|done| | |].
  - rewrite zlen_cons. f_equal. f_equal. lia.
  - by etrans.
  - rewrite Hv'. cbn [foldl]. apply foldl_rewarded. unfold rewarded. by rewrite Er.
  - cbn [map foldr]. rewrite Er, Z.add_assoc. exact He.
Qed.

Lemma issuance_bounds n R us : 0 <= R -> R mod 32 = 0 -> Forall (fun u => exists k, h_Number u = Some k /\ n - 6 <= k <= n - 1) us ->
  R + zlen us * (9 * (R / 32)) <= issuance n R us <= R + zlen us * (29 * (R / 32)).
Proof.
  intros HR Hm H. unfold issuance. set (q := R / 32). assert (R = 32 * q) as Eq by (pose proof (Z.div_mod R 32 ltac:(lia)); unfold q; lia).
  enough (zlen us * (8 * q) <= foldr Z.add 0 (map (uncle_reward n R) us) <= zlen us * (28 * q)) by lia.
  assert (0 <= q) as Hq by lia. induction H as [|u us (k & Ek & Hk) _ IH]; [rewrite (zlen_nil (A := Header)); cbn [map foldr]; lia|]. rewrite zlen_cons. cbn [map foldr].
  assert (uncle_reward n R u = (k + 8 - n) * 4 * q) as ->.
  { unfold uncle_reward. rewrite Ek, Eq. cbn [default from_option id]. replace ((k + 8 - n) * (32 * q)) with ((k + 8 - n) * 4 * q * 8) by lia. by rewrite Z.div_mul by lia. }
  assert (8 * q <= (k + 8 - n) * 4 * q <= 28 * q) by nia. lia.
Qed.
End paid.

(** What [accumulateRewards] pays. *)
Lemma accumulateRewards_ok {S : StateDB} {K : Keccak} {SP : StateDBSpec S K} {K5 : Keccak512} {CR : ChainReader} {CL : ChainReaderLaws CR}
    (v : env) (c : Mode * Z) (block : Block) (n : Z) (d : DB) (total : Z) :
  uncles_valid v c block -> h_Number (b_header block) = Some n -> 0 <= n < 2 ^ 63 ->
  Forall (fun u => h_ParentHash u <> Block_Hash block) (b_uncles block) -> db_ok d -> ether (view d) total ->
  let R := block_reward Config (Some n) in let uncles := b_uncles block in
  exists d', accumulateRewards Config d (b_header block) uncles = Ok d' /\ db_ok d' /\ snaps_eq (snaps d') (snaps d) /\
    view d' ≡ s_AddBalance (h_Coinbase (b_header block)) (R + zlen uncles * (R / 32)) (foldl (rewarded n R) (view d) uncles) /\
    ether (view d') (total + issuance n R uncles) /\ zlen uncles <= 2 /\
    R + zlen uncles * (9 * (R / 32)) <= issuance n R uncles <= R + zlen uncles * (29 * (R / 32)).
Proof.
  intros (Hl & _ & Hu) En Hn Hnb Hd Ht R uncles.
  assert (Forall (fun u => exists k, h_Number u = Some k /\ n - 6 <= k <= n - 1) uncles) as Hk.
  { apply Forall_forall. intros u Hin. eapply uncle_number; [by apply (proj1 (Forall_forall _ _) Hu)|done|done|by apply (proj1 (Forall_forall _ _) Hnb)]. }
  assert (0 <= R /\ R mod 32 = 0) as [HR Hm].
  { unfold R, block_reward. destruct (IsConstantinople _ _); [done|]. by destruct (IsByzantium _ _). }
  unfold accumulateRewards. rewrite En. fold R. destruct (reward_uncles_ok n R uncles HR Hk R d total Hd Ht) as (d1 & -> & Hd1 & Hs1 & Hv1 & He1). cbn [obind].
  set (r := R + zlen uncles * (R / 32)). destruct (AddBalance_spec (h_Coinbase (b_header block)) r d1 Hd1) as (Hd2 & Hv2 & Hs2).
  eexists. split; [done|]. split_and!; [done|by etrans| | |done|apply issuance_bounds; done|apply issuance_bounds; done].
  - by rewrite Hv2, Hv1.
  - eapply ether_same; [intros a; apply (ve_Balance _ _ Hv2)|]. unfold issuance. fold r.
    replace (total + (r + _)) with (total + foldr Z.add 0 (map (uncle_reward n R) uncles) + r) by lia.
    apply ether_AddBalance; [by apply view_wf| |done]. unfold r. pose proof (zlen_nonneg uncles). pose proof (Z.div_pos R 32 HR ltac:(lia)). nia.
Qed.

