(* ===== verification/EthashHeaders.v ===== *)
(** * Verifying many headers at once

    [consensus/ethash/consensus.go], [VerifyHeaders]: a dispatcher hands the indices
    of the headers to workers over an unbuffered channel, the workers write their
    results into a shared slice and send the index over a buffered channel, and the
    dispatcher forwards the results in the order of the headers.  The goroutines are
    a step relation on their joint state.  The theorem: whatever the schedule, the
    results come out in order, the goroutines do not block each other for ever, and
    after boundedly many steps all results are out. *)

From Stdlib Require Import ZArith Lia.
From stdpp Require Import gmap.
From S2P Require Import Prelude Common Params Rlp Crypto VmState Types Transaction Receipt Block EthashAlgo EthashCache Engine Ethash.

Open Scope go_scope.

(** ** The goroutines *)

(** A worker waits for an index, is at work on one, or has the result and sends the
    index back. *)
Inductive worker := Idle | Busy (index : nat) | Finished (index : nat).

Section dispatch.
Context {Eng R : Type} (n : nat) (work : nat -> M Eng R).

Record vstate := MkVState {
  v_engine : Eng;
  v_workers : list worker;
  v_done : list nat;               (* the buffer of [done] *)
  v_errors : list (option R);      (* [errors] *)
  v_in : nat;                      (* [in]; the input channel is nil when it is [n] *)
  v_out : nat;                     (* [out] *)
  v_checked : list bool;           (* [checked] *)
  v_results : list (option R);     (* what was sent over [errorsOut] *)
  v_returned : bool;               (* the dispatcher has returned *)
}.

Definition v_start (e : Eng) (workers : nat) : vstate :=
  MkVState e (replicate workers Idle) [] (replicate n None) 0 0 (replicate n false) [] false.

(** [for ; checked[out]; out++ { errorsOut <- errors[out]; if out == n-1 { return } }]:
    the index out, what was sent, and whether it has returned. *)
Fixpoint flush (fuel : nat) (checked : list bool) (errors : list (option R)) (out : nat) (results : list (option R)) : outcome (nat * list (option R) * bool) :=
  match fuel with
  | O => NoFuel
  | S fuel =>
      match checked !! out, errors !! out with
      | Some true, Some e =>
          let results := results ++ [e] in
          if Nat.eqb out (n - 1) then Ok (out, results, true) else flush fuel checked errors (S out) results
      | Some false, _ => Ok (out, results, false)
      | _, _ => Panic PanicIndex
      end
  end.

(** One step of one of the goroutines; [abort]: the caller may close the channel. *)
Inductive vstep (abort : Prop) : vstate -> vstate -> Prop :=
| step_send e ws d errs i o c rs w :          (* inputs <- in *)
    (i < n)%nat -> ws !! w = Some Idle ->
    vstep abort (MkVState e ws d errs i o c rs false) (MkVState e (<[w := Busy i]> ws) d errs (S i) o c rs false)
| step_work e e' ws d errs i o c rs ret_ w k r :   (* errors[index] = verifyHeaderWorker(...) *)
    ws !! w = Some (Busy k) -> work k e = Ok (r, e') ->
    vstep abort (MkVState e ws d errs i o c rs ret_) (MkVState e' (<[w := Finished k]> ws) d (<[k := Some r]> errs) i o c rs ret_)
| step_done e ws d errs i o c rs ret_ w k :        (* done <- index *)
    ws !! w = Some (Finished k) -> (length d < length ws)%nat ->
    vstep abort (MkVState e ws d errs i o c rs ret_) (MkVState e (<[w := Idle]> ws) (d ++ [k]) errs i o c rs ret_)
| step_recv e ws k d errs i o c rs o' rs' ret_ :   (* index := <-done *)
    flush (S n) (<[k := true]> c) errs o rs = Ok (o', rs', ret_) ->
    vstep abort (MkVState e ws (k :: d) errs i o c rs false) (MkVState e ws d errs i o' (<[k := true]> c) rs' ret_)
| step_abort e ws d errs i o c rs :                (* <-abort *)
    abort -> vstep abort (MkVState e ws d errs i o c rs false) (MkVState e ws d errs i o c rs true).
End dispatch.
Arguments vstate : clear implicits.

(** ** Every schedule *)

Section schedules.
Context {Eng R : Type} (n : nat) (work : nat -> M Eng R) (I : Eng -> Prop) (V : nat -> R -> Prop) (abort : Prop).
Hypothesis work_ok : forall k e, (k < n)%nat -> I e -> exists r e', work k e = Ok (r, e') /\ I e' /\ V k r.

Definition w_index (w : worker) : option nat := match w with Idle => None | Busy k | Finished k => Some k end.
Definition held (ws : list worker) : list nat := omap w_index ws.
Definition done_set (c : list bool) : list nat := filter (fun k => c !! k = Some true) (seq 0 (length c)).

(** The result of an index is in the slice. *)
Definition written (errs : list (option R)) (k : nat) : Prop := exists r, errs !! k = Some (Some r) /\ V k r.

(** Every index handed out is at one place: with a worker, in the buffer, or checked;
    the results of those behind the workers are written; what was sent are the
    results of the first indices. *)
Record v_inv (s : vstate Eng R) : Prop := MkVInv {
  vi_engine : I (v_engine s);
  vi_errors : length (v_errors s) = n;
  vi_checked : length (v_checked s) = n;
  vi_in : (v_in s <= n)%nat;
  vi_places : held (v_workers s) ++ v_done s ++ done_set (v_checked s) ≡ₚ seq 0 (v_in s);
  vi_finished : forall w k, v_workers s !! w = Some (Finished k) -> written (v_errors s) k;
  vi_done : Forall (written (v_errors s)) (v_done s ++ done_set (v_checked s));
  vi_results : forall i x, v_results s !! i = Some x -> exists r, x = Some r /\ V i r;
  vi_out : forall i, (i < length (v_results s))%nat -> v_checked s !! i = Some true;
  vi_running : v_returned s = false -> length (v_results s) = v_out s /\ v_checked s !! v_out s = Some false;
  vi_returned : v_returned s = true -> abort \/ length (v_results s) = n;
}.

Lemma held_insert ws w x y : ws !! w = Some x -> option_list (w_index x) ++ held (<[w := y]> ws) ≡ₚ option_list (w_index y) ++ held ws.
Proof.
  intros E. unfold held. rewrite <- (take_drop_middle ws w x E) at 2. rewrite insert_take_drop by (by apply lookup_lt_Some in E).
  rewrite !omap_app. cbn [omap list_omap]. destruct (w_index x), (w_index y); cbn [option_list app]; try done; solve_Permutation.
Qed.
Lemma elem_of_done_set c k : k ∈ done_set c <-> c !! k = Some true.
Proof.
  unfold done_set. rewrite list_elem_of_filter, elem_of_seq. split; [tauto|]. intros E. split; [done|]. apply lookup_lt_Some in E. lia.
Qed.

Lemma NoDup_done_set c : NoDup (done_set c).
Proof. apply NoDup_filter, NoDup_seq. Qed.

Lemma done_set_insert c k : (k < length c)%nat -> k ∉ done_set c -> done_set (<[k := true]> c) ≡ₚ k :: done_set c.
Proof.
  intros Hk Hni. apply NoDup_Permutation; [apply NoDup_done_set|apply NoDup_cons; split; [done|apply NoDup_done_set]|].
  intros j. rewrite elem_of_cons, !elem_of_done_set. destruct (decide (j = k)) as [->|Hne].
  - rewrite list_lookup_insert_eq by done. tauto.
  - rewrite list_lookup_insert_ne by done. split; [by right|by intros [?|?]].
Qed.

Lemma written_insert errs k j r : (k < length errs)%nat -> V k r -> (j = k \/ written errs j) -> written (<[k := Some r]> errs) j.
Proof.
  intros Hk Hr Hj. destruct (decide (j = k)) as [->|Hne]; [exists r; by rewrite list_lookup_insert_eq|].
  destruct Hj as [?|(r' & E & Hr')]; [done|]. exists r'. by rewrite list_lookup_insert_ne.
Qed.

(** Forwarding results from [out] on. *)
Lemma flush_ok (c : list bool) (errs : list (option R)) : length c = n -> length errs = n -> (forall k, c !! k = Some true -> written errs k) ->
  forall fuel out rs, (out < n)%nat -> (n - out < fuel)%nat -> length rs = out ->
  (forall i x, rs !! i = Some x -> exists r, x = Some r /\ V i r) -> (forall i, (i < out)%nat -> c !! i = Some true) ->
  exists out' rs' ret_, flush n fuel c errs out rs = Ok (out', rs', ret_) /\
    (forall i x, rs' !! i = Some x -> exists r, x = Some r /\ V i r) /\ (forall i, (i < length rs')%nat -> c !! i = Some true) /\
    (if ret_ then length rs' = n else length rs' = out' /\ c !! out' = Some false).
Proof.
  intros Hc He Hw. induction fuel as [|fuel IH]; intros out rs Ho Hf Hl Hr Hch; [lia|]. cbn [flush].
  destruct (lookup_lt_is_Some_2 c out) as [b Eb]; [lia|]. rewrite Eb. destruct b.
  2:{ exists out, rs, false. split_and!; [done|done|by rewrite Hl|done|done]. }
  destruct (Hw out Eb) as (r & Er & Hv). rewrite Er.
  assert (forall i x, (rs ++ [Some r]) !! i = Some x -> exists r, x = Some r /\ V i r) as Hr'.
  { intros i x [E|[Hi E]]%lookup_app_Some; [by apply (Hr i)|]. destruct (i - length rs)%nat eqn:Ei; [|done]. injection E as <-. exists r. split; [done|].
    replace i with out by lia. done. }
  assert (forall i, (i < S out)%nat -> c !! i = Some true) as Hch' by (intros i Hi; destruct (decide (i = out)) as [->|]; [done|apply Hch; lia]).
  destruct (Nat.eqb_spec out (n - 1)) as [En|Hne].
  - exists out, (rs ++ [Some r]), true. rewrite length_app. cbn [length]. split_and!; [done|done|intros i Hi; apply Hch'; lia|lia].
  - apply IH; [lia|lia|rewrite length_app; cbn [length]; lia|done|done].
Qed.

Lemma v_inv_start e workers : I e -> (0 < n)%nat -> v_inv (v_start n e workers).
Proof.
  intros He Hn. assert (done_set (replicate n false) = []) as Ed.
  { apply elem_of_nil_inv. intros k Hk. apply elem_of_done_set, lookup_replicate_1 in Hk as [? _]. done. }
  split; cbn [v_start v_engine v_errors v_checked v_in v_workers v_done v_results v_returned v_out].
  - done.
  - apply length_replicate.
  - apply length_replicate.
  - lia.
  - rewrite Ed. unfold held. induction workers as [|w IH]; [done|]. cbn [replicate omap list_omap w_index]. exact IH.
  - intros w k [? _]%lookup_replicate_1. done.
  - rewrite Ed. apply Forall_nil_2.
  - intros i x E. by rewrite lookup_nil in E.
  - cbn [length]. lia.
  - intros _. split; [done|]. by apply lookup_replicate_2.
  - done.
Qed.
Lemma v_inv_recv e ws k d errs i o c rs o' rs' ret_ : v_inv (MkVState e ws (k :: d) errs i o c rs false) ->
  flush n (S n) (<[k := true]> c) errs o rs = Ok (o', rs', ret_) -> v_inv (MkVState e ws d errs i o' (<[k := true]> c) rs' ret_).
Proof.
  intros [He Hle Hlc Hin Hp Hf Hd Hr Ho Hrun Hret] Ef. cbn [v_engine v_errors v_checked v_in v_workers v_done v_results v_returned v_out] in *.
  destruct (Hrun eq_refl) as [Hlen Hout]. assert (k ∈ seq 0 i) as Hks by (rewrite <- Hp; apply elem_of_app; right; apply list_elem_of_here).
  apply elem_of_seq in Hks. assert (k ∉ done_set c) as Hkc.
  { assert (NoDup (held ws ++ (k :: d) ++ done_set c)) as Hnd by (rewrite Hp; apply NoDup_seq). apply NoDup_app in Hnd as (_ & _ & Hnd).
    apply NoDup_app in Hnd as (_ & Hnd & _). apply Hnd, list_elem_of_here. }
  assert (done_set (<[k := true]> c) ≡ₚ k :: done_set c) as Ec by (apply done_set_insert; [lia|done]).
  assert (Forall (written errs) (d ++ done_set (<[k := true]> c))) as Hd'.
  { rewrite Ec. rewrite <- Permutation_middle. exact Hd. }
  destruct (flush_ok (<[k := true]> c) errs) with (fuel := S n) (out := o) (rs := rs) as (o2 & rs2 & ret2 & E2 & Hr2 & Ho2 & Hend); try done.
  { by rewrite length_insert. }
  { intros j Hj. apply (proj1 (Forall_forall _ _) Hd'). apply elem_of_app. right. by apply elem_of_done_set. }
  { apply lookup_lt_Some in Hout. lia. }
  { lia. }
  { intros j Hj. destruct (decide (j = k)) as [->|]; [by rewrite list_lookup_insert_eq by lia|]. rewrite list_lookup_insert_ne by done. apply Ho. lia. }
  rewrite Ef in E2. injection E2 as -> -> ->.
  split; cbn [v_engine v_errors v_checked v_in v_workers v_done v_results v_returned v_out]; try done.
  + by rewrite length_insert.
  + rewrite <- Hp, Ec. solve_Permutation.
  + by intros ->.
  + intros ->. by right.
Qed.

Lemma v_inv_step s s' : v_inv s -> vstep n work abort s s' -> v_inv s'.
Proof.
  intros [He Hle Hlc Hin Hp Hf Hd Hr Ho Hrun Hret] Hs. destruct Hs as [e ws d errs i o c rs w Hi Hw|e e' ws d errs i o c rs ret_ w k r Hw Ew|e ws d errs i o c rs ret_ w k Hw Hl|
    e ws k d errs i o c rs o' rs' ret_ Ef|e ws d errs i o c rs Ha]; cbn [v_engine v_errors v_checked v_in v_workers v_done v_results v_returned v_out] in *.
  - split; cbn [v_engine v_errors v_checked v_in v_workers v_done v_results v_returned v_out]; try done.
    + pose proof (held_insert ws w Idle (Busy i) Hw) as Eh. cbn [w_index option_list app] in Eh. rewrite Eh, seq_S, <- Hp. solve_Permutation.
    + intros w' k' E. destruct (decide (w' = w)) as [->|]; [|by rewrite list_lookup_insert_ne in E; eauto].
      rewrite list_lookup_insert_eq in E by (by apply lookup_lt_Some in Hw). done.
  - assert (k < n)%nat as Hk.
    { assert (k ∈ seq 0 i) as Hks; [|apply elem_of_seq in Hks; lia]. rewrite <- Hp. apply elem_of_app. left. unfold held. apply list_elem_of_omap.
      exists (Busy k). split; [by eapply list_elem_of_lookup_2|done]. }
    destruct (work_ok k e Hk He) as (r' & e2 & E & He2 & Hv). assert (r' = r /\ e2 = e') as [-> ->] by (split; congruence).
    split; cbn [v_engine v_errors v_checked v_in v_workers v_done v_results v_returned v_out]; try done.
    + by rewrite length_insert.
    + pose proof (held_insert ws w (Busy k) (Finished k) Hw) as Eh. cbn [w_index option_list app] in Eh. apply Permutation_cons_inv in Eh. by rewrite Eh.
    + intros w' k' E'. apply written_insert; [lia|done|]. destruct (decide (w' = w)) as [->|].
      * rewrite list_lookup_insert_eq in E' by (by apply lookup_lt_Some in Hw). left. congruence.
      * rewrite list_lookup_insert_ne in E' by done. right. eauto.
    + eapply Forall_impl; [exact Hd|]. intros j Hj. apply written_insert; [lia|done|by right].
  - split; cbn [v_engine v_errors v_checked v_in v_workers v_done v_results v_returned v_out]; try done.
    + pose proof (held_insert ws w (Finished k) Idle Hw) as Eh. cbn [w_index option_list app] in Eh. rewrite <- Hp, <- Eh. solve_Permutation.
    + intros w' k' E. destruct (decide (w' = w)) as [->|]; [|by rewrite list_lookup_insert_ne in E; eauto].
      rewrite list_lookup_insert_eq in E by (by apply lookup_lt_Some in Hw). done.
    + apply Forall_app in Hd as [Hd1 Hd2]. apply Forall_app. split; [|done]. apply Forall_app. split; [done|]. apply Forall_cons_2; [by eapply Hf|apply Forall_nil_2].
  - by eapply v_inv_recv; [split|].
  - split; cbn [v_engine v_errors v_checked v_in v_workers v_done v_results v_returned v_out]; try done.
    intros _. by left.
Qed.

(** ** No schedule blocks, and every schedule ends *)

Definition w_cost (w : worker) : nat := match w with Idle => 0 | Busy _ => 3 | Finished _ => 2 end.
Definition v_measure (s : vstate Eng R) : nat :=
  4 * (n - v_in s) + sum_list_with w_cost (v_workers s) + length (v_done s) + (if v_returned s then 0 else 1).

Lemma cost_insert ws w x y : ws !! w = Some x -> (sum_list_with w_cost (<[w := y]> ws) + w_cost x = sum_list_with w_cost ws + w_cost y)%nat.
Proof.
  intros E. rewrite <- (take_drop_middle ws w x E) at 2. rewrite insert_take_drop by (by apply lookup_lt_Some in E).
  rewrite !sum_list_with_app. cbn [sum_list_with]. lia.
Qed.

Lemma v_measure_step s s' : vstep n work abort s s' -> (v_measure s' < v_measure s)%nat.
Proof.
  destruct 1 as [e ws d errs i o c rs w Hi Hw|e e' ws d errs i o c rs ret_ w k r Hw Ew|e ws d errs i o c rs ret_ w k Hw Hl|
    e ws k d errs i o c rs o' rs' ret_ Ef|e ws d errs i o c rs Ha]; unfold v_measure; cbn [v_in v_workers v_done v_returned].
  - pose proof (cost_insert ws w Idle (Busy i) Hw) as E. cbn [w_cost] in E. lia.
  - pose proof (cost_insert ws w (Busy k) (Finished k) Hw) as E. cbn [w_cost] in E. lia.
  - pose proof (cost_insert ws w (Finished k) Idle Hw) as E. cbn [w_cost] in E. rewrite length_app. cbn [length]. lia.
  - cbn [length]. destruct ret_; lia.
  - lia.
Qed.

(** All indices are checked: nothing is left at the workers or in the buffer. *)
Lemma v_inv_all s : v_inv s -> length (v_results s) = n -> held (v_workers s) = [] /\ v_done s = [].
Proof.
  intros [_ _ Hlc Hin Hp _ _ _ Ho _ _] Hl. assert (length (done_set (v_checked s)) = n) as Hn.
  { assert (done_set (v_checked s) ≡ₚ seq 0 n) as ->; [|apply length_seq]. apply NoDup_Permutation; [apply NoDup_done_set|apply NoDup_seq|].
    intros k. rewrite elem_of_done_set, elem_of_seq. split; [intros E; apply lookup_lt_Some in E; lia|]. intros Hk. apply Ho. lia. }
  apply Permutation_length in Hp. rewrite !length_app, length_seq in Hp.
  destruct (held (v_workers s)), (v_done s); cbn [length] in Hp; try lia. done.
Qed.

Lemma v_progress s : v_inv s -> (0 < length (v_workers s))%nat -> v_returned s = false -> exists s', vstep n work abort s s'.
Proof.
  intros Hi Hw Hret. pose proof Hi as [He Hle Hlc Hin Hp _ _ Hr Ho Hrun _]. destruct s as [e ws d errs i o c rs ret_].
  cbn [v_engine v_errors v_checked v_in v_workers v_done v_results v_returned v_out] in *. subst ret_.
  destruct d as [|k d].
  2:{ destruct (Hrun eq_refl) as [Hlen Hout]. assert (k ∈ seq 0 i) as Hks by (rewrite <- Hp; apply elem_of_app; right; apply list_elem_of_here).
      apply elem_of_seq in Hks. destruct (flush_ok (<[k := true]> c) errs) with (fuel := S n) (out := o) (rs := rs) as (o2 & rs2 & ret2 & E2 & _); try done; try lia.
      - by rewrite length_insert.
      - pose proof (vi_done _ Hi) as Hd. cbn [v_done v_checked v_errors] in Hd. apply Forall_cons in Hd as [Hk Hd]. apply Forall_app in Hd as [_ Hd].
        intros j. destruct (decide (j = k)) as [->|Hne]; [done|]. rewrite list_lookup_insert_ne by done. intros Hj.
        apply (proj1 (Forall_forall _ _) Hd). by apply elem_of_done_set.
      - apply lookup_lt_Some in Hout. lia.
      - intros j Hj. destruct (decide (j = k)) as [->|]; [by rewrite list_lookup_insert_eq by lia|]. rewrite list_lookup_insert_ne by done. apply Ho. lia.
      - eexists. by eapply step_recv. }
  destruct (held ws) as [|k l] eqn:Eh.
  - destruct (lookup_lt_is_Some_2 ws 0 Hw) as [x Ex]. assert (x = Idle) as ->.
    { destruct x as [|k|k]; [done|exfalso..]; (assert (k ∈ held ws) as Hk; [|rewrite Eh in Hk; by apply elem_of_nil in Hk]);
        apply list_elem_of_omap; eexists; (split; [by eapply list_elem_of_lookup_2|done]). }
    destruct (decide (i < n)%nat) as [Hlt|Hge]; [eexists; by eapply step_send|]. destruct (Hrun eq_refl) as [_ Hout].
    assert (o ∈ done_set c) as Hoc; [|apply elem_of_done_set in Hoc; congruence]. cbn [app] in Hp. rewrite Hp. apply elem_of_seq. apply lookup_lt_Some in Hout. lia.
  - assert (k ∈ held ws) as Hk by (rewrite Eh; apply list_elem_of_here). apply list_elem_of_omap in Hk as (x & Hx & Ex). apply list_elem_of_lookup in Hx as [w Ew].
    assert (k < n)%nat as Hkn.
    { assert (k ∈ seq 0 i) as Hks by (rewrite <- Hp; apply list_elem_of_here). apply elem_of_seq in Hks. lia. }
    destruct x as [|k'|k']; cbn [w_index] in Ex; [done|injection Ex as ->..].
    + destruct (work_ok k e Hkn He) as (r & e' & E & _). eexists. by eapply step_work.
    + eexists. eapply step_done; [done|]. cbn [length]. done.
Qed.
Lemma v_workers_step s s' : vstep n work abort s s' -> length (v_workers s') = length (v_workers s).
Proof. destruct 1; cbn [v_workers]; by rewrite ?length_insert. Qed.

(** A run from the start. *)
Lemma v_run e workers k s : I e -> (0 < n)%nat -> (0 < workers)%nat -> nsteps (vstep n work abort) k (v_start n e workers) s ->
  v_inv s /\ length (v_workers s) = workers /\ (k + v_measure s <= 4 * n + 1)%nat.
Proof.
  intros He Hn Hw Hs. assert (forall s0, v_inv s0 /\ length (v_workers s0) = workers -> nsteps (vstep n work abort) k s0 s ->
    v_inv s /\ length (v_workers s) = workers /\ (k + v_measure s <= v_measure s0)%nat) as Hgen.
  { clear Hs. intros s0 Hi Hs. induction Hs as [s0|k s0 s1 s2 H1 _ IH]; [by destruct Hi|]. destruct Hi as [Hi Hl].
    pose proof (v_measure_step _ _ H1). destruct IH as (H2 & H3 & H4); [split; [by eapply v_inv_step|by rewrite (v_workers_step _ _ H1)]|]. split_and!; [done|done|lia]. }
  destruct (Hgen (v_start n e workers)) as (H1 & H2 & H3); [split; [by apply v_inv_start|apply length_replicate]|done|]. split_and!; [done|done|].
  assert (v_measure (v_start n e workers) = (4 * n + 1)%nat) as Em; [|lia]. unfold v_measure, v_start. cbn [v_in v_workers v_done v_returned length].
  assert (sum_list_with w_cost (replicate workers Idle) = 0%nat) as -> by (clear; induction workers as [|w IH]; [done|exact IH]). lia.
Qed.
End schedules.

(** ** A blocked worker

    The buffer has room for one index for each worker, but a worker that has sent one
    can be handed another.  When the caller aborts at that time nobody receives any
    more, and the worker waits for ever. *)
Lemma abort_blocks_worker {Eng R : Type} (work : nat -> M Eng R) (e0 e1 e2 : Eng) (r0 r1 : R) :
  work 0%nat e0 = Ok (r0, e1) -> work 1%nat e1 = Ok (r1, e2) ->
  exists s, rtc (vstep 2 work True) (v_start 2 e0 1) s /\ v_workers s = [Finished 1] /\ forall s', ~ vstep 2 work True s s'.
Proof.
  intros E0 E1. exists (MkVState e2 [Finished 1] [0%nat] [Some r0; Some r1] 2 0 [false; false] [] true). split_and!; [|done|].
  - eapply rtc_l; [apply (step_send 2 work True e0 [Idle] [] [None; None] 0 0 [false; false] [] 0); [lia|done]|].
    eapply rtc_l; [apply (step_work 2 work True e0 e1 [Busy 0] [] [None; None] 1 0 [false; false] [] false 0 0 r0); done|].
    eapply rtc_l; [apply (step_done 2 work True e1 [Finished 0] [] [Some r0; None] 1 0 [false; false] [] false 0 0); [done|cbn; lia]|].
    eapply rtc_l; [apply (step_send 2 work True e1 [Idle] [0%nat] [Some r0; None] 1 0 [false; false] [] 0); [lia|done]|].
    eapply rtc_l; [apply (step_work 2 work True e1 e2 [Busy 1] [0%nat] [Some r0; None] 2 0 [false; false] [] false 0 1 r1); done|].
    eapply rtc_l; [apply (step_abort 2 work True e2 [Finished 1] [0%nat] [Some r0; Some r1] 2 0 [false; false] []); done|]. apply rtc_refl.
  - intros s' H. inversion H as [|? ? ? ? ? ? ? ? ? ? w k r Hw|? ? ? ? ? ? ? ? ? w k Hw Hl| |]; subst.
    + by destruct w as [|[|w]].
    + cbn in Hl. lia.
Qed.

(** ** One header *)

Section headers.
Context {K : Keccak} {K5 : Keccak512} {L : Type -> Type} {LR : SimpleLRU L} {CR : ChainReader}.

Definition verifyHeaderWorker (v : env) (headers : list Header) (seals : list bool) (index : nat) : M (Ethash (L := L)) (option engine_error) :=
  header <~ lift_opt PanicIndex (headers !! index) ;;
  parent <~ match index with
            | O => number <~ lift_out (deref (h_Number header)) ;; ret (GetHeader (h_ParentHash header) (Uint64 number -u 1))
            | S i =>
                prev <~ lift_opt PanicIndex (headers !! i) ;;
                ret (if Header_Hash prev =? h_ParentHash header then Some prev else None)
            end ;;
  match parent with
  | None => ret (Some ErrUnknownAncestor)
  | Some parent =>
      number <~ lift_out (deref (h_Number header)) ;;
      match GetHeader (Header_Hash header) (Uint64 number) with
      | Some _ => ret None
      | None => seal <~ lift_opt PanicIndex (seals !! index) ;; verifyHeader v header parent false seal
      end
  end.
End headers.

(** ** All headers *)

Section all.
Context {K : Keccak} {K5 : Keccak512} {L : Type -> Type} {LR : SimpleLRU L} {LL : SimpleLRULaws L} {CR : ChainReader} {CL : ChainReaderLaws CR}.

(** [VerifyHeaders]: the results at once, or the goroutines; [procs] is
    [runtime.GOMAXPROCS(0)]. *)
Definition VerifyHeaders (procs : nat) (headers : list Header) (ethash : Ethash (L := L)) : list (option engine_error) + vstate (Ethash (L := L)) (option engine_error) :=
  if bool_decide (e_PowMode ethash = ModeFullFake) || Nat.eqb (length headers) 0 then inl (replicate (length headers) None)
  else
    let workers := if Nat.ltb (length headers) procs then length headers else procs in
    inr (v_start (length headers) ethash workers).

(** The parent of a header of the batch. *)
Definition batch_parent (headers : list Header) (i : nat) (header : Header) (n : Z) : option Header :=
  match i with
  | O => GetHeader (h_ParentHash header) (n -u 1)
  | S j => p ← headers !! j; if Header_Hash p =? h_ParentHash header then Some p else None
  end.

(** The result [r] is the right one for the header at [i]. *)
Definition header_result (v : env) (c : Mode * Z) (headers : list Header) (seals : list bool) (i : nat) (r : option engine_error) : Prop :=
  exists header n seal, headers !! i = Some header /\ h_Number header = Some n /\ seals !! i = Some seal /\
    match batch_parent headers i header n with
    | None => r = Some ErrUnknownAncestor
    | Some parent => r = None <-> is_Some (GetHeader (Header_Hash header) n) \/ header_valid v c header parent false seal
    end.

Lemma verifyHeaderWorker_ok v c headers seals i e :
  0 <= now v < 2 ^ 63 -> Forall (fun h => header_ok h /\ number_ok h /\ h_GasLimit h < 2 ^ 63) headers -> length seals = length headers -> (i < length headers)%nat ->
  engine_ok e /\ checker e = c ->
  exists r e', verifyHeaderWorker v headers seals i e = Ok (r, e') /\ (engine_ok e' /\ checker e' = c) /\ header_result v c headers seals i r.
Proof.
  intros Hnow Hh Hs Hi [He Ec]. destruct (lookup_lt_is_Some_2 headers i Hi) as [header Eh]. destruct (lookup_lt_is_Some_2 seals i) as [seal Es]; [lia|].
  destruct (proj1 (Forall_lookup _ _) Hh i header Eh) as (Hho & Hn & Hg). destruct (ok_Number _ Hho) as (n & En & Hn0).
  destruct (Uint64_number header n En Hn) as [EU _].
  assert (exists parent, (match i with O => number <~ lift_out (deref (h_Number header)) ;; ret (GetHeader (h_ParentHash header) (Uint64 number -u 1))
    | S i => prev <~ lift_opt PanicIndex (headers !! i) ;; ret (if Header_Hash prev =? h_ParentHash header then Some prev else None) end) e = Ok (parent, e) /\
    batch_parent headers i header n = parent /\ forall p, parent = Some p -> header_ok p /\ h_GasLimit p < 2 ^ 63) as (parent & Ep & Eb & Hp).
  { destruct i as [|i].
    - unfold bind, lift_out, ret. rewrite En. cbn [deref of_option]. cbv beta iota. rewrite EU. eexists. split_and!; [done|done|]. intros p E. by destruct (GetHeader_ok _ _ _ E) as (_ & _ & ? & ?).
    - destruct (lookup_lt_is_Some_2 headers i) as [prev Ev]; [lia|]. rewrite Ev. unfold bind, lift_opt, ret. eexists. split_and!; [done| |].
      + cbn [batch_parent]. by rewrite Ev.
      + intros p E. destruct (_ =? _); [|done]. injection E as <-. destruct (proj1 (Forall_lookup _ _) Hh i prev Ev) as (? & _ & ?). done. }
  unfold verifyHeaderWorker. rewrite Eh. unfold lift_opt at 1. unfold bind at 1, ret at 1. unfold bind at 1. rewrite Ep.
  destruct parent as [p|].
  2:{ exists (Some ErrUnknownAncestor), e. split_and!; [done|done|done|]. exists header, n, seal. rewrite Eb. done. }
  unfold bind at 1, lift_out at 1. rewrite En. cbn [deref of_option]. cbv beta iota. rewrite EU. destruct (GetHeader (Header_Hash header) n) as [known|] eqn:Ek.
  { exists None, e. split_and!; [done|done|done|]. exists header, n, seal. rewrite Eb, Ek. split_and!; try done. split; [by left; eexists|done]. }
  rewrite Es. unfold bind, lift_opt, ret. destruct (Hp p eq_refl) as [Hpo Hpg].
  destruct (verifyHeader_ok v header p false seal e Hho Hpo Hpg Hnow Hn He) as (r & e' & -> & He' & Ec' & _ & Hr & _).
  exists r, e'. rewrite Ec in *. split_and!; [done|done|done|]. exists header, n, seal. rewrite Eb, Ek. split_and!; try done. rewrite Hr. split; [by right|].
  intros [[? ?]|?]; done.
Qed.

(** C24: verifying a batch of headers.  Under every schedule of the dispatcher and the
    workers, what is sent are the results of the first headers, in their order, and
    each is the right one; the goroutines can always go on until the dispatcher has
    returned; they make at most four steps for each header and one more; and when the
    dispatcher returns, all results are sent and no worker holds an index. *)
Theorem VerifyHeaders_correct (v : env) (procs : nat) (headers : list Header) (seals : list bool) (e : Ethash (L := L)) (s0 : vstate (Ethash (L := L)) (option engine_error)) (k : nat)
    (s : vstate (Ethash (L := L)) (option engine_error)) :
  0 <= now v < 2 ^ 63 -> engine_ok e -> (0 < procs)%nat ->
  Forall (fun h => header_ok h /\ number_ok h /\ h_GasLimit h < 2 ^ 63) headers -> length seals = length headers ->
  VerifyHeaders procs headers e = inr s0 -> let step := vstep (length headers) (verifyHeaderWorker v headers seals) False in
  nsteps step k s0 s ->
  (forall i x, v_results s !! i = Some x -> exists r, x = Some r /\ header_result v (checker e) headers seals i r) /\
  (v_returned s = false -> exists s', step s s') /\ (k <= 4 * length headers + 1)%nat /\
  (v_returned s = true -> length (v_results s) = length headers /\ held (v_workers s) = [] /\ v_done s = []).
Proof.
  intros Hnow He Hprocs Hh Hs E0 step Hk. unfold VerifyHeaders in E0. destruct (bool_decide _ || _) eqn:Ei; [done|]. injection E0 as <-.
  apply orb_false_iff in Ei as [_ Hne%Nat.eqb_neq]. set (workers := if Nat.ltb _ _ then _ else _) in Hk.
  assert (0 < workers)%nat as Hw by (unfold workers; destruct (Nat.ltb_spec (length headers) procs); lia).
  destruct (v_run (length headers) (verifyHeaderWorker v headers seals) (fun e' => engine_ok e' /\ checker e' = checker e) (header_result v (checker e) headers seals) False)
    with (e := e) (workers := workers) (k := k) (s := s) as (Hi & Hl & Hm); [|done|lia|done|done|].
  { intros i e' Hi He'. by apply verifyHeaderWorker_ok. }
  split_and!; [apply Hi| |lia|].
  - intros Hr. eapply v_progress; [|exact Hi|lia|done]. intros i e' Hi' He'. by apply verifyHeaderWorker_ok.
  - intros Hr. destruct (vi_returned _ _ _ _ _ Hi Hr) as [[]|Hlen]. split; [done|]. by eapply v_inv_all.
Qed.
End all.
