(* ===== verification/EthashExample.v ===== *)
(** * A short chain

    The theorems on the ethash engine at a chain of two blocks, a third block on top
    of them, and an uncle of it. *)

From Stdlib Require Import ZArith Lia.
From stdpp Require Import gmap.
From S2P Require Import Prelude Common Params Rlp Crypto VmState VmSpec Trie StackTrie Types Transaction Receipt Block EthashSizes EthashAlgo EthashCache Engine Ethash EthashUncles EthashHeaders.

(** A checksum of 40 bits stands for the hash. *)
#[local] Instance Keccak_sum : Keccak := {| Keccak256Hash b := fold_left (fun acc x => Z.land (acc * 31 + x) (2 ^ 40 - 1)) b 1 |}.

(** ** Instances of the classes *)

Definition alist (A : Type) : Type := list (Z * A).
Fixpoint alist_get {A} (l : alist A) (k : Z) : option A :=
  match l with [] => None | (k', a) :: l => if k' =? k then Some a else alist_get l k end.

#[export] Instance alist_lru : SimpleLRU alist := {| lru_Get A l k := (alist_get l k, l); lru_Add A l k a := (k, a) :: l |}.
#[export] Instance alist_lru_laws : SimpleLRULaws alist.
Proof.
  split; [done|]. intros A l k w k' v H. unfold lru_holds in *. cbn [lru_Get lru_Add alist_lru fst alist_get] in *.
  destruct (Z.eqb_spec k k') as [<-|]; [left; split; [done|]; congruence|by right].
Qed.

#[export] Instance gset_mapset : MapSet := {| mapset := gset Z; NewSet := ∅; set_Add s x := {[ x ]} ∪ s; set_Contains s x := bool_decide (x ∈ s) |}.
#[export] Instance gset_mapset_laws : MapSetLaws gset_mapset.
Proof.
  split.
  - intros x. apply bool_decide_eq_false_2, not_elem_of_empty.
  - intros s x y. cbn [set_Contains set_Add gset_mapset]. destruct (Z.eqb_spec x y) as [->|Hne]; cbn [orb]; [apply bool_decide_eq_true_2; set_solver|].
    apply bool_decide_ext. set_solver.
Qed.

(** ** The chain *)

Definition ex_config : ChainConfig :=
  Build_ChainConfig (Some 18) None None false None 0 None None None None None None None None None true None.

Definition ex_hdr parent coinbase number difficulty time : Header :=
  MkHeader parent 2 coinbase 4 5 6 (zeros 256) (Some difficulty) (Some number) 5000000 21000 time [76; 84] 8 (EncodeNonce 42).

Definition hG : Header := ex_hdr 1 3 5 131072 1000.
Definition hashG : Hash := Eval vm_compute in Header_Hash hG.
Definition hP : Header := ex_hdr hashG 3 6 131136 1005.
Definition hashP : Hash := Eval vm_compute in Header_Hash hP.
Definition hU : Header := ex_hdr hashG 9 6 131136 1006.
Definition hashU : Hash := Eval vm_compute in Header_Hash hU.
Definition hB : Header := ex_hdr hashP 3 7 131200 1012.
Definition hashB : Hash := Eval vm_compute in Header_Hash hB.
Definition bB : Block := MkBlock hB [hU] [].

Lemma chain_hashes : Header_Hash hG = hashG /\ Header_Hash hP = hashP /\ Header_Hash hU = hashU /\ Header_Hash hB = hashB.
Proof. split_and!; vm_compute; reflexivity. Qed.

Ltac ex_range := split; [discriminate|reflexivity].
Ltac ex_header_ok := split; [ex_range|ex_range|ex_range|ex_range|ex_range|ex_range
  |split; [apply Forall_replicate; ex_range|reflexivity]|eexists; split; [reflexivity|discriminate]|eexists; split; [reflexivity|discriminate]
  |ex_range|ex_range|ex_range|repeat (apply Forall_cons_2; [ex_range|]); apply Forall_nil_2|ex_range
  |split; [apply be_bytes_is_byte|reflexivity]|vm_compute; discriminate].

Lemma hG_ok : header_ok hG.
Proof. ex_header_ok. Qed.
Lemma hP_ok : header_ok hP.
Proof. ex_header_ok. Qed.
Lemma hU_ok : header_ok hU.
Proof. ex_header_ok. Qed.
Lemma hB_ok : header_ok hB.
Proof. ex_header_ok. Qed.

#[local] Instance ex_chain : ChainReader := {|
  Config := ex_config;
  GetHeader h n := if (h =? hashP) && (n =? 6) then Some hP else if (h =? hashG) && (n =? 5) then Some hG else None;
  GetHeaderByNumber n := if n =? 6 then Some hP else if n =? 5 then Some hG else None;
  GetBlock h n := if (h =? hashP) && (n =? 6) then Some (MkBlock hP [] []) else if (h =? hashG) && (n =? 5) then Some (MkBlock hG [] []) else None;
|}.

#[local] Instance ex_chain_laws : ChainReaderLaws ex_chain.
Proof.
  destruct chain_hashes as (EG & EP & _ & _). split.
  - intros h n x. cbn [GetHeader ex_chain]. destruct ((h =? hashP) && (n =? 6)) eqn:E1; [|destruct ((h =? hashG) && (n =? 5)) eqn:E2; [|discriminate]].
    + apply andb_true_iff in E1 as [->%Z.eqb_eq ->%Z.eqb_eq]. intros [= <-]. split_and!; [exact EP|reflexivity|exact hP_ok|reflexivity].
    + apply andb_true_iff in E2 as [->%Z.eqb_eq ->%Z.eqb_eq]. intros [= <-]. split_and!; [exact EG|reflexivity|exact hG_ok|reflexivity].
  - intros n x. cbn [GetHeaderByNumber ex_chain]. destruct (Z.eqb_spec n 6) as [->|]; [intros [= <-]; split; [reflexivity|exact hP_ok]|].
    destruct (Z.eqb_spec n 5) as [->|]; [intros [= <-]; split; [reflexivity|exact hG_ok]|discriminate].
  - intros h n x. cbn [GetBlock ex_chain]. destruct ((h =? hashP) && (n =? 6)) eqn:E1; [|destruct ((h =? hashG) && (n =? 5)) eqn:E2; [|discriminate]].
    + apply andb_true_iff in E1 as [->%Z.eqb_eq ->%Z.eqb_eq]. intros [= <-]. split_and!; [exact EP|reflexivity|exact hP_ok|reflexivity|reflexivity].
    + apply andb_true_iff in E2 as [->%Z.eqb_eq ->%Z.eqb_eq]. intros [= <-]. split_and!; [exact EG|reflexivity|exact hG_ok|reflexivity|reflexivity].
Qed.

(** ** The theorems at the chain *)

Lemma CalcDifficulty_correct_witness :
  exists d', CalcDifficulty ex_config 1005 hG = Ok d' /\ d' = difficulty_formula ex_config 6 1005 131072 hG /\ MinimumDifficulty <= d' /\
    (6 < bomb_delay ex_config 6 + 200000 -> 131072 - 99 * (131072 / 2048) <= d' <= Z.max MinimumDifficulty (131072 + 2 * (131072 / 2048))).
Proof. apply (CalcDifficulty_correct ex_config 1005 hG 131072 5); reflexivity || discriminate. Defined.

Definition ex_env : env := MkEnv 0 2000 (fun _ => seqZ 0 512) (fun _ => false) (fun _ => true).
Definition ex_lru : lru (L := alist) (A := Z) := MkLru [] 0 None.
Definition ex_engine (m : Mode) : Ethash (L := alist) := MkEthash m ex_lru ex_lru None 100.

Lemma ex_lru_ok : lru_ok (fun epoch => epoch) ex_lru.
Proof. split; [intros k v H; discriminate H|intros H; discriminate H]. Qed.

Lemma ex_engine_ok m : engine_ok (ex_engine m).
Proof. split_and!; [exact ex_lru_ok|exact ex_lru_ok|exact I]. Qed.

Lemma ex_number header n : h_Number header = Some n -> 0 <= n < 100 -> number_ok header.
Proof. intros E Hn. exists n. split; [exact E|]. unfold maxEpoch, epochLength. lia. Qed.


Lemma ex_ready : dataset_ready ex_env ModeTest hB.
Proof.
  exists 7, 32768, 1. split_and!; try reflexivity; try discriminate. unfold dataset_order. reflexivity.
Qed.


(** The ancestors of the block. *)
Lemma ex_ancestors : ancestors_of bB = [MkBlock hP [] []; MkBlock hG [] []].
Proof. reflexivity. Qed.

Lemma ex_block_hashes : map Block_Hash (bB :: ancestors_of bB) = [hashB; hashP; hashG].
Proof. destruct chain_hashes as (EG & EP & _ & EB). rewrite ex_ancestors. cbn [map]. unfold Block_Hash. cbn [b_header bB]. by rewrite EG, EP, EB. Qed.

Lemma VerifyUncles_correct_witness :
  exists r e', VerifyUncles ex_env bB (ex_engine ModeFake) = Ok (r, e') /\ engine_ok e' /\
    (r = None <-> ModeFake = ModeFullFake \/ uncles_valid ex_env (ModeFake, 100) bB).
Proof.
  apply (VerifyUncles_correct ex_env bB (ex_engine ModeFake)).
  - split; [discriminate|reflexivity].
  - exact (ex_engine_ok ModeFake).
  - exact hB_ok.
  - reflexivity.
  - apply Forall_cons_2; [exact hU_ok|apply Forall_nil_2].
  - apply Forall_cons_2; [apply (ex_number _ 6); [reflexivity|lia]|apply Forall_nil_2].
  - rewrite ex_block_hashes. apply (bool_decide_unpack (NoDup [hashB; hashP; hashG])). vm_compute. exact I.
Defined.

Lemma ex_uncles_valid : uncles_valid ex_env (ModeFake, 100) bB.
Proof.
  destruct chain_hashes as (EG & EP & EU & EB). split_and!.
  - discriminate.
  - cbn [map b_uncles bB]. apply NoDup_singleton.
  - apply Forall_cons_2; [|apply Forall_nil_2]. split.
    + intros a u'. rewrite ex_ancestors. intros [->|[->|[]%elem_of_nil]%elem_of_cons]%elem_of_cons []%elem_of_nil.
    + intros a Ha E. assert (hashU ∈ [hashB; hashP; hashG]) as Hin.
      { rewrite <- ex_block_hashes, <- EU, <- E. apply list_elem_of_In, in_map, list_elem_of_In, Ha. }
      revert Hin. apply (bool_decide_unpack (hashU ∉ [hashB; hashP; hashG])). vm_compute. exact I.
    + exists (MkBlock hG [] []). split_and!; [rewrite ex_ancestors; do 2 apply list_elem_of_further; apply list_elem_of_here|exact EG|discriminate|].
      split.
      * discriminate.
      * discriminate.
      * reflexivity.
      * exists 131072, 5. split_and!; reflexivity.
      * reflexivity.
      * discriminate.
      * split; [reflexivity|discriminate].
      * exists 5. split; reflexivity.
      * intros _. exists 6. split; [reflexivity|discriminate].
      * intros fork n E. discriminate E.
      * discriminate.
Qed.

Definition ex_view : View := MkView (fun _ => false) (fun _ => 0) (fun _ => 0) (fun _ => []) (fun _ => 0) (fun _ _ => 0) (fun _ _ => 0) (fun _ => false) 0 [].
Definition ex_state : DB := MkRefdb ex_view [] 0 : @DB StateDB_ref.

Lemma ex_state_ok : db_ok ex_state /\ ether (view ex_state) 0.
Proof.
  split.
  - split; cbn; [split; intros; done|constructor|apply Forall_nil_2].
  - split; [done|]. exists []. split_and!; [apply NoDup_nil_2|done|done].
Qed.


Lemma VerifyHeaders_correct_witness :
  exists s, nsteps (vstep 2 (verifyHeaderWorker ex_env [hP; hB] [true; true]) False) 1 (v_start 2 (ex_engine ModeFake) 2) s /\ exists s', vstep 2 (verifyHeaderWorker ex_env [hP; hB] [true; true]) False s s'.
Proof.
  exists (MkVState (ex_engine ModeFake) [Busy 0; Idle] [] [None; None] 1 0 [false; false] [] false).
  assert (nsteps (vstep 2 (verifyHeaderWorker ex_env [hP; hB] [true; true]) False) 1 (v_start 2 (ex_engine ModeFake) 2)
    (MkVState (ex_engine ModeFake) [Busy 0; Idle] [] [None; None] 1 0 [false; false] [] false)) as Hs.
  { apply nsteps_once. apply (step_send 2 _ False (ex_engine ModeFake) [Idle; Idle] [] [None; None] 0 0 [false; false] [] 0); [lia|reflexivity]. }
  split; [exact Hs|].
  apply (VerifyHeaders_correct ex_env 4 [hP; hB] [true; true] (ex_engine ModeFake) (v_start 2 (ex_engine ModeFake) 2) 1
    (MkVState (ex_engine ModeFake) [Busy 0; Idle] [] [None; None] 1 0 [false; false] [] false)).
  - split; [discriminate|reflexivity].
  - exact (ex_engine_ok ModeFake).
  - lia.
  - apply Forall_cons_2; [split_and!; [exact hP_ok|apply (ex_number _ 6); [reflexivity|lia]|reflexivity]|].
    apply Forall_cons_2; [split_and!; [exact hB_ok|apply (ex_number _ 7); [reflexivity|lia]|reflexivity]|apply Forall_nil_2].
  - reflexivity.
  - reflexivity.
  - exact Hs.
  - reflexivity.
Defined.
