(* ===== verification/CliqueVotes.v ===== *)
(** * The votes of the clique engine

    Well-formed snapshots: the tallies count the votes, every vote is of a signer and
    would change the signers, nobody votes twice on an account.  The abstract vote:
    the signers and the pairs of voter and account.  A header that is applied keeps
    the snapshot well-formed and changes it as the abstract vote does. *)

From Stdlib Require Import ZArith Lia.
From stdpp Require Import gmap sorting.
From S2P Require Import Prelude Common Params Rlp Crypto Types Transaction Receipt Block EthashAlgo EthashCache Engine Clique.

Open Scope go_scope.

(** ** Counting *)

Definition count (votes : list Vote) (a : Address) : Z := Z.of_nat (length (filter (fun v => vote_Address v = a) votes)).
Definition vote_key (v : Vote) : Z * Z := (vote_Signer v, vote_Address v).

(** What a vote on an account must be to change the signers. *)
Definition flag (S : gset Z) (a : Address) : bool := negb (bool_decide (a ∈ S)).

(** The tallies of the counts [c]. *)
Definition tallied (S : gset Z) (c : Address -> Z) (t : gmap Z Tally) : Prop :=
  forall a, 0 <= c a /\ t !! a = if c a =? 0 then None else Some (MkTally (flag S a) (c a)).

Definition bump (c : Address -> Z) (x : Address) (d : Z) (a : Address) : Z := if a =? x then c a + d else c a.

Lemma count_nil a : count [] a = 0.
Proof. done. Qed.
Lemma count_cons v votes a : count (v :: votes) a = bump (count votes) (vote_Address v) 1 a.
Proof.
  unfold count, bump. destruct (decide (vote_Address v = a)) as [E|E], (Z.eqb_spec a (vote_Address v)) as [E'|E']; try congruence.
  - rewrite filter_cons_True by done. cbn [length]. lia.
  - by rewrite filter_cons_False.
Qed.
Lemma count_nonneg votes a : 0 <= count votes a.
Proof. unfold count. lia. Qed.
Lemma count_app l1 l2 a : count (l1 ++ l2) a = count l1 a + count l2 a.
Proof. unfold count. rewrite filter_app, length_app. lia. Qed.
Lemma count_elem v votes : v ∈ votes -> 1 <= count votes (vote_Address v).
Proof.
  intros Hv. unfold count. destruct (filter _ votes) as [|w l] eqn:E; [|cbn [length]; lia]. exfalso.
  assert (v ∈ filter (fun w => vote_Address w = vote_Address v) votes) as Hin by (by apply list_elem_of_filter). rewrite E in Hin. by apply elem_of_nil in Hin.
Qed.

Lemma tallied_ext S c c' t : (forall a, c a = c' a) -> tallied S c t -> tallied S c' t.
Proof. intros E H a. rewrite <- E. apply H. Qed.

Lemma uncast_tallied S c t x : tallied S c t -> 1 <= c x -> tallied S (bump c x (-1)) (snd (uncast t x (flag S x))).
Proof.
  intros H Hx a. pose proof (H a) as [Ha Ea]. pose proof (H x) as [_ Ex]. unfold uncast, bump. rewrite Ex.
  destruct (Z.eqb_spec (c x) 0); [lia|]. cbn [tally_Authorize tally_Votes]. rewrite bool_decide_eq_true_2 by done. cbn [negb].
  destruct (Z.ltb_spec 1 (c x)) as [H1|H1]; cbn [snd]; (destruct (Z.eqb_spec a x) as [->|Hne]; (split; [lia|])).
  - rewrite lookup_insert_eq. destruct (Z.eqb_spec (c x + -1) 0); [lia|]. by replace (c x - 1) with (c x + -1) by lia.
  - by rewrite lookup_insert_ne.
  - rewrite lookup_delete_eq. destruct (Z.eqb_spec (c x + -1) 0); [done|lia].
  - by rewrite lookup_delete_ne.
Qed.

Lemma validVote_flag S a b : validVote S a b = bool_decide (b = flag S a).
Proof. unfold validVote, flag. by destruct (bool_decide (a ∈ S)), b. Qed.

Lemma cast_tallied S c t x b : tallied S c t ->
  cast S t x b = (bool_decide (b = flag S x), snd (cast S t x b)) /\
  tallied S (if bool_decide (b = flag S x) then bump c x 1 else c) (snd (cast S t x b)).
Proof.
  intros H. unfold cast. rewrite validVote_flag. destruct (bool_decide_reflect (b = flag S x)) as [->|Hb]; cbn [negb]; [|done].
  pose proof (H x) as [Hx Ex]. rewrite Ex. destruct (Z.eqb_spec (c x) 0) as [E0|E0]; cbn [snd tally_Authorize tally_Votes]; (split; [done|]);
    intros a; pose proof (H a) as [Ha Ea]; unfold bump; (destruct (Z.eqb_spec a x) as [->|Hne]; (split; [lia|]));
    [rewrite lookup_insert_eq|by rewrite lookup_insert_ne|rewrite lookup_insert_eq|by rewrite lookup_insert_ne];
    (destruct (Z.eqb_spec (c x + 1) 0); [lia|]); [|done]. by rewrite E0.
Qed.

(** ** Taking votes back *)

Lemma filter_all {A} (P : A -> Prop) `{!forall x, Decision (P x)} (l : list A) : (forall x, x ∈ l -> P x) -> filter P l = l.
Proof.
  induction l as [|x l IH]; intros Hl; [done|]. rewrite filter_cons_True by (apply Hl, list_elem_of_here). f_equal. apply IH. intros y Hy. by apply Hl, list_elem_of_further.
Qed.

Lemma discard_vote_ok S s x votes : NoDup (map vote_key votes) -> Forall (fun v => vote_Authorize v = flag S (vote_Address v)) votes ->
  forall c t, (forall a, 0 <= c a) -> tallied S (fun a => c a + count votes a) t ->
  exists votes' t', discard_vote s x votes t = (votes', t') /\ votes' = filter (fun v => vote_key v <> (s, x)) votes /\ tallied S (fun a => c a + count votes' a) t'.
Proof.
  induction votes as [|v votes IH]; intros Hnd Hf c t Hc Ht; [by exists [], t|]. cbn [map] in Hnd. apply NoDup_cons in Hnd as [Hni Hnd]. apply Forall_cons in Hf as [Hv Hf].
  cbn [discard_vote]. destruct (Z.eqb_spec (vote_Signer v) s) as [Es|Es], (Z.eqb_spec (vote_Address v) x) as [Ea|Ea]; cbn [andb].
  1:{ exists votes, (snd (uncast t (vote_Address v) (vote_Authorize v))). split; [done|]. split.
      - rewrite filter_cons_False by (unfold vote_key; rewrite Es, Ea; tauto). symmetry. apply filter_all. intros w Hw Ek.
        apply Hni. unfold vote_key at 1. rewrite Es, Ea, <- Ek. by apply list_elem_of_In, in_map, list_elem_of_In.
      - rewrite Hv. eapply tallied_ext; [|apply uncast_tallied; [exact Ht|]].
        + intros a. unfold bump at 1. rewrite count_cons. unfold bump. destruct (Z.eqb_spec a (vote_Address v)); lia.
        + cbn beta. rewrite count_cons. unfold bump. rewrite Z.eqb_refl. pose proof (Hc (vote_Address v)). pose proof (count_nonneg votes (vote_Address v)). lia. }
  all: destruct (IH Hnd Hf (fun a => bump c (vote_Address v) 1 a) t) as (votes' & t' & E & Ev & Ht');
    [intros a; unfold bump; pose proof (Hc a); destruct (a =? _); lia
    |eapply tallied_ext; [|exact Ht]; intros a; cbn beta; rewrite count_cons; unfold bump; destruct (a =? _); lia|];
    rewrite E; exists (v :: votes'), t'; (split; [done|]); (split; [rewrite filter_cons_True by (unfold vote_key; congruence); by rewrite Ev|]);
    (eapply tallied_ext; [|exact Ht']); intros a; cbn beta; rewrite count_cons; unfold bump; destruct (a =? _); lia.
Qed.

Lemma discard_signer_ok S x votes : Forall (fun v => vote_Authorize v = flag S (vote_Address v)) votes ->
  forall c t, (forall a, 0 <= c a) -> tallied S (fun a => c a + count votes a) t ->
  exists votes' t', discard_signer x votes t = (votes', t') /\ votes' = filter (fun v => vote_Signer v <> x) votes /\ tallied S (fun a => c a + count votes' a) t'.
Proof.
  induction votes as [|v votes IH]; intros Hf c t Hc Ht; [by exists [], t|]. apply Forall_cons in Hf as [Hv Hf].
  cbn [discard_signer]. destruct (Z.eqb_spec (vote_Signer v) x) as [Es|Es].
  - destruct (IH Hf c (snd (uncast t (vote_Address v) (vote_Authorize v))) Hc) as (votes' & t' & E & Ev & Ht').
    + rewrite Hv. eapply tallied_ext; [|apply uncast_tallied; [exact Ht|]].
      * intros a. unfold bump at 1. rewrite count_cons. unfold bump. destruct (Z.eqb_spec a (vote_Address v)); lia.
      * cbn beta. rewrite count_cons. unfold bump. rewrite Z.eqb_refl. pose proof (Hc (vote_Address v)). pose proof (count_nonneg votes (vote_Address v)). lia.
    + exists votes', t'. rewrite E. split_and!; [done| |done]. rewrite filter_cons_False by tauto. done.
  - destruct (IH Hf (fun a => bump c (vote_Address v) 1 a) t) as (votes' & t' & E & Ev & Ht').
    + intros a. unfold bump. pose proof (Hc a). destruct (a =? _); lia.
    + eapply tallied_ext; [|exact Ht]. intros a. cbn beta. rewrite count_cons. unfold bump. destruct (a =? _); lia.
    + exists (v :: votes'), t'. rewrite E. split_and!; [done|rewrite filter_cons_True by done; by rewrite Ev|].
      eapply tallied_ext; [|exact Ht']. intros a. cbn beta. rewrite count_cons. unfold bump. destruct (a =? _); lia.
Qed.

(** ** Well-formed votes and the abstract vote *)

Record votes_ok (S : gset Z) (votes : list Vote) (t : gmap Z Tally) : Prop := MkVotesOk {
  vo_nodup : NoDup (map vote_key votes);
  vo_signer : Forall (fun v => vote_Signer v ∈ S) votes;
  vo_flag : Forall (fun v => vote_Authorize v = flag S (vote_Address v)) votes;
  vo_tally : tallied S (count votes) t;
}.

(** The signers, and who has voted on whom: an account that is not a signer to become
    one, a signer to be dropped. *)
Record gov := MkGov { g_signers : gset Z; g_votes : gset (Z * Z) }.

Definition voters (votes : gset (Z * Z)) (a : Address) : gset (Z * Z) := filter (fun p => p.2 = a) votes.

(** A signer votes on an account.  The vote replaces an earlier one of the same signer
    on the same account and counts when it would change the signers; with the votes
    of more than half of the signers, it does, and the votes on the account and those
    of a signer that is dropped are void. *)
Definition gov_vote (g : gov) (voter target : Address) (authorize : bool) : gov :=
  let S := g_signers g in
  let votes := g_votes g ∖ {[ (voter, target) ]} in
  let votes := if bool_decide (authorize = flag S target) then {[ (voter, target) ]} ∪ votes else votes in
  if Z.of_nat (size S) <? 2 * Z.of_nat (size (voters votes target)) then
    if bool_decide (target ∈ S) then MkGov (S ∖ {[ target ]}) (filter (fun p => p.1 <> target /\ p.2 <> target) votes)
    else MkGov ({[ target ]} ∪ S) (filter (fun p => p.2 <> target) votes)
  else MkGov S votes.

Definition keys (votes : list Vote) : gset (Z * Z) := list_to_set (map vote_key votes).

Lemma elem_of_keys votes p : p ∈ keys votes <-> (exists v, v ∈ votes /\ vote_key v = p).
Proof.
  unfold keys. rewrite elem_of_list_to_set, list_elem_of_In, in_map_iff. setoid_rewrite list_elem_of_In. split; intros (v & H1 & H2); by exists v.
Qed.

Lemma keys_filter (P : Vote -> Prop) `{!forall v, Decision (P v)} (Q : Z * Z -> Prop) `{!forall p, Decision (Q p)} votes :
  (forall v, P v <-> Q (vote_key v)) -> keys (filter P votes) = filter Q (keys votes).
Proof.
  intros HPQ. apply set_eq. intros p. rewrite elem_of_filter, !elem_of_keys. split.
  - intros (v & [Hv Hin]%list_elem_of_filter & <-). split; [by apply HPQ|by exists v].
  - intros [HQ (v & Hin & <-)]. exists v. split; [|done]. apply list_elem_of_filter. split; [by apply HPQ|done].
Qed.

Lemma NoDup_keys_filter (P : Vote -> Prop) `{!forall v, Decision (P v)} votes : NoDup (map vote_key votes) -> NoDup (map vote_key (filter P votes)).
Proof.
  induction votes as [|v votes IH]; cbn [map]; [done|]. intros [Hni Hnd]%NoDup_cons. destruct (decide (P v)) as [HP|HP].
  - rewrite filter_cons_True by done. cbn [map]. apply NoDup_cons. split; [|by apply IH]. intros (w & Ew & Hw)%list_elem_of_In%in_map_iff.
    apply list_elem_of_In, list_elem_of_filter in Hw as [_ Hw]. apply Hni. rewrite <- Ew. by apply list_elem_of_In, in_map, list_elem_of_In.
  - rewrite filter_cons_False by done. by apply IH.
Qed.

Lemma Forall_filter {A} (P Q : A -> Prop) `{!forall x, Decision (Q x)} l : Forall P l -> Forall P (filter Q l).
Proof. rewrite !Forall_forall. intros Hl x [_ Hx]%list_elem_of_filter. by apply Hl. Qed.

(** Counting votes on an account is counting its voters. *)
Lemma count_voters votes a : NoDup (map vote_key votes) -> count votes a = Z.of_nat (size (voters (keys votes) a)).
Proof.
  intros Hnd. unfold count, voters. rewrite <- (keys_filter (fun v => vote_Address v = a) (fun p => p.2 = a)) by done.
  unfold keys. rewrite size_list_to_set by (by apply NoDup_keys_filter). by rewrite length_map.
Qed.

(** The vote of a signer is taken back and cast. *)
Lemma recast_ok S votes t s x b number : votes_ok S votes t -> s ∈ S ->
  let '(votes1, t1) := discard_vote s x votes t in
  let '(ok, t2) := cast S t1 x b in
  let votes2 := if ok then votes1 ++ [MkVote s number x b] else votes1 in
  votes_ok S votes2 t2 /\ keys votes2 = (if bool_decide (b = flag S x) then {[ (s, x) ]} ∪ (keys votes ∖ {[ (s, x) ]}) else keys votes ∖ {[ (s, x) ]}).
Proof.
  intros [Hnd Hs Hf Ht] HsS. destruct (discard_vote_ok S s x votes Hnd Hf (fun _ => 0) t) as (votes1 & t1 & -> & E1 & Ht1); [lia|exact Ht|].
  destruct (cast_tallied S (fun a => 0 + count votes1 a) t1 x b Ht1) as [-> Ht2]. set (t2 := snd _) in *.
  assert (keys votes1 = keys votes ∖ {[ (s, x) ]}) as Ek.
  { rewrite E1, (keys_filter _ (fun p => p <> (s, x))) by done. apply set_eq. intros p. rewrite elem_of_filter. set_solver. }
  assert (NoDup (map vote_key votes1)) as Hnd1 by (rewrite E1; by apply NoDup_keys_filter).
  assert (Forall (fun v => vote_Signer v ∈ S) votes1) as Hs1 by (rewrite E1; by apply Forall_filter).
  assert (Forall (fun v => vote_Authorize v = flag S (vote_Address v)) votes1) as Hf1 by (rewrite E1; by apply Forall_filter).
  destruct (bool_decide_reflect (b = flag S x)) as [Eb|Eb].
  - split; [split|].
    + rewrite map_app. apply NoDup_app. split_and!; [done| |apply NoDup_singleton]. intros p Hp ->%list_elem_of_singleton.
      assert ((s, x) ∈ keys votes1) as Hin by (unfold keys; by apply elem_of_list_to_set). rewrite Ek in Hin. set_solver.
    + apply Forall_app. split; [done|]. apply Forall_cons_2; [done|apply Forall_nil_2].
    + apply Forall_app. split; [done|]. apply Forall_cons_2; [done|apply Forall_nil_2].
    + eapply tallied_ext; [|exact Ht2]. intros a. rewrite count_app, count_cons. unfold bump. cbn [vote_Address]. rewrite count_nil. destruct (a =? x); lia.
    + unfold keys. rewrite map_app, list_to_set_app_L. cbn [map list_to_set foldr]. fold (keys votes1). rewrite Ek. set_solver.
  - split; [|done]. split; done.
Qed.

(** The votes on an account are void once it has changed sides. *)
Lemma purge_ok S S' votes t x : NoDup (map vote_key votes) -> Forall (fun v => vote_Signer v ∈ S') votes ->
  Forall (fun v => vote_Authorize v = flag S (vote_Address v)) votes -> tallied S (count votes) t -> (forall a, a <> x -> flag S' a = flag S a) ->
  votes_ok S' (filter (fun v => vote_Address v <> x) votes) (delete x t).
Proof.
  intros Hnd Hs Hf Ht HS. split.
  - by apply NoDup_keys_filter.
  - by apply Forall_filter.
  - apply Forall_forall. intros v [Hx Hv]%list_elem_of_filter. rewrite HS by done. by apply (proj1 (Forall_forall _ _) Hf).
  - intros a. destruct (Ht a) as [Ha Ea]. destruct (Z.eq_dec a x) as [->|Hne].
    + assert (count (filter (fun v => vote_Address v <> x) votes) x = 0) as ->; [|split; [lia|by rewrite lookup_delete_eq]].
      unfold count. destruct (filter (fun v => vote_Address v = x) _) as [|v l] eqn:E; [done|]. exfalso.
      assert (v ∈ v :: l) as Hv by apply list_elem_of_here. rewrite <- E in Hv. apply list_elem_of_filter in Hv as [Ev [Hv _]%list_elem_of_filter]. done.
    + assert (count (filter (fun v => vote_Address v <> x) votes) a = count votes a) as ->; [|split; [lia|by rewrite lookup_delete_ne, HS]].
      unfold count. f_equal. f_equal. rewrite list_filter_filter. apply list_filter_iff. intros v. split; [tauto|]. intros ->. done.
Qed.

(** A vote passes, or not. *)
Lemma pass_vote_ok snap number x : votes_ok (s_Signers snap) (s_Votes snap) (s_Tally snap) ->
  let S := s_Signers snap in let votes := keys (s_Votes snap) in let snap' := pass_vote snap number x in
  votes_ok (s_Signers snap') (s_Votes snap') (s_Tally snap') /\
  MkGov (s_Signers snap') (keys (s_Votes snap')) =
    (if Z.of_nat (size S) <? 2 * Z.of_nat (size (voters votes x)) then
       if bool_decide (x ∈ S) then MkGov (S ∖ {[ x ]}) (filter (fun p => p.1 <> x /\ p.2 <> x) votes)
       else MkGov ({[ x ]} ∪ S) (filter (fun p => p.2 <> x) votes)
     else MkGov S votes).
Proof.
  intros [Hnd Hs Hf Ht] S votes. subst votes. cbv zeta. unfold pass_vote. fold S. fold S in Hs, Hf, Ht. set (c := count (s_Votes snap)) in *.
  assert (default (MkTally false 0) (s_Tally snap !! x) = MkTally (if c x =? 0 then false else flag S x) (c x)) as ->.
  { destruct (Ht x) as [_ ->]. destruct (Z.eqb_spec (c x) 0) as [->|]; done. }
  cbn [tally_Votes tally_Authorize]. rewrite <- (count_voters (s_Votes snap) x Hnd). fold c.
  assert ((Z.of_nat (size S) / 2 <? c x) = (Z.of_nat (size S) <? 2 * c x)) as ->.
  { destruct (Z.ltb_spec (Z.of_nat (size S)) (2 * c x)) as [H|H]; [apply Z.ltb_lt, Z.div_lt_upper_bound; lia|apply Z.ltb_ge, Z.div_le_lower_bound; lia]. }
  destruct (Z.ltb_spec (Z.of_nat (size S)) (2 * c x)) as [H|H]; [|by split; [split|]].
  destruct (Z.eqb_spec (c x) 0) as [E0|_]; [lia|]. destruct (bool_decide_reflect (x ∈ S)) as [HxS|HxS].
  - assert (flag S x = false) as -> by (unfold flag; by rewrite bool_decide_eq_true_2).
    destruct (discard_signer_ok S x (s_Votes snap) Hf (fun _ => 0) (s_Tally snap)) as (votes1 & t1 & E & Ev & Ht1); [lia|exact Ht|]. rewrite E.
    cbn [s_Signers s_Votes s_Tally]. split.
    + apply (purge_ok S).
      * rewrite Ev. by apply NoDup_keys_filter.
      * rewrite Ev. apply Forall_forall. intros v [Hv1 Hv2]%list_elem_of_filter. pose proof (proj1 (Forall_forall _ _) Hs v Hv2). cbn beta in *. set_solver.
      * rewrite Ev. by apply Forall_filter.
      * exact Ht1.
      * intros a Ha. unfold flag. f_equal. apply bool_decide_ext. set_solver.
    + f_equal. rewrite (keys_filter _ (fun p => p.2 <> x)) by done. rewrite Ev, (keys_filter _ (fun p => p.1 <> x)) by done.
      apply set_eq. intros p. rewrite !elem_of_filter. tauto.
  - assert (flag S x = true) as -> by (unfold flag; by rewrite bool_decide_eq_false_2).
    cbn [s_Signers s_Votes s_Tally]. split.
    + apply (purge_ok S); try done.
      * eapply Forall_impl; [exact Hs|]. intros v Hv. cbn beta in *. set_solver.
      * intros a Ha. unfold flag. f_equal. apply bool_decide_ext. set_solver.
    + f_equal. by rewrite (keys_filter _ (fun p => p.2 <> x)).
Qed.

(** ** Recent signers *)

Definition limit (S : gset Z) : Z := Z.of_nat (size S) / 2 + 1.

(** Of the blocks up to [n], those whose signers have to wait are kept, each with a
    different signer. *)
Definition recents_ok (S : gset Z) (n : Z) (rec : gmap Z Address) : Prop :=
  (forall k a, rec !! k = Some a -> 0 <= k <= n /\ n + 1 - limit S <= k) /\
  (forall k k' a, rec !! k = Some a -> rec !! k' = Some a -> k = k').

(** The signer has signed one of the last blocks before [number]. *)
Definition recently (S : gset Z) (rec : gmap Z Address) (number : Z) (signer : Address) : Prop :=
  exists k, number - limit S < k /\ rec !! k = Some signer.

Definition small (S : gset Z) (n : Z) : Prop := 0 <= n < 2 ^ 62 /\ Z.of_nat (size S) < 2 ^ 62.

Lemma limit_pos S : 1 <= limit S <= Z.of_nat (size S) + 1.
Proof. unfold limit. pose proof (Nat2Z.is_nonneg (size S)). Z.to_euclidean_division_equations. lia. Qed.

Lemma shift_recents_eq S number rec : small S number ->
  shift_recents S number rec = if limit S <=? number then delete (number - limit S) rec else rec.
Proof.
  intros [Hn Hs]. pose proof (limit_pos S). unfold shift_recents. fold (limit S). rewrite (u64_small (limit S)) by u64_lia.
  destruct (Z.leb_spec (limit S) number); [|done]. rewrite u64_small by u64_lia. done.
Qed.

Lemma shift_recents_lookup S number rec k a : small S number -> (forall k a, rec !! k = Some a -> 0 <= k /\ number - limit S <= k) ->
  shift_recents S number rec !! k = Some a <-> rec !! k = Some a /\ number - limit S < k.
Proof.
  intros Hs Hr. rewrite shift_recents_eq by done. destruct (Z.leb_spec (limit S) number) as [Hl|Hl].
  - rewrite lookup_delete_Some. split; [intros [Hne E]; pose proof (Hr _ _ E); split; [done|lia]|]. intros [E Hk]. split; [lia|done].
  - split; [intros E; pose proof (Hr _ _ E); split; [done|lia]|tauto].
Qed.

Lemma recents_step S S' n rec rec' s : recents_ok S n rec -> small S (n + 1) -> small S' (n + 1) -> 0 <= n -> ~ recently S rec (n + 1) s ->
  (S' = S \/ limit S <= limit S') /\ rec' = <[n + 1 := s]> (shift_recents S (n + 1) rec) \/
  limit S <= limit S' + 1 /\ rec' = shift_recents S' (n + 1) (<[n + 1 := s]> (shift_recents S (n + 1) rec)) ->
  recents_ok S' (n + 1) rec'.
Proof.
  intros [Hk Hi] Hs Hs' Hn Hrs Hc. set (r1 := <[n + 1 := s]> (shift_recents S (n + 1) rec)) in *. pose proof (limit_pos S) as HL. pose proof (limit_pos S') as HL'.
  assert (forall k a, r1 !! k = Some a <-> (k = n + 1 /\ a = s) \/ (k <> n + 1 /\ rec !! k = Some a /\ n + 1 - limit S < k)) as H1.
  { intros k a. unfold r1. rewrite lookup_insert_Some, shift_recents_lookup; [|done|intros k' a' E; pose proof (Hk _ _ E); lia]. intuition congruence. }
  assert (forall k a, r1 !! k = Some a -> 0 <= k <= n + 1 /\ n + 2 - limit S <= k) as H2.
  { intros k a [[-> ->]|(_ & E & Hlt)]%H1; [lia|]. pose proof (Hk _ _ E). lia. }
  assert (forall k k' a, r1 !! k = Some a -> r1 !! k' = Some a -> k = k') as H3.
  { intros k k' a [[-> ->]|(Hne & E & Hlt)]%H1 [[-> E']|(Hne' & E' & Hlt')]%H1; [done| | |by eapply Hi].
    - destruct Hrs. by exists k'.
    - subst a. destruct Hrs. by exists k. }
  destruct Hc as [[HS ->]|[HS ->]].
  - assert (limit S <= limit S') by (destruct HS as [->|]; lia). split; [|done]. intros k a E. pose proof (H2 _ _ E). lia.
  - assert (forall k a, shift_recents S' (n + 1) r1 !! k = Some a <-> r1 !! k = Some a /\ n + 1 - limit S' < k) as H4.
    { intros k a. apply shift_recents_lookup; [done|]. intros k' a' E. pose proof (H2 _ _ E). lia. }
    split; [intros k a [E Hlt]%H4; pose proof (H2 _ _ E); lia|]. intros k k' a [E _]%H4 [E' _]%H4. by eapply H3.
Qed.

(** ** A header *)

Record snap_ok (n : Z) (s : Snapshot) : Prop := MkSnapOk {
  so_votes : votes_ok (s_Signers s) (s_Votes s) (s_Tally s);
  so_recents : recents_ok (s_Signers s) n (s_Recents s);
}.

Definition snap_gov (s : Snapshot) : gov := MkGov (s_Signers s) (keys (s_Votes s)).

(** At a checkpoint all votes are void. *)
Definition gov_header (epoch number : Z) (g : gov) (voter target : Address) (authorize : bool) : gov :=
  gov_vote (if number mod epoch =? 0 then MkGov (g_signers g) ∅ else g) voter target authorize.

Lemma pass_vote_recents snap n x rec s : recents_ok (s_Signers snap) n rec -> small (s_Signers snap) (n + 1) -> 0 <= n -> ~ recently (s_Signers snap) rec (n + 1) s ->
  s_Recents snap = <[n + 1 := s]> (shift_recents (s_Signers snap) (n + 1) rec) -> Z.of_nat (size (s_Signers snap)) + 1 < 2 ^ 62 ->
  recents_ok (s_Signers (pass_vote snap (n + 1) x)) (n + 1) (s_Recents (pass_vote snap (n + 1) x)).
Proof.
  intros Hr Hs Hn Hrs E Hb. unfold pass_vote. destruct (_ <? _); [|eapply recents_step; [exact Hr|done|done|done|exact Hrs|left; split; [by left|done]]].
  destruct (tally_Authorize _).
  - cbn [s_Signers s_Recents]. assert (size (s_Signers snap) <= size ({[x]} ∪ s_Signers snap) <= size (s_Signers snap) + 1)%nat as Hsz.
    { split; [apply subseteq_size; set_solver|]. pose proof (size_union_alt ({[x]} : gset Z) (s_Signers snap)) as Eu. rewrite size_singleton in Eu.
      assert (size (s_Signers snap ∖ {[x]}) <= size (s_Signers snap))%nat by (apply subseteq_size; set_solver). lia. }
    eapply recents_step; [exact Hr|done|split; [apply Hs|lia]|done|exact Hrs|]. left. split; [|done]. right. unfold limit.
    assert (Z.of_nat (size (s_Signers snap)) / 2 <= Z.of_nat (size ({[x]} ∪ s_Signers snap)) / 2) by (apply Z.div_le_mono; lia). lia.
  - destruct (discard_signer _ _ _) as [votes t]. cbn [s_Signers s_Recents].
    assert (size (s_Signers snap) - 1 <= size (s_Signers snap ∖ {[x]}) <= size (s_Signers snap))%nat as Hsz.
    { split; [|apply subseteq_size; set_solver]. pose proof (size_difference_alt (s_Signers snap) ({[x]} : gset Z)) as Ed.
      assert (size (s_Signers snap ∩ {[x]}) <= size ({[x]} : gset Z))%nat by (apply subseteq_size; set_solver). rewrite size_singleton in *. lia. }
    eapply recents_step; [exact Hr|done|split; [apply Hs|destruct Hs; lia]|done|exact Hrs|]. right. split; [|by rewrite E]. unfold limit.
    assert (Z.of_nat (size (s_Signers snap)) / 2 <= (Z.of_nat (size (s_Signers snap ∖ {[x]})) + 1 * 2) / 2) by (apply Z.div_le_mono; lia).
    rewrite Z.div_add in * by lia. lia.
Qed.

Lemma pass_vote_fields snap number x : small (s_Signers snap) number ->
  s_config (pass_vote snap number x) = s_config snap /\ s_Number (pass_vote snap number x) = s_Number snap /\ s_Hash (pass_vote snap number x) = s_Hash snap /\
  s_Recents (pass_vote snap number x) !! number = s_Recents snap !! number.
Proof.
  intros [Hn Hs]. unfold pass_vote. destruct (_ <? _); [|done]. destruct (tally_Authorize _); [done|]. destruct (discard_signer _ _ _) as [votes t].
  cbn [s_config s_Number s_Hash s_Recents]. split_and!; [done..|].
  assert (size (s_Signers snap ∖ {[x]}) <= size (s_Signers snap))%nat by (apply subseteq_size; set_solver).
  rewrite shift_recents_eq by (split; [done|lia]). pose proof (limit_pos (s_Signers snap ∖ {[x]})). destruct (_ <=? _); [|done]. rewrite lookup_delete_ne by lia. done.
Qed.

Lemma existsb_recents S n rec s : recents_ok S n rec -> small S (n + 1) ->
  existsb (fun p => p.2 =? s) (map_to_list (shift_recents S (n + 1) rec)) = true <-> recently S rec (n + 1) s.
Proof.
  intros [Hk _] Hs. rewrite existsb_exists. unfold recently. split.
  - intros ((k & a) & Hin & E%Z.eqb_eq). cbn [snd] in E. subst a. apply list_elem_of_In, elem_of_map_to_list in Hin. exists k.
    apply shift_recents_lookup in Hin as [? ?]; [done|done|]. intros k' a' E. pose proof (Hk _ _ E). lia.
  - intros (k & Hlt & E). exists (k, s). split; [|by apply Z.eqb_eq]. apply list_elem_of_In, elem_of_map_to_list. apply shift_recents_lookup; [done| |done].
    intros k' a' E'. pose proof (Hk _ _ E'). lia.
Qed.

Section header.
Context {K : Keccak} {C : CryptoPrims}.

(** Why a header is not applied. *)
Definition header_refused (s : Snapshot) (number : Z) (r : Address + clique_error) (nonce : BlockNonce) : option clique_error :=
  match r with
  | inr e => Some e
  | inl signer =>
      if bool_decide (signer ∈ s_Signers s) then
        if existsb (fun p => p.2 =? signer) (map_to_list (shift_recents (s_Signers s) number (s_Recents s))) then Some errRecentlySigned
        else match vote_of_nonce nonce with None => Some errInvalidVote | Some _ => None end
      else Some errUnauthorizedSigner
  end.

Lemma apply_header_ok s h n r : snap_ok n s -> small (s_Signers s) (n + 1) -> 0 <= n -> Z.of_nat (size (s_Signers s)) + 1 < 2 ^ 62 -> 0 < Epoch (s_config s) ->
  h_Number h = Some (n + 1) -> recover_signer h = Ok r ->
  match header_refused s (n + 1) r (h_Nonce h) with
  | Some e => apply_header s h = Ok (inr e)
  | None => exists s' signer authorize, apply_header s h = Ok (inl s') /\ r = inl signer /\ signer ∈ s_Signers s /\ ~ recently (s_Signers s) (s_Recents s) (n + 1) signer /\
      vote_of_nonce (h_Nonce h) = Some authorize /\ snap_ok (n + 1) s' /\
      snap_gov s' = gov_header (Epoch (s_config s)) (n + 1) (snap_gov s) signer (h_Coinbase h) authorize /\
      s_config s' = s_config s /\ s_Number s' = s_Number s /\ s_Hash s' = s_Hash s /\ s_Recents s' !! (n + 1) = Some signer
  end.
Proof.
  intros [Hv Hr] Hs Hn Hsz He En Er. unfold apply_header, header_refused. rewrite En. cbn [deref of_option obind].
  assert (Uint64 (n + 1) = n + 1) as -> by (unfold Uint64; rewrite Z.abs_eq by lia; apply u64_small; destruct Hs; u64_lia).
  unfold umod. destruct (Z.eqb_spec (Epoch (s_config s)) 0); [lia|]. cbn [obind].
  assert (exists votes t, (if (n + 1) mod Epoch (s_config s) =? 0 then ([], ∅) else (s_Votes s, s_Tally s)) = (votes, t) /\ votes_ok (s_Signers s) votes t /\
    MkGov (s_Signers s) (keys votes) = (if (n + 1) mod Epoch (s_config s) =? 0 then MkGov (g_signers (snap_gov s)) ∅ else snap_gov s)) as (votes & t & -> & Hv1 & Eg).
  { destruct (_ =? 0); [|by eexists _, _]. exists [], ∅. split_and!; [done| |done]. split; [apply NoDup_nil_2|apply Forall_nil_2|apply Forall_nil_2|].
    intros a. rewrite count_nil. split; [done|]. by rewrite lookup_empty. }
  rewrite Er. cbn [obind]. destruct r as [signer|e]; [|done]. destruct (bool_decide_reflect (signer ∈ s_Signers s)) as [HsS|HsS]; cbn [negb]; [|done].
  pose proof (existsb_recents _ n (s_Recents s) signer Hr Hs) as Hex. destruct (existsb _ _); [done|].
  assert (~ recently (s_Signers s) (s_Recents s) (n + 1) signer) as Hnr by (intros H; by apply Hex in H).
  pose proof (fun b => recast_ok (s_Signers s) votes t signer (h_Coinbase h) b (n + 1) Hv1 HsS) as Hrc.
  destruct (discard_vote _ _ _ _) as [votes1 t1]. destruct (vote_of_nonce (h_Nonce h)) as [b|]; [|done]. specialize (Hrc b).
  destruct (cast _ _ _ _) as [ok t2]. destruct Hrc as [Hv2 Ek2].
  set (votes2 := if ok then _ else _) in *. set (snap := MkSnapshot _ _ _ _ _ votes2 t2).
  destruct (pass_vote_ok snap (n + 1) (h_Coinbase h) Hv2) as [Hv3 Eg3]. exists (pass_vote snap (n + 1) (h_Coinbase h)), signer, b.
  destruct (pass_vote_fields snap (n + 1) (h_Coinbase h) Hs) as (F1 & F2 & F3 & F4).
  split_and!; try done.
  - split; [exact Hv3|]. by apply (pass_vote_recents snap n (h_Coinbase h) (s_Recents s) signer).
  - unfold snap_gov at 1. rewrite Eg3. cbn [s_Signers s_Votes snap]. unfold gov_header. rewrite <- Eg. unfold gov_vote. cbn [g_signers g_votes]. by rewrite <- Ek2.
  - rewrite F4. apply lookup_insert_eq.
Qed.
End header.
