(* ===== verification/CliqueApply.v ===== *)
(** * Applying headers in the clique engine

    A run of headers is applied one after the other: the snapshot stays well-formed,
    the signers and the votes are those of the abstract vote, and signers wait for
    each other. *)

From Stdlib Require Import ZArith Lia.
From stdpp Require Import gmap sorting.
From S2P Require Import Prelude Common Params Rlp Crypto Types Transaction Receipt Block EthashAlgo EthashCache Engine Clique CliqueVotes.

Open Scope go_scope.

Section run.
Context {K : Keccak} {C : CryptoPrims}.

(** The headers are those of the blocks after [n]. *)
Fixpoint numbered (n : Z) (hs : list Header) : Prop :=
  match hs with [] => True | h :: hs => h_Number h = Some (n + 1) /\ numbered (n + 1) hs end.

(** Who votes on whom in a header. *)
Record ballot := MkBallot { bl_voter : Address; bl_target : Address; bl_authorize : bool }.
Definition ballot_of (h : Header) (b : ballot) : Prop :=
  recover_signer h = Ok (inl (bl_voter b)) /\ h_Coinbase h = bl_target b /\ vote_of_nonce (h_Nonce h) = Some (bl_authorize b).

Fixpoint gov_run (epoch n : Z) (g : gov) (bs : list ballot) : gov :=
  match bs with
  | [] => g
  | b :: bs => gov_run epoch (n + 1) (gov_header epoch (n + 1) g (bl_voter b) (bl_target b) (bl_authorize b)) bs
  end.

Definition recoverable (h : Header) : Prop := exists r, recover_signer h = Ok r.

Lemma gov_size epoch number g v t b : (size (g_signers (gov_header epoch number g v t b)) <= size (g_signers g) + 1)%nat.
Proof.
  unfold gov_header. set (g' := (if number mod epoch =? 0 then MkGov (g_signers g) ∅ else g)). assert (g_signers g' = g_signers g) as E by (unfold g'; by destruct (_ =? 0)).
  rewrite <- E. unfold gov_vote. destruct (_ <? _); [|cbn [g_signers]; lia]. destruct (bool_decide _); cbn [g_signers].
  - assert (size (g_signers g' ∖ {[t]}) <= size (g_signers g'))%nat by (apply subseteq_size; set_solver). lia.
  - pose proof (size_union_alt ({[t]} : gset Z) (g_signers g')) as Eu. rewrite size_singleton in Eu.
    assert (size (g_signers g' ∖ {[t]}) <= size (g_signers g'))%nat by (apply subseteq_size; set_solver). lia.
Qed.

Lemma apply_loop_ok hs : forall s n, snap_ok n s -> 0 <= n -> n + zlen hs < 2 ^ 61 -> Z.of_nat (size (s_Signers s)) + zlen hs < 2 ^ 61 -> 0 < Epoch (s_config s) ->
  numbered n hs -> Forall recoverable hs ->
  exists r, apply_loop s hs = Ok r /\ match r with
  | inr _ => True
  | inl s' => snap_ok (n + zlen hs) s' /\ s_config s' = s_config s /\ s_Number s' = s_Number s /\
      exists bs, Forall2 ballot_of hs bs /\ snap_gov s' = gov_run (Epoch (s_config s)) n (snap_gov s) bs
  end.
Proof.
  induction hs as [|h hs IH]; intros s n Hs Hn Hb Hsz He Hnum Hrec; cbn [apply_loop].
  { exists (inl s). split; [done|]. rewrite (zlen_nil (A := Header)), Z.add_0_r. split_and!; [done..|]. exists []. split; [apply Forall2_nil_2|done]. }
  destruct Hnum as [En Hnum]. apply Forall_cons in Hrec as [[r Er] Hrec]. rewrite zlen_cons in *. pose proof (zlen_nonneg hs) as Hl.
  pose proof (apply_header_ok s h n r Hs ltac:(split; lia) Hn ltac:(lia) He En Er) as H. destruct (header_refused _ _ _ _) as [e|].
  { rewrite H. cbn [obind]. by eexists. }
  destruct H as (s1 & signer & b & E & -> & HsS & _ & Eb & Hs1 & Eg & Ec & EN & _ & _). rewrite E. cbn [obind].
  assert (s_Signers s1 = g_signers (gov_header (Epoch (s_config s)) (n + 1) (snap_gov s) signer (h_Coinbase h) b)) as ES by (rewrite <- Eg; done).
  pose proof (gov_size (Epoch (s_config s)) (n + 1) (snap_gov s) signer (h_Coinbase h) b) as Hgs. rewrite <- ES in Hgs. change (g_signers (snap_gov s)) with (s_Signers s) in Hgs.
  destruct (IH s1 (n + 1) Hs1 ltac:(lia) ltac:(lia) ltac:(lia) ltac:(by rewrite Ec) Hnum Hrec) as (r' & -> & Hr). exists r'. split; [done|].
  destruct r' as [s'|]; [|done]. destruct Hr as (H1 & H2 & H3 & bs & H4 & H5). replace (n + (1 + zlen hs)) with (n + 1 + zlen hs) by lia.
  split_and!; [done|congruence|congruence|]. exists (MkBallot signer (h_Coinbase h) b :: bs). split; [apply Forall2_cons_2; [by split_and!|done]|].
  rewrite H5, Eg, Ec. done.
Qed.

Definition numbers_ok (hs : list Header) : Prop := Forall (fun h => exists k, h_Number h = Some k /\ 0 <= k < 2 ^ 61) hs.

Lemma contiguous_ok hs : forall n, numbers_ok hs -> 0 <= n < 2 ^ 61 -> exists b, contiguous n hs = Ok b /\ (b = true <-> numbered n hs).
Proof.
  induction hs as [|h hs IH]; intros n Hh Hn; cbn [contiguous numbered]; [by exists true|]. apply Forall_cons in Hh as [(k & Ek & Hk) Hh].
  rewrite Ek. cbn [deref of_option obind]. assert (Uint64 k = k) as -> by (unfold Uint64; rewrite Z.abs_eq by lia; apply u64_small; u64_lia).
  rewrite u64_small by u64_lia. destruct (Z.eqb_spec k (n + 1)) as [->|Hne]; cbn [negb].
  - destruct (IH (n + 1) Hh Hk) as (b & -> & Hb). exists b. split; [done|]. rewrite Hb. tauto.
  - exists false. split; [done|]. split; [done|]. intros [E _]. congruence.
Qed.

Definition at_position (s : Snapshot) (number : Z) (hash : Hash) : Snapshot :=
  MkSnapshot (s_config s) number hash (s_Signers s) (s_Recents s) (s_Votes s) (s_Tally s).

(** [apply] by its parts. *)
Lemma apply_eq s first rest : numbers_ok (first :: rest) -> 0 <= s_Number s -> s_Number s + zlen (first :: rest) < 2 ^ 61 ->
  (numbered (s_Number s) (first :: rest) /\ apply s (first :: rest) =
    obind (apply_loop s (first :: rest)) (fun r => match r with
      | inr e => Ok (inr e)
      | inl s' => Ok (inl (at_position s' (s_Number s' +u zlen (first :: rest)) (Header_Hash (List.last (first :: rest) first)))) end)) \/
  (~ numbered (s_Number s) (first :: rest) /\ apply s (first :: rest) = Ok (inr errInvalidVotingChain)).
Proof.
  intros Hh Hn Hb. rewrite zlen_cons in Hb. pose proof (zlen_nonneg rest) as Hl. apply Forall_cons in Hh as [(k & Ek & Hk) Hh]. unfold apply. rewrite Ek. cbn [deref of_option obind numbered].
  assert (Uint64 k = k) as -> by (unfold Uint64; rewrite Z.abs_eq by lia; apply u64_small; u64_lia).
  destruct (contiguous_ok rest k Hh Hk) as (b & -> & Hbb). cbn [obind]. rewrite Ek, (u64_small (s_Number s + 1)) by u64_lia. destruct b; cbn [negb].
  - destruct (Z.eqb_spec k (s_Number s + 1)) as [->|Hne]; cbn [negb].
    + left. split; [split; [done|by apply Hbb]|]. done.
    + right. split; [|done]. intros [E _]. congruence.
  - right. split; [|done]. intros [E H]. injection E as ->. by apply Hbb in H.
Qed.

Lemma last_List_last {A} (x : A) l d : last (x :: l) = Some (List.last (x :: l) d).
Proof. revert x. induction l as [|y l IH]; intros x; [done|]. rewrite last_cons_cons. apply IH. Qed.

Lemma apply_ok s headers :
  snap_ok (s_Number s) s -> 0 <= s_Number s -> s_Number s + zlen headers < 2 ^ 61 -> Z.of_nat (size (s_Signers s)) + zlen headers < 2 ^ 61 -> 0 < Epoch (s_config s) ->
  numbers_ok headers -> Forall recoverable headers ->
  exists r, apply s headers = Ok r /\ (~ numbered (s_Number s) headers -> r = inr errInvalidVotingChain) /\
    (forall s', r = inl s' -> numbered (s_Number s) headers /\ snap_ok (s_Number s') s' /\ s_Number s' = s_Number s + zlen headers /\ s_config s' = s_config s /\
      s_Hash s' = match last headers with Some h => Header_Hash h | None => s_Hash s end /\
      exists bs, Forall2 ballot_of headers bs /\ snap_gov s' = gov_run (Epoch (s_config s)) (s_Number s) (snap_gov s) bs).
Proof.
  intros Hs Hn Hb Hsz He Hh Hrec. destruct headers as [|first rest].
  { exists (inl s). split_and!; [done|intros []; exact I|]. intros s' [= <-]. split; [exact I|]. rewrite (zlen_nil (A := Header)), Z.add_0_r. split_and!; try done.
    exists []. split; [apply Forall2_nil_2|done]. }
  destruct (apply_eq s first rest Hh Hn Hb) as [[Hnum E]|[Hnum E]].
  2:{ exists (inr errInvalidVotingChain). by split_and!. }
  destruct (apply_loop_ok (first :: rest) s (s_Number s) Hs Hn Hb Hsz He Hnum Hrec) as (r & Er & Hr). rewrite Er in E. cbn [obind] in E.
  destruct r as [s1|e]; eexists; (split_and!; [exact E|done|]); [|done]. intros s' [= <-]. destruct Hr as (H1 & H2 & H3 & bs & H4 & H5).
  pose proof (zlen_nonneg (first :: rest)). rewrite H3, u64_small by u64_lia. split; [done|]. split_and!; [|done|done| |by exists bs].
  - destruct H1. by split.
  - by rewrite (last_List_last first rest first).
Qed.

(** C9: a snapshot stays a snapshot.  Applying headers to a well-formed snapshot never
    panics; headers that do not follow it are refused as such; otherwise, unless one
    of them is refused, the result is well-formed, with tallies that count its votes,
    at the number and the hash of the last header, and its signers and votes are those
    of the abstract vote on the ballots of the headers. *)
Theorem apply_correct (s : Snapshot) (headers : list Header) :
  snap_ok (s_Number s) s -> 0 <= s_Number s -> s_Number s + zlen headers < 2 ^ 61 -> Z.of_nat (size (s_Signers s)) + zlen headers < 2 ^ 61 -> 0 < Epoch (s_config s) ->
  numbers_ok headers -> Forall recoverable headers ->
  exists r, apply s headers = Ok r /\ (~ numbered (s_Number s) headers -> r = inr errInvalidVotingChain) /\
    (forall s', r = inl s' -> snap_ok (s_Number s') s' /\ s_Number s' = s_Number s + zlen headers /\ s_config s' = s_config s /\
      s_Hash s' = match last headers with Some h => Header_Hash h | None => s_Hash s end /\
      exists bs, Forall2 ballot_of headers bs /\ snap_gov s' = gov_run (Epoch (s_config s)) (s_Number s) (snap_gov s) bs).
Proof.
  intros Hs Hn Hb Hsz He Hh Hrec. destruct (apply_ok s headers Hs Hn Hb Hsz He Hh Hrec) as (r & E & H1 & H2). exists r. split_and!; [done..|].
  intros s' E'. by destruct (H2 s' E') as [_ ?].
Qed.

Lemma gov_run_size epoch bs : forall n g, Z.of_nat (size (g_signers (gov_run epoch n g bs))) <= Z.of_nat (size (g_signers g)) + zlen bs.
Proof.
  induction bs as [|b bs IH]; intros n g; cbn [gov_run]; [rewrite (zlen_nil (A := ballot)); lia|]. rewrite zlen_cons.
  pose proof (IH (n + 1) (gov_header epoch (n + 1) g (bl_voter b) (bl_target b) (bl_authorize b))).
  pose proof (gov_size epoch (n + 1) g (bl_voter b) (bl_target b) (bl_authorize b)). lia.
Qed.

(** ** Runs in two parts *)

Definition map_snap (f : Snapshot -> Snapshot) (r : Snapshot + clique_error) : Snapshot + clique_error := match r with inl s => inl (f s) | inr e => inr e end.

Lemma pass_vote_at s N H number x : pass_vote (at_position s N H) number x = at_position (pass_vote s number x) N H.
Proof.
  unfold pass_vote, at_position. cbn [s_Tally s_Signers s_Votes s_Recents s_config s_Number s_Hash]. destruct (_ <? _); [|done].
  destruct (tally_Authorize _); [done|]. by destruct (discard_signer _ _ _).
Qed.

Lemma apply_header_at s N H h : apply_header (at_position s N H) h = obind (apply_header s h) (fun r => Ok (map_snap (fun s => at_position s N H) r)).
Proof.
  unfold apply_header. destruct (deref _) as [n| |]; [|done..]. cbn [obind].
  change (s_config (at_position s N H)) with (s_config s). change (s_Votes (at_position s N H)) with (s_Votes s). change (s_Tally (at_position s N H)) with (s_Tally s).
  change (s_Signers (at_position s N H)) with (s_Signers s). change (s_Recents (at_position s N H)) with (s_Recents s).
  destruct (umod _ _) as [m| |]; [|done..]. cbn [obind]. destruct (if m =? 0 then _ else _) as [votes t]. destruct (recover_signer h) as [[signer|e]| |]; [|done..]. cbn [obind].
  destruct (negb _); [done|]. destruct (existsb _ _); [done|]. destruct (discard_vote _ _ _ _) as [votes1 t1]. destruct (vote_of_nonce _) as [b|]; [|done].
  destruct (cast _ _ _ _) as [ok t2]. cbn [obind map_snap]. do 2 f_equal. rewrite <- pass_vote_at. done.
Qed.

Lemma apply_loop_at hs : forall s N H, apply_loop (at_position s N H) hs = obind (apply_loop s hs) (fun r => Ok (map_snap (fun s => at_position s N H) r)).
Proof.
  induction hs as [|h hs IH]; intros s N H; cbn [apply_loop]; [done|]. rewrite apply_header_at. destruct (apply_header s h) as [[s1|e]| |]; cbn [obind map_snap]; [apply IH|done..].
Qed.

Lemma apply_loop_app a : forall s b, apply_loop s (a ++ b) = obind (apply_loop s a) (fun r => match r with inl s1 => apply_loop s1 b | inr e => Ok (inr e) end).
Proof. induction a as [|h a IH]; intros s b; cbn [apply_loop app]; [done|]. destruct (apply_header s h) as [[s1|e]| |]; cbn [obind]; [apply IH|done..]. Qed.

Lemma numbered_app n a b : numbered n (a ++ b) <-> numbered n a /\ numbered (n + zlen a) b.
Proof.
  revert n. induction a as [|h a IH]; intros n; cbn [app numbered]; [rewrite (zlen_nil (A := Header)), Z.add_0_r; tauto|]. rewrite IH, zlen_cons.
  replace (n + (1 + zlen a)) with (n + 1 + zlen a) by lia. tauto.
Qed.

Lemma apply_header_position s h s' : apply_header s h = Ok (inl s') -> s_Number s' = s_Number s /\ s_config s' = s_config s.
Proof.
  intros E. assert (at_position s (s_Number s) (s_Hash s) = s) as Es by (by destruct s). rewrite <- Es, apply_header_at in E.
  unfold apply_header in E. destruct (deref _) as [n| |]; [|done..]. cbn [obind] in E.
  destruct (umod _ _) as [m| |]; [|done..]. cbn [obind] in E. destruct (if m =? 0 then _ else _) as [votes t]. destruct (recover_signer h) as [[signer|e]| |]; [|done..]. cbn [obind] in E.
  destruct (negb _); [done|]. destruct (existsb _ _); [done|]. destruct (discard_vote _ _ _ _) as [votes1 t1]. destruct (vote_of_nonce _) as [b|]; [|done].
  destruct (cast _ _ _ _) as [ok t2]. cbn [obind map_snap] in E. injection E as <-. split; [done|]. unfold pass_vote. cbn [s_config at_position].
  destruct (_ <? _); [|done]. destruct (tally_Authorize _); [done|]. by destruct (discard_signer _ _ _).
Qed.

Lemma apply_loop_position hs : forall s s', apply_loop s hs = Ok (inl s') -> s_Number s' = s_Number s /\ s_config s' = s_config s.
Proof.
  induction hs as [|h hs IH]; intros s s' E; cbn [apply_loop] in E; [by injection E as <-|].
  destruct (apply_header s h) as [[s1|e]| |] eqn:E1; [|done..]. cbn [obind] in E. destruct (apply_header_position _ _ _ E1), (IH _ _ E). split; congruence.
Qed.

(** Applying the second part to the result of the first. *)
Lemma apply_app s a b s1 r : numbers_ok (a ++ b) -> 0 <= s_Number s -> s_Number s + zlen (a ++ b) < 2 ^ 61 ->
  apply s a = Ok (inl s1) -> s_Number s1 = s_Number s + zlen a -> apply s1 b = Ok r -> apply s (a ++ b) = Ok r.
Proof.
  intros Hh Hn Hb Ea EN Eb. destruct a as [|h a]; [injection Ea as <-; done|]. destruct b as [|h' b]; [rewrite app_nil_r, Ea; injection Eb as <-; done|].
  assert (numbers_ok (h :: a) /\ numbers_ok (h' :: b)) as [Hha Hhb] by (by apply Forall_app). rewrite zlen_app in Hb. pose proof (zlen_nonneg (h' :: b)). pose proof (zlen_nonneg (h :: a)).
  destruct (apply_eq s h a Hha Hn ltac:(lia)) as [[Hna E1]|[_ E1]]; [|congruence]. rewrite Ea in E1.
  destruct (apply_loop s (h :: a)) as [[sl|e]| |] eqn:El; [|done..]. cbn [obind] in E1. injection E1 as E1.
  destruct (apply_eq s (h) (a ++ h' :: b) Hh Hn) as [[Hnab E3]|[Hno E3]]; [change (h :: a ++ h' :: b) with ((h :: a) ++ h' :: b); rewrite zlen_app; lia| |].
  - change (h :: a ++ h' :: b) with ((h :: a) ++ h' :: b) in *. rewrite E3, apply_loop_app, El. cbn [obind]. apply numbered_app in Hnab as [_ Hnb].
    destruct (apply_eq s1 h' b Hhb ltac:(lia) ltac:(lia)) as [[_ E2]|[Hno _]]; [|by rewrite EN in Hno].
    rewrite Eb in E2. assert (s1 = at_position sl (s_Number s1) (s_Hash s1)) as Es1 by (rewrite E1; done). rewrite Es1 in E2 at 1. rewrite apply_loop_at in E2.
    destruct (apply_loop sl (h' :: b)) as [[s2|e]| |] eqn:E2l; cbn [obind map_snap] in E2 |- *; [|congruence|done..].
    rewrite E2. do 2 f_equal. destruct (apply_loop_position _ _ _ E2l) as [P1 _]. destruct (apply_loop_position _ _ _ El) as [P2 _]. unfold at_position. cbn [s_Number].
    f_equal; [rewrite P1, P2, zlen_app; cbn [s_config s_Number s_Hash s_Signers s_Recents s_Votes s_Tally]; rewrite EN, !u64_small by u64_lia; lia|].
    f_equal. apply (inj Some). rewrite <- (last_List_last h' b h'). etrans; [symmetry; exact (last_List_last h (a ++ h' :: b) h)|]. apply (last_app_cons (h :: a)).
  - change (h :: a ++ h' :: b) with ((h :: a) ++ h' :: b) in *. rewrite E3. destruct (apply_eq s1 h' b Hhb ltac:(lia) ltac:(lia)) as [[Hb1 _]|[_ E2]]; [|congruence].
    destruct Hno. apply numbered_app. split; [done|by rewrite <- EN].
Qed.

(** ** Signers wait for each other *)

Lemma shift_keeps S number rec k : small S number -> number - limit S < k -> shift_recents S number rec !! k = rec !! k.
Proof. intros Hs Hk. rewrite shift_recents_eq by done. destruct (_ <=? _); [|done]. by rewrite lookup_delete_ne by lia. Qed.

Lemma pass_vote_keeps snap number x k : small (s_Signers snap) number -> number - limit (s_Signers (pass_vote snap number x)) < k ->
  s_Recents (pass_vote snap number x) !! k = s_Recents snap !! k.
Proof.
  intros [Hn Hs]. unfold pass_vote. destruct (_ <? _); [|done]. destruct (tally_Authorize _); [done|]. destruct (discard_signer _ _ _) as [votes t].
  cbn [s_Signers s_Recents]. intros Hk. apply shift_keeps; [|done]. assert (size (s_Signers snap ∖ {[x]}) <= size (s_Signers snap))%nat by (apply subseteq_size; set_solver).
  split; [done|lia].
Qed.

(** A header leaves the recent signers in the window alone. *)
Lemma apply_header_keeps s h n s' k : small (s_Signers s) (n + 1) -> h_Number h = Some (n + 1) -> apply_header s h = Ok (inl s') ->
  n + 1 - limit (s_Signers s) < k -> n + 1 - limit (s_Signers s') < k -> k <> n + 1 -> s_Recents s' !! k = s_Recents s !! k.
Proof.
  intros Hs En E Hk Hk' Hne. unfold apply_header in E. rewrite En in E. cbn [deref of_option obind] in E.
  assert (Uint64 (n + 1) = n + 1) as EU by (unfold Uint64; rewrite Z.abs_eq by (destruct Hs; lia); apply u64_small; destruct Hs; u64_lia). rewrite EU in E.
  destruct (umod _ _) as [m| |]; [|done..]. cbn [obind] in E. destruct (if m =? 0 then _ else _) as [votes t]. destruct (recover_signer h) as [[signer|e]| |]; [|done..]. cbn [obind] in E.
  destruct (negb _); [done|]. destruct (existsb _ _); [done|]. destruct (discard_vote _ _ _ _) as [votes1 t1]. destruct (vote_of_nonce _) as [b|]; [|done].
  destruct (cast _ _ _ _) as [ok t2]. injection E as <-. rewrite pass_vote_keeps by done. cbn [s_Recents]. rewrite lookup_insert_ne by done. by apply shift_keeps.
Qed.

(** A run of headers during which there are always at least [2 * w] signers, and its
    signers. *)
Inductive window_run (w : Z) : Z -> Snapshot -> list Header -> list Address -> Snapshot -> Prop :=
| window_nil n s : window_run w n s [] [] s
| window_cons n s h s1 a hs signers s' :
    apply_header s h = Ok (inl s1) -> recover_signer h = Ok (inl a) -> h_Number h = Some (n + 1) ->
    2 * w <= Z.of_nat (size (s_Signers s)) -> 2 * w <= Z.of_nat (size (s_Signers s1)) -> Z.of_nat (size (s_Signers s)) + 1 < 2 ^ 62 -> n + 1 < 2 ^ 62 ->
    window_run w (n + 1) s1 hs signers s' -> window_run w n s (h :: hs) (a :: signers) s'.

Lemma window_limit w S : 2 * w <= Z.of_nat (size S) -> w < limit S.
Proof. intros H. unfold limit. Z.to_euclidean_division_equations. lia. Qed.

Lemma window_waits w n s hs signers s' : window_run w n s hs signers s' -> snap_ok n s -> 0 <= n -> 0 < Epoch (s_config s) ->
  forall k a j, s_Recents s !! k = Some a -> signers !! j = Some a -> w < n + 1 + Z.of_nat j - k.
Proof.
  induction 1 as [n s|n s h s1 b hs signers s' E Er En HS HS1 Hsz Hn2 _ IH]; intros Hs Hn He k a j Ek Ej; [by rewrite lookup_nil in Ej|].
  assert (small (s_Signers s) (n + 1)) as Hsm by (split; lia). pose proof (window_limit _ _ HS) as Hl. pose proof (window_limit _ _ HS1) as Hl1.
  pose proof (apply_header_ok s h n (inl b) Hs Hsm Hn Hsz He En Er) as H. destruct (header_refused _ _ _ _) as [e|]; [congruence|].
  destruct H as (s1' & b' & au & E' & Eb & _ & Hnr & _ & Hs1 & _ & Ec & _). assert (s1' = s1) as -> by congruence. injection Eb as <-.
  pose proof (proj1 (so_recents _ _ Hs) k a Ek) as [Hk _].
  destruct j as [|j].
  - injection Ej as ->. destruct (Z.lt_ge_cases w (n + 1 + Z.of_nat 0 - k)) as [|Hge]; [done|]. destruct Hnr. exists k. split; [lia|done].
  - destruct (Z.lt_ge_cases w (n + 1 + Z.of_nat (S j) - k)) as [|Hge]; [done|].
    rewrite <- (apply_header_keeps s h n s1 k) in Ek by (done || lia). cbn [lookup list_lookup] in Ej.
    specialize (IH Hs1 ltac:(lia) ltac:(by rewrite Ec) k a j Ek Ej). lia.
Qed.

(** C30: signers wait for each other.  While there are at least [2 * w] signers, no two
    of [w + 1] blocks in a row are by the same signer: the same signer signs again
    only after more than [w] blocks. *)
Theorem signer_spacing (w n : Z) (s s' : Snapshot) (headers : list Header) (signers : list Address) (i j : nat) (a : Address) :
  window_run w n s headers signers s' -> snap_ok n s -> 0 <= n -> 0 < Epoch (s_config s) ->
  signers !! i = Some a -> signers !! j = Some a -> (i < j)%nat -> w < Z.of_nat j - Z.of_nat i.
Proof.
  intros H. revert i j. induction H as [n s|n s h s1 b hs signers s' E Er En HS HS1 Hsz Hn2 Hrun IH]; intros i j Hs Hn He Ei Ej Hij; [by rewrite lookup_nil in Ei|].
  pose proof (apply_header_ok s h n (inl b) Hs ltac:(split; lia) Hn Hsz He En Er) as H. destruct (header_refused _ _ _ _) as [e|]; [congruence|].
  destruct H as (s1' & b' & au & E' & Eb & _ & _ & _ & Hs1 & _ & Ec & _ & _ & Erec). assert (s1' = s1) as -> by congruence. injection Eb as <-.
  destruct j as [|j]; [lia|]. destruct i as [|i].
  - injection Ei as ->. pose proof (window_waits _ _ _ _ _ _ Hrun Hs1 ltac:(lia) ltac:(by rewrite Ec) (n + 1) a j Erec Ej). lia.
  - specialize (IH i j Hs1 ltac:(lia) ltac:(by rewrite Ec) Ei Ej ltac:(lia)). lia.
Qed.
End run.
