(* ===== verification/CliqueVerify.v ===== *)
(** * What the clique engine accepts

    The snapshot the engine works with is one that a replay of headers on top of a
    trusted block gives, whatever is in its caches, and a header that is accepted
    follows the rules on its fields, its time and its signer. *)

From Stdlib Require Import ZArith Lia.
From stdpp Require Import gmap sorting.
From S2P Require Import Prelude Common Params Rlp RlpSpec RlpTheorems Crypto Trie StackTrie Types Transaction Receipt Block EthashAlgo EthashCache Engine Clique CliqueVotes CliqueApply CliqueEngine.

Open Scope go_scope.

(** ** The signer of a header *)

Section recover.
Context {K : Keccak} {C : CryptoPrims} {CL : CryptoLaws C}.

Lemma with_extra_fields h e : exists pre post, header_rval h = VList (pre ++ VBytes (h_Extra h) :: post) /\ header_rval (with_extra h e) = VList (pre ++ VBytes e :: post).
Proof. unfold header_rval, header_fields. eexists (_ :: _ :: _ :: _ :: _ :: _ :: _ :: _ :: _ :: _ :: _ :: _ :: []), _. split; reflexivity. Qed.

(** A shorter extra field makes the encoding shorter. *)
Lemma with_extra_ok h e : header_ok h -> Forall is_byte e -> zlen e + extraSeal <= zlen (h_Extra h) -> header_ok (with_extra h e).
Proof.
  intros H He Hl. pose proof (extra_short h H) as Hs. pose proof (ok_size h H) as Hz. destruct (with_extra_fields h e) as (pre & post & E1 & E2). unfold extraSeal in *.
  split; try apply H; [exact He|]. rewrite E1 in Hz. rewrite E2. cbn [rlp] in *. unfold rlp_list in *. rewrite !map_app, !concat_app in *. cbn [map concat rlp] in *.
  set (a := concat (map rlp pre)) in *. set (b := concat (map rlp post)) in *. rewrite !zlen_app in *. pose proof (zlen_nonneg e) as He0.
  assert (zlen (rlp_string e) <= zlen e + 9) as H1.
  { assert (forall n, is_u64 n -> zlen (rlp_head 128 n ++ e) <= zlen e + 9) as Hh by (intros n Hn; rewrite zlen_app; pose proof (rlp_head_length 128 n Hn); lia).
    unfold rlp_string. destruct e as [|x [|y e]]; [apply Hh; u64_lia| |apply Hh; u64_lia]. destruct (x <? 128); [lia|]. apply Hh. u64_lia. }
  pose proof (rlp_string_shorter (h_Extra h)) as H2. pose proof (zlen_nonneg a). pose proof (zlen_nonneg b).
  pose proof (zlen_nonneg (rlp_head 192 (zlen a + (zlen (rlp_string (h_Extra h)) + zlen b)))). pose proof (zlen_nonneg (rlp_string e)).
  pose proof (rlp_head_length 192 (zlen a + (zlen (rlp_string e) + zlen b)) ltac:(unfold data_max in *; u64_lia)). lia.
Qed.

(** The recovery of the signer does not panic. *)
Lemma header_recoverable h : header_ok h -> recoverable h.
Proof.
  intros H. unfold recoverable, recover_signer, extraSeal. destruct (Z.ltb_spec (zlen (h_Extra h)) 65) as [Hl|Hl]; [by eexists|].
  rewrite (zslice_Some _ _ _) by lia. cbn [of_option obind]. unfold clique_SealHash, CliqueRLP, unsealed_extra, extraSeal.
  rewrite zslice_Some by lia. cbn [of_option obind]. set (e := take _ (drop _ _)).
  assert (header_ok (with_extra h e)) as H'.
  { apply with_extra_ok; [done|apply Forall_take, Forall_drop, H|]. unfold e, extraSeal. rewrite drop_0. unfold zlen in *. rewrite length_take. lia. }
  change (sig_rval h e) with (header_rval (with_extra h e)).
  rewrite (Encode_rlp _ (has_type_encodable _ _ header_supported (header_has_type _ H')) (ok_size _ H')). cbn [of_option obind].
  destruct (Ecrecover _ _) as [pk|] eqn:Ep; [|by eexists]. apply Ecrecover_len in Ep as [_ Ep]. rewrite zslice_Some by lia. cbn [of_option obind]. by eexists.
Qed.

(** The cache of signers is transparent. *)
Lemma ecrecover_ok {L : Type -> Type} {LR : SimpleLRU L} {LL : SimpleLRULaws L} (h : Header) (sigcache : L Address) (known : Header -> Prop) : header_ok h ->
  (forall h', known h' -> Header_Hash h' = Header_Hash h -> h' = h) ->
  (forall k a, lru_holds sigcache k a -> exists h', known h' /\ Header_Hash h' = k /\ recover_signer h' = Ok (inl a)) ->
  exists r sigcache', recover_signer h = Ok r /\ ecrecover h sigcache = Ok (r, sigcache') /\
    (forall k a, lru_holds sigcache' k a -> exists h', (known h' \/ h' = h) /\ Header_Hash h' = k /\ recover_signer h' = Ok (inl a)).
Proof.
  intros Hh Hinj Hc. destruct (header_recoverable h Hh) as [r Er]. unfold ecrecover. destruct (lru_Get sigcache (Header_Hash h)) as [a sc] eqn:E.
  assert (forall k a, lru_holds sc k a -> exists h', known h' /\ Header_Hash h' = k /\ recover_signer h' = Ok (inl a)) as Hc'.
  { intros k b Hb. apply Hc. apply (lru_Get_holds _ _ (Header_Hash h)). by rewrite E. }
  assert (forall k a, lru_holds sc k a -> exists h', (known h' \/ h' = h) /\ Header_Hash h' = k /\ recover_signer h' = Ok (inl a)) as Hc2.
  { intros k b Hb. destruct (Hc' k b Hb) as (h' & ? & ? & ?). exists h'. tauto. }
  destruct a as [a|].
  - destruct (Hc (Header_Hash h) a) as (h' & Hk & Ehh & Er'); [unfold lru_holds; by rewrite E|]. rewrite (Hinj h' Hk Ehh) in Er'. exists (inl a), sc. by split_and!.
  - rewrite Er. cbn [obind]. destruct r as [a|e]; eexists _, _; (split_and!; [done|done|]); [|exact Hc2].
    intros k b [[-> ->]|Hb]%lru_Add_holds; [|by apply Hc2]. exists h. split_and!; [by right|done|done].
Qed.
End recover.

(** ** Snapshots *)

Lemma newSnapshot_ok config number hash l : 0 <= number -> snap_ok number (newSnapshot config number hash l).
Proof.
  intros Hn. split; cbn.
  - split; [apply NoDup_nil_2|apply Forall_nil_2..|]. intros a. rewrite count_nil. split; [done|]. by rewrite lookup_empty.
  - split; intros k *; by rewrite lookup_empty.
Qed.

Lemma omapM_ok {A B} (f : A -> outcome B) l : (forall x, x ∈ l -> exists y, f x = Ok y) -> exists ys, omapM f l = Ok ys /\ length ys = length l.
Proof.
  induction l as [|x l IH]; intros H; cbn [omapM]; [by eexists|]. destruct (H x) as [y ->]; [apply list_elem_of_here|]. cbn [obind].
  destruct IH as (ys & -> & E); [intros z Hz; apply H; by apply list_elem_of_further|]. cbn [obind]. eexists. split; [done|]. cbn. lia.
Qed.

Lemma checkpoint_signers_ok extra : extraVanity + extraSeal <= zlen extra -> exists l, checkpoint_signers extra = Ok l /\ zlen l <= zlen extra.
Proof.
  unfold extraVanity, extraSeal. intros Hl. unfold checkpoint_signers, extraVanity, extraSeal. rewrite Z.quot_div_nonneg by lia.
  set (n := (zlen extra - 32 - 65) / 20). assert (0 <= n /\ 20 * n <= zlen extra - 97) as [Hn Hn'] by (unfold n; Z.to_euclidean_division_equations; lia).
  destruct (Z.ltb_spec n 0) as [|_]; [lia|]. set (f := fun i : Z => _).
  destruct (omapM_ok f (seqZ 0 n)) as (l & El & Elen); [|exists l; split; [exact El|]; rewrite length_seqZ in Elen; unfold Address in *; unfold zlen at 1; lia].
  intros i Hi%elem_of_seqZ. unfold f. rewrite zslice_Some by lia. cbn [of_option obind]. by eexists.
Qed.

Lemma size_list_le (l : list Z) : (size (list_to_set l : gset Z) <= length l)%nat.
Proof.
  induction l as [|x l IH]; [done|]. cbn [list_to_set length]. pose proof (size_union_alt ({[x]} : gset Z) (list_to_set l)) as E. rewrite size_singleton in E.
  assert (size ((list_to_set l : gset Z) ∖ {[x]}) <= size (list_to_set l : gset Z))%nat by (apply subseteq_size; set_solver). lia.
Qed.

Section found.
Context {K : Keccak} {C : CryptoPrims} {CL : CryptoLaws C} {L : Type -> Type} {LR : SimpleLRU L} {LL : SimpleLRULaws L} {CR : ChainReader} {CRL : ChainReaderLaws CR}.
Context (v : cenv) (config : CliqueConfig) (num_of : Hash -> Z).
Implicit Types (c : Clique (L := L)) (s : Snapshot).

(** The hash of a header that is known determines its number. *)
Definition known (h : Header) : Prop := header_ok h /\ h_Number h = Some (num_of (Header_Hash h)) /\ num_of (Header_Hash h) < 2 ^ 59.

(** What the engine relies on of the chain: there is a genesis block, and the headers
    have passed its own check of the length of the extra data. *)
Record clique_chain : Prop := MkCliqueChain {
  cc_epoch : 0 < Epoch config;
  cc_genesis : exists g, GetHeaderByNumber 0 = Some g;
  cc_known : forall hash number h, GetHeader hash number = Some h -> known h;
  cc_number : forall number h, GetHeaderByNumber number = Some h -> known h /\ extraVanity + extraSeal <= zlen (h_Extra h) < 2 ^ 59;
}.

(** The snapshot is the replay of headers on top of the signers in the genesis block or
    a checkpoint. *)
Definition replay (s : Snapshot) : Prop :=
  exists m checkpoint l headers, GetHeaderByNumber m = Some checkpoint /\ (m = 0 \/ m mod Epoch config = 0) /\ checkpoint_signers (h_Extra checkpoint) = Ok l /\
    Forall known headers /\ m + zlen headers < 2 ^ 59 /\ apply (newSnapshot config m (Header_Hash checkpoint) l) headers = Ok (inl s).

Definition entry (s : Snapshot) : Prop := replay s /\ s_Number s = num_of (s_Hash s).

(** The cache and the database hold snapshots under their hashes. *)
Definition coherent c : Prop :=
  c_config c = config /\ forall k s, lru_holds (c_recents c) k s \/ c_db c !! k = Some s -> entry s /\ s_Hash s = k.

Definition kept c c' : Prop := c_config c' = c_config c /\ c_proposals c' = c_proposals c /\ c_signer c' = c_signer c /\ c_fakeDiff c' = c_fakeDiff c.

Lemma known_inv h : known h -> exists n, h_Number h = Some n /\ n = num_of (Header_Hash h) /\ 0 <= n < 2 ^ 59 /\ Uint64 n = n.
Proof.
  intros (Hh & E & Hn). destruct (ok_Number h Hh) as (n & E' & Hn0). rewrite E in E'. injection E' as E'. exists (num_of (Header_Hash h)).
  split_and!; [done|done|lia|lia|]. unfold Uint64. rewrite Z.abs_eq by lia. apply u64_small. u64_lia.
Qed.

Lemma known_lists hs : Forall known hs -> numbers_ok hs /\ Forall recoverable hs.
Proof.
  intros H. split; (eapply Forall_impl; [exact H|]); intros h Hk.
  - destruct (known_inv h Hk) as (n & E & _ & Hn & _). exists n. split; [done|lia].
  - apply header_recoverable, Hk.
Qed.

(** The number of the last header. *)
Lemma numbered_last n hs h : numbered n hs -> last hs = Some h -> h_Number h = Some (n + zlen hs).
Proof.
  intros Hn Hl. destruct (exists_last (l := hs)) as (l & x & E); [by intros ->|]. subst hs. rewrite last_snoc in Hl. injection Hl as <-.
  apply numbered_app in Hn as [_ [E _]]. rewrite E, zlen_app, zlen_cons, zlen_nil. f_equal. lia.
Qed.

Section chain.
Context (HC : clique_chain).

Lemma replay_from m cp l hs s : GetHeaderByNumber m = Some cp -> checkpoint_signers (h_Extra cp) = Ok l -> Forall known hs -> m + zlen hs < 2 ^ 59 ->
  apply (newSnapshot config m (Header_Hash cp) l) hs = Ok (inl s) ->
  snap_ok (s_Number s) s /\ s_config s = config /\ 0 <= m /\ s_Number s = m + zlen hs /\ Z.of_nat (size (s_Signers s)) < 2 ^ 60.
Proof.
  intros Ecp El Hhs Hb E. destruct (cc_number HC _ _ Ecp) as [Hk Hx]. destruct (GetHeaderByNumber_ok _ _ Ecp) as [Em _].
  destruct (known_inv cp Hk) as (m' & Em' & _ & Hm & _). rewrite Em in Em'. injection Em' as <-. destruct (known_lists hs Hhs) as [Hn Hr].
  destruct (checkpoint_signers_ok (h_Extra cp)) as (l' & El' & Hl); [lia|]. rewrite El in El'. injection El' as <-.
  set (s0 := newSnapshot config m (Header_Hash cp) l) in *. assert (Z.of_nat (size (s_Signers s0)) <= zlen l) as Hsz.
  { apply inj_le. exact (size_list_le l). }
  destruct (apply_ok s0 hs) as (r & Er & _ & Hs); [exact (newSnapshot_ok config m (Header_Hash cp) l (proj1 Hm))|exact (proj1 Hm)|change (s_Number s0) with m; lia|lia|apply HC|done|done|].
  rewrite E in Er. injection Er as <-. destruct (Hs s eq_refl) as (_ & H1 & H2 & H3 & _ & bs & Hbs & Hg). pose proof (zlen_nonneg hs). change (s_Number s0) with m in H2.
  split_and!; [done|done|lia|lia|]. change (s_Signers s) with (g_signers (snap_gov s)). rewrite Hg. pose proof (gov_run_size (Epoch (s_config s0)) bs (s_Number s0) (snap_gov s0)) as Hgs.
  change (g_signers (snap_gov s0)) with (s_Signers s0) in Hgs. assert (zlen bs = zlen hs) by (unfold zlen; by rewrite (Forall2_length _ _ _ Hbs)). lia.
Qed.

Lemma replay_ok s : replay s -> snap_ok (s_Number s) s /\ s_config s = config /\ 0 <= s_Number s < 2 ^ 59 /\ Z.of_nat (size (s_Signers s)) < 2 ^ 60.
Proof.
  intros (m & cp & l & hs & Ecp & _ & El & Hhs & Hb & E). destruct (replay_from m cp l hs s Ecp El Hhs Hb E) as (H1 & H2 & H3 & H4 & H5).
  pose proof (zlen_nonneg hs). split_and!; [done|done|lia|lia|done].
Qed.

(** Applying headers to a snapshot of the engine. *)
Lemma apply_replay s hs : replay s -> Forall known hs -> zlen hs < 2 ^ 59 ->
  exists r, apply s hs = Ok r /\ forall s', r = inl s' -> replay s' /\ s_Number s' = s_Number s + zlen hs /\ numbered (s_Number s) hs /\
    s_Hash s' = match last hs with Some h => Header_Hash h | None => s_Hash s end.
Proof.
  intros Hs Hhs Hl. destruct (replay_ok s Hs) as (Hok & Ec & Hn & Hsz). destruct (known_lists hs Hhs) as [Hnum Hr].
  destruct (apply_ok s hs Hok ltac:(lia) ltac:(lia) ltac:(lia) ltac:(rewrite Ec; apply HC) Hnum Hr) as (r & Er & _ & Hr'). exists r. split; [done|].
  intros s' ->. destruct (Hr' s' eq_refl) as (H1 & _ & H2 & _ & H3 & _). split_and!; [|done..].
  destruct Hs as (m & cp & l & hs0 & Ecp & Hm & El & Hhs0 & Hb & E). exists m, cp, l, (hs0 ++ hs). assert (Forall known (hs0 ++ hs)) as Hall by (by apply Forall_app).
  destruct (known_lists _ Hall) as [Hnall _]. destruct (replay_from m cp l hs0 s Ecp El Hhs0 Hb E) as (_ & _ & Hm0 & HN & _). pose proof (zlen_nonneg hs0).
  assert (m + zlen (hs0 ++ hs) < 2 ^ 59) as Hb'.
  { rewrite zlen_app. destruct (last hs) as [h|] eqn:Elast; [|apply last_None in Elast; subst hs; rewrite (zlen_nil (A := Header)); lia].
    pose proof (numbered_last _ _ _ H1 Elast) as Eh. assert (known h) as Hk by (rewrite Forall_forall in Hhs; by apply Hhs, last_Some_elem_of).
    destruct (known_inv h Hk) as (n & En & _ & Hn' & _). rewrite Eh in En. injection En as En. lia. }
  split_and!; [done..|]. apply (apply_app _ hs0 hs s); [done|cbn; lia|cbn [newSnapshot s_Number]; lia|done|done|done].
Qed.

Lemma coherent_get c hash : coherent c -> coherent (set_recents c (snd (lru_Get (c_recents c) hash))).
Proof.
  intros [Ec H]. split; [done|]. intros k s [Hk|Hk]; apply H; [left|by right]. by apply (lru_Get_holds _ _ hash).
Qed.

Lemma coherent_add c s : coherent c -> entry s -> coherent (set_recents c (lru_Add (c_recents c) (s_Hash s) s)).
Proof.
  intros [Ec H] Hs. split; [done|]. intros k s' [Hk|Hk]; [|apply H; by right].
  apply lru_Add_holds in Hk as [[-> ->]|Hk]; [done|]. apply H. by left.
Qed.

Lemma coherent_store c s : coherent c -> entry s -> exists ok c', store v s c = (ok, c') /\ coherent c' /\ kept c c'.
Proof.
  intros [Ec H] Hs. unfold store. destruct (c_put_ok v (s_Hash s)); eexists _, _; (split_and!; [done| |done]); [|done]. split; [done|].
  intros k s' [Hk|Hk]; [apply H; by left|]. cbn [set_db c_db] in Hk. apply lookup_insert_Some in Hk as [[<- <-]|[_ Hk]]; [done|]. apply H. by right.
Qed.

Lemma engine_kept_trans c1 c2 c3 : kept c1 c2 -> kept c2 c3 -> kept c1 c3.
Proof. unfold kept. intuition congruence. Qed.

(** Where the headers of the loop end: at the block [N]. *)
Definition ends_at (N : Z) (headers : list Header) (rest : Prop) : Prop :=
  match head headers with Some h => h_Number h = Some N | None => rest end.

Lemma ends_at_snoc N headers h n : ends_at N headers (n = N) -> h_Number h = Some n -> forall P, ends_at N (headers ++ [h]) P.
Proof. destruct headers as [|h' headers]; cbn; [intros <- ->; done|done]. Qed.

Definition found (N : Z) (r : Snapshot * list Header + clique_error) : Prop :=
  match r with
  | inr _ => True
  | inl (s, headers) => entry s /\ Forall known headers /\ zlen headers < 2 ^ 59 /\ ends_at N headers (s_Number s = N)
  end.

Lemma snapshot_find_ok N fuel : forall n hash parents headers c, (Z.to_nat n < fuel)%nat -> 0 <= n < 2 ^ 59 -> zlen headers + n < 2 ^ 59 ->
  ends_at N headers (n = N) -> ends_at N headers (num_of hash = N) ->
  coherent c -> Forall known parents -> Forall known headers ->
  exists r c', snapshot_find v fuel n hash parents headers c = Ok (r, c') /\ coherent c' /\ kept c c' /\ found N r.
Proof.
  induction fuel as [|fuel IH]; intros n hash parents headers c Hf Hn Hl Hnn Hnh Hc Hp Hh; [lia|]. cbn [snapshot_find].
  pose proof (coherent_get c hash Hc) as Hc1. destruct (lru_Get (c_recents c) hash) as [o rec] eqn:Eg. cbn [snd] in Hc1.
  assert (forall s, entry s /\ s_Hash s = hash -> found N (inl (s, headers))) as Hfound.
  { intros s [[Hr Hs] Eh]. split_and!; [by split|done|lia|]. unfold ends_at in *. destruct (head headers); [done|]. by rewrite Hs, Eh. }
  destruct o as [s|].
  { eexists _, _. split_and!; [done|done|done|]. apply Hfound. apply (proj2 Hc). left. unfold lru_holds. by rewrite Eg. }
  set (c1 := set_recents c rec) in *. assert (kept c c1) as Hk1 by done. assert (c_config c1 = config) as Ec by apply Hc1.
  destruct (if n mod checkpointInterval =? 0 then c_db c1 !! hash else None) as [s|] eqn:Ed.
  { destruct (n mod checkpointInterval =? 0); [|done]. destruct (proj2 Hc1 hash s (or_intror Ed)) as [Hs Eh]. destruct (replay_ok s (proj1 Hs)) as (_ & Es & _).
    rewrite Ec, <- Es. replace (MkSnapshot _ _ _ _ _ _ _) with s by (by destruct s). eexists _, _. split_and!; [done|done|done|]. by apply Hfound. }
  rewrite Ec. unfold umod. pose proof (cc_epoch HC) as Hep. destruct (Z.eqb_spec (Epoch config) 0); [lia|]. cbn [obind].
  set (trusted := (n =? 0) || _). destruct (if trusted then GetHeaderByNumber n else None) as [cp|] eqn:Ecp.
  { destruct trusted eqn:Et; [|done]. destruct (cc_number HC _ _ Ecp) as [Hk Hx]. destruct (GetHeaderByNumber_ok _ _ Ecp) as [Em _].
    destruct (checkpoint_signers_ok (h_Extra cp)) as (l & El & _); [lia|]. rewrite El. cbn [obind]. set (s := newSnapshot config n (Header_Hash cp) l).
    assert (entry s) as Hs.
    { split; [|destruct (known_inv cp Hk) as (n' & En' & E' & _); rewrite Em in En'; injection En' as <-; exact E'].
      exists n, cp, l, []. rewrite (zlen_nil (A := Header)). split_and!; [done| |done|apply Forall_nil_2|lia|done].
      unfold trusted in Et. apply orb_true_iff in Et as [Et|[Et _]%andb_true_iff]; apply Z.eqb_eq in Et; tauto. }
    destruct (coherent_store c1 s Hc1 Hs) as (ok & c' & -> & Hc' & Hk'). eexists _, c'. split_and!; [done|done|by eapply engine_kept_trans|]. destruct ok; [|done].
    split_and!; [done|done|lia|done]. }
  assert (n <> 0) as Hn0.
  { intros ->. unfold trusted in Ecp. cbn [Z.eqb orb] in Ecp. destruct (cc_genesis HC) as [g Eg']. congruence. }
  assert (forall header parents', known header -> h_Number header = Some n -> Forall known parents' ->
    exists r c', snapshot_find v fuel (n -u 1) (h_ParentHash header) parents' (headers ++ [header]) c1 = Ok (r, c') /\ coherent c' /\ kept c c' /\ found N r) as Hnext.
  { intros header parents' Hkh Enh Hp'. rewrite u64_small by u64_lia. destruct (IH (n - 1) (h_ParentHash header) parents' (headers ++ [header]) c1) as (r & c' & E & H1 & H2 & H3);
      [lia|lia|rewrite zlen_app, zlen_cons, zlen_nil; lia|exact (ends_at_snoc N headers header n Hnn Enh _)|exact (ends_at_snoc N headers header n Hnn Enh _)|done|done|apply Forall_app; split; [done|by apply Forall_singleton]|].
    exists r, c'. split_and!; [done|done|by eapply engine_kept_trans|done]. }
  destruct (last parents) as [header|] eqn:Elast.
  - assert (known header) as Hkh by (rewrite Forall_forall in Hp; by apply Hp, last_Some_elem_of). destruct (known_inv header Hkh) as (k & Ek & _ & Hk & EU). rewrite Ek. cbn [deref of_option obind].
    rewrite EU. destruct (negb _ || negb _) eqn:Eb; [by eexists _, _|]. apply orb_false_iff in Eb as [_ Eb]. apply negb_false_iff, Z.eqb_eq in Eb. subst k.
    apply Hnext; [done|done|]. rewrite removelast_firstn_len. by apply Forall_take.
  - destruct (GetHeader hash n) as [header|] eqn:Eh; [|by eexists _, _]. apply Hnext; [by eapply cc_known|apply (GetHeader_ok _ _ _ Eh)|done].
Qed.

Lemma snapshot_ok number hash parents c : 0 <= number < 2 ^ 59 -> num_of hash = number -> coherent c -> Forall known parents ->
  exists r c', snapshot v (snapshot_fuel number) number hash parents c = Ok (r, c') /\ coherent c' /\ kept c c' /\
    forall s, r = inl s -> replay s /\ s_Number s = number.
Proof.
  intros Hn Eh Hc Hp. unfold snapshot. destruct (snapshot_find_ok number (snapshot_fuel number) number hash parents [] c) as (r & c1 & -> & Hc1 & Hk1 & Hr);
    [unfold snapshot_fuel; lia|done|rewrite (zlen_nil (A := Header)); lia|done|done|done|done|apply Forall_nil_2|]. cbn [obind].
  destruct r as [[s hs]|e]; [|by eexists _, _]. destruct Hr as ([Hs Es] & Hhs & Hl & He).
  destruct (apply_replay s (reverse hs)) as (r & -> & Hr); [done|by apply Forall_reverse|unfold zlen in *; by rewrite length_reverse|]. cbn [obind].
  destruct r as [s'|e]; [|by eexists _, _]. destruct (Hr s' eq_refl) as (Hs' & EN & Hnum & EH).
  assert (entry s' /\ s_Number s' = number) as [Hent Enum].
  { destruct hs as [|h hs]; [cbn in He; change (reverse []) with (@nil Header) in *; rewrite (zlen_nil (A := Header)) in EN; cbn in EH; split; [split; [done|by rewrite EH, EN, Z.add_0_r]|lia]|].
    cbn [ends_at head] in He. rewrite reverse_cons in *. rewrite last_snoc in EH. apply Forall_cons in Hhs as [Hkh _].
    pose proof (numbered_last _ _ h Hnum (last_snoc _ _)) as Eh'. rewrite He, <- EN in Eh'. injection Eh' as Eh'. destruct (known_inv h Hkh) as (k & Ek & Ek' & _).
    rewrite He in Ek. injection Ek as <-. split; [split; [done|by rewrite EH, <- Ek']|done]. }
  pose proof (coherent_add c1 s' Hc1 Hent) as Hc2. set (c2 := set_recents c1 _) in *. assert (kept c c2) as Hk2 by exact Hk1.
  destruct ((_ =? 0) && _); [|eexists _, c2; split_and!; [done|done|done|by intros s'' [= <-]]].
  destruct (coherent_store c2 s' Hc2 Hent) as (ok & c3 & -> & Hc3 & Hk3). eexists _, c3. split_and!; [done|done|by eapply engine_kept_trans|].
  destruct ok; [|done]. by intros s'' [= <-].
Qed.
End chain.
End found.
