(* ===== verification/CliqueSeal.v ===== *)
(** * The signatures and the headers the clique engine accepts

    What the check of a signature accepts, next to what the replay of the header
    accepts, and the rules an accepted header follows. *)

From Stdlib Require Import ZArith Lia.
From stdpp Require Import gmap sorting.
From S2P Require Import Prelude Common Params Rlp RlpSpec Crypto Trie StackTrie Types Transaction Receipt Block EthashAlgo EthashCache Engine Ethash Clique CliqueVotes CliqueApply CliqueEngine CliqueVerify.

Open Scope go_scope.

(** ** Whose turn it is *)

(** The position of an account among the signers in ascending order. *)
Definition rank (S : gset Z) (a : Address) : Z := Z.of_nat (size (filter (fun b => b < a) S)).

Definition in_turn (S : gset Z) (number : Z) (a : Address) : bool := number mod Z.of_nat (size S) =? rank S a.

Lemma signer_offset_sorted l a : StronglySorted Z.le l -> NoDup l -> a ∈ l -> signer_offset l a = Z.of_nat (length (filter (fun b => b < a) l)).
Proof.
  intros Hs Hnd Hin. induction l as [|b l IH]; [by apply not_elem_of_nil in Hin|]. cbn [signer_offset]. inversion Hs as [|? ? Hs' Hb]; subst. apply NoDup_cons in Hnd as [Hni Hnd].
  rewrite Forall_forall in Hb. destruct (Z.eqb_spec b a) as [->|Hne].
  - rewrite filter_cons_False by lia. destruct (filter (fun b => b < a) l) as [|x k] eqn:E; [done|]. assert (x ∈ filter (fun b => b < a) l) as Hx by (rewrite E; apply list_elem_of_here).
    apply list_elem_of_filter in Hx as [Hlt Hx]. specialize (Hb x Hx). lia.
  - apply elem_of_cons in Hin as [->|Hin]; [done|]. pose proof (Hb a Hin). rewrite filter_cons_True by lia. cbn [length]. rewrite IH by done. lia.
Qed.

Lemma signers_perm s : signers s ≡ₚ elements (s_Signers s).
Proof. apply merge_sort_Permutation. Qed.

Lemma inturn_ok s number a : a ∈ s_Signers s -> Z.of_nat (size (s_Signers s)) < 2 ^ 61 -> inturn s number a = Ok (in_turn (s_Signers s) number a).
Proof.
  intros Hin Hb. assert (zlen (signers s) = Z.of_nat (size (s_Signers s))) as El by (unfold zlen; rewrite signers_perm; done).
  assert (0 < Z.of_nat (size (s_Signers s))) as Hpos.
  { assert (size (s_Signers s) <> 0%nat); [|lia]. rewrite size_non_empty_iff. set_solver. }
  unfold inturn, umod. rewrite El, u64_small by u64_lia. destruct (Z.eqb_spec (Z.of_nat (size (s_Signers s))) 0); [lia|]. cbn [obind]. unfold in_turn, rank. do 2 f_equal.
  rewrite signer_offset_sorted; [|apply (StronglySorted_merge_sort Z.le)|rewrite signers_perm; apply NoDup_elements|rewrite signers_perm; by apply elem_of_elements].
  f_equal. rewrite signers_perm. unfold size, set_size. cbn. apply Permutation_length. apply NoDup_Permutation; [apply NoDup_filter, NoDup_elements|apply NoDup_elements|].
  intros x. rewrite list_elem_of_filter, !elem_of_elements, elem_of_filter. done.
Qed.

(** ** The signature and the replay *)

Section seal.
Context {K : Keccak} {C : CryptoPrims} {CL : CryptoLaws C}.

(** The signature of a header on top of the snapshot.  The signer is authorised, and
    has waited: this is checked from the block [limit] on only, as the difference of
    the unsigned numbers wraps around before it.  The difficulty tells whether it is
    the turn of the signer. *)
Definition sealed (s : Snapshot) (header : Header) (number : Z) (fakeDiff : bool) : Prop :=
  exists signer, recover_signer header = Ok (inl signer) /\ signer ∈ s_Signers s /\
    (limit (s_Signers s) <= number -> ~ recently (s_Signers s) (s_Recents s) number signer) /\
    (fakeDiff = false -> h_Difficulty header = Some (if in_turn (s_Signers s) number signer then diffInTurn else diffNoTurn)).

Lemma seal_recent S n rec a : recents_ok S n rec -> small S (n + 1) ->
  existsb (fun p => (p.2 =? a) && (n + 1 -u u64 (Z.of_nat (size S) / 2 + 1) <? p.1)) (map_to_list rec) = true <-> limit S <= n + 1 /\ recently S rec (n + 1) a.
Proof.
  intros [Hk _] [Hn Hs]. pose proof (limit_pos S) as HL. fold (limit S). rewrite (u64_small (limit S)) by u64_lia. rewrite existsb_exists. split.
  - intros ((k & b) & Hin & [E%Z.eqb_eq Hlt%Z.ltb_lt]%andb_true_iff). cbn [fst snd] in *. subst b. apply list_elem_of_In, elem_of_map_to_list in Hin. pose proof (Hk _ _ Hin).
    destruct (Z.le_gt_cases (limit S) (n + 1)) as [Hl|Hl]; [rewrite u64_small in Hlt by u64_lia; split; [done|]; by exists k|].
    unfold u64, two64 in Hlt. rewrite <- (Z.mod_add _ 1), Z.mod_small in Hlt by lia. lia.
  - intros [Hl (k & Hlt & E)]. exists (k, a). split; [by apply list_elem_of_In, elem_of_map_to_list|]. apply andb_true_iff. split; [by apply Z.eqb_eq|].
    cbn [fst]. apply Z.ltb_lt. by rewrite u64_small by u64_lia.
Qed.

Lemma seal_check_ok s header n fakeDiff : header_ok header -> snap_ok n s -> 0 <= n < 2 ^ 60 -> Z.of_nat (size (s_Signers s)) < 2 ^ 60 ->
  exists r, seal_check s header (n + 1) fakeDiff = Ok r /\ (r = None <-> sealed s header (n + 1) fakeDiff).
Proof.
  intros Hh Hs Hn Hsz. destruct (header_recoverable header Hh) as [r Er]. destruct (ok_Difficulty header Hh) as (d & Ed & _).
  assert (small (s_Signers s) (n + 1)) as Hsm by (split; lia). unfold seal_check, sealed. rewrite Er, Ed. cbn [obind]. destruct r as [a|e].
  2:{ eexists. split; [done|]. split; [done|]. intros (a & [=] & _). }
  destruct (bool_decide_reflect (a ∈ s_Signers s)) as [Ha|Ha]; cbn [negb]; [|eexists; split; [done|]; split; [done|]; intros (a' & [= <-] & ? & _); done].
  pose proof (seal_recent (s_Signers s) n (s_Recents s) a (so_recents _ _ Hs) Hsm) as Hr. destruct (existsb _ _).
  { eexists. split; [done|]. split; [done|]. intros (a' & [= <-] & _ & Hw & _). destruct (proj1 Hr eq_refl). by destruct Hw. }
  assert (limit (s_Signers s) <= n + 1 -> ~ recently (s_Signers s) (s_Recents s) (n + 1) a) as Hw by (intros Hl Hrec; assert (false = true) by (by apply Hr); done).
  destruct fakeDiff; [exists None; split; [done|]; split; [|done]; intros _; by exists a|]. rewrite inturn_ok by (done || lia). cbn [deref of_option obind].
  set (t := in_turn _ _ _). exists (if d =? (if t then diffInTurn else diffNoTurn) then None else Some errWrongDifficulty).
  assert ((if t && negb (d =? diffInTurn) then Ok (Some errWrongDifficulty) else if negb t && negb (d =? diffNoTurn) then Ok (Some errWrongDifficulty) else Ok None) =
    Ok (if d =? (if t then diffInTurn else diffNoTurn) then None else Some errWrongDifficulty)) as -> by (destruct t; cbn [negb andb]; by destruct (_ =? _)).
  split; [done|]. destruct (Z.eqb_spec d (if t then diffInTurn else diffNoTurn)) as [Hd|Hne].
  - split; [intros _|done]. exists a. split_and!; [done..|]. intros _. by rewrite Hd.
  - split; [done|]. intros (a' & [= <-] & _ & _ & Hd). specialize (Hd eq_refl). apply (inj Some) in Hd. by destruct Hne.
Qed.

Lemma recover_error h e : recover_signer h = Ok (inr e) -> e = errMissingSignature \/ e = errRecover.
Proof.
  unfold recover_signer. destruct (_ <? _); [intros [= <-]; tauto|]. destruct (of_option _ _); [|done..]. cbn [obind]. destruct (clique_SealHash h); [|done..]. cbn [obind].
  destruct (Ecrecover _ _); [|intros [= <-]; tauto]. by destruct (of_option _ _).
Qed.

(** One header on top of a snapshot. *)
Lemma apply_one s header n q : snap_ok n s -> s_Number s = n -> 0 <= n < 2 ^ 60 -> Z.of_nat (size (s_Signers s)) < 2 ^ 60 -> 0 < Epoch (s_config s) ->
  h_Number header = Some (n + 1) -> vote_of_nonce (h_Nonce header) <> None -> recover_signer header = Ok q ->
  exists a, apply s [header] = Ok a /\
    ((exists s' signer, a = inl s' /\ q = inl signer /\ signer ∈ s_Signers s /\ ~ recently (s_Signers s) (s_Recents s) (n + 1) signer) \/
     (exists signer, a = inr errRecentlySigned /\ q = inl signer /\ signer ∈ s_Signers s /\ recently (s_Signers s) (s_Recents s) (n + 1) signer) \/
     (exists e, a = inr e /\ (q = inr e \/ exists signer, q = inl signer /\ e = errUnauthorizedSigner /\ signer ∉ s_Signers s))).
Proof.
  intros Hs En Hn Hsz He Enum Hv Eq. assert (small (s_Signers s) (n + 1)) as Hsm by (split; lia).
  pose proof (apply_header_ok s header n q Hs Hsm (proj1 Hn) ltac:(lia) He Enum Eq) as Ha.
  assert (numbers_ok [header]) as Hno by (apply Forall_singleton; exists (n + 1); split; [done|lia]).
  destruct (apply_eq s header [] Hno ltac:(lia) ltac:(rewrite zlen_cons, zlen_nil; lia)) as [[_ E]|[Hnot _]]; [|destruct Hnot; cbn; by rewrite En].
  cbn [apply_loop] in E. unfold header_refused in Ha. destruct q as [a|e]; [|rewrite Ha in E; eexists; split; [exact E|]; right; right; exists e; tauto].
  destruct (bool_decide_reflect (a ∈ s_Signers s)) as [Hin|Hin].
  2:{ rewrite Ha in E. eexists; split; [exact E|]. right. right. eexists. split; [done|]. right. by exists a. }
  pose proof (existsb_recents _ n (s_Recents s) a (so_recents _ _ Hs) Hsm) as Hex. destruct (existsb _ _).
  - rewrite Ha in E. eexists; split; [exact E|]. right. left. exists a. split_and!; [done..|]. by apply Hex.
  - destruct (vote_of_nonce _); [|done]. destruct Ha as (s' & a' & b' & Ha & [= <-] & _ & Hnr & _). rewrite Ha in E. eexists; split; [exact E|]. left. eexists _, a. split; [reflexivity|]. by split_and!.
Qed.

(** C29: the signature and the replay.  Given a well-formed snapshot, a header with a
    vote that can be read passes the check of its signature (the difficulty aside) and
    is applied in the replay under the same condition, but for one case: before the
    block [limit], a signer that has to wait is accepted by the first and refused with
    [errRecentlySigned] by the second. *)
Theorem seal_and_replay (s : Snapshot) (header : Header) (n : Z) :
  header_ok header -> snap_ok n s -> s_Number s = n -> 0 <= n < 2 ^ 60 -> Z.of_nat (size (s_Signers s)) < 2 ^ 60 -> 0 < Epoch (s_config s) ->
  h_Number header = Some (n + 1) -> vote_of_nonce (h_Nonce header) <> None ->
  exists r a, seal_check s header (n + 1) true = Ok r /\ apply s [header] = Ok a /\
    (limit (s_Signers s) <= n + 1 -> r = None <-> exists s', a = inl s') /\
    (n + 1 < limit (s_Signers s) -> r = None <-> (exists s', a = inl s') \/ a = inr errRecentlySigned) /\
    ((exists s', a = inl s') <-> exists signer, recover_signer header = Ok (inl signer) /\ signer ∈ s_Signers s /\ ~ recently (s_Signers s) (s_Recents s) (n + 1) signer).
Proof.
  intros Hh Hs En Hn Hsz He Enum Hv. destruct (seal_check_ok s header n true Hh Hs Hn Hsz) as (r & Er & Hr). destruct (header_recoverable header Hh) as [q Eq].
  destruct (apply_one s header n q Hs En Hn Hsz He Enum Hv Eq) as (a & Ea & Ha). exists r, a. unfold sealed in Hr. rewrite Eq in *. split; [done|]. split; [done|].
  destruct Ha as [(s' & x & -> & -> & Hx & Hnr)|[(x & -> & -> & Hx & Hrec)|(e & -> & He')]].
  - assert (r = None) as -> by (apply Hr; by exists x). split_and!; intros; split; eauto 10.
  - split_and!.
    + intros Hl. rewrite Hr. split; [intros (x' & [= <-] & _ & Hw & _); by destruct (Hw Hl)|by intros [? [=]]].
    + intros Hl. split; [by right|]. intros _. apply Hr. exists x. split_and!; [done..|lia|done].
    + split; [by intros [? [=]]|]. intros (x' & [= <-] & _ & Hnr). done.
  - assert (forall x, Ok q = Ok (inl x) -> x ∈ s_Signers s -> False) as Hno.
    { intros x [= ->] Hx. destruct He' as [[=]|(x' & [= <-] & _ & Hx')]. done. }
    assert (e <> errRecentlySigned) as Hne.
    { destruct He' as [->|(x' & _ & -> & _)]; [|done]. destruct (recover_error _ _ Eq) as [->| ->]; done. }
    split_and!; [intros Hl; rewrite Hr..|]; (split; [try (intros (x & E1 & E2 & _); by destruct (Hno x))|]); try by intros [? [=]].
    + intros [[? [=]]|[= ?]]; done.
    + intros (x & E1 & E2 & _). by destruct (Hno x).
Qed.
End seal.

(** ** Headers *)

Section headers.
Context {K : Keccak} {C : CryptoPrims} {CL : CryptoLaws C} {L : Type -> Type} {LR : SimpleLRU L} {LL : SimpleLRULaws L} {CR : ChainReader} {CRL : ChainReaderLaws CR}.
Context (v : cenv) (config : CliqueConfig) (num_of : Hash -> Z) (HC : clique_chain config num_of).
Implicit Types (c : Clique (L := L)).

(** The rules on the fields alone. *)
Record fields_ok (header : Header) (number : Z) : Prop := MkFieldsOk {
  fo_time : h_Time header <= c_now v;
  fo_vote : h_Nonce header = nonceAuthVote \/ h_Nonce header = nonceDropVote;
  fo_extra : extraVanity + extraSeal <= zlen (h_Extra header);
  fo_plain : number mod Epoch config <> 0 -> zlen (h_Extra header) = extraVanity + extraSeal;
  fo_checkpoint : number mod Epoch config = 0 ->
    h_Coinbase header = 0 /\ h_Nonce header = nonceDropVote /\ (zlen (h_Extra header) - extraVanity - extraSeal) mod 20 = 0;
  fo_mix : h_MixDigest header = 0;
  fo_uncles : h_UncleHash header = EmptyUncleHash;
  fo_difficulty : 0 < number -> h_Difficulty header = Some diffInTurn \/ h_Difficulty header = Some diffNoTurn;
}.

Lemma if_refused {A} (b : bool) (e : A) (k : outcome (option A)) (P : Prop) : (b = true -> ~ P) -> (b = false -> exists r, k = Ok r /\ (r = None <-> P)) ->
  exists r, (if b then Ok (Some e) else k) = Ok r /\ (r = None <-> P).
Proof. destruct b; [|auto]. intros H _. exists (Some e). split; [done|]. split; [done|]. intros HP. by destruct (H eq_refl). Qed.

Lemma verifyFields_ok header number : exists r, verifyFields v config header number = Ok r /\ (r = None <-> fields_ok header number).
Proof.
  pose proof (cc_epoch _ _ HC) as Hep. unfold verifyFields. apply if_refused; [intros H%Z.ltb_lt []; lia|]. intros Ht%Z.ltb_ge.
  unfold umod. destruct (Z.eqb_spec (Epoch config) 0); [lia|]. cbn [obind]. set (cp := number mod Epoch config =? 0).
  assert (cp = true <-> number mod Epoch config = 0) as Hcp by (unfold cp; by rewrite Z.eqb_eq).
  apply if_refused; [intros [E1%Hcp E2%negb_true_iff%Z.eqb_neq]%andb_true_iff []; by destruct (fo_checkpoint0 E1)|]. intros H1%andb_false_iff.
  apply if_refused; [intros [E1%negb_true_iff%bool_decide_eq_false E2%negb_true_iff%bool_decide_eq_false]%andb_true_iff []; by destruct fo_vote0|]. intros H2%andb_false_iff.
  apply if_refused; [intros [E1%Hcp E2%negb_true_iff%bool_decide_eq_false]%andb_true_iff []; by destruct (fo_checkpoint0 E1) as (_ & ? & _)|]. intros H3%andb_false_iff.
  apply if_refused; [intros H%Z.ltb_lt []; unfold extraVanity, extraSeal in *; lia|]. intros H4%Z.ltb_ge.
  apply if_refused; [intros H%Z.ltb_lt []; lia|]. intros H5%Z.ltb_ge.
  apply if_refused; [intros [E1%negb_true_iff E2%negb_true_iff%Z.eqb_neq]%andb_true_iff []; assert (number mod Epoch config <> 0) as H0 by (intros E%Hcp; congruence); specialize (fo_plain0 H0); lia|]. intros H6%andb_false_iff.
  apply if_refused; [intros [E1%Hcp E2%negb_true_iff%Z.eqb_neq]%andb_true_iff []; by destruct (fo_checkpoint0 E1) as (_ & _ & ?)|]. intros H7%andb_false_iff.
  apply if_refused; [intros E%negb_true_iff%Z.eqb_neq []; done|]. intros H8%negb_false_iff%Z.eqb_eq.
  apply if_refused; [intros E%negb_true_iff%Z.eqb_neq []; done|]. intros H9%negb_false_iff%Z.eqb_eq.
  apply if_refused; [intros [E1%Z.ltb_lt E2]%andb_true_iff []; destruct (fo_difficulty0 E1) as [E|E]; by rewrite E in E2|]. intros H10%andb_false_iff.
  exists None. split; [done|]. split; [intros _|done]. rewrite !negb_false_iff, !bool_decide_eq_true, ?Z.eqb_eq in *. split; try done.
  - intros H0. destruct H6 as [H6%Hcp|H6]; [done|lia].
  - intros H0%Hcp. rewrite H0 in *. destruct H1, H3, H7; done.
  - intros H0. destruct H10 as [H10%Z.ltb_ge|H10]; [lia|]. destruct (h_Difficulty header) as [d|]; [|done]. apply andb_false_iff in H10.
    rewrite !negb_false_iff, !Z.eqb_eq in H10. destruct H10 as [->| ->]; tauto.
Qed.

(** The snapshot of a block: one that the engine can work with on top of it. *)
Definition snapshot_of (number : Z) (s : Snapshot) : Prop := replay config num_of s /\ s_Number s = number.

(** The rules for a header on top of its parent, with the snapshots the engine checks
    them against. *)
Record header_accepted (fakeDiff : bool) (header parent : Header) (number : Z) : Prop := MkAccepted {
  ha_fields : fields_ok header number;
  ha_parent : Header_Hash parent = h_ParentHash header /\ h_Number parent = Some (number - 1);
  ha_time : h_Time parent +u Period config <= h_Time header;
  ha_fork : fork_hash_valid Config header;
  ha_signers : number mod Epoch config = 0 -> exists s, snapshot_of (number - 1) s /\
    zslice (h_Extra header) extraVanity (zlen (h_Extra header) - extraSeal) = Some (signer_bytes (signers s));
  ha_seal : exists s, snapshot_of (number - 1) s /\ snap_ok (number - 1) s /\ sealed s header number fakeDiff;
}.

Lemma clique_verifySeal_ok header parents c number : header_ok header -> h_Number header = Some number -> 0 < number < 2 ^ 59 -> num_of (h_ParentHash header) = number - 1 ->
  coherent config num_of c -> Forall (known num_of) parents ->
  exists r c', verifySeal v header parents c = Ok (r, c') /\ coherent config num_of c' /\ kept c c' /\
    (r = None -> exists s, snapshot_of (number - 1) s /\ snap_ok (number - 1) s /\ sealed s header number (c_fakeDiff c)).
Proof.
  intros Hh En Hn Ep Hc Hp. unfold verifySeal. rewrite En. cbn [deref of_option obind].
  assert (Uint64 number = number) as -> by (unfold Uint64; rewrite Z.abs_eq by lia; apply u64_small; u64_lia).
  destruct (Z.eqb_spec number 0); [lia|]. rewrite (u64_small (number - 1)) by u64_lia.
  destruct (snapshot_ok v config num_of HC (number - 1) (h_ParentHash header) parents c ltac:(lia) Ep Hc Hp) as (r & c1 & -> & Hc1 & Hk1 & Hr). cbn [obind].
  destruct r as [s|e]; [|by eexists _, _]. destruct (Hr s eq_refl) as [Hs EN]. destruct (replay_ok config num_of HC s Hs) as (Hok & _ & _ & Hsz). rewrite EN in Hok.
  destruct (seal_check_ok s header (number - 1) (c_fakeDiff c1) Hh Hok ltac:(lia) Hsz) as (r & Er & Hr'). rewrite Z.sub_add in *. rewrite Er. cbn [obind].
  eexists _, _. split_and!; [done|done|done|]. intros H%Hr'. assert (c_fakeDiff c1 = c_fakeDiff c) as Ef by apply Hk1. rewrite Ef in H. by exists s.
Qed.

End headers.
