(* ===== verification/CliqueExample.v ===== *)
(** * A short chain of the clique engine

    The theorems on the clique engine at a chain with four signers, three of which
    sign. *)

From Stdlib Require Import ZArith Lia.
From stdpp Require Import gmap sorting.
From S2P Require Import Prelude Common Params Rlp Crypto VmState VmSpec Trie StackTrie Types Transaction Receipt Block EthashAlgo EthashCache Engine Ethash EthashUncles EthashHeaders EthashExample Clique CliqueVotes CliqueApply CliqueEngine CliqueVerify CliqueSeal.

(** A checksum of 40 bits stands for the hash, and the public key is the first byte of
    the signature. *)
#[local] Instance Keccak_clique : Keccak := Keccak_sum.
Definition clique_recover (hash sig : bytes) : option bytes :=
  match sig with x :: _ => if (1 <=? x) && (x <? 256) then Some (4 :: x :: zeros 63) else None | [] => None end.
#[local] Instance prims_clique : CryptoPrims := prims_ref clique_recover.
#[local] Instance prims_clique_laws : CryptoLaws prims_clique.
Proof.
  assert (forall n, Forall is_byte (zeros n)) as Hz.
  { intros n. apply Forall_replicate. split; lia. }
  split; intros; try (split; [apply Hz || apply be_bytes_is_byte|reflexivity || apply zlen_be_bytes]).
  cbn [Ecrecover prims_clique prims_ref] in *. unfold clique_recover in *. destruct s as [|x s]; [discriminate|]. destruct ((1 <=? x) && (x <? 256)) eqn:E; [|discriminate].
  apply andb_true_iff in E as [E1%Z.leb_le E2%Z.ltb_lt]. injection H as <-. split; [|reflexivity]. do 2 (apply Forall_cons_2; [split; lia|]). apply Hz.
Qed.

Definition signersC : list Address := Eval vm_compute in map (fun key => be_val (gocopy (zeros 20) (drop 12 (Keccak256 (key :: zeros 63))))) [1; 2; 3; 4].
Definition uncleC : Hash := Eval vm_compute in EmptyUncleHash.
Definition ex_clique : CliqueConfig := {| Period := 15; Epoch := 30000 |}.

Definition hdrC parent number difficulty time extra : Header :=
  MkHeader parent uncleC 0 4 5 6 (zeros 256) (Some difficulty) (Some number) 5000000 0 time extra 0 nonceDropVote.
Definition seal_of (key : Z) : bytes := zeros 32 ++ key :: zeros 64.

Definition hC0 : Header := hdrC 0 0 1 1000 (zeros 32 ++ concat (map Address_Bytes signersC) ++ zeros 65).
Definition hashC0 : Hash := Eval vm_compute in Header_Hash hC0.
Definition hC1 : Header := hdrC hashC0 1 2 1015 (seal_of 1).
Definition hashC1 : Hash := Eval vm_compute in Header_Hash hC1.
Definition hC2 : Header := hdrC hashC1 2 1 1030 (seal_of 2).
Definition hashC2 : Hash := Eval vm_compute in Header_Hash hC2.
Definition hC3 : Header := hdrC hashC2 3 1 1045 (seal_of 3).
Definition hashC3 : Hash := Eval vm_compute in Header_Hash hC3.
Definition hC4 : Header := hdrC hashC3 4 1 1060 (seal_of 1).

(** A second block by the first signer. *)
Definition hC2' : Header := hdrC hashC1 2 1 1030 (seal_of 1).

Definition applied (o : outcome (Snapshot + clique_error)) (d : Snapshot) : Snapshot := match o with Ok (inl s) => s | _ => d end.
Definition is_applied (o : outcome (Snapshot + clique_error)) : bool := match o with Ok (inl _) => true | _ => false end.
Lemma applied_eq o d : is_applied o = true -> o = Ok (inl (applied o d)).
Proof. destruct o as [[s|e]| |]; [reflexivity|discriminate..]. Qed.

Definition sC0 : Snapshot := newSnapshot ex_clique 0 hashC0 signersC.
Definition sC1 : Snapshot := applied (apply_header sC0 hC1) sC0.
Definition sC2 : Snapshot := applied (apply_header sC1 hC2) sC1.
Definition sC3 : Snapshot := applied (apply_header sC2 hC3) sC2.
Definition sC4 : Snapshot := applied (apply_header sC3 hC4) sC3.

Lemma apply_correct_witness :
  exists r, apply sC0 [hC1; hC2] = Ok r /\ (~ numbered 0 [hC1; hC2] -> r = inr errInvalidVotingChain) /\
    (forall s', r = inl s' -> snap_ok (s_Number s') s' /\ s_Number s' = 2 /\ s_config s' = ex_clique /\ s_Hash s' = Header_Hash hC2 /\
      exists bs, Forall2 ballot_of [hC1; hC2] bs /\ snap_gov s' = gov_run 30000 0 (snap_gov sC0) bs).
Proof.
  apply (apply_correct sC0 [hC1; hC2]).
  - apply (newSnapshot_ok ex_clique 0 hashC0 signersC). discriminate.
  - discriminate.
  - reflexivity.
  - vm_compute. reflexivity.
  - reflexivity.
  - repeat (apply Forall_cons_2; [eexists; split; [reflexivity|split; [discriminate|reflexivity]]|]). apply Forall_nil_2.
  - repeat (apply Forall_cons_2; [eexists; vm_compute; reflexivity|]). apply Forall_nil_2.
Defined.

Ltac runC_step s := eapply (window_cons _ _ _ _ s);
  [apply applied_eq; vm_compute; reflexivity|vm_compute; reflexivity|reflexivity|vm_compute; discriminate|vm_compute; discriminate|vm_compute; reflexivity|reflexivity|].

Lemma runC : window_run 2 0 sC0 [hC1; hC2; hC3; hC4] (match signersC with a :: b :: c :: _ => [a; b; c; a] | _ => [] end) sC4.
Proof.
  runC_step sC1. runC_step sC2. runC_step sC3. runC_step sC4. apply window_nil.
Qed.

Lemma signer_spacing_witness : 2 < Z.of_nat 3 - Z.of_nat 0.
Proof.
  apply (signer_spacing 2 0 sC0 sC4 [hC1; hC2; hC3; hC4] _ 0 3 (default 0 (head signersC)) runC).
  - apply (newSnapshot_ok ex_clique 0 hashC0 signersC). discriminate.
  - discriminate.
  - reflexivity.
  - reflexivity.
  - reflexivity.
  - lia.
Defined.

Ltac hdrC_ok := split; [ex_range|ex_range|ex_range|ex_range|ex_range|ex_range
  |split; [apply Forall_replicate; ex_range|reflexivity]|eexists; split; [reflexivity|discriminate]|eexists; split; [reflexivity|discriminate]
  |ex_range|ex_range|ex_range|vm_compute; repeat (apply Forall_cons_2; [ex_range|]); apply Forall_nil_2|ex_range
  |split; [apply Forall_replicate; ex_range|reflexivity]|vm_compute; discriminate].
Lemma hC0_ok : header_ok hC0.
Proof. hdrC_ok. Qed.
Lemma hC1_ok : header_ok hC1.
Proof. hdrC_ok. Qed.
Lemma hC2'_ok : header_ok hC2'.
Proof. hdrC_ok. Qed.

(** ** An early block of a signer that has to wait *)

Definition sC1p : Snapshot := applied (apply sC0 [hC1]) sC0.
Lemma sC1p_ok : snap_ok 1 sC1p.
Proof.
  destruct (apply_ok sC0 [hC1]) as (r & E & _ & H);
    [apply (newSnapshot_ok ex_clique 0 hashC0 signersC); discriminate|discriminate|reflexivity|vm_compute; reflexivity|reflexivity
    |apply Forall_singleton; eexists; split; [reflexivity|split; [discriminate|reflexivity]]|apply Forall_singleton; eexists; vm_compute; reflexivity|].
  assert (apply sC0 [hC1] = Ok (inl sC1p)) as E' by (apply applied_eq; vm_compute; reflexivity). rewrite E in E'. injection E' as ->.
  destruct (H sC1p eq_refl) as (_ & Hok & EN & _). rewrite EN in Hok. exact Hok.
Qed.

Lemma seal_and_replay_witness :
  exists r a, seal_check sC1p hC2' 2 true = Ok r /\ apply sC1p [hC2'] = Ok a /\
    (limit (s_Signers sC1p) <= 2 -> r = None <-> exists s', a = inl s') /\
    (2 < limit (s_Signers sC1p) -> r = None <-> (exists s', a = inl s') \/ a = inr errRecentlySigned) /\
    ((exists s', a = inl s') <-> exists signer, recover_signer hC2' = Ok (inl signer) /\ signer ∈ s_Signers sC1p /\ ~ recently (s_Signers sC1p) (s_Recents sC1p) 2 signer).
Proof.
  apply (seal_and_replay sC1p hC2' 1).
  - exact hC2'_ok.
  - exact sC1p_ok.
  - vm_compute. reflexivity.
  - split; [discriminate|reflexivity].
  - vm_compute. reflexivity.
  - vm_compute. reflexivity.
  - reflexivity.
  - discriminate.
Defined.

(** The header is accepted by the check of the signature, not by the replay: no block on
    top of it is accepted. *)
Lemma early_block_diverges :
  seal_check sC1p hC2' 2 false = Ok None /\ apply sC1p [hC2'] = Ok (inr errRecentlySigned).
Proof. split; vm_compute; reflexivity. Qed.

(** ** A header on top of the genesis block *)

#[local] Instance chainC : ChainReader := {|
  Config := ex_config;
  GetHeader h n := if (h =? hashC0) && (n =? 0) then Some hC0 else None;
  GetHeaderByNumber n := if n =? 0 then Some hC0 else None;
  GetBlock h n := None;
|}.

Lemma hashC0_eq : Header_Hash hC0 = hashC0.
Proof. vm_compute. reflexivity. Qed.

#[local] Instance chainC_laws : ChainReaderLaws chainC.
Proof.
  split.
  - intros h n x. cbn [GetHeader chainC]. destruct ((h =? hashC0) && (n =? 0)) eqn:E1; [|discriminate].
    apply andb_true_iff in E1 as [->%Z.eqb_eq ->%Z.eqb_eq]. intros [= <-]. split_and!; [exact hashC0_eq|reflexivity|exact hC0_ok|reflexivity].
  - intros n x. cbn [GetHeaderByNumber chainC]. destruct (Z.eqb_spec n 0) as [->|]; [intros [= <-]; split; [reflexivity|exact hC0_ok]|discriminate].
  - intros h n x. discriminate.
Qed.

Definition num_ofC (hash : Hash) : Z := 0.
Lemma hC0_known : known num_ofC hC0.
Proof. split_and!; [exact hC0_ok|reflexivity|reflexivity]. Qed.

Lemma chainC_clique : clique_chain ex_clique num_ofC.
Proof.
  split; [reflexivity|exists hC0; reflexivity|..].
  - intros h n x. cbn [GetHeader chainC]. destruct (_ && _); [|discriminate]. intros [= <-]. exact hC0_known.
  - intros n x. cbn [GetHeaderByNumber chainC]. destruct (_ =? _); [|discriminate]. intros [= <-]. split; [exact hC0_known|]. split; [vm_compute; discriminate|vm_compute; reflexivity].
Qed.

Definition envC : cenv := MkCenv 2000 (fun _ => true).
Definition engineC : Clique (L := alist) := MkClique ex_clique [] ∅ ∅ 0 None false.
Lemma engineC_coherent : coherent ex_clique num_ofC engineC.
Proof. split; [reflexivity|]. intros k s [H|H]; discriminate H. Qed.


(** The header is accepted, and one by the wrong key is not. *)
Lemma verifyHeader_runs :
  match verifyHeader envC hC1 [] engineC with Ok (None, _) => true | _ => false end = true /\
  match verifyHeader envC (hdrC hashC0 1 1 1015 (seal_of 9)) [] engineC with Ok (Some errUnauthorizedSigner, _) => true | _ => false end = true.
Proof. split; vm_compute; reflexivity. Qed.
