(* ===== verification/Processor.v ===== *)
(** * Processing a block

    [core/state_processor.go], with the context of the EVM of [core/evm.go] and the
    fork of [consensus/misc/dao.go]: the transactions of a block are turned into
    messages, applied one after the other to the state, and give its receipts.  The
    theorems: a block is processed without a panic; the gas of its receipts adds up
    to what is missing from the gas pool; no ether comes into being before the
    engine pays the rewards; the hashes of ancestors do not depend on the cache. *)

From Stdlib Require Import ZArith Lia.
From stdpp Require Import gmap.
From S2P Require Import Prelude EthashAlgo Engine Ethash EthashUncles CliqueEngine Common Params Uint256 Crypto VmMemory VmMemFacts VmState VmTable VmGas VmInstr VmInterp VmSpec VmTableOk VmInv VmCallSafe VmTheorems StateTransition StateDB StateDBView StateDBRefine StateDBTheorems Rlp RlpSpec Types Transaction Receipt Bloom Block.

Open Scope go_scope.

(** ** The state of a block

    The methods of [*state.StateDB] that are not in the interface of the EVM. *)
Class BlockState (S : StateDB) := {
  bs_SetBalance : Address -> Z -> DB -> DB;
  bs_Prepare : Hash -> Hash -> Z -> DB -> DB;
  bs_Finalise : bool -> DB -> DB;
  bs_IntermediateRoot : bool -> DB -> outcome (Hash * DB);
  bs_GetLogs : Hash -> DB -> list txLog;
  bs_BlockHash : DB -> Hash;
  bs_TxIndex : DB -> Z;
}.

(** ** consensus/misc/dao.go, params/dao.go *)

Definition DAORefundContract : Address := 0xbf4ed7b27f1d666546e30d74d50d173d20bca754.

Definition DAODrainList : list Address :=
  [
   0xd4fe7bc31cedb7bfb8a345f31e668033056b2728; 0xb3fb0e5aba0e20e5c49d252dfd30e102b171a425; 0x2c19c7f9ae8b751e37aeb2d93a699722395ae18f;
   0xecd135fa4f61a655311e86238c92adcd779555d2; 0x1975bd06d486162d5dc297798dfc41edd5d160a7; 0xa3acf3a1e16b1d7c315e23510fdd7847b48234f6;
   0x319f70bab6845585f412ec7724b744fec6095c85; 0x06706dd3f2c9abf0a21ddcc6941d9b86f0596936; 0x5c8536898fbb74fc7445814902fd08422eac56d0;
   0x6966ab0d485353095148a2155858910e0965b6f9; 0x779543a0491a837ca36ce8c635d6154e3c4911a6; 0x2a5ed960395e2a49b1c758cef4aa15213cfd874c;
   0x5c6e67ccd5849c0d29219c4f95f1a7a93b3f5dc5; 0x9c50426be05db97f5d64fc54bf89eff947f0a321; 0x200450f06520bdd6c527622a273333384d870efb;
   0xbe8539bfe837b67d1282b2b1d61c3f723966f049; 0x6b0c4d41ba9ab8d8cfb5d379c69a612f2ced8ecb; 0xf1385fb24aad0cd7432824085e42aff90886fef5;
   0xd1ac8b1ef1b69ff51d1d401a476e7e612414f091; 0x8163e7fb499e90f8544ea62bbf80d21cd26d9efd; 0x51e0ddd9998364a2eb38588679f0d2c42653e4a6;
   0x627a0a960c079c21c34f7612d5d230e01b4ad4c7; 0xf0b1aa0eb660754448a7937c022e30aa692fe0c5; 0x24c4d950dfd4dd1902bbed3508144a54542bba94;
   0x9f27daea7aca0aa0446220b98d028715e3bc803d; 0xa5dc5acd6a7968a4554d89d65e59b7fd3bff0f90; 0xd9aef3a1e38a39c16b31d1ace71bca8ef58d315b;
   0x63ed5a272de2f6d968408b4acb9024f4cc208ebf; 0x6f6704e5a10332af6672e50b3d9754dc460dfa4d; 0x77ca7b50b6cd7e2f3fa008e24ab793fd56cb15f6;
   0x492ea3bb0f3315521c31f273e565b868fc090f17; 0x0ff30d6de14a8224aa97b78aea5388d1c51c1f00; 0x9ea779f907f0b315b364b0cfc39a0fde5b02a416;
   0xceaeb481747ca6c540a000c1f3641f8cef161fa7; 0xcc34673c6c40e791051898567a1222daf90be287; 0x579a80d909f346fbfb1189493f521d7f48d52238;
   0xe308bd1ac5fda103967359b2712dd89deffb7973; 0x4cb31628079fb14e4bc3cd5e30c2f7489b00960c; 0xac1ecab32727358dba8962a0f3b261731aad9723;
   0x4fd6ace747f06ece9c49699c7cabc62d02211f75; 0x440c59b325d2997a134c2c7c60a8c61611212bad; 0x4486a3d68fac6967006d7a517b889fd3f98c102b;
   0x9c15b54878ba618f494b38f0ae7443db6af648ba; 0x27b137a85656544b1ccb5a0f2e561a5703c6a68f; 0x21c7fdb9ed8d291d79ffd82eb2c4356ec0d81241;
   0x23b75c2f6791eef49c69684db4c6c1f93bf49a50; 0x1ca6abd14d30affe533b24d7a21bff4c2d5e1f3b; 0xb9637156d330c0d605a791f1c31ba5890582fe1c;
   0x6131c42fa982e56929107413a9d526fd99405560; 0x1591fc0f688c81fbeb17f5426a162a7024d430c2; 0x542a9515200d14b68e934e9830d91645a980dd7a;
   0xc4bbd073882dd2add2424cf47d35213405b01324; 0x782495b7b3355efb2833d56ecb34dc22ad7dfcc4; 0x58b95c9a9d5d26825e70a82b6adb139d3fd829eb;
   0x3ba4d81db016dc2890c81f3acec2454bff5aada5; 0xb52042c8ca3f8aa246fa79c3feaa3d959347c0ab; 0xe4ae1efdfc53b73893af49113d8694a057b9c0d1;
   0x3c02a7bc0391e86d91b7d144e61c2c01a25a79c5; 0x0737a6b837f97f46ebade41b9bc3e1c509c85c53; 0x97f43a37f595ab5dd318fb46e7a155eae057317a;
   0x52c5317c848ba20c7504cb2c8052abd1fde29d03; 0x4863226780fe7c0356454236d3b1c8792785748d; 0x5d2b2e6fcbe3b11d26b525e085ff818dae332479;
   0x5f9f3392e9f62f63b8eac0beb55541fc8627f42c; 0x057b56736d32b86616a10f619859c6cd6f59092a; 0x9aa008f65de0b923a2a4f02012ad034a5e2e2192;
   0x304a554a310c7e546dfe434669c62820b7d83490; 0x914d1b8b43e92723e64fd0a06f5bdb8dd9b10c79; 0x4deb0033bb26bc534b197e61d19e0733e5679784;
   0x07f5c1e1bc2c93e0402f23341973a0e043f7bf8a; 0x35a051a0010aba705c9008d7a7eff6fb88f6ea7b; 0x4fa802324e929786dbda3b8820dc7834e9134a2a;
   0x9da397b9e80755301a3b32173283a91c0ef6c87e; 0x8d9edb3054ce5c5774a420ac37ebae0ac02343c6; 0x0101f3be8ebb4bbd39a2e3b9a3639d4259832fd9;
   0x5dc28b15dffed94048d73806ce4b7a4612a1d48f; 0xbcf899e6c7d9d5a215ab1e3444c86806fa854c76; 0x12e626b0eebfe86a56d633b9864e389b45dcb260;
   0xa2f1ccba9395d7fcb155bba8bc92db9bafaeade7; 0xec8e57756626fdc07c63ad2eafbd28d08e7b0ca5; 0xd164b088bd9108b60d0ca3751da4bceb207b0782;
   0x6231b6d0d5e77fe001c2a460bd9584fee60d409b; 0x1cba23d343a983e9b5cfd19496b9a9701ada385f; 0xa82f360a8d3455c5c41366975bde739c37bfeb8a;
   0x9fcd2deaff372a39cc679d5c5e4de7bafb0b1339; 0x005f5cee7a43331d5a3d3eec71305925a62f34b6; 0x0e0da70933f4c7849fc0d203f5d1d43b9ae4532d;
   0xd131637d5275fd1a68a3200f4ad25c71a2a9522e; 0xbc07118b9ac290e4622f5e77a0853539789effbe; 0x47e7aa56d6bdf3f36be34619660de61275420af8;
   0xacd87e28b0c9d1254e868b81cba4cc20d9a32225; 0xadf80daec7ba8dcf15392f1ac611fff65d94f880; 0x5524c55fb03cf21f549444ccbecb664d0acad706;
   0x40b803a9abce16f50f36a77ba41180eb90023925; 0xfe24cdd8648121a43a7c86d289be4dd2951ed49f; 0x17802f43a0137c506ba92291391a8a8f207f487d;
   0x253488078a4edf4d6f42f113d1e62836a942cf1a; 0x86af3e9626fce1957c82e88cbf04ddf3a2ed7915; 0xb136707642a4ea12fb4bae820f03d2562ebff487;
   0xdbe9b615a3ae8709af8b93336ce9b477e4ac0940; 0xf14c14075d6c4ed84b86798af0956deef67365b5; 0xca544e5c4687d109611d0f8f928b53a25af72448;
   0xaeeb8ff27288bdabc0fa5ebb731b6f409507516c; 0xcbb9d3703e651b0d496cdefb8b92c25aeb2171f7; 0x6d87578288b6cb5549d5076a207456a1f6a63dc0;
   0xb2c6f0dfbb716ac562e2d85d6cb2f8d5ee87603e; 0xaccc230e8a6e5be9160b8cdf2864dd2a001c28b6; 0x2b3455ec7fedf16e646268bf88846bd7a2319bb2;
   0x4613f3bca5c44ea06337a9e439fbc6d42e501d0a; 0xd343b217de44030afaa275f54d31a9317c7f441e; 0x84ef4b2357079cd7a7c69fd7a37cd0609a679106;
   0xda2fef9e4a3230988ff17df2165440f37e8b1708; 0xf4c64518ea10f995918a454158c6b61407ea345c; 0x7602b46df5390e432ef1c307d4f2c9ff6d65cc97;
   0xbb9bc244d798123fde783fcc1c72d3bb8c189413; 0x807640a13483f8ac783c557fcdf27be11ea4ac7a
  ].

Definition ApplyDAOHardFork {S : StateDB} {BS : BlockState S} (db : DB) : DB :=
  let '(found, db) := Exist DAORefundContract db in
  let db := if found then db else CreateAccount DAORefundContract db in
  fold_left (fun db addr =>
    let '(balance, db) := GetBalance addr db in
    bs_SetBalance addr 0 (AddBalance DAORefundContract balance db)) DAODrainList db.

(** ** core/evm.go: the hashes of ancestors *)

Section hashes.
Context {CR : ChainReader} (ref : Header).

Fixpoint get_hash_loop (fuel : nat) (n : Z) (lastKnownHash : Hash) (lastKnownNumber : Z) (cache : list Hash) : outcome (Hash * list Hash) :=
  match fuel with
  | O => NoFuel
  | S fuel =>
      match GetHeader lastKnownHash lastKnownNumber with
      | None => Ok (0, cache)
      | Some header =>
          let cache := cache ++ [h_ParentHash header] in
          number <- deref (h_Number header) ;;
          let lastKnownNumber := Uint64 number -u 1 in
          if n =? lastKnownNumber then Ok (h_ParentHash header, cache)
          else get_hash_loop fuel n (h_ParentHash header) lastKnownNumber cache
      end
  end.

(** The function [GetHashFn] returns, with the cache it closes over. *)
Definition GetHashFn (n : Z) (cache : list Hash) : outcome (Hash * list Hash) :=
  let cache := match cache with [] => [h_ParentHash ref] | _ => cache end in
  number <- deref (h_Number ref) ;;
  let idx := Uint64 number -u n -u 1 in
  if idx <? zlen cache then
    h <- of_option PanicIndex (zget cache idx) ;; Ok (h, cache)
  else
    h <- of_option PanicIndex (last cache) ;;
    get_hash_loop (S (Z.to_nat (Uint64 number))) n h (Uint64 number -u zlen cache) cache.

(** The hash it returns when it is called first. *)
Definition hash_of (n : Z) : Hash := match GetHashFn n [] with Ok (h, _) => h | _ => 0 end.
End hashes.

(** ** core/state_processor.go *)

Inductive process_error := errSig (e : sig_error) | errCore (e : core_error).

(** [vm.Config] without a tracer, extra EIPs, and a jump table of its own. *)
Record vmConfig := MkVmConfig { cfg_NoRecursion : bool; cfg_EnablePreimageRecording : bool }.

Section processor.
Context {U : Uint256} {S : StateDB} {BS : BlockState S} {K : Keccak} {C : CryptoPrims} {CR : ChainReader}.

(** What processing changes: the gas pool, the gas used, the state, and the heap of the
    operations of jump tables. *)
Record pstate := MkPstate { p_gp : GasPool; p_usedGas : Z; p_db : DB; p_heap : heap }.

(** [tx.AsMessage(signer)]; the cache of senders is transparent ([Sender_cache]). *)
Definition AsMessage (tx : Transaction) (s : Signer) : outcome (Message + sig_error) :=
  r <- signer_Sender s tx ;;
  Ok (match r with
      | inr e => inr e
      | inl from => inl (MkMessage from (tx_Recipient tx) (tx_Price tx) (tx_GasLimit tx) (tx_Amount tx) (tx_AccountNonce tx) true (tx_Payload tx))
      end).

(** [author] is what [engine.Author(header)] returns. *)
Definition NewEVMContext (msg : Message) (header : Header) (author : Address) : outcome Context :=
  number <- deref (h_Number header) ;;
  difficulty <- deref (h_Difficulty header) ;;
  Ok (MkContext S core_CanTransfer core_Transfer (hash_of header) (msg_From msg) (msg_GasPrice msg) author (h_GasLimit header) number (h_Time header) difficulty).

(** [NewEVM]: the fixed part of the EVM, and the rest. *)
Definition NewEVM (g : instructionSets) (config : ChainConfig) (context : Context) (db : DB) (cfg : vmConfig) : M heap (Env * EVM) := fun h =>
  let number := Some (BlockNumber context) in
  if IsEWASM config number then Panic PanicOther
  else
    r <- NewEVMInterpreter g (Rules config number) [] h ;;
    let '((jt, _), h) := r in
    Ok ((MkEnv S context (default 0 (ChainID config)) (Rules config number) (cfg_NoRecursion cfg) (cfg_EnablePreimageRecording cfg) (table h jt),
         MkEVM S db 0 0 [] false [] ∅), h).

(** The fuel of a message: it is more than its gas. *)
Definition msg_fuel (msg : Message) : nat := Datatypes.S (Z.to_nat (msg_Gas msg)).

Definition with_bloom (r : Receipt) (bloom : Bloom) : Receipt :=
  MkReceipt (r_PostState r) (r_Status r) (r_CumulativeGasUsed r) bloom (r_Logs r) (r_TxHash r) (r_ContractAddress r) (r_GasUsed r)
    (r_BlockHash r) (r_BlockNumber r) (r_TransactionIndex r).

Definition make_receipt (root : bytes) (failed : bool) (usedGas gas : Z) (header : Header) (tx : Transaction) (from : Address) (db : DB) : Receipt :=
  let r := NewReceipt root failed usedGas in
  let contract := match tx_Recipient tx with None => CreateAddress from (tx_AccountNonce tx) | Some _ => r_ContractAddress r end in
  let r := MkReceipt (r_PostState r) (r_Status r) (r_CumulativeGasUsed r) (r_Bloom r) (bs_GetLogs (Transaction_Hash tx) db) (Transaction_Hash tx) contract gas
             (bs_BlockHash db) (h_Number header) (bs_TxIndex db) in
  with_bloom r (CreateBloom [r]).

Section block.
Context (g : instructionSets) (config : ChainConfig) (author : Address) (header : Header) (cfg : vmConfig).

Definition ApplyTransaction (tx : Transaction) (p : pstate) : outcome ((Receipt + process_error) * pstate) :=
  r <- AsMessage tx (MakeSigner config (h_Number header)) ;;
  match r with
  | inr e => Ok (inr (errSig e), p)
  | inl msg =>
      context <- NewEVMContext msg header author ;;
      r <- NewEVM g config context (p_db p) cfg (p_heap p) ;;
      let '((vmenv, evm), h) := r in
      r <- ApplyMessage vmenv (run vmenv (msg_fuel msg)) evm msg (p_gp p) ;;
      let '(result, st) := r in
      let db := VmState.statedb (st_evm st) in
      match result with
      | inr e => Ok (inr (errCore e), MkPstate (st_gp st) (p_usedGas p) db h)
      | inl result =>
          r <- (if IsByzantium config (h_Number header) then Ok ([], bs_Finalise true db)
                else r <- bs_IntermediateRoot (IsEIP158 config (h_Number header)) db ;; Ok (Hash_Bytes (fst r), snd r)) ;;
          let '(root, db) := r in
          let usedGas := p_usedGas p +u UsedGas result in
          Ok (inl (make_receipt root (Failed result) usedGas (UsedGas result) header tx (Origin context) db), MkPstate (st_gp st) usedGas db h)
      end
  end.

Definition set_p_db (p : pstate) (db : DB) : pstate := MkPstate (p_gp p) (p_usedGas p) db (p_heap p).

Fixpoint process_txs (bhash : Hash) (i : Z) (txs : list Transaction) (p : pstate) : outcome ((list Receipt + process_error) * pstate) :=
  match txs with
  | [] => Ok (inl [], p)
  | tx :: txs =>
      r <- ApplyTransaction tx (set_p_db p (bs_Prepare (Transaction_Hash tx) bhash i (p_db p))) ;;
      let '(r, p) := r in
      match r with
      | inr e => Ok (inr e, p)
      | inl receipt =>
          r <- process_txs bhash (i + 1) txs p ;;
          let '(r, p) := r in
          Ok (match r with inl receipts => inl (receipt :: receipts) | inr e => inr e end, p)
      end
  end.
End block.

(** [Process]; [Author] and [Finalize] are the methods of the engine. *)
Definition Process (g : instructionSets) (config : ChainConfig) (Author : Header -> Address) (Finalize : Header -> DB -> list Header -> outcome (Header * DB))
    (block : Block) (cfg : vmConfig) (db : DB) (h : heap) : outcome ((list Receipt * list txLog * Z + process_error) * DB * heap) :=
  let header := CopyHeader (b_header block) in
  gp <- GasPool_AddGas 0 (h_GasLimit header) ;;
  let dao := DAOForkSupport config && bool_decide (DAOForkBlock config <> None) && bool_decide (DAOForkBlock config = h_Number header) in
  let db := if dao then ApplyDAOHardFork db else db in
  r <- process_txs g config (Author header) header cfg (Block_Hash block) 0 (b_transactions block) (MkPstate gp 0 db h) ;;
  let '(r, p) := r in
  match r with
  | inr e => Ok (inr e, p_db p, p_heap p)
  | inl receipts =>
      f <- Finalize header (p_db p) (b_uncles block) ;;
      Ok (inl (receipts, concat (map r_Logs receipts), p_usedGas p), snd f, p_heap p)
  end.
End processor.

(** ** What is relied on of the state

    Between transactions nothing is left of the journal, and a transaction can be
    prepared. *)
Definition s_SetBalance {K : Keccak} (a : Address) (x : Z) (v : View) : View := s_setBalance a x (s_ensure a v).

Class BlockStateLaws {S : StateDB} {K : Keccak} (SP : StateDBSpec S K) (BS : BlockState S) := {
  bs_settled : DB -> Prop;
  bs_settled_ok : forall d, bs_settled d -> db_ok d;
  bs_Prepare_spec : forall th bh i d, bs_settled d ->
    bs_settled (bs_Prepare th bh i d) /\ forall a, vBalance (view (bs_Prepare th bh i d)) a = vBalance (view d) a;
  bs_Finalise_spec : forall del d, db_ok d -> bs_settled (bs_Finalise del d) /\ no_mint (view d) (view (bs_Finalise del d));
  bs_IntermediateRoot_spec : forall del d, db_ok d -> (forall a, 0 <= vBalance (view d) a) ->
    exists root d', bs_IntermediateRoot del d = Ok (root, d') /\ bs_settled d' /\ no_mint (view d) (view d');
  bs_SetBalance_spec : forall a x d, db_ok d -> effect (s_SetBalance a x) d (bs_SetBalance a x d);
}.

(** Accounts that lose their balances. *)
Lemma no_mint_dropped v w : (forall a, vBalance w a = vBalance v a \/ vBalance w a = 0) -> no_mint v w.
Proof.
  intros H n (Hn & L & HL & Ho & ->). exists (sum_balance w L). split.
  - clear HL Ho. unfold sum_balance. induction L as [|a L IH]; [done|]. cbn [foldr]. pose proof (Hn a). destruct (H a); lia.
  - split; [intros a; pose proof (Hn a); destruct (H a); lia|]. exists L. split_and!; [done| |done].
    intros a Ha. pose proof (Ho a Ha). destruct (H a); congruence.
Qed.

(** ** The hashes of ancestors *)

Section ancestors.
Context {K : Keccak} {CR : ChainReader} {CL : ChainReaderLaws CR} (ref : Header) (N : Z).

(** The hash of the block [i + 1] blocks before. *)
Fixpoint ancestor_hash (i : nat) : option Hash :=
  match i with
  | O => Some (h_ParentHash ref)
  | S i =>
      match ancestor_hash i with
      | None => None
      | Some h => match GetHeader h (N - 1 - Z.of_nat i) with None => None | Some header => Some (h_ParentHash header) end
      end
  end.

Definition hashes_ok (cache : list Hash) : Prop := forall i h, cache !! i = Some h -> ancestor_hash i = Some h.

Lemma ancestor_None i j : ancestor_hash i = None -> (i <= j)%nat -> ancestor_hash j = None.
Proof. intros H Hij. induction Hij as [|j _ IH]; [done|]. cbn [ancestor_hash]. by rewrite IH. Qed.

Lemma hashes_ok_snoc cache h : hashes_ok cache -> ancestor_hash (length cache) = Some h -> hashes_ok (cache ++ [h]).
Proof.
  intros Hc Hh i x. destruct (decide (i < length cache)%nat) as [Hi|Hi]; [rewrite lookup_app_l by done; apply Hc|].
  rewrite lookup_app_r by lia. intros E. destruct (i - length cache)%nat eqn:Ei; [|done]. injection E as <-. by replace i with (length cache) by lia.
Qed.

Lemma get_hash_loop_ok fuel : forall n h cache, 0 <= n -> N < 2 ^ 63 -> hashes_ok cache -> last cache = Some h -> zlen cache <= N - 1 - n -> N - zlen cache < Z.of_nat fuel ->
  exists cache', get_hash_loop fuel n h (N - zlen cache) cache = Ok (default 0 (ancestor_hash (Z.to_nat (N - 1 - n))), cache') /\ hashes_ok cache' /\ cache' <> [].
Proof.
  induction fuel as [|fuel IH]; intros n h cache Hn HN Hc Hl Hlen Hf; [lia|]. cbn [get_hash_loop].
  pose proof (zlen_nonneg cache) as H0. assert (cache <> []) as Hne by (by intros ->). assert (1 <= zlen cache) as H1 by (destruct cache; [done|rewrite zlen_cons; pose proof (zlen_nonneg cache); lia]).
  assert (ancestor_hash (length cache - 1) = Some h) as Ha.
  { apply Hc. rewrite last_lookup in Hl. by replace (length cache - 1)%nat with (pred (length cache)) by lia. }
  assert (ancestor_hash (length cache) = match GetHeader h (N - zlen cache) with None => None | Some hd => Some (h_ParentHash hd) end) as Ha'.
  { replace (length cache) with (Datatypes.S (length cache - 1)) at 1 by (unfold zlen in H1; lia). cbn [ancestor_hash]. rewrite Ha.
    replace (N - 1 - Z.of_nat (length cache - 1)) with (N - zlen cache) by (unfold zlen in *; lia). done. }
  destruct (GetHeader h (N - zlen cache)) as [hd|] eqn:Eg.
  2:{ exists cache. split_and!; [|done|done]. by rewrite (ancestor_None (length cache)) by (done || unfold zlen in *; lia). }
  destruct (GetHeader_ok _ _ _ Eg) as (_ & En & _). rewrite En. cbn [deref of_option obind].
  assert (Uint64 (N - zlen cache) = N - zlen cache) as -> by (unfold Uint64; rewrite Z.abs_eq by lia; apply u64_small; u64_lia).
  rewrite u64_small by u64_lia. destruct (Z.eqb_spec n (N - zlen cache - 1)) as [->|Hneq].
  - exists (cache ++ [h_ParentHash hd]). split_and!; [|by apply hashes_ok_snoc|by destruct cache].
    replace (Z.to_nat (N - 1 - (N - zlen cache - 1))) with (length cache) by (unfold zlen; lia). by rewrite Ha'.
  - replace (N - zlen cache - 1) with (N - zlen (cache ++ [h_ParentHash hd])) by (rewrite zlen_app, zlen_cons, zlen_nil; lia).
    apply IH; [done|done|by apply hashes_ok_snoc|by rewrite last_snoc|rewrite zlen_app, zlen_cons, zlen_nil; lia|rewrite zlen_app, zlen_cons, zlen_nil; lia].
Qed.

(** The function returns the hash of the ancestor, or zero when the chain does not
    reach it, whatever is in its cache. *)
Lemma GetHashFn_ok n cache : h_Number ref = Some N -> 0 <= n < N -> N < 2 ^ 63 -> hashes_ok cache ->
  exists cache', GetHashFn ref n cache = Ok (default 0 (ancestor_hash (Z.to_nat (N - 1 - n))), cache') /\ hashes_ok cache' /\ hash_of ref n = default 0 (ancestor_hash (Z.to_nat (N - 1 - n))).
Proof.
  intros En Hn HN Hc. assert (forall cache, hashes_ok cache -> exists cache', GetHashFn ref n cache = Ok (default 0 (ancestor_hash (Z.to_nat (N - 1 - n))), cache') /\ hashes_ok cache') as H.
  { clear cache Hc. intros cache Hc. unfold GetHashFn. set (cache1 := match cache with [] => [h_ParentHash ref] | _ => cache end).
    assert (hashes_ok cache1 /\ cache1 <> []) as [Hc1 Hne].
    { destruct cache; [|by split]. split; [|done]. intros [|i] h E; [by injection E as <-|done]. }
    rewrite En. cbn [deref of_option obind]. assert (Uint64 N = N) as -> by (unfold Uint64; rewrite Z.abs_eq by lia; apply u64_small; u64_lia).
    rewrite (u64_small (N - n)), (u64_small (N - n - 1)) by u64_lia. destruct (Z.ltb_spec (N - n - 1) (zlen cache1)) as [Hlt|Hge].
    - unfold zget. destruct (Z.leb_spec 0 (N - n - 1)); [|lia]. destruct (lookup_lt_is_Some_2 cache1 (Z.to_nat (N - n - 1))) as [h Eh]; [unfold zlen in Hlt; lia|].
      rewrite Eh. cbn [of_option obind]. exists cache1. split; [|done]. replace (N - 1 - n) with (N - n - 1) by lia. by rewrite (Hc1 _ _ Eh).
    - destruct (last cache1) as [h|] eqn:El; [|by apply last_None in El]. cbn [of_option obind]. pose proof (zlen_nonneg cache1). rewrite u64_small by u64_lia.
      destruct (get_hash_loop_ok (Datatypes.S (Z.to_nat N)) n h cache1) as (c' & E & Hc' & _); [lia|done|done|done|lia|lia|]. by exists c'. }
  destruct (H cache Hc) as (c' & E & Hc'). exists c'. split_and!; [done|done|]. unfold hash_of. destruct (H [] ltac:(intros i h F; by rewrite lookup_nil in F)) as (c2 & -> & _). done.
Qed.
End ancestors.

(** ** Messages *)

Lemma recoverPlain_total {K : Keccak} {C : CryptoPrims} hash R S_ V homestead : exists r, recoverPlain hash R S_ V homestead = Ok r.
Proof.
  unfold recoverPlain. destruct (8 <? BitLen V); [by eexists|]. destruct (ValidateSignatureValues _ R S_ homestead) eqn:E; cbn [negb]; [|by eexists].
  assert (1 <= R < two256 /\ 1 <= S_ < two256) as [HR HS].
  { unfold ValidateSignatureValues in E. destruct (Z.ltb_spec R 1); [done|]. destruct (Z.ltb_spec S_ 1); [done|]. cbn [orb] in E.
    destruct (homestead && _); [done|]. destruct (Z.ltb_spec R secp256k1N); [|done]. destruct (Z.ltb_spec S_ secp256k1N); [|done].
    unfold secp256k1N, two256 in *. lia. }
  rewrite !pad32_be by done. cbn [obind]. destruct (Ecrecover _ _) as [[|x l]|]; [by eexists| |by eexists].
  repeat case_match; by eexists.
Qed.

Lemma signer_Sender_total {K : Keccak} {C : CryptoPrims} s tx : exists r, signer_Sender s tx = Ok r.
Proof. unfold signer_Sender. destruct s; repeat (case_match; [apply recoverPlain_total|]); try apply recoverPlain_total. case_match; [by eexists|apply recoverPlain_total]. Qed.

Lemma tx_data_ok tx : tx_ok tx -> data_ok (tx_Payload tx).
Proof.
  intros H. split; [by apply ok_payload|]. pose proof (ok_tx_size tx H) as Hs. pose proof (rlp_string_shorter (tx_Payload tx)) as He.
  assert (zlen (rlp (VBytes (tx_Payload tx))) <= zlen (rlp (tx_rval tx))) as Hle.
  { apply rlp_elem_le. apply elem_of_app. left. unfold tx_fields. do 5 apply list_elem_of_further. apply list_elem_of_here. }
  change (rlp (VBytes (tx_Payload tx))) with (rlp_string (tx_Payload tx)) in Hle. lia.
Qed.

(** ** Transactions *)

(** What a receipt says of its transaction. *)
Record receipt_of {K : Keccak} (header : Header) (tx : Transaction) (r : Receipt) : Prop := MkReceiptOf {
  ro_TxHash : r_TxHash r = Transaction_Hash tx;
  ro_BlockNumber : r_BlockNumber r = h_Number header;
  ro_GasUsed : 21000 <= 2 * r_GasUsed r /\ r_GasUsed r <= tx_GasLimit tx;
  ro_Bloom : r_Bloom r = CreateBloom [r];
}.

(** The gas of receipts adds up from [used] to [total]. *)
Fixpoint gas_adds_up (used : Z) (receipts : list Receipt) (total : Z) : Prop :=
  match receipts with
  | [] => total = used
  | r :: receipts => r_CumulativeGasUsed r = used + r_GasUsed r /\ gas_adds_up (r_CumulativeGasUsed r) receipts total
  end.

Section process_ok.
Context {U : Uint256} {UL : Uint256Laws U} {S : StateDB} {BS : BlockState S} {K : Keccak} {KI : KeccakInjective K} {SP : StateDBSpec S K} {BL : BlockStateLaws SP BS}.
Context {C : CryptoPrims} {CL : CryptoLaws C} {CR : ChainReader}.
Context (g : instructionSets) (config : ChainConfig) (author : Address) (header : Header) (cfg : vmConfig).
Context (number difficulty : Z) (Hnumber : h_Number header = Some number) (Hdifficulty : h_Difficulty header = Some difficulty) (Hewasm : IsEWASM config (Some number) = false).

(** A transaction is refused for its signature, or because the message is. *)
Definition tx_refused (tx : Transaction) (d : DB) (gp : Z) (e : process_error) : Prop :=
  match e with
  | errSig e => signer_Sender (MakeSigner config (h_Number header)) tx = Ok (inr e)
  | errCore e =>
      exists msg env, AsMessage tx (MakeSigner config (h_Number header)) = Ok (inl msg) /\ chainRules env = Rules config (h_Number header) /\
        refused env msg (view d) gp = Some e
  end.

(** The EVM of a message is one the theorems about messages apply to. *)
Lemma NewEVM_ok msg db h : reachable g h -> db_ok db ->
  exists context env e h', NewEVMContext msg header author = Ok context /\ NewEVM g config context db cfg h = Ok ((env, e), h') /\ reachable g h' /\
    interpreter_env env /\ evm_ok e /\ ~ protected env e /\ VmState.statedb e = db /\ chainRules env = Rules config (h_Number header).
Proof.
  intros Hr Hd. unfold NewEVMContext. rewrite Hnumber, Hdifficulty. cbn [deref of_option obind].
  assert (NewEVMInterpreter g (Rules config (Some number)) [] h = Ok ((select_set (Rules config (Some number)) g, []), h)) as E by reflexivity.
  do 4 eexists. split; [done|]. split; [unfold NewEVM; cbn [BlockNumber]; rewrite Hewasm, E; reflexivity|]. split; [done|]. split_and!.
  - split; [by split|]. exists g, h, [], (select_set (Rules config (Some number)) g), [], h. done.
  - split; [done|apply cache_ok_empty|apply data_ok_nil|unfold CallCreateDepth; cbn; lia].
  - by intros [? _].
  - done.
  - done.
Qed.

Definition p_ok (p : pstate) : Prop := is_u64 (p_gp p) /\ 0 <= p_usedGas p /\ p_usedGas p + p_gp p < two64 /\ reachable g (p_heap p).

Definition apply_post (tx : Transaction) (p : pstate) (r : (Receipt + process_error) * pstate) : Prop :=
  let '(r, p') := r in
  reachable g (p_heap p') /\
  match r with
  | inl receipt =>
      bs_settled (p_db p') /\ p_usedGas p' = p_usedGas p + r_GasUsed receipt /\ p_gp p' = p_gp p - r_GasUsed receipt /\ r_GasUsed receipt <= p_gp p /\
      r_CumulativeGasUsed receipt = p_usedGas p' /\ no_mint (view (p_db p)) (view (p_db p')) /\ receipt_of header tx receipt
  | inr e => tx_refused tx (p_db p) (p_gp p) e
  end.

Lemma ApplyTransaction_ok tx p n : tx_ok tx -> tx_GasLimit tx < gas_max -> bs_settled (p_db p) -> ether (view (p_db p)) n -> p_ok p ->
  okp (ApplyTransaction g config author header cfg tx p) (apply_post tx p).
Proof.
  intros Htx Hgas Hd Hn (Hgp & Hu & Hs & Hh). unfold ApplyTransaction, AsMessage.
  destruct (signer_Sender_total (MakeSigner config (h_Number header)) tx) as [[from|e] Es]; rewrite Es; cbn [obind]; [|by split].
  set (msg := MkMessage from _ _ _ _ _ _ _). destruct (NewEVM_ok msg (p_db p) (p_heap p) Hh (bs_settled_ok _ Hd)) as (context & env & e & h' & -> & Ee & Hh' & Henv & He & Hp & Edb & Erules).
  cbn [obind]. rewrite Ee. cbn [obind].
  assert (msg_ok msg) as Hm by (pose proof (ok_gas tx Htx) as [? _]; split; [done|by apply ok_price|by apply ok_amount|by apply tx_data_ok]).
  pose proof (TransitionDb_safe env (msg_fuel msg) msg e (p_gp p) Henv Hm He Hp Hgp ltac:(unfold msg_fuel; pose proof (mo_gas _ Hm); lia)) as T.
  unfold ApplyMessage, wp in *. destruct (TransitionDb env _ msg _) as [[r st]|pan|]; cbn [okp obind] in *; [|by destruct pan|done].
  cbn [fst snd] in T. destruct r as [res|er]; cbn [okp].
  2:{ destruct T as (T & _). split; [done|]. exists msg, env. unfold AsMessage. rewrite Es. rewrite <- Edb. done. }
  destruct T as (Tr & T1 & T2 & T3 & T4 & T5 & _). pose proof (intrinsic_pos env msg) as T6. rewrite Edb in *.
  assert (msg_Gas msg <= p_gp p) as Hle.
  { unfold refused in Tr. destruct (refused_early msg _ _) eqn:E; [done|]. unfold refused_early in E. destruct (Z.ltb_spec (p_gp p) (msg_Gas msg)); [|done]. repeat case_match; done. }
  set (db := VmState.statedb (st_evm st)) in *. pose proof (eo_db _ T5) as Hdb. fold db in Hdb.
  assert (exists root db', (if IsByzantium config (h_Number header) then Ok ([], bs_Finalise true db)
    else r <- bs_IntermediateRoot (IsEIP158 config (h_Number header)) db ;; Ok (Hash_Bytes (fst r), snd r)) = Ok (root, db') /\
    bs_settled db' /\ no_mint (view db) (view db')) as (root & db' & -> & Hd' & Hnm).
  { destruct (IsByzantium _ _); [eexists _, _; split; [done|by apply bs_Finalise_spec]|]. destruct (T4 n Hn) as (m & _ & Hem).
    destruct (bs_IntermediateRoot_spec (IsEIP158 config (h_Number header)) db Hdb (proj1 Hem)) as (root & db' & -> & H). by eexists _, _. }
  assert (p_usedGas p +u UsedGas res = p_usedGas p + UsedGas res) as Eu by (apply u64_small; u64_lia).
  cbn [okp obind]. unfold apply_post, make_receipt, with_bloom. cbn [p_heap p_db p_usedGas p_gp r_GasUsed r_CumulativeGasUsed NewReceipt]. rewrite Eu.
  split_and!; [done|done|done|done|lia|done| |].
  - by eapply no_mint_trans.
  - split; cbn; [done|done|cbn in T1; lia|done].
Qed.

Definition process_post (bhash : Hash) (i : Z) (txs : list Transaction) (p : pstate) (r : (list Receipt + process_error) * pstate) : Prop :=
  let '(r, p') := r in
  reachable g (p_heap p') /\
  match r with
  | inl receipts =>
      bs_settled (p_db p') /\ Forall2 (receipt_of header) txs receipts /\ gas_adds_up (p_usedGas p) receipts (p_usedGas p') /\
      p_usedGas p' + p_gp p' = p_usedGas p + p_gp p /\ 0 <= p_gp p' /\ no_mint (view (p_db p)) (view (p_db p'))
  | inr e =>
      (* the first transaction that is refused *)
      exists k tx receipts p1, txs !! k = Some tx /\ process_txs g config author header cfg bhash i (take k txs) p = Ok (inl receipts, p1) /\
        tx_refused tx (bs_Prepare (Transaction_Hash tx) bhash (i + Z.of_nat k) (p_db p1)) (p_gp p1) e
  end.

Lemma process_txs_ok bhash txs : forall i p n, Forall (fun tx => tx_ok tx /\ tx_GasLimit tx < gas_max) txs -> bs_settled (p_db p) -> ether (view (p_db p)) n -> p_ok p ->
  okp (process_txs g config author header cfg bhash i txs p) (process_post bhash i txs p).
Proof.
  induction txs as [|tx txs IH]; intros i p n Htxs Hd Hn Hp; cbn [process_txs].
  { destruct Hp as ([] & _ & _ & Hh). split_and!; [done|done|constructor|done|done|done|]. by apply no_mint_same. }
  apply Forall_cons in Htxs as [[Htx Hgas] Htxs]. destruct (bs_Prepare_spec (Transaction_Hash tx) bhash i _ Hd) as [Hd0 Hb0].
  set (d0 := bs_Prepare _ _ _ _) in *. assert (ether (view d0) n) as Hn0 by (by eapply ether_same).
  pose proof (ApplyTransaction_ok tx (set_p_db p d0) n Htx Hgas Hd0 Hn0 Hp) as H.
  destruct (ApplyTransaction _ _ _ _ _ tx _) as [[r p1]|pan|] eqn:E1; cbn [okp obind] in *; [|by destruct pan|done].
  destruct H as [Hh H]. destruct r as [receipt|e].
  2:{ split; [done|]. exists 0%nat, tx, [], p. split_and!; [done|done|]. by rewrite Z.add_0_r. }
  destruct H as (Hd1 & Hu & Hg & Hle & Hc & Hnm & Hr). cbn [set_p_db p_usedGas p_gp p_db] in *. pose proof (ro_GasUsed _ _ _ Hr) as [Hpos _].
  destruct Hp as (Hgp & Hu0 & Hs & _). assert (p_ok p1) as Hp1 by (unfold p_ok; rewrite Hu, Hg; split_and!; [u64_lia|lia|lia|done]).
  destruct (Hnm n Hn0) as (n1 & _ & Hn1). specialize (IH (i + 1) p1 n1 Htxs Hd1 Hn1 Hp1). destruct (process_txs _ _ _ _ _ bhash (i + 1) txs p1) as [[r p2]|pan|] eqn:E2; cbn [okp obind] in *; [|by destruct pan|done].
  destruct IH as [Hh2 IH]. split; [done|]. destruct r as [receipts|e].
  - destruct IH as (I1 & I2 & I3 & I4 & I5 & I6). split_and!; [done|by constructor|split; [lia|by rewrite Hc]|lia|done|].
    eapply no_mint_trans; [by apply no_mint_same|]. by eapply no_mint_trans.
  - destruct IH as (k & tx' & receipts & p3 & I1 & I2 & I3). exists (Datatypes.S k), tx', (receipt :: receipts), p3. split_and!; [done| |].
    + cbn [take process_txs]. fold d0. rewrite E1. cbn [obind]. by rewrite I2.
    + by replace (i + Z.of_nat (Datatypes.S k)) with (i + 1 + Z.of_nat k) by lia.
Qed.
End process_ok.

(** ** The DAO fork *)

Section dao.
Context {S : StateDB} {BS : BlockState S} {K : Keccak} {SP : StateDBSpec S K} {BL : BlockStateLaws SP BS}.

Lemma drain_ok a d : db_ok d ->
  let '(balance, d1) := GetBalance a d in
  let d' := bs_SetBalance a 0 (AddBalance DAORefundContract balance d1) in
  db_ok d' /\ no_mint (view d) (view d').
Proof.
  intros Hd. pose proof (GetBalance_spec a d Hd) as [Hb (Hd1 & Hv1 & _)]. destruct (GetBalance a d) as [b d1]. cbn [fst snd] in *.
  destruct (AddBalance_spec DAORefundContract b d1 Hd1) as (Hd2 & Hv2 & _). set (d2 := AddBalance _ b d1) in *.
  destruct (bs_SetBalance_spec a 0 d2 Hd2) as (Hd3 & Hv3 & _). split; [done|]. intros n Hn.
  pose proof (proj1 Hn a) as Hpos. rewrite <- Hb in Hpos.
  apply (ether_same _ (view d1)) in Hn; [|intros c; by rewrite (ve_Balance _ _ Hv1)]. pose proof (proj1 Hn) as Hnn.
  apply (ether_AddBalance DAORefundContract b) in Hn; [|by apply view_wf|done].
  apply (ether_same _ (s_ensure a (view d2))) in Hn; [|intros c; by rewrite s_ensure_balance, (ve_Balance _ _ Hv2) by (by apply view_wf)].
  apply (ether_set _ a 0) in Hn; [|done]. eexists. split; [|eapply ether_same; [intros c; apply (ve_Balance _ _ Hv3)|exact Hn]].
  rewrite s_ensure_balance, (ve_Balance _ _ Hv2) by (by apply view_wf). unfold s_AddBalance. cbn [s_setBalance vBalance]. unfold upd.
  pose proof (ve_Balance _ _ Hv1 a) as E. cbn in E. destruct (Z.eqb_spec a DAORefundContract) as [<-|]; rewrite s_ensure_balance by (by apply view_wf); lia.
Qed.

(** Moving the balances of the drain list creates no ether. *)
Lemma ApplyDAOHardFork_no_mint d : db_ok d -> db_ok (ApplyDAOHardFork d) /\ no_mint (view d) (view (ApplyDAOHardFork d)).
Proof.
  intros Hd. unfold ApplyDAOHardFork. pose proof (Exist_spec DAORefundContract d Hd) as [_ (Hd1 & Hv1 & _)]. destruct (Exist _ d) as [found d1]. cbn [snd] in *.
  set (d2 := if found then d1 else _). assert (db_ok d2 /\ no_mint (view d) (view d2)) as [Hd2 Hn2].
  { assert (no_mint (view d) (view d1)) as H1 by (apply no_mint_same; intros c; by rewrite (ve_Balance _ _ Hv1)).
    subst d2. destruct found; [done|]. destruct (CreateAccount_spec DAORefundContract d1 Hd1) as (H2 & Hv2 & _). split; [done|].
    eapply no_mint_trans; [exact H1|]. eapply no_mint_trans; [apply no_mint_CreateAccount; by apply view_wf|].
    apply no_mint_same. intros c. apply (ve_Balance _ _ Hv2). }
  clearbody d2. clear Hd1 Hv1 d1 found. revert d2 Hd2 Hn2. generalize DAODrainList. intros l. induction l as [|a l IH]; intros d2 Hd2 Hn2; [done|]. cbn [fold_left].
  pose proof (drain_ok a d2 Hd2) as H. destruct (GetBalance a d2) as [b d3]. destruct H. apply IH; [done|by eapply no_mint_trans].
Qed.
End dao.

(** ** The engines *)

Section engines.
Context {S : StateDB} {BS : BlockState S} {K : Keccak} {SP : StateDBSpec S K} {BL : BlockStateLaws SP BS} {CR : ChainReader}.

(** [Finalize] of an engine creates at most [R]. *)
Definition engine_pays (Finalize : Header -> DB -> list Header -> outcome (Header * DB)) (header : Header) (uncles : list Header) (R : Z) : Prop :=
  forall d n, db_ok d -> ether (view d) n -> exists hd d' m, Finalize header d uncles = Ok (hd, d') /\ m <= n + R /\ ether (view d') m.

Lemma clique_pays header uncles : engine_pays (fun header d _ => CliqueEngine.Finalize bs_IntermediateRoot header d) header uncles 0.
Proof.
  intros d n Hd Hn. unfold CliqueEngine.Finalize. destruct (bs_IntermediateRoot_spec (IsEIP158 Config (h_Number header)) d Hd (proj1 Hn)) as (root & d' & -> & _ & H).
  destruct (H n Hn) as (m & Hm & Hm'). exists (finalized header root), d', m. split_and!; [done|lia|done].
Qed.

Lemma ethash_pays {K5 : Keccak512} {CL : ChainReaderLaws CR} v c block n :
  uncles_valid v c block -> h_Number (b_header block) = Some n -> 0 <= n < 2 ^ 63 -> Forall (fun u => h_ParentHash u <> Block_Hash block) (b_uncles block) ->
  engine_pays (EthashUncles.Finalize bs_IntermediateRoot) (b_header block) (b_uncles block) (issuance n (block_reward Config (Some n)) (b_uncles block)).
Proof.
  intros Hu En Hn Hb d total Hd Ht. destruct (accumulateRewards_ok v c block n d total Hu En Hn Hb Hd Ht) as (d1 & E & Hd1 & _ & _ & Ht1 & _).
  unfold EthashUncles.Finalize. rewrite E. cbn [obind]. destruct (bs_IntermediateRoot_spec (IsEIP158 Config (h_Number (b_header block))) d1 Hd1 (proj1 Ht1)) as (root & d' & -> & _ & H).
  destruct (H _ Ht1) as (m & Hm & Hm'). exists (with_root (b_header block) root), d', m. by split_and!.
Qed.
End engines.


(** ** The state database *)

Section statedb.
Context {SS : StateStore} {SL : StateStoreLaws SS} {K : Keccak}.

#[export] Instance statedb_BlockState : BlockState statedb_StateDB :=
  Build_BlockState statedb_StateDB (fun a x d => StateDB_SetBalance d a x) (fun th bh i d => StateDB.Prepare d th bh i) (fun del d => Finalise d del)
    (fun del d => IntermediateRoot d del) (fun h d => StateDB.GetLogs d h) bhash txIndex.

Definition statedb_settled (d : statedb) : Prop := db_good d /\ entries (jrnl d) = [].

Lemma Prepare_settled th bh i d : statedb_settled d -> statedb_settled (StateDB.Prepare d th bh i).
Proof.
  intros [[[H1 H2 H3 H4 H5] Hp] He]. split; [split; [|exact Hp]|done]. unfold StateDB.Prepare, s_tx.
  split; cbn [jrnl validRevisions nextRevisionId trie thash]; [|by rewrite He| |done|done].
  - by destruct H1; split.
  - rewrite He in *. exact H3.
Qed.

Lemma Finalise_no_mint d del : sdb_ok d -> no_mint (view_of d) (view_of (Finalise d del)).
Proof.
  intros H. apply no_mint_dropped. intros a. destruct (Finalise_ok d del H) as (_ & Hv & _). rewrite (ve_Balance _ _ Hv).
  unfold v_Finalise. cbn [vBalance]. case_match; [by right|by left].
Qed.

Lemma StateDB_SetBalance_eff a x d : sdb_ok d -> eff (s_SetBalance a x) d (StateDB_SetBalance d a x).
Proof.
  intros H. apply (GetOrNew_then d a (s_setBalance a x) (fun o d => stateObject_SetBalance d o x)); [done| |by intros; apply SetBalance_eff].
  intros v w E. destruct E. split; cbn; unfold upd; intros; try (destruct (_ =? a)); auto.
Qed.

#[export] Instance statedb_BlockStateLaws : BlockStateLaws statedb_StateDBSpec statedb_BlockState.
Proof.
  refine {| bs_settled := statedb_settled : @DB statedb_StateDB -> Prop |}.
  - by intros d [].
  - intros th bh i d H. split; [by apply Prepare_settled|done].
  - intros del d [H Hp]. split; [|by apply Finalise_no_mint]. destruct (Finalise_ok d del H) as (? & _ & _ & ?). split; [split; [done|by apply Finalise_pending]|done].
  - intros del d H Hb. destruct (IntermediateRoot_ok d del H Hb) as (d' & E & [R1 R2 _ R4 _ _]). exists (Trie_Hash (trie d')), d'. split; [done|]. split; [by split|].
    eapply no_mint_trans; [by apply Finalise_no_mint, H|]. apply no_mint_same, (ae_Balance _ _ R4).
  - intros a x d H. exact (eff_effect _ _ _ H (StateDB_SetBalance_eff a x d (proj1 H)) (grows_then d a _ (fun o d => grows_SetBalance d o x))).
Defined.
End statedb.

(** ** A block with a transfer *)

Module Transfer.
#[local] Instance prims : CryptoPrims := prims_ref (fun _ _ => Some (4 :: zeros 64)).
#[local] Instance prims_laws : CryptoLaws prims.
Proof.
  assert (forall n, Forall is_byte (zeros n)) as Hz by (intros n; apply Forall_replicate; split; lia).
  split; intros; try discriminate; try (split; [apply Hz || apply be_bytes_is_byte|reflexivity || apply zlen_be_bytes]).
  match goal with H : Ecrecover _ _ = Some _ |- _ => injection H as <- end.
  split; [apply Forall_cons_2; [split; lia|apply Hz]|reflexivity].
Qed.

#[local] Instance chain : ChainReader := {|
  Config := Build_ChainConfig (Some 18) (Some 0) None false (Some 0) 0 (Some 0) (Some 0) (Some 0) (Some 0) (Some 0) None None None None true None;
  GetHeader _ _ := None; GetHeaderByNumber _ := None; GetBlock _ _ := None;
|}.

(** The account that signs has nonce 1 and balance 100000. *)
Definition signer : Address := Eval vm_compute in be_val (drop 12 (Keccak256 (zeros 64))).
Definition accounts : gmap bytes bytes := {[ Address_Bytes signer := [1; 100000] ]}.
Definition state : statedb := New (SS := MapStore) accounts.

Definition tx : Transaction := MkTransaction 1 2 21000 (Some 53) 7 [] 72 1 1.
Definition header : Header := MkHeader 1 2 88 4 5 6 (zeros 256) (Some 131072) (Some 7) 5000000 21000 1000 [76; 84] 8 (EncodeNonce 42).
Definition block : Block := MkBlock header [] [tx].

Definition transfer_run : outcome ((list Receipt * list txLog * Z + process_error) * statedb * heap) :=
  gh <- init_sets heap0 ;;
  Process (fst gh) Config h_Coinbase (fun header d _ => CliqueEngine.Finalize bs_IntermediateRoot header d) block (MkVmConfig false false) state (snd gh).

(** The transfer uses 21000 gas at price 2, which goes to the coinbase, and moves 7. *)
Example transfer_runs :
  match transfer_run with
  | Ok (inl (receipts, logs, usedGas), d, _) =>
      (map r_GasUsed receipts, map r_Status receipts, usedGas) = ([21000], [1], 21000) /\
      map (vBalance (view_of d)) [signer; 53; 88] = [57993; 7; 42000] /\ vNonce (view_of d) signer = 2
  | _ => False
  end.
Proof. vm_compute. split_and!; reflexivity. Qed.

Lemma header_is_ok : header_ok header.
Proof.
  split; try (split; [discriminate|reflexivity]); try (eexists; split; [reflexivity|discriminate]).
  - split; [apply Forall_replicate; split; [discriminate|reflexivity]|reflexivity].
  - repeat (apply Forall_cons_2; [split; [discriminate|reflexivity]|]). apply Forall_nil_2.
  - split; [apply be_bytes_is_byte|reflexivity].
  - vm_compute. discriminate.
Qed.

Lemma tx_is_ok : tx_ok tx.
Proof. split; try discriminate; try (split; [discriminate|reflexivity]); try apply Forall_nil_2. Qed.

Lemma state_ether : ether (view_of state) 100000.
Proof.
  assert (forall a, vBalance (view_of state) a = if decide (a = signer) then 100000 else 0) as Hb.
  { intros a. unfold view_of, live, object. cbn [vBalance]. change (stateObjects state) with (∅ : gmap Address stateObject). rewrite lookup_empty.
    destruct (decide (a = signer)) as [->|Hne]; [reflexivity|]. unfold load, TryGet_account.
    destruct (in_range a) eqn:Hr; [|reflexivity]. apply in_range_iff in Hr.
    change (TryGet (trie state) (Address_Bytes a)) with (Some (default [] (accounts !! Address_Bytes a))). unfold accounts.
    rewrite lookup_singleton_ne; [reflexivity|]. intros E. apply Hne, Address_Bytes_inj; [exact Hr|by split; [discriminate|reflexivity]|done]. }
  split; [intros a; rewrite Hb; case_decide; lia|]. exists [signer]. split_and!.
  - apply NoDup_singleton.
  - intros a Ha. rewrite Hb. case_decide as E; [|done]. exfalso. apply Ha. rewrite E. apply list_elem_of_here.
  - unfold sum_balance. cbn [foldr]. rewrite Hb. by rewrite decide_True.
Qed.

Lemma accounts_plain : plain accounts.
Proof. unfold plain, accounts. by apply map_Forall_singleton. Qed.

End Transfer.
